(* ===== verification/_CoqProject ===== *)
-Q . S2P
Prelude.v
Prog.v
Sql.v
ProfitSharingTypes.v
ProfitSharing.v
ProfitSharingScenario.v
ProfitSharingInv.v
ProfitSharingVoting.v
ProfitSharingFrame.v
ProfitSharingTheorems.v
ProfitSharingService.v
CashOutTypes.v
CashOutStages.v
CashOutStore.v
CashOutInv.v
CashOutWorker.v
CashOutSystem.v
CashOutScenario.v
CashOutTheorems.v
CashOutOps.v
CashOutWorkerTheorems.v
Access.v
AccessController.v
AccessSql.v
AccessSqlReads.v
AccessSqlLaws.v
AccessTheorems.v
Bytes.v
Indexer.v
IndexerInv.v
IndexerProgress.v
SwapIndexer.v
SwapIndexerInv.v
InboundIndexer.v
InboundIndexerInv.v
IndexerTheorems.v
ConnectionTypes.v
ConnectionStore.v
ConnectionInv.v
ConnectionLink.v
ConnectionOps.v
ConnectionService.v
ConnectionSafety.v
ConnectionSystem.v
ConnectionRecovery.v
ConnectionScenario.v
ConnectionTheorems.v
Selection.v
SelectionInv.v
SelectionReplace.v
SelectionSystem.v
SelectionTheorems.v
Decimal.v
Preview.v
PreviewExposure.v
PreviewSimulation.v
PreviewTheorems.v
Combination.v
CombinationSpec.v
CombinationRefine.v
CombinationTheorems.v
Plan.v
PlanStore.v
PlanView.v
PlanReady.v
PlanInv.v
PlanScenario.v
PlanTheorems.v
PlanReads.v
Solana.v
SolanaTheorems.v
PlanAccept.v
PlanPreview.v
PlanWorker.v
PlanWorkerLaws.v
PlanRequest.v
PlanVerdict.v
PlanWorkerTheorems.v
PlanService.v
PlanServiceTheorems.v
