(* ===== verification/Prelude.v ===== *)
(** * Verification of the Athena core services

    Athena is a set of Go services over PostgreSQL.  This library models the code
    that decides things (who gets what share, whether a position is closed, who may
    do what, what an index holds) and leaves aside wiring, generated clients and the
    user interface.

    ** The program and its parts

    - _Profit sharing_ ([internal/profitsharing]): five participants propose
      allocations of 10000 basis points, vote on them, and a run-off decides ties.
      One PostgreSQL transaction per call, serialized by the lock on the round; the service
      checks who asks and decides what the answer shows.
    - _Position cash-out_ ([internal/wormtrading], [util/worm]): a user asks to close
      one margin position at the Worm provider and authorizes it; recovery workers
      claim the durable cash-out, prepare an attempt, mark it dispatched, send one
      Close and observe the result.  The store, any number of workers and the
      provider interleave.
    - _Wallet connections_ ([internal/wormtrading/worm_connections.go], [service.go] and
      the attempt, connection, credential and maintenance files of its store): a wallet
      signs a challenge of the provider, the service exchanges it for an API key that
      exists once at the provider and encrypted in the store, and revokes it again when
      the wallet retires.  Handlers of one wallet exclude each other by an in-process
      mutex; maintenance and restarts do not.
    - _Wallet selections_ ([internal/wormtrading/store/wallet_selections.go]): the
      ordered list of wallets an owner trades with, replaced as a whole at an expected
      revision; a removed wallet with anything to clean up is kept as a retirement until
      nothing blocks it.  It shares its tables with the connections.
    - _Execution previews_ ([internal/wormtrading/execution_preview_builder.go]): which
      trades a set of wallets could open.  The builder reads estimates, open positions
      and requests in flight of the provider page by page and simulates the trades
      against the USDC of each wallet with exact decimals.
    - _Market combinations_ ([internal/wormtrading/market_combinations.go] and
      [store/market_combinations.go]): an owner's named, ordered lists of markets, the
      templates of previews and runs, replaced and deleted as a whole at an expected
      revision unless an execution run holds their lock.
    - _Execution plans_ ([internal/wormtrading/execution_plans.go],
      [execution_plan_worker.go] and [store/execution_plans.go]): a request freezes the
      wallets and markets of a run; a worker claims it under a lease, reads catalogs,
      connections and balances, builds a preview and completes it with one step per wallet
      and market, or marks it failed; it expires and is deleted.
    - _Solana balances_ ([internal/wormtrading/solana_adapter.go]): reads of SOL and USDC
      balances in batches, with a probe that verifies the network, retries, the decoding of
      token accounts, and reads shared by concurrent callers.
    - _Account access_ ([internal/accountaccess], and the access half of
      [internal/accountstate/store]): roles and module levels per account, a cached
      snapshot behind two mutexes, and the tables it is read from and written to.
    - _Chain indexers_ ([internal/bscswap], [internal/bscinbound]): scanners that copy
      swaps and value transfers of the finalized chain into PostgreSQL, batch by
      batch behind a compare-and-set checkpoint, and paged query services over them.

    Profit sharing and cash-outs are independent of each other; the API server asks
    account access before it calls either, and cash-outs read wallet connections,
    credentials and execution locks that other components write (the cash-out model lets
    those rows change freely between any two steps, so its theorems hold for the rows
    the connection component writes).  Connections and selections are one system: the
    handlers of the former and the operations of the latter interleave on one database.
    Previews only read the provider.  A plan reads combinations, selections, connections
    and credentials in its transactions, its worker builds on previews and Solana balances:
    in the model of plans those tables and the locks of the runs change freely between any
    two steps.

    ** How it is modelled

    - [Prelude]: [result] for Go's [(T, error)]; [tx], the state-and-error monad of a
      database transaction ([run_tx] keeps the old state on an error); the Go string
      functions, decimal text and UUIDs the code uses; sorting; shared tactics.
    - [Prog]: code that talks to something outside is a [program] over its operations;
      a monitor ([obeys]) checks it against every admissible reply, a handler
      ([drive]) runs it, and [runs p log a] are its runs with every reply recorded, for
      theorems about all replies at once.
    - [Sql]: tables as lists of rows, one function per statement shape.  A SQL query is
      one definition, translated from the text in the sqlc file that runs it, with the
      CHECK, UNIQUE and foreign-key constraints of the migrations.
    - [Bytes]: [encoding/binary] and [encoding/base64] as the page tokens use them.

    A Go panic is not an error: [stop] tells a value that is returned from a panic
    ([Panicked]), which no handler of errors sees and which ends the process of the worker
    ([goroutine_end]), since no caller recovers.

    Machine integers are [Z] with their wrap-around written out ([u64]) or their range
    checked where the code checks it; timestamps are [Z] with PostgreSQL's microsecond
    rounding; UUIDs are [N]; Go maps are [gmap].

    - Profit sharing: [ProfitSharingTypes] (rows, constraints, queries),
      [ProfitSharing] (the operations of [operations.go] and [records.go]),
      [ProfitSharingInv] (the database invariant), [ProfitSharingVoting] (ballots),
      [ProfitSharingFrame] (rounds do not touch each other), [ProfitSharingTheorems],
      [ProfitSharingService] (the handlers of [service.go] as programs over the store, and
      their theorems).
    - Cash-out: [CashOutTypes] (rows and queries), [CashOutStages] (the provider stages
      of [util/worm], over a client class), [CashOutStore] (the store operations),
      [CashOutInv] (invariant, evolution of rows, authorizations),
      [CashOutWorker] (the worker as a program), [CashOutSystem]
      (the monitor of a worker, and the system of workers, store and sent Closes),
      [CashOutOps], [CashOutWorkerTheorems] and [CashOutTheorems].
    - Wallet connections: [ConnectionTypes] (rows and queries), [ConnectionStore] (the
      store operations), [ConnectionInv] (the invariant of the tables), [ConnectionLink]
      (a wallet's view of the database and the abstract machine it follows),
      [ConnectionOps] (every operation against that machine), [ConnectionService] (the
      handlers, the maintenance round and the start-up recovery as programs),
      [ConnectionSafety] and [ConnectionSystem] (the monitor of a handler, and the system
      of handlers, store, mutexes and provider log), [ConnectionRecovery],
      [ConnectionTheorems].
    - Wallet selections: [Selection] (rows, queries and operations), [SelectionInv] (which
      tables an operation leaves alone, and the invariant the connection operations share),
      [SelectionReplace] (what a replacement does to one owner),
      [SelectionSystem] (all operations of both components as one transition system),
      [SelectionTheorems].
    - Execution previews: [Decimal] ([decimalAmount] and the rational numbers it stands
      for), [Preview] (the builder), [PreviewExposure] (the page loops),
      [PreviewSimulation] (the steps of a wallet; input, replies and result of a build),
      [PreviewTheorems].
    - Market combinations: [Combination] (text, rows, queries, operations and handlers),
      [CombinationSpec] (Go and PostgreSQL count and trim alike; the store as a map, and the
      invariant), [CombinationRefine] (the tables implement it), [CombinationTheorems].
    - Execution plans: [Plan] (rows, constraints, queries), [PlanStore] (the operations),
      [PlanView] (one plan with its wallets, items and steps), [PlanReady] (completing a
      plan), [PlanInv] (the invariant, and all operations as one transition system),
      [PlanTheorems], [PlanReads] (reads, pages, claims, round trip);
      [PlanWorker] (the worker as a program), [PlanPreview] and [PlanWorkerLaws] (what each
      stage of a build hands on), [PlanAccept] (what the store accepts), [PlanRequest]
      (what a build asks for is acceptable), [PlanVerdict], [PlanWorkerTheorems];
      [PlanService] and [PlanServiceTheorems] (the handlers).
    - Solana balances: [Solana] (the adapter as a program over the client of the node),
      [SolanaTheorems].
    - Account access: [Access] (aggregates and requirements), [AccessController] (the
      controller against the class [AccessStore] with [AccessStoreLaws], and its
      critical sections as a transition system), [AccessSql], [AccessSqlReads] and
      [AccessSqlLaws] (the tables, which discharge the class), [AccessTheorems].
    - Chain indexers: [Indexer] (what both packages share), [SwapIndexer] and
      [InboundIndexer] (each scanner, store and service), [IndexerInv],
      [SwapIndexerInv] and [InboundIndexerInv] (the index follows the chain, typed tables,
      pages), [IndexerProgress] (catching up), [IndexerTheorems].

    Files named [...Scenario], and the ends of the files of theorems, hold concrete runs at
    which the theorems are used.

    ** What the theorems show

    - Cash-out: at most one Close is ever sent per cash-out, whatever crashes, restarts,
      lost answers and concurrent calls happen, and only after the attempt was durably
      dispatched under a live claim, before the authorized deadline, for exactly the
      intent its owner authorized; rows keep their intent and move along the lifecycle;
      creation replays; expiry touches only what was never dispatched; recoverable
      cash-outs can be claimed; a position that has become another one stops the worker
      before it writes, or is recorded for reconciliation once a Close was dispatched.
    - Wallet connections: one API key is requested per attempt, with the stored challenge
      and a valid signature; what the database says of an attempt agrees with what the
      provider answered; an unknown outcome locks its wallet until a regenerated
      credential is activated; one active attempt and one active credential per wallet;
      every operation moves one wallet along the abstract life of a connection; the
      start-up recovery ends and leaves no attempt open.
    - Wallet selections: an owner never manages more connections than the limit, whatever
      selections and connection attempts interleave; a wallet with a connection is always
      selected or retiring; a wallet leaves only when nothing of it is left, and never
      after an outcome stayed unknown; of concurrent replacements at one revision one
      succeeds; a replacement and a read do exactly what they say.
    - Execution previews: a READY trade is priced by the provider for its own market, side
      and funds, free of exposure by a complete read and paid for by the balance, and every
      step is exactly what the rules say; the page loops
      end; decimals print, parse, compare and subtract exactly; with room for the digits
      the simulation always returns, and a panic has one reason, an amount left over whose
      text is too long ([preview_panic_reason]).
    - Profit sharing: keys, references and phase shapes are invariant; a ballot closes on
      the strict winner or a run-off of exactly the tied candidates; the final proposal
      adds up to 10000; a closed round never changes; refused calls change nothing;
      snapshots of an open round show no votes of others.  The service lets only
      administrators run a round and only its participants propose and vote, in their own
      name; ballots are secret and drafts private, as the equality of the answers in states
      that differ in what is hidden; when calls of the database may fail before or after
      they are committed, an error means that nothing changed, or that exactly the one change
      of the request was committed, for one of three reasons ([error_or_commit]), of which one
      is not a fault of the database ([padded_slug_commits]).
    - Market combinations: the store is a map from identifiers to combinations, answer
      for answer, after any operations and lock changes; a locked combination does not
      change; the pages enumerate an owner's combinations; what the create handler says is
      what the get handler says.
    - Execution plans: every plan satisfies its constraints, has its wallets and items
      numbered without gaps and no steps until it is READY, then all of them; it becomes
      READY only under a running lease, with the frozen revisions and connected wallets;
      another worker's lease protects it, and once finished it does not change; what the
      worker builds the store refuses as invalid only for two kinds of reply, a backend that is
      too long and a connection without its time; its totals are the
      exact sums over the READY steps; a build ends in at most one verdict that counts, and a
      panic of the preview ends the process without one; a
      waiting plan is claimed by the next worker that asks; what was reported is what is
      read, and what a request froze is what its owner, and nobody else, is shown for as long
      as the rows of the plan are unchanged.
    - Solana balances: a balance reported as available is what the node said of that
      wallet, exactly formatted, whoever shares the read; reads need a probe that verified
      the network and the mint; at most two requests are sent for a batch of keys and for
      the tokens of a wallet.
    - Account access: the cached access is always a valid aggregate the store has held
      since the process started and, without a lost commit and outside the commit-to-publish
      window, the durable one; of two updates at one
      revision at most one succeeds; administrators meet no member requirement; the SQL
      store implements the interface the controller relies on.
    - Chain indexers: the stored index is exactly what the chain says for the blocks up
      to the cursor, for concurrent and failing scanners; scanning catches up with the
      finalized block; the block search ends with the right block; pages enumerate the
      listing; window arithmetic does not wrap.

    ** Bounds and fuel

    [search_loop] has fuel 64: each round halves a range below 2^64, and
    [first_block_found] shows that the search never runs out.  Decimal printing and the
    proposal label recurse with fuel logarithmic in the number, shown sufficient by their
    round trips.  The page walk has one step of fuel more than there are rows, shown
    sufficient.  [recovery_loop] needs one pass per hundred open attempts
    ([recovery_completes]); [disconnect_loop] revokes one credential per round and its
    theorems hold for any fuel.  The page
    loops of a preview need one step per cursor the provider hands out, since a repeated
    cursor is refused ([preview_terminates]).  The build
    of a plan has the fuel of its preview, and its theorems are about builds that return,
    which [preview_terminates] gives for the page loops.  The batches of a Solana read
    recurse with fuel the number of addresses, shown sufficient.  Everything else recurses
    structurally.

    ** Parameters

    Code outside the repository is an argument with documented behaviour as its laws:
    the UUID library and SHA-256 (classes of [Prelude] and [CashOutStore]), the HTTP
    client of the provider, go-ethereum's signature recovery and hexadecimal text
    ([EthLib]), pgx's decoding of NUMERIC ([PgNumeric]), and the hash, signature check
    and base58 text of the challenges ([ChallengeLib]), the printable alphabet of base58
    ([Base58Laws]) and PostgreSQL's [lower] ([PgLower]).  The
    JSON-RPC client of Solana and its decoding of accounts are the class [SolanaRpc]; the
    market service, the provider, the clock and the heartbeat of a plan's worker are
    operations that may answer anything.  The node of the indexers
    answers from one finalized chain ([chain_ok]), with nothing, or with an error.  The
    cipher of the credentials, the removal check of a retiring wallet and the reads of
    the wallet selection are operations that may answer anything; one service process
    runs the handlers of a wallet, as its mutex assumes.  In [SelectionSystem] a wallet
    has one owner ([owner_of]), as the wallet service that issues its identifier promises, and
    an owner selects only wallets of its own, which the API server checks before it asks
    ([internal/server/worm_wallet_selection.go], not modelled);
    each operation is one step: it is one serialized transaction.

    ** Not modelled

    Batched cash-outs beyond the statements that write cash-out rows; execution runs and
    their worker, which are a state machine of their own over the tables of the plans (the
    models above contain the locks they hold, and let them change freely); the handlers
    around the selection store and the previews, and the provider reads behind a removal;
    texts of preview errors; the parallel execution of the two groups of balance reads
    (their results do not depend on each other); API keys of accounts, sessions and
    profiles; login providers, wallets and key storage (cryptography of third parties);
    the token pipeline; market data pollers; the Etherscan gateway and manager;
    notification; gRPC and HTTP wiring, metrics, log lines and process start-up. *)

From stdpp Require Import base tactics option list list_numbers sorting strings gmap.
From Stdlib Require Import ZArith Lia Ascii.
#[export] Set Default Proof Using "Type".

Declare Scope athena_scope.
Delimit Scope athena_scope with athena.
Open Scope athena_scope.
Open Scope Z_scope.

(** ** Errors as values

    Go's [(T, error)] results: [Ok v] is [(v, nil)], [Err e] is the zero value
    with a non-nil error. *)
Inductive result (E A : Type) : Type :=
| Ok (a : A)
| Err (e : E).
Arguments Ok {E A} _.
Arguments Err {E A} _.

#[export] Instance result_ret {E} : MRet (result E) := λ A a, Ok a.
#[export] Instance result_bind {E} : MBind (result E) := λ A B k m,
  match m with Ok a => k a | Err e => Err e end.

Definition is_ok {E A} (r : result E A) : bool :=
  match r with Ok _ => true | Err _ => false end.

(** [if !cond { return err }] *)
Definition require {E} (b : bool) (e : E) : result E unit :=
  if b then Ok tt else Err e.

Definition of_option {E A} (o : option A) (e : E) : result E A :=
  match o with Some a => Ok a | None => Err e end.

Lemma result_bind_ok {E A B} (m : result E A) (k : A → result E B) b :
  m ≫= k = Ok b ↔ ∃ a, m = Ok a ∧ k a = Ok b.
Proof. destruct m; cbn; naive_solver. Qed.

Lemma require_ok {E} b (e : E) u : require b e = Ok u ↔ b = true.
Proof. destruct b, u; cbn; naive_solver. Qed.

Lemma of_option_ok {E A} (o : option A) (e : E) a :
  of_option o e = Ok a ↔ o = Some a.
Proof. destruct o; cbn; naive_solver. Qed.

(** ** Transactions

    A database transaction body: explicit state passing with early error
    returns.  [run_tx] is [BeginTx]/[Commit]/[Rollback]: an error return leaves
    the database as it was. *)
Definition tx (S E A : Type) : Type := S → result E (S * A).

#[export] Instance tx_ret {S E} : MRet (tx S E) := λ A a s, Ok (s, a).
#[export] Instance tx_bind {S E} : MBind (tx S E) := λ A B k m s,
  match m s with Ok (s', a) => k a s' | Err e => Err e end.

Definition tx_get {S E} : tx S E S := λ s, Ok (s, s).
Definition tx_put {S E} (s' : S) : tx S E unit := λ _, Ok (s', tt).
Definition tx_fail {S E A} (e : E) : tx S E A := λ _, Err e.
Definition tx_lift {S E A} (r : result E A) : tx S E A := λ s,
  match r with Ok a => Ok (s, a) | Err e => Err e end.
Definition ensure {S E} (b : bool) (e : E) : tx S E unit := tx_lift (require b e).

Definition run_tx {S E A} (m : tx S E A) (s : S) : S * result E A :=
  match m s with
  | Ok (s', a) => (s', Ok a)
  | Err e => (s, Err e)
  end.

Section TxLemmas.
Context {S E : Type}.
Implicit Types (s : S) (e : E).

Lemma tx_bind_ok {A B} (m : tx S E A) (k : A → tx S E B) s s' b :
  (m ≫= k) s = Ok (s', b) ↔ ∃ s1 a, m s = Ok (s1, a) ∧ k a s1 = Ok (s', b).
Proof.
  unfold mbind, tx_bind. destruct (m s) as [[s1 a]|e]; naive_solver.
Qed.

Lemma tx_ret_ok {A} (a b : A) s s' :
  (mret a : tx S E A) s = Ok (s', b) ↔ s' = s ∧ b = a.
Proof. unfold mret, tx_ret. naive_solver. Qed.

Lemma tx_get_ok s s' s0 : (tx_get : tx S E S) s = Ok (s', s0) ↔ s' = s ∧ s0 = s.
Proof. unfold tx_get. naive_solver. Qed.

Lemma tx_put_ok s0 s s' u : (tx_put s0 : tx S E unit) s = Ok (s', u) ↔ s' = s0.
Proof. destruct u. unfold tx_put. naive_solver. Qed.

Lemma tx_fail_ok {A} e s s' (a : A) : (tx_fail e : tx S E A) s = Ok (s', a) ↔ False.
Proof. unfold tx_fail. naive_solver. Qed.

Lemma tx_lift_ok {A} (r : result E A) s s' a :
  tx_lift r s = Ok (s', a) ↔ s' = s ∧ r = Ok a.
Proof. unfold tx_lift. destruct r; naive_solver. Qed.

Lemma ensure_ok b e s s' u :
  (ensure b e : tx S E unit) s = Ok (s', u) ↔ s' = s ∧ b = true.
Proof. unfold ensure. rewrite tx_lift_ok, require_ok. done. Qed.

(** An error return leaves the database as it was; a success keeps exactly
    what the body computed. *)
Lemma run_tx_spec {A} (m : tx S E A) s :
  match snd (run_tx m s) with
  | Ok a => m s = Ok (fst (run_tx m s), a)
  | Err e => m s = Err e ∧ fst (run_tx m s) = s
  end.
Proof. unfold run_tx. destruct (m s) as [[??]|]; done. Qed.
End TxLemmas.

(** Unfolds a successful transaction body, one statement at a time. *)
Ltac tx_step :=
  match goal with
  | H : (_ ≫= _) _ = Ok (_, _) |- _ => apply tx_bind_ok in H as (?&?&?&?)
  | H : mret _ _ = Ok (_, _) |- _ => apply tx_ret_ok in H as [-> ->]
  | H : mret tt _ = Ok (_, _) |- _ => apply tx_ret_ok in H as [-> _]
  | H : tx_get _ = Ok (_, _) |- _ => apply tx_get_ok in H as [-> ->]
  | H : tx_put _ _ = Ok (_, _) |- _ => apply tx_put_ok in H as ->
  | H : tx_fail _ _ = Ok (_, _) |- _ => apply tx_fail_ok in H as []
  | H : ensure _ _ _ = Ok (_, _) |- _ => apply ensure_ok in H as [-> ?]
  | H : tx_lift _ _ = Ok (_, _) |- _ => apply tx_lift_ok in H as [-> ?]
  | H : (_ ≫= _) = Ok _ |- _ => apply result_bind_ok in H as (?&?&?)
  | H : require _ _ = Ok _ |- _ => apply require_ok in H
  | H : of_option _ _ = Ok _ |- _ => apply of_option_ok in H
  end.
Ltac tx_inv := repeat (tx_step; simplify_eq).

(** Boolean guards as propositions. *)
Ltac bool_prop :=
  repeat match goal with
  | H : context [bool_decide _ = true] |- _ => rewrite bool_decide_eq_true in H
  | H : context [bool_decide _ = false] |- _ => rewrite bool_decide_eq_false in H
  | H : _ && _ = true |- _ => apply andb_true_iff in H as [??]
  | H : _ && _ = false |- _ => apply andb_false_iff in H
  | H : _ || _ = true |- _ => apply orb_true_iff in H
  | H : _ || _ = false |- _ => apply orb_false_iff in H as [??]
  | H : negb _ = true |- _ => apply negb_true_iff in H
  | H : negb _ = false |- _ => apply negb_false_iff in H
  | H : (_ <=? _) = true |- _ => apply Z.leb_le in H
  | H : (_ <=? _) = false |- _ => apply Z.leb_gt in H
  | H : (_ <? _) = true |- _ => apply Z.ltb_lt in H
  | H : (_ <? _) = false |- _ => apply Z.ltb_ge in H
  | H : (_ =? _) = true |- _ => apply Z.eqb_eq in H
  | H : (_ =? _) = false |- _ => apply Z.eqb_neq in H
  end.

(** ** Machine integers *)
Definition max_int32 : Z := 2 ^ 31 - 1.
Definition max_int64 : Z := 2 ^ 63 - 1.
Definition wrap32 (z : Z) : Z := (z + 2 ^ 31) mod 2 ^ 32 - 2 ^ 31.

Lemma wrap32_id z : - 2 ^ 31 ≤ z < 2 ^ 31 → wrap32 z = z.
Proof. intros. unfold wrap32. rewrite Z.mod_small; lia. Qed.

(** ** Sums *)
Section SumList.
Context {A : Type} (f : A → nat).
Lemma sum_list_with_insert l i x y :
  l !! i = Some x → (sum_list_with f (<[i := y]> l) + f x = sum_list_with f l + f y)%nat.
Proof.
  revert i. induction l as [|z l IH]; intros [|i] Hl; simplify_eq/=; [lia|]. specialize (IH i Hl). lia.
Qed.
Lemma sum_list_with_one l i x : l !! i = Some x → (f x ≤ sum_list_with f l)%nat.
Proof. revert i. induction l as [|z l IH]; intros [|i] Hl; simplify_eq/=; [lia|]. specialize (IH i Hl). lia. Qed.
Lemma sum_list_with_two l i j x y :
  l !! i = Some x → l !! j = Some y → i ≠ j → (f x + f y ≤ sum_list_with f l)%nat.
Proof.
  revert i j. induction l as [|z l IH]; intros [|i] [|j] Hi Hj Hne; simplify_eq/=.
  - pose proof (sum_list_with_one l j y Hj). lia.
  - pose proof (sum_list_with_one l i x Hi). lia.
  - specialize (IH i j Hi Hj ltac:(congruence)). lia.
Qed.
End SumList.
Definition zsum (l : list Z) : Z := foldr Z.add 0 l.

Lemma zsum_cons z l : zsum (z :: l) = z + zsum l.
Proof. done. Qed.

Lemma zsum_Permutation l l' : l ≡ₚ l' → zsum l = zsum l'.
Proof. unfold zsum. induction 1; cbn in *; lia. Qed.

Lemma zsum_app l l' : zsum (l ++ l') = zsum l + zsum l'.
Proof. unfold zsum. induction l; cbn in *; lia. Qed.

Lemma zsum_bounds l lo hi :
  (∀ z, z ∈ l → lo ≤ z ≤ hi) → lo * Z.of_nat (length l) ≤ zsum l ≤ hi * Z.of_nat (length l).
Proof.
  induction l as [|z l IH]; intros Hl; cbn [zsum foldr length]; [lia|].
  assert (lo ≤ z ≤ hi) by (apply Hl; constructor).
  ospecialize (IH _); [intros; apply Hl; by constructor|]. unfold zsum in *. nia.
Qed.

(** ** Byte strings: Go's [strings.TrimSpace]

    A Go string is a byte sequence; [TrimSpace] cuts the code points of the
    Unicode property White_Space at both ends.  Their UTF-8 encodings have one
    byte (\t \n \v \f \r and space), two (U+0085, U+00A0) or three (U+1680,
    U+2000..U+200A, U+2028, U+2029, U+202F, U+205F, U+3000). *)
Definition space1 (a : N) : bool :=
  bool_decide (9 ≤ a ∧ a ≤ 13)%N || bool_decide (a = 32%N).
Definition space2 (a b : N) : bool :=
  bool_decide (a = 0xC2%N) && (bool_decide (b = 0x85%N) || bool_decide (b = 0xA0%N)).
Definition space3 (a b c : N) : bool :=
  (bool_decide (a = 0xE1%N) && bool_decide (b = 0x9A%N) && bool_decide (c = 0x80%N))
  || (bool_decide (a = 0xE2%N) && bool_decide (b = 0x80%N)
      && (bool_decide (0x80 ≤ c ∧ c ≤ 0x8A)%N || bool_decide (c = 0xA8%N)
          || bool_decide (c = 0xA9%N) || bool_decide (c = 0xAF%N)))
  || (bool_decide (a = 0xE2%N) && bool_decide (b = 0x81%N) && bool_decide (c = 0x9F%N))
  || (bool_decide (a = 0xE3%N) && bool_decide (b = 0x80%N) && bool_decide (c = 0x80%N)).

(** [fwd = true] reads the encodings forwards (left trim); [false] reads them
    backwards, for the reversed string (right trim). *)
Fixpoint trim_head (fwd : bool) (s : string) : string :=
  match s with
  | EmptyString => EmptyString
  | String a s1 =>
      if space1 (N_of_ascii a) then trim_head fwd s1 else
      match s1 with
      | EmptyString => s
      | String b s2 =>
          if (if fwd then space2 (N_of_ascii a) (N_of_ascii b)
              else space2 (N_of_ascii b) (N_of_ascii a))
          then trim_head fwd s2 else
          match s2 with
          | EmptyString => s
          | String c s3 =>
              if (if fwd then space3 (N_of_ascii a) (N_of_ascii b) (N_of_ascii c)
                  else space3 (N_of_ascii c) (N_of_ascii b) (N_of_ascii a))
              then trim_head fwd s3 else s
          end
      end
  end.

Definition trim_space (s : string) : string :=
  String.rev (trim_head false (String.rev (trim_head true s))).

Definition blank (s : string) : bool := bool_decide (trim_space s = EmptyString).

(** Text of printable ASCII without spaces is its own trimming. *)
Definition printable (a : ascii) : Prop := (32 < N_of_ascii a < 127)%N.
Definition printable_text (s : string) : Prop := Forall printable (String.list_ascii_of_string s).

Lemma rev_app_list s t :
  String.list_ascii_of_string (String.rev_app s t)
  = rev (String.list_ascii_of_string s) ++ String.list_ascii_of_string t.
Proof. revert t. induction s as [|a s IH]; intros t; cbn; [done|]. rewrite IH. cbn. by rewrite <- (assoc_L (++)). Qed.
Lemma string_list_inj s t : String.list_ascii_of_string s = String.list_ascii_of_string t → s = t.
Proof. intros H. by rewrite <- (String.string_of_list_ascii_of_string s), H, String.string_of_list_ascii_of_string. Qed.
Lemma string_rev_rev s : String.rev (String.rev s) = s.
Proof.
  apply string_list_inj. unfold String.rev. rewrite !rev_app_list. cbn. rewrite !app_nil_r. apply rev_involutive.
Qed.
Lemma printable_rev s : printable_text s → printable_text (String.rev s).
Proof. unfold printable_text, String.rev. rewrite rev_app_list. cbn. rewrite app_nil_r. apply Forall_rev. Qed.

Lemma trim_head_printable fwd s : printable_text s → trim_head fwd s = s.
Proof.
  assert (∀ a, printable a → space1 (N_of_ascii a) = false) as H1.
  { intros a [? ?]. unfold space1. rewrite !bool_decide_eq_false_2; [done|lia|lia]. }
  assert (∀ a b, printable a → space2 (N_of_ascii a) b = false) as H2.
  { intros a b [? ?]. unfold space2. rewrite bool_decide_eq_false_2; [done|lia]. }
  assert (∀ a b c, printable a → space3 (N_of_ascii a) b c = false) as H3.
  { intros a b c [? ?]. unfold space3. rewrite !(bool_decide_eq_false_2 (N_of_ascii a = _)) by lia. done. }
  destruct s as [|a [|b [|c s]]]; [done|..]; unfold printable_text; cbn [String.list_ascii_of_string];
    rewrite !Forall_cons; intros Hp; destruct_and?; cbn [trim_head]; rewrite H1 by done; [done|..];
    rewrite !H2 by done; [by destruct fwd|]; rewrite !H3 by done; by destruct fwd.
Qed.
Lemma trim_space_printable s : printable_text s → trim_space s = s.
Proof.
  intros Hp. unfold trim_space. rewrite (trim_head_printable true) by done.
  rewrite trim_head_printable by (by apply printable_rev). apply string_rev_rev.
Qed.


(** ** Go error values

    [errors.New] and [fmt.Errorf] without a wrapped error, [fmt.Errorf] with
    [%w] behind a prefix, [errors.Join], the two context errors and the provider
    client's [*worm.Error] ([util/worm/worm.go]). *)
Record WormError := {
  we_code : Z; we_slug : string; we_message : string; we_status : string; we_status_code : Z }.
Inductive go_error :=
| ErrorText (text : string)
| ErrorWrap (prefix : string) (e : go_error)
| ErrorJoin (e1 e2 : go_error)
| ContextCanceled
| ContextDeadlineExceeded
| ErrorWorm (e : WormError).

(** [errors.Join] drops nil errors. *)
Definition errors_join (e1 e2 : option go_error) : option go_error :=
  match e1, e2 with
  | Some a, Some b => Some (ErrorJoin a b)
  | Some a, None | None, Some a => Some a
  | None, None => None
  end.

(** [errors.Is] for a leaf and [errors.As] for [*worm.Error]: the tree is searched
    depth first. *)
Fixpoint is_canceled (e : go_error) : bool :=
  match e with
  | ContextCanceled => true
  | ErrorWrap _ e' => is_canceled e'
  | ErrorJoin a b => is_canceled a || is_canceled b
  | _ => false
  end.
Fixpoint is_deadline_exceeded (e : go_error) : bool :=
  match e with
  | ContextDeadlineExceeded => true
  | ErrorWrap _ e' => is_deadline_exceeded e'
  | ErrorJoin a b => is_deadline_exceeded a || is_deadline_exceeded b
  | _ => false
  end.
Fixpoint as_worm_error (e : go_error) : option WormError :=
  match e with
  | ErrorWorm w => Some w
  | ErrorWrap _ e' => as_worm_error e'
  | ErrorJoin a b => match as_worm_error a with Some w => Some w | None => as_worm_error b end
  | _ => None
  end.

(** Decimal text of an integer ([%d], [big.Int.String]); a number has at most as
    many decimal digits as binary ones. *)
Fixpoint digits_loop (fuel : nat) (n : Z) (acc : string) : string :=
  match fuel with
  | O => acc
  | S fuel' =>
      let acc' := String (ascii_of_N (Z.to_N (48 + n mod 10))) acc in
      if n <? 10 then acc' else digits_loop fuel' (n / 10) acc'
  end.
Definition decimal_text (n : Z) : string :=
  if n <? 0 then ("-" +:+ digits_loop (S (Z.to_nat (Z.log2 (- n)))) (- n) "")%string
  else digits_loop (S (Z.to_nat (Z.log2 n))) n "".

(** [error.Error()] *)
Fixpoint error_text (e : go_error) : string :=
  match e with
  | ErrorText s => s
  | ErrorWrap p e' => (p +:+ ": " +:+ error_text e')%string
  | ErrorJoin a b => (error_text a +:+ String (ascii_of_nat 10) (error_text b))%string
  | ContextCanceled => "context canceled"
  | ContextDeadlineExceeded => "context deadline exceeded"
  | ErrorWorm w =>
      let tail := (we_message w +:+ " (" +:+ decimal_text (we_code w) +:+ " " +:+ we_slug w +:+ ")")%string in
      if bool_decide (we_status w = EmptyString) then ("worm request failed: " +:+ tail)%string
      else ("worm request failed with status " +:+ we_status w +:+ ": " +:+ tail)%string
  end.

(** [strings.ToLower] as far as the ASCII bytes of its result go: the ASCII capitals, and
    the two other code points whose lower case is ASCII (U+0130 and U+212A).
    [strings.Contains] with an ASCII pattern sees no other difference. *)
Definition lower_ascii (a : ascii) : ascii :=
  let n := N_of_ascii a in if ((65 <=? n) && (n <=? 90))%N then ascii_of_N (n + 32) else a.
Fixpoint to_lower (s : string) : string :=
  match s with
  | EmptyString => EmptyString
  | String a s1 =>
      match s1 with
      | String b s2 =>
          if bool_decide (N_of_ascii a = 0xC4%N) && bool_decide (N_of_ascii b = 0xB0%N)
          then String "i" (to_lower s2) else
          match s2 with
          | String c s3 =>
              if bool_decide (N_of_ascii a = 0xE2%N) && bool_decide (N_of_ascii b = 0x84%N)
                 && bool_decide (N_of_ascii c = 0xAA%N)
              then String "k" (to_lower s3) else String (lower_ascii a) (to_lower s1)
          | EmptyString => String (lower_ascii a) (to_lower s1)
          end
      | EmptyString => String (lower_ascii a) EmptyString
      end
  end.
Fixpoint has_prefix (p s : string) : bool :=
  match p, s with
  | EmptyString, _ => true
  | String a p', String b s' => bool_decide (a = b) && has_prefix p' s'
  | _, _ => false
  end.
Fixpoint contains (s p : string) : bool :=
  has_prefix p s || match s with EmptyString => false | String _ s' => contains s' p end.

(** ** Sorting: [sort.Slice] and [ORDER BY] *)
Section SortBy.
Context {A : Type} (le : A → A → bool).

Definition sort_by (l : list A) : list A := merge_sort (λ a b, Is_true (le a b)) l.

Lemma sort_by_Permutation l : sort_by l ≡ₚ l.
Proof. apply merge_sort_Permutation. Qed.

Lemma sort_by_elem l a : a ∈ sort_by l ↔ a ∈ l.
Proof. by rewrite sort_by_Permutation. Qed.

Lemma sort_by_length l : length (sort_by l) = length l.
Proof. by rewrite sort_by_Permutation. Qed.

Hypothesis le_total : ∀ a b, le a b = true ∨ le b a = true.
Hypothesis le_trans : ∀ a b c, le a b = true → le b c = true → le a c = true.

Lemma sort_by_sorted l : StronglySorted (λ a b, le a b = true) (sort_by l).
Proof using le_total le_trans.
  assert (HS : StronglySorted (λ a b, Is_true (le a b)) (sort_by l)).
  { apply StronglySorted_merge_sort.
    - intros a b c ?%Is_true_true ?%Is_true_true. apply Is_true_true. eauto.
    - intros a b. rewrite !Is_true_true. apply le_total. }
  induction HS as [|a l' HS IH HF]; constructor; [done|].
  eapply Forall_impl; [exact HF|]. intros ? ?%Is_true_true. done.
Qed.
End SortBy.

(** ** Third-party libraries the components share

    [google/uuid]: a UUID is its 128-bit value.  [uuid_parse] is [uuid.Parse],
    [uuid_string] is [UUID.String]; the law is the documented round trip of the
    canonical 36-character form. *)
Class UuidLib : Type := {
  uuid_parse : string → option N;
  uuid_string : N → string;
}.
Class UuidLaws `{!UuidLib} : Prop := {
  uuid_parse_string : ∀ u, (u < 2 ^ 128)%N → uuid_parse (uuid_string u) = Some u;
  uuid_parse_bound : ∀ s u, uuid_parse s = Some u → (u < 2 ^ 128)%N;
  uuid_string_printable : ∀ u, printable_text (uuid_string u);
}.

(** ** Errors of the services: a code and a text; [None] stands for the text of the error the
    status is made of. *)
Inductive Code :=
| InvalidArgument | FailedPrecondition | Internal | Unavailable | PermissionDenied | Aborted | NotFound | AlreadyExists
| DeadlineExceeded | Canceled | ResourceExhausted | Unauthenticated.
Record rpc_error := { st_code : Code; st_message : option string }.
Definition status (code : Code) (message : string) : rpc_error := {| st_code := code; st_message := Some message |}.

(** PostgreSQL text: the database collation that [ORDER BY] uses on text
    columns, and its [[:cntrl:]] character class. *)
Class PgText : Type := {
  text_le : string → string → bool;
  text_has_cntrl : string → bool;
}.
Class PgTextLaws `{!PgText} : Prop := {
  text_le_total : ∀ a b, text_le a b = true ∨ text_le b a = true;
  text_le_trans : ∀ a b c, text_le a b = true → text_le b c = true → text_le a c = true;
}.

(** [gagliardetto/solana-go]: [PublicKeyFromBase58] and [PublicKey.String]; a key
    is its 256-bit value. *)
Class SolanaLib : Type := {
  public_key_from_base58 : string → option N;
  public_key_string : N → string;
}.

(** [encoding/json] followed by [crypto/sha256] on a request value of type [P];
    [None] is a marshalling error. *)
Class DigestLib (P : Type) : Type := {
  json_sha256 : P → option string;
}.
Class DigestLaws (P : Type) `{!DigestLib P} : Prop := {
  json_sha256_length : ∀ p d, json_sha256 p = Some d → String.length d = 32%nat;
}.

(** Concrete instances, used by the witnesses: a UUID printed as its 32
    hexadecimal digits, and byte-order collation. *)
Module Concrete.
Definition hex_digit (n : N) : ascii :=
  ascii_of_N (if (n <? 10)%N then 48 + n else 87 + n).
Definition hex_value (a : ascii) : option N :=
  let n := N_of_ascii a in
  if ((48 <=? n) && (n <=? 57))%N then Some (n - 48)%N
  else if ((97 <=? n) && (n <=? 102))%N then Some (n - 87)%N
  else None.
Fixpoint hex_print (digits : nat) (u : N) : string :=
  match digits with
  | O => EmptyString
  | S d => (hex_print d (u / 16)%N +:+ String (hex_digit (u mod 16)%N) EmptyString)%string
  end.
Fixpoint hex_parse (acc : N) (s : string) : option N :=
  match s with
  | EmptyString => Some acc
  | String a s' => v ← hex_value a; hex_parse (16 * acc + v)%N s'
  end.

#[export] Instance uuid_lib : UuidLib := {|
  uuid_parse s := if bool_decide (String.length s = 32%nat) then hex_parse 0 s else None;
  uuid_string := hex_print 32;
|}.
#[export] Instance pg_text : PgText := {|
  text_le := String.leb;
  text_has_cntrl s := existsb (λ a, (N_of_ascii a <? 32)%N || (N_of_ascii a =? 127)%N)
                              (String.list_ascii_of_string s);
|}.

Lemma hex_value_digit n : (n < 16)%N → hex_value (hex_digit n) = Some n.
Proof.
  intros. unfold hex_value, hex_digit.
  destruct (N.ltb_spec n 10); rewrite N_ascii_embedding by lia;
    repeat match goal with |- context [(?a <=? ?b)%N] => destruct (N.leb_spec a b) end;
    cbn [andb]; try lia; f_equal; lia.
Qed.

Lemma hex_parse_app acc s t :
  hex_parse acc (s +:+ t) = (acc' ← hex_parse acc s; hex_parse acc' t).
Proof.
  revert acc. induction s as [|a s IH]; intros acc; [done|].
  change (String a s +:+ t) with (String a (s +:+ t)).
  cbn [hex_parse]. destruct (hex_value a); cbn; [apply IH|done].
Qed.

Lemma hex_print_parse d u acc :
  (u < 16 ^ N.of_nat d)%N →
  hex_parse acc (hex_print d u) = Some (16 ^ N.of_nat d * acc + u)%N.
Proof.
  revert u acc. induction d as [|d IH]; intros u acc Hu.
  { cbn in *. f_equal. lia. }
  rewrite Nat2N.inj_succ, N.pow_succ_r' in *.
  cbn [hex_print]. rewrite hex_parse_app, IH by (apply N.Div0.div_lt_upper_bound; lia).
  pose proof (N.div_mod u 16 ltac:(lia)) as Hdm.
  pose proof (N.mod_lt u 16 ltac:(lia)).
  cbn [hex_parse mbind option_bind]. rewrite hex_value_digit by lia.
  cbn [mbind option_bind]. f_equal. lia.
Qed.

Lemma string_length_app s t :
  String.length (s +:+ t) = (String.length s + String.length t)%nat.
Proof.
  induction s as [|a s IH]; [done|].
  change (String a s +:+ t) with (String a (s +:+ t)). cbn [String.length]. lia.
Qed.

Lemma hex_print_length d u : String.length (hex_print d u) = d.
Proof.
  revert u. induction d as [|d IH]; intros u; [done|].
  cbn [hex_print]. rewrite string_length_app, IH. cbn. lia.
Qed.

Lemma hex_value_bound a v : hex_value a = Some v → (v < 16)%N.
Proof.
  unfold hex_value. intros H.
  destruct (N.leb_spec (N_of_ascii a) 57), (N.leb_spec (N_of_ascii a) 102);
    repeat case_match; simplify_eq; bool_prop; lia.
Qed.

Lemma hex_parse_bound s acc u :
  hex_parse acc s = Some u →
  (u < 16 ^ N.of_nat (String.length s) * (acc + 1))%N.
Proof.
  revert acc. induction s as [|a s IH]; intros acc H; cbn [hex_parse] in H.
  { simplify_eq. cbn. lia. }
  apply bind_Some in H as (v & Hv%hex_value_bound & H).
  cbn [String.length]. rewrite Nat2N.inj_succ, N.pow_succ_r'.
  specialize (IH _ H). nia.
Qed.

Lemma hex_print_printable d u : printable_text (hex_print d u).
Proof.
  unfold printable_text. revert u. induction d as [|d IH]; intros u; cbn [hex_print]; [constructor|].
  assert (∀ s t, String.list_ascii_of_string (s +:+ t)
            = String.list_ascii_of_string s ++ String.list_ascii_of_string t) as ->.
  { intros s t. induction s as [|a s IHs]; [done|]. change (String a s +:+ t) with (String a (s +:+ t)).
    cbn. by rewrite IHs. }
  rewrite Forall_app. split; [apply IH|]. constructor; [|constructor].
  unfold printable, hex_digit. pose proof (N.mod_lt u 16 ltac:(lia)) as Hm. revert Hm.
  generalize (u mod 16)%N. intros n Hm. destruct (N.ltb_spec n 10); rewrite N_ascii_embedding by lia; lia.
Qed.

#[export] Instance uuid_laws : UuidLaws.
Proof.
  split.
  - intros u Hu. cbn [uuid_parse uuid_string uuid_lib].
    rewrite bool_decide_eq_true_2 by apply hex_print_length.
    rewrite hex_print_parse; [f_equal; lia|exact Hu].
  - intros s u. cbn [uuid_parse uuid_lib]. case_bool_decide as Hl; [|done].
    intros H%hex_parse_bound. rewrite Hl in H. change (16 ^ N.of_nat 32)%N with (2 ^ 128)%N in H. lia.
  - intros u. apply hex_print_printable.
Qed.

#[export] Instance pg_text_laws : PgTextLaws.
Proof.
  split; cbn.
  - intros a b. apply String.leb_total.
  - intros a b c ?%Is_true_true ?%Is_true_true. apply Is_true_true.
    by apply (transitivity (R:=String.le) (y:=b)).
Qed.

(** Base58 of a 32-byte key: a leading [1] per leading zero byte, then the
    digits of the value. *)
Definition base58_alphabet : list ascii :=
  String.list_ascii_of_string "123456789ABCDEFGHJKLMNPQRSTUVWXYZabcdefghijkmnopqrstuvwxyz".
Fixpoint index_of (a : ascii) (l : list ascii) (i : N) : option N :=
  match l with [] => None | b :: l' => if bool_decide (a = b) then Some i else index_of a l' (i + 1)%N end.
Definition byte_length (v : N) : nat := N.to_nat ((N.size v + 7) / 8).
Fixpoint leading_ones (l : list ascii) : nat :=
  match l with a :: l' => if bool_decide (a = "1"%char) then S (leading_ones l') else O | [] => O end.
Definition base58_value (l : list ascii) : option N :=
  foldl (λ acc a, v ← acc; d ← index_of a base58_alphabet 0; Some (58 * v + d)%N) (Some 0%N) l.
Fixpoint base58_digits (fuel : nat) (v : N) (acc : string) : string :=
  match fuel with
  | O => acc
  | S fuel' => if (v =? 0)%N then acc
               else base58_digits fuel' (v / 58)%N
                      (String (default "1"%char (base58_alphabet !! N.to_nat (v mod 58)%N)) acc)
  end.
#[export] Instance solana_lib : SolanaLib := {|
  public_key_from_base58 s :=
    let l := String.list_ascii_of_string s in
    v ← base58_value l;
    if bool_decide (leading_ones l + byte_length v = 32)%nat then Some v else None;
  public_key_string v :=
    String.string_of_list_ascii (replicate (32 - byte_length v) "1"%char)
    +:+ base58_digits 45 v "";
|}.

(** A 32-byte text that depends on every field. *)
Definition text_value (s : string) : N :=
  foldl (λ v a, 256 * v + N_of_ascii a + 1)%N 1%N (String.list_ascii_of_string s).
Definition digest_text (fields : list string) : string :=
  hex_print 32 (foldl (λ v s, (31 * v + text_value s) mod 2 ^ 127)%N 7%N fields).
End Concrete.
