(* ===== verification/Prog.v ===== *)
(** * Programs over operations

    Code that talks to a store, a provider, a chain node or a clock is a program
    over the operations it performs; the replies are supplied by whoever runs it.
    A monitor watches the operations; a handler runs a program against a state;
    [runs] records every operation of a run with its reply. *)

From S2P Require Import Prelude.
From stdpp Require Import base tactics option list list_numbers sorting strings gmap.
From Stdlib Require Import ZArith Lia Ascii.
#[local] Open Scope Z_scope.

Inductive program {op : Type} (resp : op → Type) (A : Type) : Type :=
| Ret (a : A)
| Vis (o : op) (k : resp o → program resp A).
Arguments Ret {op resp A} _.
Arguments Vis {op resp A} _ _.

Section Programs.
Context {op : Type} {resp : op → Type}.

#[export] Instance prog_ret : MRet (program resp) := λ A a, Ret a.
Fixpoint prog_bind_go {A B} (k : A → program resp B) (p : program resp A) : program resp B :=
  match p with Ret a => k a | Vis o f => Vis o (λ r, prog_bind_go k (f r)) end.
#[export] Instance prog_bind : MBind (program resp) := λ A B k p, prog_bind_go k p.
Definition call (o : op) : program resp (resp o) := Vis o (λ r, Ret r).

(** [x, err := p; if err != nil { return err }] *)
Definition prog_try {E A B} (k : A → program resp (result E B)) (p : program resp (result E A)) :
    program resp (result E B) :=
  r ← p; match r with Ok a => k a | Err e => mret (Err e) end.

(** ** Monitors

    [obeys s p Q]: from monitor state [s], whatever admissible replies [p] gets,
    each operation it performs is allowed and its result satisfies [Q]. *)
Section Monitor.
Context {St : Type} (δ : St → ∀ o, resp o → St) (allowed : St → op → Prop) (admissible : ∀ o, resp o → Prop).

Fixpoint obeys {A} (s : St) (p : program resp A) (Q : St → A → Prop) : Prop :=
  match p with
  | Ret a => Q s a
  | Vis o k => allowed s o ∧ ∀ r, admissible o r → obeys (δ s o r) (k r) Q
  end.

Lemma obeys_mono {A} s (p : program resp A) (Q Q' : St → A → Prop) :
  obeys s p Q → (∀ s a, Q s a → Q' s a) → obeys s p Q'.
Proof. revert s. induction p as [a|o k IH]; intros s; cbn; [auto|]. intros [? Hk] HQ. split; [done|]. eauto. Qed.
Lemma obeys_bind {A B} s (p : program resp A) (f : A → program resp B) Q :
  obeys s p (λ s' a, obeys s' (f a) Q) → obeys s (p ≫= f) Q.
Proof. revert s. induction p as [a|o k IH]; intros s; cbn; [done|]. intros [? Hk]. split; [done|]. eauto. Qed.
Lemma obeys_call s o (Q : St → resp o → Prop) :
  allowed s o → (∀ r, admissible o r → Q (δ s o r) r) → obeys s (call o) Q.
Proof. cbn. auto. Qed.
Lemma obeys_seq {A B} s (p : program resp A) (f : A → program resp B) Q Q' :
  obeys s p Q → (∀ s' a, Q s' a → obeys s' (f a) Q') → obeys s (p ≫= f) Q'.
Proof. intros Hp Hf. apply obeys_bind. by eapply obeys_mono. Qed.
Lemma obeys_try {E A B} s (p : program resp (result E A)) (f : A → program resp (result E B)) Q Q' :
  obeys s p Q → (∀ s' a, Q s' (Ok a) → obeys s' (f a) Q') → (∀ s' e, Q s' (Err e) → Q' s' (Err e)) →
  obeys s (prog_try f p) Q'.
Proof. intros Hp Hf He. unfold prog_try. eapply obeys_seq; [exact Hp|]. intros s' [a|e] Ha; [by apply Hf|by apply He]. Qed.
End Monitor.

(** ** Handlers *)
Section Handler.
Context {St : Type} (handle : ∀ o, St → St * resp o).

Fixpoint drive {A} (p : program resp A) (s : St) : St * A :=
  match p with
  | Ret a => (s, a)
  | Vis o k => let '(s', r) := handle o s in drive (k r) s'
  end.

Lemma drive_bind {A B} (p : program resp A) (f : A → program resp B) s :
  drive (p ≫= f) s = let '(s', a) := drive p s in drive (f a) s'.
Proof.
  unfold mbind, prog_bind. revert s. induction p as [a|o k IH]; intros s; cbn; [done|]. destruct (handle o s). apply IH.
Qed.
Lemma drive_try {E A B} (p : program resp (result E A)) (f : A → program resp (result E B)) s :
  drive (prog_try f p) s =
    match drive p s with (s', Ok a) => drive (f a) s' | (s', Err e) => (s', Err e) end.
Proof. unfold prog_try. rewrite drive_bind. by destruct (drive p s) as [s' [a|e]]. Qed.
End Handler.
End Programs.

(** Runs through a program whose operations are all allowed. *)
Ltac obey_with tac :=
  repeat (cbv zeta beta; lazymatch goal with
  | |- obeys _ _ _ _ (_ ≫= _) _ => apply obeys_bind
  | |- obeys ?δ ?al ?ad ?s (call ?o) ?Q => apply (obeys_call δ al ad s o Q); [tac|intros ? ?; cbn beta iota]
  | |- obeys _ _ _ _ (mret _) _ => cbn [obeys mret prog_ret]
  | |- obeys _ _ _ _ (match ?x with _ => _ end) _ => destruct x eqn:?
  end).

Notation "x ←! p ; k" := (prog_try (λ x, k) p)
  (at level 20, p at level 100, k at level 200, right associativity) : athena_scope.

(** * Traces of programs

    [runs p log a]: with the replies recorded in [log], [p] performs exactly the
    operations of [log] and returns [a].  Every run against a handler is such a run. *)
Section Traces.
Context {op : Type} {resp : op → Type}.
Abbreviation event := {o : op & resp o}.
Fixpoint runs {A} (p : program resp A) (log : list event) (a : A) : Prop :=
  match p with
  | Ret b => log = [] ∧ a = b
  | Vis o k => ∃ r rest, log = existT o r :: rest ∧ runs (k r) rest a
  end.
Lemma runs_bind {A B} (p : program resp A) (f : A → program resp B) log b :
  runs (p ≫= f) log b ↔ ∃ l1 a l2, log = l1 ++ l2 ∧ runs p l1 a ∧ runs (f a) l2 b.
Proof.
  unfold mbind, prog_bind. revert log. induction p as [a|o k IH]; intros log; cbn.
  - split; [by exists [], a, log|]. by intros (l1 & a' & l2 & -> & [-> ->] & H).
  - setoid_rewrite IH. split.
    + intros (r & rest & -> & l1 & a & l2 & -> & H1 & H2). exists (existT o r :: l1), a, l2. split; [done|]. split; [by exists r, l1|done].
    + intros (l1 & a & l2 & -> & (r & rest & -> & H1) & H2). exists r, (rest ++ l2). split; [done|]. by exists rest, a, l2.
Qed.
Lemma runs_call o log (r : resp o) : runs (call o) log r → log = [existT o r].
Proof. by intros (x & rest & -> & -> & ->). Qed.
Lemma runs_ret {A} (a b : A) log : runs (mret a : program resp A) log b → log = [] ∧ b = a.
Proof. done. Qed.
(** A run against a handler is a run. *)
Fixpoint logged {A St} (handle : ∀ o, St → St * resp o) (p : program resp A) (s : St) : list event :=
  match p with
  | Ret _ => []
  | Vis o k => let '(s', r) := handle o s in existT o r :: logged handle (k r) s'
  end.
Lemma drive_runs {A St} (handle : ∀ o, St → St * resp o) (p : program resp A) s : runs p (logged handle p s) (drive handle p s).2.
Proof. revert s. induction p as [a|o k IH]; intros s; cbn; [done|]. destruct (handle o s) as [s' r]. eauto. Qed.
End Traces.
(** Unfolds a run of a program step by step. *)
Ltac run_inv :=
  repeat match goal with
  | H : runs (mret _) _ _ |- _ => apply runs_ret in H as [-> ->]
  | H : runs ?p ?l ?r |- _ => lazymatch p with call ?o => pose proof (runs_call o l r H) as ->; clear H end
  | H : runs (_ ≫= _) _ _ |- _ => apply runs_bind in H as (? & ? & ? & -> & ? & ?)
  end.
