(* ===== verification/Sql.v ===== *)
(** * SQL tables

    A table is the list of its rows, each statement a function on it: the
    primitives the store models share and the facts about them. *)

From S2P Require Import Prelude.
From stdpp Require Import base tactics option list list_numbers sorting strings gmap.
From Stdlib Require Import ZArith Lia Ascii.
#[local] Open Scope Z_scope.

(** ** Statements *)
(** [INSERT]: rows enter one by one; [conflict] holds between two rows with the
    same value of a unique key, [check] is the table's CHECK and foreign-key
    condition, [c] the database error when one fails. *)
Fixpoint sql_insert {R E} (check : R → bool) (conflict : R → R → bool) (c : E)
    (new tbl : list R) : result E (list R) :=
  match new with
  | [] => Ok tbl
  | r :: new' =>
      if check r && negb (existsb (conflict r) tbl)
      then sql_insert check conflict c new' (tbl ++ [r]) else Err c
  end.

(** [SELECT ... :one] *)
Definition sql_one {R} (p : R → bool) (tbl : list R) : option R := head (filter (λ r, Is_true (p r)) tbl).
Definition sql_many {R} (p : R → bool) (tbl : list R) : list R := filter (λ r, Is_true (p r)) tbl.
(** [UPDATE ... WHERE p] and [DELETE ... WHERE p] *)
Definition sql_update {R} (p : R → bool) (f : R → R) (tbl : list R) : list R :=
  (λ r, if p r then f r else r) <$> tbl.
Definition sql_delete {R} (p : R → bool) (tbl : list R) : list R := sql_many (λ r, negb (p r)) tbl.
#[global] Arguments sql_many : simpl never.
#[global] Arguments sql_one : simpl never.
#[global] Arguments sql_update : simpl never.
#[global] Arguments sql_delete : simpl never.

(** [BIGINT] addition raises an error when out of range. *)
Definition bigint_in_range (z : Z) : bool := z <=? max_int64.

(** ** Text columns *)
(** [char_length] counts code points: the bytes that do not continue one. *)
Definition char_length (s : string) : Z :=
  Z.of_nat (length (filter (λ a, Is_true (negb ((128 <=? N_of_ascii a)%N && (N_of_ascii a <=? 191)%N)))
                           (String.list_ascii_of_string s))).
(** [s = btrim(s)]: no space (U+0020) at either end. *)
Definition starts_with_space (s : string) : bool :=
  match s with String a _ => (N_of_ascii a =? 32)%N | EmptyString => false end.
Definition btrimmed (s : string) : bool := negb (starts_with_space s) && negb (starts_with_space (String.rev s)).
Definition text_between (lo hi : Z) (s : string) : bool :=
  btrimmed s && (lo <=? char_length s) && (char_length s <=? hi).

(** Text that [strings.TrimSpace] leaves alone satisfies [s = btrim(s)]. *)
Lemma trim_head_cases fwd s :
  trim_head fwd s = s ∨ ∃ t, trim_head fwd s = trim_head fwd t ∧ (String.length t < String.length s)%nat.
Proof.
  destruct s as [|a s1]; [by left|].
  assert (trim_head fwd (String a s1) =
    if space1 (N_of_ascii a) then trim_head fwd s1 else
    match s1 with
    | EmptyString => String a s1
    | String b s2 =>
        if (if fwd then space2 (N_of_ascii a) (N_of_ascii b) else space2 (N_of_ascii b) (N_of_ascii a))
        then trim_head fwd s2 else
        match s2 with
        | EmptyString => String a s1
        | String c s3 =>
            if (if fwd then space3 (N_of_ascii a) (N_of_ascii b) (N_of_ascii c)
                else space3 (N_of_ascii c) (N_of_ascii b) (N_of_ascii a))
            then trim_head fwd s3 else String a s1
        end
    end) as -> by reflexivity.
  destruct (space1 _); [right; exists s1; split; [done|cbn; lia]|]. destruct s1 as [|b s2]; [by left|].
  destruct (if fwd then _ else _); [right; exists s2; split; [done|cbn; lia]|]. destruct s2 as [|c s3]; [by left|].
  destruct (if fwd then _ else _); [right; exists s3; split; [done|cbn; lia]|]. by left.
Qed.
Lemma trim_head_length fwd s : (String.length (trim_head fwd s) ≤ String.length s)%nat.
Proof.
  cut (∀ n s, (String.length s ≤ n)%nat → (String.length (trim_head fwd s) ≤ String.length s)%nat); [eauto|].
  clear s. induction n as [|n IH]; intros s Hn; destruct (trim_head_cases fwd s) as [->|(t & -> & Ht)]; try lia.
  specialize (IH t). lia.
Qed.
Lemma trim_head_same_or_shorter fwd s :
  trim_head fwd s = s ∨ (String.length (trim_head fwd s) < String.length s)%nat.
Proof.
  destruct (trim_head_cases fwd s) as [?|(t & -> & Ht)]; [by left|right]. pose proof (trim_head_length fwd t). lia.
Qed.
Lemma trim_head_space fwd s : starts_with_space s = true → trim_head fwd s ≠ s.
Proof.
  destruct s as [|a s]; [done|]. cbn [starts_with_space trim_head]. intros Ha%N.eqb_eq Heq.
  assert (space1 (N_of_ascii a) = true) as Hs by (rewrite Ha; reflexivity). rewrite Hs in Heq.
  pose proof (trim_head_length fwd s) as Hl. rewrite Heq in Hl. cbn in Hl. lia.
Qed.
Lemma string_rev_length s : String.length (String.rev s) = String.length s.
Proof.
  assert (∀ t, String.length t = length (String.list_ascii_of_string t)) as Hl by (intros t; by induction t; cbn; f_equal).
  rewrite !Hl. unfold String.rev. rewrite rev_app_list, app_nil_r. apply length_rev.
Qed.
Lemma trimmed_btrimmed s : trim_space s = s → btrimmed s = true.
Proof.
  unfold trim_space, btrimmed. intros Hs. set (t := trim_head true s) in *.
  pose proof (trim_head_length true s) as L1. pose proof (trim_head_length false (String.rev t)) as L2.
  assert (String.length (trim_head false (String.rev t)) = String.length s) as L3.
  { rewrite <- (string_rev_length (trim_head _ _)). by rewrite Hs. }
  rewrite string_rev_length in L2. fold t in L1.
  assert (trim_head false (String.rev t) = String.rev s) as H1
    by (by apply (f_equal String.rev) in Hs; rewrite string_rev_rev in Hs).
  assert (t = s) as Ht.
  { assert (trim_head true s = s ∨ (String.length (trim_head true s) < String.length s)%nat) as [Hsame|Hshort]
      by apply trim_head_same_or_shorter; [done|fold t in Hshort; lia]. }
  rewrite andb_true_iff, !negb_true_iff. split; apply not_true_is_false; intros Hsp; eapply trim_head_space in Hsp; apply Hsp.
  - exact Ht.
  - rewrite Ht in H1. exact H1.
Qed.
Lemma char_length_bytes s : 0 ≤ char_length s ≤ Z.of_nat (String.length s).
Proof.
  unfold char_length. assert (String.length s = length (String.list_ascii_of_string s)) as -> by (by induction s; cbn; f_equal).
  pose proof (length_filter (λ a, Is_true (negb ((128 <=? N_of_ascii a)%N && (N_of_ascii a <=? 191)%N)))
    (String.list_ascii_of_string s)). lia.
Qed.

(** ** Tables *)
Section Tables.
Context {R : Type}.
Implicit Types (t : list R) (p q : R → bool) (f : R → R).

Lemma elem_of_sql_many p t r : r ∈ sql_many p t ↔ p r = true ∧ r ∈ t.
Proof. unfold sql_many. rewrite list_elem_of_filter, Is_true_true. done. Qed.

Lemma sql_one_Some p t r : sql_one p t = Some r → r ∈ t ∧ p r = true.
Proof.
  unfold sql_one. intros H%head_Some_elem_of.
  apply list_elem_of_filter in H as [?%Is_true_true ?]. done.
Qed.

Lemma sql_one_is_Some p t r : r ∈ t → p r = true → is_Some (sql_one p t).
Proof.
  intros Hr Hp. unfold sql_one.
  destruct (filter _ t) as [|x l] eqn:E; [|eauto].
  exfalso. assert (r ∈ filter (λ r, Is_true (p r)) t) as Hf.
  { apply list_elem_of_filter. by rewrite Is_true_true. }
  rewrite E in Hf. by apply not_elem_of_nil in Hf.
Qed.

Lemma sql_one_None p t : sql_one p t = None → ∀ r, r ∈ t → p r = false.
Proof.
  intros H r Hr. destruct (p r) eqn:E; [|done].
  destruct (sql_one_is_Some p t r Hr E). congruence.
Qed.

Lemma existsb_elem p t : existsb p t = true ↔ ∃ r, r ∈ t ∧ p r = true.
Proof. rewrite existsb_exists. by setoid_rewrite <- list_elem_of_In. Qed.

Lemma existsb_elem_false p t : existsb p t = false ↔ ∀ r, r ∈ t → p r = false.
Proof.
  rewrite <- not_true_iff_false, existsb_elem. split.
  - intros H r Hr. destruct (p r) eqn:?; [|done]. destruct H; eauto.
  - intros H (r & Hr & Hp). rewrite (H r Hr) in Hp. done.
Qed.

Lemma elem_of_sql_update p f t x :
  x ∈ sql_update p f t ↔ ∃ r, r ∈ t ∧ x = if p r then f r else r.
Proof. unfold sql_update. rewrite list_elem_of_fmap. naive_solver. Qed.

Lemma elem_of_sql_delete p t r : r ∈ sql_delete p t ↔ p r = false ∧ r ∈ t.
Proof. unfold sql_delete. rewrite elem_of_sql_many, negb_true_iff. done. Qed.

(** An update that keeps a key keeps the key column. *)
Lemma sql_update_key {K} (k : R → K) p f t :
  (∀ r, k (f r) = k r) → k <$> sql_update p f t = k <$> t.
Proof.
  intros H. unfold sql_update. rewrite <- list_fmap_compose.
  apply list_fmap_ext. intros i r _. cbn. destruct (p r); auto.
Qed.

Lemma NoDup_key_inj {K} (k : R → K) t r r' :
  NoDup (k <$> t) → r ∈ t → r' ∈ t → k r = k r' → r = r'.
Proof.
  intros Hnd [i Hi]%list_elem_of_lookup [j Hj]%list_elem_of_lookup Hk.
  assert (i = j) as ->; [|congruence].
  apply (NoDup_lookup (k <$> t) i j (k r)); [done| |];
    rewrite list_lookup_fmap, ?Hi, ?Hj; cbn; congruence.
Qed.

(** When only the row with key [k r] matches, the update rewrites that row. *)
Lemma sql_update_one {K} (k : R → K) p f t r x :
  NoDup (k <$> t) → r ∈ t → p r = true → (∀ r', p r' = true → k r' = k r) →
  x ∈ sql_update p f t ↔ x = f r ∨ (x ∈ t ∧ k x ≠ k r).
Proof.
  intros Hnd Hr Hp Hk. rewrite elem_of_sql_update. split.
  - intros (y & Hy & ->). destruct (p y) eqn:E.
    + left. f_equal. eapply NoDup_key_inj; eauto.
    + right. split; [done|]. intros Hky.
      assert (y = r) as -> by (eapply NoDup_key_inj; eauto). congruence.
  - intros [->|[Hx Hne]].
    + exists r. by rewrite Hp.
    + exists x. split; [done|]. destruct (p x) eqn:E; [|done]. by specialize (Hk x E).
Qed.

Lemma sql_many_app p t t' : sql_many p (t ++ t') = sql_many p t ++ sql_many p t'.
Proof. apply filter_app. Qed.

Lemma sql_many_none p t : (∀ r, r ∈ t → p r = false) → sql_many p t = [].
Proof.
  intros H. destruct (sql_many p t) as [|r l] eqn:E; [done|].
  assert (r ∈ sql_many p t) as Hr by (rewrite E; constructor).
  apply elem_of_sql_many in Hr as [Hp Hr]. rewrite H in Hp; done.
Qed.

Lemma sql_many_all p t : (∀ r, r ∈ t → p r = true) → sql_many p t = t.
Proof.
  intros H. induction t as [|r t IH]; [done|]. unfold sql_many in *.
  rewrite filter_cons_True by (apply Is_true_true, H; constructor).
  rewrite IH; [done|]. intros ? ?. apply H. by constructor.
Qed.

Lemma sql_many_delete p q t :
  (∀ r, p r = true → q r = false) → sql_many p (sql_delete q t) = sql_many p t.
Proof.
  intros H. unfold sql_delete, sql_many. rewrite list_filter_filter_l; [done|].
  intros r ?%Is_true_true. apply Is_true_true. rewrite H; done.
Qed.

Lemma sql_delete_none p t : (∀ r, r ∈ t → p r = false) → sql_delete p t = t.
Proof. intros H. apply sql_many_all. intros r Hr. by rewrite H. Qed.

(** Rows keep a filter when the update does. *)
Lemma sql_many_update_length p q f t :
  (∀ r, p (f r) = p r) → length (sql_many p (sql_update q f t)) = length (sql_many p t).
Proof.
  intros H. induction t as [|r t IH]; [done|].
  unfold sql_many, sql_update in *. rewrite fmap_cons, !filter_cons.
  destruct (q r); rewrite ?H; repeat case_decide; cbn; auto; tauto.
Qed.

(** Two tables with the same column have rows with the same values in it. *)
Lemma column_elem {K} (k : R → K) t t' r :
  k <$> t' = k <$> t → r ∈ t' → ∃ r', r' ∈ t ∧ k r' = k r.
Proof.
  intros Hc Hr. assert (k r ∈ k <$> t) as (r' & ? & ?)%list_elem_of_fmap; [|eauto].
  rewrite <- Hc. apply list_elem_of_fmap. eauto.
Qed.

Lemma column_filter_length {K} (k : R → K) (p : K → bool) t t' :
  k <$> t' = k <$> t →
  length (sql_many (λ r, p (k r)) t') = length (sql_many (λ r, p (k r)) t).
Proof.
  revert t'. induction t as [|r t IH]; intros [|r' t']; cbn; intros Hc; simplify_eq; [done|].
  unfold sql_many in *. rewrite !filter_cons.
  match goal with H : k _ = k _ |- _ => rewrite H end.
  case_decide; cbn; auto.
Qed.

Lemma NoDup_sql_many {K} (k : R → K) p t : NoDup (k <$> t) → NoDup (k <$> sql_many p t).
Proof.
  induction t as [|r t IH]; [done|]. rewrite fmap_cons, NoDup_cons. intros [Hr Ht].
  unfold sql_many in *. rewrite filter_cons. case_decide; [|auto].
  rewrite fmap_cons, NoDup_cons. split; [|auto].
  intros (x & ? & [_ ?]%list_elem_of_filter)%list_elem_of_fmap. apply Hr, list_elem_of_fmap. eauto.
Qed.

Lemma sql_insert_ok {E} check conflict (c : E) new t t' :
  sql_insert check conflict c new t = Ok t' →
  t' = t ++ new ∧ (∀ r, r ∈ new → check r = true).
Proof.
  revert t. induction new as [|r new IH]; intros t H; cbn in H.
  { simplify_eq. rewrite app_nil_r. split; [done|]. by intros ? ?%not_elem_of_nil. }
  destruct (check r && _) eqn:Ec; [|done]. bool_prop.
  apply IH in H as [-> Hc]. rewrite <- app_assoc. split; [done|].
  intros x [->|?]%elem_of_cons; auto.
Qed.

Lemma sql_insert_NoDup {K E} (k : R → K) check conflict (c : E) new t t' :
  (∀ a b, k a = k b → conflict a b = true) →
  sql_insert check conflict c new t = Ok t' → NoDup (k <$> t) → NoDup (k <$> t').
Proof.
  intros Hk. revert t. induction new as [|r new IH]; intros t H Hnd; cbn in H; [by simplify_eq|].
  destruct (check r && _) eqn:Ec; [|done]. apply andb_true_iff in Ec as [_ Hex].
  rewrite negb_true_iff, existsb_elem_false in Hex. eapply IH; [exact H|].
  rewrite fmap_app. apply NoDup_app. split_and!; [done| |apply NoDup_singleton].
  intros x (y & -> & Hy)%list_elem_of_fmap Hx%list_elem_of_singleton.
  specialize (Hex y Hy). rewrite (Hk r y) in Hex; done.
Qed.
End Tables.

