(* ===== verification/ProfitSharingTypes.v ===== *)
(** * Profit sharing: data and database

    The rows of [internal/profitsharing/store] (the sqlc row types and the
    domain types of [types.go]), the tables with their constraints
    ([migrations/000001_init.sql]) and one definition per SQL query of
    [queries/profit_sharing.sql], as the generated [sqlc/profit_sharing.sql.go]
    runs it.  A table is the list of its rows. *)

From S2P Require Import Prelude Sql.
From stdpp Require Import base tactics option list list_numbers sorting strings gmap.
From Stdlib Require Import ZArith Lia Ascii.
#[local] Open Scope Z_scope.

(** ** Enumerations and errors *)
Inductive RoundPhase := RoundPhaseDraft | RoundPhaseCollecting | RoundPhaseVoting | RoundPhaseClosed.
Inductive ProposalStatus := ProposalStatusDraft | ProposalStatusSubmitted.
Inductive BallotStatus := BallotOpen | BallotClosed.

#[export] Instance RoundPhase_eq_dec : EqDecision RoundPhase.
Proof. solve_decision. Defined.
#[export] Instance ProposalStatus_eq_dec : EqDecision ProposalStatus.
Proof. solve_decision. Defined.
#[export] Instance BallotStatus_eq_dec : EqDecision BallotStatus.
Proof. solve_decision. Defined.

Definition requiredParticipantCount : nat := 5.

(** [fmt.Errorf("%w: ...", Sentinel)] is its sentinel; [ErrNoRows] is
    [pgx.ErrNoRows]; [ErrDB c] is a wrapped database error, [c] naming the
    violated constraint. *)
Inductive PSError :=
| ErrNotConfigured | ErrRoundNotFound | ErrProposalNotFound | ErrBallotNotFound
| ErrCandidateNotFound | ErrNotParticipant | ErrRoundAlreadyExists | ErrRevisionConflict
| ErrInvalidPhase | ErrInvalidParticipants | ErrInvalidProposal | ErrIncompleteProposal
| ErrNotAllProposalsSubmitted | ErrNotAllVotesSubmitted | ErrSelfVote
| ErrInvalidAccountID | ErrActiveBallotMissing | ErrNoRows | ErrDB (constraint : string).

#[export] Instance PSError_eq_dec : EqDecision PSError.
Proof. solve_decision. Defined.

(** ** Inputs of the operations *)
Record ParticipantInput := {
  pi_account_id : string; pi_username : string; pi_display_name : string;
  pi_display_order : Z; pi_baseline_responsibility : string }.
Record ProposalItemInput := {
  ii_participant_account_id : string; ii_responsibility : string; ii_basis_points : option Z }.

(** ** Rows (sqlc models); the tables' [NOT NULL UUID] columns are UUID values *)
Record ProfitSharingRound := {
  r_id : Z; r_slug : string; r_title : string; r_phase : RoundPhase; r_revision : Z;
  r_active_ballot_number : option Z; r_final_proposal_id : option string;
  r_created_at : Z; r_updated_at : Z; r_opened_at : option Z;
  r_published_at : option Z; r_closed_at : option Z }.
Record ProfitSharingParticipant := {
  pt_round_id : Z; pt_account_id : N; pt_username : string; pt_display_name : string;
  pt_display_order : Z; pt_baseline_responsibility : string }.
Record ProfitSharingProposal := {
  pp_id : string; pp_round_id : Z; pp_author_account_id : N; pp_status : ProposalStatus;
  pp_anonymous_label : option string; pp_revision : Z; pp_created_at : Z; pp_updated_at : Z;
  pp_submitted_at : option Z }.
Record ProfitSharingProposalItem := {
  it_round_id : Z; it_proposal_id : string; it_participant_account_id : N;
  it_responsibility : string; it_basis_points : option Z }.
Record ProfitSharingBallot := {
  b_round_id : Z; b_ballot_number : Z; b_status : BallotStatus; b_created_at : Z;
  b_closed_at : option Z }.
Record ProfitSharingBallotCandidate := {
  c_round_id : Z; c_ballot_number : Z; c_proposal_id : string }.
Record ProfitSharingVote := {
  v_round_id : Z; v_ballot_number : Z; v_voter_account_id : N; v_proposal_id : string;
  v_proposal_author_account_id : N; v_created_at : Z; v_updated_at : Z }.

Record DB := {
  rounds : list ProfitSharingRound;
  participants : list ProfitSharingParticipant;
  proposals : list ProfitSharingProposal;
  items : list ProfitSharingProposalItem;
  ballots : list ProfitSharingBallot;
  candidates : list ProfitSharingBallotCandidate;
  votes : list ProfitSharingVote }.

Definition empty_db : DB := Build_DB [] [] [] [] [] [] [].

Definition set_rounds t db := Build_DB t (participants db) (proposals db) (items db) (ballots db) (candidates db) (votes db).
Definition set_participants t db := Build_DB (rounds db) t (proposals db) (items db) (ballots db) (candidates db) (votes db).
Definition set_proposals t db := Build_DB (rounds db) (participants db) t (items db) (ballots db) (candidates db) (votes db).
Definition set_items t db := Build_DB (rounds db) (participants db) (proposals db) t (ballots db) (candidates db) (votes db).
Definition set_ballots t db := Build_DB (rounds db) (participants db) (proposals db) (items db) t (candidates db) (votes db).
Definition set_candidates t db := Build_DB (rounds db) (participants db) (proposals db) (items db) (ballots db) t (votes db).
Definition set_votes t db := Build_DB (rounds db) (participants db) (proposals db) (items db) (ballots db) (candidates db) t.

(** ** SQL primitives *)
Abbreviation ps_tx := (tx DB PSError).

(** [errors.Is(err, pgx.ErrNoRows)] replaced by a sentinel. *)
Definition on_no_rows {A} (m : ps_tx A) (e : PSError) : ps_tx A := λ s,
  match m s with
  | Err ErrNoRows => Err e
  | r => r
  end.
(** [isConstraint(err, c)] replaced by a sentinel. *)
Definition on_constraint {A} (m : ps_tx A) (c : string) (e : PSError) : ps_tx A := λ s,
  match m s with
  | Err (ErrDB c') => if bool_decide (c = c') then Err e else Err (ErrDB c')
  | r => r
  end.

Lemma on_no_rows_ok {A} (m : ps_tx A) e s r : on_no_rows m e s = Ok r ↔ m s = Ok r.
Proof. unfold on_no_rows. destruct (m s) as [|[]]; naive_solver. Qed.
Lemma on_constraint_ok {A} (m : ps_tx A) c e s r : on_constraint m c e s = Ok r ↔ m s = Ok r.
Proof.
  unfold on_constraint. destruct (m s) as [|[]]; try naive_solver.
  case_bool_decide; naive_solver.
Qed.

(** ** Queries on rounds *)
Definition update_round (p : ProfitSharingRound → bool) (f : ProfitSharingRound → ProfitSharingRound)
    : ps_tx ProfitSharingRound :=
  db ← tx_get;
  r ← tx_lift (of_option (sql_one p (rounds db)) ErrNoRows);
  _ ← ensure (bigint_in_range (r_revision (f r))) (ErrDB "bigint out of range");
  _ ← tx_put (set_rounds (sql_update p f (rounds db)) db);
  mret (f r).

(** [id] is the value drawn from the table's BIGSERIAL sequence. *)
Definition CreateProfitSharingRound (now id : Z) (slug title : string) : ps_tx ProfitSharingRound :=
  db ← tx_get;
  let row := {| r_id := id; r_slug := slug; r_title := title; r_phase := RoundPhaseDraft;
                r_revision := 1; r_active_ballot_number := None; r_final_proposal_id := None;
                r_created_at := now; r_updated_at := now; r_opened_at := None;
                r_published_at := None; r_closed_at := None |} in
  _ ← ensure (negb (existsb (λ r, r_id r =? id) (rounds db))) (ErrDB "profit_sharing_round_pkey");
  t ← tx_lift (sql_insert (λ r, negb (bool_decide (r_slug r = EmptyString)))
                 (λ r r', bool_decide (r_slug r = r_slug r')) (ErrDB "profit_sharing_round_slug_unique")
                 [row] (rounds db));
  _ ← tx_put (set_rounds t db);
  mret row.

Definition GetProfitSharingRoundBySlug (slug : string) (db : DB) : option ProfitSharingRound :=
  sql_one (λ r, bool_decide (r_slug r = slug)) (rounds db).

Definition UpdateProfitSharingRoundConfig (now : Z) (slug title : string) (round_id expected : Z)
    : ps_tx ProfitSharingRound :=
  db ← tx_get;
  let p r := (r_id r =? round_id) && bool_decide (r_phase r = RoundPhaseDraft) && (r_revision r =? expected) in
  _ ← ensure (negb (existsb p (rounds db)
                    && existsb (λ r, negb (p r) && bool_decide (r_slug r = slug)) (rounds db)))
       (ErrDB "profit_sharing_round_slug_unique");
  update_round p (λ r, {| r_id := r_id r; r_slug := slug; r_title := title; r_phase := r_phase r;
    r_revision := r_revision r + 1; r_active_ballot_number := r_active_ballot_number r;
    r_final_proposal_id := r_final_proposal_id r; r_created_at := r_created_at r; r_updated_at := now;
    r_opened_at := r_opened_at r; r_published_at := r_published_at r; r_closed_at := r_closed_at r |}).

Definition OpenProfitSharingRound (now round_id expected : Z) : ps_tx ProfitSharingRound :=
  update_round
    (λ r, (r_id r =? round_id) && bool_decide (r_phase r = RoundPhaseDraft) && (r_revision r =? expected))
    (λ r, {| r_id := r_id r; r_slug := r_slug r; r_title := r_title r; r_phase := RoundPhaseCollecting;
      r_revision := r_revision r + 1; r_active_ballot_number := r_active_ballot_number r;
      r_final_proposal_id := r_final_proposal_id r; r_created_at := r_created_at r; r_updated_at := now;
      r_opened_at := Some now; r_published_at := r_published_at r; r_closed_at := r_closed_at r |}).

Definition PublishProfitSharingRound (now round_id expected : Z) : ps_tx ProfitSharingRound :=
  update_round
    (λ r, (r_id r =? round_id) && bool_decide (r_phase r = RoundPhaseCollecting) && (r_revision r =? expected))
    (λ r, {| r_id := r_id r; r_slug := r_slug r; r_title := r_title r; r_phase := RoundPhaseVoting;
      r_revision := r_revision r + 1; r_active_ballot_number := Some 1;
      r_final_proposal_id := r_final_proposal_id r; r_created_at := r_created_at r; r_updated_at := now;
      r_opened_at := r_opened_at r; r_published_at := Some now; r_closed_at := r_closed_at r |}).

Definition AdvanceProfitSharingRunoffBallot (now next round_id expected : Z) : ps_tx ProfitSharingRound :=
  update_round
    (λ r, (r_id r =? round_id) && bool_decide (r_phase r = RoundPhaseVoting) && (r_revision r =? expected))
    (λ r, {| r_id := r_id r; r_slug := r_slug r; r_title := r_title r; r_phase := r_phase r;
      r_revision := r_revision r + 1; r_active_ballot_number := Some next;
      r_final_proposal_id := r_final_proposal_id r; r_created_at := r_created_at r; r_updated_at := now;
      r_opened_at := r_opened_at r; r_published_at := r_published_at r; r_closed_at := r_closed_at r |}).

Definition CloseProfitSharingRound (now : Z) (final : string) (round_id expected : Z) : ps_tx ProfitSharingRound :=
  db ← tx_get;
  let p r := (r_id r =? round_id) && bool_decide (r_phase r = RoundPhaseVoting) && (r_revision r =? expected) in
  _ ← ensure (negb (existsb p (rounds db))
              || existsb (λ q, bool_decide (pp_id q = final) && (pp_round_id q =? round_id)) (proposals db))
       (ErrDB "profit_sharing_round_final_proposal_fk");
  update_round p
    (λ r, {| r_id := r_id r; r_slug := r_slug r; r_title := r_title r; r_phase := RoundPhaseClosed;
      r_revision := r_revision r + 1; r_active_ballot_number := r_active_ballot_number r;
      r_final_proposal_id := Some final; r_created_at := r_created_at r; r_updated_at := now;
      r_opened_at := r_opened_at r; r_published_at := r_published_at r; r_closed_at := Some now |}).

(** ** Queries on participants *)

Definition ascii_alnum (a : ascii) : bool :=
  let n := N_of_ascii a in
  ((48 <=? n) && (n <=? 57))%N || ((65 <=? n) && (n <=? 90))%N || ((97 <=? n) && (n <=? 122))%N.
Definition username_char (a : ascii) : bool :=
  ascii_alnum a || (N_of_ascii a =? 46)%N || (N_of_ascii a =? 45)%N.

Section Queries.
Context {PT : PgText}.

(** The CHECK constraints of [profit_sharing_participant]. *)
Definition participant_check (r : ProfitSharingParticipant) : bool :=
  (3 <=? char_length (pt_username r)) && (char_length (pt_username r) <=? 42)
  && forallb username_char (String.list_ascii_of_string (pt_username r))
  && existsb ascii_alnum (String.list_ascii_of_string (pt_username r))
  && (1 <=? char_length (pt_display_name r)) && (char_length (pt_display_name r) <=? 80)
  && negb (text_has_cntrl (pt_display_name r))
  && (0 <? pt_display_order r).
(** Primary key (round_id, account_id), unique (round_id, display_order). *)
Definition participant_conflict (r r' : ProfitSharingParticipant) : bool :=
  (pt_round_id r =? pt_round_id r')
  && ((pt_account_id r =? pt_account_id r')%N || (pt_display_order r =? pt_display_order r')).

Definition BatchCreateProfitSharingParticipants (rows : list ProfitSharingParticipant) : ps_tx unit :=
  db ← tx_get;
  t ← tx_lift (sql_insert participant_check participant_conflict
                 (ErrDB "profit_sharing_participant") rows (participants db));
  tx_put (set_participants t db).

Definition participant_le (a b : ProfitSharingParticipant) : bool :=
  (pt_display_order a <? pt_display_order b)
  || ((pt_display_order a =? pt_display_order b) && (pt_account_id a <=? pt_account_id b)%N).
Definition ListProfitSharingParticipants (round_id : Z) (db : DB) : list ProfitSharingParticipant :=
  sort_by participant_le (sql_many (λ r, pt_round_id r =? round_id) (participants db)).

Definition GetProfitSharingParticipant (round_id : Z) (account : N) (db : DB) : option ProfitSharingParticipant :=
  sql_one (λ r, (pt_round_id r =? round_id) && (pt_account_id r =? account)%N) (participants db).

(** [DELETE FROM profit_sharing_participant WHERE round_id = ...] with its
    [ON DELETE CASCADE] references: the proposals authored by a deleted
    participant with their items, candidacies and votes, the items about it and
    the votes it cast. *)
Definition DeleteProfitSharingParticipants (round_id : Z) : ps_tx unit :=
  db ← tx_get;
  let gone p := (pp_round_id p =? round_id)
                && existsb (λ r, (pt_round_id r =? round_id) && (pt_account_id r =? pp_author_account_id p)%N)
                     (participants db) in
  let gone_id i := existsb (λ p, gone p && bool_decide (pp_id p = i)) (proposals db) in
  let gone_account a := existsb (λ r, (pt_round_id r =? round_id) && (pt_account_id r =? a)%N)
                          (participants db) in
  _ ← ensure (negb (existsb (λ r, (r_id r =? round_id)
                       && match r_final_proposal_id r with Some i => gone_id i | None => false end) (rounds db)))
       (ErrDB "profit_sharing_round_final_proposal_fk");
  tx_put {|
    rounds := rounds db;
    participants := sql_delete (λ r, pt_round_id r =? round_id) (participants db);
    proposals := sql_delete gone (proposals db);
    items := sql_delete (λ i, (it_round_id i =? round_id)
               && (gone_id (it_proposal_id i) || gone_account (it_participant_account_id i))) (items db);
    ballots := ballots db;
    candidates := sql_delete (λ c, (c_round_id c =? round_id) && gone_id (c_proposal_id c)) (candidates db);
    votes := sql_delete (λ v, (v_round_id v =? round_id)
               && (gone_id (v_proposal_id v) || gone_account (v_voter_account_id v))) (votes db) |}.

(** ** Queries on proposals and their items *)

(** Primary key id, unique (round_id, author_account_id); the author is a
    participant of the round. *)
Definition BatchCreateProfitSharingProposals (now round_id : Z) (rows : list (string * N)) : ps_tx unit :=
  db ← tx_get;
  t ← tx_lift (sql_insert
        (λ p, existsb (λ r, (pt_round_id r =? pp_round_id p) && (pt_account_id r =? pp_author_account_id p)%N)
                (participants db))
        (λ p p', bool_decide (pp_id p = pp_id p')
                 || ((pp_round_id p =? pp_round_id p') && (pp_author_account_id p =? pp_author_account_id p')%N))
        (ErrDB "profit_sharing_proposal")
        ((λ x, {| pp_id := x.1; pp_round_id := round_id; pp_author_account_id := x.2;
                  pp_status := ProposalStatusDraft; pp_anonymous_label := None; pp_revision := 1;
                  pp_created_at := now; pp_updated_at := now; pp_submitted_at := None |}) <$> rows)
        (proposals db));
  tx_put (set_proposals t db).

(** Primary key (proposal_id, participant_account_id), the CHECK on basis
    points and the two foreign keys. *)
Definition insert_items (rows : list ProfitSharingProposalItem) : ps_tx unit :=
  db ← tx_get;
  t ← tx_lift (sql_insert
        (λ i, match it_basis_points i with None => true | Some b => (0 <=? b) && (b <=? 10000) end
              && existsb (λ p, bool_decide (pp_id p = it_proposal_id i) && (pp_round_id p =? it_round_id i))
                   (proposals db)
              && existsb (λ r, (pt_round_id r =? it_round_id i)
                               && (pt_account_id r =? it_participant_account_id i)%N) (participants db))
        (λ i i', bool_decide (it_proposal_id i = it_proposal_id i')
                 && (it_participant_account_id i =? it_participant_account_id i')%N)
        (ErrDB "profit_sharing_proposal_item") rows (items db));
  tx_put (set_items t db).

(** [INSERT ... SELECT] over proposal JOIN participant of the round. *)
Definition CreateInitialProfitSharingProposalItems (round_id : Z) : ps_tx unit :=
  db ← tx_get;
  insert_items (p ← sql_many (λ p, pp_round_id p =? round_id) (proposals db);
                r ← sql_many (λ r, pt_round_id r =? pp_round_id p) (participants db);
                [{| it_round_id := pp_round_id p; it_proposal_id := pp_id p;
                    it_participant_account_id := pt_account_id r;
                    it_responsibility := pt_baseline_responsibility r; it_basis_points := None |}]).

(** [NULLIF(basis_points, -1)] *)
Definition BatchCreateProfitSharingProposalItems (round_id : Z) (proposal_id : string)
    (rows : list (N * string * Z)) : ps_tx unit :=
  insert_items ((λ x, {| it_round_id := round_id; it_proposal_id := proposal_id;
                         it_participant_account_id := x.1.1; it_responsibility := x.1.2;
                         it_basis_points := if x.2 =? -1 then None else Some x.2 |}) <$> rows).

Definition DeleteProfitSharingProposalItems (round_id : Z) (proposal_id : string) : ps_tx unit :=
  db ← tx_get;
  tx_put (set_items (sql_delete (λ i, (it_round_id i =? round_id) && bool_decide (it_proposal_id i = proposal_id))
                       (items db)) db).

Definition GetProfitSharingProposalByAuthorForUpdate (round_id : Z) (author : N) (db : DB)
    : option ProfitSharingProposal :=
  sql_one (λ p, (pp_round_id p =? round_id) && (pp_author_account_id p =? author)%N) (proposals db).

(** [ORDER BY anonymous_label NULLS LAST, id]; a text column's default order is
    also NULLS LAST. *)
Definition proposal_le (a b : ProfitSharingProposal) : bool :=
  match pp_anonymous_label a, pp_anonymous_label b with
  | Some x, Some y => if text_le x y then (if text_le y x then text_le (pp_id a) (pp_id b) else true) else false
  | Some _, None => true
  | None, Some _ => false
  | None, None => text_le (pp_id a) (pp_id b)
  end.
Definition ListProfitSharingProposals (round_id : Z) (db : DB) : list ProfitSharingProposal :=
  sort_by proposal_le (sql_many (λ p, pp_round_id p =? round_id) (proposals db)).

(** item JOIN participant, in the participants' order: every participant of the
    round contributes its item. *)
Definition ListProfitSharingProposalItems (round_id : Z) (proposal_id : string) (db : DB)
    : list ProfitSharingProposalItem :=
  r ← ListProfitSharingParticipants round_id db;
  sql_many (λ i, (it_round_id i =? round_id) && bool_decide (it_proposal_id i = proposal_id)
                 && (it_participant_account_id i =? pt_account_id r)%N) (items db).

Definition update_proposal (p : ProfitSharingProposal → bool)
    (f : ProfitSharingProposal → ProfitSharingProposal) : ps_tx ProfitSharingProposal :=
  db ← tx_get;
  r ← tx_lift (of_option (sql_one p (proposals db)) ErrNoRows);
  _ ← ensure (bigint_in_range (pp_revision (f r))) (ErrDB "bigint out of range");
  _ ← tx_put (set_proposals (sql_update p f (proposals db)) db);
  mret (f r).

Definition proposal_key (proposal_id : string) (round_id : Z) (author : N) (st : ProposalStatus) (expected : Z)
    (p : ProfitSharingProposal) : bool :=
  bool_decide (pp_id p = proposal_id) && (pp_round_id p =? round_id)
  && (pp_author_account_id p =? author)%N && bool_decide (pp_status p = st) && (pp_revision p =? expected).

Definition UpdateProfitSharingProposalDraft (now : Z) (proposal_id : string) (round_id : Z) (author : N)
    (expected : Z) : ps_tx ProfitSharingProposal :=
  update_proposal (proposal_key proposal_id round_id author ProposalStatusDraft expected)
    (λ p, {| pp_id := pp_id p; pp_round_id := pp_round_id p; pp_author_account_id := pp_author_account_id p;
      pp_status := pp_status p; pp_anonymous_label := pp_anonymous_label p;
      pp_revision := pp_revision p + 1; pp_created_at := pp_created_at p; pp_updated_at := now;
      pp_submitted_at := pp_submitted_at p |}).
Definition SubmitProfitSharingProposal (now : Z) (proposal_id : string) (round_id : Z) (author : N)
    (expected : Z) : ps_tx ProfitSharingProposal :=
  update_proposal (proposal_key proposal_id round_id author ProposalStatusDraft expected)
    (λ p, {| pp_id := pp_id p; pp_round_id := pp_round_id p; pp_author_account_id := pp_author_account_id p;
      pp_status := ProposalStatusSubmitted; pp_anonymous_label := pp_anonymous_label p;
      pp_revision := pp_revision p + 1; pp_created_at := pp_created_at p; pp_updated_at := now;
      pp_submitted_at := Some now |}).
Definition ReopenProfitSharingProposal (now : Z) (proposal_id : string) (round_id : Z) (author : N)
    (expected : Z) : ps_tx ProfitSharingProposal :=
  update_proposal (proposal_key proposal_id round_id author ProposalStatusSubmitted expected)
    (λ p, {| pp_id := pp_id p; pp_round_id := pp_round_id p; pp_author_account_id := pp_author_account_id p;
      pp_status := ProposalStatusDraft; pp_anonymous_label := pp_anonymous_label p;
      pp_revision := pp_revision p + 1; pp_created_at := pp_created_at p; pp_updated_at := now;
      pp_submitted_at := None |}).
(** The update keeps the revision; (round_id, anonymous_label) is unique. *)
Definition AssignProfitSharingProposalLabel (now : Z) (label : string) (proposal_id : string) (round_id : Z)
    : ps_tx ProfitSharingProposal :=
  db ← tx_get;
  _ ← ensure (negb (existsb (λ p, (pp_round_id p =? round_id) && bool_decide (pp_anonymous_label p = Some label))
                      (proposals db))) (ErrDB "profit_sharing_proposal_label_unique");
  update_proposal
    (λ p, bool_decide (pp_id p = proposal_id) && (pp_round_id p =? round_id)
          && bool_decide (pp_status p = ProposalStatusSubmitted) && bool_decide (pp_anonymous_label p = None))
    (λ p, {| pp_id := pp_id p; pp_round_id := pp_round_id p; pp_author_account_id := pp_author_account_id p;
      pp_status := pp_status p; pp_anonymous_label := Some label;
      pp_revision := pp_revision p; pp_created_at := pp_created_at p; pp_updated_at := now;
      pp_submitted_at := pp_submitted_at p |}).

(** ** Queries on ballots, candidates and votes *)
Definition CreateProfitSharingBallot (now round_id number : Z) : ps_tx unit :=
  db ← tx_get;
  t ← tx_lift (sql_insert (λ b, 0 <? b_ballot_number b)
                 (λ b b', (b_round_id b =? b_round_id b') && (b_ballot_number b =? b_ballot_number b'))
                 (ErrDB "profit_sharing_ballot")
                 [{| b_round_id := round_id; b_ballot_number := number; b_status := BallotOpen;
                     b_created_at := now; b_closed_at := None |}] (ballots db));
  tx_put (set_ballots t db).

(** ballot JOIN round ON round.active_ballot_number = ballot.ballot_number *)
Definition GetActiveProfitSharingBallotForUpdate (round_id : Z) (db : DB) : option ProfitSharingBallot :=
  sql_one (λ b, (b_round_id b =? round_id)
                && existsb (λ r, (r_id r =? round_id)
                                 && bool_decide (r_active_ballot_number r = Some (b_ballot_number b))) (rounds db))
    (ballots db).

(** The foreign keys of a candidate: its ballot and its proposal. *)
Definition BatchCreateProfitSharingBallotCandidates (round_id number : Z) (ids : list string) : ps_tx unit :=
  db ← tx_get;
  t ← tx_lift (sql_insert
        (λ c, existsb (λ b, (b_round_id b =? c_round_id c) && (b_ballot_number b =? c_ballot_number c)) (ballots db)
              && existsb (λ p, bool_decide (pp_id p = c_proposal_id c) && (pp_round_id p =? c_round_id c))
                   (proposals db))
        (λ c c', (c_round_id c =? c_round_id c') && (c_ballot_number c =? c_ballot_number c')
                 && bool_decide (c_proposal_id c = c_proposal_id c'))
        (ErrDB "profit_sharing_ballot_candidate")
        ((λ i, {| c_round_id := round_id; c_ballot_number := number; c_proposal_id := i |}) <$> ids)
        (candidates db));
  tx_put (set_candidates t db).

(** The rows of one ballot. *)
Definition ballot_candidates (round_id number : Z) (db : DB) : list ProfitSharingBallotCandidate :=
  sql_many (λ c, (c_round_id c =? round_id) && (c_ballot_number c =? number)) (candidates db).
Definition ballot_votes (round_id number : Z) (db : DB) : list ProfitSharingVote :=
  sql_many (λ v, (v_round_id v =? round_id) && (v_ballot_number v =? number)) (votes db).

(** candidate JOIN proposal, [ORDER BY anonymous_label, id] *)
Definition ListProfitSharingBallotCandidates (round_id number : Z) (db : DB) : list ProfitSharingProposal :=
  sort_by proposal_le
    (c ← ballot_candidates round_id number db;
     sql_many (λ p, bool_decide (pp_id p = c_proposal_id c) && (pp_round_id p =? c_round_id c)) (proposals db)).

Definition GetProfitSharingVote (round_id number : Z) (voter : N) (db : DB) : option ProfitSharingVote :=
  sql_one (λ v, (v_round_id v =? round_id) && (v_ballot_number v =? number) && (v_voter_account_id v =? voter)%N)
    (votes db).

(** [INSERT ... ON CONFLICT (round_id, ballot_number, voter_account_id) DO
    UPDATE], with the foreign keys and the no-self-vote CHECK. *)
Definition UpsertProfitSharingVote (now round_id number : Z) (voter : N) (proposal_id : string) (author : N)
    : ps_tx ProfitSharingVote :=
  db ← tx_get;
  _ ← ensure (negb (voter =? author)%N) (ErrDB "profit_sharing_vote_no_self_vote_check");
  _ ← ensure (existsb (λ r, (pt_round_id r =? round_id) && (pt_account_id r =? voter)%N) (participants db)
              && existsb (λ c, bool_decide (c_proposal_id c = proposal_id)) (ballot_candidates round_id number db)
              && existsb (λ p, bool_decide (pp_id p = proposal_id) && (pp_round_id p =? round_id)
                               && (pp_author_account_id p =? author)%N) (proposals db))
       (ErrDB "profit_sharing_vote_fk");
  let key v := (v_round_id v =? round_id) && (v_ballot_number v =? number) && (v_voter_account_id v =? voter)%N in
  match sql_one key (votes db) with
  | Some old =>
      let upd v := {| v_round_id := v_round_id v; v_ballot_number := v_ballot_number v;
                      v_voter_account_id := v_voter_account_id v; v_proposal_id := proposal_id;
                      v_proposal_author_account_id := author;
                      v_created_at := v_created_at v; v_updated_at := now |} in
      _ ← tx_put (set_votes (sql_update key upd (votes db)) db);
      mret (upd old)
  | None =>
      let row := {| v_round_id := round_id; v_ballot_number := number; v_voter_account_id := voter;
                    v_proposal_id := proposal_id; v_proposal_author_account_id := author;
                    v_created_at := now; v_updated_at := now |} in
      _ ← tx_put (set_votes (votes db ++ [row]) db);
      mret row
  end.

Definition CountProfitSharingBallotVotes (round_id number : Z) (db : DB) : Z :=
  Z.of_nat (length (ballot_votes round_id number db)).

(** candidate LEFT JOIN vote, GROUP BY proposal, [ORDER BY vote_count DESC,
    proposal_id] *)
Definition tally_of (round_id number : Z) (db : DB) (proposal_id : string) : Z :=
  Z.of_nat (length (sql_many (λ v, bool_decide (v_proposal_id v = proposal_id)) (ballot_votes round_id number db))).
Definition tally_le (a b : string * Z) : bool :=
  (b.2 <? a.2) || ((b.2 =? a.2) && text_le a.1 b.1).
Definition ListProfitSharingBallotTallies (round_id number : Z) (db : DB) : list (string * Z) :=
  sort_by tally_le
    ((λ c, (c_proposal_id c, tally_of round_id number db (c_proposal_id c))) <$> ballot_candidates round_id number db).

Definition CloseProfitSharingBallot (now round_id number : Z) : ps_tx unit :=
  db ← tx_get;
  let p b := (b_round_id b =? round_id) && (b_ballot_number b =? number) && bool_decide (b_status b = BallotOpen) in
  _ ← tx_lift (of_option (sql_one p (ballots db)) ErrNoRows);
  tx_put (set_ballots (sql_update p (λ b, {| b_round_id := b_round_id b; b_ballot_number := b_ballot_number b;
            b_status := BallotClosed; b_created_at := b_created_at b; b_closed_at := Some now |}) (ballots db)) db).

Definition ListProfitSharingBallots (round_id : Z) (db : DB) : list ProfitSharingBallot :=
  sort_by (λ a b, b_ballot_number a <=? b_ballot_number b) (sql_many (λ b, b_round_id b =? round_id) (ballots db)).

(** Newest first; a non-administrator sees the rounds it takes part in. *)
Definition round_le (a b : ProfitSharingRound) : bool :=
  (r_created_at b <? r_created_at a) || ((r_created_at a =? r_created_at b) && (r_id b <=? r_id a)).
Definition ListProfitSharingRounds (requester : N) (is_admin : bool) (db : DB) : list ProfitSharingRound :=
  sort_by round_le
    (sql_many (λ r, is_admin || existsb (λ t, (pt_round_id t =? r_id r) && (pt_account_id t =? requester)%N)
                                  (participants db)) (rounds db)).
End Queries.
