(* ===== verification/ProfitSharing.v ===== *)
(** * Profit sharing: validation and operations

    [internal/profitsharing/store]: [account_id.go], [operations.go] and
    [records.go].  Every operation that changes state is one transaction
    ([withTx]) that first locks its round row, so operations on a round are
    serial; a transaction is a [ps_tx] body run by [run_tx]. *)

From S2P Require Import Prelude Sql ProfitSharingTypes.
From stdpp Require Import base tactics option list list_numbers sorting strings gmap.
From Stdlib Require Import ZArith Lia Ascii.
#[local] Open Scope Z_scope.

Section ProfitSharing.
Context {UL : UuidLib} {PT : PgText}.

(** ** Account identifiers ([account_id.go]) *)
Definition canonicalAccountID (value : string) : result PSError string :=
  match uuid_parse (trim_space value) with
  | None => Err ErrInvalidAccountID
  | Some parsed => if (parsed =? 0)%N then Err ErrInvalidAccountID else Ok (uuid_string parsed)
  end.

Definition accountUUID (value : string) : result PSError N :=
  canonical ← canonicalAccountID value;
  of_option (uuid_parse canonical) ErrInvalidAccountID.

Definition accountIDFromUUID (value : option N) : string :=
  match value with
  | None => EmptyString
  | Some u => if (u =? 0)%N then EmptyString else uuid_string u
  end.

(** ** Validation *)

(** The regular expression ^[a-z0-9]+(?:-[a-z0-9]+)*$ read left to right;
    [need] holds where the next byte has to be a letter or a digit. *)
Definition slug_alnum (a : ascii) : bool :=
  let n := N_of_ascii a in ((48 <=? n) && (n <=? 57))%N || ((97 <=? n) && (n <=? 122))%N.
Fixpoint slug_run (need : bool) (s : string) : bool :=
  match s with
  | EmptyString => negb need
  | String a s' =>
      if slug_alnum a then slug_run false s'
      else if (N_of_ascii a =? 45)%N && negb need then slug_run true s' else false
  end.
Definition profitSharingRoundSlugPattern (s : string) : bool := slug_run true s.

(** A failed check returns the sentinel [ErrInvalidParticipants]. *)
Definition map_err {A} (r : result PSError A) (e : PSError) : result PSError A :=
  match r with Ok a => Ok a | Err _ => Err e end.

Definition participantInput_le (a b : ParticipantInput) : bool := pi_display_order a <=? pi_display_order b.

Fixpoint validateParticipantInputs_loop (inputs : list ParticipantInput)
    (accountIDs : gset string) (orders : gset Z) : result PSError (list ParticipantInput) :=
  match inputs with
  | [] => Ok []
  | i :: inputs' =>
      accountID ← map_err (canonicalAccountID (pi_account_id i)) ErrInvalidParticipants;
      let input := {| pi_account_id := accountID; pi_username := trim_space (pi_username i);
                      pi_display_name := trim_space (pi_display_name i);
                      pi_display_order := pi_display_order i;
                      pi_baseline_responsibility := trim_space (pi_baseline_responsibility i) |} in
      _ ← require (negb (bool_decide (pi_username input = EmptyString))) ErrInvalidParticipants;
      _ ← require (negb (bool_decide (pi_display_name input = EmptyString))) ErrInvalidParticipants;
      _ ← require (0 <? pi_display_order input) ErrInvalidParticipants;
      _ ← require (negb (bool_decide (pi_account_id input ∈ accountIDs))) ErrInvalidParticipants;
      _ ← require (negb (bool_decide (pi_display_order input ∈ orders))) ErrInvalidParticipants;
      rest ← validateParticipantInputs_loop inputs' ({[pi_account_id input]} ∪ accountIDs)
               ({[pi_display_order input]} ∪ orders);
      mret (input :: rest)
  end.
Definition validateParticipantInputs (inputs : list ParticipantInput) : result PSError (list ParticipantInput) :=
  normalized ← validateParticipantInputs_loop inputs ∅ ∅;
  mret (sort_by participantInput_le normalized).

Fixpoint normalizeValidatedAccountIDs_loop (accountIDs : list string) (seen : gset string)
    : result PSError (list string) :=
  match accountIDs with
  | [] => Ok []
  | a :: accountIDs' =>
      canonicalID ← map_err (canonicalAccountID a) ErrInvalidParticipants;
      _ ← require (negb (bool_decide (canonicalID ∈ seen))) ErrInvalidParticipants;
      rest ← normalizeValidatedAccountIDs_loop accountIDs' ({[canonicalID]} ∪ seen);
      mret (canonicalID :: rest)
  end.
Definition normalizeValidatedAccountIDs (accountIDs : list string) : result PSError (list string) :=
  _ ← require (bool_decide (length accountIDs = requiredParticipantCount)) ErrInvalidParticipants;
  normalizeValidatedAccountIDs_loop accountIDs ∅.

(** The two loops of [validateOpenParticipants]: the set of validated ids, then
    the configured participants against it. *)
Fixpoint validated_set (ids : list string) (validated : gset string) : result PSError (gset string) :=
  match ids with
  | [] => Ok validated
  | a :: ids' =>
      _ ← require (negb (bool_decide (a ∈ validated))) ErrInvalidParticipants;
      validated_set ids' ({[a]} ∪ validated)
  end.
Fixpoint configured_set (ps : list ProfitSharingParticipant) (validated configured : gset string)
    : result PSError (gset string) :=
  match ps with
  | [] => Ok configured
  | p :: ps' =>
      let accountID := accountIDFromUUID (Some (pt_account_id p)) in
      _ ← require (negb (bool_decide (accountID = EmptyString))) ErrInvalidParticipants;
      _ ← require (negb (blank (pt_username p))) ErrInvalidParticipants;
      _ ← require (negb (blank (pt_display_name p))) ErrInvalidParticipants;
      _ ← require (negb (blank (pt_baseline_responsibility p))) ErrInvalidParticipants;
      _ ← require (negb (bool_decide (accountID ∈ configured))) ErrInvalidParticipants;
      _ ← require (bool_decide (accountID ∈ validated)) ErrInvalidParticipants;
      configured_set ps' validated ({[accountID]} ∪ configured)
  end.
Definition validateOpenParticipants (ps : list ProfitSharingParticipant) (validatedAccountIDs : list string)
    : result PSError unit :=
  _ ← require (bool_decide (length ps = requiredParticipantCount)
               && bool_decide (length validatedAccountIDs = requiredParticipantCount)) ErrInvalidParticipants;
  validated ← validated_set validatedAccountIDs ∅;
  configured ← configured_set ps validated ∅;
  require (bool_decide (size configured = size validated)) ErrInvalidParticipants.

Fixpoint proposal_items_map (its : list ProposalItemInput) (byAccountID : gmap string ProposalItemInput)
    : result PSError (gmap string ProposalItemInput) :=
  match its with
  | [] => Ok byAccountID
  | i :: its' =>
      accountID ← map_err (canonicalAccountID (ii_participant_account_id i)) ErrInvalidProposal;
      let item := {| ii_participant_account_id := accountID; ii_responsibility := trim_space (ii_responsibility i);
                     ii_basis_points := ii_basis_points i |} in
      _ ← require (negb (bool_decide (is_Some (byAccountID !! accountID)))) ErrInvalidProposal;
      _ ← require (match ii_basis_points item with
                   | Some b => negb ((b <? 0) || (10000 <? b))
                   | None => true end) ErrInvalidProposal;
      proposal_items_map its' (<[accountID := item]> byAccountID)
  end.
Fixpoint proposal_items_ordered (ps : list ProfitSharingParticipant) (byAccountID : gmap string ProposalItemInput)
    : result PSError (list ProposalItemInput) :=
  match ps with
  | [] => Ok []
  | p :: ps' =>
      item ← of_option (byAccountID !! accountIDFromUUID (Some (pt_account_id p))) ErrInvalidProposal;
      rest ← proposal_items_ordered ps' byAccountID;
      mret (item :: rest)
  end.
Definition validateProposalItems (its : list ProposalItemInput) (ps : list ProfitSharingParticipant)
    : result PSError (list ProposalItemInput) :=
  _ ← require (bool_decide (length its = length ps)) ErrInvalidProposal;
  byAccountID ← proposal_items_map its ∅;
  proposal_items_ordered ps byAccountID.

(** The item loop of [validateCompleteProposal]; [expected] holds the accounts
    still to be seen, [total] is an int64 sum of int32 values. *)
Fixpoint complete_loop (its : list ProfitSharingProposalItem) (expected : gset string) (total : Z)
    : result PSError (gset string * Z) :=
  match its with
  | [] => Ok (expected, total)
  | i :: its' =>
      let accountID := accountIDFromUUID (Some (it_participant_account_id i)) in
      _ ← require (bool_decide (accountID ∈ expected)) ErrIncompleteProposal;
      _ ← require (negb (blank (it_responsibility i))) ErrIncompleteProposal;
      b ← of_option (it_basis_points i) ErrIncompleteProposal;
      complete_loop its' (expected ∖ {[accountID]}) (total + b)
  end.
Definition validateCompleteProposal (its : list ProfitSharingProposalItem) (ps : list ProfitSharingParticipant)
    : result PSError unit :=
  _ ← require (bool_decide (length its = length ps)) ErrIncompleteProposal;
  let expected : gset string := list_to_set ((λ p, accountIDFromUUID (Some (pt_account_id p))) <$> ps) in
  res ← complete_loop its expected 0;
  _ ← require (bool_decide (res.1 = ∅)) ErrIncompleteProposal;
  require (res.2 =? 10000) ErrIncompleteProposal.

(** [proposalLabel]: the loop halves nothing but decreases [index] until it is
    negative; [Z.to_nat index + 1] iterations always reach that. *)
Fixpoint label_loop (fuel : nat) (index : Z) (label : string) : string :=
  match fuel with
  | O => label
  | S fuel' =>
      if index <? 0 then label
      else label_loop fuel' (index / 26 - 1)
             (String (ascii_of_N (Z.to_N (65 + index mod 26))) label)
  end.
Definition proposalLabel (index : Z) : string :=
  ("Proposal " +:+ label_loop (S (Z.to_nat index)) index EmptyString)%string.

(** ** Row locks *)
Definition lockRoundBySlug (slug : string) : ps_tx ProfitSharingRound :=
  db ← tx_get;
  tx_lift (of_option (GetProfitSharingRoundBySlug slug db) ErrRoundNotFound).

Definition lockProposalByAuthor (roundID : Z) (authorAccountID : string) : ps_tx ProfitSharingProposal :=
  authorUUID ← tx_lift (map_err (accountUUID authorAccountID) ErrProposalNotFound);
  db ← tx_get;
  tx_lift (of_option (GetProfitSharingProposalByAuthorForUpdate roundID authorUUID db) ErrProposalNotFound).

Fixpoint participant_rows (roundID : Z) (inputs : list ParticipantInput)
    : result PSError (list ProfitSharingParticipant) :=
  match inputs with
  | [] => Ok []
  | i :: inputs' =>
      accountID ← accountUUID (pi_account_id i);
      rest ← participant_rows roundID inputs';
      mret ({| pt_round_id := roundID; pt_account_id := accountID; pt_username := pi_username i;
               pt_display_name := pi_display_name i; pt_display_order := pi_display_order i;
               pt_baseline_responsibility := pi_baseline_responsibility i |} :: rest)
  end.
Definition createParticipants (roundID : Z) (inputs : list ParticipantInput) : ps_tx unit :=
  match inputs with
  | [] => mret tt
  | _ =>
      rows ← tx_lift (participant_rows roundID inputs);
      BatchCreateProfitSharingParticipants rows
  end.

Fixpoint item_params (inputs : list ProposalItemInput) : result PSError (list (N * string * Z)) :=
  match inputs with
  | [] => Ok []
  | i :: inputs' =>
      accountID ← accountUUID (ii_participant_account_id i);
      rest ← item_params inputs';
      mret ((accountID, ii_responsibility i, default (-1) (ii_basis_points i)) :: rest)
  end.
Definition createProposalItems (roundID : Z) (proposalID : string) (inputs : list ProposalItemInput) : ps_tx unit :=
  rows ← tx_lift (item_params inputs);
  BatchCreateProfitSharingProposalItems roundID proposalID rows.

(** ** Domain values ([types.go]) and the conversions of [records.go]

    A nullable column and a Go pointer are both options, so [Round] has the
    row's shape; the other values carry account ids as strings. *)
Definition Round : Type := ProfitSharingRound.
Record Participant := {
  pa_round_id : Z; pa_account_id : string; pa_username : string; pa_display_name : string;
  pa_display_order : Z; pa_baseline_responsibility : string }.
Record ProposalItem := {
  pri_round_id : Z; pri_proposal_id : string; pri_participant_account_id : string;
  pri_responsibility : string; pri_basis_points : option Z }.
Record Proposal := {
  pr_id : string; pr_round_id : Z; pr_author_account_id : string; pr_status : ProposalStatus;
  pr_anonymous_label : option string; pr_revision : Z; pr_created_at : Z; pr_updated_at : Z;
  pr_submitted_at : option Z; pr_items : list ProposalItem }.
Record Vote := {
  vo_round_id : Z; vo_ballot_number : Z; vo_voter_account_id : string; vo_proposal_id : string;
  vo_proposal_author_account_id : string; vo_created_at : Z; vo_updated_at : Z }.
Record Ballot := {
  ba_round_id : Z; ba_number : Z; ba_status : BallotStatus; ba_created_at : Z; ba_closed_at : option Z;
  ba_candidates : list Proposal; ba_vote_counts : gmap string Z; ba_voted_count : Z;
  ba_current_vote : option Vote }.
Record RoundSnapshot := {
  rs_round : Round; rs_participants : list Participant; rs_proposals : list Proposal;
  rs_ballot : option Ballot }.
Record CloseBallotResult := { cbr_round : Round; cbr_runoff_created : bool }.

Definition roundFromSQLC (row : ProfitSharingRound) : Round := row.
Definition participantFromSQLC (row : ProfitSharingParticipant) : Participant := {|
  pa_round_id := pt_round_id row; pa_account_id := accountIDFromUUID (Some (pt_account_id row));
  pa_username := pt_username row; pa_display_name := pt_display_name row;
  pa_display_order := pt_display_order row; pa_baseline_responsibility := pt_baseline_responsibility row |}.
Definition proposalItemFromSQLC (row : ProfitSharingProposalItem) : ProposalItem := {|
  pri_round_id := it_round_id row; pri_proposal_id := it_proposal_id row;
  pri_participant_account_id := accountIDFromUUID (Some (it_participant_account_id row));
  pri_responsibility := it_responsibility row; pri_basis_points := it_basis_points row |}.
(** [Items] is filled by the callers. *)
Definition proposalFromSQLC (row : ProfitSharingProposal) (its : list ProfitSharingProposalItem) : Proposal := {|
  pr_id := pp_id row; pr_round_id := pp_round_id row;
  pr_author_account_id := accountIDFromUUID (Some (pp_author_account_id row));
  pr_status := pp_status row; pr_anonymous_label := pp_anonymous_label row; pr_revision := pp_revision row;
  pr_created_at := pp_created_at row; pr_updated_at := pp_updated_at row;
  pr_submitted_at := pp_submitted_at row; pr_items := proposalItemFromSQLC <$> its |}.
Definition voteFromSQLC (row : ProfitSharingVote) : Vote := {|
  vo_round_id := v_round_id row; vo_ballot_number := v_ballot_number row;
  vo_voter_account_id := accountIDFromUUID (Some (v_voter_account_id row)); vo_proposal_id := v_proposal_id row;
  vo_proposal_author_account_id := accountIDFromUUID (Some (v_proposal_author_account_id row));
  vo_created_at := v_created_at row; vo_updated_at := v_updated_at row |}.

(** ** Operations *)

(** [id] is the next value of the round sequence. *)
Definition CreateRound (now id : Z) (slug title : string) (inputs : list ParticipantInput) : ps_tx Round :=
  let slug := trim_space slug in
  let title := trim_space title in
  _ ← ensure (profitSharingRoundSlugPattern slug) ErrInvalidParticipants;
  inputs ← tx_lift (validateParticipantInputs inputs);
  row ← on_constraint (CreateProfitSharingRound now id slug title)
          "profit_sharing_round_slug_unique" ErrRoundAlreadyExists;
  _ ← createParticipants (r_id row) inputs;
  mret (roundFromSQLC row).

Definition UpdateRound (now : Z) (currentSlug nextSlug title : string) (inputs : list ParticipantInput)
    (expectedRevision : Z) : ps_tx Round :=
  let currentSlug := trim_space currentSlug in
  let nextSlug := trim_space nextSlug in
  let title := trim_space title in
  _ ← ensure (negb (bool_decide (currentSlug = EmptyString)) && profitSharingRoundSlugPattern nextSlug)
       ErrInvalidParticipants;
  inputs ← tx_lift (validateParticipantInputs inputs);
  row ← lockRoundBySlug currentSlug;
  _ ← ensure (bool_decide (r_phase row = RoundPhaseDraft)) ErrInvalidPhase;
  _ ← ensure (r_revision row =? expectedRevision) ErrRevisionConflict;
  updated ← on_constraint
    (on_no_rows (UpdateProfitSharingRoundConfig now nextSlug title (r_id row) expectedRevision) ErrRevisionConflict)
    "profit_sharing_round_slug_unique" ErrRoundAlreadyExists;
  _ ← DeleteProfitSharingParticipants (r_id row);
  _ ← createParticipants (r_id row) inputs;
  mret (roundFromSQLC updated).

(** [fresh i] is the i-th [uuid.NewString()] of the call. *)
Definition OpenRound (now : Z) (fresh : nat → string) (slug : string) (expectedRevision : Z)
    (validatedAccountIDs : list string) : ps_tx Round :=
  let slug := trim_space slug in
  validated ← tx_lift (normalizeValidatedAccountIDs validatedAccountIDs);
  row ← lockRoundBySlug slug;
  _ ← ensure (bool_decide (r_phase row = RoundPhaseDraft)) ErrInvalidPhase;
  _ ← ensure (r_revision row =? expectedRevision) ErrRevisionConflict;
  _ ← ensure (negb (blank (r_title row))) ErrInvalidParticipants;
  db ← tx_get;
  let ps := ListProfitSharingParticipants (r_id row) db in
  _ ← tx_lift (validateOpenParticipants ps validated);
  _ ← BatchCreateProfitSharingProposals now (r_id row) (imap (λ i p, (fresh i, pt_account_id p)) ps);
  _ ← CreateInitialProfitSharingProposalItems (r_id row);
  opened ← on_no_rows (OpenProfitSharingRound now (r_id row) expectedRevision) ErrRevisionConflict;
  mret (roundFromSQLC opened).

Definition UpdateProposal (now : Z) (slug authorAccountID : string) (expectedRevision : Z)
    (inputs : list ProposalItemInput) : ps_tx Proposal :=
  let slug := trim_space slug in
  authorAccountID ← tx_lift (map_err (canonicalAccountID authorAccountID) ErrInvalidProposal);
  authorUUID ← tx_lift (map_err (accountUUID authorAccountID) ErrInvalidProposal);
  round ← lockRoundBySlug slug;
  _ ← ensure (bool_decide (r_phase round = RoundPhaseCollecting)) ErrInvalidPhase;
  db ← tx_get;
  inputs ← tx_lift (validateProposalItems inputs (ListProfitSharingParticipants (r_id round) db));
  proposal ← lockProposalByAuthor (r_id round) authorAccountID;
  _ ← ensure (bool_decide (pp_status proposal = ProposalStatusDraft)) ErrInvalidPhase;
  _ ← ensure (pp_revision proposal =? expectedRevision) ErrRevisionConflict;
  _ ← DeleteProfitSharingProposalItems (r_id round) (pp_id proposal);
  _ ← createProposalItems (r_id round) (pp_id proposal) inputs;
  updated ← on_no_rows (UpdateProfitSharingProposalDraft now (pp_id proposal) (r_id round) authorUUID expectedRevision)
              ErrRevisionConflict;
  db ← tx_get;
  mret (proposalFromSQLC updated (ListProfitSharingProposalItems (r_id round) (pp_id proposal) db)).

Definition changeProposalStatus (now : Z) (slug authorAccountID : string) (expectedRevision : Z) (submit : bool)
    : ps_tx Proposal :=
  let slug := trim_space slug in
  authorAccountID ← tx_lift (map_err (canonicalAccountID authorAccountID) ErrInvalidProposal);
  authorUUID ← tx_lift (map_err (accountUUID authorAccountID) ErrInvalidProposal);
  round ← lockRoundBySlug slug;
  _ ← ensure (bool_decide (r_phase round = RoundPhaseCollecting)) ErrInvalidPhase;
  proposal ← lockProposalByAuthor (r_id round) authorAccountID;
  _ ← ensure (pp_revision proposal =? expectedRevision) ErrRevisionConflict;
  changed ←
    (if submit then
       _ ← ensure (bool_decide (pp_status proposal = ProposalStatusDraft)) ErrInvalidPhase;
       db ← tx_get;
       _ ← tx_lift (validateCompleteProposal (ListProfitSharingProposalItems (r_id round) (pp_id proposal) db)
                      (ListProfitSharingParticipants (r_id round) db));
       on_no_rows (SubmitProfitSharingProposal now (pp_id proposal) (r_id round) authorUUID expectedRevision)
         ErrRevisionConflict
     else
       _ ← ensure (bool_decide (pp_status proposal = ProposalStatusSubmitted)) ErrInvalidPhase;
       on_no_rows (ReopenProfitSharingProposal now (pp_id proposal) (r_id round) authorUUID expectedRevision)
         ErrRevisionConflict);
  db ← tx_get;
  mret (proposalFromSQLC changed (ListProfitSharingProposalItems (r_id round) (pp_id proposal) db)).

Definition SubmitProposal now slug author expected := changeProposalStatus now slug author expected true.
Definition ReopenProposal now slug author expected := changeProposalStatus now slug author expected false.

(** The label loop of [PublishRound]; it returns the proposal ids in order. *)
Fixpoint assign_labels (now roundID i : Z) (ps : list ProfitSharingProposal) : ps_tx (list string) :=
  match ps with
  | [] => mret []
  | p :: ps' =>
      _ ← match pp_anonymous_label p with
          | None => _ ← AssignProfitSharingProposalLabel now (proposalLabel i) (pp_id p) roundID; mret tt
          | Some _ => mret tt
          end;
      rest ← assign_labels now roundID (i + 1) ps';
      mret (pp_id p :: rest)
  end.

Definition PublishRound (now : Z) (slug : string) (expectedRevision : Z) : ps_tx Round :=
  let slug := trim_space slug in
  round ← lockRoundBySlug slug;
  _ ← ensure (bool_decide (r_phase round = RoundPhaseCollecting)) ErrInvalidPhase;
  _ ← ensure (r_revision round =? expectedRevision) ErrRevisionConflict;
  db ← tx_get;
  let ps := ListProfitSharingParticipants (r_id round) db in
  let props := ListProfitSharingProposals (r_id round) db in
  _ ← ensure (bool_decide (length ps = requiredParticipantCount) && bool_decide (length props = length ps))
       ErrNotAllProposalsSubmitted;
  _ ← ensure (forallb (λ p, bool_decide (pp_status p = ProposalStatusSubmitted)) props) ErrNotAllProposalsSubmitted;
  proposalIDs ← assign_labels now (r_id round) 0 (sort_by (λ a b, String.leb (pp_id a) (pp_id b)) props);
  _ ← CreateProfitSharingBallot now (r_id round) 1;
  _ ← BatchCreateProfitSharingBallotCandidates (r_id round) 1 proposalIDs;
  published ← on_no_rows (PublishProfitSharingRound now (r_id round) expectedRevision) ErrRevisionConflict;
  mret (roundFromSQLC published).

Definition SubmitVote (now : Z) (slug : string) (ballotNumber : Z) (voterAccountID proposalID : string) : ps_tx Vote :=
  let slug := trim_space slug in
  voterAccountID ← tx_lift (map_err (canonicalAccountID voterAccountID) ErrInvalidProposal);
  voterUUID ← tx_lift (map_err (accountUUID voterAccountID) ErrInvalidProposal);
  let proposalID := trim_space proposalID in
  round ← lockRoundBySlug slug;
  _ ← ensure (bool_decide (r_phase round = RoundPhaseVoting)
              && bool_decide (r_active_ballot_number round = Some ballotNumber)) ErrInvalidPhase;
  db ← tx_get;
  _ ← tx_lift (of_option (GetProfitSharingParticipant (r_id round) voterUUID db) ErrNotParticipant);
  ballot ← tx_lift (of_option (GetActiveProfitSharingBallotForUpdate (r_id round) db) ErrBallotNotFound);
  _ ← ensure (bool_decide (b_status ballot = BallotOpen) && (b_ballot_number ballot =? ballotNumber)) ErrInvalidPhase;
  selected ← tx_lift (of_option
    (sql_one (λ p, bool_decide (pp_id p = proposalID)) (ListProfitSharingBallotCandidates (r_id round) ballotNumber db))
    ErrCandidateNotFound);
  _ ← ensure (negb (pp_author_account_id selected =? voterUUID)%N) ErrSelfVote;
  persisted ← on_constraint
    (UpsertProfitSharingVote now (r_id round) ballotNumber voterUUID (pp_id selected) (pp_author_account_id selected))
    "profit_sharing_vote_no_self_vote_check" ErrSelfVote;
  mret (voteFromSQLC persisted).

(** The ids before the first tally with another count. *)
Fixpoint tied_prefix (maxVotes : Z) (tallies : list (string * Z)) : list string :=
  match tallies with
  | [] => []
  | t :: tallies' => if t.2 =? maxVotes then t.1 :: tied_prefix maxVotes tallies' else []
  end.

Definition CloseBallot (now : Z) (slug : string) (expectedRevision : Z) : ps_tx CloseBallotResult :=
  let slug := trim_space slug in
  round ← lockRoundBySlug slug;
  _ ← ensure (bool_decide (r_phase round = RoundPhaseVoting) && bool_decide (is_Some (r_active_ballot_number round)))
       ErrInvalidPhase;
  _ ← ensure (r_revision round =? expectedRevision) ErrRevisionConflict;
  db ← tx_get;
  ballot ← tx_lift (of_option (GetActiveProfitSharingBallotForUpdate (r_id round) db) ErrBallotNotFound);
  _ ← ensure (bool_decide (b_status ballot = BallotOpen)) ErrInvalidPhase;
  let ps := ListProfitSharingParticipants (r_id round) db in
  let voteCount := CountProfitSharingBallotVotes (r_id round) (b_ballot_number ballot) db in
  _ ← ensure (voteCount =? Z.of_nat (length ps)) ErrNotAllVotesSubmitted;
  let tallies := ListProfitSharingBallotTallies (r_id round) (b_ballot_number ballot) db in
  match tallies with
  | [] => tx_fail ErrCandidateNotFound
  | t0 :: _ =>
      let tiedProposalIDs := tied_prefix t0.2 tallies in
      _ ← CloseProfitSharingBallot now (r_id round) (b_ballot_number ballot);
      match tiedProposalIDs with
      | [winner] =>
          closed ← on_no_rows (CloseProfitSharingRound now winner (r_id round) expectedRevision) ErrRevisionConflict;
          mret {| cbr_round := roundFromSQLC closed; cbr_runoff_created := false |}
      | _ =>
          let nextBallotNumber := wrap32 (b_ballot_number ballot + 1) in
          _ ← CreateProfitSharingBallot now (r_id round) nextBallotNumber;
          _ ← BatchCreateProfitSharingBallotCandidates (r_id round) nextBallotNumber tiedProposalIDs;
          advanced ← on_no_rows (AdvanceProfitSharingRunoffBallot now nextBallotNumber (r_id round) expectedRevision)
                       ErrRevisionConflict;
          mret {| cbr_round := roundFromSQLC advanced; cbr_runoff_created := true |}
      end
  end.

(** ** Reads ([records.go]) *)
Definition snapshot_proposals (row : ProfitSharingRound) (db : DB) : list Proposal :=
  (λ p, proposalFromSQLC p (ListProfitSharingProposalItems (r_id row) (pp_id p) db))
    <$> ListProfitSharingProposals (r_id row) db.
Definition proposal_index (props : list Proposal) : gmap string nat :=
  foldl (λ m x, <[pr_id x.2 := x.1]> m) ∅ (imap pair props).
Definition snapshot_candidate (props : list Proposal) (index : gmap string nat) (c : ProfitSharingProposal) : Proposal :=
  default (proposalFromSQLC c []) (i ← index !! pp_id c; props !! i).

Definition loadRoundSnapshot (row : ProfitSharingRound) (requesterAccountID : string) (db : DB)
    : result PSError RoundSnapshot :=
  let ps := participantFromSQLC <$> ListProfitSharingParticipants (r_id row) db in
  let props := snapshot_proposals row db in
  let snapshot b := {| rs_round := roundFromSQLC row; rs_participants := ps; rs_proposals := props; rs_ballot := b |} in
  match r_active_ballot_number row with
  | None => Ok (snapshot None)
  | Some active =>
      ballotRow ← of_option (sql_one (λ b, b_ballot_number b =? active) (ListProfitSharingBallots (r_id row) db))
                    ErrActiveBallotMissing;
      let number := b_ballot_number ballotRow in
      let counts := if bool_decide (r_phase row = RoundPhaseClosed)
                    then foldl (λ m t, <[t.1 := t.2]> m) ∅ (ListProfitSharingBallotTallies (r_id row) number db)
                    else ∅ in
      currentVote ←
        (if bool_decide (requesterAccountID = EmptyString) then mret None
         else requesterUUID ← accountUUID requesterAccountID;
              mret (voteFromSQLC <$> GetProfitSharingVote (r_id row) number requesterUUID db));
      mret (snapshot (Some {|
        ba_round_id := r_id row; ba_number := number; ba_status := b_status ballotRow;
        ba_created_at := b_created_at ballotRow; ba_closed_at := b_closed_at ballotRow;
        ba_candidates := snapshot_candidate props (proposal_index props)
                           <$> ListProfitSharingBallotCandidates (r_id row) number db;
        ba_vote_counts := counts;
        ba_voted_count := CountProfitSharingBallotVotes (r_id row) number db;
        ba_current_vote := currentVote |}))
  end.

Definition GetRound (slug requesterAccountID : string) (db : DB) : result PSError RoundSnapshot :=
  row ← of_option (GetProfitSharingRoundBySlug slug db) ErrRoundNotFound;
  loadRoundSnapshot row requesterAccountID db.

Fixpoint load_snapshots (rows : list ProfitSharingRound) (requesterAccountID : string) (db : DB)
    : result PSError (list RoundSnapshot) :=
  match rows with
  | [] => Ok []
  | row :: rows' =>
      snapshot ← loadRoundSnapshot row requesterAccountID db;
      rest ← load_snapshots rows' requesterAccountID db;
      mret (snapshot :: rest)
  end.
Definition ListRounds (requesterAccountID : string) (requesterIsAdmin : bool) (db : DB)
    : result PSError (list RoundSnapshot) :=
  requesterUUID ← accountUUID requesterAccountID;
  load_snapshots (ListProfitSharingRounds requesterUUID requesterIsAdmin db) requesterAccountID db.

(** ** The store as a transition system: one step is one committed call *)
Inductive PSCall :=
| CallCreateRound (now id : Z) (slug title : string) (inputs : list ParticipantInput)
| CallUpdateRound (now : Z) (currentSlug nextSlug title : string) (inputs : list ParticipantInput) (expected : Z)
| CallOpenRound (now : Z) (fresh : nat → string) (slug : string) (expected : Z) (validated : list string)
| CallUpdateProposal (now : Z) (slug author : string) (expected : Z) (inputs : list ProposalItemInput)
| CallSubmitProposal (now : Z) (slug author : string) (expected : Z)
| CallReopenProposal (now : Z) (slug author : string) (expected : Z)
| CallPublishRound (now : Z) (slug : string) (expected : Z)
| CallSubmitVote (now : Z) (slug : string) (number : Z) (voter proposal : string)
| CallCloseBallot (now : Z) (slug : string) (expected : Z).

Definition discard {A} (m : ps_tx A) : ps_tx unit := _ ← m; mret tt.
Definition exec (c : PSCall) : ps_tx unit :=
  match c with
  | CallCreateRound now id slug title inputs => discard (CreateRound now id slug title inputs)
  | CallUpdateRound now cur next title inputs e => discard (UpdateRound now cur next title inputs e)
  | CallOpenRound now fresh slug e validated => discard (OpenRound now fresh slug e validated)
  | CallUpdateProposal now slug a e inputs => discard (UpdateProposal now slug a e inputs)
  | CallSubmitProposal now slug a e => discard (SubmitProposal now slug a e)
  | CallReopenProposal now slug a e => discard (ReopenProposal now slug a e)
  | CallPublishRound now slug e => discard (PublishRound now slug e)
  | CallSubmitVote now slug n v p => discard (SubmitVote now slug n v p)
  | CallCloseBallot now slug e => discard (CloseBallot now slug e)
  end.

Inductive ps_step (c : PSCall) (db db' : DB) : Prop :=
| ps_step_commit : exec c db = Ok (db', tt) → ps_step c db db'.
Definition reachable (db : DB) : Prop := rtc (λ a b, ∃ c, ps_step c a b) empty_db db.
End ProfitSharing.
