(* ===== verification/ProfitSharingScenario.v ===== *)
(** * Profit sharing: a concrete round

    One five-participant round taken through its whole life, evaluated by the
    model; the witnesses of the profit-sharing properties use its states. *)

From S2P Require Import Prelude Sql ProfitSharingTypes ProfitSharing.
From stdpp Require Import base tactics option list list_numbers strings gmap.
From Stdlib Require Import ZArith Lia Ascii.
#[local] Open Scope Z_scope.
Import Concrete.

Definition acct (n : N) : string := uuid_string n.
Definition mk_input (n : N) : ParticipantInput := {|
  pi_account_id := acct n; pi_username := "user-" +:+ String (ascii_of_N (96 + n)) ""%string;
  pi_display_name := " Member "; pi_display_order := Z.of_N n;
  pi_baseline_responsibility := "work" |}.
(** Unsorted on purpose. *)
Definition sc_inputs : list ParticipantInput := mk_input <$> [3%N; 1%N; 2%N; 5%N; 4%N].
Definition sc_ids : list string := acct <$> [1%N; 2%N; 3%N; 4%N; 5%N].
Definition sc_fresh (i : nat) : string := ("p" +:+ String (ascii_of_nat (49 + i)) "")%string.
Definition mk_items (bps : list Z) : list ProposalItemInput :=
  zip_with (λ n b, {| ii_participant_account_id := acct n; ii_responsibility := "r"; ii_basis_points := Some b |})
    [1%N; 2%N; 3%N; 4%N; 5%N] bps.

Definition sc_draft : list PSCall := [CallCreateRound 10 7 " round-1 " "Round" sc_inputs].
Definition sc_collect : list PSCall := sc_draft ++ [CallOpenRound 11 sc_fresh "round-1" 1 sc_ids].
Definition sc_filled : list PSCall := sc_collect ++
  ((λ n, CallUpdateProposal 12 "round-1" (acct n) 1 (mk_items [2000; 2000; 2000; 2000; 2000]))
     <$> [1%N; 2%N; 3%N; 4%N; 5%N]).
Definition sc_submitted : list PSCall := sc_filled ++
  ((λ n, CallSubmitProposal 13 "round-1" (acct n) 2) <$> [1%N; 2%N; 3%N; 4%N; 5%N]).
Definition sc_published : list PSCall := sc_submitted ++ [CallPublishRound 14 "round-1" 2].
Definition vote (b : Z) (v : N) (p : string) : PSCall := CallSubmitVote 15 "round-1" b (acct v) p.
(** Two votes for p1, two for p2, one for p3: a tie of two. *)
Definition sc_voted : list PSCall := sc_published ++
  [vote 1 1 "p2"; vote 1 2 "p1"; vote 1 3 "p1"; vote 1 4 "p3"; vote 1 4 "p2"; vote 1 5 "p3"].
Definition sc_runoff : list PSCall := sc_voted ++ [CallCloseBallot 16 "round-1" 3].
Definition sc_revoted : list PSCall := sc_runoff ++
  [vote 2 1 "p2"; vote 2 2 "p1"; vote 2 3 "p1"; vote 2 4 "p1"; vote 2 5 "p2"].
Definition sc_closed : list PSCall := sc_revoted ++ [CallCloseBallot 17 "round-1" 4].

Definition run_calls (cs : list PSCall) : result PSError DB :=
  foldl (λ r c, match r with Ok db => match exec c db with Ok (db', _) => Ok db' | Err e => Err e end | e => e end)
    (Ok empty_db) cs.
Definition state_of (cs : list PSCall) : DB := match run_calls cs with Ok db => db | Err _ => empty_db end.

Lemma run_calls_snoc cs c :
  run_calls (cs ++ [c])
  = match run_calls cs with
    | Ok db => match exec c db with Ok (db', _) => Ok db' | Err e => Err e end
    | e => e end.
Proof. unfold run_calls. rewrite foldl_app. cbn [foldl]. by destruct (foldl _ _ cs). Qed.

Lemma run_calls_reachable cs db : run_calls cs = Ok db → reachable db.
Proof.
  revert db. induction cs as [|c cs IH] using rev_ind; intros db Hok.
  { injection Hok as <-. apply rtc_refl. }
  rewrite run_calls_snoc in Hok. destruct (run_calls cs) as [db0|e]; [|done].
  destruct (exec c db0) as [[db1 []]|] eqn:E; [|done]. injection Hok as <-.
  eapply rtc_r; [by apply IH|]. exists c. by constructor.
Qed.

Lemma state_of_reachable cs : is_ok (run_calls cs) = true → reachable (state_of cs).
Proof.
  unfold state_of. destruct (run_calls cs) eqn:E; [|done]. intros _. by eapply run_calls_reachable.
Qed.

(** Every stage of the scenario is reached. *)
Lemma sc_ok : forallb (λ cs, is_ok (run_calls cs))
  [sc_draft; sc_collect; sc_filled; sc_submitted; sc_published; sc_voted; sc_runoff; sc_revoted; sc_closed] = true.
Proof. vm_compute. reflexivity. Qed.
Ltac sc_reachable := apply state_of_reachable; vm_compute; reflexivity.
