(* ===== verification/ProfitSharingInv.v ===== *)
(** * Profit sharing: the database invariant

    [Inv] collects the keys, the references, what each phase guarantees and the
    completeness of every submitted proposal; every operation preserves it, so
    it holds in every reachable database.  First, what the row updates and locks commit. *)

From S2P Require Import Prelude Sql ProfitSharingTypes ProfitSharing.
From stdpp Require Import base tactics option list list_numbers sorting strings gmap.
From Stdlib Require Import ZArith Lia Ascii.
#[local] Open Scope Z_scope.

(** ** Committed effects of the updates *)
Lemma update_round_ok p f db db' row :
  update_round p f db = Ok (db', row) →
  ∃ r, r ∈ rounds db ∧ p r = true ∧ row = f r ∧ db' = set_rounds (sql_update p f (rounds db)) db.
Proof.
  unfold update_round. intros Hok. tx_inv.
  match goal with Hs : sql_one _ _ = Some _ |- _ => apply sql_one_Some in Hs as [??] end. eauto 10.
Qed.

Lemma update_proposal_ok p f db db' row :
  update_proposal p f db = Ok (db', row) →
  ∃ r, r ∈ proposals db ∧ p r = true ∧ row = f r ∧ db' = set_proposals (sql_update p f (proposals db)) db.
Proof.
  unfold update_proposal. intros Hok. tx_inv.
  match goal with Hs : sql_one _ _ = Some _ |- _ => apply sql_one_Some in Hs as [??] end. eauto 10.
Qed.

Lemma lockRoundBySlug_ok slug db db' r :
  lockRoundBySlug slug db = Ok (db', r) → db' = db ∧ r ∈ rounds db ∧ r_slug r = slug.
Proof.
  unfold lockRoundBySlug. intros Hok. tx_inv.
  match goal with Hs : _ = Some _ |- _ => apply sql_one_Some in Hs as [??] end. bool_prop. done.
Qed.

Lemma lockProposalByAuthor_ok {UL : UuidLib} id author db db' p :
  lockProposalByAuthor id author db = Ok (db', p) →
  db' = db ∧ p ∈ proposals db ∧ pp_round_id p = id.
Proof.
  unfold lockProposalByAuthor. intros Hok. tx_inv.
  match goal with Hs : _ = Some _ |- _ => apply sql_one_Some in Hs as [??] end. bool_prop. done.
Qed.

#[local] Open Scope Z_scope.

Section Inv.
Context {UL : UuidLib} {PT : PgText}.

Definition part_key (p : ProfitSharingParticipant) := (pt_round_id p, pt_account_id p).
Definition author_key (p : ProfitSharingProposal) := (pp_round_id p, pp_author_account_id p).
Definition item_key (i : ProfitSharingProposalItem) := (it_proposal_id i, it_participant_account_id i).
Definition ballot_key (b : ProfitSharingBallot) := (b_round_id b, b_ballot_number b).
Definition cand_key (c : ProfitSharingBallotCandidate) := (c_round_id c, c_ballot_number c, c_proposal_id c).
Definition vote_key (v : ProfitSharingVote) := (v_round_id v, v_ballot_number v, v_voter_account_id v).

Definition round_participants (rid : Z) (db : DB) := sql_many (λ p, pt_round_id p =? rid) (participants db).
Definition round_proposals (rid : Z) (db : DB) := sql_many (λ p, pp_round_id p =? rid) (proposals db).

Definition proposal_complete (db : DB) (q : ProfitSharingProposal) : Prop :=
  validateCompleteProposal (ListProfitSharingProposalItems (pp_round_id q) (pp_id q) db)
    (ListProfitSharingParticipants (pp_round_id q) db) = Ok tt.

(** Five participants, five proposals. *)
Definition five (db : DB) (rid : Z) : Prop :=
  length (round_participants rid db) = requiredParticipantCount
  ∧ length (round_proposals rid db) = requiredParticipantCount.
Definition all_submitted (db : DB) (rid : Z) : Prop :=
  ∀ q, q ∈ proposals db → pp_round_id q = rid → pp_status q = ProposalStatusSubmitted.

Definition phase_ok (db : DB) (r : ProfitSharingRound) : Prop :=
  match r_phase r with
  | RoundPhaseDraft =>
      (∀ q, q ∈ proposals db → pp_round_id q ≠ r_id r)
      ∧ r_active_ballot_number r = None ∧ r_final_proposal_id r = None
  | RoundPhaseCollecting =>
      five db (r_id r) ∧ r_active_ballot_number r = None ∧ r_final_proposal_id r = None
  | RoundPhaseVoting =>
      five db (r_id r) ∧ all_submitted db (r_id r) ∧ is_Some (r_active_ballot_number r)
      ∧ r_final_proposal_id r = None
  | RoundPhaseClosed =>
      five db (r_id r) ∧ all_submitted db (r_id r)
      ∧ ∃ w q, r_final_proposal_id r = Some w ∧ q ∈ proposals db ∧ pp_id q = w ∧ pp_round_id q = r_id r
  end.

Record Inv (db : DB) : Prop := {
  k_round : NoDup (r_id <$> rounds db);
  k_part : NoDup (part_key <$> participants db);
  k_prop : NoDup (pp_id <$> proposals db);
  k_author : NoDup (author_key <$> proposals db);
  k_item : NoDup (item_key <$> items db);
  k_ballot : NoDup (ballot_key <$> ballots db);
  k_cand : NoDup (cand_key <$> candidates db);
  k_vote : NoDup (vote_key <$> votes db);
  ref_part : ∀ p, p ∈ participants db → ∃ r, r ∈ rounds db ∧ r_id r = pt_round_id p;
  ref_prop : ∀ q, q ∈ proposals db → ∃ p, p ∈ participants db ∧ part_key p = author_key q;
  ref_item : ∀ i, i ∈ items db →
    (∃ q, q ∈ proposals db ∧ pp_id q = it_proposal_id i ∧ pp_round_id q = it_round_id i);
  ref_cand : ∀ c, c ∈ candidates db →
    (∃ q, q ∈ proposals db ∧ pp_id q = c_proposal_id c ∧ pp_round_id q = c_round_id c);
  ref_cand_ballot : ∀ c, c ∈ candidates db →
    (∃ b, b ∈ ballots db ∧ ballot_key b = (c_round_id c, c_ballot_number c));
  ref_vote : ∀ v, v ∈ votes db →
    (∃ c, c ∈ candidates db ∧ cand_key c = (v_round_id v, v_ballot_number v, v_proposal_id v))
    ∧ (∃ q, q ∈ proposals db ∧ pp_id q = v_proposal_id v
            ∧ author_key q = (v_round_id v, v_proposal_author_account_id v))
    ∧ v_voter_account_id v ≠ v_proposal_author_account_id v
    ∧ (∃ p, p ∈ participants db ∧ part_key p = (v_round_id v, v_voter_account_id v));
  ph_round : ∀ r, r ∈ rounds db → phase_ok db r;
  complete : ∀ q, q ∈ proposals db → pp_status q = ProposalStatusSubmitted → proposal_complete db q
}.

Lemma Inv_empty : Inv empty_db.
Proof. split; cbn; try apply NoDup_nil_2; by intros ? ?%not_elem_of_nil. Qed.

(** ** What stays equal when the tables of another round change *)
Lemma round_proposals_draft db rid :
  (∀ q, q ∈ proposals db → pp_round_id q ≠ rid) → round_proposals rid db = [].
Proof.
  intros H. apply sql_many_none. intros q Hq. apply Z.eqb_neq. auto.
Qed.

(** Completeness of a proposal depends only on its round's participants and on
    its own items. *)
Lemma proposal_complete_frame db db' q q' :
  pp_id q' = pp_id q → pp_round_id q' = pp_round_id q →
  round_participants (pp_round_id q) db' = round_participants (pp_round_id q) db →
  sql_many (λ i, (it_round_id i =? pp_round_id q) && bool_decide (it_proposal_id i = pp_id q)) (items db')
  = sql_many (λ i, (it_round_id i =? pp_round_id q) && bool_decide (it_proposal_id i = pp_id q)) (items db) →
  proposal_complete db q → proposal_complete db' q'.
Proof.
  intros Hid Hrid Hp Hi. unfold proposal_complete. rewrite Hid, Hrid.
  unfold ListProfitSharingProposalItems, ListProfitSharingParticipants.
  unfold round_participants in Hp. rewrite Hp.
  assert (∀ a, sql_many (λ i, (it_round_id i =? pp_round_id q) && bool_decide (it_proposal_id i = pp_id q)
              && (it_participant_account_id i =? a)%N) (items db')
          = sql_many (λ i, (it_round_id i =? pp_round_id q) && bool_decide (it_proposal_id i = pp_id q)
              && (it_participant_account_id i =? a)%N) (items db)) as Ha.
  { intros a. assert (∀ t, sql_many (λ i, (it_round_id i =? pp_round_id q) && bool_decide (it_proposal_id i = pp_id q)
              && (it_participant_account_id i =? a)%N) t
       = sql_many (λ i, (it_participant_account_id i =? a)%N)
          (sql_many (λ i, (it_round_id i =? pp_round_id q) && bool_decide (it_proposal_id i = pp_id q)) t)) as Ht.
    { intros t. unfold sql_many. rewrite list_filter_filter. apply list_filter_iff.
      intros i. rewrite !Is_true_true, !andb_true_iff. tauto. }
    by rewrite !Ht, Hi. }
  intros H. rewrite <- H. f_equal.
  apply list_bind_ext; [|done]. intros p. apply Ha.
Qed.

(** ** Creating and reconfiguring a round *)
Lemma participant_rows_ok rid inputs rows :
  participant_rows rid inputs = Ok rows → ∀ p, p ∈ rows → pt_round_id p = rid.
Proof.
  revert rows. induction inputs as [|i inputs IH]; intros rows Hok; cbn in Hok.
  { simplify_eq. by intros ? ?%not_elem_of_nil. }
  tx_inv. unfold mret, result_ret in *. simplify_eq.
  intros p [->|?]%elem_of_cons; [done|]. eauto.
Qed.

Lemma createParticipants_ok rid inputs db db' u :
  createParticipants rid inputs db = Ok (db', u) →
  ∃ rows, db' = set_participants (participants db ++ rows) db
    ∧ (∀ p, p ∈ rows → pt_round_id p = rid)
    ∧ (NoDup (part_key <$> participants db) → NoDup (part_key <$> participants db ++ rows)).
Proof.
  unfold createParticipants. destruct inputs as [|i inputs].
  { intros Hok. tx_inv. exists []. rewrite app_nil_r. split_and!; [by destruct db| |done].
    by intros ? ?%not_elem_of_nil. }
  intros Hok. tx_inv. unfold BatchCreateProfitSharingParticipants in *. tx_inv.
  match goal with H : sql_insert _ _ _ _ _ = Ok _ |- _ => pose proof H as Hins; apply sql_insert_ok in H as [-> _] end.
  eexists; split; [done|]. split; [by eapply participant_rows_ok|].
  intros Hnd. eapply (sql_insert_NoDup part_key); [|exact Hins|exact Hnd].
  intros a b [= ? ?]. unfold participant_conflict.
  apply andb_true_iff; split; [by apply Z.eqb_eq|]. apply orb_true_iff; left. by apply N.eqb_eq.
Qed.

Lemma CreateRound_ok now id slug title inputs db db' res :
  CreateRound now id slug title inputs db = Ok (db', res) →
  ∃ row rows, res = row ∧ r_id row = id ∧ r_phase row = RoundPhaseDraft ∧ r_active_ballot_number row = None
    ∧ r_final_proposal_id row = None ∧ r_revision row = 1
    ∧ (∀ r, r ∈ rounds db → r_id r ≠ id)
    ∧ db' = set_participants (participants db ++ rows) (set_rounds (rounds db ++ [row]) db)
    ∧ (∀ p, p ∈ rows → pt_round_id p = id)
    ∧ (NoDup (part_key <$> participants db) → NoDup (part_key <$> participants db ++ rows)).
Proof.
  unfold CreateRound. intros Hok. tx_inv.
  match goal with H : on_constraint _ _ _ _ = Ok _ |- _ => apply on_constraint_ok in H; unfold CreateProfitSharingRound in H end.
  tx_inv.
  match goal with H : sql_insert _ _ _ _ _ = Ok _ |- _ => apply sql_insert_ok in H as [-> _] end.
  match goal with H : createParticipants _ _ _ = Ok _ |- _ => apply createParticipants_ok in H as (rows & -> & Hr & Hnd) end.
  eexists _, rows. split; [done|]. split_and!; try done.
  bool_prop. rewrite existsb_elem_false in *. intros r Hr'.
  match goal with H : ∀ r, r ∈ rounds db → _ |- _ => specialize (H r Hr') end. bool_prop. done.
Qed.

Lemma Inv_CreateRound now id slug title inputs db db' res :
  Inv db → CreateRound now id slug title inputs db = Ok (db', res) → Inv db'.
Proof.
  intros I (row & rows & _ & Hid & Hph & Hact & Hfin & _ & Hfresh & -> & Hrows & Hnd)%CreateRound_ok.
  assert (∀ p, p ∈ participants db → pt_round_id p ≠ id) as Hpid.
  { intros p Hp. destruct (ref_part _ I p Hp) as (r & Hr & <-). auto. }
  assert (∀ q, q ∈ proposals db → pp_round_id q ≠ id) as Hqid.
  { intros q Hq. destruct (ref_prop _ I q Hq) as (p & Hp & [= <- _]). auto. }
  assert (∀ rid, rid ≠ id → round_participants rid (set_participants (participants db ++ rows)
            (set_rounds (rounds db ++ [row]) db)) = round_participants rid db) as Hparts.
  { intros rid Hne. unfold round_participants; cbn. rewrite sql_many_app, (sql_many_none _ rows), app_nil_r; [done|].
    intros p Hp. apply Z.eqb_neq. rewrite (Hrows p Hp). congruence. }
  split; cbn; try apply I; try done.
  - rewrite fmap_app, NoDup_app. split_and!; [apply I| |apply NoDup_singleton].
    cbn. intros ? (r & -> & Hr)%list_elem_of_fmap Heq%list_elem_of_singleton.
    apply (Hfresh r Hr). congruence.
  - apply Hnd, I.
  - intros p [Hp|Hp]%elem_of_app.
    + destruct (ref_part _ I p Hp) as (r & ? & ?). exists r. rewrite elem_of_app. eauto.
    + exists row. rewrite elem_of_app, list_elem_of_singleton. rewrite (Hrows p Hp). auto.
  - intros q Hq. destruct (ref_prop _ I q Hq) as (p & ? & ?). exists p. rewrite elem_of_app. eauto.
  - intros v Hv. destruct (ref_vote _ I v Hv) as (?&?&?&p&?&?). split_and!; try done.
    exists p. rewrite elem_of_app. eauto.
  - intros r [Hr|Hr%list_elem_of_singleton]%elem_of_app.
    + pose proof (ph_round _ I r Hr) as Hph'. pose proof (Hfresh r Hr) as Hne.
      revert Hph'. unfold phase_ok, five. rewrite (Hparts _ Hne). done.
    + subst r. unfold phase_ok. rewrite Hph, Hid. auto.
  - intros q Hq Hs. eapply (proposal_complete_frame db); [done|done| |done|by apply I].
    by apply Hparts, Hqid.
Qed.

(** A row update of one round, by id. *)
Lemma update_round_by_id (p : ProfitSharingRound → bool) f db db' row :
  NoDup (r_id <$> rounds db) → (∀ x, r_id (f x) = r_id x) →
  (∃ rid, ∀ x, p x = true → r_id x = rid) →
  update_round p f db = Ok (db', row) →
  ∃ r, r ∈ rounds db ∧ p r = true ∧ row = f r
    ∧ db' = set_rounds (sql_update p f (rounds db)) db
    ∧ NoDup (r_id <$> sql_update p f (rounds db))
    ∧ (∀ x, x ∈ sql_update p f (rounds db) ↔ x = f r ∨ (x ∈ rounds db ∧ r_id x ≠ r_id r)).
Proof.
  intros Hnd Hf (rid & Hp) (r & Hr & Hpr & -> & ->)%update_round_ok.
  exists r. split_and!; try done.
  - by rewrite sql_update_key by done.
  - intros x. apply (sql_update_one r_id); [done|done|done|].
    intros r' Hr'. rewrite (Hp r' Hr'), (Hp r Hpr). done.
Qed.

Lemma ref_part_update db (rs' : list ProfitSharingRound) r r' p :
  Inv db → r_id r' = r_id r →
  (∀ x, x ∈ rs' ↔ x = r' ∨ (x ∈ rounds db ∧ r_id x ≠ r_id r)) →
  p ∈ participants db → ∃ x, x ∈ rs' ∧ r_id x = pt_round_id p.
Proof.
  intros I Hid Hrs Hp. destruct (ref_part _ I p Hp) as (x & Hx & Heq).
  destruct (decide (r_id x = r_id r)).
  - exists r'. rewrite Hrs. split; [by left|congruence].
  - exists x. rewrite Hrs. eauto.
Qed.

(** The key tests of the round queries. *)
Lemma round_key_id rid ph e x :
  (r_id x =? rid) && bool_decide (r_phase x = ph) && (r_revision x =? e) = true →
  r_id x = rid ∧ r_phase x = ph ∧ r_revision x = e.
Proof. intros. by bool_prop. Qed.

Lemma draft_no_votes db r :
  Inv db → r ∈ rounds db → r_phase r = RoundPhaseDraft →
  (∀ q, q ∈ proposals db → pp_round_id q ≠ r_id r)
  ∧ (∀ i, i ∈ items db → it_round_id i ≠ r_id r)
  ∧ (∀ c, c ∈ candidates db → c_round_id c ≠ r_id r)
  ∧ (∀ v, v ∈ votes db → v_round_id v ≠ r_id r).
Proof.
  intros I Hr Hph. pose proof (ph_round _ I r Hr) as Hok. unfold phase_ok in Hok. rewrite Hph in Hok.
  destruct Hok as (Hq & _ & _). split_and!; [done|..].
  - intros i Hi. destruct (ref_item _ I i Hi) as (q & ? & _ & <-). auto.
  - intros c Hc. destruct (ref_cand _ I c Hc) as (q & ? & _ & <-). auto.
  - intros v Hv. destruct (ref_vote _ I v Hv) as (_ & (q & ? & _ & [= <- _]) & _). auto.
Qed.

Lemma DeleteParticipants_draft db db' r u :
  Inv db → r ∈ rounds db → r_phase r = RoundPhaseDraft →
  DeleteProfitSharingParticipants (r_id r) db = Ok (db', u) →
  db' = set_participants (sql_delete (λ p, pt_round_id p =? r_id r) (participants db)) db.
Proof.
  intros I Hr Hph Hok. destruct (draft_no_votes _ _ I Hr Hph) as (Hq & Hi & Hc & Hv).
  unfold DeleteProfitSharingParticipants in Hok. tx_inv.
  unfold set_participants. f_equal; try done; apply sql_delete_none; intros x Hx.
  - apply andb_false_iff; left. apply Z.eqb_neq; auto.
  - apply andb_false_iff; left. apply Z.eqb_neq; auto.
  - apply andb_false_iff; left. apply Z.eqb_neq; auto.
  - apply andb_false_iff; left. apply Z.eqb_neq; auto.
Qed.

(** Changing the rounds table alone keeps every fact but the phases'. *)
Lemma Inv_set_rounds db rs r r' :
  Inv db → r_id r' = r_id r → NoDup (r_id <$> rs) →
  (∀ x, x ∈ rs ↔ x = r' ∨ (x ∈ rounds db ∧ r_id x ≠ r_id r)) →
  phase_ok db r' → Inv (set_rounds rs db).
Proof.
  intros I Hid Hnd Hrs Hph. split; cbn; try apply I; try done.
  - intros p Hp. eapply ref_part_update; eauto.
  - intros x [->|[Hx _]]%Hrs; [done|]. by apply (ph_round _ I).
Qed.

Lemma Inv_replace_participants db r rows :
  Inv db → r ∈ rounds db → r_phase r = RoundPhaseDraft →
  (∀ p, p ∈ rows → pt_round_id p = r_id r) →
  NoDup (part_key <$> sql_delete (λ p, pt_round_id p =? r_id r) (participants db) ++ rows) →
  Inv (set_participants (sql_delete (λ p, pt_round_id p =? r_id r) (participants db) ++ rows) db).
Proof.
  intros I Hr Hph Hrows Hnd. destruct (draft_no_votes _ _ I Hr Hph) as (Hq & Hi & Hc & Hv).
  set (del := sql_delete _ _) in *.
  assert (∀ p, p ∈ participants db → pt_round_id p ≠ r_id r → p ∈ del ++ rows) as Hkeep.
  { intros p ? ?. apply elem_of_app; left. apply elem_of_sql_delete. split; [by apply Z.eqb_neq|done]. }
  assert (∀ rid, rid ≠ r_id r → round_participants rid (set_participants (del ++ rows) db)
                               = round_participants rid db) as Hparts.
  { intros rid Hne. unfold round_participants, del; cbn.
    rewrite sql_many_app, (sql_many_none _ rows), app_nil_r, sql_many_delete; [done| |].
    - intros p ?. bool_prop. apply Z.eqb_neq. congruence.
    - intros p Hp. apply Z.eqb_neq. rewrite (Hrows p Hp). congruence. }
  split; cbn; try apply I; try done.
  - intros p [Hp|Hp]%elem_of_app.
    + apply elem_of_sql_delete in Hp as [_ Hp]. by apply I.
    + exists r. by rewrite (Hrows p Hp).
  - intros q Hq'. destruct (ref_prop _ I q Hq') as (p & Hp & Hk). exists p. split; [|done].
    apply Hkeep; [done|]. injection Hk as -> _. auto.
  - intros v Hv'. destruct (ref_vote _ I v Hv') as (?&?&?&p&?&Hk). split_and!; try done.
    exists p. split; [|done]. apply Hkeep; [done|]. injection Hk as -> _. auto.
  - intros x Hx. pose proof (ph_round _ I x Hx) as Hok. revert Hok. unfold phase_ok, five.
    destruct (decide (r_id x = r_id r)) as [Heq|Hne].
    + assert (x = r) as -> by (eapply (NoDup_key_inj r_id); eauto; apply I). by rewrite Hph.
    + rewrite (Hparts _ Hne). done.
  - intros q Hq' Hs. eapply (proposal_complete_frame db); [done|done| |done|by apply I].
    by apply Hparts, Hq.
Qed.

Lemma Inv_UpdateRound now cur next title inputs e db db' res :
  Inv db → UpdateRound now cur next title inputs e db = Ok (db', res) → Inv db'.
Proof.
  intros I Hok. unfold UpdateRound in Hok. tx_inv.
  match goal with H : lockRoundBySlug _ _ = Ok _ |- _ => apply lockRoundBySlug_ok in H as (-> & Hr0 & _) end.
  match goal with H : on_constraint _ _ _ _ = Ok _ |- _ =>
    apply on_constraint_ok, on_no_rows_ok in H; unfold UpdateProfitSharingRoundConfig in H end.
  tx_inv.
  match goal with H : update_round _ _ _ = Ok _ |- _ =>
    apply update_round_by_id in H as (r & Hr & Hp & -> & -> & Hnd & Hrs);
    [|apply I|done|eexists; intros ? ?%round_key_id; naive_solver] end.
  apply round_key_id in Hp as (Hid & Hph & Hrev).
  opose proof (Inv_set_rounds db _ r _ I _ Hnd Hrs _) as I1; [done| |].
  { pose proof (ph_round _ I r Hr) as Hpk. revert Hpk. unfold phase_ok; cbn. by rewrite Hph. }
  match type of I1 with Inv ?d => set (db1 := d) in * end.
  match type of Hrs with ∀ x, _ ↔ x = ?g ∨ _ => set (r1 := g) in * end.
  assert (r1 ∈ rounds db1) as Hr1 by (apply Hrs; by left).
  match goal with H : DeleteProfitSharingParticipants _ _ = Ok _ |- _ =>
    rewrite <- Hid in H; change (r_id r) with (r_id r1) in H; apply (DeleteParticipants_draft _ _ _ _ I1 Hr1 Hph) in H as -> end.
  match goal with H : createParticipants _ _ _ = Ok _ |- _ =>
    rewrite <- Hid in H; change (r_id r) with (r_id r1) in H;
    apply createParticipants_ok in H as (rows & -> & Hrows & Hnd') end.
  exact (Inv_replace_participants db1 r1 rows I1 Hr1 Hph Hrows
           (Hnd' (NoDup_sql_many _ _ _ (k_part _ I1)))).
Qed.

(** ** Opening a round *)
Lemma BatchCreateProposals_ok now rid rows db db' u :
  Inv db → BatchCreateProfitSharingProposals now rid rows db = Ok (db', u) →
  ∃ new, db' = set_proposals (proposals db ++ new) db ∧ length new = length rows
    ∧ (∀ q, q ∈ new → pp_round_id q = rid ∧ pp_status q = ProposalStatusDraft
         ∧ ∃ p, p ∈ participants db ∧ part_key p = author_key q)
    ∧ NoDup (pp_id <$> proposals db ++ new) ∧ NoDup (author_key <$> proposals db ++ new).
Proof.
  intros I Hok. unfold BatchCreateProfitSharingProposals in Hok. tx_inv.
  match goal with H : sql_insert _ _ _ _ _ = Ok _ |- _ =>
    pose proof H as Hins; apply sql_insert_ok in H as [-> Hc] end.
  eexists; split; [done|]. split; [by rewrite length_fmap|]. split_and!.
  - intros q Hq. pose proof (Hc q Hq) as (p & Hp & Hk)%existsb_elem. bool_prop.
    apply list_elem_of_fmap in Hq as (x & -> & _). split_and!; [done..|].
    exists p. split; [done|]. unfold part_key, author_key. cbn in *.
    match goal with H : (_ =? _)%N = true |- _ => apply N.eqb_eq in H as -> end. congruence.
  - eapply (sql_insert_NoDup pp_id); [|exact Hins|apply I].
    intros a b Hab. cbn. by rewrite (bool_decide_eq_true_2 _ Hab).
  - eapply (sql_insert_NoDup author_key); [|exact Hins|apply I].
    intros a b [= Ha Hb]. cbn. by rewrite Ha, Hb, Z.eqb_refl, N.eqb_refl, orb_true_r.
Qed.

Lemma insert_items_ok rows db db' u :
  insert_items rows db = Ok (db', u) →
  db' = set_items (items db ++ rows) db
  ∧ (∀ i, i ∈ rows → ∃ q, q ∈ proposals db ∧ pp_id q = it_proposal_id i ∧ pp_round_id q = it_round_id i)
  ∧ (NoDup (item_key <$> items db) → NoDup (item_key <$> items db ++ rows)).
Proof.
  intros Hok. unfold insert_items in Hok. tx_inv.
  match goal with H : sql_insert _ _ _ _ _ = Ok _ |- _ =>
    pose proof H as Hins; apply sql_insert_ok in H as [-> Hc] end.
  split_and!; [done|..].
  - intros i Hi. specialize (Hc i Hi). bool_prop.
    match goal with H : existsb _ (proposals db) = true |- _ => apply existsb_elem in H as (q & Hq & Hk) end.
    bool_prop. eauto.
  - intros Hnd. eapply (sql_insert_NoDup item_key); [|exact Hins|exact Hnd].
    intros a b [= Ha Hb]. cbn. by rewrite (bool_decide_eq_true_2 _ Ha), Hb, N.eqb_refl.
Qed.

Lemma validateOpenParticipants_length ps ids :
  validateOpenParticipants ps ids = Ok tt → length ps = requiredParticipantCount.
Proof. unfold validateOpenParticipants. intros Hok. tx_inv. by bool_prop. Qed.

Lemma list_participants_length rid db :
  length (ListProfitSharingParticipants rid db) = length (round_participants rid db).
Proof. apply sort_by_length. Qed.

(** The committed state of an opening. *)
Lemma Inv_opened db r r' rs new its :
  Inv db → r ∈ rounds db → r_phase r = RoundPhaseDraft →
  r_id r' = r_id r → r_phase r' = RoundPhaseCollecting →
  r_active_ballot_number r' = None → r_final_proposal_id r' = None →
  NoDup (r_id <$> rs) → (∀ x, x ∈ rs ↔ x = r' ∨ (x ∈ rounds db ∧ r_id x ≠ r_id r)) →
  length (round_participants (r_id r) db) = requiredParticipantCount →
  length new = requiredParticipantCount →
  (∀ q, q ∈ new → pp_round_id q = r_id r ∧ pp_status q = ProposalStatusDraft
     ∧ ∃ p, p ∈ participants db ∧ part_key p = author_key q) →
  NoDup (pp_id <$> proposals db ++ new) → NoDup (author_key <$> proposals db ++ new) →
  (∀ i, i ∈ its → it_round_id i = r_id r ∧
     ∃ q, q ∈ proposals db ++ new ∧ pp_id q = it_proposal_id i ∧ pp_round_id q = it_round_id i) →
  NoDup (item_key <$> items db ++ its) →
  Inv (set_rounds rs (set_items (items db ++ its) (set_proposals (proposals db ++ new) db))).
Proof.
  intros I Hr Hph Hid Hph' Hact Hfin Hndr Hrs Hlp Hln Hnew Hk1 Hk2 Hits Hk3.
  destruct (draft_no_votes _ _ I Hr Hph) as (Hq & Hi & Hc & Hv).
  set (db' := set_rounds _ _).
  assert (∀ rid, rid ≠ r_id r → round_proposals rid db' = round_proposals rid db) as Hprops.
  { intros rid Hne. unfold round_proposals, db'; cbn.
    rewrite sql_many_app, (sql_many_none _ new), app_nil_r; [done|].
    intros q Hq'. destruct (Hnew q Hq') as (? & _). apply Z.eqb_neq. congruence. }
  assert (∀ q, q ∈ proposals db' → pp_round_id q ≠ r_id r → q ∈ proposals db) as Hold.
  { unfold db'; cbn. intros q [?|Hq']%elem_of_app Hne; [done|]. by destruct (Hnew q Hq'). }
  split; cbn; try apply I; try done.
  - intros p Hp. eapply (ref_part_update db); eauto.
  - intros q [Hq'|Hq']%elem_of_app; [by apply I|]. by apply Hnew.
  - intros i [Hi'|Hi']%elem_of_app; [|by apply Hits].
    destruct (ref_item _ I i Hi') as (q & ? & ?). exists q. rewrite elem_of_app. eauto.
  - intros c Hc'. destruct (ref_cand _ I c Hc') as (q & ? & ?). exists q. rewrite elem_of_app. eauto.
  - intros v Hv'. destruct (ref_vote _ I v Hv') as (?&(q&?&?)&?&?). split_and!; try done.
    exists q. rewrite elem_of_app. eauto.
  - intros x [->|[Hx Hne]]%Hrs.
    + unfold phase_ok, five. rewrite Hph', Hid. split_and!; try done.
      unfold round_proposals, db'; cbn. rewrite sql_many_app, length_app.
      rewrite (sql_many_none _ (proposals db)), (sql_many_all _ new); [done| |].
      * intros q Hq'. apply Z.eqb_eq. by destruct (Hnew q Hq').
      * intros q Hq'. apply Z.eqb_neq. auto.
    + pose proof (ph_round _ I x Hx) as Hok. revert Hok. unfold phase_ok, five.
      rewrite (Hprops _ Hne).
      assert (all_submitted db (r_id x) → all_submitted db' (r_id x)) as Hall.
      { intros Ha q Hq' Hqr. apply Ha; [|done]. apply Hold; [done|congruence]. }
      destruct (r_phase x).
      * intros (Hx1 & ?). split; [|done]. intros q Hq' Hqr. eapply Hx1; [|exact Hqr].
        apply Hold; [done|congruence].
      * done.
      * intros (? & ? & ?). split; [done|]. split; [auto|done].
      * intros (? & ? & w & q & Hw & Hqi & Hqs). split; [done|]. split; [auto|].
        exists w, q. split; [done|]. split; [|done]. unfold db'; cbn. apply elem_of_app; auto.
  - intros q [Hq'|Hq']%elem_of_app Hs.
    + eapply (proposal_complete_frame db); [done|done|done| |by apply I].
      unfold db'; cbn. rewrite sql_many_app, (sql_many_none _ its), app_nil_r; [done|].
      intros i Hi'. destruct (Hits i Hi') as (Hri & _). apply andb_false_iff; left.
      apply Z.eqb_neq. specialize (Hq q Hq'). congruence.
    + destruct (Hnew q Hq') as (_ & Hd & _). congruence.
Qed.

Lemma Inv_OpenRound now fresh slug e ids db db' res :
  Inv db → OpenRound now fresh slug e ids db = Ok (db', res) → Inv db'.
Proof.
  intros I Hok. unfold OpenRound in Hok. tx_inv.
  match goal with H : lockRoundBySlug _ _ = Ok _ |- _ => apply lockRoundBySlug_ok in H as (-> & Hr0 & _) end.
  tx_inv.
  match goal with H : BatchCreateProfitSharingProposals _ _ _ _ = Ok _ |- _ =>
    apply (BatchCreateProposals_ok _ _ _ _ _ _ I) in H as (new & -> & Hlen & Hnew & Hk1 & Hk2) end.
  match goal with H : CreateInitialProfitSharingProposalItems _ _ = Ok _ |- _ =>
    unfold CreateInitialProfitSharingProposalItems in H end.
  tx_inv.
  match goal with H : insert_items _ _ = Ok _ |- _ => apply insert_items_ok in H as (-> & Hits & Hk3) end.
  match goal with H : on_no_rows _ _ _ = Ok _ |- _ =>
    apply on_no_rows_ok, update_round_by_id in H as (r & Hr & Hp & -> & -> & Hnd & Hrs);
    [|apply I|done|eexists; intros ? (?&_)%round_key_id; eassumption] end.
  apply round_key_id in Hp as (Hid & Hph & Hrev). cbn in Hr.
  match goal with H : validateOpenParticipants ?p ?i = Ok ?u |- _ =>
    destruct u; apply validateOpenParticipants_length in H as Hlp end.
  rewrite list_participants_length, <- Hid in Hlp.
  pose proof (ph_round _ I r Hr) as Hpk. unfold phase_ok in Hpk. rewrite Hph in Hpk.
  destruct Hpk as (Hq & Hact & Hfin).
  eapply (Inv_opened db r); [exact I|exact Hr|exact Hph| | | | |exact Hnd|exact Hrs|..]; try done.
  - rewrite Hlen, length_imap, list_participants_length, <- Hid. done.
  - intros q Hq'. rewrite Hid. by apply Hnew.
  - intros i Hi. split; [|by apply Hits]. rewrite Hid.
    apply list_elem_of_bind in Hi as (p & Hi & Hp). apply list_elem_of_bind in Hi as (y & Hi & Hy).
    apply list_elem_of_singleton in Hi as ->. apply elem_of_sql_many in Hp as [Hp _]. cbn. by bool_prop.
  - apply Hk3, I.
Qed.

(** ** Changing proposals and items *)
Definition pp_ref (q : ProfitSharingProposal) := (pp_id q, pp_round_id q, pp_author_account_id q).

Lemma pp_ref_columns (ps ps' : list ProfitSharingProposal) :
  pp_ref <$> ps' = pp_ref <$> ps → pp_id <$> ps' = pp_id <$> ps ∧ author_key <$> ps' = author_key <$> ps.
Proof.
  intros Hc. split.
  - change pp_id with ((λ x : string * Z * N, x.1.1) ∘ pp_ref). by rewrite !list_fmap_compose, Hc.
  - change author_key with ((λ x : string * Z * N, (x.1.2, x.2)) ∘ pp_ref). by rewrite !list_fmap_compose, Hc.
Qed.

Lemma Inv_set_proposals db ps :
  Inv db → pp_ref <$> ps = pp_ref <$> proposals db →
  (∀ q, q ∈ ps → pp_status q = ProposalStatusSubmitted → proposal_complete db q) →
  (∀ r, r ∈ rounds db → r_phase r = RoundPhaseVoting ∨ r_phase r = RoundPhaseClosed →
     all_submitted (set_proposals ps db) (r_id r)) →
  Inv (set_proposals ps db).
Proof.
  intros I Hc Hsub Hall. destruct (pp_ref_columns _ _ Hc) as [Hc1 Hc2].
  assert (∀ q, q ∈ proposals db → ∃ q', q' ∈ ps ∧ pp_ref q' = pp_ref q) as Hfw.
  { intros q Hq. eapply column_elem; [symmetry; exact Hc|done]. }
  assert (∀ rid, five db rid → five (set_proposals ps db) rid) as Hfive.
  { intros rid [? Hl]. split; [done|]. rewrite <- Hl.
    apply (column_filter_length pp_ref (λ x, x.1.2 =? rid)). done. }
  split; cbn; try apply I; try done; try (by rewrite ?Hc1, ?Hc2; apply I).
  - intros q Hq. destruct (column_elem pp_ref _ _ _ Hc Hq) as (q' & Hq' & [= _ Ha Hb]).
    destruct (ref_prop _ I q' Hq') as (p & ? & Hk). exists p. split; [done|].
    rewrite Hk. unfold author_key. congruence.
  - intros i Hi. destruct (ref_item _ I i Hi) as (q & Hq & Ha & Hb).
    destruct (Hfw q Hq) as (q' & ? & [= ? ? _]). exists q'. split_and!; congruence.
  - intros c Hi. destruct (ref_cand _ I c Hi) as (q & Hq & Ha & Hb).
    destruct (Hfw q Hq) as (q' & ? & [= ? ? _]). exists q'. split_and!; congruence.
  - intros v Hv. destruct (ref_vote _ I v Hv) as (? & (q & Hq & Ha & Hb) & ? & ?). split_and!; try done.
    destruct (Hfw q Hq) as (q' & ? & [= ? ? ?]). exists q'. split_and!; [done|congruence|].
    rewrite <- Hb. unfold author_key. congruence.
  - intros r Hr. pose proof (ph_round _ I r Hr) as Hok. specialize (Hall r Hr).
    revert Hok. unfold phase_ok. destruct (r_phase r).
    + intros (Hq & ?). split; [|done]. intros q Hqps.
      destruct (column_elem pp_ref _ _ _ Hc Hqps) as (q' & Hq' & [= _ Ha _]). rewrite <- Ha. auto.
    + intros (?&?). auto.
    + intros (?&_&?). auto.
    + intros (?&_&w&q&Hw&Hq&Hi&Hrd). split; [auto|]. split; [auto|].
      destruct (Hfw q Hq) as (q' & ? & [= ? ? _]). exists w, q'. split_and!; [done|done|congruence..].
Qed.

(** Updates that keep id, round, author and status. *)
Definition pp_core (q : ProfitSharingProposal) := (pp_ref q, pp_status q).

Lemma Inv_set_proposals_core db ps :
  Inv db → pp_core <$> ps = pp_core <$> proposals db → Inv (set_proposals ps db).
Proof.
  intros I Hc. apply Inv_set_proposals; [done|..].
  - change pp_ref with (fst ∘ pp_core). by rewrite !list_fmap_compose, Hc.
  - intros q Hq Hs. destruct (column_elem pp_core _ _ _ Hc Hq) as (q' & Hq' & [= Ha Hb _ Hst]).
    apply (proposal_complete_frame db db q' q); auto. apply I; congruence.
  - intros r Hr Hph q Hq Hid. cbn in Hq.
    destruct (column_elem pp_core _ _ _ Hc Hq) as (q' & Hq' & [= Ha Hb _ Hst]).
    pose proof (ph_round _ I r Hr) as Hok. unfold phase_ok in Hok.
    rewrite <- Hst. destruct Hph as [Hph|Hph]; rewrite Hph in Hok; destruct Hok as (_ & Hall & _);
      apply Hall; congruence.
Qed.

(** The items of a draft proposal are replaced. *)
Lemma Inv_replace_items db q rows :
  Inv db → q ∈ proposals db → pp_status q = ProposalStatusDraft →
  (∀ i, i ∈ rows → it_round_id i = pp_round_id q ∧ it_proposal_id i = pp_id q) →
  let its := sql_delete (λ i, (it_round_id i =? pp_round_id q) && bool_decide (it_proposal_id i = pp_id q)) (items db)
             ++ rows in
  NoDup (item_key <$> its) → Inv (set_items its db).
Proof.
  intros I Hq Hst Hrows its Hnd. split; cbn; try apply I; try done.
  - intros i [[_ Hi]%elem_of_sql_delete|Hi]%elem_of_app; [by apply I|].
    destruct (Hrows i Hi) as [-> ->]. eauto.
  - intros q2 Hq2 Hs. eapply (proposal_complete_frame db); [done|done|done| |by apply I].
    cbn. assert (pp_id q2 ≠ pp_id q) as Hne.
    { intros Heq. assert (q2 = q) as -> by (eapply (NoDup_key_inj pp_id); eauto; apply I). congruence. }
    unfold its. rewrite sql_many_app, (sql_many_none _ rows), app_nil_r, sql_many_delete; [done| |].
    + intros i ?. bool_prop. apply andb_false_iff; right. apply bool_decide_eq_false. congruence.
    + intros i Hi. destruct (Hrows i Hi) as [_ ->]. apply andb_false_iff; right.
      apply bool_decide_eq_false. congruence.
Qed.

Lemma Inv_UpdateProposal now slug a e inputs db db' res :
  Inv db → UpdateProposal now slug a e inputs db = Ok (db', res) → Inv db'.
Proof.
  intros I Hok. unfold UpdateProposal in Hok. tx_inv.
  match goal with H : lockRoundBySlug _ _ = Ok _ |- _ => apply lockRoundBySlug_ok in H as (-> & Hr0 & _) end.
  tx_inv.
  match goal with H : lockProposalByAuthor _ _ _ = Ok _ |- _ =>
    apply lockProposalByAuthor_ok in H as (-> & Hq & Hqr) end.
  unfold DeleteProfitSharingProposalItems in *. tx_inv. unfold createProposalItems in *. tx_inv.
  match goal with H : BatchCreateProfitSharingProposalItems _ _ _ _ = Ok _ |- _ =>
    apply insert_items_ok in H as (-> & _ & Hnd) end.
  match goal with H : on_no_rows _ _ _ = Ok _ |- _ =>
    apply on_no_rows_ok, update_proposal_ok in H as (q & Hq' & Hp & -> & ->) end.
  bool_prop.
  apply Inv_set_proposals_core; [|by apply sql_update_key].
  rewrite <- Hqr in *. refine (Inv_replace_items db _ _ I Hq _ _ _); [done| |].
  - intros i (y & -> & _)%list_elem_of_fmap. done.
  - apply Hnd. cbn. apply NoDup_sql_many, I.
Qed.

(** One proposal of a round still collecting changes its status. *)
Lemma Inv_set_status db (p : ProfitSharingProposal → bool) f q :
  Inv db → q ∈ proposals db → p q = true → (∀ x, p x = true → pp_id x = pp_id q) →
  (∀ x, pp_ref (f x) = pp_ref x) →
  (pp_status (f q) = ProposalStatusSubmitted → proposal_complete db q) →
  (∃ r, r ∈ rounds db ∧ r_id r = pp_round_id q ∧ r_phase r = RoundPhaseCollecting) →
  Inv (set_proposals (sql_update p f (proposals db)) db).
Proof.
  intros I Hq Hp Hkey Hf Hsub (r0 & Hr0 & Hid0 & Hph0).
  assert (∀ x, x ∈ sql_update p f (proposals db) ↔ x = f q ∨ (x ∈ proposals db ∧ pp_id x ≠ pp_id q)) as Hone.
  { intros x. apply (sql_update_one pp_id); try done. apply I. }
  assert (∀ x, pp_round_id (f x) = pp_round_id x ∧ pp_id (f x) = pp_id x) as Hff.
  { intros x. specialize (Hf x). by injection Hf. }
  apply Inv_set_proposals; [done|by apply sql_update_key|..].
  - intros x [->|[Hx _]]%Hone Hs; [|by apply I].
    apply (proposal_complete_frame db db q); [apply Hff|apply Hff|done..|auto].
  - intros r Hr Hph x Hx Hrid. cbn in Hx.
    pose proof (ph_round _ I r Hr) as Hok. unfold phase_ok in Hok.
    apply Hone in Hx as [->|[Hx _]].
    + assert (r = r0) as -> by (eapply (NoDup_key_inj r_id); [apply I|done|done|];
        destruct (Hff q); congruence).
      destruct Hph; congruence.
    + destruct Hph as [Hph|Hph]; rewrite Hph in Hok; destruct Hok as (_ & Hall & _); by apply Hall.
Qed.

Lemma proposal_key_ok id rid a st e q :
  proposal_key id rid a st e q = true →
  pp_id q = id ∧ pp_round_id q = rid ∧ pp_author_account_id q = a ∧ pp_status q = st ∧ pp_revision q = e.
Proof. unfold proposal_key. intros. bool_prop. split_and!; try done. by apply N.eqb_eq. Qed.

Lemma Inv_changeProposalStatus now slug a e submit db db' res :
  Inv db → changeProposalStatus now slug a e submit db = Ok (db', res) → Inv db'.
Proof.
  intros I Hok. unfold changeProposalStatus in Hok. tx_inv.
  match goal with H : lockRoundBySlug _ _ = Ok (_, ?r) |- _ =>
    apply lockRoundBySlug_ok in H as (-> & Hr0 & _); rename r into rnd end.
  tx_inv.
  match goal with H : lockProposalByAuthor _ _ _ = Ok (_, ?q) |- _ =>
    apply lockProposalByAuthor_ok in H as (-> & Hq & Hqr); rename q into prop end.
  tx_inv. bool_prop.
  destruct submit; tx_inv; bool_prop;
  match goal with H : on_no_rows _ _ _ = Ok _ |- _ =>
    apply on_no_rows_ok, update_proposal_ok in H as (q & Hq' & Hp & _ & ->) end;
  pose proof Hp as (Hi1 & Hi2 & _)%proposal_key_ok;
  (eapply (Inv_set_status db _ _ q); [done|done|done| |done| |eexists; split_and!; [exact Hr0|congruence|done]]);
  try (intros x (? & _)%proposal_key_ok; congruence).
  - intros _. unfold proposal_complete. rewrite Hi1, Hi2.
    match goal with H : validateCompleteProposal _ _ = Ok ?u |- _ => by destruct u end.
  - cbn. discriminate.
Qed.

(** ** Publishing, voting and closing *)
Lemma AssignLabel_ok now label id rid db db' u :
  AssignProfitSharingProposalLabel now label id rid db = Ok (db', u) →
  ∃ ps, db' = set_proposals ps db ∧ pp_core <$> ps = pp_core <$> proposals db.
Proof.
  unfold AssignProfitSharingProposalLabel. intros Hok. tx_inv.
  match goal with H : update_proposal _ _ _ = Ok _ |- _ => apply update_proposal_ok in H as (q & _ & _ & _ & ->) end.
  eexists; split; [done|]. by apply sql_update_key.
Qed.

Lemma assign_labels_ok now rid i ps db db' ids :
  assign_labels now rid i ps db = Ok (db', ids) →
  ids = pp_id <$> ps ∧
  ∃ ps', db' = set_proposals ps' db ∧ pp_core <$> ps' = pp_core <$> proposals db.
Proof.
  revert i db ids. induction ps as [|p ps IH]; intros i db ids Hok; cbn in Hok.
  { tx_inv. split; [done|]. exists (proposals db). by destruct db. }
  tx_inv.
  match goal with H : assign_labels _ _ _ _ _ = Ok _ |- _ => apply IH in H as (-> & ps2 & -> & Hc2) end.
  split; [done|]. destruct (pp_anonymous_label p); tx_inv; [eauto|].
  match goal with H : AssignProfitSharingProposalLabel _ _ _ _ _ = Ok _ |- _ =>
    apply AssignLabel_ok in H as (ps1 & -> & Hc1) end.
  exists ps2. split; [done|]. cbn in Hc2. congruence.
Qed.

Lemma CreateBallot_ok now rid n db db' u :
  CreateProfitSharingBallot now rid n db = Ok (db', u) →
  ∃ b, db' = set_ballots (ballots db ++ [b]) db
    ∧ b_round_id b = rid ∧ b_ballot_number b = n ∧ b_status b = BallotOpen ∧ 0 < n
    ∧ (NoDup (ballot_key <$> ballots db) → NoDup (ballot_key <$> ballots db ++ [b])).
Proof.
  unfold CreateProfitSharingBallot. intros Hok. tx_inv.
  match goal with H : sql_insert _ _ _ _ _ = Ok _ |- _ =>
    pose proof H as Hins; apply sql_insert_ok in H as [-> Hc] end.
  eexists; split; [done|]. split_and!; try done.
  - ospecialize (Hc _ _); [by apply list_elem_of_singleton|]. by bool_prop.
  - intros Hnd. eapply (sql_insert_NoDup ballot_key); [|exact Hins|exact Hnd].
    intros a b [= Ha Hb]. cbn. by rewrite Ha, Hb, !Z.eqb_refl.
Qed.

Lemma BatchCandidates_ok rid n ids db db' u :
  BatchCreateProfitSharingBallotCandidates rid n ids db = Ok (db', u) →
  let rows := (λ i, {| c_round_id := rid; c_ballot_number := n; c_proposal_id := i |}) <$> ids in
  db' = set_candidates (candidates db ++ rows) db
  ∧ (∀ c, c ∈ rows → ∃ q, q ∈ proposals db ∧ pp_id q = c_proposal_id c ∧ pp_round_id q = c_round_id c)
  ∧ (∀ c, c ∈ rows → ∃ b, b ∈ ballots db ∧ ballot_key b = (c_round_id c, c_ballot_number c))
  ∧ (NoDup (cand_key <$> candidates db) → NoDup (cand_key <$> candidates db ++ rows)).
Proof.
  unfold BatchCreateProfitSharingBallotCandidates. intros Hok. tx_inv.
  match goal with H : sql_insert _ _ _ _ _ = Ok _ |- _ =>
    pose proof H as Hins; apply sql_insert_ok in H as [-> Hc] end.
  split_and!; [done|..].
  - intros c Hcr. specialize (Hc c Hcr). bool_prop.
    match goal with H : existsb _ (proposals db) = true |- _ => apply existsb_elem in H as (q & Hq & Hk) end.
    bool_prop. eauto.
  - intros c Hcr. specialize (Hc c Hcr). bool_prop.
    match goal with H : existsb _ (ballots db) = true |- _ => apply existsb_elem in H as (b & Hb & Hk) end.
    bool_prop. exists b. unfold ballot_key. split; [done|congruence].
  - intros Hnd. eapply (sql_insert_NoDup cand_key); [|exact Hins|exact Hnd].
    intros a b [= Ha Hb Hab]. cbn. by rewrite Ha, Hb, !Z.eqb_refl, (bool_decide_eq_true_2 _ Hab).
Qed.

Lemma Inv_set_ballots db bs :
  Inv db → NoDup (ballot_key <$> bs) → (∀ k, k ∈ ballot_key <$> ballots db → k ∈ ballot_key <$> bs) →
  Inv (set_ballots bs db).
Proof.
  intros I Hnd Hsub. split; cbn; try apply I; try done.
  intros c Hc. destruct (ref_cand_ballot _ I c Hc) as (b & Hb & Hk).
  ospecialize (Hsub (ballot_key b) _); [by apply list_elem_of_fmap_2|].
  apply list_elem_of_fmap in Hsub as (b' & Hb' & ?). exists b'. split; [done|congruence].
Qed.

Lemma Inv_add_candidates db rows :
  Inv db →
  (∀ c, c ∈ rows → ∃ q, q ∈ proposals db ∧ pp_id q = c_proposal_id c ∧ pp_round_id q = c_round_id c) →
  (∀ c, c ∈ rows → ∃ b, b ∈ ballots db ∧ ballot_key b = (c_round_id c, c_ballot_number c)) →
  NoDup (cand_key <$> candidates db ++ rows) → Inv (set_candidates (candidates db ++ rows) db).
Proof.
  intros I Hrows Hbs Hnd. split; cbn; try apply I; try done.
  - intros c [Hc|Hc]%elem_of_app; [by apply I|by apply Hrows].
  - intros c [Hc|Hc]%elem_of_app; [by apply I|by apply Hbs].
  - intros v Hv. destruct (ref_vote _ I v Hv) as ((c & ? & ?) & ?). split; [|done].
    exists c. rewrite elem_of_app. eauto.
Qed.

(** Opening a ballot: the ballot row with its candidates. *)
Lemma Inv_open_ballot now rid n ids db db1 db2 u1 u2 :
  Inv db → CreateProfitSharingBallot now rid n db = Ok (db1, u1) →
  BatchCreateProfitSharingBallotCandidates rid n ids db1 = Ok (db2, u2) →
  Inv db2 ∧ rounds db2 = rounds db ∧ proposals db2 = proposals db ∧ participants db2 = participants db.
Proof.
  intros I (b & -> & _ & _ & _ & _ & Hnd)%CreateBallot_ok (-> & Hrows & Hbs & Hnd')%BatchCandidates_ok.
  split; [|done]. apply (Inv_add_candidates (set_ballots _ db)); [|done|done|].
  - apply Inv_set_ballots; [done|apply Hnd, I|]. intros k. rewrite fmap_app, elem_of_app. by left.
  - apply Hnd', I.
Qed.

Lemma sorted_proposals_elem rid db q :
  q ∈ ListProfitSharingProposals rid db ↔ q ∈ proposals db ∧ pp_round_id q = rid.
Proof.
  unfold ListProfitSharingProposals. rewrite sort_by_elem, elem_of_sql_many, Z.eqb_eq. tauto.
Qed.

(** The round's phase after its row is updated in an invariant state. *)
Lemma Inv_update_round db (p : ProfitSharingRound → bool) f db' row rid ph :
  Inv db → (∀ x, r_id (f x) = r_id x) →
  (∀ x, p x = true → r_id x = rid ∧ r_phase x = ph) →
  (∀ r, r ∈ rounds db → r_id r = rid → r_phase r = ph → phase_ok db (f r)) →
  update_round p f db = Ok (db', row) → Inv db'.
Proof.
  intros I Hf Hp Hph Hok.
  apply update_round_by_id in Hok as (r & Hr & Hpr & -> & -> & Hnd & Hrs);
    [|apply I|done|exists rid; intros x ?; by apply Hp].
  destruct (Hp r Hpr). eapply Inv_set_rounds; eauto.
Qed.

Lemma Inv_PublishRound now slug e db db' res :
  Inv db → PublishRound now slug e db = Ok (db', res) → Inv db'.
Proof.
  intros I Hok. unfold PublishRound in Hok. tx_inv.
  match goal with H : lockRoundBySlug _ _ = Ok (_, ?r) |- _ =>
    apply lockRoundBySlug_ok in H as (-> & Hr0 & _); rename r into rnd end.
  tx_inv. bool_prop.
  match goal with H : forallb _ _ = true |- _ => rename H into Hall end.
  match goal with H : assign_labels _ _ _ _ _ = Ok _ |- _ => apply assign_labels_ok in H as (-> & ps & -> & Hc) end.
  pose proof (Inv_set_proposals_core _ _ I Hc) as I1.
  match goal with H1 : CreateProfitSharingBallot _ _ _ _ = Ok _,
                  H2 : BatchCreateProfitSharingBallotCandidates _ _ _ _ = Ok _ |- _ =>
    destruct (Inv_open_ballot _ _ _ _ _ _ _ _ _ I1 H1 H2) as (I2 & Hrs & Hps & Hpt) end.
  match goal with H : on_no_rows _ _ _ = Ok _ |- _ => apply on_no_rows_ok in H as Hup end.
  eapply (Inv_update_round _ _ _ _ _ (r_id rnd) RoundPhaseCollecting I2); [| | |exact Hup]; [done| |].
  { intros ? ?%round_key_id. tauto. }
  intros r Hr Hid Hph. pose proof (ph_round _ I2 r Hr) as Hok. unfold phase_ok in *. cbn. rewrite Hph in Hok.
  destruct Hok as (Hfive & _ & Hfin). split_and!; [done| |done|done].
  intros q Hq Hqr. rewrite Hps in Hq. cbn in Hq.
  destruct (column_elem pp_core _ _ _ Hc Hq) as (q' & Hq' & [= _ Hb _ Hst]). rewrite <- Hst.
  apply Is_true_true, forallb_True in Hall. rewrite Forall_forall in Hall.
  specialize (Hall q'). eapply bool_decide_unpack, Hall, sorted_proposals_elem. split; [done|].
  cbn in Hqr. congruence.
Qed.

(** The row a vote query writes keeps every reference. *)
Definition vote_ok (db : DB) (v : ProfitSharingVote) : Prop :=
  (∃ c, c ∈ candidates db ∧ cand_key c = (v_round_id v, v_ballot_number v, v_proposal_id v))
  ∧ (∃ q, q ∈ proposals db ∧ pp_id q = v_proposal_id v
          ∧ author_key q = (v_round_id v, v_proposal_author_account_id v))
  ∧ v_voter_account_id v ≠ v_proposal_author_account_id v
  ∧ (∃ p, p ∈ participants db ∧ part_key p = (v_round_id v, v_voter_account_id v)).

Lemma Inv_set_votes db vs :
  Inv db → NoDup (vote_key <$> vs) → (∀ v, v ∈ vs → vote_ok db v) → Inv (set_votes vs db).
Proof. intros I Hnd Hvs. split; cbn; try apply I; done. Qed.

(** The upsert: afterwards the voter has exactly one vote in the ballot, the new
    one, and the other votes are untouched. *)
Lemma UpsertVote_ok now rid n voter pid author db db' v :
  Inv db → UpsertProfitSharingVote now rid n voter pid author db = Ok (db', v) →
  vote_ok db v ∧ vote_key v = (rid, n, voter) ∧ v_proposal_id v = pid
  ∧ ∃ vs, db' = set_votes vs db ∧ NoDup (vote_key <$> vs)
    ∧ (∀ x, x ∈ vs ↔ x = v ∨ (x ∈ votes db ∧ vote_key x ≠ vote_key v)).
Proof.
  intros I Hok. unfold UpsertProfitSharingVote in Hok. tx_inv. bool_prop.
  repeat match goal with H : existsb _ _ = true |- _ => apply existsb_elem in H as (?&?&?) end. bool_prop.
  repeat match goal with H : (_ =? _)%N = true |- _ => apply N.eqb_eq in H
                    | H : (_ =? _)%N = false |- _ => apply N.eqb_neq in H end.
  match goal with H : _ ∈ ballot_candidates _ _ _ |- _ => apply elem_of_sql_many in H as [? ?] end. bool_prop.
  assert (∀ v, vote_key v = (rid, n, voter) → v_proposal_id v = pid → v_proposal_author_account_id v = author →
            vote_ok db v) as Hvok.
  { intros w [= Ha Hb Hc] Hd He. unfold vote_ok. rewrite Ha, Hb, Hc, Hd, He. split_and!; [eexists; split; [done|]; unfold cand_key; congruence
      |eexists; split_and!; [done|done|unfold author_key; congruence]|done
      |eexists; split; [done|]; unfold part_key; congruence]. }
  assert (∀ y, (v_round_id y =? rid) && (v_ballot_number y =? n) && (v_voter_account_id y =? voter)%N = true
            ↔ vote_key y = (rid, n, voter)) as Hkey.
  { intros y. rewrite !andb_true_iff, !Z.eqb_eq, N.eqb_eq. unfold vote_key. split; [intros [[-> ->] ->]|]; naive_solver. }
  destruct (sql_one _ _) as [old|] eqn:E.
  - apply sql_one_Some in E as [Hold Hp]. pose proof (proj1 (Hkey _) Hp) as Hk. repeat tx_step.
    split; [by apply Hvok|]. split; [by rewrite <- Hk|]. split; [done|]. eexists; split; [done|]. split.
    + rewrite sql_update_key by done. apply I.
    + intros y. refine (sql_update_one vote_key _ _ _ old _ _ _ _ _); [apply I|done|done|].
      intros r' ?%Hkey. congruence.
  - assert (∀ y, y ∈ votes db → vote_key y ≠ (rid, n, voter)) as Hnone.
    { intros y Hy Hk%Hkey. pose proof (sql_one_None _ _ E y Hy) as Hf. cbn in Hf. congruence. }
    repeat tx_step. split; [by apply Hvok|]. split; [done|]. split; [done|]. eexists; split; [done|]. split.
    + rewrite fmap_app, NoDup_app. split_and!; [apply I| |apply NoDup_singleton].
      cbn. intros ? (y & -> & Hy)%list_elem_of_fmap Heq%list_elem_of_singleton. by apply (Hnone y).
    + intros y. rewrite elem_of_app, list_elem_of_singleton. split; [|tauto].
      intros [Hy|]; [right; split; [done|]|by left]. by apply Hnone.
Qed.

Lemma Inv_SubmitVote now slug n voter pid db db' res :
  Inv db → SubmitVote now slug n voter pid db = Ok (db', res) → Inv db'.
Proof.
  intros I Hok. unfold SubmitVote in Hok. tx_inv.
  match goal with H : lockRoundBySlug _ _ = Ok _ |- _ => apply lockRoundBySlug_ok in H as (-> & Hr0 & _) end.
  tx_inv.
  match goal with H : on_constraint _ _ _ _ = Ok _ |- _ =>
    apply on_constraint_ok in H; destruct (UpsertVote_ok _ _ _ _ _ _ _ _ _ I H) as (Hv & _ & _ & vs & -> & Hnd & Hvs) end.
  apply Inv_set_votes; [done|done|]. intros v [->|[Hin _]]%Hvs; [done|]. by apply (ref_vote _ I).
Qed.

Lemma CloseBallotRow_ok now rid n db db' u :
  CloseProfitSharingBallot now rid n db = Ok (db', u) →
  ∃ bs, db' = set_ballots bs db ∧ ballot_key <$> bs = ballot_key <$> ballots db.
Proof.
  unfold CloseProfitSharingBallot. intros Hok. tx_inv. eexists; split; [done|]. by apply sql_update_key.
Qed.

Lemma Inv_CloseBallot now slug e db db' res :
  Inv db → CloseBallot now slug e db = Ok (db', res) → Inv db'.
Proof.
  intros I Hok. unfold CloseBallot in Hok. tx_inv.
  match goal with H : lockRoundBySlug _ _ = Ok (_, ?r) |- _ =>
    apply lockRoundBySlug_ok in H as (-> & Hr0 & _); rename r into rnd end.
  tx_inv. destruct (ListProfitSharingBallotTallies _ _ _) as [|t0 ts] eqn:E; tx_inv.
  match goal with H : CloseProfitSharingBallot _ _ _ _ = Ok _ |- _ =>
    apply CloseBallotRow_ok in H as (bs & -> & Hbs) end.
  assert (Inv (set_ballots bs db)) as I1.
  { apply Inv_set_ballots; [done|..]; rewrite Hbs; [apply I|done]. }
  destruct (tied_prefix _ _) as [|w [|w2 tied]] eqn:Et; tx_inv.
  2: { match goal with H : on_no_rows _ _ _ = Ok _ |- _ => apply on_no_rows_ok in H as Hup end.
    unfold CloseProfitSharingRound in Hup. tx_inv.
    eapply (Inv_update_round _ _ _ _ _ (r_id rnd) RoundPhaseVoting I1); [| | |eassumption]; [done| |].
    { intros ? ?%round_key_id. tauto. }
    intros r Hr Hid Hph. pose proof (ph_round _ I1 r Hr) as Hok. unfold phase_ok in *. cbn. rewrite Hph in Hok.
    destruct Hok as (? & ? & _ & _). split_and!; [done|done|].
    match goal with H : _ || _ = true |- _ => apply orb_true_iff in H as [Hno|(q & Hq & Hk)%existsb_elem] end.
    - apply negb_true_iff in Hno. rewrite existsb_elem_false in Hno.
      bool_prop. exfalso. match goal with H : update_round _ _ _ = Ok _ |- _ => apply update_round_ok in H as (r' & Hr' & Hp' & _) end.
      rewrite Hno in Hp'; done.
    - bool_prop. exists w, q. by rewrite Hid. }
  all: match goal with H1 : CreateProfitSharingBallot _ _ _ _ = Ok _,
                       H2 : BatchCreateProfitSharingBallotCandidates _ _ _ _ = Ok _ |- _ =>
         destruct (Inv_open_ballot _ _ _ _ _ _ _ _ _ I1 H1 H2) as (I2 & Hrs & Hps & Hpt) end.
  all: match goal with H : on_no_rows _ _ _ = Ok _ |- _ => apply on_no_rows_ok in H as Hup end.
  all: eapply (Inv_update_round _ _ _ _ _ (r_id rnd) RoundPhaseVoting I2); [| | |exact Hup]; [done| |];
    [intros ? ?%round_key_id; tauto|].
  all: intros r Hr Hid Hph; pose proof (ph_round _ I2 r Hr) as Hok; unfold phase_ok in *; cbn; rewrite Hph in Hok |- *;
    destruct Hok as (? & ? & _ & ?); split_and!; done.
Qed.

(** ** Every committed call preserves the invariant *)
Lemma Inv_step c db db' : Inv db → ps_step c db db' → Inv db'.
Proof.
  intros I [Hok]. destruct c; cbn in Hok; unfold discard, SubmitProposal, ReopenProposal in Hok; tx_inv;
    eauto using Inv_CreateRound, Inv_UpdateRound, Inv_OpenRound, Inv_UpdateProposal,
      Inv_changeProposalStatus, Inv_PublishRound, Inv_SubmitVote, Inv_CloseBallot.
Qed.

Lemma Inv_rtc db db' : Inv db → rtc (λ a b, ∃ c, ps_step c a b) db db' → Inv db'.
Proof. intros I H. induction H as [|a b d (c & Hs) _ IH]; eauto using Inv_step. Qed.

Lemma Inv_reachable db : reachable db → Inv db.
Proof. intros H. eapply Inv_rtc; [apply Inv_empty|exact H]. Qed.
End Inv.
