(* ===== verification/ProfitSharingVoting.v ===== *)
(** * Profit sharing: the outcome of a ballot

    Counting votes, the tie that a sorted tally shows, and what [CloseBallot]
    does with it: a round of five closes on a strict plurality, and a runoff
    always has two candidates or all five. *)

From S2P Require Import Prelude Sql ProfitSharingTypes ProfitSharing ProfitSharingScenario ProfitSharingInv.
From stdpp Require Import base tactics option list list_numbers sorting strings gmap.
From Stdlib Require Import ZArith Lia Ascii.
#[local] Open Scope Z_scope.

(** ** Counting *)
(** Votes grouped by a key that ranges over distinct values. *)
Lemma zsum_cons_key {K} `{EqDecision K} (ids : list K) (k : K) (g : K → Z) :
  NoDup ids → k ∈ ids →
  zsum ((λ i, g i + if bool_decide (k = i) then 1 else 0) <$> ids) = zsum (g <$> ids) + 1.
Proof.
  induction ids as [|i ids IH]; [by intros ? ?%not_elem_of_nil|].
  rewrite NoDup_cons, elem_of_cons, !fmap_cons. intros [Hi Hnd] Hk. cbn [zsum foldr].
  destruct (decide (k = i)) as [->|Hne].
  - rewrite (bool_decide_eq_true_2 (i = i)) by done.
    assert ((λ j, g j + if bool_decide (i = j) then 1 else 0) <$> ids = g <$> ids) as ->.
    { apply list_fmap_ext. intros n x Hx. rewrite bool_decide_eq_false_2; [lia|].
      intros ->. apply Hi. by eapply list_elem_of_lookup_2. }
    unfold zsum. lia.
  - rewrite (bool_decide_eq_false_2 (k = i)) by done.
    destruct Hk as [|Hk]; [done|]. specialize (IH Hnd Hk). unfold zsum in *. lia.
Qed.

Lemma zsum_count {A} (f : A → string) (ids : list string) (vs : list A) :
  NoDup ids → (∀ v, v ∈ vs → f v ∈ ids) →
  zsum ((λ i, Z.of_nat (length (sql_many (λ v, bool_decide (f v = i)) vs))) <$> ids) = Z.of_nat (length vs).
Proof.
  intros Hnd. induction vs as [|v vs IH]; intros Hvs.
  { clear. unfold zsum. induction ids as [|i ids IH]; [done|]. rewrite fmap_cons. cbn [foldr]. rewrite IH. done. }
  rewrite length_cons, Nat2Z.inj_succ. ospecialize (IH _); [intros; apply Hvs; by constructor|].
  unfold Z.succ. rewrite <- IH, <- (zsum_cons_key ids (f v)); [|done|apply Hvs; constructor].
  f_equal. apply list_fmap_ext. intros n i _. unfold sql_many. rewrite filter_cons.
  destruct (decide (f v = i)).
  - rewrite !bool_decide_eq_true_2 by done. cbn [Is_true]. rewrite decide_True by done. cbn [length]. lia.
  - rewrite !bool_decide_eq_false_2 by done. cbn [Is_true]. rewrite decide_False by tauto. lia.
Qed.

(** ** The tied prefix of a tally sorted by decreasing count *)
Lemma tied_prefix_split m ts :
  StronglySorted (λ a b : string * Z, b.2 ≤ a.2) ts → (∀ t, t ∈ ts → t.2 ≤ m) →
  ∃ pre post, ts = pre ++ post ∧ tied_prefix m ts = pre.*1
    ∧ (∀ t, t ∈ pre → t.2 = m) ∧ (∀ t, t ∈ post → t.2 < m).
Proof.
  induction 1 as [|t ts HS IH HF]; intros Hm; cbn [tied_prefix].
  { exists [], []. split_and!; try done; by intros ? ?%not_elem_of_nil. }
  destruct (Z.eqb_spec t.2 m) as [He|Hne].
  - destruct IH as (pre & post & -> & Ht & Hpre & Hpost); [intros; apply Hm; by constructor|].
    exists (t :: pre), post. rewrite Ht. split_and!; try done.
    by intros x [->|?]%elem_of_cons; auto.
  - exists [], (t :: ts). split_and!; try done; [by intros ? ?%not_elem_of_nil|].
    rewrite Forall_forall in HF.
    assert (t.2 ≤ m) by (apply Hm; constructor).
    intros x [->|Hx]%elem_of_cons; [lia|]. specialize (HF x Hx). cbn in HF. lia.
Qed.

(** Five votes: the tie has one, two or five members. *)
Lemma five_votes_tie (pre post : list Z) m :
  pre ≠ [] → (∀ z, z ∈ pre → z = m) → (∀ z, z ∈ post → 0 ≤ z < m) → 0 ≤ m →
  zsum (pre ++ post) = 5 →
  length pre = 1%nat ∨ (length pre = 2%nat ∧ post ≠ []) ∨ length pre = 5%nat.
Proof.
  intros Hne0 Hpre Hpost Hm Hs. rewrite zsum_app in Hs.
  assert (zsum pre = m * Z.of_nat (length pre)) as Hp.
  { pose proof (zsum_bounds pre m m). ospecialize (H _); [intros z Hz; rewrite (Hpre z Hz); lia|]. lia. }
  pose proof (zsum_bounds post 0 (m - 1)) as Hq.
  ospecialize (Hq _); [intros z Hz; specialize (Hpost z Hz); lia|].
  assert (1 ≤ Z.of_nat (length pre)) as Hlen by (destruct pre; cbn [length]; [done|lia]).
  rewrite Hp in Hs. destruct (decide (post = [])) as [->|Hne].
  { cbn in Hs. assert (m * Z.of_nat (length pre) = 5) as Hmul by lia.
    assert (m ≤ 5) by nia. assert (m = 0 ∨ m = 1 ∨ m = 2 ∨ m = 3 ∨ m = 4 ∨ m = 5) as Hc by lia.
    destruct Hc as [->|[->|[->|[->|[->| ->]]]]]; lia. }
  destruct (decide (m = 0)) as [->|]; [nia|]. destruct (decide (m = 1)) as [->|]; [right; right; nia|].
  assert (Z.of_nat (length pre) * 2 ≤ 5) by nia.
  assert (length pre = 0 ∨ length pre = 1 ∨ length pre = 2)%nat as [H0|[|]] by lia; auto.
  lia.
Qed.

Section Ballots.
Context {UL : UuidLib} {PT : PgText}.

Definition ballot_ids (rid n : Z) (db : DB) : list string := c_proposal_id <$> ballot_candidates rid n db.

Lemma ballot_ids_NoDup rid n db : Inv db → NoDup (ballot_ids rid n db).
Proof.
  intros I. pose proof (NoDup_sql_many cand_key (λ c, (c_round_id c =? rid) && (c_ballot_number c =? n)) _
    (k_cand _ I)) as Hnd.
  unfold ballot_ids, ballot_candidates.
  assert (cand_key <$> sql_many (λ c, (c_round_id c =? rid) && (c_ballot_number c =? n)) (candidates db)
    = (λ i, (rid, n, i)) <$> (c_proposal_id <$> sql_many (λ c, (c_round_id c =? rid) && (c_ballot_number c =? n))
        (candidates db))) as Heq.
  { rewrite <- list_fmap_compose. apply list_fmap_ext. intros i c Hc%list_elem_of_lookup_2.
    apply elem_of_sql_many in Hc as [Hc _]. bool_prop. unfold cand_key. cbn. congruence. }
  rewrite Heq in Hnd. by apply NoDup_fmap_1 in Hnd.
Qed.

Lemma ballot_vote_ref rid n db v :
  Inv db → v ∈ ballot_votes rid n db → v_proposal_id v ∈ ballot_ids rid n db.
Proof.
  intros I [Hk Hv]%elem_of_sql_many. bool_prop.
  destruct (ref_vote _ I v Hv) as ((c & Hc & [= H1 H2 H3]) & _).
  apply list_elem_of_fmap. exists c. split; [done|]. apply elem_of_sql_many. split; [|done].
  apply andb_true_iff. rewrite !Z.eqb_eq. split; congruence.
Qed.

Lemma tally_total rid n db :
  Inv db → zsum (tally_of rid n db <$> ballot_ids rid n db) = Z.of_nat (length (ballot_votes rid n db)).
Proof.
  intros I. unfold tally_of. rewrite (zsum_count v_proposal_id); [done|by apply ballot_ids_NoDup|].
  intros v Hv. by apply ballot_vote_ref.
Qed.

Context {PTL : PgTextLaws}.

Lemma tally_le_total a b : tally_le a b = true ∨ tally_le b a = true.
Proof using PTL.
  unfold tally_le. destruct (Z.ltb_spec b.2 a.2), (Z.ltb_spec a.2 b.2); cbn; auto.
  assert (b.2 = a.2) as -> by lia. rewrite Z.eqb_refl. cbn. apply text_le_total.
Qed.
Lemma tally_le_trans a b c : tally_le a b = true → tally_le b c = true → tally_le a c = true.
Proof using PTL.
  unfold tally_le. rewrite !orb_true_iff, !andb_true_iff, !Z.ltb_lt, !Z.eqb_eq.
  intros [?|[? H1]] [?|[? H2]]; [left; lia..|right]. split; [lia|]. eapply text_le_trans; eauto.
Qed.
Lemma tally_le_count a b : tally_le a b = true → b.2 ≤ a.2.
Proof. unfold tally_le. rewrite orb_true_iff, andb_true_iff, Z.ltb_lt, Z.eqb_eq. lia. Qed.

Lemma tallies_sorted rid n db :
  StronglySorted (λ a b : string * Z, b.2 ≤ a.2) (ListProfitSharingBallotTallies rid n db).
Proof using PTL.
  pose proof (sort_by_sorted tally_le tally_le_total tally_le_trans
    ((λ c, (c_proposal_id c, tally_of rid n db (c_proposal_id c))) <$> ballot_candidates rid n db)) as HS.
  unfold ListProfitSharingBallotTallies. induction HS as [|a l HS IH HF]; constructor; [done|].
  eapply Forall_impl; [exact HF|]. intros b. apply tally_le_count.
Qed.

Lemma tallies_Permutation rid n db :
  ListProfitSharingBallotTallies rid n db ≡ₚ (λ i, (i, tally_of rid n db i)) <$> ballot_ids rid n db.
Proof.
  unfold ListProfitSharingBallotTallies, ballot_ids. rewrite sort_by_Permutation, <- list_fmap_compose. done.
Qed.

(** What the tied prefix of a five-vote ballot is: the candidates with the
    largest count, of which there are one, two or five. *)
Lemma tied_candidates rid n db t0 ts :
  Inv db → length (ballot_votes rid n db) = requiredParticipantCount →
  ListProfitSharingBallotTallies rid n db = t0 :: ts →
  let tied := tied_prefix t0.2 (t0 :: ts) in
  let ids := ballot_ids rid n db in
  (∀ i, i ∈ ids → tally_of rid n db i ≤ t0.2)
  ∧ (∀ i, i ∈ tied ↔ i ∈ ids ∧ tally_of rid n db i = t0.2)
  ∧ NoDup tied
  ∧ (length tied = 1 ∨ (length tied = 2 ∧ 2 < length ids) ∨ length tied = 5)%nat.
Proof using PTL.
  intros I Hv Ht tied ids. pose proof (tallies_sorted rid n db) as HS.
  pose proof (tallies_Permutation rid n db) as HP. rewrite Ht in HS, HP. fold ids in HP.
  assert (∀ t, t ∈ t0 :: ts → t.2 ≤ t0.2) as Hmax.
  { inversion HS as [|? ? ? HF]; subst. rewrite Forall_forall in HF.
    intros t [->|Hin]%elem_of_cons; [lia|]. by apply HF. }
  assert (∀ t, t ∈ t0 :: ts ↔ ∃ i, i ∈ ids ∧ t = (i, tally_of rid n db i)) as Hin.
  { intros t. rewrite HP, list_elem_of_fmap. naive_solver. }
  destruct (tied_prefix_split t0.2 (t0 :: ts) HS Hmax) as (pre & post & Hts & Hpre & Hp1 & Hp2).
  fold tied in Hpre.
  assert (NoDup ((t0 :: ts).*1)) as Hnd.
  { rewrite HP, <- list_fmap_compose. rewrite (list_fmap_ext _ id), list_fmap_id; [|done].
    by apply ballot_ids_NoDup. }
  assert (∀ i, i ∈ ids → tally_of rid n db i ≤ t0.2) as Hle.
  { intros i Hi. apply (Hmax (i, tally_of rid n db i)), Hin. eauto. }
  split_and!; [done|..].
  - intros i. rewrite Hpre, list_elem_of_fmap. split.
    + intros (t & -> & Htp). assert (t ∈ t0 :: ts) as (j & Hj & ->)%Hin by (rewrite Hts, elem_of_app; auto).
      cbn. split; [done|]. by apply (Hp1 (j, _)).
    + intros [Hi Hc]. exists (i, tally_of rid n db i). split; [done|].
      assert ((i, tally_of rid n db i) ∈ t0 :: ts) as Hel by (apply Hin; eauto).
      rewrite Hts in Hel. apply elem_of_app in Hel as [|Hel]; [done|]. specialize (Hp2 _ Hel). cbn in Hp2. lia.
  - rewrite Hpre. rewrite Hts, fmap_app in Hnd. by apply NoDup_app in Hnd as [? _].
  - assert (length ids = length pre + length post)%nat as Hlen.
    { rewrite <- (length_fmap (λ i, (i, tally_of rid n db i)) ids), <- HP, Hts, length_app. done. }
    assert (length tied = length pre) as -> by (rewrite Hpre; apply length_fmap).
    pose proof (five_votes_tie (pre.*2) (post.*2) t0.2) as Hfive. rewrite !length_fmap in Hfive.
    destruct Hfive as [|[[? Hne]|]]; auto.
    + intros He%fmap_nil_inv. subst pre. cbn in Hts.
      assert (t0 ∈ post) as Hp0 by (rewrite <- Hts; constructor). specialize (Hp2 _ Hp0). lia.
    + intros z (t & -> & Hz)%list_elem_of_fmap. auto.
    + intros z (t & -> & Hz)%list_elem_of_fmap. split; [|auto].
      assert (t ∈ t0 :: ts) as (j & _ & ->)%Hin by (rewrite Hts, elem_of_app; auto). cbn. unfold tally_of. lia.
    + assert (t0 ∈ t0 :: ts) as (j & _ & ->)%Hin by constructor. cbn. unfold tally_of. lia.
    + rewrite <- fmap_app, <- Hts. rewrite (zsum_Permutation _ (tally_of rid n db <$> ids)).
      { unfold ids. rewrite tally_total, Hv by done. done. }
      rewrite HP, <- list_fmap_compose. done.
    + right; left. split; [done|]. destruct post; [done|]. cbn in Hlen. lia.
Qed.

(** The active ballot a locked round names. *)
Lemma active_ballot_number r db b :
  Inv db → r ∈ rounds db → GetActiveProfitSharingBallotForUpdate (r_id r) db = Some b →
  b ∈ ballots db ∧ b_round_id b = r_id r ∧ r_active_ballot_number r = Some (b_ballot_number b).
Proof.
  intros I Hr [Hb Hk]%sql_one_Some. bool_prop.
  match goal with H : existsb _ _ = true |- _ => apply existsb_elem in H as (r' & Hr' & Hk') end. bool_prop.
  assert (r' = r) as -> by (eapply (NoDup_key_inj r_id); [apply I|done..]). done.
Qed.

Lemma new_ballot_ids rid n rows (db : DB) bs :
  Inv db → (∀ b, b ∈ ballots db → ballot_key b ≠ (rid, n)) →
  ballot_ids rid n (set_candidates (candidates db ++
     ((λ i, {| c_round_id := rid; c_ballot_number := n; c_proposal_id := i |}) <$> rows)) (set_ballots bs db)) = rows.
Proof.
  intros I Hfresh. unfold ballot_ids, ballot_candidates. cbn. rewrite sql_many_app, sql_many_none, sql_many_all.
  - rewrite app_nil_l, <- list_fmap_compose. apply list_fmap_id.
  - intros c (i & -> & _)%list_elem_of_fmap. cbn. by rewrite !Z.eqb_refl.
  - intros c Hc. destruct (ref_cand_ballot _ I c Hc) as (b & Hb & Hk). specialize (Hfresh b Hb).
    apply andb_false_iff. rewrite !Z.eqb_neq. rewrite Hk in Hfresh.
    destruct (decide (c_round_id c = rid)); [|auto]. right. congruence.
Qed.

(** The new ballot's number is not one of the round's ballots. *)
Lemma CreateBallot_fresh now rid n db db' u :
  CreateProfitSharingBallot now rid n db = Ok (db', u) → ∀ b, b ∈ ballots db → ballot_key b ≠ (rid, n).
Proof.
  unfold CreateProfitSharingBallot. intros Hok b Hb Hk. tx_inv.
  match goal with H : sql_insert _ _ _ _ _ = Ok _ |- _ => cbn in H; destruct (_ && _) eqn:E in H; [|done] end.
  bool_prop. match goal with H : existsb _ _ = false |- _ => rewrite existsb_elem_false in H; specialize (H b Hb) end.
  injection Hk as Hk1 Hk2. cbn in *. bool_prop. lia.
Qed.

(** The runoff branch of a closing transaction. *)
Lemma runoff_ok now rid n e tied db db' (res : CloseBallotResult) :
  Inv db →
  (_ ← CreateProfitSharingBallot now rid n;
   _ ← BatchCreateProfitSharingBallotCandidates rid n tied;
   advanced ← on_no_rows (AdvanceProfitSharingRunoffBallot now n rid e) ErrRevisionConflict;
   mret {| cbr_round := roundFromSQLC advanced; cbr_runoff_created := true |}) db = Ok (db', res) →
  cbr_runoff_created res = true ∧ r_phase (cbr_round res) = RoundPhaseVoting
  ∧ r_active_ballot_number (cbr_round res) = Some n ∧ r_revision (cbr_round res) = e + 1
  ∧ ballot_ids rid n db' = tied ∧ cbr_round res ∈ rounds db' ∧ r_id (cbr_round res) = rid.
Proof.
  intros I Hok. tx_inv.
  match goal with H : CreateProfitSharingBallot _ _ _ _ = Ok _ |- _ =>
    pose proof (CreateBallot_fresh _ _ _ _ _ _ H) as Hfresh; apply CreateBallot_ok in H as (b & -> & _) end.
  match goal with H : BatchCreateProfitSharingBallotCandidates _ _ _ _ = Ok _ |- _ =>
    apply BatchCandidates_ok in H as (-> & _) end.
  match goal with H : on_no_rows _ _ _ = Ok _ |- _ =>
    apply on_no_rows_ok, update_round_by_id in H as (r & Hr & Hp & -> & -> & Hnd & Hrs);
    [|apply I|done|eexists; intros ? (?&_)%round_key_id; eassumption] end.
  apply round_key_id in Hp as (? & ? & ?). cbn [cbr_round cbr_runoff_created]. split_and!; try done.
  - cbn. lia.
  - exact (new_ballot_ids _ _ tied db _ I Hfresh).
  - apply Hrs. by left.
Qed.

(** The three facts a closing transaction establishes before it branches. *)
Lemma CloseBallot_pre now slug e db db' res :
  Inv db → CloseBallot now slug e db = Ok (db', res) →
  ∃ r n t0 ts, r ∈ rounds db ∧ r_slug r = trim_space slug ∧ r_phase r = RoundPhaseVoting ∧ r_revision r = e
    ∧ r_active_ballot_number r = Some n
    ∧ length (ballot_votes (r_id r) n db) = requiredParticipantCount
    ∧ ListProfitSharingBallotTallies (r_id r) n db = t0 :: ts
    ∧ (let tied := tied_prefix t0.2 (t0 :: ts) in
       (∃ w, tied = [w] ∧ cbr_runoff_created res = false ∧ r_phase (cbr_round res) = RoundPhaseClosed
          ∧ r_final_proposal_id (cbr_round res) = Some w ∧ r_revision (cbr_round res) = e + 1
          ∧ cbr_round res ∈ rounds db' ∧ r_id (cbr_round res) = r_id r)
       ∨ (length tied ≠ 1%nat ∧ cbr_runoff_created res = true ∧ r_phase (cbr_round res) = RoundPhaseVoting
          ∧ r_active_ballot_number (cbr_round res) = Some (wrap32 (n + 1)) ∧ r_revision (cbr_round res) = e + 1
          ∧ ballot_ids (r_id r) (wrap32 (n + 1)) db' = tied
          ∧ cbr_round res ∈ rounds db' ∧ r_id (cbr_round res) = r_id r)).
Proof.
  intros I Hok. unfold CloseBallot in Hok. tx_inv.
  match goal with H : lockRoundBySlug _ _ = Ok (_, ?r) |- _ =>
    apply lockRoundBySlug_ok in H as (-> & Hr & Hslug); rename r into rnd end.
  tx_inv. destruct (ListProfitSharingBallotTallies _ _ _) as [|t0 ts] eqn:Et; tx_inv.
  match goal with H : GetActiveProfitSharingBallotForUpdate _ _ = Some ?b |- _ =>
    apply (active_ballot_number _ _ _ I Hr) in H as (Hb & Hbr & Hact); rename b into bal end.
  bool_prop. exists rnd, (b_ballot_number bal), t0, ts.
  assert (length (ballot_votes (r_id rnd) (b_ballot_number bal) db) = requiredParticipantCount) as Hvotes.
  { pose proof (ph_round _ I rnd Hr) as Hok. unfold phase_ok in Hok.
    match goal with H : r_phase rnd = _ |- _ => rewrite H in Hok end. destruct Hok as ((Hp & _) & _).
    match goal with H : CountProfitSharingBallotVotes _ _ _ = _ |- _ => unfold CountProfitSharingBallotVotes in H;
      rewrite list_participants_length, Hp in H end. lia. }
  split_and!; try done.
  match goal with H : CloseProfitSharingBallot _ _ _ _ = Ok _ |- _ =>
    apply CloseBallotRow_ok in H as (bs & -> & Hbs) end.
  assert (Inv (set_ballots bs db)) as I1.
  { apply Inv_set_ballots; [done|..]; rewrite Hbs; [apply I|done]. }
  remember (tied_prefix t0.2 (t0 :: ts)) as tied eqn:Etied. clear Etied.
  assert (length tied = 1%nat ∨ length tied ≠ 1%nat) as [Hl|Hl] by lia.
  - destruct tied as [|w [|]]; [done| |done]. left. exists w. tx_inv.
    match goal with H : on_no_rows _ _ _ = Ok _ |- _ => apply on_no_rows_ok in H as Hup end.
    unfold CloseProfitSharingRound in Hup. tx_inv.
    match goal with H : update_round _ _ _ = Ok _ |- _ =>
      apply update_round_by_id in H as (r & Hr' & Hp & -> & -> & Hnd & Hrs);
      [|apply I|done|eexists; intros ? (?&_)%round_key_id; eassumption] end.
    apply round_key_id in Hp as (? & ? & ?). cbn. split_and!; try done; [congruence|].
    apply Hrs. by left.
  - right. split; [done|]. destruct tied as [|w [|w2 tied]]; [|done|];
      match goal with H : _ = Ok _ |- _ => by apply (runoff_ok _ _ _ _ _ _ _ _ I1) in H end.
Qed.

(** C8: closing the active ballot of a round in any reachable database either
    closes the round on the one candidate with strictly more votes than every
    other, or opens a runoff between exactly the candidates with the most votes,
    of which there are two (fewer than before) or five. *)
Theorem close_ballot_outcome now slug e db db' res :
  reachable db → CloseBallot now slug e db = Ok (db', res) →
  ∃ r n, r ∈ rounds db ∧ r_slug r = trim_space slug ∧ r_active_ballot_number r = Some n
    ∧ r_revision r = e ∧ r_revision (cbr_round res) = e + 1
    ∧ cbr_round res ∈ rounds db' ∧ r_id (cbr_round res) = r_id r
    ∧ let ids := ballot_ids (r_id r) n db in
      let tally := tally_of (r_id r) n db in
      (cbr_runoff_created res = false ∧ r_phase (cbr_round res) = RoundPhaseClosed
       ∧ ∃ w, w ∈ ids ∧ r_final_proposal_id (cbr_round res) = Some w ∧ ∀ i, i ∈ ids → i ≠ w → tally i < tally w)
      ∨ (cbr_runoff_created res = true ∧ r_phase (cbr_round res) = RoundPhaseVoting
         ∧ r_active_ballot_number (cbr_round res) = Some (wrap32 (n + 1))
         ∧ let ids' := ballot_ids (r_id r) (wrap32 (n + 1)) db' in
           (∀ i, i ∈ ids' ↔ i ∈ ids ∧ ∀ j, j ∈ ids → tally j ≤ tally i)
           ∧ NoDup ids' ∧ (length ids' = 2 ∧ length ids' < length ids ∨ length ids' = 5)%nat).
Proof using PTL.
  intros I%Inv_reachable Hok.
  destruct (CloseBallot_pre _ _ _ _ _ _ I Hok)
    as (r & n & t0 & ts & Hr & Hs & _ & Hrev & Hact & Hv & Ht & Hcase).
  destruct (tied_candidates _ _ _ _ _ I Hv Ht) as (Hle & Htied & Hnd & Hlen).
  exists r, n. cbv zeta in *. destruct Hcase as [(w & Hw & ? & ? & ? & ? & ? & ?)|(Hl & ? & ? & ? & ? & Hids & ? & ?)].
  - split_and!; try done. left. split_and!; [done|done|]. exists w.
    rewrite Hw in Htied. destruct (proj1 (Htied w)) as [Hwi Hwt]; [by apply list_elem_of_singleton|].
    split_and!; [done|done|]. intros i Hi Hne. specialize (Hle i Hi).
    assert (tally_of (r_id r) n db i ≠ t0.2); [|lia]. intros Heq.
    apply Hne. apply list_elem_of_singleton, Htied. done.
  - split_and!; try done. right. do 3 (split; [done|]). rewrite Hids. split_and!; [|done|].
    + intros i. rewrite Htied. split; intros [Hi Hmax]; (split; [done|]).
      * intros j Hj. rewrite Hmax. auto.
      * apply Z.le_antisymm; [auto|].
        assert (t0.1 ∈ tied_prefix t0.2 (t0 :: ts)) as [? <-]%Htied; [|by apply Hmax].
        cbn [tied_prefix]. rewrite Z.eqb_refl. by constructor.
    + destruct Hlen as [|[[Hl2 ?]|]]; [done|left; rewrite Hl2; auto|by right].
Qed.
End Ballots.

Import Concrete.
Lemma close_ballot_outcome_witness :
  ∃ db' res r n, CloseBallot 16 "round-1" 3 (state_of sc_voted) = Ok (db', res)
    ∧ r ∈ rounds (state_of sc_voted) ∧ r_active_ballot_number r = Some n.
Proof.
  destruct (CloseBallot 16 "round-1" 3 (state_of sc_voted)) as [[db' res]|e] eqn:E.
  - assert (reachable (state_of sc_voted)) as HR by sc_reachable.
    destruct (close_ballot_outcome 16 "round-1" 3 _ db' res HR E) as (r & n & ? & ? & ? & _).
    exists db', res, r, n. split; [reflexivity|split; assumption].
  - exfalso. revert E. vm_compute. discriminate.
Defined.
