(* ===== verification/ProfitSharingFrame.v ===== *)
(** * Profit sharing: rounds are independent

    What one round's rows are, and that a call changes the rows of the one round
    it locks; so nothing changes a closed round. *)

From S2P Require Import Prelude Sql ProfitSharingTypes ProfitSharing ProfitSharingScenario ProfitSharingInv.
From stdpp Require Import base tactics option list list_numbers sorting strings gmap.
From Stdlib Require Import ZArith Lia Ascii.
#[local] Open Scope Z_scope.

(** The rows of one round, in every table. *)
Definition round_view (rid : Z) (db : DB) : DB := {|
  rounds := sql_many (λ r, r_id r =? rid) (rounds db);
  participants := sql_many (λ p, pt_round_id p =? rid) (participants db);
  proposals := sql_many (λ p, pp_round_id p =? rid) (proposals db);
  items := sql_many (λ i, it_round_id i =? rid) (items db);
  ballots := sql_many (λ b, b_round_id b =? rid) (ballots db);
  candidates := sql_many (λ c, c_round_id c =? rid) (candidates db);
  votes := sql_many (λ v, v_round_id v =? rid) (votes db) |}.

Section Rows.
Context {R : Type} (k : R → Z) (rid : Z).
Lemma view_update (q : R → bool) f t :
  (∀ x, q x = true → k x ≠ rid) → (∀ x, k (f x) = k x) →
  sql_many (λ x, k x =? rid) (sql_update q f t) = sql_many (λ x, k x =? rid) t.
Proof.
  intros Hq Hf. induction t as [|x t IH]; [done|].
  unfold sql_many, sql_update in *. rewrite fmap_cons, !filter_cons, IH.
  destruct (q x) eqn:E; [|done]. rewrite Hf.
  rewrite !decide_False; [done|..]; rewrite Is_true_true, Z.eqb_eq; by apply Hq.
Qed.
Lemma view_app t new : (∀ x, x ∈ new → k x ≠ rid) →
  sql_many (λ x, k x =? rid) (t ++ new) = sql_many (λ x, k x =? rid) t.
Proof.
  intros Hn. rewrite sql_many_app, (sql_many_none _ new), app_nil_r; [done|].
  intros x Hx. by apply Z.eqb_neq, Hn.
Qed.
Lemma view_delete (q : R → bool) t : (∀ x, q x = true → k x ≠ rid) →
  sql_many (λ x, k x =? rid) (sql_delete q t) = sql_many (λ x, k x =? rid) t.
Proof.
  intros Hq. apply sql_many_delete. intros x Hx. bool_prop.
  destruct (q x) eqn:E; [|done]. by apply Hq in E.
Qed.
End Rows.

Section Frame.
Context {UL : UuidLib} {PT : PgText}.

(** A transaction step that only touches round [k]. *)
Definition touches {A} (k : Z) (m : ps_tx A) : Prop :=
  ∀ db db' a, m db = Ok (db', a) → ∀ rid, rid ≠ k → round_view rid db' = round_view rid db.

Lemma touches_ret {A} k (a : A) : touches k (mret a).
Proof. intros db db' x Hok. by tx_inv. Qed.
Lemma touches_bind {A B} k (m : ps_tx A) (f : A → ps_tx B) :
  touches k m → (∀ a, touches k (f a)) → touches k (m ≫= f).
Proof.
  intros Hm Hf db db' b (s & a & H1 & H2)%tx_bind_ok rid Hne.
  rewrite (Hf _ _ _ _ H2 rid Hne). by apply (Hm _ _ _ H1).
Qed.
Lemma touches_get k : touches k tx_get.
Proof. intros db db' x Hok. by tx_inv. Qed.
Lemma touches_lift {A} k (r : result PSError A) : touches k (tx_lift r).
Proof. intros db db' x Hok. by tx_inv. Qed.
Lemma touches_ensure k b e : touches k (ensure b e).
Proof. intros db db' x Hok. by tx_inv. Qed.
Lemma touches_fail {A} k e : touches k (tx_fail (A:=A) e).
Proof. intros db db' x Hok. by tx_inv. Qed.
Lemma touches_no_rows {A} k (m : ps_tx A) e : touches k m → touches k (on_no_rows m e).
Proof. intros Hm db db' x Hok%on_no_rows_ok. by apply (Hm _ _ x). Qed.
Lemma touches_constraint {A} k (m : ps_tx A) c e : touches k m → touches k (on_constraint m c e).
Proof. intros Hm db db' x Hok%on_constraint_ok. by apply (Hm _ _ x). Qed.
Lemma touches_lock k slug : touches k (lockRoundBySlug slug).
Proof. intros db db' x (-> & _)%lockRoundBySlug_ok. done. Qed.
Lemma touches_lock_proposal k rid a : touches k (lockProposalByAuthor rid a).
Proof. intros db db' x (-> & _)%lockProposalByAuthor_ok. done. Qed.

Lemma touches_update_round k p f :
  (∀ x, p x = true → r_id x = k) → (∀ x, r_id (f x) = r_id x) → touches k (update_round p f).
Proof.
  intros Hp Hf db db' x (r & _ & _ & _ & ->)%update_round_ok rid Hne.
  unfold round_view; cbn. f_equal. apply (view_update r_id); [|done]. intros y Hy. rewrite (Hp y Hy). congruence.
Qed.
Lemma touches_update_proposal k p f :
  (∀ x, p x = true → pp_round_id x = k) → (∀ x, pp_round_id (f x) = pp_round_id x) → touches k (update_proposal p f).
Proof.
  intros Hp Hf db db' x (r & _ & _ & _ & ->)%update_proposal_ok rid Hne.
  unfold round_view; cbn. f_equal. apply (view_update pp_round_id); [|done]. intros y Hy. rewrite (Hp y Hy). congruence.
Qed.

Lemma touches_insert_items k rows : (∀ i, i ∈ rows → it_round_id i = k) → touches k (insert_items rows).
Proof.
  intros Hrows db db' x (-> & _)%insert_items_ok rid Hne. unfold round_view; cbn. f_equal.
  apply (view_app it_round_id). intros i Hi. rewrite (Hrows i Hi). congruence.
Qed.
Lemma touches_CreateBallot now k n : touches k (CreateProfitSharingBallot now k n).
Proof.
  intros db db' x (b & -> & Hb & _)%CreateBallot_ok rid Hne. unfold round_view; cbn. f_equal.
  apply (view_app b_round_id). intros y ->%list_elem_of_singleton. congruence.
Qed.
Lemma touches_Candidates k n ids : touches k (BatchCreateProfitSharingBallotCandidates k n ids).
Proof.
  intros db db' x (-> & _)%BatchCandidates_ok rid Hne. unfold round_view; cbn. f_equal.
  apply (view_app c_round_id). intros y (i & -> & _)%list_elem_of_fmap. cbn. congruence.
Qed.
Lemma touches_CloseBallotRow now k n : touches k (CloseProfitSharingBallot now k n).
Proof.
  intros db db' x Hok rid Hne. unfold CloseProfitSharingBallot in Hok. tx_inv. unfold round_view; cbn. f_equal.
  apply (view_update b_round_id); [|done]. intros y ?. bool_prop. congruence.
Qed.
Lemma touches_Upsert now k n v p a : touches k (UpsertProfitSharingVote now k n v p a).
Proof.
  intros db db' x Hok rid Hne. unfold UpsertProfitSharingVote in Hok. tx_inv.
  destruct (sql_one _ _); tx_inv; unfold round_view; cbn; f_equal.
  - apply (view_update v_round_id); [|done]. intros y ?. bool_prop. congruence.
  - apply (view_app v_round_id). intros y ->%list_elem_of_singleton. cbn. congruence.
Qed.
Lemma touches_BatchProposals now k rows : touches k (BatchCreateProfitSharingProposals now k rows).
Proof.
  intros db db' x Hok rid Hne. unfold BatchCreateProfitSharingProposals in Hok. tx_inv.
  match goal with H : sql_insert _ _ _ _ _ = Ok _ |- _ => apply sql_insert_ok in H as [-> _] end.
  unfold round_view; cbn. f_equal. apply (view_app pp_round_id).
  intros y (i & -> & _)%list_elem_of_fmap. cbn. congruence.
Qed.
Lemma touches_createParticipants k inputs : touches k (createParticipants k inputs).
Proof.
  intros db db' x (rows & -> & Hr & _)%createParticipants_ok rid Hne. unfold round_view; cbn. f_equal.
  apply (view_app pt_round_id). intros y Hy. rewrite (Hr y Hy). congruence.
Qed.
Lemma touches_DeleteParticipants k : touches k (DeleteProfitSharingParticipants k).
Proof.
  intros db db' x Hok rid Hne. unfold DeleteProfitSharingParticipants in Hok. tx_inv. unfold round_view; cbn. f_equal.
  - apply (view_delete pt_round_id). intros ? ?. bool_prop. congruence.
  - apply (view_delete pp_round_id). intros ? ?. bool_prop. congruence.
  - apply (view_delete it_round_id). intros ? [??]%andb_true_iff. bool_prop. congruence.
  - apply (view_delete c_round_id). intros ? ?. bool_prop. congruence.
  - apply (view_delete v_round_id). intros ? [??]%andb_true_iff. bool_prop. congruence.
Qed.
Lemma touches_DeleteItems k p : touches k (DeleteProfitSharingProposalItems k p).
Proof.
  intros db db' x Hok rid Hne. unfold DeleteProfitSharingProposalItems in Hok. tx_inv. unfold round_view; cbn. f_equal.
  apply (view_delete it_round_id). intros ? ?. bool_prop. congruence.
Qed.
Lemma touches_InitialItems k : touches k (CreateInitialProfitSharingProposalItems k).
Proof.
  unfold CreateInitialProfitSharingProposalItems. apply touches_bind; [apply touches_get|]. intros db.
  apply touches_insert_items. intros i (p & Hi & [Hp _]%elem_of_sql_many)%list_elem_of_bind.
  apply list_elem_of_bind in Hi as (y & ->%list_elem_of_singleton & _). cbn. by bool_prop.
Qed.
Lemma touches_createItems k p rows : touches k (createProposalItems k p rows).
Proof.
  unfold createProposalItems. apply touches_bind; [apply touches_lift|]. intros l.
  apply touches_insert_items. by intros i (y & -> & _)%list_elem_of_fmap.
Qed.

Lemma round_key_touch k ph e x :
  (r_id x =? k) && bool_decide (r_phase x = ph) && (r_revision x =? e) = true → r_id x = k.
Proof. intros. by bool_prop. Qed.
Lemma proposal_key_touch id k a st e q : proposal_key id k a st e q = true → pp_round_id q = k.
Proof. intros Hk%proposal_key_ok. tauto. Qed.
Create HintDb touch.
#[local] Hint Resolve touches_ret touches_get touches_lift touches_ensure touches_fail touches_no_rows
  touches_constraint touches_lock_proposal touches_CreateBallot touches_Candidates touches_CloseBallotRow
  touches_Upsert touches_BatchProposals touches_createParticipants touches_DeleteParticipants
  touches_DeleteItems touches_InitialItems touches_createItems : touch.
Ltac touch_row :=
  first [apply touches_update_round; [intros ?; by apply round_key_touch|done]
        |apply touches_update_proposal; [intros ?; by apply proposal_key_touch|done]].
Ltac touch := repeat first [lazymatch goal with |- touches _ (_ ≫= _) => apply touches_bind; [|intros ?] end | solve [eauto with touch] | apply touches_no_rows
  | apply touches_constraint | touch_row | progress case_match].

Lemma touches_assign now k i ps : touches k (assign_labels now k i ps).
Proof.
  revert i. induction ps as [|p ps IH]; intros i; cbn [assign_labels]; touch.
  unfold AssignProfitSharingProposalLabel. touch. apply touches_update_proposal; [|done].
  intros x ?. by bool_prop.
Qed.

(** The committed call changed one round only: a new one, or one that is not
    closed. *)
Definition one_round (db db' : DB) : Prop :=
  ∃ k, (∀ rid, rid ≠ k → round_view rid db' = round_view rid db)
    ∧ ((∀ r, r ∈ rounds db → r_id r ≠ k) ∨ ∃ r, r ∈ rounds db ∧ r_id r = k ∧ r_phase r ≠ RoundPhaseClosed).

(** Peels the validation prefix and the row lock. *)
Ltac to_lock Hok :=
  let H := fresh in
  apply tx_bind_ok in Hok as (?&?&H&Hok);
  lazymatch type of H with
  | lockRoundBySlug _ _ = Ok (_, ?r) => apply lockRoundBySlug_ok in H as (-> & ? & _)
  | _ => first [apply tx_lift_ok in H as [-> _]|apply ensure_ok in H as [-> _]]; to_lock Hok
  end.

(** The rest of a transaction after the lock: its first statement is the phase
    guard, all of it touches the locked round. *)
Lemma locked_one_round {A} (body : ps_tx A) db db' a r :
  r ∈ rounds db → touches (r_id r) body → body db = Ok (db', a) → r_phase r ≠ RoundPhaseClosed → one_round db db'.
Proof. intros Hr Ht Hok Hph. exists (r_id r). split; [by apply (Ht _ _ a)|eauto]. Qed.

Ltac one_round_tac Hok :=
  to_lock Hok; eapply locked_one_round; [eassumption| |exact Hok|];
  [touch | apply tx_bind_ok in Hok as (?&?&Hok&_); tx_inv; bool_prop; congruence].

Lemma one_round_step c db db' : ps_step c db db' → one_round db db'.
Proof.
  intros [Hok]. destruct c; cbn in Hok; unfold discard, SubmitProposal, ReopenProposal in Hok;
    apply tx_bind_ok in Hok as (s & a & Hok & Hret); apply tx_ret_ok in Hret as [-> _].
  - apply CreateRound_ok in Hok as (row & rows & _ & Hid & _ & _ & _ & _ & Hfresh & -> & Hrows & _).
    exists id. split; [|by left]. intros rid Hne. unfold round_view; cbn. f_equal.
    + apply (view_app r_id). intros y ->%list_elem_of_singleton. congruence.
    + apply (view_app pt_round_id). intros y Hy. rewrite (Hrows y Hy). congruence.
  - unfold UpdateRound in Hok. one_round_tac Hok. unfold UpdateProfitSharingRoundConfig. touch.
  - unfold OpenRound in Hok. one_round_tac Hok.
  - unfold UpdateProposal in Hok. one_round_tac Hok.
  - unfold changeProposalStatus in Hok. one_round_tac Hok.
  - unfold changeProposalStatus in Hok. one_round_tac Hok.
  - unfold PublishRound in Hok. one_round_tac Hok. apply touches_assign.
  - unfold SubmitVote in Hok. one_round_tac Hok.
  - unfold CloseBallot in Hok. one_round_tac Hok; unfold CloseProfitSharingRound; touch.
Qed.

Lemma view_round r db : r ∈ rounds db ↔ r ∈ rounds (round_view (r_id r) db).
Proof. cbn. rewrite elem_of_sql_many, Z.eqb_refl. tauto. Qed.

Lemma closed_round_step db db' c r :
  Inv db → r ∈ rounds db → r_phase r = RoundPhaseClosed → ps_step c db db' →
  round_view (r_id r) db' = round_view (r_id r) db.
Proof.
  intros I Hr Hph (k & Hview & Hk)%one_round_step. apply Hview. intros <-.
  destruct Hk as [Hno|(r' & Hr' & Hid & Hph')]; [by apply (Hno r)|].
  assert (r' = r) as -> by (eapply (NoDup_key_inj r_id); [apply I|done..]). done.
Qed.

(** once a round is closed, no sequence of committed calls changes any row
    of it: not its record, its participants, its proposals and items, its
    ballots, candidates or votes. *)
Theorem closed_round_frozen db db' r :
  reachable db → r ∈ rounds db → r_phase r = RoundPhaseClosed →
  rtc (λ a b, ∃ c, ps_step c a b) db db' →
  round_view (r_id r) db' = round_view (r_id r) db.
Proof.
  intros I%Inv_reachable Hr Hph Hrtc. revert I Hr.
  induction Hrtc as [|a b d (c & Hs) _ IH]; intros I Hr; [done|].
  pose proof (closed_round_step _ _ _ _ I Hr Hph Hs) as Hv.
  rewrite IH; [done|by eapply Inv_step|]. apply view_round. rewrite Hv. by apply view_round in Hr.
Qed.

(** ** The round record changes under its revision *)
Definition keeps_rounds {A} (m : ps_tx A) : Prop :=
  ∀ db db' a, m db = Ok (db', a) → rounds db' = rounds db.
Lemma keeps_bind {A B} (m : ps_tx A) (f : A → ps_tx B) :
  keeps_rounds m → (∀ a, keeps_rounds (f a)) → keeps_rounds (m ≫= f).
Proof. intros Hm Hf db db' b (s & a & H1 & H2)%tx_bind_ok. rewrite (Hf _ _ _ _ H2). by eapply Hm. Qed.
Lemma keeps_no_rows {A} (m : ps_tx A) e : keeps_rounds m → keeps_rounds (on_no_rows m e).
Proof. intros Hm db db' x Hok%on_no_rows_ok. by apply (Hm _ _ x). Qed.
Lemma keeps_constraint {A} (m : ps_tx A) c e : keeps_rounds m → keeps_rounds (on_constraint m c e).
Proof. intros Hm db db' x Hok%on_constraint_ok. by apply (Hm _ _ x). Qed.
Lemma keeps_lock_proposal rid a : keeps_rounds (lockProposalByAuthor rid a).
Proof. intros db db' x (-> & _)%lockProposalByAuthor_ok. done. Qed.
Lemma keeps_lock slug : keeps_rounds (lockRoundBySlug slug).
Proof. intros db db' x (-> & _)%lockRoundBySlug_ok. done. Qed.
Lemma keeps_update_proposal p f : keeps_rounds (update_proposal p f).
Proof. intros db db' x (r & _ & _ & _ & ->)%update_proposal_ok. done. Qed.
Lemma keeps_insert_items rows : keeps_rounds (insert_items rows).
Proof. intros db db' x (-> & _)%insert_items_ok. done. Qed.
Lemma keeps_createParticipants rid inputs : keeps_rounds (createParticipants rid inputs).
Proof. intros db db' x (rows & -> & _)%createParticipants_ok. done. Qed.
Lemma keeps_Upsert now rid n v p a : keeps_rounds (UpsertProfitSharingVote now rid n v p a).
Proof. intros db db' x Hok. unfold UpsertProfitSharingVote in Hok. tx_inv. destruct (sql_one _ _); by tx_inv. Qed.
Ltac keeps_base := intros ? ? ? Hok; by tx_inv.
Ltac keeps := repeat first [lazymatch goal with
  | |- keeps_rounds (_ ≫= _) => apply keeps_bind; [|intros ?]
  | |- keeps_rounds (on_no_rows _ _) => apply keeps_no_rows
  | |- keeps_rounds (on_constraint _ _ _) => apply keeps_constraint
  | |- keeps_rounds (if ?b then _ else _) => destruct b
  | |- keeps_rounds (match ?x with Some _ => _ | None => _ end) => destruct x
  end | solve [eauto using keeps_lock_proposal, keeps_lock, keeps_update_proposal, keeps_insert_items,
                 keeps_createParticipants, keeps_Upsert] | keeps_base].

Lemma keeps_Delete rid : keeps_rounds (DeleteProfitSharingParticipants rid).
Proof. intros db db' x Hok. unfold DeleteProfitSharingParticipants in Hok. by tx_inv. Qed.
Lemma keeps_BatchProposals now rid rows : keeps_rounds (BatchCreateProfitSharingProposals now rid rows).
Proof. intros db db' x Hok. unfold BatchCreateProfitSharingProposals in Hok. by tx_inv. Qed.
Lemma keeps_InitialItems rid : keeps_rounds (CreateInitialProfitSharingProposalItems rid).
Proof. unfold CreateInitialProfitSharingProposalItems. keeps. Qed.
Lemma keeps_assign now rid i ps : keeps_rounds (assign_labels now rid i ps).
Proof. intros db db' x (_ & ps' & -> & _)%assign_labels_ok. done. Qed.
Lemma keeps_CreateBallot now rid n : keeps_rounds (CreateProfitSharingBallot now rid n).
Proof. intros db db' x Hok. unfold CreateProfitSharingBallot in Hok. by tx_inv. Qed.
Lemma keeps_Candidates rid n ids : keeps_rounds (BatchCreateProfitSharingBallotCandidates rid n ids).
Proof. intros db db' x Hok. unfold BatchCreateProfitSharingBallotCandidates in Hok. by tx_inv. Qed.
Lemma keeps_CloseBallotRow now rid n : keeps_rounds (CloseProfitSharingBallot now rid n).
Proof. intros db db' x Hok. unfold CloseProfitSharingBallot in Hok. by tx_inv. Qed.
Lemma keeps_DeleteItems rid p : keeps_rounds (DeleteProfitSharingProposalItems rid p).
Proof. intros db db' x Hok. unfold DeleteProfitSharingProposalItems in Hok. by tx_inv. Qed.
Lemma keeps_UpdateProposal now slug a e inputs : keeps_rounds (UpdateProposal now slug a e inputs).
Proof.
  unfold UpdateProposal, createProposalItems, BatchCreateProfitSharingProposalItems,
    UpdateProfitSharingProposalDraft. keeps. apply keeps_DeleteItems.
Qed.
Lemma keeps_changeProposalStatus now slug a e submit : keeps_rounds (changeProposalStatus now slug a e submit).
Proof. unfold changeProposalStatus, SubmitProfitSharingProposal, ReopenProfitSharingProposal. keeps. Qed.
Lemma keeps_SubmitVote now slug n v p : keeps_rounds (SubmitVote now slug n v p).
Proof. unfold SubmitVote. keeps. Qed.

(** The phases a round record moves through. *)
Inductive phase_next : RoundPhase → RoundPhase → Prop :=
| phase_configure : phase_next RoundPhaseDraft RoundPhaseDraft
| phase_open : phase_next RoundPhaseDraft RoundPhaseCollecting
| phase_publish : phase_next RoundPhaseCollecting RoundPhaseVoting
| phase_runoff : phase_next RoundPhaseVoting RoundPhaseVoting
| phase_close : phase_next RoundPhaseVoting RoundPhaseClosed.

(** The round revision a caller claims to have seen. *)
Definition call_expected (c : PSCall) : option Z :=
  match c with
  | CallUpdateRound _ _ _ _ _ e | CallOpenRound _ _ _ e _ | CallPublishRound _ _ e | CallCloseBallot _ _ e => Some e
  | _ => None
  end.

Definition record_kept (e : option Z) (db' : DB) (r : ProfitSharingRound) : Prop :=
  ∃ r', r' ∈ rounds db' ∧ r_id r' = r_id r
    ∧ (r' = r ∨ (e = Some (r_revision r) ∧ r_revision r' = r_revision r + 1 ∧ r_revision r' ≤ max_int64
                 ∧ phase_next (r_phase r) (r_phase r'))).

Lemma update_round_bounded p f db db' row :
  update_round p f db = Ok (db', row) → r_revision row ≤ max_int64.
Proof. unfold update_round. intros Hok. tx_inv. unfold bigint_in_range in *. by bool_prop. Qed.

Lemma record_kept_same e db db' r : rounds db' = rounds db → r ∈ rounds db → record_kept e db' r.
Proof. intros Heq Hr. exists r. rewrite Heq. auto. Qed.

Lemma record_kept_update e rid ph f db0 db db' row r :
  Inv db0 → rounds db = rounds db0 → (∀ x, r_id (f x) = r_id x) → (∀ x, r_revision (f x) = r_revision x + 1) →
  (∀ x, r_phase x = ph → phase_next ph (r_phase (f x))) →
  update_round (λ x, (r_id x =? rid) && bool_decide (r_phase x = ph) && (r_revision x =? e)) f db = Ok (db', row) →
  r ∈ rounds db0 → record_kept (Some e) db' r.
Proof.
  intros I Hrds Hf Hrev Hph Hok Hr. pose proof (update_round_bounded _ _ _ _ _ Hok) as Hb.
  apply update_round_by_id in Hok as (r1 & Hr1 & Hp & -> & -> & _ & Hrs);
    [|rewrite Hrds; apply I|done|exists rid; intros x ?%round_key_id; tauto].
  apply round_key_id in Hp as (Hid & Hp1 & He). rewrite Hrds in Hr1.
  destruct (decide (r_id r = r_id r1)) as [Heq|Hne].
  - assert (r = r1) as -> by (eapply (NoDup_key_inj r_id); [apply I|done..]).
    exists (f r1). split; [apply Hrs; by left|]. split; [done|]. right.
    split_and!; [congruence|done|done|]. rewrite Hp1. auto.
  - exists r. split; [|auto]. apply Hrs. rewrite Hrds. auto.
Qed.

Lemma record_step_UpdateRound now cur nxt title inputs e db db' a r :
  Inv db → UpdateRound now cur nxt title inputs e db = Ok (db', a) → r ∈ rounds db → record_kept (Some e) db' r.
Proof.
  intros I Hok Hr. unfold UpdateRound in Hok. tx_inv.
  match goal with H : lockRoundBySlug _ _ = Ok _ |- _ => apply lockRoundBySlug_ok in H as (-> & _) end.
  match goal with H : on_constraint _ _ _ _ = Ok _ |- _ =>
    apply on_constraint_ok, on_no_rows_ok in H; unfold UpdateProfitSharingRoundConfig in H end. tx_inv.
  match goal with H1 : DeleteProfitSharingParticipants _ _ = Ok _, H2 : createParticipants _ _ _ = Ok _,
                  H3 : update_round _ _ _ = Ok _ |- _ =>
    apply keeps_Delete in H1; apply keeps_createParticipants in H2;
    opose proof (record_kept_update e _ RoundPhaseDraft _ db _ _ _ r I eq_refl _ _ _ H3 Hr) as (r' & Hr' & ?);
    [done|done|cbn; intros ? ->; constructor|] end.
  exists r'. split; [congruence|done].
Qed.

Lemma record_step_OpenRound now fresh slug e ids db db' a r :
  Inv db → OpenRound now fresh slug e ids db = Ok (db', a) → r ∈ rounds db → record_kept (Some e) db' r.
Proof.
  intros I Hok Hr. unfold OpenRound in Hok. tx_inv.
  match goal with H : lockRoundBySlug _ _ = Ok _ |- _ => apply lockRoundBySlug_ok in H as (-> & _) end. tx_inv.
  match goal with H1 : BatchCreateProfitSharingProposals _ _ _ _ = Ok _,
                  H2 : CreateInitialProfitSharingProposalItems _ _ = Ok _, H3 : on_no_rows _ _ _ = Ok _ |- _ =>
    apply keeps_BatchProposals in H1; apply keeps_InitialItems in H2; apply on_no_rows_ok in H3;
    refine (record_kept_update _ _ _ _ db _ _ _ r I _ _ _ _ H3 Hr); [congruence|done|done|constructor] end.
Qed.

Lemma record_step_PublishRound now slug e db db' a r :
  Inv db → PublishRound now slug e db = Ok (db', a) → r ∈ rounds db → record_kept (Some e) db' r.
Proof.
  intros I Hok Hr. unfold PublishRound in Hok. tx_inv.
  match goal with H : lockRoundBySlug _ _ = Ok _ |- _ => apply lockRoundBySlug_ok in H as (-> & _) end. tx_inv.
  match goal with H1 : assign_labels _ _ _ _ _ = Ok _, H2 : CreateProfitSharingBallot _ _ _ _ = Ok _,
                  H3 : BatchCreateProfitSharingBallotCandidates _ _ _ _ = Ok _, H4 : on_no_rows _ _ _ = Ok _ |- _ =>
    apply keeps_assign in H1; apply keeps_CreateBallot in H2; apply keeps_Candidates in H3; apply on_no_rows_ok in H4;
    refine (record_kept_update _ _ _ _ db _ _ _ r I _ _ _ _ H4 Hr); [congruence|done|done|constructor] end.
Qed.

Lemma record_step_CloseBallot now slug e db db' a r :
  Inv db → CloseBallot now slug e db = Ok (db', a) → r ∈ rounds db → record_kept (Some e) db' r.
Proof.
  intros I Hok Hr. unfold CloseBallot in Hok. tx_inv.
  match goal with H : lockRoundBySlug _ _ = Ok _ |- _ => apply lockRoundBySlug_ok in H as (-> & _) end. tx_inv.
  destruct (ListProfitSharingBallotTallies _ _ _) as [|t0 ts]; tx_inv.
  match goal with H1 : CloseProfitSharingBallot _ _ _ _ = Ok _ |- _ => apply keeps_CloseBallotRow in H1 end.
  destruct (tied_prefix _ _) as [|w [|w2 tied]]; tx_inv.
  2: { match goal with H : on_no_rows _ _ _ = Ok _ |- _ => apply on_no_rows_ok in H as Hup end.
    unfold CloseProfitSharingRound in Hup. tx_inv.
    refine (record_kept_update _ _ _ _ db _ _ _ r I _ _ _ _ ltac:(eassumption) Hr); [done..|constructor]. }
  all: match goal with H2 : CreateProfitSharingBallot _ _ _ _ = Ok _,
                  H3 : BatchCreateProfitSharingBallotCandidates _ _ _ _ = Ok _, H4 : on_no_rows _ _ _ = Ok _ |- _ =>
    apply keeps_CreateBallot in H2; apply keeps_Candidates in H3; apply on_no_rows_ok in H4;
    refine (record_kept_update _ _ _ _ db _ _ _ r I _ _ _ _ H4 Hr); [congruence|done|done|cbn; intros ? ->; constructor] end.
Qed.

(** a committed call changes a round record only when it names the record's
    current revision, and then raises that revision by one (never past the
    64-bit range) and moves the phase along draft, collecting, voting, closed;
    every other round record, and a round under any other call, is kept. *)
Theorem round_record_step c db db' r :
  reachable db → ps_step c db db' → r ∈ rounds db → record_kept (call_expected c) db' r.
Proof.
  intros I%Inv_reachable [Hok] Hr. destruct c; cbn in Hok; unfold discard in Hok;
    apply tx_bind_ok in Hok as (s & a & Hok & Hret); apply tx_ret_ok in Hret as [-> _]; cbn [call_expected].
  - apply CreateRound_ok in Hok as (row & rows & _ & _ & _ & _ & _ & _ & _ & -> & _).
    exists r. cbn. rewrite elem_of_app. auto.
  - by eapply record_step_UpdateRound.
  - by eapply record_step_OpenRound.
  - eapply record_kept_same; [by eapply keeps_UpdateProposal|done].
  - eapply record_kept_same; [by eapply keeps_changeProposalStatus|done].
  - eapply record_kept_same; [by eapply keeps_changeProposalStatus|done].
  - by eapply record_step_PublishRound.
  - eapply record_kept_same; [by eapply keeps_SubmitVote|done].
  - by eapply record_step_CloseBallot.
Qed.
End Frame.

Import Concrete.
(** The closed round of the scenario. *)
Definition sc_round (cs : list PSCall) : ProfitSharingRound :=
  default {| r_id := 0; r_slug := ""; r_title := ""; r_phase := RoundPhaseDraft; r_revision := 0;
    r_active_ballot_number := None; r_final_proposal_id := None; r_created_at := 0; r_updated_at := 0;
    r_opened_at := None; r_published_at := None; r_closed_at := None |} (head (rounds (state_of cs))).

Lemma sc_round_elem cs : bool_decide (is_Some (head (rounds (state_of cs)))) = true → sc_round cs ∈ rounds (state_of cs).
Proof. unfold sc_round. destruct (rounds (state_of cs)); [done|]. intros _. constructor. Qed.

(** The only call that changes anything after the scenario's round is closed:
    another round is created. *)
Definition sc_second : list PSCall := sc_closed ++ [CallCreateRound 20 8 "round-2" "Second" sc_inputs].

Lemma sc_second_step : ∃ c, ps_step c (state_of sc_closed) (state_of sc_second).
Proof.
  exists (CallCreateRound 20 8 "round-2" "Second" sc_inputs). constructor. vm_compute. reflexivity.
Qed.

Lemma closed_round_frozen_witness :
  round_view (r_id (sc_round sc_closed)) (state_of sc_second)
  = round_view (r_id (sc_round sc_closed)) (state_of sc_closed).
Proof.
  apply closed_round_frozen.
  - sc_reachable.
  - apply sc_round_elem. vm_compute. reflexivity.
  - vm_compute. reflexivity.
  - eapply rtc_once, sc_second_step.
Defined.

Lemma round_record_step_witness :
  record_kept (Some 2) (state_of sc_published) (sc_round sc_submitted).
Proof.
  apply (round_record_step (CallPublishRound 14 "round-1" 2) (state_of sc_submitted)).
  - sc_reachable.
  - constructor. vm_compute. reflexivity.
  - apply sc_round_elem. vm_compute. reflexivity.
Defined.
