(* ===== verification/ProfitSharingTheorems.v ===== *)
(** * Profit sharing: the correctness properties

    The validators and [proposalLabel] against their specifications, what the
    calls do on each branch, what a reachable database guarantees, and what a
    snapshot shows. *)

From S2P Require Import Prelude Sql ProfitSharingTypes ProfitSharing ProfitSharingScenario ProfitSharingInv ProfitSharingVoting ProfitSharingFrame.
From stdpp Require Import base tactics option list list_numbers sorting strings gmap.
From Stdlib Require Import ZArith Lia Ascii.
#[local] Open Scope Z_scope.

Section Theorems.
Context {UL : UuidLib} {PT : PgText}.

(** every database reachable by committed calls satisfies the invariant:
    keys are unique, references resolve, no vote is a self-vote, each phase's
    guarantees hold and every submitted proposal is complete. *)
Theorem ps_invariant db : reachable db → Inv db.
Proof. apply Inv_reachable. Qed.

(** ** Complete proposals *)
Definition item_account (i : ProfitSharingProposalItem) : string := accountIDFromUUID (Some (it_participant_account_id i)).
Definition participant_account (p : ProfitSharingParticipant) : string := accountIDFromUUID (Some (pt_account_id p)).
Definition item_filled (i : ProfitSharingProposalItem) : Prop :=
  blank (it_responsibility i) = false ∧ is_Some (it_basis_points i).
Definition item_points (i : ProfitSharingProposalItem) : Z := default 0 (it_basis_points i).

Lemma complete_loop_spec its expected total rest t :
  complete_loop its expected total = Ok (rest, t) ↔
  NoDup (item_account <$> its) ∧ (∀ i, i ∈ its → item_account i ∈ expected ∧ item_filled i)
  ∧ rest = expected ∖ list_to_set (item_account <$> its) ∧ t = total + zsum (item_points <$> its).
Proof.
  revert expected total. induction its as [|i its IH]; intros expected total; cbn [complete_loop].
  { cbn. split.
    - intros [= <- <-]. split_and!; [apply NoDup_nil_2|by intros ? ?%not_elem_of_nil|set_solver|lia].
    - intros (_ & _ & -> & ->). do 2 f_equal; [set_solver|lia]. }
  split.
  - intros Hok. tx_inv. bool_prop.
    match goal with H : complete_loop _ _ _ = _ |- _ => apply IH in H as (Hnd & Hin & -> & ->) end.
    rewrite !fmap_cons. split_and!.
    + apply NoDup_cons. split; [|done]. intros (j & Hj & [Hj1 _]%Hin)%list_elem_of_fmap.
      unfold item_account in *. set_solver.
    + intros j [->|Hj]%elem_of_cons; [unfold item_filled, item_account; eauto|].
      destruct (Hin j Hj). set_solver.
    + cbn [list_to_set]. unfold item_account in *. set_solver.
    + rewrite zsum_cons. match goal with H : it_basis_points i = Some ?b |- _ =>
        assert (item_points i = b) by (unfold item_points; by rewrite H) end. lia.
  - rewrite !fmap_cons, NoDup_cons. intros ((Hni & Hnd) & Hin & -> & ->).
    destruct (Hin i) as (Hi & Hbl & b & Hb); [constructor|].
    unfold item_account at 1 in Hi. rewrite bool_decide_eq_true_2 by done. rewrite Hbl, Hb. cbn.
    apply IH. split_and!; [done| | |].
    + intros j Hj. destruct (Hin j) as [? ?]; [by constructor|]. split; [|done].
      apply elem_of_difference. split; [done|]. rewrite elem_of_singleton. intros Heq. apply Hni.
      apply list_elem_of_fmap. eauto.
    + unfold item_account. set_solver.
    + rewrite zsum_cons. assert (item_points i = b) by (unfold item_points; by rewrite Hb). lia.
Qed.

(** [validateCompleteProposal] accepts exactly the proposals with one item
    per participant, each with a responsibility and basis points, the basis
    points adding up to 10000. *)
Theorem validateCompleteProposal_spec its ps :
  validateCompleteProposal its ps = Ok tt ↔
  length its = length ps ∧ NoDup (item_account <$> its) ∧ Forall item_filled its
  ∧ (∀ a, a ∈ item_account <$> its ↔ a ∈ participant_account <$> ps)
  ∧ zsum (item_points <$> its) = 10000.
Proof.
  unfold validateCompleteProposal. fold participant_account.
  change ((λ p, accountIDFromUUID (Some (pt_account_id p))) <$> ps) with (participant_account <$> ps). split.
  - intros Hok. tx_inv. bool_prop. destruct x0 as [rest t].
    match goal with H : complete_loop _ _ _ = _ |- _ => apply complete_loop_spec in H as (Hnd & Hin & -> & ->) end.
    cbn in *. split_and!; [done|done|apply Forall_forall; intros i Hi; by apply Hin| |lia].
    intros a. split.
    + intros (i & -> & Hi)%list_elem_of_fmap. destruct (Hin i Hi). set_solver.
    + intros Ha. destruct (decide (a ∈ item_account <$> its)); [done|]. set_solver.
  - intros (Hlen & Hnd & Hf & Hset & Hsum). rewrite Hlen, bool_decide_eq_true_2 by done. cbn.
    rewrite (proj2 (complete_loop_spec its (list_to_set (participant_account <$> ps)) 0 ∅ 10000)).
    { cbn. by rewrite bool_decide_eq_true_2. }
    rewrite Forall_forall in Hf. split_and!; [done| |set_solver|lia].
    intros i Hi. split; [|auto]. apply elem_of_list_to_set, Hset, list_elem_of_fmap. eauto.
Qed.

(** C10: the final proposal of a closed round is one of its submitted proposals
    and allocates exactly 10000 basis points over its five participants, one
    item with a responsibility each. *)
Theorem closed_final_proposal db r :
  reachable db → r ∈ rounds db → r_phase r = RoundPhaseClosed →
  ∃ q, q ∈ proposals db ∧ r_final_proposal_id r = Some (pp_id q) ∧ pp_round_id q = r_id r
    ∧ pp_status q = ProposalStatusSubmitted
    ∧ let its := ListProfitSharingProposalItems (r_id r) (pp_id q) db in
      length its = requiredParticipantCount ∧ Forall item_filled its ∧ NoDup (item_account <$> its)
      ∧ (∀ a, a ∈ item_account <$> its ↔ a ∈ participant_account <$> ListProfitSharingParticipants (r_id r) db)
      ∧ zsum (item_points <$> its) = 10000.
Proof.
  intros I%Inv_reachable Hr Hph. pose proof (ph_round _ I r Hr) as Hok. unfold phase_ok in Hok. rewrite Hph in Hok.
  destruct Hok as ((Hfive & _) & Hall & w & q & Hw & Hq & <- & Hrd).
  assert (pp_status q = ProposalStatusSubmitted) as Hst by auto.
  pose proof (complete _ I q Hq Hst) as Hc. unfold proposal_complete in Hc. rewrite Hrd in Hc.
  apply validateCompleteProposal_spec in Hc as (Hlen & ? & ? & ? & ?).
  rewrite list_participants_length in Hlen. exists q. cbv zeta. split_and!; try done. by rewrite Hlen.
Qed.

(** ** Participant inputs *)
(** The value [validateParticipantInputs] makes of one input. *)
Definition normalised (i o : ParticipantInput) : Prop :=
  canonicalAccountID (pi_account_id i) = Ok (pi_account_id o)
  ∧ pi_username o = trim_space (pi_username i) ∧ pi_username o ≠ EmptyString
  ∧ pi_display_name o = trim_space (pi_display_name i) ∧ pi_display_name o ≠ EmptyString
  ∧ pi_display_order o = pi_display_order i ∧ 0 < pi_display_order o
  ∧ pi_baseline_responsibility o = trim_space (pi_baseline_responsibility i).

Lemma map_err_ok {A} (r : result PSError A) e a : map_err r e = Ok a ↔ r = Ok a.
Proof. destruct r; naive_solver. Qed.

Lemma participant_loop_spec inputs accts orders out :
  validateParticipantInputs_loop inputs accts orders = Ok out ↔
  Forall2 normalised inputs out
  ∧ NoDup (pi_account_id <$> out) ∧ (∀ o, o ∈ out → pi_account_id o ∉ accts)
  ∧ NoDup (pi_display_order <$> out) ∧ (∀ o, o ∈ out → pi_display_order o ∉ orders).
Proof.
  revert accts orders out. induction inputs as [|i inputs IH]; intros accts orders out;
    cbn [validateParticipantInputs_loop].
  { split.
    - intros [= <-]. split_and!; try apply NoDup_nil_2; try (by intros ? ?%not_elem_of_nil). constructor.
    - intros (HF%Forall2_nil_inv_l & _). by subst. }
  split.
  - intros Hok. tx_inv. unfold mret, result_ret in *. simplify_eq. bool_prop. rewrite map_err_ok in *.
    match goal with H : validateParticipantInputs_loop _ _ _ = _ |- _ => apply IH in H as (HF & Hn1 & Ha & Hn2 & Ho) end.
    cbn in *. split_and!.
    + constructor; [|done]. unfold normalised; cbn. split_and!; done.
    + apply NoDup_cons. split; [|done]. intros (o & Heq & Hin)%list_elem_of_fmap. specialize (Ha o Hin). set_solver.
    + intros o [->|Hin]%elem_of_cons; [done|]. specialize (Ha o Hin). set_solver.
    + apply NoDup_cons. split; [|done]. intros (o & Heq & Hin)%list_elem_of_fmap. specialize (Ho o Hin). set_solver.
    + intros o [->|Hin]%elem_of_cons; [done|]. specialize (Ho o Hin). set_solver.
  - intros (HF & Hn1 & Ha & Hn2 & Ho). apply Forall2_cons_inv_l in HF as (o & out' & Hio & HF & ->).
    rewrite fmap_cons, NoDup_cons in Hn1. rewrite fmap_cons, NoDup_cons in Hn2. destruct Hn1 as [Hx1 Hn1], Hn2 as [Hx2 Hn2].
    pose proof (Ha o ltac:(constructor)). pose proof (Ho o ltac:(constructor)).
    destruct o as [oa ou od oo ob]. destruct Hio as (Hc & Hu & ? & Hd & ? & Hord & ? & Hb). cbn in *.
    rewrite Hc. cbn. rewrite <- Hu, <- Hd, <- Hord, <- Hb.
    repeat first [rewrite bool_decide_eq_false_2 by done | rewrite (proj2 (Z.ltb_lt _ _)) by done]. cbn.
    rewrite (proj2 (IH _ _ out')); [done|]. split_and!; [done|done| |done|].
    + intros o Hin. specialize (Ha o). rewrite elem_of_cons in Ha. specialize (Ha (or_intror Hin)).
      rewrite not_elem_of_union, elem_of_singleton. split; [|done]. intros Heq. apply Hx1, list_elem_of_fmap. eauto.
    + intros o Hin. specialize (Ho o). rewrite elem_of_cons in Ho. specialize (Ho (or_intror Hin)).
      rewrite not_elem_of_union, elem_of_singleton. split; [|done]. intros Heq. apply Hx2, list_elem_of_fmap. eauto.
Qed.

Lemma StronglySorted_orders (l : list ParticipantInput) :
  StronglySorted (λ a b, participantInput_le a b = true) l → NoDup (pi_display_order <$> l) →
  StronglySorted (λ a b, pi_display_order a < pi_display_order b) l.
Proof.
  induction 1 as [|a l HS IH HF]; intros Hnd; constructor.
  - apply IH. rewrite fmap_cons, NoDup_cons in Hnd. tauto.
  - rewrite fmap_cons, NoDup_cons in Hnd. destruct Hnd as [Hni _]. rewrite Forall_forall in *.
    intros b Hb. specialize (HF b Hb). unfold participantInput_le in HF. apply Z.leb_le in HF.
    assert (pi_display_order a ≠ pi_display_order b); [|lia]. intros Heq. apply Hni, list_elem_of_fmap. eauto.
Qed.

(** [validateParticipantInputs] accepts exactly the inputs whose accounts
    are valid and distinct, whose names are not blank and whose display orders
    are positive and distinct; it returns the trimmed inputs with canonical
    account ids, ordered strictly by display order. *)
Theorem validateParticipantInputs_spec inputs out :
  validateParticipantInputs inputs = Ok out ↔
  ∃ norm, Forall2 normalised inputs norm ∧ NoDup (pi_account_id <$> norm) ∧ NoDup (pi_display_order <$> norm)
    ∧ out = sort_by participantInput_le norm ∧ out ≡ₚ norm
    ∧ StronglySorted (λ a b, pi_display_order a < pi_display_order b) out.
Proof.
  unfold validateParticipantInputs. rewrite result_bind_ok. split.
  - intros (norm & (HF & Hn1 & _ & Hn2 & _)%participant_loop_spec & Hret).
    unfold mret, result_ret in Hret. injection Hret as <-. exists norm. split_and!; try done.
    + apply sort_by_Permutation.
    + apply StronglySorted_orders; [|by rewrite sort_by_Permutation]. apply sort_by_sorted.
      * intros a b. unfold participantInput_le. rewrite !Z.leb_le. lia.
      * intros a b c. unfold participantInput_le. rewrite !Z.leb_le. lia.
  - intros (norm & HF & Hn1 & Hn2 & -> & _). exists norm. split; [|done].
    apply participant_loop_spec. split_and!; try done; intros o _; set_solver.
Qed.

(** ** Anonymous labels *)
(** The number a bijective base-26 numeral with digits A..Z stands for. *)
Fixpoint label_value (acc : Z) (s : string) : Z :=
  match s with
  | EmptyString => acc
  | String c s' => label_value (26 * acc + (Z.of_N (N_of_ascii c) - 64)) s'
  end.

Lemma label_loop_value fuel i s :
  -1 ≤ i < Z.of_nat fuel → label_value 0 (label_loop fuel i s) = label_value (i + 1) s.
Proof.
  revert i s. induction fuel as [|fuel IH]; intros i s Hi; cbn [label_loop].
  { by replace i with (-1) by lia. }
  destruct (Z.ltb_spec i 0).
  { by replace i with (-1) by lia. }
  pose proof (Z.div_mod i 26 ltac:(lia)) as Hdm. pose proof (Z.mod_pos_bound i 26 ltac:(lia)).
  assert (0 ≤ i / 26 ≤ i) by (split; [apply Z.div_pos; lia|apply Z.div_le_upper_bound; lia]).
  rewrite IH by lia. cbn [label_value]. rewrite N_ascii_embedding by lia. rewrite Z2N.id by lia. f_equal. lia.
Qed.

(** The loop of [proposalLabel] ends, and the labels of distinct
    proposals are distinct: the letters after the prefix are the bijective
    base-26 numeral of the index. *)
Theorem proposalLabel_roundtrip i :
  0 ≤ i → ∃ letters, proposalLabel i = ("Proposal " +:+ letters)%string ∧ label_value 0 letters - 1 = i
    ∧ ∀ j, 0 ≤ j → proposalLabel j = proposalLabel i → j = i.
Proof.
  intros Hi. unfold proposalLabel. eexists; split; [done|].
  assert (∀ k, 0 ≤ k → label_value 0 (label_loop (S (Z.to_nat k)) k EmptyString) = k + 1) as Hv
    by (intros; rewrite label_loop_value by lia; done).
  split; [rewrite Hv; lia|]. intros j Hj. pose proof (Hv i Hi) as Hvi. pose proof (Hv j Hj) as Hvj. revert Hvi Hvj.
  generalize (label_loop (S (Z.to_nat i)) i EmptyString) as a, (label_loop (S (Z.to_nat j)) j EmptyString) as b.
  intros a b Ha Hb Heq. injection Heq as Heq. change (b = a) in Heq. subst b. lia.
Qed.

(** ** Voting *)
(** an accepted vote is cast in the open ballot of a voting round by one of
    its participants for a candidate of another author, and it replaces the
    voter's earlier vote in that ballot: afterwards the voter has exactly this
    vote there, and no other row of the database has changed. *)
Theorem SubmitVote_effect now slug n voterID proposalID db db' res :
  reachable db → SubmitVote now slug n voterID proposalID db = Ok (db', res) →
  ∃ r p q row, r ∈ rounds db ∧ r_slug r = trim_space slug ∧ r_phase r = RoundPhaseVoting
    ∧ r_active_ballot_number r = Some n
    ∧ p ∈ participants db ∧ pt_round_id p = r_id r
    ∧ q ∈ ListProfitSharingBallotCandidates (r_id r) n db ∧ pp_id q = trim_space proposalID
    ∧ pp_author_account_id q ≠ pt_account_id p
    ∧ res = voteFromSQLC row ∧ vote_key row = (r_id r, n, pt_account_id p) ∧ v_proposal_id row = pp_id q
    ∧ db' = set_votes (votes db') db ∧ NoDup (vote_key <$> votes db')
    ∧ (∀ v, v ∈ votes db' ↔ v = row ∨ (v ∈ votes db ∧ vote_key v ≠ vote_key row)).
Proof.
  intros I%Inv_reachable Hok. unfold SubmitVote in Hok. tx_inv.
  match goal with H : lockRoundBySlug _ _ = Ok (_, ?r) |- _ =>
    apply lockRoundBySlug_ok in H as (-> & Hr & Hslug); rename r into rnd end.
  tx_inv.
  match goal with H : on_constraint _ _ _ _ = Ok (_, ?v) |- _ => rename v into row; apply on_constraint_ok in H;
    destruct (UpsertVote_ok _ _ _ _ _ _ _ _ _ I H) as (Hv & Hkey & Hpid & vs & -> & Hnd & Hvs) end.
  match goal with H : GetProfitSharingParticipant _ _ _ = Some ?p |- _ => apply sql_one_Some in H as [Hp Hpk]; rename p into part end.
  match goal with H : sql_one _ (ListProfitSharingBallotCandidates _ _ _) = Some ?q |- _ =>
    apply sql_one_Some in H as [Hq Hqk]; rename q into cand end.
  bool_prop. repeat match goal with H : (_ =? _)%N = true |- _ => apply N.eqb_eq in H
                              | H : (_ =? _)%N = false |- _ => apply N.eqb_neq in H end.
  exists rnd, part, cand, row. split_and!; try done; congruence.
Qed.

(** ** Snapshots *)
Lemma foldl_insert_map {V} (ts : list (string * V)) :
  foldl (λ m t, <[t.1 := t.2]> m) (∅ : gmap string V) ts = list_to_map (reverse ts).
Proof.
  induction ts as [|t ts IH] using rev_ind; [done|].
  rewrite foldl_app, reverse_app. cbn. by rewrite IH.
Qed.

Lemma foldl_insert_lookup {V} (ts : list (string * V)) i v :
  NoDup (ts.*1) → foldl (λ m t, <[t.1 := t.2]> m) (∅ : gmap string V) ts !! i = Some v ↔ (i, v) ∈ ts.
Proof.
  intros Hnd. rewrite foldl_insert_map, <- elem_of_list_to_map, elem_of_reverse; [done|].
  by rewrite fmap_reverse, reverse_Permutation.
Qed.

(** The map from proposal ids to positions finds the proposal itself. *)
Lemma proposal_index_lookup (props : list Proposal) k p :
  NoDup (pr_id <$> props) → props !! k = Some p → proposal_index props !! pr_id p = Some k.
Proof.
  intros Hnd Hk. unfold proposal_index.
  assert (foldl (λ m x, <[pr_id x.2 := x.1]> m) (∅ : gmap string nat) (imap pair props)
    = foldl (λ m t, <[t.1 := t.2]> m) ∅ (imap (λ k p, (pr_id p, k)) props)) as ->.
  { assert (imap (λ k p, (pr_id p, k)) props = (λ x : nat * Proposal, (pr_id x.2, x.1)) <$> imap pair props) as ->
      by (by rewrite fmap_imap).
    generalize (∅ : gmap string nat). induction (imap pair props) as [|x l IH]; intros m; [done|]. apply IH. }
  apply foldl_insert_lookup.
  - replace ((imap (λ k p, (pr_id p, k)) props).*1) with (pr_id <$> props); [done|].
    apply list_eq. intros n. rewrite !list_lookup_fmap, list_lookup_imap. by destruct (props !! n).
  - apply list_elem_of_lookup. exists k. rewrite list_lookup_imap, Hk. done.
Qed.

Lemma snapshot_candidates_spec row n db :
  Inv db → let props := snapshot_proposals row db in
  snapshot_candidate props (proposal_index props) <$> ListProfitSharingBallotCandidates (r_id row) n db
  = (λ q, proposalFromSQLC q (ListProfitSharingProposalItems (r_id row) (pp_id q) db))
      <$> ListProfitSharingBallotCandidates (r_id row) n db.
Proof.
  intros I props. apply list_fmap_ext. intros k c Hc%list_elem_of_lookup_2.
  unfold ListProfitSharingBallotCandidates in Hc. rewrite sort_by_elem in Hc.
  apply list_elem_of_bind in Hc as (cd & [Hk Hc]%elem_of_sql_many & [Hcd Hcand]%elem_of_sql_many). bool_prop.
  assert (c ∈ ListProfitSharingProposals (r_id row) db) as [j Hj]%list_elem_of_lookup
    by (apply sorted_proposals_elem; split; [done|congruence]).
  assert (props !! j = Some (proposalFromSQLC c (ListProfitSharingProposalItems (r_id row) (pp_id c) db))) as Hp
    by (unfold props, snapshot_proposals; by rewrite list_lookup_fmap, Hj).
  unfold snapshot_candidate. change (pp_id c) with (pr_id (proposalFromSQLC c
    (ListProfitSharingProposalItems (r_id row) (pp_id c) db))) at 1.
  rewrite (proposal_index_lookup _ j _); [|..|exact Hp]; cbn; [by rewrite Hp|].
  unfold props, snapshot_proposals. rewrite <- list_fmap_compose. change (pr_id ∘ _) with pp_id.
  unfold ListProfitSharingProposals. rewrite sort_by_Permutation. apply NoDup_sql_many, I.
Qed.

Lemma snapshot_counts_spec rid n db i v :
  Inv db →
  foldl (λ m t, <[t.1 := t.2]> m) (∅ : gmap string Z) (ListProfitSharingBallotTallies rid n db) !! i = Some v
  ↔ i ∈ ballot_ids rid n db ∧ v = tally_of rid n db i.
Proof.
  intros I. rewrite foldl_insert_lookup.
  - rewrite tallies_Permutation, list_elem_of_fmap. naive_solver.
  - rewrite tallies_Permutation, <- list_fmap_compose.
    rewrite (list_fmap_ext _ id), list_fmap_id; [|done]. by apply ballot_ids_NoDup.
Qed.

(** a snapshot of a round that is not closed shows no vote count and no vote
    but the requester's own; of a closed round it shows each candidate's count;
    its candidates are the ballot's proposals with their items. *)
Theorem GetRound_snapshot slug requester db snap b :
  reachable db → GetRound slug requester db = Ok snap → rs_ballot snap = Some b →
  let r := rs_round snap in
  r ∈ rounds db ∧ r_slug r = slug ∧ r_active_ballot_number r = Some (ba_number b)
  ∧ (r_phase r ≠ RoundPhaseClosed → ba_vote_counts b = ∅)
  ∧ (r_phase r = RoundPhaseClosed → ∀ i v, ba_vote_counts b !! i = Some v ↔
       i ∈ ballot_ids (r_id r) (ba_number b) db ∧ v = tally_of (r_id r) (ba_number b) db i)
  ∧ (∀ v, ba_current_vote b = Some v → ∃ u row, accountUUID requester = Ok u ∧ row ∈ votes db
       ∧ vote_key row = (r_id r, ba_number b, u) ∧ v = voteFromSQLC row)
  ∧ ba_candidates b = (λ q, proposalFromSQLC q (ListProfitSharingProposalItems (r_id r) (pp_id q) db))
      <$> ListProfitSharingBallotCandidates (r_id r) (ba_number b) db.
Proof.
  intros I%Inv_reachable Hok Hb. unfold GetRound in Hok. tx_inv.
  match goal with H : GetProfitSharingRoundBySlug _ _ = Some ?r |- _ =>
    apply sql_one_Some in H as [Hr Hs]; rename r into row end. bool_prop.
  unfold loadRoundSnapshot in *. destruct (r_active_ballot_number row) as [n|] eqn:Ha; [|by simplify_eq].
  tx_inv. unfold mret, result_ret in *. simplify_eq. cbn in Hb. injection Hb as <-. cbn.
  match goal with H : sql_one _ _ = Some ?x |- _ => apply sql_one_Some in H as [_ Hn]; bool_prop end.
  rewrite Hn. split_and!; try done.
  - intros Hph. by rewrite bool_decide_eq_false_2.
  - intros Hph i v. rewrite bool_decide_eq_true_2 by done. by apply snapshot_counts_spec.
  - intros v ->. match goal with H : (if _ then _ else _) = Ok _ |- _ => destruct (bool_decide _); [done|] end.
    tx_inv. unfold mret, result_ret in *. simplify_eq.
    match goal with H : _ <$> GetProfitSharingVote _ _ _ _ = Some _ |- _ =>
      apply fmap_Some in H as (vr & Hv & ->); apply sql_one_Some in Hv as [Hv Hk] end.
    bool_prop. eexists _, vr. split_and!; [done|done| |done]. unfold vote_key.
    match goal with H : (_ =? _)%N = true |- _ => apply N.eqb_eq in H as -> end. unfold roundFromSQLC. congruence.
  - by apply snapshot_candidates_spec.
Qed.

(** ** Refused calls *)
(** The calls on an existing round, with the phase each one needs. *)
Definition call_round (c : PSCall) : option (string * RoundPhase) :=
  match c with
  | CallUpdateRound _ cur _ _ _ _ => Some (trim_space cur, RoundPhaseDraft)
  | CallOpenRound _ _ slug _ _ => Some (trim_space slug, RoundPhaseDraft)
  | CallUpdateProposal _ slug _ _ _ | CallSubmitProposal _ slug _ _ | CallReopenProposal _ slug _ _
  | CallPublishRound _ slug _ => Some (trim_space slug, RoundPhaseCollecting)
  | CallSubmitVote _ slug _ _ _ | CallCloseBallot _ slug _ => Some (trim_space slug, RoundPhaseVoting)
  | CallCreateRound _ _ _ _ _ => None
  end.

(** a call that names an existing round in another phase than the one it
    belongs to, or a round revision other than the current one, is refused and
    changes nothing. *)
Theorem call_refused c db r slug ph :
  call_round c = Some (slug, ph) → GetProfitSharingRoundBySlug slug db = Some r →
  r_phase r ≠ ph ∨ (∃ e, call_expected c = Some e ∧ e ≠ r_revision r) →
  fst (run_tx (exec c) db) = db ∧ is_ok (snd (run_tx (exec c) db)) = false.
Proof.
  intros Hc Hr Hbad. pose proof (run_tx_spec (exec c) db) as Hspec.
  destruct (run_tx (exec c) db) as [db' [[]|e]]; cbn in *; [exfalso|tauto].
  destruct c; cbn in Hc; try discriminate; injection Hc as <- <-; cbn in Hspec;
    unfold discard, SubmitProposal, ReopenProposal in Hspec; apply tx_bind_ok in Hspec as (s & a & Hok & _);
    (unfold UpdateRound in Hok || unfold OpenRound in Hok || unfold UpdateProposal in Hok
     || unfold changeProposalStatus in Hok || unfold PublishRound in Hok || unfold SubmitVote in Hok
     || unfold CloseBallot in Hok); unfold lockRoundBySlug in Hok; tx_inv; bool_prop;
    cbn in Hbad; destruct Hbad as [Hne|(e & He & Hne)]; congruence.
Qed.
End Theorems.

(** ** Witnesses: the scenario's states *)
Import Concrete.

Lemma ps_invariant_witness : Inv (state_of sc_runoff).
Proof. apply ps_invariant. sc_reachable. Defined.

Lemma closed_final_proposal_witness :
  ∃ q, r_final_proposal_id (sc_round sc_closed) = Some (pp_id q)
    ∧ zsum (item_points <$> ListProfitSharingProposalItems (r_id (sc_round sc_closed)) (pp_id q) (state_of sc_closed))
      = 10000.
Proof.
  destruct (closed_final_proposal (state_of sc_closed) (sc_round sc_closed)
    ltac:(sc_reachable) ltac:(apply sc_round_elem; vm_compute; reflexivity) ltac:(vm_compute; reflexivity))
    as (q & _ & Hf & _ & _ & _ & _ & _ & _ & Hs).
  exists q. split; [exact Hf|exact Hs].
Defined.

Lemma proposalLabel_roundtrip_witness :
  ∃ letters, proposalLabel 701 = ("Proposal " +:+ letters)%string ∧ label_value 0 letters - 1 = 701.
Proof.
  destruct (proposalLabel_roundtrip 701 ltac:(lia)) as (letters & H1 & H2 & _). exists letters. split; [exact H1|exact H2].
Defined.

Lemma SubmitVote_effect_witness :
  ∃ db' res, SubmitVote 15 "round-1" 1 (acct 4) "p3" (state_of sc_voted) = Ok (db', res)
    ∧ NoDup (vote_key <$> votes db').
Proof.
  destruct (SubmitVote 15 "round-1" 1 (acct 4) "p3" (state_of sc_voted)) as [[db' res]|e] eqn:E.
  - assert (reachable (state_of sc_voted)) as HR by sc_reachable.
    destruct (SubmitVote_effect 15 "round-1" 1 (acct 4) "p3" (state_of sc_voted) db' res HR E)
      as (r & p & q & row & _ & _ & _ & _ & _ & _ & _ & _ & _ & _ & _ & _ & _ & Hnd & _).
    exists db', res. split; [reflexivity|exact Hnd].
  - exfalso. revert E. vm_compute. discriminate.
Defined.

Lemma GetRound_snapshot_witness :
  ∃ snap b, GetRound "round-1" (acct 4) (state_of sc_voted) = Ok snap ∧ rs_ballot snap = Some b
    ∧ ba_vote_counts b = ∅.
Proof.
  destruct (GetRound "round-1" (acct 4) (state_of sc_voted)) as [snap|e] eqn:E.
  - destruct (rs_ballot snap) as [b|] eqn:Eb.
    + assert (reachable (state_of sc_voted)) as HR by sc_reachable.
      destruct (GetRound_snapshot "round-1" (acct 4) (state_of sc_voted) snap b HR E Eb) as (Hr & Hs & _ & Hc & _).
      exists snap, b. split; [reflexivity|]. split; [exact Eb|]. apply Hc.
      revert E. vm_compute. intros [= <-]. discriminate.
    + exfalso. revert E Eb. vm_compute. intros [= <-]. discriminate.
  - exfalso. revert E. vm_compute. discriminate.
Defined.

Lemma call_refused_witness :
  fst (run_tx (exec (CallCloseBallot 16 "round-1" 2)) (state_of sc_voted)) = state_of sc_voted.
Proof.
  apply (call_refused (CallCloseBallot 16 "round-1" 2) (state_of sc_voted) (sc_round sc_voted) "round-1" RoundPhaseVoting).
  - vm_compute. reflexivity.
  - vm_compute. reflexivity.
  - right. exists 2. split; [reflexivity|]. vm_compute. discriminate.
Defined.
