(* ===== verification/ProfitSharingService.v ===== *)
(** * Profit sharing: the service

    [internal/profitsharing/service.go]: who may call what, what the answers show, and the
    errors.  A handler is a program over the calls of the store it makes; each call is one
    transaction or one read, and other handlers may run between any two of them.  Then what
    the service promises: only administrators run a round and only its participants propose
    and vote, drafts are private and ballots secret.  Every call of the store may fail, before
    or after it is committed ([fault]); an answer that is an error means that nothing changed,
    or that the one change of the request was committed and its answer or the read after it
    did not come back. *)

From S2P Require Import Prelude Prog Sql ProfitSharingTypes ProfitSharing ProfitSharingScenario ProfitSharingInv ProfitSharingVoting ProfitSharingFrame.
From S2P Require Import ProfitSharingTheorems.
From stdpp Require Import base tactics option list list_numbers sorting strings gmap.
From Stdlib Require Import ZArith Lia Ascii.
#[local] Open Scope Z_scope.

(** ** Messages *)
(** The fields every request has. *)
Record requester := { rq_account_id : string; rq_is_admin : bool }.
Record item_input_message := { iim_participant_account_id : string; iim_responsibility : string; iim_basis_points : Z; iim_basis_points_set : bool }.
Record participant_message := {
  pam_account_id : string; pam_username : string; pam_display_name : string; pam_display_order : Z; pam_baseline_responsibility : string;
  pam_proposal_progress_visible : bool; pam_submitted : bool }.
Record item_message := {
  itm_participant_account_id : string; itm_participant_username : string; itm_participant_display_name : string; itm_participant_display_order : Z;
  itm_responsibility : string; itm_basis_points : Z; itm_basis_points_set : bool }.
Record proposal_message := {
  prm_id : string; prm_label : string; prm_status : Z; prm_revision : Z; prm_author_account_id : string; prm_author_username : string;
  prm_author_display_name : string; prm_is_own : bool; prm_items : list item_message; prm_vote_count_visible : bool; prm_vote_count : Z;
  prm_is_final : bool }.
Record ballot_message := {
  bam_number : Z; bam_candidates : list proposal_message; bam_voted_count : Z; bam_participant_count : Z; bam_current_vote_proposal_id : string }.
Record summary_message := {
  sum_slug : string; sum_title : string; sum_phase : Z; sum_revision : Z; sum_participant_count : Z; sum_submitted_count : Z;
  sum_active_ballot_number : Z; sum_voted_count : Z; sum_created_at_unix : Z; sum_updated_at_unix : Z }.
Record round_message := {
  rom_summary : summary_message; rom_participants : list participant_message; rom_own_proposal : option proposal_message;
  rom_active_ballot : option ballot_message; rom_final_proposal_id : string; rom_opened_at_unix : Z; rom_published_at_unix : Z;
  rom_closed_at_unix : Z }.

Definition roundPhaseToProto (phase : RoundPhase) : Z :=
  match phase with RoundPhaseDraft => 1 | RoundPhaseCollecting => 2 | RoundPhaseVoting => 3 | RoundPhaseClosed => 4 end.
Definition proposalStatusToProto (s : ProposalStatus) : Z := match s with ProposalStatusDraft => 1 | ProposalStatusSubmitted => 2 end.
(** [time.Time.Unix]; a time is in nanoseconds since the zero time. *)
Definition time_unix (t : Z) : Z := t / 1000000000 - 62135596800.
Definition unixTime (value : option Z) : Z := match value with None => 0 | Some t => time_unix t end.
Definition containsParticipant (participants : list Participant) (accountID : string) : bool :=
  existsb (λ p, bool_decide (pa_account_id p = accountID)) participants.
Definition no_participant : Participant := {|
  pa_round_id := 0; pa_account_id := ""; pa_username := ""; pa_display_name := ""; pa_display_order := 0; pa_baseline_responsibility := "" |}.
Definition participantByAccount (participants : list Participant) : gmap string Participant :=
  foldl (λ m p, <[pa_account_id p := p]> m) ∅ participants.
Definition proposalToProto (proposal : Proposal) (participants : list Participant) (requester : string)
    (showAuthor showRevision showVoteCount : bool) (voteCount : Z) (isFinal : bool) : proposal_message :=
  let byAccount := participantByAccount participants in
  let author := default no_participant (byAccount !! pr_author_account_id proposal) in {|
  prm_id := pr_id proposal; prm_label := default EmptyString (pr_anonymous_label proposal); prm_status := proposalStatusToProto (pr_status proposal);
  prm_revision := if showRevision then pr_revision proposal else 0;
  prm_author_account_id := if showAuthor then pr_author_account_id proposal else EmptyString;
  prm_author_username := if showAuthor then pa_username author else EmptyString;
  prm_author_display_name := if showAuthor then pa_display_name author else EmptyString;
  prm_is_own := bool_decide (pr_author_account_id proposal = requester);
  prm_items := (λ i, let p := default no_participant (byAccount !! pri_participant_account_id i) in {|
      itm_participant_account_id := pri_participant_account_id i; itm_participant_username := pa_username p;
      itm_participant_display_name := pa_display_name p; itm_participant_display_order := pa_display_order p;
      itm_responsibility := pri_responsibility i; itm_basis_points := default 0 (pri_basis_points i);
      itm_basis_points_set := bool_decide (is_Some (pri_basis_points i)) |}) <$> pr_items proposal;
  prm_vote_count_visible := showVoteCount; prm_vote_count := voteCount; prm_is_final := isFinal |}.
Definition roundSummaryToProto (s : RoundSnapshot) : summary_message :=
  let r := rs_round s in {|
  sum_slug := r_slug r; sum_title := r_title r; sum_phase := roundPhaseToProto (r_phase r); sum_revision := r_revision r;
  sum_participant_count := wrap32 (Z.of_nat (length (rs_participants s)));
  sum_submitted_count := Z.of_nat (length (filter (λ p, pr_status p = ProposalStatusSubmitted) (rs_proposals s)));
  sum_active_ballot_number := match rs_ballot s with None => 0 | Some b => ba_number b end;
  sum_voted_count := match rs_ballot s with None => 0 | Some b => ba_voted_count b end;
  sum_created_at_unix := time_unix (r_created_at r); sum_updated_at_unix := time_unix (r_updated_at r) |}.
Definition proposalByAuthor (proposals : list Proposal) : gmap string Proposal :=
  foldl (λ m p, <[pr_author_account_id p := p]> m) ∅ proposals.
Definition ballotToProto (s : RoundSnapshot) (b : Ballot) (requester : string) : ballot_message :=
  let closed := bool_decide (r_phase (rs_round s) = RoundPhaseClosed) in {|
  bam_number := ba_number b; bam_participant_count := wrap32 (Z.of_nat (length (rs_participants s))); bam_voted_count := ba_voted_count b;
  bam_current_vote_proposal_id := match ba_current_vote b with None => EmptyString | Some v => vo_proposal_id v end;
  bam_candidates := (λ p, proposalToProto p (rs_participants s) requester closed false closed (default 0 (ba_vote_counts b !! pr_id p))
                            (bool_decide (r_final_proposal_id (rs_round s) = Some (pr_id p)))) <$> ba_candidates b |}.
Definition roundToProto (s : RoundSnapshot) (requester : string) (requesterIsAdmin : bool) : round_message :=
  let r := rs_round s in
  let byAuthor := proposalByAuthor (rs_proposals s) in {|
  rom_summary := roundSummaryToProto s; rom_final_proposal_id := default EmptyString (r_final_proposal_id r);
  rom_opened_at_unix := unixTime (r_opened_at r); rom_published_at_unix := unixTime (r_published_at r); rom_closed_at_unix := unixTime (r_closed_at r);
  rom_participants := (λ p,
    let shown := requesterIsAdmin && negb (bool_decide (r_phase r = RoundPhaseDraft)) in {|
    pam_account_id := pa_account_id p; pam_username := pa_username p; pam_display_name := pa_display_name p; pam_display_order := pa_display_order p;
    pam_baseline_responsibility := pa_baseline_responsibility p; pam_proposal_progress_visible := shown;
    pam_submitted := shown && match byAuthor !! pa_account_id p with
                              | Some q => bool_decide (pr_status q = ProposalStatusSubmitted) | None => false end |}) <$> rs_participants s;
  rom_own_proposal :=
    if negb requesterIsAdmin && bool_decide (r_phase r = RoundPhaseCollecting)
    then (λ q, proposalToProto q (rs_participants s) requester true true false 0 false) <$> byAuthor !! requester else None;
  rom_active_ballot :=
    match rs_ballot s with
    | Some b => if bool_decide (r_phase r = RoundPhaseVoting) || bool_decide (r_phase r = RoundPhaseClosed)
                then Some (ballotToProto s b requester) else None
    | None => None
    end |}.

(** ** Requests *)
Fixpoint participantInputsFromProto (inputs : list (option ParticipantInput)) : result rpc_error (list ParticipantInput) :=
  match inputs with
  | [] => Ok []
  | None :: _ => Err (status InvalidArgument "participant cannot be null")
  | Some input :: inputs' => rest ← participantInputsFromProto inputs'; Ok (input :: rest)
  end.
Fixpoint proposalItemInputsFromProto (inputs : list (option item_input_message)) : result rpc_error (list ProposalItemInput) :=
  match inputs with
  | [] => Ok []
  | None :: _ => Err (status InvalidArgument "proposal item cannot be null")
  | Some i :: inputs' =>
      rest ← proposalItemInputsFromProto inputs';
      Ok ({| ii_participant_account_id := iim_participant_account_id i; ii_responsibility := iim_responsibility i;
             ii_basis_points := if iim_basis_points_set i then Some (iim_basis_points i) else None |} :: rest)
  end.
Definition serviceError (err : PSError) : rpc_error :=
  {| st_message := None; st_code :=
     match err with
     | ErrRoundNotFound | ErrProposalNotFound | ErrBallotNotFound | ErrCandidateNotFound => NotFound
     | ErrRoundAlreadyExists => AlreadyExists
     | ErrRevisionConflict => Aborted
     | ErrNotParticipant | ErrSelfVote => PermissionDenied
     | ErrInvalidParticipants | ErrInvalidProposal => InvalidArgument
     | ErrInvalidPhase | ErrIncompleteProposal | ErrNotAllProposalsSubmitted | ErrNotAllVotesSubmitted | ErrNotConfigured => FailedPrecondition
     | ErrInvalidAccountID | ErrActiveBallotMissing | ErrNoRows | ErrDB _ => Internal
     end |}.

(** ** Handlers *)
(** The calls of the store. *)
Inductive svc_op :=
| SvListRounds (requester : string) (admin : bool)
| SvGetRound (slug requester : string)
| SvCreateRound (slug title : string) (inputs : list ParticipantInput)
| SvUpdateRound (current slug title : string) (inputs : list ParticipantInput) (expected : Z)
| SvOpenRound (slug : string) (expected : Z) (validated : list string)
| SvPublishRound (slug : string) (expected : Z)
| SvCloseBallot (slug : string) (expected : Z)
| SvUpdateProposal (slug author : string) (expected : Z) (items : list ProposalItemInput)
| SvSubmitProposal (slug author : string) (expected : Z)
| SvReopenProposal (slug author : string) (expected : Z)
| SvSubmitVote (slug : string) (number : Z) (voter proposal : string).
Definition svc_resp (o : svc_op) : Type :=
  result PSError
    match o with
    | SvListRounds _ _ => list RoundSnapshot
    | SvGetRound _ _ => RoundSnapshot
    | SvCreateRound _ _ _ | SvUpdateRound _ _ _ _ _ | SvOpenRound _ _ _ | SvPublishRound _ _ => Round
    | SvCloseBallot _ _ => CloseBallotResult
    | SvUpdateProposal _ _ _ _ | SvSubmitProposal _ _ _ | SvReopenProposal _ _ _ => Proposal
    | SvSubmitVote _ _ _ _ => Vote
    end.
Abbreviation svc_log := (list {o : svc_op & svc_resp o}).
#[local] Abbreviation prog := (program svc_resp).
(** [if err != nil { return nil, serviceError(err) }] *)
Definition stored {A} (p : prog (result PSError A)) : prog (result rpc_error A) :=
  r ← p; mret (match r with Ok a => Ok a | Err e => Err (serviceError e) end).
Definition must (b : bool) (e : rpc_error) : prog (result rpc_error unit) := mret (require b e).

(** The service. *)
Record Service := { sv_store : bool; sv_started : bool }.
Definition Start (s : Service) : Service * result rpc_error unit :=
  if negb (sv_store s) then (s, Err (status FailedPrecondition "profit sharing store is required"))
  else ({| sv_store := sv_store s; sv_started := true |}, Ok tt).
Definition Stop (s : Service) : Service := {| sv_store := sv_store s; sv_started := false |}.

Section Handlers.
Context {UL : UuidLib}.
Definition requestIdentity (accountID : string) (requesterIsAdmin : bool) : result rpc_error (string * bool) :=
  match uuid_parse (trim_space accountID) with
  | Some parsed => if (parsed =? 0)%N then Err (status Unauthenticated "requester_account_id must be a valid UUID")
                   else Ok (uuid_string parsed, requesterIsAdmin)
  | None => Err (status Unauthenticated "requester_account_id must be a valid UUID")
  end.
Definition requireAdmin (who : requester) : result rpc_error string :=
  identity ← requestIdentity (rq_account_id who) (rq_is_admin who);
  _ ← require (rq_is_admin who) (status PermissionDenied "administrator access is required");
  Ok identity.1.
Definition requireParticipantActor (who : requester) : result rpc_error string :=
  identity ← requestIdentity (rq_account_id who) (rq_is_admin who);
  _ ← require (negb (rq_is_admin who)) (status PermissionDenied "administrators cannot propose or vote");
  Ok identity.1.
Definition authorizedRound (slug requester : string) (requesterIsAdmin : bool) : prog (result rpc_error RoundSnapshot) :=
  _ ←! must (negb (bool_decide (trim_space slug = EmptyString))) (status InvalidArgument "slug is required");
  snapshot ←! stored (call (SvGetRound (trim_space slug) requester));
  _ ←! must (requesterIsAdmin || containsParticipant (rs_participants snapshot) requester)
         (status PermissionDenied "requester is not a participant in this round");
  mret (Ok snapshot).
Definition authorizeParticipant (slug requester : string) : prog (result rpc_error unit) :=
  _ ←! authorizedRound slug requester false;
  mret (Ok tt).
Definition positive (expected : Z) : prog (result rpc_error unit) :=
  must (0 <? expected) (status InvalidArgument "expected_revision must be positive").
(** The read after an administrator's call. *)
Definition show_round (slug requester : string) : prog (result rpc_error round_message) :=
  snapshot ←! stored (call (SvGetRound slug requester));
  mret (Ok (roundToProto snapshot requester true)).
(** The read after a participant's call on its proposal. *)
Definition show_proposal (slug requester : string) (proposal : Proposal) : prog (result rpc_error proposal_message) :=
  snapshot ←! stored (call (SvGetRound slug requester));
  mret (Ok (proposalToProto proposal (rs_participants snapshot) requester true true false 0 false)).

Definition svc_ListRounds (who : requester) : prog (result rpc_error (list summary_message)) :=
  identity ←! mret (requestIdentity (rq_account_id who) (rq_is_admin who));
  snapshots ←! stored (call (SvListRounds identity.1 identity.2));
  mret (Ok (roundSummaryToProto <$> snapshots)).
Definition svc_GetRound (who : requester) (slug : string) : prog (result rpc_error round_message) :=
  identity ←! mret (requestIdentity (rq_account_id who) (rq_is_admin who));
  snapshot ←! authorizedRound slug identity.1 identity.2;
  mret (Ok (roundToProto snapshot identity.1 identity.2)).
Definition svc_CreateRound (who : requester) (slug title : string) (inputs : list (option ParticipantInput)) : prog (result rpc_error round_message) :=
  requester ←! mret (requireAdmin who);
  participants ←! mret (participantInputsFromProto inputs);
  created ←! stored (call (SvCreateRound slug title participants));
  show_round (r_slug created) requester.
Definition svc_UpdateRound (who : requester) (current slug title : string) (inputs : list (option ParticipantInput)) (expected : Z) :
    prog (result rpc_error round_message) :=
  requester ←! mret (requireAdmin who);
  _ ←! positive expected;
  participants ←! mret (participantInputsFromProto inputs);
  updated ←! stored (call (SvUpdateRound current slug title participants expected));
  show_round (r_slug updated) requester.
Definition svc_OpenRound (who : requester) (slug : string) (expected : Z) (validated : list string) : prog (result rpc_error round_message) :=
  requester ←! mret (requireAdmin who);
  _ ←! positive expected;
  opened ←! stored (call (SvOpenRound slug expected validated));
  show_round (r_slug opened) requester.
Definition svc_PublishRound (who : requester) (slug : string) (expected : Z) : prog (result rpc_error round_message) :=
  requester ←! mret (requireAdmin who);
  _ ←! positive expected;
  published ←! stored (call (SvPublishRound slug expected));
  show_round (r_slug published) requester.
Definition svc_CloseBallot (who : requester) (slug : string) (expected : Z) : prog (result rpc_error (round_message * bool)) :=
  requester ←! mret (requireAdmin who);
  _ ←! positive expected;
  closed ←! stored (call (SvCloseBallot slug expected));
  round ←! show_round (r_slug (cbr_round closed)) requester;
  mret (Ok (round, cbr_runoff_created closed)).
Definition svc_UpdateProposal (who : requester) (slug : string) (expected : Z) (inputs : list (option item_input_message)) :
    prog (result rpc_error proposal_message) :=
  requester ←! mret (requireParticipantActor who);
  _ ←! positive expected;
  _ ←! authorizeParticipant slug requester;
  items ←! mret (proposalItemInputsFromProto inputs);
  proposal ←! stored (call (SvUpdateProposal slug requester expected items));
  show_proposal slug requester proposal.
Definition svc_SubmitProposal (who : requester) (slug : string) (expected : Z) : prog (result rpc_error proposal_message) :=
  requester ←! mret (requireParticipantActor who);
  _ ←! positive expected;
  _ ←! authorizeParticipant slug requester;
  proposal ←! stored (call (SvSubmitProposal slug requester expected));
  show_proposal slug requester proposal.
Definition svc_ReopenProposal (who : requester) (slug : string) (expected : Z) : prog (result rpc_error proposal_message) :=
  requester ←! mret (requireParticipantActor who);
  _ ←! positive expected;
  _ ←! authorizeParticipant slug requester;
  proposal ←! stored (call (SvReopenProposal slug requester expected));
  show_proposal slug requester proposal.
Definition svc_SubmitVote (who : requester) (slug : string) (number : Z) (proposalID : string) : prog (result rpc_error (string * Z)) :=
  requester ←! mret (requireParticipantActor who);
  _ ←! must (0 <? number) (status InvalidArgument "ballot_number must be positive");
  _ ←! must (negb (bool_decide (trim_space proposalID = EmptyString))) (status InvalidArgument "proposal_id is required");
  _ ←! authorizeParticipant slug requester;
  vote ←! stored (call (SvSubmitVote slug number requester proposalID));
  mret (Ok (vo_proposal_id vote, vo_ballot_number vote)).

(** ** The service against the store *)
Inductive svc_request :=
| ReqListRounds | ReqGetRound (slug : string)
| ReqCreateRound (slug title : string) (inputs : list (option ParticipantInput))
| ReqUpdateRound (current slug title : string) (inputs : list (option ParticipantInput)) (expected : Z)
| ReqOpenRound (slug : string) (expected : Z) (validated : list string)
| ReqPublishRound (slug : string) (expected : Z) | ReqCloseBallot (slug : string) (expected : Z)
| ReqUpdateProposal (slug : string) (expected : Z) (inputs : list (option item_input_message))
| ReqSubmitProposal (slug : string) (expected : Z) | ReqReopenProposal (slug : string) (expected : Z)
| ReqSubmitVote (slug : string) (number : Z) (proposal : string).
Inductive svc_answer :=
| AnsRounds (l : list summary_message) | AnsRound (r : round_message) | AnsClosed (r : round_message) (runoff : bool)
| AnsProposal (p : proposal_message) | AnsVote (proposal : string) (number : Z).
Definition answered {A} (f : A → svc_answer) (p : prog (result rpc_error A)) : prog (result rpc_error svc_answer) := a ←! p; mret (Ok (f a)).
Definition serve (who : requester) (q : svc_request) : prog (result rpc_error svc_answer) :=
  match q with
  | ReqListRounds => answered AnsRounds (svc_ListRounds who)
  | ReqGetRound slug => answered AnsRound (svc_GetRound who slug)
  | ReqCreateRound slug title inputs => answered AnsRound (svc_CreateRound who slug title inputs)
  | ReqUpdateRound current slug title inputs expected => answered AnsRound (svc_UpdateRound who current slug title inputs expected)
  | ReqOpenRound slug expected validated => answered AnsRound (svc_OpenRound who slug expected validated)
  | ReqPublishRound slug expected => answered AnsRound (svc_PublishRound who slug expected)
  | ReqCloseBallot slug expected => answered (λ r, AnsClosed r.1 r.2) (svc_CloseBallot who slug expected)
  | ReqUpdateProposal slug expected inputs => answered AnsProposal (svc_UpdateProposal who slug expected inputs)
  | ReqSubmitProposal slug expected => answered AnsProposal (svc_SubmitProposal who slug expected)
  | ReqReopenProposal slug expected => answered AnsProposal (svc_ReopenProposal who slug expected)
  | ReqSubmitVote slug number proposal => answered (λ v, AnsVote v.1 v.2) (svc_SubmitVote who slug number proposal)
  end.

Context {PT : PgText}.
(** A call that the database answers: [now], [id] and [fresh] are what the database and the UUID
    library draw for it. *)
Definition store_call (now id : Z) (fresh : nat → string) (o : svc_op) (db : DB) : DB * svc_resp o :=
  match o with
  | SvListRounds requester admin => (db, ListRounds requester admin db)
  | SvGetRound slug requester => (db, GetRound slug requester db)
  | SvCreateRound slug title inputs => run_tx (CreateRound now id slug title inputs) db
  | SvUpdateRound current slug title inputs expected => run_tx (UpdateRound now current slug title inputs expected) db
  | SvOpenRound slug expected validated => run_tx (OpenRound now fresh slug expected validated) db
  | SvPublishRound slug expected => run_tx (PublishRound now slug expected) db
  | SvCloseBallot slug expected => run_tx (CloseBallot now slug expected) db
  | SvUpdateProposal slug author expected items => run_tx (UpdateProposal now slug author expected items) db
  | SvSubmitProposal slug author expected => run_tx (SubmitProposal now slug author expected) db
  | SvReopenProposal slug author expected => run_tx (ReopenProposal now slug author expected) db
  | SvSubmitVote slug number voter proposal => run_tx (SubmitVote now slug number voter proposal) db
  end.
(** A request on its own, when the database answers every call. *)
Definition respond (now id : Z) (fresh : nat → string) (who : requester) (q : svc_request) (db : DB) : DB * result rpc_error svc_answer :=
  drive (store_call now id fresh) (serve who q) db.
(** What else becomes of a call, a read as well as a transaction: it fails and leaves nothing
    behind (no connection, a query or the commit that fails, a context that ends), or it is
    carried out and its answer is lost.  Both are wrapped database errors. *)
Inductive fault := Works | CallFails (message : string) | AnswerLost (message : string).
(** The database and the number of calls it has had from this request. *)
Record session := Session { ss_db : DB; ss_calls : nat }.
(** The store as a handler, with what becomes of each call. *)
Definition store_handle (now id : Z) (fresh : nat → string) (faults : nat → fault) (o : svc_op) (s : session) : session * svc_resp o :=
  let next db := Session db (S (ss_calls s)) in
  match faults (ss_calls s) with
  | Works => let '(db', r) := store_call now id fresh o (ss_db s) in (next db', r)
  | CallFails message => (next (ss_db s), Err (ErrDB message))
  | AnswerLost message => (next (store_call now id fresh o (ss_db s)).1, Err (ErrDB message))
  end.
(** A request on its own, whatever becomes of its calls. *)
Definition respond_under (now id : Z) (fresh : nat → string) (faults : nat → fault) (who : requester) (q : svc_request) (db : DB) :
    DB * result rpc_error svc_answer :=
  let '(s, r) := drive (store_handle now id fresh faults) (serve who q) (Session db 0) in (ss_db s, r).
End Handlers.

(** ** Who may do what *)
(** A monitor that keeps the log speaks about runs. *)
Lemma obeys_log {op} {resp : op → Type} {A} (allowed : list {o : op & resp o} → op → Prop) s (p : program resp A) Q log a :
  obeys (λ s o r, s ++ [existT o r]) allowed (λ _ _, True) s p Q → runs p log a →
  (∀ l1 o r l2, log = l1 ++ existT o r :: l2 → allowed (s ++ l1) o) ∧ Q (s ++ log) a.
Proof.
  revert s log. induction p as [b|o k IH]; intros s log; cbn.
  { intros H [-> ->]. rewrite app_nil_r. split; [by intros [|??] ???|done]. }
  intros [Ho Hk] (r & rest & -> & Hr). destruct (IH r (s ++ [existT o r]) rest) as [H1 H2]; [by apply Hk|done|]. rewrite <- app_assoc in H2.
  split; [|done]. intros [|e l1] o' r' l2 He; cbn in He.
  - rewrite app_nil_r. apply (f_equal head) in He. injection He as Ho' _. by subst o'.
  - injection He as <- ->. specialize (H1 _ _ _ _ eq_refl). by rewrite <- app_assoc in H1.
Qed.

Section Permissions.
Context {UL : UuidLib}.
Definition changes_state (o : svc_op) : bool := match o with SvListRounds _ _ | SvGetRound _ _ => false | _ => true end.
(** The canonical account of a requester. *)
Definition is_requester (who : requester) (account : string) : Prop :=
  ∃ u, uuid_parse (trim_space (rq_account_id who)) = Some u ∧ u ≠ 0%N ∧ account = uuid_string u.
Definition seen_participant (account : string) (slug : string) (log : svc_log) : Prop :=
  ∃ snapshot, existT (SvGetRound slug account) (Ok snapshot) ∈ log ∧ containsParticipant (rs_participants snapshot) account = true.
(** [before]: what the handler has asked the store so far. *)
Definition permitted (who : requester) (before : svc_log) (o : svc_op) : Prop :=
  match o with
  | SvListRounds account admin => is_requester who account ∧ admin = rq_is_admin who
  | SvGetRound _ account => is_requester who account
  | SvCreateRound _ _ _ | SvUpdateRound _ _ _ _ _ | SvOpenRound _ _ _ | SvPublishRound _ _ | SvCloseBallot _ _ => rq_is_admin who = true
  | SvUpdateProposal slug account _ _ | SvSubmitProposal slug account _ | SvReopenProposal slug account _ | SvSubmitVote slug _ account _ =>
      rq_is_admin who = false ∧ is_requester who account ∧ seen_participant account (trim_space slug) before
  end.
Definition succeeded (e : {o : svc_op & svc_resp o}) : Prop := is_ok (projT2 e) = true.
(** What the log of an answered request says. *)
Record accounted (who : requester) (q : svc_request) (log : svc_log) (a : result rpc_error svc_answer) : Prop := {
  ac_once : (length (filter (λ e, changes_state (projT1 e) = true) log) ≤ 1)%nat;
  ac_ok : is_ok a = true → Forall succeeded log
    ∧ (q = ReqListRounds ∨ rq_is_admin who = true ∨ ∃ account slug, is_requester who account ∧ seen_participant account slug log) }.

Abbreviation watched who s p Q := (obeys (λ l o r, l ++ [existT o r]) (permitted who) (λ _ _, True) s p Q).
Lemma watch_ret {A B} who s (r : result rpc_error A) (k : A → program svc_resp (result rpc_error B)) Q :
  (∀ a, r = Ok a → watched who s (k a) Q) → (∀ e, Q s (Err e)) → watched who s (prog_try k (mret r)) Q.
Proof. intros Hk He. destruct r as [a|e]; cbn; [by apply Hk|apply He]. Qed.
Lemma watch_answered {A} who s (f : A → svc_answer) p Q :
  watched who s p (λ s' a, Q s' (match a with Ok x => Ok (f x) | Err e => Err e end)) → watched who s (answered f p) Q.
Proof. intros H. unfold answered, prog_try. apply obeys_bind. eapply obeys_mono; [exact H|]. by intros s' [a|e]. Qed.
Lemma identity_ok account admin x : requestIdentity account admin = Ok x →
  ∃ u, uuid_parse (trim_space account) = Some u ∧ u ≠ 0%N ∧ x = (uuid_string u, admin).
Proof. unfold requestIdentity. destruct (uuid_parse _) as [u|]; [|done]. destruct (N.eqb_spec u 0); [done|]. intros [= <-]. eauto. Qed.
Lemma admin_ok who x : requireAdmin who = Ok x → rq_is_admin who = true ∧ is_requester who x.
Proof.
  unfold requireAdmin. intros H. apply result_bind_ok in H as (i & (u & Hu & Hz & ->)%identity_ok & H). apply result_bind_ok in H as ([] & Ha%require_ok & [= <-]).
  split; [done|]. by exists u.
Qed.
Lemma actor_ok who x : requireParticipantActor who = Ok x → rq_is_admin who = false ∧ is_requester who x.
Proof.
  unfold requireParticipantActor. intros H. apply result_bind_ok in H as (i & (u & Hu & Hz & ->)%identity_ok & H).
  apply result_bind_ok in H as ([] & Ha%require_ok%negb_true_iff & [= <-]). split; [done|]. by exists u.
Qed.
(** The check of a participant, before a call in its name. *)
Lemma watch_participant {B} who slug account (k : unit → program svc_resp (result rpc_error B)) Q : is_requester who account →
  (∀ snapshot, containsParticipant (rs_participants snapshot) account = true →
     watched who [existT (SvGetRound (trim_space slug) account) (Ok snapshot)] (k tt) Q) →
  (∀ e, Q [] (Err e)) → (∀ r e, Q [existT (SvGetRound (trim_space slug) account) r] (Err e)) →
  watched who [] (prog_try k (authorizeParticipant slug account)) Q.
Proof.
  intros Hr Hk H0 H1. unfold authorizeParticipant, authorizedRound, must, prog_try, stored. destruct (negb _); cbn; [|apply H0]. split; [done|].
  intros [snapshot|e] _; cbn; [|apply H1]. destruct (containsParticipant _ _) eqn:E; cbn; [by apply Hk|apply H1].
Qed.
Ltac account := constructor; [cbn; repeat (case_decide; cbn); first [discriminate|lia]|intros Hok; first [discriminate Hok|split; [repeat (constructor; [done|]); constructor|]]].
(** One call of the store and what its reply leads to. *)
Ltac store_call := unfold show_round, show_proposal, stored; cbn; split; [|intros [?|?] _; cbn; [|account]].
Ltac by_admin := apply watch_ret; [|intros; account]; intros x [Ha Hr]%admin_ok.
Ltac by_participant :=
  apply watch_ret; [|intros; account]; intros x [Ha Hr]%actor_ok; apply watch_ret; [|intros; account]; intros [] _;
  apply watch_participant; [done| |intros; account..]; intros snapshot Hs.
Ltac by_seen := split; [done|]; split; [done|]; eexists; split; [constructor|done].
Ltac by_shown := right; right; eexists _, _; split; [done|]; eexists; split; [constructor|done].
Lemma serve_watched who q : watched who [] (serve who q) (accounted who q).
Proof.
  destruct q; cbn [serve]; apply watch_answered.
  - apply watch_ret; [|intros; account]. intros x (u & Hu & Hz & ->)%identity_ok. store_call; [split; [by exists u|done]|]. account. by left.
  - apply watch_ret; [|intros; account]. intros x (u & Hu & Hz & ->)%identity_ok. unfold authorizedRound, must, prog_try. destruct (negb _); cbn; [|account].
    split; [by exists u|]. intros [snapshot|e] _; cbn; [|account]. destruct (_ || _) eqn:E; cbn; [|account]. account. right.
    apply orb_true_iff in E as [E|E]; [by left|right]. exists (uuid_string u), (trim_space slug). split; [by exists u|]. exists snapshot. split; [constructor|done].
  - by_admin. apply watch_ret; [|intros; account]. intros ps _. store_call; [done|]. store_call; [done|]. account. auto.
  - by_admin. apply watch_ret; [|intros; account]. intros [] _. apply watch_ret; [|intros; account]. intros ps _. store_call; [done|]. store_call; [done|]. account. auto.
  - by_admin. apply watch_ret; [|intros; account]. intros [] _. store_call; [done|]. store_call; [done|]. account. auto.
  - by_admin. apply watch_ret; [|intros; account]. intros [] _. store_call; [done|]. store_call; [done|]. account. auto.
  - by_admin. apply watch_ret; [|intros; account]. intros [] _. store_call; [done|]. store_call; [done|]. account. auto.
  - by_participant. apply watch_ret; [|intros; account]. intros its _. store_call; [by_seen|]. store_call; [done|]. account. by_shown.
  - by_participant. store_call; [by_seen|]. store_call; [done|]. account. by_shown.
  - by_participant. store_call; [by_seen|]. store_call; [done|]. account. by_shown.
  - apply watch_ret; [|intros; account]. intros x [Ha Hr]%actor_ok. apply watch_ret; [|intros; account]. intros [] _. apply watch_ret; [|intros; account]. intros [] _.
    apply watch_participant; [done| |intros; account..]. intros snapshot Hs. store_call; [by_seen|]. account. by_shown.
Qed.

(** C12: Whatever the store answers and whatever other requests do in between, a request makes
    only permitted calls of the store: creating, editing, opening, publishing and closing only
    for an administrator; proposing and voting only for a requester that is no administrator,
    in its own name, and after a read that shows it among the participants of the round; and
    every read in its own name.  It makes at most one call that changes anything, and answers
    without an error only when all its calls succeeded and, lists apart, to an administrator
    or a participant it has seen in the round. *)
Theorem service_permissions who q (log : svc_log) a : runs (serve who q) log a →
  (∀ l1 o r l2, log = l1 ++ existT o r :: l2 → permitted who l1 o) ∧ accounted who q log a.
Proof. apply (obeys_log (permitted who) []), serve_watched. Qed.
End Permissions.

(** ** Secrets *)
Section Secrets.
Context {UL : UuidLib} {PT : PgText}.
(** A snapshot as the service reads it. *)
Definition seen_by (account : string) (admin : bool) (r : result PSError RoundSnapshot) : result rpc_error svc_answer :=
  match r with
  | Err e => Err (serviceError e)
  | Ok s => if admin || containsParticipant (rs_participants s) account then Ok (AnsRound (roundToProto s account admin))
            else Err (status PermissionDenied "requester is not a participant in this round")
  end.
Lemma get_round_reply now id fresh who slug account db : is_requester who account →
  respond now id fresh who (ReqGetRound slug) db
  = (db, if bool_decide (trim_space slug = EmptyString) then Err (status InvalidArgument "slug is required")
         else seen_by account (rq_is_admin who) (GetRound (trim_space slug) account db)).
Proof.
  intros (u & Hu & Hz & ->). unfold respond, serve, svc_GetRound, requestIdentity. rewrite Hu, (proj2 (N.eqb_neq u 0) Hz). cbn.
  unfold authorizedRound, answered. case_bool_decide; [done|]. cbn. destruct (GetRound _ _ db) as [s|e]; cbn; [|done]. by destruct (rq_is_admin who || _).
Qed.

(** Two proposals that look alike to an account, and two databases whose round [r] and
    its ballot [n] do: they differ in the authors and times of other proposals and in the votes
    of others. *)
Definition own (account : string) (p : ProfitSharingProposal) : Prop := accountIDFromUUID (Some (pp_author_account_id p)) = account.
Record alike_proposal (account : string) (p q : ProfitSharingProposal) : Prop := {
  lp_shown : (pp_id p, pp_status p, pp_anonymous_label p) = (pp_id q, pp_status q, pp_anonymous_label q);
  lp_own : own account p ↔ own account q }.
Record alike_voting (account : string) (r : ProfitSharingRound) (n : Z) (db1 db2 : DB) : Prop := {
  lv_active : r_active_ballot_number r = Some n;
  lv_participants : ListProfitSharingParticipants (r_id r) db1 = ListProfitSharingParticipants (r_id r) db2;
  lv_ballots : ListProfitSharingBallots (r_id r) db1 = ListProfitSharingBallots (r_id r) db2;
  lv_candidates : Forall2 (λ p q, alike_proposal account p q
      ∧ ListProfitSharingProposalItems (r_id r) (pp_id p) db1 = ListProfitSharingProposalItems (r_id r) (pp_id q) db2)
    (ListProfitSharingBallotCandidates (r_id r) n db1) (ListProfitSharingBallotCandidates (r_id r) n db2);
  lv_voted : CountProfitSharingBallotVotes (r_id r) n db1 = CountProfitSharingBallotVotes (r_id r) n db2;
  lv_own_vote : ∀ u, accountUUID account = Ok u →
    v_proposal_id <$> GetProfitSharingVote (r_id r) n u db1 = v_proposal_id <$> GetProfitSharingVote (r_id r) n u db2 }.
Record alike_ballot (account : string) (b1 b2 : Ballot) : Prop := {
  lb_counts : (ba_number b1, ba_voted_count b1) = (ba_number b2, ba_voted_count b2);
  lb_vote : vo_proposal_id <$> ba_current_vote b1 = vo_proposal_id <$> ba_current_vote b2;
  lb_hidden : ba_vote_counts b1 = ∅ ∧ ba_vote_counts b2 = ∅;
  lb_candidates : Forall2 (λ p q, (pr_id p, pr_status p, pr_anonymous_label p, pr_items p) = (pr_id q, pr_status q, pr_anonymous_label q, pr_items q)
    ∧ (pr_author_account_id p = account ↔ pr_author_account_id q = account)) (ba_candidates b1) (ba_candidates b2) }.
(** Two snapshots of a voting round that show the same. *)
Record alike_snapshot (account : string) (s1 s2 : RoundSnapshot) : Prop := {
  ls_round : rs_round s1 = rs_round s2;
  ls_participants : rs_participants s1 = rs_participants s2;
  ls_submitted : ∀ s p, s = s1 ∨ s = s2 → p ∈ rs_participants s →
    ∃ q, proposalByAuthor (rs_proposals s) !! pa_account_id p = Some q ∧ pr_status q = ProposalStatusSubmitted;
  ls_count : length (filter (λ p, pr_status p = ProposalStatusSubmitted) (rs_proposals s1))
    = length (filter (λ p, pr_status p = ProposalStatusSubmitted) (rs_proposals s2));
  ls_ballot : option_Forall2 (alike_ballot account) (rs_ballot s1) (rs_ballot s2) }.
Lemma alike_message account admin s1 s2 : alike_snapshot account s1 s2 → r_phase (rs_round s1) = RoundPhaseVoting →
  roundToProto s1 account admin = roundToProto s2 account admin.
Proof.
  intros L Hph. unfold roundToProto, roundSummaryToProto. cbv zeta. rewrite <- (ls_round _ _ _ L), Hph. rewrite !(bool_decide_false (RoundPhaseVoting = _)) by done.
  rewrite (ls_count _ _ _ L), (bool_decide_true (RoundPhaseVoting = _)) by done. rewrite andb_false_r, orb_true_l.
  pose proof (ls_participants _ _ _ L) as Hp. pose proof (ls_ballot _ _ _ L) as Hb.
  assert (∀ b1 b2, rs_ballot s1 = Some b1 → rs_ballot s2 = Some b2 → ballotToProto s1 b1 account = ballotToProto s2 b2 account) as Hm.
  { intros b1 b2 H1 H2. rewrite H1, H2 in Hb. inversion Hb as [? ? [Hn Hv [C1 C2] Hc]|]; subst. injection Hn as Hn1 Hn2. unfold ballotToProto. cbv zeta.
    rewrite <- (ls_round _ _ _ L), Hph, Hp, C1, C2, Hn1, Hn2, (bool_decide_false (RoundPhaseVoting = _)) by done. f_equal.
    - clear -Hc. induction Hc as [|p q l k [He Ho] _ IH]; [done|]. rewrite !fmap_cons, IH. f_equal. injection He as H1 H2 H3 H4.
      unfold proposalToProto. cbv zeta. rewrite H1, H2, H3, H4. f_equal. by apply bool_decide_ext.
    - destruct (ba_current_vote b1), (ba_current_vote b2); cbn in Hv; congruence. }
  assert (match rs_ballot s1 with Some b => Some (ballotToProto s1 b account) | None => None end
          = match rs_ballot s2 with Some b => Some (ballotToProto s2 b account) | None => None end) as ->.
  { inversion Hb as [b1 b2 HH E1 E2|E1 E2]; [|done]. rewrite <- E1, <- E2 in *. by rewrite (Hm b1 b2). }
  assert (match rs_ballot s1 with Some b => ba_number b | None => 0 end = match rs_ballot s2 with Some b => ba_number b | None => 0 end) as ->
    by (inversion Hb as [? ? [[= ? ?]]|]; done).
  assert (match rs_ballot s1 with Some b => ba_voted_count b | None => 0 end = match rs_ballot s2 with Some b => ba_voted_count b | None => 0 end) as ->
    by (inversion Hb as [? ? [[= ? ?]]|]; done).
  rewrite Hp. f_equal. apply list_fmap_ext. intros k p Hk%list_elem_of_lookup_2. f_equal.
  destruct (ls_submitted _ _ _ L s1 p) as (q1 & -> & H1); [by left|by rewrite Hp|]. destruct (ls_submitted _ _ _ L s2 p) as (q2 & -> & H2); [by right|done|].
  by rewrite H1, H2.
Qed.
Lemma by_author_lookup (l : list Proposal) a : (∃ q, q ∈ l ∧ pr_author_account_id q = a) → ∃ q, proposalByAuthor l !! a = Some q ∧ q ∈ l.
Proof.
  unfold proposalByAuthor. induction l as [|q l IH] using rev_ind; [by intros (q & ?%not_elem_of_nil & _)|]. intros (q' & Hq & Ha). rewrite foldl_app. cbn [foldl].
  destruct (decide (pr_author_account_id q = a)) as [->|Hne]; [rewrite lookup_insert_eq; eexists; split; [done|set_solver]|].
  rewrite lookup_insert_ne by done. apply elem_of_app in Hq as [Hq|Hq%list_elem_of_singleton]; [|by subst]. destruct IH as (x & ? & ?); [eauto|]. exists x. set_solver.
Qed.
(** Every participant of a round that is voted on is the author of one of its proposals. *)
Lemma everyone_proposed db r p : Inv db → r ∈ rounds db → r_phase r = RoundPhaseVoting → p ∈ round_participants (r_id r) db →
  ∃ q, q ∈ round_proposals (r_id r) db ∧ pp_author_account_id q = pt_account_id p.
Proof.
  intros I Hr Hph Hp. pose proof (ph_round _ I r Hr) as Ho. unfold phase_ok in Ho. rewrite Hph in Ho. destruct Ho as ([H5 H5'] & _).
  assert (pp_author_account_id <$> round_proposals (r_id r) db ≡ₚ pt_account_id <$> round_participants (r_id r) db) as Hperm.
  { apply submseteq_length_Permutation; [|by rewrite !length_fmap, H5, H5']. apply NoDup_submseteq.
    - pose proof (NoDup_sql_many author_key (λ q, pp_round_id q =? r_id r) _ (k_author _ I)) as K. apply (NoDup_fmap_1 (pair (r_id r))). rewrite <- list_fmap_compose.
      erewrite list_fmap_ext; [exact K|]. intros k q [Hk%Z.eqb_eq _]%list_elem_of_lookup_2%elem_of_sql_many. cbn. unfold author_key. by rewrite Hk.
    - intros a (q & -> & [Hk%Z.eqb_eq Hq]%elem_of_sql_many)%list_elem_of_fmap. destruct (ref_prop _ I q Hq) as (x & Hx & Hk'). injection Hk' as Hk1 Hk2.
      apply list_elem_of_fmap. exists x. split; [done|]. apply elem_of_sql_many. split; [apply Z.eqb_eq; congruence|done]. }
  assert (pt_account_id p ∈ pp_author_account_id <$> round_proposals (r_id r) db) as (q & Hq & Hin)%list_elem_of_fmap
    by (rewrite Hperm; apply list_elem_of_fmap; eauto). by exists q.
Qed.
Lemma all_proposals_submitted db r : Inv db → r ∈ rounds db → r_phase r = RoundPhaseVoting →
  (∀ q, q ∈ snapshot_proposals r db → pr_status q = ProposalStatusSubmitted)
  ∧ length (filter (λ q, pr_status q = ProposalStatusSubmitted) (snapshot_proposals r db)) = requiredParticipantCount
  ∧ ∀ p, p ∈ participantFromSQLC <$> ListProfitSharingParticipants (r_id r) db →
      ∃ q, proposalByAuthor (snapshot_proposals r db) !! pa_account_id p = Some q ∧ pr_status q = ProposalStatusSubmitted.
Proof.
  intros I Hr Hph. pose proof (ph_round _ I r Hr) as Ho. unfold phase_ok in Ho. rewrite Hph in Ho. destruct Ho as ([_ H5] & Hall & _).
  assert (∀ q, q ∈ snapshot_proposals r db → pr_status q = ProposalStatusSubmitted) as Hs.
  { intros q (x & -> & Hx)%list_elem_of_fmap. apply sorted_proposals_elem in Hx as [Hx Hk]. cbn. by apply Hall. }
  split; [done|]. split.
  - assert (∀ l : list Proposal, (∀ q, q ∈ l → pr_status q = ProposalStatusSubmitted) → filter (λ q, pr_status q = ProposalStatusSubmitted) l = l) as Hf.
    { induction l as [|q l IH]; intros H; [done|]. rewrite filter_cons_True by (apply H; constructor). f_equal. apply IH. intros x Hx. apply H. by constructor. }
    rewrite (Hf _ Hs). unfold snapshot_proposals, ListProfitSharingProposals. rewrite length_fmap, sort_by_Permutation. exact H5.
  - intros p (x & -> & Hx)%list_elem_of_fmap. unfold ListProfitSharingParticipants in Hx. rewrite sort_by_elem in Hx.
    destruct (everyone_proposed db r x I Hr Hph Hx) as (q & [Hk%Z.eqb_eq Hq]%elem_of_sql_many & Ha).
    destruct (by_author_lookup (snapshot_proposals r db) (pa_account_id (participantFromSQLC x))) as (y & Hy & Hin); [|exists y; auto].
    eexists. split; [apply list_elem_of_fmap; exists q; split; [done|by apply sorted_proposals_elem]|]. cbn. by rewrite Ha.
Qed.
Lemma ballot_alike account r db1 db2 number status created closed v1 v2 : Inv db1 → Inv db2 → alike_voting account r number db1 db2 →
  vo_proposal_id <$> v1 = vo_proposal_id <$> v2 →
  let ballot v db := {| ba_round_id := r_id r; ba_number := number; ba_status := status; ba_created_at := created; ba_closed_at := closed;
    ba_candidates := snapshot_candidate (snapshot_proposals r db) (proposal_index (snapshot_proposals r db)) <$> ListProfitSharingBallotCandidates (r_id r) number db;
    ba_vote_counts := ∅; ba_voted_count := CountProfitSharingBallotVotes (r_id r) number db; ba_current_vote := v |} in
  alike_ballot account (ballot v1 db1) (ballot v2 db2).
Proof.
  intros I1 I2 A Hv. cbv zeta. split; cbn [ba_number ba_voted_count ba_current_vote ba_vote_counts ba_candidates].
  - by rewrite (lv_voted _ _ _ _ _ A).
  - done.
  - done.
  - rewrite (snapshot_candidates_spec r number db1 I1), (snapshot_candidates_spec r number db2 I2). apply Forall2_fmap.
    eapply Forall2_impl; [apply (lv_candidates _ _ _ _ _ A)|]. intros p q [[Hs Ho] Hi]. injection Hs as H1 H2 H3. cbn. by rewrite H2, H3, Hi, H1.
Qed.
Lemma load_alike account r n db1 db2 : Inv db1 → Inv db2 → r ∈ rounds db1 → r ∈ rounds db2 → r_phase r = RoundPhaseVoting →
  alike_voting account r n db1 db2 →
  match loadRoundSnapshot r account db1, loadRoundSnapshot r account db2 with
  | Ok s1, Ok s2 => alike_snapshot account s1 s2 ∧ rs_round s1 = r
  | Err e1, Err e2 => e1 = e2
  | _, _ => False
  end.
Proof.
  intros I1 I2 Hr1 Hr2 Hph A. destruct (all_proposals_submitted db1 r I1 Hr1 Hph) as (_ & C1 & S1). destruct (all_proposals_submitted db2 r I2 Hr2 Hph) as (_ & C2 & S2).
  unfold loadRoundSnapshot. cbv zeta. rewrite <- (lv_ballots _ _ _ _ _ A), Hph, (bool_decide_false (RoundPhaseVoting = _)) by done.
  assert (∀ b1 b2, option_Forall2 (alike_ballot account) b1 b2 →
    alike_snapshot account {| rs_round := roundFromSQLC r; rs_participants := participantFromSQLC <$> ListProfitSharingParticipants (r_id r) db1;
      rs_proposals := snapshot_proposals r db1; rs_ballot := b1 |} {| rs_round := roundFromSQLC r;
      rs_participants := participantFromSQLC <$> ListProfitSharingParticipants (r_id r) db2; rs_proposals := snapshot_proposals r db2; rs_ballot := b2 |}) as Hs.
  { intros b1 b2 Hb. split; cbn; [done|by rewrite (lv_participants _ _ _ _ _ A)| |congruence|done]. intros s p [->| ->] Hp; [by apply S1|by apply S2]. }
  rewrite (lv_active _ _ _ _ _ A). destruct (sql_one _ _) as [b|] eqn:Eb; cbn [of_option mbind result_bind]; [|done].
  apply sql_one_Some in Eb as [_ ->%Z.eqb_eq].
  destruct (bool_decide _); cbn [mret result_ret mbind result_bind]; [split; [apply Hs; constructor; by apply ballot_alike|done]|].
  destruct (accountUUID account) as [u|e] eqn:Eu; cbn [mbind result_bind mret result_ret]; [|done].
  split; [|done]. apply Hs. constructor. apply ballot_alike; [done..|]. pose proof (lv_own_vote _ _ _ _ _ A u Eu) as Hv.
  destruct (GetProfitSharingVote _ _ _ db1), (GetProfitSharingVote _ _ _ db2); cbn in *; congruence.
Qed.

(** C7: Ballots are secret.  While a round is voted on, what any requester is told about it, an
    administrator too, does not depend on who wrote the other proposals, when, and how often
    they were changed, nor on whom the others voted for: in two reachable states of the round
    that differ in nothing else the answers are the same. *)
Theorem ballot_secret now id fresh who slug account r n db1 db2 :
  reachable db1 → reachable db2 → is_requester who account →
  GetProfitSharingRoundBySlug (trim_space slug) db1 = Some r → GetProfitSharingRoundBySlug (trim_space slug) db2 = Some r →
  r_phase r = RoundPhaseVoting → alike_voting account r n db1 db2 →
  (respond now id fresh who (ReqGetRound slug) db1).2 = (respond now id fresh who (ReqGetRound slug) db2).2.
Proof.
  intros I1%Inv_reachable I2%Inv_reachable Hw H1 H2 Hph A. rewrite !(get_round_reply _ _ _ _ _ account) by done. cbn [snd]. destruct (bool_decide _); [done|].
  unfold GetRound. rewrite H1, H2. cbn [of_option mbind result_bind]. apply sql_one_Some in H1 as [Hr1 _], H2 as [Hr2 _].
  pose proof (load_alike account r n db1 db2 I1 I2 Hr1 Hr2 Hph A) as Hl.
  destruct (loadRoundSnapshot r account db1) as [s1|e1], (loadRoundSnapshot r account db2) as [s2|e2]; cbn [seen_by]; try done; [|by subst].
  destruct Hl as [L Hr]. rewrite (ls_participants _ _ _ L). rewrite (alike_message _ _ _ _ L) by congruence. done.
Qed.

(** ** Drafts *)
#[export] Instance own_dec account p : Decision (own account p) := _ : Decision (_ = account).
(** Two databases whose round [rid] differs in the proposals of others only. *)
Record alike_collecting (account : string) (rid : Z) (db1 db2 : DB) : Prop := {
  lc_participants : ListProfitSharingParticipants rid db1 = ListProfitSharingParticipants rid db2;
  lc_own : filter (own account) (ListProfitSharingProposals rid db1) = filter (own account) (ListProfitSharingProposals rid db2);
  lc_items : ∀ p, p ∈ filter (own account) (ListProfitSharingProposals rid db1) →
    ListProfitSharingProposalItems rid (pp_id p) db1 = ListProfitSharingProposalItems rid (pp_id p) db2;
  lc_submitted : length (filter (λ p, pp_status p = ProposalStatusSubmitted) (ListProfitSharingProposals rid db1))
    = length (filter (λ p, pp_status p = ProposalStatusSubmitted) (ListProfitSharingProposals rid db2)) }.
Lemma by_author_last (l : list Proposal) a : proposalByAuthor l !! a = last (filter (λ q, pr_author_account_id q = a) l).
Proof.
  unfold proposalByAuthor. induction l as [|q l IH] using rev_ind; [done|]. rewrite foldl_app, filter_app. cbn [foldl]. rewrite filter_cons, filter_nil. case_decide as Ha.
  - by rewrite Ha, lookup_insert_eq, last_snoc.
  - by rewrite lookup_insert_ne, app_nil_r.
Qed.
Lemma filter_read {A B} (f : A → B) (P : B → Prop) (Q : A → Prop) `{!∀ x, Decision (P x), !∀ x, Decision (Q x)} (l : list A) :
  (∀ x, P (f x) ↔ Q x) → filter P (f <$> l) = f <$> filter Q l.
Proof. intros Hiff. induction l as [|x l IH]; [done|]. rewrite fmap_cons, !filter_cons, IH. pose proof (Hiff x). by repeat case_decide; try tauto. Qed.
Lemma own_proposal_read account r db : filter (λ q, pr_author_account_id q = account) (snapshot_proposals r db)
  = (λ p, proposalFromSQLC p (ListProfitSharingProposalItems (r_id r) (pp_id p) db)) <$> filter (own account) (ListProfitSharingProposals (r_id r) db).
Proof. by apply filter_read. Qed.
Lemma submitted_read r db : length (filter (λ q, pr_status q = ProposalStatusSubmitted) (snapshot_proposals r db))
  = length (filter (λ p, pp_status p = ProposalStatusSubmitted) (ListProfitSharingProposals (r_id r) db)).
Proof. unfold snapshot_proposals. rewrite (filter_read _ _ (λ p, pp_status p = ProposalStatusSubmitted)) by done. apply length_fmap. Qed.

(** C22: Drafts are private.  While the proposals of a round are collected, what a participant
    is told about the round depends, besides the round and its participants, only on its own
    proposal and on how many proposals are submitted: the other drafts, who has submitted, and
    when, make no difference. *)
Theorem drafts_private now id fresh who slug account r db1 db2 :
  reachable db1 → is_requester who account → rq_is_admin who = false →
  GetProfitSharingRoundBySlug (trim_space slug) db1 = Some r → GetProfitSharingRoundBySlug (trim_space slug) db2 = Some r →
  r_phase r = RoundPhaseCollecting → alike_collecting account (r_id r) db1 db2 →
  (respond now id fresh who (ReqGetRound slug) db1).2 = (respond now id fresh who (ReqGetRound slug) db2).2.
Proof.
  intros I1%Inv_reachable Hw Ha H1 H2 Hph A. rewrite !(get_round_reply _ _ _ _ _ account), Ha by done. cbn [snd]. destruct (bool_decide _); [done|].
  unfold GetRound. rewrite H1, H2. cbn [of_option mbind result_bind]. apply sql_one_Some in H1 as [Hr1 _].
  pose proof (ph_round _ I1 r Hr1) as Ho. unfold phase_ok in Ho. rewrite Hph in Ho. destruct Ho as (_ & Hn & _).
  unfold loadRoundSnapshot. cbv zeta. rewrite Hn. cbn [seen_by rs_participants orb]. rewrite <- (lc_participants _ _ _ _ A). destruct (containsParticipant _ _); [|done].
  unfold roundToProto, roundSummaryToProto. cbv zeta. cbn [rs_round rs_participants rs_proposals rs_ballot andb negb]. rewrite !submitted_read, (lc_submitted _ _ _ _ A).
  do 3 f_equal. rewrite !by_author_last, !own_proposal_read, <- (lc_own _ _ _ _ A).
  destruct (bool_decide _); [|done]. do 2 f_equal. apply list_fmap_ext. intros k p Hk%list_elem_of_lookup_2. by rewrite (lc_items _ _ _ _ A).
Qed.
End Secrets.

(** ** Errors *)
Section Errors.
Context {UL : UuidLib} {UW : UuidLaws} {PT : PgText}.
(** The active ballot of a round exists, so that the round can be read. *)
Definition has_ballot (db : DB) (rid n : Z) : Prop := (rid, n) ∈ ballot_key <$> ballots db.
Definition ballots_there (db : DB) : Prop := ∀ r n, r ∈ rounds db → r_active_ballot_number r = Some n → has_ballot db (r_id r) n.
Definition safe {A} (m : ps_tx A) : Prop := ∀ db db' a, ballots_there db → m db = Ok (db', a) → ballots_there db'.
Lemma safe_bind {A B} (m : ps_tx A) (f : A → ps_tx B) : safe m → (∀ a, safe (f a)) → safe (m ≫= f).
Proof. intros Hm Hf db db' b H (s & a & H1 & H2)%tx_bind_ok. eapply Hf; [|exact H2]. by eapply Hm. Qed.
Lemma safe_no_rows {A} (m : ps_tx A) e : safe m → safe (on_no_rows m e).
Proof. intros Hm db db' x H Hok%on_no_rows_ok. by eapply Hm. Qed.
Lemma safe_constraint {A} (m : ps_tx A) c e : safe m → safe (on_constraint m c e).
Proof. intros Hm db db' x H Hok%on_constraint_ok. by eapply Hm. Qed.
Lemma safe_update_proposal p f : safe (update_proposal p f).
Proof. intros db db' x H (r & _ & _ & _ & ->)%update_proposal_ok. exact H. Qed.
Lemma safe_insert_items rows : safe (insert_items rows).
Proof. intros db db' x H (-> & _)%insert_items_ok. exact H. Qed.
Lemma safe_createParticipants rid inputs : safe (createParticipants rid inputs).
Proof. intros db db' x H (rows & -> & _)%createParticipants_ok. exact H. Qed.
Lemma safe_Upsert now rid n v p a : safe (UpsertProfitSharingVote now rid n v p a).
Proof. intros db db' x H Hok. unfold UpsertProfitSharingVote in Hok. tx_inv. destruct (sql_one _ _); tx_inv; exact H. Qed.
Lemma safe_lock_proposal rid a : safe (lockProposalByAuthor rid a).
Proof. intros db db' x H (-> & _)%lockProposalByAuthor_ok. done. Qed.
Lemma safe_lock_round slug : safe (lockRoundBySlug slug).
Proof. intros db db' x H (-> & _)%lockRoundBySlug_ok. done. Qed.
Lemma safe_Delete rid : safe (DeleteProfitSharingParticipants rid).
Proof. intros db db' x H Hok. unfold DeleteProfitSharingParticipants in Hok. tx_inv. exact H. Qed.
Lemma safe_BatchProposals now rid rows : safe (BatchCreateProfitSharingProposals now rid rows).
Proof. intros db db' x H Hok. unfold BatchCreateProfitSharingProposals in Hok. tx_inv. exact H. Qed.
Lemma safe_DeleteItems rid p : safe (DeleteProfitSharingProposalItems rid p).
Proof. intros db db' x H Hok. unfold DeleteProfitSharingProposalItems in Hok. tx_inv. exact H. Qed.
Lemma safe_update_round p f : (∀ r, r_id (f r) = r_id r ∧ r_active_ballot_number (f r) = r_active_ballot_number r) → safe (update_round p f).
Proof.
  intros Hf db db' x H (r & _ & _ & _ & ->)%update_round_ok. intros y n (z & -> & Hz)%list_elem_of_fmap Hn. specialize (H z n Hz).
  destruct (p z); [|by apply H]. destruct (Hf z) as [-> Ha]. apply H. congruence.
Qed.
Ltac safe_base := intros ? ? ? ? Hok; tx_inv; assumption.
Ltac safely := repeat first [lazymatch goal with
  | |- safe (_ ≫= _) => apply safe_bind; [|intros ?]
  | |- safe (on_no_rows _ _) => apply safe_no_rows
  | |- safe (on_constraint _ _ _) => apply safe_constraint
  | |- safe (update_round _ _) => apply safe_update_round; done
  | |- safe (if ?b then _ else _) => destruct b
  | |- safe (match ?x with Some _ => _ | None => _ end) => destruct x
  end | solve [eauto using safe_lock_proposal, safe_lock_round, safe_update_proposal, safe_insert_items, safe_createParticipants, safe_Upsert,
                 safe_Delete, safe_BatchProposals, safe_DeleteItems] | safe_base].
Lemma safe_UpdateRound now cur nxt title inputs e : safe (UpdateRound now cur nxt title inputs e).
Proof. unfold UpdateRound, UpdateProfitSharingRoundConfig. safely. Qed.
Lemma safe_OpenRound now fresh slug e ids : safe (OpenRound now fresh slug e ids).
Proof. unfold OpenRound, OpenProfitSharingRound, CreateInitialProfitSharingProposalItems. safely. Qed.
Lemma safe_UpdateProposal now slug a e inputs : safe (UpdateProposal now slug a e inputs).
Proof.
  unfold UpdateProposal, createProposalItems, BatchCreateProfitSharingProposalItems, UpdateProfitSharingProposalDraft. safely.
Qed.
Lemma safe_changeProposalStatus now slug a e submit : safe (changeProposalStatus now slug a e submit).
Proof. unfold changeProposalStatus, SubmitProfitSharingProposal, ReopenProfitSharingProposal. safely. Qed.
Lemma safe_SubmitVote now slug n v p : safe (SubmitVote now slug n v p).
Proof. unfold SubmitVote. safely. Qed.
Lemma safe_CreateRound now id slug title inputs : safe (CreateRound now id slug title inputs).
Proof.
  intros db db' x H (row & rows & -> & _ & _ & Hn & _ & _ & _ & -> & _)%CreateRound_ok. intros r n [Hr|Hr%list_elem_of_singleton]%elem_of_app Ha; [by apply H|]. congruence.
Qed.
(** A new ballot becomes the active one. *)
Lemma safe_next_ballot now rid n ids p f db db1 db2 db3 u1 u2 row : ballots_there db → (∀ r, p r = true → r_id r = rid) →
  (∀ r, r_id (f r) = r_id r ∧ r_active_ballot_number (f r) = Some n) →
  CreateProfitSharingBallot now rid n db = Ok (db1, u1) → BatchCreateProfitSharingBallotCandidates rid n ids db1 = Ok (db2, u2) →
  update_round p f db2 = Ok (db3, row) → ballots_there db3.
Proof.
  intros H Hp Hf (b & -> & Hb1 & Hb2 & _)%CreateBallot_ok (-> & _)%BatchCandidates_ok (r & _ & _ & _ & ->)%update_round_ok.
  intros y m (z & -> & Hz)%list_elem_of_fmap Hm. unfold has_ballot. cbn in *. rewrite fmap_app. apply elem_of_app. destruct (p z) eqn:Ep.
  - destruct (Hf z) as [-> Ha]. rewrite Ha in Hm. injection Hm as <-. right. apply list_elem_of_singleton. unfold ballot_key. by rewrite Hb1, Hb2, (Hp z Ep).
  - left. by apply H.
Qed.
Lemma safe_PublishRound now slug e : safe (PublishRound now slug e).
Proof.
  intros db db' x H Hok. unfold PublishRound in Hok. tx_inv. match goal with H : lockRoundBySlug _ _ = Ok _ |- _ => apply lockRoundBySlug_ok in H as (-> & _) end. tx_inv.
  match goal with H1 : assign_labels _ _ _ _ _ = Ok _, H4 : on_no_rows _ _ _ = Ok _ |- _ =>
    apply assign_labels_ok in H1 as (_ & ps & -> & _); apply on_no_rows_ok in H4; unfold PublishProfitSharingRound in H4 end.
  assert (ballots_there (set_proposals ps db)) as H' by exact H. eapply safe_next_ballot; [exact H'| | |eassumption|eassumption|eassumption]; [intros r Hr%round_key_id; tauto|done].
Qed.
Lemma safe_CloseBallot now slug e : safe (CloseBallot now slug e).
Proof.
  intros db db' x H Hok. unfold CloseBallot in Hok. tx_inv. match goal with H : lockRoundBySlug _ _ = Ok _ |- _ => apply lockRoundBySlug_ok in H as (-> & _) end. tx_inv.
  destruct (ListProfitSharingBallotTallies _ _ _) as [|t0 ts]; tx_inv.
  match goal with H1 : CloseProfitSharingBallot _ _ _ _ = Ok (?d, _) |- _ => apply CloseBallotRow_ok in H1 as (bs & -> & Hk) end.
  assert (ballots_there (set_ballots bs db)) as H' by (intros r n Hr Hn; unfold has_ballot; cbn; rewrite Hk; by apply H).
  destruct (tied_prefix _ _) as [|w [|w2 tied]]; tx_inv; match goal with H : on_no_rows _ _ _ = Ok _ |- _ => apply on_no_rows_ok in H as Hup end.
  2: { unfold CloseProfitSharingRound in Hup. tx_inv. eapply safe_update_round; [|exact H'|eassumption]. done. }
  all: unfold AdvanceProfitSharingRunoffBallot in Hup; eapply safe_next_ballot; [exact H'| | |eassumption|eassumption|exact Hup];
    [intros r Hr%round_key_id; tauto|done].
Qed.
Lemma safe_exec c : safe (exec c).
Proof.
  destruct c; cbn [exec]; unfold discard, SubmitProposal, ReopenProposal; (apply safe_bind; [|intros ?; safe_base]);
    eauto using safe_CreateRound, safe_UpdateRound, safe_OpenRound, safe_UpdateProposal, safe_changeProposalStatus, safe_PublishRound, safe_SubmitVote, safe_CloseBallot.
Qed.
Lemma reachable_ballots db : reachable db → ballots_there db.
Proof.
  unfold reachable. intros Hr. assert (ballots_there empty_db) as H0 by (by intros r n ?%not_elem_of_nil). revert H0.
  induction Hr as [|a b c (call & [Hc]) _ IH]; [done|]. intros Ha. apply IH. by eapply safe_exec.
Qed.
(** A round that exists is read without an error. *)
Lemma account_again u s : uuid_parse s = Some u → u ≠ 0%N → accountUUID (uuid_string u) = Ok u.
Proof using UW.
  intros Hp Hz. apply uuid_parse_bound in Hp. unfold accountUUID, canonicalAccountID. rewrite (trim_space_printable _ (uuid_string_printable u)), uuid_parse_string by done.
  rewrite (proj2 (N.eqb_neq u 0) Hz). cbn. by rewrite uuid_parse_string.
Qed.
Lemma round_read db who account slug : ballots_there db → is_requester who account → (∃ r, r ∈ rounds db ∧ r_slug r = slug) →
  ∃ s, GetRound slug account db = Ok s.
Proof using UW.
  intros H (u & Hu & Hz & ->) (r0 & Hr0 & Hs). unfold GetRound. destruct (sql_one_is_Some (λ r, bool_decide (r_slug r = slug)) (rounds db) r0) as [r Hr]; [done|by apply bool_decide_true|].
  unfold GetProfitSharingRoundBySlug. rewrite Hr. cbn [of_option mbind result_bind]. apply sql_one_Some in Hr as [Hr _]. unfold loadRoundSnapshot. cbv zeta.
  destruct (r_active_ballot_number r) as [n|] eqn:En; [|by eexists]. pose proof (H r n Hr En) as (b & Hb & Hin)%list_elem_of_fmap. injection Hb as Hb1 Hb2.
  destruct (sql_one_is_Some (λ b, b_ballot_number b =? n) (ListProfitSharingBallots (r_id r) db) b) as [b' ->].
  { unfold ListProfitSharingBallots. rewrite sort_by_elem. apply elem_of_sql_many. split; [by apply Z.eqb_eq|done]. }
  { by apply Z.eqb_eq. }
  cbn [of_option mbind result_bind]. destruct (bool_decide (uuid_string u = EmptyString)); [by eexists|]. rewrite (account_again _ _ Hu Hz). by eexists.
Qed.
(** The round an administrator's call answers is there. *)
Lemma update_known p f db db' row : update_round p f db = Ok (db', row) → row ∈ rounds db'.
Proof. intros (r & Hr & Hp & -> & ->)%update_round_ok. apply list_elem_of_fmap. exists r. by rewrite Hp. Qed.
Lemma known_CreateRound now id slug title inputs db db' res : CreateRound now id slug title inputs db = Ok (db', res) → res ∈ rounds db'.
Proof. intros (row & rows & -> & _ & _ & _ & _ & _ & _ & -> & _)%CreateRound_ok. cbn. apply elem_of_app. right. constructor. Qed.
Lemma known_UpdateRound now cur nxt title inputs e db db' res : UpdateRound now cur nxt title inputs e db = Ok (db', res) → res ∈ rounds db'.
Proof.
  intros Hok. unfold UpdateRound in Hok. tx_inv. match goal with H : lockRoundBySlug _ _ = Ok _ |- _ => apply lockRoundBySlug_ok in H as (-> & _) end.
  match goal with H : on_constraint _ _ _ _ = Ok _ |- _ => apply on_constraint_ok, on_no_rows_ok in H; unfold UpdateProfitSharingRoundConfig in H end. tx_inv.
  match goal with H1 : DeleteProfitSharingParticipants _ _ = Ok _, H2 : createParticipants _ _ _ = Ok _, H3 : update_round _ _ _ = Ok _ |- _ =>
    apply keeps_Delete in H1; apply keeps_createParticipants in H2; apply update_known in H3; rewrite H2, H1; exact H3 end.
Qed.
Lemma known_OpenRound now fresh slug e ids db db' res : OpenRound now fresh slug e ids db = Ok (db', res) → res ∈ rounds db'.
Proof. intros Hok. unfold OpenRound in Hok. tx_inv. match goal with H : on_no_rows _ _ _ = Ok _ |- _ => apply on_no_rows_ok, update_known in H; exact H end. Qed.
Lemma known_PublishRound now slug e db db' res : PublishRound now slug e db = Ok (db', res) → res ∈ rounds db'.
Proof. intros Hok. unfold PublishRound in Hok. tx_inv. match goal with H : on_no_rows _ _ _ = Ok _ |- _ => apply on_no_rows_ok, update_known in H; exact H end. Qed.
Lemma known_CloseBallot now slug e db db' res : CloseBallot now slug e db = Ok (db', res) → cbr_round res ∈ rounds db'.
Proof.
  intros Hok. unfold CloseBallot in Hok. tx_inv. destruct (ListProfitSharingBallotTallies _ _ _) as [|t0 ts]; tx_inv.
  destruct (tied_prefix _ _) as [|w [|w2 tied]]; tx_inv; match goal with H : on_no_rows _ _ _ = Ok _ |- _ => apply on_no_rows_ok in H as Hup end.
  2: { unfold CloseProfitSharingRound in Hup. tx_inv. eapply update_known; eassumption. }
  all: exact (update_known _ _ _ _ _ Hup).
Qed.
(** The round of a participant's call is there. *)
Lemma known_UpdateProposal now slug a e inputs db db' res : UpdateProposal now slug a e inputs db = Ok (db', res) →
  ∃ r, r ∈ rounds db' ∧ r_slug r = trim_space slug.
Proof.
  intros Hok. rewrite (keeps_UpdateProposal _ _ _ _ _ _ _ _ Hok). unfold UpdateProposal in Hok. tx_inv.
  match goal with H : lockRoundBySlug _ _ = Ok (_, ?r) |- _ => apply lockRoundBySlug_ok in H as (_ & ? & ?); by exists r end.
Qed.
Lemma known_changeProposalStatus now slug a e submit db db' res : changeProposalStatus now slug a e submit db = Ok (db', res) →
  ∃ r, r ∈ rounds db' ∧ r_slug r = trim_space slug.
Proof.
  intros Hok. rewrite (keeps_changeProposalStatus _ _ _ _ _ _ _ _ Hok). unfold changeProposalStatus in Hok. apply tx_bind_ok in Hok as (? & ? & [-> _]%tx_lift_ok & Hok).
  apply tx_bind_ok in Hok as (? & ? & [-> _]%tx_lift_ok & Hok). apply tx_bind_ok in Hok as (? & r & (-> & ? & ?)%lockRoundBySlug_ok & _). by exists r.
Qed.
(** The calls on a proposal name their round without spaces around it. *)
Definition plain_slug (q : svc_request) : Prop :=
  match q with ReqUpdateProposal slug _ _ | ReqSubmitProposal slug _ | ReqReopenProposal slug _ => trim_space slug = slug | _ => True end.
(** The [k]-th call of a program in a session. *)
Definition asks {A St} (h : ∀ o, St → St * svc_resp o) (p : program svc_resp A) (s : St) (k : nat) (o : svc_op) : Prop :=
  ∃ r, logged h p s !! k = Some (existT o r).
Lemma asks_bind {A B St} (h : ∀ o, St → St * svc_resp o) (p : program svc_resp A) (f : A → program svc_resp B) s k o :
  asks h p s k o → asks h (p ≫= f) s k o.
Proof.
  intros [r H]. exists r. revert s k H. unfold mbind, prog_bind. induction p as [a|o' c IH]; intros s k H; cbn in *; [done|].
  destruct (h o' s) as [s' x]. destruct k as [|k]; [done|]. by apply IH.
Qed.
Lemma failed_tx {A} (t : tx DB PSError A) db db' e : run_tx t db = (db', Err e) → db' = db.
Proof. unfold run_tx. destruct (t db) as [[? ?]|x]; [done|]. by intros [= <- _]. Qed.
Lemma store_call_error now id fresh o db db' e : store_call now id fresh o db = (db', Err e) → db' = db.
Proof. destruct o; cbn [store_call]; first [apply failed_tx|by intros [= <- _]]. Qed.
Section Calls.
Context (now id : Z) (fresh : nat → string) (faults : nat → fault) (q : svc_request).
Abbreviation h := (store_handle now id fresh faults).
(** Why the answer to a request that committed a call is an error. *)
Definition excused {A} (p : program svc_resp A) (s : session) (db' : DB) : Prop :=
  ∃ k o, asks h p s k o ∧ changes_state o = true ∧ db' = (store_call now id fresh o (ss_db s)).1
    ∧ ((∃ message, faults (ss_calls s + k) = AnswerLost message)
       ∨ (faults (ss_calls s + k) = Works ∧ (faults (S (ss_calls s + k)) ≠ Works ∨ ¬ plain_slug q))).
Definition sound {A} (p : program svc_resp (result rpc_error A)) (s : session) : Prop :=
  ∀ s' e, drive h p s = (s', Err e) → ss_db s' = ss_db s ∨ excused p s (ss_db s').
Lemma sound_answered {A} (f : A → svc_answer) p s : sound p s → sound (answered f p) s.
Proof.
  intros H s' e. unfold answered. rewrite drive_try. destruct (drive h p s) as [d [a|x]] eqn:E; [done|]. intros [= <- <-].
  destruct (H _ _ E) as [?|(k & o & Ha & Hrest)]; [by left|right]. exists k, o. split; [by apply asks_bind|done].
Qed.
Lemma sound_ret {A B} (r : result rpc_error A) (k : A → program svc_resp (result rpc_error B)) s :
  (∀ a, r = Ok a → sound (k a) s) → sound (prog_try k (mret r)) s.
Proof. intros H. destruct r as [a|x]; [exact (H a eq_refl)|]. intros s' e [= <- _]. by left. Qed.
Lemma read_keeps slug account (s : session) : (h (SvGetRound slug account) s).1 = Session (ss_db s) (S (ss_calls s)).
Proof. unfold store_handle. destruct (faults (ss_calls s)); done. Qed.
(** A read before. *)
Lemma sound_participant {B} slug account (k : unit → program svc_resp (result rpc_error B)) s :
  sound (k tt) (Session (ss_db s) (S (ss_calls s))) → sound (prog_try k (authorizeParticipant slug account)) s.
Proof.
  intros H. unfold authorizeParticipant, authorizedRound, must. destruct (negb (bool_decide (trim_space slug = EmptyString))).
  2: { intros s' e [= <- _]. by left. }
  pose proof (read_keeps (trim_space slug) account s) as Hk. intros s' e Hd. cbn in Hd.
  destruct (h (SvGetRound (trim_space slug) account) s) as [s1 r] eqn:Eh. cbn in Hk. subst s1. destruct r as [snapshot|x]; cbn in Hd; [|injection Hd as <- _; by left].
  destruct (containsParticipant (rs_participants snapshot) account) eqn:Ec; cbn in Hd; [|injection Hd as <- _; by left].
  destruct (H _ _ Hd) as [?|(i & o & [x Ha] & H1 & H2 & H3)]; [by left|right]. exists (S i), o. split; [|split_and!; [done|done|]].
  - exists x. cbn. rewrite Eh. cbn. rewrite Ec. exact Ha.
  - cbn [ss_calls] in H3. by rewrite Nat.add_succ_r.
Qed.
(** A call that commits, and what follows it. *)
Lemma sound_commit {A B} (o : svc_op) (c : svc_resp o → program svc_resp (result PSError A)) (k : A → program svc_resp (result rpc_error B)) s :
  changes_state o = true → (∀ e, c (Err e) = mret (Err e)) →
  (∀ db1 a, store_call now id fresh o (ss_db s) = (db1, Ok a) → ∀ s' e,
     drive h (prog_try k (stored (c (Ok a)))) (Session db1 (S (ss_calls s))) = (s', Err e) →
     ss_db s' = db1 ∧ (faults (S (ss_calls s)) ≠ Works ∨ ¬ plain_slug q)) →
  sound (prog_try k (stored (Vis o c))) s.
Proof.
  intros Ho Hc Hk s' e Hd. assert (asks h (prog_try k (stored (Vis o c))) s 0 o) as Hask.
  { unfold asks. cbn. destruct (h o s) as [s1 r]. by exists r. }
  change (drive h (prog_try k (stored (Vis o c))) s) with (let '(s1, r) := h o s in drive h (prog_try k (stored (c r))) s1) in Hd.
  unfold store_handle in Hd. destruct (faults (ss_calls s)) as [|m|m] eqn:Ef.
  - destruct (store_call now id fresh o (ss_db s)) as [db1 [a|x]] eqn:Es.
    + destruct (Hk db1 a eq_refl s' e Hd) as [-> Hwhy]. right. exists 0%nat, o. rewrite Nat.add_0_r, Es. split_and!; [done..|]. by right.
    + apply store_call_error in Es as ->. rewrite Hc in Hd. injection Hd as <- _. by left.
  - rewrite Hc in Hd. injection Hd as <- _. by left.
  - rewrite Hc in Hd. injection Hd as <- _. right. exists 0%nat, o. rewrite Nat.add_0_r. split_and!; [done..|]. left. by exists m.
Qed.
Lemma sound_call {B} (o : svc_op) (k : _ → program svc_resp (result rpc_error B)) s :
  changes_state o = true →
  (∀ db1 a, store_call now id fresh o (ss_db s) = (db1, Ok a) → ∀ s' e,
     drive h (k a) (Session db1 (S (ss_calls s))) = (s', Err e) → ss_db s' = db1 ∧ (faults (S (ss_calls s)) ≠ Works ∨ ¬ plain_slug q)) →
  sound (prog_try k (stored (call o))) s.
Proof. intros Ho Hk. by apply (sound_commit o (λ r, Ret r)). Qed.
(** The read that follows fails because of a fault, or because it does not find the round. *)
Lemma shown_error {A} slug account (f : RoundSnapshot → A) s s' e :
  drive h (snapshot ←! stored (call (SvGetRound slug account)); mret (Ok (f snapshot))) s = (s', Err e) →
  ss_db s' = ss_db s ∧ (faults (ss_calls s) ≠ Works ∨ ∃ x, GetRound slug account (ss_db s) = Err x).
Proof.
  intros Hd. change (drive h (snapshot ←! stored (call (SvGetRound slug account)); mret (Ok (f snapshot))) s)
    with (let '(s1, r) := h (SvGetRound slug account) s in drive h (snapshot ←! stored (mret r); mret (Ok (f snapshot))) s1) in Hd.
  unfold store_handle in Hd. destruct (faults (ss_calls s)) as [|m|m]; cbn in Hd; [|injection Hd as <- _; split; [done|by left]..].
  destruct (GetRound slug account (ss_db s)) as [snapshot|x] eqn:E; cbn in Hd; [done|]. injection Hd as <- _. split; [done|right; eauto].
Qed.
Lemma closed_shown slug account (b : bool) s s' e : drive h (round ←! show_round slug account; mret (Ok (round, b))) s = (s', Err e) →
  drive h (show_round slug account) s = (s', Err e).
Proof. rewrite drive_try. destruct (drive h (show_round slug account) s) as [s1 [m|x]]; [done|]. by intros [= <- <-]. Qed.
End Calls.

(** A call that commits, and the read that follows it. *)
Ltac follows lem tac :=
  apply sound_call; [done|]; intros ? ? Es ? ? Hd; unfold store_call, run_tx, SubmitProposal, ReopenProposal in Es;
  lazymatch type of Es with match ?m with Ok _ => _ | Err _ => _ end = _ => destruct m as [[??]|] eqn:?; [|done] end; injection Es as <- <-;
  try apply closed_shown in Hd; apply shown_error in Hd as [Hs Hwhy]; split; [exact Hs|]; destruct Hwhy as [?|[? Hx]]; [by left|right; intros Hq; cbn [plain_slug] in Hq; cbn [ss_db] in Hx];
  lazymatch goal with E : _ = Ok (?d, _), Hr : is_requester ?w ?x, Hx : GetRound ?slug ?x ?d = Err _ |- _ =>
    destruct (round_read d w x slug) as [? Hok]; [eapply lem; [eassumption|exact E]|exact Hr|tac E|congruence] end.
Ltac by_admin := apply sound_ret; intros x [_ Hr]%admin_ok.
Ltac by_participant := apply sound_ret; intros x [_ Hr]%actor_ok; apply sound_ret; intros _ _; apply sound_participant.
Ltac there H := eexists; split; [exact H|reflexivity].
Lemma serve_sound now id fresh faults who q s : ballots_there (ss_db s) → sound now id fresh faults q (serve who q) s.
Proof using UW.
  intros Hb. destruct q; cbn [serve]; apply sound_answered.
  - apply sound_ret. intros x _ s' e Hd. left. cbn -[store_handle] in Hd. assert ((store_handle now id fresh faults (SvListRounds x.1 x.2) s).1 = Session (ss_db s) (S (ss_calls s))) as Hk
      by (unfold store_handle; by destruct (faults (ss_calls s))).
    destruct (store_handle _ _ _ _ _ s) as [s1 r]. cbn in Hk. subst s1. destruct r; cbn in Hd; by simplify_eq.
  - apply sound_ret. intros x _. intros s' e Hd. left. unfold authorizedRound, must in Hd. destruct (negb _); [|by injection Hd as <- _]. cbn in Hd.
    pose proof (read_keeps now id fresh faults (trim_space slug) x.1 s) as Hk. destruct (store_handle _ _ _ _ _ s) as [s1 r]. cbn in Hk. subst s1.
    destruct r as [snapshot|]; cbn in Hd; [destruct (x.2 || _); cbn in Hd|]; by simplify_eq.
  - by_admin. apply sound_ret. intros ps _. follows safe_CreateRound ltac:(fun E => there (known_CreateRound _ _ _ _ _ _ _ _ E)).
  - by_admin. apply sound_ret. intros _ _. apply sound_ret. intros ps _. follows safe_UpdateRound ltac:(fun E => there (known_UpdateRound _ _ _ _ _ _ _ _ _ E)).
  - by_admin. apply sound_ret. intros _ _. follows safe_OpenRound ltac:(fun E => there (known_OpenRound _ _ _ _ _ _ _ _ E)).
  - by_admin. apply sound_ret. intros _ _. follows safe_PublishRound ltac:(fun E => there (known_PublishRound _ _ _ _ _ _ E)).
  - by_admin. apply sound_ret. intros _ _. follows safe_CloseBallot ltac:(fun E => there (known_CloseBallot _ _ _ _ _ _ E)).
  - by_participant. apply sound_ret. intros its _. follows safe_UpdateProposal ltac:(fun E => rewrite <- Hq; exact (known_UpdateProposal _ _ _ _ _ _ _ _ E)).
  - by_participant. follows safe_changeProposalStatus ltac:(fun E => rewrite <- Hq; exact (known_changeProposalStatus _ _ _ _ _ _ _ _ E)).
  - by_participant. follows safe_changeProposalStatus ltac:(fun E => rewrite <- Hq; exact (known_changeProposalStatus _ _ _ _ _ _ _ _ E)).
  - apply sound_ret. intros x _. apply sound_ret. intros _ _. apply sound_ret. intros _ _. apply sound_participant. apply sound_call; [done|]. by intros.
Qed.

(** C20: A request that is answered with an error, on its own and whatever becomes of its calls to
    the database, has changed nothing, or it committed exactly its one call that changes
    anything, and then for one of three reasons: the answer of that call was lost, the read
    that follows the call met a fault of its own, or the call is one on a proposal that names
    the round with spaces around it.  So when the database answers every call, and but for
    those names, an error means that nothing has changed. *)
Theorem error_or_commit now id fresh faults who q db db' e :
  reachable db → respond_under now id fresh faults who q db = (db', Err e) →
  (db' = db
   ∨ ∃ n o, asks (store_handle now id fresh faults) (serve who q) (Session db 0) n o ∧ changes_state o = true
       ∧ db' = (store_call now id fresh o db).1
       ∧ ((∃ message, faults n = AnswerLost message) ∨ (faults n = Works ∧ (faults (S n) ≠ Works ∨ ¬ plain_slug q))))
  ∧ ((∀ n, faults n = Works) → plain_slug q → db' = db).
Proof using UW.
  intros Hb%reachable_ballots. unfold respond_under. destruct (drive _ _ _) as [s r] eqn:Ed. intros [= <- ->].
  assert (ss_db s = db ∨ excused now id fresh faults q (serve who q) (Session db 0) (ss_db s)) as H by (by apply (serve_sound now id fresh faults who q (Session db 0) Hb s e)).
  split; [exact H|]. intros Hw Hq. destruct H as [?|(k & o & _ & _ & _ & [[m Hm]|[_ [Hx|Hx]]])]; [done|..]; [by rewrite Hw in Hm|by rewrite Hw in Hx|done].
Qed.

(** ** Names of rounds *)
(** Every round has a name of the pattern, without spaces around it. *)
Definition tidy (db : DB) : Prop := ∀ r, r ∈ rounds db → profitSharingRoundSlugPattern (r_slug r) = true.
Definition neat {A} (m : ps_tx A) : Prop := ∀ db db' a, tidy db → m db = Ok (db', a) → tidy db'.
Lemma neat_bind {A B} (m : ps_tx A) (f : A → ps_tx B) : neat m → (∀ a, neat (f a)) → neat (m ≫= f).
Proof. intros Hm Hf db db' b H (s & a & H1 & H2)%tx_bind_ok. eapply Hf; [|exact H2]. by eapply Hm. Qed.
Lemma neat_guard {A} b e (f : unit → ps_tx A) : (b = true → neat (f tt)) → neat (ensure b e ≫= f).
Proof. intros Hf db db' x H (s & [] & [-> Hb]%ensure_ok & H2)%tx_bind_ok. by eapply Hf. Qed.
Lemma neat_keeps {A} (m : ps_tx A) : keeps_rounds m → neat m.
Proof. intros Hm db db' a H Hok r. rewrite (Hm _ _ _ Hok). apply H. Qed.
Lemma neat_no_rows {A} (m : ps_tx A) e : neat m → neat (on_no_rows m e).
Proof. intros Hm db db' x H Hok%on_no_rows_ok. by eapply Hm. Qed.
Lemma neat_constraint {A} (m : ps_tx A) c e : neat m → neat (on_constraint m c e).
Proof. intros Hm db db' x H Hok%on_constraint_ok. by eapply Hm. Qed.
Lemma neat_update_round p f : (∀ r, profitSharingRoundSlugPattern (r_slug r) = true → profitSharingRoundSlugPattern (r_slug (f r)) = true) → neat (update_round p f).
Proof.
  intros Hf db db' x H (r & _ & _ & _ & ->)%update_round_ok. intros y (z & -> & Hz)%list_elem_of_fmap. specialize (H z Hz). destruct (p z); auto.
Qed.
Lemma neat_CreateRow now id slug title : profitSharingRoundSlugPattern slug = true → neat (CreateProfitSharingRound now id slug title).
Proof.
  intros Hs db db' x H Hok. unfold CreateProfitSharingRound in Hok. tx_inv. match goal with H : sql_insert _ _ _ _ _ = Ok _ |- _ => apply sql_insert_ok in H as [-> _] end.
  intros r [Hr|Hr%list_elem_of_singleton]%elem_of_app; [by apply H|by subst r].
Qed.
Ltac neatly := cbv zeta; repeat first [lazymatch goal with
  | |- neat (ensure _ _ ≫= _) => apply neat_guard; intros ?
  | |- neat (_ ≫= _) => apply neat_bind; [|intros ?]
  | |- neat (on_no_rows _ _) => apply neat_no_rows
  | |- neat (on_constraint _ _ _) => apply neat_constraint
  | |- neat (update_round _ _) => apply neat_update_round; cbn; bool_prop; tauto
  | |- neat (if ?b then _ else _) => destruct b
  | |- neat (match ?x with _ => _ end) => destruct x
  end | solve [eauto using neat_CreateRow, neat_keeps, keeps_lock_proposal, keeps_lock, keeps_createParticipants, keeps_Delete, keeps_BatchProposals, keeps_InitialItems,
                 keeps_assign, keeps_CreateBallot, keeps_Candidates, keeps_CloseBallotRow] | apply neat_keeps; (intros ? ? ? Hok; by tx_inv)].
Lemma neat_exec c : neat (exec c).
Proof.
  destruct c; cbn [exec]; unfold discard, SubmitProposal, ReopenProposal; (apply neat_bind; [|intros ?; apply neat_keeps; (intros ? ? ? Hok; by tx_inv)]);
    try solve [apply neat_keeps; eauto using keeps_UpdateProposal, keeps_changeProposalStatus, keeps_SubmitVote].
  - unfold CreateRound. neatly.
  - unfold UpdateRound, UpdateProfitSharingRoundConfig. neatly.
  - unfold OpenRound, OpenProfitSharingRound. neatly.
  - unfold PublishRound, PublishProfitSharingRound. neatly.
  - unfold CloseBallot, CloseProfitSharingRound, AdvanceProfitSharingRunoffBallot. neatly.
Qed.
Lemma reachable_tidy db : reachable db → tidy db.
Proof.
  unfold reachable. intros Hr. assert (tidy empty_db) as H0 by (by intros r ?%not_elem_of_nil). revert H0.
  induction Hr as [|a b c (call & [Hc]) _ IH]; [done|]. intros Ha. apply IH. by eapply neat_exec.
Qed.

Lemma slug_printable need s : slug_run need s = true → printable_text s.
Proof.
  unfold printable_text. revert need. induction s as [|a s IH]; intros need; cbn; [by constructor|]. unfold slug_alnum, printable.
  destruct ((48 <=? N_of_ascii a)%N && (N_of_ascii a <=? 57)%N || (97 <=? N_of_ascii a)%N && (N_of_ascii a <=? 122)%N) eqn:E.
  - intros H%IH. constructor; [|done]. rewrite orb_true_iff, !andb_true_iff, !N.leb_le in E. lia.
  - destruct ((N_of_ascii a =? 45)%N && negb need) eqn:E2; [|done]. intros H%IH. constructor; [|done]. apply andb_true_iff in E2 as [E2%N.eqb_eq _]. lia.
Qed.
(** A name that is found has no spaces around it. *)
Lemma found_trimmed db slug account snapshot : tidy db → GetRound slug account db = Ok snapshot → trim_space slug = slug.
Proof.
  intros H Hg. unfold GetRound, GetProfitSharingRoundBySlug in Hg. destruct (sql_one _ _) as [r|] eqn:Er; [|done].
  apply sql_one_Some in Er as [Hr Hs%bool_decide_eq_true]. subst slug. eapply trim_space_printable, slug_printable, H, Hr.
Qed.
Lemma padded_not_found db slug account : tidy db → trim_space slug ≠ slug → GetRound slug account db = Err ErrRoundNotFound.
Proof.
  intros H Hne. unfold GetRound, GetProfitSharingRoundBySlug. destruct (sql_one _ _) as [r|] eqn:Er; [|done].
  apply sql_one_Some in Er as [Hr Hs%bool_decide_eq_true]. subst slug. destruct Hne. eapply trim_space_printable, slug_printable, H, Hr.
Qed.
Inductive proposal_call : (string → svc_request) → Prop :=
| call_update expected inputs : proposal_call (λ slug, ReqUpdateProposal slug expected inputs)
| call_submit expected : proposal_call (λ slug, ReqSubmitProposal slug expected)
| call_reopen expected : proposal_call (λ slug, ReqReopenProposal slug expected).
Lemma update_trimmed now slug author expected items : trim_space (trim_space slug) = trim_space slug →
  UpdateProposal now (trim_space slug) author expected items = UpdateProposal now slug author expected items.
Proof. intros E. unfold UpdateProposal. by rewrite E. Qed.
Lemma change_trimmed now slug author expected submit : trim_space (trim_space slug) = trim_space slug →
  changeProposalStatus now (trim_space slug) author expected submit = changeProposalStatus now slug author expected submit.
Proof. intros E. unfold changeProposalStatus. by rewrite E. Qed.
(** What a request names its round by decides two of its steps: the store trims it, the read
    after the commit takes it as it is. *)
Section Padded.
Context (now id : Z) (fresh : nat → string).
Abbreviation h := (store_call now id fresh).
Lemma authorize_trimmed slug slug' account db : trim_space slug = trim_space slug' →
  drive h (authorizeParticipant slug account) db = drive h (authorizeParticipant slug' account) db ∧ (drive h (authorizeParticipant slug account) db).1 = db.
Proof.
  intros E. unfold authorizeParticipant, authorizedRound, must. rewrite <- E. split; [done|]. destruct (negb _); cbn; [|done].
  destruct (GetRound _ _ db); cbn; [|done]. by destruct (containsParticipant _ _).
Qed.
Lemma padded_commit (p : string → program svc_resp (result rpc_error proposal_message)) (m : string → ps_tx Proposal) account slug db db' a :
  (∀ s, drive h (p s) db = match m s db with Ok (d, pr) => drive h (show_proposal s account pr) d | Err e => (db, Err (serviceError e)) end) →
  (∀ s, keeps_rounds (m s)) → (trim_space (trim_space slug) = trim_space slug → m (trim_space slug) = m slug) → tidy db → trim_space slug ≠ slug →
  drive h (p (trim_space slug)) db = (db', Ok a) →
  trim_space (trim_space slug) = trim_space slug ∧ drive h (p slug) db = (db', Err (serviceError ErrRoundNotFound)).
Proof.
  intros Hp Hk Hm Ht Hne. rewrite !Hp. destruct (m (trim_space slug) db) as [[d pr]|e] eqn:Em; [|done]. unfold show_proposal, stored. cbn.
  destruct (GetRound (trim_space slug) account d) as [s|] eqn:Eg; cbn; [|done]. intros [= <- _].
  assert (tidy d) as Hd by (intros r; rewrite (Hk _ _ _ _ Em); apply Ht). pose proof (found_trimmed _ _ _ _ Hd Eg) as Hfix. split; [done|].
  rewrite <- (Hm Hfix), Em. cbn. by rewrite (padded_not_found d slug account Hd Hne).
Qed.
Lemma drive_ret_try {A B} (r : result rpc_error A) (k : A → program svc_resp (result rpc_error B)) db :
  drive h (prog_try k (mret r)) db = match r with Ok a => drive h (k a) db | Err e => (db, Err e) end.
Proof. by destruct r. Qed.
(** The checks before the commit are those of the plain name. *)
Lemma padded_checks {A} (p : string → A → string → program svc_resp (result rpc_error proposal_message)) who expected (pre : result rpc_error A) slug db db' a :
  (∀ account i a', drive h (p account i (trim_space slug)) db = (db', Ok a') →
     trim_space (trim_space slug) = trim_space slug ∧ drive h (p account i slug) db = (db', Err (serviceError ErrRoundNotFound))) →
  let run s := requester ←! mret (requireParticipantActor who); _ ←! positive expected; _ ←! authorizeParticipant s requester; i ←! mret pre; p requester i s in
  drive h (run (trim_space slug)) db = (db', Ok a) → drive h (run slug) db = (db', Err (serviceError ErrRoundNotFound)).
Proof.
  intros Hp run. unfold run, positive, must. rewrite !drive_ret_try. destruct (requireParticipantActor who) as [x|]; [|done]. rewrite !drive_ret_try. destruct (require _ _); [|done].
  rewrite !drive_try. destruct (drive h (authorizeParticipant (trim_space slug) x) db) as [d [u|]] eqn:Ea; [|done].
  pose proof (proj2 (authorize_trimmed (trim_space slug) _ x db eq_refl)) as Hd. rewrite Ea in Hd. cbn in Hd. subst d. rewrite !drive_ret_try. destruct pre as [i|]; [|done].
  intros H. destruct (Hp x i a H) as [Hfix Hr]. rewrite <- (proj1 (authorize_trimmed (trim_space slug) slug x db Hfix)), Ea, drive_ret_try. done.
Qed.
End Padded.

(** C40: A call on a proposal that names its round with spaces around it is committed like the
    call with the plain name, and answered with [NotFound]: the store trims the name, the read
    that follows the commit does not. *)
Theorem padded_slug_commits now id fresh who action slug db db' a :
  reachable db → proposal_call action → trim_space slug ≠ slug →
  respond now id fresh who (action (trim_space slug)) db = (db', Ok a) →
  respond now id fresh who (action slug) db = (db', Err (serviceError ErrRoundNotFound)).
Proof.
  intros Ht%reachable_tidy Ha Hne. unfold respond. destruct Ha as [expected inputs|expected|expected]; cbn [serve]; unfold answered; rewrite !drive_try.
  - destruct (drive _ (svc_UpdateProposal who (trim_space slug) expected inputs) db) as [d [m|]] eqn:E; [|done]. intros [= <- _].
    assert (drive (store_call now id fresh) (svc_UpdateProposal who slug expected inputs) db = (d, Err (serviceError ErrRoundNotFound))) as ->; [|done].
    refine (padded_checks now id fresh (λ x i s, proposal ←! stored (call (SvUpdateProposal s x expected i)); show_proposal s x proposal) who expected (proposalItemInputsFromProto inputs) slug db d m _ E).
    intros x i a'. refine (padded_commit now id fresh (λ s, proposal ←! stored (call (SvUpdateProposal s x expected i)); show_proposal s x proposal) (λ s, UpdateProposal now s x expected i) x slug db d a' _ _ _ Ht Hne);
      [|intros s; apply keeps_UpdateProposal|apply update_trimmed]. intros s. cbn. unfold run_tx. by destruct (UpdateProposal now s x expected i db) as [[? ?]|].
  - destruct (drive _ (svc_SubmitProposal who (trim_space slug) expected) db) as [d [m|]] eqn:E; [|done]. intros [= <- _].
    assert (drive (store_call now id fresh) (svc_SubmitProposal who slug expected) db = (d, Err (serviceError ErrRoundNotFound))) as ->; [|done].
    refine (padded_checks now id fresh (λ x _ s, proposal ←! stored (call (SvSubmitProposal s x expected)); show_proposal s x proposal) who expected (Ok tt) slug db d m _ E).
    intros x i a'. refine (padded_commit now id fresh (λ s, proposal ←! stored (call (SvSubmitProposal s x expected)); show_proposal s x proposal) (λ s, changeProposalStatus now s x expected true) x slug db d a' _ _ _ Ht Hne);
      [|intros s; apply keeps_changeProposalStatus|apply change_trimmed]. intros s. cbn. unfold run_tx, SubmitProposal. by destruct (changeProposalStatus now s x expected true db) as [[? ?]|].
  - destruct (drive _ (svc_ReopenProposal who (trim_space slug) expected) db) as [d [m|]] eqn:E; [|done]. intros [= <- _].
    assert (drive (store_call now id fresh) (svc_ReopenProposal who slug expected) db = (d, Err (serviceError ErrRoundNotFound))) as ->; [|done].
    refine (padded_checks now id fresh (λ x _ s, proposal ←! stored (call (SvReopenProposal s x expected)); show_proposal s x proposal) who expected (Ok tt) slug db d m _ E).
    intros x i a'. refine (padded_commit now id fresh (λ s, proposal ←! stored (call (SvReopenProposal s x expected)); show_proposal s x proposal) (λ s, changeProposalStatus now s x expected false) x slug db d a' _ _ _ Ht Hne);
      [|intros s; apply keeps_changeProposalStatus|apply change_trimmed]. intros s. cbn. unfold run_tx, ReopenProposal. by destruct (changeProposalStatus now s x expected false db) as [[? ?]|].
Qed.
End Errors.

(** ** Concrete requests *)
Import Concrete.
Definition member (n : N) : requester := {| rq_account_id := " " +:+ acct n; rq_is_admin := false |}.
Definition administrator : requester := {| rq_account_id := acct 9; rq_is_admin := true |}.
(** The same round with the second and third proposal written by each other's author, and other
    votes of all but the first participant. *)
Definition sc_swapped (i : nat) : string := sc_fresh (match i with 1%nat => 2 | 2%nat => 1 | _ => i end)%nat.
Definition sc_other : list PSCall := sc_draft ++ [CallOpenRound 11 sc_swapped "round-1" 1 sc_ids]
  ++ ((λ n, CallUpdateProposal 12 "round-1" (acct n) 1 (mk_items [2000; 2000; 2000; 2000; 2000])) <$> [1%N; 2%N; 3%N; 4%N; 5%N])
  ++ ((λ n, CallSubmitProposal 13 "round-1" (acct n) 2) <$> [1%N; 2%N; 3%N; 4%N; 5%N])
  ++ [CallPublishRound 14 "round-1" 2; vote 1 1 "p2"; vote 1 2 "p1"; vote 1 3 "p4"; vote 1 4 "p1"; vote 1 5 "p1"].
(** The drafts of the round with other items in the fifth. *)
Definition sc_redrafted : list PSCall := sc_collect
  ++ ((λ n, CallUpdateProposal 12 "round-1" (acct n) 1 (mk_items [2000; 2000; 2000; 2000; 2000])) <$> [1%N; 2%N; 3%N; 4%N])
  ++ [CallUpdateProposal 12 "round-1" (acct 5) 1 (mk_items [0; 0; 0; 0; 10000])].
Example others_are_refused : (respond 16 0 sc_fresh (member 8) (ReqGetRound "round-1") (state_of sc_voted)).2
  = Err (status PermissionDenied "requester is not a participant in this round").
Proof. vm_compute. reflexivity. Qed.
(** ** Witnesses *)
Lemma service_permissions_witness : ∃ log, runs (serve (member 4) (ReqSubmitVote "round-1" 1 "p3")) log (Ok (AnsVote "p3" 1))
  ∧ length log = 2%nat ∧ (∀ l1 o r l2, log = l1 ++ existT o r :: l2 → permitted (member 4) l1 o).
Proof.
  set (p := serve (member 4) (ReqSubmitVote "round-1" 1 "p3")). pose (log := logged (store_call 15 0 sc_fresh) p (state_of sc_voted)).
  assert (runs p log (Ok (AnsVote "p3" 1))) as H.
  { replace (Ok (AnsVote "p3" 1)) with (drive (store_call 15 0 sc_fresh) p (state_of sc_voted)).2 by (vm_compute; reflexivity). apply drive_runs. }
  exists log. split; [exact H|]. split; [vm_compute; reflexivity|]. exact (proj1 (service_permissions _ _ _ _ H)).
Defined.
Ltac computed t := let l := eval vm_compute in t in replace t with l by (vm_compute; reflexivity).
Lemma ballot_secret_witness :
  (respond 16 0 sc_fresh (member 1) (ReqGetRound " round-1") (state_of sc_voted)).2
    = (respond 16 0 sc_fresh (member 1) (ReqGetRound " round-1") (state_of sc_other)).2
  ∧ ListProfitSharingBallotTallies 7 1 (state_of sc_voted) ≠ ListProfitSharingBallotTallies 7 1 (state_of sc_other).
Proof.
  split; [|vm_compute; discriminate].
  apply (ballot_secret 16 0 sc_fresh (member 1) " round-1" (acct 1) (sc_round sc_voted) 1 (state_of sc_voted) (state_of sc_other));
    [sc_reachable|sc_reachable|exists 1%N; vm_compute; split; [reflexivity|split; [discriminate|reflexivity]]|vm_compute; reflexivity|vm_compute; reflexivity|
     vm_compute; reflexivity|].
  constructor; [vm_compute; reflexivity|vm_compute; reflexivity|vm_compute; reflexivity| |vm_compute; reflexivity|].
  - computed (ListProfitSharingBallotCandidates (r_id (sc_round sc_voted)) 1 (state_of sc_voted)).
    computed (ListProfitSharingBallotCandidates (r_id (sc_round sc_voted)) 1 (state_of sc_other)).
    repeat (apply Forall2_cons_2; [split; [constructor; [reflexivity|vm_compute; split; intros Ho; (reflexivity || discriminate Ho)]|vm_compute; reflexivity]|]). apply Forall2_nil_2.
  - intros u. vm_compute. intros [= <-]. reflexivity.
Defined.
Lemma drafts_private_witness :
  (respond 13 0 sc_fresh (member 1) (ReqGetRound "round-1") (state_of sc_filled)).2
    = (respond 13 0 sc_fresh (member 1) (ReqGetRound "round-1") (state_of sc_redrafted)).2
  ∧ items (state_of sc_filled) ≠ items (state_of sc_redrafted).
Proof.
  split; [|vm_compute; discriminate].
  apply (drafts_private 13 0 sc_fresh (member 1) "round-1" (acct 1) (sc_round sc_filled) (state_of sc_filled) (state_of sc_redrafted));
    [sc_reachable|exists 1%N; vm_compute; split; [reflexivity|split; [discriminate|reflexivity]]|reflexivity|vm_compute; reflexivity|vm_compute; reflexivity|
     vm_compute; reflexivity|].
  constructor; [vm_compute; reflexivity|vm_compute; reflexivity| |vm_compute; reflexivity]. intros p.
  computed (filter (own (acct 1)) (ListProfitSharingProposals (r_id (sc_round sc_filled)) (state_of sc_filled))).
  intros ->%list_elem_of_singleton. vm_compute. reflexivity.
Defined.
(** The answer of the call that submits the proposal is lost: the proposal is submitted. *)
Definition lost_answer (n : nat) : fault := if bool_decide (n = 1%nat) then AnswerLost "connection reset by peer" else Works.
Lemma error_or_commit_witness : ∃ db' e,
  respond_under 13 0 sc_fresh lost_answer (member 1) (ReqSubmitProposal "round-1" 2) (state_of sc_filled) = (db', Err e) ∧ db' ≠ state_of sc_filled
  ∧ (db' = state_of sc_filled ∨ ∃ n o, asks (store_handle 13 0 sc_fresh lost_answer) (serve (member 1) (ReqSubmitProposal "round-1" 2)) (Session (state_of sc_filled) 0) n o
       ∧ changes_state o = true ∧ db' = (store_call 13 0 sc_fresh o (state_of sc_filled)).1
       ∧ ((∃ message, lost_answer n = AnswerLost message) ∨ (lost_answer n = Works ∧ (lost_answer (S n) ≠ Works ∨ ¬ plain_slug (ReqSubmitProposal "round-1" 2))))).
Proof.
  destruct (respond_under 13 0 sc_fresh lost_answer (member 1) (ReqSubmitProposal "round-1" 2) (state_of sc_filled)) as [db' [a|e]] eqn:E; [exfalso; revert E; vm_compute; discriminate|].
  exists db', e. split; [reflexivity|]. split.
  - apply (f_equal fst) in E. cbn [fst] in E. rewrite <- E. vm_compute. discriminate.
  - exact (proj1 (error_or_commit 13 0 sc_fresh lost_answer (member 1) (ReqSubmitProposal "round-1" 2) (state_of sc_filled) db' e ltac:(sc_reachable) E)).
Defined.
Lemma padded_slug_commits_witness : ∃ db', db' ≠ state_of sc_filled
  ∧ respond 13 0 sc_fresh (member 1) (ReqSubmitProposal " round-1" 2) (state_of sc_filled) = (db', Err (serviceError ErrRoundNotFound)).
Proof.
  destruct (respond 13 0 sc_fresh (member 1) (ReqSubmitProposal (trim_space " round-1") 2) (state_of sc_filled)) as [db' [a|e]] eqn:E; [|exfalso; revert E; vm_compute; discriminate].
  exists db'. split; [apply (f_equal fst) in E; cbn [fst] in E; rewrite <- E; vm_compute; discriminate|].
  exact (padded_slug_commits 13 0 sc_fresh (member 1) (λ slug, ReqSubmitProposal slug 2) " round-1" (state_of sc_filled) db' a ltac:(sc_reachable) (call_submit 2) ltac:(vm_compute; discriminate) E).
Defined.
