(* ===== verification/CashOutTypes.v ===== *)
(** * Position cash-out: data and database

    The rows, tables, constraints and queries of the position cash-out part of
    [internal/wormtrading/store] ([types.go], [sqlc/models.go],
    [migrations/000009_position_cash_outs.sql] and
    [queries/position_cash_outs.sql] as [sqlc/position_cash_outs.sql.go] runs
    them).  The tables of other components that cash-outs read are part of the
    database too; those components change them freely.

    Times are nanoseconds since Go's zero time, so the zero [time.Time] is 0; a
    [timestamptz] column keeps microseconds. *)

From S2P Require Import Prelude Sql.
From stdpp Require Import base tactics option list list_numbers sorting strings gmap.
From Stdlib Require Import ZArith Lia Ascii.
#[local] Open Scope Z_scope.

(** ** Enumerations *)
Inductive PositionCashOutState :=
| PositionCashOutStateAwaitingAuthorization | PositionCashOutStateQueued | PositionCashOutStatePreflighting
| PositionCashOutStateClosing | PositionCashOutStateAwaitingCompletion | PositionCashOutStateCompleted
| PositionCashOutStateFailed | PositionCashOutStateReconciliationRequired | PositionCashOutStateExpired.
Inductive PositionCashOutAuthorizationState :=
| PositionCashOutAuthorizationStateAuthorized | PositionCashOutAuthorizationStateConsumed
| PositionCashOutAuthorizationStateRevoked.
Inductive PositionCashOutAttemptState :=
| PositionCashOutAttemptStatePrepared | PositionCashOutAttemptStateDispatched
| PositionCashOutAttemptStateAcknowledged | PositionCashOutAttemptStateRejected
| PositionCashOutAttemptStateOutcomeUnknown.
Inductive PositionCashOutCommandKind :=
| PositionCashOutCommandKindCreate | PositionCashOutCommandKindAuthorize | PositionCashOutCommandKindReconcile.
Inductive ConnectionState :=
| ConnectionStateNotConnected | ConnectionStateConnecting | ConnectionStateConnected
| ConnectionStateReconnectRequired | ConnectionStateDisconnecting | ConnectionStateRevocationRequired.
Inductive CredentialState :=
| CredentialStateActive | CredentialStatePendingRevocation | CredentialStateRevoking
| CredentialStateRevocationRequired.
Inductive PositionCashOutBatchState :=
| PositionCashOutBatchStateBuilding | PositionCashOutBatchStateAwaitingAuthorization
| PositionCashOutBatchStateQueued | PositionCashOutBatchStateRunning | PositionCashOutBatchStatePauseRequested
| PositionCashOutBatchStatePaused | PositionCashOutBatchStateTerminateRequested
| PositionCashOutBatchStateCompleted | PositionCashOutBatchStateFailed
| PositionCashOutBatchStateReconciliationRequired | PositionCashOutBatchStateTerminated
| PositionCashOutBatchStateCancelled | PositionCashOutBatchStateExpired.
Inductive PositionCashOutBatchItemState :=
| PositionCashOutBatchItemStatePending | PositionCashOutBatchItemStatePreflighting
| PositionCashOutBatchItemStateClosing | PositionCashOutBatchItemStateAwaitingPosition
| PositionCashOutBatchItemStateAwaitingBalance | PositionCashOutBatchItemStateCompleted
| PositionCashOutBatchItemStateFailed | PositionCashOutBatchItemStateReconciliationRequired
| PositionCashOutBatchItemStateNotExecuted.

#[export] Instance PositionCashOutState_eq_dec : EqDecision PositionCashOutState.
Proof. solve_decision. Defined.
#[export] Instance PositionCashOutAuthorizationState_eq_dec : EqDecision PositionCashOutAuthorizationState.
Proof. solve_decision. Defined.
#[export] Instance PositionCashOutAttemptState_eq_dec : EqDecision PositionCashOutAttemptState.
Proof. solve_decision. Defined.
#[export] Instance PositionCashOutCommandKind_eq_dec : EqDecision PositionCashOutCommandKind.
Proof. solve_decision. Defined.
#[export] Instance ConnectionState_eq_dec : EqDecision ConnectionState.
Proof. solve_decision. Defined.
#[export] Instance CredentialState_eq_dec : EqDecision CredentialState.
Proof. solve_decision. Defined.
#[export] Instance PositionCashOutBatchState_eq_dec : EqDecision PositionCashOutBatchState.
Proof. solve_decision. Defined.
#[export] Instance PositionCashOutBatchItemState_eq_dec : EqDecision PositionCashOutBatchItemState.
Proof. solve_decision. Defined.

(** The states the partial unique indexes and the counting queries name. *)
Definition active_state (s : PositionCashOutState) : bool :=
  match s with
  | PositionCashOutStateCompleted | PositionCashOutStateFailed | PositionCashOutStateExpired => false
  | _ => true
  end.

(** ** Errors *)
Inductive COError :=
| ErrInvalidPositionCashOut | ErrInvalidPositionCashOutBatch | ErrPositionCashOutNotFound
| ErrPositionCashOutCommandConflict | ErrWalletNotSelected | ErrPositionCashOutConnectionChanged
| ErrPositionCashOutExecutionActive | ErrPositionCashOutWalletActive | ErrPositionCashOutBatchActive
| ErrPositionCashOutRevision | ErrExpired | ErrPositionCashOutClaim | ErrPositionCashOutBatchClaim
| ErrTransactionOutcomeUnknown | ErrDigest | CONoRows | CODB (constraint : string).
#[export] Instance COError_eq_dec : EqDecision COError.
Proof. solve_decision. Defined.

(** ** Rows *)
(** The columns of [worm_position_cash_outs] that no statement updates. *)
Record CashOutIntent := {
  ci_id : N; ci_owner_account_id : N; ci_wallet_id : Z; ci_wallet_address : string; ci_credential_version : Z;
  ci_position_pubkey : string; ci_market_condition_id : string; ci_is_yes : bool; ci_position_created_at : Z;
  ci_position_request_pubkey : string; ci_shares : string; ci_intent_digest_sha256 : string;
  ci_authorization_expires_at : Z; ci_created_at : Z; ci_batch_id : option N; ci_batch_item_id : option N }.
Record WormPositionCashOut := {
  co_intent : CashOutIntent; co_state : PositionCashOutState; co_revision : Z; co_reason_code : string;
  co_provider_state : string; co_provider_is_closed : bool; co_provider_is_liquidated : bool;
  co_execution_expires_at : option Z; co_authorized_at : option Z; co_next_poll_at : option Z;
  co_poll_count : Z; co_reconcile_requested_at : option Z; co_claim_id : option N; co_claim_owner : string;
  co_claim_expires_at : option Z; co_completed_at : option Z; co_updated_at : Z }.
Definition co_id (c : WormPositionCashOut) : N := ci_id (co_intent c).
Definition co_owner (c : WormPositionCashOut) : N := ci_owner_account_id (co_intent c).
Definition co_wallet (c : WormPositionCashOut) : Z := ci_wallet_id (co_intent c).

Record WormPositionCashOutAuthorization := {
  au_id : N; au_cash_out_id : N; au_owner_account_id : N; au_scope : string; au_proof_kind : string;
  au_session_jti_digest : string; au_access_revision : Z; au_intent_digest_sha256 : string;
  au_state : PositionCashOutAuthorizationState; au_authorized_at : Z; au_ended_at : option Z;
  au_end_reason_code : string; au_created_at : Z; au_updated_at : Z }.
Record WormPositionCashOutCommand := {
  cm_id : N; cm_cash_out_id : N; cm_owner_account_id : N; cm_kind : PositionCashOutCommandKind;
  cm_request_sha256 : string; cm_cash_out_revision_after : Z; cm_result_code : string; cm_completed_at : Z }.
Record WormPositionCashOutAttempt := {
  at_id : N; at_cash_out_id : N; at_state : PositionCashOutAttemptState; at_request_sha256 : string;
  at_http_status : option Z; at_provider_code : option Z; at_provider_slug : string; at_provider_state : string;
  at_error_code : string; at_prepared_at : Z; at_dispatched_at : option Z; at_completed_at : option Z;
  at_updated_at : Z }.

(** Rows of other components, with the columns cash-outs read or write. *)
Record WormWalletConnection := { wc_wallet_id : Z; wc_address : string; wc_state : ConnectionState }.
Record WormWalletCredential := { cd_wallet_id : Z; cd_version : Z; cd_state : CredentialState }.
Record WormPositionCashOutBatch := {
  bt_id : N; bt_state : PositionCashOutBatchState; bt_current_item_ordinal : option Z; bt_revision : Z;
  bt_next_poll_at : option Z; bt_updated_at : Z }.
Record WormPositionCashOutBatchItem := {
  bi_id : N; bi_batch_id : N; bi_ordinal : Z; bi_child_cash_out_id : option N;
  bi_state : PositionCashOutBatchItemState; bi_baseline_usdc_mint : string; bi_baseline_usdc_decimals : option Z;
  bi_baseline_usdc_atomic_amount : string; bi_baseline_usdc_observed_slot : option Z; bi_updated_at : Z }.

(** What the other components own. *)
Record Env := {
  selection_items : list (N * Z * string);
  connections : list WormWalletConnection;
  credentials : list WormWalletCredential;
  execution_locks : list (N * Z);
  batch_wallet_locks : list Z;
  batches : list WormPositionCashOutBatch;
  batch_items : list WormPositionCashOutBatchItem }.
Record CDB := {
  cash_outs : list WormPositionCashOut;
  authorizations : list WormPositionCashOutAuthorization;
  commands : list WormPositionCashOutCommand;
  attempts : list WormPositionCashOutAttempt;
  env : Env }.
Definition set_cash_outs t db := Build_CDB t (authorizations db) (commands db) (attempts db) (env db).
Definition set_authorizations t db := Build_CDB (cash_outs db) t (commands db) (attempts db) (env db).
Definition set_commands t db := Build_CDB (cash_outs db) (authorizations db) t (attempts db) (env db).
Definition set_attempts t db := Build_CDB (cash_outs db) (authorizations db) (commands db) t (env db).
Definition set_env e db := Build_CDB (cash_outs db) (authorizations db) (commands db) (attempts db) e.
Definition set_batches t e := Build_Env (selection_items e) (connections e) (credentials e) (execution_locks e)
  (batch_wallet_locks e) t (batch_items e).
Definition set_batch_items t e := Build_Env (selection_items e) (connections e) (credentials e) (execution_locks e)
  (batch_wallet_locks e) (batches e) t.

Abbreviation co_tx := (tx CDB COError).
Definition co_on_no_rows {A} (m : co_tx A) (e : COError) : co_tx A := λ s,
  match m s with Err CONoRows => Err e | r => r end.
Lemma co_on_no_rows_ok {A} (m : co_tx A) e s r : co_on_no_rows m e s = Ok r ↔ m s = Ok r.
Proof. unfold co_on_no_rows. destruct (m s) as [|[]]; naive_solver. Qed.

(** ** Constraints *)
Definition is_none {A} (o : option A) : bool := match o with None => true | Some _ => false end.

(** The CHECK constraints of [worm_position_cash_outs], and the range of its
    [uuid] key. *)
Definition cash_out_check (c : WormPositionCashOut) : bool :=
  let i := co_intent c in
  (ci_id i <? 2 ^ 128)%N && (0 <? ci_wallet_id i) && text_between 32 64 (ci_wallet_address i) && (0 <? ci_credential_version i)
  && text_between 32 64 (ci_position_pubkey i) && text_between 32 64 (ci_market_condition_id i)
  && (62135596800000000000 <? ci_position_created_at i)
  && (bool_decide (ci_position_request_pubkey i = EmptyString) || text_between 32 64 (ci_position_request_pubkey i))
  && text_between 1 128 (ci_shares i) && bool_decide (String.length (ci_intent_digest_sha256 i) = 32%nat)
  && (0 <? co_revision c) && text_between 0 100 (co_reason_code c) && text_between 0 100 (co_provider_state c)
  && (0 <=? co_poll_count c) && text_between 0 100 (co_claim_owner c)
  && (ci_created_at i <? ci_authorization_expires_at i)
  && match co_execution_expires_at c, co_authorized_at c with
     | None, _ => true | Some e, Some a => a <? e | Some _, None => false end
  && match co_claim_id c, co_claim_expires_at c with
     | None, None => bool_decide (co_claim_owner c = EmptyString)
     | Some _, Some _ => negb (bool_decide (co_claim_owner c = EmptyString))
     | _, _ => false end
  && match co_state c with
     | PositionCashOutStateAwaitingAuthorization => is_none (co_authorized_at c) && is_none (co_execution_expires_at c)
     | PositionCashOutStateCompleted | PositionCashOutStateFailed =>
         bool_decide (is_none (co_authorized_at c) = is_none (co_execution_expires_at c))
     | PositionCashOutStateExpired => true
     | _ => negb (is_none (co_authorized_at c)) && negb (is_none (co_execution_expires_at c)) end
  && (if active_state (co_state c) then is_none (co_completed_at c)
      else negb (is_none (co_completed_at c)) && is_none (co_claim_id c))
  && match co_state c with
     | PositionCashOutStateCompleted => co_provider_is_closed c && negb (co_provider_is_liquidated c)
     | _ => true end
  && match co_state c with
     | PositionCashOutStateAwaitingCompletion | PositionCashOutStateReconciliationRequired =>
         negb (is_none (co_next_poll_at c))
     | _ => true end
  && match co_state c with
     | PositionCashOutStateFailed | PositionCashOutStateReconciliationRequired | PositionCashOutStateExpired =>
         negb (bool_decide (co_reason_code c = EmptyString))
     | _ => true end
  && bool_decide (is_none (ci_batch_id i) = is_none (ci_batch_item_id i)).

(** Primary key, one active cash-out per wallet and per position, one per batch
    item. *)
Definition cash_out_conflict (a b : WormPositionCashOut) : bool :=
  (co_id a =? co_id b)%N
  || (active_state (co_state a) && active_state (co_state b)
      && ((co_wallet a =? co_wallet b)
          || bool_decide (ci_position_pubkey (co_intent a) = ci_position_pubkey (co_intent b))))
  || match ci_batch_item_id (co_intent a), ci_batch_item_id (co_intent b) with
     | Some x, Some y => (x =? y)%N | _, _ => false end.

Definition attempt_check (a : WormPositionCashOutAttempt) : bool :=
  bool_decide (String.length (at_request_sha256 a) = 32%nat)
  && match at_http_status a with None => true | Some s => (100 <=? s) && (s <=? 599) end
  && text_between 0 100 (at_provider_slug a) && text_between 0 100 (at_provider_state a)
  && text_between 0 100 (at_error_code a)
  && match at_state a with
     | PositionCashOutAttemptStatePrepared => is_none (at_dispatched_at a) && is_none (at_completed_at a)
     | PositionCashOutAttemptStateDispatched => negb (is_none (at_dispatched_at a)) && is_none (at_completed_at a)
     | _ => negb (is_none (at_dispatched_at a)) && negb (is_none (at_completed_at a)) end.
Definition authorization_check (a : WormPositionCashOutAuthorization) : bool :=
  bool_decide (au_scope a = "WORM_POSITION_CASH_OUT"%string) && text_between 1 100 (au_proof_kind a)
  && bool_decide (String.length (au_session_jti_digest a) = 32%nat) && (0 <? au_access_revision a)
  && bool_decide (String.length (au_intent_digest_sha256 a) = 32%nat) && text_between 0 100 (au_end_reason_code a)
  && (if bool_decide (au_state a = PositionCashOutAuthorizationStateAuthorized)
      then is_none (au_ended_at a) && bool_decide (au_end_reason_code a = EmptyString)
      else negb (is_none (au_ended_at a)) && negb (bool_decide (au_end_reason_code a = EmptyString))).
Definition command_check (c : WormPositionCashOutCommand) : bool :=
  bool_decide (String.length (cm_request_sha256 c) = 32%nat) && (0 <? cm_cash_out_revision_after c)
  && text_between 0 100 (cm_result_code c).

(** ** Parameters *)
(** [canonicalNow]: the zero time stands for the clock. *)
Definition canonicalNow (clock value : Z) : Z := if value =? 0 then clock else value.
(** A [timestamptz] keeps microseconds. *)
Definition pg_time (t : Z) : Z := t - t mod 1000.
Definition timestampParam (value : Z) : option Z := if value =? 0 then None else Some (pg_time value).
Definition timestampValue (value : option Z) : Z := default 0 value.
Definition nullableIntegerParam (value : Z) : option Z := if value =? 0 then None else Some value.
Definition nullableInt32 (value : option Z) : Z := default 0 value.

(** Comparisons with a nullable column: NULL is not true. *)
Definition later (o : option Z) (now : Z) : bool := match o with Some t => now <? t | None => false end.
Definition due (o : option Z) (now : Z) : bool := match o with Some t => t <=? now | None => false end.

(** ** Queries on cash-outs *)
Definition cash_out_in_range (c : WormPositionCashOut) : bool :=
  bigint_in_range (co_revision c) && (co_poll_count c <=? max_int32).
(** [UPDATE ... RETURNING *]: no statement changes a unique key, so only the
    CHECK constraints and the integer ranges can fail. *)
Definition update_cash_out (p : WormPositionCashOut → bool) (f : WormPositionCashOut → WormPositionCashOut)
    : co_tx WormPositionCashOut :=
  db ← tx_get;
  r ← tx_lift (of_option (sql_one p (cash_outs db)) CONoRows);
  _ ← ensure (cash_out_check (f r) && cash_out_in_range (f r)) (CODB "worm_position_cash_outs_check");
  _ ← tx_put (set_cash_outs (sql_update p f (cash_outs db)) db);
  mret (f r).

Definition GetPositionCashOutCommand (id : N) (db : CDB) : option WormPositionCashOutCommand :=
  sql_one (λ c, (cm_id c =? id)%N) (commands db).
Definition GetPositionCashOut (id owner : N) (db : CDB) : option WormPositionCashOut :=
  sql_one (λ c, (co_id c =? id)%N && (co_owner c =? owner)%N) (cash_outs db).
Definition GetPositionCashOutByID (id : N) (db : CDB) : option WormPositionCashOut :=
  sql_one (λ c, (co_id c =? id)%N) (cash_outs db).
Definition GetPositionCashOutForUpdate (id owner : N) (db : CDB) : option WormPositionCashOut :=
  GetPositionCashOut id owner db.
Definition GetPositionCashOutAuthorization (cash_out : N) (db : CDB) : option WormPositionCashOutAuthorization :=
  sql_one (λ a, (au_cash_out_id a =? cash_out)%N) (authorizations db).
Definition GetPositionCashOutAttempt (cash_out : N) (db : CDB) : option WormPositionCashOutAttempt :=
  sql_one (λ a, (at_cash_out_id a =? cash_out)%N) (attempts db).
Definition CountActiveExecutionWalletLocksForCashOut (wallet : Z) (db : CDB) : nat :=
  length (sql_many (λ l, l.2 =? wallet) (execution_locks (env db))).
Definition CountActivePositionCashOutsForWallet (wallet : Z) (db : CDB) : nat :=
  length (sql_many (λ c, (co_wallet c =? wallet) && active_state (co_state c)) (cash_outs db)).
Definition CountActivePositionCashOutBatchWalletLock (wallet : Z) (db : CDB) : nat :=
  length (sql_many (λ w, w =? wallet) (batch_wallet_locks (env db))).

(** The insert, with the foreign key to the wallet connection. *)
Definition CreatePositionCashOut_row (row : WormPositionCashOut) : co_tx WormPositionCashOut :=
  db ← tx_get;
  _ ← ensure (existsb (λ w, wc_wallet_id w =? co_wallet row) (connections (env db)))
       (CODB "worm_position_cash_outs_wallet_id_fkey");
  _ ← ensure (cash_out_check row) (CODB "worm_position_cash_outs_check");
  _ ← ensure (negb (existsb (λ c, (co_id c =? co_id row)%N) (cash_outs db))) (CODB "worm_position_cash_outs_pkey");
  _ ← ensure (negb (active_state (co_state row)
               && existsb (λ c, active_state (co_state c) && (co_wallet c =? co_wallet row)) (cash_outs db)))
       (CODB "worm_position_cash_outs_one_active_per_wallet_idx");
  t ← tx_lift (sql_insert (λ _, true) cash_out_conflict
                 (CODB "worm_position_cash_outs_one_active_per_position_idx") [row] (cash_outs db));
  _ ← tx_put (set_cash_outs t db);
  mret row.

Definition CreatePositionCashOutCommand (row : WormPositionCashOutCommand) : co_tx WormPositionCashOutCommand :=
  db ← tx_get;
  _ ← ensure (command_check row && existsb (λ x, (co_id x =? cm_cash_out_id row)%N) (cash_outs db))
       (CODB "worm_position_cash_out_commands_check");
  t ← tx_lift (sql_insert (λ _, true) (λ a b, (cm_id a =? cm_id b)%N) (CODB "worm_position_cash_out_commands_pkey")
                 [row] (commands db));
  _ ← tx_put (set_commands t db);
  mret row.

Definition CreatePositionCashOutAuthorization (row : WormPositionCashOutAuthorization)
    : co_tx WormPositionCashOutAuthorization :=
  db ← tx_get;
  t ← tx_lift (sql_insert
        (λ a, authorization_check a && existsb (λ x, (co_id x =? au_cash_out_id a)%N) (cash_outs db))
        (λ a b, (au_id a =? au_id b)%N || (au_cash_out_id a =? au_cash_out_id b)%N)
        (CODB "worm_position_cash_out_authorizations") [row] (authorizations db));
  _ ← tx_put (set_authorizations t db);
  mret row.

Definition QueueAuthorizedPositionCashOut (id owner : N) (expected : Z) (execution_expires : option Z) (now : Z)
    : co_tx WormPositionCashOut :=
  update_cash_out
    (λ c, (co_id c =? id)%N && (co_owner c =? owner)%N && (co_revision c =? expected)
          && bool_decide (co_state c = PositionCashOutStateAwaitingAuthorization)
          && (now <? ci_authorization_expires_at (co_intent c)))
    (λ c, {| co_intent := co_intent c; co_state := PositionCashOutStateQueued; co_revision := co_revision c + 1;
      co_reason_code := co_reason_code c; co_provider_state := co_provider_state c;
      co_provider_is_closed := co_provider_is_closed c; co_provider_is_liquidated := co_provider_is_liquidated c;
      co_execution_expires_at := execution_expires; co_authorized_at := Some now; co_next_poll_at := Some now;
      co_poll_count := co_poll_count c; co_reconcile_requested_at := co_reconcile_requested_at c;
      co_claim_id := co_claim_id c; co_claim_owner := co_claim_owner c; co_claim_expires_at := co_claim_expires_at c;
      co_completed_at := co_completed_at c; co_updated_at := now |}).

(** The authorization of a finished cash-out; the affected row count is not
    inspected. *)
Definition EndPositionCashOutAuthorization (st : PositionCashOutAuthorizationState) (now : Z) (reason : string)
    (cash_out : N) : co_tx unit :=
  db ← tx_get;
  let p a := (au_cash_out_id a =? cash_out)%N
             && bool_decide (au_state a = PositionCashOutAuthorizationStateAuthorized) in
  let f a := {| au_id := au_id a; au_cash_out_id := au_cash_out_id a; au_owner_account_id := au_owner_account_id a;
    au_scope := au_scope a; au_proof_kind := au_proof_kind a; au_session_jti_digest := au_session_jti_digest a;
    au_access_revision := au_access_revision a; au_intent_digest_sha256 := au_intent_digest_sha256 a;
    au_state := st; au_authorized_at := au_authorized_at a; au_ended_at := Some now; au_end_reason_code := reason;
    au_created_at := au_created_at a; au_updated_at := now |} in
  _ ← ensure (forallb (λ a, authorization_check (f a)) (sql_many p (authorizations db)))
       (CODB "worm_position_cash_out_authorizations_check");
  tx_put (set_authorizations (sql_update p f (authorizations db)) db).

Definition unclaimed (c : WormPositionCashOut) (now : Z) : bool :=
  is_none (co_claim_id c) || due (co_claim_expires_at c) now.
(** The condition [ClaimPositionCashOut] and [ListRecoverablePositionCashOutKeys]
    share. *)
Definition recoverable (c : WormPositionCashOut) (now : Z) : bool :=
  match co_state c with
  | PositionCashOutStateQueued => true
  | PositionCashOutStatePreflighting | PositionCashOutStateClosing => unclaimed c now
  | PositionCashOutStateAwaitingCompletion | PositionCashOutStateReconciliationRequired =>
      due (co_next_poll_at c) now && unclaimed c now
  | _ => false
  end.

(** [ORDER BY COALESCE(next_poll_at, updated_at), created_at, id LIMIT n] *)
Definition recoverable_le (a b : WormPositionCashOut) : bool :=
  let ka := default (co_updated_at a) (co_next_poll_at a) in
  let kb := default (co_updated_at b) (co_next_poll_at b) in
  (ka <? kb) || ((ka =? kb) && ((ci_created_at (co_intent a) <? ci_created_at (co_intent b))
    || ((ci_created_at (co_intent a) =? ci_created_at (co_intent b)) && (co_id a <=? co_id b)%N))).
Definition ListRecoverablePositionCashOutKeys (now : Z) (limit : Z) (db : CDB) : list N :=
  co_id <$> take (Z.to_nat limit) (sort_by recoverable_le
    (sql_many (λ c, recoverable c now
       && negb (negb (is_none (ci_batch_id (co_intent c)))
                && bool_decide (co_state c = PositionCashOutStateReconciliationRequired))) (cash_outs db))).

Definition ClaimPositionCashOut_query (id claim : N) (owner : string) (expires : option Z) (now : Z)
    : co_tx WormPositionCashOut :=
  update_cash_out
    (λ c, (co_id c =? id)%N && negb (is_none (co_authorized_at c)) && negb (is_none (co_execution_expires_at c))
          && recoverable c now)
    (λ c, {| co_intent := co_intent c;
      co_state := if bool_decide (co_state c = PositionCashOutStateQueued) then PositionCashOutStatePreflighting
                  else co_state c;
      co_revision := co_revision c + 1; co_reason_code := co_reason_code c; co_provider_state := co_provider_state c;
      co_provider_is_closed := co_provider_is_closed c; co_provider_is_liquidated := co_provider_is_liquidated c;
      co_execution_expires_at := co_execution_expires_at c; co_authorized_at := co_authorized_at c;
      co_next_poll_at := co_next_poll_at c; co_poll_count := co_poll_count c;
      co_reconcile_requested_at := co_reconcile_requested_at c; co_claim_id := Some claim; co_claim_owner := owner;
      co_claim_expires_at := expires; co_completed_at := co_completed_at c; co_updated_at := now |}).

Definition RenewPositionCashOutClaim_query (id claim : N) (owner : string) (expires : option Z) (now : Z)
    : co_tx WormPositionCashOut :=
  update_cash_out
    (λ c, (co_id c =? id)%N && bool_decide (co_claim_id c = Some claim) && bool_decide (co_claim_owner c = owner)
          && later (co_claim_expires_at c) now
          && match co_state c with
             | PositionCashOutStatePreflighting | PositionCashOutStateClosing
             | PositionCashOutStateAwaitingCompletion | PositionCashOutStateReconciliationRequired => true
             | _ => false end)
    (λ c, {| co_intent := co_intent c; co_state := co_state c; co_revision := co_revision c;
      co_reason_code := co_reason_code c; co_provider_state := co_provider_state c;
      co_provider_is_closed := co_provider_is_closed c; co_provider_is_liquidated := co_provider_is_liquidated c;
      co_execution_expires_at := co_execution_expires_at c; co_authorized_at := co_authorized_at c;
      co_next_poll_at := co_next_poll_at c; co_poll_count := co_poll_count c;
      co_reconcile_requested_at := co_reconcile_requested_at c; co_claim_id := co_claim_id c;
      co_claim_owner := co_claim_owner c; co_claim_expires_at := expires; co_completed_at := co_completed_at c;
      co_updated_at := now |}).

Definition BeginPositionCashOutClosing_query (id claim : N) (provider_state : string) (now : Z)
    : co_tx WormPositionCashOut :=
  update_cash_out
    (λ c, (co_id c =? id)%N && bool_decide (co_state c = PositionCashOutStatePreflighting)
          && bool_decide (co_claim_id c = Some claim) && later (co_claim_expires_at c) now
          && later (co_execution_expires_at c) now)
    (λ c, {| co_intent := co_intent c; co_state := PositionCashOutStateClosing; co_revision := co_revision c + 1;
      co_reason_code := ""; co_provider_state := provider_state; co_provider_is_closed := false;
      co_provider_is_liquidated := false; co_execution_expires_at := co_execution_expires_at c;
      co_authorized_at := co_authorized_at c; co_next_poll_at := None; co_poll_count := co_poll_count c + 1;
      co_reconcile_requested_at := co_reconcile_requested_at c; co_claim_id := co_claim_id c;
      co_claim_owner := co_claim_owner c; co_claim_expires_at := co_claim_expires_at c;
      co_completed_at := co_completed_at c; co_updated_at := now |}).

(** The cash-out row a Close may be prepared or dispatched for. *)
Definition closing_claimed (claim : N) (now : Z) (c : WormPositionCashOut) : bool :=
  bool_decide (co_state c = PositionCashOutStateClosing) && bool_decide (co_claim_id c = Some claim)
  && later (co_claim_expires_at c) now && later (co_execution_expires_at c) now.

(** [INSERT ... SELECT]: no row when the cash-out does not qualify. *)
Definition CreatePositionCashOutAttempt (id cash_out claim : N) (digest : string) (now : Z)
    : co_tx WormPositionCashOutAttempt :=
  db ← tx_get;
  _ ← tx_lift (of_option (sql_one (λ c, (co_id c =? cash_out)%N && closing_claimed claim now c) (cash_outs db)) CONoRows);
  let row := {| at_id := id; at_cash_out_id := cash_out; at_state := PositionCashOutAttemptStatePrepared;
    at_request_sha256 := digest; at_http_status := None; at_provider_code := None; at_provider_slug := "";
    at_provider_state := ""; at_error_code := ""; at_prepared_at := now; at_dispatched_at := None;
    at_completed_at := None; at_updated_at := now |} in
  _ ← ensure (attempt_check row) (CODB "worm_position_cash_out_attempts_check");
  _ ← ensure (negb (existsb (λ a, (at_id a =? id)%N) (attempts db))) (CODB "worm_position_cash_out_attempts_pkey");
  t ← tx_lift (sql_insert (λ _, true) (λ a b, (at_id a =? at_id b)%N || (at_cash_out_id a =? at_cash_out_id b)%N)
                 (CODB "worm_position_cash_out_attempts_cash_out_id_key") [row] (attempts db));
  _ ← tx_put (set_attempts t db);
  mret row.

Definition update_attempt (p : WormPositionCashOutAttempt → bool)
    (f : WormPositionCashOutAttempt → WormPositionCashOutAttempt) : co_tx WormPositionCashOutAttempt :=
  db ← tx_get;
  r ← tx_lift (of_option (sql_one p (attempts db)) CONoRows);
  _ ← ensure (attempt_check (f r)) (CODB "worm_position_cash_out_attempts_check");
  _ ← tx_put (set_attempts (sql_update p f (attempts db)) db);
  mret (f r).

(** [UPDATE attempts ... FROM cash_outs] *)
Definition DispatchPositionCashOutAttempt_query (id cash_out claim : N) (now : Z) : co_tx WormPositionCashOutAttempt :=
  db ← tx_get;
  update_attempt
    (λ a, (at_id a =? id)%N && (at_cash_out_id a =? cash_out)%N
          && bool_decide (at_state a = PositionCashOutAttemptStatePrepared)
          && existsb (λ c, (co_id c =? at_cash_out_id a)%N && closing_claimed claim now c) (cash_outs db))
    (λ a, {| at_id := at_id a; at_cash_out_id := at_cash_out_id a; at_state := PositionCashOutAttemptStateDispatched;
      at_request_sha256 := at_request_sha256 a; at_http_status := at_http_status a;
      at_provider_code := at_provider_code a; at_provider_slug := at_provider_slug a;
      at_provider_state := at_provider_state a; at_error_code := at_error_code a; at_prepared_at := at_prepared_at a;
      at_dispatched_at := Some now; at_completed_at := at_completed_at a; at_updated_at := now |}).

(** [:execrows]; zero rows is the caller's error. *)
Definition TouchPositionCashOutAfterDispatch (cash_out claim : N) (now : Z) : co_tx WormPositionCashOut :=
  update_cash_out
    (λ c, (co_id c =? cash_out)%N && bool_decide (co_state c = PositionCashOutStateClosing)
          && bool_decide (co_claim_id c = Some claim))
    (λ c, {| co_intent := co_intent c; co_state := co_state c; co_revision := co_revision c + 1;
      co_reason_code := co_reason_code c; co_provider_state := co_provider_state c;
      co_provider_is_closed := co_provider_is_closed c; co_provider_is_liquidated := co_provider_is_liquidated c;
      co_execution_expires_at := co_execution_expires_at c; co_authorized_at := co_authorized_at c;
      co_next_poll_at := co_next_poll_at c; co_poll_count := co_poll_count c;
      co_reconcile_requested_at := co_reconcile_requested_at c; co_claim_id := co_claim_id c;
      co_claim_owner := co_claim_owner c; co_claim_expires_at := co_claim_expires_at c;
      co_completed_at := co_completed_at c; co_updated_at := now |}).

Definition resolved_attempt_state (s : PositionCashOutAttemptState) : bool :=
  match s with
  | PositionCashOutAttemptStateAcknowledged | PositionCashOutAttemptStateRejected
  | PositionCashOutAttemptStateOutcomeUnknown => true
  | _ => false
  end.
Definition ResolvePositionCashOutAttempt_query (id cash_out : N) (st : PositionCashOutAttemptState)
    (http_status provider_code : option Z) (provider_slug provider_state error_code : string) (now : Z)
    : co_tx WormPositionCashOutAttempt :=
  update_attempt
    (λ a, (at_id a =? id)%N && (at_cash_out_id a =? cash_out)%N
          && bool_decide (at_state a = PositionCashOutAttemptStateDispatched) && resolved_attempt_state st)
    (λ a, {| at_id := at_id a; at_cash_out_id := at_cash_out_id a; at_state := st;
      at_request_sha256 := at_request_sha256 a; at_http_status := http_status; at_provider_code := provider_code;
      at_provider_slug := provider_slug; at_provider_state := provider_state; at_error_code := error_code;
      at_prepared_at := at_prepared_at a; at_dispatched_at := at_dispatched_at a; at_completed_at := Some now;
      at_updated_at := now |}).

Definition observation_target (s : PositionCashOutState) : bool :=
  match s with
  | PositionCashOutStateAwaitingCompletion | PositionCashOutStateCompleted | PositionCashOutStateFailed
  | PositionCashOutStateReconciliationRequired => true
  | _ => false
  end.
Definition RecordPositionCashOutObservation_query (id claim : N) (expected next : PositionCashOutState)
    (reason provider_state : string) (is_closed is_liquidated : bool) (next_poll : option Z) (now : Z)
    : co_tx WormPositionCashOut :=
  update_cash_out
    (λ c, (co_id c =? id)%N && bool_decide (co_state c = expected) && bool_decide (co_claim_id c = Some claim)
          && observation_target next
          && (negb (bool_decide (next = PositionCashOutStateCompleted)) || is_closed)
          && (negb (bool_decide (next = PositionCashOutStateFailed)
                    || bool_decide (next = PositionCashOutStateReconciliationRequired))
              || negb (bool_decide (reason = EmptyString))))
    (λ c, {| co_intent := co_intent c; co_state := next; co_revision := co_revision c + 1; co_reason_code := reason;
      co_provider_state := provider_state; co_provider_is_closed := is_closed;
      co_provider_is_liquidated := is_liquidated; co_execution_expires_at := co_execution_expires_at c;
      co_authorized_at := co_authorized_at c; co_next_poll_at := next_poll; co_poll_count := co_poll_count c + 1;
      co_reconcile_requested_at := None; co_claim_id := None; co_claim_owner := ""; co_claim_expires_at := None;
      co_completed_at := if bool_decide (next = PositionCashOutStateCompleted)
                            || bool_decide (next = PositionCashOutStateFailed) then Some now else None;
      co_updated_at := now |}).

Definition RequestPositionCashOutReconciliation_query (id owner : N) (expected now : Z) : co_tx WormPositionCashOut :=
  update_cash_out
    (λ c, (co_id c =? id)%N && (co_owner c =? owner)%N && (co_revision c =? expected)
          && bool_decide (co_state c = PositionCashOutStateReconciliationRequired)
          && is_none (co_claim_id c) && is_none (co_reconcile_requested_at c))
    (λ c, {| co_intent := co_intent c; co_state := co_state c; co_revision := co_revision c + 1;
      co_reason_code := co_reason_code c; co_provider_state := co_provider_state c;
      co_provider_is_closed := co_provider_is_closed c; co_provider_is_liquidated := co_provider_is_liquidated c;
      co_execution_expires_at := co_execution_expires_at c; co_authorized_at := co_authorized_at c;
      co_next_poll_at := Some now; co_poll_count := co_poll_count c; co_reconcile_requested_at := Some now;
      co_claim_id := co_claim_id c; co_claim_owner := co_claim_owner c; co_claim_expires_at := co_claim_expires_at c;
      co_completed_at := co_completed_at c; co_updated_at := now |}).

(** ** The batch component's writes to cash-outs *)
(** The row [CreateBatchChildPositionCashOut] inserts for the frozen columns of a
    batch item: already authorized by the batch, without a deadline of its own
    (9999-12-31T23:59:59Z), and queued. *)
Definition far_future : Z := 315537897599 * 1000000000.
Definition batch_child_row (i : CashOutIntent) (provider_state : string) (now : Z) : WormPositionCashOut := {|
  co_intent := {| ci_id := ci_id i; ci_owner_account_id := ci_owner_account_id i; ci_wallet_id := ci_wallet_id i;
    ci_wallet_address := ci_wallet_address i; ci_credential_version := ci_credential_version i;
    ci_position_pubkey := ci_position_pubkey i; ci_market_condition_id := ci_market_condition_id i;
    ci_is_yes := ci_is_yes i; ci_position_created_at := ci_position_created_at i;
    ci_position_request_pubkey := ci_position_request_pubkey i; ci_shares := ci_shares i;
    ci_intent_digest_sha256 := ci_intent_digest_sha256 i; ci_authorization_expires_at := far_future;
    ci_created_at := now; ci_batch_id := ci_batch_id i; ci_batch_item_id := ci_batch_item_id i |};
  co_state := PositionCashOutStateQueued; co_revision := 1; co_reason_code := ""; co_provider_state := provider_state;
  co_provider_is_closed := false; co_provider_is_liquidated := false; co_execution_expires_at := Some far_future;
  co_authorized_at := Some now; co_next_poll_at := Some now; co_poll_count := 0; co_reconcile_requested_at := None;
  co_claim_id := None; co_claim_owner := ""; co_claim_expires_at := None; co_completed_at := None;
  co_updated_at := now |}.

Definition FailUndispatchedPositionCashOutBatchChild (cash_out batch item : N) (now : Z) : co_tx WormPositionCashOut :=
  update_cash_out
    (λ c, (co_id c =? cash_out)%N && bool_decide (ci_batch_id (co_intent c) = Some batch)
          && bool_decide (ci_batch_item_id (co_intent c) = Some item)
          && (bool_decide (co_state c = PositionCashOutStateFailed)
              || bool_decide (co_state c = PositionCashOutStateReconciliationRequired))
          && unclaimed c now)
    (λ c, {| co_intent := co_intent c; co_state := PositionCashOutStateFailed; co_revision := co_revision c + 1;
      co_reason_code := "BATCH_TERMINATED"; co_provider_state := co_provider_state c;
      co_provider_is_closed := co_provider_is_closed c; co_provider_is_liquidated := co_provider_is_liquidated c;
      co_execution_expires_at := co_execution_expires_at c; co_authorized_at := co_authorized_at c;
      co_next_poll_at := None; co_poll_count := co_poll_count c;
      co_reconcile_requested_at := co_reconcile_requested_at c; co_claim_id := None; co_claim_owner := "";
      co_claim_expires_at := None;
      co_completed_at := match co_completed_at c with Some t => Some t | None => Some now end;
      co_updated_at := now |}).

(** ** Expiry *)
(** The two expiry statements: [locked] are the rows that [FOR UPDATE SKIP
    LOCKED] leaves to concurrent transactions. *)
Definition expire_row (st : PositionCashOutState) (now : Z) (c : WormPositionCashOut) : WormPositionCashOut := {|
  co_intent := co_intent c; co_state := st; co_revision := co_revision c + 1; co_reason_code := "AUTHORIZATION_EXPIRED";
  co_provider_state := co_provider_state c; co_provider_is_closed := co_provider_is_closed c;
  co_provider_is_liquidated := co_provider_is_liquidated c; co_execution_expires_at := co_execution_expires_at c;
  co_authorized_at := co_authorized_at c; co_next_poll_at := co_next_poll_at c; co_poll_count := co_poll_count c;
  co_reconcile_requested_at := co_reconcile_requested_at c; co_claim_id := None; co_claim_owner := "";
  co_claim_expires_at := None; co_completed_at := Some now; co_updated_at := now |}.
Definition expire_cash_outs (selected : CDB → list WormPositionCashOut) (st : PositionCashOutState) (now : Z)
    : co_tx (list WormPositionCashOut) :=
  db ← tx_get;
  let ids := co_id <$> selected db in
  let p c := bool_decide (co_id c ∈ ids) in
  _ ← ensure (forallb (λ c, cash_out_check (expire_row st now c) && cash_out_in_range (expire_row st now c))
                (sql_many p (cash_outs db))) (CODB "worm_position_cash_outs_check");
  _ ← tx_put (set_cash_outs (sql_update p (expire_row st now) (cash_outs db)) db);
  mret (expire_row st now <$> sql_many p (cash_outs db)).

Definition expiry_le (k : WormPositionCashOut → Z) (a b : WormPositionCashOut) : bool :=
  (k a <? k b) || ((k a =? k b) && (co_id a <=? co_id b)%N).
Definition ExpireUnauthorizedPositionCashOuts (locked : N → bool) (now : Z) (limit : Z) : co_tx (list WormPositionCashOut) :=
  expire_cash_outs (λ db, take (Z.to_nat limit) (sort_by (expiry_le (λ c, ci_authorization_expires_at (co_intent c)))
      (sql_many (λ c, bool_decide (co_state c = PositionCashOutStateAwaitingAuthorization)
                      && (ci_authorization_expires_at (co_intent c) <=? now) && negb (locked (co_id c))) (cash_outs db))))
    PositionCashOutStateExpired now.

(** No attempt, or one that was never dispatched. *)
Definition undispatched (db : CDB) (id : N) : bool :=
  match GetPositionCashOutAttempt id db with
  | None => true
  | Some a => bool_decide (at_state a = PositionCashOutAttemptStatePrepared)
  end.
Definition ExpireUndispatchedPositionCashOuts (locked : N → bool) (now : Z) (limit : Z) : co_tx (list WormPositionCashOut) :=
  expire_cash_outs (λ db, take (Z.to_nat limit) (sort_by (expiry_le (λ c, timestampValue (co_execution_expires_at c)))
      (sql_many (λ c, match co_state c with
                      | PositionCashOutStateQueued | PositionCashOutStatePreflighting | PositionCashOutStateClosing => true
                      | _ => false end
                      && due (co_execution_expires_at c) now && undispatched db (co_id c) && negb (locked (co_id c)))
         (cash_outs db))))
    PositionCashOutStateFailed now.

(** [ORDER BY created_at, id] *)
Definition ListActivePositionCashOuts_query (owner : N) (db : CDB) : list WormPositionCashOut :=
  sort_by (λ a b, (ci_created_at (co_intent a) <? ci_created_at (co_intent b))
                  || ((ci_created_at (co_intent a) =? ci_created_at (co_intent b)) && (co_id a <=? co_id b)%N))
    (sql_many (λ c, (co_owner c =? owner)%N && active_state (co_state c)) (cash_outs db)).

(** ** Queries on other components' tables *)
Definition GetWalletSelectionItem (owner : N) (wallet : Z) (address : string) (db : CDB) : option (N * Z * string) :=
  sql_one (λ i, (i.1.1 =? owner)%N && (i.1.2 =? wallet) && bool_decide (i.2 = address)) (selection_items (env db)).
Definition GetWalletConnectionForUpdate (wallet : Z) (db : CDB) : option WormWalletConnection :=
  sql_one (λ c, wc_wallet_id c =? wallet) (connections (env db)).
Definition GetActiveCredentialForUpdate (wallet : Z) (db : CDB) : option WormWalletCredential :=
  sql_one (λ c, (cd_wallet_id c =? wallet) && bool_decide (cd_state c = CredentialStateActive)) (credentials (env db)).
(** locks JOIN runs: [execution_locks] pairs the run's owner with the wallet. *)
Definition ListActiveExecutionRunWalletIDs_query (owner : N) (wallets : list Z) (db : CDB) : list Z :=
  sort_by Z.leb (snd <$> sql_many (λ l, (l.1 =? owner)%N && existsb (Z.eqb l.2) wallets) (execution_locks (env db))).
Definition GetPositionCashOutBatchByIDForUpdate (id : N) (db : CDB) : option WormPositionCashOutBatch :=
  sql_one (λ b, (bt_id b =? id)%N) (batches (env db)).
Definition GetPositionCashOutBatchItemForUpdate (id batch : N) (db : CDB) : option WormPositionCashOutBatchItem :=
  sql_one (λ i, (bi_id i =? id)%N && (bi_batch_id i =? batch)%N) (batch_items (env db)).

Definition SetPositionCashOutBatchItemBalanceBaseline (item batch cash_out : N) (mint : string) (decimals : Z)
    (amount : string) (slot now : Z) : co_tx unit :=
  db ← tx_get;
  let p i := (bi_id i =? item)%N && (bi_batch_id i =? batch)%N && bool_decide (bi_child_cash_out_id i = Some cash_out)
             && (bool_decide (bi_state i = PositionCashOutBatchItemStatePreflighting)
                 || bool_decide (bi_state i = PositionCashOutBatchItemStateClosing))
             && bool_decide (bi_baseline_usdc_mint i = EmptyString) in
  _ ← tx_lift (of_option (sql_one p (batch_items (env db))) CONoRows);
  tx_put (set_env (set_batch_items (sql_update p
    (λ i, {| bi_id := bi_id i; bi_batch_id := bi_batch_id i; bi_ordinal := bi_ordinal i;
      bi_child_cash_out_id := bi_child_cash_out_id i; bi_state := PositionCashOutBatchItemStateClosing;
      bi_baseline_usdc_mint := mint; bi_baseline_usdc_decimals := Some decimals;
      bi_baseline_usdc_atomic_amount := amount; bi_baseline_usdc_observed_slot := Some slot; bi_updated_at := now |})
    (batch_items (env db))) (env db)) db).
(** [:execrows]; no row is the caller's error. *)
Definition TouchPositionCashOutBatchAfterDispatch (batch : N) (ordinal : Z) (next_poll : option Z) (now : Z) : co_tx unit :=
  db ← tx_get;
  let p b := (bt_id b =? batch)%N && bool_decide (bt_current_item_ordinal b = Some ordinal) in
  r ← tx_lift (of_option (sql_one p (batches (env db))) CONoRows);
  _ ← ensure (bigint_in_range (bt_revision r + 1)) (CODB "bigint out of range");
  tx_put (set_env (set_batches (sql_update p
    (λ b, {| bt_id := bt_id b; bt_state := bt_state b; bt_current_item_ordinal := bt_current_item_ordinal b;
      bt_revision := bt_revision b + 1; bt_next_poll_at := next_poll; bt_updated_at := now |})
    (batches (env db))) (env db)) db).
