(* ===== verification/CashOutStages.v ===== *)
(** * Position cash-out: the provider stages

    [util/worm/margin_position_cash_out_stages.go]: inspection, preparation,
    dispatch and observation of one whole-position Close.  The provider client
    is the type class [MarginPositionCashOutClient] over the caller's monad, so
    the same definitions run in the worker and in the theorems below. *)

From S2P Require Import Prelude.
From stdpp Require Import base tactics option list list_numbers strings.
From Stdlib Require Import ZArith Lia Ascii.
#[local] Open Scope Z_scope.

(** ** Data *)
(** The fields of a provider position that the stages read. *)
Record MarginPosition := {
  mp_pubkey : string; mp_position_request_pubkey : option string; mp_market_condition_id : string;
  mp_is_yes : bool; mp_total_shares : string; mp_is_closed : bool; mp_is_liquidated : bool;
  mp_created : option Z }.
Record CloseMarginPositionResult := { cr_close_type : string; cr_position_pubkey : string; cr_is_closed : bool }.

Record MarginPositionCashOutTarget := {
  tg_position_pubkey : string; tg_position_request_pubkey : option string; tg_market_condition_id : string;
  tg_is_yes : bool; tg_created_at : Z; tg_total_shares : string; tg_is_closed : bool; tg_is_liquidated : bool }.
(** The price is a nil pointer everywhere; its value is never read. *)
Record marginPositionCashOutProviderRequest := { rq_position_pubkey : string; rq_price : option Z }.
Record MarginPositionCashOutCommand := {
  cmd_target : MarginPositionCashOutTarget; cmd_request : marginPositionCashOutProviderRequest;
  cmd_request_sha256 : string }.
Inductive MarginPositionCashOutCloseType :=
| CloseTypeUnset | MarginPositionCashOutCloseTypeZero | MarginPositionCashOutCloseTypeOrder.
Record MarginPositionCashOutDispatchObservation := {
  ob_position_pubkey : string; ob_close_type : MarginPositionCashOutCloseType; ob_is_closed : bool }.

Definition empty_target : MarginPositionCashOutTarget := {|
  tg_position_pubkey := ""; tg_position_request_pubkey := None; tg_market_condition_id := ""; tg_is_yes := false;
  tg_created_at := 0; tg_total_shares := ""; tg_is_closed := false; tg_is_liquidated := false |}.

(** The provider protocol: one GET and one DELETE, each with its result pointer
    and its error. *)
Class MarginPositionCashOutClient (M : Type → Type) : Type := {
  GetMarginPosition : string → M (option MarginPosition * option go_error)%type;
  CloseMarginPosition : string → option Z → M (option CloseMarginPositionResult * option go_error)%type;
}.

(** ** Canonical positive decimals *)

(** [marginPositionCashOutPositiveDecimalPattern] as an automaton: 0, or digits
    that do not start with 0, then optionally a dot and digits. *)
Inductive decimal_state := DStart | DZero | DInt | DDot | DFrac.
Definition is_digit (a : ascii) : bool := ((48 <=? N_of_ascii a) && (N_of_ascii a <=? 57))%N.
Fixpoint decimal_run (q : decimal_state) (s : string) : bool :=
  match s with
  | EmptyString => match q with DZero | DInt | DFrac => true | DStart | DDot => false end
  | String a s' =>
      match q with
      | DStart => if (N_of_ascii a =? 48)%N then decimal_run DZero s'
                  else if is_digit a then decimal_run DInt s' else false
      | DZero => if (N_of_ascii a =? 46)%N then decimal_run DDot s' else false
      | DInt => if is_digit a then decimal_run DInt s'
                else if (N_of_ascii a =? 46)%N then decimal_run DDot s' else false
      | DDot | DFrac => if is_digit a then decimal_run DFrac s' else false
      end
  end.
Definition decimal_pattern (s : string) : bool := decimal_run DStart s.
(** [new(big.Rat).SetString(s)] of a text that matches the pattern is positive
    when one of its digits is not zero. *)
Definition rat_positive (s : string) : bool :=
  existsb (λ a, is_digit a && negb (N_of_ascii a =? 48)%N) (String.list_ascii_of_string s).

Section Stages.
Context {SL : SolanaLib} {DL : DigestLib marginPositionCashOutProviderRequest}.

(** Both packages accept exactly the canonical text of a non-zero key. *)
Definition canonical_public_key (value : string) : bool :=
  match public_key_from_base58 value with
  | Some key => negb (key =? 0)%N && bool_decide (public_key_string key = value)
  | None => false
  end.

Definition validateCanonicalMarginPositionCashOutPublicKey (value field : string) : result go_error unit :=
  _ ← require (negb (bool_decide (value = EmptyString)))
        (ErrorText ("Worm margin position " +:+ field +:+ " is required"));
  require (canonical_public_key value)
    (ErrorText ("Worm margin position " +:+ field +:+ " must be a canonical Solana public key")).

Definition marginPositionCashOutMaximumDecimalBytes : nat := 128.
Definition validateMarginPositionCashOutPositiveDecimal (value field : string) : result go_error unit :=
  let e := ErrorText ("Worm margin position " +:+ field +:+ " must be a canonical positive decimal") in
  _ ← require (negb (bool_decide (String.length value = 0%nat))
               && bool_decide (String.length value ≤ marginPositionCashOutMaximumDecimalBytes)%nat
               && decimal_pattern value) e;
  require (rat_positive value) e.

Definition validateMarginPositionCashOutTarget (target : MarginPositionCashOutTarget) : result go_error unit :=
  _ ← validateCanonicalMarginPositionCashOutPublicKey (tg_position_pubkey target) "position pubkey";
  _ ← validateCanonicalMarginPositionCashOutPublicKey (tg_market_condition_id target) "market condition id";
  _ ← match tg_position_request_pubkey target with
      | Some key => validateCanonicalMarginPositionCashOutPublicKey key "position request pubkey"
      | None => Ok tt
      end;
  _ ← require (0 <? tg_created_at target) (ErrorText "Worm margin position creation time must be positive");
  validateMarginPositionCashOutPositiveDecimal (tg_total_shares target) "total shares".

(** The target is returned with the error too. *)
Definition InspectMarginPositionCashOutTarget (position : option MarginPosition)
    : MarginPositionCashOutTarget * option go_error :=
  match position with
  | None => (empty_target, Some (ErrorText "Worm margin position is required"))
  | Some p =>
      let target := {| tg_position_pubkey := mp_pubkey p; tg_position_request_pubkey := None;
        tg_market_condition_id := mp_market_condition_id p; tg_is_yes := mp_is_yes p; tg_created_at := 0;
        tg_total_shares := mp_total_shares p; tg_is_closed := mp_is_closed p;
        tg_is_liquidated := mp_is_liquidated p |} in
      match mp_created p with
      | None => (target, Some (ErrorText "Worm margin position has no creation time"))
      | Some created =>
          let target := {| tg_position_pubkey := mp_pubkey p;
            tg_position_request_pubkey := mp_position_request_pubkey p;
            tg_market_condition_id := mp_market_condition_id p; tg_is_yes := mp_is_yes p; tg_created_at := created;
            tg_total_shares := mp_total_shares p; tg_is_closed := mp_is_closed p;
            tg_is_liquidated := mp_is_liquidated p |} in
          match validateMarginPositionCashOutTarget target with
          | Ok _ => (target, None)
          | Err e => (target, Some e)
          end
      end
  end.

Definition digestMarginPositionCashOutRequest (r : marginPositionCashOutProviderRequest) : option string := json_sha256 r.

Definition PrepareMarginPositionCashOut (target : MarginPositionCashOutTarget)
    : result go_error MarginPositionCashOutCommand :=
  _ ← validateMarginPositionCashOutTarget target;
  _ ← require (negb (tg_is_liquidated target))
        (ErrorText "Worm margin position is liquidated and cannot be cashed out");
  _ ← require (negb (tg_is_closed target)) (ErrorText "Worm margin position is already closed");
  let request := {| rq_position_pubkey := tg_position_pubkey target; rq_price := None |} in
  digest ← of_option (digestMarginPositionCashOutRequest request)
             (ErrorWrap "digest Worm margin-position Cash Out" (ErrorText "json: unsupported value"));
  mret {| cmd_target := target; cmd_request := request; cmd_request_sha256 := digest |}.

Definition normalizeMarginPositionCashOutResult (res : option CloseMarginPositionResult) (expectedPositionPubkey : string)
    : option MarginPositionCashOutDispatchObservation * option go_error :=
  match res with
  | None => (None, Some (ErrorText "Worm margin-position Cash Out response is missing"))
  | Some r =>
      let obs pk ct := {| ob_position_pubkey := pk; ob_close_type := ct; ob_is_closed := cr_is_closed r |} in
      match validateCanonicalMarginPositionCashOutPublicKey (cr_position_pubkey r) "response position pubkey" with
      | Err e => (Some (obs EmptyString CloseTypeUnset), Some e)
      | Ok _ =>
          if negb (bool_decide (cr_position_pubkey r = expectedPositionPubkey)) then
            (Some (obs (cr_position_pubkey r) CloseTypeUnset),
             Some (ErrorText "Worm margin-position Cash Out response position pubkey mismatch"))
          else if bool_decide (cr_close_type r = "zero"%string) then
            (Some (obs (cr_position_pubkey r) MarginPositionCashOutCloseTypeZero), None)
          else if bool_decide (cr_close_type r = "order"%string) then
            (Some (obs (cr_position_pubkey r) MarginPositionCashOutCloseTypeOrder), None)
          else (Some (obs (cr_position_pubkey r) CloseTypeUnset),
                Some (ErrorText "Worm margin-position Cash Out response has an invalid close type"))
      end
  end.

Definition validateMarginPositionCashOutIdentity (expected observed : MarginPositionCashOutTarget) : result go_error unit :=
  let changed what := ErrorText ("Worm margin position " +:+ what +:+ " changed during Cash Out observation") in
  _ ← require (bool_decide (tg_position_pubkey observed = tg_position_pubkey expected)) (changed "pubkey");
  _ ← require (bool_decide (tg_market_condition_id observed = tg_market_condition_id expected)) (changed "market");
  _ ← require (bool_decide (tg_is_yes observed = tg_is_yes expected)) (changed "side");
  _ ← require (tg_created_at observed =? tg_created_at expected) (changed "creation time");
  require (bool_decide (tg_position_request_pubkey observed = tg_position_request_pubkey expected))
    (changed "request pubkey").

Section Client.
Context {M : Type → Type} `{!MRet M, !MBind M, !MarginPositionCashOutClient M}.

(** The checks before the request: [Some e] is the early return. *)
Definition dispatch_guard (command : MarginPositionCashOutCommand) : option go_error :=
  match validateMarginPositionCashOutTarget (cmd_target command) with
  | Err e => Some (ErrorWrap "validate Worm margin-position Cash Out command" e)
  | Ok _ =>
      if tg_is_liquidated (cmd_target command) || tg_is_closed (cmd_target command) then
        Some (ErrorText "Worm margin-position Cash Out command is not closable")
      else if negb (bool_decide (rq_position_pubkey (cmd_request command) = tg_position_pubkey (cmd_target command)))
              || bool_decide (is_Some (rq_price (cmd_request command))) then
        Some (ErrorText "Worm margin-position Cash Out command changed after preparation")
      else if bool_decide (digestMarginPositionCashOutRequest (cmd_request command)
                           = Some (cmd_request_sha256 command)) then None
      else Some (ErrorText "Worm margin-position Cash Out command changed after preparation")
  end.

Definition DispatchMarginPositionCashOut (command : MarginPositionCashOutCommand)
    : M (option MarginPositionCashOutDispatchObservation * option go_error)%type :=
  match dispatch_guard command with
  | Some e => mret (None, Some e)
  | None =>
      res ← CloseMarginPosition (rq_position_pubkey (cmd_request command)) None;
      let obs := normalizeMarginPositionCashOutResult res.1 (tg_position_pubkey (cmd_target command)) in
      mret (obs.1, errors_join res.2 obs.2)
  end.

Definition ObserveMarginPositionCashOut (target : MarginPositionCashOutTarget)
    : M (MarginPositionCashOutTarget * option go_error)%type :=
  match validateMarginPositionCashOutTarget target with
  | Err e => mret (empty_target, Some e)
  | Ok _ =>
      res ← GetMarginPosition (tg_position_pubkey target);
      match res.2 with
      | Some e => mret (empty_target, Some e)
      | None =>
          let '(observed, err) := InspectMarginPositionCashOutTarget res.1 in
          match err with
          | Some e => mret (observed, Some e)
          | None =>
              match validateMarginPositionCashOutIdentity target observed with
              | Err e => mret (observed, Some e)
              | Ok _ => mret (observed, None)
              end
          end
      end
  end.
End Client.
End Stages.
