(* ===== verification/CashOutStore.v ===== *)
(** * Position cash-out: the store operations

    [internal/wormtrading/store/position_cash_outs.go], with
    [DispatchPositionCashOutBatchAttempt] of [position_cash_out_batches.go].  A
    multi-statement operation is one transaction, so its body is a [co_tx]; the
    wallet advisory lock of [beginWalletTransaction] serializes the operations of
    a wallet, and a single statement is atomic by itself.  [clock] is the system
    clock that a zero [Now] stands for, [fresh] the UUID drawn by [uuid.New]. *)

From S2P Require Import Prelude Sql CashOutTypes CashOutStages.
From stdpp Require Import base tactics option list list_numbers sorting strings gmap.
From Stdlib Require Import ZArith Lia Ascii.
#[local] Open Scope Z_scope.

(** ** Domain values ([types.go]) *)
Record PositionCashOutAuthorization := {
  pau_id : string; pau_state : PositionCashOutAuthorizationState; pau_scope : string; pau_proof_kind : string;
  pau_session_jti_digest : string; pau_access_revision : Z; pau_intent_digest_sha256 : string;
  pau_authorized_at : Z; pau_ended_at : Z; pau_end_reason_code : string }.
Record PositionCashOutAttempt := {
  pat_id : string; pat_state : PositionCashOutAttemptState; pat_request_sha256 : string; pat_http_status : Z;
  pat_provider_code : Z; pat_provider_slug : string; pat_provider_state : string; pat_error_code : string;
  pat_prepared_at : Z; pat_dispatched_at : Z; pat_completed_at : Z }.
Record PositionCashOut := {
  pco_id : string; pco_owner_account_id : string; pco_wallet_id : Z; pco_wallet_address : string;
  pco_credential_version : Z; pco_position_pubkey : string; pco_market_condition_id : string; pco_is_yes : bool;
  pco_position_created_at : Z; pco_position_request_pubkey : string; pco_shares : string;
  pco_intent_digest_sha256 : string; pco_state : PositionCashOutState; pco_revision : Z; pco_reason_code : string;
  pco_provider_state : string; pco_provider_is_closed : bool; pco_provider_is_liquidated : bool;
  pco_authorization_expires_at : Z; pco_execution_expires_at : Z; pco_authorized_at : Z; pco_next_poll_at : Z;
  pco_poll_count : Z; pco_reconcile_requested_at : Z; pco_claim_id : string; pco_claim_owner : string;
  pco_claim_expires_at : Z; pco_completed_at : Z; pco_created_at : Z; pco_updated_at : Z; pco_batch_id : string;
  pco_batch_item_id : string; pco_authorization : option PositionCashOutAuthorization;
  pco_attempt : option PositionCashOutAttempt }.

Record CreatePositionCashOutRequest := {
  cr_owner_account_id : string; cr_command_id : string; cr_wallet_id : Z; cr_wallet_address : string;
  cr_credential_version : Z; crq_position_pubkey : string; cr_market_condition_id : string; cr_is_yes : bool;
  cr_position_created_at : Z; cr_position_request_pubkey : string; cr_shares : string; cr_provider_state : string;
  cr_provider_is_closed : bool; cr_provider_is_liquidated : bool; cr_authorization_expires_at : Z; cr_now : Z }.
Record GetPositionCashOutCreationRequest := {
  gc_owner_account_id : string; gc_command_id : string; gc_wallet_id : Z; gc_wallet_address : string;
  gc_position_pubkey : string }.
Record PositionCashOutCommandRequest := {
  cq_owner_account_id : string; cq_cash_out_id : string; cq_command_id : string; cq_expected_revision : Z;
  cq_now : Z }.
Record AuthorizePositionCashOutRequest := {
  aq_command : PositionCashOutCommandRequest; aq_proof_kind : string; aq_session_jti_digest : string;
  aq_access_revision : Z; aq_execution_expires_at : Z }.
Record PositionCashOutClaimRequest := {
  clq_cash_out_id : string; clq_claim_id : string; clq_worker_id : string; clq_lease_expires_at : Z; clq_now : Z }.
Record BeginPositionCashOutClosingRequest := {
  bq_cash_out_id : string; bq_claim_id : string; bq_provider_state : string; bq_now : Z }.
Record PreparePositionCashOutAttemptRequest := {
  pq_attempt_id : string; pq_cash_out_id : string; pq_claim_id : string; pq_request_sha256 : string; pq_now : Z }.
Record DispatchPositionCashOutAttemptRequest := {
  dq_attempt_id : string; dq_cash_out_id : string; dq_claim_id : string; dq_now : Z }.
Record ResolvePositionCashOutAttemptRequest := {
  rvq_attempt_id : string; rvq_cash_out_id : string; rvq_state : PositionCashOutAttemptState; rvq_http_status : Z;
  rvq_provider_code : Z; rvq_provider_slug : string; rvq_provider_state : string; rvq_error_code : string; rvq_now : Z }.
Record CompletePositionCashOutDispatchRequest := {
  fq_attempt_id : string; fq_cash_out_id : string; fq_claim_id : string; fq_http_status : Z; fq_provider_code : Z;
  fq_provider_slug : string; fq_provider_state : string; fq_error_code : string; fq_now : Z }.
Record RecordPositionCashOutObservationRequest := {
  oq_cash_out_id : string; oq_claim_id : string; oq_expected_state : PositionCashOutState;
  oq_next_state : PositionCashOutState; oq_reason_code : string; oq_provider_state : string;
  oq_provider_is_closed : bool; oq_provider_is_liquidated : bool; oq_next_poll_at : Z; oq_now : Z }.
Record PositionCashOutBatchBalanceEvidence := {
  be_mint : string; be_decimals : Z; be_atomic_amount : string; be_observed_slot : Z }.
Record DispatchPositionCashOutBatchAttemptRequest := {
  dbq_batch_id : string; dbq_item_id : string; dbq_attempt_id : string; dbq_cash_out_id : string;
  dbq_claim_id : string; dbq_baseline : PositionCashOutBatchBalanceEvidence; dbq_next_poll_at : Z; dbq_now : Z }.

(** The anonymous structs whose JSON is digested. *)
Inductive CashOutPayload :=
| PayloadCreation (owner command : string) (wallet : Z) (address position : string)
| PayloadIntent (owner : string) (wallet : Z) (address position market : string) (is_yes : bool)
    (created_at : Z) (request shares : string)
| PayloadAuthorize (owner cash_out command : string) (expected : Z) (proof jti : string) (access : Z)
| PayloadReconcile (owner cash_out command : string) (expected : Z).

Section Store.
Context {UL : UuidLib} {SL : SolanaLib} {DL : DigestLib CashOutPayload}.

(** ** Helpers ([helpers.go], [market_combinations.go]) *)
Definition marketCombinationUUID (value : string) : result COError (N * string) :=
  match uuid_parse (trim_space value) with
  | Some parsed => if (parsed =? 0)%N then Err ErrInvalidPositionCashOut else Ok (parsed, uuid_string parsed)
  | None => Err ErrInvalidPositionCashOut
  end.
Definition uuidValue (value : option N) : string := match value with Some u => uuid_string u | None => "" end.
Definition maxWalletAddressLength : nat := 64.
Definition validateWalletReference (walletID : Z) (address : string) : result COError unit :=
  _ ← require (0 <? walletID) ErrInvalidPositionCashOut;
  require (negb (bool_decide (address = EmptyString)) && bool_decide (address = trim_space address)
           && bool_decide (String.length address ≤ maxWalletAddressLength)%nat) ErrInvalidPositionCashOut.

Definition maxPositionCashOutCodeLength : nat := 100.
Definition maxPositionCashOutDecimalLength : nat := 128.
Definition maxPositionCashOutRecoveryLimit : Z := 100.

Definition validatePositionCashOutPublicKey (value : string) (required : bool) : result COError unit :=
  if bool_decide (value = EmptyString) && negb required then Ok tt else
  _ ← require (negb (bool_decide (value = EmptyString)) && bool_decide (value = trim_space value))
        ErrInvalidPositionCashOut;
  require (canonical_public_key value) ErrInvalidPositionCashOut.

(** The loop ranges over code points; control characters are single bytes. *)
Definition normalizePositionCashOutCode (value : string) (required : bool) : result COError string :=
  let trimmed := trim_space value in
  _ ← require (bool_decide (value = trimmed) && negb (required && bool_decide (trimmed = EmptyString))
               && bool_decide (String.length trimmed ≤ maxPositionCashOutCodeLength)%nat) ErrInvalidPositionCashOut;
  _ ← require (forallb (λ a, negb ((N_of_ascii a <? 32)%N || (N_of_ascii a =? 127)%N))
                 (String.list_ascii_of_string trimmed)) ErrInvalidPositionCashOut;
  mret trimmed.

Definition positionCashOutOwnerAndID (owner cashOut : string) : result COError (N * string * N) :=
  o ← marketCombinationUUID owner;
  i ← marketCombinationUUID cashOut;
  mret (o.1, o.2, i.1).

Definition normalizePositionCashOutClaim (clock : Z) (req : PositionCashOutClaimRequest)
    : result COError (N * N * string * Z) :=
  id ← marketCombinationUUID (clq_cash_out_id req);
  claimID ← marketCombinationUUID (clq_claim_id req);
  workerID ← normalizePositionCashOutCode (clq_worker_id req) true;
  let now := canonicalNow clock (clq_now req) in
  _ ← require (now <? clq_lease_expires_at req) ErrInvalidPositionCashOut;
  mret (id.1, claimID.1, workerID, now).

(** Sort, reject non-positive ids, drop adjacent duplicates. *)
Fixpoint dedup_sorted (last : option Z) (ids : list Z) : result COError (list Z) :=
  match ids with
  | [] => Ok []
  | w :: ids' =>
      _ ← require (0 <? w) ErrInvalidPositionCashOut;
      if bool_decide (last = Some w) then dedup_sorted last ids'
      else rest ← dedup_sorted (Some w) ids'; mret (w :: rest)
  end.
Definition normalizePositionCashOutWalletIDs (walletIDs : list Z) : result COError (list Z) :=
  match walletIDs with [] => Ok [] | _ => dedup_sorted None (sort_by Z.leb walletIDs) end.

Definition validPositionCashOutResolvedAttemptState (s : PositionCashOutAttemptState) : bool :=
  match s with
  | PositionCashOutAttemptStateAcknowledged | PositionCashOutAttemptStateRejected
  | PositionCashOutAttemptStateOutcomeUnknown => true
  | _ => false
  end.

Definition validPositionCashOutObservationTransition (expected next : PositionCashOutState) : bool :=
  match expected with
  | PositionCashOutStatePreflighting =>
      match next with PositionCashOutStateCompleted | PositionCashOutStateFailed => true | _ => false end
  | PositionCashOutStateClosing | PositionCashOutStateAwaitingCompletion =>
      match next with
      | PositionCashOutStateAwaitingCompletion | PositionCashOutStateCompleted | PositionCashOutStateFailed
      | PositionCashOutStateReconciliationRequired => true | _ => false end
  | PositionCashOutStateReconciliationRequired =>
      match next with
      | PositionCashOutStateCompleted | PositionCashOutStateFailed
      | PositionCashOutStateReconciliationRequired => true | _ => false end
  | _ => false
  end.

Definition positionCashOutDigest (p : CashOutPayload) : result COError string := of_option (json_sha256 p) ErrDigest.
Definition positionCashOutCreationDigest (req : GetPositionCashOutCreationRequest) : result COError string :=
  positionCashOutDigest (PayloadCreation (gc_owner_account_id req) (gc_command_id req) (gc_wallet_id req)
    (gc_wallet_address req) (gc_position_pubkey req)).

(** 1970-01-01T00:00:00Z *)
Definition unix_epoch : Z := 62135596800 * 1000000000.

(** The request after its normalization. *)
Definition normalizePositionCashOutCreateRequest (req : CreatePositionCashOutRequest) (now : Z)
    : result COError CreatePositionCashOutRequest :=
  _ ← validateWalletReference (cr_wallet_id req) (cr_wallet_address req);
  _ ← require (0 <? cr_credential_version req) ErrInvalidPositionCashOut;
  _ ← validatePositionCashOutPublicKey (crq_position_pubkey req) true;
  _ ← validatePositionCashOutPublicKey (cr_market_condition_id req) true;
  _ ← validatePositionCashOutPublicKey (cr_position_request_pubkey req) false;
  _ ← require (negb (cr_position_created_at req =? 0) && (unix_epoch <? cr_position_created_at req))
        ErrInvalidPositionCashOut;
  _ ← require (negb (bool_decide (String.length (cr_shares req) = 0%nat))
               && bool_decide (String.length (cr_shares req) ≤ maxPositionCashOutDecimalLength)%nat
               && decimal_pattern (cr_shares req)) ErrInvalidPositionCashOut;
  _ ← require (rat_positive (cr_shares req)) ErrInvalidPositionCashOut;
  providerState ← normalizePositionCashOutCode (cr_provider_state req) false;
  _ ← require (now <? cr_authorization_expires_at req) ErrInvalidPositionCashOut;
  mret {| cr_owner_account_id := cr_owner_account_id req; cr_command_id := cr_command_id req;
    cr_wallet_id := cr_wallet_id req; cr_wallet_address := cr_wallet_address req;
    cr_credential_version := cr_credential_version req; crq_position_pubkey := crq_position_pubkey req;
    cr_market_condition_id := cr_market_condition_id req; cr_is_yes := cr_is_yes req;
    cr_position_created_at := cr_position_created_at req; cr_position_request_pubkey := cr_position_request_pubkey req;
    cr_shares := cr_shares req; cr_provider_state := providerState; cr_provider_is_closed := cr_provider_is_closed req;
    cr_provider_is_liquidated := cr_provider_is_liquidated req;
    cr_authorization_expires_at := cr_authorization_expires_at req; cr_now := cr_now req |}.

(** ** Loading *)
Definition mapPositionCashOutAuthorization (row : WormPositionCashOutAuthorization) : PositionCashOutAuthorization := {|
  pau_id := uuidValue (Some (au_id row)); pau_state := au_state row; pau_scope := au_scope row;
  pau_proof_kind := au_proof_kind row; pau_session_jti_digest := au_session_jti_digest row;
  pau_access_revision := au_access_revision row; pau_intent_digest_sha256 := au_intent_digest_sha256 row;
  pau_authorized_at := au_authorized_at row; pau_ended_at := timestampValue (au_ended_at row);
  pau_end_reason_code := au_end_reason_code row |}.
Definition mapPositionCashOutAttempt (row : WormPositionCashOutAttempt) : PositionCashOutAttempt := {|
  pat_id := uuidValue (Some (at_id row)); pat_state := at_state row; pat_request_sha256 := at_request_sha256 row;
  pat_http_status := nullableInt32 (at_http_status row); pat_provider_code := nullableInt32 (at_provider_code row);
  pat_provider_slug := at_provider_slug row; pat_provider_state := at_provider_state row;
  pat_error_code := at_error_code row; pat_prepared_at := at_prepared_at row;
  pat_dispatched_at := timestampValue (at_dispatched_at row); pat_completed_at := timestampValue (at_completed_at row) |}.
(** [mapPositionCashOut] with the two pointers [loadPositionCashOut] fills in. *)
Definition mapPositionCashOut (row : WormPositionCashOut) (authorization : option PositionCashOutAuthorization)
    (attempt : option PositionCashOutAttempt) : PositionCashOut :=
  let i := co_intent row in {|
  pco_id := uuidValue (Some (ci_id i)); pco_owner_account_id := uuidValue (Some (ci_owner_account_id i));
  pco_wallet_id := ci_wallet_id i; pco_wallet_address := ci_wallet_address i;
  pco_credential_version := ci_credential_version i; pco_position_pubkey := ci_position_pubkey i;
  pco_market_condition_id := ci_market_condition_id i; pco_is_yes := ci_is_yes i;
  pco_position_created_at := ci_position_created_at i; pco_position_request_pubkey := ci_position_request_pubkey i;
  pco_shares := ci_shares i; pco_intent_digest_sha256 := ci_intent_digest_sha256 i; pco_state := co_state row;
  pco_revision := co_revision row; pco_reason_code := co_reason_code row; pco_provider_state := co_provider_state row;
  pco_provider_is_closed := co_provider_is_closed row; pco_provider_is_liquidated := co_provider_is_liquidated row;
  pco_authorization_expires_at := ci_authorization_expires_at i;
  pco_execution_expires_at := timestampValue (co_execution_expires_at row);
  pco_authorized_at := timestampValue (co_authorized_at row); pco_next_poll_at := timestampValue (co_next_poll_at row);
  pco_poll_count := co_poll_count row; pco_reconcile_requested_at := timestampValue (co_reconcile_requested_at row);
  pco_claim_id := uuidValue (co_claim_id row); pco_claim_owner := co_claim_owner row;
  pco_claim_expires_at := timestampValue (co_claim_expires_at row);
  pco_completed_at := timestampValue (co_completed_at row); pco_created_at := ci_created_at i;
  pco_updated_at := co_updated_at row; pco_batch_id := uuidValue (ci_batch_id i);
  pco_batch_item_id := uuidValue (ci_batch_item_id i); pco_authorization := authorization; pco_attempt := attempt |}.
Definition loadPositionCashOut (row : WormPositionCashOut) (db : CDB) : PositionCashOut :=
  mapPositionCashOut row (mapPositionCashOutAuthorization <$> GetPositionCashOutAuthorization (co_id row) db)
    (mapPositionCashOutAttempt <$> GetPositionCashOutAttempt (co_id row) db).
Definition loadPositionCashOutByID (id : N) (db : CDB) : result COError PositionCashOut :=
  row ← of_option (GetPositionCashOutByID id db) ErrPositionCashOutNotFound;
  mret (loadPositionCashOut row db).
Definition load (row : WormPositionCashOut) : co_tx PositionCashOut := db ← tx_get; mret (loadPositionCashOut row db).

Definition positionCashOutWalletID (owner cashOut : N) (db : CDB) : result COError Z :=
  row ← of_option (GetPositionCashOut cashOut owner db) ErrPositionCashOutNotFound;
  mret (co_wallet row).

(** ** Commands *)

(** [constraint] errors replaced by a sentinel. *)
Definition co_on_constraints {A} (m : co_tx A) (cs : list string) (e : COError) : co_tx A := λ s,
  match m s with
  | Err (CODB c) => if bool_decide (c ∈ cs) then Err e else Err (CODB c)
  | r => r
  end.
Lemma co_on_constraints_ok {A} (m : co_tx A) cs e s r : co_on_constraints m cs e s = Ok r ↔ m s = Ok r.
Proof.
  unfold co_on_constraints. destruct (m s) as [|[]]; try naive_solver. case_bool_decide; naive_solver.
Qed.

Definition GetPositionCashOutCreation (req : GetPositionCashOutCreationRequest) (db : CDB)
    : result COError (option PositionCashOut) :=
  owner ← marketCombinationUUID (gc_owner_account_id req);
  command ← marketCombinationUUID (gc_command_id req);
  _ ← validateWalletReference (gc_wallet_id req) (gc_wallet_address req);
  _ ← validatePositionCashOutPublicKey (gc_position_pubkey req) true;
  digest ← positionCashOutCreationDigest {| gc_owner_account_id := owner.2; gc_command_id := command.2;
             gc_wallet_id := gc_wallet_id req; gc_wallet_address := gc_wallet_address req;
             gc_position_pubkey := gc_position_pubkey req |};
  match GetPositionCashOutCommand command.1 db with
  | None => Ok None
  | Some cmd =>
      _ ← require ((cm_owner_account_id cmd =? owner.1)%N
                   && bool_decide (cm_kind cmd = PositionCashOutCommandKindCreate)
                   && bool_decide (cm_request_sha256 cmd = digest)) ErrPositionCashOutCommandConflict;
      cashOut ← loadPositionCashOutByID (cm_cash_out_id cmd) db;
      _ ← require (bool_decide (pco_owner_account_id cashOut = owner.2) && (pco_wallet_id cashOut =? gc_wallet_id req)
                   && bool_decide (pco_wallet_address cashOut = gc_wallet_address req)
                   && bool_decide (pco_position_pubkey cashOut = gc_position_pubkey req))
            ErrPositionCashOutCommandConflict;
      mret (Some cashOut)
  end.

(** The state a new cash-out starts in: an already liquidated or closed position
    needs no Close. *)
Definition initial_state (req : CreatePositionCashOutRequest) (now : Z) : PositionCashOutState * string * Z :=
  if cr_provider_is_liquidated req then (PositionCashOutStateFailed, "POSITION_LIQUIDATED"%string, now)
  else if cr_provider_is_closed req then (PositionCashOutStateCompleted, ""%string, now)
  else (PositionCashOutStateAwaitingAuthorization, ""%string, 0).

Definition CreatePositionCashOut (clock : Z) (fresh : N) (req : CreatePositionCashOutRequest) : co_tx PositionCashOut :=
  owner ← tx_lift (marketCombinationUUID (cr_owner_account_id req));
  command ← tx_lift (marketCombinationUUID (cr_command_id req));
  let now := canonicalNow clock (cr_now req) in
  req ← tx_lift (normalizePositionCashOutCreateRequest req now);
  requestDigest ← tx_lift (positionCashOutCreationDigest {| gc_owner_account_id := owner.2; gc_command_id := command.2;
    gc_wallet_id := cr_wallet_id req; gc_wallet_address := cr_wallet_address req;
    gc_position_pubkey := crq_position_pubkey req |});
  intentDigest ← tx_lift (positionCashOutDigest (PayloadIntent (cr_owner_account_id req) (cr_wallet_id req)
    (cr_wallet_address req) (crq_position_pubkey req) (cr_market_condition_id req) (cr_is_yes req)
    (cr_position_created_at req) (cr_position_request_pubkey req) (cr_shares req)));
  db ← tx_get;
  match GetPositionCashOutCommand command.1 db with
  | Some existing =>
      _ ← ensure ((cm_owner_account_id existing =? owner.1)%N
                  && bool_decide (cm_kind existing = PositionCashOutCommandKindCreate)
                  && bool_decide (cm_request_sha256 existing = requestDigest)) ErrPositionCashOutCommandConflict;
      tx_lift (loadPositionCashOutByID (cm_cash_out_id existing) db)
  | None =>
      _ ← tx_lift (of_option (GetWalletSelectionItem owner.1 (cr_wallet_id req) (cr_wallet_address req) db)
                    ErrWalletNotSelected);
      connection ← tx_lift (of_option (GetWalletConnectionForUpdate (cr_wallet_id req) db)
                             ErrPositionCashOutConnectionChanged);
      _ ← ensure (bool_decide (wc_address connection = cr_wallet_address req)
                  && bool_decide (wc_state connection = ConnectionStateConnected)) ErrPositionCashOutConnectionChanged;
      credential ← tx_lift (of_option (GetActiveCredentialForUpdate (cr_wallet_id req) db)
                             ErrPositionCashOutConnectionChanged);
      _ ← ensure (cd_version credential =? cr_credential_version req) ErrPositionCashOutConnectionChanged;
      _ ← ensure (bool_decide (CountActiveExecutionWalletLocksForCashOut (cr_wallet_id req) db = 0%nat))
           ErrPositionCashOutExecutionActive;
      _ ← ensure (bool_decide (CountActivePositionCashOutsForWallet (cr_wallet_id req) db = 0%nat))
           ErrPositionCashOutWalletActive;
      _ ← ensure (bool_decide (CountActivePositionCashOutBatchWalletLock (cr_wallet_id req) db = 0%nat))
           ErrPositionCashOutBatchActive;
      let '(state, reasonCode, completedAt) := initial_state req now in
      row ← co_on_constraints (CreatePositionCashOut_row {|
          co_intent := {| ci_id := fresh; ci_owner_account_id := owner.1; ci_wallet_id := cr_wallet_id req;
            ci_wallet_address := cr_wallet_address req; ci_credential_version := cr_credential_version req;
            ci_position_pubkey := crq_position_pubkey req; ci_market_condition_id := cr_market_condition_id req;
            ci_is_yes := cr_is_yes req; ci_position_created_at := pg_time (cr_position_created_at req);
            ci_position_request_pubkey := cr_position_request_pubkey req; ci_shares := cr_shares req;
            ci_intent_digest_sha256 := intentDigest;
            ci_authorization_expires_at := pg_time (cr_authorization_expires_at req); ci_created_at := pg_time now;
            ci_batch_id := None; ci_batch_item_id := None |};
          co_state := state; co_revision := 1; co_reason_code := reasonCode; co_provider_state := cr_provider_state req;
          co_provider_is_closed := cr_provider_is_closed req; co_provider_is_liquidated := cr_provider_is_liquidated req;
          co_execution_expires_at := None; co_authorized_at := None; co_next_poll_at := None; co_poll_count := 0;
          co_reconcile_requested_at := None; co_claim_id := None; co_claim_owner := ""; co_claim_expires_at := None;
          co_completed_at := timestampParam completedAt; co_updated_at := pg_time now |})
        ["worm_position_cash_outs_one_active_per_wallet_idx"; "worm_position_cash_outs_one_active_per_position_idx"]%string
        ErrPositionCashOutWalletActive;
      _ ← co_on_constraints (CreatePositionCashOutCommand {| cm_id := command.1; cm_cash_out_id := fresh;
          cm_owner_account_id := owner.1; cm_kind := PositionCashOutCommandKindCreate;
          cm_request_sha256 := requestDigest; cm_cash_out_revision_after := co_revision row; cm_result_code := "";
          cm_completed_at := pg_time now |})
        ["worm_position_cash_out_commands_pkey"]%string ErrPositionCashOutCommandConflict;
      load row
  end.

(** ** Reads *)
Definition GetPositionCashOut_op (ownerAccountID cashOutID : string) (db : CDB) : result COError PositionCashOut :=
  ids ← positionCashOutOwnerAndID ownerAccountID cashOutID;
  row ← of_option (GetPositionCashOut ids.2 ids.1.1 db) ErrPositionCashOutNotFound;
  mret (loadPositionCashOut row db).
Definition ListActivePositionCashOuts (ownerAccountID : string) (db : CDB) : result COError (list PositionCashOut) :=
  owner ← marketCombinationUUID ownerAccountID;
  mret ((λ row, loadPositionCashOut row db) <$> ListActivePositionCashOuts_query owner.1 db).
Definition ListActiveExecutionRunWalletIDs (ownerAccountID : string) (walletIDs : list Z) (db : CDB)
    : result COError (list Z) :=
  owner ← marketCombinationUUID ownerAccountID;
  walletIDs ← normalizePositionCashOutWalletIDs walletIDs;
  match walletIDs with
  | [] => mret []
  | _ => mret (ListActiveExecutionRunWalletIDs_query owner.1 walletIDs db)
  end.
(** [loadPositionCashOutByID] of each key; a vanished row is skipped. *)
Definition ListRecoverablePositionCashOuts (clock now limit : Z) (db : CDB) : result COError (list PositionCashOut) :=
  _ ← require ((0 <? limit) && (limit <=? maxPositionCashOutRecoveryLimit)) ErrInvalidPositionCashOut;
  mret (omap (λ id, match loadPositionCashOutByID id db with Ok c => Some c | Err _ => None end)
          (ListRecoverablePositionCashOutKeys (pg_time (canonicalNow clock now)) limit db)).

(** A replayed command returns the stored cash-out. *)
Definition replay_guard (existing : WormPositionCashOutCommand) (owner cashOut : N) (kind : PositionCashOutCommandKind)
    (digest : string) : bool :=
  (cm_owner_account_id existing =? owner)%N && (cm_cash_out_id existing =? cashOut)%N
  && bool_decide (cm_kind existing = kind) && bool_decide (cm_request_sha256 existing = digest).

Definition AuthorizePositionCashOut (clock : Z) (fresh : N) (req : AuthorizePositionCashOutRequest) : co_tx PositionCashOut :=
  let c := aq_command req in
  ids ← tx_lift (positionCashOutOwnerAndID (cq_owner_account_id c) (cq_cash_out_id c));
  let owner := ids.1.1 in let cashOutID := ids.2 in
  command ← tx_lift (marketCombinationUUID (cq_command_id c));
  let now := canonicalNow clock (cq_now c) in
  proofKind ← tx_lift (normalizePositionCashOutCode (aq_proof_kind req) true);
  _ ← ensure (bool_decide (String.length (aq_session_jti_digest req) = 32%nat) && (0 <? aq_access_revision req)
              && (now <? aq_execution_expires_at req)) ErrInvalidPositionCashOut;
  _ ← ensure (0 <? cq_expected_revision c) ErrInvalidPositionCashOut;
  digest ← tx_lift (positionCashOutDigest (PayloadAuthorize (cq_owner_account_id c) (cq_cash_out_id c) command.2
    (cq_expected_revision c) proofKind (aq_session_jti_digest req) (aq_access_revision req)));
  db ← tx_get;
  _ ← tx_lift (positionCashOutWalletID owner cashOutID db);
  match GetPositionCashOutCommand command.1 db with
  | Some existing =>
      _ ← ensure (replay_guard existing owner cashOutID PositionCashOutCommandKindAuthorize digest)
           ErrPositionCashOutCommandConflict;
      tx_lift (loadPositionCashOutByID cashOutID db)
  | None =>
      row ← tx_lift (of_option (GetPositionCashOutForUpdate cashOutID owner db) ErrPositionCashOutNotFound);
      _ ← ensure ((co_revision row =? cq_expected_revision c)
                  && bool_decide (co_state row = PositionCashOutStateAwaitingAuthorization)) ErrPositionCashOutRevision;
      _ ← ensure (now <? ci_authorization_expires_at (co_intent row)) ErrExpired;
      _ ← CreatePositionCashOutAuthorization {| au_id := fresh; au_cash_out_id := cashOutID; au_owner_account_id := owner;
            au_scope := "WORM_POSITION_CASH_OUT"; au_proof_kind := proofKind;
            au_session_jti_digest := aq_session_jti_digest req; au_access_revision := aq_access_revision req;
            au_intent_digest_sha256 := ci_intent_digest_sha256 (co_intent row);
            au_state := PositionCashOutAuthorizationStateAuthorized; au_authorized_at := pg_time now;
            au_ended_at := None; au_end_reason_code := ""; au_created_at := pg_time now; au_updated_at := pg_time now |};
      queued ← co_on_no_rows (QueueAuthorizedPositionCashOut cashOutID owner (cq_expected_revision c)
                 (timestampParam (aq_execution_expires_at req)) (pg_time now)) ErrPositionCashOutRevision;
      _ ← CreatePositionCashOutCommand {| cm_id := command.1; cm_cash_out_id := cashOutID; cm_owner_account_id := owner;
            cm_kind := PositionCashOutCommandKindAuthorize; cm_request_sha256 := digest;
            cm_cash_out_revision_after := co_revision queued; cm_result_code := ""; cm_completed_at := pg_time now |};
      load queued
  end.

(** ** Claims *)
Definition ClaimPositionCashOut (clock : Z) (req : PositionCashOutClaimRequest) : co_tx PositionCashOut :=
  n ← tx_lift (normalizePositionCashOutClaim clock req);
  let '(id, claimID, workerID, now) := n in
  row ← co_on_no_rows (ClaimPositionCashOut_query id claimID workerID (timestampParam (clq_lease_expires_at req))
          (pg_time now)) ErrPositionCashOutClaim;
  load row.
Definition RenewPositionCashOutClaim (clock : Z) (req : PositionCashOutClaimRequest) : co_tx PositionCashOut :=
  n ← tx_lift (normalizePositionCashOutClaim clock req);
  let '(id, claimID, workerID, now) := n in
  row ← co_on_no_rows (RenewPositionCashOutClaim_query id claimID workerID (timestampParam (clq_lease_expires_at req))
          (pg_time now)) ErrPositionCashOutClaim;
  load row.

Definition BeginPositionCashOutClosing (clock : Z) (req : BeginPositionCashOutClosingRequest) : co_tx PositionCashOut :=
  id ← tx_lift (marketCombinationUUID (bq_cash_out_id req));
  claimID ← tx_lift (marketCombinationUUID (bq_claim_id req));
  providerState ← tx_lift (normalizePositionCashOutCode (bq_provider_state req) false);
  row ← co_on_no_rows (BeginPositionCashOutClosing_query id.1 claimID.1 providerState
          (pg_time (canonicalNow clock (bq_now req)))) ErrPositionCashOutClaim;
  load row.

(** ** The Close attempt *)
(** A preparation that meets an attempt of the same cash-out returns it when it
    is the same prepared attempt. *)
Definition prepared_or_existing (attemptID cashOutID : N) (digest : string)
    (m : co_tx WormPositionCashOutAttempt) : co_tx PositionCashOutAttempt := λ db,
  match m db with
  | Ok (db', row) => Ok (db', mapPositionCashOutAttempt row)
  | Err (CODB c) =>
      if bool_decide (c = "worm_position_cash_out_attempts_cash_out_id_key"%string) then
        match GetPositionCashOutAttempt cashOutID db with
        | Some existing =>
            if (at_id existing =? attemptID)%N && bool_decide (at_state existing = PositionCashOutAttemptStatePrepared)
               && bool_decide (at_request_sha256 existing = digest)
            then Ok (db, mapPositionCashOutAttempt existing) else Err ErrPositionCashOutClaim
        | None => Err ErrPositionCashOutClaim
        end
      else Err (CODB c)
  | Err e => Err e
  end.
Definition PreparePositionCashOutAttempt (clock : Z) (req : PreparePositionCashOutAttemptRequest)
    : co_tx PositionCashOutAttempt :=
  attemptID ← tx_lift (marketCombinationUUID (pq_attempt_id req));
  cashOutID ← tx_lift (marketCombinationUUID (pq_cash_out_id req));
  claimID ← tx_lift (marketCombinationUUID (pq_claim_id req));
  _ ← ensure (bool_decide (String.length (pq_request_sha256 req) = 32%nat)) ErrInvalidPositionCashOut;
  prepared_or_existing attemptID.1 cashOutID.1 (pq_request_sha256 req)
    (CreatePositionCashOutAttempt attemptID.1 cashOutID.1 claimID.1 (pq_request_sha256 req)
       (pg_time (canonicalNow clock (pq_now req)))).

Definition DispatchPositionCashOutAttempt (clock : Z) (req : DispatchPositionCashOutAttemptRequest)
    : co_tx PositionCashOutAttempt :=
  attemptID ← tx_lift (marketCombinationUUID (dq_attempt_id req));
  cashOutID ← tx_lift (marketCombinationUUID (dq_cash_out_id req));
  claimID ← tx_lift (marketCombinationUUID (dq_claim_id req));
  let now := pg_time (canonicalNow clock (dq_now req)) in
  row ← co_on_no_rows (DispatchPositionCashOutAttempt_query attemptID.1 cashOutID.1 claimID.1 now) ErrPositionCashOutClaim;
  _ ← co_on_no_rows (TouchPositionCashOutAfterDispatch cashOutID.1 claimID.1 now) ErrPositionCashOutClaim;
  mret (mapPositionCashOutAttempt row).

Definition positionCashOutBatchUSDCMint : string := "EPjFWdd5AufqSSqeM2qN1xzybapC8G4wEGGkZwyTDt1v".
(** [strings.TrimLeft(s, "0") != s] *)
Definition leading_zero (s : string) : bool :=
  match s with String a _ => (N_of_ascii a =? 48)%N | EmptyString => false end.
(** [big.Int.SetString(s, 10)]: an optional sign, then digits. *)
Definition big_int_text (s : string) : option bool :=
  let digits t := negb (bool_decide (t = EmptyString)) && forallb is_digit (String.list_ascii_of_string t) in
  match s with
  | String a s' =>
      if (N_of_ascii a =? 45)%N then (if digits s' then Some (rat_positive s') else None)
      else if (N_of_ascii a =? 43)%N then (if digits s' then Some false else None)
      else if digits s then Some false else None
  | EmptyString => None
  end.
Definition normalizePositionCashOutBatchBalance (e : PositionCashOutBatchBalanceEvidence)
    : result COError PositionCashOutBatchBalanceEvidence :=
  _ ← match validatePositionCashOutPublicKey (be_mint e) true with
      | Ok u => Ok u | Err _ => Err ErrInvalidPositionCashOutBatch end;
  _ ← require (bool_decide (be_mint e = positionCashOutBatchUSDCMint) && (be_decimals e =? 6)
               && negb (be_observed_slot e =? 0) && (be_observed_slot e <=? max_int64)
               && negb (bool_decide (String.length (be_atomic_amount e) = 0%nat))
               && bool_decide (String.length (be_atomic_amount e) ≤ maxPositionCashOutDecimalLength)%nat
               && (negb (leading_zero (be_atomic_amount e)) || bool_decide (be_atomic_amount e = "0"%string)))
        ErrInvalidPositionCashOutBatch;
  _ ← require (match big_int_text (be_atomic_amount e) with Some negative => negb negative | None => false end)
        ErrInvalidPositionCashOutBatch;
  mret e.

Definition batch_uuid (value : string) : result COError (N * string) :=
  match marketCombinationUUID value with Ok u => Ok u | Err _ => Err ErrInvalidPositionCashOutBatch end.

Definition DispatchPositionCashOutBatchAttempt (clock : Z) (req : DispatchPositionCashOutBatchAttemptRequest)
    : co_tx PositionCashOutAttempt :=
  batchID ← tx_lift (batch_uuid (dbq_batch_id req));
  itemID ← tx_lift (batch_uuid (dbq_item_id req));
  attemptID ← tx_lift (batch_uuid (dbq_attempt_id req));
  cashOutID ← tx_lift (batch_uuid (dbq_cash_out_id req));
  claimID ← tx_lift (batch_uuid (dbq_claim_id req));
  baseline ← tx_lift (normalizePositionCashOutBatchBalance (dbq_baseline req));
  let now := canonicalNow clock (dbq_now req) in
  let nextPollAt := if (dbq_next_poll_at req =? 0) || (dbq_next_poll_at req <? now) then now else dbq_next_poll_at req in
  db ← tx_get;
  batchRow ← tx_lift (of_option (GetPositionCashOutBatchByIDForUpdate batchID.1 db) ErrPositionCashOutBatchClaim);
  _ ← ensure ((bool_decide (bt_state batchRow = PositionCashOutBatchStateRunning)
               || bool_decide (bt_state batchRow = PositionCashOutBatchStatePauseRequested))
              && bool_decide (is_Some (bt_current_item_ordinal batchRow))) ErrPositionCashOutBatchClaim;
  itemRow ← tx_lift (of_option (GetPositionCashOutBatchItemForUpdate itemID.1 batchID.1 db) ErrPositionCashOutBatchClaim);
  _ ← ensure (bool_decide (bi_child_cash_out_id itemRow = Some cashOutID.1)
              && bool_decide (bt_current_item_ordinal batchRow = Some (bi_ordinal itemRow))) ErrPositionCashOutBatchClaim;
  attemptRow ← co_on_no_rows (DispatchPositionCashOutAttempt_query attemptID.1 cashOutID.1 claimID.1 (pg_time now))
                 ErrPositionCashOutClaim;
  _ ← SetPositionCashOutBatchItemBalanceBaseline itemID.1 batchID.1 cashOutID.1 (be_mint baseline) (be_decimals baseline)
        (be_atomic_amount baseline) (be_observed_slot baseline) (pg_time now);
  _ ← co_on_no_rows (TouchPositionCashOutAfterDispatch cashOutID.1 claimID.1 (pg_time now)) ErrPositionCashOutClaim;
  _ ← co_on_no_rows (TouchPositionCashOutBatchAfterDispatch batchID.1 (bi_ordinal itemRow) (timestampParam nextPollAt)
        (pg_time now)) ErrPositionCashOutBatchClaim;
  mret (mapPositionCashOutAttempt attemptRow).

Definition ResolvePositionCashOutAttempt (clock : Z) (req : ResolvePositionCashOutAttemptRequest)
    : co_tx PositionCashOutAttempt :=
  attemptID ← tx_lift (marketCombinationUUID (rvq_attempt_id req));
  cashOutID ← tx_lift (marketCombinationUUID (rvq_cash_out_id req));
  _ ← ensure (validPositionCashOutResolvedAttemptState (rvq_state req)
              && (0 <=? rvq_http_status req) && (rvq_http_status req <=? 599)) ErrInvalidPositionCashOut;
  providerSlug ← tx_lift (normalizePositionCashOutCode (rvq_provider_slug req) false);
  providerState ← tx_lift (normalizePositionCashOutCode (rvq_provider_state req) false);
  errorCode ← tx_lift (normalizePositionCashOutCode (rvq_error_code req) false);
  row ← co_on_no_rows (ResolvePositionCashOutAttempt_query attemptID.1 cashOutID.1 (rvq_state req)
          (nullableIntegerParam (rvq_http_status req)) (nullableIntegerParam (rvq_provider_code req))
          providerSlug providerState errorCode (pg_time (canonicalNow clock (rvq_now req)))) ErrPositionCashOutClaim;
  mret (mapPositionCashOutAttempt row).

(** Attempt, cash-out and authorization end in one transaction. *)
Definition CompletePositionCashOutDispatch (clock : Z) (req : CompletePositionCashOutDispatchRequest)
    : co_tx PositionCashOut :=
  attemptID ← tx_lift (marketCombinationUUID (fq_attempt_id req));
  cashOutID ← tx_lift (marketCombinationUUID (fq_cash_out_id req));
  claimID ← tx_lift (marketCombinationUUID (fq_claim_id req));
  _ ← ensure ((0 <=? fq_http_status req) && (fq_http_status req <=? 599)) ErrInvalidPositionCashOut;
  providerSlug ← tx_lift (normalizePositionCashOutCode (fq_provider_slug req) false);
  providerState ← tx_lift (normalizePositionCashOutCode (fq_provider_state req) true);
  _ ← ensure (bool_decide (providerState = "closed"%string)) ErrInvalidPositionCashOut;
  errorCode ← tx_lift (normalizePositionCashOutCode (fq_error_code req) false);
  let now := pg_time (canonicalNow clock (fq_now req)) in
  _ ← co_on_no_rows (ResolvePositionCashOutAttempt_query attemptID.1 cashOutID.1 PositionCashOutAttemptStateAcknowledged
        (nullableIntegerParam (fq_http_status req)) (nullableIntegerParam (fq_provider_code req))
        providerSlug providerState errorCode now) ErrPositionCashOutClaim;
  row ← co_on_no_rows (RecordPositionCashOutObservation_query cashOutID.1 claimID.1 PositionCashOutStateClosing
          PositionCashOutStateCompleted "" providerState true false None now) ErrPositionCashOutClaim;
  _ ← EndPositionCashOutAuthorization PositionCashOutAuthorizationStateConsumed now "COMPLETED" cashOutID.1;
  load row.

Definition state_text (s : PositionCashOutState) : string :=
  match s with
  | PositionCashOutStateAwaitingAuthorization => "AWAITING_AUTHORIZATION" | PositionCashOutStateQueued => "QUEUED"
  | PositionCashOutStatePreflighting => "PREFLIGHTING" | PositionCashOutStateClosing => "CLOSING"
  | PositionCashOutStateAwaitingCompletion => "AWAITING_COMPLETION" | PositionCashOutStateCompleted => "COMPLETED"
  | PositionCashOutStateFailed => "FAILED" | PositionCashOutStateReconciliationRequired => "RECONCILIATION_REQUIRED"
  | PositionCashOutStateExpired => "EXPIRED"
  end.

Definition RecordPositionCashOutObservation (clock : Z) (req : RecordPositionCashOutObservationRequest)
    : co_tx PositionCashOut :=
  cashOutID ← tx_lift (marketCombinationUUID (oq_cash_out_id req));
  claimID ← tx_lift (marketCombinationUUID (oq_claim_id req));
  let next := oq_next_state req in
  _ ← ensure (validPositionCashOutObservationTransition (oq_expected_state req) next) ErrInvalidPositionCashOut;
  reasonCode ← tx_lift (normalizePositionCashOutCode (oq_reason_code req)
    (bool_decide (next = PositionCashOutStateFailed) || bool_decide (next = PositionCashOutStateReconciliationRequired)));
  providerState ← tx_lift (normalizePositionCashOutCode (oq_provider_state req) false);
  _ ← ensure (negb (bool_decide (next = PositionCashOutStateCompleted)
                    && (negb (oq_provider_is_closed req) || oq_provider_is_liquidated req))) ErrInvalidPositionCashOut;
  let now := canonicalNow clock (oq_now req) in
  _ ← ensure (negb ((bool_decide (next = PositionCashOutStateAwaitingCompletion)
                     || bool_decide (next = PositionCashOutStateReconciliationRequired))
                    && negb (now <? oq_next_poll_at req))) ErrInvalidPositionCashOut;
  row ← co_on_no_rows (RecordPositionCashOutObservation_query cashOutID.1 claimID.1 (oq_expected_state req) next
          reasonCode providerState (oq_provider_is_closed req) (oq_provider_is_liquidated req)
          (timestampParam (oq_next_poll_at req)) (pg_time now)) ErrPositionCashOutClaim;
  _ ← (if bool_decide (next = PositionCashOutStateCompleted) || bool_decide (next = PositionCashOutStateFailed)
       then EndPositionCashOutAuthorization PositionCashOutAuthorizationStateConsumed (pg_time now) (state_text next)
              cashOutID.1
       else mret tt);
  load row.

Definition RequestPositionCashOutReconciliation (clock : Z) (req : PositionCashOutCommandRequest) : co_tx PositionCashOut :=
  ids ← tx_lift (positionCashOutOwnerAndID (cq_owner_account_id req) (cq_cash_out_id req));
  let owner := ids.1.1 in let cashOutID := ids.2 in
  command ← tx_lift (marketCombinationUUID (cq_command_id req));
  _ ← ensure (0 <? cq_expected_revision req) ErrInvalidPositionCashOut;
  let now := pg_time (canonicalNow clock (cq_now req)) in
  digest ← tx_lift (positionCashOutDigest (PayloadReconcile (cq_owner_account_id req) (cq_cash_out_id req) command.2
    (cq_expected_revision req)));
  db ← tx_get;
  _ ← tx_lift (positionCashOutWalletID owner cashOutID db);
  match GetPositionCashOutCommand command.1 db with
  | Some existing =>
      _ ← ensure (replay_guard existing owner cashOutID PositionCashOutCommandKindReconcile digest)
           ErrPositionCashOutCommandConflict;
      tx_lift (loadPositionCashOutByID cashOutID db)
  | None =>
      row ← co_on_no_rows (RequestPositionCashOutReconciliation_query cashOutID owner (cq_expected_revision req) now)
              ErrPositionCashOutRevision;
      _ ← CreatePositionCashOutCommand {| cm_id := command.1; cm_cash_out_id := cashOutID; cm_owner_account_id := owner;
            cm_kind := PositionCashOutCommandKindReconcile; cm_request_sha256 := digest;
            cm_cash_out_revision_after := co_revision row; cm_result_code := ""; cm_completed_at := now |};
      load row
  end.

Fixpoint revoke_all (now : Z) (rows : list WormPositionCashOut) : co_tx unit :=
  match rows with
  | [] => mret tt
  | row :: rows' =>
      _ ← EndPositionCashOutAuthorization PositionCashOutAuthorizationStateRevoked now "AUTHORIZATION_EXPIRED" (co_id row);
      revoke_all now rows'
  end.
Definition ExpirePositionCashOuts (locked : N → bool) (clock now limit : Z) : co_tx Z :=
  _ ← ensure ((0 <? limit) && (limit <=? maxPositionCashOutRecoveryLimit)) ErrInvalidPositionCashOut;
  let now := pg_time (canonicalNow clock now) in
  unauthorized ← ExpireUnauthorizedPositionCashOuts locked now limit;
  let remaining := limit - Z.of_nat (length unauthorized) in
  undispatched ← (if 0 <? remaining then
      rows ← ExpireUndispatchedPositionCashOuts locked now remaining;
      _ ← revoke_all now rows;
      mret rows
    else mret []);
  mret (Z.of_nat (length unauthorized + length undispatched)).
End Store.
