(* ===== verification/CashOutInv.v ===== *)
(** * Position cash-out: invariant and evolution of the database

    [COInv] is what every database state satisfies, [evolves] how the rows of one
    state relate to those of a later one.  Both are proved for each query, and a
    transaction inherits them statement by statement ([evolving]).  Then authorizations: an authorized
    cash-out has one of its owner for exactly its frozen intent. *)

From S2P Require Import Prelude Sql CashOutTypes CashOutStages CashOutStore.
From stdpp Require Import base tactics option list list_numbers sorting strings gmap.
From Stdlib Require Import ZArith Lia Ascii.
#[local] Open Scope Z_scope.

(** ** The lifecycle of one cash-out *)
Inductive state_edge : PositionCashOutState → PositionCashOutState → Prop :=
| edge_authorize : state_edge PositionCashOutStateAwaitingAuthorization PositionCashOutStateQueued
| edge_unauthorized : state_edge PositionCashOutStateAwaitingAuthorization PositionCashOutStateExpired
| edge_claim : state_edge PositionCashOutStateQueued PositionCashOutStatePreflighting
| edge_queued_expired : state_edge PositionCashOutStateQueued PositionCashOutStateFailed
| edge_begin : state_edge PositionCashOutStatePreflighting PositionCashOutStateClosing
| edge_preflight_completed : state_edge PositionCashOutStatePreflighting PositionCashOutStateCompleted
| edge_preflight_failed : state_edge PositionCashOutStatePreflighting PositionCashOutStateFailed
| edge_closing_pending : state_edge PositionCashOutStateClosing PositionCashOutStateAwaitingCompletion
| edge_closing_completed : state_edge PositionCashOutStateClosing PositionCashOutStateCompleted
| edge_closing_failed : state_edge PositionCashOutStateClosing PositionCashOutStateFailed
| edge_closing_unknown : state_edge PositionCashOutStateClosing PositionCashOutStateReconciliationRequired
| edge_pending_completed : state_edge PositionCashOutStateAwaitingCompletion PositionCashOutStateCompleted
| edge_pending_failed : state_edge PositionCashOutStateAwaitingCompletion PositionCashOutStateFailed
| edge_pending_unknown : state_edge PositionCashOutStateAwaitingCompletion PositionCashOutStateReconciliationRequired
| edge_unknown_completed : state_edge PositionCashOutStateReconciliationRequired PositionCashOutStateCompleted
| edge_unknown_failed : state_edge PositionCashOutStateReconciliationRequired PositionCashOutStateFailed.

Record row_next (c c' : WormPositionCashOut) : Prop := {
  rn_intent : co_intent c' = co_intent c;
  rn_state : rtc state_edge (co_state c) (co_state c');
  rn_revision : co_revision c ≤ co_revision c';
  rn_terminal : active_state (co_state c) = false →
    co_state c' = co_state c ∧ co_completed_at c' = co_completed_at c ∧ (ci_batch_id (co_intent c) = None → c' = c);
  rn_authorized : is_Some (co_authorized_at c) →
    co_authorized_at c' = co_authorized_at c ∧ co_execution_expires_at c' = co_execution_expires_at c }.

#[export] Instance row_next_preorder : PreOrder row_next.
Proof.
  split.
  - intros c. split; try done; reflexivity.
  - intros a b c [] []. split; [congruence|by etrans|lia| |].
    + intros Ha. destruct (rn_terminal0 Ha) as (S1 & D1 & K1).
      destruct rn_terminal1 as (S2 & D2 & K2); [congruence|]. split_and!; [congruence..|].
      intros Hb. rewrite K2 by congruence. by apply K1.
    + intros Ha. destruct (rn_authorized0 Ha) as [E1 E2]. rewrite <- E1, <- E2. apply rn_authorized1. by rewrite E1.
Qed.

Lemma edge_from_active s s' : state_edge s s' → active_state s = true.
Proof. by destruct 1. Qed.
Lemma edges_active s s' : rtc state_edge s s' → active_state s' = true → active_state s = true.
Proof. destruct 1 as [|? ? ? H]; [done|]. intros _. by eapply edge_from_active. Qed.

(** ** The lifecycle of one attempt *)
Definition dispatched (a : WormPositionCashOutAttempt) : Prop := at_state a ≠ PositionCashOutAttemptStatePrepared.
Record attempt_next (a a' : WormPositionCashOutAttempt) : Prop := {
  an_key : at_id a' = at_id a ∧ at_cash_out_id a' = at_cash_out_id a ∧ at_request_sha256 a' = at_request_sha256 a;
  an_dispatched : dispatched a → dispatched a' ∧ at_dispatched_at a' = at_dispatched_at a;
  an_resolved : resolved_attempt_state (at_state a) = true → a' = a }.
#[export] Instance attempt_next_preorder : PreOrder attempt_next.
Proof.
  split.
  - intros a. split; done.
  - intros a b c [(?&?&?) Hd1 Hr1] [(?&?&?) Hd2 Hr2]. split.
    + split_and!; congruence.
    + intros Hd. destruct (Hd1 Hd) as [Hb E1]. destruct (Hd2 Hb) as [Hc E2]. split; [done|congruence].
    + intros Hr. rewrite (Hr1 Hr) in *. auto.
Qed.

(** ** Evolution *)
Record evolves (db db' : CDB) : Prop := {
  ev_rows : ∀ c, c ∈ cash_outs db → ∃ c', c' ∈ cash_outs db' ∧ row_next c c';
  ev_attempts : ∀ a, a ∈ attempts db → ∃ a', a' ∈ attempts db' ∧ attempt_next a a';
  ev_commands : ∀ c, c ∈ commands db → c ∈ commands db' }.
#[export] Instance evolves_preorder : PreOrder evolves.
Proof.
  split.
  - intros db. split; [| |done].
    + intros c Hc. exists c. split; [done|reflexivity].
    + intros a Ha. exists a. split; [done|reflexivity].
  - intros x y z [R1 A1 C1] [R2 A2 C2]. split; [| |auto].
    + intros c Hc. destruct (R1 c Hc) as (c1 & H1 & E1). destruct (R2 c1 H1) as (c2 & H2 & E2).
      exists c2. split; [done|by etrans].
    + intros a Ha. destruct (A1 a Ha) as (a1 & H1 & E1). destruct (A2 a1 H1) as (a2 & H2 & E2).
      exists a2. split; [done|by etrans].
Qed.

(** ** Invariant *)
Record COInv (db : CDB) : Prop := {
  ki_cash_out : NoDup (co_id <$> cash_outs db);
  ki_attempt : NoDup (at_cash_out_id <$> attempts db);
  ki_command : NoDup (cm_id <$> commands db);
  ki_authorization : NoDup (au_cash_out_id <$> authorizations db);
  ki_wallet : ∀ c c', c ∈ cash_outs db → c' ∈ cash_outs db → active_state (co_state c) = true →
    active_state (co_state c') = true →
    co_wallet c = co_wallet c' ∨ ci_position_pubkey (co_intent c) = ci_position_pubkey (co_intent c') → c = c';
  ki_check : ∀ c, c ∈ cash_outs db → cash_out_check c = true;
  ki_attempt_check : ∀ a, a ∈ attempts db → attempt_check a = true;
  ki_attempt_ref : ∀ a, a ∈ attempts db → ∃ c, c ∈ cash_outs db ∧ co_id c = at_cash_out_id a
    ∧ is_Some (co_authorized_at c) ∧ (dispatched a → ∃ t e, at_dispatched_at a = Some t
        ∧ co_execution_expires_at c = Some e ∧ t < e) }.

Definition empty_cdb (e : Env) : CDB := Build_CDB [] [] [] [] e.
Lemma COInv_empty e : COInv (empty_cdb e).
Proof. split; cbn; try apply NoDup_nil_2; by intros ? ?%not_elem_of_nil || intros ? ? ?%not_elem_of_nil. Qed.

(** A statement or transaction that keeps the invariant and evolves the rows. *)
Definition evolving {A} (m : co_tx A) : Prop :=
  ∀ db db' a, COInv db → m db = Ok (db', a) → COInv db' ∧ evolves db db'.

Lemma evolving_ret {A} (a : A) : evolving (mret a).
Proof. intros db db' x I Hok. tx_inv. split; [done|reflexivity]. Qed.
Lemma evolving_bind {A B} (m : co_tx A) (f : A → co_tx B) :
  evolving m → (∀ a, evolving (f a)) → evolving (m ≫= f).
Proof.
  intros Hm Hf db db' b I (s & a & H1 & H2)%tx_bind_ok.
  destruct (Hm _ _ _ I H1) as [I1 E1]. destruct (Hf _ _ _ _ I1 H2) as [I2 E2]. split; [done|by etrans].
Qed.
Lemma evolving_get : evolving tx_get.
Proof. intros db db' x I Hok. tx_inv. split; [done|reflexivity]. Qed.
Lemma evolving_lift {A} (r : result COError A) : evolving (tx_lift r).
Proof. intros db db' x I Hok. tx_inv. split; [done|reflexivity]. Qed.
Lemma evolving_ensure b e : evolving (ensure b e).
Proof. intros db db' x I Hok. tx_inv. split; [done|reflexivity]. Qed.
Lemma evolving_fail {A} e : evolving (tx_fail (A:=A) e).
Proof. intros db db' x I Hok. by tx_inv. Qed.
Lemma evolving_no_rows {A} (m : co_tx A) e : evolving m → evolving (co_on_no_rows m e).
Proof. intros Hm db db' x I Hok%co_on_no_rows_ok. by eapply Hm. Qed.
Lemma evolving_constraints {A} (m : co_tx A) cs e : evolving m → evolving (co_on_constraints m cs e).
Proof. intros Hm db db' x I Hok%co_on_constraints_ok. by eapply Hm. Qed.

(** ** Statements on one cash-out *)
Lemma update_cash_out_ok p f db db' row :
  update_cash_out p f db = Ok (db', row) →
  ∃ c, c ∈ cash_outs db ∧ p c = true ∧ row = f c ∧ cash_out_check (f c) = true
    ∧ db' = set_cash_outs (sql_update p f (cash_outs db)) db.
Proof.
  unfold update_cash_out. intros Hok. tx_inv. bool_prop.
  match goal with Hs : sql_one _ _ = Some _ |- _ => apply sql_one_Some in Hs as [??] end. eauto 10.
Qed.

(** Replacing rows by later versions of themselves, every one satisfying the
    CHECK constraints. *)
Lemma COInv_rows db t :
  COInv db → co_intent <$> t = co_intent <$> cash_outs db →
  (∀ c', c' ∈ t → ∃ c, c ∈ cash_outs db ∧ row_next c c' ∧ cash_out_check c' = true) →
  COInv (set_cash_outs t db) ∧ evolves db (set_cash_outs t db).
Proof.
  intros I Hint Hrows.
  assert (co_id <$> t = co_id <$> cash_outs db) as Hid.
  { change co_id with (ci_id ∘ co_intent). by rewrite !list_fmap_compose, Hint. }
  assert (NoDup (co_id <$> t)) as Hnd by (rewrite Hid; apply I).
  assert (∀ c, c ∈ cash_outs db → ∃ c', c' ∈ t ∧ row_next c c' ∧ cash_out_check c' = true) as Hfw.
  { intros c Hc. destruct (column_elem co_id t (cash_outs db) c) as (c' & Hc' & Heq); [done|done|].
    destruct (Hrows c' Hc') as (c0 & Hc0 & Hn & Hk).
    assert (c0 = c) as -> by (eapply (NoDup_key_inj co_id); [apply I|done|done|];
      rewrite <- Heq; unfold co_id; by rewrite (rn_intent _ _ Hn)). eauto. }
  split.
  - split; cbn; try apply I; try done.
    + intros c c' Hc Hc' Ha Ha' Hw. destruct (Hrows c Hc) as (d & Hd & Hn & _).
      destruct (Hrows c' Hc') as (d' & Hd' & Hn' & _).
      assert (d = d') as ->.
      { apply (ki_wallet _ I); [done|done| | |].
        - eapply edges_active; [apply Hn|done].
        - eapply edges_active; [apply Hn'|done].
        - unfold co_wallet in *. by rewrite <- (rn_intent _ _ Hn), <- (rn_intent _ _ Hn'). }
      eapply (NoDup_key_inj co_id); [exact Hnd|done|done|].
      unfold co_id. by rewrite (rn_intent _ _ Hn), (rn_intent _ _ Hn').
    + intros c Hc. by destruct (Hrows c Hc) as (d & _ & _ & ?).
    + intros a Ha. destruct (ki_attempt_ref _ I a Ha) as (c & Hc & Hid' & Hau & Hdis).
      destruct (Hfw c Hc) as (c' & Hc' & Hn & _). exists c'. destruct (rn_authorized _ _ Hn Hau) as [E1 E2].
      rewrite E1, E2. split_and!; [done| |done|done]. unfold co_id in *. by rewrite (rn_intent _ _ Hn).
  - split; cbn; [|intros a Ha; exists a; split; [done|reflexivity]|done].
    intros c Hc. destruct (Hfw c Hc) as (c' & ? & ? & _). eauto.
Qed.

Lemma evolving_update_cash_out p f :
  (∃ id, ∀ c, p c = true → co_id c = id) →
  (∀ c, p c = true → cash_out_check c = true → row_next c (f c)) →
  (∀ c, co_intent (f c) = co_intent c) → evolving (update_cash_out p f).
Proof.
  intros (id & Hid) Hn Hint db db' row I (c & Hc & Hp & _ & Hk & ->)%update_cash_out_ok.
  apply COInv_rows; [done|by apply sql_update_key|].
  intros c' (d & Hd & ->)%elem_of_sql_update. exists d. split; [done|].
  destruct (p d) eqn:E; [|split; [reflexivity|by apply (ki_check _ I)]].
  assert (d = c) as -> by (eapply (NoDup_key_inj co_id); [apply I|done|done|]; rewrite (Hid d E), (Hid c Hp); done).
  split; [|done]. apply Hn; [done|]. by apply (ki_check _ I).
Qed.

(** What the CHECK constraints say, by state. *)
Lemma check_parts c :
  cash_out_check c = true →
  match co_state c with
  | PositionCashOutStateAwaitingAuthorization => is_none (co_authorized_at c) && is_none (co_execution_expires_at c)
  | PositionCashOutStateCompleted | PositionCashOutStateFailed =>
      bool_decide (is_none (co_authorized_at c) = is_none (co_execution_expires_at c))
  | PositionCashOutStateExpired => true
  | _ => negb (is_none (co_authorized_at c)) && negb (is_none (co_execution_expires_at c)) end = true
  ∧ (if active_state (co_state c) then is_none (co_completed_at c)
     else negb (is_none (co_completed_at c)) && is_none (co_claim_id c)) = true
  ∧ match co_state c with
    | PositionCashOutStateCompleted => co_provider_is_closed c && negb (co_provider_is_liquidated c)
    | _ => true end = true.
Proof.
  intros Hk. unfold cash_out_check in Hk. cbv zeta in Hk.
  do 6 (apply andb_true_iff in Hk as [Hk ?]). done.
Qed.
Lemma check_awaiting c :
  cash_out_check c = true → co_state c = PositionCashOutStateAwaitingAuthorization →
  co_authorized_at c = None ∧ co_execution_expires_at c = None.
Proof.
  intros (Hk & _)%check_parts Hs. rewrite Hs in Hk.
  by destruct (co_authorized_at c), (co_execution_expires_at c).
Qed.
Lemma check_working c :
  cash_out_check c = true → active_state (co_state c) = true →
  co_state c ≠ PositionCashOutStateAwaitingAuthorization →
  is_Some (co_authorized_at c) ∧ is_Some (co_execution_expires_at c).
Proof.
  intros (Hk & _)%check_parts Ha Hs.
  destruct (co_state c); try done; by destruct (co_authorized_at c), (co_execution_expires_at c).
Qed.
Lemma check_completed c :
  cash_out_check c = true → co_state c = PositionCashOutStateCompleted →
  co_provider_is_closed c = true ∧ co_provider_is_liquidated c = false ∧ is_Some (co_completed_at c)
  ∧ co_claim_id c = None.
Proof.
  intros (_ & Ha & Hp)%check_parts Hs. rewrite Hs in Ha, Hp. cbn in Ha. bool_prop.
  split_and!; [done|done|by destruct (co_completed_at c)|by destruct (co_claim_id c)].
Qed.

Ltac guards := bool_prop;
  repeat match goal with H : (_ =? _)%N = true |- _ => apply N.eqb_eq in H end.
Ltac at_state := match goal with H : co_state _ = _ |- _ => rewrite H end.
Ltac row_update :=
  apply evolving_update_cash_out; [eexists; intros c Hp; guards; eassumption| |done];
  intros c Hp Hk; guards; split; cbn; try done; try lia.

Lemma evolving_Queue id owner e ex now : evolving (QueueAuthorizedPositionCashOut id owner e ex now).
Proof.
  unfold QueueAuthorizedPositionCashOut. row_update.
  - at_state. apply rtc_once. constructor.
  - at_state. done.
  - match goal with H : co_state c = _ |- _ => apply (check_awaiting _ Hk) in H as [-> _] end. by intros [? ?].
Qed.
Lemma evolving_Claim id claim owner ex now : evolving (ClaimPositionCashOut_query id claim owner ex now).
Proof.
  unfold ClaimPositionCashOut_query. row_update.
  - case_bool_decide as Hs; [rewrite Hs; apply rtc_once; constructor|reflexivity].
  - unfold recoverable in *. by destruct (co_state c).
Qed.
Lemma evolving_Renew id claim owner ex now : evolving (RenewPositionCashOutClaim_query id claim owner ex now).
Proof. unfold RenewPositionCashOutClaim_query. row_update. by destruct (co_state c). Qed.
Lemma evolving_Begin id claim ps now : evolving (BeginPositionCashOutClosing_query id claim ps now).
Proof.
  unfold BeginPositionCashOutClosing_query. row_update.
  - at_state. apply rtc_once. constructor.
  - by at_state.
Qed.
Lemma evolving_Touch id claim now : evolving (TouchPositionCashOutAfterDispatch id claim now).
Proof. unfold TouchPositionCashOutAfterDispatch. row_update. by at_state. Qed.
Lemma evolving_RequestReconciliation id owner e now : evolving (RequestPositionCashOutReconciliation_query id owner e now).
Proof.
  unfold RequestPositionCashOutReconciliation_query. row_update. by at_state.
Qed.

Lemma evolving_FailChild id batch item now : evolving (FailUndispatchedPositionCashOutBatchChild id batch item now).
Proof.
  unfold FailUndispatchedPositionCashOutBatchChild. row_update; apply check_parts in Hk as (_ & Hdone & _);
    match goal with H : _ ∨ _ |- _ => destruct H as [Hs|Hs] end; rewrite Hs in *; cbn in Hdone |- *; try done.
  - apply rtc_once. constructor.
  - intros _. destruct (co_completed_at c); [|done]. split_and!; [done..|]. intros Hb. congruence.
Qed.

Lemma observation_edge s s' :
  validPositionCashOutObservationTransition s s' = true → active_state s = true ∧ rtc state_edge s s'.
Proof. destruct s, s'; try done; intros _; (split; [done|]); try apply rtc_refl; apply rtc_once; constructor. Qed.
Lemma evolving_Record id claim s s' reason ps cl li np now :
  validPositionCashOutObservationTransition s s' = true →
  evolving (RecordPositionCashOutObservation_query id claim s s' reason ps cl li np now).
Proof.
  intros [Ha He]%observation_edge. unfold RecordPositionCashOutObservation_query. row_update; subst s; [done|congruence].
Qed.

(** ** Expiry *)
Lemma evolving_expire sel st now :
  (∀ db c, c ∈ sel db → c ∈ cash_outs db ∧ state_edge (co_state c) st) →
  evolving (expire_cash_outs sel st now).
Proof.
  intros Hsel db db' x I Hok. unfold expire_cash_outs in Hok. tx_inv.
  apply COInv_rows; [done|by apply sql_update_key|].
  intros c' (c & Hc & ->)%elem_of_sql_update. exists c. split; [done|].
  case_bool_decide as Hin; [|split; [reflexivity|by apply (ki_check _ I)]].
  match goal with H : forallb _ _ = true |- _ => rename H into Hall end.
  apply Is_true_true, forallb_True in Hall. rewrite Forall_forall in Hall.
  assert (c ∈ sql_many (λ c, bool_decide (co_id c ∈ co_id <$> sel db)) (cash_outs db)) as Hc2.
  { apply elem_of_sql_many. split; [by apply bool_decide_eq_true|done]. }
  specialize (Hall c Hc2).
  apply Is_true_true, andb_true_iff in Hall as [Hk _]. split; [|done].
  apply list_elem_of_fmap in Hin as (d & Heq & Hd). destruct (Hsel _ _ Hd) as [Hdin Hedge].
  assert (d = c) as -> by (eapply (NoDup_key_inj co_id); [apply I|done..]).
  split; cbn; try done; [by apply rtc_once|lia|].
  rewrite (edge_from_active _ _ Hedge). done.
Qed.
Lemma evolving_ExpireUnauthorized locked now limit : evolving (ExpireUnauthorizedPositionCashOuts locked now limit).
Proof.
  apply evolving_expire. intros db c Hc%elem_of_take. destruct Hc as (i & Hc%list_elem_of_lookup_2 & _).
  apply sort_by_elem, elem_of_sql_many in Hc as [Hp Hc]. bool_prop. split; [done|].
  at_state. constructor.
Qed.
Lemma evolving_ExpireUndispatched locked now limit : evolving (ExpireUndispatchedPositionCashOuts locked now limit).
Proof.
  apply evolving_expire. intros db c Hc%elem_of_take. destruct Hc as (i & Hc%list_elem_of_lookup_2 & _).
  apply sort_by_elem, elem_of_sql_many in Hc as [Hp Hc]. bool_prop. split; [done|].
  destruct (co_state c); try done; constructor.
Qed.

(** ** Inserts *)
Lemma evolves_tables db db' :
  cash_outs db' = cash_outs db → attempts db' = attempts db → (∀ c, c ∈ commands db → c ∈ commands db') → evolves db db'.
Proof.
  intros H1 H2 H3. split; [..|done].
  - intros c Hc. exists c. rewrite H1. split; [done|reflexivity].
  - intros a Ha. exists a. rewrite H2. split; [done|reflexivity].
Qed.

Lemma CreateRow_ok row db db' r :
  CreatePositionCashOut_row row db = Ok (db', r) →
  r = row ∧ db' = set_cash_outs (cash_outs db ++ [row]) db ∧ cash_out_check row = true
  ∧ ∀ c, c ∈ cash_outs db → cash_out_conflict row c = false.
Proof.
  unfold CreatePositionCashOut_row. intros Hok. tx_inv. cbn in *.
  match goal with H : (if ?b then _ else _) = Ok _ |- _ => destruct b eqn:E; [|done] end. simplify_eq.
  split_and!; try done. apply negb_true_iff in E. by rewrite existsb_elem_false in E.
Qed.

Lemma evolving_CreateRow row : evolving (CreatePositionCashOut_row row).
Proof.
  intros db db' r I (-> & -> & Hk & Hcf)%CreateRow_ok.
  assert (∀ c, c ∈ cash_outs db → co_id c ≠ co_id row
    ∧ (active_state (co_state row) = true → active_state (co_state c) = true →
       co_wallet c ≠ co_wallet row ∧ ci_position_pubkey (co_intent c) ≠ ci_position_pubkey (co_intent row))) as Hnew.
  { intros c Hc. specialize (Hcf c Hc). unfold cash_out_conflict in Hcf.
    apply orb_false_iff in Hcf as [[H1 H2]%orb_false_iff _]. apply N.eqb_neq in H1.
    split; [congruence|]. intros Ha Hb. rewrite Ha, Hb in H2. cbn in H2.
    apply orb_false_iff in H2 as [H2 H3]. bool_prop. split; congruence. }
  split.
  - split; cbn; try apply I; try done.
    + rewrite fmap_app, NoDup_app. split_and!; [apply I| |apply NoDup_singleton].
      cbn. intros ? (c & -> & Hc)%list_elem_of_fmap Heq%list_elem_of_singleton. by destruct (Hnew c Hc).
    + intros c c' [Hc| ->%list_elem_of_singleton]%elem_of_app [Hc'| ->%list_elem_of_singleton]%elem_of_app Ha Ha' Hw;
        [by apply (ki_wallet _ I)| | |done].
      * destruct (Hnew c Hc) as [_ Hne]. destruct (Hne Ha' Ha) as [??]. by destruct Hw.
      * destruct (Hnew c' Hc') as [_ Hne]. destruct (Hne Ha Ha') as [??]. by destruct Hw.
    + intros c [Hc| ->%list_elem_of_singleton]%elem_of_app; [by apply (ki_check _ I)|done].
    + intros a Ha. destruct (ki_attempt_ref _ I a Ha) as (c & ? & ?). exists c. rewrite elem_of_app. auto.
  - split; cbn; [|intros a Ha; exists a; split; [done|reflexivity]|done].
    intros c Hc. exists c. rewrite elem_of_app. split; [auto|reflexivity].
Qed.

Lemma CreateCommand_ok row db db' r :
  CreatePositionCashOutCommand row db = Ok (db', r) →
  r = row ∧ db' = set_commands (commands db ++ [row]) db ∧ (∀ c, c ∈ commands db → cm_id c ≠ cm_id row)
  ∧ (NoDup (cm_id <$> commands db) → NoDup (cm_id <$> commands db ++ [row])).
Proof.
  unfold CreatePositionCashOutCommand. intros Hok. tx_inv. cbn in *.
  match goal with H : (if ?b then _ else _) = Ok _ |- _ => destruct b eqn:E; [|done] end. simplify_eq.
  apply negb_true_iff in E. rewrite existsb_elem_false in E.
  assert (∀ c, c ∈ commands db → cm_id c ≠ cm_id row) as Hne.
  { intros c Hc. specialize (E c Hc). apply N.eqb_neq in E. congruence. }
  split_and!; try done. intros Hnd. rewrite fmap_app, NoDup_app. split_and!; [done| |apply NoDup_singleton].
  cbn. intros ? (c & -> & Hc)%list_elem_of_fmap Heq%list_elem_of_singleton. by apply (Hne c).
Qed.
Lemma evolving_CreateCommand row : evolving (CreatePositionCashOutCommand row).
Proof.
  intros db db' r I (-> & -> & _ & Hnd)%CreateCommand_ok. split.
  - split; cbn; try apply I; try done. apply Hnd, I.
  - apply evolves_tables; [done..|]. cbn. intros c Hc. rewrite elem_of_app. auto.
Qed.

Lemma CreateAuthorization_ok row db db' r :
  CreatePositionCashOutAuthorization row db = Ok (db', r) →
  r = row ∧ db' = set_authorizations (authorizations db ++ [row]) db
  ∧ (NoDup (au_cash_out_id <$> authorizations db) → NoDup (au_cash_out_id <$> authorizations db ++ [row])).
Proof.
  unfold CreatePositionCashOutAuthorization. intros Hok. tx_inv.
  match goal with H : sql_insert _ _ _ _ _ = Ok _ |- _ =>
    pose proof H as Hins; apply sql_insert_ok in H as [-> Hc] end.
  split_and!; try done. intros Hnd. eapply (sql_insert_NoDup au_cash_out_id); [|exact Hins|exact Hnd].
  intros a b Hab. cbn. by rewrite Hab, N.eqb_refl, orb_true_r.
Qed.
Lemma evolving_CreateAuthorization row : evolving (CreatePositionCashOutAuthorization row).
Proof.
  intros db db' r I (-> & -> & Hnd)%CreateAuthorization_ok. split.
  - split; cbn; try apply I; try done. apply Hnd, I.
  - by apply evolves_tables.
Qed.
Lemma evolving_EndAuthorization st now reason c : evolving (EndPositionCashOutAuthorization st now reason c).
Proof.
  intros db db' r I Hok. unfold EndPositionCashOutAuthorization in Hok. tx_inv. split.
  - split; cbn; try apply I; try done. rewrite sql_update_key by done. apply I.
  - by apply evolves_tables.
Qed.

(** ** Attempts *)
Lemma CreateAttempt_ok id cash_out claim digest now db db' r :
  CreatePositionCashOutAttempt id cash_out claim digest now db = Ok (db', r) →
  (∃ c, c ∈ cash_outs db ∧ co_id c = cash_out ∧ closing_claimed claim now c = true)
  ∧ at_cash_out_id r = cash_out ∧ at_state r = PositionCashOutAttemptStatePrepared ∧ attempt_check r = true
  ∧ db' = set_attempts (attempts db ++ [r]) db ∧ (∀ a, a ∈ attempts db → at_cash_out_id a ≠ cash_out).
Proof.
  unfold CreatePositionCashOutAttempt. intros Hok. tx_inv.
  match goal with H : sql_one _ _ = Some _ |- _ => apply sql_one_Some in H as [??] end.
  match goal with H : sql_insert _ _ _ _ _ = Ok _ |- _ => cbn in H end.
  match goal with H : (if ?b then _ else _) = Ok _ |- _ => destruct b eqn:E; [|done] end. simplify_eq.
  apply negb_true_iff in E. rewrite existsb_elem_false in E. guards. split; [eauto|]. split_and!; try done.
  intros a Ha. specialize (E a Ha). apply orb_false_iff in E as [_ E]. apply N.eqb_neq in E. congruence.
Qed.
Lemma evolving_CreateAttempt id cash_out claim digest now :
  evolving (CreatePositionCashOutAttempt id cash_out claim digest now).
Proof.
  intros db db' r I ((c & Hc & Hcid & Hcl) & Hr1 & Hr2 & Hk & -> & Hfresh)%CreateAttempt_ok. split.
  - split; cbn; try apply I; try done.
    + rewrite fmap_app, NoDup_app. split_and!; [apply I| |apply NoDup_singleton].
      cbn. intros ? (a & -> & Ha)%list_elem_of_fmap Heq%list_elem_of_singleton. apply (Hfresh a Ha). congruence.
    + intros a [Ha| ->%list_elem_of_singleton]%elem_of_app; [by apply (ki_attempt_check _ I)|done].
    + intros a [Ha| ->%list_elem_of_singleton]%elem_of_app; [by apply (ki_attempt_ref _ I)|].
      exists c. unfold closing_claimed in Hcl. bool_prop.
      match goal with H : co_state c = _ |- _ => rename H into Hs end.
      destruct (check_working c) as [? _]; [by apply (ki_check _ I)|by rewrite Hs|by rewrite Hs|].
      split_and!; [done|congruence|done|]. intros Hd. by destruct Hd.
  - split; cbn; [intros x Hx; exists x; split; [done|reflexivity]| |done].
    intros a Ha. exists a. rewrite elem_of_app. split; [auto|reflexivity].
Qed.

Lemma update_attempt_ok p f db db' row :
  update_attempt p f db = Ok (db', row) →
  ∃ a, a ∈ attempts db ∧ p a = true ∧ row = f a ∧ attempt_check (f a) = true
    ∧ db' = set_attempts (sql_update p f (attempts db)) db.
Proof.
  unfold update_attempt. intros Hok. tx_inv.
  match goal with Hs : sql_one _ _ = Some _ |- _ => apply sql_one_Some in Hs as [??] end. eauto 10.
Qed.
Lemma evolving_update_attempt (p : CDB → WormPositionCashOutAttempt → bool) f :
  (∃ id, ∀ db a, p db a = true → at_cash_out_id a = id) →
  (∀ db a, p db a = true → attempt_next a (f a)) →
  (∀ a, at_cash_out_id (f a) = at_cash_out_id a) →
  (∀ db a c, COInv db → a ∈ attempts db → p db a = true → c ∈ cash_outs db → co_id c = at_cash_out_id a →
     dispatched (f a) → ∃ t e, at_dispatched_at (f a) = Some t ∧ co_execution_expires_at c = Some e ∧ t < e) →
  evolving (db ← tx_get; update_attempt (p db) f).
Proof.
  intros (id & Hid) Hn Hkey Hd db db' row I Hok. tx_inv.
  match goal with H : update_attempt _ _ _ = Ok _ |- _ => apply update_attempt_ok in H as (a & Ha & Hp & -> & Hk & ->) end.
  assert (∀ b, p db b = true → b ∈ attempts db → b = a) as Huniq.
  { intros b Hb Hin. eapply (NoDup_key_inj at_cash_out_id); [apply I|done|done|].
    rewrite (Hid _ _ Hb), (Hid _ _ Hp). done. }
  split.
  - split; cbn; try apply I; try done.
    + rewrite sql_update_key by done. apply I.
    + intros x (b & Hb & ->)%elem_of_sql_update. destruct (p db b) eqn:E; [|by apply (ki_attempt_check _ I)].
      by rewrite (Huniq b E Hb).
    + intros x (b & Hb & ->)%elem_of_sql_update. destruct (ki_attempt_ref _ I b Hb) as (c & Hc & Hcid & Hau & Hdis).
      exists c. destruct (p db b) eqn:E; [|eauto]. rewrite Hkey. split_and!; eauto.
  - split; cbn; [intros x Hx; exists x; split; [done|reflexivity]| |done].
    intros b Hb. exists (if p db b then f b else b). split; [apply elem_of_sql_update; eauto|].
    destruct (p db b) eqn:E; [by eapply Hn|reflexivity].
Qed.

Lemma evolving_DispatchAttempt id cash_out claim now :
  evolving (DispatchPositionCashOutAttempt_query id cash_out claim now).
Proof.
  unfold DispatchPositionCashOutAttempt_query.
  apply (evolving_update_attempt (λ db a, (at_id a =? id)%N && (at_cash_out_id a =? cash_out)%N
          && bool_decide (at_state a = PositionCashOutAttemptStatePrepared)
          && existsb (λ c, (co_id c =? at_cash_out_id a)%N && closing_claimed claim now c) (cash_outs db))).
  - exists cash_out. intros db a Hp. guards. done.
  - intros db a Hp. guards. split; cbn; [done|by intros Hd; destruct Hd|].
    match goal with H : at_state a = _ |- _ => by rewrite H end.
  - done.
  - intros db a c I Ha Hp Hc Hid _. bool_prop. cbn.
    match goal with H : existsb _ _ = true |- _ => apply existsb_elem in H as (d & Hd & Hcl) end. guards.
    assert (d = c) as -> by (eapply (NoDup_key_inj co_id); [apply I|done|done|congruence]).
    match goal with H : closing_claimed _ _ _ = true |- _ => unfold closing_claimed in H end. bool_prop.
    match goal with H : later (co_execution_expires_at c) _ = true |- _ => rename H into Hl end.
    destruct (co_execution_expires_at c) as [e|]; [|done]. cbn in Hl. bool_prop. eauto.
Qed.
Lemma evolving_ResolveAttempt id cash_out st h p sl ps e now :
  evolving (ResolvePositionCashOutAttempt_query id cash_out st h p sl ps e now).
Proof.
  refine (evolving_update_attempt (λ _ a, (at_id a =? id)%N && (at_cash_out_id a =? cash_out)%N
          && bool_decide (at_state a = PositionCashOutAttemptStateDispatched) && resolved_attempt_state st) _ _ _ _ _).
  - exists cash_out. intros db a Hp. guards. done.
  - intros db a Hp. guards. match goal with H : at_state a = _ |- _ => rename H into Hs end.
    split; cbn; [done| |by rewrite Hs]. intros _. split; [|done]. by intros Hs'; cbn in Hs'; subst st.
  - done.
  - intros db a c I Ha Hp Hc Hid _. guards. cbn.
    destruct (ki_attempt_ref _ I a Ha) as (d & Hd & Hdid & _ & Hdis).
    assert (d = c) as -> by (eapply (NoDup_key_inj co_id); [apply I|done|done|congruence]).
    apply Hdis. unfold dispatched. match goal with H : at_state a = _ |- _ => by rewrite H end.
Qed.

(** Statements on other components' tables. *)
Lemma COInv_env db e : COInv db → COInv (set_env e db) ∧ evolves db (set_env e db).
Proof. intros []. split; [by split|by apply evolves_tables]. Qed.
Lemma evolving_SetBaseline item batch cash_out mint d am sl now :
  evolving (SetPositionCashOutBatchItemBalanceBaseline item batch cash_out mint d am sl now).
Proof. intros db db' r I Hok. unfold SetPositionCashOutBatchItemBalanceBaseline in Hok. tx_inv. by apply COInv_env. Qed.
Lemma evolving_TouchBatch batch ordinal np now : evolving (TouchPositionCashOutBatchAfterDispatch batch ordinal np now).
Proof. intros db db' r I Hok. unfold TouchPositionCashOutBatchAfterDispatch in Hok. tx_inv. by apply COInv_env. Qed.

Create HintDb evolve discriminated.
#[export] Hint Constants Opaque : evolve.
#[export] Hint Resolve evolving_ret evolving_get evolving_lift evolving_ensure evolving_fail evolving_Queue
  evolving_Claim evolving_Renew evolving_Begin evolving_Touch evolving_RequestReconciliation evolving_Record
  evolving_ExpireUnauthorized evolving_ExpireUndispatched evolving_CreateRow evolving_CreateCommand
  evolving_CreateAuthorization evolving_EndAuthorization evolving_CreateAttempt evolving_DispatchAttempt
  evolving_ResolveAttempt evolving_FailChild evolving_SetBaseline evolving_TouchBatch : evolve.

(** A transaction body evolves when its statements do. *)
Ltac evolve :=
  repeat (cbv zeta; lazymatch goal with
  | |- evolving (_ ≫= _) => apply evolving_bind; [|intros ?]
  | |- evolving (co_on_no_rows _ _) => apply evolving_no_rows
  | |- evolving (co_on_constraints _ _ _) => apply evolving_constraints
  | |- evolving (match ?x with _ => _ end) => destruct x eqn:?
  end); eauto with evolve.

(** ** Operations *)
Section Operations.
Context {UL : UuidLib} {SL : SolanaLib} {DL : DigestLib CashOutPayload}.

Lemma evolving_load row : evolving (load row).
Proof. unfold load. evolve. Qed.
Hint Resolve evolving_load : evolve.

Lemma evolving_CreatePositionCashOut clock fresh req : evolving (CreatePositionCashOut clock fresh req).
Proof. unfold CreatePositionCashOut. evolve. Qed.
Lemma evolving_AuthorizePositionCashOut clock fresh req : evolving (AuthorizePositionCashOut clock fresh req).
Proof. unfold AuthorizePositionCashOut. evolve. Qed.
Lemma evolving_ClaimPositionCashOut clock req : evolving (ClaimPositionCashOut clock req).
Proof. unfold ClaimPositionCashOut. evolve. Qed.
Lemma evolving_RenewPositionCashOutClaim clock req : evolving (RenewPositionCashOutClaim clock req).
Proof. unfold RenewPositionCashOutClaim. evolve. Qed.
Lemma evolving_BeginPositionCashOutClosing clock req : evolving (BeginPositionCashOutClosing clock req).
Proof. unfold BeginPositionCashOutClosing. evolve. Qed.
Lemma evolving_prepared_or_existing i c d m : evolving m → evolving (prepared_or_existing i c d m).
Proof.
  intros Hm db db' x I Hok. unfold prepared_or_existing in Hok.
  destruct (m db) as [[db1 row]|e] eqn:E.
  - simplify_eq. by eapply Hm.
  - destruct e; try done. case_bool_decide; [|done]. destruct (GetPositionCashOutAttempt c db); [|done].
    case_match; [|done]. simplify_eq. split; [done|reflexivity].
Qed.
Hint Resolve evolving_prepared_or_existing : evolve.
Lemma evolving_PreparePositionCashOutAttempt clock req : evolving (PreparePositionCashOutAttempt clock req).
Proof. unfold PreparePositionCashOutAttempt. evolve. Qed.
Lemma evolving_DispatchPositionCashOutAttempt clock req : evolving (DispatchPositionCashOutAttempt clock req).
Proof. unfold DispatchPositionCashOutAttempt. evolve. Qed.
Lemma evolving_DispatchPositionCashOutBatchAttempt clock req : evolving (DispatchPositionCashOutBatchAttempt clock req).
Proof. unfold DispatchPositionCashOutBatchAttempt. evolve. Qed.
Lemma evolving_ResolvePositionCashOutAttempt clock req : evolving (ResolvePositionCashOutAttempt clock req).
Proof. unfold ResolvePositionCashOutAttempt. evolve. Qed.
Lemma evolving_CompletePositionCashOutDispatch clock req : evolving (CompletePositionCashOutDispatch clock req).
Proof. unfold CompletePositionCashOutDispatch. evolve. Qed.
Lemma evolving_RequestPositionCashOutReconciliation clock req : evolving (RequestPositionCashOutReconciliation clock req).
Proof. unfold RequestPositionCashOutReconciliation. evolve. Qed.
Lemma evolving_revoke_all now rows : evolving (revoke_all now rows).
Proof. induction rows; cbn; evolve. Qed.
Hint Resolve evolving_revoke_all : evolve.
Lemma evolving_ExpirePositionCashOuts locked clock now limit : evolving (ExpirePositionCashOuts locked clock now limit).
Proof. unfold ExpirePositionCashOuts. evolve. Qed.
Lemma evolving_ensure_then {A} b e (m : co_tx A) :
  (b = true → evolving m) → evolving (ensure b e ≫= λ _, m).
Proof.
  intros Hm db db' x I Hok. tx_inv. match goal with H : m _ = Ok _ |- _ => by apply Hm in H end.
Qed.
Lemma evolving_RecordPositionCashOutObservation clock req : evolving (RecordPositionCashOutObservation clock req).
Proof.
  unfold RecordPositionCashOutObservation.
  do 2 (apply evolving_bind; [auto with evolve|intros ?]). apply evolving_ensure_then. intros. evolve.
Qed.

(** ** The system: committed operations in any order

    [step_env] is any change another component makes to its own tables;
    [step_batch_child] and [step_batch_terminated] are the two writes of the batch
    component to the cash-out table. *)
Inductive co_step (db : CDB) : CDB → Prop :=
| step_create clock fresh req db' r : CreatePositionCashOut clock fresh req db = Ok (db', r) → co_step db db'
| step_authorize clock fresh req db' r : AuthorizePositionCashOut clock fresh req db = Ok (db', r) → co_step db db'
| step_claim clock req db' r : ClaimPositionCashOut clock req db = Ok (db', r) → co_step db db'
| step_renew clock req db' r : RenewPositionCashOutClaim clock req db = Ok (db', r) → co_step db db'
| step_begin clock req db' r : BeginPositionCashOutClosing clock req db = Ok (db', r) → co_step db db'
| step_prepare clock req db' r : PreparePositionCashOutAttempt clock req db = Ok (db', r) → co_step db db'
| step_dispatch clock req db' r : DispatchPositionCashOutAttempt clock req db = Ok (db', r) → co_step db db'
| step_dispatch_batch clock req db' r : DispatchPositionCashOutBatchAttempt clock req db = Ok (db', r) → co_step db db'
| step_resolve clock req db' r : ResolvePositionCashOutAttempt clock req db = Ok (db', r) → co_step db db'
| step_complete clock req db' r : CompletePositionCashOutDispatch clock req db = Ok (db', r) → co_step db db'
| step_record clock req db' r : RecordPositionCashOutObservation clock req db = Ok (db', r) → co_step db db'
| step_reconcile clock req db' r : RequestPositionCashOutReconciliation clock req db = Ok (db', r) → co_step db db'
| step_expire locked clock now limit db' r :
    ExpirePositionCashOuts locked clock now limit db = Ok (db', r) → co_step db db'
| step_batch_child i provider_state now db' r : is_Some (ci_batch_id i) →
    CreatePositionCashOut_row (batch_child_row i provider_state now) db = Ok (db', r) → co_step db db'
| step_batch_terminated id batch item now db' r :
    FailUndispatchedPositionCashOutBatchChild id batch item now db = Ok (db', r) → co_step db db'
| step_env e : co_step db (set_env e db).

Definition reachable (db : CDB) : Prop := ∃ e, rtc co_step (empty_cdb e) db.

Lemma step_evolves db db' : COInv db → co_step db db' → COInv db' ∧ evolves db db'.
Proof.
  intros I Hs. destruct Hs as [? ? ? ? ? H|? ? ? ? ? H|? ? ? ? H|? ? ? ? H|? ? ? ? H|? ? ? ? H|? ? ? ? H
    |? ? ? ? H|? ? ? ? H|? ? ? ? H|? ? ? ? H|? ? ? ? H|? ? ? ? ? ? H|? ? ? ? ? ? H|? ? ? ? ? ? H|e]; [..|by apply COInv_env];
    revert H; [apply evolving_CreatePositionCashOut|apply evolving_AuthorizePositionCashOut
    |apply evolving_ClaimPositionCashOut|apply evolving_RenewPositionCashOutClaim|apply evolving_BeginPositionCashOutClosing
    |apply evolving_PreparePositionCashOutAttempt|apply evolving_DispatchPositionCashOutAttempt
    |apply evolving_DispatchPositionCashOutBatchAttempt|apply evolving_ResolvePositionCashOutAttempt
    |apply evolving_CompletePositionCashOutDispatch|apply evolving_RecordPositionCashOutObservation
    |apply evolving_RequestPositionCashOutReconciliation|apply evolving_ExpirePositionCashOuts
    |apply evolving_CreateRow|apply evolving_FailChild]; done.
Qed.
Lemma steps_evolve db db' : COInv db → rtc co_step db db' → COInv db' ∧ evolves db db'.
Proof.
  intros I Hs. induction Hs as [|x y z H1 H2 IH]; [split; [done|reflexivity]|].
  destruct (step_evolves _ _ I H1) as [I1 E1]. destruct (IH I1) as [I2 E2]. split; [done|by etrans].
Qed.
Lemma COInv_reachable db : reachable db → COInv db.
Proof. intros [e Hs]. by apply (steps_evolve _ _ (COInv_empty e)). Qed.
End Operations.

(** * Position cash-out: authorization

    An authorized cash-out has an authorization of its owner for exactly its
    frozen intent.  Every statement but [QueueAuthorizedPositionCashOut] authorizes
    no row ([framing]); [AuthorizePositionCashOut] records the authorization first. *)
#[local] Open Scope Z_scope.

Definition authorizes (a : WormPositionCashOutAuthorization) (c : WormPositionCashOut) : Prop :=
  au_cash_out_id a = co_id c ∧ au_owner_account_id a = co_owner c
  ∧ au_intent_digest_sha256 a = ci_intent_digest_sha256 (co_intent c).
Definition AuthInv (db : CDB) : Prop :=
  ∀ c, c ∈ cash_outs db → is_Some (co_authorized_at c) → ci_batch_id (co_intent c) = None →
  ∃ a, a ∈ authorizations db ∧ authorizes a c.

Record auth_frame (db db' : CDB) : Prop := {
  af_rows : ∀ c', c' ∈ cash_outs db' → is_Some (co_authorized_at c') → ci_batch_id (co_intent c') = None →
    ∃ c, c ∈ cash_outs db ∧ co_intent c = co_intent c' ∧ is_Some (co_authorized_at c);
  af_auths : ∀ a, a ∈ authorizations db → ∃ a', a' ∈ authorizations db' ∧ au_cash_out_id a' = au_cash_out_id a
    ∧ au_owner_account_id a' = au_owner_account_id a ∧ au_intent_digest_sha256 a' = au_intent_digest_sha256 a }.
#[export] Instance auth_frame_preorder : PreOrder auth_frame.
Proof.
  split.
  - intros db. split; eauto 10.
  - intros x y z [R1 A1] [R2 A2]. split.
    + intros c' Hc Ha Hb. destruct (R2 c' Hc Ha Hb) as (c1 & Hc1 & E1 & Ha1).
      destruct (R1 c1 Hc1 Ha1) as (c0 & ? & ? & ?); [congruence|]. exists c0. split_and!; [done|congruence|done].
    + intros a Ha. destruct (A1 a Ha) as (a1 & Ha1 & ? & ? & ?). destruct (A2 a1 Ha1) as (a2 & ? & ? & ? & ?).
      exists a2. split_and!; [done|congruence..].
Qed.

Lemma AuthInv_frame db db' : AuthInv db → auth_frame db db' → AuthInv db'.
Proof.
  intros I [R A] c' Hc Ha Hb. destruct (R c' Hc Ha Hb) as (c & Hcin & E & Hau).
  destruct (I c Hcin Hau) as (a & Ha1 & H1 & H2 & H3); [congruence|].
  destruct (A a Ha1) as (a' & ? & ? & ? & ?). exists a'. split; [done|].
  unfold authorizes, co_id, co_owner in *. rewrite <- E. split_and!; congruence.
Qed.

Definition framing {A} (m : co_tx A) : Prop := ∀ db db' a, m db = Ok (db', a) → auth_frame db db'.
Lemma framing_ret {A} (a : A) : framing (mret a).
Proof. intros db db' x Hok. tx_inv. reflexivity. Qed.
Lemma framing_bind {A B} (m : co_tx A) (f : A → co_tx B) : framing m → (∀ a, framing (f a)) → framing (m ≫= f).
Proof. intros Hm Hf db db' b (s & a & H1 & H2)%tx_bind_ok. etrans; [by eapply Hm|by eapply Hf]. Qed.
Lemma framing_get : framing tx_get.
Proof. intros db db' x Hok. tx_inv. reflexivity. Qed.
Lemma framing_lift {A} (r : result COError A) : framing (tx_lift r).
Proof. intros db db' x Hok. tx_inv. reflexivity. Qed.
Lemma framing_ensure b e : framing (ensure b e).
Proof. intros db db' x Hok. tx_inv. reflexivity. Qed.
Lemma framing_no_rows {A} (m : co_tx A) e : framing m → framing (co_on_no_rows m e).
Proof. intros Hm db db' x Hok%co_on_no_rows_ok. by eapply Hm. Qed.
Lemma framing_constraints {A} (m : co_tx A) cs e : framing m → framing (co_on_constraints m cs e).
Proof. intros Hm db db' x Hok%co_on_constraints_ok. by eapply Hm. Qed.

(** ** Statements *)
Lemma frame_rows db t :
  (∀ c', c' ∈ t → ∃ c, c ∈ cash_outs db ∧ co_intent c = co_intent c'
     ∧ (is_Some (co_authorized_at c') → is_Some (co_authorized_at c))) → auth_frame db (set_cash_outs t db).
Proof.
  intros Ht. split; cbn; [|eauto 10]. intros c' Hc Ha _. destruct (Ht c' Hc) as (c & ? & ? & ?). eauto.
Qed.
Lemma frame_auths db db' :
  cash_outs db' = cash_outs db → (∀ a, a ∈ authorizations db → a ∈ authorizations db') → auth_frame db db'.
Proof. intros H1 H2. split; [rewrite H1; eauto 10|eauto 10]. Qed.

Lemma framing_update_cash_out p f :
  (∀ c, co_intent (f c) = co_intent c) → (∀ c, co_authorized_at (f c) = co_authorized_at c) →
  framing (update_cash_out p f).
Proof.
  intros Hi Ha db db' row (c & _ & _ & _ & _ & ->)%update_cash_out_ok. apply frame_rows.
  intros c' (d & Hd & ->)%elem_of_sql_update. exists d. destruct (p d); [rewrite Hi, Ha|]; done.
Qed.
Lemma framing_expire sel st now : framing (expire_cash_outs sel st now).
Proof.
  intros db db' x Hok. unfold expire_cash_outs in Hok. tx_inv. apply frame_rows.
  intros c' (d & Hd & ->)%elem_of_sql_update. exists d. case_match; done.
Qed.
Lemma framing_CreateRow row :
  (is_Some (co_authorized_at row) → is_Some (ci_batch_id (co_intent row))) → framing (CreatePositionCashOut_row row).
Proof.
  intros Hrow db db' r (-> & -> & _ & _)%CreateRow_ok. split; cbn; [|eauto 10].
  intros c' [Hc| ->%list_elem_of_singleton]%elem_of_app Ha Hb; [eauto|].
  destruct (Hrow Ha) as [? ?]. congruence.
Qed.
Lemma framing_CreateCommand row : framing (CreatePositionCashOutCommand row).
Proof. intros db db' r (-> & -> & _ & _)%CreateCommand_ok. by apply frame_auths. Qed.
Lemma framing_CreateAuthorization row : framing (CreatePositionCashOutAuthorization row).
Proof.
  intros db db' r (-> & -> & _)%CreateAuthorization_ok. apply frame_auths; [done|]. cbn. intros a Ha.
  apply elem_of_app. by left.
Qed.
Lemma framing_EndAuthorization st now reason c : framing (EndPositionCashOutAuthorization st now reason c).
Proof.
  intros db db' r Hok. unfold EndPositionCashOutAuthorization in Hok. tx_inv. split; cbn; [eauto|].
  intros a Ha. eexists. split; [apply elem_of_sql_update; exists a; split; [done|reflexivity]|]. by case_match.
Qed.
Lemma framing_CreateAttempt id cash_out claim digest now :
  framing (CreatePositionCashOutAttempt id cash_out claim digest now).
Proof. intros db db' r (_ & _ & _ & _ & -> & _)%CreateAttempt_ok. by apply frame_auths. Qed.
Lemma framing_update_attempt p f : framing (update_attempt p f).
Proof. intros db db' r (a & _ & _ & _ & _ & ->)%update_attempt_ok. by apply frame_auths. Qed.
Lemma framing_SetBaseline item batch cash_out mint d am sl now :
  framing (SetPositionCashOutBatchItemBalanceBaseline item batch cash_out mint d am sl now).
Proof. intros db db' r Hok. unfold SetPositionCashOutBatchItemBalanceBaseline in Hok. tx_inv. by apply frame_auths. Qed.
Lemma framing_TouchBatch batch ordinal np now : framing (TouchPositionCashOutBatchAfterDispatch batch ordinal np now).
Proof. intros db db' r Hok. unfold TouchPositionCashOutBatchAfterDispatch in Hok. tx_inv. by apply frame_auths. Qed.
Lemma framing_Claim id claim owner ex now : framing (ClaimPositionCashOut_query id claim owner ex now).
Proof. by apply framing_update_cash_out. Qed.
Lemma framing_Renew id claim owner ex now : framing (RenewPositionCashOutClaim_query id claim owner ex now).
Proof. by apply framing_update_cash_out. Qed.
Lemma framing_Begin id claim ps now : framing (BeginPositionCashOutClosing_query id claim ps now).
Proof. by apply framing_update_cash_out. Qed.
Lemma framing_Touch id claim now : framing (TouchPositionCashOutAfterDispatch id claim now).
Proof. by apply framing_update_cash_out. Qed.
Lemma framing_RequestReconciliation id owner e now : framing (RequestPositionCashOutReconciliation_query id owner e now).
Proof. by apply framing_update_cash_out. Qed.
Lemma framing_Record id claim s s' reason ps cl li np now :
  framing (RecordPositionCashOutObservation_query id claim s s' reason ps cl li np now).
Proof. by apply framing_update_cash_out. Qed.
Lemma framing_FailChild id batch item now : framing (FailUndispatchedPositionCashOutBatchChild id batch item now).
Proof. by apply framing_update_cash_out. Qed.
Lemma framing_DispatchAttempt id cash_out claim now : framing (DispatchPositionCashOutAttempt_query id cash_out claim now).
Proof. apply framing_bind; [apply framing_get|]. intros db. apply framing_update_attempt. Qed.
Lemma framing_ResolveAttempt id cash_out st h p sl ps e now :
  framing (ResolvePositionCashOutAttempt_query id cash_out st h p sl ps e now).
Proof. apply framing_update_attempt. Qed.
Lemma framing_ExpireUnauthorized locked now limit : framing (ExpireUnauthorizedPositionCashOuts locked now limit).
Proof. apply framing_expire. Qed.
Lemma framing_ExpireUndispatched locked now limit : framing (ExpireUndispatchedPositionCashOuts locked now limit).
Proof. apply framing_expire. Qed.
Lemma framing_prepared_or_existing {UL : UuidLib} i c d m : framing m → framing (prepared_or_existing i c d m).
Proof.
  intros Hm db db' x Hok. unfold prepared_or_existing in Hok.
  destruct (m db) as [[db1 row]|e] eqn:E; [simplify_eq; by eapply Hm|]. destruct e; try done.
  case_bool_decide; [|done]. destruct (GetPositionCashOutAttempt c db); [|done]. case_match; [|done].
  simplify_eq. reflexivity.
Qed.

Create HintDb frame discriminated.
#[export] Hint Constants Opaque : frame.
#[export] Hint Resolve framing_ret framing_get framing_lift framing_ensure framing_CreateCommand
  framing_CreateAuthorization framing_EndAuthorization framing_CreateAttempt framing_SetBaseline framing_TouchBatch
  framing_Claim framing_Renew framing_Begin framing_Touch framing_RequestReconciliation framing_Record
  framing_FailChild framing_DispatchAttempt framing_ResolveAttempt framing_ExpireUnauthorized
  framing_ExpireUndispatched framing_prepared_or_existing : frame.
Ltac frame :=
  repeat (cbv zeta; lazymatch goal with
  | |- framing (_ ≫= _) => apply framing_bind; [|intros ?]
  | |- framing (co_on_no_rows _ _) => apply framing_no_rows
  | |- framing (co_on_constraints _ _ _) => apply framing_constraints
  | |- framing (load _) => unfold load
  | |- framing (match ?x with _ => _ end) => destruct x eqn:?
  end); eauto with frame.

Section Authorization.
Context {UL : UuidLib} {SL : SolanaLib} {DL : DigestLib CashOutPayload}.

Lemma framing_revoke_all now rows : framing (revoke_all now rows).
Proof. induction rows; cbn; frame. Qed.
Hint Resolve framing_revoke_all : frame.

Lemma CreatePositionCashOut_frame clock fresh req : framing (CreatePositionCashOut clock fresh req).
Proof. unfold CreatePositionCashOut. frame. apply framing_CreateRow. by intros [? ?]. Qed.

(** The one statement that authorizes: its authorization was just recorded. *)
Lemma AuthorizePositionCashOut_authorizes clock fresh req db db' r :
  COInv db → AuthInv db → AuthorizePositionCashOut clock fresh req db = Ok (db', r) → AuthInv db'.
Proof.
  intros K I Hok. unfold AuthorizePositionCashOut in Hok. cbv zeta in Hok.
  do 8 tx_step. tx_inv.
  match goal with H : match ?x with _ => _ end _ = Ok _ |- _ => destruct x end; [tx_inv; done|].
  repeat tx_step. simplify_eq.
  match goal with H : CreatePositionCashOutCommand _ _ = Ok _ |- _ => apply CreateCommand_ok in H as (_ & -> & _) end.
  match goal with H : CreatePositionCashOutAuthorization _ _ = Ok _ |- _ => apply CreateAuthorization_ok in H as (_ & -> & _) end.
  match goal with H : co_on_no_rows _ _ _ = Ok _ |- _ =>
    apply co_on_no_rows_ok, update_cash_out_ok in H as (q & Hq & Hp & -> & _ & ->) end.
  cbn in *. match goal with H : GetPositionCashOutForUpdate _ _ _ = Some ?c |- _ =>
    rename c into row; apply sql_one_Some in H as [Hrow Hrin] end.
  guards. unfold load in *. tx_inv.
  assert (q = row) as -> by (eapply (NoDup_key_inj co_id); [apply K|done|done|congruence]).
  intros c' Hc Ha Hb. cbn in Hc. apply elem_of_sql_update in Hc as (d & Hd & ->). cbn.
  case_match eqn:E.
  - guards. assert (d = row) as -> by (eapply (NoDup_key_inj co_id); [apply K|done|done|congruence]).
    eexists. rewrite elem_of_app, list_elem_of_singleton. split; [right; reflexivity|].
    unfold authorizes, co_id, co_owner in *. split_and!; cbn; congruence.
  - destruct (I d Hd Ha Hb) as (a & ? & ?). exists a. rewrite elem_of_app. auto.
Qed.

(** Every other operation authorizes nothing. *)
Lemma step_frame db db' : co_step db db' →
  auth_frame db db' ∨ ∃ clock fresh req r, AuthorizePositionCashOut clock fresh req db = Ok (db', r).
Proof.
  intros [? ? ? ? ? H|? ? ? ? ? H|? ? ? ? H|? ? ? ? H|? ? ? ? H|? ? ? ? H|? ? ? ? H
    |? ? ? ? H|? ? ? ? H|? ? ? ? H|? ? ? ? H|? ? ? ? H|? ? ? ? ? ? H|? ? ? ? ? Hb H|? ? ? ? ? ? H|e];
    [|right; eauto|..|left; by apply frame_auths]; left; revert H;
    lazymatch goal with |- ?m _ = _ → _ => enough (framing m) as Hf by (intros Hok; by eapply Hf) end.
  - apply CreatePositionCashOut_frame.
  - unfold ClaimPositionCashOut. frame.
  - unfold RenewPositionCashOutClaim. frame.
  - unfold BeginPositionCashOutClosing. frame.
  - unfold PreparePositionCashOutAttempt. frame.
  - unfold DispatchPositionCashOutAttempt. frame.
  - unfold DispatchPositionCashOutBatchAttempt. frame.
  - unfold ResolvePositionCashOutAttempt. frame.
  - unfold CompletePositionCashOutDispatch. frame.
  - unfold RecordPositionCashOutObservation. frame.
  - unfold RequestPositionCashOutReconciliation. frame.
  - unfold ExpirePositionCashOuts. frame.
  - by apply framing_CreateRow.
  - apply framing_FailChild.
Qed.

Lemma AuthInv_reachable db : reachable db → AuthInv db.
Proof.
  intros [e Hs]. assert (COInv (empty_cdb e) ∧ AuthInv (empty_cdb e)) as [K I].
  { split; [apply COInv_empty|]. intros c Hc. by apply not_elem_of_nil in Hc. }
  revert K I. induction Hs as [|x y z H1 H2 IH]; [done|]. intros K I.
  apply IH; [by eapply step_evolves|].
  destruct (step_frame _ _ H1) as [Hf|(? & ? & ? & ? & Hok)]; [by eapply AuthInv_frame|].
  by eapply AuthorizePositionCashOut_authorizes.
Qed.
End Authorization.
