(* ===== verification/CashOutWorker.v ===== *)
(** * Position cash-out: the worker

    [internal/wormtrading/position_cash_out_worker.go], with the error classes of
    [worm_api.go].  A worker is a program over the operations it performs on the
    store, the provider, the balance adapter, the clock and the UUID source
    ([prog]); the replies are supplied by whoever runs it.  Health bookkeeping
    ([recordCredentialStoreResult], [recordWormResult]), wake-ups of other
    workers and log lines have no effect on the program and are left out. *)

From S2P Require Import Prelude Prog Sql CashOutTypes CashOutStages CashOutStore.
From stdpp Require Import base tactics option list list_numbers sorting strings gmap.
From Stdlib Require Import ZArith Lia Ascii.
#[local] Open Scope Z_scope.

(** ** Operations and programs *)
(** What the worker reads of [WalletConnectionSnapshot] and [StoredCredential]. *)
Record StoredCredential := {
  sc_id : Z; sc_wallet_id : Z; sc_version : Z; sc_state : CredentialState; sc_api_key_ciphertext : string;
  sc_api_secret_ciphertext : string }.
Record WalletConnectionSnapshot := { sn_state : ConnectionState; sn_active_credential : option StoredCredential }.
Record BalanceObservation := {
  bo_atomic_amount : string; bo_decimals : Z; bo_observed_slot : Z; bo_availability : string }.
Record WalletBalanceResult := { wb_wallet_id : Z; wb_address : string; wb_usdc : BalanceObservation }.

(** An authenticated client is determined by its credentials. *)
Record WormAPIClient := { wa_key : string; wa_secret : string }.

(** A Close carries the cash-out it is sent for as a ghost. *)
Inductive op :=
| OpNow
| OpNewString
| OpCtxErr
| OpExpire (now limit : Z)
| OpListRecoverable (now limit : Z)
| OpClaim (req : PositionCashOutClaimRequest)
| OpBeginClosing (req : BeginPositionCashOutClosingRequest)
| OpPrepare (req : PreparePositionCashOutAttemptRequest)
| OpDispatch (req : DispatchPositionCashOutAttemptRequest)
| OpDispatchBatch (req : DispatchPositionCashOutBatchAttemptRequest)
| OpResolve (req : ResolvePositionCashOutAttemptRequest)
| OpComplete (req : CompletePositionCashOutDispatchRequest)
| OpRecord (req : RecordPositionCashOutObservationRequest)
| OpSnapshot (wallet : Z) (address : string)
| OpDecrypt (wallet : Z) (key secret : string)
| OpNewClient (key secret : string)
| OpGet (client : WormAPIClient) (pubkey : string)
| OpClose (client : WormAPIClient) (cash_out pubkey : string) (price : option Z)
| OpMarkReconnect (wallet : Z) (address : string) (credential : Z)
| OpBalances (wallet : Z) (address : string).

Definition resp (o : op) : Type :=
  match o with
  | OpNow => Z
  | OpNewString => string
  | OpCtxErr => bool
  | OpExpire _ _ => result COError Z
  | OpListRecoverable _ _ => result COError (list PositionCashOut)
  | OpClaim _ | OpBeginClosing _ | OpComplete _ | OpRecord _ => result COError PositionCashOut
  | OpPrepare _ | OpDispatch _ | OpDispatchBatch _ | OpResolve _ => result COError PositionCashOutAttempt
  | OpSnapshot _ _ => result COError WalletConnectionSnapshot
  | OpDecrypt _ _ _ => result go_error (string * string)
  | OpNewClient _ _ => option go_error
  | OpGet _ _ => (option MarginPosition * option go_error)%type
  | OpClose _ _ _ _ => (option CloseMarginPositionResult * option go_error)%type
  | OpMarkReconnect _ _ _ => unit
  | OpBalances _ _ => result go_error (list WalletBalanceResult)
  end.

Abbreviation prog := (program resp).
Abbreviation call := (Prog.call (resp := resp)).

(** The client as the provider stages use it for a cash-out. *)
Definition prog_client (client : WormAPIClient) (cashOut : PositionCashOut) : MarginPositionCashOutClient prog := {|
  GetMarginPosition pubkey := call (OpGet client pubkey);
  CloseMarginPosition pubkey price := call (OpClose client (pco_id cashOut) pubkey price) |}.

(** ** Error classes ([worm_api.go]) *)
Definition wormErrorReconnectRequired : string := "RECONNECT_REQUIRED".
Definition wormErrorRateLimited : string := "RATE_LIMITED".
Definition wormErrorUnavailable : string := "WORM_UNAVAILABLE".
Definition wormErrorRejected : string := "WORM_REJECTED".
Definition wormErrorInvalidResponse : string := "INVALID_RESPONSE".
Definition wormErrorTimeout : string := "TIMEOUT".
Definition wormErrorCancelled : string := "CANCELLED".

Definition classifyWormError (err : option go_error) : string :=
  match err with
  | None => ""
  | Some e =>
      if is_canceled e then wormErrorCancelled
      else if is_deadline_exceeded e then wormErrorTimeout
      else match as_worm_error e with
           | Some w =>
               if (we_status_code w =? 401) || (we_status_code w =? 403) then wormErrorReconnectRequired
               else if we_status_code w =? 429 then wormErrorRateLimited
               else if (we_status_code w =? 408) || (we_status_code w =? 425) then wormErrorUnavailable
               else if 500 <=? we_status_code w then wormErrorUnavailable
               else wormErrorRejected
           | None =>
               let errText := to_lower (error_text e) in
               if contains errText "decode worm response" || contains errText "invalid" then wormErrorInvalidResponse
               else wormErrorUnavailable
           end
  end.
Definition isWormAuthenticationError (err : option go_error) : bool :=
  bool_decide (classifyWormError err = wormErrorReconnectRequired).
Definition isWormNotFoundError (err : option go_error) : bool :=
  match err with
  | Some e => match as_worm_error e with Some w => we_status_code w =? 404 | None => false end
  | None => false
  end.
Definition isTemporaryWormErrorCode (code : string) : bool :=
  bool_decide (code = wormErrorRateLimited) || bool_decide (code = wormErrorUnavailable)
  || bool_decide (code = wormErrorTimeout) || bool_decide (code = wormErrorCancelled).

(** ** Constants *)
Definition second : Z := 1000000000.
Definition positionCashOutClaimLease : Z := 45 * second.
Definition positionCashOutRecoverySize : Z := 100.
Definition positionCashOutPendingPoll : Z := second.
Definition positionCashOutReasonNotFound : string := "POSITION_NOT_FOUND".
Definition positionCashOutReasonChanged : string := "POSITION_CHANGED".
Definition positionCashOutReasonLiquidated : string := "POSITION_LIQUIDATED".
Definition positionCashOutReasonConnectionChanged : string := "WORM_CONNECTION_CHANGED".
Definition positionCashOutReasonCloseRejected : string := "CLOSE_REJECTED".
Definition positionCashOutReasonCloseUnknown : string := "CLOSE_OUTCOME_UNKNOWN".
Definition positionCashOutReasonProviderInvalid : string := "INVALID_RESPONSE".
Definition positionCashOutReasonBatchTerminated : string := "BATCH_TERMINATED".

(** ** Pure helpers *)
(** The error a worker step returns. *)
Inductive worker_error := WorkerStore (e : COError) | WorkerError (e : go_error).

(** [time.Time.Unix] *)
Definition unix_seconds (t : Z) : Z := t / second - 62135596800.

Definition positionCashOutFrozenTarget (cashOut : PositionCashOut) : MarginPositionCashOutTarget := {|
  tg_position_pubkey := pco_position_pubkey cashOut;
  tg_position_request_pubkey := if bool_decide (pco_position_request_pubkey cashOut = EmptyString) then None
                                else Some (pco_position_request_pubkey cashOut);
  tg_market_condition_id := pco_market_condition_id cashOut; tg_is_yes := pco_is_yes cashOut;
  tg_created_at := unix_seconds (pco_position_created_at cashOut); tg_total_shares := pco_shares cashOut;
  tg_is_closed := pco_provider_is_closed cashOut; tg_is_liquidated := pco_provider_is_liquidated cashOut |}.

Definition positionCashOutProviderState (target : MarginPositionCashOutTarget) : string :=
  if tg_is_liquidated target then "liquidated" else if tg_is_closed target then "closed" else "open".

Definition attempt_is (cashOut : PositionCashOut) (s : PositionCashOutAttemptState) : bool :=
  match pco_attempt cashOut with Some a => bool_decide (pat_state a = s) | None => false end.
(** [Attempt != nil && Attempt.State != PREPARED] *)
Definition mutation_dispatched (cashOut : PositionCashOut) : bool :=
  match pco_attempt cashOut with
  | Some a => negb (bool_decide (pat_state a = PositionCashOutAttemptStatePrepared))
  | None => false
  end.
Definition in_batch (cashOut : PositionCashOut) : bool := negb (bool_decide (pco_batch_id cashOut = EmptyString)).
Definition positionCashOutBatchMutationNotDispatched (cashOut : PositionCashOut) : bool :=
  in_batch cashOut && negb (mutation_dispatched cashOut).

Record positionCashOutDispatchMetadata := {
  md_http_status : Z; md_provider_code : Z; md_provider_slug : string; md_error_code : string;
  md_explicitly_rejected : bool }.
Definition classifyPositionCashOutDispatch (err : option go_error) : positionCashOutDispatchMetadata :=
  match err with
  | None => {| md_http_status := 0; md_provider_code := 0; md_provider_slug := ""; md_error_code := "";
               md_explicitly_rejected := false |}
  | Some e =>
      match as_worm_error e with
      | None => {| md_http_status := 0; md_provider_code := 0; md_provider_slug := "";
                   md_error_code := classifyWormError err; md_explicitly_rejected := false |}
      | Some w => {|
          md_http_status := wrap32 (we_status_code w); md_provider_code := wrap32 (we_code w);
          md_provider_slug := we_slug w; md_error_code := classifyWormError err;
          md_explicitly_rejected :=
            (we_status_code w =? 0)
            || ((400 <=? we_status_code w) && (we_status_code w <? 500) && negb (we_status_code w =? 408)
                && negb (we_status_code w =? 429)) |}
      end
  end.

Definition SolanaNativeUSDCMint : string := "EPjFWdd5AufqSSqeM2qN1xzybapC8G4wEGGkZwyTDt1v".
Definition USDCDecimals : Z := 6.
Definition availabilityAvailable : string := "AVAILABLE".

(** [new(big.Int).SetString(s, 10)] *)
Definition digits_value (s : string) : option Z :=
  if bool_decide (s = EmptyString) then None else
  foldl (λ acc a, v ← acc; if is_digit a then Some (10 * v + (Z.of_N (N_of_ascii a) - 48)) else None) (Some 0)
    (String.list_ascii_of_string s).
Definition big_int_of_string (s : string) : option Z :=
  match s with
  | String a s' =>
      if (N_of_ascii a =? 45)%N then Z.opp <$> digits_value s'
      else if (N_of_ascii a =? 43)%N then digits_value s' else digits_value s
  | EmptyString => None
  end.
Definition canonicalNonNegativeAtomicAmount (raw : string) : option string :=
  let value := trim_space raw in
  if bool_decide (value = EmptyString) || negb (bool_decide (value = raw))
     || ((1 <? String.length value)%nat && leading_zero value) then None else
  match big_int_of_string value with
  | Some parsed => if (parsed <? 0) || negb (bool_decide (decimal_text parsed = value)) then None else Some value
  | None => None
  end.

Definition attempt_of (cashOut : PositionCashOut) (a : option PositionCashOutAttempt) : PositionCashOut := {|
  pco_id := pco_id cashOut; pco_owner_account_id := pco_owner_account_id cashOut; pco_wallet_id := pco_wallet_id cashOut;
  pco_wallet_address := pco_wallet_address cashOut; pco_credential_version := pco_credential_version cashOut;
  pco_position_pubkey := pco_position_pubkey cashOut; pco_market_condition_id := pco_market_condition_id cashOut;
  pco_is_yes := pco_is_yes cashOut; pco_position_created_at := pco_position_created_at cashOut;
  pco_position_request_pubkey := pco_position_request_pubkey cashOut; pco_shares := pco_shares cashOut;
  pco_intent_digest_sha256 := pco_intent_digest_sha256 cashOut; pco_state := pco_state cashOut;
  pco_revision := pco_revision cashOut; pco_reason_code := pco_reason_code cashOut;
  pco_provider_state := pco_provider_state cashOut; pco_provider_is_closed := pco_provider_is_closed cashOut;
  pco_provider_is_liquidated := pco_provider_is_liquidated cashOut;
  pco_authorization_expires_at := pco_authorization_expires_at cashOut;
  pco_execution_expires_at := pco_execution_expires_at cashOut; pco_authorized_at := pco_authorized_at cashOut;
  pco_next_poll_at := pco_next_poll_at cashOut; pco_poll_count := pco_poll_count cashOut;
  pco_reconcile_requested_at := pco_reconcile_requested_at cashOut; pco_claim_id := pco_claim_id cashOut;
  pco_claim_owner := pco_claim_owner cashOut; pco_claim_expires_at := pco_claim_expires_at cashOut;
  pco_completed_at := pco_completed_at cashOut; pco_created_at := pco_created_at cashOut;
  pco_updated_at := pco_updated_at cashOut; pco_batch_id := pco_batch_id cashOut;
  pco_batch_item_id := pco_batch_item_id cashOut; pco_authorization := pco_authorization cashOut; pco_attempt := a |}.

Section Worker.
Context {SL : SolanaLib} {DL : DigestLib marginPositionCashOutProviderRequest}.

(** ** Recording *)
Definition recordPositionCashOutState (cashOut : PositionCashOut) (claimID : string) (next : PositionCashOutState)
    (reasonCode providerState : string) (observed : MarginPositionCashOutTarget) (nextPollAt : Z)
    : prog (option worker_error) :=
  now ← call OpNow;
  res ← call (OpRecord {| oq_cash_out_id := pco_id cashOut; oq_claim_id := claimID;
    oq_expected_state := pco_state cashOut; oq_next_state := next; oq_reason_code := reasonCode;
    oq_provider_state := providerState; oq_provider_is_closed := tg_is_closed observed;
    oq_provider_is_liquidated := tg_is_liquidated observed; oq_next_poll_at := nextPollAt; oq_now := now |});
  mret (match res with Ok _ => None | Err e => Some (WorkerStore e) end).
Definition recordPositionCashOutFailure (cashOut : PositionCashOut) (claimID reasonCode providerState : string)
    : prog (option worker_error) :=
  recordPositionCashOutState cashOut claimID PositionCashOutStateFailed reasonCode providerState
    (positionCashOutFrozenTarget cashOut) 0.
Definition recordPositionCashOutReconciliation (cashOut : PositionCashOut) (claimID reasonCode providerState : string)
    (observed : MarginPositionCashOutTarget) : prog (option worker_error) :=
  now ← call OpNow;
  recordPositionCashOutState cashOut claimID PositionCashOutStateReconciliationRequired reasonCode providerState
    observed (now + positionCashOutPendingPoll).

(** ** The client and the exact GET *)
(** The credential id is returned with a decryption error too. *)
Definition positionCashOutClient (cashOut : PositionCashOut) : prog (result unit WormAPIClient * Z) :=
  snapshot ← call (OpSnapshot (pco_wallet_id cashOut) (pco_wallet_address cashOut));
  match snapshot with
  | Err _ => mret (Err tt, 0)
  | Ok snapshot =>
      match sn_active_credential snapshot with
      | None => mret (Err tt, 0)
      | Some credential =>
          if negb (bool_decide (sn_state snapshot = ConnectionStateConnected))
             || negb (bool_decide (sc_state credential = CredentialStateActive))
             || (negb (mutation_dispatched cashOut) && negb (sc_version credential =? pco_credential_version cashOut))
          then mret (Err tt, 0) else
          keys ← call (OpDecrypt (sc_wallet_id credential) (sc_api_key_ciphertext credential)
                         (sc_api_secret_ciphertext credential));
          match keys with
          | Err _ => mret (Err tt, sc_id credential)
          | Ok (apiKey, apiSecret) =>
              err ← call (OpNewClient apiKey apiSecret);
              mret (match err with
                    | Some _ => Err tt
                    | None => Ok {| wa_key := apiKey; wa_secret := apiSecret |}
                    end, sc_id credential)
          end
      end
  end.

Definition observePositionCashOut (client : WormAPIClient) (cashOut : PositionCashOut)
    : prog (MarginPositionCashOutTarget * option go_error) :=
  @ObserveMarginPositionCashOut _ prog _ _ (prog_client client cashOut) (positionCashOutFrozenTarget cashOut).

Definition handlePositionCashOutPreflightError (cashOut : PositionCashOut) (claimID : string) (credentialID : Z)
    (err : go_error) : prog (option worker_error) :=
  if isWormAuthenticationError (Some err) then
    _ ← call (OpMarkReconnect (pco_wallet_id cashOut) (pco_wallet_address cashOut) credentialID);
    recordPositionCashOutFailure cashOut claimID positionCashOutReasonConnectionChanged ""
  else if isWormNotFoundError (Some err) then
    recordPositionCashOutFailure cashOut claimID positionCashOutReasonNotFound ""
  else if isTemporaryWormErrorCode (classifyWormError (Some err)) then mret (Some (WorkerError err))
  else recordPositionCashOutFailure cashOut claimID positionCashOutReasonChanged "".

Definition readPositionCashOutBatchBalance (walletID : Z) (walletAddress : string)
    : prog (result go_error PositionCashOutBatchBalanceEvidence) :=
  results ← call (OpBalances walletID walletAddress);
  mret (match results with
  | Err e => Err (ErrorWrap "read batch Cash Out USDC baseline" e)
  | Ok [r] =>
      if negb ((wb_wallet_id r =? walletID) && bool_decide (wb_address r = walletAddress)) then
        Err (ErrorText "batch Cash Out balance response does not match the Wallet")
      else
        let observation := wb_usdc r in
        if negb (bool_decide (bo_availability observation = availabilityAvailable)
                 && (bo_decimals observation =? USDCDecimals) && negb (bo_observed_slot observation =? 0)) then
          Err (ErrorText "batch Cash Out confirmed USDC balance is unavailable")
        else match canonicalNonNegativeAtomicAmount (bo_atomic_amount observation) with
             | None => Err (ErrorText "batch Cash Out confirmed USDC balance is invalid")
             | Some atomicAmount => Ok {| be_mint := SolanaNativeUSDCMint; be_decimals := USDCDecimals;
                 be_atomic_amount := atomicAmount; be_observed_slot := bo_observed_slot observation |}
             end
  | Ok _ => Err (ErrorText "batch Cash Out balance response does not match the Wallet")
  end).

(** ** Reconciliation *)
Definition reconcileClaimedPositionCashOut (client : WormAPIClient) (cashOut : PositionCashOut) (claimID : string)
    (credentialID : Z) : prog (option worker_error) :=
  res ← observePositionCashOut client cashOut;
  let '(observed, err) := res in
  match err with
  | Some e =>
      _ ← (if isWormAuthenticationError (Some e)
           then call (OpMarkReconnect (pco_wallet_id cashOut) (pco_wallet_address cashOut) credentialID) else mret tt);
      let reason := if isWormNotFoundError (Some e) then positionCashOutReasonNotFound
                    else positionCashOutReasonCloseUnknown in
      recordPositionCashOutReconciliation cashOut claimID reason "" (positionCashOutFrozenTarget cashOut)
  | None =>
      let providerState := positionCashOutProviderState observed in
      if tg_is_liquidated observed then
        if positionCashOutBatchMutationNotDispatched cashOut then
          recordPositionCashOutFailure cashOut claimID positionCashOutReasonLiquidated providerState
        else recordPositionCashOutState cashOut claimID PositionCashOutStateFailed positionCashOutReasonLiquidated
               providerState observed 0
      else if tg_is_closed observed then
        if positionCashOutBatchMutationNotDispatched cashOut then
          recordPositionCashOutFailure cashOut claimID positionCashOutReasonChanged providerState
        else recordPositionCashOutState cashOut claimID PositionCashOutStateCompleted "" providerState observed 0
      else if attempt_is cashOut PositionCashOutAttemptStateRejected then
        recordPositionCashOutState cashOut claimID PositionCashOutStateFailed positionCashOutReasonCloseRejected
          providerState observed 0
      else if bool_decide (pco_state cashOut = PositionCashOutStateReconciliationRequired)
              || attempt_is cashOut PositionCashOutAttemptStateOutcomeUnknown
              || attempt_is cashOut PositionCashOutAttemptStateDispatched then
        recordPositionCashOutReconciliation cashOut claimID positionCashOutReasonCloseUnknown providerState observed
      else
        now ← call OpNow;
        recordPositionCashOutState cashOut claimID PositionCashOutStateAwaitingCompletion "" providerState observed
          (now + positionCashOutPendingPoll)
  end.

(** ** Dispatch *)
(** The transaction that makes the attempt durable before the request is sent. *)
Definition dispatch_durably (cashOut : PositionCashOut) (claimID attemptID : string)
    : prog (result worker_error (result COError PositionCashOutAttempt)) :=
  if in_batch cashOut then
    baseline ← readPositionCashOutBatchBalance (pco_wallet_id cashOut) (pco_wallet_address cashOut);
    match baseline with
    | Err e => mret (Err (WorkerError e))
    | Ok baseline =>
        now ← call OpNow;
        res ← call (OpDispatchBatch {| dbq_batch_id := pco_batch_id cashOut; dbq_item_id := pco_batch_item_id cashOut;
          dbq_attempt_id := attemptID; dbq_cash_out_id := pco_id cashOut; dbq_claim_id := claimID;
          dbq_baseline := baseline; dbq_next_poll_at := now; dbq_now := now |});
        mret (Ok res)
    end
  else
    now ← call OpNow;
    res ← call (OpDispatch {| dq_attempt_id := attemptID; dq_cash_out_id := pco_id cashOut; dq_claim_id := claimID;
      dq_now := now |});
    mret (Ok res).

(** Everything after the durable dispatch: the one Close and its outcome. *)
Definition send_close (client : WormAPIClient) (cashOut : PositionCashOut) (claimID attemptID : string)
    (command : MarginPositionCashOutCommand) (credentialID : Z) : prog (option worker_error) :=
  res ← @DispatchMarginPositionCashOut _ _ prog _ _ (prog_client client cashOut) command;
  let '(observation, dispatchErr) := res in
  _ ← (if isWormAuthenticationError dispatchErr
       then call (OpMarkReconnect (pco_wallet_id cashOut) (pco_wallet_address cashOut) credentialID) else mret tt);
  let metadata := classifyPositionCashOutDispatch dispatchErr in
  let attemptState := match dispatchErr with
    | None => PositionCashOutAttemptStateAcknowledged
    | Some _ => if md_explicitly_rejected metadata then PositionCashOutAttemptStateRejected
                else PositionCashOutAttemptStateOutcomeUnknown end in
  let providerState := match observation with
    | Some o => if ob_is_closed o then "closed"%string else "closing"%string | None => ""%string end in
  if match dispatchErr, observation with
     | None, Some o => bool_decide (ob_position_pubkey o = pco_position_pubkey cashOut) && ob_is_closed o
     | _, _ => false end then
    now ← call OpNow;
    res ← call (OpComplete {| fq_attempt_id := attemptID; fq_cash_out_id := pco_id cashOut; fq_claim_id := claimID;
      fq_http_status := md_http_status metadata; fq_provider_code := md_provider_code metadata;
      fq_provider_slug := md_provider_slug metadata; fq_provider_state := "closed";
      fq_error_code := md_error_code metadata; fq_now := now |});
    mret (match res with Ok _ => None | Err e => Some (WorkerStore e) end)
  else
    now ← call OpNow;
    res ← call (OpResolve {| rvq_attempt_id := attemptID; rvq_cash_out_id := pco_id cashOut; rvq_state := attemptState;
      rvq_http_status := md_http_status metadata; rvq_provider_code := md_provider_code metadata;
      rvq_provider_slug := md_provider_slug metadata; rvq_provider_state := providerState;
      rvq_error_code := md_error_code metadata; rvq_now := now |});
    match res with
    | Err e => mret (Some (WorkerStore e))
    | Ok resolved => reconcileClaimedPositionCashOut client (attempt_of cashOut (Some resolved)) claimID credentialID
    end.

Definition dispatchPreparedPositionCashOut (client : WormAPIClient) (cashOut : PositionCashOut) (claimID : string)
    (command : MarginPositionCashOutCommand) (credentialID : Z) : prog (option worker_error) :=
  prepared ← match pco_attempt cashOut with
    | Some a => mret (Ok (pat_id a, cashOut))
    | None =>
        attemptID ← call OpNewString;
        now ← call OpNow;
        res ← call (OpPrepare {| pq_attempt_id := attemptID; pq_cash_out_id := pco_id cashOut; pq_claim_id := claimID;
          pq_request_sha256 := cmd_request_sha256 command; pq_now := now |});
        mret (match res with
              | Err e => Err (WorkerStore e)
              | Ok attempt => Ok (attemptID, attempt_of cashOut (Some attempt)) end)
    end;
  match prepared with
  | Err e => mret (Some e)
  | Ok (attemptID, cashOut) =>
      dispatched ← dispatch_durably cashOut claimID attemptID;
      match dispatched with
      | Err e => mret (Some e)
      | Ok (Err e) =>
          if in_batch cashOut && bool_decide (e = ErrPositionCashOutBatchClaim) then
            recordPositionCashOutFailure cashOut claimID positionCashOutReasonBatchTerminated
              (pco_provider_state cashOut)
          else mret (Some (WorkerStore e))
      | Ok (Ok dispatched) =>
          send_close client (attempt_of cashOut (Some dispatched)) claimID attemptID command credentialID
      end
  end.

(** ** One claimed cash-out *)
(** The cases the two preflights share: [Some] is the early return. *)
Definition preflight_verdict (cashOut : PositionCashOut) (claimID : string) (observed : MarginPositionCashOutTarget)
    : option (prog (option worker_error)) :=
  let providerState := positionCashOutProviderState observed in
  if in_batch cashOut && negb (bool_decide (tg_total_shares observed = pco_shares cashOut)) then
    Some (recordPositionCashOutFailure cashOut claimID positionCashOutReasonChanged providerState)
  else if tg_is_liquidated observed then
    Some (if in_batch cashOut
          then recordPositionCashOutFailure cashOut claimID positionCashOutReasonLiquidated providerState
          else recordPositionCashOutState cashOut claimID PositionCashOutStateFailed positionCashOutReasonLiquidated
                 providerState observed 0)
  else if tg_is_closed observed then
    Some (if in_batch cashOut
          then recordPositionCashOutFailure cashOut claimID positionCashOutReasonChanged providerState
          else recordPositionCashOutState cashOut claimID PositionCashOutStateCompleted "" providerState observed 0)
  else None.

Definition preflight (client : WormAPIClient) (cashOut : PositionCashOut) (claimID : string) (credentialID : Z)
    : prog (option worker_error) :=
  res ← observePositionCashOut client cashOut;
  let '(observed, observeErr) := res in
  match observeErr with
  | Some e => handlePositionCashOutPreflightError cashOut claimID credentialID e
  | None =>
      let providerState := positionCashOutProviderState observed in
      match preflight_verdict cashOut claimID observed with
      | Some early => early
      | None =>
          now ← call OpNow;
          if pco_execution_expires_at cashOut <? now then mret None else
          match PrepareMarginPositionCashOut observed with
          | Err _ => recordPositionCashOutFailure cashOut claimID positionCashOutReasonProviderInvalid providerState
          | Ok command =>
              now ← call OpNow;
              res ← call (OpBeginClosing {| bq_cash_out_id := pco_id cashOut; bq_claim_id := claimID;
                bq_provider_state := providerState; bq_now := now |});
              match res with
              | Err e => mret (Some (WorkerStore e))
              | Ok cashOut => dispatchPreparedPositionCashOut client cashOut claimID command credentialID
              end
          end
      end
  end.

(** CLOSING without a dispatched mutation: the exact GET again, then the Close. *)
Definition resume_closing (client : WormAPIClient) (cashOut : PositionCashOut) (claimID : string) (credentialID : Z)
    : prog (option worker_error) :=
  res ← observePositionCashOut client cashOut;
  let '(observed, observeErr) := res in
  match observeErr with
  | Some e => handlePositionCashOutPreflightError cashOut claimID credentialID e
  | None =>
      let providerState := positionCashOutProviderState observed in
      match preflight_verdict cashOut claimID observed with
      | Some early => early
      | None =>
          now ← call OpNow;
          if negb (now <? pco_execution_expires_at cashOut) then mret None else
          match PrepareMarginPositionCashOut observed with
          | Err _ => recordPositionCashOutFailure cashOut claimID positionCashOutReasonProviderInvalid providerState
          | Ok command =>
              if match pco_attempt cashOut with
                 | Some a => negb (bool_decide (pat_request_sha256 a = cmd_request_sha256 command))
                 | None => false end then
                recordPositionCashOutReconciliation cashOut claimID positionCashOutReasonProviderInvalid providerState
                  observed
              else dispatchPreparedPositionCashOut client cashOut claimID command credentialID
          end
      end
  end.

Definition processClaimedPositionCashOut (cashOut : option PositionCashOut) (claimID : string)
    : prog (option worker_error) :=
  match cashOut with
  | None => mret (Some (WorkerError (ErrorText "position Cash Out claim is empty")))
  | Some cashOut =>
      client ← positionCashOutClient cashOut;
      let '(client, credentialID) := client in
      match client with
      | Err _ =>
          if mutation_dispatched cashOut then
            recordPositionCashOutReconciliation cashOut claimID positionCashOutReasonConnectionChanged ""
              (positionCashOutFrozenTarget cashOut)
          else recordPositionCashOutFailure cashOut claimID positionCashOutReasonConnectionChanged ""
      | Ok client =>
          if bool_decide (pco_state cashOut = PositionCashOutStatePreflighting) then
            preflight client cashOut claimID credentialID
          else if bool_decide (pco_state cashOut = PositionCashOutStateClosing) && negb (mutation_dispatched cashOut) then
            resume_closing client cashOut claimID credentialID
          else reconcileClaimedPositionCashOut client cashOut claimID credentialID
      end
  end.

(** ** The recovery pass *)
Fixpoint recover_each (workerID : string) (recoverable : list PositionCashOut) : prog unit :=
  match recoverable with
  | [] => mret tt
  | c :: rest =>
      stop ← call OpCtxErr;
      if (stop : bool) then mret tt else
      claimID ← call OpNewString;
      lease ← call OpNow;
      now ← call OpNow;
      claimed ← call (OpClaim {| clq_cash_out_id := pco_id c; clq_claim_id := claimID; clq_worker_id := workerID;
        clq_lease_expires_at := lease + positionCashOutClaimLease; clq_now := now |});
      match claimed with
      | Err _ => recover_each workerID rest
      | Ok claimed =>
          _ ← processClaimedPositionCashOut (Some claimed) claimID;
          recover_each workerID rest
      end
  end.
Definition runPositionCashOutRecoveryPass (workerID : string) : prog unit :=
  stop ← call OpCtxErr;
  if (stop : bool) then mret tt else
  now ← call OpNow;
  expired ← call (OpExpire now positionCashOutRecoverySize);
  match expired with
  | Err _ => mret tt
  | Ok _ =>
      recoverable ← call (OpListRecoverable now positionCashOutRecoverySize);
      match recoverable with
      | Err _ => mret tt
      | Ok recoverable => recover_each workerID recoverable
      end
  end.
End Worker.
