(* ===== verification/CashOutSystem.v ===== *)
(** * Position cash-out: the system

    Concurrent workers, the store they share and the Closes they have sent.  A
    store operation may run, fail, not run at all, or commit and report an error
    nevertheless ([outcome]); a worker may stop at any point; clocks, UUIDs, wallet
    snapshots and provider replies are arbitrary.  First the monitor of one worker: what it
    may have observed, prepared and dispatched before it sends a Close. *)

From S2P Require Import Prelude Prog Sql CashOutTypes CashOutStages CashOutStore CashOutInv CashOutWorker.
From stdpp Require Import base tactics option list list_numbers sorting strings gmap.
From Stdlib Require Import ZArith Lia Ascii.
#[local] Open Scope Z_scope.

(** ** The Close monitor *)
(** [tok]: the cash-out whose dispatch committed and whose Close is not sent yet;
    [seen]: the position of the last provider request, when it was a GET that
    found that position open. *)
Record mon := { tok : option string; seen : option string }.
Definition mon_next (m : mon) (o : op) : resp o → mon :=
  match o return resp o → mon with
  | OpDispatch req => λ r,
      {| tok := match r with Ok _ => Some (dq_cash_out_id req) | Err _ => tok m end; seen := seen m |}
  | OpDispatchBatch req => λ r,
      {| tok := match r with Ok _ => Some (dbq_cash_out_id req) | Err _ => tok m end; seen := seen m |}
  | OpGet _ pubkey => λ r,
      {| tok := tok m;
         seen := match r with
                 | (Some p, None) => if bool_decide (mp_pubkey p = pubkey) && negb (mp_is_closed p)
                                        && negb (mp_is_liquidated p) then Some pubkey else None
                 | _ => None end |}
  | OpClose _ _ _ _ => λ _, {| tok := None; seen := None |}
  | _ => λ _, m
  end.

Section Safety.
Context {UL : UuidLib} {ULaws : UuidLaws} {SL : SolanaLib} {DL : DigestLib CashOutPayload}
  {DR : DigestLib marginPositionCashOutProviderRequest}.

(** The intents on record; no statement changes one. *)
Context (known : CashOutIntent → Prop).
Definition close_for (cash_out pubkey : string) : Prop :=
  ∃ i, known i ∧ cash_out = uuid_string (ci_id i) ∧ pubkey = ci_position_pubkey i.
Definition close_allowed (m : mon) (o : op) : Prop :=
  match o with
  | OpClose _ cash_out pubkey price =>
      tok m = Some cash_out ∧ seen m = Some pubkey ∧ price = None ∧ close_for cash_out pubkey
  | _ => True
  end.
(** A stored cash-out comes back with its identity. *)
Definition returned (id : string) (r : result COError PositionCashOut) : Prop :=
  ∀ c, r = Ok c → close_for (pco_id c) (pco_position_pubkey c)
    ∧ (uuid_string <$> uuid_parse (trim_space id)) = Some (pco_id c).
Definition stored_reply (o : op) : resp o → Prop :=
  match o return resp o → Prop with
  | OpClaim req => returned (clq_cash_out_id req)
  | OpBeginClosing req => returned (bq_cash_out_id req)
  | _ => λ _, True
  end.
Abbreviation safe := (obeys mon_next close_allowed stored_reply).
Context (known_id : ∀ i, known i → (ci_id i < 2 ^ 128)%N)
  (known_inj : ∀ i i', known i → known i' → ci_id i = ci_id i' → i = i').

Lemma close_for_inj id pk pk' : close_for id pk → close_for id pk' → pk = pk'.
Proof using known_id known_inj ULaws.
  intros (i & Hi & -> & ->) (i' & Hi' & Heq & ->). f_equal. apply known_inj; [done|done|].
  apply (f_equal uuid_parse) in Heq. rewrite !uuid_parse_string in Heq by eauto. congruence.
Qed.

Ltac obey := obey_with ltac:(exact I).

Lemma safe_record m c claim next reason ps t np (Q : mon → Prop) :
  Q m → safe m (recordPositionCashOutState c claim next reason ps t np) (λ m' _, Q m').
Proof. intros HQ. unfold recordPositionCashOutState. obey. done. Qed.
Lemma safe_failure m c claim reason ps (Q : mon → Prop) :
  Q m → safe m (recordPositionCashOutFailure c claim reason ps) (λ m' _, Q m').
Proof. apply safe_record. Qed.
Lemma safe_reconciliation m c claim reason ps t (Q : mon → Prop) :
  Q m → safe m (recordPositionCashOutReconciliation c claim reason ps t) (λ m' _, Q m').
Proof. intros HQ. unfold recordPositionCashOutReconciliation. obey. by apply safe_record. Qed.
Hint Resolve safe_record safe_failure safe_reconciliation : core.

(** What a successful observation says. *)
Lemma safe_observe m client c :
  safe m (observePositionCashOut client c) (λ m' r, tok m' = tok m
    ∧ (r.2 = None → tg_is_closed r.1 = false → tg_is_liquidated r.1 = false →
       tg_position_pubkey r.1 = pco_position_pubkey c ∧ seen m' = Some (pco_position_pubkey c))).
Proof.
  unfold observePositionCashOut, ObserveMarginPositionCashOut. cbn [GetMarginPosition prog_client].
  destruct (validateMarginPositionCashOutTarget _); [|by cbn].
  obey; try (split; [done|]; intros ?; by simplify_eq/=).
  cbn. split; [done|]. intros _ Hcl Hli.
  match goal with r : resp (OpGet _ _) |- _ => destruct r as [[p|] e]; cbn in *; simplify_eq end.
  destruct (mp_created p); [|by simplify_eq].
  destruct (validateMarginPositionCashOutTarget _); simplify_eq. cbn in *.
  unfold validateMarginPositionCashOutIdentity in *. tx_inv. bool_prop. cbn in *.
  rewrite Hcl, Hli. split; [done|]. rewrite bool_decide_eq_true_2 by done. done.
Qed.

Lemma safe_preflight_error m c claim cred e :
  safe m (handlePositionCashOutPreflightError c claim cred e) (λ _ _, True).
Proof. unfold handlePositionCashOutPreflightError. obey; auto. Qed.

Lemma safe_reconcile m client c claim cred :
  safe m (reconcileClaimedPositionCashOut client c claim cred) (λ _ _, True).
Proof.
  unfold reconcileClaimedPositionCashOut. eapply obeys_seq; [apply safe_observe|]. intros m' [t e] _.
  obey; auto.
Qed.

(** The durable dispatch hands out the token. *)
Lemma safe_dispatch_durably m c claim attempt :
  safe m (dispatch_durably c claim attempt) (λ m' r, seen m' = seen m
    ∧ ∀ d, r = Ok (Ok d) → tok m' = Some (pco_id c)).
Proof.
  unfold dispatch_durably, readPositionCashOutBatchBalance. obey; cbn;
    (split; [done|]); intros d ?; by simplify_eq/=.
Qed.

(** The Close spends it. *)
Lemma safe_send_close m client c claim attempt command cred :
  tok m = Some (pco_id c) → seen m = Some (rq_position_pubkey (cmd_request command)) →
  close_for (pco_id c) (rq_position_pubkey (cmd_request command)) →
  safe m (send_close client c claim attempt command cred) (λ _ _, True).
Proof.
  intros Ht Hs Hc. unfold send_close, DispatchMarginPositionCashOut. cbn [CloseMarginPosition prog_client].
  apply obeys_bind. destruct (dispatch_guard command); [|apply obeys_bind; apply (obeys_call mon_next close_allowed stored_reply); [done|intros r _]];
    cbn [obeys mret prog_ret]; obey; auto using safe_reconcile.
Qed.

Lemma safe_dispatch m client c claim command cred :
  seen m = Some (rq_position_pubkey (cmd_request command)) →
  close_for (pco_id c) (rq_position_pubkey (cmd_request command)) →
  safe m (dispatchPreparedPositionCashOut client c claim command cred) (λ _ _, True).
Proof.
  intros Hs Hc. unfold dispatchPreparedPositionCashOut.
  eapply (obeys_seq _ _ _ _ _ _ (λ m' r, seen m' = seen m ∧ ∀ a c', r = Ok (a, c') → pco_id c' = pco_id c)).
  { obey; (split; [done|]); intros ? ? ?; repeat case_match; simplify_eq/=; done. }
  intros m1 [[a c']|e] [Hs1 Hid]; [|done]. specialize (Hid a c' eq_refl).
  eapply obeys_seq; [apply safe_dispatch_durably|]. intros m2 [[d|e]|e] [Hs2 Ht]; [|obey; auto..].
  apply safe_send_close; cbn; rewrite ?Hid; [by rewrite (Ht d eq_refl), Hid|congruence|done].
Qed.

Lemma prepared_pubkey t command :
  PrepareMarginPositionCashOut t = Ok command → rq_position_pubkey (cmd_request command) = tg_position_pubkey t.
Proof.
  unfold PrepareMarginPositionCashOut. intros Hok. tx_inv.
  match goal with H : mret _ = Ok _ |- _ => by injection H as <- end.
Qed.
Lemma verdict_open c claim t :
  preflight_verdict c claim t = None → tg_is_closed t = false ∧ tg_is_liquidated t = false.
Proof. unfold preflight_verdict. intros Hv. repeat case_match; done. Qed.
Lemma safe_verdict m c claim t p : preflight_verdict c claim t = Some p → safe m p (λ _ _, True).
Proof. unfold preflight_verdict. intros Hv. repeat case_match; simplify_eq; auto. Qed.

Lemma safe_preflight m client c claim cred :
  close_for (pco_id c) (pco_position_pubkey c) → safe m (preflight client c claim cred) (λ _ _, True).
Proof using known_id known_inj ULaws.
  intros Hc. unfold preflight. eapply obeys_seq; [apply safe_observe|]. intros m1 [t e] [Htok Hseen].
  cbn in Hseen. destruct e as [e|]; [apply safe_preflight_error|]. cbv zeta.
  destruct (preflight_verdict c claim t) as [p|] eqn:Hv; [by eapply safe_verdict|].
  apply verdict_open in Hv as [Hcl Hli]. destruct (Hseen eq_refl Hcl Hli) as [Hpk Hs]. obey; auto.
  cbn in *. match goal with H : returned _ _ |- _ => destruct (H _ eq_refl) as [Hc' Hid] end.
  match goal with H : PrepareMarginPositionCashOut _ = Ok _ |- _ => apply prepared_pubkey in H as Hrq end.
  apply safe_dispatch; rewrite Hrq, Hpk; [done|]. destruct Hc as (i & Hi & Hci & Hpi). cbn in Hid.
  rewrite Hci, trim_space_printable, uuid_parse_string in Hid by eauto using uuid_string_printable.
  cbn in Hid. injection Hid as <-. exists i. auto.
Qed.
Lemma safe_resume m client c claim cred :
  close_for (pco_id c) (pco_position_pubkey c) → safe m (resume_closing client c claim cred) (λ _ _, True).
Proof.
  intros Hc. unfold resume_closing. eapply obeys_seq; [apply safe_observe|]. intros m1 [t e] [Htok Hseen].
  cbn in Hseen. destruct e as [e|]; [apply safe_preflight_error|]. cbv zeta.
  destruct (preflight_verdict c claim t) as [p|] eqn:Hv; [by eapply safe_verdict|].
  apply verdict_open in Hv as [Hcl Hli]. destruct (Hseen eq_refl Hcl Hli) as [Hpk Hs]. obey; auto.
  all: match goal with H : PrepareMarginPositionCashOut _ = Ok _ |- _ => apply prepared_pubkey in H as Hrq end;
    apply safe_dispatch; by rewrite Hrq, Hpk.
Qed.

Lemma safe_client m c Q : (∀ r, Q m r) → safe m (positionCashOutClient c) Q.
Proof. intros HQ. unfold positionCashOutClient. obey; cbn; auto. Qed.
Lemma safe_process m c claim :
  close_for (pco_id c) (pco_position_pubkey c) → safe m (processClaimedPositionCashOut (Some c) claim) (λ _ _, True).
Proof using known_id known_inj ULaws.
  intros Hc. unfold processClaimedPositionCashOut. apply obeys_bind, safe_client. intros [client cred].
  obey; auto using safe_preflight, safe_resume, safe_reconcile.
Qed.
Lemma safe_recover_each m worker l : safe m (recover_each worker l) (λ _ _, True).
Proof using known_id known_inj ULaws.
  revert m. induction l as [|c l IH]; intros m; cbn [recover_each]; [done|]. obey; auto; try done.
  eapply obeys_mono; [apply safe_process|auto].
  cbn in *. match goal with H : returned _ _ |- _ => by destruct (H _ eq_refl) end.
Qed.
Lemma safe_pass m worker : safe m (runPositionCashOutRecoveryPass worker) (λ _ _, True).
Proof using known_id known_inj ULaws. unfold runPositionCashOutRecoveryPass. obey; auto using safe_recover_each. Qed.
End Safety.

#[local] Open Scope Z_scope.

Section System.
Context {UL : UuidLib} {ULaws : UuidLaws} {SL : SolanaLib} {DL : DigestLib CashOutPayload}
  {DR : DigestLib marginPositionCashOutProviderRequest}.

(** ** Semantics *)
Inductive outcome {A} (m : co_tx A) (db : CDB) : CDB → result COError A → Prop :=
| outcome_ok db' a : m db = Ok (db', a) → outcome m db db' (Ok a)
| outcome_error e : m db = Err e → outcome m db db (Err e)
| outcome_not_run e : outcome m db db (Err e)
| outcome_unknown db' a e : m db = Ok (db', a) → outcome m db db' (Err e).

Definition perform (clock : Z) (locked : N → bool) (o : op) (db db' : CDB) : resp o → Prop :=
  match o return resp o → Prop with
  | OpExpire now limit => outcome (ExpirePositionCashOuts locked clock now limit) db db'
  | OpListRecoverable now limit => λ r,
      db' = db ∧ (r = ListRecoverablePositionCashOuts clock now limit db ∨ ∃ e, r = Err e)
  | OpClaim req => outcome (ClaimPositionCashOut clock req) db db'
  | OpBeginClosing req => outcome (BeginPositionCashOutClosing clock req) db db'
  | OpPrepare req => outcome (PreparePositionCashOutAttempt clock req) db db'
  | OpDispatch req => outcome (DispatchPositionCashOutAttempt clock req) db db'
  | OpDispatchBatch req => outcome (DispatchPositionCashOutBatchAttempt clock req) db db'
  | OpResolve req => outcome (ResolvePositionCashOutAttempt clock req) db db'
  | OpComplete req => outcome (CompletePositionCashOutDispatch clock req) db db'
  | OpRecord req => outcome (RecordPositionCashOutObservation clock req) db db'
  | OpMarkReconnect _ _ _ => λ _, ∃ e, db' = set_env e db
  | _ => λ _, db' = db
  end.

(** The Close requests sent so far: cash-out, position, price. *)
Record system := {
  sys_db : CDB; sys_threads : list (prog unit); sys_sent : list (string * string * option Z) }.
Definition sent_by (o : op) : list (string * string * option Z) :=
  match o with OpClose _ cash_out pubkey price => [(cash_out, pubkey, price)] | _ => [] end.

Inductive sys_step : system → system → Prop :=
| sys_spawn db ts sent worker :
    sys_step {| sys_db := db; sys_threads := ts; sys_sent := sent |}
      {| sys_db := db; sys_threads := ts ++ [runPositionCashOutRecoveryPass worker]; sys_sent := sent |}
| sys_perform db db' ts sent i o k r clock locked :
    ts !! i = Some (Vis o k) → perform clock locked o db db' r →
    sys_step {| sys_db := db; sys_threads := ts; sys_sent := sent |}
      {| sys_db := db'; sys_threads := <[i := k r]> ts; sys_sent := sent ++ sent_by o |}
| sys_stop db ts sent i :
    sys_step {| sys_db := db; sys_threads := ts; sys_sent := sent |}
      {| sys_db := db; sys_threads := <[i := Ret tt]> ts; sys_sent := sent |}
| sys_store db db' ts sent :
    co_step db db' →
    sys_step {| sys_db := db; sys_threads := ts; sys_sent := sent |}
      {| sys_db := db'; sys_threads := ts; sys_sent := sent |}.

Definition start (e : Env) : system := {| sys_db := empty_cdb e; sys_threads := []; sys_sent := [] |}.
Definition run_reaches (σ : system) : Prop := ∃ e, rtc sys_step (start e) σ.

(** ** The database under the workers *)
Lemma outcome_step {A} (m : co_tx A) db db' r :
  outcome m db db' r → db' = db ∨ ∃ a, m db = Ok (db', a).
Proof. destruct 1; eauto. Qed.
Lemma perform_steps clock locked o db db' r : perform clock locked o db db' r → rtc co_step db db'.
Proof.
  destruct o; cbn; try (intros ->; apply rtc_refl);
    try (intros [->|[a Hok]]%outcome_step; [apply rtc_refl|]; apply rtc_once; by econstructor).
  - intros [-> _]. apply rtc_refl.
  - intros [e ->]. apply rtc_once. constructor.
Qed.
Lemma sys_step_db σ σ' : sys_step σ σ' → rtc co_step (sys_db σ) (sys_db σ').
Proof. destruct 1; cbn; [apply rtc_refl|by eapply perform_steps|apply rtc_refl|by apply rtc_once]. Qed.
Lemma sys_steps_db σ σ' : rtc sys_step σ σ' → rtc co_step (sys_db σ) (sys_db σ').
Proof. induction 1; [apply rtc_refl|]. etrans; [by eapply sys_step_db|done]. Qed.
Lemma run_reachable σ : run_reaches σ → reachable (sys_db σ).
Proof. intros [e Hs]. exists e. by apply (sys_steps_db (start e)). Qed.

(** ** Counting *)
Definition key (s : string) : option N := uuid_parse (trim_space s).
Definition about (n : N) (o : option string) : nat := if bool_decide (o ≫= key = Some n) then 1 else 0.
Definition sent_for (n : N) (sent : list (string * string * option Z)) : nat :=
  sum_list_with (λ x, about n (Some x.1.1)) sent.
Definition tokens_for (n : N) (ms : list mon) : nat := sum_list_with (λ m, about n (tok m)) ms.
Definition dispatched_in (n : N) (db : CDB) : Prop := ∃ a, a ∈ attempts db ∧ at_cash_out_id a = n ∧ dispatched a.

Lemma tokens_for_insert n ms i m m' :
  ms !! i = Some m → (tokens_for n (<[i := m']> ms) + about n (tok m) = tokens_for n ms + about n (tok m'))%nat.
Proof. apply (sum_list_with_insert (λ m, about n (tok m))). Qed.
Lemma sent_for_app n s1 s2 : sent_for n (s1 ++ s2) = (sent_for n s1 + sent_for n s2)%nat.
Proof. apply sum_list_with_app. Qed.
Lemma dispatched_evolves n db db' : evolves db db' → dispatched_in n db → dispatched_in n db'.
Proof.
  intros E (a & Ha & Hn & Hd). destruct (ev_attempts _ _ E a Ha) as (a' & Ha' & Hnx). exists a'. split; [done|].
  destruct (an_key _ _ Hnx) as (_ & Hc & _). split; [congruence|]. by apply (an_dispatched _ _ Hnx).
Qed.

(** ** The invariant *)
Record SInv (known : CashOutIntent → Prop) (σ : system) (ms : list mon) : Prop := {
  si_safe : Forall2 (λ p m, obeys mon_next (close_allowed known) (stored_reply known) m p (λ _ _, True))
    (sys_threads σ) ms;
  si_once : ∀ n, (sent_for n (sys_sent σ) + tokens_for n ms ≤ 1)%nat;
  si_dispatched : ∀ n, (0 < sent_for n (sys_sent σ) + tokens_for n ms)%nat → dispatched_in n (sys_db σ);
  si_sent : ∀ x, x ∈ sys_sent σ → x.2 = None ∧ close_for known x.1.1 x.1.2 }.

(** *** Replies *)
Lemma uuid_key s n t : marketCombinationUUID s = Ok (n, t) → key s = Some n.
Proof. unfold marketCombinationUUID, key. repeat case_match; intros; by simplify_eq. Qed.
Lemma updated_row p f db db' row :
  update_cash_out p f db = Ok (db', row) → row ∈ cash_outs db' ∧ ∃ c, p c = true ∧ row = f c.
Proof.
  intros (c & Hc & Hp & -> & _ & ->)%update_cash_out_ok. split; [|eauto]. cbn. apply elem_of_sql_update.
  exists c. by rewrite Hp.
Qed.
Lemma load_ok row db db' c : load row db = Ok (db', c) → db' = db ∧ c = loadPositionCashOut row db.
Proof. unfold load. intros Hok. by tx_inv. Qed.

Definition knows (known : CashOutIntent → Prop) (db : CDB) : Prop := ∀ c, c ∈ cash_outs db → known (co_intent c).
Lemma returned_row known id db row :
  knows known db → row ∈ cash_outs db → key id = Some (co_id row) → ∀ db', returned known id (Ok (loadPositionCashOut row db')).
Proof.
  intros Hk Hrow Hid db' c [= <-]. split; [|unfold key in Hid; by rewrite Hid].
  exists (co_intent row). auto.
Qed.
Lemma updated_returned known id p f e db db1 db' row c :
  knows known db' → co_on_no_rows (update_cash_out p f) e db = Ok (db1, row) → load row db1 = Ok (db', c) →
  (∀ d, p d = true → key id = Some (co_id (f d))) → returned known id (Ok c).
Proof.
  intros Hk [Hin (d & Hp & ->)]%co_on_no_rows_ok%updated_row [-> ->]%load_ok Hid. eapply returned_row; eauto.
Qed.

Lemma Claim_returned known clock req db db' c :
  knows known db' → ClaimPositionCashOut clock req db = Ok (db', c) → returned known (clq_cash_out_id req) (Ok c).
Proof.
  intros Hk Hok. unfold ClaimPositionCashOut in Hok. do 2 tx_step. subst.
  match goal with H : normalizePositionCashOutClaim _ _ = Ok ?x |- _ => unfold normalizePositionCashOutClaim in H end.
  tx_inv. match goal with H : mret _ = Ok ?y |- _ => injection H as <- end. tx_inv.
  match goal with H : marketCombinationUUID (clq_cash_out_id req) = Ok ?x |- _ => destruct x; apply uuid_key in H end.
  eapply updated_returned; [done|eassumption|eassumption|]. intros d Hp. unfold co_id in *. cbn in *. guards. congruence.
Qed.
Lemma Begin_returned known clock req db db' c :
  knows known db' → BeginPositionCashOutClosing clock req db = Ok (db', c) → returned known (bq_cash_out_id req) (Ok c).
Proof.
  intros Hk Hok. unfold BeginPositionCashOutClosing in Hok. tx_inv.
  match goal with H : marketCombinationUUID (bq_cash_out_id req) = Ok ?x |- _ => destruct x; apply uuid_key in H end.
  eapply updated_returned; [done|eassumption|eassumption|]. intros d Hp. unfold co_id in *. cbn in *. guards. congruence.
Qed.
Lemma perform_reply known clock locked o db db' r :
  knows known db' → perform clock locked o db db' r → stored_reply known o r.
Proof.
  intros Hk. destruct o; cbn; try done; intros Hout c ->; inversion Hout; subst.
  - by eapply Claim_returned.
  - by eapply Begin_returned.
Qed.

(** *** The durable dispatch happens once *)
Lemma updated_attempt p f db db' row :
  update_attempt p f db = Ok (db', row) → row ∈ attempts db' ∧ ∃ a, a ∈ attempts db ∧ p a = true ∧ row = f a.
Proof.
  intros (a & Ha & Hp & -> & _ & ->)%update_attempt_ok. split; [|eauto]. cbn. apply elem_of_sql_update.
  exists a. by rewrite Hp.
Qed.
Lemma Dispatch_query_once id n claim now db db' a :
  COInv db → DispatchPositionCashOutAttempt_query id n claim now db = Ok (db', a) →
  ¬ dispatched_in n db ∧ dispatched_in n db'.
Proof.
  intros I Hok. unfold DispatchPositionCashOutAttempt_query in Hok. tx_inv.
  match goal with H : update_attempt _ _ _ = Ok _ |- _ => apply updated_attempt in H as [Hin (a0 & Ha0 & Hp & ->)] end.
  guards. split.
  - intros (a1 & Ha1 & Hn1 & Hd1). assert (a1 = a0) as -> by
      (eapply (NoDup_key_inj at_cash_out_id); [apply I|done|done|congruence]). by destruct Hd1.
  - eexists. split; [exact Hin|]. by split.
Qed.
Lemma Dispatch_once clock req db db' a :
  COInv db → DispatchPositionCashOutAttempt clock req db = Ok (db', a) →
  ∃ n, key (dq_cash_out_id req) = Some n ∧ ¬ dispatched_in n db ∧ dispatched_in n db'.
Proof.
  intros I Hok. unfold DispatchPositionCashOutAttempt in Hok. tx_inv.
  match goal with H : marketCombinationUUID (dq_cash_out_id req) = Ok ?x |- _ =>
    destruct x as [n t]; apply uuid_key in H end. exists n. split; [done|]. cbn in *.
  match goal with H : co_on_no_rows (DispatchPositionCashOutAttempt_query _ _ _ _) _ _ = Ok _ |- _ =>
    apply co_on_no_rows_ok in H; pose proof (evolving_DispatchAttempt _ _ _ _ _ _ _ I H) as [I1 _];
    apply Dispatch_query_once in H as [Hn Hd]; [|done] end.
  match goal with H : co_on_no_rows (TouchPositionCashOutAfterDispatch _ _ _) _ _ = Ok _ |- _ =>
    apply co_on_no_rows_ok in H; apply evolving_Touch in H as [_ E]; [|done] end.
  split; [done|]. by eapply dispatched_evolves.
Qed.
Lemma DispatchBatch_once clock req db db' a :
  COInv db → DispatchPositionCashOutBatchAttempt clock req db = Ok (db', a) →
  ∃ n, key (dbq_cash_out_id req) = Some n ∧ ¬ dispatched_in n db ∧ dispatched_in n db'.
Proof.
  intros I Hok. unfold DispatchPositionCashOutBatchAttempt in Hok. cbv zeta in Hok. tx_inv.
  match goal with H : batch_uuid (dbq_cash_out_id req) = Ok ?x |- _ =>
    unfold batch_uuid in H; destruct (marketCombinationUUID (dbq_cash_out_id req)) as [[n t]|] eqn:Hn; [|done];
    injection H as <- end.
  exists n. split; [by eapply uuid_key|]. cbn in *.
  match goal with H : co_on_no_rows (DispatchPositionCashOutAttempt_query _ _ _ _) _ _ = Ok _ |- _ =>
    apply co_on_no_rows_ok in H; pose proof (evolving_DispatchAttempt _ _ _ _ _ _ _ I H) as [I1 _];
    apply Dispatch_query_once in H as [Hnd Hd]; [|done] end.
  split; [done|]. repeat match goal with
  | H : co_on_no_rows _ _ _ = Ok _ |- _ => apply co_on_no_rows_ok in H
  | H : SetPositionCashOutBatchItemBalanceBaseline _ _ _ _ _ _ _ _ _ = Ok _ |- _ =>
      apply evolving_SetBaseline in H as [I2 E2]; [|done]
  | H : TouchPositionCashOutAfterDispatch _ _ _ _ = Ok _ |- _ => apply evolving_Touch in H as [I3 E3]; [|done]
  | H : TouchPositionCashOutBatchAfterDispatch _ _ _ _ _ = Ok _ |- _ => apply evolving_TouchBatch in H as [_ E4]; [|done]
  end.
  eauto using dispatched_evolves.
Qed.

(** *** Preservation *)
Lemma about_le n o : (about n o ≤ 1)%nat.
Proof. unfold about. case_bool_decide; lia. Qed.
Lemma about_None n : about n None = 0%nat.
Proof. unfold about. by rewrite bool_decide_eq_false_2. Qed.
Lemma about_other n n' s : key s = Some n' → n ≠ n' → about n (Some s) = 0%nat.
Proof. intros Hk Hn. unfold about. cbn. rewrite Hk, bool_decide_eq_false_2; [done|congruence]. Qed.

(** What one operation does to the budget of a cash-out. *)
Lemma perform_budget known clock locked o db db' r m n :
  COInv db → perform clock locked o db db' r → close_allowed known m o →
  (sent_for n (sent_by o) + about n (tok (mon_next m o r)) ≤ about n (tok m))%nat
  ∨ (¬ dispatched_in n db ∧ dispatched_in n db' ∧ sent_for n (sent_by o) = 0%nat).
Proof.
  intros I Hp Ha. destruct o; cbn in *; try (left; change (sent_for n []) with 0%nat; lia).
  - destruct r as [a|e]; [|left; change (sent_for n []) with 0%nat; cbn; lia]. inversion Hp; subst.
    match goal with H : DispatchPositionCashOutAttempt _ _ _ = Ok _ |- _ => apply Dispatch_once in H as (n' & Hk & ? & ?); [|done] end.
    destruct (decide (n = n')) as [->|Hne]; [by right|left]. rewrite (about_other n n') by done. change (sent_for n []) with 0%nat. lia.
  - destruct r as [a|e]; [|left; change (sent_for n []) with 0%nat; cbn; lia]. inversion Hp; subst.
    match goal with H : DispatchPositionCashOutBatchAttempt _ _ _ = Ok _ |- _ => apply DispatchBatch_once in H as (n' & Hk & ? & ?); [|done] end.
    destruct (decide (n = n')) as [->|Hne]; [by right|left]. rewrite (about_other n n') by done. change (sent_for n []) with 0%nat. lia.
  - destruct Ha as (-> & _). left. rewrite about_None. unfold sent_for. cbn. lia.
Qed.
Lemma perform_sent known m o x : close_allowed known m o → x ∈ sent_by o → x.2 = None ∧ close_for known x.1.1 x.1.2.
Proof. destruct o; cbn; try (by intros _ ?%not_elem_of_nil). by intros (_ & _ & ? & ?) ->%list_elem_of_singleton. Qed.

Section Preserve.
Context (known : CashOutIntent → Prop) (known_id : ∀ i, known i → (ci_id i < 2 ^ 128)%N)
  (known_inj : ∀ i i', known i → known i' → ci_id i = ci_id i' → i = i').

Lemma SInv_perform db db' ts sent i o k r clock locked ms :
  COInv db → evolves db db' → knows known db' → ts !! i = Some (Vis o k) → perform clock locked o db db' r →
  SInv known {| sys_db := db; sys_threads := ts; sys_sent := sent |} ms →
  ∃ ms', SInv known {| sys_db := db'; sys_threads := <[i := k r]> ts; sys_sent := sent ++ sent_by o |} ms'.
Proof.
  intros I E Hk Hi Hp [Hsafe Honce Hdis Hsent]. cbn [sys_db sys_threads sys_sent] in *.
  destruct (Forall2_lookup_l _ _ _ _ _ Hsafe Hi) as (m & Hm & [Hallow Hnext]).
  exists (<[i := mon_next m o r]> ms).
  assert (∀ n, (tokens_for n (<[i := mon_next m o r]> ms) + about n (tok m)
                = tokens_for n ms + about n (tok (mon_next m o r)))%nat) as Htok by (intros n; by apply tokens_for_insert).
  assert (∀ n, (sent_for n sent + sent_for n (sent_by o) + tokens_for n (<[i := mon_next m o r]> ms)
                ≤ sent_for n sent + tokens_for n ms)%nat
     ∨ (sent_for n sent + sent_for n (sent_by o) + tokens_for n (<[i := mon_next m o r]> ms) ≤ 1)%nat
       ∧ dispatched_in n db') as Hb.
  { intros n. specialize (Htok n). destruct (perform_budget _ _ _ _ _ _ _ _ n I Hp Hallow) as [H|(Hnd & Hd & H)];
      [left; lia|right]. split; [|done].
    assert (¬ (0 < sent_for n sent + tokens_for n ms)%nat) by (intros ?; by apply Hnd, Hdis).
    pose proof (about_le n (tok (mon_next m o r))). lia. }
  split; cbn [sys_db sys_threads sys_sent].
  - apply Forall2_insert; [done|]. apply Hnext. by eapply perform_reply.
  - intros n. rewrite sent_for_app. specialize (Honce n). destruct (Hb n) as [?|[? _]]; lia.
  - intros n Hpos. rewrite sent_for_app in Hpos. destruct (Hb n) as [?|[_ ?]]; [|done].
    eapply dispatched_evolves; [done|]. apply Hdis. lia.
  - intros x [?|?]%elem_of_app; [by apply Hsent|]. by eapply perform_sent.
Qed.

Lemma SInv_step σ σ' ms :
  COInv (sys_db σ) → knows known (sys_db σ') → SInv known σ ms → sys_step σ σ' → ∃ ms', SInv known σ' ms'.
Proof using known_id known_inj ULaws.
  intros K Hk I Hs. destruct (steps_evolve _ _ K (sys_step_db _ _ Hs)) as [K' E]. destruct Hs; cbn [sys_db sys_threads sys_sent] in *.
  - destruct I as [Hsafe Honce Hdis Hsent]. cbn [sys_db sys_threads sys_sent] in *. exists (ms ++ [{| tok := None; seen := None |}]).
    assert (∀ n, tokens_for n (ms ++ [{| tok := None; seen := None |}]) = tokens_for n ms) as Ht.
    { intros n. unfold tokens_for. rewrite sum_list_with_app. cbn. rewrite about_None. lia. }
    split; cbn [sys_db sys_threads sys_sent]; [|intros n; rewrite Ht; auto..|done].
    apply Forall2_app; [done|]. constructor; [by apply safe_pass|constructor].
  - eapply SInv_perform; [exact K|exact E|exact Hk|eassumption|eassumption|exact I].
  - destruct I as [Hsafe Honce Hdis Hsent]. cbn [sys_db sys_threads sys_sent] in *. exists ms. split; try done. cbn [sys_db sys_threads sys_sent].
    destruct (decide (i < length ts)%nat) as [Hlt|]; [|by rewrite list_insert_ge by lia].
    destruct (lookup_lt_is_Some_2 _ _ Hlt) as [p Hpi]. destruct (Forall2_lookup_l _ _ _ _ _ Hsafe Hpi) as (m & Hm & _).
    rewrite <- (list_insert_id ms i m) by done. by apply Forall2_insert.
  - destruct I as [Hsafe Honce Hdis Hsent]. cbn [sys_db sys_threads sys_sent] in *. exists ms. split; try done. cbn [sys_db sys_threads sys_sent]. intros n Hn.
    eapply dispatched_evolves; [done|auto].
Qed.

Lemma SInv_steps σ σ' ms :
  rtc sys_step σ σ' → COInv (sys_db σ) → knows known (sys_db σ') → SInv known σ ms → ∃ ms', SInv known σ' ms'.
Proof using known_id known_inj ULaws.
  intros Hs. revert ms. induction Hs as [σ|σ σ1 σ2 H1 H2 IH]; intros ms K Hk I; [eauto|].
  destruct (steps_evolve _ _ K (sys_step_db _ _ H1)) as [K1 _].
  assert (knows known (sys_db σ1)) as Hk1.
  { intros c Hc. destruct (steps_evolve _ _ K1 (sys_steps_db _ _ H2)) as [_ E].
    destruct (ev_rows _ _ E c Hc) as (c' & Hc' & Hn). rewrite <- (rn_intent _ _ Hn). auto. }
  destruct (SInv_step _ _ _ K Hk1 I H1) as [ms1 I1]. by eapply IH.
Qed.
End Preserve.
End System.
