(* ===== verification/CashOutScenario.v ===== *)
(** * Position cash-out: a concrete run

    Executable runs of the store and of a worker, with concrete libraries: the
    inputs at which the theorems are instantiated. *)

From S2P Require Import Prelude Prog Sql CashOutTypes CashOutStages CashOutStore CashOutInv CashOutWorker CashOutSystem.
From stdpp Require Import base tactics option list list_numbers sorting strings gmap.
From Stdlib Require Import ZArith Lia Ascii.
Import Prelude.Concrete.
#[local] Open Scope Z_scope.

#[export] Instance payload_digest : DigestLib CashOutPayload := {|
  json_sha256 p := Some (digest_text match p with
    | PayloadCreation o c w a k => ["create"; o; c; decimal_text w; a; k]
    | PayloadIntent o w a k m y t r s =>
        ["intent"; o; decimal_text w; a; k; m; if y then "yes" else "no"; decimal_text t; r; s]
    | PayloadAuthorize o c m e p j a => ["authorize"; o; c; m; decimal_text e; p; j; decimal_text a]
    | PayloadReconcile o c m e => ["reconcile"; o; c; m; decimal_text e] end%string) |}.
#[export] Instance request_digest : DigestLib marginPositionCashOutProviderRequest := {|
  json_sha256 r := Some (digest_text ["close"%string; rq_position_pubkey r]) |}.

(** ** Running one worker *)
(** The replies of the world outside the store. *)
Record oracle := {
  or_now : Z; or_uuid : string; or_snapshot : result COError WalletConnectionSnapshot;
  or_get : option MarginPosition * option go_error;
  or_close : option CloseMarginPositionResult * option go_error }.
Definition exec_op (w : oracle) (o : op) (db : CDB) : CDB * resp o :=
  match o return CDB * resp o with
  | OpNow => (db, or_now w)
  | OpNewString => (db, or_uuid w)
  | OpCtxErr => (db, false)
  | OpExpire now limit => run_tx (ExpirePositionCashOuts (λ _, false) (or_now w) now limit) db
  | OpListRecoverable now limit => (db, ListRecoverablePositionCashOuts (or_now w) now limit db)
  | OpClaim req => run_tx (ClaimPositionCashOut (or_now w) req) db
  | OpBeginClosing req => run_tx (BeginPositionCashOutClosing (or_now w) req) db
  | OpPrepare req => run_tx (PreparePositionCashOutAttempt (or_now w) req) db
  | OpDispatch req => run_tx (DispatchPositionCashOutAttempt (or_now w) req) db
  | OpDispatchBatch req => run_tx (DispatchPositionCashOutBatchAttempt (or_now w) req) db
  | OpResolve req => run_tx (ResolvePositionCashOutAttempt (or_now w) req) db
  | OpComplete req => run_tx (CompletePositionCashOutDispatch (or_now w) req) db
  | OpRecord req => run_tx (RecordPositionCashOutObservation (or_now w) req) db
  | OpSnapshot _ _ => (db, or_snapshot w)
  | OpDecrypt _ k s => (db, Ok (k, s))
  | OpNewClient _ _ => (db, None)
  | OpGet _ _ => (db, or_get w)
  | OpClose _ _ _ _ => (db, or_close w)
  | OpMarkReconnect _ _ _ => (db, tt)
  | OpBalances _ _ => (db, Ok [])
  end.
Fixpoint drive (w : oracle) (fuel : nat) (p : prog unit) (σ : system) : system :=
  match fuel, p with
  | S fuel', Vis o k =>
      let '(db', r) := exec_op w o (sys_db σ) in
      drive w fuel' (k r) {| sys_db := db'; sys_threads := [k r]; sys_sent := sys_sent σ ++ sent_by o |}
  | _, _ => σ
  end.

Lemma run_tx_outcome {A} (m : co_tx A) db : outcome m db (run_tx m db).1 (run_tx m db).2.
Proof. unfold run_tx. destruct (m db) as [[db' a]|e] eqn:E; cbn; [by apply outcome_ok|by apply outcome_error]. Qed.
Lemma set_env_id db : db = set_env (env db) db.
Proof. by destruct db. Qed.
Lemma exec_op_performs w o db :
  perform (or_now w) (λ _, false) o db (exec_op w o db).1 (exec_op w o db).2.
Proof. destruct o; cbn; auto using run_tx_outcome. exists (env db). apply set_env_id. Qed.
Lemma drive_steps w fuel p σ : sys_threads σ = [p] → rtc sys_step σ (drive w fuel p σ).
Proof.
  revert p σ. induction fuel as [|fuel IH]; intros p [db ts sent] Ht; cbn in Ht; subst ts; [done|].
  destruct p as [a|o k]; cbn; [done|].
  destruct (exec_op w o db) as [db' r] eqn:E. eapply rtc_l; [|by apply IH].
  apply (sys_perform db db' [Vis o k] sent 0 o k r (or_now w) (λ _, false)); [done|].
  pose proof (exec_op_performs w o db) as Hp. by rewrite E in Hp.
Qed.

(** ** The store scenario *)
Module Scenario.
Definition sc_now : Z := 63900000000 * second.
Definition owner : string := uuid_string 11.
Definition position_key : string := SolanaNativeUSDCMint.
Definition market_key : string := public_key_string 7.
Definition address : string := public_key_string 5.
Definition sc_env : Env := {|
  selection_items := [(11%N, 3, address)];
  connections := [{| wc_wallet_id := 3; wc_address := address; wc_state := ConnectionStateConnected |}];
  credentials := [{| cd_wallet_id := 3; cd_version := 2; cd_state := CredentialStateActive |}];
  execution_locks := []; batch_wallet_locks := []; batches := []; batch_items := [] |}.
Definition create_req : CreatePositionCashOutRequest := {|
  cr_owner_account_id := owner; cr_command_id := uuid_string 21; cr_wallet_id := 3; cr_wallet_address := address;
  cr_credential_version := 2; crq_position_pubkey := position_key; cr_market_condition_id := market_key;
  cr_is_yes := true; cr_position_created_at := 63800000000 * second; cr_position_request_pubkey := "";
  cr_shares := "12.5"; cr_provider_state := "open"; cr_provider_is_closed := false;
  cr_provider_is_liquidated := false; cr_authorization_expires_at := sc_now + 300 * second; cr_now := sc_now |}.
Definition cash_out_id : N := 31.
Definition authorize_req : AuthorizePositionCashOutRequest := {|
  aq_command := {| cq_owner_account_id := owner; cq_cash_out_id := uuid_string cash_out_id;
    cq_command_id := uuid_string 22; cq_expected_revision := 1; cq_now := sc_now |};
  aq_proof_kind := "PASSWORD"; aq_session_jti_digest := digest_text ["jti"%string]; aq_access_revision := 4;
  aq_execution_expires_at := sc_now + 600 * second |}.
Definition db0 : CDB := empty_cdb sc_env.
Definition after {A} (m : co_tx A) (db : CDB) : CDB := (run_tx m db).1.
Definition db1 : CDB := Eval vm_compute in after (CreatePositionCashOut sc_now cash_out_id create_req) db0.
Definition db2 : CDB := Eval vm_compute in after (AuthorizePositionCashOut sc_now 41 authorize_req) db1.

Definition world : oracle := {|
  or_now := sc_now + second; or_uuid := uuid_string 51;
  or_snapshot := Ok {| sn_state := ConnectionStateConnected;
    sn_active_credential := Some {| sc_id := 9; sc_wallet_id := 3; sc_version := 2; sc_state := CredentialStateActive;
      sc_api_key_ciphertext := "key"; sc_api_secret_ciphertext := "secret" |} |};
  or_get := (Some {| mp_pubkey := position_key; mp_position_request_pubkey := None;
    mp_market_condition_id := market_key; mp_is_yes := true; mp_total_shares := "12.5"; mp_is_closed := false;
    mp_is_liquidated := false; mp_created := Some (63800000000 - 62135596800) |}, None);
  or_close := (Some {| cr_close_type := "order"; cr_position_pubkey := position_key; cr_is_closed := true |}, None) |}.
Definition pass : prog unit := runPositionCashOutRecoveryPass (uuid_string 61).
Definition with_pass (db : CDB) : system := {| sys_db := db; sys_threads := [pass]; sys_sent := [] |}.
Definition finished : system := drive world 100 pass (with_pass db2).
End Scenario.

Lemma after_ok {A} (m : co_tx A) db : is_ok (m db) = true → ∃ r, m db = Ok ((run_tx m db).1, r).
Proof. unfold run_tx. destruct (m db) as [[db' r]|e]; [eauto|done]. Qed.

Lemma sc_step1 : co_step Scenario.db0 Scenario.db1.
Proof.
  destruct (after_ok (CreatePositionCashOut Scenario.sc_now Scenario.cash_out_id Scenario.create_req) Scenario.db0)
    as [r Hr]; [vm_compute; reflexivity|].
  eapply step_create. rewrite Hr. reflexivity.
Qed.
Lemma sc_step2 : co_step Scenario.db1 Scenario.db2.
Proof.
  destruct (after_ok (AuthorizePositionCashOut Scenario.sc_now 41 Scenario.authorize_req) Scenario.db1)
    as [r Hr]; [vm_compute; reflexivity|].
  eapply step_authorize. rewrite Hr. reflexivity.
Qed.
Lemma sc_reachable1 : reachable Scenario.db1.
Proof. exists Scenario.sc_env. apply rtc_once. exact sc_step1. Qed.
Lemma sc_reachable2 : reachable Scenario.db2.
Proof. exists Scenario.sc_env. eapply rtc_l; [exact sc_step1|]. apply rtc_once. exact sc_step2. Qed.
Lemma sc_driven fuel : run_reaches (drive Scenario.world fuel Scenario.pass (Scenario.with_pass Scenario.db2)).
Proof.
  exists Scenario.sc_env. eapply rtc_l; [apply (sys_store _ _ _ _ sc_step1)|].
  eapply rtc_l; [apply (sys_store _ _ _ _ sc_step2)|].
  eapply rtc_l; [apply (sys_spawn _ _ _ (uuid_string 61))|]. apply drive_steps. reflexivity.
Qed.
Lemma sc_finished : run_reaches Scenario.finished.
Proof. apply sc_driven. Qed.
