(* ===== verification/CashOutTheorems.v ===== *)
(** * Position cash-out: theorems

    What the store, the workers and the system around them guarantee. *)

From S2P Require Import Prelude Prog Sql CashOutTypes CashOutStages CashOutStore CashOutInv CashOutWorker CashOutSystem CashOutScenario.
From stdpp Require Import base tactics option list list_numbers sorting strings gmap.
From Stdlib Require Import ZArith Lia Ascii.
#[local] Open Scope Z_scope.

Section Theorems.
Context {UL : UuidLib} {ULaws : UuidLaws} {SL : SolanaLib} {DL : DigestLib CashOutPayload}
  {DR : DigestLib marginPositionCashOutProviderRequest}.

(** ** The Closes *)
Definition recorded (db : CDB) (i : CashOutIntent) : Prop := ∃ c, c ∈ cash_outs db ∧ co_intent c = i.
Lemma recorded_id db i : COInv db → recorded db i → (ci_id i < 2 ^ 128)%N.
Proof.
  intros I (c & Hc & <-). pose proof (ki_check _ I c Hc) as Hk. unfold cash_out_check in Hk. cbv zeta in Hk.
  repeat (apply andb_true_iff in Hk as [Hk _]). by apply N.ltb_lt.
Qed.
Lemma recorded_inj db i i' : COInv db → recorded db i → recorded db i' → ci_id i = ci_id i' → i = i'.
Proof.
  intros I (c & Hc & <-) (c' & Hc' & <-) Heq. f_equal. by eapply (NoDup_key_inj co_id); [apply I|..].
Qed.
Lemma system_invariant σ : run_reaches σ → COInv (sys_db σ) ∧ ∃ ms, SInv (recorded (sys_db σ)) σ ms.
Proof using ULaws.
  intros Hr. assert (COInv (sys_db σ)) as I by (by apply COInv_reachable, run_reachable). split; [done|].
  destruct Hr as [e Hs]. apply (SInv_steps _ (λ i, recorded_id (sys_db σ) i I)
    (λ i i', recorded_inj (sys_db σ) i i' I) (start e) σ [] Hs (COInv_empty e)).
  - intros c Hc. by exists c.
  - split; cbn; [constructor|lia|lia|by intros x ?%not_elem_of_nil].
Qed.

(** C1: However many workers run, crash and restart, whatever the store, the
    clock, the wallet snapshots and the provider reply, and whatever other
    operations commit in between, at most one Close request is ever sent for a
    cash-out. *)
Theorem at_most_one_close σ : run_reaches σ → ∀ n, (sent_for n (sys_sent σ) ≤ 1)%nat.
Proof using ULaws. intros (I & ms & S)%system_invariant n. pose proof (si_once _ _ _ S n). lia. Qed.

Lemma sent_counts n x sent : x ∈ sent → key x.1.1 = Some n → (0 < sent_for n sent)%nat.
Proof.
  unfold sent_for. intros Hx Hk. induction Hx as [y l|y z l Hx IH]; cbn; [|specialize (IH Hk); lia].
  unfold about. cbn. rewrite bool_decide_eq_true_2 by done. lia.
Qed.
Lemma key_of_id n : (n < 2 ^ 128)%N → key (uuid_string n) = Some n.
Proof using ULaws.
  intros Hn. unfold key. by rewrite trim_space_printable, uuid_parse_string by eauto using uuid_string_printable.
Qed.

(** C2: Every Close request ever sent is for the frozen position of a recorded
    cash-out, carries no price, belongs to an attempt that was durably dispatched
    strictly before the authorized execution deadline, and unless the cash-out
    belongs to a batch its owner authorized exactly its intent digest. *)
Theorem close_is_authorized σ id pubkey price :
  run_reaches σ → (id, pubkey, price) ∈ sys_sent σ →
  ∃ c a t e, c ∈ cash_outs (sys_db σ) ∧ id = uuid_string (co_id c) ∧ pubkey = ci_position_pubkey (co_intent c)
    ∧ price = None ∧ a ∈ attempts (sys_db σ) ∧ at_cash_out_id a = co_id c
    ∧ at_dispatched_at a = Some t ∧ co_execution_expires_at c = Some e ∧ t < e ∧ is_Some (co_authorized_at c)
    ∧ (ci_batch_id (co_intent c) = None → ∃ u, u ∈ authorizations (sys_db σ) ∧ authorizes u c).
Proof using ULaws.
  intros Hr Hsent. pose proof (AuthInv_reachable _ (run_reachable _ Hr)) as HA.
  destruct (system_invariant σ Hr) as (I & ms & S). destruct (si_sent _ _ _ S _ Hsent) as [Hp (i & Hrec & Hid & Hpk)].
  cbn in *. pose proof (recorded_id _ _ I Hrec) as Hb. destruct Hrec as (c & Hc & <-).
  destruct (si_dispatched _ _ _ S (co_id c)) as (a & Ha & Hac & Hd).
  { enough (0 < sent_for (co_id c) (sys_sent σ))%nat by lia. eapply sent_counts; [exact Hsent|]. cbn.
    rewrite Hid. by apply key_of_id. }
  destruct (ki_attempt_ref _ I a Ha) as (d & Hdc & Hdid & Hau & Hdis).
  assert (d = c) as -> by (eapply (NoDup_key_inj co_id); [apply I|done|done|congruence]).
  destruct (Hdis Hd) as (t & e & ? & ? & ?). exists c, a, t, e. split_and!; eauto.
Qed.

(** In every recovery pass, whatever it is replied, a Close is sent only when
    a dispatch of that cash-out was just committed by this worker and not used
    yet, only after the last provider request was a GET that found exactly that
    position open, only for the position on record and without a price. *)
Theorem recovery_pass_closes (known : CashOutIntent → Prop) m worker :
  (∀ i, known i → (ci_id i < 2 ^ 128)%N) →
  (∀ i i', known i → known i' → ci_id i = ci_id i' → i = i') →
  obeys mon_next (close_allowed known) (stored_reply known) m (runPositionCashOutRecoveryPass worker) (λ _ _, True).
Proof using ULaws. intros H1 H2. by apply safe_pass. Qed.

(** ** The store *)
(** Every reachable database has unique keys, at most one active cash-out per
    wallet and per position, rows that satisfy their CHECK constraints, attempts
    only for authorized cash-outs, dispatched ones before the execution deadline,
    and an authorization of the owner for the exact intent of every authorized
    cash-out outside a batch. *)
Theorem cash_out_invariant db : reachable db → COInv db ∧ AuthInv db.
Proof. intros Hr. split; [by apply COInv_reachable|by apply AuthInv_reachable]. Qed.

(** C14: A recorded cash-out never disappears and never changes its intent; its
    state only moves along the documented edges, its revision never decreases,
    its authorization and execution deadline are set once; COMPLETED, FAILED and
    EXPIRED are final, down to the last column outside batches; its attempt keeps
    its digest, is never undone once dispatched and never changes once resolved. *)
Theorem cash_out_history db db' :
  reachable db → rtc co_step db db' →
  (∀ c, c ∈ cash_outs db → ∃ c', c' ∈ cash_outs db' ∧ row_next c c')
  ∧ (∀ a, a ∈ attempts db → ∃ a', a' ∈ attempts db' ∧ attempt_next a a')
  ∧ (∀ c, c ∈ commands db → c ∈ commands db').
Proof.
  intros Hr Hs. destruct (steps_evolve _ _ (COInv_reachable _ Hr) Hs) as [_ [? ? ?]]. auto.
Qed.
End Theorems.

(** ** Witnesses *)
Import Prelude.Concrete.
Lemma at_most_one_close_witness :
  run_reaches Scenario.finished ∧ sent_for Scenario.cash_out_id (sys_sent Scenario.finished) = 1%nat
  ∧ (sent_for Scenario.cash_out_id (sys_sent Scenario.finished) ≤ 1)%nat.
Proof.
  split; [exact sc_finished|]. split; [vm_compute; reflexivity|].
  exact (at_most_one_close Scenario.finished sc_finished Scenario.cash_out_id).
Defined.
Lemma close_is_authorized_witness :
  (uuid_string Scenario.cash_out_id, Scenario.position_key, None) ∈ sys_sent Scenario.finished
  ∧ ∃ c a t e, c ∈ cash_outs (sys_db Scenario.finished) ∧ uuid_string Scenario.cash_out_id = uuid_string (co_id c)
    ∧ Scenario.position_key = ci_position_pubkey (co_intent c)
    ∧ @None Z = None ∧ a ∈ attempts (sys_db Scenario.finished) ∧ at_cash_out_id a = co_id c
    ∧ at_dispatched_at a = Some t ∧ co_execution_expires_at c = Some e ∧ t < e ∧ is_Some (co_authorized_at c)
    ∧ (ci_batch_id (co_intent c) = None → ∃ u, u ∈ authorizations (sys_db Scenario.finished) ∧ authorizes u c).
Proof.
  assert ((uuid_string Scenario.cash_out_id, Scenario.position_key, None) ∈ sys_sent Scenario.finished) as Hs.
  { assert (sys_sent Scenario.finished = [(uuid_string Scenario.cash_out_id, Scenario.position_key, None)]) as ->
      by (vm_compute; reflexivity). apply list_elem_of_singleton. reflexivity. }
  split; [exact Hs|]. exact (close_is_authorized Scenario.finished _ _ _ sc_finished Hs).
Defined.
Lemma recovery_pass_closes_witness :
  obeys mon_next (close_allowed (recorded Scenario.db2)) (stored_reply (recorded Scenario.db2))
    {| tok := None; seen := None |} (runPositionCashOutRecoveryPass (uuid_string 61)) (λ _ _, True).
Proof.
  pose proof (COInv_reachable _ sc_reachable2) as I.
  exact (recovery_pass_closes (recorded Scenario.db2) {| tok := None; seen := None |} (uuid_string 61)
    (λ i, recorded_id _ i I) (λ i i', recorded_inj _ i i' I)).
Defined.
Lemma cash_out_invariant_witness : reachable Scenario.db2 ∧ COInv Scenario.db2 ∧ AuthInv Scenario.db2.
Proof. split; [exact sc_reachable2|]. exact (cash_out_invariant Scenario.db2 sc_reachable2). Defined.
Lemma cash_out_history_witness :
  rtc co_step Scenario.db1 Scenario.db2 ∧
  (∀ c, c ∈ cash_outs Scenario.db1 → ∃ c', c' ∈ cash_outs Scenario.db2 ∧ row_next c c')
  ∧ (∀ a, a ∈ attempts Scenario.db1 → ∃ a', a' ∈ attempts Scenario.db2 ∧ attempt_next a a')
  ∧ (∀ c, c ∈ commands Scenario.db1 → c ∈ commands Scenario.db2).
Proof.
  split; [exact (rtc_once _ _ sc_step2)|].
  exact (cash_out_history Scenario.db1 Scenario.db2 sc_reachable1 (rtc_once _ _ sc_step2)).
Defined.
