(* ===== verification/CashOutOps.v ===== *)
(** * Position cash-out: what single store operations do *)

From S2P Require Import Prelude Prog Sql CashOutTypes CashOutStages CashOutStore CashOutInv CashOutWorker CashOutSystem CashOutScenario.
From stdpp Require Import base tactics option list list_numbers sorting strings gmap.
From Stdlib Require Import ZArith Lia Ascii.
#[local] Open Scope Z_scope.

Section Ops.
Context {UL : UuidLib} {SL : SolanaLib} {DL : DigestLib CashOutPayload}.

(** ** Dispatch *)
(** The attempt and the cash-out a dispatch is for. *)
Definition dispatchable (db : CDB) (attempt n claim : N) (now : Z) : Prop :=
  ∃ a c ce ee, a ∈ attempts db ∧ at_id a = attempt ∧ at_cash_out_id a = n
    ∧ at_state a = PositionCashOutAttemptStatePrepared ∧ c ∈ cash_outs db ∧ co_id c = n
    ∧ co_state c = PositionCashOutStateClosing ∧ co_claim_id c = Some claim
    ∧ co_claim_expires_at c = Some ce ∧ now < ce ∧ co_execution_expires_at c = Some ee ∧ now < ee.
Lemma later_iff o now : later o now = true ↔ ∃ t, o = Some t ∧ now < t.
Proof.
  destruct o as [t|]; cbn; [rewrite Z.ltb_lt|split; [done|by intros (? & ? & _)]].
  split; [eauto|]. intros (? & [= <-] & ?). done.
Qed.

Lemma dispatch_filter id n claim now db a :
  a ∈ attempts db →
  (at_id a =? id)%N && (at_cash_out_id a =? n)%N && bool_decide (at_state a = PositionCashOutAttemptStatePrepared)
  && existsb (λ c, (co_id c =? at_cash_out_id a)%N && closing_claimed claim now c) (cash_outs db) = true →
  dispatchable db id n claim now.
Proof.
  intros Ha Hp. guards.
  match goal with H : existsb _ _ = true |- _ => apply existsb_elem in H as (c & Hc & Hcl) end. guards.
  match goal with H : closing_claimed _ _ _ = true |- _ => unfold closing_claimed in H end. guards.
  repeat match goal with H : later _ _ = true |- _ => apply later_iff in H as (? & ? & ?) end.
  exists a, c. do 2 eexists. split_and!; eauto; congruence.
Qed.
Lemma Dispatch_query_guard id n claim now db db' a :
  DispatchPositionCashOutAttempt_query id n claim now db = Ok (db', a) → dispatchable db id n claim now.
Proof.
  intros Hok. unfold DispatchPositionCashOutAttempt_query in Hok. tx_inv.
  match goal with H : update_attempt _ _ _ = Ok _ |- _ => apply updated_attempt in H as [_ (a0 & Ha0 & Hp & _)] end.
  by eapply dispatch_filter.
Qed.
Lemma update_attempt_none p f db :
  (∀ a, a ∈ attempts db → p a = false) → update_attempt p f db = Err CONoRows.
Proof.
  intros Hp. unfold update_attempt, mbind, tx_bind, tx_get, tx_lift.
  destruct (sql_one p (attempts db)) as [a|] eqn:E; [|done].
  apply sql_one_Some in E as [Ha Hin]. naive_solver congruence.
Qed.
Lemma Dispatch_query_refuses id n claim now db :
  ¬ dispatchable db id n claim now → DispatchPositionCashOutAttempt_query id n claim now db = Err CONoRows.
Proof.
  intros Hn. apply update_attempt_none. intros a Ha. apply not_true_is_false. intros Hp.
  by eapply Hn, dispatch_filter.
Qed.

Lemma Dispatch_body clock req db attempt n claim ta tn tc :
  marketCombinationUUID (dq_attempt_id req) = Ok (attempt, ta) →
  marketCombinationUUID (dq_cash_out_id req) = Ok (n, tn) →
  marketCombinationUUID (dq_claim_id req) = Ok (claim, tc) →
  let now := pg_time (canonicalNow clock (dq_now req)) in
  DispatchPositionCashOutAttempt clock req db
  = (row ← co_on_no_rows (DispatchPositionCashOutAttempt_query attempt n claim now) ErrPositionCashOutClaim;
     _ ← co_on_no_rows (TouchPositionCashOutAfterDispatch n claim now) ErrPositionCashOutClaim;
     mret (mapPositionCashOutAttempt row)) db.
Proof.
  intros Ha Hn Hc now. unfold DispatchPositionCashOutAttempt, mbind, tx_bind, tx_lift. by rewrite Ha, Hn, Hc.
Qed.

(** A dispatch succeeds only for the PREPARED attempt of a cash-out that is
    CLOSING under the given, unexpired claim before its execution deadline, and is
    otherwise refused as a lost claim; a success changes that attempt and the
    revision of that cash-out, and no other row of any table. *)
Theorem dispatch_spec clock req db attempt n claim ta tn tc :
  COInv db →
  marketCombinationUUID (dq_attempt_id req) = Ok (attempt, ta) →
  marketCombinationUUID (dq_cash_out_id req) = Ok (n, tn) →
  marketCombinationUUID (dq_claim_id req) = Ok (claim, tc) →
  let now := pg_time (canonicalNow clock (dq_now req)) in
  (¬ dispatchable db attempt n claim now → DispatchPositionCashOutAttempt clock req db = Err ErrPositionCashOutClaim)
  ∧ (∀ db' r, DispatchPositionCashOutAttempt clock req db = Ok (db', r) →
      dispatchable db attempt n claim now
      ∧ pat_state r = PositionCashOutAttemptStateDispatched ∧ pat_dispatched_at r = now
      ∧ (∀ a, a ∈ attempts db → at_cash_out_id a ≠ n → a ∈ attempts db')
      ∧ (∃ a, a ∈ attempts db' ∧ at_id a = attempt ∧ at_cash_out_id a = n
          ∧ at_state a = PositionCashOutAttemptStateDispatched ∧ at_dispatched_at a = Some now)
      ∧ (∀ c, c ∈ cash_outs db → ∃ c', c' ∈ cash_outs db' ∧ co_intent c' = co_intent c ∧ co_state c' = co_state c
          ∧ co_claim_id c' = co_claim_id c ∧ (co_id c ≠ n → c' = c) ∧ (co_id c = n → co_revision c' = co_revision c + 1))
      ∧ authorizations db' = authorizations db ∧ commands db' = commands db ∧ env db' = env db).
Proof.
  intros I Ha Hn Hc now. rewrite (Dispatch_body clock req db attempt n claim ta tn tc Ha Hn Hc). fold now. split.
  - intros Hnd. unfold mbind, tx_bind, co_on_no_rows. by rewrite (Dispatch_query_refuses attempt n claim now db Hnd).
  - intros db' r Hok. tx_inv.
    match goal with H : co_on_no_rows (DispatchPositionCashOutAttempt_query _ _ _ _) _ _ = Ok _ |- _ =>
      apply co_on_no_rows_ok in H; pose proof (Dispatch_query_guard _ _ _ _ _ _ _ H) as Hd;
      unfold DispatchPositionCashOutAttempt_query in H; tx_inv;
      match goal with H' : update_attempt _ _ _ = Ok _ |- _ =>
        pose proof (updated_attempt _ _ _ _ _ H') as [Hin _]; apply update_attempt_ok in H' as (a & Hain & Hp & -> & _ & ->) end end.
    match goal with H : co_on_no_rows (TouchPositionCashOutAfterDispatch _ _ _) _ _ = Ok _ |- _ =>
      apply co_on_no_rows_ok, update_cash_out_ok in H as (c & Hcin & Hcp & _ & _ & ->) end. cbn in *.
    assert (∀ d, d ∈ cash_outs db → co_id d = n → d = c) as Hu.
    { intros d Hd1 Hd2. guards. eapply (NoDup_key_inj co_id); [apply I|done|done|congruence]. }
    split; [done|]. split; [done|]. split; [done|]. split_and!; [| | |done|done|done].
    + intros b Hb Hne. apply elem_of_sql_update. exists b. split; [done|].
      destruct (N.eqb_spec (at_cash_out_id b) n); [done|]. by rewrite andb_false_r.
    + eexists. split; [exact Hin|]. guards. done.
    + intros d Hd1. eexists. split; [apply elem_of_sql_update; exists d; split; [done|reflexivity]|].
      destruct (N.eqb_spec (co_id d) n) as [Heq|Hne]; cbn.
      * rewrite (Hu d Hd1 Heq). rewrite (Hu d Hd1 Heq) in Heq. rewrite Heq, N.eqb_refl in Hcp. cbn in Hcp.
        rewrite Hcp. cbn. split_and!; [done..|by intros ?|done].
      * split_and!; [done..|]. by intros ?.
Qed.

(** ** Creation is idempotent per command *)
(** The request fields a creation command is identified by. *)
Definition creation_of (req : CreatePositionCashOutRequest) (owner command : N * string) : GetPositionCashOutCreationRequest := {|
  gc_owner_account_id := owner.2; gc_command_id := command.2; gc_wallet_id := cr_wallet_id req;
  gc_wallet_address := cr_wallet_address req; gc_position_pubkey := crq_position_pubkey req |}.
Lemma normalize_creation req now req' owner command :
  normalizePositionCashOutCreateRequest req now = Ok req' → creation_of req' owner command = creation_of req owner command.
Proof.
  unfold normalizePositionCashOutCreateRequest. intros Hok. tx_inv.
  match goal with H : mret _ = Ok _ |- _ => by injection H as <- end.
Qed.

Lemma get_command id db c : COInv db → c ∈ commands db → cm_id c = id → GetPositionCashOutCommand id db = Some c.
Proof.
  intros I Hc <-. unfold GetPositionCashOutCommand.
  destruct (sql_one_is_Some (λ x, (cm_id x =? cm_id c)%N) (commands db) c) as [x Hx]; [done|by apply N.eqb_refl|].
  rewrite Hx. f_equal. apply sql_one_Some in Hx as [Hx1 Hx2]. guards.
  eapply (NoDup_key_inj cm_id); [apply I|done..].
Qed.
Lemma get_cash_out id db c : COInv db → c ∈ cash_outs db → co_id c = id → GetPositionCashOutByID id db = Some c.
Proof.
  intros I Hc <-. unfold GetPositionCashOutByID.
  destruct (sql_one_is_Some (λ x, (co_id x =? co_id c)%N) (cash_outs db) c) as [x Hx]; [done|by apply N.eqb_refl|].
  rewrite Hx. f_equal. apply sql_one_Some in Hx as [Hx1 Hx2]. guards.
  eapply (NoDup_key_inj co_id); [apply I|done..].
Qed.

(** What a successful creation leaves behind. *)
Lemma Create_leaves clock fresh req db db1 r :
  CreatePositionCashOut clock fresh req db = Ok (db1, r) →
  ∃ owner command digest cmd row, marketCombinationUUID (cr_owner_account_id req) = Ok owner
    ∧ marketCombinationUUID (cr_command_id req) = Ok command
    ∧ positionCashOutCreationDigest (creation_of req owner command) = Ok digest
    ∧ cmd ∈ commands db1 ∧ cm_id cmd = command.1 ∧ cm_owner_account_id cmd = owner.1
    ∧ cm_kind cmd = PositionCashOutCommandKindCreate ∧ cm_request_sha256 cmd = digest
    ∧ row ∈ cash_outs db1 ∧ co_id row = cm_cash_out_id cmd ∧ r = loadPositionCashOut row db1.
Proof.
  intros Hok. unfold CreatePositionCashOut in Hok. cbv zeta in Hok. tx_inv.
  match goal with H : normalizePositionCashOutCreateRequest _ _ = Ok ?q |- _ => rename q into nreq; rename H into Hnorm end.
  match goal with H : positionCashOutCreationDigest _ = Ok ?d |- _ => rename d into digest; rename H into Hdig end.
  match goal with H1 : marketCombinationUUID (cr_owner_account_id req) = Ok ?o,
    H2 : marketCombinationUUID (cr_command_id req) = Ok ?c |- _ => rename o into owner; rename c into command;
    change (positionCashOutCreationDigest (creation_of nreq owner command) = Ok digest) in Hdig;
    rewrite (normalize_creation _ _ _ owner command Hnorm) in Hdig end.
  match goal with H : match ?x with _ => _ end _ = Ok _ |- _ => destruct x as [cmd|] eqn:Hcmd end.
  - tx_inv. guards. match goal with H : loadPositionCashOutByID _ _ = Ok _ |- _ => unfold loadPositionCashOutByID in H end.
    tx_inv. match goal with H : mret _ = Ok _ |- _ => injection H as <- end.
    match goal with H : GetPositionCashOutByID _ _ = Some _ |- _ => apply sql_one_Some in H as [Hr1 Hr2] end.
    apply sql_one_Some in Hcmd as [Hc1 Hc2]. guards. do 5 eexists. split_and!; eauto.
  - tx_inv. destruct (initial_state nreq _) as [[st rc] ca]. tx_inv.
    match goal with H : load _ _ = Ok _ |- _ => apply load_ok in H as [-> ->] end.
    match goal with H : co_on_constraints (CreatePositionCashOut_row _) _ _ _ = Ok _ |- _ =>
      apply co_on_constraints_ok, CreateRow_ok in H as (-> & -> & _ & _) end.
    match goal with H : co_on_constraints (CreatePositionCashOutCommand _) _ _ _ = Ok _ |- _ =>
      apply co_on_constraints_ok, CreateCommand_ok in H as (-> & -> & _ & _) end.
    do 5 eexists. cbn. rewrite !elem_of_app, !list_elem_of_singleton. split_and!; eauto; done.
Qed.

(** A creation command takes effect once.  Sent again later, by anyone's
    clock, with whatever fresh id and whatever newer position data but the same
    owner, command, wallet, address and position, a valid request returns the
    cash-out the command created first, in its current state, and changes nothing. *)
Theorem create_replay clock fresh req db db1 r clock' fresh' req' db2 :
  COInv db → CreatePositionCashOut clock fresh req db = Ok (db1, r) → rtc co_step db1 db2 →
  (∀ p : CashOutPayload, is_Some (json_sha256 p)) →
  cr_owner_account_id req' = cr_owner_account_id req → cr_command_id req' = cr_command_id req →
  cr_wallet_id req' = cr_wallet_id req → cr_wallet_address req' = cr_wallet_address req →
  crq_position_pubkey req' = crq_position_pubkey req →
  is_ok (normalizePositionCashOutCreateRequest req' (canonicalNow clock' (cr_now req'))) = true →
  ∃ c2, c2 ∈ cash_outs db2 ∧ CreatePositionCashOut clock' fresh' req' db2 = Ok (db2, loadPositionCashOut c2 db2)
    ∧ pco_id r = uuid_string (co_id c2) ∧ pco_intent_digest_sha256 r = ci_intent_digest_sha256 (co_intent c2).
Proof.
  intros I Hok Hs Hjson E1 E2 E3 E4 E5 Hn.
  destruct (evolving_CreatePositionCashOut _ _ _ _ _ _ I Hok) as [I1 _].
  destruct (Create_leaves _ _ _ _ _ _ Hok) as (owner & command & digest & cmd & row & Ho & Hc & Hd & Hcmd & Hid & Hown
    & Hkind & Hsha & Hrow & Hrid & ->).
  destruct (steps_evolve _ _ I1 Hs) as [I2 Ev].
  destruct (ev_rows _ _ Ev row Hrow) as (c2 & Hc2 & Hnx). pose proof (ev_commands _ _ Ev cmd Hcmd) as Hcmd2.
  assert (co_id c2 = cm_cash_out_id cmd) as Hid2 by (unfold co_id in *; by rewrite (rn_intent _ _ Hnx)).
  exists c2. split; [done|]. split; [|cbn; unfold co_id; by rewrite (rn_intent _ _ Hnx)].
  destruct (normalizePositionCashOutCreateRequest req' _) as [nreq|] eqn:Hnorm; [|done].
  assert (positionCashOutCreationDigest (creation_of nreq owner command) = Ok digest) as Hdig.
  { rewrite (normalize_creation _ _ _ owner command Hnorm), <- Hd. unfold creation_of. by rewrite E3, E4, E5. }
  unfold CreatePositionCashOut. unfold mbind at 1, tx_bind at 1, tx_lift at 1. rewrite E1, Ho.
  unfold mbind at 1, tx_bind at 1, tx_lift at 1. rewrite E2, Hc. cbv zeta.
  unfold mbind at 1, tx_bind at 1, tx_lift at 1. rewrite Hnorm.
  unfold mbind at 1, tx_bind at 1, tx_lift at 1. unfold creation_of in Hdig. rewrite Hdig.
  unfold mbind at 1, tx_bind at 1, tx_lift at 1. unfold positionCashOutDigest.
  match goal with |- context [json_sha256 ?p] => destruct (Hjson p) as [? ->] end. cbn [of_option].
  unfold mbind at 1, tx_bind at 1, tx_get at 1. rewrite (get_command _ _ _ I2 Hcmd2 Hid).
  unfold mbind at 1, tx_bind at 1, ensure, tx_lift at 1.
  rewrite Hown, Hkind, Hsha, N.eqb_refl, !bool_decide_eq_true_2 by done. cbn [andb require].
  unfold tx_lift, loadPositionCashOutByID. by rewrite (get_cash_out _ _ c2 I2 Hc2 Hid2).
Qed.

(** ** Expiry *)
Lemma expire_ok sel st now db db' rows :
  COInv db → (∀ d, d ∈ sel db → d ∈ cash_outs db) → expire_cash_outs sel st now db = Ok (db', rows) →
  (length rows ≤ length (sel db))%nat ∧ attempts db' = attempts db ∧ env db' = env db ∧ commands db' = commands db
  ∧ ∀ c, c ∈ cash_outs db → (c ∈ sel db ∧ expire_row st now c ∈ cash_outs db') ∨ c ∈ cash_outs db'.
Proof.
  intros I Hsub Hok. unfold expire_cash_outs in Hok. tx_inv. split_and!; [|done..|].
  - rewrite length_fmap, <- (length_fmap co_id (sel db)), <- (length_fmap co_id (sql_many _ _)).
    apply submseteq_length, NoDup_submseteq; [apply NoDup_sql_many, I|].
    intros x (c & -> & Hc)%list_elem_of_fmap. apply elem_of_sql_many in Hc as [Hp _]. by bool_prop.
  - intros c Hc. cbn. destruct (decide (co_id c ∈ co_id <$> sel db)) as [Hin|Hnin].
    + left. apply list_elem_of_fmap in Hin as (d & Hid & Hd).
      assert (d = c) as -> by (eapply (NoDup_key_inj co_id); [apply I|auto..]). split; [done|].
      apply elem_of_sql_update. exists c. split; [done|]. rewrite bool_decide_eq_true_2; [done|].
      apply list_elem_of_fmap. eauto.
    + right. apply elem_of_sql_update. exists c. split; [done|]. by rewrite bool_decide_eq_false_2.
Qed.
Lemma selected_elem {R} (le : R → R → bool) p n t (c : R) :
  c ∈ take n (sort_by le (sql_many p t)) → p c = true ∧ c ∈ t.
Proof. intros (i & Hc%list_elem_of_lookup_2 & _)%elem_of_take. by apply sort_by_elem, elem_of_sql_many in Hc. Qed.
Lemma selected_length {R} (le : R → R → bool) p (n : Z) (t : list R) :
  (length (take (Z.to_nat n) (sort_by le (sql_many p t))) ≤ Z.to_nat n)%nat.
Proof. rewrite length_take. lia. Qed.

(** When a row may be expired. *)
Definition unauthorized_due (now : Z) (c : WormPositionCashOut) : Prop :=
  co_state c = PositionCashOutStateAwaitingAuthorization ∧ ci_authorization_expires_at (co_intent c) ≤ now.
Definition undispatched_due (db : CDB) (now : Z) (c : WormPositionCashOut) : Prop :=
  co_state c ∈ [PositionCashOutStateQueued; PositionCashOutStatePreflighting; PositionCashOutStateClosing]
  ∧ (∃ e, co_execution_expires_at c = Some e ∧ e ≤ now) ∧ ¬ dispatched_in (co_id c) db.

Lemma undispatched_iff db n : COInv db → undispatched db n = true → ¬ dispatched_in n db.
Proof.
  unfold undispatched, GetPositionCashOutAttempt. intros I Hu (a & Ha & Hn & Hd).
  destruct (sql_one_is_Some (λ a, (at_cash_out_id a =? n)%N) (attempts db) a) as [x Hx]; [done|by apply N.eqb_eq|].
  rewrite Hx in Hu. apply sql_one_Some in Hx as [Hx Hxn]. guards.
  assert (x = a) as -> by (eapply (NoDup_key_inj at_cash_out_id); [apply I|done|done|congruence]). by destruct Hd.
Qed.
Lemma Unauthorized_ok locked now limit db db' rows :
  COInv db → ExpireUnauthorizedPositionCashOuts locked now limit db = Ok (db', rows) →
  (length rows ≤ Z.to_nat limit)%nat ∧ attempts db' = attempts db ∧ env db' = env db ∧ commands db' = commands db
  ∧ ∀ c, c ∈ cash_outs db → c ∈ cash_outs db'
      ∨ (unauthorized_due now c ∧ locked (co_id c) = false ∧ expire_row PositionCashOutStateExpired now c ∈ cash_outs db').
Proof.
  intros I Hok. apply expire_ok in Hok as (Hl & Ha & He & Hc & Hrows); [|done|by intros d [_ ?]%selected_elem].
  split_and!; [|done..|].
  - etrans; [exact Hl|apply selected_length].
  - intros c Hcin. destruct (Hrows c Hcin) as [[Hs He']|?]; [right|by left].
    apply selected_elem in Hs as [Hp _]. guards. done.
Qed.
Lemma Undispatched_ok locked now limit db db' rows :
  COInv db → ExpireUndispatchedPositionCashOuts locked now limit db = Ok (db', rows) →
  (length rows ≤ Z.to_nat limit)%nat ∧ attempts db' = attempts db ∧ env db' = env db ∧ commands db' = commands db
  ∧ ∀ c, c ∈ cash_outs db → c ∈ cash_outs db'
      ∨ (undispatched_due db now c ∧ locked (co_id c) = false ∧ expire_row PositionCashOutStateFailed now c ∈ cash_outs db').
Proof.
  intros I Hok. apply expire_ok in Hok as (Hl & Ha & He & Hc & Hrows); [|done|by intros d [_ ?]%selected_elem].
  split_and!; [|done..|].
  - etrans; [exact Hl|apply selected_length].
  - intros c Hcin. destruct (Hrows c Hcin) as [[Hs He']|?]; [right|by left].
    apply selected_elem in Hs as [Hp _]. bool_prop.
    match goal with H : due _ _ = true, H' : undispatched _ _ = true |- _ => rename H into Hdue; rename H' into Hu end.
    split_and!; [split_and!|done|done]; [| |by eapply undispatched_iff].
    + destruct (co_state c); try done; set_solver.
    + destruct (co_execution_expires_at c) as [e|]; [|done]. cbn in Hdue. bool_prop. eauto.
Qed.
Lemma revoke_all_ok now rows db db' u :
  revoke_all now rows db = Ok (db', u) →
  cash_outs db' = cash_outs db ∧ attempts db' = attempts db ∧ env db' = env db ∧ commands db' = commands db.
Proof.
  revert db. induction rows as [|r rows IH]; intros db Hok; cbn in Hok; [by tx_inv|]. tx_inv.
  match goal with H : EndPositionCashOutAuthorization _ _ _ _ _ = Ok _ |- _ => unfold EndPositionCashOutAuthorization in H end.
  tx_inv. match goal with H : revoke_all _ _ _ = Ok _ |- _ => by apply IH in H end.
Qed.

(** One expiry pass changes at most [limit] cash-outs and no attempt: it
    expires cash-outs whose authorization window has passed and fails queued,
    preflighting or closing ones whose execution deadline has passed, only while
    nothing was dispatched for them and no other transaction holds them; every
    other cash-out, and every one with a dispatched Close, is left as it is. *)
Theorem expiry_spec locked clock now limit db db' n :
  COInv db → ExpirePositionCashOuts locked clock now limit db = Ok (db', n) →
  let t := pg_time (canonicalNow clock now) in
  0 ≤ n ≤ limit ∧ 0 < limit ≤ maxPositionCashOutRecoveryLimit
  ∧ attempts db' = attempts db ∧ env db' = env db ∧ commands db' = commands db
  ∧ ∀ c, c ∈ cash_outs db → c ∈ cash_outs db'
      ∨ (unauthorized_due t c ∧ locked (co_id c) = false ∧ expire_row PositionCashOutStateExpired t c ∈ cash_outs db')
      ∨ (undispatched_due db t c ∧ locked (co_id c) = false ∧ expire_row PositionCashOutStateFailed t c ∈ cash_outs db').
Proof.
  intros I Hok t. unfold ExpirePositionCashOuts in Hok. cbv zeta in Hok. fold t in Hok. tx_inv. bool_prop.
  match goal with H : ExpireUnauthorizedPositionCashOuts _ _ _ _ = Ok (?d, ?rows) |- _ => rename H into HU;
    rename d into db1; rename rows into rows1 end.
  pose proof (evolving_ExpireUnauthorized _ _ _ _ _ _ I HU) as [I1 _].
  destruct (Unauthorized_ok _ _ _ _ _ _ I HU) as (L1 & A1 & V1 & C1 & R1).
  destruct (0 <? limit - Z.of_nat (length rows1)) eqn:Hrem; tx_inv; bool_prop; cycle 1.
  { split_and!; try done; try lia; [cbn; lia|]. intros c Hc. destruct (R1 c Hc); auto. }
  match goal with H : ExpireUndispatchedPositionCashOuts _ _ _ _ = Ok (?d, ?rows) |- _ => rename H into HD end.
  destruct (Undispatched_ok _ _ _ _ _ _ I1 HD) as (L2 & A2 & V2 & C2 & R2).
  match goal with H : revoke_all _ _ _ = Ok _ |- _ => apply revoke_all_ok in H as (-> & -> & -> & ->) end.
  split_and!; try lia; try congruence.
  intros c Hc. destruct (R1 c Hc) as [Hc1|(Hd & Hk & Hx)].
  - destruct (R2 c Hc1) as [?|((? & ? & Hnd) & ? & ?)]; [by left|]. right. right. split_and!; try done.
    split_and!; [done|done|]. unfold dispatched_in in *. by rewrite A1 in Hnd.
  - right. left. split_and!; [done|done|]. destruct (R2 _ Hx) as [?|((Hs & _) & _)]; [done|]. cbn in Hs. set_solver.
Qed.

(** ** Wallet id lists *)
Lemma dedup_sorted_spec last l :
  StronglySorted (λ a b, (a <=? b) = true) l → (∀ b w, last = Some b → w ∈ l → b ≤ w) →
  match dedup_sorted last l with
  | Ok ids => (∀ w, w ∈ ids ↔ w ∈ l ∧ last ≠ Some w) ∧ StronglySorted Z.lt ids ∧ ∀ w, w ∈ l → 0 < w
  | Err e => e = ErrInvalidPositionCashOut ∧ ∃ w, w ∈ l ∧ w ≤ 0
  end.
Proof.
  revert last. induction l as [|w l IH]; intros last Hs Hlast; cbn.
  { split_and!; [set_solver|constructor|set_solver]. }
  apply StronglySorted_inv in Hs as [Hs Hall]. rewrite Forall_forall in Hall.
  assert (∀ x, x ∈ l → w ≤ x) as Hw by (intros x Hx; specialize (Hall x Hx); cbn in Hall; lia).
  destruct (0 <? w) eqn:Hpos; bool_prop; cbn; [|split; [done|]; exists w; split; [set_solver|lia]].
  assert (match dedup_sorted (Some w) l with
    | Ok ids => (∀ x, x ∈ ids ↔ x ∈ l ∧ Some w ≠ Some x) ∧ StronglySorted Z.lt ids ∧ ∀ x, x ∈ l → 0 < x
    | Err e => e = ErrInvalidPositionCashOut ∧ ∃ x, x ∈ l ∧ x ≤ 0 end) as IHw.
  { apply IH; [done|]. intros b x [= <-] Hx. auto. }
  case_bool_decide as Hd.
  - subst last. destruct (dedup_sorted (Some w) l) as [ids|e]; [|destruct IHw as (-> & x & ? & ?); set_solver].
    destruct IHw as (H1 & H2 & H3). split_and!; [|done|set_solver]. intros x. rewrite H1. set_solver.
  - destruct (dedup_sorted (Some w) l) as [ids|e]; cbn; [|destruct IHw as (-> & x & ? & ?); set_solver].
    destruct IHw as (H1 & H2 & H3). split_and!; [| |set_solver].
    + intros x. rewrite !elem_of_cons, H1. destruct (decide (x = w)) as [->|Hne]; [naive_solver|].
      assert (x ∈ l → last ≠ Some x) by (intros Hx Hl; specialize (Hlast x w Hl ltac:(left)); specialize (Hw x Hx); lia).
      naive_solver.
    + constructor; [done|]. apply Forall_forall. intros x [Hx Hne]%H1. specialize (Hw x Hx).
      assert (x ≠ w) by congruence. lia.
Qed.

(** The wallet ids of a request are returned sorted, without duplicates and
    complete; a non-positive id refuses the whole request. *)
Theorem wallet_ids_spec l :
  match normalizePositionCashOutWalletIDs l with
  | Ok ids => StronglySorted Z.lt ids ∧ (∀ w, w ∈ ids ↔ w ∈ l) ∧ ∀ w, w ∈ l → 0 < w
  | Err e => e = ErrInvalidPositionCashOut ∧ ∃ w, w ∈ l ∧ w ≤ 0
  end.
Proof.
  unfold normalizePositionCashOutWalletIDs. destruct l as [|w0 l0]; [split_and!; [constructor|set_solver|set_solver]|].
  generalize (w0 :: l0). intros l.
  pose proof (dedup_sorted_spec None (sort_by Z.leb l)) as Hd.
  destruct (dedup_sorted None (sort_by Z.leb l)) as [ids|e].
  - destruct Hd as (H1 & H2 & H3); [apply sort_by_sorted; intros; lia|done|].
    split_and!; [done| |by intros w Hw; apply H3, sort_by_elem]. intros w. rewrite H1, sort_by_elem. naive_solver.
  - destruct Hd as (-> & w & Hw & ?); [apply sort_by_sorted; intros; lia|done|]. split; [done|].
    exists w. by rewrite sort_by_elem in Hw.
Qed.

(** ** Recovery *)
Lemma check_revision c : cash_out_check c = true → 0 < co_revision c.
Proof.
  intros Hk. unfold cash_out_check in Hk. cbv zeta in Hk.
  repeat match goal with H : _ && _ = true |- _ => apply andb_true_iff in H as [H ?] end. by bool_prop.
Qed.
Lemma claimed_check c claim owner expires now :
  cash_out_check c = true → recoverable c now = true → text_between 0 100 owner = true → owner ≠ EmptyString →
  0 < co_revision c →
  cash_out_check {| co_intent := co_intent c;
      co_state := if bool_decide (co_state c = PositionCashOutStateQueued) then PositionCashOutStatePreflighting
                  else co_state c;
      co_revision := co_revision c + 1; co_reason_code := co_reason_code c; co_provider_state := co_provider_state c;
      co_provider_is_closed := co_provider_is_closed c; co_provider_is_liquidated := co_provider_is_liquidated c;
      co_execution_expires_at := co_execution_expires_at c; co_authorized_at := co_authorized_at c;
      co_next_poll_at := co_next_poll_at c; co_poll_count := co_poll_count c;
      co_reconcile_requested_at := co_reconcile_requested_at c; co_claim_id := Some claim; co_claim_owner := owner;
      co_claim_expires_at := Some expires; co_completed_at := co_completed_at c; co_updated_at := now |} = true.
Proof.
  intros Hk Hr Ho Hne Hrev. unfold cash_out_check in *. cbv zeta in *. cbn.
  repeat match goal with H : _ && _ = true |- _ => apply andb_true_iff in H as [H ?] end.
  repeat match goal with |- _ && _ = true => apply andb_true_iff; split end; try assumption; try (apply Z.ltb_lt; lia).
  all: unfold recoverable in Hr; destruct (co_state c); cbn in *; try done; try (by apply bool_decide_eq_true in Hne).
  all: try (rewrite bool_decide_eq_false_2 by done; done).
Qed.

Lemma code_text code required code' :
  normalizePositionCashOutCode code required = Ok code' →
  code' = code ∧ text_between 0 100 code = true ∧ (required = true → code ≠ EmptyString).
Proof.
  unfold normalizePositionCashOutCode. intros Hok. cbv zeta in Hok. tx_inv. bool_prop.
  match goal with H : mret _ = Ok _ |- _ => injection H as <- end.
  match goal with H : code = trim_space code |- _ => rewrite <- H in * end. split; [done|]. split.
  - unfold text_between. rewrite trimmed_btrimmed by done. pose proof (char_length_bytes code).
    unfold maxPositionCashOutCodeLength in *. cbn. rewrite andb_true_iff, !Z.leb_le. lia.
  - intros ->. match goal with H : _ ∨ _ |- _ => destruct H as [|H]; [done|]; by bool_prop end.
Qed.
Lemma pg_time_mono t t' : t ≤ t' → pg_time t ≤ pg_time t'.
Proof. unfold pg_time. intros Ht. pose proof (Z.div_mod t 1000). pose proof (Z.div_mod t' 1000).
  pose proof (Z.div_le_mono t t' 1000). lia. Qed.
Lemma due_mono o now now' : now ≤ now' → due o now = true → due o now' = true.
Proof. destruct o; [|done]. cbn. rewrite !Z.leb_le. lia. Qed.
Lemma recoverable_mono c now now' : now ≤ now' → recoverable c now = true → recoverable c now' = true.
Proof.
  intros Hn. assert (unclaimed c now = true → unclaimed c now' = true) as Hu.
  { unfold unclaimed. rewrite !orb_true_iff. intros [?|?]; [by left|right]. by eapply due_mono. }
  unfold recoverable. destruct (co_state c); try done; rewrite ?andb_true_iff; intros; destruct_and?;
    split_and?; eauto using due_mono.
Qed.

Lemma update_cash_out_succeeds p f db c :
  COInv db → c ∈ cash_outs db → p c = true → (∀ d, p d = true → co_id d = co_id c) →
  cash_out_check (f c) = true → cash_out_in_range (f c) = true →
  update_cash_out p f db = Ok (set_cash_outs (sql_update p f (cash_outs db)) db, f c).
Proof.
  intros I Hc Hp Hid Hk Hr. unfold update_cash_out, mbind, tx_bind, tx_get, tx_lift, ensure, tx_put, tx_lift.
  destruct (sql_one_is_Some p (cash_outs db) c Hc Hp) as [x Hx]. rewrite Hx. apply sql_one_Some in Hx as [Hx Hpx].
  assert (x = c) as -> by (eapply (NoDup_key_inj co_id); [apply I|auto..]). cbn. by rewrite Hk, Hr.
Qed.

(** Every cash-out the recovery list returns can be claimed: with a valid
    claim id, worker id and future lease, at that or any later moment, the claim of
    an unchanged database succeeds, takes the row over with that claim, and moves
    QUEUED to PREFLIGHTING. *)
Theorem recoverable_claimable {ULaws : UuidLaws} clock now now' limit db cs c claim claimText t worker lease :
  reachable db → ListRecoverablePositionCashOuts clock now limit db = Ok cs → c ∈ cs →
  marketCombinationUUID claimText = Ok (claim, t) → is_ok (normalizePositionCashOutCode worker true) = true →
  canonicalNow clock now ≤ canonicalNow clock now' → canonicalNow clock now' < lease → lease ≠ 0 →
  pco_revision c < max_int64 → pco_poll_count c ≤ max_int32 → uuid_parse (trim_space (pco_id c)) ≠ Some 0%N →
  ∃ db' r, ClaimPositionCashOut clock {| clq_cash_out_id := pco_id c; clq_claim_id := claimText;
      clq_worker_id := worker; clq_lease_expires_at := lease; clq_now := now' |} db = Ok (db', r)
    ∧ pco_id r = pco_id c ∧ pco_claim_id r = uuid_string claim ∧ pco_claim_owner r = worker
    ∧ pco_state r = (if bool_decide (pco_state c = PositionCashOutStateQueued) then PositionCashOutStatePreflighting
                     else pco_state c).
Proof.
  intros Hr Hl Hc Hclaim Hw Hnow Hlease Hl0 Hrev Hpoll Hid0. pose proof (COInv_reachable _ Hr) as I.
  unfold ListRecoverablePositionCashOuts in Hl. tx_inv. match goal with H : mret _ = Ok _ |- _ => injection H as <- end.
  apply list_elem_of_omap in Hc as (n & Hn & Hload).
  unfold ListRecoverablePositionCashOutKeys in Hn. apply list_elem_of_fmap in Hn as (row & -> & Hsel).
  apply selected_elem in Hsel as [Hp Hrow]. apply andb_true_iff in Hp as [Hrec _].
  unfold loadPositionCashOutByID in Hload. rewrite (get_cash_out _ _ row I Hrow eq_refl) in Hload.
  injection Hload as <-.
  change (pco_id (loadPositionCashOut row db)) with (uuid_string (ci_id (co_intent row))) in *. cbn in Hrev, Hpoll.
  change (pco_state (loadPositionCashOut row db)) with (co_state row).
  apply (recoverable_mono _ _ (pg_time (canonicalNow clock now'))) in Hrec; [|by apply pg_time_mono].
  destruct (normalizePositionCashOutCode worker true) as [w|] eqn:Hcode; [|done].
  destruct (code_text _ _ _ Hcode) as (-> & Htext & Hne). specialize (Hne eq_refl).
  pose proof (ki_check _ I row Hrow) as Hk.
  assert (ci_id (co_intent row) < 2 ^ 128)%N as Hb.
  { unfold cash_out_check in Hk. cbv zeta in Hk. repeat (apply andb_true_iff in Hk as [Hk _]). by apply N.ltb_lt. }
  assert (marketCombinationUUID (uuid_string (ci_id (co_intent row))) = Ok (co_id row, uuid_string (co_id row))) as Hid.
  { rewrite trim_space_printable, uuid_parse_string in Hid0 by eauto using uuid_string_printable.
    unfold marketCombinationUUID. rewrite trim_space_printable, uuid_parse_string by eauto using uuid_string_printable.
    destruct (N.eqb_spec (ci_id (co_intent row)) 0); [congruence|done]. }
  assert (normalizePositionCashOutClaim clock {| clq_cash_out_id := uuid_string (ci_id (co_intent row));
      clq_claim_id := claimText; clq_worker_id := worker; clq_lease_expires_at := lease; clq_now := now' |}
    = Ok (co_id row, claim, worker, canonicalNow clock now')) as Hnorm.
  { unfold normalizePositionCashOutClaim. cbn [clq_cash_out_id clq_claim_id clq_worker_id clq_lease_expires_at clq_now].
    rewrite Hid. cbn. rewrite Hclaim. cbn. rewrite Hcode. cbn. by rewrite (proj2 (Z.ltb_lt _ _) Hlease). }
  unfold ClaimPositionCashOut, mbind, tx_bind, tx_lift. rewrite Hnorm. unfold co_on_no_rows.
  cbn [clq_lease_expires_at]. unfold timestampParam. rewrite (proj2 (Z.eqb_neq lease 0) Hl0).
  unfold ClaimPositionCashOut_query. erewrite (update_cash_out_succeeds _ _ db row I Hrow); cycle 1.
  - destruct (check_working row Hk) as [[? E1] [? E2]].
    { unfold recoverable in Hrec. by destruct (co_state row). }
    { intros E. unfold recoverable in Hrec. by rewrite E in Hrec. }
    rewrite N.eqb_refl, E1, E2, Hrec. done.
  - intros d Hd. guards. done.
  - eapply claimed_check; try done. apply check_revision, Hk.
  - unfold cash_out_in_range, bigint_in_range. cbn. rewrite andb_true_iff, !Z.leb_le. lia.
  - unfold load, mbind, tx_bind, tx_get. do 2 eexists. split; [reflexivity|]. cbn. done.
Qed.
End Ops.

(** ** Witnesses *)
Import Prelude.Concrete.
(** The database of the concrete run just before its dispatch. *)
Definition sc_prepared : CDB := sys_db (drive Scenario.world 19 Scenario.pass (Scenario.with_pass Scenario.db2)).
Definition sc_dispatch : DispatchPositionCashOutAttemptRequest := {|
  dq_attempt_id := uuid_string 51; dq_cash_out_id := uuid_string Scenario.cash_out_id; dq_claim_id := uuid_string 51;
  dq_now := Scenario.sc_now + 2 * second |}.
Lemma sc_prepared_inv : COInv sc_prepared.
Proof. apply COInv_reachable. exact (run_reachable _ (sc_driven 19)). Qed.

Lemma dispatch_spec_witness :
  is_ok (DispatchPositionCashOutAttempt 0 sc_dispatch sc_prepared) = true
  ∧ (¬ dispatchable sc_prepared 51 Scenario.cash_out_id 51 (Scenario.sc_now + 2 * second) →
     DispatchPositionCashOutAttempt 0 sc_dispatch sc_prepared = Err ErrPositionCashOutClaim).
Proof.
  split; [vm_compute; reflexivity|].
  refine (proj1 (dispatch_spec 0 sc_dispatch sc_prepared 51 Scenario.cash_out_id 51 (uuid_string 51)
    (uuid_string Scenario.cash_out_id) (uuid_string 51) sc_prepared_inv _ _ _)); vm_compute; reflexivity.
Defined.
Lemma create_replay_witness :
  ∃ r c2, CreatePositionCashOut Scenario.sc_now Scenario.cash_out_id Scenario.create_req Scenario.db0 = Ok (Scenario.db1, r)
    ∧ c2 ∈ cash_outs Scenario.db2
    ∧ CreatePositionCashOut Scenario.sc_now 77 Scenario.create_req Scenario.db2
      = Ok (Scenario.db2, loadPositionCashOut c2 Scenario.db2)
    ∧ pco_id r = uuid_string (co_id c2) ∧ pco_intent_digest_sha256 r = ci_intent_digest_sha256 (co_intent c2).
Proof.
  destruct (after_ok (CreatePositionCashOut Scenario.sc_now Scenario.cash_out_id Scenario.create_req) Scenario.db0)
    as [r Hr]; [vm_compute; reflexivity|].
  assert (CreatePositionCashOut Scenario.sc_now Scenario.cash_out_id Scenario.create_req Scenario.db0
          = Ok (Scenario.db1, r)) as Hok by exact Hr.
  destruct (create_replay Scenario.sc_now Scenario.cash_out_id Scenario.create_req Scenario.db0 Scenario.db1 r
    Scenario.sc_now 77 Scenario.create_req Scenario.db2 (COInv_empty _) Hok (rtc_once _ _ sc_step2)) as (c2 & Hc2);
    try reflexivity; [intros p; eexists; reflexivity|].
  exists r, c2. split; [exact Hok|exact Hc2].
Defined.
Lemma expiry_spec_witness :
  ∃ db', ExpirePositionCashOuts (λ _, false) 0 (Scenario.sc_now + 301 * second) 100 Scenario.db1 = Ok (db', 1)
    ∧ 0 ≤ 1 ≤ 100 ∧ 0 < 100 ≤ maxPositionCashOutRecoveryLimit ∧ attempts db' = attempts Scenario.db1.
Proof.
  destruct (ExpirePositionCashOuts (λ _, false) 0 (Scenario.sc_now + 301 * second) 100 Scenario.db1)
    as [[db' n]|e] eqn:E; [|exfalso; revert E; vm_compute; discriminate].
  assert (n = 1) as ->.
  { apply (f_equal (λ r, match r with Ok x => snd x | Err _ => 0 end)) in E. revert E. vm_compute. intros <-. reflexivity. }
  destruct (expiry_spec (λ _, false) 0 (Scenario.sc_now + 301 * second) 100 Scenario.db1 db' 1
    (COInv_reachable _ sc_reachable1) E) as (H1 & H2 & H3 & _).
  exists db'. split; [reflexivity|]. split; [exact H1|]. split; [exact H2|exact H3].
Defined.
Lemma recoverable_claimable_witness :
  ∃ c db' r, ListRecoverablePositionCashOuts 0 (Scenario.sc_now + second) 100 Scenario.db2 = Ok [c]
    ∧ ClaimPositionCashOut 0 {| clq_cash_out_id := pco_id c; clq_claim_id := uuid_string 51;
        clq_worker_id := "worker"; clq_lease_expires_at := Scenario.sc_now + 60 * second;
        clq_now := Scenario.sc_now + 2 * second |} Scenario.db2 = Ok (db', r)
    ∧ pco_id r = pco_id c ∧ pco_claim_id r = uuid_string 51 ∧ pco_claim_owner r = "worker"%string
    ∧ pco_state r = (if bool_decide (pco_state c = PositionCashOutStateQueued) then PositionCashOutStatePreflighting
                     else pco_state c).
Proof.
  assert (∃ c, ListRecoverablePositionCashOuts 0 (Scenario.sc_now + second) 100 Scenario.db2 = Ok [c]
    ∧ pco_revision c < max_int64 ∧ pco_poll_count c ≤ max_int32 ∧ uuid_parse (trim_space (pco_id c)) ≠ Some 0%N)
    as (c & Hl & H1 & H2 & H3).
  { eexists. split; [vm_compute; reflexivity|]. split; [vm_compute; reflexivity|].
    split; [vm_compute; discriminate|vm_compute; discriminate]. }
  destruct (recoverable_claimable 0 (Scenario.sc_now + second) (Scenario.sc_now + 2 * second) 100 Scenario.db2 [c] c
    51 (uuid_string 51) (uuid_string 51) "worker" (Scenario.sc_now + 60 * second) sc_reachable2 Hl
    (proj2 (list_elem_of_singleton c c) eq_refl)) as (db' & r & H);
    [vm_compute; reflexivity|vm_compute; reflexivity|vm_compute; discriminate|vm_compute; reflexivity
    |vm_compute; discriminate|exact H1|exact H2|exact H3|].
  exists c, db', r. split; [exact Hl|exact H].
Defined.
