(* ===== verification/CashOutWorkerTheorems.v ===== *)
(** * Position cash-out: what one worker does

    The provider stages, the classification of outcomes, the behaviour of the worker on a
    cash-out whose Close was already dispatched, and on one whose position has become
    another one. *)

From S2P Require Import Prelude Prog Sql CashOutTypes CashOutStages CashOutStore CashOutInv CashOutWorker CashOutSystem CashOutScenario.
From stdpp Require Import base tactics option list list_numbers sorting strings gmap.
From Stdlib Require Import ZArith Lia Ascii.
#[local] Open Scope Z_scope.

Section Stages.
Context {SL : SolanaLib} {DR : DigestLib marginPositionCashOutProviderRequest}.

(** A prepared command is for an open position with a canonical identity, and
    its dispatch performs exactly one provider request: the Close of that position
    without a price, whose reply it normalizes. *)
Theorem prepared_command_closes {M : Type → Type} `{!MRet M, !MBind M, !MarginPositionCashOutClient M} t command :
  PrepareMarginPositionCashOut t = Ok command →
  tg_is_closed t = false ∧ tg_is_liquidated t = false ∧ canonical_public_key (tg_position_pubkey t) = true
  ∧ digestMarginPositionCashOutRequest {| rq_position_pubkey := tg_position_pubkey t; rq_price := None |}
    = Some (cmd_request_sha256 command)
  ∧ DispatchMarginPositionCashOut command
    = (res ← CloseMarginPosition (tg_position_pubkey t) None;
       let obs := normalizeMarginPositionCashOutResult res.1 (tg_position_pubkey t) in
       mret (obs.1, errors_join res.2 obs.2)).
Proof.
  unfold PrepareMarginPositionCashOut. intros Hok. apply result_bind_ok in Hok as (u & Hval & Hok).
  apply result_bind_ok in Hok as (u1 & Hli%require_ok & Hok). apply result_bind_ok in Hok as (u2 & Hcl%require_ok & Hok).
  cbv zeta in Hok. apply result_bind_ok in Hok as (digest & Hdig%of_option_ok & Hok). injection Hok as <-. cbn.
  apply negb_true_iff in Hli, Hcl. split_and!; [done|done| |done|].
  - unfold validateMarginPositionCashOutTarget, validateCanonicalMarginPositionCashOutPublicKey in Hval. by tx_inv.
  - unfold DispatchMarginPositionCashOut, dispatch_guard. cbn. rewrite Hval, Hli, Hcl. cbn.
    rewrite (bool_decide_eq_true_2 (tg_position_pubkey t = _)) by done.
    cbn. by rewrite Hdig, bool_decide_eq_true_2 by done.
Qed.

(** A reported outcome of a Close is classified as an explicit rejection
    exactly when the error carries a provider error without an HTTP status or with
    a 4xx status other than 408 and 429; without an error there is nothing to
    report; in every other case the outcome stays unknown. *)
Theorem dispatch_classification err :
  (md_explicitly_rejected (classifyPositionCashOutDispatch err) = true ↔
   ∃ e w, err = Some e ∧ as_worm_error e = Some w
     ∧ (we_status_code w = 0 ∨ (400 ≤ we_status_code w < 500 ∧ we_status_code w ≠ 408 ∧ we_status_code w ≠ 429)))
  ∧ (md_error_code (classifyPositionCashOutDispatch err) = EmptyString ↔ err = None).
Proof.
  split.
  - destruct err as [e|]; cbn; [|split; [done|by intros (? & ? & ? & _)]].
    destruct (as_worm_error e) as [w|] eqn:E; cbn; [|split; [done|intros (? & ? & [= <-] & ? & _); congruence]].
    split.
    + intros Hr. exists e, w. split_and!; [done|done|]. bool_prop. destruct Hr as [?|?]; bool_prop; [by left|right]. lia.
    + intros (e' & w' & [= <-] & Hw & Hs). rewrite E in Hw. injection Hw as <-.
      rewrite orb_true_iff, !andb_true_iff, !negb_true_iff, Z.eqb_eq, Z.leb_le, Z.ltb_lt, !Z.eqb_neq. lia.
  - destruct err as [e|]; [|done]. split; [|done]. intros Hc. exfalso. revert Hc.
    assert (classifyWormError (Some e) ≠ EmptyString) as Hne.
    { unfold classifyWormError. repeat case_match; done. }
    revert Hne. unfold classifyPositionCashOutDispatch. generalize (classifyWormError (Some e)). intros code Hne.
    by destruct (as_worm_error e).
Qed.

(** ** Identity drift *)
Abbreviation worker_event := {o : op & resp o}.
Definition is_get (e : worker_event) : bool := match projT1 e with OpGet _ _ => true | _ => false end.
(** What only reads: the clock, the connection, its keys, the client and the exact GET. *)
Definition reads_only (e : worker_event) : bool :=
  match projT1 e with OpNow | OpSnapshot _ _ | OpDecrypt _ _ _ | OpNewClient _ _ | OpGet _ _ => true | _ => false end.
(** The reply shows the position of another market, side, creation time or request key. *)
Definition drifted (c : PositionCashOut) (position : option MarginPosition) (e : go_error) : Prop :=
  ∃ observed, InspectMarginPositionCashOutTarget position = (observed, None)
    ∧ validateMarginPositionCashOutIdentity (positionCashOutFrozenTarget c) observed = Err e.
(** A drift carries neither a provider error nor a text that marks an invalid response. *)
Lemma drift_class expected observed e : validateMarginPositionCashOutIdentity expected observed = Err e →
  classifyWormError (Some e) = wormErrorUnavailable ∧ isWormNotFoundError (Some e) = false.
Proof.
  intros He. unfold validateMarginPositionCashOutIdentity in He. cbv zeta in He. revert He.
  repeat match goal with |- (require ?b _ ≫= _) = _ → _ => destruct b; cbn [require mbind result_bind];
    [|intros [= <-]; split; vm_compute; reflexivity] end.
  match goal with |- require ?b _ = _ → _ => destruct b; cbn [require] end; [done|].
  intros [= <-]. split; vm_compute; reflexivity.
Qed.
Lemma client_reads c log r : runs (positionCashOutClient c) log r → Forall (λ e, is_get e = false ∧ reads_only e = true) log.
Proof.
  intros H. unfold positionCashOutClient in H. apply runs_bind in H as (l1 & snapshot & l2 & -> & Hc & H). pose proof (runs_call (OpSnapshot _ _) _ snapshot Hc) as ->. clear Hc.
  apply Forall_app. split; [by repeat constructor|]. destruct snapshot as [s|]; [|by destruct H as [-> _]]. destruct (sn_active_credential s) as [k|]; [|by destruct H as [-> _]].
  destruct (_ || _) in H; [by destruct H as [-> _]|]. apply runs_bind in H as (l3 & keys & l4 & -> & Hc & H). pose proof (runs_call (OpDecrypt _ _ _) _ keys Hc) as ->. clear Hc.
  apply Forall_app. split; [by repeat constructor|]. destruct keys as [[a b]|]; [|by destruct H as [-> _]].
  apply runs_bind in H as (l5 & err & l6 & -> & Hc & H). pose proof (runs_call (OpNewClient _ _) _ err Hc) as ->. clear Hc. destruct H as [-> _]. by repeat constructor.
Qed.
Lemma record_gets_nothing c claim next reason ps t np log r : runs (recordPositionCashOutState c claim next reason ps t np) log r → Forall (λ e, is_get e = false) log.
Proof.
  intros H. unfold recordPositionCashOutState in H. apply runs_bind in H as (l1 & now & l2 & -> & Hc & H). pose proof (runs_call OpNow _ now Hc) as ->. clear Hc.
  apply runs_bind in H as (l3 & res & l4 & -> & Hc & H). pose proof (runs_call (OpRecord _) _ res Hc) as ->. clear Hc. destruct H as [-> _]. by repeat constructor.
Qed.
Lemma preflight_gets_nothing c claim credential e log r : runs (handlePositionCashOutPreflightError c claim credential e) log r → Forall (λ e, is_get e = false) log.
Proof.
  unfold handlePositionCashOutPreflightError. intros H. destruct (isWormAuthenticationError _).
  { apply runs_bind in H as (l1 & u & l2 & -> & Hc & H). pose proof (runs_call (OpMarkReconnect _ _ _) _ u Hc) as ->. apply Forall_app.
    split; [by repeat constructor|by eapply record_gets_nothing]. }
  destruct (isWormNotFoundError _); [by eapply record_gets_nothing|]. destruct (isTemporaryWormErrorCode _); [by destruct H as [-> _]|by eapply record_gets_nothing].
Qed.
Lemma reconciliation_gets_nothing c claim reason ps t log r : runs (recordPositionCashOutReconciliation c claim reason ps t) log r → Forall (λ e, is_get e = false) log.
Proof.
  unfold recordPositionCashOutReconciliation. intros (l1 & now & l2 & -> & Hn & H)%runs_bind. pose proof (runs_call OpNow _ now Hn) as ->.
  apply Forall_app. split; [by repeat constructor|by eapply record_gets_nothing].
Qed.
Lemma reconcile_gets_nothing c claim credential e reason log r :
  runs (_ ← (if isWormAuthenticationError (Some e) then call (OpMarkReconnect (pco_wallet_id c) (pco_wallet_address c) credential) else mret tt);
        recordPositionCashOutReconciliation c claim reason "" (positionCashOutFrozenTarget c)) log r → Forall (λ e, is_get e = false) log.
Proof.
  intros (l1 & u & l2 & -> & Hc & H)%runs_bind. apply Forall_app. split; [|by eapply reconciliation_gets_nothing]. destruct (isWormAuthenticationError _); [|by destruct Hc as [-> _]].
  pose proof (runs_call (OpMarkReconnect _ _ _) _ u Hc) as ->. by repeat constructor.
Qed.
(** The first GET of a log. *)
Lemma first_get (l1 before l3 after : list worker_event) g g' : Forall (λ e, is_get e = false) l1 → Forall (λ e, is_get e = false) before →
  is_get g = true → is_get g' = true → l1 ++ g :: l3 = before ++ g' :: after → l1 = before ∧ g = g' ∧ l3 = after.
Proof.
  revert before. induction l1 as [|e l1 IH]; intros [|e' before] H1 H2 Hg Hg' E; cbn in E.
  - by injection E as -> ->.
  - injection E as -> _. apply Forall_cons in H2 as [H2 _]. congruence.
  - injection E as -> _. apply Forall_cons in H1 as [H1 _]. congruence.
  - injection E as -> E. apply Forall_cons in H1 as [_ H1]. apply Forall_cons in H2 as [_ H2]. destruct (IH before H1 H2 Hg Hg' E) as (-> & -> & ->). done.
Qed.
Lemma no_get_in (l before after : list worker_event) g : Forall (λ e, is_get e = false) l → is_get g = true → l ≠ before ++ g :: after.
Proof. intros Hl Hg ->. apply Forall_app in Hl as [_ [Hl _]%Forall_cons]. congruence. Qed.
(** An observation is one GET, or none when the frozen target is malformed. *)
Lemma observe_run client c (log : list worker_event) r : runs (observePositionCashOut client c) log r →
  (log = [] ∧ ∃ e, r = (empty_target, Some e))
  ∨ ∃ reply, log = [existT (OpGet client (pco_position_pubkey c)) reply] ∧ ∀ position e, reply = (position, None) → drifted c position e → r.2 = Some e.
Proof.
  intros H. unfold observePositionCashOut, ObserveMarginPositionCashOut in H. destruct (validateMarginPositionCashOutTarget _) as [[]|e]; [right|left; destruct H as [-> ->]; by eauto].
  apply runs_bind in H as (l1 & reply & l2 & -> & Hc & H). cbn [GetMarginPosition prog_client] in Hc. pose proof (runs_call (OpGet _ _) _ reply Hc) as ->. clear Hc.
  exists reply. assert (l2 = []) as ->.
  { destruct (reply.2); [by destruct H as [-> _]|]. destruct (InspectMarginPositionCashOutTarget _) as [t [e|]]; [by destruct H as [-> _]|].
    destruct (validateMarginPositionCashOutIdentity _ _); by destruct H as [-> _]. }
  split; [done|]. intros position e -> (observed & Hi & Hv). cbn [fst snd] in H. rewrite Hi, Hv in H. by destruct H as [_ ->].
Qed.
Definition before_dispatch (c : PositionCashOut) : bool :=
  bool_decide (pco_state c = PositionCashOutStatePreflighting)
  || (bool_decide (pco_state c = PositionCashOutStateClosing) && negb (mutation_dispatched c)).
(** The one write after a drift: the outcome of the Close stays unknown. *)
Definition drift_record (c : PositionCashOut) (claimID : string) (now nextPollAt : Z) : RecordPositionCashOutObservationRequest := {|
  oq_cash_out_id := pco_id c; oq_claim_id := claimID; oq_expected_state := pco_state c; oq_next_state := PositionCashOutStateReconciliationRequired;
  oq_reason_code := positionCashOutReasonCloseUnknown; oq_provider_state := ""; oq_provider_is_closed := pco_provider_is_closed c;
  oq_provider_is_liquidated := pco_provider_is_liquidated c; oq_next_poll_at := nextPollAt; oq_now := now |}.
Lemma drift_reconciliation c claim log r : runs (recordPositionCashOutReconciliation c claim positionCashOutReasonCloseUnknown "" (positionCashOutFrozenTarget c)) log r →
  ∃ polled now reply, log = [existT OpNow polled; existT OpNow now; existT (OpRecord (drift_record c claim now (polled + positionCashOutPendingPoll))) reply].
Proof.
  intros H. unfold recordPositionCashOutReconciliation, recordPositionCashOutState in H.
  apply runs_bind in H as (l1 & polled & l2 & -> & Hc & H). pose proof (runs_call OpNow _ polled Hc) as ->. clear Hc.
  apply runs_bind in H as (l3 & now & l4 & -> & Hc & H). pose proof (runs_call OpNow _ now Hc) as ->. clear Hc.
  apply runs_bind in H as (l5 & reply & l6 & -> & Hc & H). pose proof (runs_call (OpRecord _) _ reply Hc) as ->. clear Hc. destruct H as [-> _]. by exists polled, now, reply.
Qed.
Lemma drift_handled c claim credential e : (∃ observed, validateMarginPositionCashOutIdentity (positionCashOutFrozenTarget c) observed = Err e) →
  handlePositionCashOutPreflightError c claim credential e = Ret (Some (WorkerError e)).
Proof.
  intros [observed [H1 H2]%drift_class]. unfold handlePositionCashOutPreflightError, isWormAuthenticationError. by rewrite H1, H2.
Qed.

(** C29: When the first exact GET of a claimed cash-out shows a position whose market, side,
    creation time or request key differs from the frozen intent, the worker sends no Close.
    Before a Close was dispatched it performs nothing after that GET and only reads before it, so
    the cash-out is left as it was claimed, and returns the drift as an error that is classified
    like an unreachable provider; after a dispatch its one write records that the outcome of
    the Close is unknown and has to be reconciled. *)
Theorem identity_drift_stops c claim log r before client key position e after :
  runs (processClaimedPositionCashOut (Some c) claim) log r →
  log = before ++ existT (OpGet client key) (position, None) :: after → Forall (λ e, is_get e = false) before → drifted c position e →
  Forall (λ e, reads_only e = true) before
  ∧ if before_dispatch c then after = [] ∧ r = Some (WorkerError e) ∧ classifyWormError (Some e) = wormErrorUnavailable
    else ∃ polled now reply, after = [existT OpNow polled; existT OpNow now; existT (OpRecord (drift_record c claim now (polled + positionCashOutPendingPoll))) reply].
Proof.
  intros H E Hb Hd. assert (∃ observed, validateMarginPositionCashOutIdentity (positionCashOutFrozenTarget c) observed = Err e) as Hv by (destruct Hd as (o & _ & ?); eauto).
  pose proof Hv as [observed Hcl]. apply drift_class in Hcl as [C1 C2].
  unfold processClaimedPositionCashOut in H. apply runs_bind in H as (l1 & cl & l2 & -> & Hc & H). apply client_reads in Hc.
  assert (Forall (λ e, is_get e = false) l1) as Hg by (eapply Forall_impl; [exact Hc|by intros x [? _]]).
  destruct cl as [[cli|] credential].
  2:{ exfalso. revert E. apply no_get_in; [|done]. apply Forall_app. split; [done|].
      destruct (mutation_dispatched c); [by eapply reconciliation_gets_nothing|by eapply record_gets_nothing]. }
  assert (∀ k : MarginPositionCashOutTarget * option go_error → prog (option worker_error),
    (∀ obs x l, runs (k (obs, Some x)) l r → Forall (λ e, is_get e = false) l) →
    runs (observePositionCashOut cli c ≫= k) l2 r → l1 = before ∧ ∃ obs, runs (k (obs, Some e)) after r) as Hobs.
  { intros k Hk (m1 & [obs err] & m2 & -> & Ho & Hr)%runs_bind. apply observe_run in Ho as [[-> [x [= -> ->]]]|(reply & -> & Hreply)].
    - exfalso. revert E. apply no_get_in; [|done]. apply Forall_app. split; [done|]. by eapply Hk.
    - destruct (first_get l1 before m2 after (existT (OpGet cli (pco_position_pubkey c)) reply) (existT (OpGet client key) (position, None)) Hg Hb eq_refl eq_refl E) as (-> & Hrep & <-). split; [done|]. exists obs.
      apply (f_equal (λ e : worker_event, match e with existT (OpGet _ _) r => Some r | _ => None end)) in Hrep. injection Hrep as ->.
      specialize (Hreply _ _ eq_refl Hd). cbn in Hreply. by subst err. }
  assert (∀ l, runs (handlePositionCashOutPreflightError c claim credential e) l r → l = [] ∧ r = Some (WorkerError e)) as Hhandle.
  { intros l. rewrite (drift_handled _ _ _ _ Hv). by intros [-> ->]. }
  unfold before_dispatch. destruct (bool_decide (pco_state c = PositionCashOutStatePreflighting)); cbn [orb].
  { apply Hobs in H as (-> & obs & H); [|intros obs x l; apply preflight_gets_nothing]. apply Hhandle in H as [-> ->]. split; [|done]. eapply Forall_impl; [exact Hc|by intros x [_ ?]]. }
  destruct (bool_decide (pco_state c = PositionCashOutStateClosing) && negb (mutation_dispatched c)).
  { apply Hobs in H as (-> & obs & H); [|intros obs x l; apply preflight_gets_nothing]. apply Hhandle in H as [-> ->]. split; [|done]. eapply Forall_impl; [exact Hc|by intros x [_ ?]]. }
  apply Hobs in H as (-> & obs & H); [|intros obs x l; apply reconcile_gets_nothing]. split; [eapply Forall_impl; [exact Hc|by intros x [_ ?]]|].
  unfold isWormAuthenticationError in H. rewrite C1, C2 in H. cbn [mbind prog_bind mret prog_ret prog_bind_go bool_decide] in H. by apply drift_reconciliation in H.
Qed.

(** ** A dispatched Close *)
Definition resolving_only (c : PositionCashOut) (_ : unit) (o : op) : Prop :=
  match o with
  | OpClose _ _ _ _ | OpDispatch _ | OpDispatchBatch _ | OpPrepare _ | OpBeginClosing _ | OpComplete _ | OpResolve _ => False
  | OpRecord req =>
      oq_cash_out_id req = pco_id c ∧ oq_expected_state req = pco_state c
      ∧ (oq_next_state req = PositionCashOutStateFailed →
           oq_provider_is_liquidated req = true ∨ attempt_is c PositionCashOutAttemptStateRejected = true)
      ∧ (oq_next_state req = PositionCashOutStateCompleted →
           oq_provider_is_closed req = true ∧ oq_provider_is_liquidated req = false)
  | _ => True
  end.
Definition unit_next (_ : unit) (o : op) (_ : resp o) : unit := tt.
Definition resolves {A} (c : PositionCashOut) (p : prog A) : Prop :=
  obeys unit_next (resolving_only c) (λ _ _, True) tt p (λ _ _, True).

Lemma resolves_record c claim next reason ps t np :
  (next = PositionCashOutStateFailed → tg_is_liquidated t = true ∨ attempt_is c PositionCashOutAttemptStateRejected = true) →
  (next = PositionCashOutStateCompleted → tg_is_closed t = true ∧ tg_is_liquidated t = false) →
  resolves c (recordPositionCashOutState c claim next reason ps t np).
Proof. intros H1 H2. unfold resolves, recordPositionCashOutState. obey_with ltac:(first [exact I|done]). done. Qed.
Lemma resolves_reconciliation c claim reason ps t :
  resolves c (recordPositionCashOutReconciliation c claim reason ps t).
Proof.
  unfold resolves, recordPositionCashOutReconciliation. obey_with ltac:(exact I). by apply resolves_record.
Qed.
Lemma resolves_reconcile client c claim cred :
  mutation_dispatched c = true → resolves c (reconcileClaimedPositionCashOut client c claim cred).
Proof.
  intros Hd. unfold resolves, reconcileClaimedPositionCashOut, observePositionCashOut, ObserveMarginPositionCashOut.
  cbn [GetMarginPosition prog_client].
  assert (positionCashOutBatchMutationNotDispatched c = false) as Hb
    by (unfold positionCashOutBatchMutationNotDispatched; rewrite Hd; apply andb_false_r).
  rewrite Hb. obey_with ltac:(exact I);
    first [apply resolves_reconciliation|apply resolves_record; auto; done].
Qed.

(** Once a Close was dispatched for a claimed cash-out, the worker never sends
    or dispatches another one: whatever it is replied, it only observes and
    records, and it records FAILED only when the position was liquidated or the
    Close was explicitly rejected, COMPLETED only when the position is closed and
    not liquidated. *)
Theorem dispatched_only_resolved c claim :
  mutation_dispatched c = true → pco_state c ≠ PositionCashOutStatePreflighting →
  resolves c (processClaimedPositionCashOut (Some c) claim).
Proof.
  intros Hd Hs. unfold resolves, processClaimedPositionCashOut, positionCashOutClient. rewrite Hd.
  rewrite (bool_decide_eq_false_2 (pco_state c = PositionCashOutStatePreflighting)) by done. rewrite andb_false_r.
  obey_with ltac:(exact I); first [done|apply resolves_reconciliation|by apply resolves_reconcile].
Qed.
End Stages.

(** ** Atomic amounts *)
Definition digit_step (acc : option Z) (a : ascii) : option Z :=
  v ← acc; if is_digit a then Some (10 * v + (Z.of_N (N_of_ascii a) - 48)) else None.
Lemma digit_char n : 0 ≤ n < 10 → N_of_ascii (ascii_of_N (Z.to_N (48 + n))) = Z.to_N (48 + n).
Proof. intros. apply N_ascii_embedding. lia. Qed.
Lemma is_digit_char n : 0 ≤ n < 10 → is_digit (ascii_of_N (Z.to_N (48 + n))) = true.
Proof. intros. unfold is_digit. rewrite digit_char by done. rewrite andb_true_iff, !N.leb_le. lia. Qed.

(** The digits that [digits_loop] puts in front of its accumulator. *)
Lemma digits_loop_spec fuel n acc :
  (0 < fuel)%nat → 0 ≤ n < 10 ^ Z.of_nat fuel →
  ∃ d ds, String.list_ascii_of_string (digits_loop fuel n acc) = (d :: ds) ++ String.list_ascii_of_string acc
    ∧ Forall (λ a, is_digit a = true) (d :: ds)
    ∧ (∀ v, foldl digit_step (Some v) (d :: ds) = Some (v * 10 ^ Z.of_nat (length (d :: ds)) + n))
    ∧ (N_of_ascii d = 48%N → ds = [] ∧ n = 0).
Proof.
  revert n acc. induction fuel as [|fuel IH]; intros n acc Hf Hn; [lia|]. cbn [digits_loop].
  pose proof (Z.mod_pos_bound n 10 ltac:(lia)) as Hm. pose proof (Z.div_mod n 10 ltac:(lia)) as Hdm.
  set (a := ascii_of_N (Z.to_N (48 + n mod 10))).
  assert (is_digit a = true) as Ha by (by apply is_digit_char).
  assert (N_of_ascii a = Z.to_N (48 + n mod 10)) as Hav by (by apply digit_char).
  assert (∀ v, digit_step (Some v) a = Some (10 * v + n mod 10)) as Hstep.
  { intros v. unfold digit_step. cbn. rewrite Ha, Hav. f_equal. lia. }
  destruct (Z.ltb_spec n 10) as [Hlt|Hge].
  - exists a, []. split_and!; [done|by constructor| |].
    + intros v. cbn [foldl]. rewrite Hstep. cbn [length]. f_equal. lia.
    + intros Hz. split; [done|]. lia.
  - assert (0 ≤ n / 10 < 10 ^ Z.of_nat fuel) as Hq.
    { rewrite Nat2Z.inj_succ, Z.pow_succ_r in Hn by lia. lia. }
    assert (0 < fuel)%nat as Hf'. { destruct fuel; [cbn in Hq; lia|lia]. }
    destruct (IH (n / 10) (String a acc) Hf' Hq) as (d & ds & Hl & Hall & Hv & Hz).
    exists d, (ds ++ [a]). split_and!.
    + rewrite Hl. cbn. by rewrite <- app_assoc.
    + change (d :: ds ++ [a]) with ((d :: ds) ++ [a]). apply Forall_app. auto.
    + intros v. change (d :: ds ++ [a]) with ((d :: ds) ++ [a]). rewrite foldl_app, Hv. cbn [foldl]. rewrite Hstep.
      rewrite length_app. cbn [length]. f_equal. replace (Z.of_nat (S (length ds) + 1)) with (Z.succ (Z.of_nat (S (length ds)))) by lia.
      rewrite Z.pow_succ_r by lia. lia.
    + intros Hd. destruct (Hz Hd) as [_ Hz']. lia.
Qed.

Lemma decimal_text_spec z :
  0 ≤ z → ∃ d ds, String.list_ascii_of_string (decimal_text z) = d :: ds
    ∧ Forall (λ a, is_digit a = true) (d :: ds) ∧ foldl digit_step (Some 0) (d :: ds) = Some z
    ∧ (N_of_ascii d = 48%N → ds = []).
Proof.
  intros Hz. unfold decimal_text. rewrite (proj2 (Z.ltb_ge z 0)) by lia.
  destruct (digits_loop_spec (S (Z.to_nat (Z.log2 z))) z "") as (d & ds & Hl & Hall & Hv & H0).
  - lia.
  - split; [done|]. destruct (Z.eq_dec z 0) as [->|Hnz]; [done|].
    pose proof (Z.log2_spec z ltac:(lia)) as [_ Hlt]. pose proof (Z.log2_nonneg z).
    rewrite Nat2Z.inj_succ, Z2Nat.id by lia. eapply Z.lt_le_trans; [exact Hlt|]. apply Z.pow_le_mono_l. lia.
  - exists d, ds. rewrite Hl, app_nil_r. split_and!; [done|done|by rewrite Hv|by intros E%H0; destruct E].
Qed.
Lemma digit_printable a : is_digit a = true → printable a.
Proof. unfold is_digit, printable. rewrite andb_true_iff, !N.leb_le. lia. Qed.
Lemma digit_no_sign a : is_digit a = true → (N_of_ascii a =? 45)%N = false ∧ (N_of_ascii a =? 43)%N = false.
Proof. unfold is_digit. rewrite andb_true_iff, !N.leb_le, !N.eqb_neq. lia. Qed.

(** An atomic amount is accepted, unchanged, exactly when it is the canonical
    decimal text of a non-negative integer: no sign, no leading zero, no space. *)
Theorem atomic_amount_spec raw v :
  canonicalNonNegativeAtomicAmount raw = Some v ↔ v = raw ∧ ∃ z, 0 ≤ z ∧ raw = decimal_text z.
Proof.
  unfold canonicalNonNegativeAtomicAmount. cbv zeta. split.
  - repeat case_match; intros; simplify_eq; bool_prop. split; [done|]. eexists; split; [eassumption|congruence].
  - intros (-> & z & Hz & Hraw). destruct (decimal_text_spec z Hz) as (d & ds & Hl & Hall & Hv & H0).
    rewrite <- Hraw in Hl. assert (printable_text raw) as Hp.
    { unfold printable_text. rewrite Hl. eapply Forall_impl; [exact Hall|apply digit_printable]. }
    rewrite (trim_space_printable raw Hp). destruct raw as [|a s]; [done|]. cbn in Hl. injection Hl as -> Hds.
    assert (leading_zero (String d s) && (1 <? String.length (String d s))%nat = false) as Hlead.
    { cbn [leading_zero]. destruct (N.eqb_spec (N_of_ascii d) 48) as [E|]; [|done]. rewrite (H0 E) in Hds.
      by destruct s. }
    rewrite andb_comm in Hlead. rewrite Hlead.
    rewrite (bool_decide_eq_false_2 (String d s = EmptyString)), (bool_decide_eq_true_2 (String d s = String d s)) by done.
    cbn [negb orb]. apply Forall_cons in Hall as [Hd Hall]. destruct (digit_no_sign d Hd) as [E1 E2].
    assert (big_int_of_string (String d s) = Some z) as ->.
    { unfold big_int_of_string. rewrite E1, E2. unfold digits_value. rewrite bool_decide_eq_false_2 by done.
      change (foldl digit_step (Some 0) (String.list_ascii_of_string (String d s)) = Some z). cbn [String.list_ascii_of_string].
      by rewrite Hds. }
    rewrite <- Hraw, (bool_decide_eq_true_2 (String d s = String d s)), (proj2 (Z.ltb_ge z 0)) by (done || lia).
    reflexivity.
Qed.

(** ** Witnesses *)
Import Prelude.Concrete.
Definition sc_target : MarginPositionCashOutTarget := {|
  tg_position_pubkey := Scenario.position_key; tg_position_request_pubkey := None;
  tg_market_condition_id := Scenario.market_key; tg_is_yes := true; tg_created_at := 63800000000 - 62135596800;
  tg_total_shares := "12.5"; tg_is_closed := false; tg_is_liquidated := false |}.
Definition sc_command : MarginPositionCashOutCommand := {|
  cmd_target := sc_target; cmd_request := {| rq_position_pubkey := Scenario.position_key; rq_price := None |};
  cmd_request_sha256 := digest_text ["close"%string; Scenario.position_key] |}.
(** The cash-out of the concrete run as the database holds it after some steps. *)
Definition sc_loaded (fuel : nat) : option PositionCashOut :=
  let db := sys_db (drive Scenario.world fuel Scenario.pass (Scenario.with_pass Scenario.db2)) in
  (λ row, loadPositionCashOut row db) <$> head (cash_outs db).

Lemma prepared_command_closes_witness :
  let client := prog_client {| wa_key := "k"; wa_secret := "s" |} in
  ∃ cashOut, sc_loaded 19 = Some cashOut
  ∧ PrepareMarginPositionCashOut sc_target = Ok sc_command
  ∧ tg_is_closed sc_target = false ∧ tg_is_liquidated sc_target = false
  ∧ canonical_public_key (tg_position_pubkey sc_target) = true
  ∧ digestMarginPositionCashOutRequest {| rq_position_pubkey := tg_position_pubkey sc_target; rq_price := None |}
    = Some (cmd_request_sha256 sc_command)
  ∧ @DispatchMarginPositionCashOut _ _ prog _ _ (client cashOut) sc_command
    = (res ← @CloseMarginPosition _ (client cashOut) (tg_position_pubkey sc_target) None;
       let obs := normalizeMarginPositionCashOutResult res.1 (tg_position_pubkey sc_target) in
       mret (obs.1, errors_join res.2 obs.2)).
Proof.
  intros client. destruct (sc_loaded 19) as [c|] eqn:E; [|exfalso; revert E; vm_compute; discriminate].
  assert (PrepareMarginPositionCashOut sc_target = Ok sc_command) as Hp by (vm_compute; reflexivity).
  exists c. split; [reflexivity|]. split; [exact Hp|].
  exact (@prepared_command_closes _ _ prog _ _ (client c) sc_target sc_command Hp).
Defined.
(** The provider shows the position in another market. *)
Definition drifted_position : option MarginPosition := Some {|
  mp_pubkey := Scenario.position_key; mp_position_request_pubkey := None; mp_market_condition_id := public_key_string 8; mp_is_yes := true;
  mp_total_shares := "12.5"; mp_is_closed := false; mp_is_liquidated := false; mp_created := Some (63800000000 - 62135596800) |}.
Definition drift_world : oracle := {|
  or_now := or_now Scenario.world; or_uuid := or_uuid Scenario.world; or_snapshot := or_snapshot Scenario.world;
  or_get := (drifted_position, None); or_close := or_close Scenario.world |}.
Definition drift_client : WormAPIClient := {| wa_key := "key"; wa_secret := "secret" |}.
Definition drift_pass (c : PositionCashOut) := processClaimedPositionCashOut (Some c) (uuid_string 51).
Definition drift_log (c : PositionCashOut) := logged (exec_op drift_world) (drift_pass c) Scenario.db2.
Definition market_drift : go_error := ErrorText "Worm margin position market changed during Cash Out observation".
Lemma identity_drift_stops_witness : ∃ c, sc_loaded 9 = Some c ∧ before_dispatch c = true ∧ length (drift_log c) = 4%nat
  ∧ (Prog.drive (exec_op drift_world) (drift_pass c) Scenario.db2).2 = Some (WorkerError market_drift).
Proof.
  eexists. split; [vm_compute; reflexivity|]. split; [vm_compute; reflexivity|]. split; [vm_compute; reflexivity|].
  match goal with |- (Prog.drive _ (drift_pass ?x) _).2 = _ => set (c := x) end.
  assert (∃ before, drift_log c = before ++ [existT (OpGet drift_client Scenario.position_key) (drifted_position, None)] ∧ Forall (λ e, is_get e = false) before) as (before & E & Hb).
  { exists (take 3 (drift_log c)). split; [vm_compute; reflexivity|vm_compute; repeat constructor]. }
  assert (drifted c drifted_position market_drift) as Hd by (eexists; split; vm_compute; reflexivity).
  destruct (identity_drift_stops c (uuid_string 51) (drift_log c) _ before drift_client Scenario.position_key drifted_position market_drift []
    (drive_runs (exec_op drift_world) (drift_pass c) Scenario.db2) E Hb Hd) as [_ H].
  assert (before_dispatch c = true) as Hs by (vm_compute; reflexivity). rewrite Hs in H. exact (proj1 (proj2 H)).
Defined.
Lemma dispatched_only_resolved_witness :
  ∃ cashOut, sc_loaded 21 = Some cashOut ∧ mutation_dispatched cashOut = true
  ∧ resolves cashOut (processClaimedPositionCashOut (Some cashOut) (uuid_string 52)).
Proof.
  assert (∃ c, sc_loaded 21 = Some c ∧ mutation_dispatched c = true ∧ pco_state c ≠ PositionCashOutStatePreflighting)
    as (c & H1 & H2 & H3).
  { eexists. split; [vm_compute; reflexivity|]. split; [vm_compute; reflexivity|vm_compute; discriminate]. }
  exists c. split; [exact H1|]. split; [exact H2|]. exact (dispatched_only_resolved c (uuid_string 52) H2 H3).
Defined.
