(* ===== verification/Access.v ===== *)
(** * Account access: aggregates and requirements

    [internal/accountaccess/access.go].  A module and an access level are strings,
    as in the source, so unknown ones exist; the module matrix is a finite map.
    Loops that range over a Go map visit it in no fixed order, so an error they
    return does not name the entry it was found at.  The specification of validity
    is [valid_access]; of authorization, [grants]. *)

From S2P Require Import Prelude.
From stdpp Require Import base tactics option list list_numbers sorting strings gmap fin_maps.
From Stdlib Require Import ZArith Lia Ascii.
#[local] Open Scope Z_scope.

Abbreviation Module := string (only parsing).
Abbreviation AccessLevel := string (only parsing).

Definition allModules : list Module :=
  ["market_radar"; "sports_live"; "sports_history"; "managed_oo"; "worm_markets"; "worm_trading";
   "world_cup_corners"; "token"; "wallet"]%string.
Definition AllModules : list Module := allModules.
Definition AccessLevelNone : AccessLevel := "none".
Definition AccessLevelRead : AccessLevel := "read".
Definition AccessLevelReadWrite : AccessLevel := "read_write".

Definition MaxAccessLevel (module : Module) : option AccessLevel :=
  if bool_decide (module ∈ ["market_radar"; "sports_live"; "worm_markets"; "world_cup_corners"]%string)
  then Some AccessLevelRead
  else if bool_decide (module ∈ ["sports_history"; "managed_oo"; "worm_trading"; "token"; "wallet"]%string)
  then Some AccessLevelReadWrite
  else None.

Definition NoModuleAccess : gmap Module AccessLevel :=
  list_to_map ((λ m, (m, AccessLevelNone)) <$> allModules).
Definition MaximumModuleAccess : gmap Module AccessLevel :=
  list_to_map ((λ m, (m, default EmptyString (MaxAccessLevel m))) <$> allModules).

(** [Revision] is a [uint64]. *)
Record Access := {
  Administrator : bool; LoginEnabled : bool; APIKeyEnabled : bool; ProfitSharingEnabled : bool;
  Modules : gmap Module AccessLevel; Revision : Z }.

Inductive AccessError :=
| AccessModuleCount | AccessModuleUnsupported | AccessModuleMissing (module : Module)
| AccessReadWriteUnsupported (module : Module) | AccessLevelUnsupported (module : Module) (level : AccessLevel)
| AdministratorFlagsFixed | AdministratorModuleAccess
| RequirementInvalid | ModuleAccessMissing
| ErrAdministratorAccessDenied | ErrProfitSharingAccessDenied
| ModuleAccessDenied (module : Module) (required effective : AccessLevel)
| AccountNotFound | RevisionMismatch | RevisionOutOfRange | AdministratorAccessFixed | ErrRevisionConflict
| PersistedRevisionInvalid | PersistedAccessInvalid (e : AccessError) | RevisionNotIncremented
| StoreFailure (what : string).

Definition HasBusinessAccess (a : Access) : bool :=
  ProfitSharingEnabled a
  || existsb (λ kv, negb (bool_decide (kv.2 = AccessLevelNone))) (map_to_list (Modules a)).
Definition IsPending (a : Access) : bool := negb (Administrator a) && LoginEnabled a && negb (HasBusinessAccess a).

(** The copy shares no map with its source; as a value it is the same. *)
Definition Clone (a : Access) : Access := {|
  Administrator := Administrator a; LoginEnabled := LoginEnabled a; APIKeyEnabled := APIKeyEnabled a;
  ProfitSharingEnabled := ProfitSharingEnabled a; Modules := Modules a; Revision := Revision a |}.

Definition validateModuleAccessLevel (module : Module) (level : AccessLevel) : result AccessError unit :=
  match MaxAccessLevel module with
  | None => Err AccessModuleUnsupported
  | Some maximum =>
      if bool_decide (level = AccessLevelNone) || bool_decide (level = AccessLevelRead) then Ok tt
      else if bool_decide (level = AccessLevelReadWrite) then
        require (bool_decide (maximum = AccessLevelReadWrite)) (AccessReadWriteUnsupported module)
      else Err (AccessLevelUnsupported module level)
  end.

Fixpoint validate_modules (modules : list Module) (levels : gmap Module AccessLevel) : result AccessError unit :=
  match modules with
  | [] => Ok tt
  | module :: modules' =>
      level ← of_option (levels !! module) (AccessModuleMissing module);
      _ ← validateModuleAccessLevel module level;
      validate_modules modules' levels
  end.
Definition Validate (a : Access) : result AccessError unit :=
  _ ← require (bool_decide (size (Modules a) = length allModules)) AccessModuleCount;
  _ ← require (forallb (λ kv, bool_decide (is_Some (MaxAccessLevel kv.1))) (map_to_list (Modules a)))
        AccessModuleUnsupported;
  _ ← validate_modules allModules (Modules a);
  if Administrator a then
    _ ← require (LoginEnabled a && negb (APIKeyEnabled a) && negb (ProfitSharingEnabled a)) AdministratorFlagsFixed;
    require (forallb (λ kv, bool_decide (kv.2 = AccessLevelNone)) (map_to_list (Modules a))) AdministratorModuleAccess
  else Ok tt.

(** ** Requirements *)
Record Requirement := {
  rq_administrator : bool; rq_profit_sharing : bool; rq_module : Module; rq_access_level : AccessLevel }.
Definition RequirementAdministrator : Requirement := {|
  rq_administrator := true; rq_profit_sharing := false; rq_module := ""; rq_access_level := "" |}.
Definition RequirementProfitSharing : Requirement := {|
  rq_administrator := false; rq_profit_sharing := true; rq_module := ""; rq_access_level := "" |}.
Definition RequireModule (module : Module) (level : AccessLevel) : Requirement := {|
  rq_administrator := false; rq_profit_sharing := false; rq_module := module; rq_access_level := level |}.

Definition validate_requirement (r : Requirement) : result AccessError unit :=
  let no_module := bool_decide (rq_module r = EmptyString) && bool_decide (rq_access_level r = EmptyString) in
  if rq_administrator r then require (negb (rq_profit_sharing r) && no_module) RequirementInvalid
  else if rq_profit_sharing r then require no_module RequirementInvalid
  else
    _ ← require (bool_decide (rq_access_level r = AccessLevelRead)
                 || bool_decide (rq_access_level r = AccessLevelReadWrite)) RequirementInvalid;
    match validateModuleAccessLevel (rq_module r) (rq_access_level r) with
    | Ok _ => Ok tt | Err _ => Err RequirementInvalid end.

Definition accessLevelSatisfies (effective required : AccessLevel) : bool :=
  if bool_decide (required = AccessLevelRead) then
    bool_decide (effective = AccessLevelRead) || bool_decide (effective = AccessLevelReadWrite)
  else bool_decide (required = AccessLevelReadWrite) && bool_decide (effective = AccessLevelReadWrite).

(** ** Validity *)
Record valid_access (a : Access) : Prop := {
  va_modules : ∀ m, is_Some (Modules a !! m) ↔ m ∈ allModules;
  va_levels : ∀ m l, Modules a !! m = Some l →
    l = AccessLevelNone ∨ l = AccessLevelRead ∨ (l = AccessLevelReadWrite ∧ MaxAccessLevel m = Some AccessLevelReadWrite);
  va_administrator : Administrator a = true →
    LoginEnabled a = true ∧ APIKeyEnabled a = false ∧ ProfitSharingEnabled a = false
    ∧ ∀ m l, Modules a !! m = Some l → l = AccessLevelNone }.

Lemma known_module m : is_Some (MaxAccessLevel m) ↔ m ∈ allModules.
Proof.
  unfold MaxAccessLevel. case_bool_decide as H1.
  { split; [intros _|eauto]. revert H1. unfold allModules. set_solver. }
  case_bool_decide as H2.
  { split; [intros _|eauto]. revert H2. unfold allModules. set_solver. }
  split; [by intros [? ?]|]. unfold allModules. intros Hm. exfalso. set_solver.
Qed.
Lemma allModules_NoDup : NoDup allModules.
Proof. apply (bool_decide_unpack _). vm_compute. done. Qed.

Lemma level_ok module level :
  validateModuleAccessLevel module level = Ok tt ↔
  is_Some (MaxAccessLevel module)
  ∧ (level = AccessLevelNone ∨ level = AccessLevelRead
     ∨ (level = AccessLevelReadWrite ∧ MaxAccessLevel module = Some AccessLevelReadWrite)).
Proof.
  unfold validateModuleAccessLevel. destruct (MaxAccessLevel module) as [maximum|]; cycle 1.
  { split; [done|]. by intros [[? ?] _]. }
  case_bool_decide as H1; [naive_solver|]. case_bool_decide as H2; [naive_solver|]. cbn.
  case_bool_decide as H3; [|split; [done|]; intros (_ & [?|[?|[? _]]]); done]. rewrite require_ok, bool_decide_eq_true. naive_solver.
Qed.
Lemma validate_modules_ok ms levels :
  validate_modules ms levels = Ok tt ↔
  ∀ m, m ∈ ms → ∃ l, levels !! m = Some l ∧ validateModuleAccessLevel m l = Ok tt.
Proof.
  induction ms as [|m ms IH]; cbn [validate_modules]; [set_solver|]. rewrite result_bind_ok. split.
  - intros (l & Hl%of_option_ok & ([] & Hv & Hrest)%result_bind_ok) m' [->|Hm']%elem_of_cons; [eauto|].
    by apply IH.
  - intros Hall. destruct (Hall m) as (l & Hl & Hv); [left|]. exists l. rewrite of_option_ok, result_bind_ok.
    split; [done|]. exists tt. split; [done|]. apply IH. intros m' Hm'. apply Hall. by right.
Qed.
Lemma forall_entries (P : Module * AccessLevel → bool) (ms : gmap Module AccessLevel) :
  forallb P (map_to_list ms) = true ↔ ∀ m l, ms !! m = Some l → P (m, l) = true.
Proof.
  rewrite <- Is_true_true, forallb_True, Forall_forall. split.
  - intros Hall m l Hl. apply Is_true_true, (Hall (m, l)). by apply elem_of_map_to_list.
  - intros Hall [m l] Hin%elem_of_map_to_list. apply Is_true_true. auto.
Qed.

(** Nine entries, all known: exactly the nine modules. *)
Lemma modules_complete (ms : gmap Module AccessLevel) :
  size ms = length allModules → (∀ m l, ms !! m = Some l → m ∈ allModules) → ∀ m, m ∈ allModules → is_Some (ms !! m).
Proof.
  intros Hsize Hsub m Hm.
  assert (dom ms ⊆ (list_to_set allModules : gset Module)) as Hdom.
  { intros x [l Hl]%elem_of_dom. apply elem_of_list_to_set. eauto. }
  assert (dom ms = (list_to_set allModules : gset Module)) as Heq.
  { apply set_subseteq_size_eq; [done|]. rewrite size_dom, Hsize, size_list_to_set by apply allModules_NoDup. done. }
  apply elem_of_dom. rewrite Heq. by apply elem_of_list_to_set.
Qed.
Lemma size_of_modules (ms : gmap Module AccessLevel) :
  (∀ m, is_Some (ms !! m) ↔ m ∈ allModules) → size ms = length allModules.
Proof.
  intros Hms. rewrite <- size_dom, <- (size_list_to_set (C:=gset Module) allModules) by apply allModules_NoDup.
  f_equal. apply leibniz_equiv. intros x. by rewrite elem_of_dom, elem_of_list_to_set, Hms.
Qed.
Lemma Validate_ok a : Validate a = Ok tt ↔ valid_access a.
Proof.
  unfold Validate. split.
  - intros (_ & Hsize%require_ok & H)%result_bind_ok. apply result_bind_ok in H as (_ & Hknown%require_ok & H).
    apply result_bind_ok in H as ([] & Hms & Hadmin). rewrite forall_entries in Hknown. bool_prop.
    rewrite validate_modules_ok in Hms.
    assert (∀ m l, Modules a !! m = Some l → m ∈ allModules) as Hin.
    { intros m l Hl. specialize (Hknown m l Hl). bool_prop. by apply known_module. }
    split.
    + intros m. split; [intros [l Hl]; eauto|]. by apply modules_complete.
    + intros m l Hl. destruct (Hms m (Hin m l Hl)) as (l' & Hl' & Hv). simplify_eq. by apply level_ok in Hv as [_ ?].
    + intros Ha. rewrite Ha in Hadmin. apply result_bind_ok in Hadmin as (_ & Hf%require_ok & Hn%require_ok).
      rewrite forall_entries in Hn. bool_prop. split_and!; [done..|]. intros m l Hl. specialize (Hn m l Hl). by bool_prop.
  - intros [Hm Hl Ha]. rewrite !result_bind_ok. exists tt. split.
    { by apply require_ok, bool_decide_eq_true, size_of_modules. }
    rewrite result_bind_ok. exists tt. split.
    { apply require_ok, forall_entries. intros m l Hml. apply bool_decide_eq_true, known_module, Hm. by exists l. }
    rewrite result_bind_ok. exists tt. split.
    { apply validate_modules_ok. intros m Hin. destruct (proj2 (Hm m) Hin) as [l Hml]. exists l. split; [done|].
      apply level_ok. split; [by apply known_module|eauto]. }
    destruct (Administrator a) eqn:E; [|done]. destruct (Ha eq_refl) as (-> & -> & -> & Hn).
    apply result_bind_ok. exists tt. split; [done|]. apply require_ok, forall_entries.
    intros m l Hml. apply bool_decide_eq_true. cbn. by apply (Hn m).
Qed.

(** ** What a requirement grants

    Levels are ordered none, read, read_write. *)
Definition level_rank (l : AccessLevel) : Z :=
  if bool_decide (l = AccessLevelReadWrite) then 2 else if bool_decide (l = AccessLevelRead) then 1 else 0.
Definition well_formed (r : Requirement) : Prop :=
  r = RequirementAdministrator ∨ r = RequirementProfitSharing
  ∨ ∃ m l, r = RequireModule m l ∧ l ≠ AccessLevelNone ∧ validateModuleAccessLevel m l = Ok tt.
Definition grants (a : Access) (r : Requirement) : Prop :=
  if rq_administrator r then Administrator a = true
  else if rq_profit_sharing r then ProfitSharingEnabled a = true
  else ∃ l, Modules a !! rq_module r = Some l ∧ level_rank (rq_access_level r) ≤ level_rank l.

Lemma validate_requirement_ok r : validate_requirement r = Ok tt ↔ well_formed r.
Proof.
  destruct r as [adm ps m l]. unfold validate_requirement, well_formed, RequirementAdministrator, RequirementProfitSharing, RequireModule.
  cbn. destruct adm; [|destruct ps].
  - rewrite require_ok. split.
    + intros H. destruct ps; [done|]. bool_prop. destruct_and?. subst. by left.
    + intros [H|[H|(?&?&H&_)]]; simplify_eq. by rewrite !bool_decide_eq_true_2.
  - rewrite require_ok. split.
    + intros H. bool_prop. destruct_and?. subst. right. by left.
    + intros [H|[H|(?&?&H&_)]]; simplify_eq. by rewrite !bool_decide_eq_true_2.
  - rewrite result_bind_ok. split.
    + intros (u & Hl%require_ok & Hv). right. right. exists m, l. split; [done|]. bool_prop.
      split; [by destruct Hl as [->| ->]|]. by destruct (validateModuleAccessLevel m l) as [[]|].
    + intros [H|[H|(m' & l' & H & Hn & Hv)]]; simplify_eq. exists tt. rewrite Hv, require_ok. split; [|done].
      apply level_ok in Hv as [_ [->|[->|[-> _]]]]; done.
Qed.
Lemma validate_requirement_error r e : validate_requirement r = Err e → e = RequirementInvalid.
Proof.
  unfold validate_requirement, require. intros H. repeat (case_match; simplify_eq/=; try done).
Qed.
Lemma satisfies_rank effective required :
  required = AccessLevelRead ∨ required = AccessLevelReadWrite →
  accessLevelSatisfies effective required = true ↔ level_rank required ≤ level_rank effective.
Proof.
  unfold accessLevelSatisfies, level_rank. intros [->| ->];
    (destruct (decide (effective = AccessLevelRead)) as [->|]; [by vm_compute; split; intros; try congruence|]);
    (destruct (decide (effective = AccessLevelReadWrite)) as [->|]; [by vm_compute; split; intros; try congruence|]);
    rewrite !(bool_decide_eq_false_2 (effective = _)) by done; vm_compute; split; intros; try congruence.
Qed.
