(* ===== verification/AccessController.v ===== *)
(** * Account access: the controller

    [internal/accountaccess/controller.go].  The durable store is the [AccessStore]
    class, what it promises is [AccessStoreLaws]; the controller is proved against
    these, and the account-state database discharges them.  [c.access] is one map;
    the critical sections of [c.mu] are the atomic steps of the transition system at
    the end, [c.updates] the single slot for an update in flight. *)

From S2P Require Import Prelude Access.
From stdpp Require Import base tactics option list list_numbers sorting strings gmap fin_maps.
From Stdlib Require Import ZArith Lia Ascii.
#[local] Open Scope Z_scope.

(** ** The store *)
Class AccessStore (S : Type) : Type := {
  ListAccountAccess : S → result AccessError (gmap string Access);
  GetAccountAccess : string → S → result AccessError Access;
  UpdateAccountAccess : string → Access → Z → tx S AccessError Access }.

Definition with_revision (r : Z) (a : Access) : Access := {|
  Administrator := Administrator a; LoginEnabled := LoginEnabled a; APIKeyEnabled := APIKeyEnabled a;
  ProfitSharingEnabled := ProfitSharingEnabled a; Modules := Modules a; Revision := r |}.

(** [durable] is the committed aggregate of every account, by canonical ID.  Reads
    return it; an update succeeds exactly when its expected revision is the durable
    one, the account is an ordinary one and the aggregate is valid, and then it
    replaces that aggregate and increments the revision. *)
Class AccessStoreLaws (S : Type) `{!AccessStore S} : Type := {
  store_ok : S → Prop;
  durable : S → gmap string Access;
  canonical : string → Prop;
  durable_ok : ∀ s id a, store_ok s → durable s !! id = Some a →
    canonical id ∧ valid_access a ∧ 0 < Revision a ≤ max_int64;
  list_durable : ∀ s, store_ok s → ListAccountAccess s = Ok (durable s);
  get_durable : ∀ s id, store_ok s → canonical id →
    match durable s !! id with
    | Some a => GetAccountAccess id s = Ok a
    | None => ∃ e, GetAccountAccess id s = Err e end;
  update_sound : ∀ s s' id next expected a, store_ok s → canonical id →
    UpdateAccountAccess id next expected s = Ok (s', a) →
    ∃ old, durable s !! id = Some old ∧ Administrator old = false ∧ Administrator next = false
      ∧ Revision old = expected ∧ expected < max_int64 ∧ valid_access next
      ∧ a = with_revision (expected + 1) next
      ∧ store_ok s' ∧ durable s' = <[id := a]> (durable s);
  update_complete : ∀ s id next old, store_ok s → durable s !! id = Some old →
    Administrator old = false → Administrator next = false → valid_access next →
    Revision next = Revision old → Revision old < max_int64 →
    ∃ s' a, UpdateAccountAccess id next (Revision old) s = Ok (s', a);
  update_conflict : ∀ s id next old, store_ok s → durable s !! id = Some old →
    Administrator next = false → valid_access next → 0 < Revision next < max_int64 →
    Revision old ≠ Revision next → UpdateAccountAccess id next (Revision next) s = Err ErrRevisionConflict }.

(** ** Operations *)
Section Controller.
Context {S : Type} `{!AccessStore S}.

Definition check_persisted (a : Access) : result AccessError unit :=
  _ ← require (negb (Revision a =? 0)) PersistedRevisionInvalid;
  match Validate a with Ok _ => Ok tt | Err e => Err (PersistedAccessInvalid e) end.
Fixpoint check_all (entries : list (string * Access)) : result AccessError unit :=
  match entries with
  | [] => Ok tt
  | (_, a) :: entries' => _ ← check_persisted a; check_all entries'
  end.
(** Go visits the map in some order; the model in that of [map_to_list]. *)
Definition NewController (s : S) : result AccessError (gmap string Access) :=
  match ListAccountAccess s with
  | Err e => Err e
  | Ok effective =>
      _ ← check_all (map_to_list effective);
      Ok (Clone <$> effective)
  end.

(** [Register] reads the store, then publishes under [c.mu]. *)
Definition register_read (id : string) (s : S) : result AccessError Access :=
  persisted ← GetAccountAccess id s;
  _ ← check_persisted persisted;
  Ok (Clone persisted).
Definition register_publish (id : string) (persisted : Access) (acc : gmap string Access) : gmap string Access * Access :=
  match acc !! id with
  | Some current =>
      if Revision current <? Revision persisted then (<[id := persisted]> acc, persisted) else (acc, current)
  | None => (<[id := persisted]> acc, persisted)
  end.
Definition Register (id : string) (s : S) (acc : gmap string Access) : gmap string Access * result AccessError Access :=
  match register_read id s with
  | Err e => (acc, Err e)
  | Ok persisted => let '(acc', current) := register_publish id persisted acc in (acc', Ok (Clone current))
  end.

Definition Get (id : string) (acc : gmap string Access) : result AccessError Access :=
  a ← of_option (acc !! id) AccountNotFound; Ok (Clone a).
Definition List (acc : gmap string Access) : gmap string Access := Clone <$> acc.

(** [Update]: the argument and snapshot checks, the store commit, the publication. *)
Definition update_check (id : string) (next : Access) (expected : Z) (acc : gmap string Access) :
    result AccessError Access :=
  _ ← require (Revision next =? expected) RevisionMismatch;
  _ ← require (expected <? max_int64) RevisionOutOfRange;
  let next := Clone next in
  _ ← Validate next;
  current ← of_option (acc !! id) AccountNotFound;
  _ ← require (negb (Administrator current)) AdministratorAccessFixed;
  _ ← require (Revision current =? expected) ErrRevisionConflict;
  Ok (Clone next).
Definition update_returned (expected : Z) (persisted : Access) : result AccessError Access :=
  _ ← require (expected <? Revision persisted) RevisionNotIncremented;
  match Validate persisted with Ok _ => Ok (Clone persisted) | Err e => Err (PersistedAccessInvalid e) end.
Definition Update (id : string) (next : Access) (expected : Z) (s : S) (acc : gmap string Access) :
    S * gmap string Access * result AccessError Access :=
  match update_check id next expected acc with
  | Err e => (s, acc, Err e)
  | Ok next =>
      let '(s', r) := run_tx (UpdateAccountAccess id next expected) s in
      match r with
      | Err e => (s', acc, Err e)
      | Ok persisted =>
          match update_returned expected persisted with
          | Err e => (s', acc, Err e)
          | Ok persisted => (s', <[id := persisted]> acc, Ok (Clone persisted))
          end
      end
  end.

Definition Authorize (id : string) (r : Requirement) (acc : gmap string Access) : result AccessError unit :=
  _ ← validate_requirement r;
  a ← Get id acc;
  if rq_administrator r then require (Administrator a) ErrAdministratorAccessDenied
  else if rq_profit_sharing r then require (ProfitSharingEnabled a) ErrProfitSharingAccessDenied
  else
    effective ← of_option (Modules a !! rq_module r) ModuleAccessMissing;
    require (accessLevelSatisfies effective (rq_access_level r))
      (ModuleAccessDenied (rq_module r) (rq_access_level r) effective).
End Controller.

(** ** Lemmas on the operations *)
Lemma Clone_id a : Clone a = a.
Proof. by destruct a. Qed.
Lemma Clone_map (m : gmap string Access) : Clone <$> m = m.
Proof. rewrite <- (map_fmap_id m) at 2. apply map_fmap_ext. intros ? ? _. apply Clone_id. Qed.

Lemma check_persisted_ok a u : check_persisted a = Ok u ↔ Revision a ≠ 0 ∧ valid_access a.
Proof.
  destruct u. unfold check_persisted. rewrite result_bind_ok, <- Validate_ok. split.
  - intros ([] & H%require_ok & Hv). bool_prop. split; [done|]. by destruct (Validate a) as [[]|].
  - intros [Hr ->]. exists tt. rewrite require_ok, negb_true_iff, Z.eqb_neq. done.
Qed.
Lemma check_all_ok entries :
  check_all entries = Ok tt ↔ ∀ id a, (id, a) ∈ entries → Revision a ≠ 0 ∧ valid_access a.
Proof.
  induction entries as [|[id a] entries IH]; cbn [check_all].
  { split; [|done]. by intros _ ? ? ?%not_elem_of_nil. }
  rewrite result_bind_ok. split.
  - intros ([] & Ha%check_persisted_ok & Hr) id' a' [?|?]%elem_of_cons; simplify_eq; [done|]. by eapply IH.
  - intros Hall. exists tt. rewrite check_persisted_ok, IH. split; [apply (Hall id); left|].
    intros id' a' ?. apply (Hall id'). by right.
Qed.
Lemma update_check_ok id next expected acc a :
  update_check id next expected acc = Ok a ↔
  a = next ∧ Revision next = expected ∧ expected < max_int64 ∧ valid_access next
  ∧ ∃ current, acc !! id = Some current ∧ Administrator current = false ∧ Revision current = expected.
Proof.
  unfold update_check. rewrite Clone_id, <- Validate_ok. split.
  - intros H. tx_inv. bool_prop. rewrite Clone_id.
    repeat match goal with u : unit |- _ => destruct u end. split_and!; try done. eauto.
  - intros (-> & H1 & H2 & H3 & current & H4 & H5 & H6). rewrite result_bind_ok. exists tt.
    rewrite require_ok, Z.eqb_eq. split; [done|]. apply result_bind_ok. exists tt. rewrite require_ok, Z.ltb_lt. split; [done|].
    cbv zeta. rewrite !Clone_id, H3. cbn. rewrite H4. cbn. rewrite H5. cbn. by rewrite H6, Z.eqb_refl.
Qed.
Lemma update_returned_ok expected p q :
  update_returned expected p = Ok q ↔ q = p ∧ expected < Revision p ∧ valid_access p.
Proof.
  unfold update_returned. rewrite result_bind_ok, <- Validate_ok, Clone_id. split.
  - intros (u & H%require_ok & Hv). bool_prop. destruct (Validate p) as [[]|]; naive_solver.
  - intros (-> & ? & ->). exists tt. rewrite require_ok, Z.ltb_lt. done.
Qed.

(** The refusal a requirement gets from an account that does not meet it. *)
Definition refusal (a : Access) (r : Requirement) : AccessError :=
  if rq_administrator r then ErrAdministratorAccessDenied
  else if rq_profit_sharing r then ErrProfitSharingAccessDenied
  else match Modules a !! rq_module r with
       | None => ModuleAccessMissing
       | Some effective => ModuleAccessDenied (rq_module r) (rq_access_level r) effective end.
Lemma Authorize_cases id r acc :
  match Authorize id r acc with
  | Ok _ => well_formed r ∧ ∃ a, acc !! id = Some a ∧ grants a r
  | Err e =>
      (¬ well_formed r ∧ e = RequirementInvalid)
      ∨ (well_formed r ∧ acc !! id = None ∧ e = AccountNotFound)
      ∨ (well_formed r ∧ ∃ a, acc !! id = Some a ∧ ¬ grants a r ∧ e = refusal a r)
  end.
Proof.
  unfold Authorize. destruct (validate_requirement r) as [[]|e] eqn:Hv; cycle 1.
  { left. rewrite <- validate_requirement_ok, Hv. split; [done|]. by apply (validate_requirement_error r). }
  apply validate_requirement_ok in Hv. unfold Get. cbn. destruct (acc !! id) as [a|]; cbn; [|by right; left].
  unfold grants, refusal. destruct (rq_administrator r) eqn:Ha.
  { destruct (Administrator a) eqn:E; cbn; [by eauto|]. right. right. split; [done|]. exists a. by rewrite E. }
  destruct (rq_profit_sharing r) eqn:Hp.
  { destruct (ProfitSharingEnabled a) eqn:E; cbn; [by eauto|]. right. right. split; [done|]. exists a. by rewrite E. }
  assert (rq_access_level r = AccessLevelRead ∨ rq_access_level r = AccessLevelReadWrite) as Hl.
  { destruct Hv as [->|[->|(m & l & -> & Hn & Hl)]]; [done..|]. cbn. apply level_ok in Hl as [_ [->|[->|[-> _]]]]; auto. by destruct Hn. }
  destruct (Modules a !! rq_module r) as [effective|] eqn:Hm; cbn; cycle 1.
  { right. right. split; [done|]. exists a. rewrite Hm. split_and!; [done| |done]. by intros (? & ? & _). }
  pose proof (satisfies_rank effective _ Hl) as Hs. destruct (accessLevelSatisfies _ _) eqn:Hsat; cbn.
  - split; [done|]. exists a. split; [done|]. exists effective. split; [done|]. by apply Hs.
  - right. right. split; [done|]. exists a. rewrite Hm. split_and!; [done| |done].
    intros (l & [= <-] & Hr). apply Hs in Hr. congruence.
Qed.

(** ** The concurrent process

    An update holds [c.updates] from its check to its publication. *)
Inductive flight :=
| Idle
| Checked (id : string) (next : Access) (expected : Z)
| Committed (id : string) (expected : Z) (persisted : Access).
Record world (S : Type) := World {
  w_store : S; w_access : gmap string Access; w_registers : list (string * Access);
  w_flight : flight; w_lost : bool }.
Arguments World {S} _ _ _ _ _.
Arguments w_store {S} _.
Arguments w_access {S} _.
Arguments w_registers {S} _.
Arguments w_flight {S} _.
Arguments w_lost {S} _.

Section System.
Context {S : Type} `{!AccessStore S, !AccessStoreLaws S}.
Implicit Types (w : world S) (s : S).

(** [step_lost] is a commit whose answer does not arrive; the ghost [w_lost]
    remembers it.  [step_create] is account creation, by other code. *)
Inductive step : world S → world S → Prop :=
| step_create s s' acc regs fl lost :
    store_ok s' → durable s ⊆ durable s' →
    step (World s acc regs fl lost) (World s' acc regs fl lost)
| step_register_read s acc regs fl lost id p :
    canonical id → register_read id s = Ok p →
    step (World s acc regs fl lost) (World s acc ((id, p) :: regs) fl lost)
| step_register_publish s acc regs1 regs2 fl lost id p :
    step (World s acc (regs1 ++ (id, p) :: regs2) fl lost)
         (World s (register_publish id p acc).1 (regs1 ++ regs2) fl lost)
| step_update_check s acc regs lost id next expected a :
    canonical id → update_check id next expected acc = Ok a →
    step (World s acc regs Idle lost) (World s acc regs (Checked id a expected) lost)
| step_update_commit s s' acc regs lost id next expected p :
    UpdateAccountAccess id next expected s = Ok (s', p) →
    step (World s acc regs (Checked id next expected) lost) (World s' acc regs (Committed id expected p) lost)
| step_update_lost s s' acc regs lost id next expected p :
    UpdateAccountAccess id next expected s = Ok (s', p) →
    step (World s acc regs (Checked id next expected) lost) (World s' acc regs Idle true)
| step_update_failed s acc regs lost id next expected :
    step (World s acc regs (Checked id next expected) lost) (World s acc regs Idle lost)
| step_update_publish s acc regs lost id expected p q :
    update_returned expected p = Ok q →
    step (World s acc regs (Committed id expected p) lost) (World s (<[id := q]> acc) regs Idle lost)
| step_update_rejected s acc regs lost id expected p e :
    update_returned expected p = Err e →
    step (World s acc regs (Committed id expected p) lost) (World s acc regs Idle lost).

(** [a] is the durable aggregate [d] or an earlier one. *)
Definition behind (a d : Access) : Prop :=
  Administrator a = Administrator d ∧ valid_access a ∧ (a = d ∨ Revision a < Revision d).
Definition seen (s : S) (id : string) (a : Access) : Prop := ∃ d, durable s !! id = Some d ∧ behind a d.

Record CInv (w : world S) : Prop := {
  ci_store : store_ok (w_store w);
  ci_cached : ∀ id a, w_access w !! id = Some a → seen (w_store w) id a;
  ci_regs : ∀ id a, (id, a) ∈ w_registers w → seen (w_store w) id a;
  ci_flight : match w_flight w with
    | Idle => True
    | Checked id next expected => canonical id ∧ is_Some (w_access w !! id) ∧ next.(Revision) = expected
    | Committed id expected p =>
        durable (w_store w) !! id = Some p ∧ expected < Revision p end;
  ci_fresh : w_lost w = false → ∀ id a, w_access w !! id = Some a →
    (∃ expected p, w_flight w = Committed id expected p) ∨ durable (w_store w) !! id = Some a;
  ci_fresh_regs : w_lost w = false → ∀ id a, (id, a) ∈ w_registers w → w_access w !! id = None →
    durable (w_store w) !! id = Some a }.

Lemma seen_refl s id a : store_ok s → durable s !! id = Some a → seen s id a.
Proof. intros Hs Ha. exists a. split; [done|]. destruct (durable_ok s id a Hs Ha) as (_ & Hv & _). by split_and!; [..|left]. Qed.
Lemma seen_grow s s' id a : durable s ⊆ durable s' → seen s id a → seen s' id a.
Proof. intros Hsub (d & Hd & Hb). exists d. split; [|done]. by eapply lookup_weaken. Qed.
(** A committed update keeps every earlier reading behind the durable state. *)
Lemma seen_update s s' id next expected p id' a :
  store_ok s → canonical id → UpdateAccountAccess id next expected s = Ok (s', p) →
  seen s id' a → seen s' id' a.
Proof.
  intros Hs Hc Hu (d & Hd & Hadm & Hv & Hr).
  destruct (update_sound s s' id next expected p Hs Hc Hu) as (old & Ho & Ha & Hn & He & _ & _ & -> & _ & Hdur).
  unfold seen. rewrite Hdur. destruct (decide (id' = id)) as [->|Hne]; cycle 1.
  { rewrite lookup_insert_ne by done. by exists d. }
  rewrite lookup_insert_eq. simplify_eq. eexists. split; [done|]. cbn. split; [cbn; congruence|].
  split; [done|]. right. cbn. destruct Hr as [->|Hr]; lia.
Qed.

Lemma register_read_ok s id p : store_ok s → canonical id → register_read id s = Ok p → durable s !! id = Some p.
Proof.
  intros Hs Hc. unfold register_read. rewrite result_bind_ok. intros (a & Ha & ([] & _ & Hp)%result_bind_ok).
  injection Hp as <-. rewrite Clone_id. pose proof (get_durable s id Hs Hc) as Hg.
  destruct (durable s !! id) as [d|]; [congruence|]. destruct Hg as [e Hg]. congruence.
Qed.
Lemma register_publish_cases id p acc :
  (register_publish id p acc).1 = <[id := p]> acc ∧ (∀ c, acc !! id = Some c → Revision c < Revision p)
  ∨ (register_publish id p acc).1 = acc ∧ ∃ c, acc !! id = Some c ∧ Revision p ≤ Revision c.
Proof.
  unfold register_publish. destruct (acc !! id) as [c|]; [|by left].
  destruct (Z.ltb_spec (Revision c) (Revision p)); [left|right]; cbn; naive_solver lia.
Qed.

(** ** The invariant *)
Lemma CInv_create s s' acc regs fl lost :
  store_ok s' → durable s ⊆ durable s' → CInv (World s acc regs fl lost) → CInv (World s' acc regs fl lost).
Proof.
  intros Hs' Hsub [Hs Hc Hr Hf Hfr Hfg]. cbn in *. split; cbn; [done|..].
  - intros id a Ha. eapply seen_grow; eauto.
  - intros id a Ha. eapply seen_grow; eauto.
  - destruct fl; [done|done|]. destruct Hf as [Hf ?]. split; [by eapply lookup_weaken|done].
  - intros Hl id a Ha. destruct (Hfr Hl id a Ha) as [?|?]; [by left|right]. by eapply lookup_weaken.
  - intros Hl id a Ha Hn. eapply lookup_weaken; eauto.
Qed.
Lemma CInv_register_read s acc regs fl lost id p :
  canonical id → register_read id s = Ok p →
  CInv (World s acc regs fl lost) → CInv (World s acc ((id, p) :: regs) fl lost).
Proof.
  intros Hcan Hp [Hs Hc Hr Hf Hfr Hfg]. cbn in *. apply register_read_ok in Hp; [|done..].
  split; cbn; [done|done| |done|done|].
  - intros id' a [?|?]%elem_of_cons; simplify_eq; [by apply seen_refl|auto].
  - intros Hl id' a [?|?]%elem_of_cons; simplify_eq; auto.
Qed.
Lemma CInv_register_publish s acc regs1 regs2 fl lost id p :
  CInv (World s acc (regs1 ++ (id, p) :: regs2) fl lost) →
  CInv (World s (register_publish id p acc).1 (regs1 ++ regs2) fl lost).
Proof.
  intros [Hs Hc Hr Hf Hfr Hfg]. cbn in *.
  assert (∀ id' a, (id', a) ∈ regs1 ++ regs2 → (id', a) ∈ regs1 ++ (id, p) :: regs2) as Hin
    by (intros ? ?; rewrite !elem_of_app, elem_of_cons; tauto).
  assert ((id, p) ∈ regs1 ++ (id, p) :: regs2) as Hp by (rewrite elem_of_app, elem_of_cons; tauto).
  destruct (register_publish_cases id p acc) as [[-> Hlt]|[-> _]]; cycle 1.
  { split; cbn; eauto. }
  split; cbn; [done|..].
  - intros id' a. rewrite lookup_insert_Some. intros [[<- <-]|[? ?]]; [by apply Hr|auto].
  - eauto.
  - destruct fl; [done| |done]. destruct Hf as (? & [c Hcc] & ?). split_and!; [done| |done].
    rewrite lookup_insert_is_Some. destruct (decide (id = id0)); [by left|right; eauto].
  - intros Hl id' a. rewrite lookup_insert_Some. intros [[<- <-]|[? ?]]; [|auto].
    destruct (acc !! id) as [c|] eqn:Hcc; [|right; by apply Hfg].
    destruct (Hfr Hl id c Hcc) as [?|Hd]; [by left|]. destruct (Hr id p Hp) as (d & Hd' & _ & _ & Hb).
    simplify_eq. specialize (Hlt _ eq_refl). destruct Hb as [->|Hb]; [auto|lia].
  - intros Hl id' a Ha. rewrite lookup_insert_None. intros [? ?]. eauto.
Qed.
Lemma CInv_commit s s' acc regs fl lost' lost id next expected p :
  UpdateAccountAccess id next expected s = Ok (s', p) →
  fl = Committed id expected p ∨ (fl = Idle ∧ lost' = true) → (lost' = false → lost = false) →
  CInv (World s acc regs (Checked id next expected) lost) → CInv (World s' acc regs fl lost').
Proof.
  intros Hu Hfl Hlost [Hs Hc Hr (Hcan & [c Hcc] & Hrev) Hfr Hfg]. cbn in *.
  pose proof (λ id' a, seen_update s s' id next expected p id' a Hs Hcan Hu) as Hseen.
  destruct (update_sound s s' id next expected p Hs Hcan Hu) as (old & Ho & Ha & Hn & He & _ & _ & Hp & Hs' & Hdur).
  split; cbn; [done|auto|auto|..].
  - destruct Hfl as [->|[-> _]]; [|done]. rewrite Hdur, lookup_insert_eq, Hp. cbn. split; [done|lia].
  - intros Hl id' a Hid. destruct Hfl as [->|[-> ?]]; [|congruence].
    destruct (decide (id' = id)) as [->|]; [left; eauto|right]. rewrite Hdur, lookup_insert_ne by done.
    destruct (Hfr (Hlost Hl) id' a Hid) as [(? & ? & ?)|?]; done.
  - intros Hl id' a Hid Hnone. rewrite Hdur, lookup_insert_ne; [auto|]. congruence.
Qed.
Lemma CInv_publish s acc regs lost id expected p q :
  update_returned expected p = Ok q →
  CInv (World s acc regs (Committed id expected p) lost) → CInv (World s (<[id := q]> acc) regs Idle lost).
Proof.
  intros (-> & _ & _)%update_returned_ok [Hs Hc Hr (Hd & _) Hfr Hfg]. cbn in *. split; cbn; [done| |done|done|..].
  - intros id' a. rewrite lookup_insert_Some. intros [[<- <-]|[? ?]]; [by apply seen_refl|auto].
  - intros Hl id' a. rewrite lookup_insert_Some. intros [[<- <-]|[? Ha]]; [by right|].
    destruct (Hfr Hl id' a Ha) as [(? & ? & ?)|?]; [congruence|by right].
  - intros Hl id' a Ha. rewrite lookup_insert_None. intros [? ?]. eauto.
Qed.

Lemma CInv_step w w' : step w w' → CInv w → CInv w'.
Proof.
  intros Hst Hi. destruct Hst.
  - eauto using CInv_create.
  - eauto using CInv_register_read.
  - eauto using CInv_register_publish.
  - destruct Hi as [Hs Hc Hr Hf Hfr Hfg]. cbn in *. apply update_check_ok in H0 as (-> & ? & _ & _ & c & Hcc & _).
    split; cbn; [done..| | |done]; [split_and!; [done|eauto|done]|].
    intros Hl id' a Ha. destruct (Hfr Hl id' a Ha) as [(? & ? & ?)|?]; [done|by right].
  - eapply CInv_commit; eauto.
  - by apply (CInv_commit s s' acc regs Idle true lost id next expected p); [|right|..].
  - destruct Hi as [Hs Hc Hr Hf Hfr Hfg]. cbn in *. split; cbn; try done.
    intros Hl id' a Ha. destruct (Hfr Hl id' a Ha) as [(? & ? & ?)|?]; [done|by right].
  - eauto using CInv_publish.
  - exfalso. destruct Hi as [Hs Hc Hr [Hd Hlt] Hfr Hfg]. cbn in *.
    destruct (durable_ok s id p Hs Hd) as (_ & Hv & _).
    assert (update_returned expected p = Ok p) as Hok by (by apply update_returned_ok). congruence.
Qed.
Lemma CInv_steps w w' : rtc step w w' → CInv w → CInv w'.
Proof. induction 1; eauto using CInv_step. Qed.

Lemma NewController_ok s : store_ok s → NewController s = Ok (durable s).
Proof.
  intros Hs. unfold NewController. rewrite list_durable by done. apply result_bind_ok. exists tt. split.
  - apply check_all_ok. intros id a Ha%elem_of_map_to_list. destruct (durable_ok s id a Hs Ha) as (_ & Hv & Hr).
    split; [lia|done].
  - by rewrite Clone_map.
Qed.
Lemma CInv_start s acc : store_ok s → NewController s = Ok acc → CInv (World s acc [] Idle false).
Proof.
  intros Hs. rewrite NewController_ok by done. intros [= <-]. split; cbn; [done|..].
  - intros id a Ha. by apply seen_refl.
  - by intros ? ? ?%not_elem_of_nil.
  - done.
  - auto.
  - by intros _ ? ? ?%not_elem_of_nil.
Qed.

(** The cached aggregate of an account changes only to one with a later revision. *)
Definition later (a a' : Access) : Prop :=
  Administrator a' = Administrator a ∧ (a' = a ∨ Revision a < Revision a').
Lemma later_trans a b c : later a b → later b c → later a c.
Proof. unfold later. intros [? [->|?]] [? [->|?]]; split; try congruence; auto with lia. Qed.
Lemma cached_step w w' id a :
  step w w' → CInv w → w_access w !! id = Some a → ∃ a', w_access w' !! id = Some a' ∧ later a a'.
Proof.
  intros Hst Hi Ha. assert (later a a) as Hrefl by (split; auto). destruct Hst; cbn in *; eauto.
  - destruct (register_publish_cases id0 p acc) as [[-> Hlt]|[-> _]]; [|eauto].
    destruct (decide (id0 = id)) as [->|]; [|exists a; by rewrite lookup_insert_ne].
    exists p. rewrite lookup_insert_eq. split; [done|].
    destruct (ci_cached _ Hi id a) as (d & Hd & Hadm & _); [done|].
    destruct (ci_regs _ Hi id p) as (d' & Hd' & Hadm' & _); [cbn; rewrite elem_of_app, elem_of_cons; tauto|]. cbn in *. simplify_eq.
    split; [congruence|]. right. by apply Hlt.
  - apply update_returned_ok in H as (-> & _). destruct (decide (id0 = id)) as [->|]; [|exists a; by rewrite lookup_insert_ne].
    exists p. rewrite lookup_insert_eq. split; [done|]. destruct (ci_cached _ Hi id a) as (d & Hd & Hadm & _ & Hr); [done|].
    destruct (ci_flight _ Hi) as [Hd' _]. cbn in *. simplify_eq. split; [done|]. destruct Hr as [->|?]; auto.
Qed.
Lemma cached_steps w w' id a :
  rtc step w w' → CInv w → w_access w !! id = Some a → ∃ a', w_access w' !! id = Some a' ∧ later a a'.
Proof.
  intros Hst. revert a. induction Hst as [w|w1 w2 w3 H12 _ IH]; intros a Hi Ha; [exists a; split; [done|by split; auto]|].
  destruct (cached_step w1 w2 id a H12 Hi Ha) as (b & Hb & Hab).
  destruct (IH b (CInv_step _ _ H12 Hi) Hb) as (c & Hc & Hbc). eauto using later_trans.
Qed.
End System.
