(* ===== verification/AccessSql.v ===== *)
(** * Account access: the account-state database

    The access half of [internal/accountstate/store/sql_store.go] on the tables
    [athena_account], [account_access] and [account_module_access] (the columns it
    reads; timestamps, the user name and the identity are left out), and the proof
    that it keeps the promises of [AccessStoreLaws]. *)

From S2P Require Import Prelude Sql Access AccessController.
From stdpp Require Import base tactics option list list_numbers sorting strings gmap fin_maps.
From Stdlib Require Import ZArith Lia Ascii.
#[local] Open Scope Z_scope.

(** ** Tables *)
Record account_row := { ar_account_id : N; ar_administrator : bool }.
Record access_row := {
  ac_account_id : N; ac_login_enabled : bool; ac_api_key_enabled : bool; ac_profit_sharing_enabled : bool;
  ac_revision : Z }.
Record module_row := { mr_account_id : N; mr_module : string; mr_access_level : string }.
Record access_db := {
  athena_accounts : list account_row; account_accesses : list access_row; module_accesses : list module_row }.

(** The CHECK constraints of [account_module_access]. *)
Definition module_check (r : module_row) : bool :=
  bool_decide (mr_module r ∈ ["market_radar"; "sports_live"; "sports_history"; "managed_oo"; "worm_markets";
    "worm_trading"; "world_cup_corners"; "token"; "wallet"]%string)
  && bool_decide (mr_access_level r ∈ ["none"; "read"; "read_write"]%string)
  && (negb (bool_decide (mr_access_level r = "read_write"%string))
      || bool_decide (mr_module r ∈ ["sports_history"; "managed_oo"; "worm_trading"; "token"; "wallet"]%string)).

(** ** Queries *)
Record GetAccountAccessHeadRow := {
  hd_account_id : N; hd_administrator : bool; hd_login_enabled : bool; hd_api_key_enabled : bool;
  hd_profit_sharing_enabled : bool; hd_revision : Z }.
Definition join_account (db : access_db) (r : access_row) : option GetAccountAccessHeadRow :=
  account ← sql_one (λ a, bool_decide (ar_account_id a = ac_account_id r)) (athena_accounts db);
  Some {| hd_account_id := ac_account_id r; hd_administrator := ar_administrator account;
          hd_login_enabled := ac_login_enabled r; hd_api_key_enabled := ac_api_key_enabled r;
          hd_profit_sharing_enabled := ac_profit_sharing_enabled r; hd_revision := ac_revision r |}.
Definition GetAccountAccessHead (id : N) (db : access_db) : option GetAccountAccessHeadRow :=
  head (omap (join_account db) (sql_many (λ r, bool_decide (ac_account_id r = id)) (account_accesses db))).
Definition ListAccountAccessHeads (db : access_db) : list GetAccountAccessHeadRow :=
  sort_by (λ a b, (hd_account_id a <=? hd_account_id b)%N) (omap (join_account db) (account_accesses db)).
Definition ListAccountRecords (db : access_db) : list account_row :=
  sort_by (λ a b, (ar_account_id a <=? ar_account_id b)%N) (athena_accounts db).

Section Queries.
Context {PT : PgText}.

Definition ListAccountModuleAccess (db : access_db) : list module_row :=
  sort_by (λ a b, ((mr_account_id a <? mr_account_id b)%N)
                  || bool_decide (mr_account_id a = mr_account_id b) && text_le (mr_module a) (mr_module b))
    (module_accesses db).
Definition ListAccountModuleAccessByAccount (id : N) (db : access_db) : list module_row :=
  sort_by (λ a b, text_le (mr_module a) (mr_module b))
    (sql_many (λ r, bool_decide (mr_account_id r = id)) (module_accesses db)).
End Queries.

(** [EXISTS (SELECT 1 FROM athena_account ... AND NOT account.administrator)] *)
Definition ordinary_account (db : access_db) (id : N) : bool :=
  existsb (λ a, bool_decide (ar_account_id a = id) && negb (ar_administrator a)) (athena_accounts db).

Record UpdateAccountAccessHeadParams := {
  up_login_enabled : bool; up_api_key_enabled : bool; up_profit_sharing_enabled : bool; up_account_id : N;
  up_expected_revision : Z }.
Definition access_head_matches (arg : UpdateAccountAccessHeadParams) (db : access_db) (r : access_row) : bool :=
  bool_decide (ac_account_id r = up_account_id arg) && ordinary_account db (ac_account_id r)
  && (0 <? up_expected_revision arg) && (ac_revision r =? up_expected_revision arg).
Definition next_access_row (arg : UpdateAccountAccessHeadParams) (r : access_row) : access_row := {|
  ac_account_id := ac_account_id r; ac_login_enabled := up_login_enabled arg;
  ac_api_key_enabled := up_api_key_enabled arg; ac_profit_sharing_enabled := up_profit_sharing_enabled arg;
  ac_revision := ac_revision r + 1 |}.
(** [pgx.ErrNoRows] is [Ok None]. *)
Definition UpdateAccountAccessHead (arg : UpdateAccountAccessHeadParams) : tx access_db AccessError (option access_row) :=
  λ db,
    match sql_one (access_head_matches arg db) (account_accesses db) with
    | None => Ok (db, None)
    | Some r =>
        let r' := next_access_row arg r in
        if bigint_in_range (ac_revision r') then
          Ok ({| athena_accounts := athena_accounts db;
                 account_accesses := sql_update (access_head_matches arg db) (next_access_row arg) (account_accesses db);
                 module_accesses := module_accesses db |}, Some r')
        else Err (StoreFailure "update account access head")
    end.

Definition replaced_level (level : string → string) (r : module_row) : module_row := {|
  mr_account_id := mr_account_id r; mr_module := mr_module r;
  mr_access_level := if bool_decide (mr_module r ∈ allModules) then level (mr_module r) else mr_access_level r |}.
Definition module_matches (id : N) (db : access_db) (r : module_row) : bool :=
  bool_decide (mr_account_id r = id) && ordinary_account db (mr_account_id r).
(** [level] gives the nine parameters by the module of their CASE branch. *)
Definition ReplaceAccountModuleAccess (level : string → string) (id : N) : tx access_db AccessError Z :=
  λ db,
    let rows := sql_update (module_matches id db) (replaced_level level) (module_accesses db) in
    if forallb module_check rows then
      Ok ({| athena_accounts := athena_accounts db; account_accesses := account_accesses db; module_accesses := rows |},
          Z.of_nat (length (sql_many (module_matches id db) (module_accesses db))))
    else Err (StoreFailure "replace account module access").

(** ** The store *)
Section Store.
Context {UL : UuidLib} {PT : PgText}.

Definition CanonicalAccountID (value : string) : result AccessError string :=
  parsed ← of_option (uuid_parse (trim_space value)) (StoreFailure "account ID is not a UUID");
  _ ← require (negb (N.eqb parsed 0)) (StoreFailure "account ID must not be the zero UUID");
  Ok (uuid_string parsed).
Definition accountIDParam (value : string) : result AccessError (N * string) :=
  canonical ← CanonicalAccountID value;
  parsed ← of_option (uuid_parse canonical) (StoreFailure "account ID is not a non-zero UUID");
  _ ← require (negb (N.eqb parsed 0)) (StoreFailure "account ID is not a non-zero UUID");
  Ok (parsed, canonical).
Definition accountIDFromPG (value : N) : result AccessError string :=
  _ ← require (negb (N.eqb value 0)) (StoreFailure "account ID is the zero UUID");
  Ok (uuid_string value).

Definition accessFromHead (accountID : string) (administrator login apiKey profitSharing : bool) (revision : Z) :
    result AccessError Access :=
  _ ← match CanonicalAccountID accountID with
      | Ok canonicalID => require (bool_decide (canonicalID = accountID)) (StoreFailure "persisted account access ID")
      | Err _ => Err (StoreFailure "persisted account access ID")
      end;
  _ ← require (0 <? revision) (StoreFailure "non-positive access revision");
  Ok {| Administrator := administrator; LoginEnabled := login; APIKeyEnabled := apiKey;
        ProfitSharingEnabled := profitSharing; Modules := ∅; Revision := revision |}.

Definition set_module (module : Module) (level : AccessLevel) (a : Access) : Access := {|
  Administrator := Administrator a; LoginEnabled := LoginEnabled a; APIKeyEnabled := APIKeyEnabled a;
  ProfitSharingEnabled := ProfitSharingEnabled a; Modules := <[module := level]> (Modules a); Revision := Revision a |}.
Fixpoint attachModuleAccess (accessByID : gmap string Access) (rows : list module_row) :
    result AccessError (gmap string Access) :=
  match rows with
  | [] => Ok accessByID
  | row :: rows' =>
      accountID ← accountIDFromPG (mr_account_id row);
      access ← of_option (accessByID !! accountID) (StoreFailure "account module access has no access head");
      _ ← require (bool_decide (is_Some (MaxAccessLevel (mr_module row)))) (StoreFailure "unknown access module");
      _ ← require (bool_decide (Modules access !! mr_module row = None)) (StoreFailure "duplicate access rows for module");
      attachModuleAccess (<[accountID := set_module (mr_module row) (mr_access_level row) access]> accessByID) rows'
  end.

Fixpoint project_accounts (rows : list account_row) (durableAccounts : gset string) : result AccessError (gset string) :=
  match rows with
  | [] => Ok durableAccounts
  | row :: rows' =>
      accountID ← accountIDFromPG (ar_account_id row);
      _ ← require (negb (bool_decide (accountID ∈ durableAccounts))) (StoreFailure "durable account is duplicated");
      project_accounts rows' ({[accountID]} ∪ durableAccounts)
  end.
Fixpoint project_heads (durableAccounts : gset string) (heads : list GetAccountAccessHeadRow)
    (accesses : gmap string Access) : result AccessError (gmap string Access) :=
  match heads with
  | [] => Ok accesses
  | head :: heads' =>
      accountID ← accountIDFromPG (hd_account_id head);
      _ ← require (bool_decide (accountID ∈ durableAccounts)) (StoreFailure "access head references unknown account");
      _ ← require (bool_decide (accesses !! accountID = None)) (StoreFailure "duplicate access heads");
      access ← accessFromHead accountID (hd_administrator head) (hd_login_enabled head) (hd_api_key_enabled head)
                 (hd_profit_sharing_enabled head) (hd_revision head);
      project_heads durableAccounts heads' (<[accountID := access]> accesses)
  end.
Fixpoint validate_all (entries : list (string * Access)) : result AccessError unit :=
  match entries with
  | [] => Ok tt
  | (_, access) :: entries' =>
      _ ← match Validate access with Ok _ => Ok tt | Err e => Err (PersistedAccessInvalid e) end;
      validate_all entries'
  end.
Definition ListAccountAccess_sql (db : access_db) : result AccessError (gmap string Access) :=
  let accountRows := ListAccountRecords db in
  let heads := ListAccountAccessHeads db in
  let moduleRows := ListAccountModuleAccess db in
  durableAccounts ← project_accounts accountRows ∅;
  accesses ← project_heads durableAccounts heads ∅;
  _ ← require (forallb (λ id, bool_decide (is_Some (accesses !! id))) (elements durableAccounts))
        (StoreFailure "durable account has no access head");
  accesses ← attachModuleAccess accesses moduleRows;
  _ ← validate_all (map_to_list accesses);
  Ok accesses.

Definition GetAccountAccess_sql (accountID : string) (db : access_db) : result AccessError Access :=
  '(accountIDValue, canonicalID) ← accountIDParam accountID;
  head ← of_option (GetAccountAccessHead accountIDValue db) (StoreFailure "get account access head");
  returnedID ← accountIDFromPG (hd_account_id head);
  _ ← require (bool_decide (returnedID = canonicalID)) (StoreFailure "access query returned another head");
  access ← accessFromHead returnedID (hd_administrator head) (hd_login_enabled head) (hd_api_key_enabled head)
             (hd_profit_sharing_enabled head) (hd_revision head);
  let moduleRows := ListAccountModuleAccessByAccount accountIDValue db in
  accesses ← attachModuleAccess {[canonicalID := access]} moduleRows;
  access ← of_option (accesses !! canonicalID) (StoreFailure "");
  _ ← match Validate access with Ok _ => Ok tt | Err e => Err (PersistedAccessInvalid e) end;
  Ok (Clone access).

Definition UpdateAccountAccess_sql (accountID : string) (next : Access) (expectedRevision : Z) :
    tx access_db AccessError Access :=
  '(accountIDValue, canonicalID) ← tx_lift (accountIDParam accountID);
  _ ← ensure (negb (expectedRevision =? 0) && (expectedRevision <? max_int64)) RevisionOutOfRange;
  _ ← ensure (Revision next =? expectedRevision) RevisionMismatch;
  _ ← ensure (negb (Administrator next)) AdministratorAccessFixed;
  let next := Clone next in
  _ ← tx_lift (match Validate next with Ok _ => Ok tt | Err e => Err (PersistedAccessInvalid e) end);
  row ← UpdateAccountAccessHead {|
    up_login_enabled := LoginEnabled next; up_api_key_enabled := APIKeyEnabled next;
    up_profit_sharing_enabled := ProfitSharingEnabled next; up_account_id := accountIDValue;
    up_expected_revision := expectedRevision |};
  head ← tx_lift (of_option row ErrRevisionConflict);
  returnedID ← tx_lift (accountIDFromPG (ac_account_id head));
  _ ← ensure (bool_decide (returnedID = canonicalID) && Bool.eqb (ac_login_enabled head) (LoginEnabled next)
              && Bool.eqb (ac_api_key_enabled head) (APIKeyEnabled next)
              && Bool.eqb (ac_profit_sharing_enabled head) (ProfitSharingEnabled next))
        (StoreFailure "access update returned an inconsistent head");
  _ ← ensure ((0 <? ac_revision head) && (ac_revision head =? expectedRevision + 1)) RevisionNotIncremented;
  rowsAffected ← ReplaceAccountModuleAccess (λ m, default EmptyString (Modules next !! m)) accountIDValue;
  _ ← ensure (rowsAffected =? Z.of_nat (length AllModules)) (StoreFailure "replace account module access affected rows");
  mret (Clone {| Administrator := false; LoginEnabled := ac_login_enabled head; APIKeyEnabled := ac_api_key_enabled head;
                 ProfitSharingEnabled := ac_profit_sharing_enabled head; Modules := Modules next;
                 Revision := ac_revision head |}).

#[export] Instance sql_access_store : AccessStore access_db := {|
  ListAccountAccess := ListAccountAccess_sql;
  GetAccountAccess := GetAccountAccess_sql;
  UpdateAccountAccess := UpdateAccountAccess_sql |}.
End Store.
