(* ===== verification/AccessSqlReads.v ===== *)
(** * Account access: what the database reads return

    The durable aggregates of a well-formed account-state database, and that
    [ListAccountAccess] and [GetAccountAccess] return them. *)

From S2P Require Import Prelude Sql Access AccessController AccessSql.
From stdpp Require Import base tactics option list list_numbers sorting strings gmap fin_maps.
From Stdlib Require Import ZArith Lia Ascii.
#[local] Open Scope Z_scope.

(** ** The aggregates of the tables *)
Definition module_key (r : module_row) : N * string := (mr_account_id r, mr_module r).
Definition rows_of (id : N) (rows : list module_row) : list module_row :=
  sql_many (λ r, bool_decide (mr_account_id r = id)) rows.
Definition levels (rows : list module_row) : gmap string string :=
  list_to_map ((λ r, (mr_module r, mr_access_level r)) <$> rows).
Definition head_access (ms : gmap string string) (h : GetAccountAccessHeadRow) : Access := {|
  Administrator := hd_administrator h; LoginEnabled := hd_login_enabled h; APIKeyEnabled := hd_api_key_enabled h;
  ProfitSharingEnabled := hd_profit_sharing_enabled h; Modules := ms; Revision := hd_revision h |}.
Definition aggregate (db : access_db) (h : GetAccountAccessHeadRow) : Access :=
  head_access (levels (rows_of (hd_account_id h) (module_accesses db))) h.
Definition access_heads (db : access_db) : list GetAccountAccessHeadRow := omap (join_account db) (account_accesses db).

(** Keys and foreign keys of the schema, one head per account and a valid
    aggregate for each; account IDs are non-zero 128-bit values. *)
Record db_ok (db : access_db) : Prop := {
  dk_accounts : NoDup (ar_account_id <$> athena_accounts db);
  dk_ids : ∀ a, a ∈ athena_accounts db → (0 < ar_account_id a < 2 ^ 128)%N;
  dk_heads : NoDup (ac_account_id <$> account_accesses db);
  dk_head_fk : ∀ h, h ∈ account_accesses db → ∃ a, a ∈ athena_accounts db ∧ ar_account_id a = ac_account_id h;
  dk_has_head : ∀ a, a ∈ athena_accounts db → ∃ h, h ∈ account_accesses db ∧ ac_account_id h = ar_account_id a;
  dk_modules : NoDup (module_key <$> module_accesses db);
  dk_module_fk : ∀ r, r ∈ module_accesses db → ∃ h, h ∈ account_accesses db ∧ ac_account_id h = mr_account_id r;
  dk_module_check : ∀ r, r ∈ module_accesses db → module_check r = true;
  dk_valid : ∀ h, h ∈ access_heads db → valid_access (aggregate db h) ∧ 0 < hd_revision h ≤ max_int64 }.

Lemma module_check_known r : module_check r = true → mr_module r ∈ allModules.
Proof. unfold module_check. intros H. bool_prop. done. Qed.

Lemma rows_of_cons_same r rows : rows_of (mr_account_id r) (r :: rows) = r :: rows_of (mr_account_id r) rows.
Proof. unfold rows_of, sql_many. rewrite filter_cons_True; [done|]. by rewrite bool_decide_spec. Qed.
Lemma rows_of_cons_other id r rows : mr_account_id r ≠ id → rows_of id (r :: rows) = rows_of id rows.
Proof. intros. unfold rows_of, sql_many. rewrite filter_cons_False; [done|]. by rewrite bool_decide_spec. Qed.
Lemma NoDup_rows_of id rows : NoDup (module_key <$> rows) → NoDup (mr_module <$> rows_of id rows).
Proof.
  intros Hnd. induction rows as [|r rows IH]; [constructor|].
  rewrite fmap_cons, NoDup_cons in Hnd. destruct Hnd as [Hr Hnd]. specialize (IH Hnd).
  destruct (decide (mr_account_id r = id)) as [<-|]; [|by rewrite rows_of_cons_other].
  rewrite rows_of_cons_same, fmap_cons, NoDup_cons. split; [|done].
  intros (r' & Hm & [Hid Hin]%elem_of_sql_many)%list_elem_of_fmap. bool_prop. apply Hr, list_elem_of_fmap.
  exists r'. unfold module_key. split; [congruence|done].
Qed.
Lemma levels_permutation rows rows' :
  NoDup (mr_module <$> rows) → rows ≡ₚ rows' → levels rows = levels rows'.
Proof.
  intros Hnd Hp. unfold levels. apply list_to_map_proper.
  - rewrite <- list_fmap_compose. exact Hnd.
  - by apply fmap_Permutation.
Qed.
Lemma levels_lookup rows m l :
  NoDup (mr_module <$> rows) → levels rows !! m = Some l ↔ ∃ r, r ∈ rows ∧ mr_module r = m ∧ mr_access_level r = l.
Proof.
  intros Hnd. unfold levels. rewrite <- elem_of_list_to_map by (by rewrite <- list_fmap_compose).
  rewrite list_elem_of_fmap. naive_solver.
Qed.
Lemma levels_None rows m : (∀ r, r ∈ rows → mr_module r ≠ m) → levels rows !! m = None.
Proof.
  intros H. apply not_elem_of_list_to_map. rewrite <- list_fmap_compose.
  intros (r & Hm & Hr)%list_elem_of_fmap. by apply (H r Hr).
Qed.

(** ** Heads *)
Lemma join_account_spec db r :
  (∃ a, a ∈ athena_accounts db ∧ ar_account_id a = ac_account_id r) →
  ∃ a, a ∈ athena_accounts db ∧ ar_account_id a = ac_account_id r
    ∧ join_account db r = Some {| hd_account_id := ac_account_id r; hd_administrator := ar_administrator a;
        hd_login_enabled := ac_login_enabled r; hd_api_key_enabled := ac_api_key_enabled r;
        hd_profit_sharing_enabled := ac_profit_sharing_enabled r; hd_revision := ac_revision r |}.
Proof.
  intros (a & Ha & Hid). unfold join_account.
  destruct (sql_one_is_Some (λ a, bool_decide (ar_account_id a = ac_account_id r)) (athena_accounts db) a Ha) as [a' Ha'].
  { by apply bool_decide_eq_true. }
  rewrite Ha'. apply sql_one_Some in Ha' as [? ?]. bool_prop. by exists a'.
Qed.
Lemma join_ids db (l : list access_row) :
  (∀ h, h ∈ l → ∃ a, a ∈ athena_accounts db ∧ ar_account_id a = ac_account_id h) →
  hd_account_id <$> omap (join_account db) l = ac_account_id <$> l.
Proof.
  induction l as [|h l IH]; intros Hfk; [done|].
  destruct (join_account_spec db h) as (a & _ & _ & Hj); [apply Hfk; by left|].
  cbn [omap list_omap]. rewrite Hj. cbn. f_equal. apply IH. intros h' Hh'. apply Hfk. by right.
Qed.

Section Reads.
Context {UL : UuidLib} {ULaws : UuidLaws} {PT : PgText}.

Definition durable_sql (db : access_db) : gmap string Access :=
  list_to_map ((λ h, (uuid_string (hd_account_id h), aggregate db h)) <$> access_heads db).
Definition canonical_id (id : string) : Prop := ∃ u, (0 < u < 2 ^ 128)%N ∧ id = uuid_string u.

Lemma uuid_string_inj u v : (u < 2 ^ 128)%N → (v < 2 ^ 128)%N → uuid_string u = uuid_string v → u = v.
Proof using ULaws.
  intros Hu Hv H. apply uuid_parse_string in Hu, Hv. rewrite H in Hu. congruence.
Qed.
Lemma accountIDFromPG_ok u : (0 < u)%N → accountIDFromPG u = Ok (uuid_string u).
Proof. intros Hu. unfold accountIDFromPG. by rewrite (proj2 (N.eqb_neq _ _)) by lia. Qed.
Lemma CanonicalAccountID_ok u : (0 < u < 2 ^ 128)%N → CanonicalAccountID (uuid_string u) = Ok (uuid_string u).
Proof using ULaws.
  intros Hu. unfold CanonicalAccountID. rewrite trim_space_printable by apply uuid_string_printable.
  rewrite uuid_parse_string by lia. cbn. by rewrite (proj2 (N.eqb_neq _ _)) by lia.
Qed.
Lemma accountIDParam_ok u : (0 < u < 2 ^ 128)%N → accountIDParam (uuid_string u) = Ok (u, uuid_string u).
Proof using ULaws.
  intros Hu. unfold accountIDParam. rewrite CanonicalAccountID_ok by done. cbn.
  rewrite uuid_parse_string by lia. cbn. by rewrite (proj2 (N.eqb_neq _ _)) by lia.
Qed.
Lemma accessFromHead_ok u adm login key ps rev :
  (0 < u < 2 ^ 128)%N → 0 < rev →
  accessFromHead (uuid_string u) adm login key ps rev
  = Ok {| Administrator := adm; LoginEnabled := login; APIKeyEnabled := key; ProfitSharingEnabled := ps;
          Modules := ∅; Revision := rev |}.
Proof using ULaws.
  intros Hu Hr. unfold accessFromHead. rewrite CanonicalAccountID_ok by done. cbn.
  rewrite bool_decide_eq_true_2 by done. cbn. by rewrite (proj2 (Z.ltb_lt _ _)).
Qed.

(** ** The loops *)
Definition add_levels (l : gmap string string) (a : Access) : Access := {|
  Administrator := Administrator a; LoginEnabled := LoginEnabled a; APIKeyEnabled := APIKeyEnabled a;
  ProfitSharingEnabled := ProfitSharingEnabled a; Modules := l ∪ Modules a; Revision := Revision a |}.
Definition rows_at (k : string) (rows : list module_row) : list module_row :=
  sql_many (λ r, bool_decide (uuid_string (mr_account_id r) = k)) rows.
Lemma rows_at_cons k r rows :
  rows_at k (r :: rows) = if bool_decide (uuid_string (mr_account_id r) = k) then r :: rows_at k rows else rows_at k rows.
Proof. unfold rows_at, sql_many. rewrite filter_cons. case_bool_decide; by case_decide. Qed.
Lemma rows_at_id u rows :
  (u < 2 ^ 128)%N → (∀ r, r ∈ rows → (mr_account_id r < 2 ^ 128)%N) → rows_at (uuid_string u) rows = rows_of u rows.
Proof using ULaws.
  intros Hu. induction rows as [|r rows IH]; intros Hrows; [done|].
  specialize (IH (λ r' Hr', Hrows r' (proj2 (elem_of_cons _ _ _) (or_intror Hr')))).
  rewrite rows_at_cons, IH. case_bool_decide as Hk.
  - apply uuid_string_inj in Hk as <-; [by rewrite rows_of_cons_same|apply Hrows; by left|done].
  - rewrite rows_of_cons_other; congruence.
Qed.

Lemma attach_spec rows m :
  NoDup (module_key <$> rows) →
  (∀ r, r ∈ rows → (0 < mr_account_id r < 2 ^ 128)%N ∧ mr_module r ∈ allModules
    ∧ ∃ a, m !! uuid_string (mr_account_id r) = Some a ∧ Modules a !! mr_module r = None) →
  ∃ m', attachModuleAccess m rows = Ok m' ∧ ∀ k, m' !! k = add_levels (levels (rows_at k rows)) <$> m !! k.
Proof using ULaws.
  revert m. induction rows as [|r rows IH]; intros m Hnd Hrows.
  { exists m. split; [done|]. intros k. destruct (m !! k) as [[]|]; [|done]. cbn. unfold add_levels.
    change (levels (rows_at k [])) with (∅ : gmap string string). by rewrite (left_id_L ∅ (∪)). }
  rewrite fmap_cons, NoDup_cons in Hnd. destruct Hnd as [Hr Hnd].
  destruct (Hrows r) as (Hid & Hmod & a & Ha & Hnone); [by left|].
  assert (∀ r', r' ∈ rows → mr_account_id r' = mr_account_id r → mr_module r' ≠ mr_module r) as Hdiff.
  { intros r' Hr' Heq Hm. apply Hr, list_elem_of_fmap. exists r'. unfold module_key. by rewrite Heq, Hm. }
  destruct (IH (<[uuid_string (mr_account_id r) := set_module (mr_module r) (mr_access_level r) a]> m) Hnd)
    as (m' & Hm' & Hlook).
  { intros r' Hr'. destruct (Hrows r') as (Hid' & Hmod' & a' & Ha' & Hnone'); [by right|]. split_and!; [lia|lia|done|].
    destruct (decide (mr_account_id r' = mr_account_id r)) as [Heq|Hne].
    - rewrite Heq in *. simplify_eq. rewrite lookup_insert_eq. eexists. split; [done|]. cbn.
      rewrite lookup_insert_ne; [done|]. intros Hm. by apply (Hdiff r').
    - exists a'. rewrite lookup_insert_ne; [done|]. intros Hk%uuid_string_inj; [congruence|lia|lia]. }
  exists m'. split.
  - cbn [attachModuleAccess]. rewrite accountIDFromPG_ok by lia. cbn. rewrite Ha. cbn.
    rewrite (bool_decide_eq_true_2 _ (proj2 (known_module _) Hmod)). cbn. by rewrite bool_decide_eq_true_2.
  - intros k. rewrite Hlook, rows_at_cons. case_bool_decide as Hk; [|by rewrite lookup_insert_ne].
    subst k. rewrite lookup_insert_eq, Ha. cbn. f_equal. unfold add_levels, set_module. cbn. f_equal.
    rewrite <- insert_union_l, <- insert_union_r; [done|]. apply levels_None.
    intros r' [Hk Hr']%elem_of_sql_many. bool_prop. apply Hdiff; [done|].
    destruct (Hrows r') as (? & _); [by right|]. apply uuid_string_inj; [lia|lia|done].
Qed.

Lemma project_accounts_spec rows seen :
  NoDup (ar_account_id <$> rows) →
  (∀ r, r ∈ rows → (0 < ar_account_id r < 2 ^ 128)%N ∧ uuid_string (ar_account_id r) ∉ seen) →
  project_accounts rows seen = Ok (list_to_set ((λ r, uuid_string (ar_account_id r)) <$> rows) ∪ seen).
Proof using ULaws.
  revert seen. induction rows as [|r rows IH]; intros seen Hnd Hrows; [cbn; f_equal; set_solver|].
  rewrite fmap_cons, NoDup_cons in Hnd. destruct Hnd as [Hr Hnd]. destruct (Hrows r) as [Hid Hns]; [by left|].
  cbn [project_accounts]. rewrite accountIDFromPG_ok by lia. cbn. rewrite bool_decide_eq_false_2 by done. cbn.
  rewrite IH; [f_equal; set_solver|done|]. intros r' Hr'. destruct (Hrows r') as [? ?]; [by right|]. split; [done|].
  intros [Heq%elem_of_singleton|?]%elem_of_union; [|done]. apply uuid_string_inj in Heq; [|lia|lia].
  apply Hr, list_elem_of_fmap. eauto.
Qed.

Definition head_entry (h : GetAccountAccessHeadRow) : string * Access :=
  (uuid_string (hd_account_id h), head_access ∅ h).
Lemma project_heads_spec known heads m :
  NoDup (hd_account_id <$> heads) →
  (∀ h, h ∈ heads → (0 < hd_account_id h < 2 ^ 128)%N ∧ uuid_string (hd_account_id h) ∈ known
    ∧ m !! uuid_string (hd_account_id h) = None ∧ 0 < hd_revision h) →
  project_heads known heads m = Ok (m ∪ list_to_map (head_entry <$> heads)).
Proof using ULaws.
  revert m. induction heads as [|h heads IH]; intros m Hnd Hh; [cbn; by rewrite (right_id_L ∅ (∪))|].
  rewrite fmap_cons, NoDup_cons in Hnd. destruct Hnd as [Hr Hnd]. destruct (Hh h) as (Hid & Hk & Hn & Hrev); [by left|].
  cbn [project_heads]. rewrite accountIDFromPG_ok by lia. cbn. rewrite !bool_decide_eq_true_2 by done. cbn.
  rewrite accessFromHead_ok by done. cbn. rewrite IH; [|done|].
  - f_equal. rewrite <- insert_union_l, <- insert_union_r by done. done.
  - intros h' Hh'. destruct (Hh h') as (? & ? & ? & ?); [by right|]. split_and!; [lia|lia|done| |done].
    rewrite lookup_insert_ne; [done|]. intros Heq%uuid_string_inj; [|lia|lia]. apply Hr, list_elem_of_fmap. eauto.
Qed.
Lemma validate_all_ok entries : validate_all entries = Ok tt ↔ ∀ id a, (id, a) ∈ entries → valid_access a.
Proof.
  induction entries as [|[id a] entries IH]; cbn [validate_all].
  { split; [|done]. by intros _ ? ? ?%not_elem_of_nil. }
  rewrite result_bind_ok. split.
  - intros ([] & Ha & Hr) id' a' [?|?]%elem_of_cons; simplify_eq; [|by eapply IH].
    apply Validate_ok. by destruct (Validate a) as [[]|].
  - intros Hall. exists tt. rewrite IH. rewrite (proj2 (Validate_ok a)) by (apply (Hall id); left). split; [done|].
    intros id' a' ?. apply (Hall id'). by right.
Qed.

(** ** Reads return the durable aggregates *)
Section Database.
Context (db : access_db) (Hdb : db_ok db).

Lemma heads_ids : hd_account_id <$> access_heads db = ac_account_id <$> account_accesses db.
Proof using Hdb. apply join_ids, (dk_head_fk _ Hdb). Qed.
Lemma heads_NoDup : NoDup (hd_account_id <$> access_heads db).
Proof using Hdb. rewrite heads_ids. apply (dk_heads _ Hdb). Qed.
Lemma head_joined h : h ∈ access_heads db → ∃ r, r ∈ account_accesses db ∧ join_account db r = Some h.
Proof. unfold access_heads. rewrite list_elem_of_omap. naive_solver. Qed.
Lemma join_account_id r h : join_account db r = Some h → hd_account_id h = ac_account_id r.
Proof. unfold join_account. intros (a & _ & H)%bind_Some. by simplify_eq. Qed.
Lemma access_row_bound r : r ∈ account_accesses db → (0 < ac_account_id r < 2 ^ 128)%N.
Proof using Hdb. intros Hr. destruct (dk_head_fk _ Hdb r Hr) as (a & Ha & <-). by apply (dk_ids _ Hdb). Qed.
Lemma head_bound h : h ∈ access_heads db → (0 < hd_account_id h < 2 ^ 128)%N.
Proof using Hdb. intros (r & Hr & Hj)%head_joined. rewrite (join_account_id r h Hj). by apply access_row_bound. Qed.
Lemma head_of_row r : r ∈ account_accesses db → ∃ h, h ∈ access_heads db ∧ join_account db r = Some h.
Proof using Hdb.
  intros Hr. destruct (join_account_spec db r (dk_head_fk _ Hdb r Hr)) as (a & _ & _ & Hj).
  eexists. split; [|exact Hj]. unfold access_heads. rewrite list_elem_of_omap. eauto.
Qed.
Lemma module_row_bound r : r ∈ module_accesses db → (0 < mr_account_id r < 2 ^ 128)%N.
Proof using Hdb. intros Hr. destruct (dk_module_fk _ Hdb r Hr) as (h & Hh & <-). by apply access_row_bound. Qed.

Lemma entries_NoDup (f : GetAccountAccessHeadRow → Access) :
  NoDup (((λ h, (uuid_string (hd_account_id h), f h)) <$> access_heads db).*1).
Proof using Hdb ULaws.
  rewrite <- list_fmap_compose. apply NoDup_fmap_2_strong; [|apply NoDup_fmap_1 with hd_account_id, heads_NoDup].
  intros h h' Hh Hh' Heq. cbn in Heq. pose proof (head_bound h Hh). pose proof (head_bound h' Hh').
  apply uuid_string_inj in Heq; [|lia|lia]. by apply (NoDup_key_inj hd_account_id _ _ _ heads_NoDup).
Qed.
Lemma entries_lookup (f : GetAccountAccessHeadRow → Access) k a :
  (list_to_map ((λ h, (uuid_string (hd_account_id h), f h)) <$> access_heads db) : gmap string Access) !! k = Some a
  ↔ ∃ h, h ∈ access_heads db ∧ k = uuid_string (hd_account_id h) ∧ a = f h.
Proof using Hdb ULaws.
  rewrite <- elem_of_list_to_map by apply entries_NoDup. rewrite list_elem_of_fmap. naive_solver.
Qed.
Lemma durable_lookup k a :
  durable_sql db !! k = Some a
  ↔ ∃ h, h ∈ access_heads db ∧ k = uuid_string (hd_account_id h) ∧ a = aggregate db h.
Proof using Hdb ULaws. apply entries_lookup. Qed.

Lemma levels_of_rows h (rows : list module_row) :
  h ∈ access_heads db → rows ≡ₚ rows_of (hd_account_id h) (module_accesses db) →
  add_levels (levels rows) (head_access ∅ h) = aggregate db h.
Proof using Hdb.
  intros Hh Hp. unfold aggregate, add_levels, head_access. cbn. f_equal. rewrite (right_id_L ∅ (∪)).
  symmetry. apply levels_permutation; [|done]. apply NoDup_rows_of, (dk_modules _ Hdb).
Qed.

(** The three loops of [ListAccountAccess]. *)
Lemma accounts_projected :
  ∃ known, project_accounts (ListAccountRecords db) ∅ = Ok known
    ∧ ∀ k, k ∈ known ↔ ∃ a, a ∈ athena_accounts db ∧ k = uuid_string (ar_account_id a).
Proof using Hdb ULaws.
  eexists. split.
  - apply project_accounts_spec.
    + unfold ListAccountRecords. rewrite sort_by_Permutation. apply (dk_accounts _ Hdb).
    + intros r Hr%sort_by_elem. split; [by apply (dk_ids _ Hdb)|set_solver].
  - intros k. rewrite elem_of_union, elem_of_list_to_set, list_elem_of_fmap. unfold ListAccountRecords.
    setoid_rewrite sort_by_elem. set_solver.
Qed.
Lemma heads_projected (known : gset string) :
  (∀ k, k ∈ known ↔ ∃ a, a ∈ athena_accounts db ∧ k = uuid_string (ar_account_id a)) →
  project_heads known (ListAccountAccessHeads db) ∅ = Ok (list_to_map (head_entry <$> access_heads db)).
Proof using Hdb ULaws.
  intros Hknown. rewrite project_heads_spec.
  - f_equal. rewrite (left_id_L ∅ (∪)). symmetry. apply list_to_map_proper; [apply entries_NoDup|].
    apply fmap_Permutation. symmetry. apply sort_by_Permutation.
  - unfold ListAccountAccessHeads. rewrite sort_by_Permutation. apply heads_NoDup.
  - intros h Hh%sort_by_elem. split_and!; [by apply head_bound..| |done|by apply (dk_valid _ Hdb)].
    apply Hknown. destruct (head_joined h Hh) as (r & Hr & Hj). destruct (dk_head_fk _ Hdb r Hr) as (a & Ha & Hid).
    exists a. by rewrite (join_account_id r h Hj), Hid.
Qed.
(** Rows that are all of the module rows (of one account) complete the aggregates. *)
Lemma modules_attached (m : gmap string Access) (rows : list module_row) :
  (∀ k a, m !! k = Some a → ∃ h, h ∈ access_heads db ∧ k = uuid_string (hd_account_id h) ∧ a = head_access ∅ h
     ∧ rows_of (hd_account_id h) rows ≡ₚ rows_of (hd_account_id h) (module_accesses db)) →
  NoDup (module_key <$> rows) →
  (∀ r, r ∈ rows → r ∈ module_accesses db ∧ is_Some (m !! uuid_string (mr_account_id r))) →
  ∃ m', attachModuleAccess m rows = Ok m' ∧
    ∀ k, match m !! k with Some _ => m' !! k = durable_sql db !! k | None => m' !! k = None end.
Proof using Hdb ULaws.
  intros Hm Hnd Hrows. destruct (attach_spec rows m Hnd) as (m' & Hm' & Hlook).
  { intros r Hr. destruct (Hrows r Hr) as (Hin & a & Ha).
    split_and!; [by apply module_row_bound..|by apply module_check_known, (dk_module_check _ Hdb)|].
    exists a. split; [done|]. by destruct (Hm _ _ Ha) as (h & _ & _ & -> & _). }
  exists m'. split; [done|]. intros k. rewrite Hlook. destruct (m !! k) as [a|] eqn:Ha; [|done]. cbn.
  destruct (Hm _ _ Ha) as (h & Hh & -> & -> & Hp). symmetry. apply durable_lookup. exists h. split_and!; [done..|].
  apply levels_of_rows; [done|]. rewrite rows_at_id; [done|by apply head_bound|].
  intros r Hr. by apply module_row_bound, Hrows.
Qed.

Lemma list_sql_durable : ListAccountAccess_sql db = Ok (durable_sql db).
Proof using Hdb ULaws.
  unfold ListAccountAccess_sql. destruct accounts_projected as (known & Hacc & Hknown).
  rewrite Hacc. apply result_bind_ok. exists known. split; [done|]. rewrite (heads_projected known Hknown).
  apply result_bind_ok. eexists. split; [done|]. apply result_bind_ok. exists tt. split.
  { apply require_ok, forallb_forall. intros k Hk%list_elem_of_In%elem_of_elements%Hknown.
    apply bool_decide_eq_true. destruct Hk as (a & Ha & ->).
    destruct (dk_has_head _ Hdb a Ha) as (r & Hr & Hid). destruct (head_of_row r Hr) as (h & Hh & Hj).
    exists (head_access ∅ h). apply entries_lookup. exists h. by rewrite (join_account_id r h Hj), Hid. }
  destruct (modules_attached (list_to_map (head_entry <$> access_heads db)) (ListAccountModuleAccess db))
    as (m & Hm & Hlook).
  { intros k a (h & Hh & -> & ->)%entries_lookup. exists h. split_and!; [done..|].
    apply filter_Permutation, sort_by_Permutation. }
  { unfold ListAccountModuleAccess. rewrite sort_by_Permutation. apply (dk_modules _ Hdb). }
  { intros r Hr%sort_by_elem. split; [done|]. destruct (dk_module_fk _ Hdb r Hr) as (x & Hx & Hid).
    destruct (head_of_row x Hx) as (h & Hh & Hj). exists (head_access ∅ h). apply entries_lookup. exists h.
    by rewrite (join_account_id x h Hj), Hid. }
  apply result_bind_ok. exists m. split; [done|]. assert (m = durable_sql db) as ->.
  { apply map_eq. intros k. specialize (Hlook k). destruct (list_to_map _ !! k) as [a|] eqn:Hk; [done|].
    rewrite Hlook. symmetry. apply eq_None_not_Some. intros [a (h & Hh & -> & _)%durable_lookup].
    assert (∃ b, (list_to_map (head_entry <$> access_heads db) : gmap string Access) !! uuid_string (hd_account_id h)
                 = Some b) as [b Hb]; [|congruence].
    exists (head_access ∅ h). apply entries_lookup. eauto. }
  apply result_bind_ok. exists tt. split; [|done]. apply validate_all_ok.
  intros id a (h & Hh & _ & ->)%elem_of_map_to_list%durable_lookup. by apply (dk_valid _ Hdb).
Qed.

Lemma head_query h : h ∈ access_heads db → GetAccountAccessHead (hd_account_id h) db = Some h.
Proof using Hdb.
  intros Hh. destruct (head_joined h Hh) as (r & Hr & Hj). unfold GetAccountAccessHead.
  set (rows := sql_many _ _). assert (∀ x, x ∈ rows → x = r) as Hall.
  { intros x [Hx Hin]%elem_of_sql_many. bool_prop. rewrite (join_account_id r h Hj) in Hx.
    by apply (NoDup_key_inj ac_account_id _ _ _ (dk_heads _ Hdb)). }
  assert (r ∈ rows) as Hin.
  { apply elem_of_sql_many. rewrite (join_account_id r h Hj). by rewrite bool_decide_eq_true. }
  destruct rows as [|x rows']; [by apply not_elem_of_nil in Hin|]. rewrite (Hall x) by left. cbn. by rewrite Hj.
Qed.
Lemma head_query_none u : (∀ h, h ∈ access_heads db → hd_account_id h ≠ u) → GetAccountAccessHead u db = None.
Proof using Hdb.
  intros Hn. unfold GetAccountAccessHead. rewrite sql_many_none; [done|]. intros r Hr.
  apply bool_decide_eq_false. intros Hid. destruct (head_of_row r Hr) as (h & Hh & Hj).
  apply (Hn h Hh). by rewrite (join_account_id r h Hj).
Qed.
Lemma get_sql_durable id :
  canonical_id id →
  match durable_sql db !! id with
  | Some a => GetAccountAccess_sql id db = Ok a
  | None => ∃ e, GetAccountAccess_sql id db = Err e end.
Proof using Hdb ULaws.
  intros (u & Hu & ->). unfold GetAccountAccess_sql. rewrite accountIDParam_ok by done.
  destruct (durable_sql db !! uuid_string u) as [a|] eqn:Hd; cycle 1.
  { cbn. rewrite head_query_none; [by eexists|]. intros h Hh <-. apply eq_None_not_Some in Hd. apply Hd.
    exists (aggregate db h). apply durable_lookup. eauto. }
  pose proof Hd as (h & Hh & Heq & ->)%durable_lookup. pose proof (head_bound h Hh) as Hb.
  apply uuid_string_inj in Heq as ->; [|lia|lia]. cbn. rewrite head_query by done. cbn.
  rewrite accountIDFromPG_ok by lia. cbn. rewrite bool_decide_eq_true_2 by done. cbn.
  destruct (dk_valid _ Hdb h Hh) as [Hv Hr]. rewrite accessFromHead_ok by lia. cbn.
  destruct (modules_attached {[uuid_string (hd_account_id h) := head_access ∅ h]}
    (ListAccountModuleAccessByAccount (hd_account_id h) db)) as (m & Hm & Hlook).
  { intros k a [<- <-]%lookup_singleton_Some. exists h. split_and!; [done..|]. unfold rows_of at 1.
    etrans; [apply filter_Permutation, sort_by_Permutation|]. unfold rows_of, sql_many. by rewrite list_filter_filter_l. }
  { unfold ListAccountModuleAccessByAccount. rewrite sort_by_Permutation. apply NoDup_sql_many, (dk_modules _ Hdb). }
  { intros r [Hid Hin]%sort_by_elem%elem_of_sql_many. bool_prop. rewrite Hid, lookup_singleton_eq. eauto. }
  unfold head_access at 1 in Hm. rewrite Hm. cbn.
  specialize (Hlook (uuid_string (hd_account_id h))). rewrite lookup_singleton_eq, Hd in Hlook. rewrite Hlook. cbn.
  rewrite (proj2 (Validate_ok _) Hv). cbn. by rewrite Clone_id.
Qed.
End Database.
End Reads.
