(* ===== verification/AccessSqlLaws.v ===== *)
(** * Account access: updates of the database

    [UpdateAccountAccess] replaces one durable aggregate or fails, and the
    account-state database is an [AccessStore] with its laws. *)

From S2P Require Import Prelude Sql Access AccessController AccessSql AccessSqlReads.
From stdpp Require Import base tactics option list list_numbers sorting strings gmap fin_maps.
From Stdlib Require Import ZArith Lia Ascii.
#[local] Open Scope Z_scope.

(** ** Lemmas on the statements *)
Lemma module_check_level m l u :
  m ∈ allModules →
  l = AccessLevelNone ∨ l = AccessLevelRead ∨ (l = AccessLevelReadWrite ∧ MaxAccessLevel m = Some AccessLevelReadWrite) →
  module_check {| mr_account_id := u; mr_module := m; mr_access_level := l |} = true.
Proof.
  intros Hm Hl. unfold module_check. cbn [mr_module mr_access_level]. rewrite (bool_decide_eq_true_2 _ Hm). cbn [andb].
  destruct Hl as [->|[->|[-> Hmax]]]; [done|done|]. cbn. revert Hmax. unfold MaxAccessLevel.
  case_bool_decide; [done|]. by case_bool_decide as Hrw; [|done].
Qed.

Lemma rows_of_update_other id p f rows :
  (∀ r, p r = true → mr_account_id r ≠ id) → (∀ r, mr_account_id (f r) = mr_account_id r) →
  rows_of id (sql_update p f rows) = rows_of id rows.
Proof.
  intros Hp Hf. induction rows as [|r rows IH]; [done|]. unfold sql_update in *. cbn [fmap list_fmap].
  destruct (p r) eqn:E.
  - rewrite !rows_of_cons_other; [done|auto|rewrite Hf; auto].
  - destruct (decide (mr_account_id r = id)) as [<-|]; [by rewrite !rows_of_cons_same, IH|by rewrite !rows_of_cons_other].
Qed.
Lemma rows_of_update_same id p f rows :
  (∀ r, mr_account_id r = id → p r = true) → (∀ r, mr_account_id (f r) = mr_account_id r) →
  rows_of id (sql_update p f rows) = f <$> rows_of id rows.
Proof.
  intros Hp Hf. induction rows as [|r rows IH]; [done|]. unfold sql_update in *. cbn [fmap list_fmap].
  destruct (decide (mr_account_id r = id)) as [Hid|].
  - rewrite (Hp r Hid). subst id. rewrite rows_of_cons_same, fmap_cons, <- IH. rewrite <- (Hf r) at 1.
    by rewrite rows_of_cons_same, Hf.
  - destruct (p r); rewrite !rows_of_cons_other; rewrite ?Hf; done.
Qed.

Lemma ordinary_account_spec db u :
  NoDup (ar_account_id <$> athena_accounts db) →
  ordinary_account db u = true ↔ ∃ a, a ∈ athena_accounts db ∧ ar_account_id a = u ∧ ar_administrator a = false.
Proof.
  intros Hnd. unfold ordinary_account. rewrite existsb_elem. setoid_rewrite andb_true_iff.
  setoid_rewrite bool_decide_eq_true. setoid_rewrite negb_true_iff. naive_solver.
Qed.

Section Update.
Context {UL : UuidLib} {ULaws : UuidLaws} {PT : PgText}.
Context (db : access_db) (Hdb : db_ok db).
Context (u : N) (Hu : (0 < u < 2 ^ 128)%N) (next : Access) (Hnext : valid_access next) (Hord : Administrator next = false).
Context (Hrange : 0 < Revision next < max_int64).

Definition update_arg : UpdateAccountAccessHeadParams := {|
  up_login_enabled := LoginEnabled next; up_api_key_enabled := APIKeyEnabled next;
  up_profit_sharing_enabled := ProfitSharingEnabled next; up_account_id := u; up_expected_revision := Revision next |}.
Definition next_level (m : string) : string := default EmptyString (Modules next !! m).
Definition updated_db : access_db := {|
  athena_accounts := athena_accounts db;
  account_accesses := sql_update (access_head_matches update_arg db) (next_access_row update_arg) (account_accesses db);
  module_accesses := sql_update (module_matches u db) (replaced_level next_level) (module_accesses db) |}.
Definition updated_head : GetAccountAccessHeadRow := {|
  hd_account_id := u; hd_administrator := false; hd_login_enabled := LoginEnabled next;
  hd_api_key_enabled := APIKeyEnabled next; hd_profit_sharing_enabled := ProfitSharingEnabled next;
  hd_revision := Revision next + 1 |}.

(** A head is matched exactly when the durable aggregate is that of an ordinary
    account at the expected revision. *)
Lemma matched_row r :
  r ∈ account_accesses db → access_head_matches update_arg db r = true →
  ∃ old, durable_sql db !! uuid_string u = Some old ∧ Administrator old = false ∧ Revision old = Revision next.
Proof using Hdb ULaws.
  intros Hr Hm. unfold access_head_matches in Hm. cbn in Hm. bool_prop.
  destruct (join_account_spec db r (dk_head_fk _ Hdb r Hr)) as (a & Ha & Hid & Hj).
  match goal with Ho : ordinary_account _ _ = true |- _ =>
    apply (ordinary_account_spec _ _ (dk_accounts _ Hdb)) in Ho as (a' & Ha' & Hid' & Hadm) end.
  assert (a' = a) as -> by (apply (NoDup_key_inj ar_account_id _ _ _ (dk_accounts _ Hdb)); congruence).
  eexists. split; [apply (durable_lookup _ Hdb); eexists; split; [unfold access_heads; rewrite list_elem_of_omap; eauto|]|].
  - cbn. split; [congruence|done].
  - cbn. by split.
Qed.
Lemma matching_row old :
  durable_sql db !! uuid_string u = Some old → Administrator old = false → Revision old = Revision next →
  ∃ r, r ∈ account_accesses db ∧ access_head_matches update_arg db r = true.
Proof using Hdb ULaws Hu Hrange.
  intros (h & Hh & Heq & ->)%(durable_lookup _ Hdb) Hadm Hrev. pose proof (head_bound _ Hdb h Hh).
  apply uuid_string_inj in Heq; [|lia|lia]. destruct (head_joined _ h Hh) as (r & Hr & Hj).
  exists r. split; [done|]. destruct (join_account_spec db r (dk_head_fk _ Hdb r Hr)) as (a & Ha & Hid & Hj').
  rewrite Hj in Hj'. simplify_eq. cbn in *. unfold access_head_matches. cbn.
  rewrite bool_decide_eq_true_2 by done. cbn.
  rewrite (proj2 (ordinary_account_spec _ _ (dk_accounts _ Hdb))) by eauto. cbn.
  rewrite (proj2 (Z.ltb_lt _ _)) by lia. cbn. by apply Z.eqb_eq.
Qed.

Section Matched.
Context (r : access_row) (Hr : r ∈ account_accesses db) (Hm : access_head_matches update_arg db r = true).

Lemma matched_facts : ac_account_id r = u ∧ ordinary_account db u = true ∧ ac_revision r = Revision next.
Proof using Hm.
  pose proof Hm as Hm'. unfold access_head_matches in Hm'. cbn in Hm'. rewrite !andb_true_iff in Hm'.
  destruct Hm' as [[[Hid%bool_decide_eq_true Ho] _] Hrev%Z.eqb_eq]. rewrite <- Hid. done.
Qed.
Lemma matched_head : ∃ h, h ∈ access_heads db ∧ hd_account_id h = u ∧ hd_administrator h = false.
Proof using Hdb Hr Hm.
  destruct matched_facts as (Hid & Ho & _). apply (ordinary_account_spec _ _ (dk_accounts _ Hdb)) in Ho as (a & Ha & Ha1 & Ha2).
  destruct (join_account_spec db r (dk_head_fk _ Hdb r Hr)) as (a' & Ha' & Hid' & Hj).
  assert (a' = a) as -> by (apply (NoDup_key_inj ar_account_id _ _ _ (dk_accounts _ Hdb)); congruence).
  eexists. split; [unfold access_heads; rewrite list_elem_of_omap; eauto|]. by cbn.
Qed.

Lemma updated_rows x :
  x ∈ account_accesses updated_db ↔ x = next_access_row update_arg r ∨ (x ∈ account_accesses db ∧ ac_account_id x ≠ u).
Proof using Hdb Hr Hm.
  destruct matched_facts as (Hid & _).
  pose proof (sql_update_one ac_account_id (access_head_matches update_arg db) (next_access_row update_arg)
    (account_accesses db) r x (dk_heads _ Hdb) Hr Hm) as Hup. rewrite Hid in Hup. apply Hup.
  intros r' Hr'. unfold access_head_matches in Hr'. cbn in Hr'. rewrite !andb_true_iff, bool_decide_eq_true in Hr'.
  by destruct Hr' as [[[? _] _] _].
Qed.
Lemma updated_heads h :
  h ∈ access_heads updated_db ↔ h = updated_head ∨ (h ∈ access_heads db ∧ hd_account_id h ≠ u).
Proof using Hdb Hr Hm.
  destruct matched_facts as (Hid & Ho & Hrev).
  assert (join_account updated_db (next_access_row update_arg r) = Some updated_head) as Hnew.
  { apply (ordinary_account_spec _ _ (dk_accounts _ Hdb)) in Ho as (a & Ha & Ha1 & Ha2).
    destruct (join_account_spec updated_db (next_access_row update_arg r)) as (a' & Ha' & Hid' & ->).
    - exists a. cbn. split; [done|congruence].
    - assert (a' = a) as -> by (apply (NoDup_key_inj ar_account_id _ _ _ (dk_accounts _ Hdb)); cbn in *; congruence).
      unfold updated_head. cbn. congruence. }
  unfold access_heads. rewrite !list_elem_of_omap. setoid_rewrite updated_rows. split.
  - intros (x & [->|[Hx Hne]] & Hj); [left; congruence|right]. pose proof (join_account_id updated_db _ _ Hj) as ->. eauto.
  - intros [->|[(x & Hx & Hj) Hne]]; [eauto|]. exists x. rewrite <- (join_account_id db _ _ Hj). eauto.
Qed.

Lemma module_matches_iff x : module_matches u db x = true ↔ mr_account_id x = u.
Proof using Hm.
  destruct matched_facts as (_ & Ho & _). unfold module_matches. rewrite andb_true_iff, bool_decide_eq_true.
  split; [by intros [? _]|]. intros ->. done.
Qed.
Lemma updated_module_ids : module_key <$> module_accesses updated_db = module_key <$> module_accesses db.
Proof. apply sql_update_key. done. Qed.
Lemma updated_module_row x :
  x ∈ module_accesses updated_db → ∃ y, y ∈ module_accesses db ∧ module_key y = module_key x
    ∧ (x = y ∨ x = replaced_level next_level y).
Proof. intros (y & Hy & ->)%elem_of_sql_update. exists y. destruct (module_matches u db y); auto. Qed.

Lemma aggregate_other h : hd_account_id h ≠ u → aggregate updated_db h = aggregate db h.
Proof using Hm.
  intros Hne. unfold aggregate. f_equal. f_equal. apply rows_of_update_other; [|done].
  intros x ->%module_matches_iff. congruence.
Qed.
Lemma aggregate_updated : aggregate updated_db updated_head = with_revision (Revision next + 1) next.
Proof using Hdb Hr Hm Hnext Hord.
  unfold aggregate, head_access, with_revision. cbn. rewrite Hord. f_equal. clear Hu.
  destruct matched_head as (h & Hh & Hhu & _). destruct (dk_valid _ Hdb h Hh) as [Hv _].
  rewrite rows_of_update_same; [|by intros x; rewrite module_matches_iff|done].
  set (rows := rows_of u (module_accesses db)).
  assert (NoDup (mr_module <$> rows)) as Hnd by apply NoDup_rows_of, (dk_modules _ Hdb).
  apply map_eq. intros m. apply option_eq. intros l. rewrite levels_lookup by (by rewrite <- list_fmap_compose).
  setoid_rewrite list_elem_of_fmap. split.
  - intros (x & (y & -> & Hy) & Hxm & Hl). cbn in Hxm, Hl. subst m.
    assert (mr_module y ∈ allModules) as Hin by
      (apply elem_of_sql_many in Hy as [_ Hy]; by apply module_check_known, (dk_module_check _ Hdb)).
    rewrite bool_decide_eq_true_2 in Hl by done. destruct (proj2 (va_modules _ Hnext _) Hin) as [l' Hl'].
    unfold next_level in Hl. rewrite Hl' in Hl. cbn in Hl. by subst.
  - intros Hl. assert (m ∈ allModules) as Hin by (apply (va_modules _ Hnext); eauto).
    destruct (proj2 (va_modules _ Hv m) Hin) as [l0 Hl0]. unfold aggregate in Hl0. cbn in Hl0. rewrite Hhu in Hl0.
    apply levels_lookup in Hl0 as (y & Hy & Hym & _); [|done]. exists (replaced_level next_level y).
    split; [eauto|]. split; [done|]. cbn. rewrite Hym, bool_decide_eq_true_2 by done. unfold next_level. by rewrite Hl.
Qed.

Lemma updated_check x : x ∈ module_accesses updated_db → module_check x = true.
Proof using Hdb Hnext.
  intros (y & Hy & _ & [->| ->])%updated_module_row; [by apply (dk_module_check _ Hdb)|].
  assert (mr_module y ∈ allModules) as Hin by (by apply module_check_known, (dk_module_check _ Hdb)).
  unfold replaced_level. rewrite bool_decide_eq_true_2 by done. apply module_check_level; [done|].
  destruct (proj2 (va_modules _ Hnext _) Hin) as [l Hl]. unfold next_level. rewrite Hl. cbn.
  by apply (va_levels _ Hnext (mr_module y)).
Qed.
Lemma updated_count : Z.of_nat (length (sql_many (module_matches u db) (module_accesses db))) = Z.of_nat (length AllModules).
Proof using Hdb Hr Hm.
  destruct matched_head as (h & Hh & Hhu & _). destruct (dk_valid _ Hdb h Hh) as [Hv _].
  assert (sql_many (module_matches u db) (module_accesses db) = rows_of u (module_accesses db)) as ->.
  { unfold rows_of, sql_many. apply list_filter_iff. intros x. rewrite Is_true_true, module_matches_iff, bool_decide_spec. done. }
  pose proof (size_of_modules _ (va_modules _ Hv)) as Hsz. unfold aggregate in Hsz. cbn in Hsz. rewrite Hhu in Hsz.
  unfold levels in Hsz. rewrite map_size_list_to_map in Hsz; [by rewrite length_fmap in Hsz; rewrite Hsz|].
  rewrite <- list_fmap_compose. apply NoDup_rows_of, (dk_modules _ Hdb).
Qed.

Lemma with_revision_valid a v : valid_access a → valid_access (with_revision v a).
Proof. by intros [? ? ?]. Qed.
Lemma updated_ok : db_ok updated_db.
Proof using Hdb Hr Hm Hnext Hord Hrange Hu.
  destruct matched_facts as (Hid & _). split.
  - apply (dk_accounts _ Hdb).
  - apply (dk_ids _ Hdb).
  - cbn. rewrite sql_update_key by done. apply (dk_heads _ Hdb).
  - intros x [->|[Hx _]]%updated_rows; [|by apply (dk_head_fk _ Hdb)]. apply (dk_head_fk _ Hdb r Hr).
  - intros a Ha. destruct (dk_has_head _ Hdb a Ha) as (x & Hx & Hxa). destruct (decide (ac_account_id x = u)).
    + exists (next_access_row update_arg r). rewrite updated_rows. cbn. split; [by left|congruence].
    + exists x. rewrite updated_rows. auto.
  - rewrite updated_module_ids. apply (dk_modules _ Hdb).
  - intros x (y & Hy & Hk & _)%updated_module_row. destruct (dk_module_fk _ Hdb y Hy) as (z & Hz & Hzy).
    injection Hk as Hk _. destruct (decide (ac_account_id z = u)).
    + exists (next_access_row update_arg r). rewrite updated_rows. cbn. split; [by left|congruence].
    + exists z. rewrite updated_rows. split; [by right|congruence].
  - apply updated_check.
  - intros h [->|[Hh Hne]]%updated_heads.
    + rewrite aggregate_updated. split; [by apply with_revision_valid|cbn; lia].
    + rewrite aggregate_other by done. by apply (dk_valid _ Hdb).
Qed.
Lemma updated_durable :
  durable_sql updated_db = <[uuid_string u := with_revision (Revision next + 1) next]> (durable_sql db).
Proof using Hdb ULaws Hr Hm Hnext Hord Hrange Hu.
  apply map_eq. intros k. apply option_eq. intros a.
  rewrite (durable_lookup _ updated_ok), lookup_insert_Some, (durable_lookup _ Hdb). setoid_rewrite updated_heads. split.
  - intros (h & [->|[Hh Hne]] & -> & ->); [left; by rewrite aggregate_updated|right].
    pose proof (head_bound _ Hdb h Hh). split; [intros Heq%uuid_string_inj; [congruence|lia|lia]|].
    exists h. by rewrite aggregate_other.
  - intros [[<- <-]|[Hk (h & Hh & -> & ->)]].
    + exists updated_head. rewrite aggregate_updated. auto.
    + exists h. assert (hd_account_id h ≠ u) by congruence. rewrite aggregate_other by done. auto.
Qed.
Lemma update_run :
  UpdateAccountAccess_sql (uuid_string u) next (Revision next) db = Ok (updated_db, with_revision (Revision next + 1) next).
Proof using Hdb ULaws Hr Hm Hnext Hord Hrange Hu.
  destruct matched_facts as (Hid & _ & Hrev). pose proof updated_count as Hcount.
  unfold UpdateAccountAccess_sql. apply tx_bind_ok. exists db, (u, uuid_string u).
  rewrite tx_lift_ok, accountIDParam_ok by done. split; [done|].
  apply tx_bind_ok. exists db, tt. rewrite ensure_ok, andb_true_iff, negb_true_iff, Z.eqb_neq, Z.ltb_lt.
  split; [split_and!; [done|lia|lia]|]. apply tx_bind_ok. exists db, tt. rewrite ensure_ok, Z.eqb_eq. split; [done|].
  apply tx_bind_ok. exists db, tt. rewrite ensure_ok, negb_true_iff. split; [done|]. cbv zeta. rewrite !Clone_id.
  apply tx_bind_ok. exists db, tt. rewrite (proj2 (Validate_ok next) Hnext). split; [done|].
  apply tx_bind_ok. eexists _, _. split.
  { unfold UpdateAccountAccessHead. fold update_arg.
    destruct (sql_one_is_Some (access_head_matches update_arg db) _ r Hr Hm) as [x Hx]. rewrite Hx.
    apply sql_one_Some in Hx as [Hx Hxm]. assert (x = r) as ->.
    { apply (NoDup_key_inj ac_account_id _ _ _ (dk_heads _ Hdb)); [done|done|]. rewrite Hid.
      unfold access_head_matches in Hxm. rewrite !andb_true_iff, bool_decide_eq_true in Hxm. by destruct Hxm as [[[? _] _] _]. }
    cbn. unfold bigint_in_range. rewrite Hrev, (proj2 (Z.leb_le _ _)) by lia. reflexivity. }
  apply tx_bind_ok. eexists _, _. split; [reflexivity|]. apply tx_bind_ok. eexists _, _. split.
  { rewrite tx_lift_ok. cbn. rewrite Hid, accountIDFromPG_ok by lia. done. }
  apply tx_bind_ok. eexists _, tt. split; [rewrite ensure_ok; cbn; by rewrite !eqb_reflx, bool_decide_eq_true_2|].
  apply tx_bind_ok. eexists _, tt. split; [rewrite ensure_ok; cbn; rewrite Hrev, andb_true_iff, Z.ltb_lt, Z.eqb_eq; split_and!; [done|lia|done]|].
  apply tx_bind_ok. eexists _, _. split.
  { unfold ReplaceAccountModuleAccess. cbn [module_accesses]. fold next_level.
    rewrite (proj2 (forallb_forall _ _)); [reflexivity|]. intros x Hx%list_elem_of_In. by apply updated_check. }
  apply tx_bind_ok. eexists _, tt. split; [rewrite ensure_ok; split; [done|]; apply Z.eqb_eq; exact Hcount|].
  apply tx_ret_ok. rewrite Clone_id. cbn. unfold with_revision. rewrite Hord, Hrev. done.
Qed.
End Matched.

Lemma update_no_row :
  (∀ r, r ∈ account_accesses db → access_head_matches update_arg db r = false) →
  UpdateAccountAccess_sql (uuid_string u) next (Revision next) db = Err ErrRevisionConflict.
Proof using ULaws Hnext Hord Hrange Hu.
  intros Hnone. unfold UpdateAccountAccess_sql, mbind, tx_bind, tx_lift, ensure.
  rewrite accountIDParam_ok by done.
  rewrite (proj2 (require_ok (_ && _) RevisionOutOfRange tt)); cycle 1.
  { rewrite andb_true_iff, negb_true_iff, Z.eqb_neq, Z.ltb_lt. lia. }
  cbn [tx_lift require]. rewrite Z.eqb_refl, Hord. cbn. rewrite !Clone_id, (proj2 (Validate_ok next) Hnext).
  unfold UpdateAccountAccessHead. fold update_arg. destruct (sql_one _ _) as [x|] eqn:Hx; [|done].
  apply sql_one_Some in Hx as [Hx Hxm]. rewrite (Hnone x Hx) in Hxm. done.
Qed.
End Update.

Section Laws.
Context {UL : UuidLib} {ULaws : UuidLaws} {PT : PgText}.

Lemma update_guards u next e db db' a :
  (0 < u < 2 ^ 128)%N → UpdateAccountAccess_sql (uuid_string u) next e db = Ok (db', a) →
  Revision next = e ∧ e < max_int64 ∧ Administrator next = false ∧ valid_access next
  ∧ ∃ r, r ∈ account_accesses db ∧ access_head_matches (update_arg u next) db r = true ∧ 0 < e.
Proof using ULaws.
  intros Hu H. unfold UpdateAccountAccess_sql in H. apply tx_bind_ok in H as (d0 & [v s] & H0 & H).
  rewrite tx_lift_ok, accountIDParam_ok in H0 by done. destruct H0 as [-> [= <- <-]].
  apply tx_bind_ok in H as (d1 & [] & [-> H1]%ensure_ok & H).
  apply tx_bind_ok in H as (d2 & [] & [-> H2]%ensure_ok & H).
  apply tx_bind_ok in H as (d3 & [] & [-> H3]%ensure_ok & H). cbv zeta in H. rewrite !Clone_id in H.
  apply tx_bind_ok in H as (d4 & [] & [-> H4]%tx_lift_ok & H).
  apply tx_bind_ok in H as (d5 & row & H5 & H). apply tx_bind_ok in H as (d6 & r' & [_ H6]%tx_lift_ok & _).
  rewrite of_option_ok in H6. subst row. bool_prop. subst e.
  split_and!; [done|done|done|apply Validate_ok; by destruct (Validate next) as [[]|]|].
  unfold UpdateAccountAccessHead in H5. fold (update_arg u next) in H5.
  destruct (sql_one _ _) as [r|] eqn:Hr; [|done]. apply sql_one_Some in Hr as [Hr Hm].
  exists r. split_and!; [done|done|]. unfold access_head_matches in Hm. bool_prop. done.
Qed.

#[export] Instance sql_access_laws : AccessStoreLaws access_db.
Proof using ULaws.
  refine {| store_ok := db_ok; durable := durable_sql; canonical := canonical_id |}.
  - intros db id a Hdb (h & Hh & -> & ->)%(durable_lookup _ Hdb).
    split; [exists (hd_account_id h); split; [by apply (head_bound _ Hdb)|done]|by apply (dk_valid _ Hdb)].
  - intros db Hdb. by apply list_sql_durable.
  - intros db id Hdb. by apply get_sql_durable.
  - intros db db' id next e a Hdb (u & Hu & ->) H.
    destruct (update_guards u next e db db' a Hu H) as (<- & He & Hord & Hv & r & Hr & Hm & Hpos).
    destruct (matched_row db Hdb u next r Hr Hm) as (old & Ho & Ha & Hrev).
    cbn in H. rewrite (update_run db Hdb u Hu next Hv Hord (conj Hpos He) r Hr Hm) in H. simplify_eq. exists old.
    split_and!; try done; [by apply (updated_ok db Hdb u Hu next Hv Hord (conj Hpos He) r)|].
    by apply (updated_durable db Hdb u Hu next Hv Hord (conj Hpos He) r).
  - intros db id next old Hdb Ho Hadm Hord Hv Hrev He.
    pose proof Ho as (h & Hh & -> & ->)%(durable_lookup _ Hdb). pose proof (head_bound _ Hdb h Hh) as Hu.
    destruct (dk_valid _ Hdb h Hh) as [_ Hr0]. rewrite <- Hrev in *.
    assert (0 < Revision next < max_int64) as Hrange by (cbn in *; lia).
    destruct (matching_row db Hdb _ Hu next Hrange _ Ho Hadm (eq_sym Hrev)) as (r & Hr & Hm).
    eexists _, _. cbn. by apply (update_run db Hdb _ Hu next Hv Hord Hrange r).
  - intros db id next old Hdb Ho Hord Hv Hrange Hne.
    pose proof Ho as (h & Hh & -> & ->)%(durable_lookup _ Hdb). pose proof (head_bound _ Hdb h Hh) as Hu.
    cbn. apply (update_no_row db _ Hu next Hv Hord Hrange). intros r Hr.
    apply not_true_is_false. intros Hm. destruct (matched_row db Hdb _ next r Hr Hm) as (old & Ho' & _ & Hrev). congruence.
Defined.
End Laws.
