(* ===== verification/AccessTheorems.v ===== *)
(** * Account access: theorems

    What validation and authorization decide, the controller's snapshot against the
    durable store, and the account-state database as that store. *)

From S2P Require Import Prelude Sql Access AccessController AccessSql AccessSqlReads AccessSqlLaws.
From stdpp Require Import base tactics option list list_numbers sorting strings gmap fin_maps.
From Stdlib Require Import ZArith Lia Ascii.
#[local] Open Scope Z_scope.

Lemma HasBusinessAccess_ok a :
  HasBusinessAccess a = true ↔ ProfitSharingEnabled a = true ∨ ∃ m l, Modules a !! m = Some l ∧ l ≠ AccessLevelNone.
Proof.
  unfold HasBusinessAccess. rewrite orb_true_iff, existsb_elem. setoid_rewrite negb_true_iff.
  setoid_rewrite bool_decide_eq_false. split.
  - intros [?|([m l] & Hml%elem_of_map_to_list & ?)]; eauto.
  - intros [?|(m & l & Hml & ?)]; [by left|right]. exists (m, l). by rewrite elem_of_map_to_list.
Qed.

(** An account is pending exactly when it may log in and meets no requirement there
    is: neither the administrator's nor Profit Sharing's nor any module's. *)
Theorem IsPending_spec a :
  valid_access a →
  IsPending a = true ↔ LoginEnabled a = true ∧ ∀ r, well_formed r → ¬ grants a r.
Proof.
  intros Hv. unfold IsPending. rewrite !andb_true_iff, !negb_true_iff, <- (not_true_iff_false (HasBusinessAccess a)).
  rewrite HasBusinessAccess_ok. split.
  - intros [[Hadm Hl] Hno]. split; [done|]. intros r [->|[->|(m & l & -> & Hn & Hlv)]]; cbn; [congruence|tauto|].
    intros (l' & Hl' & Hrank). cbn in Hl', Hrank. destruct (decide (l' = AccessLevelNone)) as [->|]; [|by apply Hno; eauto].
    apply level_ok in Hlv as [_ [->|[->|[-> _]]]]; [done|by vm_compute in Hrank..].
  - intros [Hl Hno]. split_and!; [|done|].
    + apply not_true_is_false. intros Ha. apply (Hno RequirementAdministrator); [by left|done].
    + intros [Hps|(m & l & Hml & Hn)]; [apply (Hno RequirementProfitSharing); [by right; left|done]|].
      apply (Hno (RequireModule m AccessLevelRead)).
      * right. right. exists m, AccessLevelRead. split_and!; [done|done|]. apply level_ok. split; [|by right; left].
        apply known_module, (va_modules _ Hv). eauto.
      * exists l. split; [done|]. cbn. destruct (va_levels _ Hv m l Hml) as [->|[->|[-> _]]]; [done|by vm_compute..].
Qed.

Section Theorems.
Context {S : Type} `{!AccessStore S, !AccessStoreLaws S}.
Implicit Types (s : S) (acc : gmap string Access).

(** The states of a process that started from a well-formed store. *)
Definition process_state (w : world S) : Prop :=
  ∃ s acc, store_ok s ∧ NewController s = Ok acc ∧ rtc step (World s acc [] Idle false) w.
Lemma process_CInv w : process_state w → CInv w.
Proof. intros (s & acc & Hs & Hn & Hst). eapply CInv_steps; [exact Hst|]. by apply CInv_start. Qed.

(** The store held the aggregate [a] of [id] in some state between [start] and [w]. *)
Definition held (start w : world S) (id : string) (a : Access) : Prop :=
  ∃ w0, rtc step start w0 ∧ rtc step w0 w ∧ durable (w_store w0) !! id = Some a.
Lemma held_step start w w' id a : step w w' → held start w id a → held start w' id a.
Proof. intros Hst (w0 & H1 & H2 & Hd). exists w0. split_and!; [done|by eapply rtc_r|done]. Qed.
Lemma held_now start w w' id a : rtc step start w → step w w' → durable (w_store w) !! id = Some a → held start w' id a.
Proof. intros Hr Hst Hd. exists w. split_and!; [done|by apply rtc_once|done]. Qed.
(** Everything cached or read by a registration in flight was held. *)
Definition all_held (start w : world S) : Prop :=
  (∀ id a, w_access w !! id = Some a → held start w id a) ∧ ∀ id a, (id, a) ∈ w_registers w → held start w id a.
Lemma all_held_step start w w' : CInv w → rtc step start w → step w w' → all_held start w → all_held start w'.
Proof.
  intros Hi Hr Hst [Hc Hg]. assert (∀ id a, held start w id a → held start w' id a) as Hk by (intros id a; by apply held_step).
  destruct Hst as [s s' acc regs fl lost _ _|s acc regs fl lost id p Hcan Hp|s acc regs1 regs2 fl lost id p|s acc regs lost id next expected a Hcan Hu|s s' acc regs lost id next expected p Hu
    |s s' acc regs lost id next expected p Hu|s acc regs lost id next expected|s acc regs lost id expected p q Hq|s acc regs lost id expected p e Hq];
    cbn [w_access w_registers] in *; try (split; [intros i b Ha; by apply Hk, Hc|intros i b Ha; by apply Hk, Hg]).
  - split; [intros i a Ha; by apply Hk, Hc|]. intros i a [[= -> ->]|Ha]%elem_of_cons; [|by apply Hk, Hg].
    eapply held_now; [exact Hr|by eapply step_register_read|]. cbn. apply register_read_ok; [apply Hi|done|done].
  - assert (∀ i a, (i, a) ∈ regs1 ++ regs2 → (i, a) ∈ regs1 ++ (id, p) :: regs2) as Hin by (intros ? ?; rewrite !elem_of_app, elem_of_cons; tauto).
    split; [|intros i a Ha; by apply Hk, Hg, Hin]. intros i a Ha. apply Hk. revert Ha. cbn [w_access]. destruct (register_publish_cases id p acc) as [[-> _]|[-> _]]; [|apply Hc].
    rewrite lookup_insert_Some. intros [[<- <-]|[_ Ha]]; [|by apply Hc]. apply Hg. rewrite elem_of_app, elem_of_cons. tauto.
  - split; [|intros i b Ha; by apply Hk, Hg]. intros i b. cbn [w_access]. rewrite lookup_insert_Some. intros [[<- <-]|[_ Ha]]; [|by apply Hk, Hc].
    eapply held_now; [exact Hr|by eapply step_update_publish|]. apply update_returned_ok in Hq as (-> & _). by destruct (ci_flight _ Hi).
Qed.
Lemma all_held_path s acc w : store_ok s → NewController s = Ok acc → rtc step (World s acc [] Idle false) w → all_held (World s acc [] Idle false) w.
Proof.
  intros Hs Hn H. set (start := World s acc [] Idle false) in *.
  apply (rtc_ind_r (R := step) (λ w, CInv w ∧ all_held start w) start); [| |done].
  - split; [by apply CInv_start|]. split; [|by intros ? ? ?%not_elem_of_nil]. intros id a Hid. exists start. split_and!; [done|done|].
    rewrite NewController_ok in Hn by done. injection Hn as <-. exact Hid.
  - intros w1 w2 H1 Hst [Hi Ha]. split; [by eapply CInv_step|by eapply all_held_step].
Qed.

(** C23: the cached access of an account is always a valid aggregate that the store has held
    since the process started, never a later one than the durable one and never with another
    administrator role.  Every account the store had at the start is cached.  As long as no
    commit's answer was lost and no update stands between its commit and its publication, the
    cached access of every cached account is the durable one. *)
Theorem snapshot_coherent s acc (w : world S) :
  store_ok s → NewController s = Ok acc → rtc step (World s acc [] Idle false) w →
  (∀ id a, w_access w !! id = Some a →
     valid_access a
     ∧ (∃ w0, rtc step (World s acc [] Idle false) w0 ∧ rtc step w0 w ∧ durable (w_store w0) !! id = Some a)
     ∧ ∃ d, durable (w_store w) !! id = Some d ∧ Administrator a = Administrator d ∧ (a = d ∨ Revision a < Revision d))
  ∧ (∀ id, is_Some (durable s !! id) → is_Some (w_access w !! id))
  ∧ (w_lost w = false → (∀ id e p, w_flight w ≠ Committed id e p) →
     ∀ id, is_Some (w_access w !! id) → w_access w !! id = durable (w_store w) !! id).
Proof.
  intros Hs Hn Hst. assert (CInv w) as Hi by (eapply CInv_steps; [exact Hst|by apply CInv_start]). split_and!.
  - intros id a Ha. destruct (ci_cached _ Hi id a Ha) as (d & Hd & Hadm & Hv & Hr). split_and!; [done|exact (proj1 (all_held_path s acc w Hs Hn Hst) id a Ha)|eauto].
  - intros id [a Ha]. pose proof (NewController_ok s Hs) as Hn'. rewrite Hn in Hn'. injection Hn' as ->.
    destruct (cached_steps _ _ id a Hst (CInv_start s _ Hs Hn) Ha) as (a' & Ha' & _). eauto.
  - intros Hl Hf id [a Ha]. destruct (ci_fresh _ Hi Hl id a Ha) as [(e & p & Hp)|Hd]; [by apply Hf in Hp|]. by rewrite Ha, Hd.
Qed.

(** along every interleaving the cached access of an account is never dropped, keeps
    its administrator role, and is replaced only by one with a later revision. *)
Theorem snapshot_monotone (w w' : world S) id a :
  process_state w → rtc step w w' → w_access w !! id = Some a →
  ∃ a', w_access w' !! id = Some a' ∧ Administrator a' = Administrator a ∧ (a' = a ∨ Revision a < Revision a').
Proof. intros Hi%process_CInv Hst Ha. by apply (cached_steps w w' id a). Qed.

(** Administrator and member entitlements exclude each other: an account that meets
    the administrator requirement meets no other one. *)
Theorem administrator_separation (w : world S) id r :
  process_state w → Authorize id RequirementAdministrator (w_access w) = Ok tt →
  r ≠ RequirementAdministrator → Authorize id r (w_access w) ≠ Ok tt.
Proof.
  intros Hi%process_CInv Hadm Hne Hr. pose proof (Authorize_cases id RequirementAdministrator (w_access w)) as Ha.
  rewrite Hadm in Ha. destruct Ha as (_ & a & Ha & Hg). pose proof (Authorize_cases id r (w_access w)) as Hc.
  rewrite Hr in Hc. destruct Hc as (Hw & a' & Ha' & Hg'). simplify_eq.
  destruct (ci_cached _ Hi id a Ha) as (d & _ & _ & Hv & _). destruct (va_administrator _ Hv Hg) as (_ & _ & Hps & Hm).
  destruct Hw as [->|[->|(m & l & -> & Hn & Hl)]]; [done|cbn in Hg'; congruence|].
  destruct Hg' as (l' & Hl' & Hrank). apply Hm in Hl' as ->. cbn in Hrank.
  apply level_ok in Hl as [_ [->|[->|[-> _]]]]; [done|by vm_compute in Hrank..].
Qed.

(** [Authorize] decides every requirement: it succeeds exactly when the requirement
    is well formed and the cached account meets it (the role, the entitlement, or a
    module level at least the required one); otherwise the error says which failed. *)
Theorem Authorize_spec id r acc :
  match Authorize id r acc with
  | Ok _ => well_formed r ∧ ∃ a, acc !! id = Some a ∧ grants a r
  | Err e =>
      (¬ well_formed r ∧ e = RequirementInvalid)
      ∨ (well_formed r ∧ acc !! id = None ∧ e = AccountNotFound)
      ∨ (well_formed r ∧ ∃ a, acc !! id = Some a ∧ ¬ grants a r ∧ e = refusal a r)
  end.
Proof. apply Authorize_cases. Qed.

(** [Validate] accepts exactly the complete aggregates: one level for each of the nine
    modules and no other, none above the module's maximum, and for an administrator
    the fixed flags and no module access. *)
Theorem Validate_spec a : Validate a = Ok tt ↔ valid_access a.
Proof. apply Validate_ok. Qed.

Record admissible acc (id : string) (next : Access) (expected : Z) : Prop := {
  ad_current : ∃ current, acc !! id = Some current ∧ Administrator current = false ∧ Revision current = expected;
  ad_revision : Revision next = expected ∧ expected < max_int64;
  ad_next : valid_access next ∧ Administrator next = false }.

(** on a coherent snapshot [Update] replaces the aggregate, in the store and in the
    snapshot, exactly when the account is a known ordinary one at the expected
    revision and the new aggregate is a valid ordinary one; it then carries the next
    revision.  Otherwise it returns an error and nothing changes. *)
Theorem Update_spec s acc id next expected :
  store_ok s → acc ⊆ durable s →
  let a := with_revision (expected + 1) next in
  (admissible acc id next expected ∧
     ∃ s', Update id next expected s acc = (s', <[id := a]> acc, Ok a)
       ∧ store_ok s' ∧ durable s' = <[id := a]> (durable s))
  ∨ (¬ admissible acc id next expected ∧ ∃ e, Update id next expected s acc = (s, acc, Err e)).
Proof.
  intros Hs Hsub a. unfold Update. destruct (update_check id next expected acc) as [next'|e] eqn:Hc; cycle 1.
  { right. split; [|eauto]. intros [Hcur [Hr He] [Hv _]].
    assert (update_check id next expected acc = Ok next) as Hok by (by apply update_check_ok). congruence. }
  apply update_check_ok in Hc as (-> & Hr & He & Hv & current & Hcur & Hadm & Hcr).
  pose proof (lookup_weaken _ _ _ _ Hcur Hsub) as Hd. destruct (durable_ok _ _ _ Hs Hd) as (Hcan & _ & _).
  unfold run_tx. destruct (UpdateAccountAccess id next expected s) as [[s' p]|e] eqn:Hu.
  - destruct (update_sound _ _ _ _ _ _ Hs Hcan Hu) as (old & _ & _ & Hn & _ & _ & _ & -> & Hs' & Hd').
    left. split; [by split; eauto|]. exists s'. split; [|done].
    rewrite (proj2 (update_returned_ok expected _ a)); [by rewrite Clone_id|]. split_and!; [done|cbn; lia|].
    destruct Hv. by split.
  - right. split; [|eauto]. intros [_ _ [_ Hn]].
    destruct (update_complete s id next current) as (s' & p & Hok); try done; [congruence|lia|]. congruence.
Qed.

(** of two updates that expect the same revision at most one succeeds: once one has,
    the other finds a conflict and changes nothing, also in another process whose
    snapshot still shows the old revision. *)
Theorem stale_update_conflicts s s1 acc acc1 acc2 id expected next a next2 :
  store_ok s → canonical id → acc2 ⊆ durable s →
  Update id next expected s acc = (s1, acc1, Ok a) →
  valid_access next2 → Administrator next2 = false → Revision next2 = expected → 0 < expected →
  is_Some (acc2 !! id) →
  Update id next2 expected s1 acc2 = (s1, acc2, Err ErrRevisionConflict).
Proof.
  intros Hs Hcan Hsub Hup Hv2 Ho2 Hr2 Hpos [cur Hcur]. unfold Update in Hup.
  destruct (update_check id next expected acc) as [n|]; [|done]. unfold run_tx in Hup.
  destruct (UpdateAccountAccess id n expected s) as [[s' p]|e] eqn:Hu; [|done].
  destruct (update_returned expected p); simplify_eq.
  destruct (update_sound _ _ _ _ _ _ Hs Hcan Hu) as (old & Ho & Hadm & _ & Hrev & He & _ & -> & Hs' & Hd').
  pose proof (lookup_weaken _ _ _ _ Hcur Hsub) as Hd. simplify_eq.
  unfold Update. rewrite (proj2 (update_check_ok id next2 (Revision next2) acc2 next2)) by eauto 10.
  unfold run_tx. rewrite (update_conflict s1 id next2 (with_revision (Revision next2 + 1) n)); try done.
  - rewrite Hd', lookup_insert_eq. congruence.
  - cbn. lia.
Qed.

(** Whole calls of [Update] and [Register] are paths of the interleaving system: the
    theorems about its states cover them, alone and interleaved. *)
Theorem calls_are_steps s acc regs lost id :
  canonical id →
  (∀ next expected s' acc' r, Update id next expected s acc = (s', acc', r) →
     rtc step (World s acc regs Idle lost) (World s' acc' regs Idle lost))
  ∧ (∀ fl acc' r, Register id s acc = (acc', r) →
     rtc step (World s acc regs fl lost) (World s acc' regs fl lost)).
Proof.
  intros Hcan. split.
  - intros next expected s' acc' r. unfold Update. destruct (update_check id next expected acc) as [n|] eqn:Hc; cycle 1.
    { intros [= <- <- _]. done. }
    unfold run_tx. destruct (UpdateAccountAccess id n expected s) as [[s1 p]|] eqn:Hu; cycle 1.
    { intros [= <- <- _]. eapply rtc_l; [by eapply step_update_check|]. apply rtc_once. constructor. }
    intros H. eapply rtc_l; [by eapply step_update_check|]. eapply rtc_l; [by eapply step_update_commit|].
    destruct (update_returned expected p) as [q|] eqn:Hq; simplify_eq; apply rtc_once; econstructor; done.
  - intros fl acc' r. unfold Register. destruct (register_read id s) as [p|] eqn:Hr; [|by intros [= <- _]].
    intros H. eapply rtc_l; [by eapply step_register_read|]. apply rtc_once.
    destruct (register_publish id p acc) as [acc1 current] eqn:Hp. simplify_eq.
    pose proof (step_register_publish s acc [] regs fl lost id p) as Hst. rewrite Hp in Hst. exact Hst.
Qed.
End Theorems.

Section Database.
Context {UL : UuidLib} {ULaws : UuidLaws} {PT : PgText}.

(** C30: the account-state database keeps the store's promises.  Listing and reading return
    the durable aggregates, and a missing account is an error.  An update that
    succeeds was made on an ordinary account at the expected revision: it replaces
    that aggregate alone, with the next revision, and keeps the tables well formed; one
    that fails changes no table; one on the durable revision succeeds. *)
Theorem access_database_refines db u next :
  db_ok db → (0 < u < 2 ^ 128)%N →
  let id := uuid_string u in
  let a := with_revision (Revision next + 1) next in
  ListAccountAccess_sql db = Ok (durable_sql db)
  ∧ match durable_sql db !! id with
    | Some d => GetAccountAccess_sql id db = Ok d
    | None => ∃ e, GetAccountAccess_sql id db = Err e end
  ∧ match run_tx (UpdateAccountAccess_sql id next (Revision next)) db with
    | (db', Ok p) =>
        p = a ∧ db_ok db' ∧ durable_sql db' = <[id := a]> (durable_sql db) ∧ valid_access next
        ∧ ∃ old, durable_sql db !! id = Some old ∧ Administrator old = false ∧ Administrator next = false
            ∧ Revision old = Revision next
    | (db', Err _) =>
        db' = db ∧ ∀ old, durable_sql db !! id = Some old → Administrator old = false → Administrator next = false →
          valid_access next → Revision next < max_int64 → Revision old ≠ Revision next end.
Proof using ULaws.
  intros Hdb Hu id a. assert (canonical_id id) as Hcan by (by exists u). split_and!.
  - by apply list_sql_durable.
  - by apply get_sql_durable.
  - unfold run_tx. destruct (UpdateAccountAccess_sql id next (Revision next) db) as [[db' p]|e] eqn:Hup.
    + destruct (@update_sound access_db _ sql_access_laws db db' id next (Revision next) p Hdb Hcan Hup) as (old & ? & ? & ? & ? & _ & ? & -> & ? & Hd).
      split_and!; [done..|]. eauto.
    + split; [done|]. intros old Ho Hadm Hn Hv He Hrev.
      destruct (@update_complete access_db _ sql_access_laws db id next old Hdb Ho Hadm Hn Hv (eq_sym Hrev)) as (db' & p & Hok); [lia|].
      cbn in Hok. rewrite Hrev in Hok. congruence.
Qed.
End Database.

(** ** Witnesses: an administrator (account 1) and a member (account 2) *)
Module AccessScenario.
Import Prelude.Concrete.
Definition account1 : string := uuid_string 1.
Definition account2 : string := uuid_string 2.
Definition no_access (u : N) : list module_row :=
  (λ m, {| mr_account_id := u; mr_module := m; mr_access_level := "none" |}) <$> allModules.
Definition db0 : access_db := {|
  athena_accounts := [ {| ar_account_id := 1; ar_administrator := true |};
                       {| ar_account_id := 2; ar_administrator := false |} ];
  account_accesses := [ {| ac_account_id := 2; ac_login_enabled := true; ac_api_key_enabled := false;
                           ac_profit_sharing_enabled := false; ac_revision := 7 |};
                        {| ac_account_id := 1; ac_login_enabled := true; ac_api_key_enabled := false;
                           ac_profit_sharing_enabled := false; ac_revision := 1 |} ];
  module_accesses := no_access 2 ++ no_access 1 |}.
Definition next : Access := {|
  Administrator := false; LoginEnabled := true; APIKeyEnabled := true; ProfitSharingEnabled := true;
  Modules := MaximumModuleAccess; Revision := 7 |}.
Definition acc0 : gmap string Access := durable_sql db0.
Definition db1 : access_db := fst (run_tx (UpdateAccountAccess_sql account2 next 7) db0).
Definition acc1 : gmap string Access := <[account2 := with_revision 8 next]> acc0.

Lemma heads0 : access_heads db0 =
  [ {| hd_account_id := 2; hd_administrator := false; hd_login_enabled := true; hd_api_key_enabled := false;
       hd_profit_sharing_enabled := false; hd_revision := 7 |};
    {| hd_account_id := 1; hd_administrator := true; hd_login_enabled := true; hd_api_key_enabled := false;
       hd_profit_sharing_enabled := false; hd_revision := 1 |} ].
Proof. vm_compute. reflexivity. Qed.
Lemma related {A B} (f : A → N) (g : B → N) (l : list A) (k : list B) :
  bool_decide (Forall (λ a, Exists (λ b, g b = f a) k) l) = true → ∀ a, a ∈ l → ∃ b, b ∈ k ∧ g b = f a.
Proof. rewrite bool_decide_eq_true, Forall_forall. intros Hl a Ha. by apply Exists_exists, Hl. Qed.
Lemma db0_ok : db_ok db0.
Proof.
  split.
  - apply (bool_decide_unpack _). by vm_compute.
  - intros a [->|[->|[]%not_elem_of_nil]%elem_of_cons]%elem_of_cons; cbn; lia.
  - apply (bool_decide_unpack _). by vm_compute.
  - apply (related ac_account_id ar_account_id). by vm_compute.
  - apply (related ar_account_id ac_account_id). by vm_compute.
  - apply (bool_decide_unpack _). by vm_compute.
  - apply (related mr_account_id ac_account_id). by vm_compute.
  - assert (Forall (λ r, module_check r = true) (module_accesses db0)) as Hall
      by (apply (bool_decide_unpack _); by vm_compute). by rewrite Forall_forall in Hall.
  - rewrite heads0. intros h [->|[->|[]%not_elem_of_nil]%elem_of_cons]%elem_of_cons;
      (split; [apply Validate_ok; vm_compute; reflexivity|cbn; unfold max_int64; lia]).
Qed.
Lemma next_valid : valid_access next.
Proof. apply Validate_ok. vm_compute. reflexivity. Qed.
Lemma check0 : update_check account2 next 7 acc0 = Ok next.
Proof. vm_compute. reflexivity. Qed.
Lemma commit0 : UpdateAccountAccess account2 next 7 db0 = Ok (db1, with_revision 8 next).
Proof. vm_compute. reflexivity. Qed.
Lemma update0 : Update account2 next 7 db0 acc0 = (db1, acc1, Ok (with_revision 8 next)).
Proof. vm_compute. reflexivity. Qed.
Lemma not_refused e : Update account2 next 7 db0 acc0 ≠ (db0, acc0, Err e).
Proof. rewrite update0. generalize db1, acc1, db0, acc0. intros * [=]. Qed.
Lemma canonical2 : canonical account2.
Proof. exists 2%N. split; [lia|done]. Qed.
Lemma store0 : store_ok db0.
Proof. exact db0_ok. Qed.
Lemma cache0 : acc0 ⊆ durable db0.
Proof. apply (reflexivity (durable_sql db0)). Qed.
Lemma new0 : NewController db0 = Ok acc0.
Proof. exact (@NewController_ok access_db _ sql_access_laws db0 db0_ok). Qed.
Lemma start0 : process_state (World db0 acc0 [] Idle false).
Proof. exists db0, acc0. split; [apply db0_ok|]. split; [apply new0|done]. Qed.
Lemma path1 : rtc step (World db0 acc0 [] Idle false) (World db1 acc1 [] Idle false).
Proof.
  eapply rtc_l; [eapply step_update_check; [apply canonical2|apply check0]|].
  eapply rtc_l; [eapply step_update_commit, commit0|]. apply rtc_once. apply step_update_publish.
  apply update_returned_ok. split_and!; [done|cbn; lia|apply Validate_ok; vm_compute; reflexivity].
Qed.
Lemma state1 : process_state (World db1 acc1 [] Idle false).
Proof. exists db0, acc0. split; [apply db0_ok|]. split; [apply new0|apply path1]. Qed.
End AccessScenario.

Section Witnesses.
Import Prelude.Concrete AccessScenario.

Lemma IsPending_spec_witness :
  ∃ a, acc0 !! account2 = Some a ∧ ∀ r, well_formed r → ¬ grants a r.
Proof.
  assert (∃ a, acc0 !! account2 = Some a ∧ Validate a = Ok tt ∧ IsPending a = true) as (a & Ha & Hv & Hp)
    by (eexists; vm_compute; split_and!; reflexivity).
  exists a. split; [exact Ha|]. exact (proj2 (proj1 (IsPending_spec a (proj1 (Validate_ok a) Hv)) Hp)).
Defined.
Lemma snapshot_coherent_witness : acc1 !! account2 = Some (with_revision 8 next) ∧ acc1 !! account2 = durable_sql db1 !! account2
  ∧ ∃ w0, rtc step (World db0 acc0 [] Idle false) w0 ∧ durable_sql (w_store w0) !! account2 = Some (with_revision 8 next).
Proof.
  destruct (snapshot_coherent db0 acc0 (World db1 acc1 [] Idle false) store0 new0 path1) as (H1 & _ & H3).
  assert (acc1 !! account2 = Some (with_revision 8 next)) as Ha by (by apply lookup_insert_eq). split; [exact Ha|]. split.
  - apply (H3 eq_refl); [discriminate|]. eexists. exact Ha.
  - destruct (H1 account2 _ Ha) as (_ & (w0 & R & _ & D) & _). exists w0. split; [exact R|exact D].
Defined.
Lemma snapshot_monotone_witness :
  ∃ old a', acc0 !! account2 = Some old ∧ acc1 !! account2 = Some a' ∧ Administrator a' = Administrator old
    ∧ (a' = old ∨ Revision old < Revision a').
Proof.
  assert (∃ old, acc0 !! account2 = Some old) as [old Ho] by (eexists; vm_compute; reflexivity).
  exists old. destruct (snapshot_monotone (World db0 acc0 [] Idle false) (World db1 acc1 [] Idle false)
    account2 old start0 path1 Ho) as (a' & Ha & Hr). by exists a'.
Defined.
Lemma administrator_separation_witness :
  Authorize account1 RequirementAdministrator acc1 = Ok tt
  ∧ Authorize account1 (RequireModule "token" "read") acc1 ≠ Ok tt.
Proof.
  assert (Authorize account1 RequirementAdministrator acc1 = Ok tt) as Ha by (vm_compute; reflexivity).
  split; [exact Ha|].
  apply (administrator_separation (World db1 acc1 [] Idle false) account1 (RequireModule "token" "read") state1 Ha).
  discriminate.
Defined.
Lemma Update_spec_witness :
  ∃ s', Update account2 next 7 db0 acc0 = (s', <[account2 := with_revision 8 next]> acc0, Ok (with_revision 8 next))
    ∧ durable s' = <[account2 := with_revision 8 next]> (durable db0).
Proof.
  destruct (Update_spec db0 acc0 account2 next 7 store0 cache0) as [(_ & s' & Hu & _ & Hd)|(_ & e & He)].
  - exists s'. split; [exact Hu|exact Hd].
  - by destruct (not_refused e).
Defined.
Lemma stale_update_conflicts_witness :
  Update account2 next 7 db1 acc0 = (db1, acc0, Err ErrRevisionConflict).
Proof.
  apply (stale_update_conflicts db0 db1 acc0 acc1 acc0 account2 7 next (with_revision 8 next) next store0 canonical2
    cache0 update0 next_valid); [reflexivity|reflexivity|lia|eexists; vm_compute; reflexivity].
Defined.
Lemma calls_are_steps_witness : rtc step (World db0 acc0 [] Idle false) (World db1 acc1 [] Idle false).
Proof.
  exact (proj1 (calls_are_steps db0 acc0 [] false account2 canonical2) next 7 db1 acc1 (Ok (with_revision 8 next)) update0).
Defined.
Lemma access_database_refines_witness :
  ListAccountAccess_sql db0 = Ok (durable_sql db0) ∧ durable_sql db1 = <[account2 := with_revision 8 next]> (durable_sql db0).
Proof.
  destruct (access_database_refines db0 2 next db0_ok (conj eq_refl eq_refl)) as (Hl & _ & Hu). split; [exact Hl|].
  change (Revision next) with 7 in Hu. change (uuid_string 2) with account2 in Hu.
  unfold run_tx in Hu. rewrite (commit0 : UpdateAccountAccess_sql account2 next 7 db0 = _) in Hu. apply Hu.
Defined.
End Witnesses.
