(* ===== verification/Bytes.v ===== *)
(** * Byte strings

    What the code uses of Go's [encoding/binary] (big-endian unsigned integers)
    and [encoding/base64] ([RawURLEncoding]: the URL alphabet without padding,
    whose decoder skips line breaks and does not insist on zero trailing bits). *)

From S2P Require Import Prelude.
From stdpp Require Import base tactics option list list_numbers sorting strings gmap.
From Stdlib Require Import ZArith Lia Ascii.
#[local] Open Scope Z_scope.

(** ** Bytes *)
Definition byte_of (z : Z) : ascii := ascii_of_N (Z.to_N (z mod 256)).
Definition byte_val (a : ascii) : Z := Z.of_N (N_of_ascii a).

Lemma byte_val_bound a : 0 ≤ byte_val a < 256.
Proof. unfold byte_val. pose proof (N_ascii_bounded a). lia. Qed.
Lemma byte_val_of z : byte_val (byte_of z) = z mod 256.
Proof.
  unfold byte_val, byte_of. pose proof (Z.mod_pos_bound z 256 ltac:(lia)). rewrite N_ascii_embedding by lia. lia.
Qed.
Lemma byte_of_val a : byte_of (byte_val a) = a.
Proof.
  pose proof (byte_val_bound a). unfold byte_of. rewrite Z.mod_small by lia. unfold byte_val.
  rewrite N2Z.id. apply ascii_N_embedding.
Qed.

(** ** Big-endian integers *)
Fixpoint be_bytes (n : nat) (z : Z) : string :=
  match n with O => EmptyString | S n' => String (byte_of (z / 256 ^ Z.of_nat n')) (be_bytes n' z) end.
Fixpoint be_value (s : string) : Z :=
  match s with EmptyString => 0 | String a s' => byte_val a * 256 ^ Z.of_nat (String.length s') + be_value s' end.

Lemma be_bytes_length n z : String.length (be_bytes n z) = n.
Proof. induction n as [|n IH]; cbn; congruence. Qed.
Lemma be_value_bound s : 0 ≤ be_value s < 256 ^ Z.of_nat (String.length s).
Proof.
  induction s as [|a s IH]; cbn [be_value String.length]; [lia|]. pose proof (byte_val_bound a).
  rewrite Nat2Z.inj_succ, Z.pow_succ_r by lia. nia.
Qed.
Lemma be_value_bytes n z : be_value (be_bytes n z) = z mod 256 ^ Z.of_nat n.
Proof.
  induction n as [|n IH]; cbn [be_bytes be_value]; [by rewrite Z.mod_1_r|].
  rewrite IH, byte_val_of, be_bytes_length, Nat2Z.inj_succ, Z.pow_succ_r by lia.
  set (p := 256 ^ Z.of_nat n). assert (0 < p) as Hp by (unfold p; lia). clearbody p.
  rewrite (Z.mul_comm 256 p), Z.rem_mul_r by lia. lia.
Qed.
Lemma be_value_bytes_small n z : 0 ≤ z < 256 ^ Z.of_nat n → be_value (be_bytes n z) = z.
Proof. intros. rewrite be_value_bytes. by apply Z.mod_small. Qed.

(** Slices: [s[i:i+n]]. *)
Lemma substring_app_l s t : String.substring 0 (String.length s) (s +:+ t) = s.
Proof.
  induction s as [|a s IH]; [by destruct t|]. change (String a s +:+ t) with (String a (s +:+ t)). cbn. by rewrite IH.
Qed.
Lemma substring_app_r s t n : String.substring (String.length s) n (s +:+ t) = String.substring 0 n t.
Proof.
  induction s as [|a s IH]; [done|]. change (String a s +:+ t) with (String a (s +:+ t)). cbn [String.length].
  by rewrite <- IH.
Qed.
Lemma substring_all s : String.substring 0 (String.length s) s = s.
Proof. induction s as [|a s IH]; [done|]. cbn. by rewrite IH. Qed.
Lemma string_app_length s t : String.length (s +:+ t) = (String.length s + String.length t)%nat.
Proof.
  induction s as [|a s IH]; [done|]. change (String a s +:+ t) with (String a (s +:+ t)). cbn. by rewrite IH.
Qed.

Lemma string_app_assoc (s t u : string) : (s +:+ t +:+ u)%string = ((s +:+ t) +:+ u)%string.
Proof.
  induction s as [|a s IH]; [done|]. change (String a s +:+ t +:+ u) with (String a (s +:+ t +:+ u)).
  change ((String a s +:+ t) +:+ u) with (String a ((s +:+ t) +:+ u)). by rewrite IH.
Qed.

(** ** Base64 *)
Definition base64_alphabet : list ascii :=
  String.list_ascii_of_string "ABCDEFGHIJKLMNOPQRSTUVWXYZabcdefghijklmnopqrstuvwxyz0123456789-_".
Definition base64_char (v : Z) : ascii := default "A"%char (base64_alphabet !! Z.to_nat (v mod 64)).
Fixpoint index_from (a : ascii) (l : list ascii) (i : Z) : option Z :=
  match l with [] => None | b :: l' => if bool_decide (a = b) then Some i else index_from a l' (i + 1) end.
Definition base64_index (a : ascii) : option Z := index_from a base64_alphabet 0.

Fixpoint EncodeToString (s : string) : string :=
  match s with
  | String a (String b (String c s')) =>
      let v := byte_val a * 65536 + byte_val b * 256 + byte_val c in
      String (base64_char (v / 262144)) (String (base64_char (v / 4096)) (String (base64_char (v / 64))
        (String (base64_char v) (EncodeToString s'))))
  | String a (String b EmptyString) =>
      let v := byte_val a * 65536 + byte_val b * 256 in
      String (base64_char (v / 262144)) (String (base64_char (v / 4096)) (String (base64_char (v / 64)) EmptyString))
  | String a EmptyString =>
      let v := byte_val a * 65536 in
      String (base64_char (v / 262144)) (String (base64_char (v / 4096)) EmptyString)
  | EmptyString => EmptyString
  end.

Definition line_break (a : ascii) : bool := bool_decide (N_of_ascii a = 10%N) || bool_decide (N_of_ascii a = 13%N).
Fixpoint drop_breaks (s : string) : string :=
  match s with
  | EmptyString => EmptyString
  | String a s' => if line_break a then drop_breaks s' else String a (drop_breaks s')
  end.
(** Quanta of four characters; the last may have two or three. *)
Fixpoint decode_quanta (s : string) : option string :=
  match s with
  | EmptyString => Some EmptyString
  | String a (String b s1) =>
      x ← base64_index a; y ← base64_index b;
      match s1 with
      | EmptyString => Some (String (byte_of ((x * 262144 + y * 4096) / 65536)) EmptyString)
      | String c s2 =>
          z ← base64_index c;
          match s2 with
          | EmptyString =>
              let v := x * 262144 + y * 4096 + z * 64 in
              Some (String (byte_of (v / 65536)) (String (byte_of (v / 256)) EmptyString))
          | String d s3 =>
              t ← base64_index d;
              let v := x * 262144 + y * 4096 + z * 64 + t in
              rest ← decode_quanta s3;
              Some (String (byte_of (v / 65536)) (String (byte_of (v / 256)) (String (byte_of v) rest)))
          end
      end
  | String _ EmptyString => None
  end.
Definition DecodeString (s : string) : option string := decode_quanta (drop_breaks s).

Lemma base64_char_index v : base64_index (base64_char v) = Some (v mod 64).
Proof.
  pose proof (Z.mod_pos_bound v 64 ltac:(lia)) as Hb. unfold base64_char.
  assert (∀ i, (i < 64)%nat → base64_index (default "A"%char (base64_alphabet !! i)) = Some (Z.of_nat i)) as Hall.
  { intros i Hi. do 64 (destruct i as [|i]; [by vm_compute|]). lia. }
  rewrite Hall by lia. f_equal. lia.
Qed.
Lemma base64_char_no_break v : line_break (base64_char v) = false.
Proof.
  pose proof (Z.mod_pos_bound v 64 ltac:(lia)) as Hb. unfold base64_char.
  assert (∀ i, (i < 64)%nat → line_break (default "A"%char (base64_alphabet !! i)) = false) as Hall.
  { intros i Hi. do 64 (destruct i as [|i]; [by vm_compute|]). lia. }
  by apply Hall; lia.
Qed.

(** Strings in steps of three. *)
Lemma string_ind3 (P : string → Prop) :
  P EmptyString → (∀ a, P (String a EmptyString)) → (∀ a b, P (String a (String b EmptyString))) →
  (∀ a b c s, P s → P (String a (String b (String c s)))) → ∀ s, P s.
Proof.
  intros H0 H1 H2 H3 s. enough (∀ n s, (String.length s ≤ n)%nat → P s) by eauto. clear s.
  induction n as [|n IH]; intros s Hn; destruct s as [|a [|b [|c s]]]; cbn in Hn; auto; [lia..|].
  apply H3, IH. lia.
Qed.
Lemma drop_breaks_encoded s : drop_breaks (EncodeToString s) = EncodeToString s.
Proof.
  induction s as [|a|a b|a b c s IH] using string_ind3; cbn [EncodeToString drop_breaks];
    rewrite ?base64_char_no_break; congruence.
Qed.
Lemma byte_of_eq z a : z mod 256 = byte_val a → byte_of z = a.
Proof. intros H. unfold byte_of. rewrite H. rewrite <- (byte_of_val a) at 2. unfold byte_of. by rewrite Z.mod_small by apply byte_val_bound. Qed.

(** Six bits of a 24-bit group and back. *)
Lemma sextets v : 0 ≤ v < 16777216 →
  (v / 262144) mod 64 * 262144 + (v / 4096) mod 64 * 4096 + (v / 64) mod 64 * 64 + v mod 64 = v.
Proof. intros. Z.to_euclidean_division_equations. lia. Qed.
Lemma group_bytes x y z : 0 ≤ x < 256 → 0 ≤ y < 256 → 0 ≤ z < 256 →
  let v := x * 65536 + y * 256 + z in
  (v / 65536) mod 256 = x ∧ (v / 256) mod 256 = y ∧ v mod 256 = z.
Proof. intros. subst v. split_and!; Z.to_euclidean_division_equations; lia. Qed.

Lemma base64_roundtrip s : DecodeString (EncodeToString s) = Some s.
Proof.
  unfold DecodeString. rewrite drop_breaks_encoded.
  induction s as [|a|a b|a b c s IH] using string_ind3; [done|..]; cbn [EncodeToString]; cbv zeta;
    cbn [decode_quanta]; rewrite !base64_char_index; cbn [mbind option_bind].
  - pose proof (byte_val_bound a) as Ha. destruct (group_bytes (byte_val a) 0 0) as (E1 & _); [lia..|].
    pose proof (sextets (byte_val a * 65536) ltac:(lia)) as Hs. do 2 f_equal. apply byte_of_eq.
    rewrite <- E1 at 2. f_equal. f_equal. revert Hs. generalize (byte_val a). intros. Z.to_euclidean_division_equations. lia.
  - pose proof (byte_val_bound a). pose proof (byte_val_bound b).
    destruct (group_bytes (byte_val a) (byte_val b) 0) as (E1 & E2 & _); [lia..|].
    pose proof (sextets (byte_val a * 65536 + byte_val b * 256) ltac:(lia)) as Hs.
    rewrite Z.add_0_r in E1, E2. set (v := byte_val a * 65536 + byte_val b * 256) in *.
    assert (v mod 64 = 0) as Hv by (subst v; Z.to_euclidean_division_equations; lia).
    rewrite Hv, Z.add_0_r in Hs. rewrite Hs. do 2 f_equal; [|f_equal]; by apply byte_of_eq.
  - pose proof (byte_val_bound a). pose proof (byte_val_bound b). pose proof (byte_val_bound c).
    destruct (group_bytes (byte_val a) (byte_val b) (byte_val c)) as (E1 & E2 & E3); [lia..|].
    rewrite sextets by lia. rewrite IH. cbn. do 2 f_equal; [|f_equal; [|f_equal]]; by apply byte_of_eq.
Qed.
