(* ===== verification/Indexer.v ===== *)
(** * Chain indexers: what the two services share

    [internal/bscswap] and [internal/bscinbound] have the same node adapter, the
    same checkpoint code, the same block search and the same page tokens, up to the
    row they store; this file models that code once, over the type [T] of the
    transactions they commit.  go-ethereum's types are records of what their methods
    return; recovering a sender and printing or reading hexadecimal are the
    [EthLib] class.  The lifecycle timestamps of the tables are left out. *)

From S2P Require Import Prelude Prog Sql Bytes.
From stdpp Require Import base tactics option list list_numbers sorting strings gmap.
From Stdlib Require Import ZArith Lia Ascii.
#[local] Open Scope Z_scope.

(** [uint64] arithmetic wraps. *)
Definition u64 (z : Z) : Z := z mod 2 ^ 64.
(** [big.Int.Uint64]: the low 64 bits of the magnitude. *)
Definition big_uint64 (z : Z) : Z := Z.abs z mod 2 ^ 64.
Definition is_uint64 (z : Z) : bool := (0 <=? z) && (z <? 2 ^ 64).

(** ** go-ethereum values *)
Record Header := { h_number : option Z; h_hash : Z; h_time : Z }.
Record Transaction := { t_hash : Z; t_to : option Z; t_value : Z; t_data : string }.
Record Block := {
  b_number : Z; b_hash : Z; b_parent : Z; b_time : Z; b_transactions : list (option Transaction) }.
Record Log := {
  l_removed : bool; l_block_number : Z; l_block_hash : Z; l_tx_hash : Z; l_tx_index : Z; l_topics : list Z }.
Record Receipt := { rc_status : Z; rc_block_hash : Z; rc_tx_index : Z }.
Class EthLib : Type := {
  sender : Transaction → option Z;
  parse_address : string → option Z;
  hash_hex : Z → string;
  address_hex : Z → string }.

Inductive IdxError :=
| NodeFailure (what : string) | FinalizedHeaderInvalid | HeaderInvalid (number : Z) | BlockInvalid (number : Z)
| LogRangeInvalid | ReceiptMissing
| ExceedsInt64 (field : string) | FieldNegative (field : string) | HashLengthInvalid | AddressLengthInvalid
| ErrNoRows | ErrCheckpointConflict | CursorNotAdvancing | ValueNotPositive | DatabaseError (what : string)
| FinalizedHeightZero | SearchUnfinished
| AnchorMismatch | LogRemoved | LogOutsideRange | LogTopic | LogEmptyHash | LogInconsistent
| CandidateBlockMissing | CandidateBlockHash | CandidateIndex | CandidatePosition | SenderUnknown
| BlockEmpty | ParentMismatch | ReceiptPosition.

(** ** Checkpoints *)
Record Checkpoint := {
  StartBlockNumber : Z; CursorBlockNumber : Z; CursorBlockHash : Z; CursorBlockTimestamp : Z }.
Record PageCursor := { pc_block_number : Z; pc_transaction_index : Z }.

(** ** The rows of the store ([store/store.go]) *)
Definition uint64ToInt64 (field : string) (value : Z) : result IdxError Z :=
  if max_int64 <? value then Err (ExceedsInt64 field) else Ok value.
Definition int64ToUint64 (field : string) (value : Z) : result IdxError Z :=
  if value <? 0 then Err (FieldNegative field) else Ok value.
(** [common.Hash.Bytes], [BytesToHash] and the same of an address, which keep the
    last bytes of a longer string. *)
Definition HashLength : nat := 32.
Definition AddressLength : nat := 20.
Definition hash_bytes (h : Z) : string := be_bytes HashLength h.
Definition address_bytes (a : Z) : string := be_bytes AddressLength a.
Definition bytes_to_hash (s : string) : Z := be_value s mod 256 ^ 32.
Definition bytes_to_address (s : string) : Z := be_value s mod 256 ^ 20.
#[global] Arguments hash_bytes : simpl never.
#[global] Arguments address_bytes : simpl never.

Record checkpoint_row := {
  ck_start_block_number : Z; ck_cursor_block_number : Z; ck_cursor_block_hash : string;
  ck_cursor_block_timestamp : Z }.
(** [singleton] is the primary key and always true: at most one row. *)
Record index_db (Row : Type) := IndexDB { ix_checkpoint : option checkpoint_row; ix_rows : list Row }.
Arguments IndexDB {Row} _ _.
Arguments ix_checkpoint {Row} _.
Arguments ix_rows {Row} _.

(** The CHECK constraints; [cursor_block_number + 1] must be a [BIGINT]. *)
Definition checkpoint_check (r : checkpoint_row) : bool :=
  (0 <? ck_start_block_number r) && (0 <=? ck_cursor_block_number r)
  && bigint_in_range (ck_cursor_block_number r + 1) && (ck_start_block_number r <=? ck_cursor_block_number r + 1)
  && (String.length (ck_cursor_block_hash r) =? 32)%nat && (0 <=? ck_cursor_block_timestamp r).

Definition checkpoint_from_row (row : checkpoint_row) : result IdxError Checkpoint :=
  start ← int64ToUint64 "start_block_number" (ck_start_block_number row);
  cursor ← int64ToUint64 "cursor_block_number" (ck_cursor_block_number row);
  timestamp ← int64ToUint64 "cursor_block_timestamp" (ck_cursor_block_timestamp row);
  _ ← require (String.length (ck_cursor_block_hash row) =? HashLength)%nat HashLengthInvalid;
  Ok {| StartBlockNumber := start; CursorBlockNumber := cursor;
        CursorBlockHash := bytes_to_hash (ck_cursor_block_hash row); CursorBlockTimestamp := timestamp |}.
Definition checkpoint_params (c : Checkpoint) : result IdxError checkpoint_row :=
  start ← uint64ToInt64 "start_block_number" (StartBlockNumber c);
  cursor ← uint64ToInt64 "cursor_block_number" (CursorBlockNumber c);
  timestamp ← uint64ToInt64 "cursor_block_timestamp" (CursorBlockTimestamp c);
  Ok {| ck_start_block_number := start; ck_cursor_block_number := cursor;
        ck_cursor_block_hash := hash_bytes (CursorBlockHash c); ck_cursor_block_timestamp := timestamp |}.

(** ** Operations of a scanner *)
Section Scanner.
Context {T : Type}.

Inductive iop :=
| OpHeader (number : option Z)
| OpBlock (number : Z)
| OpFilterLogs (from to : Z)
| OpReceipt (hash : Z)
| OpGetCheckpoint
| OpInitialize (row : checkpoint_row)
| OpCommit (expected : Z) (transactions : list T) (c : Checkpoint).
Definition iresp (o : iop) : Type :=
  match o with
  | OpHeader _ => result IdxError (option Header)
  | OpBlock _ => result IdxError (option Block)
  | OpFilterLogs _ _ => result IdxError (list Log)
  | OpReceipt _ => result IdxError (option Receipt)
  | OpGetCheckpoint => result IdxError Checkpoint
  | OpInitialize _ => result IdxError (option checkpoint_row)
  | OpCommit _ _ _ => result IdxError unit
  end.
Abbreviation iprog A := (program iresp (result IdxError A)).
Abbreviation icall := (Prog.call (resp := iresp)).

(** *** The node ([node.go]); [OpHeader None] asks for the finalized tag. *)
Definition node_FinalizedHeader : iprog Header :=
  header ←! (icall (OpHeader None) : iprog (option Header));
  mret (match header with
        | Some h => match h_number h with
                    | Some n => if is_uint64 n then Ok h else Err FinalizedHeaderInvalid
                    | None => Err FinalizedHeaderInvalid
                    end
        | None => Err FinalizedHeaderInvalid
        end).
Definition node_HeaderByNumber (number : Z) : iprog Header :=
  header ←! (icall (OpHeader (Some number)) : iprog (option Header));
  mret (match header with
        | Some h => match h_number h with
                    | Some n => if big_uint64 n =? number then Ok h else Err (HeaderInvalid number)
                    | None => Err (HeaderInvalid number)
                    end
        | None => Err (HeaderInvalid number)
        end).
Definition node_BlockByNumber (number : Z) : iprog Block :=
  block ←! (icall (OpBlock number) : iprog (option Block));
  mret (match block with
        | Some b => if b_number b =? number then Ok b else Err (BlockInvalid number)
        | None => Err (BlockInvalid number)
        end).
Definition node_FilterSwapLogs (start end_ : Z) : iprog (list Log) :=
  if end_ <? start then mret (Err LogRangeInvalid) else (icall (OpFilterLogs start end_) : iprog (list Log)).
Definition node_TransactionReceipt (hash : Z) : iprog Receipt :=
  receipt ←! (icall (OpReceipt hash) : iprog (option Receipt));
  mret (of_option receipt ReceiptMissing).

(** *** The first block at or after a time ([findFirstBlockAtOrAfter]): each round
    halves the range, so 64 rounds end every search. *)
Fixpoint search_loop (fuel : nat) (low high targetTimestamp : Z) : iprog Z :=
  if low <? high then
    match fuel with
    | O => mret (Err SearchUnfinished)
    | S fuel' =>
        let mid := u64 (low + u64 (high - low) / 2) in
        header ←! node_HeaderByNumber mid;
        if h_time header <? targetTimestamp then search_loop fuel' (u64 (mid + 1)) high targetTimestamp
        else search_loop fuel' low mid targetTimestamp
    end
  else mret (Ok low).
Definition find_first_block (high targetTimestamp : Z) : iprog Z := search_loop 64 0 high targetTimestamp.

(** [InitializeCheckpoint] of the store is two statements, and others may run between them:
    the [INSERT], and the read of the row that was there before. *)
Definition initialize_stored (c : Checkpoint) : iprog Checkpoint :=
  params ←! mret (checkpoint_params c);
  inserted ←! (icall (OpInitialize params) : iprog (option checkpoint_row));
  match inserted with
  | None => (icall OpGetCheckpoint : iprog Checkpoint)
  | Some row => mret (checkpoint_from_row row)
  end.

(** [initializeCheckpoint] *)
Definition defaultInitialLookback : Z := 30 * 24 * 3600.
Definition initialize_checkpoint : iprog Checkpoint :=
  finalized ←! node_FinalizedHeader;
  let finalizedNumber := big_uint64 (default 0 (h_number finalized)) in
  if finalizedNumber =? 0 then mret (Err FinalizedHeightZero) else
  let targetTimestamp :=
    if defaultInitialLookback <? h_time finalized then u64 (h_time finalized - defaultInitialLookback) else 0 in
  startBlock ←! find_first_block finalizedNumber targetTimestamp;
  let startBlock := if startBlock =? 0 then 1 else startBlock in
  previous ←! node_HeaderByNumber (u64 (startBlock - 1));
  initialize_stored {| StartBlockNumber := startBlock; CursorBlockNumber := u64 (startBlock - 1);
    CursorBlockHash := h_hash previous; CursorBlockTimestamp := h_time previous |}.

(** The checkpoint a run starts from: the stored one, or a fresh one. *)
Definition load_checkpoint : iprog Checkpoint :=
  stored ← icall OpGetCheckpoint;
  match (stored : result IdxError Checkpoint) with
  | Err ErrNoRows => initialize_checkpoint
  | r => mret r
  end.
(** The last block of the next window. *)
Definition window_end (batch start finalizedNumber : Z) : Z :=
  if batch <? u64 (u64 (finalizedNumber - start) + 1) then u64 (u64 (start + batch) - 1) else finalizedNumber.
End Scanner.
#[global] Arguments find_first_block : simpl never.
Arguments iop : clear implicits.

(** ** The statements and transactions of the store *)
Section Store.
Context {T Row : Type} (row_hash : Row → string) (row_position : Row → Z * Z) (row_check : Row → bool).
Context (transaction_params : T → result IdxError Row).
Abbreviation itx A := (tx (index_db Row) IdxError A).

Definition sql_get_checkpoint (db : index_db Row) : result IdxError checkpoint_row :=
  of_option (ix_checkpoint db) ErrNoRows.
(** [INSERT ... ON CONFLICT (singleton) DO NOTHING RETURNING]; no row is [None]. *)
Definition sql_initialize_checkpoint (row : checkpoint_row) : itx (option checkpoint_row) := λ db,
  if checkpoint_check row then
    match ix_checkpoint db with
    | Some _ => Ok (db, None)
    | None => Ok (IndexDB (Some row) (ix_rows db), Some row)
    end
  else Err (DatabaseError "scan checkpoint check").
(** [UPDATE ... WHERE singleton AND cursor_block_number = expected]: the rows affected. *)
Definition sql_advance_checkpoint (cursor : Z) (hash : string) (timestamp expected : Z) : itx Z := λ db,
  match ix_checkpoint db with
  | Some r =>
      if ck_cursor_block_number r =? expected then
        let r' := {| ck_start_block_number := ck_start_block_number r; ck_cursor_block_number := cursor;
                     ck_cursor_block_hash := hash; ck_cursor_block_timestamp := timestamp |} in
        if checkpoint_check r' then Ok (IndexDB (Some r') (ix_rows db), 1) else Err (DatabaseError "scan checkpoint check")
      else Ok (db, 0)
  | None => Ok (db, 0)
  end.
(** [INSERT ... ON CONFLICT (transaction_hash) DO NOTHING]; the block position is unique. *)
Definition sql_insert_transaction (row : Row) : itx unit := λ db,
  if row_check row then
    if existsb (λ r, bool_decide (row_hash r = row_hash row)) (ix_rows db) then Ok (db, tt)
    else if existsb (λ r, bool_decide (row_position r = row_position row)) (ix_rows db)
         then Err (DatabaseError "block position")
         else Ok (IndexDB (ix_checkpoint db) (ix_rows db ++ [row]), tt)
  else Err (DatabaseError "transaction check").

Definition get_checkpoint (db : index_db Row) : result IdxError Checkpoint :=
  row ← sql_get_checkpoint db; checkpoint_from_row row.
Fixpoint insert_transactions (transactions : list T) : itx unit :=
  match transactions with
  | [] => mret tt
  | transaction :: rest =>
      params ← tx_lift (transaction_params transaction);
      _ ← sql_insert_transaction params;
      insert_transactions rest
  end.
Definition commit_batch (expectedCursor : Z) (transactions : list T) (c : Checkpoint) : itx unit :=
  _ ← ensure (expectedCursor <? CursorBlockNumber c) CursorNotAdvancing;
  expected ← tx_lift (uint64ToInt64 "expected_cursor_block_number" expectedCursor);
  checkpointBlock ← tx_lift (uint64ToInt64 "cursor_block_number" (CursorBlockNumber c));
  checkpointTimestamp ← tx_lift (uint64ToInt64 "cursor_block_timestamp" (CursorBlockTimestamp c));
  _ ← insert_transactions transactions;
  rows ← sql_advance_checkpoint checkpointBlock (hash_bytes (CursorBlockHash c)) checkpointTimestamp expected;
  ensure (rows =? 1) ErrCheckpointConflict.
End Store.

(** ** Page tokens ([service.go]) *)
Definition defaultPageSize : Z := 100.
Definition maxPageSize : Z := 300.
Definition pageTokenSize : nat := 1 + AddressLength + 8 + 8.
Definition pageTokenVersion : Z := 1.
Definition encode_page_token (address : Z) (cursor : PageCursor) : string :=
  EncodeToString (String (byte_of pageTokenVersion)
    (address_bytes address +:+ be_bytes 8 (pc_block_number cursor) +:+ be_bytes 8 (pc_transaction_index cursor)))%string.
Definition decode_page_token (token : string) : option (PageCursor * Z) :=
  data ← DecodeString token;
  if (String.length data =? pageTokenSize)%nat
     && bool_decide (String.get 0 data = Some (byte_of pageTokenVersion))
  then Some ({| pc_block_number := be_value (String.substring 21 8 data);
                pc_transaction_index := be_value (String.substring 29 8 data) |},
             bytes_to_address (String.substring 1 20 data))
  else None.

Lemma page_token_decodes address cursor :
  0 ≤ address < 256 ^ 20 → 0 ≤ pc_block_number cursor < 2 ^ 64 → 0 ≤ pc_transaction_index cursor < 2 ^ 64 →
  decode_page_token (encode_page_token address cursor) = Some (cursor, address).
Proof.
  intros Ha Hb Hi. unfold decode_page_token, encode_page_token. rewrite base64_roundtrip. cbn [mbind option_bind].
  set (A := address_bytes address). set (B := be_bytes 8 (pc_block_number cursor)).
  set (I := be_bytes 8 (pc_transaction_index cursor)). set (v := byte_of pageTokenVersion).
  assert (String.length A = 20%nat) as HA by apply be_bytes_length.
  assert (String.length B = 8%nat) as HB by apply be_bytes_length.
  assert (String.length I = 8%nat) as HI by apply be_bytes_length.
  cbn [String.length]. rewrite !string_app_length, HA, HB, HI. cbn [Nat.eqb pageTokenSize AddressLength Nat.add].
  cbn [String.get]. rewrite bool_decide_eq_true_2 by done. cbn [andb].
  change (String.substring 21 8 (String v (A +:+ B +:+ I))) with (String.substring 20 8 (A +:+ B +:+ I)).
  change (String.substring 29 8 (String v (A +:+ B +:+ I))) with (String.substring 28 8 (A +:+ B +:+ I)).
  change (String.substring 1 20 (String v (A +:+ B +:+ I))) with (String.substring 0 20 (A +:+ B +:+ I)).
  assert (String.substring 0 20 (A +:+ B +:+ I) = A) as -> by (rewrite <- HA; apply substring_app_l).
  assert (String.substring 20 8 (A +:+ B +:+ I) = B) as ->.
  { rewrite <- HA, substring_app_r, <- HB. apply substring_app_l. }
  assert (String.substring 28 8 (A +:+ B +:+ I) = I) as ->.
  { rewrite string_app_assoc. change 28%nat with (20 + 8)%nat. rewrite <- HA, <- HB, <- string_app_length, substring_app_r.
    rewrite HB, <- HI. apply substring_all. }
  unfold bytes_to_address. subst A B I. unfold address_bytes. change (256 ^ 20) with (256 ^ Z.of_nat AddressLength) in Ha |- *.
  rewrite (Z.mod_small (be_value _)) by (rewrite be_value_bytes_small by done; done).
  rewrite !be_value_bytes_small by done. by destruct cursor.
Qed.
