(* ===== verification/IndexerInv.v ===== *)
(** * Chain indexers: the index follows the chain

    Any number of scanners run concurrently against one database and one node;
    requests fail, commits lose their answer and scanners stop at any point.  The
    stored rows are the expected rows of the blocks from the start to the cursor, typed as their tables say.
    Then pages: the page after a row is the rest of the listing. *)

From S2P Require Import Prelude Prog Sql Bytes Indexer.
From stdpp Require Import base tactics option list list_numbers sorting strings gmap.
From Stdlib Require Import ZArith Lia Ascii.
#[local] Open Scope Z_scope.

(** ** Chains

    Block [n] of the finalized chain and its logs; the receipt of a transaction. *)
Record Chain := { chain_block : Z → Block; chain_logs : Z → list Log; chain_receipt : Z → Receipt }.
Definition header_of (b : Block) : Header := {| h_number := Some (b_number b); h_hash := b_hash b; h_time := b_time b |}.
Definition transaction_at (c : Chain) (n i : Z) (t : Transaction) : Prop :=
  0 ≤ i ∧ b_transactions (chain_block c n) !! Z.to_nat i = Some (Some t).

(** What the code relies on: blocks carry their number, a log names its block and
    the transaction it belongs to, and a transaction hash occurs once. *)
Record chain_ok (c : Chain) : Prop := {
  co_number : ∀ n, 0 ≤ n < 2 ^ 64 → b_number (chain_block c n) = n;
  co_log : ∀ n l, 0 ≤ n < 2 ^ 64 → l ∈ chain_logs c n →
    l_block_number l = n ∧ l_block_hash l = b_hash (chain_block c n)
    ∧ ∃ t, transaction_at c n (l_tx_index l) t ∧ t_hash t = l_tx_hash l;
  co_unique : ∀ n n' i i' t t', transaction_at c n i t → transaction_at c n' i' t' → t_hash t = t_hash t' →
    n = n' ∧ i = i';
  co_hash : ∀ n, 0 ≤ b_hash (chain_block c n) < 256 ^ 32;
  co_tx_hash : ∀ n i t, transaction_at c n i t → 0 ≤ t_hash t < 256 ^ 32 }.

Section Index.
Context {T Row : Type} (row_hash : Row → string) (row_position : Row → Z * Z) (row_check : Row → bool).
Context (transaction_params : T → result IdxError Row).
(** The rows of each block, and that no hash repeats along the chain. *)
Context (expected : Z → list Row).
Definition range_rows (first last : Z) : list Row := concat (expected <$> seqZ first (last - first + 1)).
Context (expected_unique : ∀ first last, 0 ≤ first → NoDup (row_hash <$> range_rows first last)).

Abbreviation commit := (commit_batch row_hash row_position row_check transaction_params).

Lemma range_rows_app a b c : a - 1 ≤ b → b ≤ c → range_rows a c = range_rows a b ++ range_rows (b + 1) c.
Proof.
  intros H1 H2. unfold range_rows. rewrite <- concat_app, <- fmap_app. f_equal. f_equal.
  replace (c - a + 1) with ((b - a + 1) + (c - (b + 1) + 1)) by lia.
  rewrite seqZ_app by lia. f_equal. f_equal; lia.
Qed.

(** ** Transactions of the store *)
Lemma insert_ok txs rows db db' u :
  mapM transaction_params txs = Ok rows → NoDup (row_hash <$> ix_rows db ++ rows) →
  insert_transactions row_hash row_position row_check transaction_params txs db = Ok (db', u) →
  db' = IndexDB (ix_checkpoint db) (ix_rows db ++ rows) ∧ Forall (λ r, row_check r = true) rows.
Proof.
  revert rows db. induction txs as [|t txs IH]; intros rows db Hm Hnd H; cbn in Hm, H.
  { injection Hm as <-. injection H as <- <-. rewrite app_nil_r. destruct db. split; [done|constructor]. }
  apply result_bind_ok in Hm as (row & Hrow & (rest & Hrest & Heq)%result_bind_ok). injection Heq as <-.
  apply tx_bind_ok in H as (db1 & params & [-> Hp]%tx_lift_ok & H). rewrite Hrow in Hp. injection Hp as <-.
  apply tx_bind_ok in H as (db2 & [] & Hi & H). unfold sql_insert_transaction in Hi.
  destruct (row_check row) eqn:Hc; [|done].
  assert (existsb (λ r, bool_decide (row_hash r = row_hash row)) (ix_rows db) = false) as Hno.
  { apply existsb_elem_false. intros r Hr. apply bool_decide_eq_false. intros Heq.
    rewrite fmap_app in Hnd. apply NoDup_app in Hnd as (_ & Hdis & _).
    apply (Hdis (row_hash r)); [apply list_elem_of_fmap; eauto|]. rewrite Heq. left. }
  rewrite Hno in Hi. destruct (existsb _ _) in Hi; simplify_eq.
  apply (IH rest) in H as [-> Hall]; [|done|].
  - cbn. rewrite <- (assoc_L (++)). split; [done|]. by constructor.
  - cbn. rewrite <- (assoc_L (++)). done.
Qed.

Lemma insert_checkpoint txs db db' u :
  insert_transactions row_hash row_position row_check transaction_params txs db = Ok (db', u) →
  ix_checkpoint db' = ix_checkpoint db.
Proof.
  revert db. induction txs as [|t txs IH]; intros db H; cbn in H; [by injection H as <- _|].
  apply tx_bind_ok in H as (d1 & row & [-> Hrow]%tx_lift_ok & H). apply tx_bind_ok in H as (d2 & [] & Hi & H).
  rewrite (IH _ H). unfold sql_insert_transaction in Hi. destruct (row_check row); [|done].
  destruct (existsb _ _); [by simplify_eq|]. by destruct (existsb _ _); simplify_eq.
Qed.

(** What a committed batch did: the inserts, and the compare-and-set of the cursor. *)
Lemma commit_ok e txs c db db' u :
  commit e txs c db = Ok (db', u) →
  ∃ r d, ix_checkpoint db = Some r ∧ ck_cursor_block_number r = e ∧ e < CursorBlockNumber c < max_int64
    ∧ insert_transactions row_hash row_position row_check transaction_params txs db = Ok (d, tt)
    ∧ db' = IndexDB (Some {| ck_start_block_number := ck_start_block_number r;
                            ck_cursor_block_number := CursorBlockNumber c;
                            ck_cursor_block_hash := hash_bytes (CursorBlockHash c);
                            ck_cursor_block_timestamp := CursorBlockTimestamp c |}) (ix_rows d).
Proof.
  intros H. unfold commit_batch in H.
  apply tx_bind_ok in H as (d0 & [] & [-> H0]%ensure_ok & H).
  apply tx_bind_ok in H as (d1 & e' & [-> H1]%tx_lift_ok & H).
  apply tx_bind_ok in H as (d2 & cb & [-> H2]%tx_lift_ok & H).
  apply tx_bind_ok in H as (d3 & ct & [-> H3]%tx_lift_ok & H).
  apply tx_bind_ok in H as (d4 & [] & Hi & H). pose proof (insert_checkpoint _ _ _ _ Hi) as Hck.
  apply tx_bind_ok in H as (d5 & n & Ha & [-> Hn]%ensure_ok). unfold sql_advance_checkpoint in Ha. rewrite Hck in Ha.
  unfold uint64ToInt64 in *. bool_prop. subst n.
  destruct (max_int64 <? e); [done|]. destruct (max_int64 <? CursorBlockNumber c); [done|].
  destruct (max_int64 <? CursorBlockTimestamp c); [done|]. simplify_eq.
  destruct (ix_checkpoint db) as [r|]; [|done]. destruct (ck_cursor_block_number r =? e') eqn:He; [|done].
  destruct (checkpoint_check _) eqn:Hc; [|done]. simplify_eq. unfold checkpoint_check, bigint_in_range in Hc. cbn in Hc.
  bool_prop. exists r, d4. split_and!; [done..|lia|done|done].
Qed.
Lemma insert_params txs db db' u :
  insert_transactions row_hash row_position row_check transaction_params txs db = Ok (db', u) →
  ∃ rows, mapM transaction_params txs = Ok rows.
Proof.
  revert db. induction txs as [|t txs IH]; intros db H; cbn in *; [by exists []|].
  apply tx_bind_ok in H as (d1 & row & [-> Hrow]%tx_lift_ok & H). apply tx_bind_ok in H as (d2 & [] & _ & H).
  destruct (IH _ H) as [rows Hrows]. exists (row :: rows). rewrite Hrow. cbn. by rewrite Hrows.
Qed.
(** ** The invariant *)
Context (chain : Chain).
Definition follows (db : index_db Row) : Prop :=
  match ix_checkpoint db with
  | None => ix_rows db = []
  | Some r =>
      1 ≤ ck_start_block_number r ∧ ck_start_block_number r - 1 ≤ ck_cursor_block_number r < max_int64
      ∧ ck_cursor_block_hash r = hash_bytes (b_hash (chain_block chain (ck_cursor_block_number r)))
      ∧ ix_rows db ≡ₚ range_rows (ck_start_block_number r) (ck_cursor_block_number r)
  end.
Definition batch_good (e : Z) (txs : list T) (c : Checkpoint) : Prop :=
  0 ≤ e ∧ CursorBlockHash c = b_hash (chain_block chain (CursorBlockNumber c))
  ∧ ∀ rows, mapM transaction_params txs = Ok rows → rows ≡ₚ range_rows (e + 1) (CursorBlockNumber c).
Definition init_good (c : Checkpoint) : Prop :=
  1 ≤ StartBlockNumber c ∧ CursorBlockNumber c = StartBlockNumber c - 1
  ∧ CursorBlockHash c = b_hash (chain_block chain (CursorBlockNumber c)).

Definition row_good (r : checkpoint_row) : Prop :=
  1 ≤ ck_start_block_number r ≤ max_int64 ∧ ck_cursor_block_number r = ck_start_block_number r - 1
  ∧ ck_cursor_block_hash r = hash_bytes (b_hash (chain_block chain (ck_cursor_block_number r))).
Lemma params_good c row : init_good c → checkpoint_params c = Ok row → row_good row.
Proof.
  intros (Hs & Hc & Hh) Hp. unfold checkpoint_params, uint64ToInt64 in Hp. tx_inv.
  repeat (case_match; simplify_eq). unfold row_good. cbn. bool_prop. split_and!; [lia..|by rewrite Hh].
Qed.

Lemma follows_commit e txs c db db' u :
  follows db → batch_good e txs c → commit e txs c db = Ok (db', u) → follows db'.
Proof using expected_unique.
  intros Hf (He & Hh & Hrows) H. destruct (commit_ok _ _ _ _ _ _ H) as (r & d & Hr & Hc & Hlt & Hi & ->).
  unfold follows in Hf. rewrite Hr in Hf. destruct Hf as (Hs & Hb & _ & Hp).
  destruct (insert_params _ _ _ _ Hi) as [rows Hm]. specialize (Hrows rows Hm).
  assert (ix_rows db ++ rows ≡ₚ range_rows (ck_start_block_number r) (CursorBlockNumber c)) as Hall.
  { subst e. rewrite Hp, Hrows, <- range_rows_app by lia. done. }
  apply (insert_ok txs rows) in Hi as [-> _]; [|done|rewrite Hall; apply expected_unique; lia].
  unfold follows. cbn. split_and!; [lia..|by rewrite Hh|done].
Qed.
Lemma follows_initialize row db db' a :
  follows db → row_good row → sql_initialize_checkpoint row db = Ok (db', a) → follows db' ∧ ∀ r, a = Some r → r = row.
Proof.
  intros Hf (Hs & Hc & Hh) Hi. unfold sql_initialize_checkpoint in Hi. destruct (checkpoint_check row) eqn:Hk; [|done].
  destruct (ix_checkpoint db) as [r0|] eqn:Hdb; simplify_eq; [by split|]. split; [|by intros r [= <-]].
  unfold follows in Hf. rewrite Hdb in Hf. unfold follows. cbn. unfold checkpoint_check, bigint_in_range, max_int64 in *. bool_prop.
  split_and!; [lia..|done|]. rewrite Hf. unfold range_rows.
  replace (ck_cursor_block_number row - ck_start_block_number row + 1) with 0 by lia. done.
Qed.

(** ** Truthful replies *)
(** The node answers from the chain, with nothing, or with an error; the store
    returns a checkpoint in range, the row it inserted, or an error. *)
Definition stored_checkpoint (c : Checkpoint) : Prop :=
  1 ≤ StartBlockNumber c ∧ StartBlockNumber c - 1 ≤ CursorBlockNumber c < max_int64.
Definition answers (o : iop T) : iresp o → Prop :=
  match o return iresp o → Prop with
  | OpHeader (Some n) => λ r, ∀ h, r = Ok (Some h) → h = header_of (chain_block chain n)
  | OpHeader None => λ r, ∀ h, r = Ok (Some h) → ∃ n, 0 ≤ n < 2 ^ 64 ∧ h = header_of (chain_block chain n)
  | OpBlock n => λ r, ∀ b, r = Ok (Some b) → b = chain_block chain n
  | OpFilterLogs a b => λ r, ∀ ls, r = Ok ls → ls = concat (chain_logs chain <$> seqZ a (b - a + 1))
  | OpReceipt h => λ r, ∀ rc, r = Ok (Some rc) → rc = chain_receipt chain h
  | OpGetCheckpoint => λ r, ∀ c, r = Ok c → stored_checkpoint c
  | OpInitialize row => λ r, ∀ row', r = Ok (Some row') → row' = row
  | OpCommit _ _ _ => λ _, True
  end.
Definition writes_allowed (_ : unit) (o : iop T) : Prop :=
  match o with
  | OpCommit e txs c => batch_good e txs c
  | OpInitialize row => row_good row
  | _ => True
  end.
Abbreviation obeying := (obeys (λ s (_ : iop T) _, s) writes_allowed answers).

Lemma stored_from_row db c : follows db → get_checkpoint db = Ok c → stored_checkpoint c.
Proof.
  intros Hf H. unfold get_checkpoint, sql_get_checkpoint in H. apply result_bind_ok in H as (r & Hr%of_option_ok & H).
  unfold follows in Hf. rewrite Hr in Hf. destruct Hf as (Hs & Hb & _). unfold checkpoint_from_row, int64ToUint64 in H.
  tx_inv. repeat (case_match; simplify_eq). unfold stored_checkpoint. cbn. lia.
Qed.
Lemma stored_from_good r c : row_good r → checkpoint_from_row r = Ok c → stored_checkpoint c.
Proof.
  intros (Hs & Hc & _) H. unfold checkpoint_from_row, int64ToUint64 in H. tx_inv. repeat (case_match; simplify_eq).
  unfold stored_checkpoint. cbn. lia.
Qed.

(** ** The system *)
Abbreviation scanner := (program (iresp (T := T)) (result IdxError bool)).
Record isystem := { is_db : index_db Row; is_scanners : list scanner }.
(** A write may fail before it commits, or commit and report an error. *)
Definition written {A} (m : tx (index_db Row) IdxError A) (db db' : index_db Row) (r : result IdxError A) : Prop :=
  (db', r) = run_tx m db ∨ ∃ e, r = Err e ∧ (db' = db ∨ db' = (run_tx m db).1).
Definition iperform (o : iop T) (db db' : index_db Row) : iresp o → Prop :=
  match o return iresp o → Prop with
  | OpGetCheckpoint => λ r, db' = db ∧ (r = get_checkpoint db ∨ ∃ e, r = Err e)
  | OpInitialize row => λ r, written (sql_initialize_checkpoint row) db db' r
  | OpCommit e txs c => λ r, written (commit e txs c) db db' r
  | o => λ r, db' = db ∧ answers o r
  end.
Inductive istep (scan : scanner) : isystem → isystem → Prop :=
| istep_spawn db ps : istep scan {| is_db := db; is_scanners := ps |} {| is_db := db; is_scanners := scan :: ps |}
| istep_perform db db' ps i o k r :
    ps !! i = Some (Vis o k) → iperform o db db' r →
    istep scan {| is_db := db; is_scanners := ps |} {| is_db := db'; is_scanners := <[i := k r]> ps |}
| istep_stop db ps i :
    istep scan {| is_db := db; is_scanners := ps |} {| is_db := db; is_scanners := delete i ps |}.
Definition istart : isystem := {| is_db := IndexDB None []; is_scanners := [] |}.

Definition IInv (σ : isystem) : Prop :=
  follows (is_db σ) ∧ Forall (λ p, obeying tt p (λ _ _, True)) (is_scanners σ).

Lemma perform_follows o db db' r :
  follows db → writes_allowed tt o → iperform o db db' r → follows db' ∧ answers o r.
Proof using expected_unique.
  intros Hf Ha Hp. destruct o as [[n|]|n|a b|h| |row|e txs c]; cbn in Hp; try (destruct Hp as [-> Hp]; by split).
  - destruct Hp as [-> Hp]. split; [done|]. cbn. intros c ->. destruct Hp as [Hp|[e He]]; [|done]. by apply (stored_from_row db).
  - unfold written, run_tx in Hp. cbn. destruct (sql_initialize_checkpoint row db) as [[d a]|e] eqn:Hi.
    + destruct (follows_initialize _ _ _ _ Hf Ha Hi) as [Hd Hrow].
      destruct Hp as [[= -> ->]|(e & -> & [->| ->])]; (split; [done|]); intros r Hr; simplify_eq; auto.
    + destruct Hp as [[= -> ->]|(e' & -> & [->| ->])]; (split; [done|]); intros r Hr; by simplify_eq.
  - split; [|done]. unfold written, run_tx in Hp. destruct (commit e txs c db) as [[d u]|err] eqn:Hc.
    + pose proof (follows_commit _ _ _ _ _ _ Hf Ha Hc). destruct Hp as [[= -> ->]|(e' & -> & [->| ->])]; done.
    + destruct Hp as [[= -> ->]|(e' & -> & [->| ->])]; done.
Qed.
Lemma IInv_step scan σ σ' : obeying tt scan (λ _ _, True) → istep scan σ σ' → IInv σ → IInv σ'.
Proof using expected_unique.
  intros Hscan Hst [Hf Hps]. destruct Hst as [db ps|db db' ps i o k r Hi Hp|db ps i]; cbn in *.
  - split; [done|]. by constructor.
  - pose proof (Forall_lookup_1 _ _ _ _ Hps Hi) as [Ha Hk]. destruct (perform_follows o db db' r Hf Ha Hp) as [Hf' Hans].
    split; [done|]. apply Forall_insert; [done|]. by apply Hk.
  - split; [done|]. by apply Forall_delete.
Qed.
(** Whatever happens, the index follows the chain. *)
Lemma index_follows scan σ :
  obeying tt scan (λ _ _, True) → rtc (istep scan) istart σ → follows (is_db σ).
Proof using expected_unique.
  intros Hscan Hst. enough (IInv σ) as [? _] by done.
  assert (IInv istart) as H0 by (split; [done|constructor]). revert H0.
  induction Hst; eauto using IInv_step.
Qed.
End Index.

(** ** Expected rows by position *)
Section Positions.
Context {Row : Type} (row_hash : Row → string) (chain : Chain) (Hchain : chain_ok chain).
(** The row of the transaction at a position, if it belongs to the index. *)
Context (row_at : Z → Z → option Row).
Context (row_at_hash : ∀ n i r, row_at n i = Some r → ∃ t, transaction_at chain n i t ∧ row_hash r = hash_bytes (t_hash t)).

Definition positions (n : Z) : list Z := seqZ 0 (Z.of_nat (length (b_transactions (chain_block chain n)))).
Definition block_rows (n : Z) : list Row := omap (row_at n) (positions n).

Lemma elem_of_block_rows n r : r ∈ block_rows n ↔ ∃ i, row_at n i = Some r.
Proof using row_at_hash.
  unfold block_rows, positions. rewrite list_elem_of_omap. setoid_rewrite elem_of_seqZ. split; [naive_solver|].
  intros (i & Hi). exists i. split; [|done]. destruct (row_at_hash n i r Hi) as (t & (Hpos & Ht) & _).
  apply lookup_lt_Some in Ht. lia.
Qed.
Lemma elem_of_range_rows first last r :
  r ∈ range_rows block_rows first last ↔ ∃ n i, first ≤ n ≤ last ∧ row_at n i = Some r.
Proof using row_at_hash.
  unfold range_rows. rewrite list_elem_of_In, in_concat. setoid_rewrite <- list_elem_of_In.
  setoid_rewrite list_elem_of_fmap. setoid_rewrite elem_of_seqZ. split.
  - intros (l & (n & -> & Hn) & (i & Hi)%elem_of_block_rows). exists n, i. split; [lia|done].
  - intros (n & i & Hn & Hi). exists (block_rows n). split; [exists n; split; [done|lia]|]. apply elem_of_block_rows. eauto.
Qed.
Lemma hash_bytes_inj h h' : 0 ≤ h < 256 ^ 32 → 0 ≤ h' < 256 ^ 32 → hash_bytes h = hash_bytes h' → h = h'.
Proof.
  intros Hh Hh' H. apply (f_equal be_value) in H. unfold hash_bytes in H.
  rewrite !be_value_bytes_small in H by done. done.
Qed.
Lemma row_at_inj n i r n' i' r' :
  row_at n i = Some r → row_at n' i' = Some r' → row_hash r = row_hash r' → n = n' ∧ i = i'.
Proof using Hchain row_at_hash.
  intros H H' Heq. destruct (row_at_hash _ _ _ H) as (t & Ht & Hr). destruct (row_at_hash _ _ _ H') as (t' & Ht' & Hr').
  rewrite Hr, Hr' in Heq. apply hash_bytes_inj in Heq; [|by eapply co_tx_hash..].
  by apply (co_unique _ Hchain _ _ _ _ _ _ Ht Ht').
Qed.
Lemma block_rows_NoDup n : NoDup (row_hash <$> block_rows n).
Proof using Hchain row_at_hash.
  unfold block_rows. assert (NoDup (positions n)) as Hnd by apply NoDup_seqZ. induction Hnd as [|i l Hi Hl IH]; [constructor|].
  cbn. destruct (row_at n i) as [r|] eqn:Hr; [|done]. cbn. constructor; [|done].
  intros (r' & Heq & (j & Hj & Hr')%list_elem_of_omap)%list_elem_of_fmap.
  destruct (row_at_inj _ _ _ _ _ _ Hr Hr' Heq) as [_ ->]. done.
Qed.
Lemma block_rows_unique first last : NoDup (row_hash <$> range_rows block_rows first last).
Proof using Hchain row_at_hash.
  unfold range_rows. assert (NoDup (seqZ first (last - first + 1))) as Hnd by apply NoDup_seqZ.
  induction Hnd as [|n l Hn Hl IH]; [constructor|]. cbn. rewrite fmap_app. apply NoDup_app.
  split_and!; [apply block_rows_NoDup| |done].
  intros x (r & -> & (i & Hi)%elem_of_block_rows)%list_elem_of_fmap (r' & Heq & Hr')%list_elem_of_fmap.
  apply list_elem_of_In, in_concat in Hr' as (rs & Hrs & Hr'). apply list_elem_of_In, list_elem_of_fmap in Hrs as (n' & -> & Hn').
  apply list_elem_of_In, elem_of_block_rows in Hr' as (i' & Hi'). destruct (row_at_inj _ _ _ _ _ _ Hi Hi' Heq) as [-> _]. done.
Qed.
Lemma range_positions_unique (row_position : Row → Z * Z) first last :
  (∀ n i r, row_at n i = Some r → row_position r = (n, i)) →
  NoDup (row_position <$> range_rows block_rows first last).
Proof using Hchain row_at_hash.
  intros Hpos. apply NoDup_fmap_2_strong; [|apply (NoDup_fmap_1 row_hash), block_rows_unique].
  intros r r' (n & i & _ & Hr)%elem_of_range_rows (n' & i' & _ & Hr')%elem_of_range_rows Heq.
  rewrite (Hpos _ _ _ Hr), (Hpos _ _ _ Hr') in Heq. simplify_eq. congruence.
Qed.
(** Rows with the same hashes are the expected ones when each is expected and none is missing. *)
Lemma range_rows_permutation first last rows :
  NoDup (row_hash <$> rows) → (∀ r, r ∈ rows ↔ ∃ n i, first ≤ n ≤ last ∧ row_at n i = Some r) →
  rows ≡ₚ range_rows block_rows first last.
Proof using Hchain row_at_hash.
  intros Hnd Hall. apply NoDup_Permutation.
  - by apply (NoDup_fmap_1 row_hash).
  - apply (NoDup_fmap_1 row_hash), block_rows_unique.
  - intros r. by rewrite Hall, elem_of_range_rows.
Qed.
End Positions.

(** ** Programs both scanners run *)
Section Shared.
Context {T Row : Type} (transaction_params : T → result IdxError Row) (expected : Z → list Row).
Context (chain : Chain) (Hchain : chain_ok chain).
Abbreviation obeying :=
  (obeys (λ s (_ : iop T) _, s) (writes_allowed transaction_params expected chain) (answers chain)).

Lemma u64_small z : 0 ≤ z < 2 ^ 64 → u64 z = z.
Proof. intros. unfold u64. by apply Z.mod_small. Qed.
Lemma big_uint64_small z : 0 ≤ z < 2 ^ 64 → big_uint64 z = z.
Proof. intros. unfold big_uint64. rewrite Z.abs_eq by lia. by apply Z.mod_small. Qed.

Lemma call_obeys (o : iop T) : writes_allowed transaction_params expected chain tt o →
  obeying tt (call o) (λ _ r, answers chain o r).
Proof. intros Ho. cbn. split; [done|]. auto. Qed.

Lemma header_obeys n :
  obeying tt (node_HeaderByNumber n) (λ _ r, ∀ h, r = Ok h → h = header_of (chain_block chain n)).
Proof.
  unfold node_HeaderByNumber. eapply obeys_try; [by apply (call_obeys (OpHeader (Some n)))| |done].
  intros [] [h|] Ha; cbn; [|done]. rewrite (Ha h eq_refl). intros h' Hh. cbn in Hh. by destruct (_ =? _); simplify_eq.
Qed.
Lemma block_obeys n : obeying tt (node_BlockByNumber n) (λ _ r, ∀ b, r = Ok b → b = chain_block chain n).
Proof.
  unfold node_BlockByNumber. eapply obeys_try; [by apply (call_obeys (OpBlock n))| |done].
  intros [] [b|] Ha; cbn; [|done]. rewrite (Ha b eq_refl). intros b' Hb. by destruct (_ =? _); simplify_eq.
Qed.
Lemma finalized_obeys :
  obeying tt node_FinalizedHeader
    (λ _ r, ∀ h, r = Ok h → ∃ n, 0 ≤ n < 2 ^ 64 ∧ h = header_of (chain_block chain n)
       ∧ big_uint64 (default 0 (h_number h)) = n).
Proof using Hchain.
  unfold node_FinalizedHeader. eapply obeys_try; [by apply (call_obeys (OpHeader None))| |done].
  intros [] [h|] Ha; cbn; [|done]. destruct (Ha h eq_refl) as (n & Hn & ->). intros h' Hh. cbn in Hh.
  destruct (is_uint64 _); simplify_eq. exists n. cbn. rewrite (co_number _ Hchain) by done.
  split_and!; [lia..|done|]. by apply big_uint64_small.
Qed.
Lemma search_obeys fuel low high target :
  0 ≤ low ≤ high → high < 2 ^ 64 →
  obeying tt (search_loop fuel low high target) (λ _ r, ∀ n, r = Ok n → low ≤ n ≤ high).
Proof.
  revert low high. induction fuel as [|fuel IH]; intros low high Hl Hh; cbn [search_loop].
  { destruct (low <? high); cbn; [done|]. intros n [= <-]. lia. }
  destruct (Z.ltb_spec low high) as [Hlt|]; [|cbn; intros n [= <-]; lia].
  assert (0 ≤ (high - low) / 2 < high - low) as Hd by (Z.to_euclidean_division_equations; lia).
  cbv zeta. rewrite (u64_small (high - low)) by lia. set (mid := low + (high - low) / 2).
  assert (low ≤ mid < high) by (unfold mid; lia). clearbody mid. rewrite (u64_small mid) by lia.
  eapply obeys_try; [apply header_obeys| |done]. intros [] h _. destruct (h_time h <? target).
  - rewrite (u64_small (mid + 1)) by lia. eapply obeys_mono; [apply IH; lia|]. intros [] r Hr n Hn. specialize (Hr n Hn). lia.
  - eapply obeys_mono; [apply IH; lia|]. intros [] r Hr n Hn. specialize (Hr n Hn). lia.
Qed.
Lemma store_obeys c : init_good chain c → obeying tt (initialize_stored c) (λ _ r, ∀ c', r = Ok c' → stored_checkpoint c').
Proof.
  intros Hg. unfold initialize_stored. destruct (checkpoint_params c) as [row|e] eqn:Hp; [|done]. pose proof (params_good _ _ _ Hg Hp) as Hrow.
  eapply obeys_try with (Q := λ _ r, r = Ok row); [done| |done]. intros [] ? [= ->].
  eapply obeys_try; [by apply (call_obeys (OpInitialize row))| |done].
  intros [] [r|] Hr; [|by apply (call_obeys OpGetCheckpoint)]. cbn in Hr. rewrite (Hr r eq_refl). cbn. intros c' Hc'. by eapply stored_from_good.
Qed.
Lemma initialize_obeys :
  obeying tt initialize_checkpoint (λ _ r, ∀ c, r = Ok c → stored_checkpoint c).
Proof using Hchain.
  unfold initialize_checkpoint. eapply obeys_try; [apply finalized_obeys| |done].
  intros [] h Hh. destruct (Hh h eq_refl) as (n & Hn & -> & ->). destruct (n =? 0); [done|].
  eapply obeys_try; [apply search_obeys; lia| |done]. intros [] m Hm. specialize (Hm m eq_refl).
  set (start := if m =? 0 then 1 else m).
  assert (1 ≤ start < 2 ^ 64) as Hs by (subst start; destruct (Z.eqb_spec m 0); lia). clearbody start.
  rewrite (u64_small (start - 1)) by lia.
  eapply obeys_try; [apply header_obeys| |done]. intros [] p Hp. rewrite (Hp p eq_refl).
  apply store_obeys. unfold init_good. cbn. split_and!; [lia|done|done].
Qed.
Lemma load_obeys : obeying tt load_checkpoint (λ _ r, ∀ c, r = Ok c → stored_checkpoint c).
Proof using Hchain.
  unfold load_checkpoint. refine (obeys_seq _ _ _ _ _ _ _ _ (call_obeys OpGetCheckpoint I) _).
  intros [] r Hr. cbn in r, Hr. destruct r as [c|e]; [exact Hr|].
  destruct e; first [exact initialize_obeys|cbn; done].
Qed.

(** The next window: it starts after the cursor, is not empty, has at most [batch]
    blocks and does not pass the finalized block; no [uint64] operation wraps. *)
Lemma window_bounds batch cursor finalized :
  0 < batch ≤ max_int64 → 0 ≤ cursor < max_int64 → cursor < finalized < 2 ^ 64 →
  u64 (cursor + 1) = cursor + 1
  ∧ window_end batch (cursor + 1) finalized = Z.min (cursor + batch) finalized.
Proof.
  intros Hb Hc Hf. unfold max_int64 in Hb, Hc. rewrite u64_small by lia. split; [done|]. unfold window_end.
  rewrite !(u64_small (finalized - (cursor + 1))) by lia. destruct (Z.eq_dec (finalized - (cursor + 1) + 1) (2 ^ 64)); [lia|].
  rewrite !(u64_small (finalized - (cursor + 1) + 1)) by lia. destruct (Z.ltb_spec batch (finalized - (cursor + 1) + 1)); [|lia].
  rewrite (u64_small (cursor + 1 + batch)), u64_small by lia. lia.
Qed.
End Shared.

(** * Chain indexers: typed tables and pages

    Every row a batch stored satisfies the constraints of its table, and the page
    after a row is the rest of the listing. *)
#[local] Open Scope Z_scope.

(** ** Tables *)
Section Typed.
Context {T Row : Type} (row_hash : Row → string) (row_position : Row → Z * Z) (row_check : Row → bool).
Context (transaction_params : T → result IdxError Row).
Context (row_typed : Row → Prop).
Context (params_typed : ∀ t r, transaction_params t = Ok r → row_check r = true → row_typed r).

Definition checkpoint_typed (r : checkpoint_row) : Prop :=
  0 < ck_start_block_number r ≤ ck_cursor_block_number r + 1 ∧ 0 ≤ ck_cursor_block_number r < max_int64
  ∧ String.length (ck_cursor_block_hash r) = 32%nat ∧ 0 ≤ ck_cursor_block_timestamp r.
Definition index_typed (db : index_db Row) : Prop :=
  (∀ r, ix_checkpoint db = Some r → checkpoint_typed r)
  ∧ Forall row_typed (ix_rows db) ∧ NoDup (row_hash <$> ix_rows db) ∧ NoDup (row_position <$> ix_rows db).

(** Any write: a batch or a first checkpoint, whatever the scanner read. *)
Inductive index_write (db : index_db Row) : index_db Row → Prop :=
| write_commit e txs c :
    index_write db (run_tx (commit_batch row_hash row_position row_check transaction_params e txs c) db).1
| write_initialize row : index_write db (run_tx (sql_initialize_checkpoint row) db).1.

Lemma checkpoint_check_typed r : checkpoint_check r = true → checkpoint_typed r.
Proof. unfold checkpoint_check, checkpoint_typed, bigint_in_range, max_int64. intros H. bool_prop. split_and!; first [lia|by apply Nat.eqb_eq]. Qed.
Lemma NoDup_snoc {A B} (f : A → B) l a : NoDup (f <$> l) → f a ∉ f <$> l → NoDup (f <$> l ++ [a]).
Proof.
  intros Hl Ha. rewrite fmap_app. apply NoDup_app. split_and!; [done| |apply NoDup_singleton].
  intros x Hx ->%list_elem_of_singleton. done.
Qed.
Lemma absent_fmap {A B} `{EqDecision B} (f : A → B) (b : B) l :
  existsb (λ r, bool_decide (f r = b)) l = false → b ∉ f <$> l.
Proof.
  intros H (r & -> & Hr)%list_elem_of_fmap. assert (existsb (λ r', bool_decide (f r' = f r)) l = true); [|congruence].
  apply existsb_elem. exists r. split; [done|]. by apply bool_decide_eq_true.
Qed.
Lemma insert_typed txs db db' u :
  index_typed db → insert_transactions row_hash row_position row_check transaction_params txs db = Ok (db', u) →
  index_typed db'.
Proof using params_typed.
  revert db. induction txs as [|t txs IH]; intros db Hdb H; cbn in H; [by injection H as <- _|].
  apply tx_bind_ok in H as (d1 & row & [-> Hrow]%tx_lift_ok & H). apply tx_bind_ok in H as (d2 & [] & Hi & H).
  apply (IH d2); [|done]. unfold sql_insert_transaction in Hi. destruct (row_check row) eqn:Hc; [|done].
  destruct (existsb _ _) eqn:Hh in Hi; [by simplify_eq|]. destruct (existsb _ _) eqn:Hp in Hi; [done|]. simplify_eq.
  destruct Hdb as (Hck & Hrows & Hhash & Hpos). split_and!; cbn.
  - done.
  - apply Forall_app. split; [done|]. constructor; [by eapply params_typed|constructor].
  - apply NoDup_snoc; [done|]. by apply absent_fmap.
  - apply NoDup_snoc; [done|]. by apply absent_fmap.
Qed.
Lemma with_checkpoint_typed db r : index_typed db → checkpoint_typed r → index_typed (IndexDB (Some r) (ix_rows db)).
Proof. intros (_ & Hdb) Hr. split; [|done]. by intros r' [= <-]. Qed.
Lemma advance_typed n h ts e db db' a :
  index_typed db → sql_advance_checkpoint n h ts e db = Ok (db', a) → index_typed db'.
Proof.
  intros Hdb H. unfold sql_advance_checkpoint in H. destruct (ix_checkpoint db) as [r|]; [|by simplify_eq].
  destruct (_ =? _); [|by simplify_eq]. destruct (checkpoint_check _) eqn:Hc; [|done]. simplify_eq.
  apply with_checkpoint_typed; [done|]. by apply checkpoint_check_typed.
Qed.
Lemma write_typed db db' : index_typed db → index_write db db' → index_typed db'.
Proof using params_typed.
  intros Hdb [e txs c|row]; unfold run_tx.
  - destruct (commit_batch _ _ _ _ e txs c db) as [[d u]|] eqn:H; [|done]. unfold commit_batch in H.
    apply tx_bind_ok in H as (d0 & [] & [-> _]%ensure_ok & H). apply tx_bind_ok in H as (d1 & ? & [-> _]%tx_lift_ok & H).
    apply tx_bind_ok in H as (d2 & ? & [-> _]%tx_lift_ok & H). apply tx_bind_ok in H as (d3 & ? & [-> _]%tx_lift_ok & H).
    apply tx_bind_ok in H as (d4 & [] & Hi%insert_typed & H); [|done].
    apply tx_bind_ok in H as (d5 & ? & Ha%advance_typed & [-> _]%ensure_ok); done.
  - destruct (sql_initialize_checkpoint row db) as [[d u]|] eqn:Hi; [|done]. unfold sql_initialize_checkpoint in Hi.
    destruct (checkpoint_check row) eqn:Hc; [|done]. destruct (ix_checkpoint db); simplify_eq; [done|].
    apply with_checkpoint_typed; [done|]. by apply checkpoint_check_typed.
Qed.
End Typed.

(** ** Pages *)
Lemma sql_many_ext {R} (p q : R → bool) t : (∀ r, p r = q r) → sql_many p t = sql_many q t.
Proof. intros H. apply list_filter_iff. intros r. by rewrite H. Qed.
Lemma filter_pair {R} (p q : R → bool) t : sql_many (λ r, p r && q r) t = sql_many q (sql_many p t).
Proof.
  induction t as [|r t IH]; [done|]. unfold sql_many in *. rewrite !filter_cons.
  destruct (p r) eqn:Hp; cbn [andb]; [|by rewrite !decide_False by (cbn; tauto)].
  rewrite (decide_True (P := Is_true true)), filter_cons by done. by rewrite IH.
Qed.
Section Paging.
Context {Row : Type} (pos : Row → Z * Z).

Definition newest (a b : Row) : bool :=
  ((pos b).1 <? (pos a).1) || ((pos b).1 =? (pos a).1) && ((pos b).2 <=? (pos a).2).
Definition before_position (p : Z * Z) (r : Row) : bool :=
  ((pos r).1 <? p.1) || ((pos r).1 =? p.1) && ((pos r).2 <? p.2).

Lemma newest_total a b : newest a b = true ∨ newest b a = true.
Proof. unfold newest. destruct (pos a) as [n i], (pos b) as [m j]. cbn. lia. Qed.
Lemma newest_trans a b c : newest a b = true → newest b c = true → newest a c = true.
Proof. unfold newest. destruct (pos a) as [n i], (pos b) as [m j], (pos c) as [k l]. cbn. lia. Qed.
Lemma newest_antisym a b : newest a b = true → newest b a = true → pos a = pos b.
Proof.
  unfold newest. destruct (pos a) as [n i] eqn:Ha, (pos b) as [m j] eqn:Hb. cbn. intros H1 H2. f_equal; lia.
Qed.
Lemma before_newest a b : pos a ≠ pos b → newest a b = true → before_position (pos a) b = true.
Proof.
  unfold newest, before_position. destruct (pos a) as [n i], (pos b) as [m j]. cbn. intros Hne H.
  destruct (Z.eq_dec n m) as [->|]; [|lia]. destruct (Z.eq_dec i j) as [->|]; [done|lia].
Qed.
Lemma newest_not_before a b : newest a b = true → before_position (pos b) a = false.
Proof. unfold newest, before_position. destruct (pos a) as [n i], (pos b) as [m j]. cbn. lia. Qed.

Lemma listing_sorted rows : StronglySorted (λ a b, newest a b = true) (sort_by newest rows).
Proof. apply sort_by_sorted; [exact newest_total|exact newest_trans]. Qed.
Lemma listing_unique (l k : list Row) :
  NoDup (pos <$> l) → StronglySorted (λ a b, newest a b = true) l → StronglySorted (λ a b, newest a b = true) k →
  l ≡ₚ k → l = k.
Proof.
  intros Hnd Hl Hk Hp. apply (StronglySorted_unique_strong (λ a b, newest a b = true)); [|done..].
  intros a b Ha Hb Hab Hba. rewrite <- Hp in Hb. apply (NoDup_key_inj pos l); [done..|]. by apply newest_antisym.
Qed.
(** In a listing, what lies before the position of a row is what follows the row. *)
Lemma rest_of_listing L k x :
  NoDup (pos <$> L) → StronglySorted (λ a b, newest a b = true) L → L !! k = Some x →
  sql_many (before_position (pos x)) L = drop (S k) L.
Proof.
  intros HndL Hs Hk. pose proof (take_drop_middle _ _ _ Hk) as Hsplit. rewrite <- Hsplit at 1. rewrite <- Hsplit in Hs, HndL.
  apply StronglySorted_app in Hs as (Hcross & _ & Hs).
  rewrite fmap_app in HndL. apply NoDup_app in HndL as (_ & _ & HndL). cbn in HndL. apply NoDup_cons in HndL as [Hnx _].
  apply StronglySorted_inv in Hs as [_ Hx]. rewrite sql_many_app, (sql_many_none _ (take k L)).
  2:{ intros a Ha. apply newest_not_before. apply Hcross; [done|left]. }
  unfold sql_many. cbn [app]. rewrite filter_cons, decide_False.
  2:{ unfold before_position. rewrite Is_true_true. lia. }
  apply sql_many_all. intros b Hb. apply before_newest; [|by eapply Forall_forall in Hx].
  intros Heq. apply Hnx. rewrite Heq. apply list_elem_of_fmap. eauto.
Qed.
Lemma page_rest p rows k x :
  NoDup (pos <$> rows) → sort_by newest (sql_many p rows) !! k = Some x →
  sort_by newest (sql_many (λ r, p r && before_position (pos x) r) rows)
    = drop (S k) (sort_by newest (sql_many p rows)).
Proof.
  intros Hnd Hk. assert (NoDup (pos <$> sort_by newest (sql_many p rows))) as HndL.
  { rewrite (sort_by_Permutation newest). by apply NoDup_sql_many. }
  rewrite <- (rest_of_listing _ k x HndL (listing_sorted _) Hk). apply listing_unique.
  - rewrite (sort_by_Permutation newest). by apply NoDup_sql_many.
  - apply listing_sorted.
  - rewrite (rest_of_listing _ k x HndL (listing_sorted _) Hk).
    pose proof (listing_sorted (sql_many p rows)) as Hs. rewrite <- (take_drop (S k)) in Hs.
    by apply StronglySorted_app in Hs as (_ & _ & ?).
  - rewrite (sort_by_Permutation newest), filter_pair. unfold sql_many at 1 3.
    by rewrite (sort_by_Permutation newest).
Qed.
End Paging.
