(* ===== verification/IndexerProgress.v ===== *)
(** * Chain indexers: scanning makes progress

    A node that answers every request from the chain, and a store without faults:
    the block search ends with the right block, and each run of a scanner moves the
    cursor. *)

From S2P Require Import Prelude Prog Sql Bytes Indexer IndexerInv.
From stdpp Require Import base tactics option list list_numbers sorting strings gmap.
From Stdlib Require Import ZArith Lia Ascii.
#[local] Open Scope Z_scope.

(** The requests made to the node are counted. *)
Record world (Row : Type) := World { w_requests : nat; w_db : index_db Row }.
Arguments World {Row} _ _.
Arguments w_requests {Row} _.
Arguments w_db {Row} _.
Definition ask {Row} (k : nat) (w : world Row) : world Row := World (k + w_requests w) (w_db w).

Section Healthy.
Context {T Row : Type} (row_hash : Row → string) (row_position : Row → Z * Z) (row_check : Row → bool).
Context (transaction_params : T → result IdxError Row) (chain : Chain) (finalized : Z).

Definition stored {A} (m : tx (index_db Row) IdxError A) (w : world Row) : world Row * result IdxError A :=
  ((World (w_requests w) (run_tx m (w_db w)).1), (run_tx m (w_db w)).2).
Definition healthy (o : iop T) (w : world Row) : world Row * iresp o :=
  match o return world Row * iresp o with
  | OpHeader (Some n) => (ask 1 w, Ok (Some (header_of (chain_block chain n))))
  | OpHeader None => (ask 1 w, Ok (Some (header_of (chain_block chain finalized))))
  | OpBlock n => (ask 1 w, Ok (Some (chain_block chain n)))
  | OpFilterLogs a b => (ask 1 w, Ok (concat (chain_logs chain <$> seqZ a (b - a + 1))))
  | OpReceipt h => (ask 1 w, Ok (Some (chain_receipt chain h)))
  | OpGetCheckpoint => (w, get_checkpoint (w_db w))
  | OpInitialize row => stored (sql_initialize_checkpoint row) w
  | OpCommit e txs c => stored (commit_batch row_hash row_position row_check transaction_params e txs c) w
  end.
Context (Hchain : chain_ok chain) (Hfin : 0 ≤ finalized < 2 ^ 64).
Abbreviation run p w := (drive healthy p w).
Abbreviation time n := (b_time (chain_block chain n)).

Lemma ask_ask (j k : nat) (w : world Row) : ask j (ask k w) = ask (j + k) w.
Proof. unfold ask. cbn. f_equal. lia. Qed.

(** A run against this node and store is a run of the system. *)
Abbreviation system_step := (istep row_hash row_position row_check transaction_params chain).
Lemma healthy_performs o w :
  iperform row_hash row_position row_check transaction_params chain o (w_db w) (w_db (healthy o w).1) (healthy o w).2.
Proof using Hfin.
  destruct o as [[n|]|n|a b|h| |c|e txs c]; cbn -[run_tx]; try (split; [done|]); try (by intros ? [= <-]).
  - intros h [= <-]. by exists finalized.
  - by left.
  - left. by destruct (run_tx _ _).
  - left. by destruct (run_tx _ _).
Qed.
Lemma run_steps scan p w :
  rtc (system_step scan) {| is_db := w_db w; is_scanners := [p] |}
    {| is_db := w_db (run p w).1; is_scanners := [Ret (run p w).2] |}.
Proof using Hfin.
  revert w. induction p as [a|o k IH]; intros w; cbn [drive]; [done|].
  pose proof (healthy_performs o w) as Hp. destruct (healthy o w) as [w' r]. cbn [fst snd] in *.
  eapply rtc_l; [|apply IH]. by apply (istep_perform _ _ _ _ _ scan (w_db w) (w_db w') [Vis o k] 0 o k r).
Qed.
Lemma spawn_run scan db :
  rtc (system_step scan) {| is_db := db; is_scanners := [] |}
    {| is_db := w_db (run scan (World 0 db)).1; is_scanners := [Ret (run scan (World 0 db)).2] |}.
Proof using Hfin. eapply rtc_l; [constructor|]. apply (run_steps scan scan (World 0 db)). Qed.

Lemma run_typed {A} (row_typed : Row → Prop) (p : program iresp A) w :
  (∀ t r, transaction_params t = Ok r → row_check r = true → row_typed r) →
  index_typed row_hash row_position row_typed (w_db w) → index_typed row_hash row_position row_typed (w_db (run p w).1).
Proof.
  intros Hpt. revert w. induction p as [a|o k IH]; intros w Hw; cbn [drive]; [done|].
  destruct (healthy o w) as [w' r] eqn:Ho. apply IH.
  destruct o as [[n|]|n|a b|h| |c|e txs c]; cbn -[run_tx] in Ho; injection Ho as <- _; try done;
    (eapply write_typed; [exact Hpt|exact Hw|constructor]).
Qed.

(** ** The node *)
Lemma header_run n w : 0 ≤ n < 2 ^ 64 →
  run (node_HeaderByNumber n) w = (ask 1 w, Ok (header_of (chain_block chain n))).
Proof using Hchain.
  intros Hn. unfold node_HeaderByNumber. rewrite drive_try. cbn -[Z.eqb big_uint64].
  rewrite (co_number _ Hchain), big_uint64_small, Z.eqb_refl by done. done.
Qed.
Lemma finalized_run w : run node_FinalizedHeader w = (ask 1 w, Ok (header_of (chain_block chain finalized))).
Proof using Hchain Hfin.
  unfold node_FinalizedHeader. rewrite drive_try. cbn -[is_uint64]. rewrite (co_number _ Hchain) by done.
  unfold is_uint64. rewrite (proj2 (Z.leb_le _ _)), (proj2 (Z.ltb_lt _ _)) by lia. done.
Qed.
Lemma block_run n w : 0 ≤ n < 2 ^ 64 → run (node_BlockByNumber n) w = (ask 1 w, Ok (chain_block chain n)).
Proof using Hchain.
  intros Hn. unfold node_BlockByNumber. rewrite drive_try. cbn -[Z.eqb]. by rewrite (co_number _ Hchain), Z.eqb_refl.
Qed.

(** ** The block search *)
Definition is_first_block (low high target n : Z) : Prop :=
  low ≤ n ≤ high ∧ (∀ m, low ≤ m < n → time m < target) ∧ (∀ m, n ≤ m < high → target ≤ time m).

Lemma search_run fuel low high target w :
  0 ≤ low ≤ high → high < 2 ^ 64 → high - low < 2 ^ Z.of_nat fuel →
  (∀ m n, low ≤ m ≤ n → n < high → time m ≤ time n) →
  ∃ k n, (k ≤ fuel)%nat ∧ run (search_loop fuel low high target) w = (ask k w, Ok n) ∧ is_first_block low high target n.
Proof using Hchain.
  clear Hfin. revert low high w. induction fuel as [|fuel IH]; intros low high w Hl Hh Hf Hmono; cbn [search_loop].
  { change (2 ^ Z.of_nat 0) with 1 in Hf. rewrite (proj2 (Z.ltb_ge _ _)) by lia. exists 0%nat, low. cbn.
    split; [done|]. split; [by destruct w|]. split_and!; lia. }
  destruct (Z.ltb_spec low high) as [Hlt|].
  2:{ exists 0%nat, low. cbn. split; [lia|]. split; [by destruct w|]. split_and!; lia. }
  assert (2 * ((high - low) / 2) ≤ high - low ≤ 2 * ((high - low) / 2) + 1) as Hd by (Z.to_euclidean_division_equations; lia).
  rewrite Nat2Z.inj_succ, Z.pow_succ_r in Hf by lia.
  cbv zeta. rewrite (u64_small (high - low)) by lia. set (mid := low + (high - low) / 2).
  assert (low ≤ mid < high ∧ mid - low < 2 ^ Z.of_nat fuel ∧ high - (mid + 1) < 2 ^ Z.of_nat fuel) as (Hm & Hb & Ha)
    by (unfold mid; lia).
  clearbody mid. rewrite (u64_small mid), (u64_small (mid + 1)) by lia. rewrite drive_try, header_run by lia. cbn [h_time header_of].
  destruct (Z.ltb_spec (time mid) target) as [Ht|Ht].
  - destruct (IH (mid + 1) high (ask 1 w)) as (k & n & Hk & -> & Hr & Hbelow & Habove); [lia..|intros; apply Hmono; lia|].
    exists (k + 1)%nat, n. split; [lia|]. rewrite ask_ask. split; [done|]. split_and!; [lia..| |done].
    intros m Hmn. destruct (Z.le_gt_cases m mid); [|apply Hbelow; lia]. pose proof (Hmono m mid). lia.
  - destruct (IH low mid (ask 1 w)) as (k & n & Hk & -> & Hr & Hbelow & Habove); [lia..|intros; apply Hmono; lia|].
    exists (k + 1)%nat, n. split; [lia|]. rewrite ask_ask. split; [done|]. split_and!; [lia..|done|].
    intros m Hmn. destruct (Z.lt_ge_cases m mid); [apply Habove; lia|]. pose proof (Hmono mid m). lia.
Qed.

(** ** The store *)
Lemma insert_succeeds txs rows db :
  mapM transaction_params txs = Ok rows → Forall (λ r, row_check r = true) rows →
  NoDup (row_hash <$> ix_rows db ++ rows) → NoDup (row_position <$> ix_rows db ++ rows) →
  insert_transactions row_hash row_position row_check transaction_params txs db
    = Ok (IndexDB (ix_checkpoint db) (ix_rows db ++ rows), tt).
Proof.
  revert rows db. induction txs as [|t txs IH]; intros rows db Hm Hc Hh Hp; cbn in Hm |- *.
  { injection Hm as <-. rewrite app_nil_r. by destruct db. }
  apply result_bind_ok in Hm as (row & Hrow & (rest & Hrest & Heq)%result_bind_ok). injection Heq as <-.
  apply Forall_cons in Hc as [Hc Hcs]. unfold mbind, tx_bind, tx_lift. rewrite Hrow. cbn. unfold sql_insert_transaction. rewrite Hc.
  assert (∀ {B} `{EqDecision B} (f : Row → B), NoDup (f <$> ix_rows db ++ row :: rest) →
    existsb (λ r, bool_decide (f r = f row)) (ix_rows db) = false) as Hno.
  { intros B ? f Hnd. apply existsb_elem_false. intros r Hr. apply bool_decide_eq_false. intros Heq.
    rewrite fmap_app in Hnd. apply NoDup_app in Hnd as (_ & Hdis & _).
    apply (Hdis (f r)); [apply list_elem_of_fmap; eauto|]. rewrite Heq. left. }
  rewrite !Hno by done. rewrite (IH rest); cbn; rewrite <- ?(assoc_L (++)); done.
Qed.
Lemma commit_succeeds e txs c rows db r :
  ix_checkpoint db = Some r → ck_cursor_block_number r = e → 0 ≤ e < CursorBlockNumber c → CursorBlockNumber c < max_int64 →
  0 < ck_start_block_number r ≤ e + 1 → 0 ≤ CursorBlockTimestamp c ≤ max_int64 →
  mapM transaction_params txs = Ok rows → Forall (λ r, row_check r = true) rows →
  NoDup (row_hash <$> ix_rows db ++ rows) → NoDup (row_position <$> ix_rows db ++ rows) →
  commit_batch row_hash row_position row_check transaction_params e txs c db
    = Ok (IndexDB (Some {| ck_start_block_number := ck_start_block_number r; ck_cursor_block_number := CursorBlockNumber c;
                          ck_cursor_block_hash := hash_bytes (CursorBlockHash c);
                          ck_cursor_block_timestamp := CursorBlockTimestamp c |}) (ix_rows db ++ rows), tt).
Proof.
  clear Hfin. intros Hr <- He Hc Hs Ht Hm Hchk Hh Hp. unfold commit_batch, mbind, tx_bind, tx_lift, ensure, uint64ToInt64.
  rewrite (proj2 (Z.ltb_lt _ _)) by lia. rewrite !(proj2 (Z.ltb_ge max_int64 _)) by lia. cbn -[checkpoint_check].
  rewrite (insert_succeeds _ _ _ Hm Hchk Hh Hp). cbn -[checkpoint_check]. unfold sql_advance_checkpoint. cbn -[checkpoint_check].
  rewrite Hr, Z.eqb_refl.
  match goal with |- context [checkpoint_check ?x] => assert (checkpoint_check x = true) as -> end; [|done].
  unfold checkpoint_check, bigint_in_range. cbn -[Z.ltb Z.leb Nat.eqb]. unfold hash_bytes. rewrite be_bytes_length. cbn -[Z.ltb Z.leb].
  unfold max_int64 in *. rewrite !andb_true_iff. split_and!; first [done|lia].
Qed.

(** ** The checkpoint *)
Lemma hash_bytes_value h : 0 ≤ h < 256 ^ 32 → bytes_to_hash (hash_bytes h) = h.
Proof.
  intros Hh. unfold bytes_to_hash, hash_bytes. rewrite be_value_bytes_small by done. by apply Z.mod_small.
Qed.
Definition checkpoint_of (r : checkpoint_row) : Checkpoint := {|
  StartBlockNumber := ck_start_block_number r; CursorBlockNumber := ck_cursor_block_number r;
  CursorBlockHash := bytes_to_hash (ck_cursor_block_hash r); CursorBlockTimestamp := ck_cursor_block_timestamp r |}.
Lemma checkpoint_from_typed r : checkpoint_typed r → checkpoint_from_row r = Ok (checkpoint_of r).
Proof.
  intros (Hs & Hc & Hh & Ht). unfold checkpoint_from_row, int64ToUint64. rewrite !(proj2 (Z.ltb_ge _ _)) by lia.
  rewrite Hh. done.
Qed.
Definition row_of (c : Checkpoint) : checkpoint_row := {|
  ck_start_block_number := StartBlockNumber c; ck_cursor_block_number := CursorBlockNumber c;
  ck_cursor_block_hash := hash_bytes (CursorBlockHash c); ck_cursor_block_timestamp := CursorBlockTimestamp c |}.
Lemma initialize_succeeds c (w : world Row) :
  ix_checkpoint (w_db w) = None → 1 ≤ StartBlockNumber c → CursorBlockNumber c = StartBlockNumber c - 1 →
  CursorBlockNumber c < max_int64 → 0 ≤ CursorBlockTimestamp c ≤ max_int64 →
  run_tx (sql_initialize_checkpoint (row_of c)) (w_db w) = (IndexDB (Some (row_of c)) (ix_rows (w_db w)), Ok (Some (row_of c)))
  ∧ run (initialize_stored c) w = (World (w_requests w) (IndexDB (Some (row_of c)) (ix_rows (w_db w))), Ok (checkpoint_of (row_of c))).
Proof.
  clear Hfin. intros Hdb Hs Hc Hm Ht. assert (checkpoint_typed (row_of c)) as Hrow.
  { split_and!; cbn; [lia..|apply be_bytes_length|lia]. }
  assert (checkpoint_check (row_of c) = true) as Hchk.
  { destruct Hrow as (Hs' & Hc' & Hh' & Ht'). unfold checkpoint_check, bigint_in_range. rewrite Hh'.
    unfold max_int64 in *. rewrite !andb_true_iff. split_and!; first [done|lia]. }
  assert (run_tx (sql_initialize_checkpoint (row_of c)) (w_db w) = (IndexDB (Some (row_of c)) (ix_rows (w_db w)), Ok (Some (row_of c)))) as Hrun.
  { unfold run_tx, sql_initialize_checkpoint. by rewrite Hchk, Hdb. }
  split; [done|]. unfold initialize_stored. assert (checkpoint_params c = Ok (row_of c)) as ->.
  { unfold checkpoint_params, uint64ToInt64. by rewrite !(proj2 (Z.ltb_ge max_int64 _)) by lia. }
  cbn -[run_tx checkpoint_from_row]. rewrite Hrun. cbn -[checkpoint_from_row]. by rewrite (checkpoint_from_typed _ Hrow).
Qed.

(** Blocks have a time, which does not decrease. *)
Context (Htime : ∀ n, 0 ≤ time n ≤ max_int64) (Hmono : ∀ m n, 0 ≤ m ≤ n → time m ≤ time n).
Context (Hlow : 1 ≤ finalized < max_int64).

(** A fresh checkpoint is before the finalized block. *)
Definition fresh (c : Checkpoint) : Prop :=
  init_good chain c ∧ CursorBlockNumber c < finalized ∧ CursorBlockTimestamp c = time (CursorBlockNumber c).
Lemma initialize_run (w : world Row) :
  ix_checkpoint (w_db w) = None →
  ∃ k c, run initialize_checkpoint w = run (initialize_stored c) (World k (w_db w)) ∧ fresh c.
Proof using Hchain Hfin Hmono Hlow.
  intros Hdb. unfold initialize_checkpoint. rewrite drive_try, finalized_run. cbv zeta. cbn [header_of h_number default id].
  rewrite (co_number _ Hchain), big_uint64_small by done. rewrite (proj2 (Z.eqb_neq finalized 0)) by lia.
  rewrite drive_try. set (target := if _ <? _ then _ else _). clearbody target. unfold find_first_block.
  destruct (search_run 64 0 finalized target (ask 1 w)) as (k & n & _ & -> & Hn & _);
    [lia..|intros; apply Hmono; lia|]. cbv beta iota. set (start := if n =? 0 then 1 else n).
  assert (1 ≤ start ≤ finalized) as Hs by (subst start; destruct (Z.eqb_spec n 0); lia). clearbody start.
  rewrite (u64_small (start - 1)) by lia. rewrite drive_try, header_run by lia. cbn [header_of h_hash h_time].
  eexists _, _. split; [reflexivity|]. split; [|cbn; split; [lia|done]]. split_and!; cbn; [lia|done|done].
Qed.
Lemma load_run (w : world Row) :
  (∀ r, ix_checkpoint (w_db w) = Some r → checkpoint_typed r) →
  ∃ k r d, run load_checkpoint w = (World k d, Ok (checkpoint_of r)) ∧ ix_checkpoint d = Some r
    ∧ ((ix_checkpoint (w_db w) = Some r ∧ d = w_db w)
       ∨ ix_checkpoint (w_db w) = None ∧ ck_cursor_block_number r < finalized
         ∧ row_good chain r ∧ run_tx (sql_initialize_checkpoint r) (w_db w) = (d, Ok (Some r))).
Proof using Hchain Hfin Htime Hmono Hlow.
  intros Hty. unfold load_checkpoint. rewrite drive_bind. cbn [drive healthy call]. unfold get_checkpoint, sql_get_checkpoint.
  destruct (ix_checkpoint (w_db w)) as [r|] eqn:Hck.
  - cbn -[checkpoint_from_row]. rewrite checkpoint_from_typed by auto. exists (w_requests w), r, (w_db w).
    split; [by destruct w|]. split; [done|by left].
  - cbn [of_option mbind result_bind]. destruct (initialize_run w Hck) as (k & c & -> & Hg & Hc & Ht).
    pose proof Hg as (Hs & Hcur & Hh).
    destruct (initialize_succeeds c (World k (w_db w)) Hck) as [Hrun ->]; [lia..|rewrite Ht; apply Htime|].
    exists k, (row_of c), (IndexDB (Some (row_of c)) (ix_rows (w_db w))). split; [done|]. split; [done|]. right.
    split; [done|]. split; [done|]. split; [|exact Hrun]. unfold row_good. cbn. split_and!; [lia..|by rewrite Hh].
Qed.
End Healthy.
