(* ===== verification/SwapIndexer.v ===== *)
(** * The V2 swap indexer

    [internal/bscswap]: the scanner, the store and the query service.  The blocks of a
    window are fetched one after the other here, concurrently there; they are only
    read.  Metrics and log lines have no effect and are left out. *)

From S2P Require Import Prelude Prog Sql Bytes Indexer.
From stdpp Require Import base tactics option list list_numbers sorting strings gmap.
From Stdlib Require Import ZArith Lia Ascii.
#[local] Open Scope Z_scope.

Definition ScanBatchSize : Z := 100.
Definition V2SwapTopic : Z := 0xd78ad95fa46c994b6551d0da85fc275fe613ce37657fb8d5e3d130840159d822.

(** ** The store *)
Record SwapTransaction := {
  st_transaction_hash : Z; st_block_number : Z; st_block_hash : Z; st_block_timestamp : Z;
  st_transaction_index : Z; st_from_address : Z }.
Record BscSwapTransaction := {
  sr_transaction_hash : string; sr_block_number : Z; sr_block_hash : string; sr_block_timestamp : Z;
  sr_transaction_index : Z; sr_from_address : string }.
Abbreviation SwapDB := (index_db BscSwapTransaction).

(** The CHECK constraints of [bsc_swap_transaction]. *)
Definition swap_check (r : BscSwapTransaction) : bool :=
  (String.length (sr_transaction_hash r) =? 32)%nat && (0 <=? sr_block_number r)
  && (String.length (sr_block_hash r) =? 32)%nat && (0 <=? sr_block_timestamp r) && (0 <=? sr_transaction_index r)
  && (String.length (sr_from_address r) =? 20)%nat.
Definition sr_position (r : BscSwapTransaction) : Z * Z := (sr_block_number r, sr_transaction_index r).

Definition transactionParams (t : SwapTransaction) : result IdxError BscSwapTransaction :=
  blockNumber ← uint64ToInt64 "block_number" (st_block_number t);
  blockTimestamp ← uint64ToInt64 "block_timestamp" (st_block_timestamp t);
  transactionIndex ← uint64ToInt64 "transaction_index" (st_transaction_index t);
  Ok {| sr_transaction_hash := hash_bytes (st_transaction_hash t); sr_block_number := blockNumber;
        sr_block_hash := hash_bytes (st_block_hash t); sr_block_timestamp := blockTimestamp;
        sr_transaction_index := transactionIndex; sr_from_address := address_bytes (st_from_address t) |}.
Definition transactionFromValues (r : BscSwapTransaction) : result IdxError SwapTransaction :=
  _ ← require ((String.length (sr_transaction_hash r) =? HashLength)%nat
               && (String.length (sr_block_hash r) =? HashLength)%nat) HashLengthInvalid;
  _ ← require (String.length (sr_from_address r) =? AddressLength)%nat AddressLengthInvalid;
  bn ← int64ToUint64 "block_number" (sr_block_number r);
  bt ← int64ToUint64 "block_timestamp" (sr_block_timestamp r);
  ti ← int64ToUint64 "transaction_index" (sr_transaction_index r);
  Ok {| st_transaction_hash := bytes_to_hash (sr_transaction_hash r); st_block_number := bn;
        st_block_hash := bytes_to_hash (sr_block_hash r); st_block_timestamp := bt;
        st_transaction_index := ti; st_from_address := bytes_to_address (sr_from_address r) |}.

Definition GetScanCheckpoint (db : SwapDB) : result IdxError checkpoint_row := sql_get_checkpoint db.
Definition InitializeScanCheckpoint (row : checkpoint_row) : tx SwapDB IdxError (option checkpoint_row) :=
  sql_initialize_checkpoint row.
Definition AdvanceScanCheckpoint (cursor : Z) (hash : string) (timestamp expected : Z) : tx SwapDB IdxError Z :=
  sql_advance_checkpoint cursor hash timestamp expected.
Definition InsertSwapTransaction (row : BscSwapTransaction) : tx SwapDB IdxError unit :=
  sql_insert_transaction sr_transaction_hash sr_position swap_check row.

Definition checkpointParams : Checkpoint → result IdxError checkpoint_row := checkpoint_params.
Definition checkpointFromRow : checkpoint_row → result IdxError Checkpoint := checkpoint_from_row.
Definition GetCheckpoint (db : SwapDB) : result IdxError Checkpoint := get_checkpoint db.
Definition InitializeCheckpoint (c : Checkpoint) : program (iresp (T := SwapTransaction)) (result IdxError Checkpoint) := initialize_stored c.
Definition CommitBatch (expectedCursor : Z) (transactions : list SwapTransaction) (c : Checkpoint) :
    tx SwapDB IdxError unit :=
  commit_batch sr_transaction_hash sr_position swap_check transactionParams expectedCursor transactions c.

(** Newest first: [ORDER BY block_number DESC, transaction_index DESC]. *)
Definition newest_first (a b : BscSwapTransaction) : bool :=
  (sr_block_number b <? sr_block_number a)
  || (sr_block_number b =? sr_block_number a) && (sr_transaction_index b <=? sr_transaction_index a).
(** [LIMIT]; the limits here are positive. *)
Definition ListSwapTransactionsBeforeBlock (address : string) (before limit : Z) (db : SwapDB) : list BscSwapTransaction :=
  take (Z.to_nat limit) (sort_by newest_first
    (sql_many (λ r, bool_decide (sr_from_address r = address) && (sr_block_number r <? before)) (ix_rows db))).
Definition ListSwapTransactionsBeforePosition (address : string) (before index limit : Z) (db : SwapDB) :
    list BscSwapTransaction :=
  take (Z.to_nat limit) (sort_by newest_first
    (sql_many (λ r, bool_decide (sr_from_address r = address)
                    && ((sr_block_number r <? before)
                        || (sr_block_number r =? before) && (sr_transaction_index r <? index))) (ix_rows db))).

Fixpoint transactions_from_rows (rows : list BscSwapTransaction) : result IdxError (list SwapTransaction) :=
  match rows with
  | [] => Ok []
  | row :: rows' => item ← transactionFromValues row; items ← transactions_from_rows rows'; Ok (item :: items)
  end.
Definition transactionsBeforeBlockFromRows : list BscSwapTransaction → result IdxError (list SwapTransaction) :=
  transactions_from_rows.
Definition transactionsBeforePositionFromRows : list BscSwapTransaction → result IdxError (list SwapTransaction) :=
  transactions_from_rows.
Definition ListSwapTransactions (address beforeBlock : Z) (cursor : option PageCursor) (limit : Z) (db : SwapDB) :
    result IdxError (list SwapTransaction * Checkpoint) :=
  checkpointRow ← GetScanCheckpoint db;
  checkpoint ← checkpointFromRow checkpointRow;
  items ← match cursor with
          | None =>
              blockNumber ← uint64ToInt64 "before_block_number" beforeBlock;
              transactionsBeforeBlockFromRows
                (ListSwapTransactionsBeforeBlock (address_bytes address) blockNumber limit db)
          | Some cursor =>
              blockNumber ← uint64ToInt64 "before_block_number" (pc_block_number cursor);
              transactionIndex ← uint64ToInt64 "before_transaction_index" (pc_transaction_index cursor);
              transactionsBeforePositionFromRows
                (ListSwapTransactionsBeforePosition (address_bytes address) blockNumber transactionIndex limit db)
          end;
  Ok (items, checkpoint).

(** ** The scanner *)
Section Scan.
Context {EL : EthLib}.
Abbreviation iprog A := (program (iresp (T := SwapTransaction)) (result IdxError A)).

Definition FinalizedHeader : iprog Header := node_FinalizedHeader.
Definition HeaderByNumber (number : Z) : iprog Header := node_HeaderByNumber number.
Definition BlockByNumber (number : Z) : iprog Block := node_BlockByNumber number.
Definition FilterSwapLogs (start end_ : Z) : iprog (list Log) := node_FilterSwapLogs start end_.
Definition findFirstBlockAtOrAfter (high targetTimestamp : Z) : iprog Z := find_first_block high targetTimestamp.
Definition initializeCheckpoint : iprog Checkpoint := initialize_checkpoint.

Record swapCandidate := {
  sc_block_number : Z; sc_block_hash : Z; sc_transaction_hash : Z; sc_transaction_index : Z }.
#[export] Instance swapCandidate_eq_dec : EqDecision swapCandidate.
Proof. solve_decision. Defined.

Definition log_candidate (item : Log) : swapCandidate := {|
  sc_block_number := l_block_number item; sc_block_hash := l_block_hash item;
  sc_transaction_hash := l_tx_hash item; sc_transaction_index := l_tx_index item |}.
Fixpoint collect_loop (logs : list Log) (start end_ : Z) (candidatesByHash : gmap Z swapCandidate) (blockSet : gset Z) :
    result IdxError (gmap Z swapCandidate * gset Z) :=
  match logs with
  | [] => Ok (candidatesByHash, blockSet)
  | item :: logs' =>
      _ ← require (negb (l_removed item)) LogRemoved;
      _ ← require (negb ((l_block_number item <? start) || (end_ <? l_block_number item))) LogOutsideRange;
      _ ← require (bool_decide (head (l_topics item) = Some V2SwapTopic)) LogTopic;
      _ ← require (negb ((l_block_hash item =? 0) || (l_tx_hash item =? 0))) LogEmptyHash;
      let candidate := log_candidate item in
      match candidatesByHash !! l_tx_hash item with
      | Some existing =>
          _ ← require (bool_decide (existing = candidate)) LogInconsistent;
          collect_loop logs' start end_ candidatesByHash blockSet
      | None =>
          collect_loop logs' start end_ (<[l_tx_hash item := candidate]> candidatesByHash)
            ({[l_block_number item]} ∪ blockSet)
      end
  end.
Definition candidate_le (a b : swapCandidate) : bool :=
  if sc_block_number a =? sc_block_number b then sc_transaction_index a <=? sc_transaction_index b
  else sc_block_number a <? sc_block_number b.
(** Go visits the maps in some order before it sorts; the model in that of
    [map_to_list] and [elements]. *)
Definition collectCandidates (logs : list Log) (start end_ : Z) : result IdxError (list swapCandidate * list Z) :=
  '(candidatesByHash, blockSet) ← collect_loop logs start end_ ∅ ∅;
  Ok (sort_by candidate_le ((map_to_list candidatesByHash).*2), sort_by Z.leb (elements blockSet)).

Fixpoint fetchBlocks (numbers : list Z) : iprog (gmap Z Block) :=
  match numbers with
  | [] => mret (Ok ∅)
  | number :: numbers' =>
      block ←! BlockByNumber number;
      blocks ←! fetchBlocks numbers';
      mret (Ok (<[number := block]> blocks))
  end.

Definition candidate_transaction (blocks : gmap Z Block) (c : swapCandidate) : result IdxError SwapTransaction :=
  block ← of_option (blocks !! sc_block_number c) CandidateBlockMissing;
  _ ← require (b_hash block =? sc_block_hash c) CandidateBlockHash;
  _ ← require (sc_transaction_index c <? Z.of_nat (length (b_transactions block))) CandidateIndex;
  transaction ← of_option (mjoin (b_transactions block !! Z.to_nat (sc_transaction_index c))) CandidatePosition;
  _ ← require (t_hash transaction =? sc_transaction_hash c) CandidatePosition;
  from ← of_option (sender transaction) SenderUnknown;
  Ok {| st_transaction_hash := t_hash transaction; st_block_number := b_number block; st_block_hash := b_hash block;
        st_block_timestamp := b_time block; st_transaction_index := sc_transaction_index c; st_from_address := from |}.
Fixpoint swapTransactionsFromCandidates (candidates : list swapCandidate) (blocks : gmap Z Block) :
    result IdxError (list SwapTransaction) :=
  match candidates with
  | [] => Ok []
  | c :: candidates' =>
      t ← candidate_transaction blocks c;
      rest ← swapTransactionsFromCandidates candidates' blocks;
      Ok (t :: rest)
  end.

(** One iteration; the result says whether a window was committed. *)
Definition scan_window (checkpoint : Checkpoint) (start end_ : Z) : iprog bool :=
  anchor ←! HeaderByNumber (u64 (start - 1));
  if negb (h_hash anchor =? CursorBlockHash checkpoint) then mret (Err AnchorMismatch) else
  logs ←! FilterSwapLogs start end_;
  found ←! mret (collectCandidates logs start end_);
  blocks ←! fetchBlocks found.2;
  transactions ←! mret (swapTransactionsFromCandidates found.1 blocks);
  endHeader ←! HeaderByNumber end_;
  _ ←! (Prog.call (resp := iresp) (OpCommit (CursorBlockNumber checkpoint) transactions {|
          StartBlockNumber := StartBlockNumber checkpoint; CursorBlockNumber := end_;
          CursorBlockHash := h_hash endHeader; CursorBlockTimestamp := h_time endHeader |}) : iprog unit);
  mret (Ok true).
Definition runOnce : iprog bool :=
  checkpoint ←! load_checkpoint;
  finalized ←! FinalizedHeader;
  let finalizedNumber := big_uint64 (default 0 (h_number finalized)) in
  if finalizedNumber <=? CursorBlockNumber checkpoint then mret (Ok false) else
  let start := u64 (CursorBlockNumber checkpoint + 1) in
  scan_window checkpoint start (window_end ScanBatchSize start finalizedNumber).
End Scan.

(** ** The query service *)
Inductive SvcError := InvalidArgument (what : string) | FailedPrecondition (what : string) | Internal (e : IdxError).
Record ListSwapTransactionsRequest := {
  rq_wallet_address : string; rq_page_size : Z; rq_page_token : string; rq_before_block_number : Z }.
Record ListSwapTransactionsResponse := {
  rs_transaction_hashes : list string; rs_next_page_token : string; rs_indexed_through_block : Z;
  rs_indexed_through_timestamp : Z }.

Section Service.
Context {EL : EthLib}.

Definition encodePageToken : Z → PageCursor → string := encode_page_token.
Definition decodePageToken : string → option (PageCursor * Z) := decode_page_token.
Definition normalizeListRequest (request : option ListSwapTransactionsRequest) :
    result SvcError (Z * Z * Z * option PageCursor) :=
  request ← of_option request (InvalidArgument "request is required");
  address ← of_option (parse_address (rq_wallet_address request)) (InvalidArgument "wallet_address");
  let pageSize := if rq_page_size request =? 0 then defaultPageSize else rq_page_size request in
  _ ← require (negb ((pageSize <? 1) || (maxPageSize <? pageSize))) (InvalidArgument "page_size");
  let pageToken := rq_page_token request in
  let beforeBlock := rq_before_block_number request in
  if bool_decide (pageToken = EmptyString) then
    _ ← require (negb ((beforeBlock =? 0) || (max_int64 <? beforeBlock))) (InvalidArgument "before_block_number");
    Ok (address, beforeBlock, pageSize, None)
  else
    _ ← require (beforeBlock =? 0) (InvalidArgument "page_token and before_block_number");
    '(cursor, tokenAddress) ← of_option (decodePageToken pageToken) (InvalidArgument "page_token");
    _ ← require (tokenAddress =? address) (InvalidArgument "page_token address");
    _ ← require (negb ((max_int64 <? pc_block_number cursor) || (max_int64 <? pc_transaction_index cursor)))
          (InvalidArgument "page_token position");
    Ok (address, 0, pageSize, Some cursor).

Definition service_ListSwapTransactions (request : option ListSwapTransactionsRequest) (db : SwapDB) :
    result SvcError ListSwapTransactionsResponse :=
  '(address, beforeBlock, pageSize, cursor) ← normalizeListRequest request;
  match ListSwapTransactions address beforeBlock cursor (pageSize + 1) db with
  | Err ErrNoRows => Err (FailedPrecondition "index is not initialized")
  | Err e => Err (Internal e)
  | Ok (items, checkpoint) =>
      let hasNext := pageSize <? Z.of_nat (length items) in
      let items := if hasNext then take (Z.to_nat pageSize) items else items in
      let nextPageToken :=
        match last items with
        | Some lastItem =>
            if hasNext then encodePageToken address {| pc_block_number := st_block_number lastItem;
                                                       pc_transaction_index := st_transaction_index lastItem |}
            else EmptyString
        | None => EmptyString
        end in
      Ok {| rs_transaction_hashes := (λ t, hash_hex (st_transaction_hash t)) <$> items;
            rs_next_page_token := nextPageToken; rs_indexed_through_block := CursorBlockNumber checkpoint;
            rs_indexed_through_timestamp := CursorBlockTimestamp checkpoint |}
  end.
End Service.
