(* ===== verification/SwapIndexerInv.v ===== *)
(** * The V2 swap indexer: every batch is the swaps of its window

    Then its pages: following page tokens enumerates the listing. *)

From S2P Require Import Prelude Prog Sql Bytes Indexer IndexerInv SwapIndexer.
From stdpp Require Import base tactics option list list_numbers sorting strings gmap.
From Stdlib Require Import ZArith Lia Ascii.
#[local] Open Scope Z_scope.

(** ** Candidates *)
Lemma collect_loop_spec logs start end_ m s m' s' :
  collect_loop logs start end_ m s = Ok (m', s') →
  m ⊆ m' ∧ s ⊆ s'
  ∧ (∀ l, l ∈ logs → m' !! l_tx_hash l = Some (log_candidate l) ∧ start ≤ l_block_number l ≤ end_)
  ∧ (∀ h c, m' !! h = Some c → m !! h = Some c
       ∨ ∃ l, l ∈ logs ∧ h = l_tx_hash l ∧ c = log_candidate l ∧ l_block_number l ∈ s').
Proof.
  revert m s. induction logs as [|l logs IH]; intros m s H; cbn [collect_loop] in H.
  { injection H as <- <-. split_and!; [done|done|by intros ? ?%not_elem_of_nil|auto]. }
  apply result_bind_ok in H as (_ & _ & H). apply result_bind_ok in H as (_ & Hr%require_ok & H).
  apply result_bind_ok in H as (_ & _ & H). apply result_bind_ok in H as (_ & _ & H). bool_prop.
  cbv zeta in H. destruct (m !! l_tx_hash l) as [c0|] eqn:Hl.
  - apply result_bind_ok in H as (_ & ->%require_ok%bool_decide_eq_true & H).
    apply IH in H as (Hm & Hs & Hlogs & Hback). split_and!; [done|done| |].
    + intros l' [->|Hl']%elem_of_cons; [|by apply Hlogs]. split; [by eapply lookup_weaken|lia].
    + intros h c Hc. destruct (Hback h c Hc) as [?|(l' & ? & ?)]; [by left|right]. exists l'. split; [by right|done].
  - apply IH in H as (Hm & Hs & Hlogs & Hback).
    assert (m' !! l_tx_hash l = Some (log_candidate l)) as Hin by (eapply lookup_weaken; [apply lookup_insert_eq|done]).
    split_and!; [|set_solver| |].
    + etrans; [|exact Hm]. by apply insert_subseteq.
    + intros l' [->|Hl']%elem_of_cons; [split; [done|lia]|by apply Hlogs].
    + intros h c Hc. destruct (Hback h c Hc) as [Hi|(l' & ? & ?)].
      * apply lookup_insert_Some in Hi as [[<- <-]|[_ ?]]; [right|by left]. exists l. split_and!; [by left|done|done|set_solver].
      * right. exists l'. split; [by right|done].
Qed.
Lemma collectCandidates_spec logs start end_ cs numbers :
  collectCandidates logs start end_ = Ok (cs, numbers) →
  NoDup (sc_transaction_hash <$> cs)
  ∧ (∀ c, c ∈ cs ↔ ∃ l, l ∈ logs ∧ c = log_candidate l)
  ∧ (∀ c, c ∈ cs → start ≤ sc_block_number c ≤ end_ ∧ sc_block_number c ∈ numbers).
Proof.
  unfold collectCandidates. intros H. apply result_bind_ok in H as ([m s] & Hl & [= <- <-]).
  apply collect_loop_spec in Hl as (_ & _ & Hlogs & Hback).
  assert (∀ h c, m !! h = Some c → ∃ l, l ∈ logs ∧ h = l_tx_hash l ∧ c = log_candidate l ∧ l_block_number l ∈ s) as Hb.
  { intros h c Hc. destruct (Hback h c Hc) as [?|?]; [by simplify_map_eq|done]. }
  assert (∀ c, c ∈ (map_to_list m).*2 ↔ ∃ l, l ∈ logs ∧ c = log_candidate l) as Hmem.
  { intros c. rewrite list_elem_of_fmap. split.
    - intros ([h c'] & -> & Hc%elem_of_map_to_list). destruct (Hb _ _ Hc) as (l & ? & _ & ? & _). eauto.
    - intros (l & Hl & ->). exists (l_tx_hash l, log_candidate l). split; [done|]. apply elem_of_map_to_list. by apply Hlogs. }
  split_and!.
  - rewrite (sort_by_Permutation candidate_le).
    assert (sc_transaction_hash <$> (map_to_list m).*2 = (map_to_list m).*1) as ->; [|apply NoDup_fst_map_to_list].
    rewrite <- list_fmap_compose. apply list_fmap_ext. intros i [h c] Hi. cbn.
    apply list_elem_of_lookup_2, elem_of_map_to_list in Hi. by destruct (Hb _ _ Hi) as (l & _ & -> & -> & _).
  - intros c. by rewrite sort_by_elem.
  - intros c (l & Hl & ->)%sort_by_elem%Hmem. destruct (Hlogs l Hl) as [Hm Hr].
    split; [done|]. apply sort_by_elem, elem_of_elements. destruct (Hb _ _ Hm) as (l' & _ & _ & Heq & ?).
    by apply (f_equal sc_block_number) in Heq; cbn in *; rewrite Heq.
Qed.

(** ** The swaps of the chain *)
Section Swaps.
Context {EL : EthLib} (chain : Chain) (Hchain : chain_ok chain).

(** A transaction belongs to the index when its block has a swap log of it and its
    sender is recovered. *)
Definition swap_row_at (n i : Z) : option BscSwapTransaction :=
  if 0 <=? i then
    t ← mjoin (b_transactions (chain_block chain n) !! Z.to_nat i);
    if existsb (λ l, l_tx_hash l =? t_hash t) (chain_logs chain n) then
      from ← sender t;
      Some {| sr_transaction_hash := hash_bytes (t_hash t); sr_block_number := n;
              sr_block_hash := hash_bytes (b_hash (chain_block chain n));
              sr_block_timestamp := b_time (chain_block chain n); sr_transaction_index := i;
              sr_from_address := address_bytes from |}
    else None
  else None.
Definition swap_rows : Z → list BscSwapTransaction := block_rows chain swap_row_at.

Lemma swap_row_at_spec n i r :
  swap_row_at n i = Some r ↔ ∃ t from, transaction_at chain n i t ∧ sender t = Some from
    ∧ (∃ l, l ∈ chain_logs chain n ∧ l_tx_hash l = t_hash t)
    ∧ r = {| sr_transaction_hash := hash_bytes (t_hash t); sr_block_number := n;
             sr_block_hash := hash_bytes (b_hash (chain_block chain n));
             sr_block_timestamp := b_time (chain_block chain n); sr_transaction_index := i;
             sr_from_address := address_bytes from |}.
Proof.
  unfold swap_row_at, transaction_at. split.
  - destruct (Z.leb_spec 0 i); [|done]. intros (t & Ht & H0)%bind_Some.
    destruct (existsb _ _) eqn:He; [|done]. apply bind_Some in H0 as (from & Hfrom & [= <-]).
    apply existsb_elem in He as (l & Hl & He%Z.eqb_eq).
    destruct (b_transactions _ !! Z.to_nat i) as [[t'|]|] eqn:Hi; cbn in Ht; simplify_eq. exists t, from. eauto 10.
  - intros (t & from & [Hi Ht] & Hfrom & (l & Hl & Hh) & ->). rewrite (proj2 (Z.leb_le _ _)) by lia. rewrite Ht. cbn.
    assert (existsb (λ l, l_tx_hash l =? t_hash t) (chain_logs chain n) = true) as ->.
    { apply existsb_elem. exists l. split; [done|]. by apply Z.eqb_eq. }
    by rewrite Hfrom.
Qed.
Lemma swap_row_at_hash n i r :
  swap_row_at n i = Some r → ∃ t, transaction_at chain n i t ∧ sr_transaction_hash r = hash_bytes (t_hash t).
Proof. intros (t & from & Ht & _ & _ & ->)%swap_row_at_spec. by exists t. Qed.

(** The row of a candidate is the row of its position. *)
Definition candidate_row (blocks : gmap Z Block) (c : swapCandidate) : result IdxError BscSwapTransaction :=
  t ← candidate_transaction blocks c; transactionParams t.
Definition blocks_ok (blocks : gmap Z Block) : Prop := ∀ n b, blocks !! n = Some b → b = chain_block chain n.

Lemma params_identity t r :
  transactionParams t = Ok r →
  r = {| sr_transaction_hash := hash_bytes (st_transaction_hash t); sr_block_number := st_block_number t;
         sr_block_hash := hash_bytes (st_block_hash t); sr_block_timestamp := st_block_timestamp t;
         sr_transaction_index := st_transaction_index t; sr_from_address := address_bytes (st_from_address t) |}.
Proof. unfold transactionParams, uint64ToInt64. intros H. tx_inv. repeat (case_match; simplify_eq). done. Qed.

Lemma candidate_row_at blocks n l r :
  blocks_ok blocks → 0 ≤ n < 2 ^ 64 → l ∈ chain_logs chain n →
  candidate_row blocks (log_candidate l) = Ok r → swap_row_at n (l_tx_index l) = Some r.
Proof using Hchain.
  intros Hb Hn Hl H. apply result_bind_ok in H as (t & Ht & Hp). apply params_identity in Hp as ->.
  destruct (co_log _ Hchain n l Hn Hl) as (Hnum & Hhash & tx & Htx & Htxh).
  unfold candidate_transaction in Ht. cbn in Ht. apply result_bind_ok in Ht as (b & Hbl%of_option_ok & Ht).
  apply Hb in Hbl as ->. rewrite Hnum in Ht. tx_inv. destruct Htx as [Hi Htx].
  match goal with Hj : mjoin _ = Some _ |- _ => rewrite Htx in Hj; cbn in Hj; simplify_eq end.
  apply swap_row_at_spec. eexists _, _. split; [by split|]. split; [done|]. split; [by exists l|].
  cbn. by rewrite (co_number _ Hchain).
Qed.

Lemma candidates_mapM blocks cs ts rows :
  swapTransactionsFromCandidates cs blocks = Ok ts → mapM transactionParams ts = Ok rows →
  Forall2 (λ c r, candidate_row blocks c = Ok r) cs rows.
Proof.
  revert ts rows. induction cs as [|c cs IH]; intros ts rows H Hm; cbn in H.
  { injection H as <-. injection Hm as <-. constructor. }
  apply result_bind_ok in H as (t & Ht & (ts' & Hts & [= <-])%result_bind_ok).
  cbn in Hm. apply result_bind_ok in Hm as (r & Hr & (rs & Hrs & [= <-])%result_bind_ok).
  constructor; [|eauto]. unfold candidate_row. rewrite Ht. exact Hr.
Qed.

(** The rows of a window. *)
Lemma window_rows start end_ cs numbers blocks ts rows :
  0 ≤ start → end_ < 2 ^ 64 → blocks_ok blocks →
  collectCandidates (concat (chain_logs chain <$> seqZ start (end_ - start + 1))) start end_ = Ok (cs, numbers) →
  swapTransactionsFromCandidates cs blocks = Ok ts → mapM transactionParams ts = Ok rows →
  rows ≡ₚ range_rows swap_rows start end_.
Proof using Hchain.
  intros Hs He Hb Hc Hts Hm. apply collectCandidates_spec in Hc as (Hnd & Hmem & _).
  pose proof (candidates_mapM _ _ _ _ Hts Hm) as HF.
  assert (∀ c, c ∈ cs → ∃ n l, start ≤ n ≤ end_ ∧ l ∈ chain_logs chain n ∧ c = log_candidate l) as Hlog.
  { intros c Hcc. apply Hmem in Hcc as (l & Hl & ->). apply list_elem_of_In, in_concat in Hl as (ls & Hls & Hl).
    apply list_elem_of_In, list_elem_of_fmap in Hls as (n & -> & Hn%elem_of_seqZ). exists n, l.
    split; [lia|]. by rewrite list_elem_of_In. }
  apply (range_rows_permutation sr_transaction_hash chain Hchain swap_row_at swap_row_at_hash).
  - assert (sr_transaction_hash <$> rows = (λ c, hash_bytes (sc_transaction_hash c)) <$> cs) as ->.
    { clear -HF. induction HF as [|c r cs rows Hcr _ IH]; [done|]. cbn. f_equal; [|done].
      apply result_bind_ok in Hcr as (t & Ht & ->%params_identity). unfold candidate_transaction in Ht. tx_inv. bool_prop.
      cbn. congruence. }
    rewrite (list_fmap_compose sc_transaction_hash hash_bytes). apply NoDup_fmap_2_strong; [|done].
    assert (∀ h, h ∈ sc_transaction_hash <$> cs → 0 ≤ h < 256 ^ 32) as Hbound.
    { intros h (c & -> & Hcc)%list_elem_of_fmap. destruct (Hlog c Hcc) as (n & l & Hn & Hl & ->). cbn.
      destruct (co_log _ Hchain n l) as (_ & _ & t & Ht & <-); [lia|done|]. by eapply co_tx_hash. }
    intros h h' Hh Hh'. apply hash_bytes_inj; auto.
  - intros r. split.
    + intros [i Hi]%list_elem_of_lookup. destruct (Forall2_lookup_r _ _ _ _ _ HF Hi) as (c & Hci & Hcr).
      destruct (Hlog c (list_elem_of_lookup_2 _ _ _ Hci)) as (n & l & Hn & Hl & ->).
      exists n, (l_tx_index l). split; [done|]. eapply candidate_row_at; eauto. lia.
    + intros (n & i & Hn & Hri). pose proof Hri as (t & from & Ht & _ & (l & Hl & Hh) & _)%swap_row_at_spec.
      destruct (co_log _ Hchain n l) as (_ & _ & t' & Ht' & Hth); [lia|done|].
      destruct (co_unique _ Hchain _ _ _ _ _ _ Ht Ht') as [_ ->]; [congruence|].
      assert (log_candidate l ∈ cs) as [j Hj]%list_elem_of_lookup.
      { apply Hmem. exists l. split; [|done]. apply list_elem_of_In, in_concat. exists (chain_logs chain n).
        rewrite <- !list_elem_of_In. split; [|done]. apply list_elem_of_fmap. exists n. rewrite elem_of_seqZ. split; [done|lia]. }
      destruct (Forall2_lookup_l _ _ _ _ _ HF Hj) as (r' & Hr' & Hcr).
      assert (swap_row_at n (l_tx_index l) = Some r') as Heq by (eapply candidate_row_at; eauto; lia).
      rewrite Hri in Heq. simplify_eq. by eapply list_elem_of_lookup_2.
Qed.

(** ** The scanner commits nothing else *)
Abbreviation obeying :=
  (obeys (λ s (_ : iop SwapTransaction) _, s) (writes_allowed transactionParams swap_rows chain) (answers chain)).

Lemma fetch_obeys numbers :
  obeying tt (fetchBlocks numbers) (λ _ r, ∀ blocks, r = Ok blocks → blocks_ok blocks).
Proof.
  induction numbers as [|n numbers IH]; cbn [fetchBlocks]; [cbn; intros blocks [= <-] ? ? ?; by simplify_map_eq|].
  eapply obeys_try; [apply block_obeys| |done]. intros [] b Hb. rewrite (Hb b eq_refl).
  eapply obeys_try; [apply IH| |done]. intros [] blocks Hbs. cbn. intros blocks' [= <-] m b'.
  rewrite lookup_insert_Some. intros [[<- <-]|[_ Hm]]; [done|]. by apply (Hbs blocks eq_refl).
Qed.
Lemma scan_window_obeys c end_ :
  stored_checkpoint c → CursorBlockNumber c < end_ < 2 ^ 64 →
  obeying tt (scan_window c (CursorBlockNumber c + 1) end_) (λ _ _, True).
Proof using Hchain.
  intros Hst He. unfold stored_checkpoint, max_int64 in Hst. unfold scan_window.
  eapply obeys_try; [apply header_obeys| |done]. intros [] anchor _. destruct (negb _); [done|].
  eapply obeys_try with (Q := λ _ r, ∀ ls, r = Ok ls → ls = concat (chain_logs chain <$> seqZ (CursorBlockNumber c + 1) (end_ - (CursorBlockNumber c + 1) + 1)));
    [|intros [] logs Hlogs|done].
  { unfold FilterSwapLogs, node_FilterSwapLogs. destruct (end_ <? CursorBlockNumber c + 1); [done|].
    apply (call_obeys transactionParams swap_rows chain (OpFilterLogs _ _)). done. }
  rewrite (Hlogs logs eq_refl). eapply obeys_try with (Q := λ _ r, r = collectCandidates _ _ _); [done| |done].
  intros [] [cs numbers] Hcs. cbn [fst snd]. eapply obeys_try; [apply fetch_obeys| |done].
  intros [] blocks Hblocks. eapply obeys_try with (Q := λ _ r, r = swapTransactionsFromCandidates cs blocks); [done| |done].
  intros [] ts Hts. eapply obeys_try; [apply header_obeys| |done]. intros [] h Hh. rewrite (Hh h eq_refl).
  eapply obeys_try with (Q := λ _ _, True); [|done|done].
  split; [|done]. cbn. unfold batch_good. cbn. split_and!; [lia|done|]. intros rows Hm.
  eapply window_rows; eauto; [lia|lia].
Qed.
Lemma runOnce_obeys : obeying tt runOnce (λ _ _, True).
Proof using Hchain.
  unfold runOnce. eapply obeys_try; [apply (load_obeys transactionParams swap_rows chain Hchain)| |done].
  intros [] c Hc. specialize (Hc c eq_refl). eapply obeys_try; [apply (finalized_obeys transactionParams swap_rows chain Hchain)| |done].
  intros [] h Hh. destruct (Hh h eq_refl) as (n & Hn & -> & ->). destruct (Z.leb_spec n (CursorBlockNumber c)); [done|].
  cbv zeta. pose proof Hc as [Hs Hr]. destruct (window_bounds ScanBatchSize (CursorBlockNumber c) n) as [-> ->];
    [unfold ScanBatchSize, max_int64; lia|lia|lia|].
  apply scan_window_obeys; [done|]. unfold ScanBatchSize. lia.
Qed.
End Swaps.

(** * The V2 swap indexer: following page tokens enumerates the listing *)
#[local] Open Scope Z_scope.

(** ** Rows of the table *)
Definition swap_row_typed (r : BscSwapTransaction) : Prop :=
  String.length (sr_transaction_hash r) = 32%nat ∧ String.length (sr_block_hash r) = 32%nat
  ∧ String.length (sr_from_address r) = 20%nat ∧ 0 ≤ sr_block_number r ≤ max_int64
  ∧ 0 ≤ sr_transaction_index r ≤ max_int64 ∧ 0 ≤ sr_block_timestamp r ≤ max_int64.
Abbreviation swap_typed := (index_typed sr_transaction_hash sr_position swap_row_typed).

Lemma swap_params_typed t r : transactionParams t = Ok r → swap_check r = true → swap_row_typed r.
Proof.
  unfold transactionParams, uint64ToInt64, swap_check, swap_row_typed. intros H Hc. tx_inv.
  repeat (case_match; simplify_eq). cbn in *. bool_prop. split_and!; first [apply be_bytes_length|lia].
Qed.
Definition item_of (r : BscSwapTransaction) : SwapTransaction := {|
  st_transaction_hash := bytes_to_hash (sr_transaction_hash r); st_block_number := sr_block_number r;
  st_block_hash := bytes_to_hash (sr_block_hash r); st_block_timestamp := sr_block_timestamp r;
  st_transaction_index := sr_transaction_index r; st_from_address := bytes_to_address (sr_from_address r) |}.
Lemma from_rows_ok rows : Forall swap_row_typed rows → transactions_from_rows rows = Ok (item_of <$> rows).
Proof.
  induction 1 as [|r rows Hr _ IH]; [done|]. cbn [transactions_from_rows].
  assert (transactionFromValues r = Ok (item_of r)) as ->; [|cbn; by rewrite IH].
  destruct Hr as (H1 & H2 & H3 & H4 & H5 & H6). unfold transactionFromValues, int64ToUint64.
  rewrite H1, H2, H3. cbn. by rewrite !(proj2 (Z.ltb_ge _ _)) by lia.
Qed.

Section Pages.
Context {EL : EthLib} (wallet : string) (address size : Z) (db : SwapDB) (cp : checkpoint_row).
Context (Hparse : parse_address wallet = Some address) (Haddr : 0 ≤ address < 256 ^ 20) (Hsize : 1 ≤ size ≤ maxPageSize).
Context (Htyped : swap_typed db) (Hcp : ix_checkpoint db = Some cp).

Definition request (token : string) (before : Z) : ListSwapTransactionsRequest := {|
  rq_wallet_address := wallet; rq_page_size := size; rq_page_token := token; rq_before_block_number := before |}.
(** A client that follows [next_page_token] until it is empty. *)
Fixpoint walk (fuel : nat) (token : string) (before : Z) : option (list string) :=
  match fuel with
  | O => None
  | S fuel' =>
      match service_ListSwapTransactions (Some (request token before)) db with
      | Err _ => None
      | Ok response =>
          if bool_decide (rs_next_page_token response = EmptyString) then Some (rs_transaction_hashes response)
          else rest ← walk fuel' (rs_next_page_token response) 0; Some (rs_transaction_hashes response ++ rest)
      end
  end.
Definition hash_text (r : BscSwapTransaction) : string := hash_hex (bytes_to_hash (sr_transaction_hash r)).
(** Everything of the wallet below a block, newest first. *)
Definition listing (before : Z) : list BscSwapTransaction :=
  sort_by newest_first (sql_many (λ r, bool_decide (sr_from_address r = address_bytes address)
                                       && (sr_block_number r <? before)) (ix_rows db)).
Definition token_of (r : BscSwapTransaction) : string :=
  encodePageToken address {| pc_block_number := sr_block_number r; pc_transaction_index := sr_transaction_index r |}.

Lemma token_decodes r : swap_row_typed r →
  decodePageToken (token_of r)
    = Some ({| pc_block_number := sr_block_number r; pc_transaction_index := sr_transaction_index r |}, address).
Proof using Haddr. intros (_ & _ & _ & Hb & Hi & _). unfold max_int64 in *. apply page_token_decodes; cbn; lia. Qed.
Lemma token_nonempty r : swap_row_typed r → token_of r ≠ EmptyString.
Proof using Haddr. intros Hr%token_decodes Heq. rewrite Heq in Hr. done. Qed.

Lemma checkpoint_read : ∃ c, checkpointFromRow cp = Ok c.
Proof using Htyped Hcp.
  destruct Htyped as [Hc _]. destruct (Hc cp Hcp) as (Hs & Hb & Hh & Ht). unfold checkpointFromRow, checkpoint_from_row, int64ToUint64.
  rewrite !(proj2 (Z.ltb_ge _ _)) by lia. rewrite Hh. cbn. eauto.
Qed.

(** A page over the rows [M] that remain. *)
Definition is_page (M : list BscSwapTransaction) (r : ListSwapTransactionsResponse) : Prop :=
  rs_transaction_hashes r = hash_text <$> take (Z.to_nat size) M
  ∧ rs_next_page_token r = (if size <? Z.of_nat (length M)
                            then default EmptyString (token_of <$> M !! Z.to_nat (size - 1)) else EmptyString).
Lemma service_page req before cursor M :
  normalizeListRequest (Some req) = Ok (address, before, size, cursor) →
  (∀ c, checkpointFromRow cp = Ok c → ListSwapTransactions address before cursor (size + 1) db
     = Ok (item_of <$> take (Z.to_nat (size + 1)) M, c)) →
  ∃ r, service_ListSwapTransactions (Some req) db = Ok r ∧ is_page M r.
Proof using Htyped Hcp Hsize.
  intros Hn Hl. destruct checkpoint_read as [c Hc]. unfold service_ListSwapTransactions. rewrite Hn. cbn -[Z.leb Z.ltb].
  rewrite (Hl c Hc). eexists. split; [done|]. unfold is_page. cbn -[Z.ltb]. rewrite length_fmap, length_take.
  destruct (Z.ltb_spec size (Z.of_nat (length M))) as [Hlt|Hge].
  - rewrite (proj2 (Z.ltb_lt _ _)) by lia. rewrite <- fmap_take, take_take. replace (_ `min` _)%nat with (Z.to_nat size) by lia.
    split; [by rewrite <- list_fmap_compose|]. rewrite fmap_last, last_lookup, length_take.
    replace (Init.Nat.pred _) with (Z.to_nat (size - 1)) by lia. rewrite lookup_take_lt by lia.
    by destruct (M !! Z.to_nat (size - 1)).
  - rewrite (proj2 (Z.ltb_ge _ _)) by lia. rewrite !take_ge by lia.
    split; [by rewrite <- list_fmap_compose|]. by destruct (last _).
Qed.

Lemma first_page before :
  0 < before ≤ max_int64 →
  ∃ r, service_ListSwapTransactions (Some (request EmptyString before)) db = Ok r ∧ is_page (listing before) r.
Proof using Htyped Hcp Hsize Hparse.
  intros Hb. apply (service_page _ before None).
  - unfold normalizeListRequest. cbn -[Z.ltb Z.eqb]. rewrite Hparse. cbn -[Z.ltb Z.eqb]. rewrite (proj2 (Z.eqb_neq size 0)) by lia.
    rewrite !(proj2 (Z.ltb_ge _ _)), (proj2 (Z.eqb_neq before 0)) by (unfold maxPageSize, max_int64 in *; lia). done.
  - intros c Hc. unfold ListSwapTransactions, GetScanCheckpoint, sql_get_checkpoint. rewrite Hcp. cbn -[Z.ltb checkpointFromRow].
    rewrite Hc. cbn -[Z.ltb]. unfold uint64ToInt64. rewrite (proj2 (Z.ltb_ge _ _)) by lia. cbn.
    unfold transactionsBeforeBlockFromRows. rewrite from_rows_ok; [done|].
    destruct Htyped as (_ & Hrows & _). apply Forall_take, Forall_forall.
    intros r [_ Hr]%sort_by_elem%elem_of_sql_many. by eapply Forall_forall in Hrows.
Qed.
Lemma position_listing before k x :
  listing before !! k = Some x →
  sort_by newest_first (sql_many (λ r, bool_decide (sr_from_address r = address_bytes address)
    && ((sr_block_number r <? sr_block_number x)
        || (sr_block_number r =? sr_block_number x) && (sr_transaction_index r <? sr_transaction_index x))) (ix_rows db))
  = drop (S k) (listing before).
Proof using Htyped.
  intros Hk. destruct Htyped as (_ & _ & _ & Hpos).
  assert (sr_block_number x < before) as Hx.
  { apply list_elem_of_lookup_2, sort_by_elem, elem_of_sql_many in Hk as [H _]. by bool_prop. }
  etrans; [|apply (page_rest sr_position _ _ k x Hpos Hk)]. f_equal. apply sql_many_ext. intros r.
  unfold before_position, sr_position. cbn. destruct (bool_decide _); [|done]. cbn. lia.
Qed.
Lemma next_page before k x :
  listing before !! k = Some x →
  ∃ r, service_ListSwapTransactions (Some (request (token_of x) 0)) db = Ok r ∧ is_page (drop (S k) (listing before)) r.
Proof using Htyped Hcp Hsize Hparse Haddr.
  intros Hk. destruct Htyped as (_ & Hrows & _ & Hpos).
  assert (swap_row_typed x) as Hx.
  { apply list_elem_of_lookup_2, sort_by_elem, elem_of_sql_many in Hk as [_ Hr]. by eapply Forall_forall in Hrows. }
  pose proof Hx as (_ & _ & _ & Hb & Hi & _).
  apply (service_page _ 0 (Some {| pc_block_number := sr_block_number x; pc_transaction_index := sr_transaction_index x |})).
  - unfold normalizeListRequest. cbn -[Z.ltb Z.eqb token_of decodePageToken]. rewrite Hparse. cbn -[Z.ltb Z.eqb token_of decodePageToken].
    rewrite (proj2 (Z.eqb_neq size 0)) by lia. rewrite !(proj2 (Z.ltb_ge size 1)), (proj2 (Z.ltb_ge maxPageSize size)) by lia.
    cbn -[Z.ltb Z.eqb token_of decodePageToken].
    rewrite bool_decide_eq_false_2 by (by apply token_nonempty). rewrite token_decodes by done. cbn -[Z.ltb Z.eqb].
    rewrite Z.eqb_refl. cbn -[Z.ltb]. rewrite !(proj2 (Z.ltb_ge max_int64 _)) by lia. done.
  - intros c Hc. unfold ListSwapTransactions, GetScanCheckpoint, sql_get_checkpoint. rewrite Hcp. cbn -[Z.ltb checkpointFromRow].
    rewrite Hc. cbn -[Z.ltb ListSwapTransactionsBeforePosition]. unfold uint64ToInt64.
    rewrite !(proj2 (Z.ltb_ge max_int64 _)) by lia. cbn -[ListSwapTransactionsBeforePosition].
    unfold transactionsBeforePositionFromRows. rewrite from_rows_ok.
    2:{ apply Forall_take, Forall_forall. intros r [_ Hr]%sort_by_elem%elem_of_sql_many. by eapply Forall_forall in Hrows. }
    unfold ListSwapTransactionsBeforePosition. cbn [pc_block_number pc_transaction_index].
    rewrite (position_listing before k x Hk). done.
Qed.

(** The pages make up the listing. *)
Lemma page_split M (r : ListSwapTransactionsResponse) (rest : list string) :
  is_page M r → rest = hash_text <$> drop (Z.to_nat size) M →
  rs_transaction_hashes r ++ rest = hash_text <$> M.
Proof. intros [-> _] ->. by rewrite <- fmap_app, take_drop. Qed.
Lemma walk_step fuel token before M r :
  service_ListSwapTransactions (Some (request token before)) db = Ok r → is_page M r → Forall swap_row_typed M →
  (∀ x, M !! Z.to_nat (size - 1) = Some x → (Z.to_nat size < length M)%nat →
     walk fuel (token_of x) 0 = Some (hash_text <$> drop (Z.to_nat size) M)) →
  walk (S fuel) token before = Some (hash_text <$> M).
Proof using Hsize Haddr.
  intros Hs Hp HM Hrest. cbn [walk]. rewrite Hs. pose proof Hp as [Hh Ht]. rewrite !Ht.
  destruct (Z.ltb_spec size (Z.of_nat (length M))) as [Hlt|Hge].
  - destruct (lookup_lt_is_Some_2 M (Z.to_nat (size - 1))) as [x Hx]; [lia|]. rewrite Hx.
    change (default EmptyString (token_of <$> Some x)) with (token_of x).
    rewrite bool_decide_eq_false_2 by (apply token_nonempty; by eapply Forall_lookup_1).
    rewrite (Hrest x Hx) by lia. cbn. f_equal. by apply page_split.
  - rewrite bool_decide_eq_true_2 by done. rewrite Hh, take_ge by lia. done.
Qed.
Lemma listing_typed before : Forall swap_row_typed (listing before).
Proof using Htyped.
  destruct Htyped as (_ & Hrows & _). apply Forall_forall.
  intros r [_ Hr]%sort_by_elem%elem_of_sql_many. by eapply Forall_forall in Hrows.
Qed.
Lemma walk_rest fuel before k x :
  listing before !! k = Some x → (length (listing before) - k ≤ fuel)%nat →
  walk fuel (token_of x) 0 = Some (hash_text <$> drop (S k) (listing before)).
Proof using Htyped Hcp Hsize Hparse Haddr.
  revert k x. induction fuel as [|fuel IH]; intros k x Hk Hf; [apply lookup_lt_Some in Hk; lia|].
  destruct (next_page before k x Hk) as (r & Hs & Hp).
  apply (walk_step fuel _ _ (drop (S k) (listing before)) r Hs Hp); [apply Forall_drop, listing_typed|].
  intros y Hy Hlen. rewrite length_drop in Hlen. rewrite lookup_drop in Hy.
  rewrite (IH (S k + Z.to_nat (size - 1))%nat y Hy) by lia. rewrite drop_drop. do 3 f_equal. lia.
Qed.
Lemma walk_listing before :
  0 < before ≤ max_int64 →
  walk (S (length (ix_rows db))) EmptyString before = Some (hash_text <$> listing before).
Proof using Htyped Hcp Hsize Hparse Haddr.
  intros Hb. destruct (first_page before Hb) as (r & Hs & Hp).
  apply (walk_step _ _ _ (listing before) r Hs Hp (listing_typed before)). intros x Hx _.
  rewrite (walk_rest _ before (Z.to_nat (size - 1)) x Hx); [do 3 f_equal; lia|].
  unfold listing. rewrite sort_by_length. unfold sql_many.
  pose proof (length_filter (λ r, Is_true (bool_decide (sr_from_address r = address_bytes address)
    && (sr_block_number r <? before))) (ix_rows db)). lia.
Qed.
End Pages.
