(* ===== verification/InboundIndexer.v ===== *)
(** * The inbound-transfer indexer

    [internal/bscinbound]: the scanner, the store and the query service.  Blocks and
    receipts are fetched one after the other here, concurrently there; they are only
    read.  Metrics and log lines have no effect and are left out. *)

From S2P Require Import Prelude Prog Sql Bytes Indexer.
From stdpp Require Import base tactics option list list_numbers sorting strings gmap.
From Stdlib Require Import ZArith Lia Ascii.
#[local] Open Scope Z_scope.

Definition minimumInboundValueWei : Z := 10000000000000000.
Definition ReceiptStatusSuccessful : Z := 1.
Record ScannerConfig := { BatchSize : Z }.
Definition DefaultScanBatchSize : Z := 1000.

(** ** The store *)
Record InboundNormalTransaction := {
  it_transaction_hash : Z; it_block_number : Z; it_block_hash : Z; it_block_timestamp : Z;
  it_transaction_index : Z; it_from_address : Z; it_to_address : Z; it_value_wei : option Z }.
(** [value_wei NUMERIC(78, 0)] is an integer of at most 78 digits. *)
Record inbound_row := {
  ir_transaction_hash : string; ir_block_number : Z; ir_block_hash : string; ir_block_timestamp : Z;
  ir_transaction_index : Z; ir_from_address : string; ir_to_address : string; ir_value_wei : Z }.
Abbreviation InboundDB := (index_db inbound_row).

Definition inbound_check (r : inbound_row) : bool :=
  (String.length (ir_transaction_hash r) =? 32)%nat && (0 <=? ir_block_number r)
  && (String.length (ir_block_hash r) =? 32)%nat && (0 <=? ir_block_timestamp r) && (0 <=? ir_transaction_index r)
  && (String.length (ir_from_address r) =? 20)%nat && (String.length (ir_to_address r) =? 20)%nat
  && (10000000000000000 <? ir_value_wei r) && (ir_value_wei r <? 10 ^ 78).
Definition ir_position (r : inbound_row) : Z * Z := (ir_block_number r, ir_transaction_index r).

(** [pgtype.Numeric], and the one pgx decodes a column value into. *)
Record Numeric := { nu_int : option Z; nu_exp : Z; nu_valid : bool }.
Class PgNumeric : Type := { decode_numeric : Z → Numeric }.
Definition numericFromBigInt (value : Z) : Numeric := {| nu_int := Some value; nu_exp := 0; nu_valid := true |}.
(** [Quo] truncates. *)
Definition bigIntFromNumeric (value : Numeric) : Z :=
  match nu_valid value, nu_int value with
  | true, Some i =>
      if 0 <? nu_exp value then i * 10 ^ nu_exp value
      else if nu_exp value <? 0 then Z.quot i (10 ^ (- nu_exp value)) else i
  | _, _ => 0
  end.
(** The column value of an integral numeric. *)
Definition numeric_column (value : Numeric) : Z := default 0 (nu_int value) * 10 ^ nu_exp value.

Definition transactionParams (t : InboundNormalTransaction) : result IdxError inbound_row :=
  blockNumber ← uint64ToInt64 "block_number" (it_block_number t);
  blockTimestamp ← uint64ToInt64 "block_timestamp" (it_block_timestamp t);
  transactionIndex ← uint64ToInt64 "transaction_index" (it_transaction_index t);
  value ← of_option (it_value_wei t) ValueNotPositive;
  _ ← require (0 <? value) ValueNotPositive;
  Ok {| ir_transaction_hash := hash_bytes (it_transaction_hash t); ir_block_number := blockNumber;
        ir_block_hash := hash_bytes (it_block_hash t); ir_block_timestamp := blockTimestamp;
        ir_transaction_index := transactionIndex; ir_from_address := address_bytes (it_from_address t);
        ir_to_address := address_bytes (it_to_address t); ir_value_wei := numeric_column (numericFromBigInt value) |}.

Definition GetScanCheckpoint (db : InboundDB) : result IdxError checkpoint_row := sql_get_checkpoint db.
Definition InitializeScanCheckpoint (row : checkpoint_row) : tx InboundDB IdxError (option checkpoint_row) :=
  sql_initialize_checkpoint row.
Definition AdvanceScanCheckpoint (cursor : Z) (hash : string) (timestamp expected : Z) : tx InboundDB IdxError Z :=
  sql_advance_checkpoint cursor hash timestamp expected.
Definition InsertInboundNormalTransaction (row : inbound_row) : tx InboundDB IdxError unit :=
  sql_insert_transaction ir_transaction_hash ir_position inbound_check row.
Definition checkpointParams : Checkpoint → result IdxError checkpoint_row := checkpoint_params.
Definition checkpointFromRow : checkpoint_row → result IdxError Checkpoint := checkpoint_from_row.
Definition GetCheckpoint (db : InboundDB) : result IdxError Checkpoint := get_checkpoint db.
Definition InitializeCheckpoint (c : Checkpoint) : program (iresp (T := InboundNormalTransaction)) (result IdxError Checkpoint) := initialize_stored c.
Definition CommitBatch (expectedCursor : Z) (transactions : list InboundNormalTransaction) (c : Checkpoint) :
    tx InboundDB IdxError unit :=
  commit_batch ir_transaction_hash ir_position inbound_check transactionParams expectedCursor transactions c.

Section Listing.
Context {PN : PgNumeric}.

Definition transactionFromValues (r : inbound_row) : result IdxError InboundNormalTransaction :=
  _ ← require ((String.length (ir_transaction_hash r) =? HashLength)%nat
               && (String.length (ir_block_hash r) =? HashLength)%nat) HashLengthInvalid;
  _ ← require ((String.length (ir_from_address r) =? AddressLength)%nat
               && (String.length (ir_to_address r) =? AddressLength)%nat) AddressLengthInvalid;
  bn ← int64ToUint64 "block_number" (ir_block_number r);
  bt ← int64ToUint64 "block_timestamp" (ir_block_timestamp r);
  ti ← int64ToUint64 "transaction_index" (ir_transaction_index r);
  Ok {| it_transaction_hash := bytes_to_hash (ir_transaction_hash r); it_block_number := bn;
        it_block_hash := bytes_to_hash (ir_block_hash r); it_block_timestamp := bt; it_transaction_index := ti;
        it_from_address := bytes_to_address (ir_from_address r); it_to_address := bytes_to_address (ir_to_address r);
        it_value_wei := Some (bigIntFromNumeric (decode_numeric (ir_value_wei r))) |}.
Fixpoint transactions_from_rows (rows : list inbound_row) : result IdxError (list InboundNormalTransaction) :=
  match rows with
  | [] => Ok []
  | row :: rows' => item ← transactionFromValues row; items ← transactions_from_rows rows'; Ok (item :: items)
  end.
Definition latestTransactionsFromRows : list inbound_row → result IdxError (list InboundNormalTransaction) :=
  transactions_from_rows.
Definition transactionsBeforeFromRows : list inbound_row → result IdxError (list InboundNormalTransaction) :=
  transactions_from_rows.

Definition newest_first (a b : inbound_row) : bool :=
  (ir_block_number b <? ir_block_number a)
  || (ir_block_number b =? ir_block_number a) && (ir_transaction_index b <=? ir_transaction_index a).
Definition ListLatestInboundNormalTransactions (address : string) (limit : Z) (db : InboundDB) : list inbound_row :=
  take (Z.to_nat limit) (sort_by newest_first
    (sql_many (λ r, bool_decide (ir_to_address r = address)) (ix_rows db))).
Definition ListInboundNormalTransactionsBefore (address : string) (before index limit : Z) (db : InboundDB) :
    list inbound_row :=
  take (Z.to_nat limit) (sort_by newest_first
    (sql_many (λ r, bool_decide (ir_to_address r = address)
                    && ((ir_block_number r <? before)
                        || (ir_block_number r =? before) && (ir_transaction_index r <? index))) (ix_rows db))).
Definition ListInboundNormalTransactions (address : Z) (cursor : option PageCursor) (limit : Z) (db : InboundDB) :
    result IdxError (list InboundNormalTransaction * Checkpoint) :=
  checkpointRow ← GetScanCheckpoint db;
  checkpoint ← checkpointFromRow checkpointRow;
  items ← match cursor with
          | None => latestTransactionsFromRows (ListLatestInboundNormalTransactions (address_bytes address) limit db)
          | Some cursor =>
              blockNumber ← uint64ToInt64 "before_block_number" (pc_block_number cursor);
              transactionIndex ← uint64ToInt64 "before_transaction_index" (pc_transaction_index cursor);
              transactionsBeforeFromRows
                (ListInboundNormalTransactionsBefore (address_bytes address) blockNumber transactionIndex limit db)
          end;
  Ok (items, checkpoint).
End Listing.

(** ** The scanner *)
Section Scan.
Context {EL : EthLib}.
Abbreviation iprog A := (program (iresp (T := InboundNormalTransaction)) (result IdxError A)).

Definition FinalizedHeader : iprog Header := node_FinalizedHeader.
Definition HeaderByNumber (number : Z) : iprog Header := node_HeaderByNumber number.
Definition BlockByNumber (number : Z) : iprog Block := node_BlockByNumber number.
Definition TransactionReceipt (hash : Z) : iprog Receipt := node_TransactionReceipt hash.
Definition findFirstBlockAtOrAfter (high targetTimestamp : Z) : iprog Z := find_first_block high targetTimestamp.
Definition initializeCheckpoint : iprog Checkpoint := initialize_checkpoint.

Fixpoint fetch_each (numbers : list Z) : iprog (list Block) :=
  match numbers with
  | [] => mret (Ok [])
  | number :: numbers' =>
      block ←! BlockByNumber number;
      blocks ←! fetch_each numbers';
      mret (Ok (block :: blocks))
  end.
Definition fetchBlocks (start end_ : Z) : iprog (list Block) := fetch_each (seqZ start (end_ - start + 1)).

(** The fetched blocks are not nil. *)
Fixpoint verifyBlockContinuity (expectedParent : Z) (blocks : list Block) : result IdxError unit :=
  match blocks with
  | [] => Ok tt
  | block :: blocks' =>
      _ ← require (b_parent block =? expectedParent) ParentMismatch;
      verifyBlockContinuity (b_hash block) blocks'
  end.

Record receiptCandidate := {
  cd_block : Block; cd_transaction : Transaction; cd_transaction_index : Z; cd_from : Z }.
(** A value transfer: a recipient, more than 0.01 BNB and no call data. *)
Definition transfers (t : Transaction) : bool :=
  match t_to t with
  | None => false
  | Some _ => (minimumInboundValueWei <? t_value t) && bool_decide (t_data t = EmptyString)
  end.
Fixpoint block_candidates (block : Block) (transactionIndex : Z) (ts : list (option Transaction)) :
    result IdxError (list receiptCandidate) :=
  match ts with
  | [] => Ok []
  | None :: ts' => block_candidates block (transactionIndex + 1) ts'
  | Some t :: ts' =>
      if transfers t then
        from ← of_option (sender t) SenderUnknown;
        rest ← block_candidates block (transactionIndex + 1) ts';
        Ok ({| cd_block := block; cd_transaction := t; cd_transaction_index := transactionIndex; cd_from := from |} :: rest)
      else block_candidates block (transactionIndex + 1) ts'
  end.
Fixpoint all_candidates (blocks : list Block) : result IdxError (list receiptCandidate) :=
  match blocks with
  | [] => Ok []
  | block :: blocks' =>
      cs ← block_candidates block 0 (b_transactions block);
      rest ← all_candidates blocks';
      Ok (cs ++ rest)
  end.
Fixpoint fetch_receipts (candidates : list receiptCandidate) : iprog (list (receiptCandidate * Receipt)) :=
  match candidates with
  | [] => mret (Ok [])
  | c :: candidates' =>
      receipt ←! TransactionReceipt (t_hash (cd_transaction c));
      rest ←! fetch_receipts candidates';
      mret (Ok ((c, receipt) :: rest))
  end.
Fixpoint accepted_transactions (candidates : list (receiptCandidate * Receipt)) :
    result IdxError (list InboundNormalTransaction) :=
  match candidates with
  | [] => Ok []
  | (c, receipt) :: candidates' =>
      if rc_status receipt =? ReceiptStatusSuccessful then
        _ ← require ((rc_block_hash receipt =? b_hash (cd_block c)) && (rc_tx_index receipt =? cd_transaction_index c))
              ReceiptPosition;
        rest ← accepted_transactions candidates';
        Ok ({| it_transaction_hash := t_hash (cd_transaction c); it_block_number := b_number (cd_block c);
               it_block_hash := b_hash (cd_block c); it_block_timestamp := b_time (cd_block c);
               it_transaction_index := cd_transaction_index c; it_from_address := cd_from c;
               it_to_address := default 0 (t_to (cd_transaction c));
               it_value_wei := Some (t_value (cd_transaction c)) |} :: rest)
      else accepted_transactions candidates'
  end.
Definition collectTransactions (blocks : list Block) : iprog (list InboundNormalTransaction) :=
  candidates ←! mret (all_candidates blocks);
  received ←! fetch_receipts candidates;
  mret (accepted_transactions received).

Definition scan_window (checkpoint : Checkpoint) (start end_ : Z) : iprog bool :=
  blocks ←! fetchBlocks start end_;
  _ ←! mret (verifyBlockContinuity (CursorBlockHash checkpoint) blocks);
  transactions ←! collectTransactions blocks;
  match last blocks with
  | None => mret (Err BlockEmpty)
  | Some lastBlock =>
      _ ←! (Prog.call (resp := iresp) (OpCommit (CursorBlockNumber checkpoint) transactions {|
              StartBlockNumber := StartBlockNumber checkpoint; CursorBlockNumber := b_number lastBlock;
              CursorBlockHash := b_hash lastBlock; CursorBlockTimestamp := b_time lastBlock |}) : iprog unit);
      mret (Ok true)
  end.
Definition runOnce (config : ScannerConfig) : iprog bool :=
  checkpoint ←! load_checkpoint;
  finalized ←! FinalizedHeader;
  let finalizedNumber := big_uint64 (default 0 (h_number finalized)) in
  if finalizedNumber <=? CursorBlockNumber checkpoint then mret (Ok false) else
  let start := u64 (CursorBlockNumber checkpoint + 1) in
  scan_window checkpoint start (window_end (BatchSize config) start finalizedNumber).
End Scan.

(** ** The query service *)
Inductive SvcError := InvalidArgument (what : string) | FailedPrecondition (what : string) | Internal (e : IdxError).
Record ListInboundNormalTransactionsRequest := {
  iq_address : string; iq_page_size : Z; iq_page_token : string; iq_before_position : option PageCursor }.
Record inbound_message := {
  im_block_number : Z; im_block_hash : string; im_block_timestamp : Z; im_transaction_hash : string;
  im_transaction_index : Z; im_from_address : string; im_to_address : string; im_value_wei : string }.
Record ListInboundNormalTransactionsResponse := {
  ip_transactions : list inbound_message; ip_next_page_token : string; ip_indexed_through_block : Z;
  ip_indexed_through_timestamp : Z }.

Section Service.
Context {EL : EthLib} {PN : PgNumeric}.

Definition encodePageToken : Z → PageCursor → string := encode_page_token.
Definition decodePageToken : string → option (PageCursor * Z) := decode_page_token.
Definition normalizeListRequest (request : option ListInboundNormalTransactionsRequest) :
    result SvcError (Z * Z * option PageCursor) :=
  request ← of_option request (InvalidArgument "request is required");
  address ← of_option (parse_address (iq_address request)) (InvalidArgument "address");
  let pageSize := if iq_page_size request =? 0 then defaultPageSize else iq_page_size request in
  _ ← require (negb ((pageSize <? 1) || (maxPageSize <? pageSize))) (InvalidArgument "page_size");
  let pageToken := iq_page_token request in
  match iq_before_position request with
  | Some p =>
      _ ← require (bool_decide (pageToken = EmptyString)) (InvalidArgument "page_token and before_position");
      _ ← require (negb ((max_int64 <? pc_block_number p) || (max_int64 <? pc_transaction_index p)))
            (InvalidArgument "before_position");
      Ok (address, pageSize, Some p)
  | None =>
      if bool_decide (pageToken = EmptyString) then Ok (address, pageSize, None) else
      '(cursor, tokenAddress) ← of_option (decodePageToken pageToken) (InvalidArgument "page_token");
      _ ← require (tokenAddress =? address) (InvalidArgument "page_token address");
      _ ← require (negb ((max_int64 <? pc_block_number cursor) || (max_int64 <? pc_transaction_index cursor)))
            (InvalidArgument "page_token position");
      Ok (address, pageSize, Some cursor)
  end.
Definition transactionResponse (t : InboundNormalTransaction) : inbound_message := {|
  im_block_number := it_block_number t; im_block_hash := hash_hex (it_block_hash t);
  im_block_timestamp := it_block_timestamp t; im_transaction_hash := hash_hex (it_transaction_hash t);
  im_transaction_index := it_transaction_index t; im_from_address := address_hex (it_from_address t);
  im_to_address := address_hex (it_to_address t);
  im_value_wei := match it_value_wei t with Some v => decimal_text v | None => "0" end |}.
Definition service_ListInboundNormalTransactions (request : option ListInboundNormalTransactionsRequest) (db : InboundDB) :
    result SvcError ListInboundNormalTransactionsResponse :=
  '(address, pageSize, cursor) ← normalizeListRequest request;
  match ListInboundNormalTransactions address cursor (pageSize + 1) db with
  | Err ErrNoRows => Err (FailedPrecondition "index is not initialized")
  | Err e => Err (Internal e)
  | Ok (items, checkpoint) =>
      let hasNext := pageSize <? Z.of_nat (length items) in
      let items := if hasNext then take (Z.to_nat pageSize) items else items in
      let nextPageToken :=
        match last items with
        | Some lastItem =>
            if hasNext then encodePageToken address {| pc_block_number := it_block_number lastItem;
                                                       pc_transaction_index := it_transaction_index lastItem |}
            else EmptyString
        | None => EmptyString
        end in
      Ok {| ip_transactions := transactionResponse <$> items; ip_next_page_token := nextPageToken;
            ip_indexed_through_block := CursorBlockNumber checkpoint;
            ip_indexed_through_timestamp := CursorBlockTimestamp checkpoint |}
  end.
End Service.
