(* ===== verification/InboundIndexerInv.v ===== *)
(** * The inbound-transfer indexer: every batch is the transfers of its window

    Then its progress: it catches up with the chain. *)

From S2P Require Import Prelude Prog Sql Bytes Indexer IndexerInv InboundIndexer IndexerProgress.
From stdpp Require Import base tactics option list list_numbers sorting strings gmap.
From Stdlib Require Import ZArith Lia Ascii.
#[local] Open Scope Z_scope.

Section Transfers.
Context {EL : EthLib} (chain : Chain) (Hchain : chain_ok chain).

(** A transaction belongs to the index when it has a recipient, moves more than
    0.01 BNB without call data, its receipt reports success and its sender is
    recovered. *)
Definition inbound_row_at (n i : Z) : option inbound_row :=
  if 0 <=? i then
    t ← mjoin (b_transactions (chain_block chain n) !! Z.to_nat i);
    to ← t_to t;
    if (10 ^ 16 <? t_value t) && bool_decide (t_data t = EmptyString) && (rc_status (chain_receipt chain (t_hash t)) =? 1) then
      from ← sender t;
      Some {| ir_transaction_hash := hash_bytes (t_hash t); ir_block_number := n;
              ir_block_hash := hash_bytes (b_hash (chain_block chain n));
              ir_block_timestamp := b_time (chain_block chain n); ir_transaction_index := i;
              ir_from_address := address_bytes from; ir_to_address := address_bytes to;
              ir_value_wei := t_value t |}
    else None
  else None.
Definition inbound_rows : Z → list inbound_row := block_rows chain inbound_row_at.

Lemma inbound_row_at_hash n i r :
  inbound_row_at n i = Some r → ∃ t, transaction_at chain n i t ∧ ir_transaction_hash r = hash_bytes (t_hash t).
Proof.
  unfold inbound_row_at, transaction_at. destruct (Z.leb_spec 0 i); [|done].
  intros (t & Ht & (to & _ & H0)%bind_Some)%bind_Some. destruct (_ && _); [|done]. apply bind_Some in H0 as (from & _ & [= <-]).
  destruct (b_transactions _ !! Z.to_nat i) as [[t'|]|] eqn:Hi; cbn in Ht; simplify_eq. by exists t.
Qed.

(** ** The rows of a batch *)
Definition succeeded (t : Transaction) : bool := rc_status (chain_receipt chain (t_hash t)) =? ReceiptStatusSuccessful.
Definition candidate_item (c : receiptCandidate) : inbound_row := {|
  ir_transaction_hash := hash_bytes (t_hash (cd_transaction c)); ir_block_number := b_number (cd_block c);
  ir_block_hash := hash_bytes (b_hash (cd_block c)); ir_block_timestamp := b_time (cd_block c);
  ir_transaction_index := cd_transaction_index c; ir_from_address := address_bytes (cd_from c);
  ir_to_address := address_bytes (default 0 (t_to (cd_transaction c))); ir_value_wei := t_value (cd_transaction c) |}.
Definition inbound_item (c : receiptCandidate) : option inbound_row :=
  if succeeded (cd_transaction c) then Some (candidate_item c) else None.
Definition with_receipt (c : receiptCandidate) : receiptCandidate * Receipt :=
  (c, chain_receipt chain (t_hash (cd_transaction c))).

Lemma inbound_params t r :
  transactionParams t = Ok r →
  r = {| ir_transaction_hash := hash_bytes (it_transaction_hash t); ir_block_number := it_block_number t;
         ir_block_hash := hash_bytes (it_block_hash t); ir_block_timestamp := it_block_timestamp t;
         ir_transaction_index := it_transaction_index t; ir_from_address := address_bytes (it_from_address t);
         ir_to_address := address_bytes (it_to_address t); ir_value_wei := default 0 (it_value_wei t) |}.
Proof.
  unfold transactionParams, uint64ToInt64, numeric_column. intros H. tx_inv. repeat (case_match; simplify_eq).
  cbn. f_equal. destruct (it_value_wei t); simplify_eq; cbn; lia.
Qed.
Lemma accepted_rows cs ts rows :
  accepted_transactions (with_receipt <$> cs) = Ok ts → mapM transactionParams ts = Ok rows →
  rows = omap inbound_item cs.
Proof.
  revert ts rows. induction cs as [|c cs IH]; intros ts rows H Hm; cbn in H.
  { injection H as <-. by injection Hm as <-. }
  cbn. unfold inbound_item at 1, succeeded. destruct (_ =? ReceiptStatusSuccessful); [|by apply (IH ts)].
  apply result_bind_ok in H as (_ & _ & (ts' & Hts & [= <-])%result_bind_ok).
  cbn in Hm. apply result_bind_ok in Hm as (r & ->%inbound_params & (rs & Hrs & [= <-])%result_bind_ok).
  cbn. f_equal. by apply (IH ts').
Qed.
Lemma drop_cons_inv {A} (l : list A) i x k : drop i l = x :: k → l !! i = Some x ∧ drop (S i) l = k.
Proof.
  intros H. split; [|by rewrite <- Nat.add_1_r, <- drop_drop, H].
  replace i with (i + 0)%nat by lia. by rewrite <- lookup_drop, H.
Qed.
Lemma block_candidates_rows n i ts cs :
  0 ≤ n < 2 ^ 64 → 0 ≤ i → drop (Z.to_nat i) (b_transactions (chain_block chain n)) = ts →
  block_candidates (chain_block chain n) i ts = Ok cs →
  omap inbound_item cs = omap (inbound_row_at n) (seqZ i (Z.of_nat (length ts))).
Proof using Hchain.
  intros Hn. revert i cs. induction ts as [|o ts IH]; intros i cs Hi Hd H; [by injection H as <-|].
  apply drop_cons_inv in Hd as [Hl Hd]. replace (S (Z.to_nat i)) with (Z.to_nat (i + 1)) in Hd by lia.
  cbn [length]. rewrite seqZ_cons by lia. rewrite Nat2Z.inj_succ, Z.pred_succ, <- Z.add_1_r. cbn [omap list_omap].
  assert (inbound_row_at n i = (t ← o; if transfers t && succeeded t then
      from ← sender t; Some (candidate_item {| cd_block := chain_block chain n; cd_transaction := t;
                                              cd_transaction_index := i; cd_from := from |}) else None)) as ->.
  { unfold inbound_row_at. rewrite (proj2 (Z.leb_le 0 i)), Hl by lia. destruct o as [t|]; [|done].
    cbn -[Z.ltb Z.eqb Z.pow]. unfold candidate_item, transfers, succeeded. cbn -[Z.ltb Z.eqb Z.pow]. rewrite (co_number _ Hchain) by done.
    by destruct (t_to t). }
  destruct o as [t|]; cbn [block_candidates] in H; cbn [mbind option_bind]; [|apply IH; [lia|done..]].
  destruct (transfers t); cbn [andb]; [|apply IH; [lia|done..]].
  apply result_bind_ok in H as (from & Hf%of_option_ok & (rest & Hrest & [= <-])%result_bind_ok).
  apply IH in Hrest; [|lia|done]. rewrite Hf. cbn. unfold inbound_item at 1. cbn.
  destruct (succeeded t); cbn; [by f_equal|done].
Qed.
Lemma all_candidates_rows numbers cs :
  Forall (λ n, 0 ≤ n < 2 ^ 64) numbers → all_candidates (chain_block chain <$> numbers) = Ok cs →
  omap inbound_item cs = concat (inbound_rows <$> numbers).
Proof using Hchain.
  intros Hf. revert cs. induction Hf as [|n numbers Hn _ IH]; intros cs H; cbn in H; [by injection H as <-|].
  apply result_bind_ok in H as (c & Hc & (rest & Hrest & [= <-])%result_bind_ok).
  rewrite omap_app. cbn. f_equal; [|by apply IH]. apply block_candidates_rows in Hc; [done..|lia|done].
Qed.

(** ** The scanner commits nothing else *)
Abbreviation obeying :=
  (obeys (λ s (_ : iop InboundNormalTransaction) _, s) (writes_allowed transactionParams inbound_rows chain)
     (answers chain)).

Lemma fetch_each_obeys numbers :
  obeying tt (fetch_each numbers) (λ _ r, ∀ blocks, r = Ok blocks → blocks = chain_block chain <$> numbers).
Proof.
  induction numbers as [|n numbers IH]; cbn [fetch_each]; [cbn; by intros blocks [= <-]|].
  eapply obeys_try; [apply block_obeys| |done]. intros [] b Hb. rewrite (Hb b eq_refl).
  eapply obeys_try; [apply IH| |done]. intros [] blocks Hbs. rewrite (Hbs blocks eq_refl). cbn. by intros ? [= <-].
Qed.
Lemma fetch_receipts_obeys cs :
  obeying tt (fetch_receipts cs) (λ _ r, ∀ l, r = Ok l → l = with_receipt <$> cs).
Proof.
  induction cs as [|c cs IH]; cbn [fetch_receipts]; [cbn; by intros l [= <-]|].
  eapply obeys_try with (Q := λ _ r, ∀ rc, r = Ok rc → rc = chain_receipt chain (t_hash (cd_transaction c))); [| |done].
  { unfold TransactionReceipt, node_TransactionReceipt.
    eapply obeys_try; [by apply (call_obeys transactionParams inbound_rows chain (OpReceipt _))| |done].
    intros [] [rc|] Ha; cbn; [|done]. rewrite (Ha rc eq_refl). by intros ? [= <-]. }
  intros [] rc Hrc. rewrite (Hrc rc eq_refl). eapply obeys_try; [apply IH| |done].
  intros [] l Hl. rewrite (Hl l eq_refl). cbn. by intros ? [= <-].
Qed.
Lemma collect_obeys numbers :
  Forall (λ n, 0 ≤ n < 2 ^ 64) numbers →
  obeying tt (collectTransactions (chain_block chain <$> numbers))
    (λ _ r, ∀ ts rows, r = Ok ts → mapM transactionParams ts = Ok rows → rows = concat (inbound_rows <$> numbers)).
Proof using Hchain.
  intros Hn. unfold collectTransactions. eapply obeys_try with (Q := λ _ r, r = all_candidates _); [done| |done].
  intros [] cs Hcs. eapply obeys_try; [apply fetch_receipts_obeys| |done]. intros [] l Hl. rewrite (Hl l eq_refl).
  cbn. intros ts rows Hts Hm. rewrite (accepted_rows _ _ _ Hts Hm). by apply all_candidates_rows.
Qed.
Lemma window_obeys c end_ :
  stored_checkpoint c → CursorBlockNumber c < end_ < 2 ^ 64 →
  obeying tt (scan_window c (CursorBlockNumber c + 1) end_) (λ _ _, True).
Proof using Hchain.
  intros Hst He. unfold stored_checkpoint, max_int64 in Hst. unfold scan_window, fetchBlocks.
  set (numbers := seqZ _ _). assert (Forall (λ n, 0 ≤ n < 2 ^ 64) numbers) as Hn.
  { apply Forall_forall. intros n Hn%elem_of_seqZ. lia. }
  assert (last numbers = Some end_) as Hlast.
  { unfold numbers. rewrite last_lookup, length_seqZ. apply lookup_seqZ. lia. }
  eapply obeys_try; [apply fetch_each_obeys| |done]. intros [] blocks Hb. rewrite (Hb blocks eq_refl).
  eapply obeys_try with (Q := λ _ _, True); [done| |done]. intros [] _ _.
  eapply obeys_try; [by apply collect_obeys| |done]. intros [] ts Hts.
  rewrite fmap_last, Hlast. cbn [fmap option_fmap option_map].
  eapply obeys_try with (Q := λ _ _, True); [|done|done].
  split; [|done]. cbn. unfold batch_good. cbn. rewrite (co_number _ Hchain) by lia. split_and!; [lia|done|].
  intros rows Hm. rewrite (Hts ts rows eq_refl Hm). done.
Qed.
Lemma inbound_obeys config : 0 < BatchSize config ≤ max_int64 → obeying tt (runOnce config) (λ _ _, True).
Proof using Hchain.
  intros Hbatch. unfold runOnce. eapply obeys_try; [apply (load_obeys transactionParams inbound_rows chain Hchain)| |done].
  intros [] c Hc. specialize (Hc c eq_refl). eapply obeys_try; [apply (finalized_obeys transactionParams inbound_rows chain Hchain)| |done].
  intros [] h Hh. destruct (Hh h eq_refl) as (n & Hn & -> & ->). destruct (Z.leb_spec n (CursorBlockNumber c)); [done|].
  cbv zeta. pose proof Hc as [Hs Hr]. destruct (window_bounds (BatchSize config) (CursorBlockNumber c) n) as [-> ->]; [lia..|].
  apply window_obeys; [done|]. lia.
Qed.
End Transfers.

(** * The inbound-transfer indexer catches up with the chain *)
#[local] Open Scope Z_scope.

Definition inbound_row_typed (r : inbound_row) : Prop :=
  String.length (ir_transaction_hash r) = 32%nat ∧ String.length (ir_block_hash r) = 32%nat
  ∧ String.length (ir_from_address r) = 20%nat ∧ String.length (ir_to_address r) = 20%nat
  ∧ 0 ≤ ir_block_number r ≤ max_int64 ∧ 0 ≤ ir_transaction_index r ≤ max_int64
  ∧ 0 ≤ ir_block_timestamp r ≤ max_int64 ∧ minimumInboundValueWei < ir_value_wei r < 10 ^ 78.
Abbreviation inbound_typed := (index_typed ir_transaction_hash ir_position inbound_row_typed).
Lemma inbound_params_typed t r : transactionParams t = Ok r → inbound_check r = true → inbound_row_typed r.
Proof.
  intros H Hc. assert (it_block_number t ≤ max_int64 ∧ it_transaction_index t ≤ max_int64 ∧ it_block_timestamp t ≤ max_int64) as Hmax.
  { unfold transactionParams, uint64ToInt64 in H. tx_inv. repeat (case_match; simplify_eq). lia. }
  apply inbound_params in H as ->. unfold inbound_check, inbound_row_typed in *. cbn -[Z.ltb Z.leb Nat.eqb Z.pow] in *. bool_prop.
  unfold minimumInboundValueWei. split_and!; first [apply be_bytes_length|lia].
Qed.

Section Progress.
Context {EL : EthLib} (chain : Chain) (Hchain : chain_ok chain) (finalized : Z) (Hfin : 1 ≤ finalized < max_int64).
Context (config : ScannerConfig) (Hbatch : 0 < BatchSize config ≤ max_int64).

(** What a chain looks like that can be indexed: linked blocks with ordered times,
    recoverable senders, receipts at the position of their transaction, and values
    the columns hold. *)
Record indexable : Prop := {
  ih_parent : ∀ n, 0 ≤ n → b_parent (chain_block chain (n + 1)) = b_hash (chain_block chain n);
  ih_time : ∀ n, 0 ≤ b_time (chain_block chain n) ≤ max_int64;
  ih_mono : ∀ m n, 0 ≤ m ≤ n → b_time (chain_block chain m) ≤ b_time (chain_block chain n);
  ih_sender : ∀ n i t, transaction_at chain n i t → transfers t = true → is_Some (sender t);
  ih_receipt : ∀ n i t, transaction_at chain n i t →
    rc_block_hash (chain_receipt chain (t_hash t)) = b_hash (chain_block chain n)
    ∧ rc_tx_index (chain_receipt chain (t_hash t)) = i;
  ih_value : ∀ n i t, transaction_at chain n i t → t_value t < 10 ^ 78;
  ih_index : ∀ n i t, transaction_at chain n i t → i ≤ max_int64 }.
Context (Hix : indexable).
Abbreviation run p w :=
  (drive (healthy ir_transaction_hash ir_position inbound_check transactionParams chain finalized) p w).

Lemma fetch_each_run numbers w : Forall (λ n, 0 ≤ n < 2 ^ 64) numbers →
  run (fetch_each numbers) w = (ask (length numbers) w, Ok (chain_block chain <$> numbers)).
Proof using Hchain.
  intros Hn. revert w. induction Hn as [|n numbers Hn _ IH]; intros w; cbn [fetch_each]; [by destruct w|].
  unfold BlockByNumber. rewrite drive_try, block_run by done. rewrite drive_try, IH. cbn. by rewrite ask_ask, Nat.add_1_r.
Qed.
Lemma fetch_receipts_run cs w :
  run (fetch_receipts cs) w = (ask (length cs) w, Ok (with_receipt chain <$> cs)).
Proof.
  revert w. induction cs as [|c cs IH]; intros w; cbn [fetch_receipts]; [by destruct w|].
  unfold TransactionReceipt, node_TransactionReceipt. rewrite !drive_try. cbn [drive healthy Prog.call mret prog_ret of_option].
  rewrite drive_try, IH. cbn. by rewrite ask_ask, Nat.add_1_r.
Qed.
Lemma continuity_holds start n :
  1 ≤ start → verifyBlockContinuity (b_hash (chain_block chain (start - 1))) (chain_block chain <$> seqZ start (Z.of_nat n)) = Ok tt.
Proof using Hix.
  revert start. induction n as [|n IH]; intros start Hs; [done|]. rewrite seqZ_cons, Nat2Z.inj_succ, Z.pred_succ by lia.
  cbn [fmap list_fmap verifyBlockContinuity]. pose proof (ih_parent Hix (start - 1)) as Hp.
  replace (start - 1 + 1) with start in Hp by lia. rewrite Hp, Z.eqb_refl by lia. cbn.
  specialize (IH (Z.succ start)). replace (Z.succ start - 1) with start in IH by lia. apply IH. lia.
Qed.

(** ** Candidates *)
Definition candidate_ok (c : receiptCandidate) : Prop :=
  ∃ n, 0 ≤ n ≤ max_int64 ∧ cd_block c = chain_block chain n ∧ transaction_at chain n (cd_transaction_index c) (cd_transaction c)
    ∧ transfers (cd_transaction c) = true.
Lemma block_candidates_ok n i ts :
  0 ≤ n ≤ max_int64 → 0 ≤ i → drop (Z.to_nat i) (b_transactions (chain_block chain n)) = ts →
  ∃ cs, block_candidates (chain_block chain n) i ts = Ok cs ∧ Forall candidate_ok cs.
Proof using Hix.
  clear Hfin Hbatch. intros Hn. revert i. induction ts as [|o ts IH]; intros i Hi Hd; [by exists []|].
  apply drop_cons_inv in Hd as [Hl Hd]. replace (S (Z.to_nat i)) with (Z.to_nat (i + 1)) in Hd by lia.
  destruct (IH (i + 1)) as (cs & Hcs & Hok); [lia|done|]. cbn [block_candidates].
  destruct o as [t|]; [|eauto]. destruct (transfers t) eqn:Ht; [|eauto].
  assert (transaction_at chain n i t) as Hat by done. destruct (ih_sender Hix n i t Hat Ht) as [from ->].
  cbn. rewrite Hcs. eexists. split; [done|]. constructor; [|done]. by exists n.
Qed.
Lemma all_candidates_ok numbers :
  Forall (λ n, 0 ≤ n ≤ max_int64) numbers →
  ∃ cs, all_candidates (chain_block chain <$> numbers) = Ok cs ∧ Forall candidate_ok cs.
Proof using Hix.
  induction 1 as [|n numbers Hn _ (cs & Hcs & Hok)]; [by exists []|]. cbn [fmap list_fmap all_candidates].
  destruct (block_candidates_ok n 0 (b_transactions (chain_block chain n))) as (c & Hc & Hcok); [done..|].
  rewrite Hc. cbn -[block_candidates]. rewrite Hcs. eexists. split; [done|]. by apply Forall_app.
Qed.
Lemma accepted_ok cs :
  Forall candidate_ok cs →
  ∃ ts rows, accepted_transactions (with_receipt chain <$> cs) = Ok ts ∧ mapM transactionParams ts = Ok rows
    ∧ Forall (λ r, inbound_check r = true) rows.
Proof using Hchain Hix.
  clear Hfin Hbatch. induction 1 as [|c cs (n & Hn & Hb & Hat & Htr) _ (ts & rows & Hts & Hm & Hck)]; [by exists [], []|].
  cbn [fmap list_fmap with_receipt accepted_transactions]. destruct (_ =? ReceiptStatusSuccessful); [|eauto].
  destruct (ih_receipt Hix _ _ _ Hat) as [-> ->]. rewrite Hb, !Z.eqb_refl. cbn. rewrite Hts. cbn.
  pose proof (ih_time Hix n). pose proof (ih_index Hix _ _ _ Hat). pose proof (ih_value Hix _ _ _ Hat). pose proof Hat as [Hi _].
  assert (minimumInboundValueWei < t_value (cd_transaction c)) as Hv.
  { unfold transfers in Htr. destruct (t_to _); [|done]. by bool_prop. }
  unfold minimumInboundValueWei in Hv.
  eexists _, (candidate_item c :: rows). split; [done|]. split.
  - cbn [mapM]. match goal with |- context [transactionParams ?x] => assert (transactionParams x = Ok (candidate_item c)) as -> end.
    2:{ cbn [mbind result_bind]. by rewrite Hm. }
    unfold transactionParams, uint64ToInt64. cbn. rewrite (co_number _ Hchain) by (unfold max_int64 in *; lia).
    rewrite !(proj2 (Z.ltb_ge max_int64 _)) by lia. rewrite (proj2 (Z.ltb_lt 0 _)) by lia. cbn.
    unfold candidate_item, numeric_column. cbn. rewrite Hb, (co_number _ Hchain), Z.mul_1_r by (unfold max_int64 in *; lia). done.
  - constructor; [|done]. unfold inbound_check, candidate_item. cbn -[Z.ltb Z.leb Nat.eqb Z.pow].
    unfold hash_bytes, address_bytes. rewrite !be_bytes_length, Hb, (co_number _ Hchain) by (unfold max_int64 in *; lia).
    rewrite !andb_true_iff. split_and!; first [done|lia].
Qed.

(** ** A run *)
Definition good (db : InboundDB) : Prop := follows (inbound_rows chain) chain db ∧ inbound_typed db.
Lemma inbound_position n i r : inbound_row_at chain n i = Some r → ir_position r = (n, i).
Proof.
  unfold inbound_row_at. destruct (0 <=? i); [|done]. intros (t & _ & (to & _ & H)%bind_Some)%bind_Some. destruct (_ && _); [|done].
  by apply bind_Some in H as (from & _ & [= <-]).
Qed.
Lemma collect_run numbers w :
  Forall (λ n, 0 ≤ n ≤ max_int64) numbers →
  ∃ k ts rows, run (collectTransactions (chain_block chain <$> numbers)) w = (ask k w, Ok ts)
    ∧ mapM transactionParams ts = Ok rows ∧ Forall (λ r, inbound_check r = true) rows
    ∧ rows = concat (inbound_rows chain <$> numbers).
Proof using Hchain Hix.
  intros Hn. destruct (all_candidates_ok numbers Hn) as (cs & Hcs & Hok). destruct (accepted_ok cs Hok) as (ts & rows & Hts & Hm & Hck).
  exists (length cs), ts, rows. split_and!; [|done..|].
  - unfold collectTransactions. rewrite drive_try. cbn [drive mret prog_ret]. rewrite Hcs, drive_try, fetch_receipts_run. by rewrite Hts.
  - rewrite (accepted_rows chain _ _ _ Hts Hm). apply (all_candidates_rows chain Hchain _ _); [|done].
    eapply Forall_impl; [exact Hn|]. unfold max_int64. cbn. lia.
Qed.
Lemma commit_good d r c ts rows :
  good d → ix_checkpoint d = Some r → ck_cursor_block_number r < CursorBlockNumber c < max_int64 →
  CursorBlockHash c = b_hash (chain_block chain (CursorBlockNumber c)) → 0 ≤ CursorBlockTimestamp c ≤ max_int64 →
  mapM transactionParams ts = Ok rows → Forall (λ r, inbound_check r = true) rows →
  rows = range_rows (inbound_rows chain) (ck_cursor_block_number r + 1) (CursorBlockNumber c) →
  ∃ d', run_tx (CommitBatch (ck_cursor_block_number r) ts c) d = (d', Ok tt) ∧ good d'
    ∧ ∃ r', ix_checkpoint d' = Some r' ∧ ck_cursor_block_number r' = CursorBlockNumber c.
Proof using Hchain.
  clear Hfin Hbatch. intros [Hf Hty] Hr Hc Hh Ht Hm Hchk Hrows. pose proof Hf as Hf'. unfold follows in Hf'. rewrite Hr in Hf'.
  destruct Hf' as (Hs & Hcur & _ & Hp).
  assert (ix_rows d ++ rows ≡ₚ range_rows (inbound_rows chain) (ck_start_block_number r) (CursorBlockNumber c)) as Hall.
  { rewrite Hp, (range_rows_app _ _ (ck_cursor_block_number r) (CursorBlockNumber c)) by lia. by rewrite Hrows. }
  pose proof (commit_succeeds ir_transaction_hash ir_position inbound_check transactionParams (ck_cursor_block_number r) ts c rows d r) as Hok.
  assert (∀ first last, 0 ≤ first → NoDup (ir_transaction_hash <$> range_rows (inbound_rows chain) first last)) as Hu
    by (intros; apply (block_rows_unique ir_transaction_hash chain Hchain _ (inbound_row_at_hash chain))).
  specialize (Hok Hr eq_refl ltac:(lia) ltac:(lia) ltac:(lia) Ht Hm Hchk).
  assert (NoDup (ir_transaction_hash <$> ix_rows d ++ rows)) as Hn1 by (rewrite Hall; apply Hu; lia).
  assert (NoDup (ir_position <$> ix_rows d ++ rows)) as Hn2.
  { rewrite Hall. apply (range_positions_unique ir_transaction_hash chain Hchain _ (inbound_row_at_hash chain)), inbound_position. }
  specialize (Hok Hn1 Hn2) as Hcommit. fold (CommitBatch (ck_cursor_block_number r) ts c) in Hcommit.
  eexists. split; [unfold run_tx; rewrite Hcommit; reflexivity|]. split; [split|].
  - eapply (follows_commit ir_transaction_hash ir_position inbound_check transactionParams _ Hu chain _ _ _ d); [done| |exact Hcommit].
    split_and!; [lia|done|]. intros rows' Hm'. rewrite Hm in Hm'. injection Hm' as <-. by rewrite <- Hrows.
  - apply (write_typed ir_transaction_hash ir_position inbound_check transactionParams inbound_row_typed inbound_params_typed d); [done|].
    pose proof (write_commit ir_transaction_hash ir_position inbound_check transactionParams d (ck_cursor_block_number r) ts c) as Hw.
    unfold run_tx in Hw. unfold CommitBatch in Hcommit. rewrite Hcommit in Hw. exact Hw.
  - eexists. split; [reflexivity|]. done.
Qed.
Lemma window_run k d r end_ :
  good d → ix_checkpoint d = Some r → ck_cursor_block_number r < end_ < max_int64 →
  ∃ k' d', run (scan_window (checkpoint_of r) (ck_cursor_block_number r + 1) end_) (World k d) = (World k' d', Ok true)
    ∧ good d' ∧ ∃ r', ix_checkpoint d' = Some r' ∧ ck_cursor_block_number r' = end_.
Proof using Hchain Hix.
  clear Hfin Hbatch. intros [Hf Hty] Hr He. pose proof Hf as Hf'. unfold follows in Hf'. rewrite Hr in Hf'. destruct Hf' as (Hs & Hc & Hh & Hp).
  pose proof Hty as [Hck _]. specialize (Hck r Hr) as (Hcs & Hcc & _ & _). cbn [checkpoint_of].
  set (cur := ck_cursor_block_number r) in *. unfold scan_window, fetchBlocks.
  set (numbers := seqZ (cur + 1) (end_ - (cur + 1) + 1)).
  assert (Forall (λ n, 0 ≤ n ≤ max_int64) numbers) as Hn by (apply Forall_forall; intros n Hn%elem_of_seqZ; lia).
  assert (last numbers = Some end_) as Hlast.
  { unfold numbers. rewrite last_lookup, length_seqZ. apply lookup_seqZ. lia. }
  rewrite drive_try, fetch_each_run by (eapply Forall_impl; [exact Hn|]; unfold max_int64; cbn; lia).
  rewrite drive_try. cbn [drive mret prog_ret checkpoint_of CursorBlockHash]. rewrite Hh, hash_bytes_value by (apply (co_hash _ Hchain)).
  pose proof (continuity_holds (cur + 1) (Z.to_nat (end_ - (cur + 1) + 1))) as Hcont.
  rewrite Z2Nat.id in Hcont by lia. replace (cur + 1 - 1) with cur in Hcont by lia. fold numbers in Hcont. rewrite Hcont by lia.
  cbv beta iota. destruct (collect_run numbers (ask (length numbers) (World k d)) Hn) as (k' & ts & rows & Hrun & Hm & Hchk & Hrows).
  rewrite drive_try, Hrun, fmap_last, Hlast. cbn [fmap option_fmap option_map]. rewrite drive_try.
  set (c' := {| StartBlockNumber := _ |}). assert (b_number (chain_block chain end_) = end_) as Hend
    by (apply (co_number _ Hchain); unfold max_int64 in *; lia).
  destruct (commit_good d r c' ts rows) as (d' & Hcommit & Hgood & Hr'); [done..|cbn; lia|cbn; by rewrite Hend|apply (ih_time Hix)|done|done| |].
  { cbn. by rewrite Hend. }
  unfold CommitBatch in Hcommit. subst cur.
  cbn [drive Prog.call healthy]. unfold stored. cbn [w_db ask checkpoint_of CursorBlockNumber].
  rewrite Hcommit. cbn [fst snd drive mret prog_ret]. eexists _, d'. split; [done|]. split; [done|].
  destruct Hr' as (r' & Hr' & Hcur). exists r'. split; [done|]. rewrite Hcur. cbn. by rewrite Hend.
Qed.

Definition scan (w : world inbound_row) : world inbound_row * result IdxError bool := run (runOnce config) w.
Definition cursor (db : InboundDB) : option Z := ck_cursor_block_number <$> ix_checkpoint db.
(** The cursor after a run that starts from the checkpoint [r]. *)
Definition next_cursor (n : Z) : Z := Z.min (n + BatchSize config) finalized.

Lemma load_good k d :
  good d →
  ∃ k' r d', run load_checkpoint (World k d) = (World k' d', Ok (checkpoint_of r)) ∧ good d' ∧ ix_checkpoint d' = Some r
    ∧ (ix_checkpoint d = Some r ∨ ix_checkpoint d = None ∧ ck_cursor_block_number r < finalized).
Proof using Hchain Hfin Hix.
  intros [Hf Hty]. assert (0 ≤ finalized < 2 ^ 64) as Hfin' by (unfold max_int64 in *; lia).
  destruct (load_run ir_transaction_hash ir_position inbound_check transactionParams chain finalized Hchain Hfin'
    (ih_time Hix) (ih_mono Hix) Hfin (World k d)) as (k' & r & d' & Hrun & Hr & Hcase); [apply Hty|].
  exists k', r, d'. split; [done|]. destruct Hcase as [[Hd ->]|(Hd & Hlt & Hg & Hinit)]; cbn [w_db] in *.
  { split_and!; [done..|by left]. }
  split; [|split; [done|by right]]. split.
  - unfold run_tx in Hinit. destruct (sql_initialize_checkpoint r d) as [[d1 a]|] eqn:Hi; [|done]. injection Hinit as <- ->.
    by eapply follows_initialize.
  - apply (write_typed ir_transaction_hash ir_position inbound_check transactionParams inbound_row_typed inbound_params_typed d); [done|].
    pose proof (write_initialize ir_transaction_hash ir_position inbound_check transactionParams d r) as Hw.
    by rewrite Hinit in Hw.
Qed.
Lemma run_progress k d :
  good d → ∃ k' d' b, scan (World k d) = (World k' d', Ok b) ∧ good d' ∧
    ∃ r r', 0 ≤ ck_cursor_block_number r ∧ (ix_checkpoint d = Some r ∨ ix_checkpoint d = None ∧ ck_cursor_block_number r < finalized)
      ∧ ix_checkpoint d' = Some r'
      ∧ (finalized ≤ ck_cursor_block_number r ∧ b = false ∧ r' = r
         ∨ ck_cursor_block_number r < finalized ∧ b = true
           ∧ ck_cursor_block_number r' = next_cursor (ck_cursor_block_number r)).
Proof using Hchain Hfin Hix Hbatch.
  intros Hg. destruct (load_good k d Hg) as (k1 & r & d1 & Hload & Hg1 & Hr & Hcase).
  unfold scan, runOnce. rewrite drive_try, Hload, drive_try. unfold FinalizedHeader.
  rewrite finalized_run by (done || unfold max_int64 in *; lia). cbv zeta. cbn [header_of h_number default id].
  rewrite (co_number _ Hchain), big_uint64_small by (unfold max_int64 in *; lia). cbn [checkpoint_of CursorBlockNumber].
  pose proof Hg1 as [Hf _]. unfold follows in Hf. rewrite Hr in Hf. destruct Hf as (Hs & Hc & _).
  destruct (Z.leb_spec finalized (ck_cursor_block_number r)) as [Hle|Hlt].
  { eexists _, d1, false. split; [done|]. split; [done|]. exists r, r. split_and!; [lia|done|done|by left]. }
  destruct (window_bounds (BatchSize config) (ck_cursor_block_number r) finalized) as [-> ->]; [lia..|unfold max_int64 in *; lia|].
  destruct (window_run (1 + k1) d1 r (next_cursor (ck_cursor_block_number r)) Hg1 Hr) as (k2 & d2 & Hrun & Hg2 & r' & Hr' & Hcur);
    [unfold next_cursor; lia|].
  exists k2, d2, true. split; [exact Hrun|]. split; [done|]. exists r, r'. split_and!; [lia|done|done|by right].
Qed.

(** *** Repeated runs ([Run] loops over [runOnce]) *)
Fixpoint scans (n : nat) (w : world inbound_row) : world inbound_row :=
  match n with O => w | S n' => scans n' (scan w).1 end.
Lemma scans_catch_up n k d :
  good d → default 0 (cursor d) ≤ finalized → finalized - default 0 (cursor d) ≤ Z.of_nat n * BatchSize config →
  ∃ k' d', scans n (World k d) = World k' d' ∧ good d' ∧ cursor d' = Some finalized.
Proof using Hchain Hfin Hix Hbatch.
  revert k d. induction n as [|n IH]; intros k d Hg Hle Hlag.
  { exists k, d. split; [done|]. split; [done|]. unfold cursor in *. destruct (ix_checkpoint d) as [r|]; cbn in *; [f_equal|]; lia. }
  destruct (run_progress k d Hg) as (k1 & d1 & b & Hs & Hg1 & r & r' & H0 & Hr & Hr' & Hcase). cbn [scans]. rewrite Hs. cbn [fst].
  assert (0 ≤ ck_cursor_block_number r' ∧ cursor d1 = Some (ck_cursor_block_number r')) as [Hpos Hc1].
  { unfold cursor. rewrite Hr'. split; [|done]. pose proof Hg1 as [Hf _]. unfold follows in Hf. rewrite Hr' in Hf. lia. }
  rewrite Nat2Z.inj_succ, Z.mul_succ_l in Hlag. apply IH; [done|..]; rewrite Hc1; cbn; unfold cursor, next_cursor in *;
    destruct Hcase as [(? & _ & ->)|(? & _ & ->)]; destruct Hr as [Hr|[Hr Hlt]]; rewrite Hr in Hle, Hlag; cbn in Hle, Hlag; lia.
Qed.
End Progress.
