(* ===== verification/IndexerTheorems.v ===== *)
(** * Chain indexers: what they promise

    First a small chain, at which the theorems are used: block 2 has two value transfers,
    the first with a swap log, and a transaction the client library does not decode. *)

From S2P Require Import Prelude Prog Sql Bytes Indexer IndexerInv IndexerProgress SwapIndexer SwapIndexerInv InboundIndexer InboundIndexerInv.
From stdpp Require Import base tactics option list list_numbers sorting strings gmap.
From Stdlib Require Import ZArith Lia Ascii.
#[local] Open Scope Z_scope.

#[export] Instance demo_lib : EthLib := {|
  sender _ := Some 7;
  parse_address s := if bool_decide (s = "0x07") then Some 7 else None;
  hash_hex h := decimal_text h; address_hex a := decimal_text a |}.
Definition demo_transaction (h : Z) : Transaction := {|
  t_hash := h; t_to := Some 5; t_value := 20000000000000000; t_data := EmptyString |}.
Definition demo_hash (n : Z) : Z := n mod 2 ^ 64 + 1.
Definition demo_block (n : Z) : Block := {|
  b_number := n; b_hash := demo_hash n; b_parent := demo_hash (n - 1); b_time := Z.max 0 (Z.min n max_int64);
  b_transactions := if n =? 2 then [Some (demo_transaction 100); None; Some (demo_transaction 101)] else [] |}.
Definition demo_log : Log := {|
  l_removed := false; l_block_number := 2; l_block_hash := demo_hash 2; l_tx_hash := 100; l_tx_index := 0;
  l_topics := [V2SwapTopic] |}.
Definition demo_chain : Chain := {|
  chain_block := demo_block;
  chain_logs n := if n =? 2 then [demo_log] else [];
  chain_receipt h := {| rc_status := 1; rc_block_hash := demo_hash 2; rc_tx_index := if h =? 100 then 0 else 2 |} |}.

Lemma demo_transaction_at n i t :
  transaction_at demo_chain n i t ↔
  n = 2 ∧ (i = 0 ∧ t = demo_transaction 100 ∨ i = 2 ∧ t = demo_transaction 101).
Proof.
  unfold transaction_at. cbn [demo_chain chain_block demo_block b_transactions]. split.
  - intros [Hi Ht]. destruct (Z.eqb_spec n 2) as [->|]; [|done]. split; [done|].
    destruct (Z.to_nat i) as [|[|[|k]]] eqn:Hk; cbn in Ht; simplify_eq; [left|right]; split; try done; lia.
  - intros [-> [[-> ->]|[-> ->]]]; done.
Qed.
Lemma demo_hash_range n : 0 ≤ demo_hash n < 256 ^ 32.
Proof. unfold demo_hash. pose proof (Z.mod_pos_bound n (2 ^ 64)). lia. Qed.
Lemma demo_ok : chain_ok demo_chain.
Proof.
  constructor.
  - done.
  - intros n l Hn Hl. cbn in Hl. destruct (Z.eqb_spec n 2) as [->|]; [|by apply not_elem_of_nil in Hl].
    apply list_elem_of_singleton in Hl as ->. split; [done|]. split; [done|].
    exists (demo_transaction 100). split; [|done]. apply demo_transaction_at. auto.
  - intros n n' i i' t t' [-> H]%demo_transaction_at [-> H']%demo_transaction_at Heq.
    destruct H as [[-> ->]|[-> ->]], H' as [[-> ->]|[-> ->]]; done.
  - intros n. apply demo_hash_range.
  - intros n i t [_ [[_ ->]|[_ ->]]]%demo_transaction_at; cbn; lia.
Qed.
Lemma demo_time n : 0 ≤ b_time (chain_block demo_chain n) ≤ max_int64.
Proof. cbn. unfold max_int64. lia. Qed.
Lemma demo_mono m n : m ≤ n → b_time (chain_block demo_chain m) ≤ b_time (chain_block demo_chain n).
Proof. cbn. lia. Qed.
Lemma demo_indexable : indexable demo_chain.
Proof.
  constructor.
  - intros n _. cbn. by rewrite Z.add_simpl_r.
  - apply demo_time.
  - intros m n [_ H]. by apply demo_mono.
  - intros n i t _ _. by eexists.
  - intros n i t [-> [[-> ->]|[-> ->]]]%demo_transaction_at; done.
  - intros n i t [_ [[_ ->]|[_ ->]]]%demo_transaction_at; cbn; lia.
  - intros n i t [_ [[-> _]|[-> _]]]%demo_transaction_at; unfold max_int64; lia.
Qed.

Lemma empty_typed {Row} (row_hash : Row → string) (row_position : Row → Z * Z) (row_typed : Row → Prop) :
  index_typed row_hash row_position row_typed (IndexDB None []).
Proof. split_and!; [done|constructor..]. Qed.
(** The swap index after one run, with three finalized blocks. *)
Definition demo_swap_run : world BscSwapTransaction * result IdxError bool :=
  drive (healthy sr_transaction_hash sr_position swap_check SwapIndexer.transactionParams demo_chain 3)
    SwapIndexer.runOnce (World 0 (IndexDB None [])).
Definition demo_swaps : SwapDB := w_db demo_swap_run.1.
Definition demo_swap_system : isystem (T := SwapTransaction) := {| is_db := demo_swaps; is_scanners := [Ret demo_swap_run.2] |}.
Lemma demo_swaps_reached :
  rtc (istep sr_transaction_hash sr_position swap_check SwapIndexer.transactionParams demo_chain SwapIndexer.runOnce)
    istart demo_swap_system.
Proof.
  apply (spawn_run sr_transaction_hash sr_position swap_check SwapIndexer.transactionParams demo_chain 3 ltac:(lia)
           SwapIndexer.runOnce (IndexDB None [])).
Qed.
Lemma demo_swaps_typed : swap_typed demo_swaps.
Proof. apply run_typed; [apply swap_params_typed|apply empty_typed]. Qed.
(** The inbound index after one run, two blocks at a time. *)
Definition demo_config : ScannerConfig := {| BatchSize := 2 |}.
Definition demo_inbound_run : world inbound_row * result IdxError bool :=
  drive (healthy ir_transaction_hash ir_position inbound_check InboundIndexer.transactionParams demo_chain 3)
    (InboundIndexer.runOnce demo_config) (World 0 (IndexDB None [])).
Definition demo_inbound : InboundDB := w_db demo_inbound_run.1.
Definition demo_inbound_system : isystem (T := InboundNormalTransaction) := {| is_db := demo_inbound; is_scanners := [Ret demo_inbound_run.2] |}.
Lemma demo_inbound_reached :
  rtc (istep ir_transaction_hash ir_position inbound_check InboundIndexer.transactionParams demo_chain
         (InboundIndexer.runOnce demo_config)) istart demo_inbound_system.
Proof.
  apply (spawn_run ir_transaction_hash ir_position inbound_check InboundIndexer.transactionParams demo_chain 3 ltac:(lia)
           (InboundIndexer.runOnce demo_config) (IndexDB None [])).
Qed.
Lemma demo_runs :
  (ck_cursor_block_number <$> ix_checkpoint demo_swaps, length (ix_rows demo_swaps)) = (Some 3, 1%nat)
  ∧ (ck_cursor_block_number <$> ix_checkpoint demo_inbound, ir_transaction_index <$> ix_rows demo_inbound) = (Some 2, [0; 2]).
Proof. split; vm_compute; reflexivity. Qed.

#[local] Open Scope Z_scope.

Abbreviation swap_step chain := (istep sr_transaction_hash sr_position swap_check SwapIndexer.transactionParams chain).
Abbreviation inbound_step chain :=
  (istep ir_transaction_hash ir_position inbound_check InboundIndexer.transactionParams chain).

(** The stored index is the reference: the expected rows of every block from the
    start to the cursor, and nothing else. *)
Definition index_exact {Row} (rows : Z → list Row) (chain : Chain) (db : index_db Row) : Prop :=
  match ix_checkpoint db with
  | None => ix_rows db = []
  | Some r =>
      ck_cursor_block_hash r = hash_bytes (b_hash (chain_block chain (ck_cursor_block_number r)))
      ∧ ix_rows db ≡ₚ range_rows rows (ck_start_block_number r) (ck_cursor_block_number r)
  end.
Lemma follows_exact {Row} (rows : Z → list Row) chain db : follows rows chain db → index_exact rows chain db.
Proof. unfold follows, index_exact. destruct (ix_checkpoint db); [|done]. by intros (_ & _ & ? & ?). Qed.

(** C21: whatever interleaving of concurrent scanners, failed requests, lost
    answers and restarts happens, the stored swap index is exactly the transactions
    with a swap log, with their recovered senders, of the blocks from the start to
    the cursor, and the cursor hash is the hash of the cursor block. *)
Theorem swap_index_exact `{EL : EthLib} chain σ :
  chain_ok chain → rtc (swap_step chain SwapIndexer.runOnce) istart σ →
  index_exact (swap_rows chain) chain (is_db σ).
Proof.
  intros Hc Hst. apply follows_exact. eapply index_follows; [|by apply runOnce_obeys|exact Hst].
  intros first last _. by apply (block_rows_unique sr_transaction_hash chain Hc _ (swap_row_at_hash chain)).
Qed.
Lemma swap_index_exact_witness :
  length (ix_rows demo_swaps) = 1%nat ∧ index_exact (swap_rows demo_chain) demo_chain demo_swaps.
Proof.
  split; [vm_compute; reflexivity|]. apply (swap_index_exact demo_chain demo_swap_system demo_ok demo_swaps_reached).
Defined.

(** C27: the same of the inbound index, whose transactions are the value transfers
    above the minimum, without call data, with a recovered sender and a successful
    receipt. *)
Theorem inbound_index_exact `{EL : EthLib} chain config σ :
  chain_ok chain → 0 < BatchSize config ≤ max_int64 →
  rtc (inbound_step chain (InboundIndexer.runOnce config)) istart σ →
  index_exact (inbound_rows chain) chain (is_db σ).
Proof.
  intros Hc Hb Hst. apply follows_exact. eapply index_follows; [|by apply (inbound_obeys chain Hc config)|exact Hst].
  intros first last _. by apply (block_rows_unique ir_transaction_hash chain Hc _ (inbound_row_at_hash chain)).
Qed.
Lemma inbound_index_exact_witness :
  length (ix_rows demo_inbound) = 2%nat ∧ index_exact (inbound_rows demo_chain) demo_chain demo_inbound.
Proof.
  split; [vm_compute; reflexivity|].
  apply (inbound_index_exact demo_chain demo_config demo_inbound_system demo_ok); [unfold max_int64; cbn; lia|exact demo_inbound_reached].
Defined.

(** C33: a scanner whose node and store answer catches up: from any good index
    that is not ahead of the finalized block, the empty one included, [n] runs of
    [BatchSize] blocks that cover the distance leave the cursor at the finalized
    block, with the index exact. *)
Theorem inbound_catches_up `{EL : EthLib} chain finalized config n k db :
  chain_ok chain → indexable chain → 1 ≤ finalized < max_int64 → 0 < BatchSize config ≤ max_int64 →
  good chain db → default 0 (cursor db) ≤ finalized →
  finalized - default 0 (cursor db) ≤ Z.of_nat n * BatchSize config →
  ∃ k' db', scans chain finalized config n (World k db) = World k' db'
    ∧ cursor db' = Some finalized ∧ index_exact (inbound_rows chain) chain db'.
Proof.
  intros Hc Hix Hf Hb Hg Hle Hlag.
  destruct (scans_catch_up chain Hc finalized Hf config Hb Hix n k db Hg Hle Hlag) as (k' & db' & Hs & [Hfol _] & Hcur).
  exists k', db'. split_and!; [done..|]. by apply follows_exact.
Qed.
Lemma inbound_catches_up_witness :
  ∃ k' db', scans demo_chain 5 demo_config 3 (World 0 (IndexDB None [])) = World k' db'
    ∧ cursor db' = Some 5 ∧ index_exact (inbound_rows demo_chain) demo_chain db'.
Proof.
  apply (inbound_catches_up demo_chain 5 demo_config 3 0 (IndexDB None []) demo_ok demo_indexable).
  - unfold max_int64. lia.
  - unfold max_int64. cbn. lia.
  - split; [done|]. split_and!; [done|constructor..].
  - cbn. lia.
  - cbn. lia.
Defined.

(** the block search ends: on a chain of ordered times it returns, after at
    most 64 header requests, the first block at or after the target time, or the
    upper bound when there is none below it. *)
Theorem first_block_found `{EL : EthLib} chain finalized high target (w : world inbound_row) :
  chain_ok chain → 0 ≤ high < 2 ^ 64 →
  (∀ m n, 0 ≤ m ≤ n → n < high → b_time (chain_block chain m) ≤ b_time (chain_block chain n)) →
  ∃ k n, (k ≤ 64)%nat
    ∧ drive (healthy ir_transaction_hash ir_position inbound_check InboundIndexer.transactionParams chain finalized)
        (InboundIndexer.findFirstBlockAtOrAfter high target) w = (ask k w, Ok n)
    ∧ 0 ≤ n ≤ high
    ∧ (∀ m, 0 ≤ m < n → b_time (chain_block chain m) < target)
    ∧ (∀ m, n ≤ m < high → target ≤ b_time (chain_block chain m)).
Proof.
  intros Hc Hh Hm.
  destruct (search_run ir_transaction_hash ir_position inbound_check InboundIndexer.transactionParams chain finalized Hc
              64 0 high target w) as (k & n & Hk & Hrun & Hn & Hbelow & Habove); [lia..|done|].
  exists k, n. split; [exact Hk|]. split; [exact Hrun|]. split; [exact Hn|]. by split.
Qed.
Lemma first_block_found_witness :
  ∃ k n, (k ≤ 64)%nat
    ∧ drive (healthy ir_transaction_hash ir_position inbound_check InboundIndexer.transactionParams demo_chain 9)
        (InboundIndexer.findFirstBlockAtOrAfter 9 6) (World 0 (IndexDB None [])) = (ask k (World 0 (IndexDB None [])), Ok n)
    ∧ 0 ≤ n ≤ 9
    ∧ (∀ m, 0 ≤ m < n → b_time (chain_block demo_chain m) < 6)
    ∧ (∀ m, n ≤ m < 9 → 6 ≤ b_time (chain_block demo_chain m)).
Proof.
  apply (first_block_found demo_chain 9 9 6 (World 0 (IndexDB None [])) demo_ok); [lia|].
  intros m n [_ H] _. by apply demo_mono.
Defined.

(** the window of a run starts right after the cursor, holds between one and
    [batch] blocks and stays at or below the finalized block, and none of its
    [uint64] operations wraps. *)
Theorem window_in_range batch cursor finalized :
  0 < batch ≤ max_int64 → 0 ≤ cursor < max_int64 → cursor < finalized < 2 ^ 64 →
  let start := u64 (cursor + 1) in
  let end_ := window_end batch start finalized in
  start = cursor + 1 ∧ start ≤ end_ ≤ finalized ∧ 1 ≤ end_ - start + 1 ≤ batch
  ∧ (end_ < finalized → end_ - start + 1 = batch).
Proof.
  intros Hb Hc Hf start end_. destruct (window_bounds batch cursor finalized Hb Hc Hf) as [Hs He].
  subst start end_. rewrite Hs, He. lia.
Qed.
Lemma window_in_range_witness :
  let start := u64 (9223372036854775000 + 1) in
  let end_ := window_end 1000 start 18446744073709551615 in
  start = 9223372036854775000 + 1 ∧ start ≤ end_ ≤ 18446744073709551615 ∧ 1 ≤ end_ - start + 1 ≤ 1000
  ∧ (end_ < 18446744073709551615 → end_ - start + 1 = 1000).
Proof. apply (window_in_range 1000 9223372036854775000 18446744073709551615); unfold max_int64; lia. Defined.

(** a client that follows [next_page_token] from the first page until it is
    empty receives every swap of the wallet below the block, newest first, each once:
    the pages put together are the whole listing, for every page size. *)
Theorem swap_pages_enumerate `{EL : EthLib} wallet address size before db cp :
  parse_address wallet = Some address → 0 ≤ address < 256 ^ 20 → 1 ≤ size ≤ maxPageSize → 0 < before ≤ max_int64 →
  swap_typed db → ix_checkpoint db = Some cp →
  walk wallet size db (S (length (ix_rows db))) EmptyString before = Some (hash_text <$> listing address db before)
  ∧ StronglySorted (λ a b, SwapIndexer.newest_first a b = true) (listing address db before)
  ∧ listing address db before ≡ₚ filter (λ r, sr_from_address r = address_bytes address ∧ sr_block_number r < before) (ix_rows db).
Proof.
  intros Hp Ha Hs Hb Ht Hcp. split; [by apply (walk_listing wallet address size db cp)|]. split.
  - apply (listing_sorted sr_position).
  - unfold listing. rewrite (sort_by_Permutation SwapIndexer.newest_first). unfold sql_many.
    erewrite list_filter_iff; [done|]. intros r. rewrite Is_true_true, andb_true_iff, bool_decide_eq_true, Z.ltb_lt. done.
Qed.
Lemma swap_pages_enumerate_witness :
  walk "0x07" 1 demo_swaps (S (length (ix_rows demo_swaps))) EmptyString 9 = Some (hash_text <$> listing 7 demo_swaps 9)
  ∧ StronglySorted (λ a b, SwapIndexer.newest_first a b = true) (listing 7 demo_swaps 9)
  ∧ listing 7 demo_swaps 9 ≡ₚ filter (λ r, sr_from_address r = address_bytes 7 ∧ sr_block_number r < 9) (ix_rows demo_swaps).
Proof.
  destruct (ix_checkpoint demo_swaps) as [cp|] eqn:Hcp; [|vm_compute in Hcp; discriminate].
  apply (swap_pages_enumerate "0x07" 7 1 9 demo_swaps cp); [vm_compute; reflexivity|lia|unfold maxPageSize; lia|unfold max_int64; lia|exact demo_swaps_typed|exact Hcp].
Defined.

(** a page token decodes to the position and the address it was made of. *)
Theorem page_token_roundtrip address position :
  0 ≤ address < 256 ^ 20 → 0 ≤ pc_block_number position < 2 ^ 64 → 0 ≤ pc_transaction_index position < 2 ^ 64 →
  SwapIndexer.decodePageToken (SwapIndexer.encodePageToken address position) = Some (position, address).
Proof. apply page_token_decodes. Qed.
Lemma page_token_roundtrip_witness :
  SwapIndexer.decodePageToken (SwapIndexer.encodePageToken 7 {| pc_block_number := 2 ^ 40; pc_transaction_index := 3 |})
    = Some ({| pc_block_number := 2 ^ 40; pc_transaction_index := 3 |}, 7).
Proof. apply (page_token_roundtrip 7 {| pc_block_number := 2 ^ 40; pc_transaction_index := 3 |}); cbn; lia. Defined.
