(* ===== verification/ConnectionTypes.v ===== *)
(** * Worm wallet connections: data and database

    The connection, credential and attempt tables of [internal/wormtrading/store]
    ([sqlc/models.go], [migrations/000001_init.sql] with
    [000005_regenerate_unknown_connection.sql]) and the queries of
    [sqlc/connections.sql.go], [sqlc/connection_attempts.sql.go] and
    [sqlc/credentials.sql.go], with the tables of the wallet selection and the queries
    of [sqlc/wallet_selections.sql.go] that connections use.  Times are as in the
    cash-out tables. *)

From S2P Require Import Prelude Sql CashOutTypes.
From stdpp Require Import base tactics option list list_numbers sorting strings gmap.
From Stdlib Require Import ZArith Lia Ascii.
#[local] Open Scope Z_scope.

(** ** Enumerations *)
Inductive ConnectionAttemptKind :=
| ConnectionAttemptKindConnect | ConnectionAttemptKindReconnect | ConnectionAttemptKindRegenerate.
Inductive ConnectionAttemptState :=
| ConnectionAttemptStatePrepared | ConnectionAttemptStateCompleting | ConnectionAttemptStateCompleted
| ConnectionAttemptStateFailed | ConnectionAttemptStateCancelled | ConnectionAttemptStateOutcomeUnknown.
#[export] Instance ConnectionAttemptKind_eq_dec : EqDecision ConnectionAttemptKind.
Proof. solve_decision. Defined.
#[export] Instance ConnectionAttemptState_eq_dec : EqDecision ConnectionAttemptState.
Proof. solve_decision. Defined.

Inductive CWError :=
| ErrTransactionOutcomeUnknown | ErrWalletConnectionNotFound | ErrWalletAddressMismatch
| ErrConnectionAlreadyConnected | ErrConnectionNotConnected | ErrConnectionOperationActive
| ErrConnectionAttemptNotFound | ErrConnectionAttemptExpired | ErrConnectionAttemptState
| ErrCredentialNotFound | ErrCredentialOutcomeUnknown | ErrWalletNotSelected | ErrWalletNotRetiring
| ErrWalletConnectionCapacityPending | ErrInvalidWalletSelection | ErrWalletSelectionRevision
| ErrWalletRetirementIncomplete | WalletSelectionRetirementBlockedError (wallet_id : Z) (reason_code : string) | CWCanceled | CWDeadlineExceeded
| CWNoRows | CWConstraint (name : string) | CWInvalid (what : string) | CWUnavailable (what : string).

(** ** Rows *)
Record connection_row := {
  cn_wallet_id : Z; cn_address : string; cn_state : ConnectionState; cn_warning_code : string;
  cn_connected_at : option Z; cn_created_at : Z; cn_updated_at : Z }.
Record credential_row := {
  kr_id : Z; kr_wallet_id : Z; kr_version : Z; kr_state : CredentialState; kr_api_key_ciphertext : string;
  kr_api_secret_ciphertext : string; kr_created_at : Z; kr_updated_at : Z }.
Record attempt_row := {
  ca_id : N; ca_wallet_id : Z; ca_address : string; ca_kind : ConnectionAttemptKind;
  ca_previous_connection_state : ConnectionState; ca_previous_connected_at : option Z; ca_nonce : string;
  ca_challenge_message : string; ca_message_digest : string; ca_state : ConnectionAttemptState;
  ca_failure_code : string; ca_expires_at : Z; ca_completed_at : option Z; ca_created_at : Z; ca_updated_at : Z }.
#[export] Instance attempt_row_eq_dec : EqDecision attempt_row.
Proof. solve_decision. Defined.
(** The wallet selections ([000011_wallet_selections.sql]). *)
Record selection_row := {
  se_owner_account_id : N; se_revision : Z; se_selected_wallet_count : Z; se_created_at : Z; se_updated_at : Z }.
Record selection_item_row := {
  sit_owner_account_id : N; sit_ordinal : Z; sit_wallet_id : Z; sit_address : string; sit_selected_at : Z }.
Record retirement_row := {
  rt_owner_account_id : N; rt_wallet_id : Z; rt_address : string; rt_prior_ordinal : Z; rt_retired_from_revision : Z;
  rt_retired_at : Z; rt_updated_at : Z }.
(** [sl_holds] lists, with the reason a removal reports, the owner and wallet of every
    execution run, cash-out, cash-out batch and isolation that holds a wallet; the
    components that write those tables change it. *)
Record selections := {
  sl_selections : list selection_row; sl_items : list selection_item_row; sl_retirements : list retirement_row;
  sl_holds : list (N * Z * string) }.
Record WDB := {
  w_connections : list connection_row; w_credentials : list credential_row; w_attempts : list attempt_row;
  w_selections : selections }.
Definition set_w_connections t db := Build_WDB t (w_credentials db) (w_attempts db) (w_selections db).
Definition set_w_credentials t db := Build_WDB (w_connections db) t (w_attempts db) (w_selections db).
Definition set_w_attempts t db := Build_WDB (w_connections db) (w_credentials db) t (w_selections db).
Abbreviation cw_tx := (tx WDB CWError).
Definition cw_on_no_rows {A} (m : cw_tx A) (e : CWError) : cw_tx A := λ s,
  match m s with Err CWNoRows => Err e | r => r end.

(** ** Constraints *)
Definition connection_check (c : connection_row) : bool :=
  (0 <? cn_wallet_id c) && text_between 32 64 (cn_address c) && text_between 0 100 (cn_warning_code c)
  && match cn_state c with
     | ConnectionStateNotConnected | ConnectionStateConnecting => is_none (cn_connected_at c)
     | _ => true end.
Definition credential_check (k : credential_row) : bool :=
  (0 <? kr_version k) && negb (bool_decide (kr_api_key_ciphertext k = EmptyString))
  && negb (bool_decide (kr_api_secret_ciphertext k = EmptyString)).
Definition attempt_active (s : ConnectionAttemptState) : bool :=
  match s with ConnectionAttemptStatePrepared | ConnectionAttemptStateCompleting => true | _ => false end.
Definition restorable (s : ConnectionState) : bool :=
  match s with ConnectionStateConnecting | ConnectionStateDisconnecting => false | _ => true end.
Definition connection_attempt_check (a : attempt_row) : bool :=
  restorable (ca_previous_connection_state a) && text_between 1 512 (ca_nonce a)
  && (1 <=? char_length (ca_challenge_message a)) && (char_length (ca_challenge_message a) <=? 1024)
  && bool_decide (String.length (ca_message_digest a) = 32%nat) && text_between 0 100 (ca_failure_code a)
  && (ca_created_at a <? ca_expires_at a)
  && (if attempt_active (ca_state a) then is_none (ca_completed_at a) else negb (is_none (ca_completed_at a))).
(** Primary key; one active attempt per wallet. *)
Definition attempt_conflict (a b : attempt_row) : bool :=
  (ca_id a =? ca_id b)%N
  || attempt_active (ca_state a) && attempt_active (ca_state b) && (ca_wallet_id a =? ca_wallet_id b).
(** Primary key; [(wallet_id, version)]; one active credential per wallet. *)
Definition credential_conflict (a b : credential_row) : bool :=
  (kr_id a =? kr_id b)
  || (kr_wallet_id a =? kr_wallet_id b)
     && ((kr_version a =? kr_version b)
         || bool_decide (kr_state a = CredentialStateActive) && bool_decide (kr_state b = CredentialStateActive)).

(** ** Connections ([connections.sql.go]) *)
Definition CreateWalletConnectionIfMissing (wallet : Z) (address : string) (now : Z) : cw_tx unit :=
  db ← tx_get;
  if existsb (λ c, cn_wallet_id c =? wallet) (w_connections db) then mret tt else
  let row := {| cn_wallet_id := wallet; cn_address := address; cn_state := ConnectionStateNotConnected;
                cn_warning_code := ""; cn_connected_at := None; cn_created_at := now; cn_updated_at := now |} in
  _ ← ensure (connection_check row) (CWConstraint "worm_wallet_connections_check");
  tx_put (set_w_connections (w_connections db ++ [row]) db).
Definition GetWalletConnectionForUpdate (wallet : Z) (db : WDB) : option connection_row :=
  sql_one (λ c, cn_wallet_id c =? wallet) (w_connections db).
Definition with_state (state : ConnectionState) (warning : string) (connected_at : option Z) (now : Z)
    (c : connection_row) : connection_row := {|
  cn_wallet_id := cn_wallet_id c; cn_address := cn_address c; cn_state := state; cn_warning_code := warning;
  cn_connected_at := connected_at; cn_created_at := cn_created_at c; cn_updated_at := now |}.
Definition UpdateWalletConnectionState (state : ConnectionState) (warning : string) (connected_at : option Z) (now : Z)
    (wallet : Z) (address : string) : cw_tx connection_row :=
  db ← tx_get;
  let p c := (cn_wallet_id c =? wallet) && bool_decide (cn_address c = address) in
  match sql_one p (w_connections db) with
  | None => tx_fail CWNoRows
  | Some old =>
      let row := with_state state warning connected_at now old in
      _ ← ensure (connection_check row) (CWConstraint "worm_wallet_connections_check");
      _ ← tx_put (set_w_connections (sql_update p (with_state state warning connected_at now) (w_connections db)) db);
      mret row
  end.

(** ** Attempts ([connection_attempts.sql.go]) *)
Definition CreateConnectionAttempt (row : attempt_row) : cw_tx attempt_row :=
  db ← tx_get;
  _ ← ensure (existsb (λ c, (cn_wallet_id c =? ca_wallet_id row) && bool_decide (cn_address c = ca_address row))
                (w_connections db)) (CWConstraint "worm_wallet_connection_attempts_connection_fk");
  t ← tx_lift (sql_insert connection_attempt_check attempt_conflict (CWConstraint "worm_wallet_connection_attempts")
                 [row] (w_attempts db));
  _ ← tx_put (set_w_attempts t db);
  mret row.
Definition sql_GetConnectionAttempt (id : N) (db : WDB) : option attempt_row :=
  sql_one (λ a, (ca_id a =? id)%N) (w_attempts db).
Definition GetConnectionAttemptForUpdate (id : N) (db : WDB) : option attempt_row :=
  sql_one (λ a, (ca_id a =? id)%N) (w_attempts db).
(** [ORDER BY created_at DESC, id LIMIT 1] of the active ones. *)
Definition newest_attempt (a b : attempt_row) : bool :=
  (ca_created_at b <? ca_created_at a) || (ca_created_at b =? ca_created_at a) && (ca_id a <=? ca_id b)%N.
Definition GetActiveConnectionAttemptForWallet (wallet : Z) (db : WDB) : option attempt_row :=
  head (sort_by newest_attempt
    (sql_many (λ a, (ca_wallet_id a =? wallet) && attempt_active (ca_state a)) (w_attempts db))).
Definition lexicographic (l : list (Z * Z)) : bool :=
  (fix go l := match l with [] => true | (x, y) :: l' => (x <? y) || (x =? y) && go l' end) l.
Definition ListExpiredConnectionAttemptWalletIDs (now limit : Z) (db : WDB) : list Z :=
  ca_wallet_id <$> take (Z.to_nat limit)
    (sort_by (λ a b, lexicographic [(ca_expires_at a, ca_expires_at b); (ca_wallet_id a, ca_wallet_id b);
                                    (Z.of_N (ca_id a), Z.of_N (ca_id b))])
       (sql_many (λ a, attempt_active (ca_state a) && (ca_expires_at a <=? now)) (w_attempts db))).
Definition ListActiveConnectionAttemptWalletIDs (limit : Z) (db : WDB) : list Z :=
  ca_wallet_id <$> take (Z.to_nat limit)
    (sort_by (λ a b, lexicographic [(ca_created_at a, ca_created_at b); (ca_wallet_id a, ca_wallet_id b);
                                    (Z.of_N (ca_id a), Z.of_N (ca_id b))])
       (sql_many (λ a, attempt_active (ca_state a)) (w_attempts db))).
Definition with_attempt_state (state : ConnectionAttemptState) (failure : string) (completed : option Z) (now : Z)
    (a : attempt_row) : attempt_row := {|
  ca_id := ca_id a; ca_wallet_id := ca_wallet_id a; ca_address := ca_address a; ca_kind := ca_kind a;
  ca_previous_connection_state := ca_previous_connection_state a;
  ca_previous_connected_at := ca_previous_connected_at a; ca_nonce := ca_nonce a;
  ca_challenge_message := ca_challenge_message a; ca_message_digest := ca_message_digest a; ca_state := state;
  ca_failure_code := failure; ca_expires_at := ca_expires_at a; ca_completed_at := completed;
  ca_created_at := ca_created_at a; ca_updated_at := now |}.
Definition update_connection_attempt (p : attempt_row → bool) (f : attempt_row → attempt_row) : cw_tx attempt_row :=
  db ← tx_get;
  match sql_one p (w_attempts db) with
  | None => tx_fail CWNoRows
  | Some old =>
      _ ← ensure (connection_attempt_check (f old)) (CWConstraint "worm_wallet_connection_attempts_check");
      _ ← tx_put (set_w_attempts (sql_update p f (w_attempts db)) db);
      mret (f old)
  end.
Definition MarkConnectionAttemptCompleting (now : Z) (id : N) : cw_tx attempt_row :=
  update_connection_attempt
    (λ a, (ca_id a =? id)%N && bool_decide (ca_state a = ConnectionAttemptStatePrepared) && (now <? ca_expires_at a))
    (λ a, with_attempt_state ConnectionAttemptStateCompleting "" (ca_completed_at a) now a).
Definition MarkConnectionAttemptTerminal (state : ConnectionAttemptState) (failure : string) (now : Z) (id : N) :
    cw_tx attempt_row :=
  update_connection_attempt
    (λ a, (ca_id a =? id)%N && attempt_active (ca_state a))
    (with_attempt_state state failure (Some now) now).

(** ** Credentials ([credentials.sql.go]) *)
Definition with_credential_state (state : CredentialState) (now : Z) (k : credential_row) : credential_row := {|
  kr_id := kr_id k; kr_wallet_id := kr_wallet_id k; kr_version := kr_version k; kr_state := state;
  kr_api_key_ciphertext := kr_api_key_ciphertext k; kr_api_secret_ciphertext := kr_api_secret_ciphertext k;
  kr_created_at := kr_created_at k; kr_updated_at := now |}.
Definition wallet_credentials (wallet : Z) (db : WDB) : list credential_row :=
  sql_many (λ k, kr_wallet_id k =? wallet) (w_credentials db).
Definition MarkActiveCredentialPendingRevocation (now wallet : Z) : cw_tx unit :=
  db ← tx_get;
  tx_put (set_w_credentials
    (sql_update (λ k, (kr_wallet_id k =? wallet) && bool_decide (kr_state k = CredentialStateActive))
       (with_credential_state CredentialStatePendingRevocation now) (w_credentials db)) db).
(** [COALESCE(MAX(version), 0) + 1]; [serial] is the next value of the sequence. *)
Definition CreateActiveCredential (serial wallet : Z) (key secret : string) (now : Z) : cw_tx credential_row :=
  db ← tx_get;
  let version := foldr Z.max 0 (kr_version <$> wallet_credentials wallet db) + 1 in
  let row := {| kr_id := serial; kr_wallet_id := wallet; kr_version := version; kr_state := CredentialStateActive;
                kr_api_key_ciphertext := key; kr_api_secret_ciphertext := secret; kr_created_at := now;
                kr_updated_at := now |} in
  _ ← ensure (bigint_in_range version) (CWConstraint "bigint out of range");
  _ ← ensure (existsb (λ c, cn_wallet_id c =? wallet) (w_connections db)) (CWConstraint "worm_wallet_credentials_wallet_id_fkey");
  t ← tx_lift (sql_insert credential_check credential_conflict (CWConstraint "worm_wallet_credentials") [row] (w_credentials db));
  _ ← tx_put (set_w_credentials t db);
  mret row.
Definition GetActiveCredentialForUpdate (wallet : Z) (db : WDB) : option credential_row :=
  sql_one (λ k, (kr_wallet_id k =? wallet) && bool_decide (kr_state k = CredentialStateActive)) (w_credentials db).
Definition GetCredentialForUpdate (id wallet : Z) (db : WDB) : option credential_row :=
  sql_one (λ k, (kr_id k =? id) && (kr_wallet_id k =? wallet)) (w_credentials db).
Definition revocation_rank (s : CredentialState) : Z :=
  match s with
  | CredentialStateActive => 0 | CredentialStateRevoking => 1 | CredentialStatePendingRevocation => 2
  | CredentialStateRevocationRequired => 3 end.
Definition GetNextCredentialForRevocation (wallet : Z) (db : WDB) : option credential_row :=
  head (sort_by (λ a b, lexicographic [(revocation_rank (kr_state a), revocation_rank (kr_state b));
                                       (kr_version b, kr_version a); (kr_id b, kr_id a)])
          (wallet_credentials wallet db)).
Definition ListCredentialsNeedingRevocation_query (retry_before limit : Z) (db : WDB) : list credential_row :=
  take (Z.to_nat limit)
    (sort_by (λ a b, lexicographic [(kr_updated_at a, kr_updated_at b); (kr_wallet_id a, kr_wallet_id b);
                                    (kr_version a, kr_version b)])
       (sql_many (λ k, existsb (λ c, (cn_wallet_id c =? kr_wallet_id k)
            && (bool_decide (kr_state k = CredentialStatePendingRevocation)
                || bool_decide (kr_state k = CredentialStateRevoking)
                   && bool_decide (cn_state c = ConnectionStateConnected) && (kr_updated_at k <=? retry_before)))
            (w_connections db)) (w_credentials db))).
Definition UpdateCredentialState (state : CredentialState) (now id wallet : Z) : cw_tx credential_row :=
  db ← tx_get;
  let p k := (kr_id k =? id) && (kr_wallet_id k =? wallet) in
  match sql_one p (w_credentials db) with
  | None => tx_fail CWNoRows
  | Some old =>
      let row := with_credential_state state now old in
      _ ← ensure (negb (bool_decide (state = CredentialStateActive)
                        && existsb (λ k, (kr_wallet_id k =? wallet) && negb (kr_id k =? id)
                                         && bool_decide (kr_state k = CredentialStateActive)) (w_credentials db)))
            (CWConstraint "worm_wallet_credentials_one_active_idx");
      _ ← tx_put (set_w_credentials (sql_update p (with_credential_state state now) (w_credentials db)) db);
      mret row
  end.
Definition DeleteCredential (id wallet : Z) : cw_tx Z :=
  db ← tx_get;
  let p k := (kr_id k =? id) && (kr_wallet_id k =? wallet) in
  _ ← tx_put (set_w_credentials (sql_delete p (w_credentials db)) db);
  mret (Z.of_nat (length (sql_many p (w_credentials db)))).
Definition CountCredentialsForWallet (wallet : Z) (db : WDB) : Z := Z.of_nat (length (wallet_credentials wallet db)).
Definition CountActiveCredentialsForWallet (wallet : Z) (db : WDB) : Z :=
  Z.of_nat (length (sql_many (λ k, bool_decide (kr_state k = CredentialStateActive)) (wallet_credentials wallet db))).
(** [cleanup_count] and [revocation_required_count]. *)
Definition GetCredentialCleanupCounts (wallet : Z) (db : WDB) : Z * Z :=
  (Z.of_nat (length (sql_many (λ k, negb (bool_decide (kr_state k = CredentialStateActive))) (wallet_credentials wallet db))),
   Z.of_nat (length (sql_many (λ k, bool_decide (kr_state k = CredentialStateRevocationRequired)) (wallet_credentials wallet db)))).

(** ** Selections ([wallet_selections.sql.go]) *)
Definition GetWalletSelectionForUpdate (owner : N) (db : WDB) : option selection_row :=
  sql_one (λ r, (se_owner_account_id r =? owner)%N) (sl_selections (w_selections db)).
Definition is_item (owner : N) (wallet : Z) (address : string) (r : selection_item_row) : bool :=
  (sit_owner_account_id r =? owner)%N && (sit_wallet_id r =? wallet) && bool_decide (sit_address r = address).
Definition is_retirement (owner : N) (wallet : Z) (address : string) (r : retirement_row) : bool :=
  (rt_owner_account_id r =? owner)%N && (rt_wallet_id r =? wallet) && bool_decide (rt_address r = address).
(** Whether there is a row; the callers use nothing else of it. *)
Definition GetWalletSelectionItem (owner : N) (wallet : Z) (address : string) (db : WDB) : bool :=
  existsb (is_item owner wallet address) (sl_items (w_selections db)).
Definition GetWalletRetirement (owner : N) (wallet : Z) (address : string) (db : WDB) : bool :=
  existsb (is_retirement owner wallet address) (sl_retirements (w_selections db)).
Definition connection_in_use (wallet : Z) (address : string) (db : WDB) : bool :=
  existsb (λ c, (cn_wallet_id c =? wallet) && bool_decide (cn_address c = address)
                && (negb (bool_decide (cn_state c = ConnectionStateNotConnected))
                    || negb (bool_decide (cn_warning_code c = EmptyString)))) (w_connections db).
Definition has_credential (wallet : Z) (db : WDB) : bool := existsb (λ k, kr_wallet_id k =? wallet) (w_credentials db).
(** [COUNT(DISTINCT wallet_id)] of the owner's retiring wallets and the selected ones in use. *)
Definition managed_wallets (owner : N) (db : WDB) : gset Z :=
  list_to_set (
    (sit_wallet_id <$> sql_many (λ r, (sit_owner_account_id r =? owner)%N
       && (connection_in_use (sit_wallet_id r) (sit_address r) db || has_credential (sit_wallet_id r) db)) (sl_items (w_selections db)))
    ++ (rt_wallet_id <$> sql_many (λ r, (rt_owner_account_id r =? owner)%N) (sl_retirements (w_selections db)))).
Definition CountManagedWalletConnections (owner : N) (db : WDB) : Z := Z.of_nat (size (managed_wallets owner db)).
Definition WalletOccupiesManagedConnectionSlot (owner : N) (wallet : Z) (address : string) (db : WDB) : bool :=
  GetWalletRetirement owner wallet address db
  || GetWalletSelectionItem owner wallet address db
     && existsb (λ c, (cn_wallet_id c =? wallet) && bool_decide (cn_address c = address)
                      && (negb (bool_decide (cn_state c = ConnectionStateNotConnected))
                          || negb (bool_decide (cn_warning_code c = EmptyString)) || has_credential wallet db)) (w_connections db).
