(* ===== verification/ConnectionStore.v ===== *)
(** * Worm wallet connections: the store operations

    [attempts.go], [connections.go], [credentials.go] and [maintenance.go] of
    [internal/wormtrading/store].  An operation is one transaction under the advisory
    lock of its wallet; where the code commits and then returns an error, the body
    returns an inner [Err].  The read of an attempt before its transaction only
    supplies fields that never change, so it is part of the body. *)

From S2P Require Import Prelude Sql CashOutTypes ConnectionTypes.
From stdpp Require Import base tactics option list list_numbers sorting strings gmap.
From Stdlib Require Import ZArith Lia Ascii.
#[local] Open Scope Z_scope.

Definition expiredChallengeWarning : string := "CHALLENGE_EXPIRED".
Definition unknownCreateOutcomeWarning : string := "CONNECT_OUTCOME_UNKNOWN".
Definition connectionServiceRestartedWarning : string := "SERVICE_RESTARTED".
Definition WarningCredentialRevocationPending : string := "CREDENTIAL_REVOCATION_PENDING".
Definition WarningCredentialRevocationRequired : string := "REVOCATION_REQUIRED".
Definition MaximumWalletSelectionItems : Z := 20.
Definition maxNonceLength : nat := 512.
Definition maxChallengeLength : nat := 1024.
Definition maxWarningCodeLength : nat := 100.
Definition maxConnectionAddressLength : nat := 64.

Record PrepareConnectionAttemptRequest := {
  pa_attempt_id : string; pa_owner_account_id : string; pa_wallet_id : Z; pa_address : string;
  pa_kind : ConnectionAttemptKind; pa_nonce : string; pa_challenge_message : string; pa_message_digest : string;
  pa_expires_at : Z; pa_now : Z }.
Record BeginConnectionAttemptCompletionRequest := {
  ba_owner_account_id : string; ba_attempt_id : string; ba_wallet_id : Z; ba_address : string; ba_now : Z }.
Record ActivateCredentialRequest := {
  ac_owner_account_id : string; ac_attempt_id : string; ac_wallet_id : Z; ac_address : string;
  ac_api_key_ciphertext : string; ac_api_secret_ciphertext : string; ac_now : Z }.
Record ConnectionAttempt := {
  cat_id : string; cat_wallet_id : Z; cat_address : string; cat_kind : ConnectionAttemptKind;
  cat_previous_connection_state : ConnectionState; cat_previous_connected_at : Z; cat_nonce : string;
  cat_challenge_message : string; cat_message_digest : string; cat_state : ConnectionAttemptState;
  cat_failure_code : string; cat_expires_at : Z; cat_completed_at : Z; cat_created_at : Z; cat_updated_at : Z }.
Record StoredCredential := {
  sc_id : Z; sc_wallet_id : Z; sc_version : Z; sc_state : CredentialState; sc_api_key_ciphertext : string;
  sc_api_secret_ciphertext : string; sc_created_at : Z; sc_updated_at : Z }.
Record WalletConnectionSnapshot := {
  ws_wallet_id : Z; ws_requested_address : string; ws_stored_address : string; ws_state : ConnectionState;
  ws_warning_code : string; ws_connected_at : Z; ws_connection_created : Z; ws_connection_updated : Z;
  ws_active_credential : option StoredCredential }.
Record WalletSelectionItem := { wsi_ordinal : Z; wsi_wallet_id : Z; wsi_address : string }.
Record WalletRetirement := {
  wre_wallet_id : Z; wre_address : string; wre_prior_ordinal : Z; wre_retired_from_revision : Z; wre_retired_at : Z }.
Record WalletSelection := {
  wsel_owner_account_id : string; wsel_configured : bool; wsel_revision : Z; wsel_selected_items : list WalletSelectionItem;
  wsel_retirements : list WalletRetirement; wsel_updated_at : Z }.

Section Store.
Context {UL : UuidLib} {SL : SolanaLib}.

(** ** Helpers ([helpers.go], [wallet_selections.go]) *)
Definition uuidParam (value : string) : result CWError N :=
  match uuid_parse (trim_space value) with
  | Some parsed => if (parsed =? 0)%N then Err (CWInvalid "attempt ID") else Ok parsed
  | None => Err (CWInvalid "attempt ID")
  end.
Definition walletSelectionOwner (value : string) : result CWError N :=
  match uuid_parse (trim_space value) with
  | Some parsed => if (parsed =? 0)%N then Err ErrInvalidWalletSelection else Ok parsed
  | None => Err ErrInvalidWalletSelection
  end.
Definition checkWalletReference (walletID : Z) (address : string) : result CWError unit :=
  _ ← require (0 <? walletID) (CWInvalid "wallet ID");
  require (negb (bool_decide (address = EmptyString)) && bool_decide (address = trim_space address)
           && bool_decide (String.length address ≤ maxConnectionAddressLength)%nat) (CWInvalid "wallet address").
Definition validateCanonicalWalletSelectionReference (walletID : Z) (address : string) : result CWError unit :=
  _ ← checkWalletReference walletID address;
  require (match public_key_from_base58 address with
           | Some publicKey => bool_decide (public_key_string publicKey = address)
           | None => false
           end) (CWInvalid "canonical address").
Definition validateWarningCode (value : string) : result CWError unit :=
  require (bool_decide (value = trim_space value) && bool_decide (String.length value ≤ maxWarningCodeLength)%nat)
    (CWInvalid "warning code").
Definition mapConnectionAttempt (row : attempt_row) : ConnectionAttempt := {|
  cat_id := uuid_string (ca_id row); cat_wallet_id := ca_wallet_id row; cat_address := ca_address row;
  cat_kind := ca_kind row; cat_previous_connection_state := ca_previous_connection_state row;
  cat_previous_connected_at := timestampValue (ca_previous_connected_at row); cat_nonce := ca_nonce row;
  cat_challenge_message := ca_challenge_message row; cat_message_digest := ca_message_digest row;
  cat_state := ca_state row; cat_failure_code := ca_failure_code row; cat_expires_at := ca_expires_at row;
  cat_completed_at := timestampValue (ca_completed_at row); cat_created_at := ca_created_at row;
  cat_updated_at := ca_updated_at row |}.
Definition mapCredential (row : credential_row) : StoredCredential := {|
  sc_id := kr_id row; sc_wallet_id := kr_wallet_id row; sc_version := kr_version row; sc_state := kr_state row;
  sc_api_key_ciphertext := kr_api_key_ciphertext row; sc_api_secret_ciphertext := kr_api_secret_ciphertext row;
  sc_created_at := kr_created_at row; sc_updated_at := kr_updated_at row |}.
Definition mapConnection (row : connection_row) : WalletConnectionSnapshot := {|
  ws_wallet_id := cn_wallet_id row; ws_requested_address := cn_address row; ws_stored_address := cn_address row;
  ws_state := cn_state row; ws_warning_code := cn_warning_code row; ws_connected_at := timestampValue (cn_connected_at row);
  ws_connection_created := cn_created_at row; ws_connection_updated := cn_updated_at row; ws_active_credential := None |}.
Definition credentialCleanupWarning (wallet : Z) (fallback : string) (db : WDB) : string :=
  let counts := GetCredentialCleanupCounts wallet db in
  if 0 <? counts.2 then WarningCredentialRevocationRequired
  else if 0 <? counts.1 then WarningCredentialRevocationPending else fallback.
(** [beginWalletTransaction] refuses an ID that is not positive. *)
Definition beginWalletTransaction (wallet : Z) : cw_tx unit := ensure (0 <? wallet) (CWInvalid "wallet ID").

(** ** Attempts *)
Definition failConnectionAttemptInTransaction (attempt : attempt_row) (failureCode : string) (now : Z) : cw_tx unit :=
  _ ← MarkConnectionAttemptTerminal ConnectionAttemptStateFailed failureCode (pg_time now) (ca_id attempt);
  db ← tx_get;
  let warningCode :=
    match ca_kind attempt with
    | ConnectionAttemptKindRegenerate => unknownCreateOutcomeWarning
    | _ => credentialCleanupWarning (ca_wallet_id attempt) failureCode db
    end in
  _ ← UpdateWalletConnectionState (ca_previous_connection_state attempt) warningCode (ca_previous_connected_at attempt)
        (pg_time now) (ca_wallet_id attempt) (ca_address attempt);
  mret tt.
(** An attempt that may have created a credential locks its wallet. *)
Definition lockOutcomeUnknown (attempt : attempt_row) (failureCode warning : string) (now : Z) : cw_tx unit :=
  _ ← MarkConnectionAttemptTerminal ConnectionAttemptStateOutcomeUnknown failureCode (pg_time now) (ca_id attempt);
  _ ← UpdateWalletConnectionState ConnectionStateReconnectRequired warning (ca_previous_connected_at attempt)
        (pg_time now) (ca_wallet_id attempt) (ca_address attempt);
  mret tt.

Definition validatePrepareConnectionAttemptRequest (req : PrepareConnectionAttemptRequest) : result CWError unit :=
  _ ← walletSelectionOwner (pa_owner_account_id req);
  _ ← checkWalletReference (pa_wallet_id req) (pa_address req);
  _ ← require (negb (bool_decide (pa_nonce req = EmptyString)) && bool_decide (pa_nonce req = trim_space (pa_nonce req))
               && bool_decide (String.length (pa_nonce req) ≤ maxNonceLength)%nat) (CWInvalid "nonce");
  _ ← require (negb (bool_decide (pa_challenge_message req = EmptyString))
               && bool_decide (String.length (pa_challenge_message req) ≤ maxChallengeLength)%nat) (CWInvalid "challenge");
  require (bool_decide (String.length (pa_message_digest req) = 32%nat)) (CWInvalid "message digest").
Definition validateConnectionAttemptKind (kind : ConnectionAttemptKind) (current : ConnectionState) (warningCode : string) :
    result CWError unit :=
  match kind with
  | ConnectionAttemptKindConnect =>
      require (bool_decide (current = ConnectionStateNotConnected)) ErrConnectionAlreadyConnected
  | ConnectionAttemptKindReconnect =>
      _ ← require (negb (bool_decide (current = ConnectionStateNotConnected))) ErrConnectionNotConnected;
      require (negb (bool_decide (current = ConnectionStateConnecting) || bool_decide (current = ConnectionStateDisconnecting)))
        ErrConnectionOperationActive
  | ConnectionAttemptKindRegenerate =>
      require (bool_decide (current = ConnectionStateReconnectRequired)
               && bool_decide (warningCode = unknownCreateOutcomeWarning)) ErrConnectionAttemptState
  end.

(** The admission of a prepare after the active attempt was dealt with; [connection]
    is the locked row as the code has updated it. *)
Definition admitConnectionAttempt (id : N) (req : PrepareConnectionAttemptRequest) (now : Z)
    (state : ConnectionState) (warning : string) (connectedAt : option Z) : cw_tx ConnectionAttempt :=
  _ ← ensure (negb (bool_decide (warning = unknownCreateOutcomeWarning)
                    && negb (bool_decide (pa_kind req = ConnectionAttemptKindRegenerate)))) ErrCredentialOutcomeUnknown;
  _ ← tx_lift (validateConnectionAttemptKind (pa_kind req) state warning);
  created ← CreateConnectionAttempt {| ca_id := id; ca_wallet_id := pa_wallet_id req; ca_address := pa_address req;
              ca_kind := pa_kind req; ca_previous_connection_state := state; ca_previous_connected_at := connectedAt;
              ca_nonce := pa_nonce req; ca_challenge_message := pa_challenge_message req;
              ca_message_digest := pa_message_digest req; ca_state := ConnectionAttemptStatePrepared;
              ca_failure_code := ""; ca_expires_at := pg_time (pa_expires_at req); ca_completed_at := None;
              ca_created_at := pg_time now; ca_updated_at := pg_time now |};
  let connectingWarningCode :=
    if bool_decide (pa_kind req = ConnectionAttemptKindRegenerate) then unknownCreateOutcomeWarning else EmptyString in
  _ ← UpdateWalletConnectionState ConnectionStateConnecting connectingWarningCode None (pg_time now)
        (pa_wallet_id req) (pa_address req);
  mret (mapConnectionAttempt created).
Definition PrepareConnectionAttempt (clock : Z) (fresh : N) (req : PrepareConnectionAttemptRequest) :
    cw_tx (result CWError ConnectionAttempt) :=
  _ ← tx_lift (validatePrepareConnectionAttemptRequest req);
  ownerUUID ← tx_lift (walletSelectionOwner (pa_owner_account_id req));
  let now := canonicalNow clock (pa_now req) in
  _ ← ensure (now <? pa_expires_at req) ErrConnectionAttemptExpired;
  attemptUUID ← tx_lift (if bool_decide (trim_space (pa_attempt_id req) = EmptyString) then Ok fresh
                         else uuidParam (trim_space (pa_attempt_id req)));
  let walletID := pa_wallet_id req in
  let address := pa_address req in
  _ ← beginWalletTransaction walletID;
  db ← tx_get;
  _ ← tx_lift (of_option (GetWalletSelectionForUpdate ownerUUID db) ErrWalletNotSelected);
  _ ← ensure (GetWalletSelectionItem ownerUUID walletID address db) ErrWalletNotSelected;
  _ ← ensure (negb ((MaximumWalletSelectionItems <=? CountManagedWalletConnections ownerUUID db)
                    && negb (WalletOccupiesManagedConnectionSlot ownerUUID walletID address db)))
        ErrWalletConnectionCapacityPending;
  _ ← CreateWalletConnectionIfMissing walletID address (pg_time now);
  db ← tx_get;
  connection ← tx_lift (of_option (GetWalletConnectionForUpdate walletID db) CWNoRows);
  _ ← ensure (bool_decide (cn_address connection = address)) ErrWalletAddressMismatch;
  match GetActiveConnectionAttemptForWallet walletID db with
  | None =>
      r ← admitConnectionAttempt attemptUUID req now (cn_state connection) (cn_warning_code connection)
            (cn_connected_at connection);
      mret (Ok r)
  | Some active =>
      _ ← ensure (negb (now <? ca_expires_at active)) ErrConnectionOperationActive;
      match ca_state active with
      | ConnectionAttemptStatePrepared =>
          _ ← failConnectionAttemptInTransaction active expiredChallengeWarning now;
          r ← admitConnectionAttempt attemptUUID req now (ca_previous_connection_state active) (cn_warning_code connection)
                (ca_previous_connected_at active);
          mret (Ok r)
      | ConnectionAttemptStateCompleting =>
          _ ← lockOutcomeUnknown active unknownCreateOutcomeWarning unknownCreateOutcomeWarning now;
          mret (Err ErrCredentialOutcomeUnknown)
      | _ => tx_fail ErrConnectionAttemptState
      end
  end.

Definition GetConnectionAttempt (attemptID : string) (db : WDB) : result CWError ConnectionAttempt :=
  attemptUUID ← uuidParam attemptID;
  row ← of_option (sql_GetConnectionAttempt attemptUUID db) ErrConnectionAttemptNotFound;
  Ok (mapConnectionAttempt row).
(** The read of the attempt, and its row locked again in the transaction. *)
Definition lockAttempt (attemptID : string) : cw_tx attempt_row :=
  attemptUUID ← tx_lift (uuidParam attemptID);
  db ← tx_get;
  attempt ← tx_lift (of_option (sql_GetConnectionAttempt attemptUUID db) ErrConnectionAttemptNotFound);
  _ ← beginWalletTransaction (ca_wallet_id attempt);
  tx_lift (of_option (GetConnectionAttemptForUpdate (ca_id attempt) db) ErrConnectionAttemptNotFound).
Definition BeginConnectionAttemptCompletion (clock : Z) (req : BeginConnectionAttemptCompletionRequest) :
    cw_tx (result CWError ConnectionAttempt) :=
  ownerUUID ← tx_lift (walletSelectionOwner (ba_owner_account_id req));
  _ ← tx_lift (validateCanonicalWalletSelectionReference (ba_wallet_id req) (ba_address req));
  let now := canonicalNow clock (ba_now req) in
  locked ← lockAttempt (ba_attempt_id req);
  _ ← ensure ((ca_wallet_id locked =? ba_wallet_id req) && bool_decide (ca_address locked = ba_address req))
        ErrWalletAddressMismatch;
  _ ← ensure (bool_decide (ca_state locked = ConnectionAttemptStatePrepared)) ErrConnectionAttemptState;
  db ← tx_get;
  _ ← ensure (GetWalletSelectionItem ownerUUID (ba_wallet_id req) (ba_address req) db) ErrWalletNotSelected;
  if now <? ca_expires_at locked then
    updated ← cw_on_no_rows (MarkConnectionAttemptCompleting (pg_time now) (ca_id locked)) ErrConnectionAttemptState;
    mret (Ok (mapConnectionAttempt updated))
  else
    _ ← failConnectionAttemptInTransaction locked expiredChallengeWarning now;
    mret (Err ErrConnectionAttemptExpired).

Definition finishConnectionAttempt (clock : Z) (attemptID : string) (unknown : bool) (failureCode : string) (at_ : Z) :
    cw_tx unit :=
  _ ← tx_lift (validateWarningCode failureCode);
  let now := canonicalNow clock at_ in
  locked ← lockAttempt attemptID;
  _ ← ensure (attempt_active (ca_state locked)) ErrConnectionAttemptState;
  if unknown then
    let connectionWarningCode :=
      match ca_kind locked with ConnectionAttemptKindRegenerate => unknownCreateOutcomeWarning | _ => failureCode end in
    lockOutcomeUnknown locked failureCode connectionWarningCode now
  else failConnectionAttemptInTransaction locked failureCode now.
Definition FailConnectionAttempt (clock : Z) (attemptID failureCode : string) (at_ : Z) : cw_tx unit :=
  finishConnectionAttempt clock attemptID false failureCode at_.
Definition MarkConnectionAttemptOutcomeUnknown (clock : Z) (attemptID warningCode : string) (at_ : Z) : cw_tx unit :=
  finishConnectionAttempt clock attemptID true warningCode at_.

(** ** Connections *)
Definition snapshot_of (walletID : Z) (address : string) (db : WDB) : result CWError WalletConnectionSnapshot :=
  let connection := sql_one (λ c, cn_wallet_id c =? walletID) (w_connections db) in
  let stored := default EmptyString (cn_address <$> connection) in
  _ ← require (bool_decide (stored = EmptyString) || bool_decide (stored = address)) ErrWalletAddressMismatch;
  let credential := connection ≫= λ _, GetActiveCredentialForUpdate walletID db in
  Ok {| ws_wallet_id := walletID; ws_requested_address := address; ws_stored_address := stored;
        ws_state := default ConnectionStateNotConnected (cn_state <$> connection);
        ws_warning_code := default EmptyString (cn_warning_code <$> connection);
        ws_connected_at := timestampValue (connection ≫= cn_connected_at);
        ws_connection_created := default 0 (cn_created_at <$> connection);
        ws_connection_updated := default 0 (cn_updated_at <$> connection);
        ws_active_credential := mapCredential <$> credential |}.
Fixpoint validate_references (refs : list (Z * string)) (seen : gset Z) : result CWError unit :=
  match refs with
  | [] => Ok tt
  | ref :: refs' =>
      _ ← checkWalletReference ref.1 ref.2;
      _ ← require (negb (bool_decide (ref.1 ∈ seen))) (CWInvalid "wallet ID is duplicated");
      validate_references refs' ({[ref.1]} ∪ seen)
  end.
Definition ListWalletConnectionSnapshots (refs : list (Z * string)) (db : WDB) : result CWError (list WalletConnectionSnapshot) :=
  _ ← validate_references refs ∅;
  mapM (λ ref, snapshot_of ref.1 ref.2 db) refs.
Definition GetWalletConnectionSnapshot (walletID : Z) (address : string) (db : WDB) : result CWError WalletConnectionSnapshot :=
  items ← ListWalletConnectionSnapshots [(walletID, address)] db;
  match items with [item] => Ok item | _ => Err ErrWalletConnectionNotFound end.

Definition MarkReconnectRequired (clock walletID : Z) (address : string) (activeCredentialID : Z) (warningCode : string) (at_ : Z) :
    cw_tx unit :=
  _ ← tx_lift (checkWalletReference walletID address);
  _ ← ensure (0 <? activeCredentialID) (CWInvalid "active credential ID");
  _ ← tx_lift (validateWarningCode warningCode);
  let now := canonicalNow clock at_ in
  _ ← beginWalletTransaction walletID;
  db ← tx_get;
  connection ← tx_lift (of_option (GetWalletConnectionForUpdate walletID db) ErrWalletConnectionNotFound);
  _ ← ensure (bool_decide (cn_address connection = address)) ErrWalletAddressMismatch;
  if negb (bool_decide (cn_state connection = ConnectionStateConnected)) then mret tt else
  match GetActiveCredentialForUpdate walletID db with
  | None => mret tt
  | Some activeCredential =>
      if negb (kr_id activeCredential =? activeCredentialID) then mret tt else
      _ ← UpdateWalletConnectionState ConnectionStateReconnectRequired (credentialCleanupWarning walletID warningCode db)
            (cn_connected_at connection) (pg_time now) walletID address;
      mret tt
  end.

(** ** Credentials *)
Definition ActivateCredential (clock serial : Z) (req : ActivateCredentialRequest) : cw_tx WalletConnectionSnapshot :=
  ownerUUID ← tx_lift (walletSelectionOwner (ac_owner_account_id req));
  _ ← tx_lift (validateCanonicalWalletSelectionReference (ac_wallet_id req) (ac_address req));
  _ ← ensure (negb (bool_decide (ac_api_key_ciphertext req = EmptyString) || bool_decide (ac_api_secret_ciphertext req = EmptyString)))
        (CWInvalid "encrypted credential");
  let now := canonicalNow clock (ac_now req) in
  locked ← lockAttempt (ac_attempt_id req);
  _ ← ensure ((ca_wallet_id locked =? ac_wallet_id req) && bool_decide (ca_address locked = ac_address req))
        ErrWalletAddressMismatch;
  _ ← ensure (bool_decide (ca_state locked = ConnectionAttemptStateCompleting)) ErrConnectionAttemptState;
  db ← tx_get;
  _ ← ensure (GetWalletSelectionItem ownerUUID (ac_wallet_id req) (ac_address req) db) ErrWalletNotSelected;
  _ ← MarkActiveCredentialPendingRevocation (pg_time now) (ca_wallet_id locked);
  createdCredential ← CreateActiveCredential serial (ca_wallet_id locked) (ac_api_key_ciphertext req)
                        (ac_api_secret_ciphertext req) (pg_time now);
  _ ← MarkConnectionAttemptTerminal ConnectionAttemptStateCompleted "" (pg_time now) (ca_id locked);
  db ← tx_get;
  updatedConnection ← UpdateWalletConnectionState ConnectionStateConnected
    (credentialCleanupWarning (ca_wallet_id locked) EmptyString db) (timestampParam now) (pg_time now)
    (ca_wallet_id locked) (ca_address locked);
  let s := mapConnection updatedConnection in
  mret {| ws_wallet_id := ws_wallet_id s; ws_requested_address := ws_requested_address s;
          ws_stored_address := ws_stored_address s; ws_state := ws_state s; ws_warning_code := ws_warning_code s;
          ws_connected_at := ws_connected_at s; ws_connection_created := ws_connection_created s;
          ws_connection_updated := ws_connection_updated s; ws_active_credential := Some (mapCredential createdCredential) |}.
Definition BeginDisconnect (clock : Z) (ownerAccountID : string) (walletID : Z) (address : string) (at_ : Z) :
    cw_tx (result CWError StoredCredential) :=
  ownerUUID ← tx_lift (walletSelectionOwner ownerAccountID);
  _ ← tx_lift (checkWalletReference walletID address);
  let now := canonicalNow clock at_ in
  _ ← beginWalletTransaction walletID;
  db ← tx_get;
  _ ← ensure (GetWalletRetirement ownerUUID walletID address db) ErrWalletNotRetiring;
  connection ← tx_lift (of_option (GetWalletConnectionForUpdate walletID db) ErrWalletConnectionNotFound);
  _ ← ensure (bool_decide (cn_address connection = address)) ErrWalletAddressMismatch;
  _ ← ensure (negb (bool_decide (cn_warning_code connection = unknownCreateOutcomeWarning))) ErrCredentialOutcomeUnknown;
  _ ← ensure (negb (bool_decide (cn_state connection = ConnectionStateConnecting))) ErrConnectionOperationActive;
  match GetNextCredentialForRevocation walletID db with
  | None =>
      _ ← UpdateWalletConnectionState ConnectionStateNotConnected "" None (pg_time now) walletID address;
      mret (Err ErrCredentialNotFound)
  | Some credential =>
      updated ← UpdateCredentialState CredentialStateRevoking (pg_time now) (kr_id credential) walletID;
      _ ← UpdateWalletConnectionState ConnectionStateDisconnecting "" (cn_connected_at connection) (pg_time now) walletID address;
      mret (Ok (mapCredential updated))
  end.
Definition BeginCredentialRevocation (clock walletID credentialID at_ : Z) : cw_tx StoredCredential :=
  _ ← ensure ((0 <? walletID) && (0 <? credentialID)) (CWInvalid "wallet ID and credential ID");
  let now := canonicalNow clock at_ in
  _ ← beginWalletTransaction walletID;
  db ← tx_get;
  credential ← tx_lift (of_option (GetCredentialForUpdate credentialID walletID db) ErrCredentialNotFound);
  _ ← ensure (bool_decide (kr_state credential = CredentialStatePendingRevocation)
              || bool_decide (kr_state credential = CredentialStateRevoking)) ErrConnectionAttemptState;
  updated ← UpdateCredentialState CredentialStateRevoking (pg_time now) credentialID walletID;
  mret (mapCredential updated).
Definition ListCredentialsNeedingRevocation (clock retryBefore limit : Z) (db : WDB) : list StoredCredential :=
  let limit := if limit <=? 0 then 100 else limit in
  let limit := if 1000 <? limit then 1000 else limit in
  mapCredential <$> ListCredentialsNeedingRevocation_query (pg_time (canonicalNow clock retryBefore)) limit db.
Definition MarkCredentialRevoked (clock walletID credentialID at_ : Z) : cw_tx unit :=
  _ ← ensure ((0 <? walletID) && (0 <? credentialID)) (CWInvalid "wallet ID and credential ID");
  let now := canonicalNow clock at_ in
  _ ← beginWalletTransaction walletID;
  db ← tx_get;
  connection ← tx_lift (of_option (GetWalletConnectionForUpdate walletID db) ErrWalletConnectionNotFound);
  _ ← tx_lift (of_option (GetCredentialForUpdate credentialID walletID db) ErrCredentialNotFound);
  deleted ← DeleteCredential credentialID walletID;
  _ ← ensure (deleted =? 1) ErrCredentialNotFound;
  db ← tx_get;
  if CountCredentialsForWallet walletID db =? 0 then
    _ ← (if bool_decide (cn_state connection = ConnectionStateDisconnecting)
         then UpdateWalletConnectionState ConnectionStateNotConnected "" None (pg_time now) walletID (cn_address connection)
         else UpdateWalletConnectionState ConnectionStateReconnectRequired (cn_warning_code connection)
                (cn_connected_at connection) (pg_time now) walletID (cn_address connection));
    mret tt
  else if bool_decide (cn_state connection = ConnectionStateDisconnecting) then mret tt
  else if (0 <? CountActiveCredentialsForWallet walletID db)
          && (bool_decide (cn_state connection = ConnectionStateConnected)
              || bool_decide (cn_state connection = ConnectionStateRevocationRequired)) then
    _ ← UpdateWalletConnectionState ConnectionStateConnected (credentialCleanupWarning walletID EmptyString db)
          (cn_connected_at connection) (pg_time now) walletID (cn_address connection);
    mret tt
  else mret tt.
Definition MarkCredentialRevocationFailed (clock walletID credentialID : Z) (connectionState : ConnectionState)
    (credentialState : CredentialState) (warningCode : string) (at_ : Z) : cw_tx unit :=
  _ ← ensure ((0 <? walletID) && (0 <? credentialID)) (CWInvalid "wallet ID and credential ID");
  _ ← ensure (bool_decide (connectionState = ConnectionStateConnected) || bool_decide (connectionState = ConnectionStateDisconnecting)
              || bool_decide (connectionState = ConnectionStateRevocationRequired)) (CWInvalid "revocation failure connection state");
  _ ← ensure (bool_decide (credentialState = CredentialStatePendingRevocation)
              || bool_decide (credentialState = CredentialStateRevocationRequired)) (CWInvalid "revocation failure credential state");
  _ ← tx_lift (validateWarningCode warningCode);
  let now := canonicalNow clock at_ in
  _ ← beginWalletTransaction walletID;
  db ← tx_get;
  connection ← tx_lift (of_option (GetWalletConnectionForUpdate walletID db) ErrWalletConnectionNotFound);
  _ ← cw_on_no_rows (UpdateCredentialState credentialState (pg_time now) credentialID walletID) ErrCredentialNotFound;
  if bool_decide (connectionState = ConnectionStateConnected)
     && negb (bool_decide (cn_state connection = ConnectionStateConnected)) then mret tt else
  db ← tx_get;
  let warningCode := if bool_decide (connectionState = ConnectionStateConnected)
                     then credentialCleanupWarning walletID warningCode db else warningCode in
  _ ← UpdateWalletConnectionState connectionState warningCode (cn_connected_at connection) (pg_time now) walletID
        (cn_address connection);
  mret tt.

(** ** Maintenance *)
Definition connectionAttemptMaintenanceLimit (limit : Z) : Z :=
  if limit <=? 0 then 100 else if 1000 <? limit then 1000 else limit.
Definition recoverConnectionAttemptForWallet (walletID now : Z) (expiredOnly : bool) : cw_tx bool :=
  _ ← beginWalletTransaction walletID;
  db ← tx_get;
  match GetActiveConnectionAttemptForWallet walletID db with
  | None => mret false
  | Some attempt =>
      if expiredOnly && (now <? ca_expires_at attempt) then mret false else
      match ca_state attempt with
      | ConnectionAttemptStatePrepared =>
          _ ← failConnectionAttemptInTransaction attempt
                (if expiredOnly then expiredChallengeWarning else connectionServiceRestartedWarning) now;
          mret true
      | ConnectionAttemptStateCompleting =>
          _ ← lockOutcomeUnknown attempt unknownCreateOutcomeWarning unknownCreateOutcomeWarning now;
          mret true
      | _ => tx_fail (CWInvalid "active connection attempt")
      end
  end.
(** The loops commit wallet by wallet and stop at the first error. *)
Fixpoint recover_wallets (walletIDs : list Z) (now : Z) (expiredOnly : bool) (db : WDB) : WDB * result CWError unit :=
  match walletIDs with
  | [] => (db, Ok tt)
  | walletID :: rest =>
      match run_tx (recoverConnectionAttemptForWallet walletID now expiredOnly) db with
      | (db', Ok _) => recover_wallets rest now expiredOnly db'
      | (db', Err e) => (db', Err e)
      end
  end.
Definition RecoverConnectionAttempts (clock at_ limit : Z) (db : WDB) : WDB * result CWError Z :=
  let walletIDs := ListActiveConnectionAttemptWalletIDs (connectionAttemptMaintenanceLimit limit) db in
  match recover_wallets walletIDs (canonicalNow clock at_) false db with
  | (db', Ok _) => (db', Ok (Z.of_nat (length walletIDs)))
  | (db', Err e) => (db', Err e)
  end.
Definition ExpireConnectionAttempts (clock at_ limit : Z) (db : WDB) : WDB * result CWError unit :=
  let now := canonicalNow clock at_ in
  recover_wallets (ListExpiredConnectionAttemptWalletIDs (pg_time now) (connectionAttemptMaintenanceLimit limit) db) now true db.
End Store.
