(* ===== verification/ConnectionInv.v ===== *)
(** * Worm wallet connections: the invariant

    [tables] is what the constraints keep, [older] how attempts evolve; both hold
    statement by statement ([keeps]).  [link] relates the connection of a wallet to
    its active attempt, and holds operation by operation. *)

From S2P Require Import Prelude Sql CashOutTypes ConnectionTypes ConnectionStore.
From stdpp Require Import base tactics option list list_numbers sorting strings gmap.
From Stdlib Require Import ZArith Lia Ascii.
#[local] Open Scope Z_scope.

Definition conn (db : WDB) (w : Z) (c : connection_row) : Prop := c ∈ w_connections db ∧ cn_wallet_id c = w.
Definition act (db : WDB) (w : Z) (a : attempt_row) : Prop :=
  a ∈ w_attempts db ∧ ca_wallet_id a = w ∧ attempt_active (ca_state a) = true.

Record tables (db : WDB) : Prop := {
  tb_connections : NoDup (cn_wallet_id <$> w_connections db);
  tb_attempts : NoDup (ca_id <$> w_attempts db);
  tb_active : ∀ w a b, act db w a → act db w b → a = b;
  tb_checked : ∀ a, a ∈ w_attempts db → connection_attempt_check a = true;
  tb_reference : ∀ a, a ∈ w_attempts db → ∃ c, conn db (ca_wallet_id a) c ∧ cn_address c = ca_address a;
  tb_credentials : NoDup (kr_id <$> w_credentials db);
  tb_one_active : ∀ k k', k ∈ w_credentials db → k' ∈ w_credentials db → kr_wallet_id k = kr_wallet_id k' →
    kr_state k = CredentialStateActive → kr_state k' = CredentialStateActive → k = k';
  tb_conn_checked : ∀ c, c ∈ w_connections db → connection_check c = true }.

(** PREPARED before COMPLETING before one of the terminal states. *)
Definition attempt_le (s s' : ConnectionAttemptState) : Prop :=
  s = s' ∨ attempt_active s = true ∧ s' ≠ ConnectionAttemptStatePrepared.
Definition same_attempt (a a' : attempt_row) : Prop :=
  ca_id a' = ca_id a ∧ ca_wallet_id a' = ca_wallet_id a ∧ ca_address a' = ca_address a ∧ ca_kind a' = ca_kind a
  ∧ ca_previous_connection_state a' = ca_previous_connection_state a ∧ ca_nonce a' = ca_nonce a
  ∧ ca_challenge_message a' = ca_challenge_message a ∧ ca_message_digest a' = ca_message_digest a
  ∧ ca_expires_at a' = ca_expires_at a.
Definition older (db db' : WDB) : Prop :=
  ∀ a, a ∈ w_attempts db → ∃ a', a' ∈ w_attempts db' ∧ same_attempt a a' ∧ attempt_le (ca_state a) (ca_state a')
    ∧ (attempt_active (ca_state a) = false → a' = a).
Lemma attempt_stays a (l : list attempt_row) :
  a ∈ l → ∃ a', a' ∈ l ∧ same_attempt a a' ∧ attempt_le (ca_state a) (ca_state a')
    ∧ (attempt_active (ca_state a) = false → a' = a).
Proof. intros Ha. exists a. split; [done|]. split; [by unfold same_attempt|]. split; [by left|done]. Qed.
#[export] Instance older_refl : Reflexive older.
Proof. intros db a Ha. by apply attempt_stays. Qed.
#[export] Instance older_trans : Transitive older.
Proof.
  intros d1 d2 d3 H12 H23 a Ha. destruct (H12 a Ha) as (b & Hb & Hs & Hle & Hf). destruct (H23 b Hb) as (c & Hc & Hs' & Hle' & Hf').
  exists c. split; [done|]. split; [unfold same_attempt in *; intuition congruence|]. split.
  - destruct Hle as [->|[Ha1 Hb1]]; [done|]. destruct Hle' as [<-|[_ Hc1]]; right; done.
  - intros Hna. specialize (Hf Hna) as ->. auto.
Qed.

(** ** Statements *)
Definition keeps {A} (m : cw_tx A) : Prop := ∀ db db' a, m db = Ok (db', a) → tables db → tables db' ∧ older db db'.
Lemma keeps_tx_bind {A B} (m : cw_tx A) (k : A → cw_tx B) : keeps m → (∀ a, keeps (k a)) → keeps (m ≫= k).
Proof.
  intros Hm Hk db db' b H Ht. apply tx_bind_ok in H as (d & a & H1 & H2).
  destruct (Hm _ _ _ H1 Ht) as [Ht1 Ho1]. destruct (Hk _ _ _ _ H2 Ht1) as [Ht2 Ho2]. split; [done|]. by etrans.
Qed.
Lemma keeps_pure {A} (m : cw_tx A) : (∀ db db' a, m db = Ok (db', a) → db' = db) → keeps m.
Proof. intros Hm db db' a H Ht. rewrite (Hm _ _ _ H). by split. Qed.
Lemma keeps_ret {A} (a : A) : keeps (mret a).
Proof. apply keeps_pure. intros db db' b H. by injection H as <- _. Qed.
Lemma keeps_get : keeps tx_get.
Proof. apply keeps_pure. intros db db' b H. by injection H as <- _. Qed.
Lemma keeps_fail {A} e : keeps (tx_fail e : cw_tx A).
Proof. by apply keeps_pure. Qed.
Lemma keeps_lift {A} (r : result CWError A) : keeps (tx_lift r).
Proof. apply keeps_pure. intros db db' a [-> _]%tx_lift_ok. done. Qed.
Lemma keeps_ensure b e : keeps (ensure b e).
Proof. apply keeps_lift. Qed.
Lemma keeps_on_no_rows {A} (m : cw_tx A) e : keeps m → keeps (cw_on_no_rows m e).
Proof.
  intros Hm db db' a H. apply (Hm db db' a). unfold cw_on_no_rows in H. destruct (m db) as [|[]]; done.
Qed.

Lemma act_same db db' w a : w_attempts db' = w_attempts db → act db' w a ↔ act db w a.
Proof. unfold act. by intros ->. Qed.
Lemma older_same db db' : w_attempts db' = w_attempts db → older db db'.
Proof. intros H a Ha. apply attempt_stays. by rewrite H. Qed.

(** The connection of a wallet is rewritten, and nothing else. *)
Lemma update_connection_ok st warning at_ now w address db db' row :
  tables db → UpdateWalletConnectionState st warning at_ now w address db = Ok (db', row) →
  ∃ old, conn db w old ∧ cn_address old = address ∧ row = with_state st warning at_ now old
    ∧ (∀ c, c ∈ w_connections db' ↔ c = row ∨ c ∈ w_connections db ∧ cn_wallet_id c ≠ w)
    ∧ w_attempts db' = w_attempts db ∧ w_credentials db' = w_credentials db ∧ w_selections db' = w_selections db
    ∧ cn_wallet_id <$> w_connections db' = cn_wallet_id <$> w_connections db ∧ connection_check row = true.
Proof.
  intros Ht H. unfold UpdateWalletConnectionState in H. tx_inv. destruct (sql_one _ _) as [old|] eqn:Hone; [|done]. tx_inv.
  destruct (sql_one_Some _ _ _ Hone) as [Hin Hp]. bool_prop. exists old. split_and!; try done.
  - intros c. cbn. rewrite (sql_update_one cn_wallet_id _ _ _ old); [|apply Ht|done|apply andb_true_iff; split; [by apply Z.eqb_eq|by apply bool_decide_eq_true]|].
    + subst w. done.
    + intros r' Hr. bool_prop. congruence.
  - cbn. by apply sql_update_key.
Qed.
Lemma keeps_update_connection st warning at_ now w address : keeps (UpdateWalletConnectionState st warning at_ now w address).
Proof.
  intros db db' row H Ht. destruct (update_connection_ok _ _ _ _ _ _ _ _ _ Ht H) as (old & [Hin Hw] & Ha & -> & Hc & Hat & Hk & _ & Hkey & Hck).
  split; [|by apply older_same]. destruct Ht as [H1 H2 H3 H4 H5 H6 H7 H8]. constructor; rewrite ?Hat, ?Hk; try done.
  - by rewrite Hkey.
  - intros w' a b Ha1%(act_same db) Hb1%(act_same db); [|done..]. eauto.
  - intros a Ha1. destruct (H5 a Ha1) as (c & [Hc1 Hcw] & Hca). destruct (Z.eq_dec (ca_wallet_id a) w) as [Heq|Hne].
    + exists (with_state st warning at_ now old). split; [split; [apply Hc; by left|cbn; congruence]|]. cbn.
      rewrite <- Hca. f_equal. apply (NoDup_key_inj cn_wallet_id (w_connections db)); congruence.
    + exists c. split; [|done]. split; [|done]. apply Hc. right. split; [done|]. congruence.
  - intros c [->|[Hin' _]]%Hc; auto.
Qed.
Lemma create_missing_ok w address now db db' u :
  CreateWalletConnectionIfMissing w address now db = Ok (db', u) →
  w_attempts db' = w_attempts db ∧ w_credentials db' = w_credentials db ∧ w_selections db' = w_selections db
  ∧ (w_connections db' = w_connections db ∧ (∃ c, conn db w c)
     ∨ (∀ c, ¬ conn db w c) ∧ 0 < w ∧ text_between 32 64 address = true ∧ w_connections db' = w_connections db ++ [{| cn_wallet_id := w; cn_address := address;
          cn_state := ConnectionStateNotConnected; cn_warning_code := ""; cn_connected_at := None;
          cn_created_at := now; cn_updated_at := now |}]).
Proof.
  unfold CreateWalletConnectionIfMissing. intros H. apply tx_bind_ok in H as (d & db0 & [-> ->]%tx_get_ok & H).
  destruct (existsb _ _) eqn:He; [injection H as <- _|].
  { apply existsb_elem in He as (c & Hc & Hw). bool_prop. split_and!; [done..|left]. split; [done|]. by exists c. }
  apply tx_bind_ok in H as (d1 & [] & [-> Hck]%ensure_ok & H). injection H as <- _. unfold connection_check in Hck. cbn in *. bool_prop.
  split_and!; [done..|right]. split; [|done].
  intros c [Hc Hw]. rewrite existsb_elem_false in He. specialize (He c Hc). bool_prop. congruence.
Qed.
Lemma keeps_create_missing w address now : keeps (CreateWalletConnectionIfMissing w address now).
Proof.
  intros db db' u H Ht. apply create_missing_ok in H as (Hat & Hk & _ & Hc). split; [|by apply older_same].
  destruct Ht as [H1 H2 H3 H4 H5 H6 H7 H8]. constructor; rewrite ?Hat, ?Hk; try done.
  - destruct Hc as [[-> _]|(Hno & _ & _ & ->)]; [done|]. rewrite fmap_app. apply NoDup_app. split_and!; [done| |apply NoDup_singleton].
    intros x (c & -> & Hin)%list_elem_of_fmap Hx%list_elem_of_singleton. by apply (Hno c).
  - intros w' a b Ha1%(act_same db) Hb1%(act_same db); [|done..]. eauto.
  - intros a Ha. destruct (H5 a Ha) as (c & [Hin Hw] & Haddr). exists c. split; [|done]. split; [|done].
    destruct Hc as [[-> _]|(_ & _ & _ & ->)]; [done|]. apply elem_of_app. by left.
  - destruct Hc as [[-> _]|(_ & Hw & Hat' & ->)]; [done|]. intros c [Hc| ->%list_elem_of_singleton]%elem_of_app; [auto|].
    unfold connection_check. cbn. rewrite Hat', (proj2 (Z.ltb_lt 0 w)) by done. done.
Qed.

(** One attempt is rewritten. *)
Lemma update_connection_attempt_ok p f id db db' row :
  tables db → (∀ a, p a = true → ca_id a = id) → (∀ a, ca_id (f a) = ca_id a) →
  update_connection_attempt p f db = Ok (db', row) →
  ∃ a, a ∈ w_attempts db ∧ p a = true ∧ row = f a ∧ connection_attempt_check row = true
    ∧ (∀ x, x ∈ w_attempts db' ↔ x = row ∨ x ∈ w_attempts db ∧ ca_id x ≠ id)
    ∧ w_connections db' = w_connections db ∧ w_credentials db' = w_credentials db ∧ w_selections db' = w_selections db
    ∧ ca_id <$> w_attempts db' = ca_id <$> w_attempts db.
Proof.
  intros Ht Hp Hf H. unfold update_connection_attempt in H. tx_inv. destruct (sql_one _ _) as [a|] eqn:Hone; [|done]. tx_inv.
  destruct (sql_one_Some _ _ _ Hone) as [Hin Hpa]. exists a. split_and!; try done; [|cbn; by apply sql_update_key].
  intros x. cbn. rewrite (sql_update_one ca_id _ _ _ a); [|apply Ht|done..|].
  - by rewrite (Hp a Hpa).
  - intros r' Hr. by rewrite (Hp r' Hr), (Hp a Hpa).
Qed.
Definition changes_state (a row : attempt_row) (s : ConnectionAttemptState) : Prop :=
  same_attempt a row ∧ ca_previous_connected_at row = ca_previous_connected_at a ∧ ca_state row = s.
Definition rewrites_attempt (db db' : WDB) (a row : attempt_row) : Prop :=
  a ∈ w_attempts db ∧ (∀ x, x ∈ w_attempts db' ↔ x = row ∨ x ∈ w_attempts db ∧ ca_id x ≠ ca_id a)
  ∧ w_connections db' = w_connections db ∧ w_credentials db' = w_credentials db ∧ w_selections db' = w_selections db.
Lemma terminal_ok st failure now id db db' row :
  tables db → MarkConnectionAttemptTerminal st failure now id db = Ok (db', row) →
  ∃ a, ca_id a = id ∧ act db (ca_wallet_id a) a ∧ rewrites_attempt db db' a row ∧ changes_state a row st
    ∧ connection_attempt_check row = true ∧ ca_id <$> w_attempts db' = ca_id <$> w_attempts db.
Proof.
  intros Ht H. unfold MarkConnectionAttemptTerminal in H.
  eapply (update_connection_attempt_ok _ _ id) in H as (a & Hin & Hp & -> & Hck & Hx & Hc & Hk & Hs & Hid); [|done| |done].
  2:{ intros b Hb. apply andb_true_iff in Hb as [Hb _]. by apply N.eqb_eq. }
  apply andb_true_iff in Hp as [Hp%N.eqb_eq Ha]. exists a. split; [done|]. split; [done|]. split; [split_and!; try done; by rewrite Hp|].
  split; [|done]. by unfold changes_state, same_attempt.
Qed.
Lemma completing_ok now id db db' row :
  tables db → MarkConnectionAttemptCompleting now id db = Ok (db', row) →
  ∃ a, ca_id a = id ∧ ca_state a = ConnectionAttemptStatePrepared ∧ rewrites_attempt db db' a row
    ∧ changes_state a row ConnectionAttemptStateCompleting ∧ connection_attempt_check row = true
    ∧ ca_id <$> w_attempts db' = ca_id <$> w_attempts db.
Proof.
  intros Ht H. unfold MarkConnectionAttemptCompleting in H.
  eapply (update_connection_attempt_ok _ _ id) in H as (a & Hin & Hp & -> & Hck & Hx & Hc & Hk & Hs & Hid); [|done| |done].
  2:{ intros b Hb. apply andb_true_iff in Hb as [Hb _]. apply andb_true_iff in Hb as [Hb _]. by apply N.eqb_eq. }
  apply andb_true_iff in Hp as [Hp _]. apply andb_true_iff in Hp as [Hp%N.eqb_eq Ha%bool_decide_eq_true].
  exists a. split; [done|]. split; [done|]. split; [split_and!; try done; by rewrite Hp|].
  split; [|done]. by unfold changes_state, same_attempt.
Qed.
(** Rewriting an active attempt to a later state. *)
Lemma rewrite_keeps db db' a row s :
  tables db → attempt_active (ca_state a) = true → s ≠ ConnectionAttemptStatePrepared →
  rewrites_attempt db db' a row → changes_state a row s → connection_attempt_check row = true →
  ca_id <$> w_attempts db' = ca_id <$> w_attempts db → tables db' ∧ older db db'.
Proof.
  intros Ht Hact Hs (Hin & Hx & Hc & Hk & _) ((Hid & Hw & Haddr & Hrest) & _ & Hst) Hck Hids.
  assert (∀ w b, act db' w b → b = row ∧ w = ca_wallet_id a ∨ act db w b ∧ b ≠ a) as Hactive.
  { intros w b (Hb & Hbw & Hba). apply Hx in Hb as [->|[Hb Hne]]; [left; split; [done|congruence]|right]. split; [done|]. by intros ->. }
  destruct Ht as [H1 H2 H3 H4 H5 H6 H7 H8]. split.
  - constructor; rewrite ?Hc, ?Hk, ?Hids; try done.
    + intros w b b' Hb Hb'. destruct (Hactive w b Hb) as [[-> ->]|[Hb1 Hn1]], (Hactive _ b' Hb') as [[-> Hw2]|[Hb2 Hn2]]; try done; [..|by eapply H3].
      * destruct Hn2. by apply (H3 (ca_wallet_id a)).
      * subst w. destruct Hn1. by apply (H3 (ca_wallet_id a)).
    + intros b [->|[Hb _]]%Hx; auto.
    + intros b [->|[Hb _]]%Hx; [|unfold conn; rewrite Hc; apply H5; done]. destruct (H5 a Hin) as (c & Hcc & Hca).
      exists c. unfold conn in *. rewrite Hc, Hw, Haddr. done.
  - intros b Hb. destruct (decide (ca_id b = ca_id a)) as [Heq|Hne].
    + assert (b = a) as -> by (by apply (NoDup_key_inj ca_id (w_attempts db))). exists row. split; [apply Hx; by left|].
      split; [by unfold same_attempt|]. split; [|congruence]. right. split; [done|congruence].
    + apply attempt_stays. apply Hx. by right.
Qed.
Lemma keeps_terminal st failure now id : attempt_active st = false → keeps (MarkConnectionAttemptTerminal st failure now id).
Proof.
  intros Hst db db' row H Ht. destruct (terminal_ok _ _ _ _ _ _ _ Ht H) as (a & _ & Ha & Hr & Hc & Hck & Hid).
  eapply rewrite_keeps; eauto; [apply Ha|]. by intros ->.
Qed.
Lemma keeps_completing now id : keeps (MarkConnectionAttemptCompleting now id).
Proof.
  intros db db' row H Ht. destruct (completing_ok _ _ _ _ _ Ht H) as (a & _ & Ha & Hr & Hc & Hck & Hid).
  eapply rewrite_keeps; eauto; [by rewrite Ha|done].
Qed.
Lemma create_attempt_ok row db db' r :
  CreateConnectionAttempt row db = Ok (db', r) →
  r = row ∧ db' = set_w_attempts (w_attempts db ++ [row]) db ∧ connection_attempt_check row = true
  ∧ (∃ c, conn db (ca_wallet_id row) c ∧ cn_address c = ca_address row)
  ∧ (∀ a, a ∈ w_attempts db → attempt_conflict row a = false).
Proof.
  unfold CreateConnectionAttempt. intros H. tx_inv. destruct (sql_insert _ _ _ _ _) as [t|] eqn:Hi; [|done]. tx_inv.
  match goal with He : existsb _ _ = true |- _ => apply existsb_elem in He as (c & Hc & Hp) end. bool_prop. cbn [sql_insert] in Hi.
  destruct (connection_attempt_check row && _) eqn:Hck; [|done]. injection Hi as <-. apply andb_true_iff in Hck as [Hck Hno].
  apply negb_true_iff in Hno. rewrite existsb_elem_false in Hno.
  simplify_eq. split; [done|]. split; [done|]. split; [done|]. split; [|done]. exists c. by unfold conn.
Qed.
Lemma keeps_create_attempt row : keeps (CreateConnectionAttempt row).
Proof.
  intros db db' r H Ht. apply create_attempt_ok in H as (_ & -> & Hck & (c & Hc & Hca) & Hno).
  destruct Ht as [H1 H2 H3 H4 H5 H6 H7 H8]. split.
  - constructor; cbn; try done.
    + rewrite fmap_app. apply NoDup_app. split_and!; [done| |apply NoDup_singleton].
      intros x (a & -> & Hin)%list_elem_of_fmap Hx%list_elem_of_singleton. specialize (Hno a Hin). unfold attempt_conflict in Hno.
      cbn in Hx. rewrite Hx, N.eqb_refl in Hno. done.
    + assert (∀ w a, act (set_w_attempts (w_attempts db ++ [row]) db) w a → act db w a ∨ a = row ∧ ca_wallet_id row = w
                ∧ attempt_active (ca_state row) = true) as Hact.
      { intros w a (Hin & Hw & Ha). cbn in Hin. apply elem_of_app in Hin as [Hin| ->%list_elem_of_singleton]; [by left|by right]. }
      assert (∀ w a, act db w a → ca_wallet_id row = w → attempt_active (ca_state row) = true → False) as Hex.
      { intros w a (Hin & Hw & Ha) Hw' Ha'. specialize (Hno a Hin). unfold attempt_conflict in Hno. rewrite Ha, Ha' in Hno.
        cbn in Hno. bool_prop. congruence. }
      intros w a b [Ha|(-> & Hw & Hr)]%Hact [Hb|(-> & Hw' & Hr')]%Hact; eauto; exfalso; eauto.
    + intros a [Ha| ->%list_elem_of_singleton]%elem_of_app; auto.
    + intros a [Ha| ->%list_elem_of_singleton]%elem_of_app; [by apply H5|]. by exists c.
  - intros a Ha. apply attempt_stays. cbn. apply elem_of_app. by left.
Qed.

(** *** Credentials *)
Lemma keeps_credentials (f : list credential_row → list credential_row) db db' :
  db' = set_w_credentials (f (w_credentials db)) db → tables db →
  NoDup (kr_id <$> f (w_credentials db)) →
  (∀ k k', k ∈ f (w_credentials db) → k' ∈ f (w_credentials db) → kr_wallet_id k = kr_wallet_id k' →
     kr_state k = CredentialStateActive → kr_state k' = CredentialStateActive → k = k') →
  tables db' ∧ older db db'.
Proof. intros -> Ht Hn Ha. destruct Ht. split; [by constructor|by apply older_same]. Qed.
Lemma credential_state_key s now k : kr_id (with_credential_state s now k) = kr_id k.
Proof. done. Qed.
Lemma keeps_pending now w : keeps (MarkActiveCredentialPendingRevocation now w).
Proof.
  intros db db' [] H Ht. unfold MarkActiveCredentialPendingRevocation in H. tx_inv.
  eapply (keeps_credentials (sql_update _ _)); [done|done|by rewrite sql_update_key; [apply Ht|]|].
  intros k k' (r & Hr & ->)%elem_of_sql_update (r' & Hr' & ->)%elem_of_sql_update.
  repeat case_match; cbn; try done. by apply Ht.
Qed.
Lemma create_credential_ok serial w key secret now db db' row :
  CreateActiveCredential serial w key secret now db = Ok (db', row) →
  db' = set_w_credentials (w_credentials db ++ [row]) db ∧ kr_wallet_id row = w ∧ kr_state row = CredentialStateActive
  ∧ kr_id row = serial ∧ kr_api_key_ciphertext row = key ∧ kr_api_secret_ciphertext row = secret
  ∧ ∀ k, k ∈ w_credentials db → credential_conflict row k = false.
Proof.
  unfold CreateActiveCredential. intros H. cbv zeta in H. tx_inv. destruct (sql_insert _ _ _ _ _) as [t|] eqn:Hi; [|done]. tx_inv.
  cbn [sql_insert] in Hi. destruct (credential_check _ && _) eqn:Hck; [|done]. injection Hi as <-.
  apply andb_true_iff in Hck as [Hck Hno]. apply negb_true_iff in Hno. rewrite existsb_elem_false in Hno. simplify_eq. done.
Qed.
Lemma keeps_create_credential serial w key secret now : keeps (CreateActiveCredential serial w key secret now).
Proof.
  intros db db' row H Ht. apply create_credential_ok in H as (-> & Hw & Hs & Hid & _ & _ & Hno).
  eapply (keeps_credentials (λ l, l ++ [row])); [done|done|..].
  - rewrite fmap_app. apply NoDup_app. split_and!; [apply Ht| |apply NoDup_singleton].
    intros x (k & -> & Hin)%list_elem_of_fmap Hx%list_elem_of_singleton. specialize (Hno k Hin). unfold credential_conflict in Hno.
    rewrite Hx, Z.eqb_refl in Hno. done.
  - assert (∀ k, k ∈ w_credentials db → kr_wallet_id k = kr_wallet_id row → kr_state k = CredentialStateActive → False) as Hex.
    { intros k Hk Hkw Hks. specialize (Hno k Hk). unfold credential_conflict in Hno. rewrite Hkw, Z.eqb_refl, Hs, Hks in Hno.
      rewrite !bool_decide_eq_true_2, !orb_true_r in Hno by done. done. }
    intros k k' [Hk| ->%list_elem_of_singleton]%elem_of_app [Hk'| ->%list_elem_of_singleton]%elem_of_app ???; try done.
    + by apply Ht.
    + exfalso. eauto.
    + exfalso. eauto.
Qed.
Lemma update_credential_ok st now id w db db' row :
  tables db → UpdateCredentialState st now id w db = Ok (db', row) →
  ∃ k, k ∈ w_credentials db ∧ kr_id k = id ∧ kr_wallet_id k = w ∧ row = with_credential_state st now k
    ∧ (∀ x, x ∈ w_credentials db' ↔ x = row ∨ x ∈ w_credentials db ∧ kr_id x ≠ id)
    ∧ w_connections db' = w_connections db ∧ w_attempts db' = w_attempts db ∧ w_selections db' = w_selections db
    ∧ kr_id <$> w_credentials db' = kr_id <$> w_credentials db
    ∧ (st = CredentialStateActive → ∀ x, x ∈ w_credentials db → kr_wallet_id x = w → kr_id x ≠ id → kr_state x ≠ CredentialStateActive).
Proof.
  intros Ht H. unfold UpdateCredentialState in H. cbv zeta in H. apply tx_bind_ok in H as (d & d0 & [-> ->]%tx_get_ok & H).
  destruct (sql_one _ _) as [k|] eqn:Hone; [|done]. tx_inv. destruct (sql_one_Some _ _ _ Hone) as [Hin Hp]. bool_prop.
  exists k. split; [done|]. split; [done|]. split; [done|]. split; [done|]. split; [|split; [done|split; [done|split; [done|split]]]].
  - intros x. cbn. rewrite (sql_update_one kr_id _ _ _ k); [by subst|apply Ht|done|by apply andb_true_iff; rewrite !Z.eqb_eq|].
    intros r' Hr. bool_prop. congruence.
  - cbn. by apply sql_update_key.
  - intros -> x Hx Hxw Hxi Hxs.
    destruct H as [H|H]; [done|]. rewrite existsb_elem_false in H. specialize (H x Hx).
    rewrite (proj2 (Z.eqb_eq _ _) Hxw), (proj2 (Z.eqb_neq _ _) Hxi), bool_decide_eq_true_2 in H by done. done.
Qed.
Lemma keeps_update_credential st now id w : keeps (UpdateCredentialState st now id w).
Proof.
  intros db db' row H Ht. destruct (update_credential_ok _ _ _ _ _ _ _ Ht H) as (k & Hin & Hid & Hw & -> & Hx & Hc & Ha & _ & Hkey & Hone).
  split; [|by apply older_same]. destruct Ht as [H1 H2 H3 H4 H5 H6 H7 H8]. constructor; rewrite ?Hc, ?Ha, ?Hkey; try done.
  - intros v a b Ha1%(act_same db) Hb1%(act_same db); [|done..]. eauto.
  - intros a Ha1. unfold conn. rewrite Hc. by apply H5.
  - intros x y [->|[Hx1 Hn1]]%Hx [->|[Hy1 Hn2]]%Hx; cbn; intros ???; try done; [| |by apply H7]; exfalso.
    + eapply (Hone ltac:(done) y); eauto. congruence.
    + eapply (Hone ltac:(done) x); eauto. congruence.
Qed.
Lemma sql_delete_NoDup {R K} (k : R → K) p (t : list R) : NoDup (k <$> t) → NoDup (k <$> sql_delete p t).
Proof. intros Hn. eapply sublist_NoDup; [exact Hn|]. apply (fmap_sublist k), sublist_filter. Qed.
Lemma keeps_delete_credential id w : keeps (DeleteCredential id w).
Proof.
  intros db db' n H Ht. unfold DeleteCredential in H. cbv zeta in H. tx_inv.
  eapply (keeps_credentials (sql_delete _)); [done|done|..].
  - apply sql_delete_NoDup. apply Ht.
  - intros k k' [_ Hk]%elem_of_sql_delete [_ Hk']%elem_of_sql_delete. by apply Ht.
Qed.

(** ** Operations

    Every operation keeps the tables and lets attempts only advance, whatever its
    arguments. *)
Create HintDb connections.
#[export] Hint Resolve keeps_ret keeps_get keeps_fail keeps_lift keeps_ensure keeps_update_connection keeps_create_missing
  keeps_completing keeps_create_attempt keeps_pending keeps_create_credential keeps_update_credential
  keeps_delete_credential : connections.
Ltac keeping :=
  repeat lazymatch goal with
  | |- keeps (_ ≫= _) => apply keeps_tx_bind; [|intros ?]
  | |- keeps (cw_on_no_rows _ _) => apply keeps_on_no_rows
  | |- keeps (if ?b then _ else _) => destruct b
  | |- keeps (match ?x with _ => _ end) => destruct x
  | |- keeps (MarkConnectionAttemptTerminal _ _ _ _) => apply keeps_terminal; reflexivity
  | |- keeps _ => solve [eauto 2 with connections]
  end.

Section Operations.
Context {UL : UuidLib} {SL : SolanaLib}.
Lemma keeps_failInTransaction a code now : keeps (failConnectionAttemptInTransaction a code now).
Proof. unfold failConnectionAttemptInTransaction. keeping. Qed.
Lemma keeps_lockOutcomeUnknown a code warning now : keeps (lockOutcomeUnknown a code warning now).
Proof. unfold lockOutcomeUnknown. keeping. Qed.
#[local] Hint Resolve keeps_failInTransaction keeps_lockOutcomeUnknown : connections.
Lemma keeps_Prepare clock fresh req : keeps (PrepareConnectionAttempt clock fresh req).
Proof. unfold PrepareConnectionAttempt, admitConnectionAttempt, beginWalletTransaction. cbv zeta. keeping. Qed.
Lemma keeps_lockAttempt id : keeps (lockAttempt id).
Proof. unfold lockAttempt, beginWalletTransaction. keeping. Qed.
#[local] Hint Resolve keeps_lockAttempt : connections.
Lemma keeps_Begin clock req : keeps (BeginConnectionAttemptCompletion clock req).
Proof. unfold BeginConnectionAttemptCompletion. cbv zeta. keeping. Qed.
Lemma keeps_finish clock id unknown code at_ : keeps (finishConnectionAttempt clock id unknown code at_).
Proof. unfold finishConnectionAttempt. cbv zeta. keeping. Qed.
Lemma keeps_MarkReconnectRequired clock w address k code at_ : keeps (MarkReconnectRequired clock w address k code at_).
Proof. unfold MarkReconnectRequired, beginWalletTransaction. cbv zeta. keeping. Qed.
Lemma keeps_Activate clock serial req : keeps (ActivateCredential clock serial req).
Proof. unfold ActivateCredential. cbv zeta. keeping. Qed.
Lemma keeps_BeginDisconnect clock owner w address at_ : keeps (BeginDisconnect clock owner w address at_).
Proof. unfold BeginDisconnect, beginWalletTransaction. cbv zeta. keeping. Qed.
Lemma keeps_BeginRevocation clock w k at_ : keeps (BeginCredentialRevocation clock w k at_).
Proof. unfold BeginCredentialRevocation, beginWalletTransaction. cbv zeta. keeping. Qed.
Lemma keeps_Revoked clock w k at_ : keeps (MarkCredentialRevoked clock w k at_).
Proof. unfold MarkCredentialRevoked, beginWalletTransaction. cbv zeta. keeping. Qed.
Lemma keeps_RevocationFailed clock w k st ks code at_ : keeps (MarkCredentialRevocationFailed clock w k st ks code at_).
Proof. unfold MarkCredentialRevocationFailed, beginWalletTransaction. cbv zeta. keeping. Qed.
Lemma keeps_recover w now expiredOnly : keeps (recoverConnectionAttemptForWallet w now expiredOnly).
Proof. unfold recoverConnectionAttemptForWallet, beginWalletTransaction. keeping. Qed.
End Operations.
