(* ===== verification/ConnectionLink.v ===== *)
(** * Worm wallet connections: connection and attempt of a wallet

    What an operation sees of one wallet is its [view].  [linked] relates the
    connection of a wallet to its active attempt; every operation changes the view
    of one wallet and keeps it linked. *)

From S2P Require Import Prelude Sql CashOutTypes ConnectionTypes ConnectionStore ConnectionInv.
From stdpp Require Import base tactics option list list_numbers sorting strings gmap.
From Stdlib Require Import ZArith Lia Ascii.
#[local] Open Scope Z_scope.

(** ** Views *)
Record wview := { v_conn : option connection_row; v_act : option attempt_row; v_cred : bool }.
Definition view (db : WDB) (w : Z) : wview := {|
  v_conn := GetWalletConnectionForUpdate w db; v_act := GetActiveConnectionAttemptForWallet w db;
  v_cred := has_credential w db |}.

Lemma view_conn db w c : tables db → v_conn (view db w) = Some c ↔ conn db w c.
Proof.
  intros Ht. cbn. unfold GetWalletConnectionForUpdate. split.
  - intros [Hin Hp]%sql_one_Some. bool_prop. done.
  - intros [Hin Hw]. destruct (sql_one_is_Some (λ c, cn_wallet_id c =? w) _ c Hin) as [c' Hc']; [by apply Z.eqb_eq|].
    rewrite Hc'. f_equal. apply sql_one_Some in Hc' as [Hin' Hp]. bool_prop.
    apply (NoDup_key_inj cn_wallet_id (w_connections db)); [apply Ht|done|done|congruence].
Qed.
Lemma view_act db w a : tables db → v_act (view db w) = Some a ↔ act db w a.
Proof.
  intros Ht. cbn. unfold GetActiveConnectionAttemptForWallet.
  assert (∀ b, b ∈ sort_by newest_attempt (sql_many (λ a, (ca_wallet_id a =? w) && attempt_active (ca_state a)) (w_attempts db))
    ↔ act db w b) as Hiff.
  { intros b. rewrite sort_by_elem, elem_of_sql_many, andb_true_iff, Z.eqb_eq. unfold act. tauto. }
  split.
  - intros Hh%head_Some_elem_of. by apply Hiff.
  - intros Ha. apply Hiff in Ha as Hin. destruct (sort_by _ _) as [|b l] eqn:E; [by apply not_elem_of_nil in Hin|].
    cbn. f_equal. apply (tb_active _ Ht w); [|done]. apply Hiff. by left.
Qed.
Lemma view_cred db w : v_cred (view db w) = true ↔ ∃ k, k ∈ w_credentials db ∧ kr_wallet_id k = w.
Proof. cbn. unfold has_credential. rewrite existsb_elem. by setoid_rewrite Z.eqb_eq. Qed.
#[global] Arguments view : simpl never.
Lemma view_ext db w v :
  tables db → (∀ c, conn db w c ↔ v_conn v = Some c) → (∀ a, act db w a ↔ v_act v = Some a) →
  ((∃ k, k ∈ w_credentials db ∧ kr_wallet_id k = w) ↔ v_cred v = true) → view db w = v.
Proof.
  intros Ht Hc Ha Hk. destruct v as [c a k]. cbn [v_conn v_act v_cred] in *.
  assert (∀ A (o o' : option A), (∀ x, o = Some x ↔ o' = Some x) → o = o') as Hopt by (intros A o o'; apply option_eq).
  rewrite <- (Hopt _ (v_conn (view db w)) c), <- (Hopt _ (v_act (view db w)) a); [..|intros x; by rewrite view_act|intros x; by rewrite view_conn].
  assert (v_cred (view db w) = k) as <- by (apply eq_true_iff_eq; by rewrite view_cred). done.
Qed.

(** [moves db db' w v]: one wallet gets the view [v], the others keep theirs. *)
Definition moves (db db' : WDB) (w : Z) (v : wview) : Prop :=
  tables db' ∧ older db db' ∧ view db' w = v ∧ ∀ u, u ≠ w → view db' u = view db u.
Lemma moves_trans db1 db2 db3 w v2 v3 : moves db1 db2 w v2 → moves db2 db3 w v3 → moves db1 db3 w v3.
Proof.
  intros (_ & Ho & _ & Hu) (Ht & Ho' & Hv & Hu'). split; [done|]. split; [by etrans|]. split; [done|].
  intros u Hne. rewrite Hu', Hu; done.
Qed.
Lemma moves_refl db w : tables db → moves db db w (view db w).
Proof. by intros Ht. Qed.

(** *** Statements *)
Lemma same_view db db' u :
  tables db → tables db' → (∀ c, conn db' u c ↔ conn db u c) → (∀ a, act db' u a ↔ act db u a) →
  ((∃ k, k ∈ w_credentials db' ∧ kr_wallet_id k = u) ↔ (∃ k, k ∈ w_credentials db ∧ kr_wallet_id k = u)) →
  view db' u = view db u.
Proof.
  intros Ht Ht' Hc Ha Hk. apply view_ext; [done|intros c; by rewrite view_conn|intros a; by rewrite view_act|by rewrite view_cred].
Qed.
Lemma view_update_connection st warning at_ now w address db db' row :
  tables db → UpdateWalletConnectionState st warning at_ now w address db = Ok (db', row) →
  ∃ c, v_conn (view db w) = Some c ∧ cn_address c = address ∧ row = with_state st warning at_ now c
    ∧ moves db db' w {| v_conn := Some row; v_act := v_act (view db w); v_cred := v_cred (view db w) |}.
Proof.
  intros Ht H. destruct (keeps_update_connection _ _ _ _ _ _ _ _ _ H Ht) as [Ht' Ho].
  destruct (update_connection_ok _ _ _ _ _ _ _ _ _ Ht H) as (c & Hc & Ha & Hrow & Hx & Hat & Hk & _ & _ & _).
  exists c. split; [by apply view_conn|]. split; [done|]. split; [done|]. split; [done|]. split; [done|]. split.
  - apply view_ext; [done|..]; cbn [v_conn v_act v_cred].
    + intros d. unfold conn. rewrite Hx. destruct Hc as [_ Hc]. split; [|intros [= ->]; split; [by left|by subst]].
      intros [[->|[_ Hne]] Hd]; done.
    + intros a. rewrite view_act by done. by apply act_same.
    + rewrite Hk. by rewrite view_cred.
  - intros u Hu. apply same_view; [done|done| |intros a; by apply act_same|by rewrite Hk].
    intros d. unfold conn. rewrite Hx. destruct Hc as [_ Hc]. split.
    + intros [[->|[Hd _]] Hdu]; [|done]. subst row. cbn in Hdu. congruence.
    + intros [Hd Hdu]. split; [|done]. right. split; [done|congruence].
Qed.
Lemma view_create_missing w address now db db' u :
  tables db → CreateWalletConnectionIfMissing w address now db = Ok (db', u) →
  ∃ c, moves db db' w {| v_conn := Some c; v_act := v_act (view db w); v_cred := v_cred (view db w) |}
    ∧ (v_conn (view db w) = Some c
       ∨ v_conn (view db w) = None ∧ cn_state c = ConnectionStateNotConnected ∧ cn_warning_code c = EmptyString
         ∧ cn_connected_at c = None)
    ∧ w_selections db' = w_selections db.
Proof.
  intros Ht H. destruct (keeps_create_missing _ _ _ _ _ _ H Ht) as [Ht' Ho].
  apply create_missing_ok in H as (Hat & Hk & Hs & [[Hc [c Hcc]]|(Hno & _ & _ & Hc)]).
  - assert (∀ u, view db' u = view db u) as Hv.
    { intros v. apply same_view; [done|done|intros d; unfold conn; by rewrite Hc|intros a; by apply act_same|by rewrite Hk]. }
    exists c. apply view_conn in Hcc as Hcv; [|done]. split; [|auto]. split; [done|]. split; [done|]. split; [|auto].
    rewrite Hv. destruct (view db w). cbn in *. by subst.
  - match type of Hc with _ = _ ++ [?r] => exists r end. split; [|split; [right; split; [|done]|done]].
    2:{ destruct (v_conn (view db w)) as [c|] eqn:E; [|done]. apply view_conn in E; [|done]. by destruct (Hno c). }
    split; [done|]. split; [done|]. split.
    + apply view_ext; [done|..]; cbn [v_conn v_act v_cred].
      * intros d. unfold conn. rewrite Hc. split.
        -- intros [[Hd| ->%list_elem_of_singleton]%elem_of_app Hdw]; [|done]. by destruct (Hno d).
        -- intros [= <-]. split; [|done]. apply elem_of_app. right. by apply list_elem_of_singleton.
      * intros a. rewrite view_act by done. by apply act_same.
      * rewrite Hk. by rewrite view_cred.
    + intros v Hv. apply same_view; [done|done| |intros a; by apply act_same|by rewrite Hk].
      intros d. unfold conn. rewrite Hc. split; [|intros [Hd Hdw]; split; [apply elem_of_app; by left|done]].
      intros [[Hd| ->%list_elem_of_singleton]%elem_of_app Hdw]; [done|]. cbn in Hdw. congruence.
Qed.
(** Rewriting the attempt [a] of a wallet. *)
Lemma view_rewrite db db' a row s :
  tables db → tables db' → older db db' → act db (ca_wallet_id a) a → rewrites_attempt db db' a row → changes_state a row s →
  moves db db' (ca_wallet_id a) {| v_conn := v_conn (view db (ca_wallet_id a));
    v_act := if attempt_active s then Some row else None; v_cred := v_cred (view db (ca_wallet_id a)) |}.
Proof.
  intros Ht Ht' Ho Ha (Hin & Hx & Hc & Hk & _) ((Hid & Hw & _) & _ & Hst). split; [done|]. split; [done|]. split.
  - apply view_ext; [done|..]; cbn [v_conn v_act v_cred].
    + intros c. rewrite view_conn by done. unfold conn. by rewrite Hc.
    + intros b. unfold act. rewrite Hx. split.
      * intros ([->|[Hb Hne]] & Hbw & Hba); [by rewrite <- Hst, Hba|]. destruct Hne. f_equal. by apply (tb_active _ Ht (ca_wallet_id a)).
      * intros Hb. destruct (attempt_active s) eqn:E; [|done]. injection Hb as <-. split; [by left|]. split; [done|congruence].
    + rewrite Hk. by rewrite view_cred.
  - intros u Hu. apply same_view; [done|done|intros c; unfold conn; by rewrite Hc| |by rewrite Hk].
    intros b. unfold act. rewrite Hx. split.
    + intros ([->|[Hb _]] & Hbw & Hba); [congruence|done].
    + intros (Hb & Hbw & Hba). split; [|done]. right. split; [done|]. intros Heq.
      assert (b = a) as -> by (by apply (NoDup_key_inj ca_id (w_attempts db)); [apply Ht|..]). done.
Qed.
Lemma view_terminal st failure now id db db' row :
  attempt_active st = false → tables db → MarkConnectionAttemptTerminal st failure now id db = Ok (db', row) →
  ∃ a, ca_id a = id ∧ v_act (view db (ca_wallet_id a)) = Some a ∧ changes_state a row st ∧ row ∈ w_attempts db'
    ∧ moves db db' (ca_wallet_id a) {| v_conn := v_conn (view db (ca_wallet_id a)); v_act := None;
        v_cred := v_cred (view db (ca_wallet_id a)) |} ∧ w_credentials db' = w_credentials db.
Proof.
  intros Hst Ht H. destruct (keeps_terminal _ _ _ _ Hst _ _ _ H Ht) as [Ht' Ho].
  destruct (terminal_ok _ _ _ _ _ _ _ Ht H) as (a & Hid & Ha & Hr & Hc & _). exists a. split; [done|]. split; [by apply view_act|].
  split; [done|]. split; [apply Hr; by left|]. split; [|apply Hr]. pose proof (view_rewrite _ _ _ _ _ Ht Ht' Ho Ha Hr Hc) as Hm. by rewrite Hst in Hm.
Qed.
Lemma view_completing now id db db' row :
  tables db → MarkConnectionAttemptCompleting now id db = Ok (db', row) →
  ∃ a, ca_id a = id ∧ v_act (view db (ca_wallet_id a)) = Some a ∧ ca_state a = ConnectionAttemptStatePrepared
    ∧ changes_state a row ConnectionAttemptStateCompleting ∧ row ∈ w_attempts db'
    ∧ moves db db' (ca_wallet_id a) {| v_conn := v_conn (view db (ca_wallet_id a)); v_act := Some row;
        v_cred := v_cred (view db (ca_wallet_id a)) |}.
Proof.
  intros Ht H. destruct (keeps_completing _ _ _ _ _ H Ht) as [Ht' Ho].
  destruct (completing_ok _ _ _ _ _ Ht H) as (a & Hid & Hp & Hr & Hc & _).
  assert (act db (ca_wallet_id a) a) as Ha by (split; [apply Hr|split; [done|by rewrite Hp]]).
  exists a. split; [done|]. split; [by apply view_act|]. split; [done|]. split; [done|]. split; [apply Hr; by left|].
  exact (view_rewrite _ _ _ _ _ Ht Ht' Ho Ha Hr Hc).
Qed.
Lemma view_create_attempt row db db' r :
  attempt_active (ca_state row) = true → tables db → CreateConnectionAttempt row db = Ok (db', r) →
  r = row ∧ v_act (view db (ca_wallet_id row)) = None ∧ row ∈ w_attempts db'
  ∧ moves db db' (ca_wallet_id row) {| v_conn := v_conn (view db (ca_wallet_id row)); v_act := Some row;
      v_cred := v_cred (view db (ca_wallet_id row)) |}.
Proof.
  intros Hrow Ht H. destruct (keeps_create_attempt _ _ _ _ H Ht) as [Ht' Ho].
  apply create_attempt_ok in H as (-> & -> & _ & _ & Hno).
  assert (∀ b, ¬ act db (ca_wallet_id row) b) as Hnone.
  { intros b (Hb & Hbw & Hba). specialize (Hno b Hb). unfold attempt_conflict in Hno. rewrite Hrow, Hba, Hbw, Z.eqb_refl, orb_true_r in Hno. done. }
  split; [done|]. split; [|split; [cbn; apply elem_of_app; right; by apply list_elem_of_singleton|split; [done|split; [done|split]]]].
  - destruct (v_act _) as [b|] eqn:E; [|done]. apply view_act in E; [|done]. by destruct (Hnone b).
  - apply view_ext; [done|..]; cbn [v_conn v_act v_cred].
    + intros c. by rewrite view_conn.
    + intros b. unfold act. cbn. split.
      * intros ([Hb| ->%list_elem_of_singleton]%elem_of_app & Hbw & Hba); [|done]. by destruct (Hnone b).
      * intros [= <-]. split; [|done]. apply elem_of_app. right. by apply list_elem_of_singleton.
    + by rewrite view_cred.
  - intros u Hu. apply same_view; [done|done|done| |done]. intros b. unfold act. cbn. split.
    + intros ([Hb| ->%list_elem_of_singleton]%elem_of_app & Hbw & Hba); done.
    + intros (Hb & ?). split; [|done]. apply elem_of_app. by left.
Qed.
(** Credential statements only change whether there is one. *)
Lemma view_credentials db db' :
  tables db → tables db' → w_connections db' = w_connections db → w_attempts db' = w_attempts db → ∀ w,
  (∀ u, u ≠ w → (∃ k, k ∈ w_credentials db' ∧ kr_wallet_id k = u) ↔ (∃ k, k ∈ w_credentials db ∧ kr_wallet_id k = u)) →
  moves db db' w {| v_conn := v_conn (view db w); v_act := v_act (view db w); v_cred := has_credential w db' |}.
Proof.
  intros Ht Ht' Hc Ha w Hk. split; [done|]. split; [by apply older_same|]. split.
  - apply view_ext; [done|..]; cbn [v_conn v_act v_cred].
    + intros c. rewrite view_conn by done. unfold conn. by rewrite Hc.
    + intros a. rewrite view_act by done. by apply act_same.
    + by rewrite <- (view_cred db' w).
  - intros u Hu. apply same_view; [done|done|intros c; unfold conn; by rewrite Hc|intros a; by apply act_same|by apply Hk].
Qed.
Lemma view_credentials_same db db' w :
  tables db → tables db' → w_connections db' = w_connections db → w_attempts db' = w_attempts db →
  (∀ u, (∃ k, k ∈ w_credentials db' ∧ kr_wallet_id k = u) ↔ (∃ k, k ∈ w_credentials db ∧ kr_wallet_id k = u)) →
  moves db db' w (view db w).
Proof.
  intros Ht Ht' Hc Ha Hk. pose proof (view_credentials db db' Ht Ht' Hc Ha w (λ u _, Hk u)) as Hm.
  replace (has_credential w db') with (v_cred (view db w)) in Hm; [exact Hm|]. apply eq_true_iff_eq.
  change (has_credential w db') with (v_cred (view db' w)). rewrite !view_cred. symmetry. apply Hk.
Qed.
Lemma view_pending now w db db' u :
  tables db → MarkActiveCredentialPendingRevocation now w db = Ok (db', u) →
  moves db db' w (view db w) ∧ w_attempts db' = w_attempts db.
Proof.
  intros Ht H. destruct (keeps_pending _ _ _ _ _ H Ht) as [Ht' _]. unfold MarkActiveCredentialPendingRevocation in H. tx_inv.
  split; [|done]. apply view_credentials_same; [done|done|done|done|]. intros v. cbn. setoid_rewrite elem_of_sql_update. split.
  - intros (k & (r & Hr & ->) & Hw). exists r. split; [done|]. by destruct (_ && _).
  - intros (r & Hr & Hw). eexists. split; [by exists r|]. by destruct (_ && _).
Qed.
Lemma view_create_credential serial w key secret now db db' row :
  tables db → CreateActiveCredential serial w key secret now db = Ok (db', row) →
  moves db db' w {| v_conn := v_conn (view db w); v_act := v_act (view db w); v_cred := true |}
  ∧ w_attempts db' = w_attempts db ∧ row ∈ w_credentials db' ∧ kr_wallet_id row = w ∧ kr_state row = CredentialStateActive
  ∧ kr_api_key_ciphertext row = key ∧ kr_api_secret_ciphertext row = secret.
Proof.
  intros Ht H. destruct (keeps_create_credential _ _ _ _ _ _ _ _ H Ht) as [Ht' _].
  apply create_credential_ok in H as (-> & Hw & Hs & Hid & Hkey & Hsec & Hno).
  split; [|split; [done|split; [cbn; apply elem_of_app; right; by apply list_elem_of_singleton|done]]].
  pose proof (view_credentials db _ Ht Ht' eq_refl eq_refl w) as Hm.
  replace (has_credential w _) with true in Hm; [apply Hm|].
  - intros u Hu. cbn. setoid_rewrite elem_of_app. setoid_rewrite list_elem_of_singleton. split; [|by intros (k & ? & ?); eauto].
    intros (k & [Hk| ->] & Hku); [eauto|congruence].
  - symmetry. apply existsb_elem. exists row. split; [cbn; apply elem_of_app; right; by apply list_elem_of_singleton|by apply Z.eqb_eq].
Qed.
Lemma view_update_credential st now id w db db' row :
  tables db → UpdateCredentialState st now id w db = Ok (db', row) →
  v_cred (view db w) = true ∧ moves db db' w (view db w).
Proof.
  intros Ht H. destruct (keeps_update_credential _ _ _ _ _ _ _ H Ht) as [Ht' _].
  destruct (update_credential_ok _ _ _ _ _ _ _ Ht H) as (k & Hin & Hid & Hw & Hrow & Hx & Hc & Ha & _ & _ & _).
  assert (v_cred (view db w) = true) as Hcred by (apply view_cred; eauto). split; [done|].
  apply view_credentials_same; [done|done|done|done|]. intros u. setoid_rewrite Hx. split.
  - intros (x & [->|[Hxi _]] & Hxw); [exists k; split; [done|]; subst row; exact Hxw|eauto].
  - intros (x & Hxi & Hxw). destruct (decide (kr_id x = id)) as [Heq|Hne]; [|eauto].
    assert (x = k) as -> by (apply (NoDup_key_inj kr_id (w_credentials db)); [apply Ht|done..|congruence]).
    exists row. split; [by left|by subst row].
Qed.
Lemma count_credentials w db : CountCredentialsForWallet w db = 0 ↔ has_credential w db = false.
Proof.
  unfold CountCredentialsForWallet, has_credential, wallet_credentials. rewrite existsb_elem_false. split.
  - intros H r Hr. destruct (kr_wallet_id r =? w) eqn:E; [|done].
    assert (r ∈ sql_many (λ k, kr_wallet_id k =? w) (w_credentials db)) as Hin by (by apply elem_of_sql_many).
    destruct (sql_many _ _); [by apply not_elem_of_nil in Hin|cbn in H; lia].
  - intros H. destruct (sql_many _ _) as [|r l] eqn:E; [done|].
    assert (r ∈ sql_many (λ k, kr_wallet_id k =? w) (w_credentials db)) as [Hp Hin]%elem_of_sql_many by (rewrite E; by left).
    rewrite H in Hp; done.
Qed.
Lemma view_delete_credential id w db db' n :
  tables db → DeleteCredential id w db = Ok (db', n) →
  moves db db' w {| v_conn := v_conn (view db w); v_act := v_act (view db w); v_cred := has_credential w db' |}
  ∧ w_connections db' = w_connections db ∧ w_attempts db' = w_attempts db.
Proof.
  intros Ht H. destruct (keeps_delete_credential _ _ _ _ _ H Ht) as [Ht' _]. unfold DeleteCredential in H. cbv zeta in H. tx_inv.
  split; [|done]. apply view_credentials; [done|done|done|done|]. intros u Hu. cbn. setoid_rewrite elem_of_sql_delete. split.
  - intros (k & [_ Hk] & Hkw). eauto.
  - intros (k & Hk & Hkw). exists k. split; [|done]. split; [|done]. apply andb_false_iff. right. apply Z.eqb_neq. congruence.
Qed.

(** ** The life of a wallet connection *)
Definition unknown_warning (c : connection_row) : Prop := cn_warning_code c = unknownCreateOutcomeWarning.
(** What happens to a wallet that has a connection. *)
Inductive vsettle : wview → wview → Prop :=
| vs_begin oc a a' k :
    ca_state a = ConnectionAttemptStatePrepared → changes_state a a' ConnectionAttemptStateCompleting →
    vsettle {| v_conn := oc; v_act := Some a; v_cred := k |} {| v_conn := oc; v_act := Some a'; v_cred := k |}
| vs_fail c a k warning now :
    (unknownCreateOutcomeWarning = warning ↔ ca_kind a = ConnectionAttemptKindRegenerate) →
    vsettle {| v_conn := Some c; v_act := Some a; v_cred := k |}
      {| v_conn := Some (with_state (ca_previous_connection_state a) warning (ca_previous_connected_at a) now c);
         v_act := None; v_cred := k |}
| vs_unknown c a k now :
    vsettle {| v_conn := Some c; v_act := Some a; v_cred := k |}
      {| v_conn := Some (with_state ConnectionStateReconnectRequired unknownCreateOutcomeWarning (ca_previous_connected_at a) now c);
         v_act := None; v_cred := k |}
| vs_reconnect c oa k warning now :
    cn_state c = ConnectionStateConnected →
    vsettle {| v_conn := Some c; v_act := oa; v_cred := k |}
      {| v_conn := Some (with_state ConnectionStateReconnectRequired warning (cn_connected_at c) now c); v_act := oa; v_cred := k |}
| vs_last_revoked c oa now :
    vsettle {| v_conn := Some c; v_act := oa; v_cred := true |}
      {| v_conn := Some (if bool_decide (cn_state c = ConnectionStateDisconnecting)
           then with_state ConnectionStateNotConnected "" None now c
           else with_state ConnectionStateReconnectRequired (cn_warning_code c) (cn_connected_at c) now c);
         v_act := oa; v_cred := false |}
| vs_connected c oa k warning now :
    cn_state c = ConnectionStateConnected ∨ cn_state c = ConnectionStateRevocationRequired → warning ≠ unknownCreateOutcomeWarning →
    vsettle {| v_conn := Some c; v_act := oa; v_cred := k |}
      {| v_conn := Some (with_state ConnectionStateConnected warning (cn_connected_at c) now c); v_act := oa; v_cred := k |}
| vs_revocation_failed c oa k st warning now :
    cn_state c = ConnectionStateDisconnecting ∨ cn_state c = ConnectionStateRevocationRequired →
    st = ConnectionStateDisconnecting ∨ st = ConnectionStateRevocationRequired → warning ≠ unknownCreateOutcomeWarning →
    vsettle {| v_conn := Some c; v_act := oa; v_cred := k |}
      {| v_conn := Some (with_state st warning (cn_connected_at c) now c); v_act := oa; v_cred := k |}.
(** [BeginDisconnect]: there is nothing left to revoke, or the revocation starts. *)
Inductive vdisconnect : wview → wview → Prop :=
| vs_disconnect c oa k now :
    ¬ unknown_warning c → cn_state c ≠ ConnectionStateConnecting →
    vdisconnect {| v_conn := Some c; v_act := oa; v_cred := k |}
      {| v_conn := Some (if k then with_state ConnectionStateDisconnecting "" (cn_connected_at c) now c
                         else with_state ConnectionStateNotConnected "" None now c); v_act := oa; v_cred := k |}.
(** [PrepareConnectionAttempt] also creates the connection and the attempt. *)
Inductive vadmit : wview → wview → Prop :=
| vs_create c k :
    cn_state c = ConnectionStateNotConnected → cn_warning_code c = EmptyString → cn_connected_at c = None →
    vadmit {| v_conn := None; v_act := None; v_cred := k |} {| v_conn := Some c; v_act := None; v_cred := k |}
| vs_prepare c a k now :
    (unknown_warning c → ca_kind a = ConnectionAttemptKindRegenerate) →
    validateConnectionAttemptKind (ca_kind a) (cn_state c) (cn_warning_code c) = Ok tt →
    (cn_state c = ConnectionStateNotConnected → cn_connected_at c = None) →
    ca_state a = ConnectionAttemptStatePrepared → ca_previous_connection_state a = cn_state c →
    ca_previous_connected_at a = cn_connected_at c →
    vadmit {| v_conn := Some c; v_act := None; v_cred := k |}
      {| v_conn := Some (with_state ConnectionStateConnecting
           (if bool_decide (ca_kind a = ConnectionAttemptKindRegenerate) then unknownCreateOutcomeWarning else EmptyString)
           None now c); v_act := Some a; v_cred := k |}
| vs_settle v v' : vsettle v v' → vadmit v v'.
Inductive vstep : wview → wview → Prop :=
| vs_admits v v' : vadmit v v' → vstep v v'
| vs_disconnects v v' : vdisconnect v v' → vstep v v'.

(** The activation of the credential an attempt created. *)
Inductive vactivate : wview → wview → Prop :=
| va_activate c a k warning at_ now :
    ca_state a = ConnectionAttemptStateCompleting → warning ≠ unknownCreateOutcomeWarning →
    vactivate {| v_conn := Some c; v_act := Some a; v_cred := k |}
      {| v_conn := Some (with_state ConnectionStateConnected warning at_ now c); v_act := None; v_cred := true |}.

Record linked (v : wview) : Prop := {
  lk_connecting : ∀ c, v_conn v = Some c → cn_state c = ConnectionStateConnecting → is_Some (v_act v);
  lk_active : ∀ c, v_conn v = Some c → is_Some (v_act v) →
    cn_state c = ConnectionStateConnecting
    ∨ v_cred v = false ∧ (cn_state c = ConnectionStateReconnectRequired ∨ cn_state c = ConnectionStateNotConnected);
  lk_regenerate : ∀ c a, v_conn v = Some c → v_act v = Some a →
    (ca_kind a = ConnectionAttemptKindRegenerate ↔ unknown_warning c);
  lk_unknown : ∀ c, v_conn v = Some c → unknown_warning c →
    cn_state c = ConnectionStateReconnectRequired ∨ cn_state c = ConnectionStateConnecting;
  lk_previous : ∀ a, v_act v = Some a →
    (ca_kind a = ConnectionAttemptKindRegenerate → ca_previous_connection_state a = ConnectionStateReconnectRequired)
    ∧ (ca_previous_connection_state a = ConnectionStateNotConnected → ca_previous_connected_at a = None)
    ∧ restorable (ca_previous_connection_state a) = true;
  lk_referenced : is_Some (v_act v) → is_Some (v_conn v) }.
(** The wallet is locked: a credential may exist that the store does not know. *)
Definition locked (v : wview) : Prop := ∃ c, v_conn v = Some c ∧ unknown_warning c.
Lemma validate_kind_ok kind st warning :
  validateConnectionAttemptKind kind st warning = Ok tt ↔
  match kind with
  | ConnectionAttemptKindConnect => st = ConnectionStateNotConnected
  | ConnectionAttemptKindReconnect => restorable st = true ∧ st ≠ ConnectionStateNotConnected
  | ConnectionAttemptKindRegenerate => st = ConnectionStateReconnectRequired ∧ warning = unknownCreateOutcomeWarning
  end.
Proof.
  destruct kind; cbn.
  - by destruct st.
  - destruct st; cbn; split; try done; by intros [].
  - unfold require. destruct st; cbn; try (split; [done|by intros []]).
    destruct (bool_decide (warning = _)) eqn:E; [apply bool_decide_eq_true in E|apply bool_decide_eq_false in E]; split; try done. by intros [].
Qed.
Lemma linked_idle c k :
  cn_state c ≠ ConnectionStateConnecting → (unknown_warning c → cn_state c = ConnectionStateReconnectRequired) →
  linked {| v_conn := Some c; v_act := None; v_cred := k |}.
Proof.
  intros Hc Hu. split; cbn; try done.
  - by intros d [= <-].
  - intros d [= <-] Hd. left. auto.
Qed.
Lemma linked_no_active c oa k :
  linked {| v_conn := Some c; v_act := oa; v_cred := k |} → cn_state c ≠ ConnectionStateConnecting →
  k = true ∨ cn_state c ≠ ConnectionStateReconnectRequired ∧ cn_state c ≠ ConnectionStateNotConnected → oa = None.
Proof.
  intros L Hc Hk. destruct oa as [a|]; [|done]. destruct (lk_active _ L c eq_refl) as [?|[? [?|?]]]; cbn in *; [by eexists|..];
    destruct Hk as [?|[??]]; congruence.
Qed.
(** An active attempt is kept while its connection is rewritten. *)
Lemma linked_active c c' a k :
  linked {| v_conn := Some c; v_act := Some a; v_cred := k |} → cn_state c' = ConnectionStateReconnectRequired ∨ cn_state c' = ConnectionStateNotConnected →
  (unknown_warning c' ↔ unknown_warning c) → (unknown_warning c' → cn_state c' = ConnectionStateReconnectRequired) →
  linked {| v_conn := Some c'; v_act := Some a; v_cred := false |}.
Proof.
  intros L Hst Hu Hr. split; cbn.
  - intros d _ _. by eexists.
  - intros d [= <-] _. by right.
  - intros d b [= <-] [= <-]. rewrite Hu. by apply (lk_regenerate _ L c a).
  - intros d [= <-] Hd. left. auto.
  - apply (lk_previous _ L).
  - by eexists.
Qed.
Lemma linked_prepared c a k now :
  validateConnectionAttemptKind (ca_kind a) (cn_state c) (cn_warning_code c) = Ok tt →
  (cn_state c = ConnectionStateNotConnected → cn_connected_at c = None) →
  ca_previous_connection_state a = cn_state c → ca_previous_connected_at a = cn_connected_at c →
  linked {| v_conn := Some (with_state ConnectionStateConnecting
              (if bool_decide (ca_kind a = ConnectionAttemptKindRegenerate) then unknownCreateOutcomeWarning else EmptyString)
              None now c); v_act := Some a; v_cred := k |}.
Proof.
  intros Hk%validate_kind_ok Hck Hp Hpa. split; cbn.
  - intros d _ _. by eexists.
  - intros d [= <-] _. by left.
  - intros d b [= <-] [= <-]. unfold unknown_warning. cbn. case_bool_decide; done.
  - intros d [= <-] _. by right.
  - intros b [= <-]. rewrite Hp, Hpa. split; [intros Hr; rewrite Hr in Hk; apply Hk|]. split; [done|].
    destruct (ca_kind a); [by rewrite Hk|apply Hk|by rewrite (proj1 Hk)].
  - by eexists.
Qed.
Lemma linked_begun oc a a' k s :
  changes_state a a' s → linked {| v_conn := oc; v_act := Some a; v_cred := k |} →
  linked {| v_conn := oc; v_act := Some a'; v_cred := k |}.
Proof.
  intros ((_ & _ & _ & Hkind & Hprev & _) & Hpat & _) L. split; cbn.
  - intros d _ _. by eexists.
  - intros d Hd _. apply (lk_active _ L d Hd). by eexists.
  - intros d b Hd [= <-]. rewrite Hkind. by apply (lk_regenerate _ L).
  - apply (lk_unknown _ L).
  - intros b [= <-]. rewrite Hkind, Hprev, Hpat. by apply (lk_previous _ L).
  - intros _. apply (lk_referenced _ L). by eexists.
Qed.
Lemma linked_vstep v v' : vstep v v' → linked v → linked v'.
Proof.
  intros Hs L. destruct Hs as
    [? ? [c k Hst Hw Hat|c a k now Hu Hk Hck Ha Hp Hpa|? ? [oc a a' k Ha Hc|c a k warning now Hw|c a k now
    |c oa k warning now Hst|c oa now|c oa k warning now Hst Hw|c oa k st warning now Hst Hst' Hw]]|? ? [c oa k now Hu Hst]].
  - apply linked_idle; [by rewrite Hst|]. unfold unknown_warning. by rewrite Hw.
  - by apply linked_prepared.
  - by eapply linked_begun.
  - destruct (lk_previous _ L a eq_refl) as (Hreg & _ & Hres). apply linked_idle; cbn; [by intros He; rewrite He in Hres|].
    intros He. apply Hreg, Hw. done.
  - by apply linked_idle.
  - rewrite (linked_no_active _ _ _ L) by (rewrite Hst; auto). by apply linked_idle.
  - case_bool_decide as Hd.
    + rewrite (linked_no_active _ _ _ L) by (rewrite Hd; auto). by apply linked_idle.
    + destruct oa as [a|]; [|by apply linked_idle]. apply (linked_active c _ _ true); [|by left|done|done]. exact L.
  - rewrite (linked_no_active _ _ _ L) by (destruct Hst as [-> | ->]; auto). by apply linked_idle.
  - rewrite (linked_no_active _ _ _ L) by (destruct Hst as [-> | ->]; auto). apply linked_idle; [by destruct Hst' as [-> | ->]|done].
  - destruct oa as [a|]; [|by destruct k; apply linked_idle]. destruct k; [by pose proof (linked_no_active _ _ _ L Hst (or_introl eq_refl))|].
    apply (linked_active c _ _ false); [done|by right| |done]. split; [done|by intros ?%Hu].
Qed.
Lemma linked_vadmit v v' : vadmit v v' → linked v → linked v'.
Proof. intros H. by apply linked_vstep, vs_admits. Qed.
Lemma linked_vactivate v v' : vactivate v v' → linked v → linked v'.
Proof. destruct 1; intros L. by apply linked_idle. Qed.
(** Only the activation of a regenerated credential unlocks. *)
Lemma locked_vstep v v' : vstep v v' → linked v → locked v → locked v'.
Proof.
  intros Hs L (d & Hd & Hdu). destruct Hs as
    [? ? [c k Hst Hw Hat|c a k now Hu Hk Hck Ha Hp Hpa|? ? [oc a a' k Ha Hc|c a k warning now Hw|c a k now
    |c oa k warning now Hst|c oa now|c oa k warning now Hst Hw|c oa k st warning now Hst Hst' Hw]]|? ? [c oa k now Hu Hst]];
    cbn in Hd; simplify_eq; pose proof (λ c H, lk_unknown _ L c H) as Hun; cbn in Hun.
  - eexists. split; [done|]. unfold unknown_warning. cbn. by rewrite bool_decide_eq_true_2 by auto.
  - by exists d.
  - eexists. split; [done|]. symmetry. apply Hw. by apply (lk_regenerate _ L d a).
  - by eexists.
  - destruct (Hun d eq_refl Hdu); congruence.
  - case_bool_decide as He; [destruct (Hun d eq_refl Hdu); congruence|]. by eexists.
  - destruct (Hun d eq_refl Hdu), Hst; congruence.
  - destruct (Hun d eq_refl Hdu), Hst; congruence.
Qed.
Lemma locked_vactivate v v' :
  vactivate v v' → linked v → locked v → ∃ a, v_act v = Some a ∧ ca_kind a = ConnectionAttemptKindRegenerate.
Proof. destruct 1 as [c a]. intros L (d & [= <-] & Hu). exists a. split; [done|]. by apply (lk_regenerate _ L c a). Qed.
