(* ===== verification/ConnectionOps.v ===== *)
(** * Worm wallet connections: what the operations do

    Every committed operation moves one wallet along its life ([vstep]) and its
    attempts along their states ([fate]); the other wallets are not touched. *)

From S2P Require Import Prelude Sql CashOutTypes ConnectionTypes ConnectionStore ConnectionInv ConnectionLink.
From stdpp Require Import base tactics option list list_numbers sorting strings gmap relations.
From Stdlib Require Import ZArith Lia Ascii.
#[local] Open Scope Z_scope.

Section Ops.
Context {UL : UuidLib} {SL : SolanaLib}.

(** ** Operations *)
Inductive wop :=
| WPrepare (fresh : N) (req : PrepareConnectionAttemptRequest)
| WBegin (req : BeginConnectionAttemptCompletionRequest)
| WFail (id code : string) (at_ : Z)
| WUnknown (id code : string) (at_ : Z)
| WReconnect (wallet : Z) (address : string) (credential : Z) (code : string) (at_ : Z)
| WActivate (serial : Z) (req : ActivateCredentialRequest)
| WDisconnect (owner : string) (wallet : Z) (address : string) (at_ : Z)
| WBeginRevocation (wallet credential at_ : Z)
| WRevoked (wallet credential at_ : Z)
| WRevocationFailed (wallet credential : Z) (st : ConnectionState) (ks : CredentialState) (code : string) (at_ : Z)
| WRecover (wallet now : Z) (expiredOnly : bool).

Definition commits (clock : Z) (o : wop) (db db' : WDB) : Prop :=
  match o with
  | WPrepare fresh req => ∃ r, PrepareConnectionAttempt clock fresh req db = Ok (db', r)
  | WBegin req => ∃ r, BeginConnectionAttemptCompletion clock req db = Ok (db', r)
  | WFail id code at_ => ∃ r, FailConnectionAttempt clock id code at_ db = Ok (db', r)
  | WUnknown id code at_ => ∃ r, MarkConnectionAttemptOutcomeUnknown clock id code at_ db = Ok (db', r)
  | WReconnect w address k code at_ => ∃ r, MarkReconnectRequired clock w address k code at_ db = Ok (db', r)
  | WActivate serial req => ∃ r, ActivateCredential clock serial req db = Ok (db', r)
  | WDisconnect owner w address at_ => ∃ r, BeginDisconnect clock owner w address at_ db = Ok (db', r)
  | WBeginRevocation w k at_ => ∃ r, BeginCredentialRevocation clock w k at_ db = Ok (db', r)
  | WRevoked w k at_ => ∃ r, MarkCredentialRevoked clock w k at_ db = Ok (db', r)
  | WRevocationFailed w k st ks code at_ => ∃ r, MarkCredentialRevocationFailed clock w k st ks code at_ db = Ok (db', r)
  | WRecover w now expiredOnly => ∃ r, recoverConnectionAttemptForWallet w now expiredOnly db = Ok (db', r)
  end.
(** The warning that locks a wallet is only passed by its own operation; a failed
    revocation names a disconnection only while one is in progress. *)
Definition revoking (v : wview) : Prop :=
  ∃ c, v_conn v = Some c ∧ (cn_state c = ConnectionStateDisconnecting ∨ cn_state c = ConnectionStateRevocationRequired).
Definition disciplined (db : WDB) (o : wop) : Prop :=
  match o with
  | WFail _ code _ => code ≠ unknownCreateOutcomeWarning
  | WUnknown _ code _ => code = unknownCreateOutcomeWarning
  | WRevocationFailed w _ st _ code _ =>
      code ≠ unknownCreateOutcomeWarning ∧ (st = ConnectionStateConnected ∨ revoking (view db w))
  | _ => True
  end.

(** ** What happens to attempts *)
Definition attempt_id (s : string) : option N := uuid_parse (trim_space s).
Definition stores (db : WDB) (w : Z) (key secret : string) : Prop :=
  ∃ k, k ∈ w_credentials db ∧ kr_wallet_id k = w ∧ kr_state k = CredentialStateActive
    ∧ kr_api_key_ciphertext k = key ∧ kr_api_secret_ciphertext k = secret.
(** [a] may become [x] by the operation that leads to [db']. *)
Inductive fate (db' : WDB) : wop → attempt_row → attempt_row → Prop :=
| fate_abandoned o a x :
    ca_state a = ConnectionAttemptStatePrepared → ca_state x = ConnectionAttemptStateFailed → fate db' o a x
| fate_locked o a x :
    ca_state a = ConnectionAttemptStateCompleting → ca_state x = ConnectionAttemptStateOutcomeUnknown →
    locked (view db' (ca_wallet_id a)) → fate db' o a x
| fate_begun req a x :
    attempt_id (ba_attempt_id req) = Some (ca_id a) → ca_state a = ConnectionAttemptStatePrepared →
    ca_state x = ConnectionAttemptStateCompleting → fate db' (WBegin req) a x
| fate_failed id code at_ a x :
    attempt_id id = Some (ca_id a) → ca_state x = ConnectionAttemptStateFailed → fate db' (WFail id code at_) a x
| fate_unknown id code at_ a x :
    attempt_id id = Some (ca_id a) → ca_state x = ConnectionAttemptStateOutcomeUnknown →
    locked (view db' (ca_wallet_id a)) → fate db' (WUnknown id code at_) a x
| fate_completed serial req a x :
    attempt_id (ac_attempt_id req) = Some (ca_id a) → ca_state a = ConnectionAttemptStateCompleting →
    ca_state x = ConnectionAttemptStateCompleted →
    stores db' (ca_wallet_id a) (ac_api_key_ciphertext req) (ac_api_secret_ciphertext req) →
    fate db' (WActivate serial req) a x.
Definition evolves (R : attempt_row → attempt_row → Prop) (db db' : WDB) : Prop :=
  ∀ x, x ∈ w_attempts db' → x ∈ w_attempts db ∨ ca_state x = ConnectionAttemptStatePrepared
    ∨ ∃ a, act db (ca_wallet_id a) a ∧ same_attempt a x ∧ R a x.
Lemma evolves_same R db db' : w_attempts db' = w_attempts db → evolves R db db'.
Proof. intros H x Hx. left. by rewrite <- H. Qed.
Lemma evolves_rewrites (R : attempt_row → attempt_row → Prop) db db' a row s :
  act db (ca_wallet_id a) a → rewrites_attempt db db' a row → changes_state a row s → R a row → evolves R db db'.
Proof.
  intros Ha (_ & Hx & _) (Hs & _) HR x [->|[H _]]%Hx; [right; right; eauto|by left].
Qed.
Lemma evolves_same_r (R : attempt_row → attempt_row → Prop) db db1 db' :
  evolves R db db1 → w_attempts db' = w_attempts db1 → evolves R db db'.
Proof. intros H Heq x Hx. apply H. by rewrite <- Heq. Qed.
Lemma evolves_same_l (R : attempt_row → attempt_row → Prop) db db1 db' :
  w_attempts db1 = w_attempts db → evolves R db1 db' → evolves R db db'.
Proof.
  intros Heq H x Hx. destruct (H x Hx) as [?|[?|(a & Ha & HR)]]; [left; by rewrite <- Heq|by right; left|right; right].
  exists a. split; [by apply (act_same db) in Ha|done].
Qed.
Lemma evolves_create (R : attempt_row → attempt_row → Prop) db db1 db' row r :
  evolves R db db1 → ca_state row = ConnectionAttemptStatePrepared → CreateConnectionAttempt row db1 = Ok (db', r) → evolves R db db'.
Proof.
  intros H Hrow Hc x Hx. apply create_attempt_ok in Hc as (_ & -> & _). cbn in Hx.
  apply elem_of_app in Hx as [Hx| ->%list_elem_of_singleton]; [auto|by right; left].
Qed.

Record lives (o : wop) (db db' : WDB) (w : Z) : Prop := {
  lv_tables : tables db';
  lv_older : older db db';
  lv_view : (view db' w = view db w ∨ vsettle (view db w) (view db' w))
    ∨ (∃ fresh req, o = WPrepare fresh req ∧ pa_wallet_id req = w) ∧ rtc vadmit (view db w) (view db' w)
    ∨ (∃ owner address at_, o = WDisconnect owner w address at_) ∧ vdisconnect (view db w) (view db' w)
    ∨ (∃ serial req, o = WActivate serial req) ∧ vactivate (view db w) (view db' w);
  lv_others : ∀ u, u ≠ w → view db' u = view db u;
  lv_attempts : evolves (fate db' o) db db' }.
Lemma lives_moves o db db' w v :
  moves db db' w v → v = view db w ∨ vsettle (view db w) v → evolves (fate db' o) db db' → lives o db db' w.
Proof. intros (Ht & Ho & <- & Hu) Hs He. constructor; auto. Qed.
Lemma lives_refl o db w : tables db → lives o db db w.
Proof. intros Ht. constructor; [done|done|left; by left|done|by apply evolves_same]. Qed.
Lemma lives_path o db db' w :
  lives o db db' w →
  rtc vstep (view db w) (view db' w) ∨ (∃ serial req, o = WActivate serial req) ∧ vactivate (view db w) (view db' w).
Proof.
  intros [_ _ [[->|Hs]|[[_ Hs]|[[_ Hs]|Hs]]] _ _]; [left; apply rtc_refl|left; by apply rtc_once, vs_admits, vs_settle| |left; by apply rtc_once, vs_disconnects|by right].
  left. clear -Hs. induction Hs; [apply rtc_refl|]. eapply rtc_l; [by apply vs_admits|done].
Qed.

(** ** Building blocks *)
Lemma view_terminal_of st failure now a db db' row :
  attempt_active st = false → tables db → act db (ca_wallet_id a) a →
  MarkConnectionAttemptTerminal st failure now (ca_id a) db = Ok (db', row) →
  ca_state row = st ∧ moves db db' (ca_wallet_id a) {| v_conn := v_conn (view db (ca_wallet_id a)); v_act := None;
    v_cred := v_cred (view db (ca_wallet_id a)) |} ∧ w_credentials db' = w_credentials db
  ∧ ∀ R : attempt_row → attempt_row → Prop, R a row → evolves R db db'.
Proof.
  intros Hst Ht Ha H. destruct (keeps_terminal _ _ _ _ Hst _ _ _ H Ht) as [Ht' Ho].
  destruct (terminal_ok _ _ _ _ _ _ _ Ht H) as (b & Hid & Hb & Hr & Hc & _).
  assert (b = a) as -> by (apply (NoDup_key_inj ca_id (w_attempts db)); [apply Ht|apply Hb|apply Ha|done]).
  pose proof (view_rewrite _ _ _ _ _ Ht Ht' Ho Ha Hr Hc) as Hm. rewrite Hst in Hm. split; [apply Hc|]. split; [done|].
  split; [apply Hr|]. intros R HR. by eapply evolves_rewrites.
Qed.
Lemma cleanup_warning_ok w fallback db :
  fallback ≠ unknownCreateOutcomeWarning → credentialCleanupWarning w fallback db ≠ unknownCreateOutcomeWarning.
Proof. intros H. unfold credentialCleanupWarning. by repeat case_match. Qed.
Lemma view_conn_attempts st warning at_ now w address db db' row :
  tables db → UpdateWalletConnectionState st warning at_ now w address db = Ok (db', row) → w_attempts db' = w_attempts db.
Proof. intros Ht H. by destruct (update_connection_ok _ _ _ _ _ _ _ _ _ Ht H) as (c & _ & _ & _ & _ & -> & _). Qed.

Lemma fail_block a code now db db' u :
  tables db → act db (ca_wallet_id a) a → code ≠ unknownCreateOutcomeWarning →
  failConnectionAttemptInTransaction a code now db = Ok (db', u) →
  ∃ c warning row, v_conn (view db (ca_wallet_id a)) = Some c ∧ v_act (view db (ca_wallet_id a)) = Some a
    ∧ (unknownCreateOutcomeWarning = warning ↔ ca_kind a = ConnectionAttemptKindRegenerate)
    ∧ moves db db' (ca_wallet_id a)
        {| v_conn := Some (with_state (ca_previous_connection_state a) warning (ca_previous_connected_at a) (pg_time now) c);
           v_act := None; v_cred := v_cred (view db (ca_wallet_id a)) |}
    ∧ ca_state row = ConnectionAttemptStateFailed ∧ ∀ R : attempt_row → attempt_row → Prop, R a row → evolves R db db'.
Proof.
  intros Ht Ha Hcode H. unfold failConnectionAttemptInTransaction in H. cbv zeta in H.
  apply tx_bind_ok in H as (d1 & row & H1 & H). apply tx_bind_ok in H as (d2 & d & [-> ->]%tx_get_ok & H).
  apply tx_bind_ok in H as (d3 & crow & H2 & [-> _]%tx_ret_ok).
  apply view_terminal_of in H1 as (Hst & Hm1 & _ & HR); [|done..].
  destruct Hm1 as (Ht1 & Ho1 & Hv1 & Hu1).
  destruct (view_update_connection _ _ _ _ _ _ _ _ _ Ht1 H2) as (c & Hc & _ & -> & Hm2). rewrite Hv1 in *. cbn in Hc.
  exists c. eexists. exists row. split; [done|]. split; [by apply view_act|]. split; [|split; [|split; [done|]]].
  2:{ eapply moves_trans; [|exact Hm2]. done. }
  - destruct (ca_kind a); split; try done; intros He; by apply cleanup_warning_ok in He || (symmetry in He; by apply cleanup_warning_ok in He).
  - intros R Ha'. eapply evolves_same_r; [by apply HR|]. by eapply view_conn_attempts.
Qed.
Lemma unknown_block a code now db db' u :
  tables db → act db (ca_wallet_id a) a →
  lockOutcomeUnknown a code unknownCreateOutcomeWarning now db = Ok (db', u) →
  ∃ c row, v_conn (view db (ca_wallet_id a)) = Some c ∧ v_act (view db (ca_wallet_id a)) = Some a
    ∧ moves db db' (ca_wallet_id a)
        {| v_conn := Some (with_state ConnectionStateReconnectRequired unknownCreateOutcomeWarning (ca_previous_connected_at a) (pg_time now) c);
           v_act := None; v_cred := v_cred (view db (ca_wallet_id a)) |}
    ∧ ca_state row = ConnectionAttemptStateOutcomeUnknown ∧ locked (view db' (ca_wallet_id a))
    ∧ ∀ R : attempt_row → attempt_row → Prop, R a row → evolves R db db'.
Proof.
  intros Ht Ha H. unfold lockOutcomeUnknown in H.
  apply tx_bind_ok in H as (d1 & row & H1 & H). apply tx_bind_ok in H as (d3 & crow & H2 & [-> _]%tx_ret_ok).
  apply view_terminal_of in H1 as (Hst & Hm1 & _ & HR); [|done..].
  destruct Hm1 as (Ht1 & Ho1 & Hv1 & Hu1).
  destruct (view_update_connection _ _ _ _ _ _ _ _ _ Ht1 H2) as (c & Hc & _ & -> & Hm2). rewrite Hv1 in *. cbn in Hc.
  exists c, row. split; [done|]. split; [by apply view_act|]. split; [eapply moves_trans; [|exact Hm2]; done|]. split; [done|]. split.
  - destruct Hm2 as (_ & _ & -> & _). by eexists.
  - intros R Ha'. eapply evolves_same_r; [by apply HR|]. by eapply view_conn_attempts.
Qed.

(** ** The operations *)
Lemma view_eta (v : wview) c a : v_conn v = Some c → v_act v = a → v = {| v_conn := Some c; v_act := a; v_cred := v_cred v |}.
Proof. by intros; destruct v; cbn in *; subst. Qed.
Lemma fail_lives o a code now db db' u :
  tables db → act db (ca_wallet_id a) a → code ≠ unknownCreateOutcomeWarning →
  (∀ x, ca_state x = ConnectionAttemptStateFailed → fate db' o a x) →
  failConnectionAttemptInTransaction a code now db = Ok (db', u) → lives o db db' (ca_wallet_id a).
Proof.
  intros Ht Ha Hcode Hf H. destruct (fail_block _ _ _ _ _ _ Ht Ha Hcode H) as (c & warning & row & Hc & Hact & Hw & Hm & Hst & HR).
  eapply lives_moves; [exact Hm| |apply HR; auto]. right. rewrite (view_eta _ _ _ Hc Hact) at 1. by constructor.
Qed.
Lemma unknown_lives o a code now db db' u :
  tables db → act db (ca_wallet_id a) a →
  (∀ x, ca_state x = ConnectionAttemptStateOutcomeUnknown → locked (view db' (ca_wallet_id a)) → fate db' o a x) →
  lockOutcomeUnknown a code unknownCreateOutcomeWarning now db = Ok (db', u) → lives o db db' (ca_wallet_id a).
Proof.
  intros Ht Ha Hf H. destruct (unknown_block _ _ _ _ _ _ Ht Ha H) as (c & row & Hc & Hact & Hm & Hst & Hl & HR).
  eapply lives_moves; [exact Hm| |apply HR; auto]. right. rewrite (view_eta _ _ _ Hc Hact) at 1. constructor.
Qed.
Lemma admit_lives o id req now st warning at_ c db0 db db' r :
  tables db → evolves (fate db' o) db0 db → v_conn (view db (pa_wallet_id req)) = Some c → st = cn_state c → at_ = cn_connected_at c →
  (warning = unknownCreateOutcomeWarning ↔ unknown_warning c) → connection_check c = true →
  admitConnectionAttempt id req now st warning at_ db = Ok (db', r) →
  v_act (view db (pa_wallet_id req)) = None ∧ vadmit (view db (pa_wallet_id req)) (view db' (pa_wallet_id req))
  ∧ tables db' ∧ older db db' ∧ (∀ u, u ≠ pa_wallet_id req → view db' u = view db u) ∧ evolves (fate db' o) db0 db'.
Proof.
  intros Ht He Hc -> -> Hw Hck H. unfold admitConnectionAttempt in H. cbv zeta in H.
  apply tx_bind_ok in H as (d1 & [] & [-> Hg]%ensure_ok & H). apply tx_bind_ok in H as (d1 & [] & [-> Hk]%tx_lift_ok & H).
  apply tx_bind_ok in H as (d2 & a & H1 & H). apply tx_bind_ok in H as (d3 & crow & H2 & [-> _]%tx_ret_ok).
  pose proof H1 as Hcreate. apply view_create_attempt in H1 as (-> & Hno & Hin & Hm1); [|done..]. cbn in Hno, Hm1.
  pose proof Hm1 as (Ht2 & Ho2 & Hv2 & Hu2).
  pose proof H2 as Hupd. apply view_update_connection in H2 as (c' & Hc' & _ & -> & Hm2); [|done]. rewrite Hv2 in Hc', Hm2.
  cbn [v_conn v_act v_cred] in Hc', Hm2. rewrite Hc in Hc'. injection Hc' as <-.
  destruct (moves_trans _ _ _ _ _ _ Hm1 Hm2) as (Ht3 & Ho3 & Hv3 & Hu3). split; [done|]. split; [|split; [done|split; [done|split; [done|]]]].
  2:{ eapply evolves_same_r; [eapply evolves_create; [exact He| |exact Hcreate]; done|]. by eapply view_conn_attempts. }
  rewrite Hv3, (view_eta _ _ _ Hc Hno). cbn [v_act v_cred].
  match goal with |- vadmit _ {| v_conn := _; v_act := Some ?a; v_cred := _ |} => apply (vs_prepare c a) end; cbn; try done.
  - intros Hu%Hw. bool_prop. by destruct Hg as [?|?%negb_false_iff]; bool_prop.
  - apply validate_kind_ok. apply validate_kind_ok in Hk. destruct (pa_kind req); [done|done|]. destruct Hk as [? ?%Hw]. done.
  - intros Hst. unfold connection_check in Hck. rewrite Hst in Hck. bool_prop. by destruct (cn_connected_at c).
Qed.
Lemma checked_conn db w c : tables db → v_conn (view db w) = Some c → connection_check c = true.
Proof. intros Ht [Hin _]%view_conn; [|done]. by apply (tb_conn_checked _ Ht). Qed.
(** A wallet without a connection gets one; then the view has a connection. *)
Lemma create_missing_lives w address now db db' u :
  tables db → linked (view db w) → CreateWalletConnectionIfMissing w address now db = Ok (db', u) →
  tables db' ∧ older db db' ∧ rtc vadmit (view db w) (view db' w) ∧ (∀ u, u ≠ w → view db' u = view db u)
  ∧ w_attempts db' = w_attempts db.
Proof.
  intros Ht L H. pose proof H as Hat. apply create_missing_ok in Hat as (Hat & _).
  apply view_create_missing in H as (c & (Ht' & Ho & Hv & Hu) & Hc & _); [|done]. split_and!; try done. rewrite Hv.
  destruct Hc as [Hc|(Hc & Hst & Hw & Hco)]; [rewrite <- (view_eta _ _ _ Hc eq_refl); apply rtc_refl|].
  assert (v_act (view db w) = None) as Hno.
  { destruct (v_act (view db w)) eqn:E; [|done]. destruct (lk_referenced _ L) as [d Hd]; [by rewrite E|]. congruence. }
  apply rtc_once. rewrite Hno. destruct (view db w). cbn in *. subst. by constructor.
Qed.
Lemma prepare_after fresh req db db1 db' :
  let o := WPrepare fresh req in let w := pa_wallet_id req in
  older db db1 → rtc vadmit (view db w) (view db1 w) → (∀ u, u ≠ w → view db1 u = view db u) → w_attempts db1 = w_attempts db →
  lives o db1 db' w → lives o db db' w.
Proof.
  intros o w Ho Hs Hu Ha Hl. constructor; [apply Hl|etrans; [exact Ho|apply Hl]| | |eapply evolves_same_l; [exact Ha|apply Hl]].
  { right. left. split; [by exists fresh, req|]. etrans; [exact Hs|].
    destruct (lv_view _ _ _ _ Hl) as [[->|Hs']|[[_ Hs']|[[(? & ? & ? & ?) _]|[(? & ? & ?) _]]]]; try done; by apply rtc_once, vs_settle. }
  intros u Hne. rewrite (lv_others _ _ _ _ Hl), Hu; done.
Qed.
Lemma lives_after o db db1 db' w :
  moves db db1 w (view db w) → w_attempts db1 = w_attempts db → lives o db1 db' w → lives o db db' w.
Proof.
  intros (_ & Ho & Hv & Hu) Ha [Ht' Ho' Hs' Hu' He]. rewrite Hv in Hs'. constructor; [done|by etrans|done| |by eapply evolves_same_l].
  intros u Hne. rewrite Hu', Hu; done.
Qed.
Lemma prepare_fresh_lives fresh id req now c db db' r :
  tables db → v_conn (view db (pa_wallet_id req)) = Some c →
  admitConnectionAttempt id req now (cn_state c) (cn_warning_code c) (cn_connected_at c) db = Ok (db', r) →
  lives (WPrepare fresh req) db db' (pa_wallet_id req).
Proof.
  intros Ht Hc H. eapply (admit_lives (WPrepare fresh req) _ _ _ _ _ _ c db) in H as (Hno & Hs & Ht' & Ho & Hu & He); try done;
    [|by apply evolves_same|by eapply checked_conn]. constructor; try done. right. left. split; [by eexists _, _|]. by apply rtc_once.
Qed.
(** An expired challenge is abandoned first. *)
Lemma prepare_expired_lives fresh id req now c a db db1 db' u r :
  tables db → linked (view db (pa_wallet_id req)) → v_conn (view db (pa_wallet_id req)) = Some c →
  v_act (view db (pa_wallet_id req)) = Some a → ca_state a = ConnectionAttemptStatePrepared →
  failConnectionAttemptInTransaction a expiredChallengeWarning now db = Ok (db1, u) →
  admitConnectionAttempt id req now (ca_previous_connection_state a) (cn_warning_code c) (ca_previous_connected_at a) db1 = Ok (db', r) →
  lives (WPrepare fresh req) db db' (pa_wallet_id req).
Proof.
  intros Ht L Hc Ha Hst H1 H2. apply view_act in Ha as Hact; [|done]. pose proof Hact as (_ & Hw & _).
  apply fail_block in H1 as (c0 & warning & row & Hc0 & Ha0 & Hwarn & Hm & Hrow & HR); [|done|by rewrite Hw|done].
  rewrite Hw in *. rewrite Hc in Hc0. injection Hc0 as <-. destruct Hm as (Ht1 & Ho1 & Hv1 & Hu1).
  eapply (admit_lives (WPrepare fresh req) _ _ _ _ _ _ _ db) in H2 as (Hno & Hs & Ht' & Ho & Hu & He); [..|by rewrite Hv1|done|done| |].
  - constructor; [done|by etrans| |intros v Hv; rewrite Hu, Hu1; done|done]. right. left. split; [by eexists _, _|]. eapply rtc_l; [|apply rtc_once, Hs].
    rewrite Hv1, (view_eta _ _ _ Hc Ha). cbn. apply vs_settle. by constructor.
  - done.
  - apply HR. by constructor.
  - pose proof (lk_regenerate _ L c a Hc Ha) as Hr. unfold unknown_warning in *. cbn. rewrite <- Hr, <- Hwarn. done.
  - eapply checked_conn; [exact Ht1|]. by rewrite Hv1.
Qed.
Lemma prepare_lives clock fresh req db db' r :
  tables db → (∀ w, linked (view db w)) → PrepareConnectionAttempt clock fresh req db = Ok (db', r) →
  lives (WPrepare fresh req) db db' (pa_wallet_id req).
Proof.
  intros Ht L H. unfold PrepareConnectionAttempt, beginWalletTransaction in H. cbv zeta in H. tx_inv.
  match goal with Hm : CreateWalletConnectionIfMissing _ _ _ _ = Ok (?d, _) |- _ =>
    rename d into db1; apply create_missing_lives in Hm as (Ht1 & Ho1 & Hs1 & Hu1 & Ha1); [|done|done] end.
  eapply prepare_after; [done..| ].
  assert (linked (view db1 (pa_wallet_id req))) as L1.
  { clear -L Hs1. specialize (L (pa_wallet_id req)). induction Hs1; eauto using linked_vadmit. }
  match goal with Hc : GetWalletConnectionForUpdate _ _ = Some ?c |- _ =>
    change (v_conn (view db1 (pa_wallet_id req)) = Some c) in Hc; rename c into connection, Hc into Hconn end.
  destruct (GetActiveConnectionAttemptForWallet _ _) as [a|] eqn:Hact; tx_inv; [|by eapply prepare_fresh_lives].
  change (v_act (view db1 (pa_wallet_id req)) = Some a) in Hact. apply view_act in Hact as Ha; [|done]. pose proof Ha as (_ & Hw & _).
  destruct (ca_state a) eqn:Hst; tx_inv; try done.
  - by eapply prepare_expired_lives.
  - rewrite <- Hw. eapply unknown_lives; [done|by rewrite Hw| |eassumption]. intros ? ? ?. by apply fate_locked.
Qed.
Lemma lockAttempt_ok id db db' a :
  lockAttempt id db = Ok (db', a) → db' = db ∧ a ∈ w_attempts db ∧ attempt_id id = Some (ca_id a).
Proof.
  intros H. unfold lockAttempt, beginWalletTransaction in H. tx_inv.
  match goal with Hu : uuidParam _ = Ok _ |- _ => unfold uuidParam in Hu; rename Hu into Hparse end. fold (attempt_id id) in Hparse.
  destruct (attempt_id id) as [n|]; [|done]. destruct (n =? 0)%N; [done|]. injection Hparse as ->.
  unfold sql_GetConnectionAttempt, GetConnectionAttemptForUpdate in *.
  repeat match goal with Hs : sql_one _ _ = Some _ |- _ => apply sql_one_Some in Hs as [? ?%N.eqb_eq] end. split; [done|]. split; [done|]. congruence.
Qed.
Lemma update_connection_lives o st warning at_ now w address db db' row :
  tables db → (∀ c, v_conn (view db w) = Some c → vsettle (view db w)
    {| v_conn := Some (with_state st warning at_ now c); v_act := v_act (view db w); v_cred := v_cred (view db w) |}) →
  UpdateWalletConnectionState st warning at_ now w address db = Ok (db', row) → lives o db db' w.
Proof.
  intros Ht Hv H. pose proof (view_conn_attempts _ _ _ _ _ _ _ _ _ Ht H) as Ha.
  apply view_update_connection in H as (c & Hc & _ & -> & Hm); [|done].
  eapply lives_moves; [exact Hm|right; by apply Hv|by apply evolves_same].
Qed.
(** The connection is rewritten after statements on credentials. *)
Lemma rewrite_after o st warning at_ now w address v c db db1 db' row :
  moves db db1 w v → w_attempts db1 = w_attempts db → v_conn v = Some c →
  UpdateWalletConnectionState st warning at_ now w address db1 = Ok (db', row) →
  vsettle (view db w) {| v_conn := Some (with_state st warning at_ now c); v_act := v_act v; v_cred := v_cred v |} →
  lives o db db' w.
Proof.
  intros Hm Ha Hc H Hs. pose proof Hm as (Ht1 & _ & Hv1 & _). pose proof (view_conn_attempts _ _ _ _ _ _ _ _ _ Ht1 H) as Ha'.
  apply view_update_connection in H as (d & Hd & _ & -> & Hm'); [|done]. rewrite Hv1 in Hd, Hm'. rewrite Hc in Hd. injection Hd as <-.
  eapply lives_moves; [exact (moves_trans _ _ _ _ _ _ Hm Hm')|by right|apply evolves_same; congruence].
Qed.
Lemma disconnect_update owner address at_ st warning c_at now w db db' row :
  tables db → (∀ c, v_conn (view db w) = Some c → vdisconnect (view db w)
    {| v_conn := Some (with_state st warning c_at now c); v_act := v_act (view db w); v_cred := v_cred (view db w) |}) →
  UpdateWalletConnectionState st warning c_at now w address db = Ok (db', row) → lives (WDisconnect owner w address at_) db db' w.
Proof.
  intros Ht Hv H. pose proof (view_conn_attempts _ _ _ _ _ _ _ _ _ Ht H) as Ha.
  apply view_update_connection in H as (c & Hc & _ & -> & Ht' & Ho & Hv' & Hu); [|done].
  constructor; [done|done| |done|by apply evolves_same]. right. right. left. split; [by eexists _, _, _|]. rewrite Hv'. by apply Hv.
Qed.
Lemma begin_lives clock req db db' r :
  tables db → BeginConnectionAttemptCompletion clock req db = Ok (db', r) → lives (WBegin req) db db' (ba_wallet_id req).
Proof.
  intros Ht H. unfold BeginConnectionAttemptCompletion in H. cbv zeta in H. tx_inv.
  match goal with Hl : lockAttempt _ _ = Ok (_, ?l) |- _ => apply lockAttempt_ok in Hl as (-> & Hin & Hid); rename l into a end. bool_prop.
  assert (act db (ca_wallet_id a) a) as Ha by (split; [done|split; [done|]]; by match goal with Hs : ca_state a = _ |- _ => rewrite Hs end).
  match goal with Hw : ca_wallet_id a = _ |- _ => rewrite <- Hw end.
  destruct (_ <? ca_expires_at a) eqn:Hexp; tx_inv.
  - match goal with Hm : cw_on_no_rows _ _ _ = Ok _ |- _ => unfold cw_on_no_rows in Hm; rename Hm into Hmark end.
    destruct (MarkConnectionAttemptCompleting _ _ _) as [[d row]|e] eqn:E; [|by destruct e]. injection Hmark as -> ->.
    destruct (keeps_completing _ _ _ _ _ E Ht) as [Ht' Ho]. destruct (completing_ok _ _ _ _ _ Ht E) as (b & Hbid & Hb & Hr & Hc & _).
    assert (b = a) as -> by (apply (NoDup_key_inj ca_id (w_attempts db)); [apply Ht|apply Hr|done|done]).
    pose proof (view_rewrite _ _ _ _ _ Ht Ht' Ho Ha Hr Hc) as Hm. eapply lives_moves; [exact Hm| |].
    + right. apply view_act in Ha; [|done]. destruct (view db (ca_wallet_id a)). cbn in *. subst. by apply vs_begin.
    + apply (evolves_rewrites _ _ _ _ _ _ Ha Hr Hc). apply fate_begun; [done|done|apply Hc].
  - eapply fail_lives; [..|eassumption]; [done|done|done|]. intros ? ?. by apply fate_abandoned.
Qed.
Lemma finish_lives o clock id unknown code at_ db db' u :
  tables db → finishConnectionAttempt clock id unknown code at_ db = Ok (db', u) →
  (if unknown then code = unknownCreateOutcomeWarning else code ≠ unknownCreateOutcomeWarning) →
  (∀ a x, attempt_id id = Some (ca_id a) →
     ca_state x = (if unknown then ConnectionAttemptStateOutcomeUnknown else ConnectionAttemptStateFailed) →
     (unknown = true → locked (view db' (ca_wallet_id a))) → fate db' o a x) →
  ∃ a, attempt_id id = Some (ca_id a) ∧ act db (ca_wallet_id a) a ∧ lives o db db' (ca_wallet_id a).
Proof.
  intros Ht H Hcode Hf. unfold finishConnectionAttempt in H. cbv zeta in H. tx_inv.
  match goal with Hl : lockAttempt _ _ = Ok (_, ?l) |- _ => apply lockAttempt_ok in Hl as (-> & Hin & Hid); rename l into a end.
  assert (act db (ca_wallet_id a) a) as Ha by done. exists a. split; [done|]. split; [done|]. destruct unknown.
  - subst code. replace (match ca_kind a with ConnectionAttemptKindRegenerate => _ | _ => _ end) with unknownCreateOutcomeWarning in *
      by (by destruct (ca_kind a)).
    eapply unknown_lives; [done|done| |eassumption]. auto.
  - eapply fail_lives; [..|eassumption]; [done|done|done|]. intros ? ?. apply Hf; [done|done|done].
Qed.
Lemma recover_lives w now expiredOnly db db' r :
  tables db → recoverConnectionAttemptForWallet w now expiredOnly db = Ok (db', r) → lives (WRecover w now expiredOnly) db db' w.
Proof.
  intros Ht H. unfold recoverConnectionAttemptForWallet, beginWalletTransaction in H. tx_inv.
  destruct (GetActiveConnectionAttemptForWallet _ _) as [a|] eqn:Hact; [|by tx_inv; apply lives_refl].
  change (v_act (view db w) = Some a) in Hact. apply view_act in Hact as Ha; [|done]. pose proof Ha as (_ & Hw & _). subst w.
  destruct (expiredOnly && _); [by tx_inv; apply lives_refl|]. destruct (ca_state a) eqn:Hst; tx_inv; try done.
  - eapply fail_lives; [..|eassumption]; [done|done|by destruct expiredOnly|]. intros ? ?. by apply fate_abandoned.
  - eapply unknown_lives; [done|done| |eassumption]. intros ? ? ?. by apply fate_locked.
Qed.
Lemma reconnect_lives clock w address k code at_ db db' u :
  tables db → MarkReconnectRequired clock w address k code at_ db = Ok (db', u) → lives (WReconnect w address k code at_) db db' w.
Proof.
  intros Ht H. unfold MarkReconnectRequired, beginWalletTransaction in H. cbv zeta in H. tx_inv.
  match goal with Hg : GetWalletConnectionForUpdate _ _ = Some ?d |- _ =>
    change (v_conn (view db w) = Some d) in Hg; rename d into c, Hg into Hc end.
  destruct (negb (bool_decide (cn_state c = _))) eqn:Hst; [by tx_inv; apply lives_refl|].
  destruct (GetActiveCredentialForUpdate _ _) as [cred|]; [|by tx_inv; apply lives_refl].
  destruct (negb (kr_id cred =? k)); [by tx_inv; apply lives_refl|]. tx_inv. eapply update_connection_lives; [done| |eassumption].
  intros d Hd. rewrite Hc in Hd. injection Hd as <-. rewrite (view_eta _ _ _ Hc eq_refl) at 1. apply vs_reconnect. by bool_prop.
Qed.
Lemma activate_lives clock serial req db db' r :
  tables db → ActivateCredential clock serial req db = Ok (db', r) → lives (WActivate serial req) db db' (ac_wallet_id req).
Proof.
  intros Ht H. unfold ActivateCredential in H. cbv zeta in H. tx_inv.
  match goal with Hl : lockAttempt _ _ = Ok (_, ?l) |- _ => apply lockAttempt_ok in Hl as (-> & Hin & Hid); rename l into a end. bool_prop.
  match goal with Hw : ca_wallet_id a = _, Hs : ca_state a = _ |- _ => rewrite <- Hw; rename Hs into Hst end.
  assert (act db (ca_wallet_id a) a) as Ha by (split; [done|split; [done|]]; by rewrite Hst).
  apply view_act in Ha as Hact; [|done].
  match goal with H1 : MarkActiveCredentialPendingRevocation _ _ _ = _, H2 : CreateActiveCredential _ _ _ _ _ _ = Ok (_, ?k),
    H3 : MarkConnectionAttemptTerminal _ _ _ _ _ = _, H4 : UpdateWalletConnectionState _ _ _ _ _ _ _ = _ |- _ =>
    apply view_pending in H1 as [Hm1 Ha1]; [|done]; pose proof Hm1 as (Ht1 & _ & Hv1 & _);
    apply view_create_credential in H2 as (Hm2 & Ha2 & Hk & Hkw & Hks & Hkey & Hsec); [|done]; pose proof Hm2 as (Ht2 & _ & Hv2 & _);
    apply view_terminal_of in H3 as (Hrow & Hm3 & Hc3 & HR); [|done|done|by apply (act_same db); [congruence|]]; pose proof Hm3 as (Ht3 & _ & Hv3 & _);
    pose proof H4 as Hupd; apply view_update_connection in H4 as (c & Hc & _ & -> & Hm4); [|done] end.
  pose proof (update_connection_ok _ _ _ _ _ _ _ _ _ Ht3 Hupd) as (_ & _ & _ & _ & _ & Hat4 & Hk4 & _).
  rewrite Hv3, Hv2, Hv1 in Hc, Hm4. cbn [v_conn v_act v_cred] in Hc, Hm4.
  pose proof (moves_trans _ _ _ _ _ _ Hm1 (moves_trans _ _ _ _ _ _ Hm2 (moves_trans _ _ _ _ _ _ Hm3 Hm4))) as Hm.
  destruct Hm as (Ht5 & Ho5 & Hv5 & Hu5). constructor; [done|done| |done|].
  - right. right. right. split; [by eexists _, _|]. rewrite Hv5. rewrite (view_eta _ _ _ Hc Hact) at 1. apply va_activate; [done|]. by apply cleanup_warning_ok.
  - eapply evolves_same_r; [|exact Hat4]. eapply (evolves_same_l _ _ _ _ (eq_trans Ha2 Ha1)). apply HR.
    apply fate_completed; [done..|]. match goal with Hk : ?k ∈ _ |- _ => exists k end. rewrite Hk4, Hc3. done.
Qed.
(** The credential rows of a wallet with a next one to revoke. *)
Lemma next_credential w db : GetNextCredentialForRevocation w db = None ↔ has_credential w db = false.
Proof.
  rewrite <- count_credentials. unfold GetNextCredentialForRevocation, CountCredentialsForWallet.
  rewrite <- (sort_by_length (λ a b, lexicographic [(revocation_rank (kr_state a), revocation_rank (kr_state b));
    (kr_version b, kr_version a); (kr_id b, kr_id a)])). destruct (sort_by _ _); cbn; split; try done; lia.
Qed.
Lemma disconnect_lives clock owner w address at_ db db' r :
  tables db → BeginDisconnect clock owner w address at_ db = Ok (db', r) →
  lives (WDisconnect owner w address at_) db db' w ∧ ((∃ k, r = Ok k) → revoking (view db' w)).
Proof.
  intros Ht H. unfold BeginDisconnect, beginWalletTransaction in H. cbv zeta in H. tx_inv.
  match goal with Hg : GetWalletConnectionForUpdate _ _ = Some ?d |- _ =>
    change (v_conn (view db w) = Some d) in Hg; rename d into c, Hg into Hc end. bool_prop.
  destruct (GetNextCredentialForRevocation w db) as [k|] eqn:Hnext; tx_inv.
  - match goal with Hk : UpdateCredentialState _ _ _ _ _ = Ok (?d, _) |- _ => rename d into db1;
      pose proof (update_credential_ok _ _ _ _ _ _ _ Ht Hk) as (_ & _ & _ & _ & _ & _ & _ & Ha1 & _);
      apply view_update_credential in Hk as (Hcred & Ht1 & Ho1 & Hv1 & Hu1); [|done] end.
    match goal with Hu : UpdateWalletConnectionState _ _ _ _ _ _ _ = _ |- _ => rename Hu into Hupd end. split.
    + eapply (lives_after _ db db1); [done|done|]. eapply disconnect_update; [done| |exact Hupd].
      rewrite Hv1. intros d Hd. rewrite Hc in Hd. injection Hd as <-. rewrite (view_eta _ _ _ Hc eq_refl) at 1. rewrite Hcred.
      by apply (vs_disconnect c _ true).
    + intros _. apply view_update_connection in Hupd as (d & _ & _ & -> & _ & _ & Hv & _); [|done]. rewrite Hv. eexists. split; [done|by left].
  - match goal with Hu : UpdateWalletConnectionState _ _ _ _ _ _ _ = _ |- _ => rename Hu into Hupd end.
    split; [|by intros [? ?]]. eapply disconnect_update; [done| |exact Hupd].
    intros d Hd. rewrite Hc in Hd. injection Hd as <-. apply next_credential in Hnext. change (v_cred (view db w) = false) in Hnext.
    rewrite (view_eta _ _ _ Hc eq_refl) at 1. rewrite Hnext. by apply (vs_disconnect c _ false).
Qed.
Lemma begin_revocation_lives clock w k at_ db db' r :
  tables db → BeginCredentialRevocation clock w k at_ db = Ok (db', r) → lives (WBeginRevocation w k at_) db db' w.
Proof.
  intros Ht H. unfold BeginCredentialRevocation, beginWalletTransaction in H. cbv zeta in H. tx_inv.
  match goal with Hk : UpdateCredentialState _ _ _ _ _ = _ |- _ =>
    pose proof (update_credential_ok _ _ _ _ _ _ _ Ht Hk) as (_ & _ & _ & _ & _ & _ & _ & Ha & _);
    apply view_update_credential in Hk as (_ & Hm); [|done] end.
  eapply lives_moves; [exact Hm|by left|by apply evolves_same].
Qed.
Lemma revoked_lives clock w k at_ db db' u :
  tables db → MarkCredentialRevoked clock w k at_ db = Ok (db', u) → lives (WRevoked w k at_) db db' w.
Proof.
  intros Ht H. unfold MarkCredentialRevoked, beginWalletTransaction in H. cbv zeta in H. tx_inv.
  match goal with Hg : GetWalletConnectionForUpdate _ _ = Some ?d |- _ =>
    change (v_conn (view db w) = Some d) in Hg; rename d into c, Hg into Hc end.
  assert (v_cred (view db w) = true) as Hcred.
  { match goal with Hk : GetCredentialForUpdate _ _ _ = Some ?k |- _ => apply sql_one_Some in Hk as [? ?]; apply view_cred; exists k end. by bool_prop. }
  match goal with Hd : DeleteCredential _ _ _ = Ok (?d, _) |- _ => rename d into db1;
    apply view_delete_credential in Hd as ((Ht1 & Ho1 & Hv1 & Hu1) & _ & Ha1); [|done] end.
  destruct (CountCredentialsForWallet w db1 =? 0) eqn:Hcount; bool_prop.
  - apply count_credentials in Hcount. rewrite Hcount, Hc in Hv1. tx_inv.
    pose proof (vs_last_revoked c (v_act (view db w)) (pg_time (canonicalNow clock at_))) as Hs.
    rewrite <- Hcred, <- (view_eta _ _ _ Hc eq_refl) in Hs.
    case_bool_decide; (eapply rewrite_after; [split_and!; [done|done|exact Hv1|done]|done|done|eassumption|]); exact Hs.
  - assert (has_credential w db1 = true) as Hmore.
    { destruct (has_credential w db1) eqn:E; [done|]. by apply count_credentials in E. }
    rewrite Hmore, Hc, <- Hcred, <- (view_eta _ _ _ Hc eq_refl) in Hv1.
    assert (moves db db1 w (view db w)) as Hm1 by done.
    assert (lives (WRevoked w k at_) db db1 w) as Hsame by (eapply lives_moves; [exact Hm1|by left|by apply evolves_same]).
    case_bool_decide; [by tx_inv|]. destruct (_ && _) eqn:Hgo; [|by tx_inv]. tx_inv.
    eapply rewrite_after; [exact Hm1|done|exact Hc|eassumption|].
    rewrite (view_eta _ _ _ Hc eq_refl) at 1. apply vs_connected; [bool_prop|by apply cleanup_warning_ok].
    match goal with Ho : _ ∨ _ |- _ => destruct Ho; bool_prop end; auto.
Qed.
Lemma revocation_failed_lives clock w k st ks code at_ db db' u :
  tables db → code ≠ unknownCreateOutcomeWarning → st = ConnectionStateConnected ∨ revoking (view db w) →
  MarkCredentialRevocationFailed clock w k st ks code at_ db = Ok (db', u) →
  lives (WRevocationFailed w k st ks code at_) db db' w ∧ (revoking (view db w) → revoking (view db' w)).
Proof.
  intros Ht Hcode Hrev H. unfold MarkCredentialRevocationFailed, beginWalletTransaction in H. cbv zeta in H. tx_inv.
  match goal with Hg : GetWalletConnectionForUpdate _ _ = Some ?d |- _ =>
    change (v_conn (view db w) = Some d) in Hg; rename d into c, Hg into Hc end.
  match goal with Hm : cw_on_no_rows _ _ _ = Ok (?d, _) |- _ => rename d into db1; unfold cw_on_no_rows in Hm; rename Hm into Hupd end.
  destruct (UpdateCredentialState _ _ _ _ _) as [[d row]|e] eqn:Hk; [|by destruct e]. injection Hupd as -> ->.
  pose proof (update_credential_ok _ _ _ _ _ _ _ Ht Hk) as (_ & _ & _ & _ & _ & _ & _ & Ha1 & _).
  apply view_update_credential in Hk as (_ & Hm1); [|done]. pose proof Hm1 as (Ht1 & _).
  destruct (bool_decide (st = _) && _) eqn:Hskip; tx_inv.
  { split; [eapply lives_moves; [exact Hm1|by left|by apply evolves_same]|by destruct Hm1 as (_ & _ & -> & _)]. }
  match goal with Hu : UpdateWalletConnectionState _ ?wc _ _ _ _ _ = _ |- _ => rename Hu into Hupd; set (warning := wc) in * end.
  assert (warning ≠ unknownCreateOutcomeWarning) as Hwarn by (unfold warning; case_match; [by apply cleanup_warning_ok|done]).
  destruct (decide (st = ConnectionStateConnected)) as [->|Hst].
  - assert (cn_state c = ConnectionStateConnected) as Hcc by (apply andb_false_iff in Hskip as [Hs|Hs]; [by rewrite bool_decide_eq_false in Hs|by bool_prop]).
    split; [|intros (d & Hd & [?|?]); congruence]. eapply rewrite_after; [exact Hm1|done|exact Hc|exact Hupd|].
    rewrite (view_eta _ _ _ Hc eq_refl) at 1. apply vs_connected; auto.
  - destruct Hrev as [?|(d & Hd & Hdst)]; [done|]. rewrite Hc in Hd. injection Hd as <-.
    assert (st = ConnectionStateDisconnecting ∨ st = ConnectionStateRevocationRequired) as Hst'.
    { clear -H0 Hst. destruct st; auto; [done..|]. vm_compute in H0. done. }
    split.
    + eapply rewrite_after; [exact Hm1|done|exact Hc|exact Hupd|]. rewrite (view_eta _ _ _ Hc eq_refl) at 1. by apply vs_revocation_failed.
    + intros _. apply view_update_connection in Hupd as (d & _ & _ & -> & _ & _ & Hv & _); [|done]. rewrite Hv. by eexists.
Qed.

(** ** Any operation *)
Record WInv (db : WDB) : Prop := { wi_tables : tables db; wi_linked : ∀ w, linked (view db w) }.
Lemma op_lives clock o db db' :
  WInv db → disciplined db o → commits clock o db db' → ∃ w, lives o db db' w.
Proof.
  intros [Ht L] Hd Hc. destruct o; destruct Hc as [r Hc]; cbn in Hd.
  - eauto using prepare_lives.
  - eauto using begin_lives.
  - eapply (finish_lives (WFail id code at_)) in Hc as (a & _ & _ & Hl); [eauto|done|done|]. intros. by apply fate_failed.
  - eapply (finish_lives (WUnknown id code at_)) in Hc as (a & _ & _ & Hl); [eauto|done|done|]. intros. apply fate_unknown; auto.
  - eauto using reconnect_lives.
  - eauto using activate_lives.
  - eexists. by eapply disconnect_lives.
  - eauto using begin_revocation_lives.
  - eauto using revoked_lives.
  - destruct Hd. eexists. by eapply revocation_failed_lives.
  - eauto using recover_lives.
Qed.
Lemma linked_steps v v' : rtc vstep v v' → linked v → linked v'.
Proof. induction 1; eauto using linked_vstep. Qed.
Lemma WInv_lives o db db' w : WInv db → lives o db db' w → WInv db'.
Proof.
  intros [_ L] H. split; [apply H|]. intros u. destruct (Z.eq_dec u w) as [->|Hne].
  - destruct (lives_path _ _ _ _ H) as [Hs|[_ Hs]]; [by eapply linked_steps|by eapply linked_vactivate].
  - by rewrite (lv_others _ _ _ _ H).
Qed.

(** ** The database over time

    The wallet selection changes on its own. *)
Definition set_w_selections s db := Build_WDB (w_connections db) (w_credentials db) (w_attempts db) s.
Inductive wstep : WDB → WDB → Prop :=
| wstep_op clock o db db' : disciplined db o → commits clock o db db' → wstep db db'
| wstep_selections s db : wstep db (set_w_selections s db).
Definition empty_wdb (s : selections) : WDB := {| w_connections := []; w_credentials := []; w_attempts := []; w_selections := s |}.
Definition w_reachable (db : WDB) : Prop := ∃ s, rtc wstep (empty_wdb s) db.

Lemma tables_selections s db : tables db → tables (set_w_selections s db).
Proof. intros []. by constructor. Qed.
Lemma WInv_step db db' : WInv db → wstep db db' → WInv db'.
Proof.
  intros I Hs. destruct Hs as [clock o d d' Hd Hc|s d]; [destruct (op_lives _ _ _ _ I Hd Hc) as [w Hl]; by eapply WInv_lives|].
  destruct I as [Ht L]. split; [by apply tables_selections|done].
Qed.
Lemma WInv_empty s : WInv (empty_wdb s).
Proof.
  split.
  - constructor; cbn; try apply NoDup_nil_2; try (by intros ? ?%not_elem_of_nil); try (by intros ? ? ?%not_elem_of_nil).
    by intros w a b [?%not_elem_of_nil _].
  - intros w. change (view (empty_wdb s) w) with {| v_conn := None; v_act := None; v_cred := false |}.
    split; cbn; try done.
Qed.
Lemma WInv_steps db db' : rtc wstep db db' → WInv db → WInv db'.
Proof. induction 1; eauto using WInv_step. Qed.
Lemma WInv_reachable db : w_reachable db → WInv db.
Proof. intros [s Hs]. eauto using WInv_steps, WInv_empty. Qed.

(** ** The lock *)
(** A credential of the wallet was regenerated between the two databases. *)
Definition regenerated_between (db db' : WDB) (w : Z) : Prop :=
  ∃ x, x ∈ w_attempts db' ∧ (x ∉ w_attempts db) ∧ ca_wallet_id x = w ∧ ca_kind x = ConnectionAttemptKindRegenerate
    ∧ ca_state x = ConnectionAttemptStateCompleted.
Lemma locked_steps v v' : rtc vstep v v' → linked v → locked v → locked v'.
Proof. induction 1; eauto using locked_vstep, linked_vstep. Qed.
Lemma vactivate_act v v' :
  vactivate v v' → v_act v' = None ∧ ∃ a, v_act v = Some a ∧ ca_state a = ConnectionAttemptStateCompleting.
Proof. destruct 1. split; [done|]. by eexists. Qed.
Lemma locked_op clock o db db' w :
  WInv db → disciplined db o → commits clock o db db' → locked (view db w) → locked (view db' w) ∨ regenerated_between db db' w.
Proof.
  intros I Hd Hc Hlock. destruct (op_lives _ _ _ _ I Hd Hc) as [u Hl]. pose proof (WInv_lives _ _ _ _ I Hl) as [Ht' _]. destruct I as [Ht L].
  destruct (Z.eq_dec w u) as [->|Hne]; [|left; by rewrite (lv_others _ _ _ _ Hl)].
  destruct (lives_path _ _ _ _ Hl) as [Hs|[(serial & req & ->) Hs]]; [left; by eapply locked_steps|].
  destruct (locked_vactivate _ _ Hs (L u) Hlock) as (a & Ha & Hk). apply view_act in Ha as Hact; [|done]. pose proof Hact as (Hin & Hw & Hactive).
  destruct (lv_older _ _ _ _ Hl a Hin) as (x & Hx & Hsame & _).
  assert (attempt_active (ca_state x) = false) as Hterm.
  { destruct (attempt_active (ca_state x)) eqn:E; [|done]. assert (act db' u x) as Hax by (destruct Hsame as (_ & ? & _); split_and!; congruence).
    apply view_act in Hax; [|done]. apply vactivate_act in Hs as [Hno _]. congruence. }
  assert (x ∉ w_attempts db) as Hnew.
  { intros Hxin. assert (x = a) as -> by (apply (NoDup_key_inj ca_id (w_attempts db)); [apply Ht|done..|apply Hsame]). congruence. }
  destruct (lv_attempts _ _ _ _ Hl x Hx) as [?|[Hp|(b & (Hb & _) & Hbx & Hfate)]]; [done|by rewrite Hp in Hterm|].
  assert (b = a) as -> by (apply (NoDup_key_inj ca_id (w_attempts db)); [apply Ht|done..|]; destruct Hbx as (<- & _), Hsame as (<- & _); done).
  assert (ca_state a = ConnectionAttemptStateCompleting) as Hst.
  { apply vactivate_act in Hs as [_ (a0 & Ha0 & Hst)]. congruence. }
  inversion Hfate; subst; try congruence; [by left|]. right. exists x. destruct Hsame as (_ & Hwx & _ & Hkx & _). split_and!; congruence.
Qed.
Lemma older_step db db' : WInv db → wstep db db' → older db db'.
Proof.
  intros I Hs. destruct Hs as [clock o d d' Hd Hc|s d]; [|by apply older_same]. destruct (op_lives _ _ _ _ I Hd Hc) as [w Hl]. apply Hl.
Qed.
Lemma older_terminal db db' a : older db db' → a ∈ w_attempts db → attempt_active (ca_state a) = false → a ∈ w_attempts db'.
Proof. intros Ho Ha Hst. destruct (Ho a Ha) as (a' & Ha' & _ & _ & Heq). by rewrite <- Heq. Qed.
Lemma locked_run db db' w :
  rtc wstep db db' → WInv db → locked (view db w) → locked (view db' w) ∨ regenerated_between db db' w.
Proof.
  induction 1 as [db|db db1 db2 H1 H2 IH]; intros I Hl; [by left|]. pose proof (WInv_step _ _ I H1) as I1.
  pose proof (older_step _ _ I H1) as Ho. assert (older db1 db2) as Ho2.
  { clear -H2 I1. induction H2; [done|]. etrans; [by eapply older_step|]. apply IHrtc. by eapply WInv_step. }
  assert (locked (view db1 w) ∨ regenerated_between db db1 w) as [Hl1|(x & Hx & Hn & Hw & Hk & Hst)].
  { destruct H1 as [clock o d d' Hd Hc|s d]; [by eapply locked_op|by left]. }
  - destruct (IH I1 Hl1) as [?|(x & Hx & Hn & Hw & Hk & Hst)]; [by left|right]. exists x. split_and!; try done.
    intros Hxd. apply Hn. eapply older_terminal; [done|done|by rewrite Hst].
  - right. exists x. split_and!; try done. eapply older_terminal; [done|done|by rewrite Hst].
Qed.
(** An attempt whose outcome became unknown has locked its wallet. *)
Lemma unknown_op clock o db db' x :
  WInv db → disciplined db o → commits clock o db db' → x ∈ w_attempts db' → x ∉ w_attempts db →
  ca_state x = ConnectionAttemptStateOutcomeUnknown → locked (view db' (ca_wallet_id x)).
Proof.
  intros I Hd Hc Hx Hn Hst. destruct (op_lives _ _ _ _ I Hd Hc) as [u Hl].
  destruct (lv_attempts _ _ _ _ Hl x Hx) as [?|[Hp|(a & _ & (_ & Hw & _) & Hfate)]]; [done|congruence|]. rewrite Hw.
  destruct Hfate; congruence || done.
Qed.
Lemma unknown_run db db' x :
  rtc wstep db db' → WInv db → x ∈ w_attempts db' → x ∉ w_attempts db → ca_state x = ConnectionAttemptStateOutcomeUnknown →
  locked (view db' (ca_wallet_id x)) ∨ regenerated_between db db' (ca_wallet_id x).
Proof.
  intros Hs I Hx Hn Hst. induction Hs as [db|db db1 db2 H1 H2 IH]; [done|]. pose proof (WInv_step _ _ I H1) as I1.
  pose proof (older_step _ _ I H1) as Ho.
  assert (regenerated_between db1 db2 (ca_wallet_id x) → regenerated_between db db2 (ca_wallet_id x)) as Hback.
  { intros (y & Hy & Hyn & Hw & Hk & Hys). exists y. split_and!; try done. intros Hyd. apply Hyn.
    eapply older_terminal; [exact Ho|done|by rewrite Hys]. }
  destruct (decide (x ∈ w_attempts db1)) as [Hin|Hin].
  - assert (locked (view db1 (ca_wallet_id x))) as Hl.
    { destruct H1 as [clock o d d' Hd Hc|s d]; [by apply (unknown_op clock o d d')|done]. }
    destruct (locked_run _ _ _ H2 I1 Hl) as [?|?]; auto.
  - destruct (IH I1 Hx Hin) as [?|?]; auto.
Qed.
End Ops.
