(* ===== verification/ConnectionService.v ===== *)
(** * Worm wallet connections: the service

    [internal/wormtrading/worm_connections.go] with the maintenance of [service.go].
    A handler is a program over the operations it performs on the store, the
    provider, the cipher, the clock, the UUID source and the mutex of a wallet.
    Health bookkeeping ([recordCredentialStoreResult], [recordWormResult]) and
    request deadlines have no effect on the program and are left out, and the
    provider exposure check before a disconnection
    ([ensureWalletSelectionRemovalAllowed]) is one operation with any reply. *)

From S2P Require Import Prelude Prog Sql CashOutTypes CashOutStages CashOutWorker ConnectionTypes ConnectionStore.
From stdpp Require Import base tactics option list list_numbers sorting strings gmap.
From Stdlib Require Import ZArith Lia Ascii.
#[local] Open Scope Z_scope.

(** ** Parameters: [crypto/sha256], [crypto/ed25519] and [base58] *)
Class ChallengeLib := {
  sha256 : string → string;
  ed25519_verify : string → string → string → bool;
  base58_decode : string → option string;
  base58_encode : string → string }.

(** ** Data *)
Record AuthChallenge := { ch_nonce : string; ch_message : string; ch_expires_in_seconds : Z }.
Record CreateAPIKeyRequest := { ck_wallet_address : string; ck_message : string; ck_signature : string; ck_nonce : string }.
Record APIKeySecret := { ak_api_key : string; ak_secret : string }.
Record PrepareWormWalletConnectionRequest := {
  pw_owner_account_id : string; pw_wallet_id : Z; pw_address : string; pw_reconnect : bool;
  pw_regenerate_unknown_credential : bool }.
Record PrepareWormWalletConnectionResponse := {
  pr_attempt_id : string; pr_wallet_id : Z; pr_address : string; pr_nonce : string; pr_message : string;
  pr_message_sha256 : string; pr_expires_at : Z }.
Record CompleteWormWalletConnectionRequest := {
  cw_owner_account_id : string; cw_attempt_id : string; cw_wallet_id : Z; cw_address : string;
  cw_message_sha256 : string; cw_signature : string }.
Record DisconnectWormWalletRequest := { dw_owner_account_id : string; dw_wallet_id : Z; dw_address : string }.
Record WormWalletConnection := {
  wc_wallet_id : Z; wc_address : string; wc_state : ConnectionState; wc_warning_code : string; wc_connected_at : Z }.

(** ** Operations *)
(** A key is created for an attempt, which is carried as a ghost. *)
Inductive op :=
| OpNow
| OpNewString
| OpCtxErr
| OpCapability
| OpLock (wallet : Z)
| OpUnlock (wallet : Z)
| OpSelection (owner : string)
| OpRemovalAllowed (owner : string) (wallet : Z) (address : string) (revision : Z)
| OpSnapshot (wallet : Z) (address : string)
| OpPrepare (req : PrepareConnectionAttemptRequest)
| OpBegin (req : BeginConnectionAttemptCompletionRequest)
| OpFail (attempt code : string) (at_ : Z)
| OpUnknown (attempt code : string) (at_ : Z)
| OpActivate (req : ActivateCredentialRequest)
| OpDisconnect (owner : string) (wallet : Z) (address : string) (at_ : Z)
| OpBeginRevocation (wallet credential at_ : Z)
| OpRevoked (wallet credential at_ : Z)
| OpRevocationFailed (wallet credential : Z) (st : ConnectionState) (ks : CredentialState) (code : string) (at_ : Z)
| OpListRevocations (retry_before limit : Z)
| OpRetired (owner : string) (wallet : Z) (address : string)
| OpRecover (at_ limit : Z)
| OpExpire (at_ limit : Z)
| OpEncrypt (wallet : Z) (key secret : string)
| OpDecrypt (wallet : Z) (key secret : string)
| OpNewClient (credential : option (string * string))
| OpChallenge (address : string)
| OpCreateKey (attempt : string) (req : CreateAPIKeyRequest)
| OpRevokeKey (credential : string * string) (key : string).
Definition resp (o : op) : Type :=
  match o with
  | OpNow => Z
  | OpNewString => string
  | OpCtxErr => bool
  | OpCapability => result rpc_error unit
  | OpLock _ | OpUnlock _ => unit
  | OpSelection _ => result CWError WalletSelection
  | OpRemovalAllowed _ _ _ _ => result rpc_error unit
  | OpSnapshot _ _ | OpActivate _ => result CWError WalletConnectionSnapshot
  | OpPrepare _ | OpBegin _ => result CWError ConnectionAttempt
  | OpFail _ _ _ | OpUnknown _ _ _ | OpRevoked _ _ _ | OpRevocationFailed _ _ _ _ _ _ | OpRetired _ _ _ | OpExpire _ _ => result CWError unit
  | OpDisconnect _ _ _ _ | OpBeginRevocation _ _ _ => result CWError StoredCredential
  | OpListRevocations _ _ => result CWError (list StoredCredential)
  | OpRecover _ _ => result CWError Z
  | OpEncrypt _ _ _ | OpDecrypt _ _ _ => option (string * string)
  | OpNewClient _ => option go_error
  | OpChallenge _ => result go_error (option AuthChallenge)
  | OpCreateKey _ _ => result go_error (option APIKeySecret)
  | OpRevokeKey _ _ => option go_error
  end.
Abbreviation prog := (program resp).
Abbreviation call := (Prog.call (resp := resp)).

(** [defer unlock()] around the rest of a handler. *)
Definition with_wallet_lock {A} (wallet : Z) (body : prog A) : prog A :=
  _ ← call (OpLock wallet); r ← body; _ ← call (OpUnlock wallet); mret r.
(** [if err != nil { return nil, f(err) }] *)
Definition or_status {E A} (f : E → rpc_error) (p : prog (result E A)) : prog (result rpc_error A) :=
  r ← p; mret match r with Ok a => Ok a | Err e => Err (f e) end.
Definition must (b : bool) (e : rpc_error) : prog (result rpc_error unit) := mret (require b e).

(** ** Constants and errors *)
Definition maxWormChallengeNonceBytes : nat := 512.
Definition maxWormChallengeMessageBytes : nat := 1024.
Definition maxWormChallengeLifetime : Z := 60 * 60.
Definition wormErrorCredentialUnavailable : string := "CREDENTIAL_UNAVAILABLE".
Definition wormErrorConnectOutcomeUnknown : string := "CONNECT_OUTCOME_UNKNOWN".
Definition wormWarningRevocationRequired : string := "REVOCATION_REQUIRED".
Definition walletSelectionRemovalCheckUnavailable : string := "REMOVAL_CHECK_UNAVAILABLE".

Definition wormCreateOutcomeIsUnknown (err : go_error) : bool :=
  let code := classifyWormError (Some err) in
  bool_decide (code = wormErrorUnavailable) || bool_decide (code = wormErrorInvalidResponse)
  || bool_decide (code = wormErrorTimeout) || bool_decide (code = wormErrorCancelled).
Definition wormRevocationCanRetry (err : option go_error) : bool :=
  let code := classifyWormError err in
  bool_decide (code = wormErrorUnavailable) || bool_decide (code = wormErrorRateLimited)
  || bool_decide (code = wormErrorInvalidResponse) || bool_decide (code = wormErrorTimeout) || bool_decide (code = wormErrorCancelled).
Definition wormRPCError (operation : string) (err : go_error) : rpc_error :=
  let code := classifyWormError (Some err) in
  if bool_decide (code = wormErrorCancelled) then {| st_code := Canceled; st_message := None |}
  else if bool_decide (code = wormErrorTimeout) then status DeadlineExceeded (operation +:+ " timed out")
  else if bool_decide (code = wormErrorRateLimited) then status ResourceExhausted (operation +:+ " was rate limited")
  else if bool_decide (code = wormErrorReconnectRequired) then status FailedPrecondition (operation +:+ " requires reconnection")
  else if bool_decide (code = wormErrorRejected) then status FailedPrecondition (operation +:+ " was rejected")
  else if bool_decide (code = wormErrorInvalidResponse) then status Unavailable (operation +:+ " returned an invalid response")
  else status Unavailable (operation +:+ " is unavailable").
Definition connectionStoreRPCError (operation : string) (err : CWError) : rpc_error :=
  match err with
  | ErrWalletConnectionNotFound | ErrConnectionAttemptNotFound => status NotFound (operation +:+ ": record not found")
  | ErrWalletAddressMismatch => status PermissionDenied (operation +:+ ": wallet address mismatch")
  | ErrConnectionAlreadyConnected | ErrConnectionOperationActive => status AlreadyExists (operation +:+ ": conflicting connection state")
  | ErrConnectionNotConnected | ErrConnectionAttemptState | ErrCredentialNotFound =>
      status FailedPrecondition (operation +:+ ": invalid connection state")
  | ErrConnectionAttemptExpired => status DeadlineExceeded (operation +:+ ": connection challenge expired")
  | ErrCredentialOutcomeUnknown | ErrTransactionOutcomeUnknown => status Aborted "Worm credential creation outcome is unknown"
  | ErrWalletNotSelected => status FailedPrecondition "WALLET_NOT_SELECTED"
  | ErrWalletNotRetiring => status FailedPrecondition "WALLET_NOT_RETIRING"
  | ErrWalletConnectionCapacityPending => status FailedPrecondition "WALLET_CONNECTION_CAPACITY_PENDING"
  | CWCanceled => {| st_code := Canceled; st_message := None |}
  | CWDeadlineExceeded => {| st_code := DeadlineExceeded; st_message := None |}
  | _ => status Internal operation
  end.
Definition walletSelectionRPCError (err : CWError) : rpc_error :=
  match err with
  | ErrWalletSelectionRevision => status Aborted "Wallet selection revision conflict"
  | WalletSelectionRetirementBlockedError _ reason =>
      status FailedPrecondition (if bool_decide (trim_space reason = EmptyString) then walletSelectionRemovalCheckUnavailable
                                 else trim_space reason)
  | ErrWalletConnectionCapacityPending => status FailedPrecondition "WALLET_CONNECTION_CAPACITY_PENDING"
  | ErrWalletNotSelected => status FailedPrecondition "WALLET_NOT_SELECTED"
  | ErrWalletNotRetiring => status FailedPrecondition "WALLET_NOT_RETIRING"
  | ErrWalletRetirementIncomplete => status FailedPrecondition "WALLET_RETIREMENT_INCOMPLETE"
  | ErrInvalidWalletSelection => {| st_code := InvalidArgument; st_message := None |}
  | CWCanceled => {| st_code := Canceled; st_message := None |}
  | CWDeadlineExceeded => {| st_code := DeadlineExceeded; st_message := None |}
  | _ => status Internal "Wallet selection store operation failed"
  end.

Section Service.
Context {UL : UuidLib} {CL : ChallengeLib}.

(** ** Pure helpers *)
(** The loop ranges over code points: the C0 controls and DEL are single bytes, the
    C1 controls the two bytes [C2 80] to [C2 9F]. *)
Fixpoint containsControlCharacter (value : string) : bool :=
  match value with
  | EmptyString => false
  | String a rest =>
      let n := N_of_ascii a in
      (n <? 32)%N || (n =? 127)%N
      || (n =? 194)%N && match rest with
                         | String b _ => (128 <=? N_of_ascii b)%N && (N_of_ascii b <=? 159)%N
                         | EmptyString => false
                         end
      || containsControlCharacter rest
  end.
Definition expectedWormChallengeMessage (address nonce : string) : string :=
  "Create Worm API credential | Wallet: " +:+ address +:+ " | Nonce: " +:+ nonce.
Definition canonical_address (address : string) : bool :=
  match base58_decode address with
  | Some decoded => bool_decide (String.length decoded = 32%nat) && bool_decide (base58_encode decoded = address)
  | None => false
  end.
(** [now] is the clock at the end of the function. *)
Definition validateWormAuthChallenge (now : Z) (address : string) (challenge : option AuthChallenge) :
    option (string * string * Z * string) :=
  match challenge with
  | None => None
  | Some c =>
      let nonce := ch_nonce c in
      let message := ch_message c in
      if bool_decide (nonce = EmptyString) || negb (bool_decide (nonce = trim_space nonce))
         || bool_decide (maxWormChallengeNonceBytes < String.length nonce)%nat || containsControlCharacter nonce then None
      else if bool_decide (message = EmptyString) || bool_decide (maxWormChallengeMessageBytes < String.length message)%nat
         || containsControlCharacter message || negb (bool_decide (message = expectedWormChallengeMessage address nonce)) then None
      else if (ch_expires_in_seconds c <=? 0) || (maxWormChallengeLifetime <? ch_expires_in_seconds c)
         || (max_int64 / second <? ch_expires_in_seconds c) then None
      else Some (nonce, message, now + ch_expires_in_seconds c * second, sha256 message)
  end.
Definition verifyWormChallengeSignature (address message signature : string) : bool :=
  match base58_decode address with
  | Some publicKey =>
      bool_decide (String.length publicKey = 32%nat) && bool_decide (base58_encode publicKey = address)
      && bool_decide (String.length signature = 64%nat) && ed25519_verify publicKey message signature
  | None => false
  end.
Definition normalizeWormWalletReference (walletID : Z) (address : string) : result rpc_error unit :=
  _ ← require (0 <? walletID) (status InvalidArgument "wallet_id must be positive");
  require (negb (bool_decide (address = EmptyString)) && bool_decide (address = trim_space address) && canonical_address address)
    (status InvalidArgument "address must be a canonical Solana address").
Definition normalizeMarketCombinationAccountID (value : string) : result rpc_error string :=
  match uuid_parse (trim_space value) with
  | Some parsed => if (parsed =? 0)%N then Err (status InvalidArgument "owner_account_id must be a valid non-zero UUID")
                   else Ok (uuid_string parsed)
  | None => Err (status InvalidArgument "owner_account_id must be a valid non-zero UUID")
  end.
Definition walletSelectionContains (selection : WalletSelection) (walletID : Z) (address : string) : bool :=
  wsel_configured selection && existsb (λ i, (wsi_wallet_id i =? walletID) && bool_decide (wsi_address i = address)) (wsel_selected_items selection).
Definition walletSelectionContainsRetirement (selection : WalletSelection) (walletID : Z) (address : string) : bool :=
  wsel_configured selection && existsb (λ r, (wre_wallet_id r =? walletID) && bool_decide (wre_address r = address)) (wsel_retirements selection).
Definition wormWalletConnectionFromStore (snapshot : WalletConnectionSnapshot) : WormWalletConnection := {|
  wc_wallet_id := ws_wallet_id snapshot;
  wc_address := if bool_decide (ws_stored_address snapshot = EmptyString) then ws_requested_address snapshot
                else ws_stored_address snapshot;
  wc_state := ws_state snapshot; wc_warning_code := ws_warning_code snapshot;
  wc_connected_at := if ws_connected_at snapshot =? 0 then 0 else unix_seconds (ws_connected_at snapshot) |}.
Definition hex_digit (n : N) : ascii := ascii_of_N (if (n <? 10)%N then 48 + n else 87 + n).
Fixpoint hex_EncodeToString (s : string) : string :=
  match s with
  | EmptyString => EmptyString
  | String a rest => String (hex_digit (N_of_ascii a / 16)) (String (hex_digit (N_of_ascii a mod 16)) (hex_EncodeToString rest))
  end.

(** ** Effects shared by the handlers *)
Definition failConnectionAttempt (attemptID failureCode : string) : prog unit :=
  now ← call OpNow; _ ← call (OpFail attemptID failureCode now); mret tt.
Definition markConnectionAttemptOutcomeUnknown (attemptID : string) : prog unit :=
  now ← call OpNow; _ ← call (OpUnknown attemptID wormErrorConnectOutcomeUnknown now); mret tt.
Definition markCredentialRevocationFailed (credential : StoredCredential) (connectionState : ConnectionState)
    (credentialState : CredentialState) (warning : string) : prog unit :=
  now ← call OpNow;
  _ ← call (OpRevocationFailed (sc_wallet_id credential) (sc_id credential) connectionState credentialState warning now);
  mret tt.
Definition bestEffortRevokeCredential (apiKey apiSecret : string) : prog bool :=
  err ← call (OpNewClient (Some (apiKey, apiSecret)));
  match err with
  | Some _ => mret false
  | None =>
      err ← call (OpRevokeKey (apiKey, apiSecret) apiKey);
      mret (match err with None => true | Some _ => isWormNotFoundError err end)
  end.
(** [if err := check; err != nil { s.failConnectionAttempt(...); return nil, err }] *)
Definition or_fail {A} (b : bool) (attemptID failureCode : string) (e : rpc_error) (rest : prog (result rpc_error A)) :
    prog (result rpc_error A) :=
  if b then rest else _ ← failConnectionAttempt attemptID failureCode; mret (Err e).

(** ** Prepare *)
Definition PrepareWormWalletConnection (req : PrepareWormWalletConnectionRequest) :
    prog (result rpc_error PrepareWormWalletConnectionResponse) :=
  _ ←! call OpCapability;
  _ ←! mret (normalizeWormWalletReference (pw_wallet_id req) (pw_address req));
  let walletID := pw_wallet_id req in
  let address := pw_address req in
  ownerAccountID ←! mret (normalizeMarketCombinationAccountID (pw_owner_account_id req));
  selection ←! or_status walletSelectionRPCError (call (OpSelection ownerAccountID));
  _ ←! must (walletSelectionContains selection walletID address) (status FailedPrecondition "WALLET_NOT_SELECTED");
  _ ←! must (negb (pw_reconnect req && pw_regenerate_unknown_credential req))
         (status InvalidArgument "reconnect and regenerate_unknown_credential are mutually exclusive");
  with_wallet_lock walletID (
    err ← call (OpNewClient None);
    _ ←! must (match err with None => true | Some _ => false end) (status Internal "create Worm API client");
    challenge ←! or_status (wormRPCError "prepare Worm wallet connection") (call (OpChallenge address));
    issued ← call OpNow;
    match validateWormAuthChallenge issued address challenge with
    | None => mret (Err (status Unavailable "Worm returned an invalid authentication challenge"))
    | Some (nonce, message, expiresAt, digest) =>
        let kind := if pw_regenerate_unknown_credential req then ConnectionAttemptKindRegenerate
                    else if pw_reconnect req then ConnectionAttemptKindReconnect else ConnectionAttemptKindConnect in
        now ← call OpNow;
        attemptID ← call OpNewString;
        attempt ←! or_status (connectionStoreRPCError "persist Worm connection challenge") (call (OpPrepare {|
          pa_attempt_id := attemptID; pa_owner_account_id := ownerAccountID; pa_wallet_id := walletID; pa_address := address;
          pa_kind := kind; pa_nonce := nonce; pa_challenge_message := message; pa_message_digest := digest;
          pa_expires_at := expiresAt; pa_now := now |}));
        if bool_decide (cat_id attempt = EmptyString) || negb (cat_wallet_id attempt =? walletID)
           || negb (bool_decide (cat_address attempt = address)) || negb (bool_decide (cat_message_digest attempt = digest))
           || negb (bool_decide (cat_challenge_message attempt = message)) || negb (bool_decide (cat_nonce attempt = nonce))
        then mret (Err (status Internal "Worm credential store returned a mismatched connection attempt"))
        else mret (Ok {| pr_attempt_id := cat_id attempt; pr_wallet_id := walletID; pr_address := address; pr_nonce := nonce;
                         pr_message := message; pr_message_sha256 := digest; pr_expires_at := unix_seconds (cat_expires_at attempt) |})
    end).

(** ** Complete *)
(** After the provider returned a credential. *)
Definition persistCredential (ownerAccountID attemptID : string) (walletID : Z) (address : string) (credential : APIKeySecret) :
    prog (result rpc_error WormWalletConnection) :=
  let key := ak_api_key credential in
  let secret := ak_secret credential in
  encrypted ← call (OpEncrypt walletID key secret);
  match encrypted with
  | None =>
      revoked ← bestEffortRevokeCredential key secret;
      _ ← (if revoked : bool then failConnectionAttempt attemptID "CREDENTIAL_ENCRYPTION_FAILED"
           else markConnectionAttemptOutcomeUnknown attemptID);
      mret (Err (status Internal "persist Worm credential"))
  | Some (apiKeyCiphertext, apiSecretCiphertext) =>
      now ← call OpNow;
      activated ← call (OpActivate {| ac_owner_account_id := ownerAccountID; ac_attempt_id := attemptID; ac_wallet_id := walletID;
        ac_address := address; ac_api_key_ciphertext := apiKeyCiphertext; ac_api_secret_ciphertext := apiSecretCiphertext;
        ac_now := now |});
      match activated with
      | Err ErrTransactionOutcomeUnknown =>
          _ ← markConnectionAttemptOutcomeUnknown attemptID;
          mret (Err (status Aborted "Worm credential creation outcome is unknown"))
      | Err _ =>
          revoked ← bestEffortRevokeCredential key secret;
          _ ← (if revoked : bool then failConnectionAttempt attemptID "CREDENTIAL_PERSIST_FAILED"
               else markConnectionAttemptOutcomeUnknown attemptID);
          mret (Err (status Internal "persist Worm credential"))
      | Ok snapshot =>
          if (ws_wallet_id snapshot =? walletID) && bool_decide (ws_stored_address snapshot = address)
          then mret (Ok (wormWalletConnectionFromStore snapshot))
          else mret (Err (status Internal "Worm credential store returned a mismatched connection"))
      end
  end.
(** The one request that creates a credential. *)
Definition createCredential (ownerAccountID attemptID : string) (walletID : Z) (address : string) (attempt : ConnectionAttempt)
    (signature : string) : prog (result rpc_error WormWalletConnection) :=
  created ← call (OpCreateKey attemptID {| ck_wallet_address := address; ck_message := cat_challenge_message attempt;
    ck_signature := hex_EncodeToString signature; ck_nonce := cat_nonce attempt |});
  match created with
  | Err requestErr =>
      if wormCreateOutcomeIsUnknown requestErr then
        _ ← markConnectionAttemptOutcomeUnknown attemptID;
        mret (Err (status Aborted "Worm credential creation outcome is unknown"))
      else
        _ ← failConnectionAttempt attemptID (classifyWormError (Some requestErr));
        mret (Err (wormRPCError "complete Worm wallet connection" requestErr))
  | Ok None =>
      _ ← markConnectionAttemptOutcomeUnknown attemptID;
      mret (Err (status Aborted "Worm credential creation outcome is unknown"))
  | Ok (Some credential) =>
      if bool_decide (trim_space (ak_api_key credential) = EmptyString) || bool_decide (trim_space (ak_secret credential) = EmptyString) then
        _ ← markConnectionAttemptOutcomeUnknown attemptID;
        mret (Err (status Aborted "Worm credential creation outcome is unknown"))
      else persistCredential ownerAccountID attemptID walletID address credential
  end.
Definition CompleteWormWalletConnection (req : CompleteWormWalletConnectionRequest) : prog (result rpc_error WormWalletConnection) :=
  _ ←! call OpCapability;
  let attemptID := trim_space (cw_attempt_id req) in
  _ ←! must (negb (bool_decide (attemptID = EmptyString))) (status InvalidArgument "attempt_id is required");
  _ ←! must (match uuid_parse attemptID with Some _ => true | None => false end) (status InvalidArgument "attempt_id is invalid");
  _ ←! mret (normalizeWormWalletReference (cw_wallet_id req) (cw_address req));
  let walletID := cw_wallet_id req in
  let address := cw_address req in
  ownerAccountID ←! mret (normalizeMarketCombinationAccountID (cw_owner_account_id req));
  selection ←! or_status walletSelectionRPCError (call (OpSelection ownerAccountID));
  _ ←! must (walletSelectionContains selection walletID address) (status FailedPrecondition "WALLET_NOT_SELECTED");
  _ ←! must (bool_decide (String.length (cw_message_sha256 req) = 32%nat)) (status InvalidArgument "message_sha256 must contain 32 bytes");
  _ ←! must (bool_decide (String.length (cw_signature req) = 64%nat)) (status InvalidArgument "signature must contain 64 bytes");
  with_wallet_lock walletID (
    now ← call OpNow;
    attempt ←! or_status (connectionStoreRPCError "begin Worm connection completion") (call (OpBegin {|
      ba_owner_account_id := ownerAccountID; ba_attempt_id := attemptID; ba_wallet_id := walletID; ba_address := address; ba_now := now |}));
    or_fail ((cat_wallet_id attempt =? walletID) && bool_decide (cat_address attempt = address)) attemptID "ATTEMPT_MISMATCH"
      (status PermissionDenied "Worm connection attempt does not match the wallet") (
    or_fail (bool_decide (cat_message_digest attempt = cw_message_sha256 req)) attemptID "MESSAGE_DIGEST_MISMATCH"
      (status InvalidArgument "Worm challenge digest does not match") (
    or_fail (bool_decide (sha256 (cat_challenge_message attempt) = cat_message_digest attempt)
             && bool_decide (cat_challenge_message attempt = expectedWormChallengeMessage address (cat_nonce attempt)))
      attemptID "STORED_CHALLENGE_INVALID" (status Internal "stored Worm authentication challenge is invalid") (
    or_fail (verifyWormChallengeSignature address (cat_challenge_message attempt) (cw_signature req)) attemptID "SIGNATURE_INVALID"
      (status PermissionDenied "Worm authentication signature is invalid") (
    err ← call (OpNewClient None);
    or_fail (match err with None => true | Some _ => false end) attemptID "CLIENT_UNAVAILABLE" (status Internal "create Worm API client") (
    createCredential ownerAccountID attemptID walletID address attempt (cw_signature req))))))).

(** ** Revocation *)
Definition revokeStoredCredential (credential : StoredCredential) (disconnect : bool) : prog (result rpc_error unit) :=
  let unavailable :=
    _ ← markCredentialRevocationFailed credential
          (if disconnect then ConnectionStateRevocationRequired else ConnectionStateConnected)
          CredentialStateRevocationRequired wormErrorCredentialUnavailable;
    mret (Err (status Internal "stored Worm credential is unavailable")) in
  decrypted ← call (OpDecrypt (sc_wallet_id credential) (sc_api_key_ciphertext credential) (sc_api_secret_ciphertext credential));
  match decrypted with
  | None => unavailable
  | Some (apiKey, apiSecret) =>
      err ← call (OpNewClient (Some (apiKey, apiSecret)));
      match err with
      | Some _ => unavailable
      | None =>
          revokeErr ← call (OpRevokeKey (apiKey, apiSecret) apiKey);
          match revokeErr, isWormNotFoundError revokeErr with
          | Some e, false =>
              let connectionState :=
                if disconnect then if isWormAuthenticationError revokeErr then ConnectionStateRevocationRequired
                                   else ConnectionStateDisconnecting
                else ConnectionStateConnected in
              let credentialState := if negb disconnect && wormRevocationCanRetry revokeErr then CredentialStatePendingRevocation
                                     else CredentialStateRevocationRequired in
              let warningCode := if isWormAuthenticationError revokeErr then wormWarningRevocationRequired
                                 else classifyWormError revokeErr in
              _ ← markCredentialRevocationFailed credential connectionState credentialState warningCode;
              mret (Err (wormRPCError "revoke Worm wallet credential" e))
          | _, _ =>
              now ← call OpNow;
              marked ← call (OpRevoked (sc_wallet_id credential) (sc_id credential) now);
              mret (match marked with Ok _ => Ok tt | Err _ => Err (status Internal "persist Worm credential revocation") end)
          end
      end
  end.
(** [None] when the fuel is spent before the loop ends. *)
Fixpoint disconnect_loop (fuel : nat) (ownerAccountID : string) (walletID : Z) (address : string) :
    prog (option (result rpc_error WormWalletConnection)) :=
  match fuel with
  | O => mret None
  | S fuel' =>
      now ← call OpNow;
      credential ← call (OpDisconnect ownerAccountID walletID address now);
      match credential with
      | Err ErrConnectionNotConnected | Err ErrCredentialNotFound =>
          r ← (snapshot ←! or_status (connectionStoreRPCError "load disconnected Worm wallet") (call (OpSnapshot walletID address));
               _ ←! must (bool_decide (ws_state snapshot = ConnectionStateNotConnected)
                          && match ws_active_credential snapshot with None => true | Some _ => false end)
                      (status FailedPrecondition "WALLET_RETIREMENT_INCOMPLETE");
               _ ←! or_status walletSelectionRPCError (call (OpRetired ownerAccountID walletID address));
               mret (Ok (wormWalletConnectionFromStore snapshot)));
          mret (Some r)
      | Err e => mret (Some (Err (connectionStoreRPCError "begin Worm wallet disconnect" e)))
      | Ok stored =>
          r ← revokeStoredCredential stored true;
          match r with
          | Err e => mret (Some (Err e))
          | Ok _ => disconnect_loop fuel' ownerAccountID walletID address
          end
      end
  end.
Definition DisconnectWormWallet (fuel : nat) (req : DisconnectWormWalletRequest) : prog (option (result rpc_error WormWalletConnection)) :=
  let walletID := dw_wallet_id req in
  let address := dw_address req in
  r ← (_ ←! call OpCapability;
       _ ←! mret (normalizeWormWalletReference walletID address);
       ownerAccountID ←! mret (normalizeMarketCombinationAccountID (dw_owner_account_id req));
       selection ←! or_status walletSelectionRPCError (call (OpSelection ownerAccountID));
       _ ←! must (walletSelectionContainsRetirement selection walletID address) (status FailedPrecondition "WALLET_NOT_RETIRING");
       mret (Ok (ownerAccountID, selection)));
  match r with
  | Err e => mret (Some (Err e))
  | Ok (ownerAccountID, selection) =>
      with_wallet_lock walletID (
        r ← (snapshot ←! or_status (connectionStoreRPCError "inspect Worm wallet retirement") (call (OpSnapshot walletID address));
             if negb (bool_decide (ws_state snapshot = ConnectionStateDisconnecting))
                && negb (bool_decide (ws_state snapshot = ConnectionStateRevocationRequired))
             then call (OpRemovalAllowed ownerAccountID walletID address (wsel_revision selection))
             else mret (Ok tt));
        match r with
        | Err e => mret (Some (Err e))
        | Ok _ => disconnect_loop fuel ownerAccountID walletID address
        end)
  end.

(** ** Maintenance *)
Fixpoint revoke_each (credentials : list StoredCredential) : prog unit :=
  match credentials with
  | [] => mret tt
  | credential :: rest =>
      stopped ← call OpCtxErr;
      if stopped : bool then mret tt else
      _ ← with_wallet_lock (sc_wallet_id credential) (
            now ← call OpNow;
            stored ← call (OpBeginRevocation (sc_wallet_id credential) (sc_id credential) now);
            match stored with
            | Ok c => _ ← revokeStoredCredential c false; mret tt
            | Err _ => mret tt
            end);
      revoke_each rest
  end.
Definition revokePendingCredentials (wormAPIAttemptTimeout : Z) : prog unit :=
  now ← call OpNow;
  credentials ← call (OpListRevocations (now - wormAPIAttemptTimeout) 100);
  match credentials with Ok l => revoke_each l | Err _ => mret tt end.
(** One round of [runCredentialMaintenanceLoop]. *)
Definition maintenance_round (wormAPIAttemptTimeout : Z) : prog unit :=
  now ← call OpNow; _ ← call (OpExpire now 100); revokePendingCredentials wormAPIAttemptTimeout.
Definition wormConnectionRecoveryBatchSize : Z := 100.
(** The recovery loop of [Start]. *)
Fixpoint recovery_loop (fuel : nat) : prog (option (result rpc_error unit)) :=
  match fuel with
  | O => mret None
  | S fuel' =>
      now ← call OpNow;
      recovered ← call (OpRecover now wormConnectionRecoveryBatchSize);
      match recovered with
      | Err _ => mret (Some (Err (status Unavailable "Worm credential store recovery failed")))
      | Ok n => if n <? wormConnectionRecoveryBatchSize then mret (Some (Ok tt)) else recovery_loop fuel'
      end
  end.
End Service.
