(* ===== verification/ConnectionSafety.v ===== *)
(** * Worm wallet connections: what the handlers never do

    A monitor follows one handler: the wallet mutex it holds and how far it got
    with a credential.  Every handler obeys it, whatever it is replied. *)

From S2P Require Import Prelude Prog Sql CashOutTypes CashOutStages CashOutWorker ConnectionTypes ConnectionStore ConnectionService.
From stdpp Require Import base tactics option list list_numbers sorting strings gmap.
From Stdlib Require Import ZArith Lia Ascii.
#[local] Open Scope Z_scope.

(** [Begun]: the attempt was committed as COMPLETING, nothing was sent; [Sent]: a key
    may have been created; [Live]: this key was; [Dead]: none is left at the
    provider; [Revoking]: the disconnection of the wallet is under way. *)
Inductive phase :=
| Idle | Begun (id : string) (a : ConnectionAttempt) | Sent (id : string) | Live (id : string) (credential : string * string)
| Dead (id : string) | Revoking (wallet : Z).
Record mon := { m_lock : option Z; m_phase : phase }.
Definition goto (m : mon) (p : phase) : mon := {| m_lock := m_lock m; m_phase := p |}.
Definition revoked_ok (err : option go_error) : bool := match err with None => true | Some _ => isWormNotFoundError err end.

Definition mon_next (m : mon) (o : op) : resp o → mon :=
  match o return resp o → mon with
  | OpLock w => λ _, {| m_lock := Some w; m_phase := Idle |}
  | OpUnlock _ => λ _, {| m_lock := None; m_phase := Idle |}
  | OpBegin req => λ r, match r with Ok a => goto m (Begun (ba_attempt_id req) a) | Err _ => m end
  | OpFail _ _ _ | OpUnknown _ _ _ => λ _, goto m Idle
  | OpCreateKey id _ => λ r,
      match r with
      | Err e => goto m (if wormCreateOutcomeIsUnknown e then Sent id else Dead id)
      | Ok (Some c) => goto m (Live id (ak_api_key c, ak_secret c))
      | Ok None => goto m (Sent id)
      end
  | OpActivate _ => λ r, match r with Ok _ => goto m Idle | Err _ => m end
  | OpRevokeKey credential key => λ r,
      match m_phase m with
      | Live id c => if bool_decide (c = credential) && bool_decide (key = c.1) && revoked_ok r then goto m (Dead id) else m
      | _ => m
      end
  | OpDisconnect _ w _ _ => λ r, match r with Ok _ => goto m (Revoking w) | Err _ => m end
  | OpRevoked _ _ _ | OpRevocationFailed _ _ _ _ _ _ => λ _, goto m Idle
  | _ => λ _, m
  end.

Section Safety.
Context {UL : UuidLib} {CL : ChallengeLib}.

(** The request is signed by the wallet for the challenge of the attempt. *)
Definition authorized (a : ConnectionAttempt) (req : CreateAPIKeyRequest) : Prop :=
  ∃ signature, ck_wallet_address req = cat_address a ∧ ck_message req = cat_challenge_message a ∧ ck_nonce req = cat_nonce a
    ∧ ck_signature req = hex_EncodeToString signature
    ∧ ck_message req = expectedWormChallengeMessage (cat_address a) (cat_nonce a)
    ∧ verifyWormChallengeSignature (cat_address a) (ck_message req) signature = true.
Definition allowed (m : mon) (o : op) : Prop :=
  match o with
  | OpLock _ => m = {| m_lock := None; m_phase := Idle |}
  | OpUnlock w => m_lock m = Some w
  | OpPrepare req => m_lock m = Some (pa_wallet_id req) ∧ m_phase m = Idle
  | OpBegin req => m_lock m = Some (ba_wallet_id req) ∧ m_phase m = Idle
  | OpFail id code _ => code ≠ unknownCreateOutcomeWarning ∧ ((∃ a, m_phase m = Begun id a) ∨ m_phase m = Dead id)
  | OpUnknown id code _ => code = unknownCreateOutcomeWarning ∧ (m_phase m = Sent id ∨ ∃ c, m_phase m = Live id c)
  | OpActivate req => ∃ c, m_phase m = Live (ac_attempt_id req) c
  | OpCreateKey id req => ∃ a, m_phase m = Begun id a ∧ authorized a req
  | OpDisconnect _ w _ _ => m_lock m = Some w ∧ m_phase m = Idle
  | OpRevoked w _ _ => m_lock m = Some w
  | OpRevocationFailed w _ st _ code _ =>
      m_lock m = Some w ∧ code ≠ unknownCreateOutcomeWarning ∧ (st = ConnectionStateConnected ∨ m_phase m = Revoking w)
  | _ => True
  end.
(** The store returns credentials of the wallet it was asked about. *)
Definition stored_reply (o : op) : resp o → Prop :=
  match o return resp o → Prop with
  | OpDisconnect _ w _ _ | OpBeginRevocation w _ _ => λ r, ∀ c, r = Ok c → sc_wallet_id c = w
  | _ => λ _, True
  end.
Abbreviation safe := (obeys mon_next allowed stored_reply).

Lemma classify_not_unknown err : classifyWormError err ≠ unknownCreateOutcomeWarning.
Proof. unfold classifyWormError. repeat case_match; done. Qed.
Lemma safe_fail m id code :
  code ≠ unknownCreateOutcomeWarning → (∃ a, m_phase m = Begun id a) ∨ m_phase m = Dead id →
  safe m (failConnectionAttempt id code) (λ m' _, m' = goto m Idle).
Proof.
  intros Hc Hp. unfold failConnectionAttempt. obey_with ltac:(cbn; first [done|split; [done|]; done]). done.
Qed.
Lemma safe_unknown m id :
  m_phase m = Sent id ∨ (∃ c, m_phase m = Live id c) →
  safe m (markConnectionAttemptOutcomeUnknown id) (λ m' _, m' = goto m Idle).
Proof.
  intros Hp. unfold markConnectionAttemptOutcomeUnknown.
  obey_with ltac:(cbn; first [done|split; [done|]; done]). done.
Qed.
(** A confirmed revocation of the live key leaves nothing at the provider. *)
Lemma safe_best_effort m id key secret :
  m_phase m = Live id (key, secret) →
  safe m (bestEffortRevokeCredential key secret) (λ m' revoked, m' = if revoked : bool then goto m (Dead id) else m).
Proof.
  intros Hp. unfold bestEffortRevokeCredential. obey_with ltac:(cbn; done).
  all: cbn; rewrite ?Hp; try done.
  all: rewrite !bool_decide_eq_true_2 by done; cbn; try done.
Qed.
Ltac call_step := repeat apply obeys_bind;
  lazymatch goal with |- obeys ?δ ?al ?ad ?s (Prog.call ?o) ?Q => apply (obeys_call δ al ad s o Q) end.

(** ** Complete *)
Lemma safe_lock {A} w (body : prog A) :
  safe {| m_lock := Some w; m_phase := Idle |} body (λ m _, m_lock m = Some w) →
  safe {| m_lock := None; m_phase := Idle |} (with_wallet_lock w body) (λ m _, m = {| m_lock := None; m_phase := Idle |}).
Proof.
  intros Hb. unfold with_wallet_lock. call_step; [done|]. intros [] _. eapply obeys_seq; [exact Hb|].
  intros m r Hm. cbn beta in Hm. call_step; [done|]. intros [] _. done.
Qed.
Definition holding (w : Z) (m : mon) : Prop := m_lock m = Some w.
Lemma safe_fail_then {A} m id code w (x : A) :
  code ≠ unknownCreateOutcomeWarning → (∃ a, m_phase m = Begun id a) ∨ m_phase m = Dead id → holding w m →
  safe m (_ ← failConnectionAttempt id code; mret x) (λ m' _, holding w m').
Proof. intros Hc Hp Hw. eapply obeys_seq; [by apply safe_fail|]. by intros m' [] ->. Qed.
Lemma safe_unknown_then {A} m id w (x : A) :
  m_phase m = Sent id ∨ (∃ c, m_phase m = Live id c) → holding w m →
  safe m (_ ← markConnectionAttemptOutcomeUnknown id; mret x) (λ m' _, holding w m').
Proof. intros Hp Hw. eapply obeys_seq; [by apply safe_unknown|]. by intros m' [] ->. Qed.
Lemma safe_resolve {A} m id key secret w code (x : A) :
  code ≠ unknownCreateOutcomeWarning → m_phase m = Live id (key, secret) → holding w m →
  safe m (revoked ← bestEffortRevokeCredential key secret;
          _ ← (if revoked : bool then failConnectionAttempt id code else markConnectionAttemptOutcomeUnknown id); mret x)
    (λ m' _, holding w m').
Proof.
  intros Hc Hp Hw. eapply obeys_seq; [by apply safe_best_effort|]. intros m' revoked ->. destruct revoked.
  - apply safe_fail_then; [done|by right|done].
  - apply safe_unknown_then; [right; by eexists|done].
Qed.
Lemma safe_persist owner id w address credential m :
  m_phase m = Live id (ak_api_key credential, ak_secret credential) → holding w m →
  safe m (persistCredential owner id w address credential) (λ m' _, holding w m').
Proof.
  intros Hp Hw. unfold persistCredential. cbv zeta. call_step; [done|]. intros [[key secret]|] _; [|by apply safe_resolve].
  call_step; [done|]. intros now _. call_step; [cbn; by eexists|].
  intros [snapshot|e] _; cbn [mon_next].
  - by case_match.
  - destruct e; try (by apply safe_resolve). apply safe_unknown_then; [right; by eexists|done].
Qed.
Lemma safe_create owner id w address a signature m :
  m_phase m = Begun id a → holding w m → cat_address a = address →
  cat_challenge_message a = expectedWormChallengeMessage address (cat_nonce a) →
  verifyWormChallengeSignature address (cat_challenge_message a) signature = true →
  safe m (createCredential owner id w address a signature) (λ m' _, holding w m').
Proof.
  intros Hp Hw <- Hmsg Hsig. unfold createCredential. call_step.
  { exists a. split; [done|]. exists signature. cbn. done. }
  intros [[c|]|e] _; cbn [mon_next].
  - case_match; [apply safe_unknown_then; [right; by eexists|done]|]. by apply safe_persist.
  - apply safe_unknown_then; [by left|done].
  - destruct (wormCreateOutcomeIsUnknown e) eqn:He.
    + apply safe_unknown_then; [by left|done].
    + apply safe_fail_then; [apply classify_not_unknown|by right|done].
Qed.
Lemma safe_or_fail {A} m w id code e b (rest : prog (result rpc_error A)) a :
  m_phase m = Begun id a → holding w m → code ≠ unknownCreateOutcomeWarning →
  (b = true → safe m rest (λ m' _, holding w m')) → safe m (or_fail b id code e rest) (λ m' _, holding w m').
Proof. intros Hp Hw Hc Hr. unfold or_fail. destruct b; [auto|]. apply safe_fail_then; [done|left; by eexists|done]. Qed.

(** The preamble of a handler touches nothing. *)
Lemma safe_try {A B} m (p : prog (result rpc_error A)) (f : A → prog (result rpc_error B)) (Q : mon → result rpc_error B → Prop) :
  safe m p (λ m' _, m' = m) → (∀ a, safe m (f a) Q) → (∀ e, Q m (Err e)) → safe m (prog_try f p) Q.
Proof. intros Hp Hf He. eapply obeys_try; [exact Hp|by intros m' a ->|by intros m' e ->]. Qed.
Lemma safe_ret {A} m (x : A) : safe m (mret x) (λ m' _, m' = m).
Proof. done. Qed.
Lemma safe_status {E A} m (f : E → rpc_error) (p : prog (result E A)) :
  safe m p (λ m' _, m' = m) → safe m (or_status f p) (λ m' _, m' = m).
Proof. intros Hp. unfold or_status. eapply obeys_seq; [exact Hp|]. by intros m' r ->. Qed.
Lemma safe_quiet m o : (∀ r, mon_next m o r = m) → allowed m o → safe m (call o) (λ m' _, m' = m).
Proof. intros Hn Ha. apply obeys_call; [done|]. intros r _. apply Hn. Qed.
Ltac preamble := repeat (cbv zeta; lazymatch goal with
  | |- safe _ (prog_try _ _) _ => apply safe_try; [|intros ?|done]
  | |- safe _ (or_status _ _) _ => apply safe_status
  | |- safe _ (call _) _ => apply safe_quiet; [done|done]
  | |- safe _ (mret _) _ => apply safe_ret
  | |- safe _ (must _ _) _ => apply safe_ret
  end).
Abbreviation free := {| m_lock := None; m_phase := Idle |}.

Lemma safe_Complete req : safe free (CompleteWormWalletConnection req) (λ m _, m = free).
Proof.
  unfold CompleteWormWalletConnection. preamble. apply safe_lock. call_step; [done|]. intros now _.
  unfold or_status. unfold prog_try. call_step; [done|]. intros [attempt|e] _; [|done].
  cbn [mon_next obeys mret prog_ret]. set (m := goto _ _).
  assert (holding (cw_wallet_id req) m) as Hm by done.
  eapply safe_or_fail; [done|done|done|]. intros [Hw Hadd%bool_decide_eq_true]%andb_true_iff.
  eapply safe_or_fail; [done|done|done|]. intros _.
  eapply safe_or_fail; [done|done|done|]. intros [_ Hmsg%bool_decide_eq_true]%andb_true_iff.
  eapply safe_or_fail; [done|done|done|]. intros Hsig. call_step; [done|]. intros err _.
  eapply safe_or_fail; [done|done|done|]. intros _. by apply safe_create.
Qed.

(** ** The other handlers *)
Lemma safe_Prepare req : safe free (PrepareWormWalletConnection req) (λ m _, m = free).
Proof.
  unfold PrepareWormWalletConnection. preamble. apply safe_lock. set (m := {| m_lock := Some _; m_phase := Idle |}).
  call_step; [done|]. intros err _. cbn [mon_next]. preamble. call_step; [done|]. intros issued _. cbn [mon_next].
  destruct (validateWormAuthChallenge _ _ _) as [[[[nonce message] expires] digest]|]; [|done].
  call_step; [done|]. intros now _. call_step; [done|]. intros id _. cbn [mon_next].
  unfold or_status, prog_try. call_step; [done|]. intros [attempt|e] _; [|done]. cbn [mon_next obeys mret prog_ret]. by case_match.
Qed.
Lemma safe_mark_failed {A} m credential st ks warning w (x : A) :
  sc_wallet_id credential = w → holding w m → warning ≠ unknownCreateOutcomeWarning →
  st = ConnectionStateConnected ∨ m_phase m = Revoking w →
  safe m (_ ← markCredentialRevocationFailed credential st ks warning; mret x) (λ m' _, holding w m' ∧ m_phase m' = Idle).
Proof. intros <- Hw Hc Hst. unfold markCredentialRevocationFailed. obey_with ltac:(cbn; done). done. Qed.
Lemma safe_revoke m credential (disconnect : bool) w :
  sc_wallet_id credential = w → holding w m → m_phase m = (if disconnect then Revoking w else Idle) →
  safe m (revokeStoredCredential credential disconnect) (λ m' _, holding w m' ∧ m_phase m' = Idle).
Proof.
  intros Hwal Hw Hp. unfold revokeStoredCredential. cbv zeta.
  assert (∀ st (x : result rpc_error unit) ks warning, warning ≠ unknownCreateOutcomeWarning →
    st = ConnectionStateConnected ∨ disconnect = true →
    safe m (_ ← markCredentialRevocationFailed credential st ks warning; mret x) (λ m' _, holding w m' ∧ m_phase m' = Idle)) as Hfail.
  { intros st x ks warning Hwarn Hst. apply safe_mark_failed; [done|done|done|]. destruct Hst as [?|Hd]; [by left|right; by rewrite Hp, Hd]. }
  call_step; [done|]. intros [[key secret]|] _; cbn [mon_next]; [|apply Hfail; [done|destruct disconnect; auto]].
  call_step; [done|]. intros [e|] _; cbn [mon_next]; [apply Hfail; [done|destruct disconnect; auto]|].
  call_step; [done|]. intros revokeErr _. replace (mon_next m (OpRevokeKey (key, secret) key) revokeErr) with m by (cbn; rewrite Hp; by destruct disconnect).
  assert (safe m (now ← call OpNow; marked ← call (OpRevoked (sc_wallet_id credential) (sc_id credential) now);
     mret (match marked with Ok _ => Ok tt | Err _ => Err (status Internal "persist Worm credential revocation") end))
     (λ m' _, holding w m' ∧ m_phase m' = Idle)) as Hok.
  { call_step; [done|]. intros now _. cbn [mon_next]. call_step; [by subst w|]. intros marked _. done. }
  destruct revokeErr as [e|]; [|exact Hok]. destruct (isWormNotFoundError _); [exact Hok|]. apply Hfail.
  - destruct (isWormAuthenticationError _); [done|apply classify_not_unknown].
  - destruct disconnect; auto.
Qed.
Lemma safe_disconnect_loop fuel owner w address m :
  holding w m → m_phase m = Idle → safe m (disconnect_loop fuel owner w address) (λ m' _, holding w m').
Proof.
  revert m. induction fuel as [|fuel IH]; intros m Hw Hp; [done|]. cbn [disconnect_loop]. call_step; [done|]. intros now _. cbn [mon_next].
  call_step; [done|]. intros [stored|e] Hr; cbn [mon_next].
  - eapply obeys_seq; [apply (safe_revoke _ _ true w); [by apply Hr|done|done]|]. intros m' r [Hw' Hp']. destruct r; [by apply IH|done].
  - destruct e; try done; (eapply (obeys_seq _ _ _ _ _ _ (λ m' _, m' = m)); [preamble|by intros m' r ->]).
Qed.
Lemma safe_Disconnect fuel req : safe free (DisconnectWormWallet fuel req) (λ m _, m = free).
Proof.
  unfold DisconnectWormWallet. cbv zeta. eapply (obeys_seq _ _ _ _ _ _ (λ m _, m = free)); [preamble|]. intros m r ->.
  destruct r as [[owner selection]|e]; [|done]. apply safe_lock.
  eapply (obeys_seq _ _ _ _ _ _ (λ m _, m = {| m_lock := Some (dw_wallet_id req); m_phase := Idle |})).
  - preamble. case_match; [by apply safe_quiet|done].
  - intros m r ->. destruct r; [|done]. by apply safe_disconnect_loop.
Qed.
Lemma safe_revoke_each l : safe free (revoke_each l) (λ m _, m = free).
Proof.
  induction l as [|c l IH]; [done|]. cbn [revoke_each]. call_step; [done|]. intros stopped _. cbn [mon_next]. destruct stopped; [done|].
  eapply (obeys_seq _ _ _ _ _ _ (λ m _, m = free)); [|intros m r ->; exact IH]. apply safe_lock. call_step; [done|]. intros now _. cbn [mon_next].
  call_step; [done|]. intros [stored|e] Hr; cbn [mon_next]; [|done].
  eapply obeys_seq; [apply (safe_revoke _ _ false (sc_wallet_id c)); [by apply Hr|done|done]|]. by intros m' r [Hw _].
Qed.
Lemma safe_maintenance timeout : safe free (maintenance_round timeout) (λ m _, m = free).
Proof.
  unfold maintenance_round, revokePendingCredentials. do 4 (call_step; [done|]; intros ? _; cbn [mon_next]).
  case_match; [apply safe_revoke_each|done].
Qed.
Lemma safe_recovery fuel : safe free (recovery_loop fuel) (λ m _, m = free).
Proof.
  induction fuel as [|fuel IH]; [done|]. cbn [recovery_loop]. do 2 (call_step; [done|]; intros ? _; cbn [mon_next]).
  case_match; [case_match; [done|exact IH]|done].
Qed.
End Safety.
