(* ===== verification/ConnectionSystem.v ===== *)
(** * Worm wallet connections: the system

    The handlers of one service process run concurrently on the store they share;
    the mutex of a wallet is held by at most one of them.  A store operation may
    run, fail, not run at all, or commit and report an error nevertheless; a handler
    may stop anywhere.  The transactions of the recovery and expiry loops are steps
    of their own, as is every change of the wallet selection. *)

From S2P Require Import Prelude Prog Sql CashOutTypes CashOutStages CashOutWorker ConnectionTypes ConnectionStore ConnectionInv ConnectionLink.
From S2P Require Import ConnectionOps ConnectionService ConnectionSafety.
From stdpp Require Import base tactics option list list_numbers sorting strings gmap relations.
From Stdlib Require Import ZArith Lia Ascii.
#[local] Open Scope Z_scope.

Section System.
Context {UL : UuidLib} {SL : SolanaLib} {CL : ChallengeLib}.

(** ** Semantics *)
Inductive outcome {A} (unknown : CWError → Prop) (m : cw_tx A) (db : WDB) : WDB → result CWError A → Prop :=
| outcome_ok db' a : m db = Ok (db', a) → outcome unknown m db db' (Ok a)
| outcome_error e : m db = Err e → outcome unknown m db db (Err e)
| outcome_not_run e : outcome unknown m db db (Err e)
| outcome_unknown db' a e : m db = Ok (db', a) → unknown e → outcome unknown m db db' (Err e).
Abbreviation outcomes := (outcome (λ _, True)).
Definition flat {A} (r : result CWError (result CWError A)) : result CWError A :=
  match r with Ok r => r | Err e => Err e end.

Definition perform (clock : Z) (o : op) (db db' : WDB) : resp o → Prop :=
  match o return resp o → Prop with
  | OpPrepare req => λ r, ∃ fresh r0, outcomes (PrepareConnectionAttempt clock fresh req) db db' r0 ∧ r = flat r0
  | OpBegin req => λ r, ∃ r0, outcomes (BeginConnectionAttemptCompletion clock req) db db' r0 ∧ r = flat r0
  | OpFail id code at_ => outcomes (FailConnectionAttempt clock id code at_) db db'
  | OpUnknown id code at_ => outcomes (MarkConnectionAttemptOutcomeUnknown clock id code at_) db db'
  | OpActivate req => λ r, ∃ serial,
      outcome (λ e, e = ErrTransactionOutcomeUnknown) (ActivateCredential clock serial req) db db' r
  | OpDisconnect owner w address at_ => λ r, ∃ r0, outcomes (BeginDisconnect clock owner w address at_) db db' r0 ∧ r = flat r0
  | OpBeginRevocation w k at_ => outcomes (BeginCredentialRevocation clock w k at_) db db'
  | OpRevoked w k at_ => outcomes (MarkCredentialRevoked clock w k at_) db db'
  | OpRevocationFailed w k st ks code at_ => outcomes (MarkCredentialRevocationFailed clock w k st ks code at_) db db'
  | OpRetired _ _ _ => λ _, ∃ s, db' = set_w_selections s db
  | _ => λ _, db' = db
  end.

(** The provider answered that it did not create the key: a reply of its own, not a
    timeout, with a status below 500 that does not ask to try again (408, 425). *)
Definition definite_rejection (e : go_error) : bool :=
  negb (is_canceled e) && negb (is_deadline_exceeded e)
  && match as_worm_error e with
     | Some w => (we_status_code w <? 500) && negb (we_status_code w =? 408) && negb (we_status_code w =? 425)
     | None => false
     end.
Lemma unknown_unless_rejected e : wormCreateOutcomeIsUnknown e = negb (definite_rejection e).
Proof.
  unfold wormCreateOutcomeIsUnknown, classifyWormError, definite_rejection.
  destruct (is_canceled e); [done|]. destruct (is_deadline_exceeded e); [done|]. cbn [negb andb].
  destruct (as_worm_error e) as [w|]; [|by case_match].
  destruct (we_status_code w =? 401) eqn:?, (we_status_code w =? 403) eqn:?, (we_status_code w =? 429) eqn:?,
    (we_status_code w =? 408) eqn:?, (we_status_code w =? 425) eqn:?; cbn; try lia;
    destruct (we_status_code w <? 500) eqn:?, (500 <=? we_status_code w) eqn:?; try lia; done.
Qed.

(** What the provider was asked and answered. *)
Inductive event :=
| EvSent (attempt : string) (req : CreateAPIKeyRequest)
| EvRejected (attempt : string)
| EvCreated (attempt : string) (credential : string * string)
| EvRevoked (credential : string * string) (key : string).
Definition events_of (o : op) : resp o → list event :=
  match o return resp o → list event with
  | OpCreateKey id req => λ r, EvSent id req ::
      match r with
      | Err e => if definite_rejection e then [EvRejected id] else []
      | Ok (Some c) => [EvCreated id (ak_api_key c, ak_secret c)]
      | Ok None => []
      end
  | OpRevokeKey credential key => λ r, if revoked_ok r then [EvRevoked credential key] else []
  | _ => λ _, []
  end.
(** The mutex of a wallet. *)
Definition lock_next (o : op) (held : option Z) : option Z :=
  match o with OpLock w => Some w | OpUnlock _ => None | _ => held end.
Record system := { sy_db : WDB; sy_threads : list (prog unit * option Z); sy_log : list event }.
Definition lock_free (o : op) (ts : list (prog unit * option Z)) : Prop :=
  match o with OpLock w => ∀ t, t ∈ ts → t.2 ≠ Some w | _ => True end.
Definition discard {A} (p : prog A) : prog unit := _ ← p; mret tt.
Inductive handler : prog unit → Prop :=
| handler_prepare req : handler (discard (PrepareWormWalletConnection req))
| handler_complete req : handler (discard (CompleteWormWalletConnection req))
| handler_disconnect fuel req : handler (discard (DisconnectWormWallet fuel req))
| handler_maintenance timeout : handler (discard (maintenance_round timeout))
| handler_recovery fuel : handler (discard (recovery_loop fuel)).
Definition background (o : wop) : Prop :=
  match o with WReconnect _ _ _ _ _ | WRecover _ _ _ => True | _ => False end.
Inductive sys_step : system → system → Prop :=
| sys_spawn db ts log p :
    handler p →
    sys_step {| sy_db := db; sy_threads := ts; sy_log := log |} {| sy_db := db; sy_threads := ts ++ [(p, None)]; sy_log := log |}
| sys_perform db db' ts log i o k held r clock :
    ts !! i = Some (Vis o k, held) → lock_free o ts → perform clock o db db' r →
    sys_step {| sy_db := db; sy_threads := ts; sy_log := log |}
      {| sy_db := db'; sy_threads := <[i := (k r, lock_next o held)]> ts; sy_log := log ++ events_of o r |}
| sys_stop db ts log i :
    sys_step {| sy_db := db; sy_threads := ts; sy_log := log |} {| sy_db := db; sy_threads := <[i := (Ret tt, None)]> ts; sy_log := log |}
| sys_background db db' ts log clock o :
    background o → commits clock o db db' →
    sys_step {| sy_db := db; sy_threads := ts; sy_log := log |} {| sy_db := db'; sy_threads := ts; sy_log := log |}
| sys_selections db ts log s :
    sys_step {| sy_db := db; sy_threads := ts; sy_log := log |} {| sy_db := set_w_selections s db; sy_threads := ts; sy_log := log |}.
Definition start (s : selections) : system := {| sy_db := empty_wdb s; sy_threads := []; sy_log := [] |}.
Definition run_reaches (σ : system) : Prop := ∃ s, rtc sys_step (start s) σ.

(** ** The log *)
Definition sent_by (n : N) (e : event) : nat :=
  match e with EvSent id _ => if bool_decide (attempt_id id = Some n) then 1 else 0 | _ => 0 end%nat.
Definition sent_for (n : N) (log : list event) : nat := sum_list_with (sent_by n) log.
Definition created (n : N) (credential : string * string) (log : list event) : Prop :=
  ∃ id, attempt_id id = Some n ∧ EvCreated id credential ∈ log.
(** Nothing the provider created for the attempt is left. *)
Definition cleared (n : N) (log : list event) : Prop :=
  (∃ id, attempt_id id = Some n ∧ EvRejected id ∈ log)
  ∨ ∃ credential, created n credential log ∧ EvRevoked credential credential.1 ∈ log.
Definition begun_by (n : N) (m : mon) : nat :=
  match m_phase m with Begun id _ => if bool_decide (attempt_id id = Some n) then 1 else 0 | _ => 0 end%nat.
Definition begun_for (n : N) (ms : list mon) : nat := sum_list_with (begun_by n) ms.

(** ** The invariant *)
Definition attempt_in (db : WDB) (n : N) (P : attempt_row → Prop) : Prop := ∃ a, a ∈ w_attempts db ∧ ca_id a = n ∧ P a.
Definition in_doubt (a : attempt_row) : Prop :=
  ca_state a = ConnectionAttemptStateCompleting ∨ ca_state a = ConnectionAttemptStateOutcomeUnknown.
Definition describes (a : ConnectionAttempt) (row : attempt_row) : Prop :=
  cat_address a = ca_address row ∧ cat_challenge_message a = ca_challenge_message row ∧ cat_nonce a = ca_nonce row.
(** What is known of a handler's phase. *)
Definition phase_ok (db : WDB) (log : list event) (m : mon) : Prop :=
  match m_phase m with
  | Idle => True
  | Begun id a => ∃ n, attempt_id id = Some n ∧ attempt_in db n (λ row, in_doubt row ∧ describes a row)
  | Sent id => ∃ n, attempt_id id = Some n ∧ (0 < sent_for n log)%nat
  | Live id c => ∃ n, attempt_id id = Some n ∧ (0 < sent_for n log)%nat ∧ created n c log
  | Dead id => ∃ n, attempt_id id = Some n ∧ (0 < sent_for n log)%nat ∧ cleared n log
  | Revoking w => m_lock m = Some w ∧ revoking (view db w)
  end.
(** What the log says of an attempt. *)
Record row_ok (log : list event) (a : attempt_row) : Prop := {
  ro_prepared : ca_state a = ConnectionAttemptStatePrepared → sent_for (ca_id a) log = 0%nat;
  ro_failed : ca_state a = ConnectionAttemptStateFailed → (0 < sent_for (ca_id a) log)%nat → cleared (ca_id a) log;
  ro_completed : ca_state a = ConnectionAttemptStateCompleted → ∃ c, created (ca_id a) c log }.
Definition sent_ok (db : WDB) (e : event) : Prop :=
  match e with
  | EvSent id req => ∃ n a, attempt_id id = Some n ∧ attempt_in db n (describes a) ∧ authorized a req
  | _ => True
  end.
Record SInv (σ : system) (ms : list mon) : Prop := {
  si_db : WInv (sy_db σ);
  si_safe : Forall2 (λ t m, obeys mon_next allowed stored_reply m t.1 (λ _ _, True) ∧ m_lock m = t.2) (sy_threads σ) ms;
  si_locks : ∀ i j t t' w, sy_threads σ !! i = Some t → sy_threads σ !! j = Some t' → t.2 = Some w → t'.2 = Some w → i = j;
  si_once : ∀ n, (sent_for n (sy_log σ) + begun_for n ms ≤ 1)%nat;
  si_phase : ∀ m, m ∈ ms → phase_ok (sy_db σ) (sy_log σ) m;
  si_rows : ∀ a, a ∈ w_attempts (sy_db σ) → row_ok (sy_log σ) a;
  si_sent : ∀ e, e ∈ sy_log σ → sent_ok (sy_db σ) e }.

(** ** A disconnection under way stays under way *)
Lemma revoking_no_active db w : WInv db → revoking (view db w) → v_act (view db w) = None.
Proof.
  intros [_ L] (c & Hc & Hst). specialize (L w). rewrite (view_eta _ _ _ Hc eq_refl) in L.
  eapply linked_no_active; [exact L|destruct Hst; congruence|right; destruct Hst; split; congruence].
Qed.
Lemma revoking_others o db db' w u : lives o db db' u → w ≠ u → revoking (view db w) → revoking (view db' w).
Proof. intros Hl Hne Hr. by rewrite (lv_others _ _ _ _ Hl w Hne). Qed.
Lemma begin_active clock req db db' r :
  BeginConnectionAttemptCompletion clock req db = Ok (db', r) →
  ∃ a, act db (ba_wallet_id req) a ∧ attempt_id (ba_attempt_id req) = Some (ca_id a) ∧ ca_state a = ConnectionAttemptStatePrepared.
Proof.
  intros H. unfold BeginConnectionAttemptCompletion in H. cbv zeta in H. tx_inv.
  match goal with Hl : lockAttempt _ _ = Ok (_, ?l) |- _ => apply lockAttempt_ok in Hl as (-> & Hin & Hid); exists l end. bool_prop.
  split; [|done]. split; [done|]. split; [done|]. by match goal with Hs : ca_state _ = _ |- _ => rewrite Hs end.
Qed.
Lemma activate_active clock serial req db db' r :
  ActivateCredential clock serial req db = Ok (db', r) → ∃ a, act db (ac_wallet_id req) a.
Proof.
  intros H. unfold ActivateCredential in H. cbv zeta in H. tx_inv.
  match goal with Hl : lockAttempt _ _ = Ok (_, ?l) |- _ => apply lockAttempt_ok in Hl as (-> & Hin & Hid); exists l end. bool_prop.
  split; [done|]. split; [done|]. by match goal with Hs : ca_state _ = _ |- _ => rewrite Hs end.
Qed.
(** The operations that may end it hold the mutex of the wallet. *)
Definition ends_revocation (o : wop) (w : Z) : Prop :=
  match o with
  | WPrepare _ req => pa_wallet_id req = w
  | WDisconnect _ v _ _ | WRevoked v _ _ => v = w
  | _ => False
  end.
Lemma revoking_stable clock o db db' w :
  WInv db → disciplined db o → commits clock o db db' → ¬ ends_revocation o w →
  revoking (view db w) → revoking (view db' w).
Proof.
  intros I Hd Hc Hne Hr. pose proof I as [Ht L]. pose proof (revoking_no_active _ _ I Hr) as Hno.
  assert (∀ u a, act db u a → w ≠ u) as Hact by (intros u a Ha ->; apply view_act in Ha; [congruence|done]).
  destruct o; destruct Hc as [r Hc]; cbn in Hd, Hne.
  - eapply revoking_others; [by eapply prepare_lives|congruence|done].
  - destruct (begin_active _ _ _ _ _ Hc) as (a & Ha & _). eapply revoking_others; [by eapply begin_lives|by eapply Hact|done].
  - eapply (finish_lives (WFail id code at_)) in Hc as (a & _ & Ha & Hl); [eapply revoking_others; [done|by eapply Hact|done]|done|done|].
    intros. by apply fate_failed.
  - eapply (finish_lives (WUnknown id code at_)) in Hc as (a & _ & Ha & Hl); [eapply revoking_others; [done|by eapply Hact|done]|done|done|].
    intros. apply fate_unknown; auto.
  - destruct (Z.eq_dec wallet w) as [->|Hw]; [|eapply revoking_others; [by eapply reconnect_lives|congruence|done]].
    destruct Hr as (c & Hcv & Hst). unfold MarkReconnectRequired, beginWalletTransaction in Hc. cbv zeta in Hc. tx_inv.
    match goal with Hg : GetWalletConnectionForUpdate _ _ = Some ?d |- _ => change (v_conn (view db w) = Some d) in Hg;
      rewrite Hcv in Hg; injection Hg as <- end.
    rewrite bool_decide_eq_false_2 in * by (destruct Hst; congruence). cbn [negb] in *. tx_inv. by exists c.
  - destruct (activate_active _ _ _ _ _ _ Hc) as (a & Ha). eapply revoking_others; [by eapply activate_lives|by eapply Hact|done].
  - eapply revoking_others; [by eapply disconnect_lives|congruence|done].
  - unfold BeginCredentialRevocation, beginWalletTransaction in Hc. cbv zeta in Hc. tx_inv.
    match goal with Hk : UpdateCredentialState _ _ _ _ _ = _ |- _ => apply view_update_credential in Hk as (_ & _ & _ & Hv & Hu); [|done] end.
    destruct (Z.eq_dec w wallet) as [->|Hw]; [by rewrite Hv|by rewrite Hu].
  - eapply revoking_others; [by eapply revoked_lives|congruence|done].
  - destruct Hd as [Hcode Hst]. eapply revocation_failed_lives in Hc as [Hl Hrev]; [|done..].
    destruct (Z.eq_dec w wallet) as [->|Hw]; [auto|by eapply revoking_others].
  - destruct (Z.eq_dec w wallet) as [->|Hw]; [|by eapply revoking_others; [eapply recover_lives|..]].
    unfold recoverConnectionAttemptForWallet, beginWalletTransaction in Hc. tx_inv.
    change (GetActiveConnectionAttemptForWallet wallet db) with (v_act (view db wallet)) in *. rewrite Hno in *. by tx_inv.
Qed.

(** ** The log grows *)
Lemma wsent_for_app n l1 l2 : sent_for n (l1 ++ l2) = (sent_for n l1 + sent_for n l2)%nat.
Proof. apply sum_list_with_app. Qed.
Lemma created_mono n c l1 l2 : created n c l1 → created n c (l1 ++ l2).
Proof. intros (id & Hid & Hin). exists id. split; [done|]. apply elem_of_app. by left. Qed.
Lemma cleared_mono n l1 l2 : cleared n l1 → cleared n (l1 ++ l2).
Proof.
  intros [(id & Hid & Hin)|(c & Hc & Hin)]; [left; exists id|right; exists c]; split; try done; try (apply elem_of_app; by left).
  by apply created_mono.
Qed.
Lemma sent_positive n e log : e ∈ log → (0 < sent_by n e)%nat → (0 < sent_for n log)%nat.
Proof. unfold sent_for. intros He Hp. induction He; cbn; lia. Qed.
Lemma sent_elem n log : (0 < sent_for n log)%nat → ∃ id req, EvSent id req ∈ log ∧ attempt_id id = Some n.
Proof.
  unfold sent_for. induction log as [|e log IH]; cbn; [lia|]. intros Hp. destruct (sent_by n e) eqn:E.
  - destruct IH as (id & req & Hin & Hid); [lia|]. exists id, req. split; [by right|done].
  - destruct e as [id req| | |]; cbn in E; try done. case_bool_decide; [|done]. exists id, req. split; [by left|done].
Qed.

(** ** Rows *)
Lemma same_row db a b : WInv db → a ∈ w_attempts db → b ∈ w_attempts db → ca_id a = ca_id b → a = b.
Proof. intros [Ht _]. apply (NoDup_key_inj ca_id). apply Ht. Qed.
Lemma attempt_in_older db db' n (P P' : attempt_row → Prop) :
  older db db' → (∀ a a', same_attempt a a' → P a → P' a') → attempt_in db n P → attempt_in db' n P'.
Proof.
  intros Ho HP (a & Ha & Hn & Hp). destruct (Ho a Ha) as (a' & Ha' & Hs & _). exists a'. split; [done|].
  split; [destruct Hs as (-> & _); done|]. by eapply HP.
Qed.
Lemma describes_same a row row' : same_attempt row row' → describes a row → describes a row'.
Proof. unfold same_attempt, describes. intuition congruence. Qed.
Lemma sent_ok_older db db' e : older db db' → sent_ok db e → sent_ok db' e.
Proof.
  intros Ho. destruct e; cbn; try done. intros (n & a & Hid & Hin & Hau). exists n, a. split; [done|]. split; [|done].
  eapply attempt_in_older; [done| |exact Hin]. intros b b'. apply describes_same.
Qed.
Lemma attempt_le_prepared s : attempt_le s ConnectionAttemptStatePrepared → s = ConnectionAttemptStatePrepared.
Proof. by intros [->|[_ ?]]. Qed.

(** What the performing handler knows when it ends an attempt. *)
Record entitled (o : wop) (log : list event) : Prop := {
  en_fail : ∀ id code at_ n, o = WFail id code at_ → attempt_id id = Some n → (0 < sent_for n log)%nat → cleared n log;
  en_activate : ∀ serial req n, o = WActivate serial req → attempt_id (ac_attempt_id req) = Some n → ∃ c, created n c log }.
Lemma rows_preserved clock o db db' log :
  WInv db → disciplined db o → commits clock o db db' → entitled o log →
  (∀ e, e ∈ log → sent_ok db e) → (∀ a, a ∈ w_attempts db → row_ok log a) → ∀ x, x ∈ w_attempts db' → row_ok log x.
Proof.
  intros I Hd Hc [Hf Ha] Hsent Hrows x Hx. destruct (op_lives _ _ _ _ I Hd Hc) as [w Hl]. pose proof (WInv_lives _ _ _ _ I Hl) as I'.
  destruct (lv_attempts _ _ _ _ Hl x Hx) as [Hin|[Hp|(a & Hact & Hs & Hfate)]]; [auto|split; intros Hst; try congruence|].
  - destruct (sent_for (ca_id x) log) as [|count] eqn:E; [done|]. destruct (sent_elem (ca_id x) log) as (id & req & Hin & Hid); [lia|].
    destruct (Hsent _ Hin) as (n & b & Hid' & (row & Hrow & Hn & _) & _). assert (n = ca_id x) as -> by congruence.
    destruct (lv_older _ _ _ _ Hl row Hrow) as (row' & Hrow' & (Hri & _) & Hle & _).
    assert (row' = x) as -> by (eapply same_row; [done..|congruence]). rewrite Hp in Hle. apply attempt_le_prepared in Hle.
    pose proof (ro_prepared _ _ (Hrows row Hrow) Hle) as Hz. rewrite Hn in Hz. lia.
  - destruct Hact as (Hin & _ & _). pose proof (Hrows a Hin) as Hra. destruct Hs as (Hid & _).
    destruct Hfate; (split; intros Hst'; try congruence; rewrite ?Hid; try (intros Hpos)); eauto.
    + match goal with Hst : ca_state a = _ |- _ => pose proof (ro_prepared _ _ Hra Hst) end. lia.
Qed.
Lemma phase_preserved clock o db db' log ev m :
  WInv db → disciplined db o → commits clock o db db' →
  (∀ id a n, m_phase m = Begun id a → attempt_id id = Some n →
     (∀ id' code at_, o = WFail id' code at_ → attempt_id id' ≠ Some n)
     ∧ ∀ serial req, o = WActivate serial req → attempt_id (ac_attempt_id req) ≠ Some n) →
  (∀ w, m_phase m = Revoking w → ¬ ends_revocation o w) →
  phase_ok db log m → phase_ok db' (log ++ ev) m.
Proof.
  intros I Hd Hc Hspare Hends. unfold phase_ok. destruct (m_phase m) as [|id a|id|id c|id|w].
  - done.
  - intros (n & Hid & row & Hrow & Hn & Hdoubt & Hdesc). exists n. split; [done|]. destruct (op_lives _ _ _ _ I Hd Hc) as [w Hl].
    destruct (lv_older _ _ _ _ Hl row Hrow) as (row' & Hrow' & Hs & Hle & Hfin). exists row'. split; [done|].
    split; [destruct Hs as (-> & _); done|]. split; [|by eapply describes_same].
    destruct (Hspare id a n eq_refl Hid) as [Hs1 Hs2].
    destruct (lv_attempts _ _ _ _ Hl row' Hrow') as [Hin|[Hp|(b & (Hb & _) & Hsb & Hfate)]].
    + assert (row' = row) as -> by (eapply same_row; [exact I|done..|apply Hs]). done.
    + rewrite Hp in Hle. apply attempt_le_prepared in Hle. destruct Hdoubt; congruence.
    + assert (b = row) as -> by (eapply same_row; [exact I|done..|]; destruct Hs as (<- & _), Hsb as (<- & _); done).
      destruct Hfate; try (destruct Hdoubt; congruence); try (by right).
      * exfalso. eapply Hs1; [done|congruence].
      * exfalso. eapply Hs2; [done|congruence].
  - intros (n & Hid & Hp). exists n. rewrite wsent_for_app. split; [done|lia].
  - intros (n & Hid & Hp & Hcr). exists n. rewrite wsent_for_app. split; [done|]. split; [lia|by apply created_mono].
  - intros (n & Hid & Hp & Hcl). exists n. rewrite wsent_for_app. split; [done|]. split; [lia|by apply cleared_mono].
  - intros [Hl Hr]. split; [done|]. eapply revoking_stable; eauto.
Qed.

(** ** What a handler does to the store *)
Inductive uses : op → wop → Prop :=
| uses_prepare fresh req : uses (OpPrepare req) (WPrepare fresh req)
| uses_begin req : uses (OpBegin req) (WBegin req)
| uses_fail id code at_ : uses (OpFail id code at_) (WFail id code at_)
| uses_unknown id code at_ : uses (OpUnknown id code at_) (WUnknown id code at_)
| uses_activate serial req : uses (OpActivate req) (WActivate serial req)
| uses_disconnect owner w address at_ : uses (OpDisconnect owner w address at_) (WDisconnect owner w address at_)
| uses_begin_revocation w k at_ : uses (OpBeginRevocation w k at_) (WBeginRevocation w k at_)
| uses_revoked w k at_ : uses (OpRevoked w k at_) (WRevoked w k at_)
| uses_revocation_failed w k st ks code at_ :
    uses (OpRevocationFailed w k st ks code at_) (WRevocationFailed w k st ks code at_).
Lemma outcome_commits {A} (u : CWError → Prop) (m : cw_tx A) db db' r :
  outcome u m db db' r → db' = db ∨ ∃ a, m db = Ok (db', a).
Proof. destruct 1; eauto. Qed.
Lemma perform_cases clock o db db' r :
  perform clock o db db' r → db' = db ∨ (∃ s, db' = set_w_selections s db) ∨ ∃ wo, uses o wo ∧ commits clock wo db db'.
Proof.
  destruct o; cbn; try (by left); try (by right; left);
    repeat (match goal with |- (∃ _, _) → _ => intros [? ?] end || intros ?);
    repeat match goal with H : ∃ _, _ |- _ => destruct H | H : _ ∧ _ |- _ => destruct H end;
    match goal with H : outcome _ _ _ _ _ |- _ => apply outcome_commits in H as [->|Hc]; [by left|right; right] end;
    (eexists; split; [constructor|exact Hc]).
Qed.
Lemma uses_disciplined db log m o wo : allowed m o → uses o wo → phase_ok db log m → disciplined db wo.
Proof.
  intros Ha Hu Hp. destruct Hu; cbn in *; try done.
  - by destruct Ha.
  - by destruct Ha.
  - destruct Ha as (_ & Hc & [->|Hr]); [by split; [|left]|]. unfold phase_ok in Hp. rewrite Hr in Hp. destruct Hp. by split; [|right].
Qed.
Lemma begun_by_phase n m id a : m_phase m = Begun id a → attempt_id id = Some n → begun_by n m = 1%nat.
Proof. intros Hp Hid. unfold begun_by. rewrite Hp. by rewrite bool_decide_eq_true_2. Qed.
Lemma uses_entitled db log m o wo :
  allowed m o → uses o wo → phase_ok db log m → (∀ n, (sent_for n log + begun_by n m ≤ 1)%nat) → entitled wo log.
Proof.
  intros Ha Hu Hp Honce. split.
  - intros id code at_ n -> Hid Hs. inversion Hu; subst. destruct Ha as [_ [[a Hb]|Hd]].
    + specialize (Honce n). rewrite (begun_by_phase n m id a) in Honce by done. lia.
    + unfold phase_ok in Hp. rewrite Hd in Hp. destruct Hp as (n' & Hid' & _ & Hcl). congruence.
  - intros serial req n -> Hid. inversion Hu; subst. destruct Ha as [c Hl]. unfold phase_ok in Hp. rewrite Hl in Hp.
    destruct Hp as (n' & Hid' & _ & Hcr). exists c. congruence.
Qed.
(** Another handler's attempt is not the one this handler ends. *)
Lemma uses_spares db log m m' o wo :
  allowed m o → uses o wo → phase_ok db log m → (∀ n, (sent_for n log + begun_by n m + begun_by n m' ≤ 1)%nat) →
  ∀ id a n, m_phase m' = Begun id a → attempt_id id = Some n →
  (∀ id' code at_, wo = WFail id' code at_ → attempt_id id' ≠ Some n)
  ∧ ∀ serial req, wo = WActivate serial req → attempt_id (ac_attempt_id req) ≠ Some n.
Proof.
  intros Ha Hu Hp Honce id a n Hb Hid. specialize (Honce n). rewrite (begun_by_phase n m' id a) in Honce by done. split.
  - intros id' code at_ -> Hid'. inversion Hu; subst. destruct Ha as [_ [[a' Hb']|Hd]].
    + rewrite (begun_by_phase n m id' a') in Honce by done. lia.
    + unfold phase_ok in Hp. rewrite Hd in Hp. destruct Hp as (n' & Hn' & Hs & _). assert (n' = n) as -> by congruence. lia.
  - intros serial req -> Hid'. inversion Hu; subst. destruct Ha as [c Hl]. unfold phase_ok in Hp. rewrite Hl in Hp.
    destruct Hp as (n' & Hn' & Hs & _). assert (n' = n) as -> by congruence. lia.
Qed.
Lemma uses_lock m o wo w : allowed m o → uses o wo → ends_revocation wo w → m_lock m = Some w.
Proof. intros Ha Hu He. destruct Hu; cbn in *; try done; intuition congruence. Qed.

(** *** Replies *)
Lemma wperform_reply clock o db db' r : tables db → perform clock o db db' r → stored_reply o r.
Proof.
  intros Ht. destruct o; cbn; try done.
  - intros (r0 & Hout & ->) c Hc. destruct Hout as [d a Hok| | |]; cbn in Hc; try done. subst a.
    unfold BeginDisconnect, beginWalletTransaction in Hok. cbv zeta in Hok. tx_inv.
    destruct (GetNextCredentialForRevocation _ _) as [k|]; tx_inv;
      match goal with Hm : mret _ _ = Ok (_, Ok _) |- _ => apply tx_ret_ok in Hm as [-> Hm]; simplify_eq end.
    match goal with Hk : UpdateCredentialState _ _ _ _ _ = _ |- _ => apply update_credential_ok in Hk as (k0 & _ & _ & <- & -> & _); [|done] end. done.
  - intros Hout c ->. inversion Hout as [d a Hok| | |]; subst. unfold BeginCredentialRevocation, beginWalletTransaction in Hok. cbv zeta in Hok. tx_inv.
    match goal with Hk : UpdateCredentialState _ _ _ _ _ = _ |- _ => apply update_credential_ok in Hk as (k0 & _ & _ & <- & -> & _); [|done] end. done.
Qed.
(** A begun completion found its attempt PREPARED and left it COMPLETING. *)
Lemma begin_reply clock req db db' a :
  tables db → perform clock (OpBegin req) db db' (Ok a) →
  ∃ n, attempt_id (ba_attempt_id req) = Some n ∧ attempt_in db n (λ row, ca_state row = ConnectionAttemptStatePrepared)
    ∧ attempt_in db' n (λ row, in_doubt row ∧ describes a row).
Proof.
  intros Ht (r0 & Hout & Hr). destruct Hout as [d x Hok| | |]; cbn in Hr; try done. subst x.
  destruct (begin_active _ _ _ _ _ Hok) as (b & (Hb & _) & Hid & Hst). exists (ca_id b). split; [done|]. split; [by exists b|].
  unfold BeginConnectionAttemptCompletion in Hok. cbv zeta in Hok. tx_inv.
  match goal with Hl : lockAttempt _ _ = Ok (_, ?l) |- _ => apply lockAttempt_ok in Hl as (-> & Hin & Hid'); rename l into c end.
  destruct (_ <? ca_expires_at c); tx_inv;
    match goal with Hm : mret _ _ = Ok (_, Ok _) |- _ => apply tx_ret_ok in Hm as [-> Hm]; simplify_eq end.
  match goal with Hm : cw_on_no_rows _ _ _ = Ok _ |- _ => unfold cw_on_no_rows in Hm; rename Hm into Hmark end.
  destruct (MarkConnectionAttemptCompleting _ _ _) as [[d row]|e] eqn:E; [|by destruct e]. injection Hmark as <- <-.
  destruct (completing_ok _ _ _ _ _ Ht E) as (b0 & Hb0 & _ & Hr & ((Hi & _) & _ & Hs) & _). exists row. split; [apply Hr; by left|].
  split; [congruence|]. split; [by left|done].
Qed.

(** ** Preservation *)
(** *** The performing handler *)
Definition creates (o : op) : bool := match o with OpCreateKey _ _ => true | _ => false end.
Lemma events_sent n o r : (0 < sent_for n (events_of o r))%nat → creates o = true.
Proof. destruct o; cbn; try done; try lia. destruct (revoked_ok _); cbn; lia. Qed.
Lemma create_sent n id req r : sent_for n (events_of (OpCreateKey id req) r) = if bool_decide (attempt_id id = Some n) then 1%nat else 0%nat.
Proof. unfold sent_for, events_of. cbn [sum_list_with sent_by]. destruct r as [[c|]|e]; cbn; [lia|lia|]. destruct (definite_rejection e); cbn; lia. Qed.
(** What a handler may still send is not more than before, unless it just began. *)
Lemma budget clock o db db' log ms m r n :
  tables db → allowed m o → perform clock o db db' r → (∀ x, x ∈ ms → phase_ok db log x) →
  (∀ a, a ∈ w_attempts db → row_ok log a) → WInv db →
  (sent_for n (events_of o r) + begun_by n (mon_next m o r) ≤ begun_by n m)%nat
  ∨ (sent_for n log + begun_for n ms = 0)%nat ∧ (sent_for n (events_of o r) + begun_by n (mon_next m o r) ≤ 1)%nat.
Proof.
  intros Ht Ha Hp Hph Hrows I.
  assert (creates o = false → sent_for n (events_of o r) = 0%nat) as Hev.
  { intros Hf. destruct (sent_for n (events_of o r)) eqn:E; [done|]. rewrite (events_sent n o r) in Hf; [done|lia]. }
  destruct o; try (left; rewrite Hev by done; cbn; lia);
    try (left; rewrite Hev by done; destruct r; cbn; lia).
  - destruct r as [a|e]; [|left; rewrite Hev by done; cbn; lia]. destruct (begin_reply _ _ _ _ _ Ht Hp) as (k & Hid & (row & Hrow & Hk & Hst) & _).
    rewrite Hev by done. cbn [mon_next]. unfold begun_by at 1 3, goto. cbn [m_phase]. rewrite Hid.
    case_bool_decide as Hn; [|left; lia]. injection Hn as ->. right. split; [|lia].
    rewrite <- Hk in *. pose proof (ro_prepared _ _ (Hrows row Hrow) Hst) as Hz. rewrite Hz. cbn.
    destruct (begun_for (ca_id row) ms) eqn:E; [done|]. exfalso.
    assert (∃ x, x ∈ ms ∧ (0 < begun_by (ca_id row) x)%nat) as (x & Hx & Hpos).
    { clear -E. unfold begun_for in E. induction ms as [|y ms IH]; [done|]. cbn in E. destruct (begun_by (ca_id row) y) eqn:Ey.
      - destruct IH as (x & Hx & Hp); [done|]. exists x. split; [by right|done].
      - exists y. split; [by left|lia]. }
    specialize (Hph x Hx). unfold begun_by in Hpos. unfold phase_ok in Hph. destruct (m_phase x) as [|id b| | | |]; try lia.
    case_bool_decide as Hid'; [|lia]. destruct Hph as (k & Hk' & row' & Hrow' & Hid2 & Hdoubt & _).
    assert (row' = row) as -> by (eapply same_row; [done..|congruence]). destruct Hdoubt; congruence.
  - left. destruct Ha as (a & Hb & _). rewrite create_sent. unfold begun_by at 2. rewrite Hb.
    replace (begun_by n (mon_next m (OpCreateKey attempt req) r)) with 0%nat; [case_bool_decide; lia|].
    destruct r as [[c|]|e]; cbn; [done|done|]. by destruct (wormCreateOutcomeIsUnknown e).
  - left. rewrite Hev by done. cbn. destruct (m_phase m) eqn:Hm; try lia. case_match; [|lia]. cbn. lia.
Qed.
Lemma phase_log db log ev m : phase_ok db log m → phase_ok db (log ++ ev) m.
Proof.
  unfold phase_ok. destruct (m_phase m) as [|id a|id|id c|id|w]; try done; intros (n & Hid & Hp); exists n; rewrite wsent_for_app.
  - split; [done|lia].
  - destruct Hp as [Hp Hc]. split; [done|]. split; [lia|by apply created_mono].
  - destruct Hp as [Hp Hc]. split; [done|]. split; [lia|by apply cleared_mono].
Qed.
(** A phase that the operation does not change. *)
Lemma phase_kept clock o db db' log ev m m' r :
  WInv db → perform clock o db db' r → allowed m o → phase_ok db log m →
  (∀ id a n, m_phase m' = Begun id a → attempt_id id = Some n →
     ∀ wo, uses o wo → (∀ id' code at_, wo = WFail id' code at_ → attempt_id id' ≠ Some n)
       ∧ ∀ serial req, wo = WActivate serial req → attempt_id (ac_attempt_id req) ≠ Some n) →
  (∀ w wo, m_phase m' = Revoking w → uses o wo → ¬ ends_revocation wo w) →
  phase_ok db log m' → phase_ok db' (log ++ ev) m'.
Proof.
  intros I Hp Ha Hm Hspare Hends Hm'. destruct (perform_cases _ _ _ _ _ Hp) as [->|[[s ->]|(wo & Hu & Hc)]].
  - by apply phase_log.
  - by apply (phase_log db).
  - eapply phase_preserved; eauto using uses_disciplined.
Qed.
Lemma phase_same db log m m' : m_phase m' = m_phase m → m_lock m' = m_lock m → phase_ok db log m → phase_ok db log m'.
Proof. intros Hp Hl. unfold phase_ok. by rewrite Hp, Hl. Qed.
(** The phase the performing handler is in afterwards. *)
Lemma phase_idle db log m : m_phase m = Idle → phase_ok db log m.
Proof. intros Hp. unfold phase_ok. by rewrite Hp. Qed.
Lemma phase_created db log m id req r :
  phase_ok db log m → (∃ a, m_phase m = Begun id a) →
  phase_ok db (log ++ events_of (OpCreateKey id req) r) (mon_next m (OpCreateKey id req) r).
Proof.
  intros Hm [a Hb]. unfold phase_ok in Hm. rewrite Hb in Hm. destruct Hm as (n & Hid & _).
  assert (0 < sent_for n (log ++ events_of (OpCreateKey id req) r))%nat as Hs.
  { rewrite wsent_for_app, create_sent, bool_decide_eq_true_2 by done. lia. }
  unfold phase_ok. destruct r as [[c|]|e]; cbn [mon_next goto m_phase].
  - exists n. split; [done|]. split; [done|]. exists id. split; [done|]. apply elem_of_app. right. cbn. right. by left.
  - by exists n.
  - rewrite unknown_unless_rejected. destruct (definite_rejection e) eqn:He; [|by exists n]. exists n. split; [done|]. split; [done|]. left. exists id.
    split; [done|]. apply elem_of_app. right. cbn. rewrite He. right. by left.
Qed.
Lemma phase_revoked db log m credential key r :
  phase_ok db log m →
  phase_ok db (log ++ events_of (OpRevokeKey credential key) r) (mon_next m (OpRevokeKey credential key) r).
Proof.
  intros Hm. cbn [mon_next]. destruct (m_phase m) as [|id a|id|id c|id|w] eqn:Hp; try (by apply phase_log).
  destruct (bool_decide (c = credential) && _ && _) eqn:Hb; [|by apply phase_log].
  apply andb_true_iff in Hb as [Hb Hr]. apply andb_true_iff in Hb as [->%bool_decide_eq_true ->%bool_decide_eq_true].
  unfold phase_ok in *. rewrite Hp in Hm. cbn [goto m_phase]. destruct Hm as (n & Hid & Hs & Hc). exists n. split; [done|].
  split; [rewrite wsent_for_app; lia|]. right. exists credential. split; [by apply created_mono|]. apply elem_of_app. right. cbn. rewrite Hr. by left.
Qed.
Lemma phase_next clock o db db' log m r :
  WInv db → perform clock o db db' r → allowed m o → phase_ok db log m →
  phase_ok db' (log ++ events_of o r) (mon_next m o r).
Proof.
  intros I Hp Ha Hm. pose proof I as [Ht L].
  destruct o; try (by apply phase_idle); try (cbn in Hp; subst db'; by apply phase_log).
  - apply phase_idle, Ha.
  - destruct r as [a|e]; [|apply phase_idle, Ha]. destruct (begin_reply _ _ _ _ _ Ht Hp) as (n & Hid & _ & Hin). by exists n.
  - destruct r as [a|e]; [by apply phase_idle|]. destruct Ha as [c Hl]. cbn [mon_next].
    eapply phase_kept; try done; [by eexists|intros; congruence|intros; congruence].
  - destruct Ha as [Hlock Hidle]. destruct r as [a|e]; [|by apply phase_idle]. split; [done|].
    destruct Hp as (r0 & Hout & Hr). destruct Hout as [d x Hok| | |]; cbn in Hr; try done. subst x.
    eapply disconnect_lives; [exact Ht|exact Hok|by eexists].
  - eapply phase_kept; try done; [intros id a n _ _ wo Hu; inversion Hu; done|intros w wo _ Hu; inversion Hu; auto].
  - destruct Hp as [s ->]. by apply (phase_log db).
  - cbn in Hp. subst db'. destruct Ha as (a & Hb & _). apply phase_created; [done|by eexists].
  - cbn in Hp. subst db'. by apply phase_revoked.
Qed.

(** *** Rows and requests *)
Lemma row_log log ev a :
  (0 < sent_for (ca_id a) ev → in_doubt a)%nat → row_ok log a → row_ok (log ++ ev) a.
Proof.
  intros Hdoubt [H1 H2 H3].
  assert (∀ s, ca_state a = s → s ≠ ConnectionAttemptStateCompleting → s ≠ ConnectionAttemptStateOutcomeUnknown →
    sent_for (ca_id a) ev = 0%nat) as Hz.
  { intros s Hs Hs1 Hs2. destruct (sent_for (ca_id a) ev); [done|]. destruct Hdoubt; [lia|congruence..]. }
  split; intros Hst; rewrite ?wsent_for_app, ?(Hz _ Hst) by done.
  - rewrite H1; [lia|done].
  - intros Hp. apply cleared_mono, H2; [done|lia].
  - destruct (H3 Hst) as [c Hc]. exists c. by apply created_mono.
Qed.
Lemma rows_next clock o db db' log m r :
  WInv db → perform clock o db db' r → allowed m o → phase_ok db log m → (∀ n, (sent_for n log + begun_by n m ≤ 1)%nat) →
  (∀ e, e ∈ log → sent_ok db e) → (∀ a, a ∈ w_attempts db → row_ok log a) →
  ∀ a, a ∈ w_attempts db' → row_ok (log ++ events_of o r) a.
Proof.
  intros I Hp Ha Hm Honce Hsent Hrows a Hin. apply row_log.
  - intros Hpos. pose proof (events_sent _ _ _ Hpos) as Hc. destruct o; try done. cbn in Hp. subst db'.
    rewrite create_sent in Hpos. case_bool_decide as Hid; [|lia]. destruct Ha as (b & Hb & _). unfold phase_ok in Hm. rewrite Hb in Hm.
    destruct Hm as (n & Hid' & row & Hrow & Hn & Hdoubt & _). by assert (row = a) as -> by (eapply same_row; [done..|congruence]).
  - destruct (perform_cases _ _ _ _ _ Hp) as [->|[[s ->]|(wo & Hu & Hc)]]; [auto|auto|].
    eapply rows_preserved; eauto using uses_disciplined, uses_entitled.
Qed.
Lemma perform_older clock o db db' log m r : WInv db → perform clock o db db' r → allowed m o → phase_ok db log m → WInv db' ∧ older db db'.
Proof.
  intros I Hp Ha Hm. destruct (perform_cases _ _ _ _ _ Hp) as [->|[[s ->]|(wo & Hu & Hc)]]; [done| |].
  - split; [by eapply WInv_step; [|constructor]|by apply older_same].
  - destruct (op_lives _ _ _ _ I (uses_disciplined _ _ _ _ _ Ha Hu Hm) Hc) as [w Hl]. split; [by eapply WInv_lives|apply Hl].
Qed.
Lemma sent_next clock o db db' log m r :
  WInv db → perform clock o db db' r → allowed m o → phase_ok db log m →
  (∀ e, e ∈ log → sent_ok db e) → ∀ e, e ∈ log ++ events_of o r → sent_ok db' e.
Proof.
  intros I Hp Ha Hm Hsent e [He|He]%elem_of_app.
  - eapply sent_ok_older; [by eapply perform_older|auto].
  - destruct o; cbn in He; try (by apply not_elem_of_nil in He).
    + destruct Ha as (a & Hb & Hau). unfold phase_ok in Hm. rewrite Hb in Hm. destruct Hm as (n & Hid & row & Hrow & Hn & _ & Hdesc).
      cbn in Hp. subst db'. apply elem_of_cons in He as [->|He].
      * exists n, a. split; [done|]. split; [by exists row|done].
      * destruct r as [[c|]|err]; [|by apply not_elem_of_nil in He|].
        -- apply list_elem_of_singleton in He as ->. done.
        -- destruct (definite_rejection err); [|by apply not_elem_of_nil in He]. apply list_elem_of_singleton in He as ->. done.
    + destruct (revoked_ok _); [|by apply not_elem_of_nil in He]. by apply list_elem_of_singleton in He as ->.
Qed.

(** *** Steps *)
Lemma lock_after m o r held : m_lock m = held → m_lock (mon_next m o r) = lock_next o held.
Proof. intros <-. destruct o; cbn; try done; repeat case_match; done. Qed.
Lemma WSInv_perform db db' ts log ms i o k held r clock :
  SInv {| sy_db := db; sy_threads := ts; sy_log := log |} ms → ts !! i = Some (Vis o k, held) → lock_free o ts →
  perform clock o db db' r →
  ∃ ms', SInv {| sy_db := db'; sy_threads := <[i := (k r, lock_next o held)]> ts; sy_log := log ++ events_of o r |} ms'.
Proof.
  intros [I Hsafe Hlocks Honce Hphase Hrows Hsent] Hi Hfree Hp. cbn [sy_db sy_threads sy_log] in *. pose proof I as [Ht _].
  destruct (Forall2_lookup_l _ _ _ _ _ Hsafe Hi) as (m & Hm & [Hallow Hnext] & Hlock). cbn [fst snd] in *.
  pose proof (Hphase m (list_elem_of_lookup_2 _ _ _ Hm)) as Hpm.
  assert (∀ n, (sent_for n log + begun_by n m ≤ 1)%nat) as Hown.
  { intros n. specialize (Honce n). pose proof (sum_list_with_one (begun_by n) ms i m Hm). unfold begun_for in Honce. lia. }
  exists (<[i := mon_next m o r]> ms). split; cbn [sy_db sy_threads sy_log].
  - by eapply perform_older.
  - apply Forall2_insert; [done|]. cbn. split; [apply Hnext; by eapply wperform_reply|by apply lock_after].
  - assert (∀ j t w, <[i := (k r, lock_next o held)]> ts !! j = Some t → t.2 = Some w →
      (∃ t', ts !! j = Some t' ∧ t'.2 = Some w) ∨ j = i ∧ (∀ t', t' ∈ ts → t'.2 ≠ Some w)) as Hback.
    { intros j t w Hj Hw. destruct (decide (i = j)) as [<-|Hne].
      - rewrite list_lookup_insert_eq in Hj by (by eapply lookup_lt_Some). injection Hj as <-. cbn in Hw.
        destruct o; cbn in Hw; try (left; exists (Vis _ k, held); by split). right. split; [done|]. injection Hw as <-. exact Hfree.
      - rewrite list_lookup_insert_ne in Hj by done. left. by exists t. }
    intros j j' t t' w Hj Hj' Hw Hw'.
    destruct (Hback _ _ _ Hj Hw) as [(u & Hu & Huw)|[-> Hno]], (Hback _ _ _ Hj' Hw') as [(u' & Hu' & Huw')|[-> Hno']]; try done.
    + by eapply (Hlocks j j' u u' w).
    + exfalso. eapply (Hno' u); [by eapply list_elem_of_lookup_2|done].
    + exfalso. eapply (Hno u'); [by eapply list_elem_of_lookup_2|done].
  - intros n. rewrite wsent_for_app. pose proof (sum_list_with_insert (begun_by n) ms i m (mon_next m o r) Hm) as Hsum. specialize (Honce n).
    unfold begun_for in *. destruct (budget clock o db db' log ms m r n Ht Hallow Hp Hphase Hrows I) as [?|[? ?]]; unfold begun_for in *; lia.
  - intros m' [j Hj]%list_elem_of_lookup. destruct (decide (i = j)) as [<-|Hne].
    + rewrite list_lookup_insert_eq in Hj by (by eapply lookup_lt_Some). injection Hj as <-. by eapply phase_next.
    + rewrite list_lookup_insert_ne in Hj by done. pose proof (Hphase m' (list_elem_of_lookup_2 _ _ _ Hj)) as Hpm'.
      eapply phase_kept; try done.
      * intros id a n Hb Hid wo Hu. eapply uses_spares; try done. intros n'. specialize (Honce n').
        pose proof (sum_list_with_two (begun_by n') ms i j m m' Hm Hj Hne). unfold begun_for in Honce. lia.
      * intros w wo Hw Hu He. pose proof (uses_lock _ _ _ _ Hallow Hu He) as Hlw. unfold phase_ok in Hpm'. rewrite Hw in Hpm'.
        destruct Hpm' as [Hlw' _]. destruct (Forall2_lookup_r _ _ _ _ _ Hsafe Hj) as (t & Htj & _ & Hlt).
        apply Hne. by eapply (Hlocks i j _ t w); [exact Hi|exact Htj|cbn; congruence|congruence].
  - by eapply rows_next.
  - by eapply sent_next.
Qed.
Lemma handler_safe p : handler p → obeys mon_next allowed stored_reply {| m_lock := None; m_phase := Idle |} p (λ _ _, True).
Proof.
  assert (∀ A (q : prog A) (Q : mon → A → Prop), obeys mon_next allowed stored_reply {| m_lock := None; m_phase := Idle |} q Q →
    obeys mon_next allowed stored_reply {| m_lock := None; m_phase := Idle |} (discard q) (λ _ _, True)) as Hd.
  { intros A q Q Hq. unfold discard. by eapply obeys_seq. }
  destruct 1; eapply Hd; [apply safe_Prepare|apply safe_Complete|apply safe_Disconnect|apply safe_maintenance|apply safe_recovery].
Qed.
Lemma begun_idle n m : m_phase m = Idle → begun_by n m = 0%nat.
Proof. intros Hp. unfold begun_by. by rewrite Hp. Qed.
Lemma SInv_spawn db ts log ms p :
  SInv {| sy_db := db; sy_threads := ts; sy_log := log |} ms → handler p →
  SInv {| sy_db := db; sy_threads := ts ++ [(p, None)]; sy_log := log |} (ms ++ [{| m_lock := None; m_phase := Idle |}]).
Proof.
  intros [I Hsafe Hlocks Honce Hphase Hrows Hsent] Hh. split; cbn [sy_db sy_threads sy_log] in *; try done.
  - apply Forall2_app; [done|]. constructor; [|constructor]. split; [by apply handler_safe|done].
  - assert (∀ j t w, (ts ++ [(p, None)]) !! j = Some t → t.2 = Some w → ts !! j = Some t) as Hback.
    { intros j t w Hj Hw. apply lookup_app_Some in Hj as [?|[_ Hj]]; [done|]. apply list_lookup_singleton_Some in Hj as [_ <-]. done. }
    intros i j t t' w Hi Hj Hw Hw'. eapply (Hlocks i j t t' w); eauto.
  - intros n. specialize (Honce n). unfold begun_for in *. rewrite sum_list_with_app. cbn. lia.
  - intros m [?| ->%list_elem_of_singleton]%elem_of_app; [auto|done].
Qed.
Lemma SInv_stop db ts log ms i :
  SInv {| sy_db := db; sy_threads := ts; sy_log := log |} ms →
  ∃ ms', SInv {| sy_db := db; sy_threads := <[i := (Ret tt, None)]> ts; sy_log := log |} ms'.
Proof.
  intros [I Hsafe Hlocks Honce Hphase Hrows Hsent]. cbn [sy_db sy_threads sy_log] in *.
  exists (<[i := {| m_lock := None; m_phase := Idle |}]> ms). split; cbn [sy_db sy_threads sy_log]; try done.
  - by apply Forall2_insert.
  - assert (∀ j t w, <[i := (Ret tt, None)]> ts !! j = Some t → t.2 = Some w → ts !! j = Some t) as Hback.
    { intros j t w Hj Hw. apply list_lookup_insert_Some in Hj as [(_ & <- & _)|[_ ?]]; done. }
    intros j j' t t' w Hj Hj' Hw Hw'. eapply (Hlocks j j' t t' w); eauto.
  - intros n. specialize (Honce n). destruct (ms !! i) as [m|] eqn:Hm.
    + pose proof (sum_list_with_insert (begun_by n) ms i m {| m_lock := None; m_phase := Idle |} Hm) as Hs.
      rewrite (begun_idle n {| m_lock := None; m_phase := Idle |}) in Hs by done. unfold begun_for in *. lia.
    + rewrite list_insert_ge by (by apply lookup_ge_None). done.
  - intros m [j Hj]%list_elem_of_lookup. apply list_lookup_insert_Some in Hj as [(_ & <- & _)|[_ Hj]]; [done|].
    apply Hphase. by eapply list_elem_of_lookup_2.
Qed.
Lemma SInv_background db db' ts log ms clock o :
  SInv {| sy_db := db; sy_threads := ts; sy_log := log |} ms → background o → commits clock o db db' →
  SInv {| sy_db := db'; sy_threads := ts; sy_log := log |} ms.
Proof.
  intros [I Hsafe Hlocks Honce Hphase Hrows Hsent] Hb Hc. cbn [sy_db sy_threads sy_log] in *.
  assert (disciplined db o) as Hd by (by destruct o). destruct (op_lives _ _ _ _ I Hd Hc) as [w Hl].
  split; cbn [sy_db sy_threads sy_log]; try done.
  - by eapply WInv_lives.
  - intros m Hm. rewrite <- (app_nil_r log). eapply phase_preserved; try done; [| |by apply Hphase].
    + intros id a n _ _. split; intros; subst; done.
    + intros v _ He. by destruct o.
  - eapply rows_preserved; try done. split; intros; subst; done.
  - intros e He. eapply sent_ok_older; [apply Hl|auto].
Qed.
Lemma WSInv_step σ σ' ms : SInv σ ms → sys_step σ σ' → ∃ ms', SInv σ' ms'.
Proof.
  intros I Hs. destruct Hs as [db ts log p Hh|db db' ts log i o k held r clock Hi Hf Hp|db ts log i|db db' ts log clock o Hb Hc|db ts log s].
  - eexists. by apply SInv_spawn.
  - by eapply WSInv_perform.
  - by eapply SInv_stop.
  - eexists. by eapply SInv_background.
  - exists ms. destruct I as [I Hsafe Hlocks Honce Hphase Hrows Hsent]. cbn [sy_db sy_threads sy_log] in *. split; try done.
    by eapply WInv_step; [|constructor].
Qed.
Lemma SInv_reachable σ : run_reaches σ → ∃ ms, SInv σ ms.
Proof.
  intros [s Hs]. assert (∃ ms, SInv (start s) ms) as Hstart.
  { exists []. split; cbn; try done; try (by intros ? ?%not_elem_of_nil); [apply WInv_empty|lia]. }
  revert Hstart. generalize dependent (start s). intros σ0 Hs. induction Hs as [σ0|σ0 σ1 σ2 H1 H2 IH]; [done|].
  intros [ms I]. apply IH. by eapply WSInv_step.
Qed.

(** ** The database under the handlers *)
Lemma perform_wsteps clock o db db' log m r : allowed m o → phase_ok db log m → perform clock o db db' r → rtc wstep db db'.
Proof.
  intros Ha Hm Hp. destruct (perform_cases _ _ _ _ _ Hp) as [->|[[s ->]|(wo & Hu & Hc)]]; [apply rtc_refl|apply rtc_once; constructor|].
  apply rtc_once. econstructor; [by eapply uses_disciplined|exact Hc].
Qed.
Lemma sys_step_wsteps σ σ' ms : SInv σ ms → sys_step σ σ' → rtc wstep (sy_db σ) (sy_db σ').
Proof.
  intros I Hs. destruct Hs as [db ts log p Hh|db db' ts log i o k held r clock Hi Hf Hp|db ts log i|db db' ts log clock o Hb Hc|db ts log s]; cbn.
  - apply rtc_refl.
  - destruct (Forall2_lookup_l _ _ _ _ _ (si_safe _ _ I) Hi) as (m & Hm & [Hallow _] & _).
    eapply perform_wsteps; [exact Hallow|apply (si_phase _ _ I); by eapply list_elem_of_lookup_2|exact Hp].
  - apply rtc_refl.
  - apply rtc_once. econstructor; [|exact Hc]. by destruct o.
  - apply rtc_once. constructor.
Qed.
Lemma sys_steps_wsteps σ σ' ms : SInv σ ms → rtc sys_step σ σ' → rtc wstep (sy_db σ) (sy_db σ').
Proof.
  intros I Hs. revert ms I. induction Hs as [σ|σ σ1 σ2 H1 H2 IH]; intros ms I; [apply rtc_refl|].
  destruct (WSInv_step _ _ _ I H1) as [ms1 I1]. etrans; [by eapply sys_step_wsteps|by eapply IH].
Qed.
End System.
