(* ===== verification/ConnectionRecovery.v ===== *)
(** * Worm wallet connections: recovery

    The recovery loop of a starting service resolves every attempt a previous
    process left open, and ends. *)

From S2P Require Import Prelude Prog Sql CashOutTypes CashOutStages CashOutWorker ConnectionTypes ConnectionStore ConnectionInv ConnectionLink.
From S2P Require Import ConnectionOps ConnectionService.
From stdpp Require Import base tactics option list list_numbers sorting strings gmap relations.
From Stdlib Require Import ZArith Lia Ascii.
#[local] Open Scope Z_scope.

Section Recovery.
Context {UL : UuidLib} {SL : SolanaLib} {CL : ChallengeLib}.

(** ** One wallet *)
Lemma terminal_succeeds st failure now a db :
  tables db → act db (ca_wallet_id a) a → attempt_active st = false → text_between 0 100 failure = true →
  ∃ db' row, MarkConnectionAttemptTerminal st failure now (ca_id a) db = Ok (db', row).
Proof.
  intros Ht (Hin & _ & Ha) Hst Hf. unfold MarkConnectionAttemptTerminal, update_connection_attempt.
  destruct (sql_one_is_Some (λ b, (ca_id b =? ca_id a)%N && attempt_active (ca_state b)) _ a Hin) as [b Hb]; [by rewrite N.eqb_refl, Ha|].
  pose proof (sql_one_Some _ _ _ Hb) as [Hbin [Hid%N.eqb_eq Hba]%andb_true_iff].
  pose proof (tb_checked _ Ht b Hbin) as Hck. unfold tx_get, mbind, tx_bind. rewrite Hb. unfold ensure, tx_lift, require.
  assert (connection_attempt_check (with_attempt_state st failure (Some now) now b) = true) as ->; [|by eexists _, _].
  unfold connection_attempt_check in *. cbn in *. rewrite Hst, Hf. cbn. rewrite !andb_true_iff in *. tauto.
Qed.
Lemma connection_succeeds st warning at_ now w address c db :
  tables db → v_conn (view db w) = Some c → cn_address c = address → text_between 0 100 warning = true →
  st ≠ ConnectionStateConnecting → (st = ConnectionStateNotConnected → at_ = None) →
  ∃ db' row, UpdateWalletConnectionState st warning at_ now w address db = Ok (db', row).
Proof.
  intros Ht Hc Ha Hw Hst Hat. apply view_conn in Hc as [Hin Hwal]; [|done]. unfold UpdateWalletConnectionState.
  set (p := λ c, (cn_wallet_id c =? w) && bool_decide (cn_address c = address)).
  destruct (sql_one_is_Some p _ c Hin) as [d Hd]; [unfold p; rewrite Hwal, Z.eqb_refl; by apply bool_decide_eq_true_2|].
  pose proof (sql_one_Some _ _ _ Hd) as [Hdin _]. pose proof (tb_conn_checked _ Ht d Hdin) as Hck.
  unfold tx_get, mbind, tx_bind. fold p. rewrite Hd. unfold ensure, tx_lift, require.
  assert (connection_check (with_state st warning at_ now d) = true) as ->; [|by eexists _, _].
  unfold connection_check in *. cbn in *. rewrite Hw. rewrite !andb_true_iff in Hck. destruct Hck as [[[-> ->] _] _]. cbn.
  destruct st; try done. by rewrite Hat.
Qed.
Lemma cleanup_warning_text w fallback db :
  text_between 0 100 fallback = true → text_between 0 100 (credentialCleanupWarning w fallback db) = true.
Proof. intros H. unfold credentialCleanupWarning. repeat case_match; done. Qed.

(** How an attempt is resolved that nobody will finish. *)
Definition resolved (db' : WDB) (a : attempt_row) : Prop :=
  ∃ x c, x ∈ w_attempts db' ∧ same_attempt a x ∧ conn db' (ca_wallet_id a) c
    ∧ match ca_state a with
      | ConnectionAttemptStateCompleting => ca_state x = ConnectionAttemptStateOutcomeUnknown
          ∧ cn_state c = ConnectionStateReconnectRequired ∧ cn_warning_code c = unknownCreateOutcomeWarning
      | _ => ca_state x = ConnectionAttemptStateFailed ∧ cn_state c = ca_previous_connection_state a
      end.
Lemma active_connection db a :
  WInv db → act db (ca_wallet_id a) a →
  ∃ c, v_conn (view db (ca_wallet_id a)) = Some c ∧ cn_address c = ca_address a ∧ connection_check c = true ∧ 0 < ca_wallet_id a.
Proof.
  intros [Ht _] (Hin & _ & _). destruct (tb_reference _ Ht a Hin) as (c & Hc & Ha). exists c. pose proof Hc as [Hcin Hw].
  pose proof (tb_conn_checked _ Ht c Hcin) as Hck. split; [by apply view_conn|]. split; [done|]. split; [done|].
  unfold connection_check in Hck. rewrite !andb_true_iff in Hck. destruct Hck as [[[Hpos _] _] _]. apply Z.ltb_lt in Hpos. congruence.
Qed.
Lemma terminal_then_connection st failure now a db (f : WDB → string) cst :
  WInv db → act db (ca_wallet_id a) a → attempt_active st = false → text_between 0 100 failure = true →
  (∀ d, text_between 0 100 (f d) = true) → cst ≠ ConnectionStateConnecting →
  (cst = ConnectionStateNotConnected → ca_previous_connected_at a = None) →
  ∃ d row db' crow, MarkConnectionAttemptTerminal st failure now (ca_id a) db = Ok (d, row)
    ∧ UpdateWalletConnectionState cst (f d) (ca_previous_connected_at a) now (ca_wallet_id a) (ca_address a) d = Ok (db', crow).
Proof.
  intros I Ha Hst Hf Hw Hc Hnc. pose proof I as [Ht L]. destruct (active_connection _ _ I Ha) as (c & Hcv & Haddr & _ & _).
  destruct (terminal_succeeds st failure now a db Ht Ha Hst Hf) as (d & row & Hd).
  pose proof Hd as Hm. apply view_terminal_of in Hm as (_ & (Ht1 & _ & Hv1 & _) & _ & _); [|done..].
  destruct (connection_succeeds cst (f d) (ca_previous_connected_at a) now (ca_wallet_id a) (ca_address a) c d) as (db' & crow & Hu);
    [done|by rewrite Hv1|done|done|done|done|]. by exists d, row, db', crow.
Qed.
Lemma fail_succeeds a code now db :
  WInv db → act db (ca_wallet_id a) a → text_between 0 100 code = true →
  ∃ db', failConnectionAttemptInTransaction a code now db = Ok (db', tt).
Proof.
  intros I Ha Hcode. pose proof I as [Ht L]. apply view_act in Ha as Hv; [|done].
  destruct (lk_previous _ (L (ca_wallet_id a)) a Hv) as (_ & Hnc & Hres).
  destruct (terminal_then_connection ConnectionAttemptStateFailed code (pg_time now) a db
    (λ d, match ca_kind a with ConnectionAttemptKindRegenerate => unknownCreateOutcomeWarning
          | _ => credentialCleanupWarning (ca_wallet_id a) code d end) (ca_previous_connection_state a))
    as (d & row & db' & crow & Hd & Hu); try done.
  - intros d. destruct (ca_kind a); [by apply cleanup_warning_text..|done].
  - intros He. by rewrite He in Hres.
  - exists db'. unfold failConnectionAttemptInTransaction, mbind, tx_bind. rewrite Hd. cbn. by rewrite Hu.
Qed.
Lemma unknown_succeeds a now db :
  WInv db → act db (ca_wallet_id a) a →
  ∃ db', lockOutcomeUnknown a unknownCreateOutcomeWarning unknownCreateOutcomeWarning now db = Ok (db', tt).
Proof.
  intros I Ha. destruct (terminal_then_connection ConnectionAttemptStateOutcomeUnknown unknownCreateOutcomeWarning
    (pg_time now) a db (λ _, unknownCreateOutcomeWarning) ConnectionStateReconnectRequired) as (d & row & db' & crow & Hd & Hu); try done.
  exists db'. unfold lockOutcomeUnknown, mbind, tx_bind. rewrite Hd. cbn. by rewrite Hu.
Qed.
(** The row an attempt ended as. *)
Lemma ended_row st db db' a row :
  WInv db → act db (ca_wallet_id a) a → tables db' → older db db' → v_act (view db' (ca_wallet_id a)) = None →
  ca_state row = st → (∀ R : attempt_row → attempt_row → Prop, R a row → evolves R db db') →
  ∃ x, x ∈ w_attempts db' ∧ same_attempt a x ∧ ca_state x = st.
Proof.
  intros [Ht _] Ha Ht' Ho Hno Hrow HR. pose proof Ha as (Hin & _ & Hactive). destruct (Ho a Hin) as (x & Hx & Hs & _). exists x. split; [done|]. split; [done|].
  assert (attempt_active (ca_state x) = false) as Hend.
  { destruct (attempt_active (ca_state x)) eqn:E; [|done]. assert (act db' (ca_wallet_id a) x) as Hax by (split; [done|]; split; [apply Hs|done]).
    apply view_act in Hax; [congruence|done]. }
  destruct (HR (λ _ y, ca_state y = st) Hrow x Hx) as [Hold|[Hp|(b & _ & _ & ?)]]; [|by rewrite Hp in Hend|done].
  assert (x = a) as -> by (apply (NoDup_key_inj ca_id (w_attempts db)); [apply Ht|done..|apply Hs]). congruence.
Qed.
Lemma recover_succeeds now a db :
  WInv db → act db (ca_wallet_id a) a →
  ∃ db', recoverConnectionAttemptForWallet (ca_wallet_id a) now false db = Ok (db', true)
    ∧ v_act (view db' (ca_wallet_id a)) = None ∧ resolved db' a.
Proof.
  intros I Ha. pose proof I as [Ht L]. pose proof Ha as (Hin & _ & Hactive). apply view_act in Ha as Hv; [|done].
  destruct (active_connection _ _ I Ha) as (c0 & _ & _ & _ & Hpos). apply Z.ltb_lt in Hpos.
  change (GetActiveConnectionAttemptForWallet (ca_wallet_id a) db = Some a) in Hv.
  unfold recoverConnectionAttemptForWallet, beginWalletTransaction, resolved.
  destruct (ca_state a) eqn:Hst; try done.
  - destruct (fail_succeeds a connectionServiceRestartedWarning now db I Ha eq_refl) as [db' Hf]. exists db'. split.
    { unfold mbind, tx_bind, ensure, tx_lift, require, tx_get. rewrite Hpos, Hv. cbn. rewrite Hst. by rewrite Hf. }
    apply fail_block in Hf as (c & warning & row & Hc & _ & _ & (Ht' & Ho & Hview & _) & Hrow & HR); [|done..].
    assert (v_act (view db' (ca_wallet_id a)) = None) as Hno by (by rewrite Hview). split; [done|].
    destruct (ended_row _ _ _ _ _ I Ha Ht' Ho Hno Hrow HR) as (x & Hx & Hs & Hxs). exists x. eexists. split; [done|]. split; [done|].
    split; [apply view_conn; [done|by rewrite Hview]|done].
  - destruct (unknown_succeeds a now db I Ha) as [db' Hf]. exists db'. split.
    { unfold mbind, tx_bind, ensure, tx_lift, require, tx_get. rewrite Hpos, Hv. cbn. rewrite Hst. by rewrite Hf. }
    apply unknown_block in Hf as (c & row & Hc & _ & (Ht' & Ho & Hview & _) & Hrow & _ & HR); [|done..].
    assert (v_act (view db' (ca_wallet_id a)) = None) as Hno by (by rewrite Hview). split; [done|].
    destruct (ended_row _ _ _ _ _ I Ha Ht' Ho Hno Hrow HR) as (x & Hx & Hs & Hxs). exists x. eexists. split; [done|]. split; [done|].
    split; [apply view_conn; [done|by rewrite Hview]|done].
Qed.

(** ** A list of wallets *)
Definition is_active (a : attempt_row) : bool := attempt_active (ca_state a).
Definition active_wallets (db : WDB) : gset Z := list_to_set (ca_wallet_id <$> sql_many is_active (w_attempts db)).
Lemma elem_of_active_wallets db w : w ∈ active_wallets db ↔ ∃ a, act db w a.
Proof.
  unfold active_wallets, act. rewrite elem_of_list_to_set, list_elem_of_fmap. setoid_rewrite elem_of_sql_many. unfold is_active.
  split; intros (a & H); exists a; intuition.
Qed.
Lemma act_view db db' w a : tables db → tables db' → view db' w = view db w → act db' w a ↔ act db w a.
Proof. intros Ht Ht' Hv. by rewrite <- !view_act, Hv. Qed.
Lemma resolved_later db db' a :
  tables db → tables db' → older db db' → view db' (ca_wallet_id a) = view db (ca_wallet_id a) → resolved db a → resolved db' a.
Proof.
  intros Ht Ht' Ho Hv (x & c & Hx & Hs & Hc & Hm). exists x, c. split; [|split; [done|split; [|done]]].
  - eapply older_terminal; [done|done|]. by destruct (ca_state a); destruct Hm as [-> _].
  - apply view_conn; [done|]. rewrite Hv. by apply view_conn.
Qed.
Record recovers (ws : list Z) (db db' : WDB) : Prop := {
  rc_inv : WInv db';
  rc_older : older db db';
  rc_others : ∀ w, w ∉ ws → view db' w = view db w;
  rc_done : ∀ w, w ∈ ws → v_act (view db' w) = None;
  rc_resolved : ∀ w a, w ∈ ws → act db w a → resolved db' a }.
Lemma recover_wallets_succeed ws now db :
  WInv db → NoDup ws → (∀ w, w ∈ ws → ∃ a, act db w a) →
  ∃ db', recover_wallets ws now false db = (db', Ok tt) ∧ recovers ws db db'.
Proof using UL.
  revert db. induction ws as [|w ws IH]; intros db I Hnd Hact.
  { exists db. split; [done|]. split; [done|done|done|by intros w ?%not_elem_of_nil|by intros w a ?%not_elem_of_nil]. }
  apply NoDup_cons in Hnd as [Hnw Hnd]. destruct (Hact w) as [a Ha]; [by left|]. pose proof Ha as (_ & Hw & _). subst w.
  destruct (recover_succeeds now a db I Ha) as (db1 & Hr & Hnone & Hres). pose proof I as [Ht _].
  pose proof (recover_lives _ _ _ _ _ _ Ht Hr) as Hl. pose proof (WInv_lives _ _ _ _ I Hl) as I1. pose proof I1 as [Ht1 _].
  destruct (IH db1 I1 Hnd) as (db' & Hok & [I' Ho Hothers Hdone Hrs]).
  { intros w Hin. destruct (Hact w) as [b Hb]; [by right|]. exists b. apply (act_view db); [done|done| |done].
    apply (lv_others _ _ _ _ Hl). by intros ->. }
  pose proof I' as [Ht' _]. exists db'. split; [cbn [recover_wallets]; unfold run_tx; by rewrite Hr|]. split; [done| | | |].
  - etrans; [apply Hl|done].
  - intros w [Hne Hni]%not_elem_of_cons. rewrite Hothers by done. by apply (lv_others _ _ _ _ Hl).
  - intros w [->|Hin]%elem_of_cons; [by rewrite Hothers|auto].
  - intros w b [->|Hin]%elem_of_cons Hb.
    + assert (b = a) as -> by (by apply (tb_active _ Ht (ca_wallet_id a))). eapply resolved_later; [exact Ht1|done|done|by apply Hothers|done].
    + apply (Hrs w b Hin). apply (act_view db); [done|done| |done]. apply (lv_others _ _ _ _ Hl). by intros ->.
Qed.

(** ** One batch *)
Lemma active_wallets_NoDup db : tables db → NoDup (ca_wallet_id <$> sql_many is_active (w_attempts db)).
Proof.
  intros Ht. apply NoDup_fmap_2_strong.
  - intros a b [Ha Hain]%elem_of_sql_many [Hb Hbin]%elem_of_sql_many Heq. by apply (tb_active _ Ht (ca_wallet_id a)).
  - apply NoDup_filter. eapply NoDup_fmap_1. apply Ht.
Qed.
Lemma active_list_perm db :
  tables db → ∃ l, l ≡ₚ (ca_wallet_id <$> sql_many is_active (w_attempts db))
    ∧ ∀ limit, ListActiveConnectionAttemptWalletIDs limit db = take (Z.to_nat limit) l.
Proof.
  intros Ht. eexists (ca_wallet_id <$> sort_by _ (sql_many is_active (w_attempts db))). split; [by rewrite sort_by_Permutation|].
  intros limit. unfold ListActiveConnectionAttemptWalletIDs. rewrite <- fmap_take. reflexivity.
Qed.
Lemma batch_succeeds clock at_ db :
  WInv db →
  ∃ ws db', RecoverConnectionAttempts clock at_ wormConnectionRecoveryBatchSize db = (db', Ok (Z.of_nat (length ws)))
    ∧ recovers ws db db' ∧ length ws = Nat.min 100 (size (active_wallets db))
    ∧ active_wallets db' = active_wallets db ∖ list_to_set ws ∧ list_to_set ws ⊆ active_wallets db ∧ NoDup ws.
Proof using UL.
  intros I. pose proof I as [Ht _]. destruct (active_list_perm db Ht) as (l & Hperm & Hlist).
  assert (NoDup l) as Hnd by (rewrite Hperm; by apply active_wallets_NoDup).
  assert (∀ w, w ∈ l ↔ w ∈ active_wallets db) as Hin by (intros w; unfold active_wallets; by rewrite elem_of_list_to_set, Hperm).
  set (ws := take 100 l). assert (NoDup ws) as Hndw by (eapply sublist_NoDup; [exact Hnd|apply sublist_take]).
  assert (∀ w, w ∈ ws → w ∈ l) as Hsub by (intros w Hw; eapply elem_of_sublist; [exact Hw|apply sublist_take]).
  destruct (recover_wallets_succeed ws (canonicalNow clock at_) db I Hndw) as (db' & Hok & Hrec).
  { intros w Hw. by apply elem_of_active_wallets, Hin, Hsub. }
  exists ws, db'. split; [|split; [done|split; [|split; [|split; [|done]]]]].
  - unfold RecoverConnectionAttempts. change (connectionAttemptMaintenanceLimit wormConnectionRecoveryBatchSize) with 100.
    rewrite Hlist. change (take (Z.to_nat 100) l) with ws. by rewrite Hok.
  - unfold ws. rewrite length_take. f_equal. unfold active_wallets. rewrite size_list_to_set by (by apply active_wallets_NoDup).
    by rewrite Hperm.
  - apply set_eq. intros w. rewrite elem_of_difference, elem_of_list_to_set, !elem_of_active_wallets. pose proof (rc_inv _ _ _ Hrec) as [Ht' _].
    destruct (decide (w ∈ ws)) as [Hw|Hw].
    + split; [|by intros []]. intros [a Ha]. apply view_act in Ha; [|done]. rewrite (rc_done _ _ _ Hrec w Hw) in Ha. done.
    + pose proof (rc_others _ _ _ Hrec w Hw) as Hv. split; [intros [a Ha]; split; [|done]|intros [[a Ha] _]]; exists a;
        by apply (act_view db db' w a Ht Ht' Hv).
  - intros w Hw%elem_of_list_to_set. by apply Hin, Hsub.
Qed.

(** ** The loop *)
Lemma recovers_trans ws ws' db db1 db' : (∀ w, w ∈ ws' → w ∉ ws) → tables db → recovers ws db db1 → recovers ws' db1 db' → recovers (ws ++ ws') db db'.
Proof.
  intros Hdis Ht [I1 Ho1 Hu1 Hd1 Hr1] [I' Ho' Hu' Hd' Hr']. pose proof I1 as [Ht1 _]. pose proof I' as [Ht' _]. split; [done|by etrans|..].
  - intros w [H1 H2]%not_elem_of_app. by rewrite Hu', Hu1.
  - intros w Hw. destruct (decide (w ∈ ws')) as [?|Hn]; [auto|]. apply elem_of_app in Hw as [Hw|?]; [|done]. rewrite Hu' by done. auto.
  - intros w a [Hw|Hw]%elem_of_app Ha.
    + pose proof Ha as (_ & Hwa & _). subst w. eapply resolved_later; [exact Ht1|done|done| |by eapply Hr1].
      apply Hu'. intros Hw'. by apply (Hdis _ Hw').
    + apply (Hr' w a Hw). apply (act_view db); [done|done| |done]. auto.
Qed.
Lemma loop_succeeds (handle : ∀ o, WDB → WDB * resp o) clock fuel db :
  (∀ d, (handle OpNow d).1 = d) → (∀ at_ limit d, handle (OpRecover at_ limit) d = RecoverConnectionAttempts clock at_ limit d) →
  WInv db → (size (active_wallets db) < 100 * fuel)%nat →
  ∃ ws db', drive handle (recovery_loop fuel) db = (db', Some (Ok tt)) ∧ recovers ws db db' ∧ (∀ w, w ∈ ws ↔ w ∈ active_wallets db).
Proof using UL.
  intros Hnow Hrec. revert db. induction fuel as [|fuel IH]; intros db I Hsize; [lia|]. pose proof I as [Ht _].
  cbn [recovery_loop drive mbind prog_bind prog_bind_go call]. destruct (handle OpNow db) as [d now] eqn:Hn.
  assert (d = db) as -> by (specialize (Hnow db); by rewrite Hn in Hnow). cbn [drive]. rewrite Hrec.
  destruct (batch_succeeds clock now db I) as (ws & db1 & Hok & Hr & Hlen & Hleft & Hsub & Hnd). rewrite Hok. cbn [drive].
  assert (size (list_to_set ws : gset Z) = length ws) as Hsz by (by apply size_list_to_set).
  destruct (Z.ltb_spec (Z.of_nat (length ws)) wormConnectionRecoveryBatchSize) as [Hlt|Hge]; unfold wormConnectionRecoveryBatchSize in *.
  - exists ws, db1. split; [done|]. split; [done|]. intros w. rewrite <- (elem_of_list_to_set (C := gset Z)).
    assert (list_to_set ws = active_wallets db) as ->; [|done]. apply set_subseteq_size_eq; [done|]. lia.
  - destruct (IH db1 (rc_inv _ _ _ Hr)) as (ws' & db' & Hdrive & Hr' & Hws').
    { rewrite Hleft, size_difference by done. lia. }
    exists (ws ++ ws'), db'. split; [exact Hdrive|]. split.
    + eapply recovers_trans; [|done|done|done]. intros w Hw. apply Hws' in Hw. rewrite Hleft, elem_of_difference, elem_of_list_to_set in Hw. tauto.
    + intros w. rewrite elem_of_app, Hws', Hleft, elem_of_difference, elem_of_list_to_set. split.
      * intros [Hw|[Hw _]]; [|done]. apply Hsub. by apply elem_of_list_to_set.
      * intros Hw. destruct (decide (w ∈ ws)); auto.
Qed.
End Recovery.
