(* ===== verification/ConnectionScenario.v ===== *)
(** * Worm wallet connections: a concrete run

    A wallet is connected, the creation of its credential times out, and the
    credential is regenerated: the inputs at which the theorems are instantiated. *)

From S2P Require Import Prelude Prog Sql Bytes CashOutTypes CashOutStages CashOutWorker ConnectionTypes ConnectionStore ConnectionInv.
From S2P Require Import ConnectionLink ConnectionOps ConnectionService ConnectionSafety ConnectionSystem.
From stdpp Require Import base tactics option list list_numbers sorting strings gmap relations.
From Stdlib Require Import ZArith Lia Ascii.
Import Prelude.Concrete.
#[local] Open Scope Z_scope.

#[export] Instance challenge_lib : ChallengeLib := {|
  sha256 s := digest_text [s];
  ed25519_verify key message signature := bool_decide (signature = digest_text [message; key] +:+ digest_text [key; message]);
  base58_decode s := v ← public_key_from_base58 s; Some (be_bytes 32 (Z.of_N v));
  base58_encode s := public_key_string (Z.to_N (be_value s)) |}.

(** ** Running handlers *)
Record oracle := {
  or_now : Z; or_uuid : string; or_serial : Z; or_selection : WalletSelection; or_challenge : AuthChallenge;
  or_create : result go_error (option APIKeySecret) }.
Definition exec_op (w : oracle) (o : op) (db : WDB) : WDB * resp o :=
  match o return WDB * resp o with
  | OpNow => (db, or_now w)
  | OpNewString => (db, or_uuid w)
  | OpCtxErr => (db, false)
  | OpCapability => (db, Ok tt)
  | OpLock _ | OpUnlock _ => (db, tt)
  | OpSelection _ => (db, Ok (or_selection w))
  | OpRemovalAllowed _ _ _ _ => (db, Ok tt)
  | OpSnapshot wallet address => (db, GetWalletConnectionSnapshot wallet address db)
  | OpPrepare req => let '(d, r) := run_tx (PrepareConnectionAttempt (or_now w) 0 req) db in (d, flat r)
  | OpBegin req => let '(d, r) := run_tx (BeginConnectionAttemptCompletion (or_now w) req) db in (d, flat r)
  | OpFail id code at_ => run_tx (FailConnectionAttempt (or_now w) id code at_) db
  | OpUnknown id code at_ => run_tx (MarkConnectionAttemptOutcomeUnknown (or_now w) id code at_) db
  | OpActivate req => run_tx (ActivateCredential (or_now w) (or_serial w) req) db
  | OpDisconnect owner wallet address at_ =>
      let '(d, r) := run_tx (BeginDisconnect (or_now w) owner wallet address at_) db in (d, flat r)
  | OpBeginRevocation wallet k at_ => run_tx (BeginCredentialRevocation (or_now w) wallet k at_) db
  | OpRevoked wallet k at_ => run_tx (MarkCredentialRevoked (or_now w) wallet k at_) db
  | OpRevocationFailed wallet k st ks code at_ => run_tx (MarkCredentialRevocationFailed (or_now w) wallet k st ks code at_) db
  | OpListRevocations before limit => (db, Ok (ListCredentialsNeedingRevocation (or_now w) before limit db))
  | OpRetired _ _ _ => (set_w_selections (w_selections db) db, Ok tt)
  | OpRecover _ _ => (db, Ok 0)
  | OpExpire _ _ => (db, Ok tt)
  | OpEncrypt _ k s => (db, Some (k, s))
  | OpDecrypt _ k s => (db, Some (k, s))
  | OpNewClient _ => (db, None)
  | OpChallenge _ => (db, Ok (Some (or_challenge w)))
  | OpCreateKey _ _ => (db, or_create w)
  | OpRevokeKey _ _ => (db, None)
  end.
Lemma wtx_outcome {A} u (m : cw_tx A) db : outcome u m db (run_tx m db).1 (run_tx m db).2.
Proof. unfold run_tx. destruct (m db) as [[db' a]|e] eqn:E; cbn; [by apply outcome_ok|by apply outcome_error]. Qed.
Lemma wexec_performs w o db : perform (or_now w) o db (exec_op w o db).1 (exec_op w o db).2.
Proof.
  destruct o; cbn [exec_op perform fst snd]; try done; try (apply wtx_outcome); try (by eexists; apply wtx_outcome); try (by eexists).
  - destruct (run_tx _ db) as [d r] eqn:E. cbn. exists 0%N, r. split; [|done]. pose proof (wtx_outcome (λ _, True) (PrepareConnectionAttempt (or_now w) 0 req) db) as H. by rewrite E in H.
  - destruct (run_tx _ db) as [d r] eqn:E. cbn. exists r. split; [|done]. pose proof (wtx_outcome (λ _, True) (BeginConnectionAttemptCompletion (or_now w) req) db) as H. by rewrite E in H.
  - destruct (run_tx _ db) as [d r] eqn:E. cbn. exists r. split; [|done]. pose proof (wtx_outcome (λ _, True) (BeginDisconnect (or_now w) owner wallet address at_) db) as H. by rewrite E in H.
Qed.
Definition may_lock (o : op) (held : option Z) : bool :=
  match o with OpLock w => negb (bool_decide (held = Some w)) | _ => true end.
Fixpoint run (w : oracle) (fuel : nat) (p : prog unit) (held : option Z) (db : WDB) (log : list event) :
    prog unit * option Z * WDB * list event :=
  match fuel, p with
  | S fuel', Vis o k =>
      if may_lock o held then
        let '(db', r) := exec_op w o db in run w fuel' (k r) (lock_next o held) db' (log ++ events_of o r)
      else (p, held, db, log)
  | _, _ => (p, held, db, log)
  end.
Lemma wrun_steps w fuel p held db log ts :
  Forall (λ t, t.2 = None) ts →
  let '(p', held', db', log') := run w fuel p held db log in
  rtc sys_step {| sy_db := db; sy_threads := ts ++ [(p, held)]; sy_log := log |}
    {| sy_db := db'; sy_threads := ts ++ [(p', held')]; sy_log := log' |}.
Proof.
  intros Hts. revert p held db log. induction fuel as [|fuel IH]; intros p held db log; [apply rtc_refl|].
  destruct p as [a|o k]; [apply rtc_refl|]. cbn [run]. destruct (may_lock o held) eqn:Hlock; [|apply rtc_refl].
  destruct (exec_op w o db) as [db' r] eqn:E. specialize (IH (k r) (lock_next o held) db' (log ++ events_of o r)).
  destruct (run w fuel (k r) (lock_next o held) db' (log ++ events_of o r)) as [[[p' held'] db''] log'].
  eapply rtc_l; [|exact IH]. replace (ts ++ [(k r, lock_next o held)]) with (<[length ts := (k r, lock_next o held)]> (ts ++ [(Vis o k, held)])).
  - apply (sys_perform db db' (ts ++ [(Vis o k, held)]) log (length ts) o k held r (or_now w)).
    + by rewrite lookup_app_r, Nat.sub_diag by lia.
    + destruct o; cbn; try done. intros t [Ht| ->%list_elem_of_singleton]%elem_of_app.
      * rewrite Forall_forall in Hts. by rewrite (Hts t Ht).
      * cbn in *. by apply negb_true_iff, bool_decide_eq_false in Hlock.
    + pose proof (wexec_performs w o db) as Hp. by rewrite E in Hp.
  - by rewrite insert_app_r_alt, Nat.sub_diag by lia.
Qed.
(** A handler that runs from start to end. *)
Definition serve (w : oracle) (p : prog unit) (s : WDB * list event) : WDB * list event :=
  let '(p', held', db', log') := run w 100 p None s.1 s.2 in (db', log').
Definition idle (n : nat) : list (prog unit * option Z) := replicate n (Ret tt, None).
Lemma serve_steps w p n s :
  handler p →
  rtc sys_step {| sy_db := s.1; sy_threads := idle n; sy_log := s.2 |}
    {| sy_db := (serve w p s).1; sy_threads := idle (S n); sy_log := (serve w p s).2 |}.
Proof.
  intros Hh. eapply rtc_l; [by apply sys_spawn|].
  assert (Forall (λ t : prog unit * option Z, t.2 = None) (idle n)) as Hn by (apply Forall_replicate; done).
  pose proof (wrun_steps w 100 p None s.1 s.2 (idle n) Hn) as Hr. unfold serve.
  destruct (run w 100 p None s.1 s.2) as [[[p' held'] db'] log']. etrans; [exact Hr|]. cbn [fst snd].
  replace (idle (S n)) with (<[n := (Ret tt, None)]> (idle n ++ [(p', held')])).
  - apply rtc_once. apply sys_stop.
  - unfold idle. rewrite insert_app_r_alt by (rewrite length_replicate; lia). rewrite length_replicate, Nat.sub_diag. cbn.
    by rewrite <- replicate_cons_app.
Qed.

(** ** The scenario *)
Module ConnectScenario.
Definition now0 : Z := 63900000000 * second.
Definition owner : string := uuid_string 11.
Definition address : string := public_key_string 5.
Definition nonce : string := "abc".
Definition message : string := expectedWormChallengeMessage address nonce.
Definition selected : selections := {|
  sl_selections := [{| se_owner_account_id := 11; se_revision := 1; se_selected_wallet_count := 1; se_created_at := now0; se_updated_at := now0 |}];
  sl_items := [{| sit_owner_account_id := 11; sit_ordinal := 1; sit_wallet_id := 3; sit_address := address; sit_selected_at := now0 |}];
  sl_retirements := []; sl_holds := [] |}.
Definition signature : string :=
  digest_text [message; be_bytes 32 5] +:+ digest_text [be_bytes 32 5; message].
Definition world (now : Z) (attempt : N) (create : result go_error (option APIKeySecret)) : oracle := {|
  or_now := now; or_uuid := uuid_string attempt; or_serial := 7;
  or_selection := {| wsel_owner_account_id := owner; wsel_configured := true; wsel_revision := 1;
    wsel_selected_items := [{| wsi_ordinal := 1; wsi_wallet_id := 3; wsi_address := address |}]; wsel_retirements := []; wsel_updated_at := now0 |};
  or_challenge := {| ch_nonce := nonce; ch_message := message; ch_expires_in_seconds := 600 |}; or_create := create |}.
Definition timed_out (attempt : N) : oracle := world now0 attempt (Err ContextDeadlineExceeded).
Definition succeeds (attempt : N) : oracle := world (now0 + second) attempt (Ok (Some {| ak_api_key := "key"; ak_secret := "secret" |})).
Definition prepare (regenerate : bool) : prog unit := discard (PrepareWormWalletConnection {| pw_owner_account_id := owner; pw_wallet_id := 3;
  pw_address := address; pw_reconnect := false; pw_regenerate_unknown_credential := regenerate |}).
Definition complete (attempt : N) : prog unit := discard (CompleteWormWalletConnection {| cw_owner_account_id := owner;
  cw_attempt_id := uuid_string attempt; cw_wallet_id := 3; cw_address := address; cw_message_sha256 := sha256 message;
  cw_signature := signature |}).
Definition s0 : WDB * list event := (empty_wdb selected, []).
Definition s1 : WDB * list event := Eval vm_compute in serve (timed_out 51) (prepare false) s0.
Definition s2 : WDB * list event := Eval vm_compute in serve (timed_out 51) (complete 51) s1.
Definition s3 : WDB * list event := Eval vm_compute in serve (succeeds 52) (prepare true) s2.
Definition s4 : WDB * list event := Eval vm_compute in serve (succeeds 52) (complete 52) s3.
Definition at_ (n : nat) (s : WDB * list event) : system := {| sy_db := s.1; sy_threads := idle n; sy_log := s.2 |}.
End ConnectScenario.
Import ConnectScenario.
Lemma csc_step1 : rtc sys_step (at_ 0 s0) (at_ 1 s1).
Proof. apply (serve_steps (timed_out 51) (prepare false) 0 s0). apply handler_prepare. Qed.
Lemma csc_step2 : rtc sys_step (at_ 1 s1) (at_ 2 s2).
Proof. apply (serve_steps (timed_out 51) (complete 51) 1 s1). apply handler_complete. Qed.
Lemma sc_step3 : rtc sys_step (at_ 2 s2) (at_ 3 s3).
Proof. apply (serve_steps (succeeds 52) (prepare true) 2 s2). apply handler_prepare. Qed.
Lemma sc_step4 : rtc sys_step (at_ 3 s3) (at_ 4 s4).
Proof. apply (serve_steps (succeeds 52) (complete 52) 3 s3). apply handler_complete. Qed.
Lemma sc_reaches1 : run_reaches (at_ 1 s1).
Proof. exists selected. apply csc_step1. Qed.
Lemma sc_reaches2 : run_reaches (at_ 2 s2).
Proof. destruct sc_reaches1 as [s Hs]. exists s. etrans; [exact Hs|exact csc_step2]. Qed.
Lemma sc_regenerates : rtc sys_step (at_ 2 s2) (at_ 4 s4).
Proof. etrans; [exact sc_step3|exact sc_step4]. Qed.
Lemma sc_reaches4 : run_reaches (at_ 4 s4).
Proof. destruct sc_reaches2 as [s Hs]. exists s. etrans; [exact Hs|exact sc_regenerates]. Qed.
Lemma sc_database1 : w_reachable s1.1.
Proof.
  destruct (SInv_reachable (start selected)) as [ms I]; [exists selected; apply rtc_refl|].
  exists selected. exact (sys_steps_wsteps (start selected) (at_ 1 s1) ms I csc_step1).
Qed.
Definition begin51 : BeginConnectionAttemptCompletionRequest := {|
  ba_owner_account_id := owner; ba_attempt_id := uuid_string 51; ba_wallet_id := 3; ba_address := address; ba_now := now0 |}.
(** A service that starts on this database. *)
Definition recovery_handle (o : op) (db : WDB) : WDB * resp o :=
  match o return WDB * resp o with
  | OpRecover at_ limit => RecoverConnectionAttempts now0 at_ limit db
  | o' => exec_op (timed_out 51) o' db
  end.
