(* ===== verification/ConnectionTheorems.v ===== *)
(** * Worm wallet connections: theorems

    What the store and the handlers of the connection service guarantee together. *)

From S2P Require Import Prelude Prog Sql CashOutTypes CashOutStages CashOutWorker ConnectionTypes ConnectionStore ConnectionInv ConnectionLink.
From S2P Require Import ConnectionOps ConnectionService ConnectionSafety ConnectionSystem ConnectionRecovery ConnectionScenario.
From stdpp Require Import base tactics option list list_numbers sorting strings gmap relations.
From Stdlib Require Import ZArith Lia Ascii.
#[local] Open Scope Z_scope.

Section Theorems.
Context {UL : UuidLib} {SL : SolanaLib} {CL : ChallengeLib}.

(** ** The requests to the provider *)
(** C3: However many handlers run, stop and race, whatever the store, the clock and
    the provider reply, at most one CreateAPIKey request is ever sent for a
    connection attempt; it carries the challenge stored with the attempt, which
    names the wallet's address and nonce, and a signature of it that verifies
    against that address. *)
Theorem api_key_requested_once σ :
  run_reaches σ →
  (∀ n, (sent_for n (sy_log σ) ≤ 1)%nat)
  ∧ ∀ id req, EvSent id req ∈ sy_log σ →
      ∃ a signature, a ∈ w_attempts (sy_db σ) ∧ attempt_id id = Some (ca_id a)
        ∧ ck_wallet_address req = ca_address a ∧ ck_nonce req = ca_nonce a ∧ ck_message req = ca_challenge_message a
        ∧ ck_message req = expectedWormChallengeMessage (ca_address a) (ca_nonce a)
        ∧ ck_signature req = hex_EncodeToString signature
        ∧ verifyWormChallengeSignature (ca_address a) (ck_message req) signature = true.
Proof.
  intros [ms I]%SInv_reachable. split; [intros n; pose proof (si_once _ _ I n); lia|].
  intros id req Hin. destruct (si_sent _ _ I _ Hin) as (n & a & Hid & (row & Hrow & Hn & Ha & Hm & Hno) & signature & H1 & H2 & H3 & H4 & H5 & H6).
  exists row, signature. rewrite Ha in *. rewrite Hno in *. split_and!; congruence.
Qed.

(** C13: What the database says of an attempt agrees with what the provider was
    asked: no request was sent for a PREPARED attempt; an attempt is FAILED after a
    request only when the provider rejected it or confirmed that the key it
    created is revoked; an attempt is COMPLETED only when the provider created a
    key for it. *)
Theorem attempt_outcome_truthful σ a :
  run_reaches σ → a ∈ w_attempts (sy_db σ) →
  (ca_state a = ConnectionAttemptStatePrepared → sent_for (ca_id a) (sy_log σ) = 0%nat)
  ∧ (ca_state a = ConnectionAttemptStateFailed → (0 < sent_for (ca_id a) (sy_log σ))%nat → cleared (ca_id a) (sy_log σ))
  ∧ (ca_state a = ConnectionAttemptStateCompleted → ∃ credential, created (ca_id a) credential (sy_log σ)).
Proof. intros [ms I]%SInv_reachable Ha. destruct (si_rows _ _ I a Ha). auto. Qed.

(** ** The database *)
(** In every reachable state keys are unique, a wallet has at most one active
    attempt and one ACTIVE credential, attempts refer to the connection with their
    address; a CONNECTING wallet has an active attempt, an active attempt
    regenerates a credential exactly when its wallet is locked by
    CONNECT_OUTCOME_UNKNOWN, and a locked wallet is CONNECTING or needs to
    reconnect. *)
Theorem connection_invariant σ :
  run_reaches σ →
  let db := sy_db σ in
  NoDup (cn_wallet_id <$> w_connections db) ∧ NoDup (ca_id <$> w_attempts db) ∧ NoDup (kr_id <$> w_credentials db)
  ∧ (∀ w a b, act db w a → act db w b → a = b)
  ∧ (∀ k k', k ∈ w_credentials db → k' ∈ w_credentials db → kr_wallet_id k = kr_wallet_id k' →
       kr_state k = CredentialStateActive → kr_state k' = CredentialStateActive → k = k')
  ∧ (∀ a, a ∈ w_attempts db → ∃ c, conn db (ca_wallet_id a) c ∧ cn_address c = ca_address a)
  ∧ ∀ w c, conn db w c →
      (cn_state c = ConnectionStateConnecting → ∃ a, act db w a)
      ∧ (∀ a, act db w a → (ca_kind a = ConnectionAttemptKindRegenerate ↔ cn_warning_code c = unknownCreateOutcomeWarning))
      ∧ (cn_warning_code c = unknownCreateOutcomeWarning →
           cn_state c = ConnectionStateReconnectRequired ∨ cn_state c = ConnectionStateConnecting).
Proof.
  intros [ms I]%SInv_reachable db. destruct (si_db _ _ I) as [Ht L]. fold db in Ht, L. split_and!; try apply Ht.
  intros w c Hc. apply view_conn in Hc; [|done]. specialize (L w). split_and!.
  - intros Hst. destruct (lk_connecting _ L c Hc Hst) as [a Ha]. exists a. by apply view_act.
  - intros a Ha. apply view_act in Ha; [|done]. by apply (lk_regenerate _ L c a).
  - intros Hu. by apply (lk_unknown _ L c Hc).
Qed.

(** Every committed operation of the store moves exactly one wallet along the
    life of a connection and leaves the connection, the active attempt and the
    credentials of every other wallet as they are; only the activation of the
    credential of a COMPLETING attempt connects a wallet that has an attempt. *)
Theorem operations_follow_lifecycle clock o db db' :
  w_reachable db → disciplined db o → commits clock o db db' →
  ∃ w, (rtc vstep (view db w) (view db' w)
        ∨ (∃ serial req, o = WActivate serial req) ∧ vactivate (view db w) (view db' w))
    ∧ ∀ u, u ≠ w → view db' u = view db u.
Proof.
  intros Hr Hd Hc. destruct (op_lives _ _ _ _ (WInv_reachable _ Hr) Hd Hc) as [w Hl]. exists w. split; [by apply lives_path|apply Hl].
Qed.

(** ** The lock *)
Lemma locked_refuses clock fresh req db db' a :
  WInv db → locked (view db (pa_wallet_id req)) → pa_kind req ≠ ConnectionAttemptKindRegenerate →
  PrepareConnectionAttempt clock fresh req db ≠ Ok (db', Ok a).
Proof.
  intros [Ht L] (c & Hc & Hu) Hk H. unfold PrepareConnectionAttempt, beginWalletTransaction in H. cbv zeta in H. tx_inv.
  match goal with Hm : CreateWalletConnectionIfMissing _ _ _ _ = Ok (?d, _) |- _ =>
    apply view_create_missing in Hm as (c1 & (Ht1 & _ & Hv1 & _) & [Hc1|[Hc1 _]] & _); [|congruence|done] end.
  assert (c1 = c) as -> by congruence.
  match goal with Hg : GetWalletConnectionForUpdate _ ?d = Some ?e |- _ =>
    change (v_conn (view d (pa_wallet_id req)) = Some e) in Hg; rewrite Hv1 in Hg; injection Hg as <- end.
  assert (∀ id now st at_ d, admitConnectionAttempt id req now st (cn_warning_code c) at_ d = Err ErrCredentialOutcomeUnknown) as Hadmit.
  { intros id now st at_ d. unfold admitConnectionAttempt, ensure, tx_lift, mbind, tx_bind, require.
    rewrite (bool_decide_eq_true_2 (cn_warning_code c = _)), (bool_decide_eq_false_2 (pa_kind req = _)) by done. done. }
  destruct (GetActiveConnectionAttemptForWallet _ _) as [active|]; tx_inv; [|congruence].
  destruct (ca_state active); tx_inv; try done; congruence.
Qed.
(** C18: Once the outcome of a credential creation is unknown its wallet is locked,
    in every interleaving, until a regenerated credential is activated; while it
    is locked no other connection attempt is admitted. *)
Theorem unknown_outcome_latched σ σ' w :
  run_reaches σ → rtc sys_step σ σ' →
  (locked (view (sy_db σ) w) ∨ (∃ x, x ∈ w_attempts (sy_db σ') ∧ (x ∉ w_attempts (sy_db σ)) ∧ ca_wallet_id x = w
       ∧ ca_state x = ConnectionAttemptStateOutcomeUnknown) →
   locked (view (sy_db σ') w) ∨ regenerated_between (sy_db σ) (sy_db σ') w)
  ∧ ∀ clock fresh req db' a, locked (view (sy_db σ) w) → pa_wallet_id req = w → pa_kind req ≠ ConnectionAttemptKindRegenerate →
      PrepareConnectionAttempt clock fresh req (sy_db σ) ≠ Ok (db', Ok a).
Proof.
  intros [ms I]%SInv_reachable Hs. pose proof (sys_steps_wsteps _ _ _ I Hs) as Hw. pose proof (si_db _ _ I) as W. split.
  - intros [Hl|(x & Hx & Hn & <- & Hst)]; [by eapply locked_run|by eapply unknown_run].
  - intros clock fresh req db' a Hl <- Hk. by apply locked_refuses.
Qed.

(** ** Recovery *)
(** C36: With a store that answers, the recovery loop of a starting service ends
    after one pass per hundred open attempts, leaves no attempt open, restores the
    state of the wallets whose challenge was never used, and locks the wallets
    whose credential may have been created. *)
Theorem recovery_completes (handle : ∀ o, WDB → WDB * resp o) clock fuel σ :
  run_reaches σ → (∀ d, (handle OpNow d).1 = d) →
  (∀ at_ limit d, handle (OpRecover at_ limit) d = RecoverConnectionAttempts clock at_ limit d) →
  (size (active_wallets (sy_db σ)) < 100 * fuel)%nat →
  ∃ db', drive handle (recovery_loop fuel) (sy_db σ) = (db', Some (Ok tt))
    ∧ (∀ w a, ¬ act db' w a) ∧ ∀ w a, act (sy_db σ) w a → resolved db' a.
Proof.
  intros [ms I]%SInv_reachable Hnow Hrec Hsize. pose proof (si_db _ _ I) as W. pose proof W as [Ht _].
  destruct (loop_succeeds handle clock fuel (sy_db σ) Hnow Hrec W Hsize) as (ws & db' & Hd & [I' Ho Hu Hdone Hres] & Hws).
  pose proof I' as [Ht' _]. exists db'. split; [done|]. split.
  - intros w a Ha. apply view_act in Ha; [|done]. destruct (decide (w ∈ ws)) as [Hw|Hw]; [rewrite (Hdone w Hw) in Ha; done|].
    apply Hw, Hws, elem_of_active_wallets. exists a. rewrite (Hu w Hw) in Ha. by apply view_act.
  - intros w a Ha. apply (Hres w a); [|done]. apply Hws, elem_of_active_wallets. by exists a.
Qed.
End Theorems.

(** ** Witnesses *)
Import Prelude.Concrete ConnectScenario.
Lemma api_key_requested_once_witness :
  run_reaches (at_ 4 s4) ∧ sent_for 51 (sy_log (at_ 4 s4)) = 1%nat ∧ sent_for 52 (sy_log (at_ 4 s4)) = 1%nat
  ∧ (sent_for 51 (sy_log (at_ 4 s4)) ≤ 1)%nat.
Proof.
  split; [exact sc_reaches4|]. split; [vm_compute; reflexivity|]. split; [vm_compute; reflexivity|].
  exact (proj1 (api_key_requested_once (at_ 4 s4) sc_reaches4) 51%N).
Defined.
Lemma attempt_outcome_truthful_witness :
  ∃ a, a ∈ w_attempts (sy_db (at_ 4 s4)) ∧ ca_state a = ConnectionAttemptStateCompleted
    ∧ ∃ credential, created (ca_id a) credential (sy_log (at_ 4 s4)).
Proof.
  assert (∃ a, w_attempts (sy_db (at_ 4 s4)) !! 1%nat = Some a ∧ ca_state a = ConnectionAttemptStateCompleted) as (a & Ha & Hst)
    by (eexists; split; vm_compute; reflexivity).
  exists a. pose proof (list_elem_of_lookup_2 _ _ _ Ha) as Hin. split; [exact Hin|]. split; [exact Hst|].
  exact (proj2 (proj2 (attempt_outcome_truthful (at_ 4 s4) a sc_reaches4 Hin)) Hst).
Defined.
Lemma connection_invariant_witness : run_reaches (at_ 2 s2) ∧ NoDup (cn_wallet_id <$> w_connections (sy_db (at_ 2 s2))).
Proof. split; [exact sc_reaches2|]. exact (proj1 (connection_invariant (at_ 2 s2) sc_reaches2)). Defined.
Lemma operations_follow_lifecycle_witness :
  ∃ db' w, commits now0 (WBegin begin51) s1.1 db'
    ∧ (rtc vstep (view s1.1 w) (view db' w)
       ∨ (∃ serial req, WBegin begin51 = WActivate serial req) ∧ vactivate (view s1.1 w) (view db' w)).
Proof.
  assert (∃ db', commits now0 (WBegin begin51) s1.1 db') as [db' Hc].
  { eexists. eexists. vm_compute. reflexivity. }
  destruct (operations_follow_lifecycle now0 (WBegin begin51) s1.1 db' sc_database1 I Hc) as (w & Hl & _).
  exists db', w. split; [exact Hc|exact Hl].
Defined.
Lemma unknown_outcome_latched_witness :
  locked (view (sy_db (at_ 2 s2)) 3) ∧ rtc sys_step (at_ 2 s2) (at_ 4 s4)
  ∧ (locked (view (sy_db (at_ 4 s4)) 3) ∨ regenerated_between (sy_db (at_ 2 s2)) (sy_db (at_ 4 s4)) 3).
Proof.
  assert (locked (view (sy_db (at_ 2 s2)) 3)) as Hl by (eexists; split; vm_compute; reflexivity).
  split; [exact Hl|]. split; [exact sc_regenerates|].
  exact (proj1 (unknown_outcome_latched (at_ 2 s2) (at_ 4 s4) 3 sc_reaches2 sc_regenerates) (or_introl Hl)).
Defined.
Lemma recovery_completes_witness :
  ∃ db', drive recovery_handle (recovery_loop 1) (sy_db (at_ 1 s1)) = (db', Some (Ok tt)) ∧ ∀ w a, ¬ act db' w a.
Proof.
  destruct (recovery_completes recovery_handle now0 1 (at_ 1 s1) sc_reaches1) as (db' & Hd & Hno & _).
  - intros d. reflexivity.
  - intros. reflexivity.
  - vm_compute. lia.
  - exists db'. split; [exact Hd|exact Hno].
Defined.
