(* ===== verification/Selection.v ===== *)
(** * Wallet selections: the store

    The operations of [internal/wormtrading/store/wallet_selections.go] with the queries
    of [sqlc/wallet_selections.sql.go].  An owner selects at most twenty wallets; a
    wallet that leaves the selection while it still has a connection or a credential
    becomes a retirement, which ends when both are gone. *)

From S2P Require Import Prelude Sql CashOutTypes ConnectionTypes ConnectionStore.
From stdpp Require Import base tactics option list list_numbers sorting strings gmap.
From Stdlib Require Import ZArith Lia Ascii.
#[local] Open Scope Z_scope.

Record WalletSelectionInput := { win_wallet_id : Z; win_address : string }.
Record WalletRetirementInput := { wri_wallet_id : Z; wri_address : string; wri_prior_ordinal : Z }.
Record ReplaceWalletSelectionRequest := {
  rq_owner_account_id : string; rq_expected_revision : Z; rq_selected_items : list WalletSelectionInput;
  rq_retiring_wallets : list WalletRetirementInput; rq_now : Z }.
Record WalletRetirementBlocker := { wb_wallet_id : Z; wb_reason_code : string }.
#[export] Instance WalletRetirementBlocker_eq_dec : EqDecision WalletRetirementBlocker.
Proof. solve_decision. Defined.

(** ** Constraints *)
Definition selection_check (r : selection_row) : bool :=
  (0 <? se_revision r) && (0 <=? se_selected_wallet_count r) && (se_selected_wallet_count r <=? 20)
  && (se_created_at r <=? se_updated_at r).
Definition selection_item_check (r : selection_item_row) : bool :=
  (1 <=? sit_ordinal r) && (sit_ordinal r <=? 20) && (0 <? sit_wallet_id r) && text_between 32 64 (sit_address r).
Definition selection_item_conflict (a b : selection_item_row) : bool :=
  (sit_owner_account_id a =? sit_owner_account_id b)%N
  && ((sit_ordinal a =? sit_ordinal b) || (sit_wallet_id a =? sit_wallet_id b) || bool_decide (sit_address a = sit_address b)).
Definition retirement_check (r : retirement_row) : bool :=
  (0 <? rt_wallet_id r) && text_between 32 64 (rt_address r) && (0 <? rt_prior_ordinal r)
  && (0 <? rt_retired_from_revision r) && (rt_retired_at r <=? rt_updated_at r).
Definition retirement_conflict (a b : retirement_row) : bool :=
  (rt_owner_account_id a =? rt_owner_account_id b)%N
  && ((rt_wallet_id a =? rt_wallet_id b) || bool_decide (rt_address a = rt_address b)).

(** ** Queries *)
Definition put_selections (t : list selection_row) : cw_tx unit :=
  db ← tx_get; let s := w_selections db in
  tx_put (Build_WDB (w_connections db) (w_credentials db) (w_attempts db)
    {| sl_selections := t; sl_items := sl_items s; sl_retirements := sl_retirements s; sl_holds := sl_holds s |}).
Definition put_items (t : list selection_item_row) : cw_tx unit :=
  db ← tx_get; let s := w_selections db in
  tx_put (Build_WDB (w_connections db) (w_credentials db) (w_attempts db)
    {| sl_selections := sl_selections s; sl_items := t; sl_retirements := sl_retirements s; sl_holds := sl_holds s |}).
Definition put_retirements (t : list retirement_row) : cw_tx unit :=
  db ← tx_get; let s := w_selections db in
  tx_put (Build_WDB (w_connections db) (w_credentials db) (w_attempts db)
    {| sl_selections := sl_selections s; sl_items := sl_items s; sl_retirements := t; sl_holds := sl_holds s |}).

Definition sql_GetWalletSelection (owner : N) (db : WDB) : option selection_row :=
  sql_one (λ r, (se_owner_account_id r =? owner)%N) (sl_selections (w_selections db)).
Definition ListWalletSelectionItems (owner : N) (db : WDB) : list selection_item_row :=
  sort_by (λ a b, sit_ordinal a <=? sit_ordinal b)
    (sql_many (λ r, (sit_owner_account_id r =? owner)%N) (sl_items (w_selections db))).
Definition ListWalletRetirements (owner : N) (db : WDB) : list retirement_row :=
  sort_by (λ a b, lexicographic [(rt_retired_at a, rt_retired_at b); (rt_wallet_id a, rt_wallet_id b)])
    (sql_many (λ r, (rt_owner_account_id r =? owner)%N) (sl_retirements (w_selections db))).
Definition owns_selection (owner : N) (db : WDB) : bool :=
  existsb (λ r, (se_owner_account_id r =? owner)%N) (sl_selections (w_selections db)).
Definition CreateWalletSelection (owner : N) (count now : Z) : cw_tx selection_row :=
  db ← tx_get;
  let row := {| se_owner_account_id := owner; se_revision := 1; se_selected_wallet_count := count;
                se_created_at := now; se_updated_at := now |} in
  _ ← ensure (negb (owns_selection owner db)) (CWConstraint "worm_trading_wallet_selections_pkey");
  _ ← ensure (selection_check row) (CWConstraint "worm_trading_wallet_selections_check");
  _ ← put_selections (sl_selections (w_selections db) ++ [row]);
  mret row.
Definition next_selection (count now : Z) (r : selection_row) : selection_row := {|
  se_owner_account_id := se_owner_account_id r; se_revision := se_revision r + 1; se_selected_wallet_count := count;
  se_created_at := se_created_at r; se_updated_at := now |}.
Definition UpdateWalletSelection (count now : Z) (owner : N) (expected : Z) : cw_tx selection_row :=
  db ← tx_get;
  let p r := (se_owner_account_id r =? owner)%N && (se_revision r =? expected) in
  match sql_one p (sl_selections (w_selections db)) with
  | None => tx_fail CWNoRows
  | Some old =>
      let row := next_selection count now old in
      _ ← ensure (bigint_in_range (se_revision row)) (CWConstraint "bigint out of range");
      _ ← ensure (selection_check row) (CWConstraint "worm_trading_wallet_selections_check");
      _ ← put_selections (sql_update p (next_selection count now) (sl_selections (w_selections db)));
      mret row
  end.
Definition DeleteWalletSelectionItems (owner : N) : cw_tx unit :=
  db ← tx_get; put_items (sql_delete (λ r, (sit_owner_account_id r =? owner)%N) (sl_items (w_selections db))).
Definition CreateWalletSelectionItem (row : selection_item_row) : cw_tx unit :=
  db ← tx_get;
  _ ← ensure (owns_selection (sit_owner_account_id row) db) (CWConstraint "worm_trading_wallet_selection_items_owner_account_id_fkey");
  t ← tx_lift (sql_insert selection_item_check selection_item_conflict (CWConstraint "worm_trading_wallet_selection_items")
                 [row] (sl_items (w_selections db)));
  put_items t.

Definition open_attempt (s : ConnectionAttemptState) : bool :=
  attempt_active s || bool_decide (s = ConnectionAttemptStateOutcomeUnknown).
Definition has_open_attempt (wallet : Z) (address : string) (db : WDB) : bool :=
  existsb (λ a, (ca_wallet_id a =? wallet) && bool_decide (ca_address a = address) && open_attempt (ca_state a)) (w_attempts db).
Definition WalletNeedsRetirement (wallet : Z) (address : string) (db : WDB) : bool :=
  connection_in_use wallet address db || has_credential wallet db || has_open_attempt wallet address db.
Definition GetWalletRetirementByWalletID (owner : N) (wallet : Z) (db : WDB) : option retirement_row :=
  sql_one (λ r, (rt_owner_account_id r =? owner)%N && (rt_wallet_id r =? wallet)) (sl_retirements (w_selections db)).
(** The number of deleted rows; the row stays while anything is left to clean up. *)
Definition DeleteWalletRetirement (owner : N) (wallet : Z) (address : string) : cw_tx Z :=
  db ← tx_get;
  let p r := is_retirement owner wallet address r
             && negb (connection_in_use wallet address db) && negb (has_credential wallet db)
             && negb (has_open_attempt wallet address db) in
  _ ← put_retirements (sql_delete p (sl_retirements (w_selections db)));
  mret (Z.of_nat (length (sql_many p (sl_retirements (w_selections db))))).
Definition DeleteWalletRetirementForReselection (owner : N) (wallet : Z) : cw_tx unit :=
  db ← tx_get;
  put_retirements (sql_delete (λ r, (rt_owner_account_id r =? owner)%N && (rt_wallet_id r =? wallet)) (sl_retirements (w_selections db))).
(** [ON CONFLICT (owner_account_id, wallet_id) DO UPDATE SET updated_at] *)
Definition touch_retirement (now : Z) (r : retirement_row) : retirement_row := {|
  rt_owner_account_id := rt_owner_account_id r; rt_wallet_id := rt_wallet_id r; rt_address := rt_address r;
  rt_prior_ordinal := rt_prior_ordinal r; rt_retired_from_revision := rt_retired_from_revision r;
  rt_retired_at := rt_retired_at r; rt_updated_at := now |}.
Definition UpsertWalletRetirement (row : retirement_row) : cw_tx unit :=
  db ← tx_get;
  let same r := (rt_owner_account_id r =? rt_owner_account_id row)%N && (rt_wallet_id r =? rt_wallet_id row) in
  let failed := CWConstraint "worm_trading_wallet_retirements" in
  match sql_one same (sl_retirements (w_selections db)) with
  | Some old =>
      _ ← ensure (retirement_check row && retirement_check (touch_retirement (rt_updated_at row) old)) failed;
      put_retirements (sql_update same (touch_retirement (rt_updated_at row)) (sl_retirements (w_selections db)))
  | None =>
      _ ← ensure (owns_selection (rt_owner_account_id row) db) failed;
      t ← tx_lift (sql_insert retirement_check retirement_conflict failed [row] (sl_retirements (w_selections db)));
      put_retirements t
  end.
Definition WalletRetirementReselectionBlocked (owner : N) (wallet : Z) (db : WDB) : bool :=
  existsb (λ r, (rt_owner_account_id r =? owner)%N && (rt_wallet_id r =? wallet)
    && (existsb (λ c, (cn_wallet_id c =? rt_wallet_id r) && bool_decide (cn_address c = rt_address r)
                      && (bool_decide (cn_state c = ConnectionStateDisconnecting)
                          || bool_decide (cn_state c = ConnectionStateRevocationRequired))) (w_connections db)
        || existsb (λ k, (kr_wallet_id k =? rt_wallet_id r)
                         && (bool_decide (kr_state k = CredentialStateRevoking)
                             || bool_decide (kr_state k = CredentialStateRevocationRequired))) (w_credentials db)))
    (sl_retirements (w_selections db)).
(** What one candidate is blocked by. *)
Definition blockers_of (owner : N) (wallet : Z) (db : WDB) : list string :=
  (snd <$> sql_many (λ h, (h.1.1 =? owner)%N && (h.1.2 =? wallet)) (sl_holds (w_selections db)))
  ++ ((λ _, "CONNECTION_ATTEMPT_ACTIVE") <$>
        sql_many (λ a, (ca_wallet_id a =? wallet) && attempt_active (ca_state a)) (w_attempts db))
  ++ ((λ _, "CONNECT_OUTCOME_UNKNOWN") <$>
        sql_many (λ a, (ca_wallet_id a =? wallet) && bool_decide (ca_state a = ConnectionAttemptStateOutcomeUnknown)) (w_attempts db))
  ++ ((λ _, "CONNECT_OUTCOME_UNKNOWN") <$>
        sql_many (λ c, (cn_wallet_id c =? wallet) && bool_decide (cn_warning_code c = "CONNECT_OUTCOME_UNKNOWN")) (w_connections db)).
Definition blocker_le (a b : WalletRetirementBlocker) : bool :=
  (wb_wallet_id a <? wb_wallet_id b)
  || (wb_wallet_id a =? wb_wallet_id b) && String.leb (wb_reason_code a) (wb_reason_code b).
Definition ListWalletRetirementBlockers_query (owner : N) (walletIDs : list Z) (db : WDB) : list WalletRetirementBlocker :=
  sort_by blocker_le (remove_dups (remove_dups walletIDs ≫= λ wallet, Build_WalletRetirementBlocker wallet <$> blockers_of owner wallet db)).

Section Selection.
Context {UL : UuidLib} {SL : SolanaLib}.

(** ** Inputs *)
Definition normalizeWalletSelectionIDs (values : list Z) : result CWError (list Z) :=
  let normalized := sort_by Z.leb values in
  _ ← require (forallb (λ v, 0 <? v) normalized && bool_decide (NoDup normalized)) ErrInvalidWalletSelection;
  Ok normalized.
(** [invalidWalletSelection(err)] *)
Definition canonical_reference (walletID : Z) (address : string) : result CWError unit :=
  match validateCanonicalWalletSelectionReference walletID address with Ok _ => Ok tt | Err _ => Err ErrInvalidWalletSelection end.
Fixpoint normalize_selected (items : list WalletSelectionInput) (ids : gset Z) (addresses : gset string) :
    result CWError (gset Z * gset string) :=
  match items with
  | [] => Ok (ids, addresses)
  | item :: items' =>
      _ ← canonical_reference (win_wallet_id item) (win_address item);
      _ ← require (negb (bool_decide (win_wallet_id item ∈ ids))) ErrInvalidWalletSelection;
      _ ← require (negb (bool_decide (win_address item ∈ addresses))) ErrInvalidWalletSelection;
      normalize_selected items' ({[win_wallet_id item]} ∪ ids) ({[win_address item]} ∪ addresses)
  end.
Fixpoint normalize_retiring (items : list WalletRetirementInput) (selectedIDs : gset Z) (selectedAddresses : gset string)
    (ids : gset Z) (addresses : gset string) : result CWError unit :=
  match items with
  | [] => Ok tt
  | item :: items' =>
      let w := wri_wallet_id item in
      let a := wri_address item in
      _ ← canonical_reference w a;
      _ ← require (0 <? wri_prior_ordinal item) ErrInvalidWalletSelection;
      _ ← require (negb (bool_decide (w ∈ selectedIDs)) && negb (bool_decide (a ∈ selectedAddresses))) ErrInvalidWalletSelection;
      _ ← require (negb (bool_decide (w ∈ ids)) && negb (bool_decide (a ∈ addresses))) ErrInvalidWalletSelection;
      normalize_retiring items' selectedIDs selectedAddresses ({[w]} ∪ ids) ({[a]} ∪ addresses)
  end.
Definition normalizeWalletSelectionInputs (selected : list WalletSelectionInput) (retiring : list WalletRetirementInput) :
    result CWError unit :=
  _ ← require (Z.of_nat (length selected) <=? MaximumWalletSelectionItems) ErrInvalidWalletSelection;
  seen ← normalize_selected selected ∅ ∅;
  normalize_retiring retiring seen.1 seen.2 ∅ ∅.

(** ** Reading *)
Fixpoint load_items (rows : list selection_item_row) (index : Z) : result CWError (list WalletSelectionItem) :=
  match rows with
  | [] => Ok []
  | item :: rows' =>
      _ ← require (sit_ordinal item =? index) ErrInvalidWalletSelection;
      _ ← canonical_reference (sit_wallet_id item) (sit_address item);
      rest ← load_items rows' (index + 1);
      Ok ({| wsi_ordinal := sit_ordinal item; wsi_wallet_id := sit_wallet_id item; wsi_address := sit_address item |} :: rest)
  end.
Definition load_retirement (items : list selection_item_row) (r : retirement_row) : result CWError WalletRetirement :=
  _ ← require (negb (existsb (λ i, sit_wallet_id i =? rt_wallet_id r) items)
               && negb (existsb (λ i, bool_decide (sit_address i = rt_address r)) items)
               && (0 <? rt_prior_ordinal r) && (0 <? rt_retired_from_revision r)) ErrInvalidWalletSelection;
  _ ← canonical_reference (rt_wallet_id r) (rt_address r);
  Ok {| wre_wallet_id := rt_wallet_id r; wre_address := rt_address r; wre_prior_ordinal := rt_prior_ordinal r;
        wre_retired_from_revision := rt_retired_from_revision r; wre_retired_at := rt_retired_at r |}.
Definition loadWalletSelection (row : selection_row) (db : WDB) : result CWError WalletSelection :=
  let itemRows := ListWalletSelectionItems (se_owner_account_id row) db in
  _ ← require ((Z.of_nat (length itemRows) =? se_selected_wallet_count row)
               && (Z.of_nat (length itemRows) <=? MaximumWalletSelectionItems)) ErrInvalidWalletSelection;
  items ← load_items itemRows 1;
  retirements ← mapM (load_retirement itemRows) (ListWalletRetirements (se_owner_account_id row) db);
  Ok {| wsel_owner_account_id := uuid_string (se_owner_account_id row); wsel_configured := true; wsel_revision := se_revision row;
        wsel_selected_items := items; wsel_retirements := retirements; wsel_updated_at := se_updated_at row |}.
Definition GetWalletSelection (ownerAccountID : string) (db : WDB) : result CWError WalletSelection :=
  ownerUUID ← walletSelectionOwner ownerAccountID;
  match sql_GetWalletSelection ownerUUID db with
  | None => Ok {| wsel_owner_account_id := uuid_string ownerUUID; wsel_configured := false; wsel_revision := 0;
                  wsel_selected_items := []; wsel_retirements := []; wsel_updated_at := 0 |}
  | Some row => loadWalletSelection row db
  end.

(** ** Replacing *)
Definition walletSelectionOperationIDs (prior : WalletSelection) (selected : list WalletSelectionInput)
    (retiring : list WalletRetirementInput) : list Z :=
  sort_by Z.leb (elements (list_to_set ((wsi_wallet_id <$> wsel_selected_items prior) ++ (wre_wallet_id <$> wsel_retirements prior)
    ++ (win_wallet_id <$> selected) ++ (wri_wallet_id <$> retiring)) : gset Z)).
Definition listWalletRetirementBlockers (owner : N) (walletIDs : list Z) (db : WDB) : result CWError (list WalletRetirementBlocker) :=
  let rows := ListWalletRetirementBlockers_query owner walletIDs db in
  _ ← require (forallb (λ b, (0 <? wb_wallet_id b) && negb (bool_decide (trim_space (wb_reason_code b) = EmptyString))) rows)
        ErrInvalidWalletSelection;
  Ok rows.
Definition ListWalletRetirementBlockers (ownerAccountID : string) (walletIDs : list Z) (db : WDB) :
    result CWError (list WalletRetirementBlocker) :=
  ownerUUID ← walletSelectionOwner ownerAccountID;
  walletIDs ← normalizeWalletSelectionIDs walletIDs;
  match walletIDs with [] => Ok [] | _ => listWalletRetirementBlockers ownerUUID walletIDs db end.
Definition persistWalletRetirementIfNeeded (owner : N) (walletID : Z) (address : string) (priorOrdinal retiredFromRevision now : Z) :
    cw_tx unit :=
  db ← tx_get;
  if negb (WalletNeedsRetirement walletID address db) then _ ← DeleteWalletRetirement owner walletID address; mret tt
  else UpsertWalletRetirement {| rt_owner_account_id := owner; rt_wallet_id := walletID; rt_address := address;
         rt_prior_ordinal := priorOrdinal; rt_retired_from_revision := retiredFromRevision;
         rt_retired_at := pg_time now; rt_updated_at := pg_time now |}.
(** The items of the prior selection that are not selected any more. *)
Fixpoint removed_items (selected : list WalletSelectionInput) (oldItems : list selection_item_row) :
    result CWError (list selection_item_row) :=
  match oldItems with
  | [] => Ok []
  | item :: rest =>
      match list_find (λ i, win_wallet_id i = sit_wallet_id item) selected with
      | Some (_, selectedItem) =>
          _ ← require (bool_decide (win_address selectedItem = sit_address item)) ErrInvalidWalletSelection;
          removed_items selected rest
      | None => removed ← removed_items selected rest; Ok (item :: removed)
      end
  end.
Fixpoint retire_removed (owner : N) (revision now : Z) (removed : list selection_item_row) : cw_tx unit :=
  match removed with
  | [] => mret tt
  | item :: rest =>
      _ ← persistWalletRetirementIfNeeded owner (sit_wallet_id item) (sit_address item) (sit_ordinal item) revision now;
      retire_removed owner revision now rest
  end.
(** No retirement of the wallet has another address. *)
Definition same_address (owner : N) (walletID : Z) (address : string) : cw_tx unit :=
  db ← tx_get;
  match GetWalletRetirementByWalletID owner walletID db with
  | Some existing => ensure (bool_decide (rt_address existing = address)) ErrInvalidWalletSelection
  | None => mret tt
  end.
Fixpoint retire_requested (owner : N) (revision now : Z) (retiring : list WalletRetirementInput) : cw_tx unit :=
  match retiring with
  | [] => mret tt
  | item :: rest =>
      _ ← same_address owner (wri_wallet_id item) (wri_address item);
      _ ← persistWalletRetirementIfNeeded owner (wri_wallet_id item) (wri_address item) (wri_prior_ordinal item) revision now;
      retire_requested owner revision now rest
  end.
Fixpoint reselect (owner : N) (selected : list WalletSelectionInput) : cw_tx unit :=
  match selected with
  | [] => mret tt
  | item :: rest =>
      _ ← same_address owner (win_wallet_id item) (win_address item);
      db ← tx_get;
      _ ← ensure (negb (WalletRetirementReselectionBlocked owner (win_wallet_id item) db)) ErrWalletRetirementIncomplete;
      _ ← DeleteWalletRetirementForReselection owner (win_wallet_id item);
      reselect owner rest
  end.
Fixpoint create_items (owner : N) (ordinal now : Z) (selected : list WalletSelectionInput) : cw_tx unit :=
  match selected with
  | [] => mret tt
  | item :: rest =>
      _ ← CreateWalletSelectionItem {| sit_owner_account_id := owner; sit_ordinal := ordinal; sit_wallet_id := win_wallet_id item;
            sit_address := win_address item; sit_selected_at := pg_time now |};
      create_items owner (ordinal + 1) now rest
  end.
Definition walletSelectionConstraint (err : CWError) (name : string) : bool :=
  match err with CWConstraint n => bool_decide (n = name) | _ => false end.
(** The new header. *)
Definition write_selection (owner : N) (current : option selection_row) (count expected now : Z) : cw_tx selection_row :=
  match current with
  | Some _ => cw_on_no_rows (UpdateWalletSelection count (pg_time now) owner expected) ErrWalletSelectionRevision
  | None => λ db, match CreateWalletSelection owner count (pg_time now) db with
                  | Err e => Err (if walletSelectionConstraint e "worm_trading_wallet_selections_pkey" then ErrWalletSelectionRevision else e)
                  | r => r
                  end
  end.
(** [prior] is read before the transaction and decides only which wallets it locks. *)
Definition ReplaceWalletSelection (clock : Z) (req : ReplaceWalletSelectionRequest) : cw_tx WalletSelection :=
  let expected := rq_expected_revision req in
  let selected := rq_selected_items req in
  let retiring := rq_retiring_wallets req in
  ownerUUID ← tx_lift (walletSelectionOwner (rq_owner_account_id req));
  _ ← ensure ((0 <=? expected) && negb (expected =? max_int64)) ErrInvalidWalletSelection;
  _ ← tx_lift (normalizeWalletSelectionInputs selected retiring);
  db ← tx_get;
  prior ← tx_lift (GetWalletSelection (uuid_string ownerUUID) db);
  let current := GetWalletSelectionForUpdate ownerUUID db in
  _ ← ensure (match current with Some row => se_revision row =? expected | None => expected =? 0 end) ErrWalletSelectionRevision;
  let oldItems := match current with Some _ => ListWalletSelectionItems ownerUUID db | None => [] end in
  _ ← ensure (match current with Some row => Z.of_nat (length oldItems) =? se_selected_wallet_count row | None => true end)
        ErrInvalidWalletSelection;
  removed ← tx_lift (removed_items selected oldItems);
  let blockedIDs := sort_by Z.leb (elements (list_to_set ((sit_wallet_id <$> removed) ++ (wri_wallet_id <$> retiring)) : gset Z)) in
  blockers ← tx_lift (match blockedIDs with [] => Ok [] | _ => listWalletRetirementBlockers ownerUUID blockedIDs db end);
  _ ← tx_lift (match blockers with
               | [] => Ok tt
               | b :: _ => Err (WalletSelectionRetirementBlockedError (wb_wallet_id b) (wb_reason_code b))
               end);
  let now := canonicalNow clock (rq_now req) in
  header ← write_selection ownerUUID current (Z.of_nat (length selected)) expected now;
  _ ← retire_removed ownerUUID (se_revision header) now removed;
  _ ← retire_requested ownerUUID (se_revision header) now retiring;
  _ ← reselect ownerUUID selected;
  _ ← DeleteWalletSelectionItems ownerUUID;
  _ ← create_items ownerUUID 1 now selected;
  db ← tx_get;
  tx_lift (loadWalletSelection header db).

(** ** Retiring *)
Definition CompleteWalletRetirement (ownerAccountID : string) (walletID : Z) (address : string) : cw_tx unit :=
  ownerUUID ← tx_lift (walletSelectionOwner ownerAccountID);
  _ ← tx_lift (validateCanonicalWalletSelectionReference walletID address);
  _ ← beginWalletTransaction walletID;
  db ← tx_get;
  _ ← ensure (GetWalletRetirement ownerUUID walletID address db) ErrWalletNotRetiring;
  deleted ← DeleteWalletRetirement ownerUUID walletID address;
  ensure (deleted =? 1) ErrWalletRetirementIncomplete.
End Selection.
