(* ===== verification/SelectionInv.v ===== *)
(** * Wallet selections: selections and connections together

    One database holds the selections and the connections of their wallets.  The
    invariant [OInv] relates them: whatever is managed for a wallet is selected or
    retiring for its owner, an attempt runs only for a selected wallet, and no owner
    has more than twenty managed wallets.  First, [frames p m]: a successful run of [m]
    does not change the part [p] of the state; it holds statement by statement. *)

From S2P Require Import Prelude Sql CashOutTypes ConnectionTypes ConnectionStore ConnectionInv ConnectionLink ConnectionOps Selection.
From stdpp Require Import base tactics option list list_numbers sorting strings gmap relations.
From Stdlib Require Import ZArith Lia Ascii.
Definition frames {S E T A} (p : S → T) (m : tx S E A) : Prop := ∀ s s' a, m s = Ok (s', a) → p s' = p s.

Section Frames.
Context {S E T : Type} (p : S → T).
Lemma frames_bind {A B} (m : tx S E A) (k : A → tx S E B) : frames p m → (∀ a, frames p (k a)) → frames p (m ≫= k).
Proof. intros Hm Hk s s' b H. apply tx_bind_ok in H as (t & a & H1 & H2). rewrite (Hk a _ _ _ H2). by apply (Hm _ _ a). Qed.
Lemma frames_ret {A} (a : A) : frames p (mret a : tx S E A).
Proof. intros s s' b H. by injection H as <- _. Qed.
Lemma frames_get : frames p (tx_get : tx S E S).
Proof. intros s s' b H. by injection H as <- _. Qed.
Lemma frames_fail {A} e : frames p (tx_fail e : tx S E A).
Proof. by intros s s' b H. Qed.
Lemma frames_lift {A} (r : result E A) : frames p (tx_lift r : tx S E A).
Proof. by intros s s' a [-> _]%tx_lift_ok. Qed.
Lemma frames_ensure b e : frames p (ensure b e : tx S E unit).
Proof. apply frames_lift. Qed.
(** Reading the state first. *)
Lemma frames_reads {A} (k : S → tx S E A) :
  (∀ s s' a, k s s = Ok (s', a) → p s' = p s) → frames p (tx_get ≫= k).
Proof. intros Hk s s' a H. apply tx_bind_ok in H as (t & b & [-> ->]%tx_get_ok & H). eauto. Qed.
End Frames.
Create HintDb frames.
#[export] Hint Resolve frames_ret frames_get frames_fail frames_lift frames_ensure : frames.
Ltac framing :=
  repeat lazymatch goal with
  | |- frames _ (_ ≫= _) => apply frames_bind; [|intros ?]
  | |- frames _ (if ?b then _ else _) => destruct b
  | |- frames _ (match ?x with _ => _ end) => destruct x
  | |- frames _ _ => solve [eauto 2 with frames]
  end.

#[local] Open Scope Z_scope.

(** ** Views *)
Definition in_use (c : connection_row) : bool :=
  negb (bool_decide (cn_state c = ConnectionStateNotConnected)) || negb (bool_decide (cn_warning_code c = EmptyString)).
Definition v_managed (v : wview) : bool := match v_conn v with Some c => in_use c | None => false end || v_cred v.
Lemma in_use_state c : cn_state c ≠ ConnectionStateNotConnected → in_use c = true.
Proof. intros H. unfold in_use. by rewrite bool_decide_eq_false_2. Qed.
Lemma connection_in_use_view db w a :
  tables db → connection_in_use w a db = true ↔ ∃ c, v_conn (view db w) = Some c ∧ cn_address c = a ∧ in_use c = true.
Proof.
  intros Ht. unfold connection_in_use. rewrite existsb_elem. split.
  - intros (c & Hc & Hp). apply andb_true_iff in Hp as [[Hw%Z.eqb_eq Ha%bool_decide_eq_true]%andb_true_iff Hu].
    exists c. split; [by apply view_conn|done].
  - intros (c & [Hin Hw]%view_conn & Ha & Hu); [|done]. exists c. split; [done|]. unfold in_use in Hu.
    by rewrite (proj2 (Z.eqb_eq _ _) Hw), bool_decide_eq_true_2, Hu.
Qed.
Lemma has_credential_view db w : has_credential w db = v_cred (view db w).
Proof. done. Qed.
(** What is managed stays so on the way back. *)
Lemma managed_settle v v' : vsettle v v' → v_managed v' = true → v_managed v = true ∨ is_Some (v_act v).
Proof.
  unfold v_managed. destruct 1 as [oc a a' k Ha Hc|c a k warning now Hw|c a k now|c oa k warning now Hst|c oa now
    |c oa k warning now Hst Hw|c oa k st warning now Hst Hst' Hw]; cbn; eauto; intros Hm; left; rewrite ?orb_true_r; try done.
  - by rewrite in_use_state by (by rewrite Hst).
  - by rewrite in_use_state by (by destruct Hst as [-> | ->]).
  - by rewrite in_use_state by (by destruct Hst as [-> | ->]).
Qed.
Lemma managed_disconnect v v' : vdisconnect v v' → v_managed v' = true → v_managed v = true.
Proof. unfold v_managed. destruct 1 as [c oa [|] now Hu Hst]; cbn; [intros _; by rewrite orb_true_r|done]. Qed.

(** A view on its own: attempts and credentials belong to a connection, and an attempt
    makes its wallet managed. *)
Record sound (v : wview) : Prop := {
  sd_linked : linked v;
  sd_credential : v_cred v = true → is_Some (v_conn v);
  sd_attempt : is_Some (v_act v) → v_managed v = true }.
Lemma sound_settle v v' : vsettle v v' → sound v → sound v'.
Proof.
  intros Hs [L Hk Ha]. constructor; [by eapply linked_vstep, L; apply vs_admits, vs_settle| |].
  - destruct Hs; cbn in *; eauto.
  - unfold v_managed in *. destruct Hs as [oc a a' k Hst Hc|c a k warning now Hw|c a k now|c oa k warning now Hst|c oa now
      |c oa k warning now Hst Hw|c oa k st warning now Hst Hst' Hw]; cbn in *; try (by intros []).
    + intros _. apply Ha. by eexists.
    + intros Hact. case_bool_decide as Hd; [|done]. rewrite (linked_no_active _ _ _ L) in Hact by (rewrite Hd; auto). by destruct Hact.
    + intros _. by rewrite in_use_state by (by destruct Hst' as [-> | ->]).
Qed.
Lemma sound_admit v v' : vadmit v v' → sound v → sound v'.
Proof.
  intros Hs Hv. destruct Hs as [c k Hst Hw Hat|c a k now Hu Hk Hck Ha Hp Hpa|? ? Hs]; [| |by eapply sound_settle].
  - destruct Hv as [L Hc Hact]. constructor; [eapply linked_vadmit, L; by apply vs_create|by eexists|by intros []].
  - destruct Hv as [L Hc Hact]. constructor; [eapply linked_vadmit, L; by apply vs_prepare|by eexists|done].
Qed.
Lemma sound_admits v v' : rtc vadmit v v' → sound v → sound v'.
Proof. induction 1; eauto using sound_admit. Qed.
Lemma sound_disconnect v v' : vdisconnect v v' → v_act v = None → sound v → sound v' ∧ v_act v' = None.
Proof.
  intros Hs Hn [L Hc Hact]. pose proof (linked_vstep _ _ (vs_disconnects _ _ Hs) L) as L'.
  destruct Hs as [c oa k now Hu Hst]. cbn in Hn. subst oa. split; [|done]. constructor; [done|by eexists|by intros []].
Qed.
Lemma sound_activate v v' : vactivate v v' → sound v → sound v'.
Proof.
  intros Hs [L Hc Hact]. pose proof (linked_vactivate _ _ Hs L) as L'. destruct Hs. constructor; [done|by eexists|by intros []].
Qed.
(** The address of a connection does not change. *)
Definition keeps_address (v v' : wview) : Prop :=
  ∀ c, v_conn v = Some c → ∃ c', v_conn v' = Some c' ∧ cn_address c' = cn_address c.
Lemma address_settle v v' : vsettle v v' → keeps_address v v'.
Proof.
  destruct 1; intros d Hd; cbn in *; simplify_eq; try (by eexists).
  case_bool_decide; by eexists.
Qed.
Lemma address_disconnect v v' : vdisconnect v v' → keeps_address v v'.
Proof. destruct 1 as [c oa [|] now Hu Hst]; intros d Hd; cbn in *; simplify_eq; by eexists. Qed.
Lemma address_activate v v' : vactivate v v' → keeps_address v v'.
Proof. destruct 1; intros d Hd; cbn in *; simplify_eq; by eexists. Qed.
Lemma connected_settle v v' : vsettle v v' → is_Some (v_conn v') → is_Some (v_conn v).
Proof. destruct 1; cbn; eauto. Qed.
Lemma attempt_settle v v' : vsettle v v' → is_Some (v_act v') → is_Some (v_act v).
Proof. destruct 1; cbn; eauto; by intros []. Qed.

(** ** Rows *)
Definition selected (db : WDB) (o : N) (w : Z) (a : string) : Prop := GetWalletSelectionItem o w a db = true.
Definition retiring (db : WDB) (o : N) (w : Z) (a : string) : Prop := GetWalletRetirement o w a db = true.
Definition listed (db : WDB) (o : N) (w : Z) (a : string) : Prop := selected db o w a ∨ retiring db o w a.
Lemma selected_row db o w a :
  selected db o w a ↔ ∃ r, r ∈ sl_items (w_selections db) ∧ sit_owner_account_id r = o ∧ sit_wallet_id r = w ∧ sit_address r = a.
Proof.
  unfold selected, GetWalletSelectionItem. rewrite existsb_elem. unfold is_item.
  setoid_rewrite andb_true_iff. setoid_rewrite andb_true_iff. setoid_rewrite N.eqb_eq. setoid_rewrite Z.eqb_eq.
  setoid_rewrite bool_decide_eq_true. naive_solver.
Qed.
Lemma retiring_row db o w a :
  retiring db o w a ↔ ∃ r, r ∈ sl_retirements (w_selections db) ∧ rt_owner_account_id r = o ∧ rt_wallet_id r = w ∧ rt_address r = a.
Proof.
  unfold retiring, GetWalletRetirement. rewrite existsb_elem. unfold is_retirement.
  setoid_rewrite andb_true_iff. setoid_rewrite andb_true_iff. setoid_rewrite N.eqb_eq. setoid_rewrite Z.eqb_eq.
  setoid_rewrite bool_decide_eq_true. naive_solver.
Qed.
Lemma elem_of_managed db o w :
  w ∈ managed_wallets o db ↔
  (∃ a, selected db o w a ∧ (connection_in_use w a db = true ∨ has_credential w db = true)) ∨ ∃ a, retiring db o w a.
Proof.
  unfold managed_wallets. rewrite elem_of_list_to_set, elem_of_app, !list_elem_of_fmap.
  setoid_rewrite elem_of_sql_many. setoid_rewrite selected_row. setoid_rewrite retiring_row.
  setoid_rewrite andb_true_iff. setoid_rewrite orb_true_iff. setoid_rewrite N.eqb_eq. naive_solver.
Qed.
Lemma managed_listed db o w a c :
  tables db → v_conn (view db w) = Some c → cn_address c = a → v_managed (view db w) = true → listed db o w a →
  w ∈ managed_wallets o db.
Proof.
  intros Ht Hc Ha Hm [Hl|Hl]; apply elem_of_managed; [left|right; eauto]. exists a. split; [done|].
  unfold v_managed in Hm. rewrite Hc in Hm. apply orb_true_iff in Hm as [Hm|Hm]; [left|by right].
  apply connection_in_use_view; eauto.
Qed.

(** ** Connection operations leave the selections alone *)
Lemma frames_on_no_rows {T A} (p : WDB → T) (m : cw_tx A) e : frames p m → frames p (cw_on_no_rows m e).
Proof. intros Hm s s' a H. apply (Hm s s' a). unfold cw_on_no_rows in H. by destruct (m s) as [|[]]. Qed.
Ltac statement := intros db db' r H; cbv zeta in H; tx_inv; repeat (case_match; tx_inv); try done.
Section Connections.
Context {UL : UuidLib} {SL : SolanaLib}.
Lemma fr_create_missing w address now : frames w_selections (CreateWalletConnectionIfMissing w address now).
Proof. unfold CreateWalletConnectionIfMissing. statement. Qed.
Lemma fr_update_connection st warning at_ now w address : frames w_selections (UpdateWalletConnectionState st warning at_ now w address).
Proof. unfold UpdateWalletConnectionState. statement. Qed.
Lemma fr_create_attempt row : frames w_selections (CreateConnectionAttempt row).
Proof. unfold CreateConnectionAttempt. statement. Qed.
Lemma fr_update_attempt p f : frames w_selections (update_connection_attempt p f).
Proof. unfold update_connection_attempt. statement. Qed.
Lemma fr_pending now w : frames w_selections (MarkActiveCredentialPendingRevocation now w).
Proof. unfold MarkActiveCredentialPendingRevocation. statement. Qed.
Lemma fr_create_credential serial w key secret now : frames w_selections (CreateActiveCredential serial w key secret now).
Proof. unfold CreateActiveCredential. statement. Qed.
Lemma fr_update_credential st now id w : frames w_selections (UpdateCredentialState st now id w).
Proof. unfold UpdateCredentialState. statement. Qed.
Lemma fr_delete_credential id w : frames w_selections (DeleteCredential id w).
Proof. unfold DeleteCredential. statement. Qed.
End Connections.
#[export] Hint Resolve fr_create_missing fr_update_connection fr_create_attempt fr_update_attempt fr_pending
  fr_create_credential fr_update_credential fr_delete_credential frames_on_no_rows : frames.

Section Steps.
Context {UL : UuidLib} {SL : SolanaLib}.
Ltac op_frame := unfold lockOutcomeUnknown, failConnectionAttemptInTransaction, MarkConnectionAttemptTerminal,
  MarkConnectionAttemptCompleting, lockAttempt, beginWalletTransaction; cbv zeta; framing.
Lemma commits_selections clock o db db' : commits clock o db db' → w_selections db' = w_selections db.
Proof.
  destruct o; cbn [commits]; intros [r H]; revert db db' r H;
    match goal with |- ∀ d d' r, ?m d = Ok (d', r) → _ => change (frames w_selections m) end.
  - unfold PrepareConnectionAttempt, admitConnectionAttempt. op_frame.
  - unfold BeginConnectionAttemptCompletion. op_frame.
  - unfold FailConnectionAttempt, finishConnectionAttempt. op_frame.
  - unfold MarkConnectionAttemptOutcomeUnknown, finishConnectionAttempt. op_frame.
  - unfold MarkReconnectRequired. op_frame.
  - unfold ActivateCredential. op_frame.
  - unfold BeginDisconnect. op_frame.
  - unfold BeginCredentialRevocation. op_frame.
  - unfold MarkCredentialRevoked. op_frame.
  - unfold MarkCredentialRevocationFailed. op_frame.
  - unfold recoverConnectionAttemptForWallet. op_frame.
Qed.
(** What a prepare and a disconnect have checked. *)
Lemma updated_address st warning at_ now w address db db' row :
  tables db → UpdateWalletConnectionState st warning at_ now w address db = Ok (db', row) →
  ∃ c, v_conn (view db' w) = Some c ∧ cn_address c = address.
Proof.
  intros Ht H. apply view_update_connection in H as (c & _ & <- & -> & _ & _ & -> & _); [|done]. by eexists.
Qed.
Lemma admitted_address id req now st warning at_ db db' r :
  tables db → admitConnectionAttempt id req now st warning at_ db = Ok (db', r) →
  ∃ c, v_conn (view db' (pa_wallet_id req)) = Some c ∧ cn_address c = pa_address req.
Proof.
  intros Ht H. unfold admitConnectionAttempt in H. cbv zeta in H. tx_inv.
  match goal with Hc : CreateConnectionAttempt _ _ = Ok (?d, _) |- _ =>
    assert (tables d) by (by apply (keeps_create_attempt _ _ _ _ Hc)) end. by eapply updated_address.
Qed.
Lemma prepare_checked clock fresh req db db' r :
  tables db → PrepareConnectionAttempt clock fresh req db = Ok (db', r) →
  ∃ o c, selected db o (pa_wallet_id req) (pa_address req)
    ∧ (CountManagedWalletConnections o db < MaximumWalletSelectionItems
       ∨ WalletOccupiesManagedConnectionSlot o (pa_wallet_id req) (pa_address req) db = true)
    ∧ v_conn (view db' (pa_wallet_id req)) = Some c ∧ cn_address c = pa_address req.
Proof.
  intros Ht H. unfold PrepareConnectionAttempt, beginWalletTransaction in H. cbv zeta in H. tx_inv.
  match goal with Ho : walletSelectionOwner _ = Ok ?o, Hi : GetWalletSelectionItem ?o _ _ _ = true |- _ => exists o end.
  match goal with Hm : CreateWalletConnectionIfMissing _ _ _ _ = Ok (?d, _) |- _ =>
    rename d into db1; assert (tables db1) as Ht1 by (by apply (keeps_create_missing _ _ _ _ _ _ Hm)) end.
  enough (∃ c, v_conn (view db' (pa_wallet_id req)) = Some c ∧ cn_address c = pa_address req) as [c Hc].
  { exists c. split; [done|]. split; [|done]. match goal with Hg : negb (_ && negb _) = true |- _ => rename Hg into Hcap end.
    apply negb_true_iff, andb_false_iff in Hcap as [?|?]; bool_prop; auto. }
  destruct (GetActiveConnectionAttemptForWallet _ db1) as [a|] eqn:Hact; tx_inv; [|by eapply admitted_address].
  destruct (ca_state a); tx_inv; try done.
  - match goal with Hf : failConnectionAttemptInTransaction _ _ _ _ = Ok (?d, _) |- _ =>
      assert (tables d) by (by apply (keeps_failInTransaction _ _ _ _ _ _ Hf)) end. by eapply admitted_address.
  - match goal with Hl : lockOutcomeUnknown _ _ _ _ _ = _ |- _ => unfold lockOutcomeUnknown in Hl; tx_inv end.
    match goal with Hm : MarkConnectionAttemptTerminal _ _ _ _ _ = Ok (?d, _) |- _ =>
      assert (tables d) by (by destruct (keeps_terminal ConnectionAttemptStateOutcomeUnknown _ _ _ eq_refl _ _ _ Hm Ht1)) end.
    change (v_act (view db1 (pa_wallet_id req)) = Some a) in Hact. apply view_act in Hact as (Hin & Hw & _); [|done].
    destruct (tb_reference _ Ht1 a Hin) as (c & Hc & Hca). rewrite Hw in Hc. apply view_conn in Hc; [|done].
    match goal with Hg : GetWalletConnectionForUpdate _ _ = Some ?e |- _ =>
      change (v_conn (view db1 (pa_wallet_id req)) = Some e) in Hg; assert (e = c) as -> by congruence end.
    bool_prop. match goal with Hu : UpdateWalletConnectionState _ _ _ _ _ _ _ = _ |- _ => apply updated_address in Hu as (c' & Hc' & Hca'); [|done] end.
    exists c'. rewrite <- Hw. split; [done|congruence].
Qed.
Lemma disconnect_checked clock owner w address at_ db db' r :
  BeginDisconnect clock owner w address at_ db = Ok (db', r) → ∃ o, retiring db o w address.
Proof. intros H. unfold BeginDisconnect, beginWalletTransaction in H. cbv zeta in H. tx_inv. eauto. Qed.

(** ** The invariant *)
Context (owner_of : Z → N).
Record selection_tables (db : WDB) : Prop := {
  st_headers : NoDup (se_owner_account_id <$> sl_selections (w_selections db));
  st_item_header : ∀ r, r ∈ sl_items (w_selections db) → owns_selection (sit_owner_account_id r) db = true;
  st_retirement_header : ∀ r, r ∈ sl_retirements (w_selections db) → owns_selection (rt_owner_account_id r) db = true;
  st_item_key : ∀ r r', r ∈ sl_items (w_selections db) → r' ∈ sl_items (w_selections db) →
    sit_owner_account_id r = sit_owner_account_id r' → sit_wallet_id r = sit_wallet_id r' → r = r';
  st_retirement_key : NoDup ((λ r, (rt_owner_account_id r, rt_wallet_id r)) <$> sl_retirements (w_selections db));
  st_item_owner : ∀ r, r ∈ sl_items (w_selections db) → sit_owner_account_id r = owner_of (sit_wallet_id r);
  st_retirement_owner : ∀ r, r ∈ sl_retirements (w_selections db) → rt_owner_account_id r = owner_of (rt_wallet_id r);
  st_loads : ∀ h, h ∈ sl_selections (w_selections db) → ∃ v, loadWalletSelection h db = Ok v }.
Record OInv (db : WDB) : Prop := {
  oi_tables : tables db;
  oi_selections : selection_tables db;
  oi_sound : ∀ w, sound (view db w);
  oi_attempt : ∀ w c, v_conn (view db w) = Some c → is_Some (v_act (view db w)) → selected db (owner_of w) w (cn_address c);
  oi_managed : ∀ w c, v_conn (view db w) = Some c → v_managed (view db w) = true → listed db (owner_of w) w (cn_address c);
  oi_bound : ∀ o, CountManagedWalletConnections o db ≤ MaximumWalletSelectionItems }.

Lemma selection_tables_same db db' :
  w_selections db' = w_selections db → selection_tables db → selection_tables db'.
Proof.
  intros H [H1 H2 H3 H4 H5 H6 H7 H8]. constructor; unfold owns_selection; rewrite H; try done.
  unfold loadWalletSelection, ListWalletSelectionItems, ListWalletRetirements. rewrite H. exact H8.
Qed.
Lemma selected_same db db' o w a : w_selections db' = w_selections db → selected db' o w a ↔ selected db o w a.
Proof. intros H. unfold selected, GetWalletSelectionItem. by rewrite H. Qed.
Lemma retiring_same db db' o w a : w_selections db' = w_selections db → retiring db' o w a ↔ retiring db o w a.
Proof. intros H. unfold retiring, GetWalletRetirement. by rewrite H. Qed.
Lemma selected_owner db o w a : selection_tables db → selected db o w a → o = owner_of w.
Proof. intros S (r & Hr & <- & <- & <-)%selected_row. by apply S. Qed.
Lemma retiring_owner db o w a : selection_tables db → retiring db o w a → o = owner_of w.
Proof. intros S (r & Hr & <- & <- & <-)%retiring_row. by apply S. Qed.
Lemma load_retirement_fresh items r v :
  load_retirement items r = Ok v → ∀ i, i ∈ items → sit_wallet_id i ≠ rt_wallet_id r ∧ sit_address i ≠ rt_address r.
Proof.
  intros H i Hi. unfold load_retirement in H. tx_inv. bool_prop.
  repeat match goal with He : existsb _ items = false |- _ => rewrite existsb_elem_false in He; specialize (He i Hi) end. bool_prop. done.
Qed.
Lemma load_retirements_fresh h v db r i :
  loadWalletSelection h db = Ok v →
  r ∈ sl_retirements (w_selections db) → rt_owner_account_id r = se_owner_account_id h →
  i ∈ sl_items (w_selections db) → sit_owner_account_id i = se_owner_account_id h →
  sit_wallet_id i ≠ rt_wallet_id r ∧ sit_address i ≠ rt_address r.
Proof.
  intros H Hr Hro Hi Hio. unfold loadWalletSelection in H. cbv zeta in H. tx_inv.
  match goal with Hm : mapM _ _ = Ok ?l |- _ => rename Hm into Hload, l into rs end.
  assert (r ∈ ListWalletRetirements (se_owner_account_id h) db) as Hin.
  { apply sort_by_elem, elem_of_sql_many. split; [by apply N.eqb_eq|done]. }
  assert (i ∈ ListWalletSelectionItems (se_owner_account_id h) db) as Hin'.
  { apply sort_by_elem, elem_of_sql_many. split; [by apply N.eqb_eq|done]. }
  clear -Hload Hin Hin'. revert rs Hload. induction (ListWalletRetirements _ _) as [|r0 l IH]; [by apply not_elem_of_nil in Hin|].
  intros rs Hload. cbn in Hload. tx_inv. apply elem_of_cons in Hin as [->|Hin]; [by eapply load_retirement_fresh|eauto].
Qed.
(** A wallet is not selected and retiring at the same time. *)
Lemma not_both db o w a a' : selection_tables db → selected db o w a → retiring db o w a' → False.
Proof.
  intros S (i & Hi & Ho & Hw & _)%selected_row (r & Hr & Ho' & Hw' & _)%retiring_row.
  pose proof (st_item_header _ S i Hi) as (h & Hh & Hho)%existsb_elem. apply N.eqb_eq in Hho. destruct (st_loads _ S h Hh) as [v Hv].
  destruct (load_retirements_fresh h v db r i Hv Hr) as [Hne _]; congruence.
Qed.

(** ** Connection operations keep it *)
(** Nothing new is managed. *)
Record shrinks (v v' : wview) : Prop := {
  sh_managed : v_managed v' = true → v_managed v = true;
  sh_address : ∀ c', v_conn v' = Some c' → ∃ c, v_conn v = Some c ∧ cn_address c' = cn_address c;
  sh_attempt : is_Some (v_act v') → is_Some (v_act v) }.
Lemma shrinks_refl v : shrinks v v.
Proof. constructor; eauto. Qed.
Lemma shrinks_settle v v' : sound v → vsettle v v' → shrinks v v'.
Proof.
  intros Hv Hs. constructor; [|intros c' Hc'|by eapply attempt_settle].
  - intros Hm. destruct (managed_settle _ _ Hs Hm) as [?|?]; [done|]. by apply Hv.
  - destruct (connected_settle _ _ Hs) as [c Hc]; [by eexists|]. destruct (address_settle _ _ Hs c Hc) as (c0 & Hc0 & Ha).
    exists c. split; [done|congruence].
Qed.
Lemma shrinks_disconnect v v' : vdisconnect v v' → shrinks v v'.
Proof.
  intros Hs. constructor; [by eapply managed_disconnect| |by destruct Hs].
  intros c' Hc'. destruct Hs as [c oa k now Hu Hst]. exists c. cbn in *. split; [done|]. by destruct k; simplify_eq.
Qed.
Lemma shrinks_activate v v' : sound v → vactivate v v' → shrinks v v'.
Proof.
  intros Hv Hs. destruct Hs as [c a k warning at_ now Ha Hw]. constructor; cbn.
  - intros _. apply Hv. by eexists.
  - intros c' [= <-]. by exists c.
  - by intros [].
Qed.

Section Step.
Context (db db' : WDB) (w : Z).
Context (HI : OInv db) (Ht' : tables db') (Hsel : w_selections db' = w_selections db).
Context (Hothers : ∀ u, u ≠ w → view db' u = view db u).
Lemma managed_others o u : u ≠ w → u ∈ managed_wallets o db' → u ∈ managed_wallets o db.
Proof using All.
  intros Hu. rewrite !elem_of_managed. intros [(a & Hs & Hm)|[a Hr]]; [left|right].
  - exists a. split; [by apply (selected_same db db')|]. rewrite !has_credential_view, !connection_in_use_view in * by (done || apply HI).
    by rewrite Hothers in Hm.
  - exists a. by apply (retiring_same db db').
Qed.
Lemma managed_this o : shrinks (view db w) (view db' w) → w ∈ managed_wallets o db' → w ∈ managed_wallets o db.
Proof using All.
  intros [Hm Ha _]. rewrite elem_of_managed. intros [(a & Hs & Hu)|[a Hr]].
  - apply (selected_same db db') in Hs; [|done]. assert (v_managed (view db' w) = true) as Hm'.
    { unfold v_managed. destruct Hu as [(c & -> & _ & ->)%connection_in_use_view|Hu]; [done|done|].
      rewrite has_credential_view in Hu. rewrite Hu. apply orb_true_r. }
    specialize (Hm Hm'). apply elem_of_managed. left. exists a. split; [done|]. unfold v_managed in Hm.
    apply orb_true_iff in Hm as [Hm|Hm]; [|by right]. destruct (v_conn (view db w)) as [c|] eqn:Hc; [|done].
    destruct Hu as [(c' & Hc' & Hca & _)%connection_in_use_view|Hu]; [|done|].
    + left. apply connection_in_use_view; [apply HI|]. exists c. split; [done|]. split; [|done]. destruct (Ha c' Hc') as (? & ? & ?). congruence.
    + (* a credential of a wallet whose connection is in use *)
      pose proof (oi_managed _ HI w c Hc) as Hl. unfold v_managed in Hl. rewrite Hc, Hm in Hl. specialize (Hl eq_refl).
      pose proof (selected_owner _ _ _ _ (oi_selections _ HI) Hs) as ->. destruct Hl as [Hl|Hl]; [|by eapply not_both in Hs; [|apply HI|]].
      apply selected_row in Hl as (r & Hr & Ho & Hw & Hra). apply selected_row in Hs as (r' & Hr' & Ho' & Hw' & Hra').
      assert (r = r') as -> by (apply (st_item_key _ (oi_selections _ HI)); congruence). left. apply connection_in_use_view; [apply HI|].
      exists c. split; [done|]. split; [congruence|done].
  - apply elem_of_managed. right. exists a. by apply (retiring_same db db').
Qed.
Lemma count_subset o : managed_wallets o db' ⊆ managed_wallets o db → CountManagedWalletConnections o db' ≤ MaximumWalletSelectionItems.
Proof using All.
  intros Hs. apply subseteq_size in Hs. pose proof (oi_bound _ HI o). unfold CountManagedWalletConnections in *. lia.
Qed.
(** One wallet has changed; the others are as they were. *)
Lemma OInv_change :
  sound (view db' w) →
  (∀ c, v_conn (view db' w) = Some c → is_Some (v_act (view db' w)) → selected db (owner_of w) w (cn_address c)) →
  (∀ c, v_conn (view db' w) = Some c → v_managed (view db' w) = true → listed db (owner_of w) w (cn_address c)) →
  (∀ o, CountManagedWalletConnections o db' ≤ MaximumWalletSelectionItems) → OInv db'.
Proof using All.
  intros Hs Ha Hm Hb. constructor; [done|by eapply selection_tables_same, HI| | | |done].
  - intros u. destruct (Z.eq_dec u w) as [->|Hu]; [done|]. rewrite Hothers by done. apply HI.
  - intros u c. rewrite (selected_same db db') by done. destruct (Z.eq_dec u w) as [->|Hu]; [auto|]. rewrite Hothers by done. apply HI.
  - intros u c. unfold listed. rewrite (selected_same db db'), (retiring_same db db') by done.
    destruct (Z.eq_dec u w) as [->|Hu]; [apply Hm|]. rewrite Hothers by done. apply HI.
Qed.
Lemma OInv_shrinks : sound (view db' w) → shrinks (view db w) (view db' w) → OInv db'.
Proof using All.
  intros Hs Hsh. apply OInv_change; [done|..].
  - intros c Hc Ha. destruct (sh_address _ _ Hsh c Hc) as (d & Hd & ->). by apply HI, (sh_attempt _ _ Hsh).
  - intros c Hc Hm. destruct (sh_address _ _ Hsh c Hc) as (d & Hd & ->). by apply HI, (sh_managed _ _ Hsh).
  - intros o. apply count_subset. intros u. destruct (Z.eq_dec u w) as [->|Hu]; [by apply managed_this|by apply managed_others].
Qed.
(** A prepare for a selected wallet, with a free slot or one of its own. *)
Lemma OInv_prepared o a c :
  sound (view db' w) → selected db o w a → v_conn (view db' w) = Some c → cn_address c = a →
  CountManagedWalletConnections o db < MaximumWalletSelectionItems ∨ WalletOccupiesManagedConnectionSlot o w a db = true → OInv db'.
Proof using All.
  intros Hs Hi Hc Ha Hslot. pose proof (selected_owner _ _ _ _ (oi_selections _ HI) Hi) as Ho. apply OInv_change; [done|..].
  - intros d Hd _. assert (d = c) as -> by congruence. by rewrite Ha, <- Ho.
  - intros d Hd _. assert (d = c) as -> by congruence. left. by rewrite Ha, <- Ho.
  - intros o'. destruct (decide (o' = o)) as [->|Hne].
    + destruct Hslot as [Hlt|Hslot].
      * assert (managed_wallets o db' ⊆ {[w]} ∪ managed_wallets o db) as Hsub.
        { intros u Hu. destruct (Z.eq_dec u w) as [->|Hn]; [set_solver|]. apply elem_of_union_r. by apply managed_others. }
        apply subseteq_size in Hsub. pose proof (size_union_alt {[w]} (managed_wallets o db)) as Hsz.
        assert (size (managed_wallets o db ∖ {[w]}) ≤ size (managed_wallets o db))%nat by (apply subseteq_size; set_solver).
        rewrite size_singleton in Hsz. unfold CountManagedWalletConnections in *. lia.
      * apply count_subset. intros u Hu. destruct (Z.eq_dec u w) as [->|Hn]; [|by apply managed_others].
        apply elem_of_managed. apply orb_true_iff in Hslot as [Hr|[_ He]%andb_true_iff]; [right; by exists a|left]. exists a. split; [done|].
        apply existsb_elem in He as (d & Hd & Hp). 
        apply andb_true_iff in Hp as [[Hw%Z.eqb_eq Hda%bool_decide_eq_true]%andb_true_iff Hp].
        apply orb_true_iff in Hp as [Hp|Hp]; [left|by right]. apply existsb_elem. exists d. split; [done|].
        by rewrite (proj2 (Z.eqb_eq _ _) Hw), bool_decide_eq_true_2, Hp.
    + apply count_subset. intros u Hu. destruct (Z.eq_dec u w) as [->|Hn]; [|by apply managed_others]. exfalso. apply Hne.
      apply elem_of_managed in Hu as [(b & Hb & _)|[b Hb]].
      * apply (selected_same db db') in Hb; [|done]. rewrite Ho. by eapply selected_owner, Hb; apply HI.
      * apply (retiring_same db db') in Hb; [|done]. rewrite Ho. by eapply retiring_owner, Hb; apply HI.
Qed.
End Step.

Lemma OInv_WInv db : OInv db → WInv db.
Proof. intros I. split; [apply I|]. intros w. apply I. Qed.
Lemma OInv_connection clock o db db' : OInv db → disciplined db o → commits clock o db db' → OInv db'.
Proof.
  intros I Hd Hc. destruct (op_lives _ _ _ _ (OInv_WInv _ I) Hd Hc) as [w Hl]. pose proof (commits_selections _ _ _ _ Hc) as Hsel.
  pose proof (oi_sound _ I w) as Hs.
  destruct (lv_view _ _ _ _ Hl) as [[Hv|Hv]|[[(fresh & req & -> & <-) Hv]|[[(ow & address & at_ & ->) Hv]|[_ Hv]]]].
  - eapply (OInv_shrinks db db' w); try done; [apply Hl..| |]; rewrite Hv; [done|apply shrinks_refl].
  - eapply (OInv_shrinks db db' w); try done; [apply Hl..|by eapply sound_settle|by apply shrinks_settle].
  - destruct Hc as [r Hc]. destruct (prepare_checked _ _ _ _ _ _ (oi_tables _ I) Hc) as (ow & c & Hi & Hslot & Hcc & Ha).
    eapply (OInv_prepared db db'); try done; [apply Hl..|by eapply sound_admits].
  - destruct Hc as [r Hc]. destruct (disconnect_checked _ _ _ _ _ _ _ _ Hc) as [ow' Hr].
    assert (v_act (view db w) = None) as Hn.
    { destruct (v_act (view db w)) as [a|] eqn:E; [|done]. assert (is_Some (v_act (view db w))) as Ha by (by rewrite E).
      destruct (lk_referenced _ (sd_linked _ Hs) Ha) as [c Hcc]. pose proof (oi_attempt _ I w c Hcc Ha) as Hi.
      rewrite (retiring_owner _ _ _ _ (oi_selections _ I) Hr) in Hr. by eapply not_both in Hi; [|apply I|]. }
    eapply (OInv_shrinks db db' w); try done; [apply Hl..|by apply (sound_disconnect _ _ Hv)|by apply shrinks_disconnect].
  - eapply (OInv_shrinks db db' w); try done; [apply Hl..|by eapply sound_activate|by apply shrinks_activate].
Qed.
End Steps.
