(* ===== verification/SelectionReplace.v ===== *)
(** * Wallet selections: what replacing one does

    [retires] says what the loops of [ReplaceWalletSelection] do to the retirements of
    one owner; [replaced] what the whole transaction does. *)

From S2P Require Import Prelude Sql CashOutTypes ConnectionTypes ConnectionStore ConnectionInv ConnectionLink ConnectionOps SelectionInv Selection.
From stdpp Require Import base tactics option list list_numbers sorting strings gmap relations.
From Stdlib Require Import ZArith Lia Ascii.
#[local] Open Scope Z_scope.

Abbreviation headers db := (sl_selections (w_selections db)).
Abbreviation items db := (sl_items (w_selections db)).
Abbreviation retirements db := (sl_retirements (w_selections db)).
Definition retirement_key (r : retirement_row) : N * Z := (rt_owner_account_id r, rt_wallet_id r).
Definition of_owner (o : N) (r : retirement_row) : bool := (rt_owner_account_id r =? o)%N.

(** ** What selections do not touch *)
Definition wallet_part (db : WDB) : list connection_row * list credential_row * list attempt_row * list (N * Z * string) :=
  (w_connections db, w_credentials db, w_attempts db, sl_holds (w_selections db)).
Lemma wallet_part_eq db db' :
  wallet_part db' = wallet_part db →
  w_connections db' = w_connections db ∧ w_credentials db' = w_credentials db ∧ w_attempts db' = w_attempts db
  ∧ sl_holds (w_selections db') = sl_holds (w_selections db).
Proof. by intros [= -> -> -> ->]. Qed.
Lemma needs_same db db' w a : wallet_part db' = wallet_part db → WalletNeedsRetirement w a db' = WalletNeedsRetirement w a db.
Proof.
  intros (H1 & H2 & H3 & _)%wallet_part_eq. unfold WalletNeedsRetirement, connection_in_use, has_credential, has_open_attempt.
  by rewrite H1, H2, H3.
Qed.
Lemma view_same db db' w : wallet_part db' = wallet_part db → view db' w = view db w.
Proof.
  intros (H1 & H2 & H3 & _)%wallet_part_eq. unfold view, GetWalletConnectionForUpdate, GetActiveConnectionAttemptForWallet, has_credential.
  by rewrite H1, H2, H3.
Qed.
Lemma tables_same db db' : wallet_part db' = wallet_part db → tables db → tables db'.
Proof.
  intros (H1 & H2 & H3 & _)%wallet_part_eq [T1 T2 T3 T4 T5 T6 T7 T8].
  constructor; unfold act, conn in *; rewrite ?H1, ?H2, ?H3; done.
Qed.

(** ** Retirements *)
Record retires (o : N) (P : Z → string → Prop) (db db' : WDB) : Prop := {
  re_wallets : wallet_part db' = wallet_part db;
  re_headers : headers db' = headers db;
  re_items : items db' = items db;
  re_others : ∀ o', o' ≠ o → sql_many (of_owner o') (retirements db') = sql_many (of_owner o') (retirements db);
  re_key : NoDup (retirement_key <$> retirements db) → NoDup (retirement_key <$> retirements db');
  re_origin : ∀ w a, retiring db' o w a → retiring db o w a ∨ P w a;
  re_kept : ∀ w a, retiring db o w a → WalletNeedsRetirement w a db = true → retiring db' o w a }.
Lemma retires_refl o P db : retires o P db db.
Proof. constructor; auto. Qed.
Lemma retires_trans o P db db1 db2 : retires o P db db1 → retires o P db1 db2 → retires o P db db2.
Proof.
  intros [H1 H2 H3 H4 H5 H6 H7] [K1 K2 K3 K4 K5 K6 K7]. constructor; try congruence; auto.
  - intros o' Ho. rewrite K4, H4; done.
  - intros w a [H|H]%K6; auto.
  - intros w a H Hn. apply K7; [auto|]. by rewrite (needs_same db db1).
Qed.
Lemma retires_weaken o (P Q : Z → string → Prop) db db' : (∀ w a, P w a → Q w a) → retires o P db db' → retires o Q db db'.
Proof. intros HPQ [H1 H2 H3 H4 H5 H6 H7]. constructor; auto. intros w a [H|H]%H6; auto. Qed.
(** Only the retirements of [o] are rewritten. *)
Lemma retires_put o (P : Z → string → Prop) t db db' u :
  put_retirements t db = Ok (db', u) →
  (∀ o', o' ≠ o → sql_many (of_owner o') t = sql_many (of_owner o') (retirements db)) →
  (NoDup (retirement_key <$> retirements db) → NoDup (retirement_key <$> t)) →
  (∀ r, r ∈ t → rt_owner_account_id r = o → retiring db o (rt_wallet_id r) (rt_address r) ∨ P (rt_wallet_id r) (rt_address r)) →
  (∀ r, r ∈ retirements db → rt_owner_account_id r = o → WalletNeedsRetirement (rt_wallet_id r) (rt_address r) db = true →
     ∃ r', r' ∈ t ∧ rt_owner_account_id r' = o ∧ rt_wallet_id r' = rt_wallet_id r ∧ rt_address r' = rt_address r) →
  retires o P db db'.
Proof.
  intros H Ho Hk Hor Hkept. unfold put_retirements in H. tx_inv. constructor; cbn; try done.
  - intros w a (r & Hr & Hro & <- & <-)%retiring_row. by apply Hor.
  - intros w a (r & Hr & Hro & <- & <-)%retiring_row Hn. apply retiring_row. cbn. by apply Hkept.
Qed.
Lemma sql_many_cons {R} (p : R → bool) r t : sql_many p (r :: t) = if p r then r :: sql_many p t else sql_many p t.
Proof. unfold sql_many. rewrite filter_cons. by destruct (p r). Qed.
Lemma update_others o' p f (t : list retirement_row) :
  (∀ r, p r = true → rt_owner_account_id r ≠ o') → (∀ r, rt_owner_account_id (f r) = rt_owner_account_id r) →
  sql_many (of_owner o') (sql_update p f t) = sql_many (of_owner o') t.
Proof.
  intros Hp Hf. induction t as [|r t IH]; [done|]. unfold sql_update in *. cbn [fmap list_fmap]. rewrite !sql_many_cons, IH. specialize (Hp r).
  destruct (p r); [|done]. unfold of_owner. by rewrite Hf, (proj2 (N.eqb_neq _ _)) by auto.
Qed.

(** *** Persisting one retirement *)
Lemma retires_delete o w a db db' n :
  DeleteWalletRetirement o w a db = Ok (db', n) → retires o (λ _ _, False) db db'.
Proof.
  intros H. unfold DeleteWalletRetirement in H. cbv zeta in H. tx_inv.
  match goal with Hp : put_retirements _ _ = _ |- _ => eapply retires_put; [exact Hp|..] end.
  - intros o' Ho. apply sql_many_delete. intros r Hr%N.eqb_eq. unfold is_retirement.
    by rewrite (proj2 (N.eqb_neq (rt_owner_account_id r) o)) by congruence.
  - apply sql_delete_NoDup.
  - intros r [_ Hr]%elem_of_sql_delete Hro. left. apply retiring_row. eauto.
  - intros r Hr Hro Hn. exists r. split; [|done]. apply elem_of_sql_delete. split; [|done].
    unfold is_retirement. destruct (decide (rt_wallet_id r = w ∧ rt_address r = a)) as [[<- <-]|Hne].
    + unfold WalletNeedsRetirement in Hn. destruct (connection_in_use _ _ _), (has_credential _ _), (has_open_attempt _ _ _); try done;
      cbn [negb]; by rewrite ?andb_false_r.
    + apply andb_false_iff; left. apply andb_false_iff; left. apply andb_false_iff; left.
      destruct (Z.eqb_spec (rt_wallet_id r) w); [|by rewrite andb_false_r]. rewrite bool_decide_eq_false_2 by naive_solver. apply andb_false_r.
Qed.
Lemma retires_upsert row db db' u (o := rt_owner_account_id row) (w := rt_wallet_id row) (a := rt_address row) :
  UpsertWalletRetirement row db = Ok (db', u) →
  retires o (λ w' a', w' = w ∧ a' = a) db db' ∧ (retiring db' o w a ∨ ∃ a', retiring db o w a').
Proof.
  intros H. unfold UpsertWalletRetirement in H. cbv zeta in H. tx_inv. destruct (sql_one _ _) as [old|] eqn:Hone; tx_inv.
  - pose proof (sql_one_Some _ _ _ Hone) as [Hold Hp]. apply andb_true_iff in Hp as [Hpo%N.eqb_eq Hpw%Z.eqb_eq]. split; [|right].
    2:{ exists (rt_address old). apply retiring_row. eauto. }
    match goal with Hput : put_retirements _ _ = _ |- _ => eapply retires_put; [exact Hput|..] end.
    + intros o' Ho. apply update_others; [|done]. intros r Hr. apply andb_true_iff in Hr as [Hr%N.eqb_eq _]. unfold o in Ho. congruence.
    + by rewrite sql_update_key.
    + intros r (r0 & Hr0 & ->)%elem_of_sql_update. destruct ((rt_owner_account_id r0 =? _)%N && _); intros Hro; left; apply retiring_row; by exists r0.
    + intros r Hr Hro Hn. eexists. split; [apply elem_of_sql_update; by exists r|]. by destruct ((rt_owner_account_id r =? _)%N && _).
  - match goal with Hi : sql_insert _ _ _ _ _ = Ok ?t |- _ => rename t into t', Hi into Hins end. cbn in Hins.
    destruct (retirement_check row && _); [|done]. injection Hins as <-.
    match goal with Hput : put_retirements _ _ = _ |- _ => rename Hput into Hp end. split.
    + eapply retires_put; [exact Hp|..].
      * intros o' Ho. rewrite sql_many_app, sql_many_cons. unfold of_owner at 2. rewrite (proj2 (N.eqb_neq _ _)) by done. by rewrite app_nil_r.
      * intros Hnd. rewrite fmap_app. apply NoDup_app. split; [done|]. split; [|apply NoDup_singleton].
        intros k (r & -> & Hr)%list_elem_of_fmap Hk%list_elem_of_singleton. unfold retirement_key in Hk. injection Hk as Hk1 Hk2.
        pose proof (sql_one_None _ _ Hone r Hr) as Hf. cbn in Hf. by rewrite Hk1, Hk2, N.eqb_refl, Z.eqb_refl in Hf.
      * intros r [Hr| ->%list_elem_of_singleton]%elem_of_app Hro; [left; apply retiring_row; eauto|by right].
      * intros r Hr Hro _. exists r. split; [apply elem_of_app; by left|done].
    + left. unfold put_retirements in Hp. tx_inv. apply retiring_row. exists row. cbn. split; [apply elem_of_app; right; by apply list_elem_of_singleton|done].
Qed.
Section Replace.
Context {UL : UuidLib} {SL : SolanaLib}.
Lemma persist_retires o w a ordinal revision now db db' u :
  persistWalletRetirementIfNeeded o w a ordinal revision now db = Ok (db', u) →
  retires o (λ w' a', (w' = w ∧ a' = a) ∧ WalletNeedsRetirement w a db = true) db db'
  ∧ (WalletNeedsRetirement w a db = true → retiring db' o w a ∨ ∃ a', retiring db o w a').
Proof.
  intros H. unfold persistWalletRetirementIfNeeded in H. tx_inv. destruct (WalletNeedsRetirement w a db) eqn:Hn; cbn in *; tx_inv.
  - match goal with Hu : UpsertWalletRetirement _ _ = _ |- _ => apply retires_upsert in Hu as [Hr Hor] end. cbn in *. split; [|done]. eapply retires_weaken, Hr. cbn. auto.
  - split; [|done]. eapply retires_weaken; [|by eapply retires_delete]. done.
Qed.

(** *** The loops *)
Lemma retire_removed_retires o revision now l db db' u :
  (∀ i j, i ∈ l → j ∈ l → sit_wallet_id i = sit_wallet_id j → sit_address i = sit_address j) →
  retire_removed o revision now l db = Ok (db', u) →
  retires o (λ w a, (∃ i, i ∈ l ∧ sit_wallet_id i = w ∧ sit_address i = a) ∧ WalletNeedsRetirement w a db = true) db db'
  ∧ ∀ i, i ∈ l → WalletNeedsRetirement (sit_wallet_id i) (sit_address i) db = true →
      retiring db' o (sit_wallet_id i) (sit_address i) ∨ ∃ a, retiring db o (sit_wallet_id i) a.
Proof.
  revert db. induction l as [|i l IH]; intros db Hl H; cbn [retire_removed] in H.
  { tx_inv. split; [apply retires_refl|]. by intros ? ?%not_elem_of_nil. }
  apply tx_bind_ok in H as (db1 & [] & H1 & H2). apply persist_retires in H1 as [R1 E1].
  destruct (IH db1) as [R2 E2]; [intros ?? ? ?; apply Hl; by right|done|]. clear IH.
  assert (∀ w a, WalletNeedsRetirement w a db1 = WalletNeedsRetirement w a db) as Hneeds by (intros; apply needs_same, R1).
  assert (retires o (λ w a, (∃ j, j ∈ i :: l ∧ sit_wallet_id j = w ∧ sit_address j = a) ∧ WalletNeedsRetirement w a db = true) db db1) as R1'.
  { eapply retires_weaken, R1. intros w a [[-> ->] Hn]. split; [|done]. exists i. split; [by left|done]. }
  assert (retires o (λ w a, (∃ j, j ∈ i :: l ∧ sit_wallet_id j = w ∧ sit_address j = a) ∧ WalletNeedsRetirement w a db = true) db1 db') as R2'.
  { eapply retires_weaken, R2. intros w a [(j & Hj & Hw & Ha) Hn]. split; [exists j; split; [by right|done]|by rewrite <- Hneeds]. }
  split; [by eapply retires_trans|]. intros j [->|Hj]%elem_of_cons Hn.
  - destruct (E1 Hn) as [Hr|?]; [left|by right]. apply (re_kept _ _ _ _ R2); [done|by rewrite Hneeds].
  - destruct (E2 j Hj) as [?|[a Ha]]; [by rewrite Hneeds|by left|]. destruct (re_origin _ _ _ _ R1 _ _ Ha) as [Ho|[[Hw Hia] Hn']]; [right; eauto|left].
    assert (sit_address j = a) as Hja by (rewrite Hia; apply Hl; [by right|by left|done]).
    apply (re_kept _ _ _ _ R2); [by rewrite Hja|by rewrite Hneeds].
Qed.
Lemma same_address_ok o w a db db' u :
  same_address o w a db = Ok (db', u) →
  db' = db ∧ (NoDup (retirement_key <$> retirements db) → ∀ a', retiring db o w a' → a' = a).
Proof.
  intros H. unfold same_address in H. tx_inv. destruct (GetWalletRetirementByWalletID o w db) as [r|] eqn:E; tx_inv; (split; [done|]); intros Hnd a'.
  - intros (r' & Hr' & Ho & Hw & <-)%retiring_row. apply sql_one_Some in E as [Hr [Hro%N.eqb_eq Hrw%Z.eqb_eq]%andb_true_iff]. bool_prop.
    assert (r = r') as -> by (apply (NoDup_key_inj retirement_key (retirements db)); [done..|]; unfold retirement_key; congruence). done.
  - intros (r' & Hr' & Ho & Hw & <-)%retiring_row. pose proof (sql_one_None _ _ E r' Hr') as Hf. cbn in Hf.
    by rewrite Ho, Hw, N.eqb_refl, Z.eqb_refl in Hf.
Qed.
Lemma retire_requested_retires o revision now l db db' u :
  retire_requested o revision now l db = Ok (db', u) →
  retires o (λ w a, (∃ i, i ∈ l ∧ wri_wallet_id i = w ∧ wri_address i = a) ∧ WalletNeedsRetirement w a db = true) db db'.
Proof.
  revert db. induction l as [|i l IH]; intros db H; cbn [retire_requested] in H; [tx_inv; apply retires_refl|].
  apply tx_bind_ok in H as (d & [] & [-> _]%same_address_ok & H). apply tx_bind_ok in H as (db1 & [] & [R1 _]%persist_retires & H2).
  apply IH in H2 as R2. clear IH.
  assert (∀ w a, WalletNeedsRetirement w a db1 = WalletNeedsRetirement w a db) as Hneeds by (intros; apply needs_same, R1).
  eapply (retires_trans _ _ _ db1); eapply retires_weaken; [|exact R1| |exact R2].
  - intros w a [[-> ->] Hn]. split; [exists i; split; [by left|done]|done].
  - intros w a [(j & Hj & Hw & Ha) Hn]. split; [exists j; split; [by right|done]|by rewrite <- Hneeds].
Qed.
(** Reselected wallets stop retiring. *)
Record reselects (o : N) (ids : list Z) (db db' : WDB) : Prop := {
  rs_wallets : wallet_part db' = wallet_part db;
  rs_headers : headers db' = headers db;
  rs_items : items db' = items db;
  rs_others : ∀ o', o' ≠ o → sql_many (of_owner o') (retirements db') = sql_many (of_owner o') (retirements db);
  rs_key : NoDup (retirement_key <$> retirements db) → NoDup (retirement_key <$> retirements db');
  rs_retiring : ∀ w a, retiring db' o w a ↔ retiring db o w a ∧ w ∉ ids }.
Lemma reselects_one o w db db' u : DeleteWalletRetirementForReselection o w db = Ok (db', u) → reselects o [w] db db'.
Proof.
  intros H. unfold DeleteWalletRetirementForReselection, put_retirements in H. tx_inv. constructor; cbn; try done.
  - intros o' Ho. apply sql_many_delete. intros r Hr%N.eqb_eq. by rewrite (proj2 (N.eqb_neq (rt_owner_account_id r) o)) by congruence.
  - apply sql_delete_NoDup.
  - intros w' a. rewrite !retiring_row. cbn. setoid_rewrite elem_of_sql_delete. rewrite list_elem_of_singleton. split.
    + intros (r & [Hf Hr] & Ho & <- & <-). split; [by exists r|]. intros Hw. by rewrite Ho, Hw, N.eqb_refl, Z.eqb_refl in Hf.
    + intros [(r & Hr & Ho & Hw & Ha) Hne]. exists r. split; [|done]. split; [|done].
      by rewrite (proj2 (Z.eqb_neq (rt_wallet_id r) w)), andb_false_r by congruence.
Qed.
Lemma reselects_cons o w ids db db1 db' : reselects o [w] db db1 → reselects o ids db1 db' → reselects o (w :: ids) db db'.
Proof.
  intros [H1 H2 H3 H4 H5 H6] [K1 K2 K3 K4 K5 K6]. constructor; try congruence; auto.
  - intros o' Ho. rewrite K4, H4; done.
  - intros w' a. rewrite K6, H6, list_elem_of_singleton, elem_of_cons. tauto.
Qed.
Lemma reselect_ok o l db db' u :
  NoDup (win_wallet_id <$> l) → NoDup (retirement_key <$> retirements db) → reselect o l db = Ok (db', u) →
  reselects o (win_wallet_id <$> l) db db' ∧ ∀ i a, i ∈ l → retiring db o (win_wallet_id i) a → a = win_address i.
Proof.
  revert db. induction l as [|i l IH]; intros db Hl Hk H; cbn [reselect] in H.
  { tx_inv. split; [|by intros ? ? ?%not_elem_of_nil]. constructor; try done. intros w a. cbn. split; [|by intros [? _]].
    intros. split; [done|apply not_elem_of_nil]. }
  apply tx_bind_ok in H as (d & [] & [-> Hsame]%same_address_ok & H). tx_inv.
  match goal with Hd : DeleteWalletRetirementForReselection _ _ _ = _ |- _ => apply reselects_one in Hd; rename Hd into R1 end.
  cbn in Hl. apply NoDup_cons in Hl as [Hni Hl].
  match goal with Hr : reselect _ _ _ = _ |- _ => apply IH in Hr as [R2 Ha]; [|done|by apply R1] end.
  split; [by eapply reselects_cons|]. intros j a [->|Hj]%elem_of_cons Hr; [by apply Hsame|]. apply Ha; [done|].
  apply R1. split; [done|]. rewrite list_elem_of_singleton. intros Heq. apply Hni. rewrite <- Heq. by apply list_elem_of_fmap_2.
Qed.

(** ** Items *)
Fixpoint item_rows (o : N) (ordinal now : Z) (l : list WalletSelectionInput) : list selection_item_row :=
  match l with
  | [] => []
  | i :: l' => {| sit_owner_account_id := o; sit_ordinal := ordinal; sit_wallet_id := win_wallet_id i; sit_address := win_address i;
                  sit_selected_at := pg_time now |} :: item_rows o (ordinal + 1) now l'
  end.
Definition item_key (db : WDB) : Prop :=
  ∀ r r', r ∈ items db → r' ∈ items db → sit_owner_account_id r = sit_owner_account_id r' → sit_wallet_id r = sit_wallet_id r' → r = r'.
Lemma elem_of_item_rows o n now l r :
  r ∈ item_rows o n now l → sit_owner_account_id r = o ∧ ∃ i, i ∈ l ∧ sit_wallet_id r = win_wallet_id i ∧ sit_address r = win_address i.
Proof.
  revert n. induction l as [|i l IH]; intros n; cbn; [by intros ?%not_elem_of_nil|].
  intros [->|Hr]%elem_of_cons; [split; [done|]; exists i; split; [by left|done]|].
  destruct (IH _ Hr) as (Ho & j & Hj & ?). split; [done|]. exists j. split; [by right|done].
Qed.
Lemma item_rows_elem o n now l i :
  i ∈ l → ∃ r, r ∈ item_rows o n now l ∧ sit_owner_account_id r = o ∧ sit_wallet_id r = win_wallet_id i ∧ sit_address r = win_address i.
Proof.
  revert n. induction l as [|j l IH]; intros n; [by intros ?%not_elem_of_nil|].
  intros [->|Hi]%elem_of_cons; [eexists; split; [by left|done]|]. destruct (IH (n + 1) Hi) as (r & Hr & ?). exists r. split; [by right|done].
Qed.
Lemma create_item_ok row db db' u :
  CreateWalletSelectionItem row db = Ok (db', u) →
  wallet_part db' = wallet_part db ∧ headers db' = headers db ∧ retirements db' = retirements db ∧ items db' = items db ++ [row]
  ∧ owns_selection (sit_owner_account_id row) db = true ∧ (item_key db → item_key db').
Proof.
  intros H. unfold CreateWalletSelectionItem, put_items in H. tx_inv.
  match goal with Hi : sql_insert _ _ _ _ _ = Ok ?t |- _ => rename Hi into Hins end. cbn in Hins.
  destruct (selection_item_check row && _) eqn:Hg; [|done]. injection Hins as <-. apply andb_true_iff in Hg as [_ Hno%negb_true_iff].
  split_and!; try done. intros Hk r r' Hr Hr' Ho Hw. cbn in Hr, Hr'.
  assert (∀ x, x ∈ items db → sit_owner_account_id row = sit_owner_account_id x → sit_wallet_id row = sit_wallet_id x → False) as Hnew.
  { intros x Hx Hxo Hxw. rewrite existsb_elem_false in Hno. specialize (Hno x Hx). unfold selection_item_conflict in Hno.
    by rewrite Hxo, Hxw, N.eqb_refl, Z.eqb_refl, orb_true_r in Hno. }
  apply elem_of_app in Hr as [Hr|Hr]; apply elem_of_app in Hr' as [Hr'|Hr'];
    rewrite ?list_elem_of_singleton in *; subst; try done; [by apply Hk|exfalso; by eapply (Hnew r)|exfalso; by eapply (Hnew r')].
Qed.
Lemma create_items_ok o n now l db db' u :
  create_items o n now l db = Ok (db', u) →
  wallet_part db' = wallet_part db ∧ headers db' = headers db ∧ retirements db' = retirements db
  ∧ items db' = items db ++ item_rows o n now l ∧ (item_key db → item_key db').
Proof.
  revert n db. induction l as [|i l IH]; intros n db H; cbn [create_items item_rows] in *; [tx_inv; by rewrite app_nil_r|].
  apply tx_bind_ok in H as (db1 & [] & (W1 & H1 & R1 & I1 & _ & K1)%create_item_ok & (W2 & H2 & R2 & I2 & K2)%IH).
  split_and!; try congruence; [|auto]. by rewrite I2, I1, <- app_assoc.
Qed.
Lemma delete_items_ok o db db' u :
  DeleteWalletSelectionItems o db = Ok (db', u) →
  wallet_part db' = wallet_part db ∧ headers db' = headers db ∧ retirements db' = retirements db
  ∧ items db' = sql_delete (λ r, (sit_owner_account_id r =? o)%N) (items db) ∧ (item_key db → item_key db').
Proof.
  intros H. unfold DeleteWalletSelectionItems, put_items in H. tx_inv. split_and!; try done.
  intros Hk r r' [_ Hr]%elem_of_sql_delete [_ Hr']%elem_of_sql_delete. by apply Hk.
Qed.

(** ** The header *)
Record header_written (o : N) (count expected : Z) (h : selection_row) (db db' : WDB) : Prop := {
  hw_wallets : wallet_part db' = wallet_part db;
  hw_items : items db' = items db;
  hw_retirements : retirements db' = retirements db;
  hw_owner : se_owner_account_id h = o;
  hw_row : h ∈ headers db';
  hw_revision : se_revision h = expected + 1;
  hw_count : se_selected_wallet_count h = count;
  hw_key : NoDup (se_owner_account_id <$> headers db) → NoDup (se_owner_account_id <$> headers db');
  hw_others : ∀ r, se_owner_account_id r ≠ o → r ∈ headers db' ↔ r ∈ headers db }.
Lemma owns_row o db : owns_selection o db = true ↔ ∃ h, h ∈ headers db ∧ se_owner_account_id h = o.
Proof. unfold owns_selection. rewrite existsb_elem. by setoid_rewrite N.eqb_eq. Qed.
Lemma update_selection_ok o count now expected db db' h :
  UpdateWalletSelection count now o expected db = Ok (db', h) → header_written o count expected h db db'.
Proof.
  intros H. unfold UpdateWalletSelection, put_selections in H. cbv zeta in H. tx_inv. destruct (sql_one _ _) as [old|] eqn:Hone; tx_inv.
  apply sql_one_Some in Hone as [Hold [Ho%N.eqb_eq Hr%Z.eqb_eq]%andb_true_iff]. constructor; cbn; try done.
  - apply elem_of_sql_update. exists old. split; [done|]. by rewrite Ho, Hr, N.eqb_refl, Z.eqb_refl.
  - by rewrite Hr.
  - by rewrite sql_update_key.
  - intros r Hne. rewrite elem_of_sql_update. split.
    + intros (r0 & Hr0 & ->). destruct ((se_owner_account_id r0 =? o)%N && _) eqn:E; [|done].
      apply andb_true_iff in E as [E%N.eqb_eq _]. cbn in Hne. congruence.
    + intros Hin. exists r. split; [done|]. by rewrite (proj2 (N.eqb_neq _ _) Hne).
Qed.
Lemma create_selection_ok o count now db db' h :
  CreateWalletSelection o count now db = Ok (db', h) → header_written o count 0 h db db'.
Proof.
  intros H. unfold CreateWalletSelection, put_selections in H. cbv zeta in H. tx_inv.
  match goal with Hn : negb (owns_selection o db) = true |- _ => apply negb_true_iff in Hn; rename Hn into Hno end. constructor; cbn; try done.
  - apply elem_of_app. right. by apply list_elem_of_singleton.
  - intros Hnd. rewrite fmap_app. apply NoDup_app. split; [done|]. split; [|apply NoDup_singleton].
    intros k (r & -> & Hr)%list_elem_of_fmap Hk%list_elem_of_singleton. cbn in Hk.
    assert (owns_selection o db = true) by (apply owns_row; by exists r). congruence.
  - intros r Hne. rewrite elem_of_app, list_elem_of_singleton. split; [|by left]. intros [?| ->]; [done|]. done.
Qed.
Lemma write_selection_ok o current count expected now db db' h :
  write_selection o current count expected now db = Ok (db', h) → (current = None → expected = 0) →
  header_written o count expected h db db'.
Proof.
  intros H He. unfold write_selection in H. destruct current as [row|].
  - unfold cw_on_no_rows in H. destruct (UpdateWalletSelection _ _ _ _ db) as [[d r]|e] eqn:E; [|by destruct e]. injection H as <- <-.
    by eapply update_selection_ok.
  - rewrite He by done. destruct (CreateWalletSelection _ _ _ db) as [[d r]|e] eqn:E; [|by destruct (walletSelectionConstraint _ _)].
    injection H as <- <-. by eapply create_selection_ok.
Qed.

(** ** Removals *)
Lemma removed_items_ok l old removed :
  removed_items l old = Ok removed →
  (∀ i, i ∈ removed → i ∈ old ∧ sit_wallet_id i ∉ (win_wallet_id <$> l))
  ∧ ∀ i, i ∈ old → i ∈ removed ∨ ∃ s, s ∈ l ∧ win_wallet_id s = sit_wallet_id i ∧ win_address s = sit_address i.
Proof.
  revert removed. induction old as [|i old IH]; intros removed H; cbn [removed_items] in H.
  { injection H as <-. split; by intros ? ?%not_elem_of_nil. }
  destruct (list_find _ l) as [[n s]|] eqn:E; tx_inv.
  - apply list_find_Some in E as (Hs & Hw & _). apply list_elem_of_lookup_2 in Hs. bool_prop.
    match goal with Hr : removed_items _ _ = Ok _ |- _ => apply IH in Hr as [H1 H2] end. split.
    + intros j Hj. destruct (H1 j Hj). split; [by right|done].
    + intros j [->|Hj]%elem_of_cons; [right; by exists s|auto].
  - apply list_find_None in E. rewrite Forall_forall in E.
    match goal with Hr : removed_items _ _ = Ok _ |- _ => apply IH in Hr as [H1 H2] end. split.
    + intros j [->|Hj]%elem_of_cons; [split; [by left|]|destruct (H1 j Hj); split; [by right|done]].
      intros (s & Hs & Hin)%list_elem_of_fmap. by apply (E s).
    + intros j [->|Hj]%elem_of_cons; [left; by left|]. destruct (H2 j Hj) as [?|?]; [left; by right|by right].
Qed.
Lemma no_blockers o ids db w :
  ListWalletRetirementBlockers_query o ids db = [] → w ∈ ids → blockers_of o w db = [].
Proof.
  intros H Hw. destruct (blockers_of o w db) as [|reason l] eqn:E; [done|]. exfalso.
  assert (Build_WalletRetirementBlocker w reason ∈ ListWalletRetirementBlockers_query o ids db) as Hin.
  { apply sort_by_elem, elem_of_remove_dups, list_elem_of_bind. exists w. split; [rewrite E; by left|]. by apply elem_of_remove_dups. }
  rewrite H in Hin. by apply not_elem_of_nil in Hin.
Qed.
Lemma unblocked o w db :
  blockers_of o w db = [] →
  (∀ reason, (o, w, reason) ∉ sl_holds (w_selections db))
  ∧ (∀ a, a ∈ w_attempts db → ca_wallet_id a = w → open_attempt (ca_state a) = false)
  ∧ ∀ c, c ∈ w_connections db → cn_wallet_id c = w → cn_warning_code c ≠ unknownCreateOutcomeWarning.
Proof.
  unfold blockers_of. intros (H1 & (H2 & (H3 & H4)%app_eq_nil)%app_eq_nil)%app_eq_nil. apply fmap_nil_inv in H1, H2, H3, H4. split_and!.
  - intros reason Hin. assert ((o, w, reason) ∈ ([] : list (N * Z * string))) as []%not_elem_of_nil.
    rewrite <- H1. apply elem_of_sql_many. cbn. by rewrite N.eqb_refl, Z.eqb_refl.
  - intros a Ha Hw. unfold open_attempt. apply orb_false_iff. split.
    + destruct (attempt_active (ca_state a)) eqn:E; [|done]. assert (a ∈ ([] : list attempt_row)) as []%not_elem_of_nil.
      rewrite <- H2. apply elem_of_sql_many. by rewrite Hw, Z.eqb_refl, E.
    + apply bool_decide_eq_false. intros E. assert (a ∈ ([] : list attempt_row)) as []%not_elem_of_nil.
      rewrite <- H3. apply elem_of_sql_many. by rewrite Hw, Z.eqb_refl, bool_decide_eq_true_2.
  - intros c Hc Hw E. assert (c ∈ ([] : list connection_row)) as []%not_elem_of_nil.
    rewrite <- H4. apply elem_of_sql_many. by rewrite Hw, Z.eqb_refl, bool_decide_eq_true_2.
Qed.

(** ** Inputs *)
Lemma normalize_selected_ok l ids addresses seen :
  normalize_selected l ids addresses = Ok seen →
  NoDup (win_wallet_id <$> l) ∧ (∀ i, i ∈ l → win_wallet_id i ∉ ids) ∧ ∀ w, w ∈ seen.1 ↔ w ∈ ids ∨ w ∈ (win_wallet_id <$> l).
Proof.
  revert ids addresses. induction l as [|i l IH]; intros ids addresses H; cbn [normalize_selected] in H.
  { injection H as <-. cbn. split; [constructor|]. split; [by intros ? ?%not_elem_of_nil|]. set_solver. }
  tx_inv. bool_prop.
  match goal with Hn : normalize_selected _ _ _ = Ok _ |- _ => apply IH in Hn as (J1 & J2 & J3) end. cbn. split_and!.
  - apply NoDup_cons. split; [|done]. intros (j & Hw & Hj)%list_elem_of_fmap. apply (J2 j Hj). set_solver.
  - intros j [->|Hj]%elem_of_cons; [done|]. pose proof (J2 j Hj). set_solver.
  - intros w. rewrite J3, elem_of_cons. set_solver.
Qed.
Lemma normalize_retiring_ok l sids saddrs ids addresses u :
  normalize_retiring l sids saddrs ids addresses = Ok u → ∀ i, i ∈ l → wri_wallet_id i ∉ sids.
Proof.
  revert ids addresses. induction l as [|j l IH]; intros ids addresses H i; [by intros ?%not_elem_of_nil|]. cbn [normalize_retiring] in H.
  cbv zeta in H. tx_inv. bool_prop. intros [->|Hi]%elem_of_cons; [done|eauto].
Qed.
Lemma normalize_inputs_ok l retiring_ u :
  normalizeWalletSelectionInputs l retiring_ = Ok u →
  NoDup (win_wallet_id <$> l) ∧ Z.of_nat (length l) ≤ MaximumWalletSelectionItems
  ∧ ∀ i, i ∈ retiring_ → wri_wallet_id i ∉ (win_wallet_id <$> l).
Proof.
  intros H. unfold normalizeWalletSelectionInputs in H. tx_inv. bool_prop.
  match goal with Hn : normalize_selected _ _ _ = Ok _ |- _ => apply normalize_selected_ok in Hn as (J1 & _ & J3) end. split; [done|]. split; [done|].
  intros i Hi Hw. match goal with Hr : normalize_retiring _ _ _ _ _ = Ok _ |- _ => pose proof (normalize_retiring_ok _ _ _ _ _ _ Hr i Hi) as Hno end.
  apply Hno, J3. by right.
Qed.

(** ** The whole transaction *)
Record replaced (o : N) (req : ReplaceWalletSelectionRequest) (now : Z) (v : WalletSelection) (db db' : WDB) : Prop := {
  rp_wallets : wallet_part db' = wallet_part db;
  rp_inputs : NoDup (win_wallet_id <$> rq_selected_items req) ∧ Z.of_nat (length (rq_selected_items req)) ≤ MaximumWalletSelectionItems
    ∧ ∀ i, i ∈ rq_retiring_wallets req → wri_wallet_id i ∉ (win_wallet_id <$> rq_selected_items req);
  rp_expected : match GetWalletSelectionForUpdate o db with Some row => se_revision row | None => 0 end = rq_expected_revision req;
  rp_header : ∃ h, h ∈ headers db' ∧ se_owner_account_id h = o ∧ se_revision h = rq_expected_revision req + 1
    ∧ loadWalletSelection h db' = Ok v;
  rp_header_key : NoDup (se_owner_account_id <$> headers db) → NoDup (se_owner_account_id <$> headers db');
  rp_headers : ∀ r, se_owner_account_id r ≠ o → r ∈ headers db' ↔ r ∈ headers db;
  rp_items : items db' = sql_delete (λ r, (sit_owner_account_id r =? o)%N) (items db) ++ item_rows o 1 now (rq_selected_items req);
  rp_item_key : item_key db → item_key db';
  rp_others : ∀ o', o' ≠ o → sql_many (of_owner o') (retirements db') = sql_many (of_owner o') (retirements db);
  rp_key : NoDup (retirement_key <$> retirements db) → NoDup (retirement_key <$> retirements db');
  (** a wallet that was selected *)
  rp_left : ∀ w a, owns_selection o db = true → item_key db → selected db o w a →
    (∃ i, i ∈ rq_selected_items req ∧ win_wallet_id i = w ∧ win_address i = a)
    ∨ (w ∉ (win_wallet_id <$> rq_selected_items req)) ∧ blockers_of o w db = []
      ∧ (WalletNeedsRetirement w a db = true → retiring db' o w a ∨ ∃ a', retiring db o w a');
  (** a wallet that retires afterwards *)
  rp_retiring : ∀ w a, retiring db' o w a →
    (w ∉ (win_wallet_id <$> rq_selected_items req))
    ∧ (retiring db o w a
       ∨ WalletNeedsRetirement w a db = true ∧ blockers_of o w db = []
         ∧ (selected db o w a ∨ ∃ i, i ∈ rq_retiring_wallets req ∧ wri_wallet_id i = w ∧ wri_address i = a));
  (** a wallet that was retiring and still has something to clean up *)
  rp_kept : ∀ w a, NoDup (retirement_key <$> retirements db) → retiring db o w a → WalletNeedsRetirement w a db = true →
    retiring db' o w a ∨ ∃ i, i ∈ rq_selected_items req ∧ win_wallet_id i = w ∧ win_address i = a }.
Lemma listed_items o db i : i ∈ ListWalletSelectionItems o db ↔ i ∈ items db ∧ sit_owner_account_id i = o.
Proof. unfold ListWalletSelectionItems. rewrite sort_by_elem, elem_of_sql_many, N.eqb_eq. tauto. Qed.
Lemma elem_of_sorted_set (l : list Z) w : w ∈ sort_by Z.leb (elements (list_to_set l : gset Z)) ↔ w ∈ l.
Proof. by rewrite sort_by_elem, elem_of_elements, elem_of_list_to_set. Qed.
Lemma no_removal_blocked o ids db blockers :
  match ids with [] => Ok [] | _ :: _ => listWalletRetirementBlockers o ids db end = Ok blockers →
  match blockers with [] => Ok tt | b :: _ => Err (WalletSelectionRetirementBlockedError (wb_wallet_id b) (wb_reason_code b)) end = Ok tt →
  ∀ w, w ∈ ids → blockers_of o w db = [].
Proof.
  intros Hb Hn w Hw. destruct blockers; [|done]. destruct ids as [|x ids]; [by apply not_elem_of_nil in Hw|].
  unfold listWalletRetirementBlockers in Hb. cbv zeta in Hb. tx_inv. by eapply no_blockers.
Qed.
Lemma retiring_eq db db' o w a : retirements db' = retirements db → retiring db' o w a ↔ retiring db o w a.
Proof. intros H. rewrite !retiring_row. by rewrite H. Qed.
(** The steps of the transaction, put together. *)
Lemma replaced_by_steps o req now v h removed db db1 db2 db3 db4 db5 db' u1 u2 u3 u4 u5
    (ids := win_wallet_id <$> rq_selected_items req) :
  NoDup (retirement_key <$> retirements db) →
  (NoDup ids ∧ Z.of_nat (length (rq_selected_items req)) ≤ MaximumWalletSelectionItems
    ∧ ∀ i, i ∈ rq_retiring_wallets req → wri_wallet_id i ∉ ids) →
  match GetWalletSelectionForUpdate o db with Some row => se_revision row | None => 0 end = rq_expected_revision req →
  header_written o (Z.of_nat (length (rq_selected_items req))) (rq_expected_revision req) h db db1 →
  (∀ i, i ∈ removed → (i ∈ items db ∧ sit_owner_account_id i = o) ∧ sit_wallet_id i ∉ ids) →
  (owns_selection o db = true → ∀ i, i ∈ items db → sit_owner_account_id i = o →
     i ∈ removed ∨ ∃ s, s ∈ rq_selected_items req ∧ win_wallet_id s = sit_wallet_id i ∧ win_address s = sit_address i) →
  item_key db →
  (∀ w, w ∈ (sit_wallet_id <$> removed) ++ (wri_wallet_id <$> rq_retiring_wallets req) → blockers_of o w db = []) →
  retire_removed o (se_revision h) now removed db1 = Ok (db2, u1) →
  retire_requested o (se_revision h) now (rq_retiring_wallets req) db2 = Ok (db3, u2) →
  reselect o (rq_selected_items req) db3 = Ok (db4, u3) →
  DeleteWalletSelectionItems o db4 = Ok (db5, u4) →
  create_items o 1 now (rq_selected_items req) db5 = Ok (db', u5) →
  loadWalletSelection h db' = Ok v → replaced o req now v db db'.
Proof.
  intros Hnd Hin Hexp Hw Hrem Hold Hik Hblock H1 H2 H3 H4 H5 Hload.
  apply retire_removed_retires in H1 as [R1 E1].
  2:{ intros i j Hi Hj Hij. apply Hrem in Hi as [[Hi Hio] _], Hj as [[Hj Hjo] _]. by rewrite (Hik i j) by congruence. }
  apply retire_requested_retires in H2 as R2.
  assert (NoDup (retirement_key <$> retirements db3)) as Hnd3 by (apply R2, R1; by rewrite (hw_retirements _ _ _ _ _ _ Hw)).
  apply reselect_ok in H3 as [R3 A3]; [|apply Hin|done]. fold ids in R3.
  apply delete_items_ok in H4 as (W4 & T4 & Rt4 & I4 & K4). apply create_items_ok in H5 as (W5 & T5 & Rt5 & I5 & K5).
  pose proof (hw_wallets _ _ _ _ _ _ Hw) as W0.
  assert (∀ w a, retiring db1 o w a ↔ retiring db o w a) as Hr1 by (intros; apply retiring_eq, Hw).
  assert (∀ w a, WalletNeedsRetirement w a db1 = WalletNeedsRetirement w a db) as N1 by (intros; by apply needs_same).
  assert (∀ w a, WalletNeedsRetirement w a db2 = WalletNeedsRetirement w a db) as N2 by (intros; rewrite <- N1; by apply needs_same, R1).
  assert (∀ w a, retiring db' o w a ↔ retiring db3 o w a ∧ w ∉ ids) as Hlast.
  { intros w a. rewrite (retiring_eq db4) by congruence. apply R3. }
  assert (∀ w a, retiring db2 o w a → WalletNeedsRetirement w a db = true → retiring db3 o w a) as Hk2.
  { intros w a Hr Hn. apply R2; [done|by rewrite N2]. }
  assert (items db4 = items db) as I0 by (rewrite (rs_items _ _ _ _ R3), (re_items _ _ _ _ R2), (re_items _ _ _ _ R1); apply Hw).
  assert (headers db' = headers db1) as T0 by (rewrite T5, T4, (rs_headers _ _ _ _ R3), (re_headers _ _ _ _ R2); apply R1).
  constructor.
  - rewrite W5, W4, (rs_wallets _ _ _ _ R3), (re_wallets _ _ _ _ R2), (re_wallets _ _ _ _ R1). done.
  - done.
  - done.
  - exists h. rewrite T0. split; [apply Hw|]. split; [apply Hw|]. split; [apply Hw|done].
  - rewrite T0. apply Hw.
  - rewrite T0. apply Hw.
  - by rewrite I5, I4, I0.
  - intros _. apply K5, K4. intros r r'. rewrite I0. apply Hik.
  - intros o' Ho. rewrite Rt5, Rt4, (rs_others _ _ _ _ R3), (re_others _ _ _ _ R2), (re_others _ _ _ _ R1) by done. by rewrite (hw_retirements _ _ _ _ _ _ Hw).
  - intros _. rewrite Rt5, Rt4. by apply R3.
  - intros w a Hown _ (i & Hi & Hio & <- & <-)%selected_row. destruct (Hold Hown i Hi Hio) as [Hr|Hs]; [right|by left].
    destruct (Hrem i Hr) as [_ Hni]. split; [done|]. split; [apply Hblock, elem_of_app; left; by apply list_elem_of_fmap_2|].
    intros Hn. destruct (E1 i Hr) as [Hret|[a' Ha']]; [by rewrite N1| |right; exists a'; by apply Hr1]. left. apply Hlast. eauto.
  - intros w a [Hr3 Hni]%Hlast. split; [done|]. destruct (re_origin _ _ _ _ R2 _ _ Hr3) as [Hr2|[(i & Hi & <- & <-) Hn]].
    + destruct (re_origin _ _ _ _ R1 _ _ Hr2) as [Hr1'|[(i & Hi & <- & <-) Hn]]; [left; by apply Hr1|right]. rewrite <- N1. split; [done|].
      split; [apply Hblock, elem_of_app; left; by apply list_elem_of_fmap_2|]. left. apply selected_row. exists i. destruct (Hrem i Hi) as [[? ?] _]. done.
    + right. rewrite <- N2. split; [done|]. split; [apply Hblock, elem_of_app; right; by apply list_elem_of_fmap_2|]. right. by exists i.
  - intros w a _ Hr Hn. assert (retiring db3 o w a) as Hr3. { apply Hk2; [|done]. apply R1; [by apply Hr1|by rewrite N1]. }
    destruct (decide (w ∈ ids)) as [(i & -> & Hi)%list_elem_of_fmap|Hni]; [right|left; by apply Hlast]. exists i. split; [done|]. split; [done|].
    symmetry. by apply A3.
Qed.
Lemma replace_ok clock req db db' v :
  NoDup (retirement_key <$> retirements db) → item_key db → ReplaceWalletSelection clock req db = Ok (db', v) →
  ∃ o, walletSelectionOwner (rq_owner_account_id req) = Ok o ∧ replaced o req (canonicalNow clock (rq_now req)) v db db'.
Proof.
  intros Hnd Hik H. unfold ReplaceWalletSelection in H. cbv zeta in H. tx_inv.
  match goal with Ho : walletSelectionOwner (rq_owner_account_id req) = Ok ?x |- _ => exists x; split; [done|]; set (o := x) in * end.
  match goal with Hi : normalizeWalletSelectionInputs _ _ = Ok _ |- _ => apply normalize_inputs_ok in Hi as Hin end.
  match goal with Hr : removed_items _ _ = Ok ?x |- _ => apply removed_items_ok in Hr as [Hrem Hold]; set (removed := x) in * end.
  match goal with Hb : match sort_by _ _ with _ => _ end = Ok _, Hn : match _ with _ => _ end = Ok ?u |- _ =>
    destruct u; pose proof (no_removal_blocked _ _ _ _ Hb Hn) as Hblock end.
  match goal with He : match GetWalletSelectionForUpdate o db with Some row => se_revision row =? _ | None => _ end = true |- _ => rename He into Hexp end.
  match goal with Hw : write_selection _ _ _ _ _ _ = Ok (_, ?x) |- _ => set (h := x) in *; apply write_selection_ok in Hw; [rename Hw into Hwr|] end.
  2:{ intros E. rewrite E in Hexp. by apply Z.eqb_eq in Hexp. }
  eapply replaced_by_steps; [exact Hnd|exact Hin| |exact Hwr| | |exact Hik| |eassumption..].
  - destruct (GetWalletSelectionForUpdate o db); apply Z.eqb_eq in Hexp; done.
  - intros i Hi. destruct (Hrem i Hi) as [Hi' Hni]. split; [|done].
    destruct (GetWalletSelectionForUpdate o db); [by apply listed_items|by apply not_elem_of_nil in Hi'].
  - intros (row & Hrow & Hro)%owns_row i Hi Hio. apply Hold.
    destruct (sql_one_is_Some (λ r, (se_owner_account_id r =? o)%N) (headers db) row Hrow) as [x Hx]; [by apply N.eqb_eq|].
    unfold GetWalletSelectionForUpdate. rewrite Hx. by apply listed_items.
  - intros w Hw. apply Hblock. by apply elem_of_sorted_set.
Qed.
End Replace.
