(* ===== verification/SelectionSystem.v ===== *)
(** * Wallet selections: every reachable database

    Replacing a selection and completing a retirement keep [OInv], as the connection
    operations do; so it holds in every database reached from the empty one. *)

From S2P Require Import Prelude Sql CashOutTypes ConnectionTypes ConnectionStore ConnectionInv ConnectionLink ConnectionOps SelectionInv Selection.
From S2P Require Import SelectionReplace.
From stdpp Require Import base tactics option list list_numbers sorting strings gmap relations.
From Stdlib Require Import ZArith Lia Ascii.
#[local] Open Scope Z_scope.

Section System.
Context {UL : UuidLib} {SL : SolanaLib} (owner_of : Z → N).
Local Abbreviation OInv := (OInv owner_of).
Local Abbreviation selection_tables := (selection_tables owner_of).

(** ** Reading one owner's rows *)
Lemma load_same h db db' :
  sql_many (λ r, (sit_owner_account_id r =? se_owner_account_id h)%N) (items db')
    = sql_many (λ r, (sit_owner_account_id r =? se_owner_account_id h)%N) (items db) →
  sql_many (of_owner (se_owner_account_id h)) (retirements db') = sql_many (of_owner (se_owner_account_id h)) (retirements db) →
  loadWalletSelection h db' = loadWalletSelection h db.
Proof.
  intros Hi Hr. unfold loadWalletSelection, ListWalletSelectionItems, ListWalletRetirements.
  change (λ r, (rt_owner_account_id r =? se_owner_account_id h)%N) with (of_owner (se_owner_account_id h)). by rewrite Hi, Hr.
Qed.
Lemma of_owner_elem o (t : list retirement_row) r : r ∈ sql_many (of_owner o) t ↔ r ∈ t ∧ rt_owner_account_id r = o.
Proof. rewrite elem_of_sql_many. unfold of_owner. rewrite N.eqb_eq. tauto. Qed.
Lemma retiring_of_owner db db' o w a :
  sql_many (of_owner o) (retirements db') = sql_many (of_owner o) (retirements db) → retiring db' o w a → retiring db o w a.
Proof.
  intros H (r & Hr & Ho & Hw & Ha)%retiring_row. apply retiring_row. exists r. split; [|done].
  apply (of_owner_elem o). rewrite <- H. by apply of_owner_elem.
Qed.

(** ** What is managed needs retirement *)
Lemma managed_needs db w c : tables db → v_conn (view db w) = Some c → v_managed (view db w) = true →
  WalletNeedsRetirement w (cn_address c) db = true.
Proof.
  intros Ht Hc Hm. unfold WalletNeedsRetirement, v_managed in *. rewrite Hc in Hm. apply orb_true_iff in Hm as [Hm|Hm].
  - by rewrite (proj2 (connection_in_use_view db w (cn_address c) Ht)) by eauto.
  - by rewrite has_credential_view, Hm, orb_true_r.
Qed.
Lemma used_managed db w a :
  OInv db → connection_in_use w a db = true ∨ has_credential w db = true → w ∈ managed_wallets (owner_of w) db.
Proof.
  intros I Hu. assert (∃ c, v_conn (view db w) = Some c ∧ v_managed (view db w) = true) as (c & Hc & Hm).
  { destruct Hu as [(c & Hc & _ & Hu)%connection_in_use_view|Hu]; [|apply I|].
    - exists c. split; [done|]. unfold v_managed. by rewrite Hc, Hu.
    - rewrite has_credential_view in Hu. destruct (sd_credential _ (oi_sound _ _ I w) Hu) as [c Hc]. exists c.
      split; [done|]. unfold v_managed. by rewrite Hu, orb_true_r. }
  eapply managed_listed; [apply I|exact Hc|done|done|]. by apply (oi_managed _ _ I).
Qed.
Lemma unblocked_needs db o w a :
  blockers_of o w db = [] → WalletNeedsRetirement w a db = true → connection_in_use w a db = true ∨ has_credential w db = true.
Proof.
  intros (_ & Ho & _)%unblocked Hn. unfold WalletNeedsRetirement in Hn. apply orb_true_iff in Hn as [Hn|Hn]; [by apply orb_true_iff in Hn|].
  exfalso. apply existsb_elem in Hn as (x & Hx & Hp). apply andb_true_iff in Hp as [[Hw%Z.eqb_eq _]%andb_true_iff Hp].
  by rewrite (Ho x Hx Hw) in Hp.
Qed.

(** ** Replacing *)
Section Replaced.
Context (db db' : WDB) (o : N) (req : ReplaceWalletSelectionRequest) (now : Z) (v : WalletSelection).
Context (HI : OInv db) (HR : replaced o req now v db db').
Context (Hselected : ∀ i, i ∈ rq_selected_items req → owner_of (win_wallet_id i) = o).
Context (Hretiring : ∀ i, i ∈ rq_retiring_wallets req → owner_of (wri_wallet_id i) = o).
Lemma replaced_items r :
  r ∈ items db' ↔ (r ∈ items db ∧ sit_owner_account_id r ≠ o) ∨ r ∈ item_rows o 1 now (rq_selected_items req).
Proof using HR. rewrite (rp_items _ _ _ _ _ _ HR), elem_of_app, elem_of_sql_delete, N.eqb_neq. tauto. Qed.
Lemma replaced_other_items o' : o' ≠ o →
  sql_many (λ r, (sit_owner_account_id r =? o')%N) (items db') = sql_many (λ r, (sit_owner_account_id r =? o')%N) (items db).
Proof using HR.
  intros Hne. rewrite (rp_items _ _ _ _ _ _ HR), sql_many_app, sql_many_delete by (intros r Hr%N.eqb_eq; apply N.eqb_neq; congruence).
  rewrite (sql_many_none _ (item_rows _ _ _ _)); [apply app_nil_r|]. intros r [Hr _]%elem_of_item_rows. apply N.eqb_neq. congruence.
Qed.
Lemma replaced_selected_other o' w a : o' ≠ o → selected db' o' w a ↔ selected db o' w a.
Proof using HR.
  intros Hne. rewrite !selected_row. setoid_rewrite replaced_items. split.
  - intros (r & [[Hr _]|[Ho _]%elem_of_item_rows] & Hro & ?); [by exists r|congruence].
  - intros (r & Hr & Hro & ?). exists r. split; [|done]. left. split; congruence.
Qed.
Lemma replaced_selected i : i ∈ rq_selected_items req → selected db' o (win_wallet_id i) (win_address i).
Proof using HR.
  intros (r & Hr & Ho & Hw & Ha)%(item_rows_elem o 1 now). apply selected_row. exists r. split; [|done]. apply replaced_items. by right.
Qed.
Lemma replaced_selects w a : selected db' o w a → ∃ i, i ∈ rq_selected_items req ∧ win_wallet_id i = w ∧ win_address i = a.
Proof using HR.
  intros (r & [[_ Hne]|[_ (i & Hi & Hw & Ha)]%elem_of_item_rows]%replaced_items & Ho & <- & <-)%selected_row; [done|]. by exists i.
Qed.
Lemma replaced_retiring_other o' w a : o' ≠ o → retiring db' o' w a ↔ retiring db o' w a.
Proof using HR. intros Hne. pose proof (rp_others _ _ _ _ _ _ HR o' Hne). split; by apply retiring_of_owner. Qed.
Lemma replaced_owns o' : owns_selection o' db' = true ↔ o' = o ∨ owns_selection o' db = true.
Proof using HR.
  rewrite !owns_row. destruct (rp_header _ _ _ _ _ _ HR) as (h & Hh & Ho & _). split.
  - intros (r & Hr & <-). destruct (decide (se_owner_account_id r = o)) as [|Hne]; [by left|right]. exists r. split; [|done].
    by apply (rp_headers _ _ _ _ _ _ HR).
  - intros [->|(r & Hr & <-)]; [by exists h|]. destruct (decide (se_owner_account_id r = o)) as [He|Hne]; [exists h; by rewrite He|].
    exists r. split; [|done]. by apply (rp_headers _ _ _ _ _ _ HR).
Qed.
Lemma replaced_selection_tables : selection_tables db'.
Proof using All.
  pose proof (oi_selections _ _ HI) as S. constructor.
  - apply HR, S.
  - intros r Hr. apply replaced_owns. apply replaced_items in Hr as [[Hr _]|[Ho _]%elem_of_item_rows]; [right; by apply S|by left].
  - intros r Hr. apply replaced_owns. destruct (decide (rt_owner_account_id r = o)) as [|Hne]; [by left|right]. apply S.
    apply (of_owner_elem (rt_owner_account_id r)). rewrite <- (rp_others _ _ _ _ _ _ HR) by done. by apply of_owner_elem.
  - exact (rp_item_key _ _ _ _ _ _ HR (st_item_key _ _ S)).
  - apply HR, S.
  - intros r [[Hr _]|[-> (i & Hi & -> & _)]%elem_of_item_rows]%replaced_items; [by apply S|]. symmetry. auto.
  - intros r Hr. assert (retiring db' (rt_owner_account_id r) (rt_wallet_id r) (rt_address r)) as Hret by (apply retiring_row; by exists r).
    destruct (decide (rt_owner_account_id r = o)) as [Ho|Hne].
    + rewrite Ho in *. apply HR in Hret as [_ [Hold|(_ & _ & [Hold|(i & Hi & <- & _)])]];
        [by eapply retiring_owner|by eapply selected_owner|symmetry; auto].
    + apply replaced_retiring_other in Hret; [|done]. by eapply retiring_owner.
  - intros h Hh. destruct (decide (se_owner_account_id h = o)) as [Ho|Hne].
    + destruct (rp_header _ _ _ _ _ _ HR) as (h' & Hh' & Ho' & _ & Hload). exists v.
      rewrite (NoDup_key_inj se_owner_account_id (headers db') h h'); [done| |done|done|congruence]. apply HR, S.
    + rewrite (load_same h db); [apply S; by apply (rp_headers _ _ _ _ _ _ HR)|by apply replaced_other_items|by apply HR].
Qed.
(** A wallet that is managed stays listed. *)
Lemma replaced_listed w a : WalletNeedsRetirement w a db = true → listed db o w a → listed db' o w a.
Proof using HI HR.
  clear Hselected Hretiring. pose proof (oi_selections _ _ HI) as S. intros Hn [Hs|Hr].
  - assert (owns_selection o db = true) as Hown by (apply selected_row in Hs as (r & Hr & <- & _); by apply S).
    destruct (rp_left _ _ _ _ _ _ HR w a Hown (st_item_key _ _ S) Hs) as [(i & Hi & <- & <-)|(_ & _ & Hret)]; [left; by apply replaced_selected|].
    destruct (Hret Hn) as [?|[a' Ha']]; [by right|]. exfalso. by eapply not_both.
  - destruct (rp_kept _ _ _ _ _ _ HR w a (st_retirement_key _ _ S) Hr Hn) as [?|(i & Hi & <- & <-)]; [by right|left; by apply replaced_selected].
Qed.
Lemma replaced_managed o' : managed_wallets o' db' ⊆ managed_wallets o' db.
Proof using All.
  pose proof (rp_wallets _ _ _ _ _ _ HR) as W. pose proof (wallet_part_eq _ _ W) as (W1 & W2 & _).
  assert (∀ w a, connection_in_use w a db' = connection_in_use w a db ∧ has_credential w db' = has_credential w db) as Hsame.
  { intros. unfold connection_in_use, has_credential. by rewrite W1, W2. }
  intros w Hw. apply elem_of_managed in Hw. destruct (decide (o' = o)) as [->|Hne].
  - assert (owner_of w = o) as <-.
    { destruct Hw as [(a & Hs & _)|[a Hr]]; symmetry; [by eapply selected_owner, Hs; apply replaced_selection_tables
        |by eapply retiring_owner, Hr; apply replaced_selection_tables]. }
    destruct Hw as [(a & Hs & Hu)|[a [_ [Hr|(Hn & Hb & _)]]%HR]].
    + destruct (Hsame w a) as [E1 E2]. rewrite E1, E2 in Hu. by eapply used_managed.
    + apply elem_of_managed. right. by exists a.
    + apply (used_managed db w a HI). by eapply unblocked_needs.
  - apply elem_of_managed. destruct Hw as [(a & Hs & Hu)|[a Hr]]; [left|right].
    + exists a. destruct (Hsame w a) as [E1 E2]. rewrite E1, E2 in Hu. split; [by apply replaced_selected_other|done].
    + exists a. by apply replaced_retiring_other.
Qed.
Lemma OInv_replaced : OInv db'.
Proof using All.
  pose proof (rp_wallets _ _ _ _ _ _ HR) as W. constructor.
  - eapply tables_same, HI. done.
  - apply replaced_selection_tables.
  - intros w. rewrite (view_same db db') by done. apply HI.
  - intros w c. rewrite (view_same db db') by done. intros Hc Ha. pose proof (oi_attempt _ _ HI w c Hc Ha) as Hs.
    destruct (decide (owner_of w = o)) as [Ho|Hne]; [|by apply replaced_selected_other]. rewrite Ho in *.
    assert (owns_selection o db = true) as Hown by (apply selected_row in Hs as (r & Hr & <- & _); by apply HI).
    destruct (rp_left _ _ _ _ _ _ HR w _ Hown (st_item_key _ _ (oi_selections _ _ HI)) Hs) as [(i & Hi & Hw & <-)|(_ & (_ & Hb & _)%unblocked & _)].
    + rewrite <- Hw. by apply replaced_selected.
    + exfalso. destruct Ha as [x Hx]. apply view_act in Hx as (Hx & Hxw & Hst); [|apply HI]. specialize (Hb x Hx Hxw).
      unfold open_attempt in Hb. by rewrite Hst in Hb.
  - intros w c. rewrite (view_same db db') by done. intros Hc Hm. pose proof (oi_managed _ _ HI w c Hc Hm) as Hl.
    destruct (decide (owner_of w = o)) as [Ho|Hne].
    + rewrite Ho in *. apply replaced_listed; [|done]. apply managed_needs; [apply HI|done..].
    + destruct Hl as [Hl|Hl]; [left; by apply replaced_selected_other|right; by apply replaced_retiring_other].
  - intros o'. pose proof (subseteq_size _ _ (replaced_managed o')). pose proof (oi_bound _ _ HI o'). unfold CountManagedWalletConnections in *. lia.
Qed.
End Replaced.
Lemma OInv_replace clock req db db' v o :
  OInv db → ReplaceWalletSelection clock req db = Ok (db', v) → walletSelectionOwner (rq_owner_account_id req) = Ok o →
  (∀ i, i ∈ rq_selected_items req → owner_of (win_wallet_id i) = o) →
  (∀ i, i ∈ rq_retiring_wallets req → owner_of (wri_wallet_id i) = o) → OInv db'.
Proof.
  intros I H Ho Hs Hr. pose proof (oi_selections _ _ I) as S.
  destruct (replace_ok clock req db db' v (st_retirement_key _ _ S) (st_item_key _ _ S) H) as (o' & Ho' & HR).
  assert (o' = o) as -> by congruence. by eapply OInv_replaced.
Qed.

(** ** Completing a retirement *)
Lemma mapM_loads {A B} (f : A → result CWError B) l : (∃ k, mapM f l = Ok k) ↔ ∀ x, x ∈ l → ∃ y, f x = Ok y.
Proof.
  induction l as [|x l IH]; [split; [by intros _ ? ?%not_elem_of_nil|by eexists]|]. split.
  - intros [k H]. cbn in H. tx_inv. intros y [->|Hy]%elem_of_cons; [by eexists|]. apply IH; [by eexists|done].
  - intros H. destruct (H x) as [y Hy]; [by left|]. destruct (proj2 IH) as [k Hk]; [intros ? ?; apply H; by right|].
    exists (y :: k). cbn. unfold mbind, result_bind in *. by rewrite Hy, Hk.
Qed.
(** A selection from which only retirements went still loads. *)
Lemma load_fewer h db db' v :
  items db' = items db → (∀ r, r ∈ retirements db' → r ∈ retirements db) →
  loadWalletSelection h db = Ok v → ∃ v', loadWalletSelection h db' = Ok v'.
Proof.
  intros Hi Hr H. unfold loadWalletSelection in *. cbv zeta in *. 
  assert (ListWalletSelectionItems (se_owner_account_id h) db' = ListWalletSelectionItems (se_owner_account_id h) db) as ->
    by (unfold ListWalletSelectionItems; by rewrite Hi).
  tx_inv. match goal with Hm : mapM ?f _ = Ok _ |- _ => assert (∃ k, mapM f (ListWalletRetirements (se_owner_account_id h) db') = Ok k) as [k Hk] end.
  { apply mapM_loads. intros r [Ho Hin]%sort_by_elem%elem_of_sql_many.
    match goal with Hm : mapM ?f ?l = Ok ?k |- _ => apply (proj1 (mapM_loads f l) (ex_intro _ k Hm) r) end.
    apply sort_by_elem, elem_of_sql_many. auto. }
  eexists. unfold mbind, result_bind, require in *.
  match goal with He : _ && _ = true |- _ => rewrite He end.
  match goal with He : load_items _ _ = Ok _ |- _ => rewrite He end. by rewrite Hk.
Qed.
Lemma OInv_complete owner w a db db' u : OInv db → CompleteWalletRetirement owner w a db = Ok (db', u) → OInv db'.
Proof.
  intros I H. unfold CompleteWalletRetirement, beginWalletTransaction in H. tx_inv.
  match goal with Hd : DeleteWalletRetirement ?x _ _ _ = Ok (?d, _) |- _ => rename x into o, Hd into Hdel, d into db' end.
  pose proof (retires_delete _ _ _ _ _ _ Hdel) as R. pose proof (re_wallets _ _ _ _ R) as W. pose proof (oi_selections _ _ I) as S.
  assert (∀ r, r ∈ retirements db' → r ∈ retirements db) as Hsub.
  { unfold DeleteWalletRetirement, put_retirements in Hdel. cbv zeta in Hdel. tx_inv. intros r Hr. cbn in Hr. by apply elem_of_sql_delete in Hr as [_ Hr]. }
  assert (∀ o' w' a', retiring db' o' w' a' → retiring db o' w' a') as Hret.
  { intros o' w' a' (r & Hr & ?)%retiring_row. apply retiring_row. eauto. }
  assert (∀ o' w' a', selected db' o' w' a' ↔ selected db o' w' a') as Hsel.
  { intros. rewrite !selected_row. by rewrite (re_items _ _ _ _ R). }
  constructor.
  - eapply tables_same, I. done.
  - constructor; unfold owns_selection; rewrite ?(re_headers _ _ _ _ R), ?(re_items _ _ _ _ R); try apply S.
    + intros r Hr. apply S. auto.
    + apply R, S.
    + intros r Hr. apply S. auto.
    + intros h Hh. destruct (st_loads _ _ S h Hh) as [v Hv]. by eapply load_fewer, Hv; [apply R|].
  - intros w'. rewrite (view_same db db') by done. apply I.
  - intros w' c. rewrite (view_same db db'), Hsel by done. apply I.
  - intros w' c. rewrite (view_same db db') by done. intros Hc Hm.
    destruct (oi_managed _ _ I w' c Hc Hm) as [Hl|Hl]; [left; by apply Hsel|right].
    destruct (decide (owner_of w' = o)) as [Ho|Hne].
    + rewrite Ho in *. apply R; [done|]. apply managed_needs; [apply I|done..].
    + eapply (retiring_of_owner db' db); [symmetry; by apply R|done].
  - intros o'. pose proof (oi_bound _ _ I o'). assert (managed_wallets o' db' ⊆ managed_wallets o' db) as Hs%subseteq_size.
    { pose proof (wallet_part_eq _ _ W) as (W1 & W2 & _). intros x. rewrite !elem_of_managed. unfold connection_in_use, has_credential.
      rewrite W1, W2. intros [(b & Hb & Hu)|[b Hb]]; [left; exists b; split; [by apply Hsel|done]|right; eauto]. }
    unfold CountManagedWalletConnections in *. lia.
Qed.

(** ** Reachability *)
(** Trades hold wallets and release them. *)
Definition set_holds (holds : list (N * Z * string)) (db : WDB) : WDB :=
  let s := w_selections db in
  set_w_selections {| sl_selections := sl_selections s; sl_items := sl_items s; sl_retirements := sl_retirements s; sl_holds := holds |} db.
Lemma OInv_holds holds db : OInv db → OInv (set_holds holds db).
Proof.
  intros [H1 [S1 S2 S3 S4 S5 S6 S7 S8] H3 H4 H5 H6]. constructor; try done. by apply tables_selections.
Qed.
Inductive ostep : WDB → WDB → Prop :=
| ostep_connection clock op db db' : disciplined db op → commits clock op db db' → ostep db db'
| ostep_replace clock req db db' v o :
    ReplaceWalletSelection clock req db = Ok (db', v) → walletSelectionOwner (rq_owner_account_id req) = Ok o →
    (∀ i, i ∈ rq_selected_items req → owner_of (win_wallet_id i) = o) →
    (∀ i, i ∈ rq_retiring_wallets req → owner_of (wri_wallet_id i) = o) → ostep db db'
| ostep_complete owner w a db db' u : CompleteWalletRetirement owner w a db = Ok (db', u) → ostep db db'
| ostep_holds holds db : ostep db (set_holds holds db).
Definition no_selections : selections := {| sl_selections := []; sl_items := []; sl_retirements := []; sl_holds := [] |}.
Definition o_reachable (db : WDB) : Prop := rtc ostep (empty_wdb no_selections) db.
Lemma OInv_step db db' : ostep db db' → OInv db → OInv db'.
Proof. intros Hs I. destruct Hs; eauto using OInv_connection, OInv_replace, OInv_complete, OInv_holds. Qed.
Lemma OInv_empty : OInv (empty_wdb no_selections).
Proof.
  constructor; [apply WInv_empty| | | | |done].
  - constructor; cbn; try (by intros ? ?%not_elem_of_nil); try apply NoDup_nil_2. by intros ? ? ?%not_elem_of_nil.
  - intros w. constructor; [apply WInv_empty|done|by intros []].
  - done.
  - done.
Qed.
Lemma OInv_reachable db : o_reachable db → OInv db.
Proof. intros H. pose proof OInv_empty as I. revert I. induction H; eauto using OInv_step. Qed.

(** ** Wallets with an unknown outcome *)
Definition unknown_selected (db : WDB) : Prop :=
  ∀ a, a ∈ w_attempts db → ca_state a = ConnectionAttemptStateOutcomeUnknown →
    selected db (owner_of (ca_wallet_id a)) (ca_wallet_id a) (ca_address a).
Lemma unknown_connection clock op db db' :
  OInv db → unknown_selected db → disciplined db op → commits clock op db db' → unknown_selected db'.
Proof.
  intros I U Hd Hc x Hx Hst. destruct (op_lives _ _ _ _ (OInv_WInv _ _ I) Hd Hc) as [w Hl].
  rewrite (selected_same db db') by (by eapply commits_selections).
  destruct (lv_attempts _ _ _ _ Hl x Hx) as [Hin|[Hp|(a & Ha & (_ & Hw & Hadr & _) & _)]]; [by apply U|congruence|].
  destruct (tb_reference _ (oi_tables _ _ I) a (proj1 Ha)) as (c & Hcc & Hca).
  apply view_conn in Hcc; [|apply I]. apply view_act in Ha; [|apply I].
  rewrite Hw, Hadr, <- Hca. apply (oi_attempt _ _ I); [done|by eexists].
Qed.
Lemma unknown_replaced o req now v db db' :
  OInv db → unknown_selected db → replaced o req now v db db' → unknown_selected db'.
Proof.
  intros I U HR a Ha Hst. pose proof (rp_wallets _ _ _ _ _ _ HR) as (_ & _ & W & _)%wallet_part_eq. rewrite W in Ha.
  pose proof (U a Ha Hst) as Hs. destruct (decide (owner_of (ca_wallet_id a) = o)) as [Ho|Hne]; [|by eapply replaced_selected_other].
  rewrite Ho in *. assert (owns_selection o db = true) as Hown by (apply selected_row in Hs as (r & Hr & <- & _); by apply I).
  destruct (rp_left _ _ _ _ _ _ HR _ _ Hown (st_item_key _ _ (oi_selections _ _ I)) Hs) as [(i & Hi & <- & <-)|(_ & (_ & Hb & _)%unblocked & _)].
  - by eapply replaced_selected.
  - exfalso. specialize (Hb a Ha eq_refl). unfold open_attempt in Hb. by rewrite Hst in Hb.
Qed.
Lemma complete_keeps owner w a db db' u :
  CompleteWalletRetirement owner w a db = Ok (db', u) → wallet_part db' = wallet_part db ∧ items db' = items db ∧ headers db' = headers db.
Proof.
  intros H. unfold CompleteWalletRetirement, beginWalletTransaction in H. tx_inv.
  match goal with Hd : DeleteWalletRetirement _ _ _ _ = _ |- _ => apply retires_delete in Hd as R end. split; [apply R|]. split; apply R.
Qed.
Lemma replaced_owned clock req db db' v :
  OInv db → ReplaceWalletSelection clock req db = Ok (db', v) →
  ∃ o, walletSelectionOwner (rq_owner_account_id req) = Ok o ∧ replaced o req (canonicalNow clock (rq_now req)) v db db'.
Proof. intros I. apply replace_ok; [apply (st_retirement_key _ _ (oi_selections _ _ I))|exact (st_item_key _ _ (oi_selections _ _ I))]. Qed.
Lemma unknown_step db db' : ostep db db' → OInv db → unknown_selected db → unknown_selected db'.
Proof.
  intros Hs I U. destruct Hs as [clock op db db' Hd Hc|clock req db db' v o H _ _ _|owner w a db db' u H|holds db].
  - by eapply unknown_connection.
  - destruct (replaced_owned _ _ _ _ _ I H) as (o' & _ & HR). by eapply unknown_replaced.
  - destruct (complete_keeps _ _ _ _ _ _ H) as ((_ & _ & W & _)%wallet_part_eq & It & _). intros x Hx Hst. rewrite W in Hx.
    apply selected_row. rewrite It. apply selected_row. by apply U.
  - exact U.
Qed.
Lemma older_ostep db db' : ostep db db' → OInv db → older db db'.
Proof.
  assert (∀ d d', w_attempts d' = w_attempts d → older d d') as Hsame.
  { intros d d' E x Hx. apply attempt_stays. by rewrite E. }
  intros Hs I. destruct Hs as [clock op db db' Hd Hc|clock req db db' v o H _ _ _|owner w a db db' u H|holds db].
  - destruct (op_lives _ _ _ _ (OInv_WInv _ _ I) Hd Hc) as [w Hl]. apply Hl.
  - destruct (replaced_owned _ _ _ _ _ I H) as (o' & _ & HR). apply Hsame. by apply wallet_part_eq, HR.
  - destruct (complete_keeps _ _ _ _ _ _ H) as ((_ & _ & W & _)%wallet_part_eq & _). by apply Hsame.
  - by apply Hsame.
Qed.
Lemma osteps_keep db db' : rtc ostep db db' → OInv db → unknown_selected db → OInv db' ∧ unknown_selected db' ∧ older db db'.
Proof.
  induction 1 as [db|db db1 db2 H1 H2 IH]; intros I U; [done|].
  pose proof (OInv_step _ _ H1 I) as I1. destruct IH as (I2 & U2 & O2); [done|by eapply unknown_step|].
  split; [done|]. split; [done|]. etrans; [by eapply older_ostep|done].
Qed.
Lemma unknown_reachable db : o_reachable db → unknown_selected db.
Proof. intros H. apply (osteps_keep _ _ H OInv_empty). by intros a ?%not_elem_of_nil. Qed.

(** ** Revisions *)
Definition revision_of (o : N) (db : WDB) : Z := match GetWalletSelectionForUpdate o db with Some row => se_revision row | None => 0 end.
Lemma header_of o db h :
  NoDup (se_owner_account_id <$> headers db) → h ∈ headers db → se_owner_account_id h = o → GetWalletSelectionForUpdate o db = Some h.
Proof.
  intros Hnd Hh Ho. unfold GetWalletSelectionForUpdate.
  destruct (sql_one_is_Some (λ r, (se_owner_account_id r =? o)%N) (headers db) h Hh) as [x Hx]; [by apply N.eqb_eq|]. rewrite Hx.
  apply sql_one_Some in Hx as [Hx Hxo%N.eqb_eq]. f_equal. apply (NoDup_key_inj se_owner_account_id (headers db)); congruence.
Qed.
Lemma header_other o db db' :
  NoDup (se_owner_account_id <$> headers db) → NoDup (se_owner_account_id <$> headers db') →
  (∀ r, se_owner_account_id r = o → r ∈ headers db' ↔ r ∈ headers db) → GetWalletSelectionForUpdate o db' = GetWalletSelectionForUpdate o db.
Proof.
  intros H1 H2 H. destruct (GetWalletSelectionForUpdate o db) as [r|] eqn:E.
  - apply sql_one_Some in E as [Hr Hro%N.eqb_eq]. by rewrite (header_of o db' r) by (by try apply H).
  - destruct (GetWalletSelectionForUpdate o db') as [r|] eqn:E'; [|done]. apply sql_one_Some in E' as [Hr Hro%N.eqb_eq].
    apply H in Hr; [|done]. pose proof (sql_one_None _ _ E r Hr) as Hf. cbn in Hf. by rewrite Hro, N.eqb_refl in Hf.
Qed.
Lemma revision_replaced o req now v db db' :
  OInv db → OInv db' → replaced o req now v db db' →
  revision_of o db = rq_expected_revision req ∧ revision_of o db' = rq_expected_revision req + 1
  ∧ ∀ o', o' ≠ o → revision_of o' db' = revision_of o' db.
Proof.
  intros I I' HR. split; [apply HR|]. split.
  - destruct (rp_header _ _ _ _ _ _ HR) as (h & Hh & Ho & Hrev & _). unfold revision_of. by rewrite (header_of o db' h) by (done || apply I').
  - intros o' Hne. unfold revision_of. rewrite (header_other o' db db'); [done|apply I|apply I'|]. intros r Hr. apply HR. congruence.
Qed.
Lemma revision_step o db db' : ostep db db' → OInv db → revision_of o db ≤ revision_of o db'.
Proof.
  intros Hs I. pose proof (OInv_step _ _ Hs I) as I'.
  destruct Hs as [clock op db db' Hd Hc|clock req db db' v o' H _ _ _|owner w a db db' u H|holds db].
  - unfold revision_of, GetWalletSelectionForUpdate. by rewrite (commits_selections _ _ _ _ Hc).
  - destruct (replaced_owned _ _ _ _ _ I H) as (o1 & _ & HR). destruct (revision_replaced _ _ _ _ _ _ I I' HR) as (H1 & H2 & H3).
    destruct (decide (o = o1)) as [->|Hne]; [lia|]. rewrite H3 by done. lia.
  - destruct (complete_keeps _ _ _ _ _ _ H) as (_ & _ & Hh). unfold revision_of, GetWalletSelectionForUpdate. by rewrite Hh.
  - done.
Qed.
Lemma revision_steps o db db' : rtc ostep db db' → OInv db → revision_of o db ≤ revision_of o db'.
Proof.
  induction 1 as [db|db db1 db2 H1 H2 IH]; intros I; [done|]. pose proof (revision_step o _ _ H1 I). pose proof (IH (OInv_step _ _ H1 I)). lia.
Qed.
End System.
