(* ===== verification/SelectionTheorems.v ===== *)
(** * Wallet selections: theorems

    What the selections and the connections of their wallets guarantee together, and a
    concrete run they are used at. *)

From S2P Require Import Prelude Sql CashOutTypes ConnectionTypes ConnectionStore ConnectionInv ConnectionLink ConnectionOps CashOutWorker.
From S2P Require Import ConnectionScenario Selection SelectionInv SelectionReplace SelectionSystem.
From stdpp Require Import base tactics option list list_numbers sorting strings gmap relations.
From Stdlib Require Import ZArith Lia Ascii.
#[local] Open Scope Z_scope.

(** Anything the provider may know of a wallet. *)
Definition has_access (db : WDB) (w : Z) : Prop :=
  (∃ c, c ∈ w_connections db ∧ cn_wallet_id c = w ∧ (cn_state c ≠ ConnectionStateNotConnected ∨ cn_warning_code c ≠ EmptyString))
  ∨ (∃ k, k ∈ w_credentials db ∧ kr_wallet_id k = w) ∨ ∃ a, act db w a.

Section Theorems.
Context {UL : UuidLib} {SL : SolanaLib} (owner_of : Z → N).
Lemma access_managed db w :
  OInv owner_of db → has_access db w → ∃ c, v_conn (view db w) = Some c ∧ v_managed (view db w) = true.
Proof.
  intros I Ha. assert (v_managed (view db w) = true) as Hm.
  { destruct Ha as [(c & Hc & Hw & Hu)|[(k & Hk & Hw)|[a Ha]]].
    - assert (v_conn (view db w) = Some c) as E by (apply view_conn; [apply I|done]). unfold v_managed. rewrite E. apply orb_true_iff. left.
      unfold in_use. apply orb_true_iff. rewrite !negb_true_iff, !bool_decide_eq_false. done.
    - unfold v_managed. apply orb_true_iff. right. rewrite <- has_credential_view. apply existsb_elem. exists k.
      split; [done|by apply Z.eqb_eq].
    - apply (sd_attempt _ (oi_sound _ _ I w)). exists a. apply view_act; [apply I|done]. }
  destruct (v_conn (view db w)) as [c|] eqn:E; [by exists c|]. exfalso. pose proof Hm as Hm'. unfold v_managed in Hm'. rewrite E in Hm'.
  destruct (sd_credential _ (oi_sound _ _ I w) Hm') as [c Hc]. congruence.
Qed.

(** ** How many *)
(** C4: Whatever selections, connections, failures, retirements and trades happen, an
    owner never has more than twenty wallets with a connection, a credential, a
    warning or an attempt in progress, selected or retiring. *)
Theorem managed_connections_bounded db o wallets :
  o_reachable owner_of db → NoDup wallets → (∀ w, w ∈ wallets → owner_of w = o ∧ has_access db w) → (length wallets ≤ 20)%nat.
Proof.
  intros I%OInv_reachable Hnd Hw. pose proof (oi_bound _ _ I o) as Hb.
  assert (list_to_set wallets ⊆ managed_wallets o db) as Hs%subseteq_size.
  { intros w [<- Ha]%elem_of_list_to_set%Hw. destruct (access_managed _ _ I Ha) as (c & Hc & Hm).
    eapply managed_listed; [apply I|exact Hc|done|done|]. by apply (oi_managed _ _ I). }
  rewrite size_list_to_set in Hs by done. unfold CountManagedWalletConnections, MaximumWalletSelectionItems in Hb. lia.
Qed.

(** ** Which *)
(** Every wallet with a connection, a credential, a warning or an attempt in
    progress is selected or retiring for its owner, never both and for no other
    owner; with an attempt in progress it is selected. *)
Theorem managed_wallet_listed db w :
  o_reachable owner_of db → has_access db w →
  ∃ address,
    ((selected db (owner_of w) w address ∧ ∀ o a, ¬ retiring db o w a)
     ∨ (retiring db (owner_of w) w address ∧ (∀ o a, ¬ selected db o w a) ∧ ∀ a, ¬ act db w a))
    ∧ ∀ o a, listed db o w a → o = owner_of w.
Proof.
  intros I%OInv_reachable Ha. pose proof (oi_selections _ _ I) as S. destruct (access_managed _ _ I Ha) as (c & Hc & Hm).
  exists (cn_address c). assert (∀ o a, listed db o w a → o = owner_of w) as Ho.
  { intros o a [H|H]; [by eapply selected_owner|by eapply retiring_owner]. }
  split; [|done]. destruct (oi_managed _ _ I w c Hc Hm) as [Hl|Hl]; [left|right]; (split; [done|]).
  - intros o a Hr. rewrite (Ho o a) in Hr by (by right). by eapply not_both.
  - split; [intros o a Hs; rewrite (Ho o a) in Hs by (by left); by eapply not_both|]. intros a Hact.
    apply (not_both owner_of db (owner_of w) w (cn_address c) (cn_address c)); [done| |done]. apply (oi_attempt _ _ I); [done|].
    exists a. apply view_act; [apply I|done].
Qed.

(** ** Leaving *)
(** C24: A wallet leaves the selection only when no run, cash-out, batch or isolation
    holds it, no attempt of it is in progress or has an unknown outcome and it is not
    locked; and it stops being listed at all only when it has no connection in use, no
    credential and no such attempt. *)
Theorem wallet_leaves_clean db db' o w a :
  o_reachable owner_of db → ostep owner_of db db' →
  (selected db o w a → ¬ selected db' o w a →
     (∀ reason, (o, w, reason) ∉ sl_holds (w_selections db))
     ∧ (∀ x, x ∈ w_attempts db → ca_wallet_id x = w → open_attempt (ca_state x) = false)
     ∧ ∀ c, c ∈ w_connections db → cn_wallet_id c = w → cn_warning_code c ≠ unknownCreateOutcomeWarning)
  ∧ (listed db o w a → ¬ listed db' o w a → WalletNeedsRetirement w a db = false).
Proof.
  intros I%OInv_reachable Hs. pose proof (oi_selections _ _ I) as S.
  destruct Hs as [clock op db db' Hd Hc|clock req db db' v o' H Ho Hs1 Hr1|owner w' a' db db' u H|holds db].
  - pose proof (commits_selections _ _ _ _ Hc) as E. unfold listed. rewrite (selected_same db db'), (retiring_same db db') by done. tauto.
  - destruct (replaced_owned _ _ _ _ _ _ I H) as (o1 & Ho1 & HR). assert (o1 = o') as -> by congruence.
    destruct (decide (o = o')) as [->|Hne]; [split|].
    + intros Hsel Hnot. assert (owns_selection o' db = true) as Hown by (apply selected_row in Hsel as (r & Hr & <- & _); by apply S).
      destruct (rp_left _ _ _ _ _ _ HR w a Hown (st_item_key _ _ S) Hsel) as [(i & Hi & <- & <-)|(_ & Hb & _)]; [|by apply unblocked].
      exfalso. by apply Hnot, (replaced_selected _ _ _ _ _ _ HR).
    + intros Hl Hnot. destruct (WalletNeedsRetirement w a db) eqn:Hn; [|done]. exfalso. by apply Hnot, (replaced_listed owner_of _ _ _ _ _ _ I HR).
    + unfold listed. rewrite (replaced_selected_other _ _ _ _ _ _ HR o w a Hne), (replaced_retiring_other _ _ _ _ _ _ HR o w a Hne). tauto.
  - destruct (complete_keeps _ _ _ _ _ _ H) as (W & It & _). split; [intros Hsel []; apply selected_row; rewrite It; by apply selected_row|].
    intros [Hl|Hl] Hnot; [exfalso; apply Hnot; left; apply selected_row; rewrite It; by apply selected_row|].
    destruct (WalletNeedsRetirement w a db) eqn:Hn; [|done]. exfalso. apply Hnot. right.
    unfold CompleteWalletRetirement, beginWalletTransaction in H. tx_inv.
    match goal with Hd : DeleteWalletRetirement ?x _ _ _ = _ |- _ => pose proof (retires_delete _ _ _ _ _ _ Hd) as R; destruct (decide (o = x)) as [->|Hne] end.
    + by apply R.
    + eapply retiring_of_owner, Hl. symmetry. by apply R.
  - unfold listed. tauto.
Qed.

(** C37: Once the outcome of an attempt is unknown, its wallet stays selected, whatever
    happens later: the attempt is kept as it is and every replacement that leaves the
    wallet out fails, also after a regenerated credential has unlocked the wallet. *)
Theorem unknown_outcome_pins_wallet db db' a :
  o_reachable owner_of db → a ∈ w_attempts db → ca_state a = ConnectionAttemptStateOutcomeUnknown → rtc (ostep owner_of) db db' →
  a ∈ w_attempts db' ∧ selected db' (owner_of (ca_wallet_id a)) (ca_wallet_id a) (ca_address a)
  ∧ ∀ clock req, walletSelectionOwner (rq_owner_account_id req) = Ok (owner_of (ca_wallet_id a)) →
      ca_wallet_id a ∉ (win_wallet_id <$> rq_selected_items req) → ∃ e, ReplaceWalletSelection clock req db' = Err e.
Proof.
  intros Hr Ha Hst Hs. pose proof (unknown_reachable _ _ Hr) as U. pose proof (OInv_reachable _ _ Hr) as I.
  destruct (osteps_keep _ _ _ Hs I U) as (I' & U' & Ho). assert (a ∈ w_attempts db') as Ha' by (eapply older_terminal; [done|done|by rewrite Hst]).
  split; [done|]. split; [by apply U'|]. intros clock req Hown Hout.
  destruct (ReplaceWalletSelection clock req db') as [[db2 v]|e] eqn:E; [|by exists e]. exfalso.
  destruct (replaced_owned _ _ _ _ _ _ I' E) as (o & Ho1 & HR). assert (o = owner_of (ca_wallet_id a)) as -> by congruence.
  pose proof (unknown_replaced _ _ _ _ _ _ _ I' U' HR a) as Hsel.
  pose proof (rp_wallets _ _ _ _ _ _ HR) as (_ & _ & W & _)%wallet_part_eq. rewrite W in Hsel.
  destruct (replaced_selects _ _ _ _ _ _ HR _ _ (Hsel Ha' Hst)) as (i & Hi & Hw & _). apply Hout. rewrite <- Hw. by apply list_elem_of_fmap_2.
Qed.

(** ** Revisions *)
(** Replacements of one owner's selection never overwrite each other: of two that
    succeed, whatever happens in between, the later one names a later revision, at
    least the one that the earlier one produced. *)
Theorem replacements_serialize db db1 db2 db3 clock1 clock2 req1 req2 v1 v2 o :
  o_reachable owner_of db → ReplaceWalletSelection clock1 req1 db = Ok (db1, v1) → ostep owner_of db db1 →
  rtc (ostep owner_of) db1 db2 → ReplaceWalletSelection clock2 req2 db2 = Ok (db3, v2) →
  walletSelectionOwner (rq_owner_account_id req1) = Ok o → walletSelectionOwner (rq_owner_account_id req2) = Ok o →
  wsel_revision v1 = rq_expected_revision req1 + 1 ∧ wsel_revision v1 ≤ rq_expected_revision req2.
Proof.
  intros I%OInv_reachable H1 Hs1 Hs2 H2 Ho1 Ho2. pose proof (OInv_step _ _ _ Hs1 I) as I1.
  assert (OInv owner_of db2) as I2. { clear -Hs2 I1. induction Hs2; eauto using OInv_step. }
  destruct (replaced_owned _ _ _ _ _ _ I H1) as (o1 & E1 & R1). destruct (replaced_owned _ _ _ _ _ _ I2 H2) as (o2 & E2 & R2).
  assert (o1 = o) as -> by congruence. assert (o2 = o) as -> by congruence.
  destruct (revision_replaced _ _ _ _ _ _ _ I I1 R1) as (_ & Hrev & _). pose proof (rp_expected _ _ _ _ _ _ R2) as Hexp.
  pose proof (revision_steps _ o _ _ Hs2 I1) as Hle. destruct (rp_header _ _ _ _ _ _ R1) as (h & _ & _ & Hh & Hload).
  assert (wsel_revision v1 = se_revision h) as -> by (unfold loadWalletSelection in Hload; cbv zeta in Hload; by tx_inv).
  change (revision_of o db2 = rq_expected_revision req2) in Hexp. lia.
Qed.

(** ** Reading *)
Lemma load_items_ok rows n l :
  load_items rows n = Ok l →
  (wsi_ordinal <$> l) = seqZ n (Z.of_nat (length rows)) ∧ (sit_ordinal <$> rows) = seqZ n (Z.of_nat (length rows))
  ∧ ((λ i, (wsi_wallet_id i, wsi_address i)) <$> l) = ((λ r, (sit_wallet_id r, sit_address r)) <$> rows).
Proof.
  revert n l. induction rows as [|r rows IH]; intros n l H; cbn [load_items] in H; [by injection H as <-|]. tx_inv.
  match goal with Hl : load_items _ _ = Ok _ |- _ => destruct (IH _ _ Hl) as (L1 & L2 & L3) end. bool_prop.
  cbn [length fmap list_fmap]. rewrite Nat2Z.inj_succ, seqZ_cons by lia. rewrite Z.pred_succ. cbn. rewrite L1, L2, L3. match goal with He : sit_ordinal r = _ |- _ => rewrite He end. done.
Qed.
Lemma load_retirement_ok rows r x :
  load_retirement rows r = Ok x → wre_wallet_id x = rt_wallet_id r ∧ wre_address x = rt_address r.
Proof. intros H. unfold load_retirement in H. by tx_inv. Qed.
Lemma mapM_result {A B} (f : A → result CWError B) l k :
  mapM f l = Ok k → (∀ y, y ∈ k → ∃ x, x ∈ l ∧ f x = Ok y) ∧ ∀ x, x ∈ l → ∃ y, y ∈ k ∧ f x = Ok y.
Proof.
  revert k. induction l as [|x l IH]; intros k H; cbn in H; [injection H as <-; split; by intros ? ?%not_elem_of_nil|]. tx_inv.
  match goal with Hm : mapM f l = Ok _ |- _ => destruct (IH _ Hm) as [M1 M2] end.
  match goal with Hk : mret _ = Ok k |- _ => injection Hk as <- end. split.
  - intros y [->|Hy]%elem_of_cons; [exists x; split; [by left|done]|]. destruct (M1 y Hy) as (z & Hz & ?). exists z. split; [by right|done].
  - intros y [->|Hy]%elem_of_cons; [eexists; split; [by left|done]|]. destruct (M2 y Hy) as (z & Hz & ?). exists z. split; [by right|done].
Qed.
(** What a selection that loads says. *)
Record shows (db : WDB) (o : N) (v : WalletSelection) : Prop := {
  sw_selected : ∀ w a, (∃ i, i ∈ wsel_selected_items v ∧ wsi_wallet_id i = w ∧ wsi_address i = a) ↔ selected db o w a;
  sw_retiring : ∀ w a, (∃ r, r ∈ wsel_retirements v ∧ wre_wallet_id r = w ∧ wre_address r = a) ↔ retiring db o w a;
  sw_ordinals : (wsi_ordinal <$> wsel_selected_items v) = seqZ 1 (Z.of_nat (length (wsel_selected_items v)));
  sw_length : (length (wsel_selected_items v) ≤ 20)%nat;
  sw_wallets : NoDup (wsi_wallet_id <$> wsel_selected_items v);
  sw_disjoint : ∀ i r, i ∈ wsel_selected_items v → r ∈ wsel_retirements v →
    wsi_wallet_id i ≠ wre_wallet_id r ∧ wsi_address i ≠ wre_address r }.
Lemma NoDup_ids (rows : list selection_item_row) :
  NoDup (sit_ordinal <$> rows) → (∀ r r', r ∈ rows → r' ∈ rows → sit_wallet_id r = sit_wallet_id r' → r = r') → NoDup (sit_wallet_id <$> rows).
Proof.
  intros Hnd%NoDup_fmap_1 Hinj. induction rows as [|r rows IH]; cbn; [constructor|]. apply NoDup_cons in Hnd as [Hni Hnd].
  apply NoDup_cons. split; [|apply IH; [done|]; intros; apply Hinj; [by right|by right|done]].
  intros (r' & Hw & Hr')%list_elem_of_fmap. apply Hni. by rewrite (Hinj r r') by (by left || by right || done).
Qed.
Lemma load_shows db h v : selection_tables owner_of db → loadWalletSelection h db = Ok v → shows db (se_owner_account_id h) v.
Proof.
  intros S H. unfold loadWalletSelection in H. cbv zeta in H. generalize dependent (se_owner_account_id h); intros o H. tx_inv. bool_prop.
  match goal with Hl : load_items _ _ = Ok ?l |- _ => rename l into its; destruct (load_items_ok _ _ _ Hl) as (L1 & L2 & L3) end.
  match goal with Hm : mapM _ _ = Ok ?l |- _ => rename l into rets; destruct (mapM_result _ _ _ Hm) as [M1 M2] end.
  assert (length its = length (ListWalletSelectionItems o db)) as Hlen by (apply (f_equal length) in L3; by rewrite !length_fmap in L3).
  assert ((wsi_wallet_id <$> its) = (sit_wallet_id <$> ListWalletSelectionItems o db)) as Hids.
  { apply (f_equal (fmap fst)) in L3. by rewrite <- !list_fmap_compose in L3. }
  assert (∀ w a, (∃ i, i ∈ its ∧ wsi_wallet_id i = w ∧ wsi_address i = a) ↔
    ∃ r, r ∈ ListWalletSelectionItems o db ∧ sit_wallet_id r = w ∧ sit_address r = a) as Hits.
  { intros w a. transitivity ((w, a) ∈ ((λ i, (wsi_wallet_id i, wsi_address i)) <$> its)).
    - rewrite list_elem_of_fmap. naive_solver.
    - rewrite L3, list_elem_of_fmap. naive_solver. }
  constructor; cbn.
  - intros w a. rewrite Hits, selected_row. setoid_rewrite listed_items. naive_solver.
  - intros w a. rewrite retiring_row. split.
    + intros (y & Hy & <- & <-). destruct (M1 y Hy) as (r & Hr & Hl). apply load_retirement_ok in Hl as [-> ->].
      apply sort_by_elem, elem_of_sql_many in Hr as [Ho%N.eqb_eq Hr]. by exists r.
    + intros (r & Hr & Ho & <- & <-). destruct (M2 r) as (y & Hy & Hl); [apply sort_by_elem, elem_of_sql_many; by rewrite N.eqb_eq|].
      apply load_retirement_ok in Hl as [<- <-]. by exists y.
  - by rewrite L1, Hlen.
  - unfold MaximumWalletSelectionItems in *. lia.
  - rewrite Hids. apply NoDup_ids; [rewrite L2; apply NoDup_seqZ|]. intros r r' [Hr Ho]%listed_items [Hr' Ho']%listed_items Hw.
    apply (st_item_key _ _ S); congruence.
  - intros i y Hi Hy. destruct (M1 y Hy) as (r & Hr & Hl). destruct (load_retirement_ok _ _ _ Hl) as [-> ->].
    destruct (proj1 (Hits (wsi_wallet_id i) (wsi_address i))) as (row & Hrow & <- & <-); [by exists i|]. by eapply load_retirement_fresh.
Qed.
(** The selection an owner reads is exactly what the tables hold: reading it always
    succeeds; its items are the selected wallets, at most twenty, numbered from one
    without a gap and without a repeated wallet; its retirements are the retiring
    wallets, disjoint from them; an owner without a selection has neither. *)
Theorem selection_read_exact db owner o :
  o_reachable owner_of db → walletSelectionOwner owner = Ok o →
  ∃ v, GetWalletSelection owner db = Ok v ∧ shows db o v ∧ wsel_revision v = revision_of o db.
Proof.
  intros I%OInv_reachable Ho. pose proof (oi_selections _ _ I) as S. unfold GetWalletSelection, revision_of, GetWalletSelectionForUpdate, sql_GetWalletSelection.
  rewrite Ho. cbn. destruct (sql_one _ _) as [h|] eqn:E.
  - apply sql_one_Some in E as [Hh Hho%N.eqb_eq]. destruct (st_loads _ _ S h Hh) as [v Hv]. exists v. split; [done|]. split.
    + rewrite <- Hho. by apply load_shows.
    + unfold loadWalletSelection in Hv. cbv zeta in Hv. by tx_inv.
  - assert (owns_selection o db = false) as Hno.
    { apply existsb_elem_false. intros h Hh. exact (sql_one_None _ _ E h Hh). }
    eexists. split; [done|]. split; [|done]. constructor; cbn; try done; try (by intros ? ? ?%not_elem_of_nil); try apply NoDup_nil_2; try lia.
    + intros w a. split; [by intros (? & ?%not_elem_of_nil & _)|]. intros (r & Hr & Hro & _)%selected_row. pose proof (st_item_header _ _ S r Hr). congruence.
    + intros w a. split; [by intros (? & ?%not_elem_of_nil & _)|]. intros (r & Hr & Hro & _)%retiring_row. pose proof (st_retirement_header _ _ S r Hr). congruence.
Qed.

(** ** Replacing *)
Lemma item_rows_ordinals o n now l : (sit_ordinal <$> item_rows o n now l) = seqZ n (Z.of_nat (length l)).
Proof.
  revert n. induction l as [|i l IH]; intros n; [done|]. cbn [item_rows fmap list_fmap length].
  rewrite Nat2Z.inj_succ, seqZ_cons, Z.pred_succ by lia. cbn. by rewrite IH.
Qed.
Lemma item_rows_pairs o n now l :
  ((λ r, (sit_wallet_id r, sit_address r)) <$> item_rows o n now l) = ((λ i, (win_wallet_id i, win_address i)) <$> l).
Proof. revert n. induction l as [|i l IH]; intros n; [done|]. cbn. by rewrite IH. Qed.
Lemma item_rows_owner o n now l : sql_many (λ r, (sit_owner_account_id r =? o)%N) (item_rows o n now l) = item_rows o n now l.
Proof. apply sql_many_all. intros r [Hr _]%elem_of_item_rows. by apply N.eqb_eq. Qed.
Lemma rows_in_order (l k : list selection_item_row) n m :
  (sit_ordinal <$> l) = seqZ n m → k ≡ₚ l → StronglySorted (λ a b, (sit_ordinal a <=? sit_ordinal b) = true) k → k = l.
Proof.
  intros Hl Hp Hk. assert (NoDup (sit_ordinal <$> l)) as Hnd by (rewrite Hl; apply NoDup_seqZ).
  eapply StronglySorted_unique_strong; [|exact Hk| |done].
  - intros x y Hx Hy Hxy%Z.leb_le Hyx%Z.leb_le. rewrite Hp in Hx. by apply (NoDup_key_inj sit_ordinal l); [..|lia].
  - clear -Hl. revert n m Hl. induction l as [|r l IH]; intros n m Hl; [constructor|].
    assert (0 < m) as Hm. { destruct (Z.lt_ge_cases 0 m); [done|]. by rewrite seqZ_nil in Hl by lia. }
    rewrite (seqZ_cons n m) in Hl by lia. injection Hl as Hr Hl. constructor; [by eapply IH|]. apply Forall_forall.
    intros x Hx. apply Z.leb_le. assert (sit_ordinal x ∈ seqZ (Z.succ n) (Z.pred m)) as Hin by (rewrite <- Hl; by apply list_elem_of_fmap_2).
    apply elem_of_seqZ in Hin. lia.
Qed.
(** A replacement that succeeds names the current revision and raises it by one;
    the owner's selection is then exactly the requested wallets in the requested
    order, and that is what it returns and what the next read returns; a wallet
    retires afterwards only if it is not selected, and was retiring already or has
    something to clean up; no wallet with something to clean up is dropped; the
    connections, credentials and attempts and every other owner's selection stay. *)
Theorem replace_selection_spec db db' clock req v o :
  o_reachable owner_of db → walletSelectionOwner (rq_owner_account_id req) = Ok o → ReplaceWalletSelection clock req db = Ok (db', v) →
  rq_expected_revision req = revision_of o db ∧ wsel_revision v = revision_of o db + 1
  ∧ GetWalletSelection (rq_owner_account_id req) db' = Ok v
  ∧ ((λ i, (wsi_wallet_id i, wsi_address i)) <$> wsel_selected_items v) = ((λ i, (win_wallet_id i, win_address i)) <$> rq_selected_items req)
  ∧ (∀ w a, retiring db' o w a → (w ∉ (win_wallet_id <$> rq_selected_items req))
       ∧ (retiring db o w a ∨ WalletNeedsRetirement w a db = true
            ∧ (selected db o w a ∨ ∃ i, i ∈ rq_retiring_wallets req ∧ wri_wallet_id i = w ∧ wri_address i = a)))
  ∧ (∀ w a, listed db o w a → WalletNeedsRetirement w a db = true → listed db' o w a)
  ∧ (w_connections db', w_credentials db', w_attempts db') = (w_connections db, w_credentials db, w_attempts db)
  ∧ ∀ owner' o', walletSelectionOwner owner' = Ok o' → o' ≠ o → GetWalletSelection owner' db' = GetWalletSelection owner' db.
Proof.
  intros I%OInv_reachable Ho H. destruct (replaced_owned _ _ _ _ _ _ I H) as (o1 & Ho1 & HR). assert (o1 = o) as -> by congruence.
  pose proof (oi_selections _ _ I) as S. pose proof (rp_header_key _ _ _ _ _ _ HR (st_headers _ _ S)) as Hnd.
  destruct (rp_header _ _ _ _ _ _ HR) as (h & Hh & Hho & Hrev & Hload). pose proof (rp_expected _ _ _ _ _ _ HR) as Hexp. split_and!.
  - done.
  - unfold revision_of. rewrite Hexp, <- Hrev. unfold loadWalletSelection in Hload. cbv zeta in Hload. by tx_inv.
  - unfold GetWalletSelection. rewrite Ho. cbn. change (sql_GetWalletSelection o db') with (GetWalletSelectionForUpdate o db').
    by rewrite (header_of o db' h).
  - unfold loadWalletSelection in Hload. cbv zeta in Hload. rewrite Hho in Hload. clear Hho Hrev Hexp Ho Ho1. tx_inv. cbn.
    match goal with Hl : load_items _ _ = Ok _ |- _ => destruct (load_items_ok _ _ _ Hl) as (_ & _ & ->) end.
    rewrite <- (item_rows_pairs o 1 (canonicalNow clock (rq_now req))). f_equal.
    eapply rows_in_order; [apply item_rows_ordinals| |apply sort_by_sorted; intros *; rewrite ?Z.leb_le; lia].
    unfold ListWalletSelectionItems. rewrite sort_by_Permutation, (rp_items _ _ _ _ _ _ HR), sql_many_app, item_rows_owner, sql_many_none; [done|].
    by intros r [Hr _]%elem_of_sql_delete.
  - intros w a Hr. destruct (rp_retiring _ _ _ _ _ _ HR w a Hr) as (H1 & [H2|(H2 & _ & H3)]); [by split; [|left]|]. split; [done|]. by right.
  - intros w a Hl Hn. by eapply replaced_listed.
  - pose proof (rp_wallets _ _ _ _ _ _ HR) as (-> & -> & -> & _)%wallet_part_eq. done.
  - intros owner' o' Ho' Hne. unfold GetWalletSelection. rewrite Ho'. cbn.
    change (sql_GetWalletSelection o' db') with (GetWalletSelectionForUpdate o' db').
    change (sql_GetWalletSelection o' db) with (GetWalletSelectionForUpdate o' db).
    rewrite (header_other o' db db'); [|apply S|done|intros r Hr; apply HR; congruence].
    destruct (GetWalletSelectionForUpdate o' db) as [r|] eqn:E; [|done]. apply sql_one_Some in E as [_ Hr%N.eqb_eq]. subst o'.
    apply load_same; [by eapply replaced_other_items|by apply HR].
Qed.
End Theorems.

(** ** Instances *)
(** * Wallet selections: a concrete run

    An owner selects two wallets and connects the first one; once with a credential,
    and then deselects, disconnects and retires it; once with an unknown outcome. *)
Import Prelude.Concrete.
#[local] Open Scope Z_scope.

Module SelectScenario.
Definition now0 : Z := ConnectScenario.now0.
Definition owner : string := uuid_string 11.
Definition address (n : N) : string := public_key_string n.
Definition owner_of (_ : Z) : N := 11%N.
Definition replace (expected : Z) (l : list WalletSelectionInput) : ReplaceWalletSelectionRequest := {|
  rq_owner_account_id := owner; rq_expected_revision := expected; rq_selected_items := l; rq_retiring_wallets := []; rq_now := now0 |}.
Definition wallet3 : WalletSelectionInput := {| win_wallet_id := 3; win_address := address 5 |}.
Definition wallet4 : WalletSelectionInput := {| win_wallet_id := 4; win_address := address 6 |}.
Definition prepare : PrepareConnectionAttemptRequest := {|
  pa_attempt_id := uuid_string 51; pa_owner_account_id := owner; pa_wallet_id := 3; pa_address := address 5;
  pa_kind := ConnectionAttemptKindConnect; pa_nonce := "abc"; pa_challenge_message := "message";
  pa_message_digest := digest_text ["message"]; pa_expires_at := now0 + 60 * second; pa_now := now0 |}.
Definition begin : BeginConnectionAttemptCompletionRequest := {|
  ba_owner_account_id := owner; ba_attempt_id := uuid_string 51; ba_wallet_id := 3; ba_address := address 5; ba_now := now0 |}.
Definition activate : ActivateCredentialRequest := {|
  ac_owner_account_id := owner; ac_attempt_id := uuid_string 51; ac_wallet_id := 3; ac_address := address 5;
  ac_api_key_ciphertext := "key"; ac_api_secret_ciphertext := "secret"; ac_now := now0 |}.
Definition after {A} (m : cw_tx A) (db : WDB) : WDB := match m db with Ok (d, _) => d | Err _ => db end.
Definition db0 : WDB := empty_wdb no_selections.
Definition db1 : WDB := Eval vm_compute in after (ReplaceWalletSelection now0 (replace 0 [wallet3; wallet4])) db0.
Definition db2 : WDB := Eval vm_compute in after (PrepareConnectionAttempt now0 51 prepare) db1.
Definition db3 : WDB := Eval vm_compute in after (BeginConnectionAttemptCompletion now0 begin) db2.
Definition lost : WDB := Eval vm_compute in
  after (MarkConnectionAttemptOutcomeUnknown now0 (uuid_string 51) unknownCreateOutcomeWarning now0) db3.
Definition regenerate : PrepareConnectionAttemptRequest := {|
  pa_attempt_id := uuid_string 52; pa_owner_account_id := owner; pa_wallet_id := 3; pa_address := address 5;
  pa_kind := ConnectionAttemptKindRegenerate; pa_nonce := "def"; pa_challenge_message := "message";
  pa_message_digest := digest_text ["message"]; pa_expires_at := now0 + 60 * second; pa_now := now0 |}.
Definition begin_again : BeginConnectionAttemptCompletionRequest := {|
  ba_owner_account_id := owner; ba_attempt_id := uuid_string 52; ba_wallet_id := 3; ba_address := address 5; ba_now := now0 |}.
Definition activate_again : ActivateCredentialRequest := {|
  ac_owner_account_id := owner; ac_attempt_id := uuid_string 52; ac_wallet_id := 3; ac_address := address 5;
  ac_api_key_ciphertext := "key"; ac_api_secret_ciphertext := "secret"; ac_now := now0 |}.
Definition lost1 : WDB := Eval vm_compute in after (PrepareConnectionAttempt now0 52 regenerate) lost.
Definition lost2 : WDB := Eval vm_compute in after (BeginConnectionAttemptCompletion now0 begin_again) lost1.
Definition found : WDB := Eval vm_compute in after (ActivateCredential now0 8 activate_again) lost2.
Definition db4 : WDB := Eval vm_compute in after (ActivateCredential now0 7 activate) db3.
Definition db5 : WDB := Eval vm_compute in after (ReplaceWalletSelection now0 (replace 1 [wallet4])) db4.
Definition db6 : WDB := Eval vm_compute in after (BeginDisconnect now0 owner 3 (address 5) now0) db5.
Definition db7 : WDB := Eval vm_compute in after (BeginCredentialRevocation now0 3 7 now0) db6.
Definition db8 : WDB := Eval vm_compute in after (MarkCredentialRevoked now0 3 7 now0) db7.
Definition db9 : WDB := Eval vm_compute in after (CompleteWalletRetirement owner 3 (address 5)) db8.
End SelectScenario.
Import SelectScenario.

Lemma ostep_ok (o : wop) db db' : disciplined db o → commits now0 o db db' → ostep owner_of db db'.
Proof. apply ostep_connection. Qed.
Ltac ran := eexists; vm_compute; reflexivity.
Lemma select1 : ostep owner_of db0 db1.
Proof. eapply (ostep_replace _ now0 (replace 0 [wallet3; wallet4])); [vm_compute; reflexivity..|done|done]. Qed.
Lemma select2 : ostep owner_of db1 db2.
Proof. apply (ostep_ok (WPrepare 51 prepare)); [done|]. ran. Qed.
Lemma select3 : ostep owner_of db2 db3.
Proof. apply (ostep_ok (WBegin begin)); [done|]. ran. Qed.
Lemma select4 : ostep owner_of db3 db4.
Proof. apply (ostep_ok (WActivate 7 activate)); [done|]. ran. Qed.
Lemma select5 : ostep owner_of db4 db5.
Proof. eapply (ostep_replace _ now0 (replace 1 [wallet4])); [vm_compute; reflexivity..|done|done]. Qed.
Lemma select6 : ostep owner_of db5 db6.
Proof. apply (ostep_ok (WDisconnect owner 3 (address 5) now0)); [done|]. ran. Qed.
Lemma select7 : ostep owner_of db6 db7.
Proof. apply (ostep_ok (WBeginRevocation 3 7 now0)); [done|]. ran. Qed.
Lemma select8 : ostep owner_of db7 db8.
Proof. apply (ostep_ok (WRevoked 3 7 now0)); [done|]. ran. Qed.
Lemma select9 : ostep owner_of db8 db9.
Proof. eapply (ostep_complete _ owner 3 (address 5)). vm_compute. reflexivity. Qed.
Lemma select_lost : ostep owner_of db3 lost.
Proof. apply (ostep_ok (WUnknown (uuid_string 51) unknownCreateOutcomeWarning now0)); [done|]. ran. Qed.
Lemma select_lost1 : ostep owner_of lost lost1.
Proof. apply (ostep_ok (WPrepare 52 regenerate)); [done|]. ran. Qed.
Lemma select_lost2 : ostep owner_of lost1 lost2.
Proof. apply (ostep_ok (WBegin begin_again)); [done|]. ran. Qed.
Lemma select_found : ostep owner_of lost2 found.
Proof. apply (ostep_ok (WActivate 8 activate_again)); [done|]. ran. Qed.
Lemma reaches1 : o_reachable owner_of db1.
Proof. apply rtc_once, select1. Qed.
Lemma reaches3 : o_reachable owner_of db3.
Proof. eapply rtc_r; [eapply rtc_r; [apply reaches1|apply select2]|apply select3]. Qed.
Lemma reaches4 : o_reachable owner_of db4.
Proof. eapply rtc_r; [apply reaches3|apply select4]. Qed.
Lemma reaches5 : o_reachable owner_of db5.
Proof. eapply rtc_r; [apply reaches4|apply select5]. Qed.
Lemma reaches8 : o_reachable owner_of db8.
Proof. eapply rtc_r; [eapply rtc_r; [eapply rtc_r; [apply reaches5|apply select6]|apply select7]|apply select8]. Qed.
Lemma reaches_lost : o_reachable owner_of lost.
Proof. eapply rtc_r; [apply reaches3|apply select_lost]. Qed.
Lemma lost_found : rtc (ostep owner_of) lost found.
Proof. eapply rtc_l; [apply select_lost1|]. eapply rtc_l; [apply select_lost2|]. apply rtc_once, select_found. Qed.

Import Prelude.Concrete SelectScenario.
Lemma access4 : has_access db4 3.
Proof. right. left. eexists. split; [by left|done]. Qed.
Lemma managed_connections_bounded_witness : (length [3] ≤ 20)%nat.
Proof.
  apply (managed_connections_bounded owner_of db4 11%N [3]); [apply reaches4|apply NoDup_singleton|].
  intros w ->%list_elem_of_singleton. split; [done|apply access4].
Defined.
Lemma managed_wallet_listed_witness :
  ∃ address,
    ((selected db4 11 3 address ∧ ∀ o a, ¬ retiring db4 o 3 a)
     ∨ (retiring db4 11 3 address ∧ (∀ o a, ¬ selected db4 o 3 a) ∧ ∀ a, ¬ act db4 3 a))
    ∧ ∀ o a, listed db4 o 3 a → o = 11%N.
Proof. exact (managed_wallet_listed owner_of db4 3 reaches4 access4). Defined.
Lemma wallet_leaves_clean_witness :
  (∀ x, x ∈ w_attempts db4 → ca_wallet_id x = 3 → open_attempt (ca_state x) = false) ∧ WalletNeedsRetirement 3 (address 5) db8 = false.
Proof.
  split.
  - apply (wallet_leaves_clean owner_of db4 db5 11%N 3 (address 5) reaches4 select5); [reflexivity|]. by vm_compute.
  - apply (wallet_leaves_clean owner_of db8 db9 11%N 3 (address 5) reaches8 select9); [by right|]. by intros [H|H]; vm_compute in H.
Defined.
Lemma unknown_outcome_pins_wallet_witness :
  selected found 11 3 (address 5) ∧ ∃ e, ReplaceWalletSelection now0 (replace 1 [wallet4]) found = Err e.
Proof.
  destruct (unknown_outcome_pins_wallet owner_of lost found (default (Build_attempt_row 0 0 "" ConnectionAttemptKindConnect
    ConnectionStateNotConnected None "" "" "" ConnectionAttemptStatePrepared "" 0 None 0 0) (head (w_attempts lost)))) as (_ & Hs & He).
  - apply reaches_lost.
  - by left.
  - done.
  - apply lost_found.
  - split; [exact Hs|]. apply He; [done|]. by intros [?|?%not_elem_of_nil]%elem_of_cons.
Defined.
Lemma replacements_serialize_witness :
  ∃ v, ReplaceWalletSelection now0 (replace 0 [wallet3; wallet4]) db0 = Ok (db1, v) ∧ wsel_revision v = 0 + 1 ∧ wsel_revision v ≤ 1.
Proof.
  eexists. split; [vm_compute; reflexivity|].
  eapply (replacements_serialize owner_of db0 db1 db4 db5 now0 now0 (replace 0 [wallet3; wallet4]) (replace 1 [wallet4])).
  - apply rtc_refl.
  - vm_compute. reflexivity.
  - apply select1.
  - eapply rtc_l; [apply select2|]. eapply rtc_l; [apply select3|]. apply rtc_once, select4.
  - vm_compute. reflexivity.
  - reflexivity.
  - reflexivity.
Defined.
Lemma selection_read_exact_witness :
  ∃ v, GetWalletSelection owner db5 = Ok v ∧ shows db5 11 v ∧ wsel_revision v = 2.
Proof. exact (selection_read_exact owner_of db5 owner 11%N reaches5 eq_refl). Defined.
Lemma replace_selection_spec_witness : ∃ v, GetWalletSelection owner db5 = Ok v ∧ wsel_revision v = 2.
Proof.
  destruct (ReplaceWalletSelection now0 (replace 1 [wallet4]) db4) as [[d v]|e] eqn:E; [|by vm_compute in E].
  pose proof (replace_selection_spec owner_of db4 d now0 (replace 1 [wallet4]) v 11%N reaches4 eq_refl E) as (_ & Hr & Hg & _).
  assert (d = db5) as -> by (vm_compute in E; by injection E as <- _). exists v. split; [exact Hg|exact Hr].
Defined.
