(* ===== verification/Decimal.v ===== *)
(** * Exact decimals

    [decimalAmount] of [internal/wormtrading/execution_preview_builder.go]: a coefficient
    and a number of decimals.  Parsing, printing, comparison and subtraction are exact;
    [amount] is the rational number a decimal stands for.  The laws follow the functions. *)

From S2P Require Import Prelude CashOutStages Bytes.
From stdpp Require Import base tactics option list strings.
From Stdlib Require Import ZArith QArith Lia Ascii.
#[local] Open Scope Z_scope.

(** ** Text *)
(** [decimalStringPattern]: the pattern of [decimal_pattern] after an optional sign. *)
Definition decimalStringPattern (value : string) : bool :=
  match value with
  | String "-"%char rest => decimal_pattern rest
  | _ => decimal_pattern value
  end.
Definition isDecimalString (value : string) : bool :=
  negb (bool_decide (value = EmptyString)) && bool_decide (value = trim_space value) && decimalStringPattern value.
Definition has_minus (value : string) : bool :=
  match value with String "-"%char _ => true | _ => false end.
Definition isNonNegativeDecimalString (value : string) : bool := isDecimalString value && negb (has_minus value).
Fixpoint validNonNegativeDecimalStrings (values : list string) : bool :=
  match values with
  | [] => true
  | value :: values' => if isNonNegativeDecimalString value then validNonNegativeDecimalStrings values' else false
  end.
(** [strings.SplitN(value, ".", 2)]: the text before the first dot, and after it. *)
Fixpoint split_dot (value : string) : string * option string :=
  match value with
  | EmptyString => (EmptyString, None)
  | String a rest =>
      if (N_of_ascii a =? 46)%N then (EmptyString, Some rest)
      else let '(before, after) := split_dot rest in (String a before, after)
  end.
(** [big.Int.SetString(digits, 10)] of text without sign. *)
Definition digit_value (a : ascii) : Z := Z.of_N (N_of_ascii a) - 48.
Fixpoint digits_value (acc : Z) (digits : string) : option Z :=
  match digits with
  | EmptyString => Some acc
  | String a rest => if is_digit a then digits_value (acc * 10 + digit_value a) rest else None
  end.
Definition big_SetString (digits : string) : option Z :=
  if bool_decide (digits = EmptyString) then None else digits_value 0 digits.

(** ** Amounts *)
Record decimalAmount := { coefficient : Z; scale : nat }.
#[export] Instance decimalAmount_eq_dec : EqDecision decimalAmount.
Proof. solve_decision. Defined.
Inductive preview_error :=
| PreviewError (message : string)
| PreviewProvider (message : string) (err : go_error).

(** How a call ends without a value: it returns an error, or it panics.  Nothing in the package
    recovers, so a panic unwinds the goroutine and ends the process. *)
Inductive stop (E : Type) := Returned (err : E) | Panicked (message : string).
Arguments Returned {E} _.
Arguments Panicked {E} _.

Definition executionPreviewDecimalMaxLength : nat := 128.
(** The loop that drops trailing zeros. *)
Fixpoint drop_zeros (coefficient : Z) (scale : nat) : decimalAmount :=
  match scale with
  | O => {| coefficient := coefficient; scale := 0 |}
  | S scale' => if negb (Z.rem coefficient 10 =? 0) then {| coefficient := coefficient; scale := scale |}
                else drop_zeros (Z.quot coefficient 10) scale'
  end.
Definition parseExecutionPreviewDecimal (value : string) : result preview_error decimalAmount :=
  let invalid := PreviewError "must be a canonical non-negative decimal" in
  _ ← require (negb ((executionPreviewDecimalMaxLength <? String.length value)%nat || negb (isNonNegativeDecimalString value))) invalid;
  let '(whole, fraction) := split_dot value in
  let '(digits, scale) := match fraction with Some f => ((whole +:+ f)%string, String.length f) | None => (whole, 0%nat) end in
  coefficient ← of_option (big_SetString digits) invalid;
  Ok (drop_zeros coefficient scale).
Definition executionPreviewOne : decimalAmount := {| coefficient := 1; scale := 0 |}.
Definition IsZero (d : decimalAmount) : bool := coefficient d =? 0.
Definition executionPreviewScaleCoefficient (value : decimalAmount) (s : nat) : Z :=
  if (scale value <? s)%nat then coefficient value * 10 ^ Z.of_nat (s - scale value) else coefficient value.
Definition executionPreviewAlignedCoefficients (left right : decimalAmount) : Z * Z :=
  let s := Nat.max (scale left) (scale right) in
  (executionPreviewScaleCoefficient left s, executionPreviewScaleCoefficient right s).
Definition Compare (d other : decimalAmount) : comparison :=
  let '(l, r) := executionPreviewAlignedCoefficients d other in l ?= r.
Definition executionPreviewDecimalSumEquals (left right total : decimalAmount) : bool :=
  let s := Nat.max (Nat.max (scale left) (scale right)) (scale total) in
  executionPreviewScaleCoefficient left s + executionPreviewScaleCoefficient right s =? executionPreviewScaleCoefficient total s.
Fixpoint zeros (n : nat) : string := match n with O => EmptyString | S n' => String "0" (zeros n') end.
(** [decimalAmount.String] *)
Definition decimal_String (d : decimalAmount) : string :=
  let digits := decimal_text (coefficient d) in
  if (scale d =? 0)%nat then digits
  else
    let digits := if (String.length digits <=? scale d)%nat
                  then (zeros (scale d - String.length digits + 1) +:+ digits)%string else digits in
    let index := (String.length digits - scale d)%nat in
    (String.substring 0 index digits +:+ "." +:+ String.substring index (scale d) digits)%string.
Definition Subtract (d other : decimalAmount) : result (stop preview_error) decimalAmount :=
  let '(l, r) := executionPreviewAlignedCoefficients d other in
  _ ← require (negb (l <? r)) (Panicked "execution preview decimal subtraction underflow");
  let result_ := {| coefficient := l - r; scale := Nat.max (scale d) (scale other) |} in
  match parseExecutionPreviewDecimal (decimal_String result_) with
  | Ok normalized => Ok normalized
  | Err _ => Err (Panicked "execution preview decimal normalization failed")
  end.
Example decimal_parse1 : parseExecutionPreviewDecimal "12.3400" = Ok {| coefficient := 1234; scale := 2 |}.
Proof. reflexivity. Qed.
Example decimal_print1 : decimal_String {| coefficient := 5; scale := 3 |} = "0.005"%string.
Proof. reflexivity. Qed.
Example decimal_sub1 : Subtract {| coefficient := 5; scale := 0 |} {| coefficient := 5; scale := 1 |} = Ok {| coefficient := 45; scale := 1 |}.
Proof. reflexivity. Qed.

(** * Exact decimals: laws

    What is parsed is the number the text spells, in lowest terms; what is printed is
    parsed back; comparison, sums and differences are those of the rationals. *)
#[local] Open Scope Z_scope.

(** ** Digits *)
Fixpoint all_digits (s : string) : bool := match s with EmptyString => true | String a s' => is_digit a && all_digits s' end.
Abbreviation len s := (Z.of_nat (String.length s)).
(** The number a text of digits spells. *)
Fixpoint num (s : string) : Z :=
  match s with EmptyString => 0 | String a s' => digit_value a * 10 ^ len s' + num s' end.
Lemma append_cons a s t : String a s +:+ t = String a (s +:+ t).
Proof. done. Qed.
Lemma append_empty s : "" +:+ s = s.
Proof. done. Qed.
Lemma append_nil s : s +:+ "" = s.
Proof. induction s as [|a s IH]; [done|]. by rewrite append_cons, IH. Qed.
Lemma append_assoc r s t : (r +:+ s) +:+ t = r +:+ (s +:+ t).
Proof. induction r as [|a r IH]; [done|]. by rewrite !append_cons, IH. Qed.
Lemma length_append s t : String.length (s +:+ t) = (String.length s + String.length t)%nat.
Proof. induction s as [|a s IH]; [done|]. rewrite append_cons. cbn. by rewrite IH. Qed.
Lemma all_digits_app s t : all_digits (s +:+ t) = all_digits s && all_digits t.
Proof. induction s as [|a s IH]; [done|]. rewrite append_cons. cbn. by rewrite IH, andb_assoc. Qed.
Lemma digit_range a : is_digit a = true → 0 ≤ digit_value a ≤ 9.
Proof. unfold is_digit, digit_value. rewrite andb_true_iff, !N.leb_le. lia. Qed.
Lemma num_app s t : num (s +:+ t) = num s * 10 ^ len t + num t.
Proof.
  induction s as [|a s IH]; [rewrite append_empty; cbn; lia|]. rewrite append_cons. cbn [num]. rewrite IH, length_append, Nat2Z.inj_add, Z.pow_add_r by lia. ring.
Qed.
Lemma num_range s : all_digits s = true → 0 ≤ num s < 10 ^ len s.
Proof.
  induction s as [|a s IH]; cbn [all_digits num String.length]; [lia|]. rewrite andb_true_iff. intros [Ha%digit_range Hs%IH].
  rewrite Nat2Z.inj_succ, Z.pow_succ_r by lia. nia.
Qed.
Lemma digits_value_num acc s : all_digits s = true → digits_value acc s = Some (acc * 10 ^ len s + num s).
Proof.
  revert acc. induction s as [|a s IH]; intros acc; cbn [all_digits digits_value num String.length]; [intros _; f_equal; lia|].
  rewrite andb_true_iff. intros [-> Hs]. rewrite IH by done. f_equal. rewrite Nat2Z.inj_succ, Z.pow_succ_r by lia. ring.
Qed.
Lemma SetString_num s : s ≠ "" → all_digits s = true → big_SetString s = Some (num s).
Proof. intros Hne Hs. unfold big_SetString. rewrite bool_decide_eq_false_2 by done. by rewrite digits_value_num. Qed.

(** ** Integers *)
Definition whole (i : string) : Prop := all_digits i = true ∧ match i with EmptyString => False | String a i' => a = "0"%char → i' = "" end.
Lemma whole_positive a i : whole (String a i) → i ≠ "" → 10 ^ len i ≤ num (String a i).
Proof.
  intros [Hd Ha] Hne. cbn [all_digits] in Hd. apply andb_true_iff in Hd as [Hda Hdi]. apply num_range in Hdi. cbn [num].
  assert (1 ≤ digit_value a); [|nia]. pose proof (digit_range a Hda). assert (digit_value a ≠ 0); [|lia]. intros E. apply Hne, Ha.
  unfold digit_value in E. rewrite <- (ascii_N_embedding a). by replace (N_of_ascii a) with 48%N by lia.
Qed.
Lemma whole_length i n : whole i → 0 ≤ n → num i < 10 ^ n → len i ≤ Z.max 1 n.
Proof.
  intros Hi Hn Hlt. destruct i as [|a [|b i]]; [by destruct Hi|cbn; lia|]. apply whole_positive in Hi; [|done].
  destruct (Z.le_gt_cases (len (String a (String b i))) (Z.max 1 n)); [done|exfalso].
  assert (10 ^ n ≤ 10 ^ len (String b i)) by (apply Z.pow_le_mono_r; cbn [String.length] in *; lia). lia.
Qed.
(** Printing an integer. *)
Lemma digit_text n : 0 ≤ n < 10 → is_digit (ascii_of_N (Z.to_N (48 + n))) = true ∧ digit_value (ascii_of_N (Z.to_N (48 + n))) = n.
Proof. intros Hn. unfold is_digit, digit_value. rewrite N_ascii_embedding by lia. rewrite andb_true_iff, !N.leb_le. lia. Qed.
Lemma digits_loop_whole fuel n acc :
  0 ≤ n < 10 ^ Z.of_nat fuel → fuel ≠ 0%nat → ∃ s, digits_loop fuel n acc = s +:+ acc ∧ whole s ∧ num s = n.
Proof.
  revert n acc. induction fuel as [|fuel IH]; intros n acc Hn Hf; [done|]. cbn [digits_loop].
  pose proof (Z.mod_pos_bound n 10 ltac:(lia)) as Hm. destruct (digit_text (n mod 10) Hm) as [Hd Hv]. destruct (Z.ltb_spec n 10) as [Hlt|Hge].
  - rewrite Z.mod_small in * by lia. eexists (String _ ""). split; [done|]. split; [split; [cbn; by rewrite Hd|done]|]. cbn [num String.length]. change (10 ^ Z.of_nat 0) with 1. lia.
  - rewrite Nat2Z.inj_succ, Z.pow_succ_r in Hn by lia.
    assert (0 ≤ n / 10 < 10 ^ Z.of_nat fuel) as Hq by (split; [apply Z.div_pos; lia|apply Z.div_lt_upper_bound; lia]).
    assert (1 ≤ n / 10) as H1 by (apply Z.div_le_lower_bound; lia).
    destruct (IH (n / 10) (String (ascii_of_N (Z.to_N (48 + n mod 10))) acc) Hq) as (s & -> & [Hs Hw] & Hnum).
    { intros ->. cbn in Hq. lia. }
    exists (s +:+ String (ascii_of_N (Z.to_N (48 + n mod 10))) ""). split; [by rewrite append_assoc|]. split; [split|].
    + rewrite all_digits_app, Hs. cbn. by rewrite Hd.
    + destruct s as [|a s]; [done|]. rewrite append_cons. intros ->. specialize (Hw eq_refl). subst s. change (0 = n / 10) in Hnum. lia.
    + rewrite num_app, Hnum. cbn [num String.length]. change (10 ^ Z.of_nat 1) with 10. change (10 ^ Z.of_nat 0) with 1. pose proof (Z.div_mod n 10). lia.
Qed.
Lemma decimal_text_whole n : 0 ≤ n → whole (decimal_text n) ∧ num (decimal_text n) = n.
Proof.
  intros Hn. unfold decimal_text. rewrite (proj2 (Z.ltb_ge _ _)) by done.
  destruct (digits_loop_whole (S (Z.to_nat (Z.log2 n))) n "") as (s & -> & Hs & Hv); [|done|by rewrite append_nil].
  split; [done|]. destruct (Z.eq_dec n 0) as [->|Hne]; [by cbn|]. pose proof (Z.log2_spec n ltac:(lia)) as [_ Hlt].
  rewrite Nat2Z.inj_succ, Z2Nat.id by apply Z.log2_nonneg. eapply Z.lt_le_trans; [exact Hlt|]. apply Z.pow_le_mono_l. lia.
Qed.

(** ** Canonical text *)
(** [spells v i f]: [v] is the whole part [i], and the fraction [f] if there is one. *)
Definition spells (v i f : string) : Prop :=
  whole i ∧ all_digits f = true ∧ v = (if bool_decide (f = "") then i else i +:+ "." +:+ f).
Lemma dot_not_digit : is_digit "." = false.
Proof. done. Qed.
Lemma is_dot a : (N_of_ascii a =? 46)%N = true → a = "."%char.
Proof. intros H%N.eqb_eq. rewrite <- (ascii_N_embedding a). by rewrite H. Qed.
Lemma digit_not_dot a : is_digit a = true → (N_of_ascii a =? 46)%N = false.
Proof. unfold is_digit. rewrite andb_true_iff, !N.leb_le. intros. apply N.eqb_neq. lia. Qed.
Lemma run_frac s : decimal_run DFrac s = all_digits s.
Proof. induction s as [|a s IH]; [done|]. cbn. rewrite IH. by destruct (is_digit a). Qed.
Lemma run_dot s : decimal_run DDot s = true ↔ s ≠ "" ∧ all_digits s = true.
Proof. destruct s as [|a s]; cbn; [naive_solver|]. rewrite run_frac. destruct (is_digit a); naive_solver. Qed.
(** The rest of a decimal after digits. *)
Definition tail_of (s f : string) : Prop := all_digits f = true ∧ s = if bool_decide (f = "") then "" else "." +:+ f.
Lemma tail_dot f : f ≠ "" → all_digits f = true → tail_of ("." +:+ f) f.
Proof. intros Hne Hf. split; [done|]. by rewrite bool_decide_eq_false_2. Qed.
Lemma run_int s : decimal_run DInt s = true ↔ ∃ i t f, s = i +:+ t ∧ all_digits i = true ∧ tail_of t f.
Proof.
  induction s as [|a s IH]; cbn [decimal_run].
  - split; [|done]. intros _. by exists "", "", "".
  - destruct (is_digit a) eqn:Ha.
    + rewrite IH. split.
      * intros (i & t & f & -> & Hi & Ht). exists (String a i), t, f. split; [done|]. split; [by cbn; rewrite Ha|done].
      * intros ([|b i] & t & f & Hs & Hi & Ht).
        -- rewrite append_empty in Hs. subst t. destruct Ht as [_ Ht]. case_bool_decide; [done|]. rewrite append_cons, append_empty in Ht. by simplify_eq.
        -- rewrite append_cons in Hs. simplify_eq. cbn in Hi. apply andb_true_iff in Hi as [_ Hi]. by exists i, t, f.
    + destruct (N_of_ascii a =? 46)%N eqn:Hdot.
      * apply is_dot in Hdot as ->. rewrite run_dot. split.
        -- intros [Hne Hs]. exists "", ("." +:+ s), s. split; [done|]. split; [done|]. by apply tail_dot.
        -- intros ([|b i] & t & f & Hs & Hi & Hf & Ht).
           ++ rewrite append_empty in Hs. subst t. case_bool_decide; [done|]. rewrite append_cons, append_empty in Ht. by simplify_eq.
           ++ rewrite append_cons in Hs. by simplify_eq.
      * split; [done|]. intros ([|b i] & t & f & Hs & Hi & Hf & Ht).
        -- rewrite append_empty in Hs. subst t. case_bool_decide; [done|]. rewrite append_cons, append_empty in Ht. by simplify_eq.
        -- rewrite append_cons in Hs. simplify_eq. cbn in Hi. by rewrite Ha in Hi.
Qed.
Lemma spells_tail i t f : whole i → tail_of t f → spells (i +:+ t) i f.
Proof. intros Hi [Hf ->]. split; [done|]. split; [done|]. case_bool_decide; [apply append_nil|done]. Qed.
Lemma spells_inv v i f : spells v i f → ∃ t, v = i +:+ t ∧ whole i ∧ tail_of t f.
Proof.
  intros (Hi & Hf & ->). exists (if bool_decide (f = "") then "" else "." +:+ f). split; [|by split].
  case_bool_decide; [by rewrite append_nil|done].
Qed.
Lemma zero_char a : (N_of_ascii a =? 48)%N = true ↔ a = "0"%char.
Proof. rewrite N.eqb_eq. split; [|by intros ->]. intros H. rewrite <- (ascii_N_embedding a). by rewrite H. Qed.
Lemma pattern_spells v : decimal_pattern v = true ↔ ∃ i f, spells v i f.
Proof.
  unfold decimal_pattern. destruct v as [|a v]; cbn [decimal_run].
  { split; [done|]. intros (i & f & (t & Hv & [_ Hw] & _)%spells_inv). destruct i as [|b i]; [done|]. by rewrite append_cons in Hv. }
  destruct (N_of_ascii a =? 48)%N eqn:Hz.
  - apply zero_char in Hz as ->. assert (∀ f, tail_of v f → spells (String "0" v) "0" f) as Hsp.
    { intros f Ht. change (String "0" v) with ("0" +:+ v). apply spells_tail; [by split|done]. }
    destruct v as [|b v]; cbn [decimal_run].
    + split; [|done]. intros _. exists "0", "". by apply Hsp.
    + split.
      * destruct (N_of_ascii b =? 46)%N eqn:Hdot; [|done]. apply is_dot in Hdot as ->. rewrite run_dot. intros [Hne Hf]. exists "0", v. apply Hsp. by apply tail_dot.
      * intros (i & f & (t & Hv & [_ Hw] & Ht)%spells_inv). destruct i as [|c i]; [done|]. rewrite append_cons in Hv. simplify_eq.
        rewrite (Hw eq_refl), append_empty in *. subst t. destruct Ht as [Hf Ht]. case_bool_decide; [done|]. rewrite append_cons, append_empty in Ht. simplify_eq.
        by apply run_dot.
  - destruct (is_digit a) eqn:Ha.
    + rewrite run_int. split.
      * intros (i & t & f & -> & Hi & Ht). exists (String a i), f. rewrite <- append_cons. apply spells_tail; [|done]. split; [by cbn; rewrite Ha|].
        intros ->. done.
      * intros (i & f & (t & Hv & [Hi Hw] & Ht)%spells_inv). destruct i as [|c i]; [done|]. rewrite append_cons in Hv. simplify_eq.
        cbn in Hi. apply andb_true_iff in Hi as [_ Hi]. by exists i, t, f.
    + split; [done|]. intros (i & f & (t & Hv & [Hi Hw] & Ht)%spells_inv). destruct i as [|c i]; [done|]. rewrite append_cons in Hv. simplify_eq.
      cbn in Hi. by rewrite Ha in Hi.
Qed.

(** ** Parsing *)
Lemma printable_append s t : printable_text s → printable_text t → printable_text (s +:+ t).
Proof. unfold printable_text. induction s as [|a s IH]; [done|]. rewrite append_cons. cbn. intros [Ha Hs]%Forall_cons Ht. constructor; auto. Qed.
Lemma digits_printable s : all_digits s = true → printable_text s.
Proof.
  unfold printable_text. induction s as [|a s IH]; cbn; [constructor|]. intros [Ha Hs]%andb_true_iff. constructor; [|auto].
  unfold is_digit in Ha. apply andb_true_iff in Ha as [?%N.leb_le ?%N.leb_le]. unfold printable. lia.
Qed.
Lemma spells_printable v i f : spells v i f → printable_text v.
Proof.
  intros (t & -> & [Hi _] & Hf & ->)%spells_inv. apply printable_append; [by apply digits_printable|].
  case_bool_decide; [constructor|]. apply printable_append; [repeat constructor|by apply digits_printable].
Qed.
Lemma spells_first v i f : spells v i f → ∃ a w, v = String a w ∧ is_digit a = true.
Proof.
  intros (t & -> & [Hi Hw] & _)%spells_inv. destruct i as [|a i]; [done|]. exists a, (i +:+ t). split; [done|]. cbn in Hi. by apply andb_true_iff in Hi as [? _].
Qed.
Lemma minus_not_digit : is_digit "-" = false.
Proof. done. Qed.
Lemma pattern_unsigned v : has_minus v = false → decimalStringPattern v = decimal_pattern v.
Proof. destruct v as [|[[|] [|] [|] [|] [|] [|] [|] [|]] v]; done. Qed.
Lemma has_minus_first a v : has_minus (String a v) = true → a = "-"%char.
Proof. by destruct a as [[|] [|] [|] [|] [|] [|] [|] [|]]. Qed.
Lemma nonnegative_spells v : isNonNegativeDecimalString v = true ↔ ∃ i f, spells v i f.
Proof.
  unfold isNonNegativeDecimalString, isDecimalString. rewrite <- pattern_spells. split.
  - intros H. apply andb_true_iff in H as [[_ Hp]%andb_true_iff Hm%negb_true_iff]. by rewrite <- pattern_unsigned.
  - intros Hp. pose proof Hp as (i & f & Hs)%pattern_spells. destruct (spells_first _ _ _ Hs) as (a & w & -> & Ha).
    assert (has_minus (String a w) = false) as Hm.
    { destruct (has_minus (String a w)) eqn:E; [|done]. apply has_minus_first in E as ->. done. }
    rewrite trim_space_printable by (by eapply spells_printable). rewrite pattern_unsigned, Hp, Hm by done.
    by rewrite bool_decide_eq_false_2, bool_decide_eq_true_2.
Qed.
Lemma split_digits i t : all_digits i = true → split_dot (i +:+ t) = (i +:+ (split_dot t).1, (split_dot t).2).
Proof.
  induction i as [|a i IH]; intros Hi; [rewrite !append_empty; by destruct (split_dot t)|]. cbn in Hi. apply andb_true_iff in Hi as [Ha Hi].
  rewrite append_cons. cbn [split_dot]. by rewrite digit_not_dot, IH.
Qed.
Lemma split_spells v i f : spells v i f → split_dot v = (i, if bool_decide (f = "") then None else Some f).
Proof.
  intros (t & -> & [Hi _] & _ & ->)%spells_inv. rewrite split_digits by done. case_bool_decide as Hf; cbn [split_dot fst snd]; rewrite append_nil; [done|].
  rewrite append_cons, append_empty. done.
Qed.
Lemma whole_append i f : whole i → i +:+ f ≠ "".
Proof. intros [_ Hw]. by destruct i. Qed.
Lemma parse_spells v i f :
  spells v i f → (String.length v ≤ executionPreviewDecimalMaxLength)%nat →
  parseExecutionPreviewDecimal v = Ok (drop_zeros (num (i +:+ f)) (String.length f)).
Proof.
  intros Hs Hl. unfold parseExecutionPreviewDecimal. rewrite (proj2 (Nat.ltb_ge _ _)) by done.
  rewrite (proj2 (nonnegative_spells v)) by eauto. cbn. rewrite (split_spells _ _ _ Hs). destruct Hs as (Hi & Hf & _).
  assert (all_digits (i +:+ f) = true) as Hd by (rewrite all_digits_app, (proj1 Hi); done).
  case_bool_decide as E; [subst f; rewrite append_nil in *|]; rewrite SetString_num; try done; [by destruct Hi as [_ Hi]; destruct i|by apply whole_append].
Qed.
Lemma parse_inv v d :
  parseExecutionPreviewDecimal v = Ok d →
  ∃ i f, spells v i f ∧ (String.length v ≤ executionPreviewDecimalMaxLength)%nat ∧ d = drop_zeros (num (i +:+ f)) (String.length f).
Proof.
  intros H. pose proof H as H0. unfold parseExecutionPreviewDecimal in H0. cbv zeta in H0. tx_inv.
  match goal with Hg : negb (_ || _) = true |- _ => apply negb_true_iff, orb_false_iff in Hg as [Hl%Nat.ltb_ge (i & f & Hs)%negb_false_iff%nonnegative_spells] end.
  exists i, f. split; [done|]. split; [done|]. rewrite (parse_spells v i f) in H by done. congruence.
Qed.

(** ** The number *)
Definition amount (d : decimalAmount) : Q := coefficient d # Z.to_pos (10 ^ Z.of_nat (scale d)).
(** In lowest terms: no trailing zero after the point. *)
Definition lowest (d : decimalAmount) : Prop := 0 ≤ coefficient d ∧ (scale d = 0%nat ∨ coefficient d mod 10 ≠ 0).
(** The number a canonical text spells. *)
Definition spelled (i f : string) : Q := (inject_Z (num i) + (num f # Z.to_pos (10 ^ len f)))%Q.

Lemma den_pow n : Zpos (Z.to_pos (10 ^ Z.of_nat n)) = 10 ^ Z.of_nat n.
Proof. apply Z2Pos.id, Z.pow_pos_nonneg; lia. Qed.
Lemma amount_eq d e : (amount d == amount e)%Q ↔ coefficient d * 10 ^ Z.of_nat (scale e) = coefficient e * 10 ^ Z.of_nat (scale d).
Proof. unfold Qeq, amount. cbn [Qnum Qden]. by rewrite !den_pow. Qed.
Lemma drop_zeros_amount c s : 0 ≤ c → (amount (drop_zeros c s) == amount {| coefficient := c; scale := s |})%Q.
Proof.
  revert c. induction s as [|s IH]; intros c Hc; cbn [drop_zeros]; [reflexivity|].
  destruct (Z.rem c 10 =? 0) eqn:Hr; [|reflexivity]. cbn. apply Z.eqb_eq in Hr. rewrite Z.rem_mod_nonneg in Hr by lia.
  rewrite Z.quot_div_nonneg by lia. rewrite IH by (apply Z.div_pos; lia). apply amount_eq. cbn [coefficient scale].
  rewrite Nat2Z.inj_succ, Z.pow_succ_r by lia. pose proof (Z.div_mod c 10). nia.
Qed.
Lemma drop_zeros_lowest c s : 0 ≤ c → lowest (drop_zeros c s).
Proof.
  revert c. induction s as [|s IH]; intros c Hc; cbn [drop_zeros]; [by split; [|left]|].
  destruct (Z.rem c 10 =? 0) eqn:Hr; cbn; [apply IH, Z.quot_pos; lia|]. split; [done|]. right. apply Z.eqb_neq in Hr. cbn. by rewrite <- Z.rem_mod_nonneg by lia.
Qed.
Lemma drop_zeros_id d : lowest d → drop_zeros (coefficient d) (scale d) = d.
Proof.
  destruct d as [c [|s]]; [done|]. intros [Hc [?|Hm]]; [done|]. cbn in *. rewrite Z.rem_mod_nonneg by lia. by rewrite (proj2 (Z.eqb_neq _ _) Hm).
Qed.
Lemma drop_zeros_scale c s : (scale (drop_zeros c s) ≤ s)%nat.
Proof. revert c. induction s as [|s IH]; intros c; cbn; [done|]. destruct (negb _); cbn; [done|]. specialize (IH (Z.quot c 10)). lia. Qed.
(** A number has one representation in lowest terms. *)
Lemma lowest_scale d e : lowest d → lowest e → (amount d == amount e)%Q → (scale d ≤ scale e)%nat → scale d = scale e.
Proof.
  intros [Hd _] [He Hl] Heq%amount_eq Hle. destruct (Nat.eq_dec (scale d) (scale e)) as [|Hne]; [done|exfalso].
  destruct Hl as [Hl|Hl]; [lia|]. apply Hl. replace (scale e) with (scale d + S (scale e - S (scale d)))%nat in Heq by lia.
  rewrite Nat2Z.inj_add, Z.pow_add_r, Nat2Z.inj_succ, Z.pow_succ_r in Heq by lia. pose proof (Z.pow_pos_nonneg 10 (Z.of_nat (scale d))).
  apply Z.mod_divide; [lia|]. exists (coefficient d * 10 ^ Z.of_nat (scale e - S (scale d))). nia.
Qed.
Lemma lowest_unique d e : lowest d → lowest e → (amount d == amount e)%Q → d = e.
Proof.
  intros Hd He Heq. assert (scale d = scale e) as Hs.
  { destruct (Nat.le_ge_cases (scale d) (scale e)); [by apply lowest_scale|symmetry; apply lowest_scale; try done; by symmetry]. }
  apply amount_eq in Heq. rewrite Hs in Heq. apply Z.mul_reg_r in Heq; [|pose proof (Z.pow_pos_nonneg 10 (Z.of_nat (scale e))); lia].
  destruct d, e; cbn in *; congruence.
Qed.
Lemma parse_amount v d i f : spells v i f → parseExecutionPreviewDecimal v = Ok d → lowest d ∧ (amount d == spelled i f)%Q.
Proof.
  intros Hs H. destruct (parse_inv _ _ H) as (_ & _ & _ & Hl & _). rewrite (parse_spells v i f) in H by done. injection H as <-.
  destruct Hs as ((Hi & _) & Hf & _). assert (0 ≤ num (i +:+ f)) as Hn by (apply num_range; by rewrite all_digits_app, Hi).
  split; [by apply drop_zeros_lowest|]. rewrite drop_zeros_amount by done. unfold amount, spelled, Qeq, Qplus, inject_Z. cbn [Qnum Qden coefficient scale].
  rewrite Pos.mul_1_l, !den_pow, num_app. ring.
Qed.

(** ** Printing *)
Lemma substring_append s t : String.substring (String.length s) (String.length t) (s +:+ t) = t.
Proof. induction s as [|a s IH]; [apply substring_all|]. rewrite append_cons. cbn. apply IH. Qed.
Lemma substring_prefix s t : String.substring 0 (String.length s) (s +:+ t) = s.
Proof. induction s as [|a s IH]; [by destruct t|]. rewrite append_cons. cbn. by rewrite IH. Qed.
Lemma cut s n : (n ≤ String.length s)%nat → ∃ p q, s = p +:+ q ∧ String.length p = n ∧ String.length q = (String.length s - n)%nat.
Proof.
  revert s. induction n as [|n IH]; intros s Hn; [exists "", s; split; [done|]; split; [done|lia]|].
  destruct s as [|a s]; cbn in *; [lia|]. destruct (IH s) as (p & q & -> & <- & Hq); [lia|]. exists (String a p), q. cbn. split_and!; [done|done|lia].
Qed.
Lemma zeros_spec n : all_digits (zeros n) = true ∧ num (zeros n) = 0 ∧ String.length (zeros n) = n.
Proof. induction n as [|n (H1 & H2 & H3)]; cbn [zeros all_digits num String.length]; [done|]. by rewrite H1, H2, H3. Qed.
(** The digits around the point. *)
Definition padded (d : decimalAmount) : string :=
  let digits := decimal_text (coefficient d) in
  if (String.length digits <=? scale d)%nat then zeros (scale d - String.length digits + 1) +:+ digits else digits.
Lemma padded_spec d : 0 ≤ coefficient d →
  all_digits (padded d) = true ∧ num (padded d) = coefficient d
  ∧ String.length (padded d) = Nat.max (String.length (decimal_text (coefficient d))) (S (scale d))
  ∧ match padded d with EmptyString => False | String a rest => a = "0"%char → (String.length rest ≤ scale d)%nat end.
Proof.
  intros Hc. destruct (decimal_text_whole _ Hc) as [[Hd Hw] Hn]. unfold padded. destruct (Nat.leb_spec (String.length (decimal_text (coefficient d))) (scale d)) as [Hle|Hgt].
  - set (k := (scale d - _ + 1)%nat). destruct (zeros_spec k) as (Z1 & Z2 & Z3). rewrite all_digits_app, num_app, length_append, Z1, Z2, Z3, Hn, Hd.
    split_and!; [done|lia|lia|]. destruct k as [|k'] eqn:Ek; [lia|]. cbn [zeros]. rewrite append_cons, length_append. intros _. destruct (zeros_spec k') as (_ & _ & ->). lia.
  - split_and!; [done|done|lia|]. destruct (decimal_text (coefficient d)) as [|a t]; [done|]. intros E. rewrite (Hw E). cbn. lia.
Qed.
Lemma print_spells d : 0 ≤ coefficient d →
  ∃ i f, spells (decimal_String d) i f ∧ num (i +:+ f) = coefficient d ∧ String.length f = scale d.
Proof.
  intros Hc. destruct (padded_spec d Hc) as (Hd & Hn & Hl & Hfirst). unfold decimal_String. destruct (Nat.eqb_spec (scale d) 0) as [Hz|Hz].
  { destruct (decimal_text_whole _ Hc) as [Hw Hv]. exists (decimal_text (coefficient d)), "". rewrite append_nil. split; [by split|]. by split. }
  fold (padded d). destruct (cut (padded d) (String.length (padded d) - scale d)) as (i & f & Hif & Hi & Hf); [lia|].
  exists i, f. rewrite <- Hif. split; [|split; [done|lia]]. rewrite Hif, all_digits_app, andb_true_iff in Hd. destruct Hd as [Hdi Hdf].
  split; [|split; [done|]].
  - split; [done|]. rewrite Hif in Hfirst. destruct i as [|a i]; [cbn in Hi; lia|]. rewrite append_cons in Hfirst. intros E. specialize (Hfirst E).
    rewrite length_append in Hfirst. destruct i as [|b i]; [done|cbn in *; lia].
  - rewrite bool_decide_eq_false_2 by (intros ->; cbn in Hf; lia). rewrite <- Hi. replace (scale d) with (String.length f) by lia.
    rewrite Hif. by rewrite substring_prefix, substring_append.
Qed.
Lemma print_length d : 0 ≤ coefficient d →
  String.length (decimal_String d) = if (scale d =? 0)%nat then String.length (decimal_text (coefficient d))
    else S (Nat.max (String.length (decimal_text (coefficient d))) (S (scale d))).
Proof.
  intros Hc. destruct (padded_spec d Hc) as (_ & _ & Hl & _). unfold decimal_String. destruct (Nat.eqb_spec (scale d) 0) as [Hz|Hz]; [done|].
  fold (padded d). destruct (cut (padded d) (String.length (padded d) - scale d)) as (i & f & Hif & Hi & Hf); [lia|].
  rewrite <- Hi at 1. rewrite <- Hi. replace (scale d) with (String.length f) at 1 by lia. rewrite Hif, substring_prefix, substring_append, !length_append. cbn. lia.
Qed.
Lemma parse_print d : 0 ≤ coefficient d → (String.length (decimal_String d) ≤ executionPreviewDecimalMaxLength)%nat →
  parseExecutionPreviewDecimal (decimal_String d) = Ok (drop_zeros (coefficient d) (scale d)).
Proof. intros Hc Hl. destruct (print_spells d Hc) as (i & f & Hs & <- & <-). by apply parse_spells. Qed.
(** Printing what was parsed does not get longer. *)
Lemma text_length c n : 0 ≤ c → 0 ≤ n → c < 10 ^ n → len (decimal_text c) ≤ Z.max 1 n.
Proof. intros Hc Hn Hlt. destruct (decimal_text_whole c Hc) as [Hw Hv]. apply whole_length; [done|done|]. by rewrite Hv. Qed.
Lemma drop_zeros_length c s :
  0 ≤ c → (String.length (decimal_String (drop_zeros c s)) ≤ String.length (decimal_String {| coefficient := c; scale := s |}))%nat.
Proof.
  revert c. induction s as [|s IH]; intros c Hc; [done|]. cbn [drop_zeros]. destruct (Z.rem c 10 =? 0); cbn [negb]; [|done].
  rewrite Z.quot_div_nonneg by lia. assert (0 ≤ c / 10) as Hq by (apply Z.div_pos; lia). etrans; [by apply IH|].
  rewrite !print_length by done. cbn [scale coefficient Nat.eqb].
  assert (String.length (decimal_text (c / 10)) ≤ String.length (decimal_text c))%nat as Hlen.
  { destruct (decimal_text_whole c Hc) as [[Hd Hw] Hv]. pose proof (num_range _ Hd) as [_ Hlt]. rewrite Hv in Hlt.
    pose proof (text_length (c / 10) (len (decimal_text c))). assert (1 ≤ len (decimal_text c)) by (destruct (decimal_text c); [done|cbn; lia]).
    assert (c / 10 ≤ c) by (apply Z.div_le_upper_bound; lia). lia. }
  destruct (s =? 0)%nat; lia.
Qed.

(** ** Round trips *)
Lemma spells_length v i f : spells v i f → String.length v = (String.length i + if (String.length f =? 0)%nat then 0 else S (String.length f))%nat.
Proof.
  intros (_ & _ & ->). case_bool_decide as Hf; [subst f; cbn; lia|]. rewrite !length_append. destruct f; [done|]. cbn. lia.
Qed.
Lemma parse_length v d : parseExecutionPreviewDecimal v = Ok d → (String.length (decimal_String d) ≤ String.length v)%nat.
Proof.
  intros (i & f & Hs & Hl & ->)%parse_inv. rewrite (spells_length _ _ _ Hs). destruct Hs as ((Hi & Hw) & Hf & _).
  assert (all_digits (i +:+ f) = true) as [Hn Hlt]%num_range by (by rewrite all_digits_app, Hi).
  etrans; [by apply drop_zeros_length|]. rewrite print_length by done. cbn [coefficient scale].
  assert (1 ≤ String.length i)%nat by (destruct i; [done|cbn; lia]). rewrite length_append in Hlt.
  pose proof (text_length (num (i +:+ f)) (Z.of_nat (String.length i + String.length f)) Hn ltac:(lia) Hlt).
  destruct (Nat.eqb_spec (String.length f) 0); lia.
Qed.
Lemma parse_canonical v d : parseExecutionPreviewDecimal v = Ok d → parseExecutionPreviewDecimal (decimal_String d) = Ok d ∧ lowest d.
Proof.
  intros H. pose proof (parse_length _ _ H) as Hlen. destruct (parse_inv _ _ H) as (i & f & Hs & Hl & _). destruct (parse_amount _ _ _ _ Hs H) as [Hd _].
  split; [|done]. rewrite parse_print by (apply Hd || lia). by rewrite drop_zeros_id.
Qed.
Lemma decimal_String_inj d e : lowest d → lowest e → decimal_String d = decimal_String e → d = e.
Proof.
  intros Hd He H. destruct (print_spells d (proj1 Hd)) as (i & f & Hs & Hn & Hf). destruct (print_spells e (proj1 He)) as (i' & f' & Hs' & Hn' & Hf').
  rewrite H in Hs. apply split_spells in Hs, Hs'. rewrite Hs in Hs'. injection Hs' as -> Hff.
  assert (f = f') as -> by (destruct (bool_decide_reflect (f = "")), (bool_decide_reflect (f' = "")); congruence). destruct d, e. cbn in *. congruence.
Qed.

(** ** Arithmetic *)
Lemma scaled d s : (scale d ≤ s)%nat → executionPreviewScaleCoefficient d s * 10 ^ Z.of_nat (scale d) = coefficient d * 10 ^ Z.of_nat s.
Proof.
  intros Hs. unfold executionPreviewScaleCoefficient. destruct (Nat.ltb_spec (scale d) s) as [Hlt|Hge].
  - rewrite <- Z.mul_assoc, <- Z.pow_add_r by lia. do 2 f_equal. lia.
  - by replace s with (scale d) by lia.
Qed.
(** An amount as an integer number of [10 ^ -s]. *)
Lemma scaled_amount d s : (scale d ≤ s)%nat → (amount d == executionPreviewScaleCoefficient d s # Z.to_pos (10 ^ Z.of_nat s))%Q.
Proof. intros Hs. unfold Qeq, amount. cbn [Qnum Qden]. rewrite !den_pow. symmetry. by apply scaled. Qed.
Lemma compare_den a b s : ((a # s) ?= (b # s))%Q = (a ?= b).
Proof. unfold Qcompare. cbn. by rewrite <- Zmult_compare_compat_r by lia. Qed.
Lemma Compare_amount d e : Compare d e = (amount d ?= amount e)%Q.
Proof.
  unfold Compare, executionPreviewAlignedCoefficients. set (s := Nat.max (scale d) (scale e)).
  rewrite (scaled_amount d s), (scaled_amount e s) by lia. by rewrite compare_den.
Qed.
Lemma sum_den a b s : ((a # s) + (b # s) == a + b # s)%Q.
Proof. unfold Qeq, Qplus. cbn. rewrite Pos2Z.inj_mul. ring. Qed.
Lemma SumEquals_amount l r t : executionPreviewDecimalSumEquals l r t = true ↔ (amount l + amount r == amount t)%Q.
Proof.
  unfold executionPreviewDecimalSumEquals. set (s := Nat.max (Nat.max (scale l) (scale r)) (scale t)).
  rewrite (scaled_amount l s), (scaled_amount r s), (scaled_amount t s), sum_den, Z.eqb_eq by lia. unfold Qeq. cbn [Qnum Qden].
  split; [by intros ->|]. apply Z.mul_reg_r. lia.
Qed.
Lemma Subtract_ok d e x : Subtract d e = Ok x → lowest x ∧ (amount x == amount d - amount e)%Q ∧ (amount e <= amount d)%Q.
Proof.
  unfold Subtract, executionPreviewAlignedCoefficients. set (s := Nat.max (scale d) (scale e)). intros H. tx_inv.
  match goal with Hg : negb (_ <? _) = true |- _ => apply negb_true_iff, Z.ltb_ge in Hg; rename Hg into Hge end.
  match goal with Hm : match _ with _ => _ end = Ok x |- _ => rename Hm into H end.
  set (y := {| coefficient := _; scale := s |}) in H. destruct (parseExecutionPreviewDecimal (decimal_String y)) as [z|] eqn:E; [|done]. injection H as <-.
  assert (0 ≤ coefficient y) as Hy by (cbn; lia).
  destruct (parse_canonical _ _ E) as [_ Hlow]. destruct (print_spells y Hy) as (i & f & Hs & Hn & Hf).
  destruct (parse_inv _ _ E) as (_ & _ & _ & Hl & _). rewrite (parse_print y Hy Hl) in E. injection E as <-. split; [done|]. split.
  - rewrite drop_zeros_amount by done. rewrite (scaled_amount d s), (scaled_amount e s) by lia. unfold Qminus, Qopp. cbn [Qnum Qden].
    by rewrite sum_den.
  - rewrite (scaled_amount d s), (scaled_amount e s) by lia. unfold Qle. cbn [Qnum Qden]. nia.
Qed.
(** Room for the digits before the point. *)
Lemma Subtract_total d e k :
  0 ≤ coefficient e → (amount e <= amount d)%Q → (amount d < inject_Z (10 ^ k))%Q → 1 ≤ k →
  k + Z.of_nat (Nat.max (scale d) (scale e)) < Z.of_nat executionPreviewDecimalMaxLength → ∃ x, Subtract d e = Ok x.
Proof.
  intros He Hle Hlt Hk Hroom. unfold Subtract, executionPreviewAlignedCoefficients. set (s := Nat.max (scale d) (scale e)) in *.
  rewrite (scaled_amount d s) in Hle, Hlt by lia. rewrite (scaled_amount e s) in Hle by lia.
  set (l := executionPreviewScaleCoefficient d s) in *. set (r := executionPreviewScaleCoefficient e s) in *.
  unfold Qle in Hle. cbn [Qnum Qden] in Hle. apply Z.mul_le_mono_pos_r in Hle; [|lia].
  unfold Qlt, inject_Z in Hlt. cbn [Qnum Qden] in Hlt. rewrite den_pow, Z.mul_1_r, <- Z.pow_add_r in Hlt by lia.
  assert (0 ≤ r) as Hr. { pose proof (scaled e s ltac:(lia)) as E. fold r in E. pose proof (Z.pow_pos_nonneg 10 (Z.of_nat (scale e))). pose proof (Z.pow_pos_nonneg 10 (Z.of_nat s)). nia. }
  rewrite (proj2 (Z.ltb_ge l r)) by done. cbn. set (y := {| coefficient := l - r; scale := s |}).
  assert (0 ≤ coefficient y) as Hy by (cbn; lia). eexists. rewrite (parse_print y Hy); [done|].
  rewrite print_length by done. pose proof (text_length (l - r) (k + Z.of_nat s)). cbn [y coefficient scale]. destruct (s =? 0)%nat; lia.
Qed.
Lemma Subtract_scale d e x : Subtract d e = Ok x → (scale x ≤ Nat.max (scale d) (scale e))%nat.
Proof.
  unfold Subtract, executionPreviewAlignedCoefficients. set (s := Nat.max (scale d) (scale e)). intros H. tx_inv.
  match goal with Hg : negb (_ <? _) = true |- _ => apply negb_true_iff, Z.ltb_ge in Hg; rename Hg into Hge end.
  match goal with Hm : match _ with _ => _ end = Ok x |- _ => rename Hm into H end.
  set (y := {| coefficient := _; scale := s |}) in H. destruct (parseExecutionPreviewDecimal (decimal_String y)) as [z|] eqn:E; [|done]. injection H as <-.
  assert (0 ≤ coefficient y) as Hy by (cbn; lia). destruct (parse_inv _ _ E) as (_ & _ & _ & Hl & _). rewrite (parse_print y Hy Hl) in E. injection E as <-.
  apply drop_zeros_scale.
Qed.
(** ** When a subtraction panics *)
(** [q] written with [s] decimals has at most 128 characters. *)
Definition writable (q : Q) (s : nat) : Prop :=
  match s with
  | O => (q < inject_Z (10 ^ Z.of_nat executionPreviewDecimalMaxLength))%Q
  | S _ => (s + 2 ≤ executionPreviewDecimalMaxLength)%nat ∧ (q < inject_Z (10 ^ (Z.of_nat executionPreviewDecimalMaxLength - 1 - Z.of_nat s)))%Q
  end.
Lemma text_fits c n : 0 ≤ c → 1 ≤ n → len (decimal_text c) ≤ n ↔ c < 10 ^ n.
Proof.
  intros Hc Hn. split; [|intros H; apply text_length in H; lia]. intros Hl. destruct (decimal_text_whole c Hc) as [[Hd _] Hv]. apply num_range in Hd. rewrite Hv in Hd.
  eapply Z.lt_le_trans; [apply Hd|]. apply Z.pow_le_mono_r; lia.
Qed.
Lemma print_fits d : 0 ≤ coefficient d → (String.length (decimal_String d) ≤ executionPreviewDecimalMaxLength)%nat ↔ writable (amount d) (scale d).
Proof.
  intros Hc. rewrite print_length by done. unfold writable, Qlt, amount, inject_Z. cbn [Qnum Qden]. rewrite den_pow. unfold executionPreviewDecimalMaxLength.
  destruct (scale d) as [|s] eqn:Es; cbn [Nat.eqb].
  - pose proof (text_fits (coefficient d) 128 Hc ltac:(lia)). change (10 ^ Z.of_nat 0) with 1. lia.
  - pose proof (text_fits (coefficient d) 127 Hc ltac:(lia)) as Hf. split.
    + intros Hl. split; [lia|]. rewrite <- Z.pow_add_r by lia. replace (Z.of_nat 128 - 1 - Z.of_nat (S s) + Z.of_nat (S s)) with 127 by lia. rewrite Z.mul_1_r. lia.
    + intros [Hs Hl]. rewrite <- Z.pow_add_r in Hl by lia. replace (Z.of_nat 128 - 1 - Z.of_nat (S s) + Z.of_nat (S s)) with 127 in Hl by lia. lia.
Qed.
(** A subtraction fails only by a panic: it would be negative, or its text too long. *)
Lemma Subtract_panic d e why : Subtract d e = Err why →
  ((amount d < amount e)%Q ∧ why = Panicked "execution preview decimal subtraction underflow")
  ∨ ((amount e <= amount d)%Q ∧ why = Panicked "execution preview decimal normalization failed"
     ∧ ¬ writable (amount d - amount e) (Nat.max (scale d) (scale e))).
Proof.
  unfold Subtract, executionPreviewAlignedCoefficients. set (s := Nat.max (scale d) (scale e)). pose proof (scaled_amount d s ltac:(lia)) as Hd. pose proof (scaled_amount e s ltac:(lia)) as He.
  set (l := executionPreviewScaleCoefficient d s) in *. set (r := executionPreviewScaleCoefficient e s) in *.
  destruct (Z.ltb_spec l r) as [Hlt|Hge]; cbn [negb require mbind result_bind].
  { intros [= <-]. left. split; [|done]. rewrite Hd, He. unfold Qlt. cbn [Qnum Qden]. nia. }
  intros H. right. split; [rewrite Hd, He; unfold Qle; cbn [Qnum Qden]; nia|]. destruct (parseExecutionPreviewDecimal _) eqn:Ep in H; [done|]. injection H as <-. split; [done|]. intros Hw.
  assert (0 ≤ coefficient {| coefficient := l - r; scale := s |}) as Hc by (cbn; lia). pose proof (print_fits _ Hc) as Hp. rewrite (parse_print _ Hc) in Ep; [done|].
  apply Hp. cbn [scale]. assert (amount {| coefficient := l - r; scale := s |} == amount d - amount e)%Q as E.
  { rewrite Hd, He. unfold Qminus, Qopp. cbn [Qnum Qden]. by rewrite sum_den. }
  destruct s; cbn [writable] in *; by rewrite E.
Qed.
