(* ===== verification/Preview.v ===== *)
(** * Execution previews

    [internal/wormtrading/execution_preview_builder.go]: which trades a set of wallets
    could open.  The builder normalizes its input, asks the provider for an estimate of
    each market, reads every open position and every request in flight of each wallet
    page by page, and simulates the trades against the USDC of each wallet with exact
    decimals.  Error messages are kept without the position they are formatted with. *)

From S2P Require Import Prelude Prog CashOutTypes CashOutStages CashOutWorker ConnectionTypes ConnectionStore ConnectionService Decimal.
From stdpp Require Import base tactics option list list_numbers sorting strings gmap.
From Stdlib Require Import ZArith Lia Ascii.
#[local] Open Scope Z_scope.

(** ** Provider data *)
Record MarketSummary := { ms_condition_id : string; ms_title : string; ms_last_trade_price : option string }.
Record provider_position := {
  pp_pubkey : string; pp_position_request_pubkey : option string; pp_market : MarketSummary; pp_is_yes : bool;
  pp_leverage : string; pp_total_shares : string; pp_avg_entry_price : string; pp_unrealized_pnl : option string;
  pp_realized_pnl : string; pp_user_liquidity : string; pp_total_liquidity : string; pp_liquidation_price : option string;
  pp_is_closed : bool; pp_created : option Z }.
Record PositionRequest := {
  prq_pubkey : string; prq_type : string; prq_state : string; prq_market : option MarketSummary; prq_is_yes : bool;
  prq_leverage : string; prq_funds : string; prq_price : option string; prq_shares : option string }.
Record EnvelopeMeta := { em_limit : Z; em_next_cursor : option string }.
Record ListMarginPositionsResponse := { lmp_positions : list provider_position; lmp_meta : EnvelopeMeta }.
Record ListPositionRequestsResponse := { lpr_requests : list PositionRequest; lpr_meta : EnvelopeMeta }.
Record MarginPositionEstimate := {
  me_average_price : string; me_total_shares : string; me_total_cost : string; me_best_ask : string; me_worst_fill_price : string;
  me_is_fully_filled : bool; me_fee_amount : string; me_user_funds_needed : string; me_liquidation_price : option string }.
Record EstimateMarginPositionOptions := { eo_market_condition_id : string; eo_funds : string; eo_is_yes : bool }.

(** ** Input and result *)
Record ExecutionPreviewWalletInput (C : Type) := {
  ew_wallet_id : Z; ew_address : string; ew_usdc_balance : string; ew_sol_balance : string; ew_client : option C }.
Record ExecutionPreviewItemInput := {
  ei_event_condition_id : string; ei_market_condition_id : string; ei_is_yes : bool; ei_backend : string; ei_funds : string;
  ei_selectable : bool; ei_unavailable_code : string }.
Record ExecutionPreviewInput (C : Type) := { in_wallets : list (ExecutionPreviewWalletInput C); in_items : list ExecutionPreviewItemInput }.
Record ExecutionPreviewMarketEstimate := {
  ee_market_ordinal : Z; ee_market_condition_id : string; ee_is_yes : bool; ee_funds : string; ee_average_price : string;
  ee_total_shares : string; ee_total_cost : string; ee_best_ask : string; ee_worst_fill_price : string; ee_is_fully_filled : bool;
  ee_fee_amount : string; ee_user_funds_needed : string; ee_liquidation_price : option string; ee_rejection_code : string }.
Record ExecutionPreviewStep := {
  es_ordinal : Z; es_wallet_ordinal : Z; es_market_ordinal : Z; es_wallet_id : Z; es_market_condition_id : string; es_is_yes : bool;
  es_outcome : string; es_reason_code : string; es_existing_kind : string; es_existing_pubkey : string; es_funds : string;
  es_user_funds_needed : string; es_fee_amount : string; es_usdc_balance_before : string; es_usdc_balance_after : string }.
Record ExecutionPreviewResult := { er_estimates : list ExecutionPreviewMarketEstimate; er_steps : list ExecutionPreviewStep }.
Arguments ew_wallet_id {C} _.
Arguments ew_address {C} _.
Arguments ew_usdc_balance {C} _.
Arguments ew_sol_balance {C} _.
Arguments ew_client {C} _.
Arguments in_wallets {C} _.
Arguments in_items {C} _.
Record normalizedExecutionPreviewWallet (C : Type) := { nw_input : ExecutionPreviewWalletInput C; nw_usdc : decimalAmount }.
Arguments nw_input {C} _.
Arguments nw_usdc {C} _.
Record normalizedExecutionPreviewItem := { ni_input : ExecutionPreviewItemInput; ni_backend : string; ni_funds : string }.
Record executionPreviewPosition := {
  xp_pubkey : string; xp_position_request_pubkey : string; xp_is_yes : bool; xp_leverage : string; xp_created_at : option Z }.
Record executionPreviewRequest := { xr_pubkey : string; xr_market_condition_id : string; xr_is_yes : bool }.
(** [map[bool][]T] with both keys. *)
Record sides (T : Type) := { on_no : list T; on_yes : list T }.
Arguments on_no {T} _.
Arguments on_yes {T} _.
Definition at_side {T} (isYes : bool) (s : sides T) : list T := if isYes then on_yes s else on_no s.
Definition push {T} (isYes : bool) (x : T) (s : sides T) : sides T :=
  if isYes then {| on_no := on_no s; on_yes := on_yes s ++ [x] |} else {| on_no := on_no s ++ [x]; on_yes := on_yes s |}.
Definition empty_sides {T} : sides T := {| on_no := []; on_yes := [] |}.
Record executionPreviewExposure := { xe_positions : sides executionPreviewPosition; xe_requests : sides executionPreviewRequest }.
Record executionPreviewWalletExposure := {
  we_markets : gmap string executionPreviewExposure; we_requests : list executionPreviewRequest }.
Inductive build_error :=
| BuildError (err : preview_error)
| BuildContextError (err : go_error)
| ExecutionPreviewEstimatePhaseError (err : preview_error)
| ExecutionPreviewWalletExposurePhaseError (wallet_ordinal wallet_id : Z) (err : preview_error).

(** ** Constants *)
Definition ExecutionPreviewOutcomeMarketPositionExists : string := "MARKET_POSITION_EXISTS".
Definition ExecutionPreviewOutcomeWalletRequestInFlight : string := "WALLET_REQUEST_IN_FLIGHT".
Definition ExecutionPreviewOutcomeMarketUnavailable : string := "MARKET_UNAVAILABLE".
Definition ExecutionPreviewOutcomeEstimateRejected : string := "ESTIMATE_REJECTED".
Definition ExecutionPreviewOutcomeInsufficientUSDC : string := "INSUFFICIENT_USDC".
Definition ExecutionPreviewOutcomeSkippedAfterInsufficientUSDC : string := "SKIPPED_AFTER_INSUFFICIENT_USDC".
Definition ExecutionPreviewOutcomeReady : string := "READY".
Definition executionPreviewExistingPosition : string := "POSITION".
Definition executionPreviewExistingRequest : string := "REQUEST".
Definition executionPreviewBackendPolymarket : string := "polymarket".
Definition executionPreviewBackendHyperliquid : string := "hyperliquid".
Definition executionPreviewPolymarketFunds : string := "5".
Definition executionPreviewHyperliquidFunds : string := "1".
Definition executionPreviewPageSize : Z := 100.
Definition wormErrorRejected : string := "WORM_REJECTED".

(** ** Validation *)
Definition isCanonicalNonEmptyString (value : string) : bool :=
  negb (bool_decide (value = EmptyString)) && bool_decide (value = trim_space value) && negb (containsControlCharacter value).
Definition optional (p : string → bool) (value : option string) : bool := match value with Some v => p v | None => true end.
Definition isInFlightPositionRequestState (state : string) : bool :=
  bool_decide (to_lower (trim_space state) ∈ ["created"; "funding_processing"; "processing"; "order_placed"; "refund_processing"]).
(** [wormOpenPositionFromProvider] returns no error. *)
Definition valid_open_position (position : provider_position) : bool :=
  let market := pp_market position in
  isCanonicalNonEmptyString (pp_pubkey position) && isCanonicalNonEmptyString (ms_condition_id market)
  && isCanonicalNonEmptyString (ms_title market)
  && validNonNegativeDecimalStrings [pp_leverage position; pp_total_shares position; pp_avg_entry_price position;
       pp_user_liquidity position; pp_total_liquidity position]
  && isDecimalString (pp_realized_pnl position)
  && optional isNonNegativeDecimalString (pp_liquidation_price position)
  && optional isDecimalString (pp_unrealized_pnl position)
  && optional isNonNegativeDecimalString (ms_last_trade_price market).
(** [wormInFlightRequestFromProvider] returns no error. *)
Definition valid_in_flight_request (request : PositionRequest) : bool :=
  let requestType := to_lower (trim_space (prq_type request)) in
  match prq_market request with
  | None => false
  | Some market =>
      isCanonicalNonEmptyString (prq_pubkey request) && (bool_decide (requestType = "market") || bool_decide (requestType = "limit"))
      && isCanonicalNonEmptyString (prq_state request) && isCanonicalNonEmptyString (ms_condition_id market)
      && isCanonicalNonEmptyString (ms_title market) && validNonNegativeDecimalStrings [prq_leverage request; prq_funds request]
      && optional isNonNegativeDecimalString (prq_price request) && optional isNonNegativeDecimalString (prq_shares request)
      && optional isNonNegativeDecimalString (ms_last_trade_price market)
  end.
Definition executionPreviewFundsForBackend (backend : string) : string * bool :=
  if bool_decide (backend = executionPreviewBackendPolymarket) then (executionPreviewPolymarketFunds, true)
  else if bool_decide (backend = executionPreviewBackendHyperliquid) then (executionPreviewHyperliquidFunds, true)
  else ("0", false).
Definition isExecutionPreviewEstimateRejection (err : go_error) : bool :=
  match as_worm_error err with
  | None => false
  | Some e =>
      let code := we_status_code e in
      if (code <? 400) || (500 <=? code) then false
      else negb (bool_decide (code ∈ [401; 403; 408; 425; 429]))
  end.

Section Builder.
Context {SL : SolanaLib} {CL : ChallengeLib} {C : Type}.
Definition validExecutionPreviewConditionID (value : string) : bool :=
  if bool_decide (value = EmptyString) || negb (bool_decide (value = trim_space value)) then false
  else match public_key_from_base58 value with
       | Some publicKey => bool_decide (public_key_string publicKey = value)
       | None => false
       end.

(** ** Normalizing the input *)
Fixpoint normalize_wallets (wallets : list (ExecutionPreviewWalletInput C)) (seenWalletIDs : gset Z) (seenAddresses : gset string) :
    result preview_error (list (normalizedExecutionPreviewWallet C)) :=
  match wallets with
  | [] => Ok []
  | w :: wallets' =>
      _ ← (match normalizeWormWalletReference (ew_wallet_id w) (ew_address w) with
           | Ok _ => Ok tt
           | Err _ => Err (PreviewError "wallet is invalid")
           end);
      _ ← require (bool_decide (is_Some (ew_client w))) (PreviewError "wallet read client is required");
      _ ← require (negb (bool_decide (ew_wallet_id w ∈ seenWalletIDs))) (PreviewError "wallet duplicates wallet_id");
      _ ← require (negb (bool_decide (ew_address w ∈ seenAddresses))) (PreviewError "wallet duplicates address");
      usdc ← (match parseExecutionPreviewDecimal (ew_usdc_balance w) with
              | Ok d => Ok d | Err _ => Err (PreviewError "wallet USDC balance is invalid") end);
      sol ← (match parseExecutionPreviewDecimal (ew_sol_balance w) with
             | Ok d => Ok d | Err _ => Err (PreviewError "wallet SOL balance is invalid") end);
      rest ← normalize_wallets wallets' ({[ew_wallet_id w]} ∪ seenWalletIDs) ({[ew_address w]} ∪ seenAddresses);
      Ok ({| nw_input := {| ew_wallet_id := ew_wallet_id w; ew_address := ew_address w; ew_usdc_balance := decimal_String usdc;
                            ew_sol_balance := decimal_String sol; ew_client := ew_client w |};
             nw_usdc := usdc |} :: rest)
  end.
Definition check_item (item : ExecutionPreviewItemInput) (supportedBackend : bool) (expectedFunds : string) (funds : decimalAmount) :
    result preview_error unit :=
  if ei_selectable item then
    require (supportedBackend && bool_decide (decimal_String funds = expectedFunds) && bool_decide (ei_unavailable_code item = EmptyString))
      (PreviewError "market selectable configuration is invalid")
  else
    _ ← require (isCanonicalNonEmptyString (ei_unavailable_code item)) (PreviewError "market unavailable code is required");
    if supportedBackend then require (bool_decide (decimal_String funds = expectedFunds)) (PreviewError "market funds do not match backend")
    else require (IsZero funds) (PreviewError "market unsupported backend must use zero funds").
Fixpoint normalize_items (items : list ExecutionPreviewItemInput) (seenMarkets : gset string) :
    result preview_error (list normalizedExecutionPreviewItem) :=
  match items with
  | [] => Ok []
  | item :: items' =>
      _ ← require (validExecutionPreviewConditionID (ei_event_condition_id item)) (PreviewError "market event condition ID is invalid");
      _ ← require (validExecutionPreviewConditionID (ei_market_condition_id item)) (PreviewError "market condition ID is invalid");
      _ ← require (negb (bool_decide (ei_market_condition_id item ∈ seenMarkets))) (PreviewError "market duplicates condition ID");
      let backend := to_lower (trim_space (ei_backend item)) in
      _ ← require (bool_decide (backend = ei_backend item)
                   && (bool_decide (backend = EmptyString) || isCanonicalNonEmptyString backend)) (PreviewError "market backend is invalid");
      let '(expectedFunds, supportedBackend) := executionPreviewFundsForBackend backend in
      funds ← (match parseExecutionPreviewDecimal (ei_funds item) with
               | Ok d => Ok d | Err _ => Err (PreviewError "market funds are invalid") end);
      _ ← check_item item supportedBackend expectedFunds funds;
      rest ← normalize_items items' ({[ei_market_condition_id item]} ∪ seenMarkets);
      Ok ({| ni_input := {| ei_event_condition_id := ei_event_condition_id item; ei_market_condition_id := ei_market_condition_id item;
                            ei_is_yes := ei_is_yes item; ei_backend := backend; ei_funds := decimal_String funds;
                            ei_selectable := ei_selectable item; ei_unavailable_code := ei_unavailable_code item |};
             ni_backend := backend; ni_funds := decimal_String funds |} :: rest)
  end.
Definition normalizeExecutionPreviewInput (input : ExecutionPreviewInput C) :
    result preview_error (list (normalizedExecutionPreviewWallet C) * list normalizedExecutionPreviewItem) :=
  _ ← require (negb (Nat.eqb (length (in_wallets input)) 0)) (PreviewError "execution preview requires at least one wallet");
  _ ← require (negb (Nat.eqb (length (in_items input)) 0)) (PreviewError "execution preview requires at least one market");
  wallets ← normalize_wallets (in_wallets input) ∅ ∅;
  items ← normalize_items (in_items input) ∅;
  Ok (wallets, items).

(** ** Operations *)
Inductive preview_op :=
| POpCtxErr
| POpEstimate (options : EstimateMarginPositionOptions)
| POpListMarginPositions (client : C) (cursor : string)
| POpListPositionRequests (client : C) (cursor : string).
Definition preview_resp (o : preview_op) : Type :=
  match o with
  | POpCtxErr => option go_error
  | POpEstimate _ => result go_error (option MarginPositionEstimate)
  | POpListMarginPositions _ _ => result go_error (option ListMarginPositionsResponse)
  | POpListPositionRequests _ _ => result go_error (option ListPositionRequestsResponse)
  end.
Local Abbreviation prog := (program preview_resp).
Local Abbreviation call := (Prog.call (resp := preview_resp)).

(** ** Estimates *)
Definition executionPreviewEstimateKey (item : normalizedExecutionPreviewItem) : string :=
  let zero := String "000" EmptyString in
  ei_market_condition_id (ni_input item) +:+ zero +:+ (if ei_is_yes (ni_input item) then "true" else "false") +:+ zero
  +:+ ni_funds item +:+ zero +:+ "1.0".
Definition parse_field (name value : string) : result preview_error decimalAmount :=
  match parseExecutionPreviewDecimal value with Ok d => Ok d | Err _ => Err (PreviewError (name +:+ " is invalid")) end.
Definition parse_price (name value : string) : result preview_error decimalAmount :=
  d ← parse_field name value;
  _ ← require (match Compare d executionPreviewOne with Gt => false | _ => true end) (PreviewError (name +:+ " is invalid"));
  Ok d.
Definition normalizeExecutionPreviewEstimate (base : ExecutionPreviewMarketEstimate) (provider : MarginPositionEstimate) :
    result preview_error ExecutionPreviewMarketEstimate :=
  averagePrice ← parse_price "average_price" (me_average_price provider);
  bestAsk ← parse_price "best_ask" (me_best_ask provider);
  worstFillPrice ← parse_price "worst_fill_price" (me_worst_fill_price provider);
  totalShares ← parse_field "total_shares" (me_total_shares provider);
  totalCost ← parse_field "total_cost" (me_total_cost provider);
  feeAmount ← parse_field "fee_amount" (me_fee_amount provider);
  needed ← parse_field "user_funds_needed" (me_user_funds_needed provider);
  _ ← require (bool_decide (me_liquidation_price provider = None)) (PreviewError "liquidation_price must be absent for one-times leverage");
  funds ← parse_field "funds" (ee_funds base);
  fee ← parse_field "fee_amount" (decimal_String feeAmount);
  userFundsNeeded ← parse_field "user_funds_needed" (decimal_String needed);
  _ ← require (executionPreviewDecimalSumEquals funds fee userFundsNeeded) (PreviewError "user_funds_needed must equal funds plus fee_amount");
  Ok {| ee_market_ordinal := ee_market_ordinal base; ee_market_condition_id := ee_market_condition_id base; ee_is_yes := ee_is_yes base;
        ee_funds := ee_funds base; ee_average_price := decimal_String averagePrice; ee_total_shares := decimal_String totalShares;
        ee_total_cost := decimal_String totalCost; ee_best_ask := decimal_String bestAsk;
        ee_worst_fill_price := decimal_String worstFillPrice; ee_is_fully_filled := me_is_fully_filled provider;
        ee_fee_amount := decimal_String feeAmount; ee_user_funds_needed := decimal_String needed;
        ee_liquidation_price := ee_liquidation_price base; ee_rejection_code := ee_rejection_code base |}.
Definition base_estimate (index : Z) (item : normalizedExecutionPreviewItem) : ExecutionPreviewMarketEstimate := {|
  ee_market_ordinal := wrap32 (index + 1); ee_market_condition_id := ei_market_condition_id (ni_input item);
  ee_is_yes := ei_is_yes (ni_input item); ee_funds := ni_funds item; ee_average_price := ""; ee_total_shares := ""; ee_total_cost := "";
  ee_best_ask := ""; ee_worst_fill_price := ""; ee_is_fully_filled := false; ee_fee_amount := ""; ee_user_funds_needed := "";
  ee_liquidation_price := None; ee_rejection_code := "" |}.
Definition set_rejected (e : ExecutionPreviewMarketEstimate) : ExecutionPreviewMarketEstimate := {|
  ee_market_ordinal := ee_market_ordinal e; ee_market_condition_id := ee_market_condition_id e; ee_is_yes := ee_is_yes e;
  ee_funds := ee_funds e; ee_average_price := ee_average_price e; ee_total_shares := ee_total_shares e; ee_total_cost := ee_total_cost e;
  ee_best_ask := ee_best_ask e; ee_worst_fill_price := ee_worst_fill_price e; ee_is_fully_filled := ee_is_fully_filled e;
  ee_fee_amount := ee_fee_amount e; ee_user_funds_needed := ee_user_funds_needed e; ee_liquidation_price := ee_liquidation_price e;
  ee_rejection_code := wormErrorRejected |}.
Definition set_ordinal (ordinal : Z) (e : ExecutionPreviewMarketEstimate) : ExecutionPreviewMarketEstimate := {|
  ee_market_ordinal := ordinal; ee_market_condition_id := ee_market_condition_id e; ee_is_yes := ee_is_yes e;
  ee_funds := ee_funds e; ee_average_price := ee_average_price e; ee_total_shares := ee_total_shares e; ee_total_cost := ee_total_cost e;
  ee_best_ask := ee_best_ask e; ee_worst_fill_price := ee_worst_fill_price e; ee_is_fully_filled := ee_is_fully_filled e;
  ee_fee_amount := ee_fee_amount e; ee_user_funds_needed := ee_user_funds_needed e; ee_liquidation_price := ee_liquidation_price e;
  ee_rejection_code := ee_rejection_code e |}.
(** Asking the provider about one selectable market. *)
Definition fetch_estimate (index : Z) (item : normalizedExecutionPreviewItem) : prog (result preview_error ExecutionPreviewMarketEstimate) :=
  let estimate := base_estimate index item in
  r ← call (POpEstimate {| eo_market_condition_id := ei_market_condition_id (ni_input item); eo_funds := ni_funds item;
                           eo_is_yes := ei_is_yes (ni_input item) |});
  mret match r with
       | Err err => if isExecutionPreviewEstimateRejection err then Ok (set_rejected estimate)
                    else Err (PreviewProvider "estimate Worm market" err)
       | Ok None => Err (PreviewError "estimate Worm market: invalid empty response")
       | Ok (Some provider) => normalizeExecutionPreviewEstimate estimate provider
       end.
Fixpoint fetchEstimates (items : list normalizedExecutionPreviewItem) (index : Z) (cache : gmap string ExecutionPreviewMarketEstimate) :
    prog (result preview_error (list ExecutionPreviewMarketEstimate)) :=
  match items with
  | [] => mret (Ok [])
  | item :: items' =>
      if negb (ei_selectable (ni_input item)) then
        prog_try (λ rest, mret (Ok (base_estimate index item :: rest))) (fetchEstimates items' (index + 1) cache)
      else
        let key := executionPreviewEstimateKey item in
        match cache !! key with
        | Some cached =>
            prog_try (λ rest, mret (Ok (set_ordinal (wrap32 (index + 1)) cached :: rest))) (fetchEstimates items' (index + 1) cache)
        | None =>
            prog_try (λ estimate,
              prog_try (λ rest, mret (Ok (estimate :: rest))) (fetchEstimates items' (index + 1) (<[key := estimate]> cache)))
              (fetch_estimate index item)
        end
  end.

(** ** Exposure of a wallet *)
Definition empty_exposure : executionPreviewExposure := {| xe_positions := empty_sides; xe_requests := empty_sides |}.
Definition ensureExecutionPreviewExposure (exposure : executionPreviewWalletExposure) (market : string) : executionPreviewExposure :=
  default empty_exposure (we_markets exposure !! market).
Definition nextExecutionPreviewCursor (current : string) (meta : EnvelopeMeta) (seen : gset string) :
    result preview_error (option string * gset string) :=
  _ ← require (em_limit meta =? executionPreviewPageSize)
        (PreviewError "pagination meta.limit is missing or does not match the requested limit");
  match em_next_cursor meta with
  | None => Ok (None, seen)
  | Some next =>
      if bool_decide (next = EmptyString) then Ok (None, seen)
      else
        _ ← require (isCanonicalNonEmptyString next && (String.length next <=? 4096)%nat && negb (bool_decide (next = current)))
              (PreviewError "pagination cursor is invalid");
        _ ← require (negb (bool_decide (next ∈ seen))) (PreviewError "pagination cursor did not advance");
        Ok (Some next, {[next]} ∪ seen)
  end.
Definition preview_position (p : provider_position) : executionPreviewPosition := {|
  xp_pubkey := pp_pubkey p; xp_position_request_pubkey := default EmptyString (pp_position_request_pubkey p); xp_is_yes := pp_is_yes p;
  xp_leverage := pp_leverage p;
  xp_created_at := match pp_created p with Some created => if 0 <? created then Some created else None | None => None end |}.
Definition add_position (p : provider_position) (exposure : executionPreviewWalletExposure) : executionPreviewWalletExposure :=
  let market := ensureExecutionPreviewExposure exposure (ms_condition_id (pp_market p)) in
  {| we_markets := <[ms_condition_id (pp_market p) :=
       {| xe_positions := push (pp_is_yes p) (preview_position p) (xe_positions market); xe_requests := xe_requests market |}]>
       (we_markets exposure);
     we_requests := we_requests exposure |}.
Record position_scan := { ps_seen : gset string; ps_requests : gset string; ps_exposure : executionPreviewWalletExposure }.
Fixpoint add_positions (positions : list provider_position) (scan : position_scan) : result preview_error position_scan :=
  match positions with
  | [] => Ok scan
  | p :: positions' =>
      _ ← require (negb (pp_is_closed p)) (PreviewError "list open positions returned a closed position");
      _ ← require (valid_open_position p && validExecutionPreviewConditionID (pp_pubkey p)
                   && validExecutionPreviewConditionID (ms_condition_id (pp_market p)))
            (PreviewError "list open positions returned an invalid position");
      _ ← require (optional validExecutionPreviewConditionID (pp_position_request_pubkey p))
            (PreviewError "list open positions returned an invalid position request pubkey");
      _ ← require (negb (bool_decide (pp_pubkey p ∈ ps_seen scan))) (PreviewError "list open positions returned a duplicate pubkey");
      add_positions positions' {|
        ps_seen := {[pp_pubkey p]} ∪ ps_seen scan;
        ps_requests := match pp_position_request_pubkey p with Some r => {[r]} ∪ ps_requests scan | None => ps_requests scan end;
        ps_exposure := add_position p (ps_exposure scan) |}
  end.
(** The loop over pages; [None] when the fuel runs out. *)
Fixpoint fetchAllExecutionPreviewPositions (fuel : nat) (client : C) (cursor : string) (seenCursors : gset string) (scan : position_scan) :
    prog (option (result preview_error (gset string * executionPreviewWalletExposure))) :=
  match fuel with
  | O => mret None
  | S fuel' =>
      r ← call (POpListMarginPositions client cursor);
      match r with
      | Err err => mret (Some (Err (PreviewProvider "list open positions" err)))
      | Ok None => mret (Some (Err (PreviewError "list open positions returned an invalid page")))
      | Ok (Some response) =>
          if executionPreviewPageSize <? Z.of_nat (length (lmp_positions response))
          then mret (Some (Err (PreviewError "list open positions returned an invalid page")))
          else match add_positions (lmp_positions response) scan with
               | Err e => mret (Some (Err e))
               | Ok scan =>
                   match nextExecutionPreviewCursor cursor (lmp_meta response) seenCursors with
                   | Err e => mret (Some (Err e))
                   | Ok (None, _) => mret (Some (Ok (ps_requests scan, ps_exposure scan)))
                   | Ok (Some next, seen) => fetchAllExecutionPreviewPositions fuel' client next seen scan
                   end
               end
      end
  end.
Definition preview_request (r : PositionRequest) (market : MarketSummary) : executionPreviewRequest := {|
  xr_pubkey := prq_pubkey r; xr_market_condition_id := ms_condition_id market; xr_is_yes := prq_is_yes r |}.
Definition add_market_request (entry : executionPreviewRequest) (markets : gmap string executionPreviewExposure) :
    gmap string executionPreviewExposure :=
  let market := default empty_exposure (markets !! xr_market_condition_id entry) in
  <[xr_market_condition_id entry :=
      {| xe_positions := xe_positions market; xe_requests := push (xr_is_yes entry) entry (xe_requests market) |}]> markets.
Definition add_request (entry : executionPreviewRequest) (exposure : executionPreviewWalletExposure) : executionPreviewWalletExposure := {|
  we_markets := add_market_request entry (we_markets exposure); we_requests := we_requests exposure ++ [entry] |}.
Fixpoint add_requests (requests : list PositionRequest) (seen : gset string) (exposure : executionPreviewWalletExposure) :
    result preview_error (gset string * executionPreviewWalletExposure) :=
  match requests with
  | [] => Ok (seen, exposure)
  | r :: requests' =>
      _ ← require (isInFlightPositionRequestState (prq_state r)) (PreviewError "list in-flight position requests returned a terminal request");
      let invalid := PreviewError "list in-flight position requests returned an invalid request" in
      _ ← require (valid_in_flight_request r && validExecutionPreviewConditionID (prq_pubkey r)) invalid;
      market ← of_option (prq_market r) invalid;
      _ ← require (validExecutionPreviewConditionID (ms_condition_id market)) invalid;
      _ ← require (negb (bool_decide (prq_pubkey r ∈ seen))) (PreviewError "list in-flight position requests returned a duplicate pubkey");
      add_requests requests' ({[prq_pubkey r]} ∪ seen) (add_request (preview_request r market) exposure)
  end.
Fixpoint fetchAllExecutionPreviewRequests (fuel : nat) (client : C) (cursor : string) (seenCursors seenPubkeys : gset string)
    (exposure : executionPreviewWalletExposure) : prog (option (result preview_error executionPreviewWalletExposure)) :=
  match fuel with
  | O => mret None
  | S fuel' =>
      r ← call (POpListPositionRequests client cursor);
      match r with
      | Err err => mret (Some (Err (PreviewProvider "list in-flight position requests" err)))
      | Ok None => mret (Some (Err (PreviewError "list in-flight position requests returned an invalid page")))
      | Ok (Some response) =>
          if executionPreviewPageSize <? Z.of_nat (length (lpr_requests response))
          then mret (Some (Err (PreviewError "list in-flight position requests returned an invalid page")))
          else match add_requests (lpr_requests response) seenPubkeys exposure with
               | Err e => mret (Some (Err e))
               | Ok (seenPubkeys, exposure) =>
                   match nextExecutionPreviewCursor cursor (lpr_meta response) seenCursors with
                   | Err e => mret (Some (Err e))
                   | Ok (None, _) => mret (Some (Ok exposure))
                   | Ok (Some next, seen) => fetchAllExecutionPreviewRequests fuel' client next seen seenPubkeys exposure
                   end
               end
      end
  end.
Definition clear_requests (market : executionPreviewExposure) : executionPreviewExposure := {|
  xe_positions := xe_positions market; xe_requests := empty_sides |}.
Definition suppressExecutionPreviewPositionBackedRequests (exposure : executionPreviewWalletExposure) (positionRequestPubkeys : gset string) :
    executionPreviewWalletExposure :=
  if bool_decide (positionRequestPubkeys = ∅) || Nat.eqb (length (we_requests exposure)) 0 then exposure
  else
    let filtered := filter (λ r, xr_pubkey r ∉ positionRequestPubkeys) (we_requests exposure) in
    {| we_markets := foldl (λ markets r, add_market_request r markets) (clear_requests <$> we_markets exposure) filtered;
       we_requests := filtered |}.
Definition position_le (a b : executionPreviewPosition) : bool := String.leb (xp_pubkey a) (xp_pubkey b).
Definition request_le (a b : executionPreviewRequest) : bool := String.leb (xr_pubkey a) (xr_pubkey b).
Definition sort_sides {T} (le : T → T → bool) (s : sides T) : sides T := {| on_no := sort_by le (on_no s); on_yes := sort_by le (on_yes s) |}.
Definition sort_exposure (exposure : executionPreviewWalletExposure) : executionPreviewWalletExposure := {|
  we_markets := (λ m, {| xe_positions := sort_sides position_le (xe_positions m); xe_requests := sort_sides request_le (xe_requests m) |})
                <$> we_markets exposure;
  we_requests := sort_by request_le (we_requests exposure) |}.
Definition no_exposure : executionPreviewWalletExposure := {| we_markets := ∅; we_requests := [] |}.
Definition fetchExecutionPreviewWalletExposure (fuel : nat) (client : C) : prog (option (result preview_error executionPreviewWalletExposure)) :=
  positions ← fetchAllExecutionPreviewPositions fuel client EmptyString ∅ {| ps_seen := ∅; ps_requests := ∅; ps_exposure := no_exposure |};
  match positions with
  | None => mret None
  | Some (Err e) => mret (Some (Err e))
  | Some (Ok (positionRequestPubkeys, exposure)) =>
      requests ← fetchAllExecutionPreviewRequests fuel client EmptyString ∅ ∅ exposure;
      match requests with
      | None => mret None
      | Some (Err e) => mret (Some (Err e))
      | Some (Ok exposure) =>
          mret (Some (Ok (sort_exposure (suppressExecutionPreviewPositionBackedRequests exposure positionRequestPubkeys))))
      end
  end.

(** ** Simulation *)
Definition firstExecutionPreviewMarketPosition (market : option executionPreviewExposure) : option executionPreviewPosition :=
  match market with
  | None => None
  | Some m =>
      match on_no (xe_positions m), on_yes (xe_positions m) with
      | [], [] => None
      | [], y :: _ => Some y
      | n :: _, [] => Some n
      | n :: _, y :: _ => if String.ltb (xp_pubkey n) (xp_pubkey y) then Some n else Some y
      end
  end.
Definition firstRequest (exposure : executionPreviewWalletExposure) : option executionPreviewRequest := head (we_requests exposure).
Record simulation := { sm_remaining : decimalAmount; sm_blocked_usdc : bool; sm_blocked_reason : string }.
Definition classified (s : ExecutionPreviewStep) (outcome reason kind pubkey : string) : ExecutionPreviewStep := {|
  es_ordinal := es_ordinal s; es_wallet_ordinal := es_wallet_ordinal s; es_market_ordinal := es_market_ordinal s;
  es_wallet_id := es_wallet_id s; es_market_condition_id := es_market_condition_id s; es_is_yes := es_is_yes s;
  es_outcome := outcome; es_reason_code := reason; es_existing_kind := kind; es_existing_pubkey := pubkey; es_funds := es_funds s;
  es_user_funds_needed := es_user_funds_needed s; es_fee_amount := es_fee_amount s;
  es_usdc_balance_before := es_usdc_balance_before s; es_usdc_balance_after := es_usdc_balance_after s |}.
Definition ready (s : ExecutionPreviewStep) (after : string) : ExecutionPreviewStep := {|
  es_ordinal := es_ordinal s; es_wallet_ordinal := es_wallet_ordinal s; es_market_ordinal := es_market_ordinal s;
  es_wallet_id := es_wallet_id s; es_market_condition_id := es_market_condition_id s; es_is_yes := es_is_yes s;
  es_outcome := ExecutionPreviewOutcomeReady; es_reason_code := ""; es_existing_kind := ""; es_existing_pubkey := ""; es_funds := es_funds s;
  es_user_funds_needed := es_user_funds_needed s; es_fee_amount := es_fee_amount s;
  es_usdc_balance_before := es_usdc_balance_before s; es_usdc_balance_after := after |}.
Definition block_wallet (st : simulation) (reason : string) : simulation := {|
  sm_remaining := sm_remaining st; sm_blocked_usdc := sm_blocked_usdc st; sm_blocked_reason := reason |}.
(** The body of the inner loop. *)
Definition preview_step (exposure : executionPreviewWalletExposure) (item : normalizedExecutionPreviewItem)
    (estimate : ExecutionPreviewMarketEstimate) (step : ExecutionPreviewStep) (st : simulation) :
    result (stop preview_error) (ExecutionPreviewStep * simulation) :=
  let marketExposure := we_markets exposure !! ei_market_condition_id (ni_input item) in
  if negb (bool_decide (sm_blocked_reason st = EmptyString)) then
    Ok (classified step (sm_blocked_reason st) (sm_blocked_reason st) "" "", st)
  else match firstExecutionPreviewMarketPosition marketExposure with
  | Some position =>
      Ok (classified step ExecutionPreviewOutcomeMarketPositionExists ExecutionPreviewOutcomeMarketPositionExists
            executionPreviewExistingPosition (xp_pubkey position),
          block_wallet st ExecutionPreviewOutcomeMarketPositionExists)
  | None =>
  match firstRequest exposure with
  | Some request =>
      Ok (classified step ExecutionPreviewOutcomeWalletRequestInFlight ExecutionPreviewOutcomeWalletRequestInFlight
            executionPreviewExistingRequest (xr_pubkey request),
          block_wallet st ExecutionPreviewOutcomeWalletRequestInFlight)
  | None =>
  if sm_blocked_usdc st then
    Ok (classified step ExecutionPreviewOutcomeSkippedAfterInsufficientUSDC ExecutionPreviewOutcomeInsufficientUSDC "" "", st)
  else if negb (ei_selectable (ni_input item)) then
    Ok (classified step ExecutionPreviewOutcomeMarketUnavailable (ei_unavailable_code (ni_input item)) "" "", st)
  else if negb (bool_decide (ee_rejection_code estimate = EmptyString)) then
    Ok (classified step ExecutionPreviewOutcomeEstimateRejected (ee_rejection_code estimate) "" "", st)
  else
    needed ← (match parseExecutionPreviewDecimal (ee_user_funds_needed estimate) with
              | Ok d => Ok d | Err _ => Err (Returned (PreviewError "market normalized estimate is invalid")) end);
    match Compare (sm_remaining st) needed with
    | Lt => Ok (classified step ExecutionPreviewOutcomeInsufficientUSDC ExecutionPreviewOutcomeInsufficientUSDC "" "",
                {| sm_remaining := sm_remaining st; sm_blocked_usdc := true; sm_blocked_reason := sm_blocked_reason st |})
    | _ =>
        remaining ← Subtract (sm_remaining st) needed;
        Ok (ready step (decimal_String remaining),
            {| sm_remaining := remaining; sm_blocked_usdc := sm_blocked_usdc st; sm_blocked_reason := sm_blocked_reason st |})
    end
  end end.
Definition new_step (wallet : normalizedExecutionPreviewWallet C) (item : normalizedExecutionPreviewItem)
    (estimate : ExecutionPreviewMarketEstimate) (ordinal walletIndex itemIndex : Z) (remaining : decimalAmount) : ExecutionPreviewStep := {|
  es_ordinal := ordinal; es_wallet_ordinal := wrap32 (walletIndex + 1); es_market_ordinal := wrap32 (itemIndex + 1);
  es_wallet_id := ew_wallet_id (nw_input wallet); es_market_condition_id := ei_market_condition_id (ni_input item);
  es_is_yes := ei_is_yes (ni_input item); es_outcome := ""; es_reason_code := ""; es_existing_kind := ""; es_existing_pubkey := "";
  es_funds := ni_funds item; es_user_funds_needed := ee_user_funds_needed estimate; es_fee_amount := ee_fee_amount estimate;
  es_usdc_balance_before := decimal_String remaining; es_usdc_balance_after := decimal_String remaining |}.
Fixpoint wallet_steps (wallet : normalizedExecutionPreviewWallet C) (exposure : executionPreviewWalletExposure)
    (items : list (normalizedExecutionPreviewItem * ExecutionPreviewMarketEstimate)) (walletIndex itemIndex ordinal : Z) (st : simulation) :
    result (stop preview_error) (list ExecutionPreviewStep) :=
  match items with
  | [] => Ok []
  | (item, estimate) :: items' =>
      let step := new_step wallet item estimate (ordinal + 1) walletIndex itemIndex (sm_remaining st) in
      r ← preview_step exposure item estimate step st;
      rest ← wallet_steps wallet exposure items' walletIndex (itemIndex + 1) (ordinal + 1) r.2;
      Ok (r.1 :: rest)
  end.
Fixpoint all_steps (wallets : list (normalizedExecutionPreviewWallet C * executionPreviewWalletExposure))
    (items : list (normalizedExecutionPreviewItem * ExecutionPreviewMarketEstimate)) (walletIndex ordinal : Z) :
    result (stop preview_error) (list ExecutionPreviewStep) :=
  match wallets with
  | [] => Ok []
  | (wallet, exposure) :: wallets' =>
      steps ← wallet_steps wallet exposure items walletIndex 0 ordinal
                {| sm_remaining := nw_usdc wallet; sm_blocked_usdc := false; sm_blocked_reason := "" |};
      rest ← all_steps wallets' items (walletIndex + 1) (ordinal + Z.of_nat (length items));
      Ok (steps ++ rest)
  end.
Definition buildExecutionPreviewSteps (wallets : list (normalizedExecutionPreviewWallet C)) (items : list normalizedExecutionPreviewItem)
    (estimates : list ExecutionPreviewMarketEstimate) (exposures : list executionPreviewWalletExposure) :
    result (stop preview_error) (list ExecutionPreviewStep) :=
  _ ← require (Nat.eqb (length estimates) (length items) && Nat.eqb (length exposures) (length wallets))
        (Returned (PreviewError "execution preview builder received mismatched observations"));
  _ ← require (Z.of_nat (length wallets) * Z.of_nat (length items) <=? max_int64) (Returned (PreviewError "execution preview step count exceeds int64"));
  all_steps (zip wallets exposures) (zip items estimates) 0 0.

(** ** Build *)
Fixpoint fetch_exposures (fuel : nat) (wallets : list (normalizedExecutionPreviewWallet C)) (index : Z) :
    prog (option (result (stop build_error) (list executionPreviewWalletExposure))) :=
  match wallets with
  | [] => mret (Some (Ok []))
  | wallet :: wallets' =>
      ctx ← call POpCtxErr;
      match ctx with
      | Some err => mret (Some (Err (Returned (BuildContextError err))))
      | None =>
          match ew_client (nw_input wallet) with
          | None => mret (Some (Err (Panicked "nil client")))
          | Some client =>
              r ← fetchExecutionPreviewWalletExposure fuel client;
              match r with
              | None => mret None
              | Some (Err e) =>
                  mret (Some (Err (Returned (ExecutionPreviewWalletExposurePhaseError (wrap32 (index + 1)) (ew_wallet_id (nw_input wallet)) e))))
              | Some (Ok exposure) =>
                  rest ← fetch_exposures fuel wallets' (index + 1);
                  mret (match rest with Some (Ok l) => Some (Ok (exposure :: l)) | other => other end)
              end
          end
      end
  end.
(** A panic of the simulation is no error of [Build]: it leaves [Build] as it left [Subtract]. *)
Definition Build (fuel : nat) (input : ExecutionPreviewInput C) : prog (option (result (stop build_error) ExecutionPreviewResult)) :=
  match normalizeExecutionPreviewInput input with
  | Err e => mret (Some (Err (Returned (BuildError e))))
  | Ok (wallets, items) =>
      r ← fetchEstimates items 0 ∅;
      match r with
      | Err e => mret (Some (Err (Returned (ExecutionPreviewEstimatePhaseError e))))
      | Ok estimates =>
          x ← fetch_exposures fuel wallets 0;
          match x with
          | None => mret None
          | Some (Err e) => mret (Some (Err e))
          | Some (Ok exposures) =>
              mret (Some (match buildExecutionPreviewSteps wallets items estimates exposures with
                          | Err (Returned e) => Err (Returned (BuildError e))
                          | Err (Panicked message) => Err (Panicked message)
                          | Ok steps => Ok {| er_estimates := estimates; er_steps := steps |}
                          end))
          end
      end
  end.
End Builder.
