(* ===== verification/PreviewExposure.v ===== *)
(** * Execution previews: reading a wallet completely

    Whatever the provider replies, an exposure that is returned describes exactly what
    the pages said: the loops follow the cursors from the first page to the last one,
    and the markets and requests are those of all pages. *)

From S2P Require Import Prog Prelude CashOutTypes CashOutStages CashOutWorker ConnectionTypes ConnectionStore ConnectionService Decimal Preview.
From stdpp Require Import base tactics option list list_numbers sorting strings gmap.
From Stdlib Require Import ZArith Lia Ascii.
#[local] Open Scope Z_scope.

(** ** Pages *)
Definition next_of (m : EnvelopeMeta) : option string :=
  match em_next_cursor m with Some next => if bool_decide (next = EmptyString) then None else Some next | None => None end.
(** Pages read one after the other, each with the cursor it was asked for. *)
Inductive walk {P} (meta : P → EnvelopeMeta) : string → list (string * P) → Prop :=
| walk_last c p : next_of (meta p) = None → walk meta c [(c, p)]
| walk_next c p next l : next_of (meta p) = Some next → walk meta next l → walk meta c ((c, p) :: l).
Lemma next_cursor_ok current meta seen r :
  nextExecutionPreviewCursor current meta seen = Ok r →
  r.1 = next_of meta ∧ match r.1 with Some next => (next ∉ seen) ∧ r.2 = {[next]} ∪ seen | None => True end.
Proof.
  unfold nextExecutionPreviewCursor, next_of. intros H. tx_inv. destruct (em_next_cursor meta) as [next|]; [|simplify_eq; by split].
  case_bool_decide; tx_inv; simplify_eq; [by split|]. bool_prop. done.
Qed.

(** ** What the pages say *)
Section Content.
Context {SL : SolanaLib} {CL : ChallengeLib} {C : Type}.
Definition positions_of (pages : list (string * ListMarginPositionsResponse)) : list provider_position := pages ≫= λ p, lmp_positions p.2.
Definition requests_of (pages : list (string * ListPositionRequestsResponse)) : list PositionRequest := pages ≫= λ p, lpr_requests p.2.
Definition backed (positions : list provider_position) : gset string := list_to_set (omap pp_position_request_pubkey positions).
Definition in_flight (r : PositionRequest) : option executionPreviewRequest := preview_request r <$> prq_market r.
Definition at_market (m : string) (x : executionPreviewWalletExposure) : executionPreviewExposure := default empty_exposure (we_markets x !! m).
Definition held (m : string) (isYes : bool) (x : executionPreviewWalletExposure) : list executionPreviewPosition :=
  at_side isYes (xe_positions (at_market m x)).
Definition traded (m : string) (isYes : bool) (p : provider_position) : Prop := ms_condition_id (pp_market p) = m ∧ pp_is_yes p = isYes.
#[export] Instance traded_dec m isYes p : Decision (traded m isYes p).
Proof. unfold traded. apply _. Defined.

Lemma held_add_position m isYes p x :
  held m isYes (add_position p x) = held m isYes x ++ if decide (traded m isYes p) then [preview_position p] else [].
Proof.
  unfold held, at_market, add_position, ensureExecutionPreviewExposure. cbn [we_markets].
  destruct (decide (ms_condition_id (pp_market p) = m)) as [<-|Hne].
  - rewrite lookup_insert_eq. cbn [from_option id default xe_positions]. unfold push, at_side.
    destruct (decide (traded _ isYes p)) as [[_ <-]|Hno]; [by destruct (pp_is_yes p)|]. rewrite app_nil_r.
    assert (pp_is_yes p ≠ isYes) by (intros E; by apply Hno). by destruct (pp_is_yes p), isYes.
  - rewrite lookup_insert_ne by done. rewrite decide_False by (by intros [? _]). by rewrite app_nil_r.
Qed.
Lemma held_add_positions m isYes l x :
  held m isYes (foldl (λ x p, add_position p x) x l) = held m isYes x ++ (preview_position <$> filter (traded m isYes) l).
Proof.
  revert x. induction l as [|p l IH]; intros x; cbn [foldl]; [by rewrite app_nil_r|]. rewrite IH, held_add_position, filter_cons, <- app_assoc.
  by destruct (decide (traded m isYes p)).
Qed.
Lemma requests_add_positions l x : we_requests (foldl (λ x p, add_position p x) x l) = we_requests x.
Proof. revert x. induction l as [|p l IH]; intros x; cbn [foldl]; [done|]. by rewrite IH. Qed.
Lemma add_positions_ok l scan scan' :
  add_positions l scan = Ok scan' →
  ps_exposure scan' = foldl (λ x p, add_position p x) (ps_exposure scan) l ∧ ps_requests scan' = backed l ∪ ps_requests scan
  ∧ ps_seen scan' = list_to_set (pp_pubkey <$> l) ∪ ps_seen scan ∧ NoDup (pp_pubkey <$> l) ∧ ∀ p, p ∈ l → pp_is_closed p = false ∧ pp_pubkey p ∉ ps_seen scan.
Proof.
  revert scan. induction l as [|p l IH]; intros scan H; cbn [add_positions] in H.
  { injection H as <-. cbn. split_and!; [done|set_solver|set_solver|constructor|by intros ? ?%not_elem_of_nil]. }
  tx_inv. bool_prop. match goal with Ha : add_positions _ _ = Ok _ |- _ => apply IH in Ha as (J1 & J2 & J3 & J4 & J5) end. cbn [foldl fmap list_fmap ps_exposure ps_requests ps_seen] in *. split_and!.
  - done.
  - rewrite J2. unfold backed. cbn. destruct (pp_position_request_pubkey p); cbn; set_solver.
  - rewrite J3. cbn. set_solver.
  - apply NoDup_cons. split; [|done]. intros (q & Hq & Hin)%list_elem_of_fmap. destruct (J5 q Hin) as [_ Hn]. set_solver.
  - intros q [->|Hq]%elem_of_cons; [done|]. destruct (J5 q Hq). set_solver.
Qed.
Lemma add_requests_ok l seen x seen' x' :
  add_requests l seen x = Ok (seen', x') →
  x' = foldl (λ x r, add_request r x) x (omap in_flight l) ∧ NoDup (prq_pubkey <$> l)
  ∧ seen' = list_to_set (prq_pubkey <$> l) ∪ seen ∧ ∀ r, r ∈ l → (prq_pubkey r ∉ seen) ∧ is_Some (in_flight r) ∧ isInFlightPositionRequestState (prq_state r) = true.
Proof.
  revert seen x. induction l as [|r l IH]; intros seen x H; cbn [add_requests] in H.
  { injection H as <- <-. cbn. split_and!; [done|constructor|set_solver|by intros ? ?%not_elem_of_nil]. }
  cbv zeta in H. tx_inv. match goal with Ho : prq_market r = Some ?m |- _ => rename m into market, Ho into Hm end.
  bool_prop. match goal with Ha : add_requests _ _ _ = Ok _ |- _ => apply IH in Ha as (J1 & J2 & J3 & J4) end.
  assert (in_flight r = Some (preview_request r market)) as Hin by (unfold in_flight; by rewrite Hm). cbn [omap list_omap fmap list_fmap]. rewrite Hin. split_and!.
  - done.
  - apply NoDup_cons. split; [|done]. intros (q & Hq & Hqin)%list_elem_of_fmap. destruct (J4 q Hqin) as [Hn _]. set_solver.
  - rewrite J3. cbn. set_solver.
  - intros q [->|Hq]%elem_of_cons; [split_and!; [done|by eexists|done]|]. destruct (J4 q Hq) as (? & ? & ?). split_and!; [set_solver|done|done].
Qed.
Lemma held_add_request m isYes r x : held m isYes (add_request r x) = held m isYes x.
Proof.
  unfold held, at_market, add_request, add_market_request. cbn [we_markets]. destruct (decide (xr_market_condition_id r = m)) as [<-|Hne].
  - by rewrite lookup_insert_eq.
  - by rewrite lookup_insert_ne.
Qed.
Lemma add_requests_fold l x :
  we_requests (foldl (λ x r, add_request r x) x l) = we_requests x ++ l ∧ ∀ m isYes, held m isYes (foldl (λ x r, add_request r x) x l) = held m isYes x.
Proof.
  revert x. induction l as [|r l IH]; intros x; cbn [foldl]; [by rewrite app_nil_r|]. destruct (IH (add_request r x)) as [-> H]. split.
  - cbn. by rewrite <- app_assoc.
  - intros m isYes. by rewrite H, held_add_request.
Qed.
Lemma held_markets m isYes x y :
  (∀ k, xe_positions (default empty_exposure (we_markets x !! k)) = xe_positions (default empty_exposure (we_markets y !! k))) →
  held m isYes x = held m isYes y.
Proof. intros H. unfold held, at_market. by rewrite H. Qed.
Lemma positions_market_request r (markets : gmap string executionPreviewExposure) k :
  xe_positions (default empty_exposure (add_market_request r markets !! k)) = xe_positions (default empty_exposure (markets !! k)).
Proof.
  unfold add_market_request. destruct (decide (xr_market_condition_id r = k)) as [<-|Hne]; [by rewrite lookup_insert_eq|by rewrite lookup_insert_ne].
Qed.
Lemma filter_all {T} (P : T → Prop) `{∀ x, Decision (P x)} (l : list T) : (∀ x, P x) → filter P l = l.
Proof. intros HP. induction l as [|x l IH]; [done|]. by rewrite filter_cons_True, IH. Qed.
Lemma suppress_ok x keys :
  we_requests (suppressExecutionPreviewPositionBackedRequests x keys) = filter (λ r, xr_pubkey r ∉ keys) (we_requests x)
  ∧ ∀ m isYes, held m isYes (suppressExecutionPreviewPositionBackedRequests x keys) = held m isYes x.
Proof.
  unfold suppressExecutionPreviewPositionBackedRequests. destruct (bool_decide_reflect (keys = ∅)) as [->|Hk]; cbn [orb].
  { split; [|done]. symmetry. apply filter_all. intros. set_solver. }
  destruct (Nat.eqb_spec (length (we_requests x)) 0) as [Hz|Hz]; [apply nil_length_inv in Hz; by rewrite Hz|]. split; [done|].
  intros m isYes. apply held_markets. intros k. cbn [we_markets].
  assert (∀ l (markets : gmap string executionPreviewExposure),
    xe_positions (default empty_exposure (foldl (λ ms r, add_market_request r ms) markets l !! k)) = xe_positions (default empty_exposure (markets !! k))) as Hfold.
  { induction l as [|r l IH]; intros markets; cbn [foldl]; [done|]. by rewrite IH, positions_market_request. }
  rewrite Hfold, lookup_fmap. by destruct (we_markets x !! k).
Qed.
Lemma sort_exposure_ok x :
  we_requests (sort_exposure x) ≡ₚ we_requests x ∧ ∀ m isYes, held m isYes (sort_exposure x) ≡ₚ held m isYes x.
Proof.
  split; [apply sort_by_Permutation|]. intros m isYes. unfold held, at_market, sort_exposure. cbn [we_markets]. rewrite lookup_fmap.
  destruct (we_markets x !! m) as [y|]; [|done]. cbn. destruct isYes; apply sort_by_Permutation.
Qed.

(** ** Runs of the loops *)
Abbreviation preview_event := ({o : preview_op (C := C) & preview_resp o}).
Abbreviation preview_log := (list preview_event).
Definition position_event (client : C) (cp : string * ListMarginPositionsResponse) : preview_event :=
  existT (POpListMarginPositions client cp.1) (Ok (Some cp.2)).
Definition request_event (client : C) (cp : string * ListPositionRequestsResponse) : preview_event :=
  existT (POpListPositionRequests client cp.1) (Ok (Some cp.2)).
Lemma backed_app l k : backed (l ++ k) = backed l ∪ backed k.
Proof. unfold backed. by rewrite omap_app, list_to_set_app_L. Qed.
Lemma positions_cons c page pages : positions_of ((c, page) :: pages) = lmp_positions page ++ positions_of pages.
Proof. done. Qed.
Lemma requests_cons c page pages : requests_of ((c, page) :: pages) = lpr_requests page ++ requests_of pages.
Proof. done. Qed.
Lemma positions_run fuel client cursor seen scan log keys x :
  runs (fetchAllExecutionPreviewPositions fuel client cursor seen scan) log (Some (Ok (keys, x))) →
  ∃ pages, walk lmp_meta cursor pages ∧ log = position_event client <$> pages
    ∧ x = foldl (λ x p, add_position p x) (ps_exposure scan) (positions_of pages)
    ∧ keys = backed (positions_of pages) ∪ ps_requests scan.
Proof.
  revert cursor seen scan log. induction fuel as [|fuel IH]; intros cursor seen scan log H; cbn [fetchAllExecutionPreviewPositions] in H; [by destruct H|].
  run_inv. match goal with H : runs _ _ (Some (Ok (keys, x))) |- _ => rename H into Hrun end.
  match type of Hrun with runs (match ?r with _ => _ end) _ _ => destruct r as [[page|]|err] end; [|by destruct Hrun..].
  destruct (executionPreviewPageSize <? _); [by destruct Hrun|]. destruct (add_positions (lmp_positions page) scan) as [scan'|e] eqn:Ha; [|by destruct Hrun].
  apply add_positions_ok in Ha as (A1 & A2 & _). destruct (nextExecutionPreviewCursor cursor (lmp_meta page) seen) as [[[next|] seen']|e] eqn:Hn; [| |by destruct Hrun].
  - apply next_cursor_ok in Hn as [Hn _]. cbn in Hn. apply IH in Hrun as (pages & W & -> & -> & ->). exists ((cursor, page) :: pages).
    split; [by eapply walk_next|]. split; [done|]. rewrite positions_cons, foldl_app, backed_app, A1, A2. split; [done|set_solver].
  - apply next_cursor_ok in Hn as [Hn _]. cbn in Hn. destruct Hrun as [-> Heq]. injection Heq as -> ->. exists [(cursor, page)].
    split; [by apply walk_last|]. split; [done|]. rewrite positions_cons, app_nil_r. by rewrite A1, A2.
Qed.
Lemma requests_run fuel client cursor seen seenPubkeys y log x :
  runs (fetchAllExecutionPreviewRequests fuel client cursor seen seenPubkeys y) log (Some (Ok x)) →
  ∃ pages, walk lpr_meta cursor pages ∧ log = request_event client <$> pages
    ∧ x = foldl (λ x r, add_request r x) y (omap in_flight (requests_of pages)) ∧ ∀ r, r ∈ requests_of pages → is_Some (in_flight r).
Proof.
  revert cursor seen seenPubkeys y log. induction fuel as [|fuel IH]; intros cursor seen seenPubkeys y log H; cbn [fetchAllExecutionPreviewRequests] in H; [by destruct H|].
  run_inv. match goal with H : runs _ _ (Some (Ok x)) |- _ => rename H into Hrun end.
  match type of Hrun with runs (match ?r with _ => _ end) _ _ => destruct r as [[page|]|err] end; [|by destruct Hrun..].
  destruct (executionPreviewPageSize <? _); [by destruct Hrun|]. destruct (add_requests (lpr_requests page) seenPubkeys y) as [[seen1 y']|e] eqn:Ha; [|by destruct Hrun].
  apply add_requests_ok in Ha as (-> & _ & _ & Hv). destruct (nextExecutionPreviewCursor cursor (lpr_meta page) seen) as [[[next|] seen']|e] eqn:Hn; [| |by destruct Hrun].
  - apply next_cursor_ok in Hn as [Hn _]. cbn in Hn. apply IH in Hrun as (pages & W & -> & -> & Hall). exists ((cursor, page) :: pages).
    split; [by eapply walk_next|]. split; [done|]. rewrite requests_cons, omap_app, foldl_app. split; [done|].
    intros r [Hr|Hr]%elem_of_app; [by apply Hv|by apply Hall].
  - apply next_cursor_ok in Hn as [Hn _]. cbn in Hn. destruct Hrun as [-> Heq]. injection Heq as ->. exists [(cursor, page)].
    split; [by apply walk_last|]. split; [done|]. rewrite requests_cons, app_nil_r. split; [done|]. intros r Hr. by apply Hv.
Qed.
(** What a complete read of a wallet saw, and the exposure that describes it. *)
Record describes (client : C) (log : preview_log) (x : executionPreviewWalletExposure)
    (positions : list (string * ListMarginPositionsResponse)) (requests : list (string * ListPositionRequestsResponse)) : Prop := {
  ds_log : log = (position_event client <$> positions) ++ (request_event client <$> requests);
  ds_positions : walk lmp_meta EmptyString positions;
  ds_requests : walk lpr_meta EmptyString requests;
  ds_held : ∀ m isYes, held m isYes x ≡ₚ preview_position <$> filter (traded m isYes) (positions_of positions);
  ds_valid : ∀ r, r ∈ requests_of requests → is_Some (in_flight r);
  ds_in_flight : we_requests x ≡ₚ filter (λ r, xr_pubkey r ∉ backed (positions_of positions)) (omap in_flight (requests_of requests)) }.
Lemma exposure_run fuel client log x :
  runs (fetchExecutionPreviewWalletExposure fuel client) log (Some (Ok x)) → ∃ positions requests, describes client log x positions requests.
Proof.
  intros H. unfold fetchExecutionPreviewWalletExposure in H. run_inv.
  match goal with H : runs (match ?r with _ => _ end) _ (Some (Ok x)) |- _ => destruct r as [[[keys y]|e]|]; [|by destruct H..] end. run_inv.
  match goal with H : runs (match ?r with _ => _ end) _ (Some (Ok x)) |- _ => destruct r as [[z|e]|]; [|by destruct H..]; destruct H as [-> Heq] end.
  injection Heq as ->. match goal with H : runs (fetchAllExecutionPreviewPositions _ _ _ _ _) _ _ |- _ => apply positions_run in H as (positions & W1 & -> & -> & ->) end.
  match goal with H : runs (fetchAllExecutionPreviewRequests _ _ _ _ _ _) _ _ |- _ => apply requests_run in H as (requests & W2 & -> & -> & Hvalid) end.
  exists positions, requests. cbn [ps_exposure ps_requests]. rewrite app_nil_r, union_empty_r_L.
  set (y := foldl _ no_exposure _). destruct (add_requests_fold (omap in_flight (requests_of requests)) y) as [Hq Hh].
  set (z := foldl (λ x r, add_request r x) y _) in *. destruct (suppress_ok z (backed (positions_of positions))) as [Sq Sh].
  destruct (sort_exposure_ok (suppressExecutionPreviewPositionBackedRequests z (backed (positions_of positions)))) as [Tq Th].
  constructor; try done.
  - intros m isYes. rewrite Th, Sh, Hh. unfold y. rewrite held_add_positions. by destruct isYes.
  - rewrite Tq, Sq, Hq. unfold y. by rewrite requests_add_positions.
Qed.

(** ** Termination *)
(** The cursor a reply hands out. *)
Definition handed_out (e : preview_event) : option string :=
  let 'existT o r := e in
  match o return preview_resp o → option string with
  | POpListMarginPositions _ _ => λ r, match r with Ok (Some page) => next_of (lmp_meta page) | _ => None end
  | POpListPositionRequests _ _ => λ r, match r with Ok (Some page) => next_of (lpr_meta page) | _ => None end
  | _ => λ _, None
  end r.
Definition hands_out (cursors : gset string) (log : preview_log) : Prop := ∀ e next, e ∈ log → handed_out e = Some next → next ∈ cursors.
Lemma hands_out_app cursors l k : hands_out cursors (l ++ k) → hands_out cursors l ∧ hands_out cursors k.
Proof. intros H. split; intros e next He; apply H, elem_of_app; auto. Qed.
Lemma cursors_left (cursors seen : gset string) next :
  next ∈ cursors → next ∉ seen → (size (cursors ∖ ({[next]} ∪ seen)) < size (cursors ∖ seen))%nat.
Proof. intros H1 H2. apply subset_size. split; [set_solver|]. intros Hs. specialize (Hs next). set_solver. Qed.
Lemma positions_fuel fuel client cursor seen scan log cursors :
  runs (fetchAllExecutionPreviewPositions fuel client cursor seen scan) log None → hands_out cursors log → (fuel ≤ S (size (cursors ∖ seen)))%nat.
Proof.
  revert cursor seen scan log. induction fuel as [|fuel IH]; intros cursor seen scan log H Hc; cbn [fetchAllExecutionPreviewPositions] in H; [lia|].
  run_inv. match goal with H : runs _ _ None |- _ => rename H into Hrun end.
  match type of Hrun with runs (match ?r with _ => _ end) _ _ => destruct r as [[page|]|err] end; [|by destruct Hrun..].
  destruct (executionPreviewPageSize <? _); [by destruct Hrun|]. destruct (add_positions (lmp_positions page) scan) as [scan'|e]; [|by destruct Hrun].
  destruct (nextExecutionPreviewCursor cursor (lmp_meta page) seen) as [[[next|] seen']|e] eqn:Hn; [|by destruct Hrun..].
  apply next_cursor_ok in Hn as [Hn [Hns Hseen]]. cbn in Hn, Hns, Hseen. rewrite Hseen in Hrun. apply hands_out_app in Hc as [H1 H2].
  apply IH in Hrun; [|done]. assert (next ∈ cursors) as Hin by (eapply H1; [by left|by cbn]). pose proof (cursors_left cursors seen next Hin Hns). lia.
Qed.
Lemma requests_fuel fuel client cursor seen seenPubkeys y log cursors :
  runs (fetchAllExecutionPreviewRequests fuel client cursor seen seenPubkeys y) log None → hands_out cursors log → (fuel ≤ S (size (cursors ∖ seen)))%nat.
Proof.
  revert cursor seen seenPubkeys y log. induction fuel as [|fuel IH]; intros cursor seen seenPubkeys y log H Hc; cbn [fetchAllExecutionPreviewRequests] in H; [lia|].
  run_inv. match goal with H : runs _ _ None |- _ => rename H into Hrun end.
  match type of Hrun with runs (match ?r with _ => _ end) _ _ => destruct r as [[page|]|err] end; [|by destruct Hrun..].
  destruct (executionPreviewPageSize <? _); [by destruct Hrun|]. destruct (add_requests (lpr_requests page) seenPubkeys y) as [[seen1 y']|e]; [|by destruct Hrun].
  destruct (nextExecutionPreviewCursor cursor (lpr_meta page) seen) as [[[next|] seen']|e] eqn:Hn; [|by destruct Hrun..].
  apply next_cursor_ok in Hn as [Hn [Hns Hseen]]. cbn in Hn, Hns, Hseen. rewrite Hseen in Hrun. apply hands_out_app in Hc as [H1 H2].
  apply IH in Hrun; [|done]. assert (next ∈ cursors) as Hin by (eapply H1; [by left|by cbn]). pose proof (cursors_left cursors seen next Hin Hns). lia.
Qed.
Lemma exposure_fuel fuel client log cursors :
  runs (fetchExecutionPreviewWalletExposure fuel client) log None → hands_out cursors log → (fuel ≤ S (size cursors))%nat.
Proof.
  intros H Hc. unfold fetchExecutionPreviewWalletExposure in H. run_inv. apply hands_out_app in Hc as [H1 H2].
  match goal with H : runs (match ?r with _ => _ end) _ None |- _ => destruct r as [[[keys y]|e]|]; [|by destruct H|] end.
  - run_inv. apply hands_out_app in H2 as [H2 _].
    match goal with H : runs (match ?r with _ => _ end) _ None |- _ => destruct r as [[z|e]|]; [by destruct H..|] end.
    match goal with H : runs (fetchAllExecutionPreviewRequests _ _ _ _ _ _) _ None |- _ => apply (requests_fuel _ _ _ _ _ _ _ cursors) in H; [|done] end.
    by rewrite difference_empty_L in *.
  - match goal with H : runs (fetchAllExecutionPreviewPositions _ _ _ _ _) _ None |- _ => apply (positions_fuel _ _ _ _ _ _ cursors) in H; [|done] end.
    by rewrite difference_empty_L in *.
Qed.
End Content.
