(* ===== verification/PreviewSimulation.v ===== *)
(** * Execution previews: the simulation

    What a step of the simulation does to the balance of its wallet, and which steps
    are READY; then a whole build: its input, the replies and its result. *)

From S2P Require Import Prelude Prog CashOutTypes CashOutStages CashOutWorker ConnectionTypes ConnectionStore ConnectionService Decimal Preview.
From S2P Require Import PreviewExposure.
From stdpp Require Import base tactics option list list_numbers sorting strings gmap.
From Stdlib Require Import ZArith QArith Lqa Lia Ascii.
#[local] Open Scope Z_scope.

(** ** Amounts in text *)
Definition text_amount (v : string) : Q := match parseExecutionPreviewDecimal v with Ok d => amount d | Err _ => 0%Q end.
Definition good (d : decimalAmount) : Prop := parseExecutionPreviewDecimal (decimal_String d) = Ok d ∧ lowest d.
Lemma good_text d : good d → text_amount (decimal_String d) = amount d.
Proof. intros [H _]. unfold text_amount. by rewrite H. Qed.
Lemma good_nonnegative d : good d → (0 <= amount d)%Q.
Proof. intros [_ [H _]]. unfold Qle, amount. cbn. lia. Qed.
Lemma parse_good v d : parseExecutionPreviewDecimal v = Ok d → good d.
Proof. apply parse_canonical. Qed.
Lemma Subtract_good d e x : Subtract d e = Ok x → good x.
Proof.
  unfold Subtract. destruct (executionPreviewAlignedCoefficients d e) as [l r]. intros H. tx_inv.
  match goal with H : match ?p with _ => _ end = Ok x |- _ => destruct p as [y|] eqn:E; [injection H as ->; by eapply parse_good|done] end.
Qed.

(** ** Steps *)
Definition spent (s : ExecutionPreviewStep) : Q :=
  if bool_decide (es_outcome s = ExecutionPreviewOutcomeReady) then text_amount (es_user_funds_needed s) else 0%Q.
Definition total_spent (l : list ExecutionPreviewStep) : Q := foldr (λ s q, (spent s + q)%Q) 0%Q l.
(** No open position in the market and no request in flight in the wallet. *)
Definition free (x : executionPreviewWalletExposure) (m : string) : Prop :=
  held m false x = [] ∧ held m true x = [] ∧ we_requests x = [].
Abbreviation market_of item := (ei_market_condition_id (ni_input item)).
Lemma first_position x m :
  firstExecutionPreviewMarketPosition (we_markets x !! m) = None ↔ held m false x = [] ∧ held m true x = [].
Proof.
  unfold held, at_market. destruct (we_markets x !! m) as [y|]; cbn; [|done]. destruct (on_no _) as [|n l], (on_yes _) as [|z k]; cbn; try naive_solver.
  destruct (String.ltb _ _); naive_solver.
Qed.
Lemma first_request x : firstRequest x = None ↔ we_requests x = [].
Proof. unfold firstRequest. destruct (we_requests x); naive_solver. Qed.
(** What was there before a step. *)
Abbreviation history := (list (normalizedExecutionPreviewItem * ExecutionPreviewStep)).
Record follows (x : executionPreviewWalletExposure) (past : history) (st : simulation) : Prop := {
  fo_good : good (sm_remaining st);
  fo_code : sm_blocked_reason st ∈ [""; ExecutionPreviewOutcomeMarketPositionExists; ExecutionPreviewOutcomeWalletRequestInFlight];
  fo_reason : sm_blocked_reason st = EmptyString ↔ ∀ p, p ∈ past → free x (market_of p.1);
  fo_usdc : sm_blocked_usdc st = true ↔ ∃ p, p ∈ past ∧ es_outcome p.2 = ExecutionPreviewOutcomeInsufficientUSDC }.
(** When a step may be READY. *)
Definition may_trade (x : executionPreviewWalletExposure) (past : history) (item : normalizedExecutionPreviewItem)
    (estimate : ExecutionPreviewMarketEstimate) (balance : Q) : Prop :=
  free x (market_of item) ∧ (∀ p, p ∈ past → free x (market_of p.1) ∧ es_outcome p.2 ≠ ExecutionPreviewOutcomeInsufficientUSDC)
  ∧ ei_selectable (ni_input item) = true ∧ ee_rejection_code estimate = EmptyString
  ∧ (text_amount (ee_user_funds_needed estimate) <= balance)%Q.
Record moved (x : executionPreviewWalletExposure) (past : history) (item : normalizedExecutionPreviewItem)
    (estimate : ExecutionPreviewMarketEstimate) (st : simulation) (step s : ExecutionPreviewStep) (st' : simulation) : Prop := {
  mv_follows : follows x (past ++ [(item, s)]) st';
  mv_identity : (es_ordinal s, es_wallet_ordinal s, es_market_ordinal s, es_wallet_id s, es_market_condition_id s, es_is_yes s)
    = (es_ordinal step, es_wallet_ordinal step, es_market_ordinal step, es_wallet_id step, es_market_condition_id step, es_is_yes step);
  mv_needed : es_user_funds_needed s = es_user_funds_needed step;
  mv_before : es_usdc_balance_before s = decimal_String (sm_remaining st);
  mv_after : es_usdc_balance_after s = decimal_String (sm_remaining st');
  mv_amount : (amount (sm_remaining st') == amount (sm_remaining st) - spent s)%Q;
  mv_ready : es_outcome s = ExecutionPreviewOutcomeReady ↔ may_trade x past item estimate (amount (sm_remaining st)) }.
Lemma follows_past x past st item s st' :
  follows x past st → good (sm_remaining st') →
  sm_blocked_reason st' ∈ [""; ExecutionPreviewOutcomeMarketPositionExists; ExecutionPreviewOutcomeWalletRequestInFlight] →
  (sm_blocked_reason st' = EmptyString ↔ sm_blocked_reason st = EmptyString ∧ free x (market_of item)) →
  (sm_blocked_usdc st' = true ↔ sm_blocked_usdc st = true ∨ es_outcome s = ExecutionPreviewOutcomeInsufficientUSDC) →
  follows x (past ++ [(item, s)]) st'.
Proof.
  intros [_ _ F2 F3] Hg Hcode Hr Hu. constructor; [done|done|rewrite Hr, F2|rewrite Hu, F3].
  - setoid_rewrite elem_of_app. setoid_rewrite list_elem_of_singleton. split.
    + intros [H1 H2] p [Hp| ->]; [auto|done].
    + intros H. split; [auto|]. apply (H (item, s)). by right.
  - setoid_rewrite elem_of_app. setoid_rewrite list_elem_of_singleton. split.
    + intros [(p & Hp & Ho)|Ho]; [exists p; auto|exists (item, s); auto].
    + intros (p & [Hp| ->] & Ho); [left; eauto|by right].
Qed.
(** A step that is not READY. *)
Lemma moved_blocked x past item estimate st step s st' :
  follows x past st → es_usdc_balance_before step = decimal_String (sm_remaining st) → es_usdc_balance_after step = decimal_String (sm_remaining st) →
  (∃ outcome reason kind pubkey, s = classified step outcome reason kind pubkey ∧ outcome ≠ ExecutionPreviewOutcomeReady) →
  sm_remaining st' = sm_remaining st →
  sm_blocked_reason st' ∈ [""; ExecutionPreviewOutcomeMarketPositionExists; ExecutionPreviewOutcomeWalletRequestInFlight] →
  (sm_blocked_reason st' = EmptyString ↔ sm_blocked_reason st = EmptyString ∧ free x (market_of item)) →
  (sm_blocked_usdc st' = true ↔ sm_blocked_usdc st = true ∨ es_outcome s = ExecutionPreviewOutcomeInsufficientUSDC) →
  ¬ may_trade x past item estimate (amount (sm_remaining st)) → moved x past item estimate st step s st'.
Proof.
  intros F Hb Ha (outcome & reason & kind & pubkey & -> & Hne) Hrem Hcode Hr Hu Hno. constructor; cbn; try done.
  - apply (follows_past x past st); [done|rewrite Hrem; apply F|done|done|done].
  - by rewrite Hrem.
  - unfold spent. cbn. rewrite bool_decide_eq_false_2 by done. rewrite Hrem. ring.
Qed.
Lemma unblocked_reason x past st : follows x past st → sm_blocked_reason st ≠ EmptyString →
  ∀ item estimate balance, ¬ may_trade x past item estimate balance.
Proof. intros F Hne item estimate balance (_ & H & _). apply Hne, F. intros p Hp. by apply H. Qed.

Ltac blocked F :=
  eapply moved_blocked; [exact F|assumption|assumption|eexists _, _, _, _; split; [reflexivity|done]|reflexivity
    |first [apply F|cbn; set_solver]|cbn; naive_solver|first [cbn; split; [by left|]; by intros [?|?]|cbn; split; [by right|done]]|].
Lemma preview_step_ok x past item estimate st step s st' :
  preview_step x item estimate step st = Ok (s, st') → follows x past st →
  es_usdc_balance_before step = decimal_String (sm_remaining st) → es_usdc_balance_after step = decimal_String (sm_remaining st) →
  es_user_funds_needed step = ee_user_funds_needed estimate →
  moved x past item estimate st step s st'.
Proof.
  intros H F Hb Ha Hn. unfold preview_step in H. cbv zeta in H. case_bool_decide as Hr; cbn [negb] in H.
  2:{ injection H as <- <-. eapply moved_blocked; [exact F|done|done| |done|apply F| | |by eapply unblocked_reason].
      - eexists _, _, _, _. split; [done|]. pose proof (fo_code _ _ _ F) as Hc. rewrite !elem_of_cons, elem_of_nil in Hc. destruct Hc as [Hc|[Hc|[Hc|[]]]]; by rewrite Hc.
      - naive_solver.
      - cbn. split; [by left|]. intros [?|Hc]; [done|]. pose proof (fo_code _ _ _ F) as Hcode. rewrite Hc in Hcode.
        rewrite !elem_of_cons, elem_of_nil in Hcode. naive_solver. }
  destruct (firstExecutionPreviewMarketPosition _) as [position|] eqn:Hp.
  { assert (¬ free x (market_of item)) as Hnf. { intros (H1 & H2 & _). by rewrite (proj2 (first_position x (market_of item)) (conj H1 H2)) in Hp. }
    injection H as <- <-. blocked F; by intros [? _]. }
  apply first_position in Hp. destruct (firstRequest x) as [request|] eqn:Hq.
  { assert (¬ free x (market_of item)) as Hnf. { intros (_ & _ & H3). by rewrite (proj2 (first_request x) H3) in Hq. }
    injection H as <- <-. blocked F; by intros [? _]. }
  apply first_request in Hq. assert (free x (market_of item)) as Hfree by (destruct Hp; by split_and!).
  destruct (sm_blocked_usdc st) eqn:Hu.
  { injection H as <- <-. blocked F.
    intros (_ & Hpast & _). apply (fo_usdc _ _ _ F) in Hu as (p & Hp' & Ho). by apply (Hpast p). }
  destruct (ei_selectable (ni_input item)) eqn:Hs; cbn [negb] in H.
  2:{ injection H as <- <-. blocked F.
      intros (_ & _ & Hs' & _). congruence. }
  case_bool_decide as Hj; cbn [negb] in H.
  2:{ injection H as <- <-. blocked F.
      by intros (_ & _ & _ & Hj' & _). }
  destruct (parseExecutionPreviewDecimal (ee_user_funds_needed estimate)) as [needed|] eqn:Hneed; [|done]. cbn [mbind result_bind] in H.
  assert (text_amount (ee_user_funds_needed estimate) = amount needed) as Ht by (unfold text_amount; by rewrite Hneed).
  assert (may_trade x past item estimate (amount (sm_remaining st)) ↔ (amount needed <= amount (sm_remaining st))%Q) as Hmay.
  { unfold may_trade. rewrite Ht. split; [tauto|]. intros Hle. split_and!; try done. intros p Hp'. split; [by apply (fo_reason _ _ _ F)|].
    intros Ho. assert (sm_blocked_usdc st = true) by (apply (fo_usdc _ _ _ F); eauto). congruence. }
  rewrite Compare_amount in H. destruct (Qcompare_spec (amount (sm_remaining st)) (amount needed)) as [Hc|Hc|Hc].
  2:{ injection H as <- <-. blocked F.
      rewrite Hmay. intros Hle. lra. }
  all: tx_inv; match goal with Hsub : Subtract _ _ = Ok ?r |- _ => destruct (Subtract_ok _ _ _ Hsub) as (_ & Heq & Hle); pose proof (Subtract_good _ _ _ Hsub) as Hg end;
    (constructor; cbn; try done; [|unfold spent; cbn; by rewrite Hn, Ht|by rewrite Hmay]);
    eapply follows_past; cbn; [exact F|done|apply F|naive_solver|rewrite ?Hu; split; [by left|by intros [?|?]]].
Qed.

(** ** A wallet *)
Section Wallets.
Context {C : Type}.
Abbreviation markets := (list (normalizedExecutionPreviewItem * ExecutionPreviewMarketEstimate)).
(** The [k]-th step of a wallet whose balance was [balance] before the steps [earlier]. *)
Record step_shows (wallet : normalizedExecutionPreviewWallet C) (x : executionPreviewWalletExposure) (past : history)
    (item : normalizedExecutionPreviewItem) (estimate : ExecutionPreviewMarketEstimate) (walletIndex itemIndex ordinal : Z)
    (balance : Q) (s : ExecutionPreviewStep) : Prop := {
  sh_ordinals : (es_ordinal s, es_wallet_ordinal s, es_market_ordinal s) = (ordinal, wrap32 (walletIndex + 1), wrap32 (itemIndex + 1));
  sh_trade : (es_wallet_id s, es_market_condition_id s, es_is_yes s, es_user_funds_needed s)
    = (ew_wallet_id (nw_input wallet), market_of item, ei_is_yes (ni_input item), ee_user_funds_needed estimate);
  sh_before : (text_amount (es_usdc_balance_before s) == balance)%Q;
  sh_after : (text_amount (es_usdc_balance_after s) == balance - spent s)%Q;
  sh_covered : (0 <= balance - spent s)%Q;
  sh_ready : es_outcome s = ExecutionPreviewOutcomeReady ↔ may_trade x past item estimate balance }.
Lemma may_trade_eq x past item estimate p q : (p == q)%Q → may_trade x past item estimate p ↔ may_trade x past item estimate q.
Proof. intros H. unfold may_trade. by setoid_rewrite H. Qed.
Lemma wallet_steps_ok wallet x (items : markets) wi ii ordinal st steps past :
  wallet_steps wallet x items wi ii ordinal st = Ok steps → follows x past st →
  length steps = length items ∧ ∀ k s item estimate, steps !! k = Some s → items !! k = Some (item, estimate) →
    step_shows wallet x (past ++ take k (zip items.*1 steps)) item estimate wi (ii + Z.of_nat k) (ordinal + Z.of_nat k + 1)
      (amount (sm_remaining st) - total_spent (take k steps))%Q s.
Proof.
  revert ii ordinal st steps past. induction items as [|[item estimate] items IH]; intros ii ordinal st steps past H F; cbn [wallet_steps] in H.
  { injection H as <-. done. }
  cbv zeta in H. tx_inv. match goal with Hp : preview_step _ _ _ _ _ = Ok ?r |- _ => destruct r as [s0 st1]; apply (preview_step_ok _ past) in Hp; [|done..]; rename Hp into M end.
  match goal with Hw : wallet_steps _ _ _ _ _ _ _ = Ok ?l |- _ => rename l into rest; apply (IH _ _ _ _ (past ++ [(item, s0)])) in Hw as [Hlen Hall]; [|apply M] end.
  cbn [fst snd] in *. split; [cbn; by rewrite Hlen|]. intros [|k] s it es Hs Hi; cbn in Hs, Hi.
  - simplify_eq. rewrite app_nil_r. cbn [take total_spent foldr]. pose proof (fo_good _ _ _ F) as Hg. pose proof (fo_good _ _ _ (mv_follows _ _ _ _ _ _ _ _ M)) as Hg1.
    pose proof (mv_amount _ _ _ _ _ _ _ _ M) as Ham. pose proof (good_nonnegative _ Hg1) as Hnn.
    pose proof (mv_identity _ _ _ _ _ _ _ _ M) as Hid. cbn in Hid. injection Hid as I1 I2 I3 I4 I5 I6.
    assert (amount (sm_remaining st) - 0 == amount (sm_remaining st))%Q as E by ring. constructor.
    + rewrite I1, I2, I3. by rewrite !Z.add_0_r.
    + by rewrite I4, I5, I6, (mv_needed _ _ _ _ _ _ _ _ M).
    + rewrite (mv_before _ _ _ _ _ _ _ _ M), good_text, E by done. reflexivity.
    + rewrite (mv_after _ _ _ _ _ _ _ _ M), good_text, E by done. done.
    + rewrite E, <- Ham. done.
    + rewrite (may_trade_eq _ _ _ _ _ _ E). apply M.
  - specialize (Hall k s it es Hs Hi). cbn [fmap list_fmap zip_with take fst]. rewrite cons_middle, app_assoc.
    assert (amount (sm_remaining st1) - total_spent (take k rest) == amount (sm_remaining st) - total_spent (s0 :: take k rest))%Q as E.
    { rewrite (mv_amount _ _ _ _ _ _ _ _ M). change (total_spent (s0 :: take k rest)) with (spent s0 + total_spent (take k rest))%Q. ring. }
    destruct Hall as [A1 A2 A3 A4 A5 A6]. constructor.
    + rewrite A1. replace (ii + Z.of_nat (S k)) with (ii + 1 + Z.of_nat k) by lia.
      by replace (ordinal + Z.of_nat (S k) + 1) with (ordinal + 1 + Z.of_nat k + 1) by lia.
    + done.
    + by rewrite A3, E.
    + by rewrite A4, E.
    + by rewrite <- E.
    + by rewrite A6, (may_trade_eq _ _ _ _ _ _ E).
Qed.
(** The steps of the wallet at [wi]. *)
Definition wallet_ok (items : markets) (wi : nat) (wallet : normalizedExecutionPreviewWallet C) (x : executionPreviewWalletExposure)
    (ws : list ExecutionPreviewStep) : Prop :=
  length ws = length items ∧ ∀ k s item estimate, ws !! k = Some s → items !! k = Some (item, estimate) →
    step_shows wallet x (take k (zip items.*1 ws)) item estimate (Z.of_nat wi) (Z.of_nat k) (Z.of_nat (wi * length items + k) + 1)
      (amount (nw_usdc wallet) - total_spent (take k ws))%Q s.
Lemma follows_start x wallet : good (nw_usdc (C := C) wallet) →
  follows x [] {| sm_remaining := nw_usdc wallet; sm_blocked_usdc := false; sm_blocked_reason := "" |}.
Proof.
  intros Hg. constructor; [done|by left|split; [by intros _ ? ?%not_elem_of_nil|done]|split; [done|by intros (? & ?%not_elem_of_nil & _)]].
Qed.
Lemma all_steps_ok wallets (items : markets) (wi : nat) steps :
  all_steps wallets items (Z.of_nat wi) (Z.of_nat (wi * length items)) = Ok steps → (∀ w, w ∈ wallets → good (nw_usdc w.1)) →
  ∃ chunks, steps = concat chunks ∧ length chunks = length wallets
    ∧ ∀ i ws wallet x, chunks !! i = Some ws → wallets !! i = Some (wallet, x) → wallet_ok items (wi + i) wallet x ws.
Proof.
  revert wi steps. induction wallets as [|[wallet x] wallets IH]; intros wi steps H Hg; cbn [all_steps] in H.
  { injection H as <-. by exists []. }
  tx_inv. match goal with Hw : wallet_steps _ _ _ _ _ _ _ = Ok ?l |- _ => rename l into ws; apply (wallet_steps_ok _ _ _ _ _ _ _ _ []) in Hw as [Hlen Hall] end.
  2:{ apply follows_start, (Hg (wallet, x)). by left. }
  match goal with Ha : all_steps _ _ _ _ = Ok ?l |- _ => rename l into rest, Ha into Hrest end.
  replace (Z.of_nat wi + 1) with (Z.of_nat (S wi)) in Hrest by lia.
  replace (Z.of_nat (wi * length items) + Z.of_nat (length items)) with (Z.of_nat (S wi * length items)) in Hrest by lia.
  apply IH in Hrest as (chunks & -> & Hl & Hc); [|intros w Hw; apply Hg; by right]. exists (ws :: chunks). cbn. split; [done|]. split; [by rewrite Hl|].
  intros [|i] ws' wallet' x' Hws Hw; cbn in Hws, Hw; simplify_eq.
  - rewrite Nat.add_0_r. split; [done|]. intros k s item estimate Hs Hi. specialize (Hall k s item estimate Hs Hi). rewrite app_nil_l in Hall.
    cbn [sm_remaining] in Hall. replace (Z.of_nat (wi * length items + k) + 1) with (Z.of_nat (wi * length items) + Z.of_nat k + 1) by lia. done.
  - replace (wi + S i)%nat with (S wi + i)%nat by lia. by eapply Hc.
Qed.

(** ** No step fails when there is room for the digits *)
Section Room.
Context (k : Z) (S : nat) (Hk : 1 ≤ k) (Hroom : k + Z.of_nat S < Z.of_nat executionPreviewDecimalMaxLength).
Definition roomy (d : decimalAmount) : Prop := good d ∧ (amount d < inject_Z (10 ^ k))%Q ∧ (scale d ≤ S)%nat.
(** What a step needs of its estimate. *)
Definition payable (p : normalizedExecutionPreviewItem * ExecutionPreviewMarketEstimate) : Prop :=
  ei_selectable (ni_input p.1) = true → ee_rejection_code p.2 = EmptyString →
  ∃ d, parseExecutionPreviewDecimal (ee_user_funds_needed p.2) = Ok d ∧ (scale d ≤ S)%nat.
Ltac keep := eexists _, _; split; [reflexivity|assumption].
Lemma preview_step_total x item estimate step st :
  roomy (sm_remaining st) → payable (item, estimate) →
  ∃ s st', preview_step x item estimate step st = Ok (s, st') ∧ roomy (sm_remaining st').
Proof using Hk Hroom.
  intros Hr Hpay. unfold preview_step. cbv zeta. destruct (negb (bool_decide (sm_blocked_reason st = EmptyString))); [keep|].
  destruct (firstExecutionPreviewMarketPosition _); [keep|]. destruct (firstRequest x); [keep|]. destruct (sm_blocked_usdc st); [keep|].
  destruct (ei_selectable (ni_input item)) eqn:Hs; [|keep]. cbn [negb]. case_bool_decide as Hj; [|keep]. cbn [negb].
  destruct (Hpay Hs Hj) as (needed & Hn & Hsc). cbn [snd] in Hn. rewrite Hn. cbn [mbind result_bind]. rewrite Compare_amount.
  assert (0 ≤ coefficient needed) as Hpos by (by destruct (parse_good _ _ Hn) as [_ [? _]]). pose proof Hr as (Hg & Hlt & Hscale).
  assert ((amount needed <= amount (sm_remaining st))%Q → ∃ y, Subtract (sm_remaining st) needed = Ok y ∧ roomy y) as Hsub.
  { intros Hle. destruct (Subtract_total (sm_remaining st) needed k) as [y Hy]; [done|done|done|done|lia|]. exists y. split; [done|].
    destruct (Subtract_ok _ _ _ Hy) as (_ & Heq & _). pose proof (good_nonnegative needed (parse_good _ _ Hn)). pose proof (Subtract_scale _ _ _ Hy).
    split; [by eapply Subtract_good|]. split; [rewrite Heq; lra|lia]. }
  destruct (Qcompare_spec (amount (sm_remaining st)) (amount needed)) as [Hc|Hc|Hc]; [|keep|].
  all: destruct Hsub as (y & -> & Hroomy); [lra|]; cbn; eauto.
Qed.
Lemma wallet_steps_total (wallet : normalizedExecutionPreviewWallet C) x (items : markets) wi ii ordinal st :
  roomy (sm_remaining st) → (∀ p, p ∈ items → payable p) → ∃ steps, wallet_steps wallet x items wi ii ordinal st = Ok steps.
Proof using Hk Hroom.
  revert ii ordinal st. induction items as [|[item estimate] items IH]; intros ii ordinal st Hr Hp; cbn [wallet_steps]; [by eexists|].
  destruct (preview_step_total x item estimate (new_step wallet item estimate (ordinal + 1) wi ii (sm_remaining st)) st Hr) as (s & st' & -> & Hr'); [apply Hp; by left|].
  destruct (IH (ii + 1) (ordinal + 1) st' Hr') as [rest Hrest]; [intros p ?; apply Hp; by right|]. cbn. rewrite Hrest. cbn. by eexists.
Qed.
Lemma all_steps_total (wallets : list (normalizedExecutionPreviewWallet C * executionPreviewWalletExposure)) (items : markets) wi ordinal :
  (∀ w, w ∈ wallets → roomy (nw_usdc w.1)) → (∀ p, p ∈ items → payable p) → ∃ steps, all_steps wallets items wi ordinal = Ok steps.
Proof using Hk Hroom.
  revert wi ordinal. induction wallets as [|[wallet x] wallets IH]; intros wi ordinal Hw Hp; cbn [all_steps]; [by eexists|].
  destruct (wallet_steps_total wallet x items wi 0 ordinal {| sm_remaining := nw_usdc wallet; sm_blocked_usdc := false; sm_blocked_reason := "" |}) as [steps Hs];
    [apply (Hw (wallet, x)); by left|done|]. rewrite Hs. cbn.
  destruct (IH (wi + 1) (ordinal + Z.of_nat (length items))) as [rest Hrest]; [intros w ?; apply Hw; by right|done|]. rewrite Hrest. by eexists.
Qed.
End Room.

(** ** When a step panics *)
Definition simulation_panic : string := "execution preview decimal normalization failed".
(** The step of [item] is about to be READY, and what it leaves of [remaining] is too long to write. *)
Record overflows (item : normalizedExecutionPreviewItem) (estimate : ExecutionPreviewMarketEstimate) (remaining needed : decimalAmount) : Prop := {
  ov_selectable : ei_selectable (ni_input item) = true;
  ov_accepted : ee_rejection_code estimate = EmptyString;
  ov_needed : parseExecutionPreviewDecimal (ee_user_funds_needed estimate) = Ok needed;
  ov_covered : (amount needed <= amount remaining)%Q;
  ov_long : ¬ writable (amount remaining - amount needed) (Nat.max (scale remaining) (scale needed)) }.
Lemma preview_step_panic x item estimate step st message : preview_step x item estimate step st = Err (Panicked message) →
  message = simulation_panic ∧ ∃ needed, overflows item estimate (sm_remaining st) needed.
Proof.
  unfold preview_step. cbv zeta. destruct (negb (bool_decide (sm_blocked_reason st = EmptyString))); [done|].
  destruct (firstExecutionPreviewMarketPosition _); [done|]. destruct (firstRequest x); [done|]. destruct (sm_blocked_usdc st); [done|].
  destruct (ei_selectable (ni_input item)) eqn:Hs; [cbn [negb]|done]. case_bool_decide as Hj; [cbn [negb]|done].
  destruct (parseExecutionPreviewDecimal _) as [needed|] eqn:Hn; [cbn [mbind result_bind]|done].
  assert (∀ why, Subtract (sm_remaining st) needed = Err why → Compare (sm_remaining st) needed ≠ Lt → why = Panicked simulation_panic ∧ overflows item estimate (sm_remaining st) needed) as Hp.
  { intros why [[Hlt ->]|(Hle & -> & Hw)]%Subtract_panic Hc; [|by split]. rewrite Compare_amount in Hc. by destruct Hc; apply Qlt_alt. }
  destruct (Compare _ _) eqn:Hc; [|done|]; destruct (Subtract _ _) as [r|why] eqn:Hsub; try done; cbn [mbind result_bind]; intros [= ->];
    (destruct (Hp _ eq_refl) as [[= ->] Ho]; [done|]); (split; [done|by exists needed]).
Qed.
(** Where the simulation of a wallet with the balance [balance] panics. *)
Definition panics_at (items : markets) (balance : Q) (message : string) : Prop :=
  message = simulation_panic ∧ ∃ item estimate remaining needed, (item, estimate) ∈ items ∧ overflows item estimate remaining needed ∧ (amount remaining <= balance)%Q.
Lemma wallet_steps_panic (wallet : normalizedExecutionPreviewWallet C) x (items : markets) wi ii ordinal st message past : follows x past st →
  wallet_steps wallet x items wi ii ordinal st = Err (Panicked message) → panics_at items (amount (sm_remaining st)) message.
Proof.
  revert ii ordinal st past. induction items as [|[item estimate] items IH]; intros ii ordinal st past F H; cbn [wallet_steps] in H; [done|]. cbv zeta in H.
  destruct (preview_step x item estimate _ st) as [[s st']|why] eqn:Es; cbn [mbind result_bind fst snd] in H.
  - apply (preview_step_ok _ past) in Es as M; [|done..]. destruct (wallet_steps wallet x items _ _ _ st') as [rest|why] eqn:Er; cbn [mbind result_bind] in H; [done|].
    injection H as ->. destruct (IH _ _ _ _ (mv_follows _ _ _ _ _ _ _ _ M) Er) as (-> & it & e & r & n & Hin & Ho & Hle). split; [done|]. exists it, e, r, n. split; [by right|].
    split; [done|]. pose proof (mv_amount _ _ _ _ _ _ _ _ M) as Ha. enough (0 <= spent s)%Q by lra. unfold spent. case_bool_decide; [|done].
    unfold text_amount. destruct (parseExecutionPreviewDecimal _) eqn:Ep; [|done]. by eapply good_nonnegative, parse_good.
  - injection H as ->. apply preview_step_panic in Es as (-> & n & Ho). split; [done|]. exists item, estimate, (sm_remaining st), n. split; [by left|]. split; [done|apply Qle_refl].
Qed.
Lemma all_steps_panic (wallets : list (normalizedExecutionPreviewWallet C * executionPreviewWalletExposure)) (items : markets) wi ordinal message :
  (∀ w, w ∈ wallets → good (nw_usdc w.1)) → all_steps wallets items wi ordinal = Err (Panicked message) →
  ∃ w, w ∈ wallets ∧ panics_at items (amount (nw_usdc w.1)) message.
Proof.
  revert wi ordinal. induction wallets as [|[wallet x] wallets IH]; intros wi ordinal Hg H; cbn [all_steps] in H; [done|].
  destruct (wallet_steps _ _ _ _ _ _ _) as [steps|why] eqn:Ew; cbn [mbind result_bind] in H.
  - destruct (all_steps wallets _ _ _) as [rest|why] eqn:Er; cbn [mbind result_bind] in H; [done|]. injection H as ->.
    destruct (IH _ _ ltac:(intros w Hw; apply Hg; by right) Er) as (w & Hw & Hp). exists w. split; [by right|done].
  - injection H as ->. exists (wallet, x). split; [by left|]. eapply wallet_steps_panic in Ew; [exact Ew|]. apply follows_start, (Hg (wallet, x)). by left.
Qed.
End Wallets.

(** * Execution previews: a whole build

    What the input, the replies and the result of a build have to do with each other. *)
#[local] Open Scope Z_scope.

(** ** Chunks *)
Lemma chunks_length {A} (l : list (list A)) m : (∀ c, c ∈ l → length c = m) → length (concat l) = (length l * m)%nat.
Proof.
  induction l as [|c l IH]; intros H; [done|]. cbn. rewrite length_app, IH, (H c); [done|by left|]. intros d ?. apply H. by right.
Qed.
Lemma concat_drop {A} (l : list (list A)) m i : (∀ c, c ∈ l → length c = m) → drop (i * m) (concat l) = concat (drop i l).
Proof.
  revert i. induction l as [|c l IH]; intros i H; [cbn; by rewrite !drop_nil|]. destruct i as [|i]; [done|]. cbn [concat drop].
  rewrite <- (H c) at 1 by (by left). rewrite (drop_app_ge c) by lia. replace (S i * length c - length c)%nat with (i * length c)%nat by lia.
  rewrite (H c) by (by left). apply IH. intros d ?. apply H. by right.
Qed.
(** The steps of chunk [i]. *)
Lemma concat_chunk {A} (l : list (list A)) m i c : (∀ c, c ∈ l → length c = m) → l !! i = Some c →
  ∀ j, (j ≤ m)%nat → take j (drop (i * m) (concat l)) = take j c.
Proof.
  intros H Hi j Hj. rewrite (concat_drop l m i) by done. rewrite (drop_S l c i Hi). cbn [concat]. apply take_app_le.
  rewrite (H c); [done|]. by eapply list_elem_of_lookup_2.
Qed.
Lemma concat_lookup {A} (l : list (list A)) m i c j : (∀ c, c ∈ l → length c = m) → l !! i = Some c → (j < m)%nat →
  concat l !! (i * m + j)%nat = c !! j.
Proof.
  intros H Hi Hj. rewrite <- lookup_drop, (concat_drop l m i), (drop_S l c i Hi) by done. cbn [concat]. apply lookup_app_l.
  rewrite (H c); [done|]. by eapply list_elem_of_lookup_2.
Qed.

Section Build.
Context {SL : SolanaLib} {CL : ChallengeLib} {C : Type}.
Abbreviation preview_log := (list {o : preview_op (C := C) & preview_resp o}).

(** ** Normalized input *)
Record normalized_wallet (w : ExecutionPreviewWalletInput C) (n : normalizedExecutionPreviewWallet C) : Prop := {
  nmw_id : ew_wallet_id (nw_input n) = ew_wallet_id w;
  nmw_client : ew_client (nw_input n) = ew_client w;
  nmw_read : is_Some (ew_client w);
  nmw_usdc : parseExecutionPreviewDecimal (ew_usdc_balance w) = Ok (nw_usdc n) }.
Record normalized_item (i : ExecutionPreviewItemInput) (n : normalizedExecutionPreviewItem) : Prop := {
  nmi_market : ei_market_condition_id (ni_input n) = ei_market_condition_id i;
  nmi_side : ei_is_yes (ni_input n) = ei_is_yes i;
  nmi_selectable : ei_selectable (ni_input n) = ei_selectable i;
  nmi_funds : ei_selectable i = true → executionPreviewFundsForBackend (ei_backend i) = (ni_funds n, true) }.
Lemma normalize_wallets_ok l ids addresses ns : normalize_wallets l ids addresses = Ok ns → Forall2 normalized_wallet l ns.
Proof.
  revert ids addresses ns. induction l as [|w l IH]; intros ids addresses ns H; cbn [normalize_wallets] in H; [injection H as <-; constructor|].
  tx_inv. bool_prop. constructor; [|by eapply IH].
  repeat match goal with H : match ?p with _ => _ end = Ok _ |- _ => destruct p eqn:?; simplify_eq end. by constructor.
Qed.
Lemma normalize_items_ok l seen ns : normalize_items l seen = Ok ns → Forall2 normalized_item l ns.
Proof.
  revert seen ns. induction l as [|i l IH]; intros seen ns H; cbn [normalize_items] in H; [injection H as <-; constructor|].
  cbv zeta in H. destruct (executionPreviewFundsForBackend (to_lower (trim_space (ei_backend i)))) as [expected supported] eqn:Hf.
  tx_inv. bool_prop. constructor; [|by eapply IH].
  match goal with H : match ?p with _ => _ end = Ok _ |- _ => destruct p eqn:?; simplify_eq end. constructor; try done.
  intros Hs. unfold check_item in *. rewrite Hs in *. cbn. tx_inv. bool_prop. destruct_and?. subst. congruence.
Qed.
Lemma normalize_ok input wallets items : normalizeExecutionPreviewInput input = Ok (wallets, items) →
  Forall2 normalized_wallet (in_wallets input) wallets ∧ Forall2 normalized_item (in_items input) items.
Proof.
  unfold normalizeExecutionPreviewInput. intros H. tx_inv.
  split; [by eapply normalize_wallets_ok|by eapply normalize_items_ok].
Qed.

(** ** Estimates *)
Definition estimate_options (item : normalizedExecutionPreviewItem) : EstimateMarginPositionOptions := {|
  eo_market_condition_id := ei_market_condition_id (ni_input item); eo_funds := ni_funds item; eo_is_yes := ei_is_yes (ni_input item) |}.
(** The provider priced the trade of [item]: this market, this side and these funds; and the
    amount is the funds and the fee. *)
Definition priced (log : preview_log) (item : normalizedExecutionPreviewItem) (e : ExecutionPreviewMarketEstimate) : Prop :=
  ∃ provider, existT (POpEstimate (estimate_options item)) (Ok (Some provider)) ∈ log
    ∧ (text_amount (ee_user_funds_needed e) == text_amount (me_user_funds_needed provider))%Q
    ∧ (text_amount (ee_user_funds_needed e) == text_amount (ni_funds item) + text_amount (me_fee_amount provider))%Q.
Lemma priced_mono log log' item e : priced log item e → (∀ x, x ∈ log → x ∈ log') → priced log' item e.
Proof. intros (p & Hin & H) Hs. exists p. split; [by apply Hs|done]. Qed.
(** The funds of a backend; the key of a market with such funds is its own. *)
Definition fixed_funds (item : normalizedExecutionPreviewItem) : Prop :=
  ni_funds item = executionPreviewPolymarketFunds ∨ ni_funds item = executionPreviewHyperliquidFunds.
Lemma normalized_fixed i n : normalized_item i n → ei_selectable (ni_input n) = true → fixed_funds n.
Proof.
  intros H Hs. rewrite (nmi_selectable _ _ H) in Hs. pose proof (nmi_funds _ _ H Hs) as Hf. unfold executionPreviewFundsForBackend in Hf.
  unfold fixed_funds. destruct (bool_decide _); [injection Hf as <-; by left|]. destruct (bool_decide _); [injection Hf as <-; by right|done].
Qed.
Lemma append_inj a b s t : String.length s = String.length t → a +:+ s = b +:+ t → a = b ∧ s = t.
Proof.
  revert b. induction a as [|x a IH]; intros [|y b] Hl H; [done|..].
  - rewrite append_empty in H. subst s. rewrite append_cons in Hl. cbn in Hl. rewrite length_append in Hl. lia.
  - rewrite append_empty in H. subst t. rewrite append_cons in Hl. cbn in Hl. rewrite length_append in Hl. lia.
  - rewrite !append_cons in H. injection H as -> H. by destruct (IH b Hl H) as [-> ->].
Qed.
Lemma estimate_key_inj a b : fixed_funds a → fixed_funds b → executionPreviewEstimateKey a = executionPreviewEstimateKey b → estimate_options a = estimate_options b.
Proof.
  intros Ha Hb H. unfold executionPreviewEstimateKey in H. set (z := String "000" EmptyString) in H.
  assert (∀ m side, m +:+ z +:+ side +:+ z +:+ ni_funds a +:+ z +:+ "1.0" = (m +:+ z +:+ side) +:+ z +:+ ni_funds a +:+ z +:+ "1.0") as Ea by (intros; by rewrite !append_assoc).
  assert (∀ m side, m +:+ z +:+ side +:+ z +:+ ni_funds b +:+ z +:+ "1.0" = (m +:+ z +:+ side) +:+ z +:+ ni_funds b +:+ z +:+ "1.0") as Eb by (intros; by rewrite !append_assoc).
  rewrite Ea, Eb in H. apply append_inj in H as [H Hf]; [|by destruct Ha as [-> | ->], Hb as [-> | ->]].
  assert (ni_funds a = ni_funds b) as Hfunds by (destruct Ha as [E | E], Hb as [E' | E']; rewrite E, E' in *; done).
  unfold estimate_options. rewrite Hfunds. destruct (ei_is_yes (ni_input a)) eqn:Sa, (ei_is_yes (ni_input b)) eqn:Sb.
  - by apply append_inj in H as [-> _].
  - change (z +:+ "false") with ("" +:+ z +:+ "false") in H. rewrite (append_empty (z +:+ _)) in H. rewrite <- (append_assoc _ z "false") in H. by apply append_inj in H as [_ ?].
  - change (z +:+ "false") with ("" +:+ z +:+ "false") in H. rewrite (append_empty (z +:+ _)) in H. rewrite <- (append_assoc _ z "false") in H. by apply append_inj in H as [_ ?].
  - by apply append_inj in H as [-> _].
Qed.
Lemma priced_key log a b e : fixed_funds a → fixed_funds b → executionPreviewEstimateKey a = executionPreviewEstimateKey b → priced log a e → priced log b e.
Proof.
  intros Ha Hb Hk (p & Hin & H1 & H2). apply (estimate_key_inj a b Ha Hb) in Hk. exists p. rewrite <- Hk. injection Hk as _ Hf _. rewrite <- Hf. done.
Qed.
Lemma parse_field_ok name v d : parse_field name v = Ok d → parseExecutionPreviewDecimal v = Ok d.
Proof. unfold parse_field. by destruct (parseExecutionPreviewDecimal v); intros ?; simplify_eq. Qed.
Lemma text_of v d : parseExecutionPreviewDecimal v = Ok d → text_amount v = amount d ∧ text_amount (decimal_String d) = amount d.
Proof. intros H. split; [unfold text_amount; by rewrite H|by eapply good_text, parse_good]. Qed.
Lemma normalize_estimate_ok base provider e : normalizeExecutionPreviewEstimate base provider = Ok e →
  ee_rejection_code e = ee_rejection_code base ∧ (text_amount (ee_user_funds_needed e) == text_amount (me_user_funds_needed provider))%Q
  ∧ (text_amount (ee_user_funds_needed e) == text_amount (ee_funds base) + text_amount (me_fee_amount provider))%Q.
Proof.
  unfold normalizeExecutionPreviewEstimate. intros H. tx_inv.
  repeat match goal with H : parse_field _ _ = Ok _ |- _ => apply parse_field_ok in H; pose proof (text_of _ _ H); destruct_and?; pose proof (parse_canonical _ _ H); destruct_and? end.
  match goal with H : executionPreviewDecimalSumEquals _ _ _ = true |- _ => apply SumEquals_amount in H; rename H into Hs end.
  cbn [ee_rejection_code ee_user_funds_needed].
  split; [done|]. simplify_eq. split; [congruence|].
  match type of Hs with (?a + ?b == ?t)%Q =>
    replace (text_amount (ee_funds base)) with a by congruence; replace (text_amount (me_fee_amount provider)) with b by congruence; rewrite Hs end.
  match goal with |- (?a == ?b)%Q => by replace a with b by congruence end.
Qed.
Lemma fetch_estimate_ok index item log e : runs (fetch_estimate index item) log (Ok e) →
  ee_rejection_code e = EmptyString → priced log item e.
Proof.
  intros H Hr. unfold fetch_estimate in H. cbv zeta in H. run_inv.
  match goal with H : runs (mret _) _ _ |- _ => apply runs_ret in H as [-> Heq] end. match type of Heq with _ = match ?r with _ => _ end => destruct r as [[provider|]|err] end.
  - symmetry in Heq. apply normalize_estimate_ok in Heq as (_ & H1 & H2). exists provider. split_and!; [by left|done|done].
  - done.
  - destruct (isExecutionPreviewEstimateRejection err); [|done]. injection Heq as ->. done.
Qed.
(** Every selectable market that was not rejected is priced. *)
Abbreviation all_priced log := (λ item e, ei_selectable (ni_input item) = true → ee_rejection_code e = EmptyString → priced log item e).
Lemma runs_try {E A B} (k : A → program preview_resp (result E B)) p (log : preview_log) b :
  runs (prog_try k p) log (Ok b) → ∃ l1 a l2, log = l1 ++ l2 ∧ runs p l1 (Ok a) ∧ runs (k a) l2 (Ok b).
Proof. unfold prog_try. rewrite runs_bind. intros (l1 & [a|e] & l2 & -> & H1 & H2); [by exists l1, a, l2|by destruct H2]. Qed.
Lemma fetchEstimates_ok items index cache (log0 log : preview_log) es :
  runs (fetchEstimates items index cache) log (Ok es) → (∀ item, item ∈ items → ei_selectable (ni_input item) = true → fixed_funds item) →
  (∀ item e, fixed_funds item → cache !! executionPreviewEstimateKey item = Some e → ee_rejection_code e = EmptyString → priced log0 item e) →
  Forall2 (all_priced (log0 ++ log)) items es.
Proof.
  revert index cache log0 log es. induction items as [|item items IH]; intros index cache log0 log es H Hfix Hc; cbn [fetchEstimates] in H.
  { destruct H as [-> H]. injection H as ->. constructor. }
  assert (∀ i, i ∈ items → ei_selectable (ni_input i) = true → fixed_funds i) as Hrest by (intros i Hi; apply Hfix; by right).
  destruct (ei_selectable (ni_input item)) eqn:Hs; cbn [negb] in H.
  2:{ apply runs_try in H as (l1 & rest & l2 & -> & H & Heq). destruct Heq as [-> Heq]. injection Heq as ->. rewrite app_nil_r. constructor; [congruence|by eapply IH]. }
  assert (fixed_funds item) as Hitem by (apply Hfix; [by left|done]). cbv zeta in H. destruct (cache !! executionPreviewEstimateKey item) as [e|] eqn:Hk.
  - apply runs_try in H as (l1 & rest & l2 & -> & H & Heq). destruct Heq as [-> Heq]. injection Heq as ->. rewrite app_nil_r. constructor; [|by eapply IH].
    intros _ Hr. eapply priced_mono; [exact (Hc item e Hitem Hk Hr)|]. intros x Hx. apply elem_of_app. by left.
  - apply runs_try in H as (l1 & e & l2 & -> & He & H). apply runs_try in H as (l3 & rest & l4 & -> & H & Heq). destruct Heq as [-> Heq]. injection Heq as ->.
    rewrite app_nil_r. constructor.
    + intros _ Hr. eapply priced_mono; [eapply fetch_estimate_ok; [exact He|done]|]. set_solver.
    + rewrite app_assoc. eapply IH; [exact H|done|]. intros item' e' Hfix' Hk' Hr. destruct (decide (executionPreviewEstimateKey item = executionPreviewEstimateKey item')) as [E|Hne].
      * rewrite <- E, lookup_insert_eq in Hk'. injection Hk' as <-. apply (priced_key _ item); [done..|]. eapply priced_mono; [by eapply fetch_estimate_ok|]. set_solver.
      * rewrite lookup_insert_ne in Hk' by done. eapply priced_mono; [by eapply Hc|]. set_solver.
Qed.

(** ** Exposures *)
(** The log contains the complete read that [x] describes. *)
Definition read_in (log : preview_log) (client : C) (x : executionPreviewWalletExposure)
    (positions : list (string * ListMarginPositionsResponse)) (requests : list (string * ListPositionRequestsResponse)) : Prop :=
  ∃ before read after, log = before ++ read ++ after ∧ describes client read x positions requests.
Lemma read_in_app l1 l2 l3 client x ps rs : read_in l2 client x ps rs → read_in (l1 ++ l2 ++ l3) client x ps rs.
Proof. intros (b & r & a & -> & H). exists (l1 ++ b), r, (a ++ l3). by rewrite <- !app_assoc. Qed.
Lemma fetch_exposures_ok fuel wallets index log xs :
  runs (fetch_exposures fuel wallets index) log (Some (Ok xs)) →
  Forall2 (λ w x, ∃ client ps rs, ew_client (nw_input w) = Some client ∧ read_in log client x ps rs) wallets xs.
Proof.
  revert index log xs. induction wallets as [|w wallets IH]; intros index log xs H; cbn [fetch_exposures] in H.
  { destruct H as [-> H]. injection H as ->. constructor. }
  run_inv. match goal with H : runs (match ?r with _ => _ end) _ _ |- _ => rename H into Hrun; destruct r as [err|]; [by destruct Hrun|] end.
  destruct (ew_client (nw_input w)) as [client|] eqn:Hcl; [|by destruct Hrun]. run_inv.
  match goal with H : runs (match ?r with _ => _ end) _ (Some (Ok xs)) |- _ => rename H into Hrun; destruct r as [[y|e]|]; [|by destruct Hrun..] end. run_inv.
  match goal with H : runs (mret _) _ (Some (Ok xs)) |- _ => apply runs_ret in H as [-> Heq] end.
  match type of Heq with _ = match ?r with _ => _ end => destruct r as [[l|e]|]; [|done..] end.
  injection Heq as ->. match goal with H : runs (fetch_exposures _ _ _) _ _ |- _ => apply IH in H as Hrest end.
  match goal with H : runs (fetchExecutionPreviewWalletExposure _ _) ?l _ |- _ => apply exposure_run in H as (ps & rs & Hd); rename l into read end.
  constructor.
  - exists client, ps, rs. split; [done|]. by eexists [_], read, _.
  - eapply Forall2_impl; [exact Hrest|]. intros w' x' (c & p & r & Hc & Hr). exists c, p, r. split; [done|]. rewrite !app_nil_r, app_assoc.
    rewrite <- (app_nil_r (_ ++ _)), <- app_assoc. by apply read_in_app.
Qed.

(** ** The result *)
Lemma all_fixed (input : ExecutionPreviewInput C) wallets items item : normalizeExecutionPreviewInput input = Ok (wallets, items) → item ∈ items →
  ei_selectable (ni_input item) = true → fixed_funds item.
Proof.
  intros [_ Hi]%normalize_ok [k Hk]%list_elem_of_lookup. destruct (Forall2_lookup_r _ _ _ _ _ Hi Hk) as (i & _ & Hn). by eapply normalized_fixed.
Qed.
Lemma build_run fuel input log result : runs (Build fuel input) log (Some (Ok result)) →
  ∃ wallets items exposures, normalizeExecutionPreviewInput input = Ok (wallets, items)
    ∧ buildExecutionPreviewSteps wallets items (er_estimates result) exposures = Ok (er_steps result)
    ∧ Forall2 (all_priced log) items (er_estimates result)
    ∧ Forall2 (λ w x, ∃ client ps rs, ew_client (nw_input w) = Some client ∧ read_in log client x ps rs) wallets exposures.
Proof.
  intros H. unfold Build in H. destruct (normalizeExecutionPreviewInput input) as [[wallets items]|e] eqn:En; [|by destruct H]. run_inv.
  match goal with H : runs (match ?r with _ => _ end) _ _ |- _ => rename H into Hrun; destruct r as [estimates|e]; [|by destruct Hrun] end. run_inv.
  match goal with H : runs (match ?r with _ => _ end) _ _ |- _ => rename H into Hrun; destruct r as [[exposures|e]|]; [|by destruct Hrun..] end.
  apply runs_ret in Hrun as [-> Heq]. destruct (buildExecutionPreviewSteps wallets items estimates exposures) as [steps|[e|m]] eqn:Hb; [|done..].
  injection Heq as ->. match goal with H : runs (fetchEstimates _ _ _) ?l _ |- _ => apply (fetchEstimates_ok _ _ _ []) in H as He; [|intros it ? ?; by eapply all_fixed|intros ? ? ? Hk; by rewrite lookup_empty in Hk] end.
  match goal with H : runs (fetch_exposures _ _ _) ?l _ |- _ => apply fetch_exposures_ok in H as Hx end.
  exists wallets, items, exposures. cbn [er_estimates er_steps]. split_and!; try done.
  - eapply Forall2_impl; [exact He|]. intros item e Hp Hs Hr. eapply priced_mono; [by apply Hp|]. set_solver.
  - eapply Forall2_impl; [exact Hx|]. intros w y (c & p & r & Hc & Hr). exists c, p, r. split; [done|].
    rewrite app_nil_r. rewrite <- (app_nil_r (_ ++ _)), <- app_assoc. by apply read_in_app.
Qed.
(** A build that panics: the input and the replies it got there with. *)
Lemma fetch_exposures_calm fuel wallets index (log : preview_log) message : (∀ w, w ∈ wallets → is_Some (ew_client (nw_input w))) →
  ¬ runs (fetch_exposures fuel wallets index) log (Some (Err (Panicked message))).
Proof.
  revert index log. induction wallets as [|w wallets IH]; intros index log Hw H; cbn [fetch_exposures] in H; [by destruct H|].
  run_inv. match goal with H : runs (match ?r with _ => _ end) _ _ |- _ => rename H into Hrun; destruct r as [err|]; [by destruct Hrun|] end.
  destruct (Hw w ltac:(by left)) as [client Hc]. rewrite Hc in Hrun. run_inv.
  match goal with H : runs (match ?r with _ => _ end) _ (Some (Err _)) |- _ => rename H into Hrun; destruct r as [[y|e]|]; [|by destruct Hrun..] end. run_inv.
  match goal with H : runs (mret _) _ (Some (Err _)) |- _ => apply runs_ret in H as [-> Heq] end.
  match type of Heq with _ = match ?r with _ => _ end => destruct r as [[l|e]|]; [done| |done] end. injection Heq as <-.
  eapply IH; [|eassumption]. intros w' ?. apply Hw. by right.
Qed.
Lemma build_panic fuel input log message : runs (Build fuel input) log (Some (Err (Panicked message))) →
  ∃ wallets items estimates w, normalizeExecutionPreviewInput input = Ok (wallets, items) ∧ Forall2 (all_priced log) items estimates
    ∧ w ∈ wallets ∧ panics_at (zip items estimates) (amount (nw_usdc w)) message.
Proof.
  intros H. unfold Build in H. destruct (normalizeExecutionPreviewInput input) as [[wallets items]|e] eqn:En; [|by destruct H]. run_inv.
  match goal with H : runs (match ?r with _ => _ end) _ _ |- _ => rename H into Hrun; destruct r as [estimates|e]; [|by destruct Hrun] end. run_inv.
  apply normalize_ok in En as Hn. destruct Hn as [Hw _].
  assert (∀ w, w ∈ wallets → is_Some (ew_client (nw_input w)) ∧ good (nw_usdc w)) as Hwallet.
  { intros w [k Hk]%list_elem_of_lookup. destruct (Forall2_lookup_r _ _ _ _ _ Hw Hk) as (v & _ & Hv). rewrite (nmw_client _ _ Hv). split; [apply Hv|]. eapply parse_good, Hv. }
  match goal with H : runs (match ?r with _ => _ end) _ _ |- _ => rename H into Hrun; destruct r as [[exposures|e]|] end; [| |by destruct Hrun].
  2:{ apply runs_ret in Hrun as [-> Heq]. injection Heq as <-. match goal with H : runs (fetch_exposures _ _ _) _ _ |- _ => apply fetch_exposures_calm in H; [done|] end. intros w Hin. by apply Hwallet. }
  apply runs_ret in Hrun as [-> Heq]. destruct (buildExecutionPreviewSteps wallets items estimates exposures) as [steps|[e|m]] eqn:Hb; [done..|]. injection Heq as ->.
  unfold buildExecutionPreviewSteps in Hb. do 2 (match type of Hb with (require ?b _ ≫= _) = _ => destruct b; [cbn [require mbind result_bind] in Hb|done] end).
  apply all_steps_panic in Hb as ([w y] & Hin & Hp); [|intros [w y] Hin%elem_of_zip_l; by apply Hwallet]. exists wallets, items, estimates, w. split; [done|].
  split; [|split; [by eapply elem_of_zip_l|done]].
  match goal with H : runs (fetchEstimates _ _ _) ?l _ |- _ => apply (fetchEstimates_ok _ _ _ []) in H as He; [|intros it ? ?; by eapply all_fixed|intros ? ? ? Hk; by rewrite lookup_empty in Hk] end.
  eapply Forall2_impl; [exact He|]. intros item e Hpr Hs Hr. eapply priced_mono; [by apply Hpr|]. set_solver.
Qed.
(** Everything the step of wallet [i] and market [j] says. *)
Record step_explained (input : ExecutionPreviewInput C) (log : preview_log) (steps : list ExecutionPreviewStep) (i j : nat)
    (w : ExecutionPreviewWalletInput C) (n : normalizedExecutionPreviewWallet C) (items : list normalizedExecutionPreviewItem)
    (estimate : ExecutionPreviewMarketEstimate) (x : executionPreviewWalletExposure) (s : ExecutionPreviewStep) : Prop := {
  se_wallet : normalized_wallet w n;
  se_items : Forall2 normalized_item (in_items input) items;
  se_read : ∃ client ps rs, ew_client w = Some client ∧ read_in log client x ps rs;
  se_priced : ∀ item, items !! j = Some item → all_priced log item estimate;
  se_shows : ∀ item, items !! j = Some item →
    step_shows n x (zip (take j items) (take j (drop (i * length (in_items input)) steps))) item estimate (Z.of_nat i) (Z.of_nat j)
      (Z.of_nat (i * length (in_items input) + j) + 1)
      (text_amount (ew_usdc_balance w) - total_spent (take j (drop (i * length (in_items input)) steps)))%Q s }.
Lemma build_explained fuel input log result : runs (Build fuel input) log (Some (Ok result)) →
  length (er_steps result) = (length (in_wallets input) * length (in_items input))%nat
  ∧ ∀ i j w, in_wallets input !! i = Some w → (j < length (in_items input))%nat →
    ∃ s n items estimate x, er_steps result !! (i * length (in_items input) + j)%nat = Some s ∧ er_estimates result !! j = Some estimate
      ∧ step_explained input log (er_steps result) i j w n items estimate x s.
Proof.
  intros H. apply build_run in H as (wallets & items & xs & Hn & Hb & Hp & Hx). apply normalize_ok in Hn as [Hw Hi].
  unfold buildExecutionPreviewSteps in Hb. tx_inv. match goal with Ha : all_steps _ _ _ _ = Ok _ |- _ => rename Ha into Hsteps end.
  set (es := er_estimates result) in *. pose proof (Forall2_length _ _ _ Hw) as Lw. pose proof (Forall2_length _ _ _ Hi) as Li.
  pose proof (Forall2_length _ _ _ Hp) as Lp. pose proof (Forall2_length _ _ _ Hx) as Lx.
  apply (all_steps_ok _ (zip items es) 0) in Hsteps as (chunks & Hst & Hlen & Hok).
  2:{ intros [n y] Hin. apply elem_of_zip_l in Hin. apply list_elem_of_lookup in Hin as [k Hk].
      destruct (Forall2_lookup_r _ _ _ _ _ Hw Hk) as (w & _ & Hnw). eapply parse_good, (nmw_usdc _ _ Hnw). }
  rewrite length_zip in Hlen. assert (∀ c, c ∈ chunks → length c = length (in_items input)) as Hchunk.
  { intros c [k Hk]%list_elem_of_lookup. assert (k < length (zip wallets xs))%nat as Hlt by (apply lookup_lt_Some in Hk; rewrite length_zip; lia).
    apply lookup_lt_is_Some in Hlt as [[n y] Hnx]. destruct (Hok _ _ _ _ Hk Hnx) as [-> _]. rewrite length_zip. lia. }
  rewrite Hst. split; [rewrite (chunks_length _ _ Hchunk); lia|]. intros i j w Hwi Hj.
  destruct (Forall2_lookup_l _ _ _ _ _ Hw Hwi) as (n & Hni & Hnw). destruct (Forall2_lookup_l _ _ _ _ _ Hx Hni) as (y & Hxi & Hread).
  assert (is_Some (chunks !! i)) as [c Hc]. { apply lookup_lt_is_Some. apply lookup_lt_Some in Hni. lia. }
  assert (length c = length (in_items input)) as Lc by (apply Hchunk; by eapply list_elem_of_lookup_2).
  assert (is_Some (items !! j)) as [item Hitem]. { apply lookup_lt_is_Some. lia. }
  destruct (Forall2_lookup_l _ _ _ _ _ Hp Hitem) as (estimate & He & Hpr).
  assert (is_Some (c !! j)) as [s Hs]. { apply lookup_lt_is_Some. lia. }
  exists s, n, items, estimate, y. rewrite (concat_lookup _ _ _ _ _ Hchunk Hc Hj). split; [done|]. split; [done|].
  assert (zip wallets xs !! i = Some (n, y)) as Hz by (rewrite lookup_zip_with, Hni, Hxi; done).
  destruct (Hok _ _ _ _ Hc Hz) as [_ Hall]. assert (zip items es !! j = Some (item, estimate)) as Hze by (rewrite lookup_zip_with, Hitem, He; done).
  specialize (Hall _ _ _ _ Hs Hze). rewrite length_zip, Nat.min_l, fst_zip in Hall by lia.
  constructor; [done|done| | |].
  - destruct Hread as (cl & ps & rs & Hcl & Hr). exists cl, ps, rs. split; [|done]. by rewrite <- (nmw_client _ _ Hnw).
  - intros it Hit. by simplify_eq.
  - intros it Hit. simplify_eq. rewrite (concat_chunk _ _ _ _ Hchunk Hc) by lia. rewrite (proj1 (text_of _ _ (nmw_usdc _ _ Hnw))).
    by rewrite zip_with_take in Hall; rewrite <- Li in Hall.
Qed.
End Build.
