(* ===== verification/PreviewTheorems.v ===== *)
(** * Execution previews: theorems

    READY steps are affordable and free of exposure by a complete read of the wallet,
    the page loops end, the decimals are exact, and the one reason a build can panic;
    with a concrete build they are used at. *)

From S2P Require Import Prog Prelude CashOutTypes CashOutStages CashOutWorker ConnectionTypes ConnectionStore ConnectionService Decimal Preview.
From S2P Require Import PreviewExposure PreviewSimulation ConnectionScenario Bytes.
From stdpp Require Import base tactics option list list_numbers sorting strings gmap.
From Stdlib Require Import ZArith QArith Lqa Lia Ascii.
(** * Execution previews: a concrete build

    A wallet with 12 USDC and three markets: the pages of its positions and requests,
    the estimates, and the input at which the theorems are instantiated. *)
Import Prelude.Concrete.
#[local] Open Scope Z_scope.

Definition key (n : N) : string := public_key_string n.
Definition summary (n : N) : MarketSummary := {| ms_condition_id := key n; ms_title := "market"; ms_last_trade_price := None |}.
Definition position (pubkey market : N) (request : option N) : provider_position := {|
  pp_pubkey := key pubkey; pp_position_request_pubkey := key <$> request; pp_market := summary market; pp_is_yes := true; pp_leverage := "1";
  pp_total_shares := "10"; pp_avg_entry_price := "0.5"; pp_unrealized_pnl := None; pp_realized_pnl := "-1.5"; pp_user_liquidity := "5";
  pp_total_liquidity := "5"; pp_liquidation_price := None; pp_is_closed := false; pp_created := Some 1700000000 |}.
Definition request (pubkey market : N) : PositionRequest := {|
  prq_pubkey := key pubkey; prq_type := "market"; prq_state := "processing"; prq_market := Some (summary market); prq_is_yes := true;
  prq_leverage := "1"; prq_funds := "5"; prq_price := None; prq_shares := None |}.
Definition meta (next : option string) : EnvelopeMeta := {| em_limit := 100; em_next_cursor := next |}.
(** Two pages of positions, the second with the position behind the request in flight. *)
Definition positions_at (cursor : string) : ListMarginPositionsResponse :=
  if bool_decide (cursor = EmptyString) then {| lmp_positions := [position 70 40 None]; lmp_meta := meta (Some "next") |}
  else {| lmp_positions := [position 71 41 (Some 80%N)]; lmp_meta := meta None |}.
Definition requests_at : ListPositionRequestsResponse := {| lpr_requests := [request 80 41]; lpr_meta := meta None |}.
Definition estimate_reply (needed fee : string) : MarginPositionEstimate := {|
  me_average_price := "0.5"; me_total_shares := "10"; me_total_cost := "5.0"; me_best_ask := "0.5"; me_worst_fill_price := "0.51";
  me_is_fully_filled := true; me_fee_amount := fee; me_user_funds_needed := needed; me_liquidation_price := None |}.
Definition replies (needed fee : string) (o : preview_op (C := nat)) (s : unit) : unit * preview_resp o :=
  (s, match o return preview_resp o with
      | POpCtxErr => None
      | POpEstimate _ => Ok (Some (estimate_reply needed fee))
      | POpListMarginPositions _ cursor => Ok (Some (positions_at cursor))
      | POpListPositionRequests _ _ => Ok (Some requests_at)
      end).
Definition sample_item (market : N) : ExecutionPreviewItemInput := {|
  ei_event_condition_id := key 30; ei_market_condition_id := key market; ei_is_yes := true; ei_backend := "polymarket"; ei_funds := "5";
  ei_selectable := true; ei_unavailable_code := "" |}.
Definition sample (balance : string) : ExecutionPreviewInput nat := {|
  in_wallets := [{| ew_wallet_id := 1; ew_address := key 9; ew_usdc_balance := balance; ew_sol_balance := "0.1"; ew_client := Some 0%nat |}];
  in_items := [sample_item 31; sample_item 32; sample_item 33] |}.
Definition sample_log : list {o : preview_op (C := nat) & preview_resp o} := logged (replies "5.1" "0.1") (Build 4 (sample "12")) tt.
Definition sample_result : ExecutionPreviewResult :=
  match (drive (replies "5.1" "0.1") (Build 4 (sample "12")) tt).2 with
  | Some (Ok r) => r | _ => {| er_estimates := []; er_steps := [] |} end.
Lemma sample_runs : runs (Build 4 (sample "12")) sample_log (Some (Ok sample_result)).
Proof.
  replace (Some (Ok sample_result)) with (drive (replies "5.1" "0.1") (Build 4 (sample "12")) tt).2 by (vm_compute; reflexivity).
  apply drive_runs.
Qed.
Example sample_outcomes : (λ s, (es_outcome s, es_usdc_balance_after s)) <$> er_steps sample_result
  = [("READY", "6.9"); ("READY", "1.8"); ("INSUFFICIENT_USDC", "1.8")].
Proof. vm_compute. reflexivity. Qed.
Example sample_calls : length sample_log = 7%nat.
Proof. vm_compute. reflexivity. Qed.

Import Prelude.Concrete.
#[local] Open Scope Z_scope.

Section Theorems.
Context {SL : SolanaLib} {CL : ChallengeLib} {C : Type}.
Abbreviation preview_log := (list {o : preview_op (C := C) & preview_resp o}).

(** ** Exposure *)
(** No position of the pages is in the market, and every request of the pages has
    become a position already. *)
Definition unexposed (market : string) (positions : list (string * ListMarginPositionsResponse))
    (requests : list (string * ListPositionRequestsResponse)) : Prop :=
  (∀ p, p ∈ positions_of positions → ms_condition_id (pp_market p) ≠ market)
  ∧ ∀ r, r ∈ requests_of requests → prq_pubkey r ∈ backed (positions_of positions).
Lemma filter_empty {A} (P : A → Prop) `{∀ x, Decision (P x)} (l : list A) : filter P l = [] ↔ ∀ x, x ∈ l → ¬ P x.
Proof.
  split; [intros E x Hx HP; assert (x ∈ filter P l) as Hin by (by apply list_elem_of_filter); by rewrite E, elem_of_nil in Hin|].
  intros Hn. apply elem_of_nil_inv. intros x [HP Hx]%list_elem_of_filter. by eapply Hn.
Qed.
Lemma held_empty client (log : preview_log) x ps rs m isYes : describes client log x ps rs →
  held m isYes x = [] ↔ ∀ p, p ∈ positions_of ps → ¬ traded m isYes p.
Proof.
  intros D. rewrite <- filter_empty. pose proof (ds_held _ _ _ _ _ D m isYes) as Hp. split; intros E.
  - rewrite E in Hp. apply Permutation_nil in Hp. by apply fmap_nil_inv in Hp.
  - rewrite E in Hp. by apply Permutation_nil_r in Hp.
Qed.
Lemma free_unexposed client (log : preview_log) x ps rs m : describes client log x ps rs → free x m ↔ unexposed m ps rs.
Proof.
  intros D. unfold free, unexposed. rewrite !(held_empty _ _ _ _ _ _ _ D).
  assert (we_requests x = [] ↔ ∀ r, r ∈ requests_of rs → prq_pubkey r ∈ backed (positions_of ps)) as ->.
  { pose proof (ds_in_flight _ _ _ _ _ D) as Hp. transitivity (filter (λ r, xr_pubkey r ∉ backed (positions_of ps)) (omap in_flight (requests_of rs)) = []).
    { split; intros E; rewrite E in Hp; [by apply Permutation_nil in Hp|by apply Permutation_nil_r in Hp]. }
    rewrite filter_empty. setoid_rewrite list_elem_of_omap. split.
    - intros H r Hr. destruct (ds_valid _ _ _ _ _ D r Hr) as [q Hq]. destruct (decide (prq_pubkey r ∈ backed (positions_of ps))) as [?|Hno]; [done|].
      exfalso. apply (H q); [eauto|]. unfold in_flight in Hq. apply fmap_Some in Hq as (m' & _ & ->). done.
    - intros H q (r & Hr & Hq) Hno. unfold in_flight in Hq. apply fmap_Some in Hq as (m' & _ & ->). by apply Hno, H. }
  unfold traded. split.
  - intros (H1 & H2 & H3). split; [|done]. intros p Hp Hm. destruct (pp_is_yes p) eqn:Hy; [by eapply H2|by eapply H1].
  - intros [H1 H2]. split_and!; [intros p Hp [? _]; by eapply H1..|done].
Qed.

(** ** Steps *)
(** Why the step of wallet [i] and market [j] may be READY. *)
Record trade_explained (input : ExecutionPreviewInput C) (log : preview_log) (steps : list ExecutionPreviewStep) (i j : nat)
    (s : ExecutionPreviewStep) (wallet : ExecutionPreviewWalletInput C) (item : ExecutionPreviewItemInput) (client : C)
    (positions : list (string * ListMarginPositionsResponse)) (requests : list (string * ListPositionRequestsResponse))
    (funds : string) (provider : MarginPositionEstimate) : Prop := {
  te_wallet : in_wallets input !! i = Some wallet;
  te_item : in_items input !! j = Some item;
  te_trade : (es_wallet_id s, es_market_condition_id s, es_is_yes s)
    = (ew_wallet_id wallet, ei_market_condition_id item, ei_is_yes item);
  te_selectable : ei_selectable item = true;
  te_client : ew_client wallet = Some client;
  te_read : ∃ before after, log = before ++ ((position_event client <$> positions) ++ (request_event client <$> requests)) ++ after;
  te_positions : walk lmp_meta EmptyString positions;
  te_requests : walk lpr_meta EmptyString requests;
  te_unexposed : unexposed (ei_market_condition_id item) positions requests;
  te_funds : executionPreviewFundsForBackend (ei_backend item) = (funds, true);
  te_estimated : existT (POpEstimate {| eo_market_condition_id := ei_market_condition_id item; eo_funds := funds; eo_is_yes := ei_is_yes item |})
    (Ok (Some provider)) ∈ log;
  te_needed : (text_amount (es_user_funds_needed s) == text_amount (me_user_funds_needed provider))%Q;
  te_fee : (text_amount (es_user_funds_needed s) == text_amount funds + text_amount (me_fee_amount provider))%Q;
  te_covered : (total_spent (take j (drop (i * length (in_items input)) steps)) + text_amount (es_user_funds_needed s)
    <= text_amount (ew_usdc_balance wallet))%Q }.
Lemma div_mod_index n a b : (n < a * b)%nat → ∃ i j, n = (i * b + j)%nat ∧ (i < a)%nat ∧ (j < b)%nat.
Proof.
  intros H. assert (b ≠ 0)%nat as Hb by (destruct b; lia). exists (n / b)%nat, (n mod b)%nat. pose proof (Nat.div_mod_eq n b) as E.
  pose proof (Nat.mod_upper_bound n b Hb). split_and!; [lia| |done]. apply Nat.Div0.div_lt_upper_bound. lia.
Qed.

(** C5: A step of a preview is READY only for a selectable market of the input, which the provider
    priced in this build, asked about this market, this side and the funds of its backend, as
    these funds plus the fee; in a wallet whose open positions and requests in flight
    were read completely, page by page, and showed no position in that market and no request
    that has not become a position; and the READY steps of the wallet up to this one cost no
    more than its USDC balance, in exact arithmetic.  Whatever the provider replies. *)
Theorem preview_ready_sound fuel (input : ExecutionPreviewInput C) log result n s :
  runs (Build fuel input) log (Some (Ok result)) → er_steps result !! n = Some s → es_outcome s = ExecutionPreviewOutcomeReady →
  ∃ i j wallet item client positions requests funds provider, n = (i * length (in_items input) + j)%nat
    ∧ trade_explained input log (er_steps result) i j s wallet item client positions requests funds provider.
Proof.
  intros H Hs Hr. apply build_explained in H as [Hlen H]. pose proof (lookup_lt_Some _ _ _ Hs) as Hlt. rewrite Hlen in Hlt.
  apply div_mod_index in Hlt as (i & j & -> & Hi & Hj). apply lookup_lt_is_Some in Hi as [w Hw].
  destruct (H i j w Hw Hj) as (s' & m & items & e & x & Hs' & _ & E). rewrite Hs in Hs'. injection Hs' as <-. destruct E as [En Ei Er Ep Es].
  apply lookup_lt_is_Some in Hj as [item Hitem]. destruct (Forall2_lookup_l _ _ _ _ _ Ei Hitem) as (it & Hit & Hni).
  specialize (Es it Hit). specialize (Ep it Hit). destruct Er as (client & ps & rs & Hc & before & read & after & -> & D).
  destruct (proj1 (sh_ready _ _ _ _ _ _ _ _ _ _ Es) Hr) as (Hfree & _ & Hsel & Hrej & _).
  destruct (Ep Hsel Hrej) as (provider & Hin & Hneed & Hfee). exists i, j, w, item, client, ps, rs, (ni_funds it), provider. split; [done|].
  pose proof (sh_trade _ _ _ _ _ _ _ _ _ _ Es) as Ht. injection Ht as T1 T2 T3 T4. constructor; try done.
  - by rewrite T1, T2, T3, (nmw_id _ _ En), (nmi_market _ _ Hni), (nmi_side _ _ Hni).
  - by rewrite <- (nmi_selectable _ _ Hni).
  - exists before, after. by rewrite <- (ds_log _ _ _ _ _ D).
  - by apply D.
  - by apply D.
  - rewrite <- (nmi_market _ _ Hni). by eapply free_unexposed.
  - apply (nmi_funds _ _ Hni). by rewrite <- (nmi_selectable _ _ Hni).
  - rewrite <- (nmi_market _ _ Hni), <- (nmi_side _ _ Hni). exact Hin.
  - by rewrite T4.
  - by rewrite T4.
  - pose proof (sh_covered _ _ _ _ _ _ _ _ _ _ Es) as Hcov. unfold spent in Hcov. rewrite bool_decide_eq_true_2 in Hcov by done. lra.
Qed.

(** What the step of wallet [i] and market [j] says; [total_spent] adds the READY steps before it. *)
Record step_exact (input : ExecutionPreviewInput C) (result : ExecutionPreviewResult) (i j : nat) (wallet : ExecutionPreviewWalletInput C)
    (item : ExecutionPreviewItemInput) (estimate : ExecutionPreviewMarketEstimate)
    (positions : list (string * ListMarginPositionsResponse)) (requests : list (string * ListPositionRequestsResponse))
    (s : ExecutionPreviewStep) (balance : Q) : Prop := {
  sx_ordinals : (es_ordinal s, es_wallet_ordinal s, es_market_ordinal s)
    = (Z.of_nat (i * length (in_items input) + j) + 1, wrap32 (Z.of_nat i + 1), wrap32 (Z.of_nat j + 1));
  sx_trade : (es_wallet_id s, es_market_condition_id s, es_is_yes s, es_user_funds_needed s)
    = (ew_wallet_id wallet, ei_market_condition_id item, ei_is_yes item, ee_user_funds_needed estimate);
  sx_before : (text_amount (es_usdc_balance_before s) == balance)%Q;
  sx_after : (text_amount (es_usdc_balance_after s) == balance - spent s)%Q;
  sx_ready : es_outcome s = ExecutionPreviewOutcomeReady ↔
    unexposed (ei_market_condition_id item) positions requests
    ∧ (∀ k item' s', (k < j)%nat → in_items input !! k = Some item' → er_steps result !! (i * length (in_items input) + k)%nat = Some s' →
         unexposed (ei_market_condition_id item') positions requests ∧ es_outcome s' ≠ ExecutionPreviewOutcomeInsufficientUSDC)
    ∧ ei_selectable item = true ∧ ee_rejection_code estimate = EmptyString
    ∧ (text_amount (ee_user_funds_needed estimate) <= balance)%Q }.
Lemma past_steps {A B} (items : list A) (steps : list B) i m j (P : A → B → Prop) : (j ≤ length items)%nat → (i * m + j ≤ length steps)%nat →
  (∀ p, p ∈ zip (take j items) (take j (drop (i * m) steps)) → P p.1 p.2)
  ↔ ∀ k a b, (k < j)%nat → items !! k = Some a → steps !! (i * m + k)%nat = Some b → P a b.
Proof.
  intros Hi Hs. split.
  - intros H k a b Hk Ha Hb. apply (H (a, b)). apply list_elem_of_lookup. exists k. rewrite lookup_zip_with, !lookup_take, lookup_drop, !decide_True by done.
    by rewrite Ha, Hb.
  - intros H [a b] [k Hk]%list_elem_of_lookup. rewrite lookup_zip_with in Hk. rewrite !lookup_take, lookup_drop in Hk. destruct (decide (k < j)%nat); [|done].
    destruct (items !! k) eqn:Ea, (steps !! (i * m + k)%nat) eqn:Eb; simplify_option_eq; by eapply H.
Qed.

(** C26: A preview has exactly one step per wallet and market, in that order and numbered from
    one, whose balances are the balance of the wallet less the READY steps before it.  A step is
    READY exactly when the completely read wallet has no position in its market and no request
    in flight that is not a position, this was so for every earlier market of the wallet and none
    of those failed for lack of USDC, the market is selectable and was not rejected, and the
    remaining balance covers the estimate. *)
Theorem preview_steps_exact fuel (input : ExecutionPreviewInput C) log result :
  runs (Build fuel input) log (Some (Ok result)) →
  length (er_steps result) = (length (in_wallets input) * length (in_items input))%nat
  ∧ ∀ i j wallet item, in_wallets input !! i = Some wallet → in_items input !! j = Some item →
    ∃ s estimate client positions requests before after,
      er_steps result !! (i * length (in_items input) + j)%nat = Some s ∧ er_estimates result !! j = Some estimate
      ∧ ew_client wallet = Some client
      ∧ log = before ++ ((position_event client <$> positions) ++ (request_event client <$> requests)) ++ after
      ∧ walk lmp_meta EmptyString positions ∧ walk lpr_meta EmptyString requests
      ∧ step_exact input result i j wallet item estimate positions requests s
          (text_amount (ew_usdc_balance wallet) - total_spent (take j (drop (i * length (in_items input)) (er_steps result)))).
Proof.
  intros H. apply build_explained in H as [Hlen H]. split; [done|]. intros i j w item Hw Hitem. pose proof (lookup_lt_Some _ _ _ Hitem) as Hj.
  destruct (H i j w Hw Hj) as (s & m & items & e & x & Hs & He & E). destruct E as [En Ei Er _ Es].
  destruct (Forall2_lookup_l _ _ _ _ _ Ei Hitem) as (it & Hit & Hni). specialize (Es it Hit).
  destruct Er as (client & ps & rs & Hc & before & read & after & -> & D). exists s, e, client, ps, rs, before, after.
  split_and!; try done; [by rewrite <- (ds_log _ _ _ _ _ D)|apply D..|]. destruct Es as [S1 S2 S3 S4 S5 S6]. constructor; try done.
  - rewrite S2. by rewrite (nmw_id _ _ En), (nmi_market _ _ Hni), (nmi_side _ _ Hni).
  - rewrite S6. unfold may_trade. rewrite (free_unexposed _ _ _ _ _ _ D), (nmi_market _ _ Hni), (nmi_selectable _ _ Hni).
    pose proof (Forall2_length _ _ _ Ei) as Li. pose proof (lookup_lt_Some _ _ _ Hw) as Hi.
    rewrite (past_steps _ _ _ _ _ (λ a b, free x (market_of a) ∧ es_outcome b ≠ ExecutionPreviewOutcomeInsufficientUSDC)) by nia.
    assert ((∀ k a b, (k < j)%nat → items !! k = Some a → er_steps result !! (i * length (in_items input) + k)%nat = Some b →
         free x (market_of a) ∧ es_outcome b ≠ ExecutionPreviewOutcomeInsufficientUSDC)
      ↔ ∀ k item' s', (k < j)%nat → in_items input !! k = Some item' → er_steps result !! (i * length (in_items input) + k)%nat = Some s' →
         unexposed (ei_market_condition_id item') ps rs ∧ es_outcome s' ≠ ExecutionPreviewOutcomeInsufficientUSDC) as ->; [|done].
    split; intros Hp k a b Hk Ha Hb.
    + destruct (Forall2_lookup_l _ _ _ _ _ Ei Ha) as (a' & Ha' & Hn'). rewrite <- (nmi_market _ _ Hn'), <- (free_unexposed _ _ _ _ _ _ D). by eapply Hp.
    + destruct (Forall2_lookup_r _ _ _ _ _ Ei Ha) as (a' & Ha' & Hn'). rewrite (free_unexposed _ _ _ _ _ _ D), (nmi_market _ _ Hn'). by eapply Hp.
Qed.

(** ** Termination *)
Lemma fetch_exposures_fuel fuel wallets index (log : preview_log) cursors :
  runs (fetch_exposures fuel wallets index) log None → hands_out cursors log → (fuel ≤ S (size cursors))%nat.
Proof.
  revert index log. induction wallets as [|w wallets IH]; intros index log H Hc; cbn [fetch_exposures] in H; [by destruct H|].
  run_inv. apply hands_out_app in Hc as [_ Hc]. match goal with H : runs (match ?r with _ => _ end) _ _ |- _ => rename H into Hrun; destruct r as [err|]; [by destruct Hrun|] end.
  destruct (ew_client (nw_input w)) as [client|]; [|by destruct Hrun]. run_inv. apply hands_out_app in Hc as [Hc1 Hc2].
  match goal with H : runs (match ?r with _ => _ end) _ None |- _ => rename H into Hrun; destruct r as [[y|e]|]; [|by destruct Hrun|] end.
  - run_inv. apply hands_out_app in Hc2 as [Hc2 _]. match goal with H : runs (mret _) _ None |- _ => apply runs_ret in H as [-> Heq] end.
    match type of Heq with _ = match ?r with _ => _ end => destruct r as [[l|e]|]; [done..|] end. by eapply IH.
  - by eapply exposure_fuel.
Qed.

(** C35: The page loops of a preview end whatever the provider replies: a build whose fuel exceeds
    the number of different cursors the replies hand out by two never runs out of it, since a
    cursor that comes back is refused. *)
Theorem preview_terminates fuel (input : ExecutionPreviewInput C) log r (cursors : gset string) :
  runs (Build fuel input) log r → hands_out cursors log → (S (size cursors) < fuel)%nat → ∃ result, r = Some result.
Proof.
  intros H Hc Hf. destruct r as [result|]; [by exists result|]. exfalso. unfold Build in H.
  destruct (normalizeExecutionPreviewInput input) as [[wallets items]|e]; [|by destruct H]. run_inv. apply hands_out_app in Hc as [_ Hc].
  match goal with H : runs (match ?r with _ => _ end) _ _ |- _ => rename H into Hrun; destruct r as [estimates|e]; [|by destruct Hrun] end. run_inv.
  apply hands_out_app in Hc as [Hc _]. match goal with H : runs (match ?r with _ => _ end) _ _ |- _ => rename H into Hrun; destruct r as [[exposures|e]|]; [by destruct Hrun..|] end.
  match goal with H : runs (fetch_exposures _ _ _) _ None |- _ => apply (fetch_exposures_fuel _ _ _ _ cursors) in H; [lia|done] end.
Qed.
End Theorems.

(** ** Decimals *)
(** C39: A decimal is accepted exactly when it is a canonical text of at most 128 characters, and
    stands for the number its digits spell; printing it and parsing it again gives it back, the
    printed text is no longer than the accepted one, and two accepted texts print the same
    exactly when they are the same number. *)
Theorem decimal_text_roundtrip v d :
  parseExecutionPreviewDecimal v = Ok d →
  (∃ i f, spells v i f ∧ (amount d == spelled i f)%Q) ∧ (String.length v ≤ executionPreviewDecimalMaxLength)%nat
  ∧ parseExecutionPreviewDecimal (decimal_String d) = Ok d ∧ (String.length (decimal_String d) ≤ String.length v)%nat
  ∧ ∀ w e, parseExecutionPreviewDecimal w = Ok e → (decimal_String d = decimal_String e ↔ (amount d == amount e)%Q).
Proof.
  intros H. destruct (parse_inv _ _ H) as (i & f & Hs & Hl & _). destruct (parse_amount _ _ _ _ Hs H) as [Hlow Ha].
  split_and!; [by exists i, f|done|by eapply parse_canonical|by eapply parse_length|].
  intros w e He. destruct (parse_canonical _ _ He) as [_ Hlow']. split.
  - intros E. by rewrite (decimal_String_inj _ _ Hlow Hlow' E).
  - intros E. by rewrite (lowest_unique _ _ Hlow Hlow' E).
Qed.
Lemma decimal_text_roundtrip_witness : decimal_String {| coefficient := 1234; scale := 2 |} = "12.34"
  ∧ (String.length (decimal_String {| coefficient := 1234; scale := 2 |}) ≤ String.length "12.3400")%nat.
Proof. split; [reflexivity|]. apply (decimal_text_roundtrip "12.3400" {| coefficient := 1234; scale := 2 |}). reflexivity. Defined.

(** Comparing, checking a sum and subtracting decimals agree with the rational numbers they
    stand for; a subtraction that returns is exact, needs the smaller amount on the right, and
    returns for every amount below [10^k] whenever [k] and the decimals stay below 128. *)
Theorem decimal_arithmetic_exact d e t x k :
  Compare d e = (amount d ?= amount e)%Q
  ∧ (executionPreviewDecimalSumEquals d e t = true ↔ (amount d + amount e == amount t)%Q)
  ∧ (Subtract d e = Ok x → lowest x ∧ (amount x == amount d - amount e)%Q ∧ (amount e <= amount d)%Q)
  ∧ (0 ≤ coefficient e → (amount e <= amount d)%Q → (amount d < inject_Z (10 ^ k))%Q → 1 ≤ k →
     k + Z.of_nat (Nat.max (scale d) (scale e)) < Z.of_nat executionPreviewDecimalMaxLength → ∃ y, Subtract d e = Ok y).
Proof. split_and!; [apply Compare_amount|apply SumEquals_amount|apply Subtract_ok|apply Subtract_total]. Qed.
Lemma decimal_arithmetic_exact_witness :
  (amount {| coefficient := 45; scale := 1 |} == amount {| coefficient := 5; scale := 0 |} - amount {| coefficient := 5; scale := 1 |})%Q.
Proof.
  apply (decimal_arithmetic_exact {| coefficient := 5; scale := 0 |} {| coefficient := 5; scale := 1 |} {| coefficient := 0; scale := 0 |} {| coefficient := 45; scale := 1 |} 1).
  reflexivity.
Defined.

(** ** When the simulation fails *)
(** The simulation of the trades returns, with one step per wallet and market, whenever every
    balance is below [10^k] and balances and estimates have at most [digits] decimals with
    [k + digits] below 128. *)
Theorem preview_simulation_total {C} k digits (wallets : list (normalizedExecutionPreviewWallet C)) items estimates exposures :
  1 ≤ k → k + Z.of_nat digits < Z.of_nat executionPreviewDecimalMaxLength →
  length estimates = length items → length exposures = length wallets → Z.of_nat (length wallets) * Z.of_nat (length items) ≤ max_int64 →
  (∀ w, w ∈ wallets → roomy k digits (nw_usdc w)) → (∀ p, p ∈ zip items estimates → payable digits p) →
  ∃ steps, buildExecutionPreviewSteps wallets items estimates exposures = Ok steps ∧ length steps = (length wallets * length items)%nat.
Proof.
  intros Hk Hroom L1 L2 Hmax Hw Hp. assert (∀ w, w ∈ zip wallets exposures → roomy k digits (nw_usdc w.1)) as Hz.
  { intros [w x] Hin%elem_of_zip_l. by apply Hw. }
  destruct (all_steps_total k digits Hk Hroom _ (zip items estimates) 0 0 Hz Hp) as [steps Hs]. exists steps. split.
  - unfold buildExecutionPreviewSteps. rewrite L1, L2, !Nat.eqb_refl, (proj2 (Z.leb_le _ _)) by done. done.
  - apply (all_steps_ok _ _ 0) in Hs as (chunks & -> & Lc & Hok); [|intros w Hin; apply (Hz w Hin)].
    rewrite (chunks_length _ (length items)), Lc, length_zip; [lia|]. intros c [i Hi]%list_elem_of_lookup.
    assert (i < length (zip wallets exposures))%nat as Hlt by (apply lookup_lt_Some in Hi; lia).
    apply lookup_lt_is_Some in Hlt as [[w x] Hx]. destruct (Hok _ _ _ _ Hi Hx) as [-> _]. rewrite length_zip. lia.
Qed.
Definition sample_wallet : normalizedExecutionPreviewWallet nat := {|
  nw_input := {| ew_wallet_id := 1; ew_address := key 9; ew_usdc_balance := "12"; ew_sol_balance := "0.1"; ew_client := Some 0%nat |};
  nw_usdc := {| coefficient := 12; scale := 0 |} |}.
Definition sample_normalized : normalizedExecutionPreviewItem := {| ni_input := sample_item 31; ni_backend := "polymarket"; ni_funds := "5" |}.
Lemma preview_simulation_total_witness :
  ∃ steps, buildExecutionPreviewSteps [sample_wallet] [sample_normalized] (take 1 (er_estimates sample_result)) [no_exposure] = Ok steps
    ∧ length steps = 1%nat.
Proof.
  apply (preview_simulation_total 10 18); [lia|vm_compute; reflexivity|vm_compute; reflexivity|reflexivity|vm_compute; discriminate| |].
  - intros w ->%list_elem_of_singleton. split; [split; [reflexivity|split; [cbn; lia|by left]]|]. split; [reflexivity|cbn; lia].
  - intros p Hp. replace (zip [sample_normalized] (take 1 (er_estimates sample_result))) with [(sample_normalized, default (base_estimate 0 sample_normalized) (head (er_estimates sample_result)))] in Hp by (vm_compute; reflexivity).
    apply list_elem_of_singleton in Hp as ->. intros _ _. exists {| coefficient := 51; scale := 1 |}. split; [vm_compute; reflexivity|cbn; lia].
Defined.


(** ** Witnesses *)
Lemma preview_ready_sound_witness : ∃ i j wallet item client positions requests funds provider, 1%nat = (i * 3 + j)%nat
  ∧ trade_explained (sample "12") sample_log (er_steps sample_result) i j
      (default (new_step sample_wallet sample_normalized (base_estimate 0 sample_normalized) 0 0 0 executionPreviewOne) (er_steps sample_result !! 1%nat))
      wallet item client positions requests funds provider.
Proof. apply (preview_ready_sound 4 (sample "12") sample_log sample_result 1%nat); [exact sample_runs|vm_compute; reflexivity|vm_compute; reflexivity]. Defined.
Lemma preview_steps_exact_witness : length (er_steps sample_result) = (length (in_wallets (sample "12")) * length (in_items (sample "12")))%nat.
Proof. apply (preview_steps_exact 4 (sample "12") sample_log sample_result). exact sample_runs. Defined.
Lemma preview_terminates_witness : ∃ r : result (stop build_error) ExecutionPreviewResult, Some (Ok sample_result) = Some r.
Proof.
  apply (preview_terminates 4 (sample "12") sample_log _ {["next"]}); [exact sample_runs| |vm_compute; lia].
  intros e next He Hn. assert (Forall (λ e, match handed_out e with Some n => n = "next" | None => True end) sample_log) as Hall by (vm_compute; repeat constructor).
  rewrite Forall_forall in Hall. specialize (Hall e He). rewrite Hn in Hall. subst. by apply elem_of_singleton.
Defined.
