(* ===== verification/Combination.v ===== *)
(** * Market combinations

    [internal/wormtrading/store/market_combinations.go] with the queries of
    [sqlc/market_combinations.sql.go], and the handlers of
    [internal/wormtrading/market_combinations.go]: an owner's named, ordered lists of
    markets, replaced and deleted as a whole at an expected revision.  The locks of
    execution runs are rows another component writes. *)

From S2P Require Import Prelude Sql CashOutTypes CashOutStore ConnectionStore ConnectionService.
From stdpp Require Import base tactics option list list_numbers sorting strings gmap.
From Stdlib Require Import ZArith Lia Ascii.
#[local] Open Scope Z_scope.

(** ** UTF-8 *)
Definition byte_in (lo hi : N) (a : ascii) : bool := (lo <=? N_of_ascii a)%N && (N_of_ascii a <=? hi)%N.
Definition continuation (a : ascii) : bool := byte_in 128 191 a.
Definition rune2 (a b : ascii) : bool := byte_in 194 223 a && continuation b.
Definition rune3 (a b c : ascii) : bool :=
  (byte_in 224 224 a && byte_in 160 191 b || byte_in 225 236 a && continuation b || byte_in 237 237 a && byte_in 128 159 b
   || byte_in 238 239 a && continuation b) && continuation c.
Definition rune4 (a b c d : ascii) : bool :=
  (byte_in 240 240 a && byte_in 144 191 b || byte_in 241 243 a && continuation b || byte_in 244 244 a && byte_in 128 143 b)
  && continuation c && continuation d.
(** [utf8.RuneCountInString], and whether every byte belongs to a character: a byte that
    does not counts as one. *)
Fixpoint utf8_scan (s : string) : Z * bool :=
  let next (ok : bool) (r : Z * bool) : Z * bool := (r.1 + 1, ok && r.2) in
  match s with
  | EmptyString => (0, true)
  | String a s1 =>
      if byte_in 0 127 a then next true (utf8_scan s1) else
      match s1 with
      | EmptyString => next false (utf8_scan s1)
      | String b s2 =>
          if rune2 a b then next true (utf8_scan s2) else
          match s2 with
          | EmptyString => next false (utf8_scan s1)
          | String c s3 =>
              if rune3 a b c then next true (utf8_scan s3) else
              match s3 with
              | EmptyString => next false (utf8_scan s1)
              | String d s4 => if rune4 a b c d then next true (utf8_scan s4) else next false (utf8_scan s1)
              end
          end
      end
  end.
Definition rune_count (s : string) : Z := (utf8_scan s).1.
(** What PostgreSQL takes as [text]: valid UTF-8 without NUL. *)
Definition has_nul (s : string) : bool := existsb (λ a, (N_of_ascii a =? 0)%N) (String.list_ascii_of_string s).
Definition pg_accepts (s : string) : bool := (utf8_scan s).2 && negb (has_nul s).

(** PostgreSQL's [lower] in the collation of the database. *)
Class PgLower := { pg_lower : string → string }.

(** ** Data *)
Record MarketCombinationItemInput := {
  mi_event_condition_id : string; mi_event_title : string; mi_event_logo : string; mi_market_condition_id : string;
  mi_market_title : string; mi_market_logo : string; mi_is_yes : bool; mi_outcome_label : string }.
Record MarketCombinationItem := { ci_ordinal : Z; ci_input : MarketCombinationItemInput }.
Record MarketCombination := {
  mc_id : string; mc_owner_account_id : string; mc_name : string; mc_revision : Z; mc_items : list MarketCombinationItem;
  mc_created_at : Z; mc_updated_at : Z }.
Record combination_row := {
  cr_id : N; cr_owner_account_id : N; cr_name : string; cr_name_key : string; cr_revision : Z; cr_created_at : Z; cr_updated_at : Z }.
Record combination_item_row := { cir_combination_id : N; cir_ordinal : Z; cir_input : MarketCombinationItemInput }.
Record MDB := { cb_combinations : list combination_row; cb_items : list combination_item_row; cb_locks : list N }.

Inductive item_field := FEventConditionID | FMarketConditionID | FEventTitle | FMarketTitle | FLogo | FOutcomeLabel.
(** What [ErrInvalidMarketCombination] is wrapped around. *)
Inductive combination_problem :=
| BadOwner | BadCombinationID | BadName | NoItems | TooManyItems | BadItem (index : Z) (field : item_field)
| DuplicateMarket (market : string) | MarketsNotUnique | BadPage | BadRevision.
Inductive CBError :=
| ErrMarketCombinationNotFound | ErrMarketCombinationExists | ErrMarketCombinationRevision
| ErrInvalidMarketCombination (problem : combination_problem)
| CBNoRows | CBConstraint (name : string) | CBText | CBCanceled | CBDeadlineExceeded.
Definition cb_tx := (tx MDB CBError).

Definition maxMarketCombinationNameLength : Z := 80.
Definition maxMarketSnapshotTitleLength : Z := 500.
Definition maxMarketSnapshotLogoLength : Z := 2048.
Definition maxMarketOutcomeLabelLength : Z := 100.
Definition maxMarketConditionIDLength : nat := 64.
Definition minMarketConditionIDLength : nat := 32.
Definition maxMarketCombinationPageSize : Z := 100.

(** ** Queries *)
Definition combination_check (r : combination_row) : bool :=
  text_between 1 80 (cr_name r) && (0 <? cr_revision r) && (cr_created_at r <=? cr_updated_at r).
Definition item_check (r : combination_item_row) : bool :=
  let i := cir_input r in
  (0 <? cir_ordinal r) && text_between 32 64 (mi_event_condition_id i) && text_between 1 500 (mi_event_title i)
  && text_between 0 2048 (mi_event_logo i) && text_between 32 64 (mi_market_condition_id i) && text_between 1 500 (mi_market_title i)
  && text_between 0 2048 (mi_market_logo i) && text_between 1 100 (mi_outcome_label i).
Definition item_texts (i : MarketCombinationItemInput) : list string :=
  [mi_event_condition_id i; mi_event_title i; mi_event_logo i; mi_market_condition_id i; mi_market_title i; mi_market_logo i; mi_outcome_label i].
Definition put_combinations (t : list combination_row) : cb_tx unit :=
  db ← tx_get; tx_put {| cb_combinations := t; cb_items := cb_items db; cb_locks := cb_locks db |}.
Definition put_combination_items (t : list combination_item_row) : cb_tx unit :=
  db ← tx_get; tx_put {| cb_combinations := cb_combinations db; cb_items := t; cb_locks := cb_locks db |}.
Definition locked (id : N) (db : MDB) : bool := existsb (λ l, (l =? id)%N) (cb_locks db).
Definition owner_name_key : string := "worm_market_combinations_owner_name_key_unique".

Section Store.
Context {UL : UuidLib} {SL : SolanaLib} {PL : PgLower}.

Definition same_name (owner : N) (name_key : string) (r : combination_row) : bool :=
  (cr_owner_account_id r =? owner)%N && bool_decide (cr_name_key r = name_key).
Definition CountMarketCombinations (owner : N) (db : MDB) : Z :=
  Z.of_nat (length (sql_many (λ r, (cr_owner_account_id r =? owner)%N) (cb_combinations db))).
Definition CreateMarketCombination_query (id owner : N) (name : string) (now : option Z) : cb_tx combination_row :=
  db ← tx_get;
  _ ← ensure (pg_accepts name) CBText;
  now ← tx_lift (of_option now (CBConstraint "not_null"));
  let row := {| cr_id := id; cr_owner_account_id := owner; cr_name := name; cr_name_key := pg_lower name; cr_revision := 1;
                cr_created_at := now; cr_updated_at := now |} in
  _ ← ensure (combination_check row) (CBConstraint "worm_market_combinations_check");
  _ ← ensure (negb (existsb (λ r, (cr_id r =? id)%N) (cb_combinations db))) (CBConstraint "worm_market_combinations_pkey");
  _ ← ensure (negb (existsb (same_name owner (cr_name_key row)) (cb_combinations db))) (CBConstraint owner_name_key);
  _ ← put_combinations (cb_combinations db ++ [row]);
  mret row.
Definition CreateMarketCombinationItem (row : combination_item_row) : cb_tx unit :=
  db ← tx_get;
  _ ← ensure (forallb pg_accepts (item_texts (cir_input row))) CBText;
  _ ← ensure (item_check row) (CBConstraint "worm_market_combination_items_check");
  _ ← ensure (negb (existsb (λ r, (cir_combination_id r =? cir_combination_id row)%N && (cir_ordinal r =? cir_ordinal row)) (cb_items db)))
        (CBConstraint "worm_market_combination_items_pkey");
  _ ← ensure (negb (existsb (λ r, (cir_combination_id r =? cir_combination_id row)%N
                                  && bool_decide (mi_market_condition_id (cir_input r) = mi_market_condition_id (cir_input row))) (cb_items db)))
        (CBConstraint "worm_market_combination_items_market_unique");
  _ ← ensure (existsb (λ r, (cr_id r =? cir_combination_id row)%N) (cb_combinations db))
        (CBConstraint "worm_market_combination_items_combination_id_fkey");
  put_combination_items (cb_items db ++ [row]).
Definition GetMarketCombination_query (id owner : N) (db : MDB) : option combination_row :=
  sql_one (λ r, (cr_id r =? id)%N && (cr_owner_account_id r =? owner)%N) (cb_combinations db).
Definition GetMarketCombinationForUpdate (id owner : N) (db : MDB) : option combination_row :=
  sql_one (λ r, (cr_id r =? id)%N && (cr_owner_account_id r =? owner)%N) (cb_combinations db).
Definition ListMarketCombinationItems (id : N) (db : MDB) : list combination_item_row :=
  sort_by (λ a b, cir_ordinal a <=? cir_ordinal b) (sql_many (λ r, (cir_combination_id r =? id)%N) (cb_items db)).
(** [ORDER BY updated_at DESC, id DESC] *)
Definition newest_first (a b : combination_row) : bool :=
  (cr_updated_at b <? cr_updated_at a) || ((cr_updated_at a =? cr_updated_at b) && (cr_id b <=? cr_id a)%N).
Definition ListMarketCombinations_query (owner : N) (offset size : Z) (db : MDB) : list combination_row :=
  take (Z.to_nat size) (drop (Z.to_nat offset)
    (sort_by newest_first (sql_many (λ r, (cr_owner_account_id r =? owner)%N) (cb_combinations db)))).
Definition updated_row (name : string) (now : Z) (r : combination_row) : combination_row := {|
  cr_id := cr_id r; cr_owner_account_id := cr_owner_account_id r; cr_name := name; cr_name_key := pg_lower name;
  cr_revision := cr_revision r + 1; cr_created_at := cr_created_at r; cr_updated_at := now |}.
Definition at_revision (id owner : N) (expected : Z) (db : MDB) (r : combination_row) : bool :=
  (cr_id r =? id)%N && (cr_owner_account_id r =? owner)%N && (cr_revision r =? expected) && negb (locked id db).
Definition UpdateMarketCombination_query (name : string) (now : option Z) (id owner : N) (expected : Z) : cb_tx combination_row :=
  db ← tx_get;
  _ ← ensure (pg_accepts name) CBText;
  match sql_one (at_revision id owner expected db) (cb_combinations db) with
  | None => tx_fail CBNoRows
  | Some old =>
      now ← tx_lift (of_option now (CBConstraint "not_null"));
      let row := updated_row name now old in
      _ ← ensure (bigint_in_range (cr_revision row)) (CBConstraint "bigint out of range");
      _ ← ensure (combination_check row) (CBConstraint "worm_market_combinations_check");
      _ ← ensure (negb (existsb (λ r, negb (cr_id r =? id)%N && same_name owner (cr_name_key row) r) (cb_combinations db)))
            (CBConstraint owner_name_key);
      _ ← put_combinations (sql_update (at_revision id owner expected db) (updated_row name now) (cb_combinations db));
      mret row
  end.
Definition DeleteMarketCombinationItems (id : N) : cb_tx unit :=
  db ← tx_get; put_combination_items (sql_delete (λ r, (cir_combination_id r =? id)%N) (cb_items db)).
(** Items go with their combination ([ON DELETE CASCADE]). *)
Definition DeleteMarketCombination_query (id owner : N) (expected : Z) : cb_tx N :=
  db ← tx_get;
  match sql_one (at_revision id owner expected db) (cb_combinations db) with
  | None => tx_fail CBNoRows
  | Some old =>
      _ ← put_combinations (sql_delete (at_revision id owner expected db) (cb_combinations db));
      _ ← DeleteMarketCombinationItems (cr_id old);
      mret (cr_id old)
  end.

(** ** Normalization *)
Definition validMarketConditionID (value : string) : bool :=
  (minMarketConditionIDLength <=? String.length value)%nat && (String.length value <=? maxMarketConditionIDLength)%nat
  && match public_key_from_base58 value with Some key => bool_decide (public_key_string key = value) | None => false end.
Definition trim_item (i : MarketCombinationItemInput) : MarketCombinationItemInput := {|
  mi_event_condition_id := trim_space (mi_event_condition_id i); mi_event_title := trim_space (mi_event_title i);
  mi_event_logo := trim_space (mi_event_logo i); mi_market_condition_id := trim_space (mi_market_condition_id i);
  mi_market_title := trim_space (mi_market_title i); mi_market_logo := trim_space (mi_market_logo i); mi_is_yes := mi_is_yes i;
  mi_outcome_label := trim_space (mi_outcome_label i) |}.
Definition invalidMarketCombination (p : combination_problem) : CBError := ErrInvalidMarketCombination p.
Definition valid_title (limit : Z) (s : string) : bool := negb (bool_decide (s = EmptyString)) && (rune_count s <=? limit).
Definition check_item_input (index : Z) (i : MarketCombinationItemInput) : result CBError unit :=
  let bad f := invalidMarketCombination (BadItem (index + 1) f) in
  _ ← require (validMarketConditionID (mi_event_condition_id i)) (bad FEventConditionID);
  _ ← require (validMarketConditionID (mi_market_condition_id i)) (bad FMarketConditionID);
  _ ← require (valid_title maxMarketSnapshotTitleLength (mi_event_title i)) (bad FEventTitle);
  _ ← require (valid_title maxMarketSnapshotTitleLength (mi_market_title i)) (bad FMarketTitle);
  _ ← require ((rune_count (mi_event_logo i) <=? maxMarketSnapshotLogoLength) && (rune_count (mi_market_logo i) <=? maxMarketSnapshotLogoLength))
        (bad FLogo);
  require (valid_title maxMarketOutcomeLabelLength (mi_outcome_label i)) (bad FOutcomeLabel).
Fixpoint normalize_market_items (items : list MarketCombinationItemInput) (index : Z) (seen : gset string) :
    result CBError (list MarketCombinationItemInput) :=
  match items with
  | [] => Ok []
  | item :: items' =>
      let item := trim_item item in
      _ ← check_item_input index item;
      _ ← require (negb (bool_decide (mi_market_condition_id item ∈ seen)))
            (invalidMarketCombination (DuplicateMarket (mi_market_condition_id item)));
      rest ← normalize_market_items items' (index + 1) ({[mi_market_condition_id item]} ∪ seen);
      Ok (item :: rest)
  end.
Definition normalizeMarketCombination (name : string) (items : list MarketCombinationItemInput) :
    result CBError (string * list MarketCombinationItemInput) :=
  let name := trim_space name in
  _ ← require (valid_title maxMarketCombinationNameLength name) (invalidMarketCombination BadName);
  _ ← require (negb (Nat.eqb (length items) 0)) (invalidMarketCombination NoItems);
  _ ← require (Z.of_nat (length items) <=? max_int32) (invalidMarketCombination TooManyItems);
  items ← normalize_market_items items 0 ∅;
  Ok (name, items).
Definition combination_uuid (problem : combination_problem) (value : string) : result CBError (N * string) :=
  match marketCombinationUUID value with Ok r => Ok r | Err _ => Err (invalidMarketCombination problem) end.

(** ** Operations *)
Definition isMarketCombinationConstraint (err : CBError) (name : string) : bool :=
  match err with CBConstraint n => bool_decide (n = name) | _ => false end.
(** [m], with the errors of the database translated. *)
Definition translate {A} (f : CBError → CBError) (m : cb_tx A) : cb_tx A :=
  λ db, match m db with Ok r => Ok r | Err e => Err (f e) end.
Definition create_error (e : CBError) : CBError := if isMarketCombinationConstraint e owner_name_key then ErrMarketCombinationExists else e.
Definition update_error (e : CBError) : CBError :=
  match e with CBNoRows => ErrMarketCombinationRevision | _ => create_error e end.
Definition delete_error (e : CBError) : CBError := match e with CBNoRows => ErrMarketCombinationRevision | _ => e end.
Definition item_error (e : CBError) : CBError :=
  if isMarketCombinationConstraint e "worm_market_combination_items_market_unique" then invalidMarketCombination MarketsNotUnique else e.
Fixpoint insertMarketCombinationItems (id : N) (items : list MarketCombinationItemInput) (index : Z) : cb_tx unit :=
  match items with
  | [] => mret tt
  | item :: items' =>
      _ ← translate item_error (CreateMarketCombinationItem
            {| cir_combination_id := id; cir_ordinal := wrap32 (index + 1); cir_input := item |});
      insertMarketCombinationItems id items' (index + 1)
  end.
Definition loadMarketCombination (row : combination_row) (db : MDB) : MarketCombination := {|
  mc_id := uuidValue (Some (cr_id row)); mc_owner_account_id := uuidValue (Some (cr_owner_account_id row)); mc_name := cr_name row;
  mc_revision := cr_revision row;
  mc_items := (λ r, {| ci_ordinal := cir_ordinal r; ci_input := cir_input r |}) <$> ListMarketCombinationItems (cr_id row) db;
  mc_created_at := timestampValue (Some (cr_created_at row)); mc_updated_at := timestampValue (Some (cr_updated_at row)) |}.
Definition set_owner (owner : string) (c : MarketCombination) : MarketCombination := {|
  mc_id := mc_id c; mc_owner_account_id := owner; mc_name := mc_name c; mc_revision := mc_revision c; mc_items := mc_items c;
  mc_created_at := mc_created_at c; mc_updated_at := mc_updated_at c |}.
(** [newID] is the result of [uuid.New], [clock] of [time.Now]. *)
Definition CreateMarketCombination (newID : N) (clock : Z) (ownerAccountID name : string) (items : list MarketCombinationItemInput) :
    cb_tx MarketCombination :=
  owner ← tx_lift (combination_uuid BadOwner ownerAccountID);
  n ← tx_lift (normalizeMarketCombination name items);
  let now := canonicalNow clock clock in
  row ← translate create_error (CreateMarketCombination_query newID owner.1 n.1 (timestampParam now));
  _ ← insertMarketCombinationItems newID n.2 0;
  db ← tx_get;
  mret (set_owner owner.2 (loadMarketCombination row db)).
Definition GetMarketCombination (ownerAccountID combinationID : string) (db : MDB) : result CBError MarketCombination :=
  owner ← combination_uuid BadOwner ownerAccountID;
  id ← combination_uuid BadCombinationID combinationID;
  row ← of_option (GetMarketCombination_query id.1 owner.1 db) ErrMarketCombinationNotFound;
  Ok (set_owner owner.2 (loadMarketCombination row db)).
Definition ListMarketCombinations (ownerAccountID : string) (page pageSize : Z) (db : MDB) : result CBError (list MarketCombination * Z) :=
  owner ← combination_uuid BadOwner ownerAccountID;
  _ ← require (negb ((page <=? 0) || (pageSize <=? 0) || (maxMarketCombinationPageSize <? pageSize))) (invalidMarketCombination BadPage);
  let pageOffset := (page - 1) * pageSize in
  _ ← require (negb (pageOffset <? 0)) (invalidMarketCombination BadPage);
  let total := CountMarketCombinations owner.1 db in
  let rows := ListMarketCombinations_query owner.1 pageOffset pageSize db in
  Ok ((λ row, set_owner owner.2 (loadMarketCombination row db)) <$> rows, total).
Definition UpdateMarketCombination (clock : Z) (ownerAccountID combinationID name : string) (expectedRevision : Z)
    (items : list MarketCombinationItemInput) : cb_tx MarketCombination :=
  owner ← tx_lift (combination_uuid BadOwner ownerAccountID);
  id ← tx_lift (combination_uuid BadCombinationID combinationID);
  _ ← ensure (0 <? expectedRevision) (invalidMarketCombination BadRevision);
  n ← tx_lift (normalizeMarketCombination name items);
  db ← tx_get;
  current ← tx_lift (of_option (GetMarketCombinationForUpdate id.1 owner.1 db) ErrMarketCombinationNotFound);
  _ ← ensure (cr_revision current =? expectedRevision) ErrMarketCombinationRevision;
  let now := canonicalNow clock clock in
  row ← translate update_error (UpdateMarketCombination_query n.1 (timestampParam now) id.1 owner.1 expectedRevision);
  _ ← DeleteMarketCombinationItems id.1;
  _ ← insertMarketCombinationItems id.1 n.2 0;
  db ← tx_get;
  mret (set_owner owner.2 (loadMarketCombination row db)).
Definition DeleteMarketCombination (ownerAccountID combinationID : string) (expectedRevision : Z) : cb_tx unit :=
  owner ← tx_lift (combination_uuid BadOwner ownerAccountID);
  id ← tx_lift (combination_uuid BadCombinationID combinationID);
  _ ← ensure (0 <? expectedRevision) (invalidMarketCombination BadRevision);
  db ← tx_get;
  current ← tx_lift (of_option (GetMarketCombinationForUpdate id.1 owner.1 db) ErrMarketCombinationNotFound);
  _ ← ensure (cr_revision current =? expectedRevision) ErrMarketCombinationRevision;
  _ ← translate delete_error (DeleteMarketCombination_query id.1 owner.1 expectedRevision);
  mret tt.
End Store.

(** ** Handlers ([market_combinations.go] of the service) *)
Record CreateMarketCombinationRequest := { cmr_owner_account_id : string; cmr_name : string; cmr_items : list (option MarketCombinationItemInput) }.
Record GetMarketCombinationRequest := { gmr_owner_account_id : string; gmr_id : string }.
Record ListMarketCombinationsRequest := { lmr_owner_account_id : string; lmr_page : Z; lmr_page_size : Z }.
Record UpdateMarketCombinationRequest := {
  umr_owner_account_id : string; umr_id : string; umr_name : string; umr_expected_revision : Z;
  umr_items : list (option MarketCombinationItemInput) }.
Record DeleteMarketCombinationRequest := { dmr_owner_account_id : string; dmr_id : string; dmr_expected_revision : Z }.
Record combination_message := {
  cm_id : string; cm_name : string; cm_revision : Z; cm_items : list MarketCombinationItem; cm_created_at : Z; cm_updated_at : Z;
  cm_owner_account_id : string }.
Record ListMarketCombinationsResponse := { lm_items : list combination_message; lm_total : Z; lm_page : Z; lm_page_size : Z }.
Definition empty_item_input : MarketCombinationItemInput := {|
  mi_event_condition_id := ""; mi_event_title := ""; mi_event_logo := ""; mi_market_condition_id := ""; mi_market_title := "";
  mi_market_logo := ""; mi_is_yes := false; mi_outcome_label := "" |}.
Fixpoint marketCombinationInputsFromProto (items : list (option MarketCombinationItemInput)) : list MarketCombinationItemInput :=
  match items with
  | [] => []
  | None :: items' => empty_item_input :: marketCombinationInputsFromProto items'
  | Some item :: items' => item :: marketCombinationInputsFromProto items'
  end.
(** [time.Time.Unix] of nanoseconds since Go's zero time. *)
Definition unix_seconds (t : Z) : Z := t / 1000000000 - 62135596800.
Definition marketCombinationToProto (c : MarketCombination) : combination_message := {|
  cm_id := mc_id c; cm_name := mc_name c; cm_revision := mc_revision c; cm_items := mc_items c;
  cm_created_at := unix_seconds (mc_created_at c); cm_updated_at := unix_seconds (mc_updated_at c);
  cm_owner_account_id := mc_owner_account_id c |}.
Definition marketCombinationRPCError (err : CBError) : rpc_error :=
  match err with
  | ErrMarketCombinationNotFound => status NotFound "market combination not found"
  | ErrMarketCombinationExists => status AlreadyExists "market combination name already exists"
  | ErrMarketCombinationRevision => status Aborted "market combination revision conflict"
  | ErrInvalidMarketCombination _ => {| st_code := InvalidArgument; st_message := None |}
  | CBCanceled => {| st_code := Canceled; st_message := None |}
  | CBDeadlineExceeded => {| st_code := DeadlineExceeded; st_message := None |}
  | _ => status Internal "market combination store operation failed"
  end.
Record service_state := { sv_started : bool; sv_store : bool }.
Definition requireMarketCombinationStore (s : service_state) : result rpc_error unit :=
  _ ← require (sv_started s) (status FailedPrecondition "Worm Trading service is not started");
  require (sv_store s) (status FailedPrecondition "Worm Trading store is not configured").

Section Handlers.
Context {UL : UuidLib} {SL : SolanaLib} {PL : PgLower}.
Definition normalizeMarketCombinationID (value : string) : result rpc_error string :=
  match uuid_parse (trim_space value) with
  | Some parsed => if (parsed =? 0)%N then Err (status InvalidArgument "id must be a valid non-zero UUID") else Ok (uuid_string parsed)
  | None => Err (status InvalidArgument "id must be a valid non-zero UUID")
  end.
(** A store operation as a handler calls it: it commits, or its error is translated. *)
Definition rpc {A B} (f : A → B) (m : cb_tx A) : tx MDB rpc_error B :=
  λ db, match m db with Ok (db', a) => Ok (db', f a) | Err e => Err (marketCombinationRPCError e) end.
Definition rpc_read {A} (r : MDB → result CBError A) : tx MDB rpc_error A :=
  λ db, match r db with Ok a => Ok (db, a) | Err e => Err (marketCombinationRPCError e) end.
Definition svc_CreateMarketCombination (s : service_state) (newID : N) (clock : Z) (req : CreateMarketCombinationRequest) :
    tx MDB rpc_error combination_message :=
  owner ← tx_lift (normalizeMarketCombinationAccountID (cmr_owner_account_id req));
  _ ← tx_lift (requireMarketCombinationStore s);
  rpc marketCombinationToProto
    (CreateMarketCombination newID clock owner (cmr_name req) (marketCombinationInputsFromProto (cmr_items req))).
Definition svc_GetMarketCombination (s : service_state) (req : GetMarketCombinationRequest) : tx MDB rpc_error combination_message :=
  owner ← tx_lift (normalizeMarketCombinationAccountID (gmr_owner_account_id req));
  id ← tx_lift (normalizeMarketCombinationID (gmr_id req));
  _ ← tx_lift (requireMarketCombinationStore s);
  c ← rpc_read (GetMarketCombination owner id);
  mret (marketCombinationToProto c).
Definition svc_ListMarketCombinations (s : service_state) (req : ListMarketCombinationsRequest) :
    tx MDB rpc_error ListMarketCombinationsResponse :=
  owner ← tx_lift (normalizeMarketCombinationAccountID (lmr_owner_account_id req));
  _ ← ensure (0 <? lmr_page req) (status InvalidArgument "page must be positive");
  _ ← ensure ((0 <? lmr_page_size req) && (lmr_page_size req <=? maxMarketCombinationPageSize))
        (status InvalidArgument "page_size must be between 1 and 100");
  _ ← tx_lift (requireMarketCombinationStore s);
  r ← rpc_read (ListMarketCombinations owner (lmr_page req) (lmr_page_size req));
  mret {| lm_items := marketCombinationToProto <$> r.1; lm_total := r.2; lm_page := lmr_page req; lm_page_size := lmr_page_size req |}.
Definition svc_UpdateMarketCombination (s : service_state) (clock : Z) (req : UpdateMarketCombinationRequest) :
    tx MDB rpc_error combination_message :=
  owner ← tx_lift (normalizeMarketCombinationAccountID (umr_owner_account_id req));
  id ← tx_lift (normalizeMarketCombinationID (umr_id req));
  _ ← ensure (0 <? umr_expected_revision req) (status InvalidArgument "expected_revision must be positive");
  _ ← tx_lift (requireMarketCombinationStore s);
  rpc marketCombinationToProto
    (UpdateMarketCombination clock owner id (umr_name req) (umr_expected_revision req) (marketCombinationInputsFromProto (umr_items req))).
Definition svc_DeleteMarketCombination (s : service_state) (req : DeleteMarketCombinationRequest) : tx MDB rpc_error unit :=
  owner ← tx_lift (normalizeMarketCombinationAccountID (dmr_owner_account_id req));
  combinationID ← tx_lift (normalizeMarketCombinationID (dmr_id req));
  _ ← ensure (0 <? dmr_expected_revision req) (status InvalidArgument "expected_revision must be positive");
  _ ← tx_lift (requireMarketCombinationStore s);
  rpc id (DeleteMarketCombination owner combinationID (dmr_expected_revision req)).
End Handlers.
