(* ===== verification/CombinationSpec.v ===== *)
(** * Market combinations: specification

    The store as a map from identifiers to combinations, with one function per
    operation, and the invariant under which the tables are such a map.
    First, text: what normalization accepts passes the constraints of the tables, since Go
    and PostgreSQL count and trim alike and public keys are printable. *)

From S2P Require Import Prelude Sql CashOutTypes CashOutStore Combination.
From stdpp Require Import base tactics option list list_numbers sorting strings gmap.
From Stdlib Require Import ZArith Lia Ascii.
#[local] Open Scope Z_scope.

(** ** Counting characters *)
Abbreviation starts_char := (λ a, Is_true (negb ((128 <=? N_of_ascii a)%N && (N_of_ascii a <=? 191)%N))).
Lemma char_length_cons a s : char_length (String a s) = (if continuation a then 0 else 1) + char_length s.
Proof.
  unfold char_length. cbn [String.list_ascii_of_string]. rewrite filter_cons. unfold continuation, byte_in.
  destruct (_ && _) eqn:E; cbn [negb]; case_decide as H; cbn [Is_true] in H; try done; cbn [length]; lia.
Qed.
Lemma not_continuation lo hi a : byte_in lo hi a = true → (hi < 128 ∨ 191 < lo)%N → continuation a = false.
Proof. unfold continuation, byte_in. rewrite andb_true_iff, andb_false_iff, !N.leb_le, !N.leb_gt. lia. Qed.
Lemma rune2_bytes a b : rune2 a b = true → continuation a = false ∧ continuation b = true.
Proof. unfold rune2. intros [H ?]%andb_true_iff. split; [|done]. eapply not_continuation; [exact H|lia]. Qed.
Lemma byte_continuation lo hi a : byte_in lo hi a = true → (128 ≤ lo)%N → (hi ≤ 191)%N → continuation a = true.
Proof. unfold continuation, byte_in. rewrite !andb_true_iff, !N.leb_le. lia. Qed.
Ltac rune_cases :=
  repeat match goal with
  | H : _ && _ = true |- _ => apply andb_true_iff in H as [? ?]
  | H : _ || _ = true |- _ => apply orb_true_iff in H as [?|?]
  | H : byte_in _ _ ?a = true |- continuation ?a = _ => first [eapply not_continuation; [exact H|lia]|eapply byte_continuation; [exact H|lia|lia]|fail 1]
  end.
Lemma rune3_bytes a b c : rune3 a b c = true → continuation a = false ∧ continuation b = true ∧ continuation c = true.
Proof. unfold rune3. intros H. split_and!; rune_cases; try done. Qed.
Lemma rune4_bytes a b c d : rune4 a b c d = true → continuation a = false ∧ continuation b = true ∧ continuation c = true ∧ continuation d = true.
Proof. unfold rune4. intros H. split_and!; rune_cases; try done. Qed.
(** On valid text [utf8.RuneCountInString] and [char_length] agree. *)
Lemma rune_count_char_length s : (utf8_scan s).2 = true → rune_count s = char_length s.
Proof.
  unfold rune_count. cut (∀ n s, (String.length s ≤ n)%nat → (utf8_scan s).2 = true → (utf8_scan s).1 = char_length s); [eauto|].
  clear s. induction n as [|n IH]; intros [|a s1] Hn Hv; try done; cbn [String.length] in Hn; [lia|]. cbn [utf8_scan] in *.
  destruct (byte_in 0 127 a) eqn:Ea.
  { cbn [fst snd andb] in *. rewrite IH by (done || lia). rewrite char_length_cons, (not_continuation _ _ _ Ea) by lia. lia. }
  destruct s1 as [|b s2]; [done|]. cbn [String.length] in Hn. destruct (rune2 a b) eqn:E2.
  { destruct (rune2_bytes _ _ E2) as [Ca Cb]. cbn [fst snd andb] in *. rewrite IH by (done || lia). rewrite !char_length_cons, Ca, Cb. lia. }
  destruct s2 as [|c s3]; [done|]. cbn [String.length] in Hn. destruct (rune3 a b c) eqn:E3.
  { destruct (rune3_bytes _ _ _ E3) as (Ca & Cb & Cc). cbn [fst snd andb] in *. rewrite IH by (done || lia). rewrite !char_length_cons, Ca, Cb, Cc. lia. }
  destruct s3 as [|d s4]; [done|]. cbn [String.length] in Hn. destruct (rune4 a b c d) eqn:E4; [|done].
  destruct (rune4_bytes _ _ _ _ E4) as (Ca & Cb & Cc & Cd). cbn [fst snd andb] in *. rewrite IH by (done || lia). rewrite !char_length_cons, Ca, Cb, Cc, Cd. lia.
Qed.
Lemma rune_count_positive s : s ≠ EmptyString → 1 ≤ rune_count s.
Proof.
  assert (∀ s, 0 ≤ rune_count s) as Hnn.
  { unfold rune_count. cut (∀ n s, (String.length s ≤ n)%nat → 0 ≤ (utf8_scan s).1); [eauto|]. clear s. induction n as [|n IH]; intros [|a s1] Hn; cbn [String.length] in Hn; try (cbn; lia).
    cbn [utf8_scan]. repeat (case_match; subst; cbn [fst String.length] in *); match goal with |- 0 ≤ (utf8_scan ?t).1 + 1 => pose proof (IH t); cbn [String.length] in *; lia | |- _ => idtac end. }
  destruct s as [|a s]; [done|]. intros _. unfold rune_count in *. cbn [utf8_scan]. repeat (case_match; subst; cbn [fst] in * );
    match goal with |- 1 ≤ (utf8_scan ?t).1 + 1 => pose proof (Hnn t); lia | |- _ => idtac end.
Qed.

(** ** Trimmed text *)
Lemma trim_head_start fwd s : starts_with_space (trim_head fwd s) = false.
Proof.
  cut (∀ n s, (String.length s ≤ n)%nat → starts_with_space (trim_head fwd s) = false); [eauto|].
  clear s. induction n as [|n IH]; intros s Hn.
  - destruct s; [done|cbn in Hn; lia].
  - destruct (trim_head_cases fwd s) as [E|(t & -> & Ht)]; [|apply IH; lia].
    destruct (starts_with_space (trim_head fwd s)) eqn:Hs; [|done]. rewrite E in Hs. by apply (trim_head_space fwd) in Hs.
Qed.
Lemma trim_head_tail fwd s : ∃ p, String.list_ascii_of_string s = p ++ String.list_ascii_of_string (trim_head fwd s).
Proof.
  cut (∀ n s, (String.length s ≤ n)%nat → ∃ p, String.list_ascii_of_string s = p ++ String.list_ascii_of_string (trim_head fwd s)); [eauto|].
  clear s. induction n as [|n IH]; intros [|a s1] Hn; cbn [String.length] in Hn; [by exists []|lia|by exists []|]. cbn [trim_head].
  destruct (space1 _); [destruct (IH s1) as [p Hp]; [lia|]; exists (a :: p); cbn; by rewrite Hp|]. destruct s1 as [|b s2]; [by exists []|]. cbn [String.length] in Hn.
  destruct (if fwd then _ else _); [destruct (IH s2) as [p Hp]; [lia|]; exists (a :: b :: p); cbn; by rewrite Hp|]. destruct s2 as [|c s3]; [by exists []|]. cbn [String.length] in Hn.
  destruct (if fwd then _ else _); [destruct (IH s3) as [p Hp]; [lia|]; exists (a :: b :: c :: p); cbn; by rewrite Hp|]. by exists [].
Qed.
Lemma list_rev s : String.list_ascii_of_string (String.rev s) = reverse (String.list_ascii_of_string s).
Proof. unfold String.rev. rewrite rev_app_list. cbn. rewrite app_nil_r. apply rev_alt. Qed.
Lemma trim_btrimmed s : btrimmed (trim_space s) = true.
Proof.
  unfold btrimmed, trim_space. set (t := trim_head true s). rewrite string_rev_rev, trim_head_start, andb_true_r, negb_true_iff.
  destruct (trim_head_tail false (String.rev t)) as [p Hp]. rewrite list_rev in Hp. set (u := trim_head false (String.rev t)) in *.
  apply (f_equal reverse) in Hp. rewrite reverse_involutive, reverse_app in Hp. rewrite <- list_rev in Hp.
  pose proof (trim_head_start true s) as Ht. fold t in Ht. destruct (String.rev u) as [|a v]; [done|]. cbn [String.list_ascii_of_string] in Hp.
  destruct t as [|b t']; [done|]. cbn in Hp. by injection Hp as -> _.
Qed.
Lemma normalized_text lo hi s : btrimmed s = true → pg_accepts s = true → lo ≤ rune_count s ≤ hi → text_between lo hi s = true.
Proof.
  intros Hb [Hv _]%andb_true_iff Hr. unfold text_between. rewrite <- rune_count_char_length by done. rewrite Hb, andb_true_l, andb_true_iff, !Z.leb_le. done.
Qed.
Lemma valid_title_between limit s : btrimmed s = true → pg_accepts s = true → valid_title limit s = true → text_between 1 limit s = true.
Proof.
  intros Hb Hp [Hne Hl]%andb_true_iff. apply negb_true_iff, bool_decide_eq_false in Hne. apply normalized_text; [done|done|].
  pose proof (rune_count_positive s Hne). lia.
Qed.

(** ** Public keys *)
(** The base58 alphabet is printable ASCII. *)
Class Base58Laws `{!SolanaLib} : Prop := { public_key_printable : ∀ k, printable_text (public_key_string k) }.
Lemma printable_bytes s : printable_text s → char_length s = Z.of_nat (String.length s) ∧ btrimmed s = true.
Proof.
  intros Hp. split.
  - unfold printable_text in Hp. induction s as [|a s IH]; [done|]. cbn [String.list_ascii_of_string] in Hp. apply Forall_cons in Hp as [Ha Hs].
    rewrite char_length_cons, IH by done. assert (continuation a = false) as ->.
    { unfold continuation, byte_in, printable in *. rewrite andb_false_iff, !N.leb_gt. lia. }
    cbn [String.length]. lia.
  - apply trimmed_btrimmed. by apply trim_space_printable.
Qed.
Lemma condition_id_between `{!SolanaLib, !Base58Laws} s : validMarketConditionID s = true → text_between 32 64 s = true.
Proof.
  unfold validMarketConditionID. intros [[H1 H2]%andb_true_iff H3]%andb_true_iff. destruct (public_key_from_base58 s) as [k|]; [|done].
  apply bool_decide_eq_true in H3. apply Nat.leb_le in H1, H2. destruct (printable_bytes s) as [Hc Hb]; [rewrite <- H3; apply public_key_printable|].
  unfold text_between. rewrite Hb, Hc, andb_true_l, andb_true_iff, !Z.leb_le. unfold minMarketConditionIDLength, maxMarketConditionIDLength in *. lia.
Qed.

#[local] Open Scope Z_scope.

(** ** The abstract store *)
Record entry := { be_owner : N; be_name : string; be_revision : Z; be_items : list MarketCombinationItemInput; be_created : Z; be_updated : Z }.
Abbreviation book := (gmap N entry).
Definition numbered (l : list MarketCombinationItemInput) : list MarketCombinationItem :=
  imap (λ k i, {| ci_ordinal := Z.of_nat k + 1; ci_input := i |}) l.

Inductive combination_op :=
| OpCreate (newID : N) (clock : Z) (owner name : string) (items : list MarketCombinationItemInput)
| OpGet (owner id : string)
| OpList (owner : string) (page size : Z)
| OpUpdate (clock : Z) (owner id name : string) (expected : Z) (items : list MarketCombinationItemInput)
| OpDelete (owner id : string) (expected : Z).
Inductive answer := Combination (c : MarketCombination) | Page (l : list MarketCombination) (total : Z) | Deleted.

Section Spec.
Context {UL : UuidLib} {SL : SolanaLib} {PL : PgLower}.
Definition present (id : N) (e : entry) : MarketCombination := {|
  mc_id := uuid_string id; mc_owner_account_id := uuid_string (be_owner e); mc_name := be_name e; mc_revision := be_revision e;
  mc_items := numbered (be_items e); mc_created_at := be_created e; mc_updated_at := be_updated e |}.
(** No other combination of the owner has the name, whatever its case. *)
Definition name_free (b : book) (id owner : N) (name : string) : bool :=
  bool_decide (map_Forall (λ k e, k = id ∨ be_owner e ≠ owner ∨ pg_lower (be_name e) ≠ pg_lower name) b).
Definition storable (items : list MarketCombinationItemInput) : bool := forallb (λ i, forallb pg_accepts (item_texts i)) items.
Definition owned (b : book) (id owner : N) : option entry := e ← b !! id; if (be_owner e =? owner)%N then Some e else None.
Definition newest_entry (a b : N * entry) : bool :=
  (be_updated b.2 <? be_updated a.2) || ((be_updated a.2 =? be_updated b.2) && (b.1 <=? a.1)%N).
Definition listing (b : book) (owner : N) : list (N * entry) :=
  sort_by newest_entry (filter (λ p, be_owner p.2 = owner) (map_to_list b)).
Definition stored_time (clock : Z) : result CBError Z := of_option (timestampParam (canonicalNow clock clock)) (CBConstraint "not_null").

Definition spec_create (newID : N) (clock : Z) (ownerAccountID name : string) (items : list MarketCombinationItemInput) (b : book) :
    result CBError (book * MarketCombination) :=
  owner ← combination_uuid BadOwner ownerAccountID;
  n ← normalizeMarketCombination name items;
  _ ← require (pg_accepts n.1) CBText;
  now ← stored_time clock;
  _ ← require (bool_decide (b !! newID = None)) (CBConstraint "worm_market_combinations_pkey");
  _ ← require (name_free b newID owner.1 n.1) ErrMarketCombinationExists;
  _ ← require (storable n.2) CBText;
  let e := {| be_owner := owner.1; be_name := n.1; be_revision := 1; be_items := n.2; be_created := now; be_updated := now |} in
  Ok (<[newID := e]> b, present newID e).
Definition spec_get (ownerAccountID combinationID : string) (b : book) : result CBError MarketCombination :=
  owner ← combination_uuid BadOwner ownerAccountID;
  id ← combination_uuid BadCombinationID combinationID;
  e ← of_option (owned b id.1 owner.1) ErrMarketCombinationNotFound;
  Ok (present id.1 e).
Definition spec_list (ownerAccountID : string) (page size : Z) (b : book) : result CBError (list MarketCombination * Z) :=
  owner ← combination_uuid BadOwner ownerAccountID;
  _ ← require ((0 <? page) && (0 <? size) && (size <=? maxMarketCombinationPageSize)) (invalidMarketCombination BadPage);
  let l := listing b owner.1 in
  Ok ((λ p, present p.1 p.2) <$> take (Z.to_nat size) (drop (Z.to_nat ((page - 1) * size)) l), Z.of_nat (length l)).
Definition spec_update (locks : N → bool) (clock : Z) (ownerAccountID combinationID name : string) (expected : Z)
    (items : list MarketCombinationItemInput) (b : book) : result CBError (book * MarketCombination) :=
  owner ← combination_uuid BadOwner ownerAccountID;
  id ← combination_uuid BadCombinationID combinationID;
  _ ← require (0 <? expected) (invalidMarketCombination BadRevision);
  n ← normalizeMarketCombination name items;
  e ← of_option (owned b id.1 owner.1) ErrMarketCombinationNotFound;
  _ ← require (be_revision e =? expected) ErrMarketCombinationRevision;
  _ ← require (pg_accepts n.1) CBText;
  _ ← require (negb (locks id.1)) ErrMarketCombinationRevision;
  now ← stored_time clock;
  _ ← require (bigint_in_range (expected + 1)) (CBConstraint "bigint out of range");
  _ ← require (be_created e <=? now) (CBConstraint "worm_market_combinations_check");
  _ ← require (name_free b id.1 owner.1 n.1) ErrMarketCombinationExists;
  _ ← require (storable n.2) CBText;
  let e' := {| be_owner := owner.1; be_name := n.1; be_revision := expected + 1; be_items := n.2; be_created := be_created e; be_updated := now |} in
  Ok (<[id.1 := e']> b, present id.1 e').
Definition spec_delete (locks : N → bool) (ownerAccountID combinationID : string) (expected : Z) (b : book) : result CBError book :=
  owner ← combination_uuid BadOwner ownerAccountID;
  id ← combination_uuid BadCombinationID combinationID;
  _ ← require (0 <? expected) (invalidMarketCombination BadRevision);
  e ← of_option (owned b id.1 owner.1) ErrMarketCombinationNotFound;
  _ ← require (be_revision e =? expected) ErrMarketCombinationRevision;
  _ ← require (negb (locks id.1)) ErrMarketCombinationRevision;
  Ok (delete id.1 b).
(** One operation on the abstract store and on the tables. *)
Definition spec_step (locks : N → bool) (o : combination_op) (b : book) : result CBError (book * answer) :=
  match o with
  | OpCreate newID clock owner name items => r ← spec_create newID clock owner name items b; Ok (r.1, Combination r.2)
  | OpGet owner id => c ← spec_get owner id b; Ok (b, Combination c)
  | OpList owner page size => r ← spec_list owner page size b; Ok (b, Page r.1 r.2)
  | OpUpdate clock owner id name expected items => r ← spec_update locks clock owner id name expected items b; Ok (r.1, Combination r.2)
  | OpDelete owner id expected => b' ← spec_delete locks owner id expected b; Ok (b', Deleted)
  end.
Definition store_step (o : combination_op) : cb_tx answer :=
  match o with
  | OpCreate newID clock owner name items => c ← CreateMarketCombination newID clock owner name items; mret (Combination c)
  | OpGet owner id => db ← tx_get; c ← tx_lift (GetMarketCombination owner id db); mret (Combination c)
  | OpList owner page size => db ← tx_get; r ← tx_lift (ListMarketCombinations owner page size db); mret (Page r.1 r.2)
  | OpUpdate clock owner id name expected items => c ← UpdateMarketCombination clock owner id name expected items; mret (Combination c)
  | OpDelete owner id expected => _ ← DeleteMarketCombination owner id expected; mret Deleted
  end.

(** ** The tables as a map *)
Definition items_of (id : N) (db : MDB) : list combination_item_row := sql_many (λ r, (cir_combination_id r =? id)%N) (cb_items db).
Definition item_rows (id : N) (l : list MarketCombinationItemInput) : list combination_item_row :=
  imap (λ k i, {| cir_combination_id := id; cir_ordinal := Z.of_nat k + 1; cir_input := i |}) l.
Definition entry_of (db : MDB) (r : combination_row) : entry := {|
  be_owner := cr_owner_account_id r; be_name := cr_name r; be_revision := cr_revision r; be_items := cir_input <$> items_of (cr_id r) db;
  be_created := cr_created_at r; be_updated := cr_updated_at r |}.
Definition book_of (db : MDB) : book := list_to_map ((λ r, (cr_id r, entry_of db r)) <$> cb_combinations db).
(** Every combination has its items under the ordinals from one, at least one of them, all
    of different markets; identifiers and names are unique. *)
Record combination_good (db : MDB) : Prop := {
  cg_ids : NoDup (cr_id <$> cb_combinations db);
  cg_names : ∀ r r', r ∈ cb_combinations db → r' ∈ cb_combinations db → cr_owner_account_id r = cr_owner_account_id r' →
    pg_lower (cr_name r) = pg_lower (cr_name r') → r = r';
  cg_keys : ∀ r, r ∈ cb_combinations db → cr_name_key r = pg_lower (cr_name r);
  cg_rows : ∀ r, r ∈ cb_combinations db → combination_check r = true ∧ cr_revision r ≤ max_int64;
  cg_orphans : ∀ i, i ∈ cb_items db → cir_combination_id i ∈ cr_id <$> cb_combinations db;
  cg_items : ∀ r, r ∈ cb_combinations db → ∃ l, items_of (cr_id r) db = item_rows (cr_id r) l ∧ l ≠ []
    ∧ NoDup (mi_market_condition_id <$> l) ∧ Forall (λ i, ∃ k, check_item_input k i = Ok tt) l }.
End Spec.
