(* ===== verification/CombinationRefine.v ===== *)
(** * Market combinations: the tables implement the map

    On good tables every operation answers as the specification does, leaves tables that
    stand for the map it says, and keeps them good: first statement by statement, then
    every operation. *)

From S2P Require Import Prelude Sql CashOutTypes CashOutStore Combination CombinationSpec.
From stdpp Require Import base tactics option list list_numbers sorting strings gmap.
From Stdlib Require Import ZArith Lia Ascii.
#[local] Open Scope Z_scope.

(** ** Sorting *)
Lemma sort_by_unique {A} (le : A → A → bool) (l l' : list A) :
  (∀ a b, le a b = true ∨ le b a = true) → (∀ a b c, le a b = true → le b c = true → le a c = true) →
  (∀ a b, a ∈ l → b ∈ l → le a b = true → le b a = true → a = b) →
  StronglySorted (λ a b, le a b = true) l' → l' ≡ₚ l → sort_by le l = l'.
Proof.
  intros Ht Htr Ha Hs Hp. symmetry. eapply StronglySorted_unique_strong; [|exact Hs|by apply sort_by_sorted|by rewrite sort_by_Permutation].
  intros x1 x2 H1 H2. apply Ha; [by rewrite <- Hp|]. by rewrite sort_by_elem in H2.
Qed.
Lemma sort_by_fmap {A B} (f : A → B) (leA : A → A → bool) (leB : B → B → bool) (l : list A) (k : list B) :
  (∀ a b, leA a b = true ∨ leA b a = true) → (∀ a b c, leA a b = true → leA b c = true → leA a c = true) →
  (∀ a b, leB a b = true ∨ leB b a = true) → (∀ a b c, leB a b = true → leB b c = true → leB a c = true) →
  (∀ a b, leB (f a) (f b) = leA a b) → (∀ a b, a ∈ k → b ∈ k → leB a b = true → leB b a = true → a = b) → f <$> l ≡ₚ k →
  sort_by leB k = f <$> sort_by leA l.
Proof.
  intros T1 T2 T3 T4 Hf Hanti Hp. apply sort_by_unique; [done|done|done| |by rewrite sort_by_Permutation].
  pose proof (sort_by_sorted leA T1 T2 l) as Hs. induction Hs as [|a m Hs IH HF]; cbn; constructor; [done|].
  apply Forall_fmap. eapply Forall_impl; [exact HF|]. intros b Hb. cbn. by rewrite Hf.
Qed.

Section Refine.
Context {UL : UuidLib} {SL : SolanaLib} {PL : PgLower}.

(** ** Rows and entries *)
Lemma item_rows_lookup id l k x : item_rows id l !! k = Some x → cir_combination_id x = id ∧ cir_ordinal x = Z.of_nat k + 1 ∧ l !! k = Some (cir_input x).
Proof. unfold item_rows. rewrite list_lookup_imap. destruct (l !! k); cbn; intros ?; by simplify_eq. Qed.
Lemma item_rows_input id l : cir_input <$> item_rows id l = l.
Proof. unfold item_rows. rewrite fmap_imap.  apply list_eq. intros k. rewrite list_lookup_imap. by destruct (l !! k). Qed.
Lemma imap_sorted {A B} (R : relation B) (f : nat → A → B) (l : list A) :
  (∀ i j x y, (i < j)%nat → l !! i = Some x → l !! j = Some y → R (f i x) (f j y)) → StronglySorted R (imap f l).
Proof.
  revert f. induction l as [|a l IH]; intros f H; cbn; constructor.
  - apply IH. intros i j x y Hij Hx Hy. apply (H (S i) (S j)); [lia|done|done].
  - apply Forall_lookup. intros k y Hk. rewrite list_lookup_imap in Hk. destruct (l !! k) as [x|] eqn:E; cbn in Hk; [|done]. injection Hk as <-.
    apply (H 0%nat (S k)); [lia|done|done].
Qed.
Lemma list_items_rows id l db : items_of id db = item_rows id l → ListMarketCombinationItems id db = item_rows id l.
Proof.
  intros H. unfold ListMarketCombinationItems. change (sql_many _ _) with (items_of id db). rewrite H. apply sort_by_unique; [intros; lia|intros; lia| | |done].
  - intros a b [i Hi]%list_elem_of_lookup [j Hj]%list_elem_of_lookup H1 H2. pose proof (item_rows_lookup _ _ _ _ Hi) as (_ & Ei & _).
    pose proof (item_rows_lookup _ _ _ _ Hj) as (_ & Ej & _). assert (i = j) as -> by lia. congruence.
  - apply imap_sorted. intros i j x y Hij _ _. cbn. lia.
Qed.
Lemma load_row db r : combination_good db → r ∈ cb_combinations db → loadMarketCombination r db = present (cr_id r) (entry_of db r).
Proof.
  intros G Hr. destruct (cg_items _ G r Hr) as (l & Hl & _). unfold loadMarketCombination, present. cbn. f_equal.
  rewrite (list_items_rows _ _ _ Hl), Hl, item_rows_input. unfold numbered, item_rows. by rewrite fmap_imap.
Qed.
Lemma book_lookup db id e : combination_good db → book_of db !! id = Some e ↔ ∃ r, r ∈ cb_combinations db ∧ cr_id r = id ∧ entry_of db r = e.
Proof.
  intros G. unfold book_of. rewrite <- elem_of_list_to_map.
  - rewrite list_elem_of_fmap. split; [intros (r & Heq & Hr); simplify_eq; eauto|intros (r & Hr & <- & <-); eauto].
  - rewrite <- list_fmap_compose. apply G.
Qed.
Lemma book_row db r : combination_good db → r ∈ cb_combinations db → book_of db !! cr_id r = Some (entry_of db r).
Proof. intros G Hr. apply book_lookup; eauto. Qed.
Lemma row_unique db r r' : combination_good db → r ∈ cb_combinations db → r' ∈ cb_combinations db → cr_id r = cr_id r' → r = r'.
Proof. intros G Hr Hr' He. eapply NoDup_key_inj; [apply G|done..]. Qed.
Lemma owned_row db id owner : combination_good db → owned (book_of db) id owner = entry_of db <$> GetMarketCombination_query id owner db.
Proof.
  intros G. unfold owned, GetMarketCombination_query. destruct (sql_one _ (cb_combinations db)) as [r|] eqn:E.
  - apply sql_one_Some in E as [Hr [H1%N.eqb_eq H2%N.eqb_eq]%andb_true_iff]. rewrite <- H1, (book_row _ _ G Hr). cbn. by rewrite H2, N.eqb_refl.
  - destruct (book_of db !! id) as [e|] eqn:Eb; [|done]. apply (book_lookup _ _ _ G) in Eb as (r & Hr & Hid & <-). cbn.
    pose proof (sql_one_None _ _ E r Hr) as Hn. cbn in Hn. rewrite Hid, N.eqb_refl in Hn. cbn in Hn. by rewrite Hn.
Qed.
Lemma get_row db id owner r : combination_good db → GetMarketCombination_query id owner db = Some r →
  r ∈ cb_combinations db ∧ cr_id r = id ∧ cr_owner_account_id r = owner.
Proof. intros G [Hr [H1%N.eqb_eq H2%N.eqb_eq]%andb_true_iff]%sql_one_Some. done. Qed.
Lemma fresh_id db id : combination_good db → existsb (λ r, (cr_id r =? id)%N) (cb_combinations db) = negb (bool_decide (book_of db !! id = None)).
Proof.
  intros G. case_bool_decide as H; cbn [negb].
  - apply existsb_elem_false. intros r Hr. apply N.eqb_neq. intros <-. by rewrite (book_row _ _ G Hr) in H.
  - apply existsb_elem. destruct (book_of db !! id) as [e|] eqn:E; [|done]. apply (book_lookup _ _ _ G) in E as (r & Hr & Hid & _). exists r. by rewrite Hid, N.eqb_refl.
Qed.
Lemma taken_name db id owner name : combination_good db →
  existsb (λ r, negb (cr_id r =? id)%N && same_name owner (pg_lower name) r) (cb_combinations db) = negb (name_free (book_of db) id owner name).
Proof.
  intros G. unfold name_free. case_bool_decide as H; cbn [negb].
  - apply existsb_elem_false. intros r Hr. rewrite map_Forall_lookup in H. specialize (H (cr_id r) (entry_of db r) (book_row _ _ G Hr)). unfold same_name.
    rewrite (cg_keys _ G r Hr). cbn in H. apply andb_false_iff. rewrite negb_false_iff, andb_false_iff, N.eqb_eq, N.eqb_neq, bool_decide_eq_false. tauto.
  - apply existsb_elem. apply map_not_Forall in H as (k & e & He & Hno); [|intros; apply _]. apply (book_lookup _ _ _ G) in He as (r & Hr & <- & <-). exists r. split; [done|].
    unfold same_name. rewrite (cg_keys _ G r Hr), andb_true_iff, negb_true_iff, N.eqb_neq, andb_true_iff, N.eqb_eq, bool_decide_eq_true. cbn in Hno.
    split; [tauto|]. destruct (decide (cr_owner_account_id r = owner)); [|tauto]. destruct (decide (pg_lower (cr_name r) = pg_lower name)); tauto.
Qed.
Lemma taken_name_new db id owner name : combination_good db → book_of db !! id = None →
  existsb (same_name owner (pg_lower name)) (cb_combinations db) = negb (name_free (book_of db) id owner name).
Proof.
  intros G Hid. rewrite <- taken_name by done. apply eq_true_iff_eq. rewrite !existsb_elem. apply exist_proper. intros r. split.
  - intros [Hr Hs]. split; [done|]. rewrite Hs, andb_true_r, negb_true_iff, N.eqb_neq. intros <-. by rewrite (book_row _ _ G Hr) in Hid.
  - intros [Hr [_ Hs]%andb_true_iff]. done.
Qed.

(** ** Normalized input *)
Definition trimmed_item (i : MarketCombinationItemInput) : Prop := ∀ t, t ∈ item_texts i → btrimmed t = true.
Definition item_ok (i : MarketCombinationItemInput) : Prop := trimmed_item i ∧ ∃ k, check_item_input k i = Ok tt.
Lemma normalize_market_ok l index seen l' : normalize_market_items l index seen = Ok l' →
  length l' = length l ∧ Forall item_ok l' ∧ NoDup (mi_market_condition_id <$> l') ∧ ∀ i, i ∈ l' → mi_market_condition_id i ∉ seen.
Proof.
  revert index seen l'. induction l as [|i l IH]; intros index seen l' H; cbn [normalize_market_items] in H.
  { injection H as <-. split_and!; [done|constructor|constructor|by intros ? ?%not_elem_of_nil]. }
  cbv zeta in H. tx_inv. match goal with Hc : check_item_input _ _ = Ok ?u |- _ => destruct u; rename Hc into Hcheck end.
  match goal with Hn : normalize_market_items _ _ _ = Ok _ |- _ => apply IH in Hn as (L & F & D & S) end. bool_prop. cbn. split_and!.
  - by rewrite L.
  - constructor; [|done]. split; [|by eexists]. intros t Ht. unfold item_texts in Ht. rewrite !elem_of_cons in Ht.
    repeat destruct Ht as [->|Ht]; [apply trim_btrimmed..|by apply not_elem_of_nil in Ht].
  - constructor; [|done]. intros (j & Hj & Hin)%list_elem_of_fmap. specialize (S j Hin). set_solver.
  - intros j [->|Hj]%elem_of_cons; [done|]. specialize (S j Hj). set_solver.
Qed.
Record normalized_combination (n : string * list MarketCombinationItemInput) : Prop := {
  nc_name : btrimmed n.1 = true ∧ valid_title 80 n.1 = true;
  nc_some : n.2 ≠ [];
  nc_length : Z.of_nat (length n.2) ≤ max_int32;
  nc_items : Forall item_ok n.2;
  nc_markets : NoDup (mi_market_condition_id <$> n.2) }.
Lemma normalize_combination name items n : normalizeMarketCombination name items = Ok n → normalized_combination n.
Proof.
  unfold normalizeMarketCombination. cbv zeta. intros H. tx_inv.
  match goal with Hn : normalize_market_items _ _ _ = Ok _ |- _ => apply normalize_market_ok in Hn as (L & F & D & _) end. bool_prop. constructor; cbn [fst snd]; try done.
  - split; [apply trim_btrimmed|done].
  - intros ->. cbn in L. match goal with Hz : Nat.eqb _ _ = false |- _ => apply Nat.eqb_neq in Hz end. lia.
  - lia.
Qed.
Context {BL : Base58Laws}.
Lemma item_check_ok row : item_ok (cir_input row) → 0 < cir_ordinal row → forallb pg_accepts (item_texts (cir_input row)) = true → item_check row = true.
Proof using BL.
  intros [Ht [k Hk]] Ho Hp. unfold check_item_input in Hk. cbv zeta in Hk. tx_inv.
  assert (∀ t, t ∈ item_texts (cir_input row) → pg_accepts t = true) as Htext by (intros t Hin; rewrite forallb_forall in Hp; apply Hp; by apply list_elem_of_In).
  unfold trimmed_item, item_texts in *. set (i := cir_input row) in *. unfold item_check. fold i. cbv zeta. rewrite !andb_true_iff. split_and!.
  - lia.
  - by apply condition_id_between.
  - apply valid_title_between; [apply Ht; set_solver|apply Htext; set_solver|done].
  - bool_prop. apply normalized_text; [apply Ht; set_solver|apply Htext; set_solver|]. split; [|done]. rewrite rune_count_char_length; [apply char_length_bytes|].
    assert (pg_accepts (mi_event_logo i) = true) as [? _]%andb_true_iff by (apply Htext; set_solver). done.
  - by apply condition_id_between.
  - apply valid_title_between; [apply Ht; set_solver|apply Htext; set_solver|done].
  - bool_prop. apply normalized_text; [apply Ht; set_solver|apply Htext; set_solver|]. split; [|done]. rewrite rune_count_char_length; [apply char_length_bytes|].
    assert (pg_accepts (mi_market_logo i) = true) as [? _]%andb_true_iff by (apply Htext; set_solver). done.
  - apply valid_title_between; [apply Ht; set_solver|apply Htext; set_solver|done].
Qed.

(** ** Inserting the items *)
Definition rows_from (id : N) (index : Z) (l : list MarketCombinationItemInput) : list combination_item_row :=
  imap (λ k i, {| cir_combination_id := id; cir_ordinal := index + Z.of_nat k + 1; cir_input := i |}) l.
Lemma rows_from_cons id index i l :
  rows_from id index (i :: l) = {| cir_combination_id := id; cir_ordinal := index + 1; cir_input := i |} :: rows_from id (index + 1) l.
Proof. unfold rows_from. cbn. f_equal; [f_equal; lia|]. apply imap_ext. intros k x _. cbn. f_equal. lia. Qed.
Lemma rows_from_zero id l : rows_from id 0 l = item_rows id l.
Proof. unfold rows_from, item_rows. apply imap_ext. intros k x _. f_equal. Qed.
Definition room_for (id : N) (index : Z) (l : list MarketCombinationItemInput) (db : MDB) : Prop :=
  (∃ r, r ∈ cb_combinations db ∧ cr_id r = id)
  ∧ ∀ x, x ∈ items_of id db → cir_ordinal x ≤ index ∧ mi_market_condition_id (cir_input x) ∉ mi_market_condition_id <$> l.
Lemma insert_items id l index db :
  room_for id index l db → NoDup (mi_market_condition_id <$> l) → Forall item_ok l → 0 ≤ index → index + Z.of_nat (length l) ≤ max_int32 →
  insertMarketCombinationItems id l index db =
    if storable l then Ok ({| cb_combinations := cb_combinations db; cb_items := cb_items db ++ rows_from id index l; cb_locks := cb_locks db |}, tt)
    else Err CBText.
Proof using BL.
  revert index db. induction l as [|i l IH]; intros index db [(r & Hr & Hid) Hroom] Hnd Hok H0 Hmax.
  { cbn. rewrite app_nil_r. by destruct db. }
  apply NoDup_cons in Hnd as [Hni Hnd]. apply Forall_cons in Hok as [Hi Hok]. cbn [length] in Hmax. cbn [insertMarketCombinationItems storable forallb].
  rewrite (wrap32_id (index + 1)) by (unfold max_int32 in Hmax; lia). set (row := {| cir_combination_id := id; cir_ordinal := index + 1; cir_input := i |}).
  unfold mbind at 1, tx_bind at 1, translate, CreateMarketCombinationItem. cbn [mbind tx_bind]. unfold mbind, tx_bind, tx_get, ensure, tx_lift. cbn [cir_input row].
  destruct (forallb pg_accepts (item_texts i)) eqn:Ht; [|done]. cbn [require andb].
  rewrite (item_check_ok row); [|done|cbn; lia|done]. cbn [require].
  assert (∀ p, (∀ x, x ∈ items_of id db → p x = false) → existsb (λ x, (cir_combination_id x =? id)%N && p x) (cb_items db) = false) as Hex.
  { intros p Hp. apply existsb_elem_false. intros x Hx. destruct (N.eqb_spec (cir_combination_id x) id) as [E|]; [|done]. cbn. apply Hp. apply elem_of_sql_many. by rewrite E, N.eqb_refl. }
  cbn [cir_combination_id cir_ordinal row]. rewrite Hex by (intros x Hx; destruct (Hroom x Hx); lia). cbn [negb require].
  rewrite Hex by (intros x Hx; destruct (Hroom x Hx) as [_ Hm]; apply bool_decide_eq_false; set_solver). cbn [negb require].
  assert (existsb (λ r, (cr_id r =? id)%N) (cb_combinations db) = true) as -> by (apply existsb_elem; exists r; by rewrite Hid, N.eqb_refl).
  cbn [require]. unfold put_combination_items, mbind, tx_bind, tx_get, tx_put. fold (storable l). rewrite IH.
  - cbn [cb_combinations cb_items cb_locks]. destruct (storable l); [|done]. by rewrite rows_from_cons, <- app_assoc.
  - split; [by exists r|]. intros x Hx. unfold items_of in Hx. cbn [cb_items] in Hx. rewrite sql_many_app in Hx. apply elem_of_app in Hx as [Hx|Hx].
    + destruct (Hroom x Hx) as [? Hm]. split; [lia|]. set_solver.
    + apply elem_of_sql_many in Hx as [_ Hx%list_elem_of_singleton]. subst x. cbn. split; [lia|done].
  - done.
  - done.
  - lia.
  - lia.
Qed.

(** ** Writing one combination *)
Lemma items_of_replaced id k l (items : list combination_item_row) :
  sql_many (λ r, (cir_combination_id r =? k)%N) (sql_delete (λ r, (cir_combination_id r =? id)%N) items ++ item_rows id l)
  = if decide (k = id) then item_rows id l else sql_many (λ r, (cir_combination_id r =? k)%N) items.
Proof.
  rewrite sql_many_app. assert (∀ x, x ∈ item_rows id l → cir_combination_id x = id) as Hid.
  { intros x [j Hj]%list_elem_of_lookup. by apply item_rows_lookup in Hj as (? & _). }
  case_decide as E.
  - subst k. rewrite sql_many_none, sql_many_all; [done| |].
    + intros x Hx. by rewrite (Hid x Hx), N.eqb_refl.
    + intros x [H _]%elem_of_sql_delete. done.
  - rewrite sql_many_delete, (sql_many_none _ (item_rows id l)), app_nil_r; [done| |].
    + intros x Hx. rewrite (Hid x Hx). by apply N.eqb_neq.
    + intros x Hx%N.eqb_eq. apply N.eqb_neq. congruence.
Qed.
Record written (db db' : MDB) (row : combination_row) (l : list MarketCombinationItemInput) : Prop := {
  wr_items : cb_items db' = sql_delete (λ r, (cir_combination_id r =? cr_id row)%N) (cb_items db) ++ item_rows (cr_id row) l;
  wr_ids : NoDup (cr_id <$> cb_combinations db');
  wr_rows : ∀ r, r ∈ cb_combinations db' ↔ r = row ∨ (r ∈ cb_combinations db ∧ cr_id r ≠ cr_id row);
  wr_check : combination_check row = true ∧ cr_revision row ≤ max_int64;
  wr_key : cr_name_key row = pg_lower (cr_name row);
  wr_free : name_free (book_of db) (cr_id row) (cr_owner_account_id row) (cr_name row) = true;
  wr_some : l ≠ [];
  wr_markets : NoDup (mi_market_condition_id <$> l);
  wr_valid : Forall item_ok l }.
Lemma written_items db db' row l r : written db db' row l → r ∈ cb_combinations db' →
  items_of (cr_id r) db' = if decide (cr_id r = cr_id row) then item_rows (cr_id row) l else items_of (cr_id r) db.
Proof. intros W Hr. unfold items_of. rewrite (wr_items _ _ _ _ W). apply items_of_replaced. Qed.
Lemma written_good db db' row l : combination_good db → written db db' row l → combination_good db'.
Proof.
  intros G W. assert (∀ r, r ∈ cb_combinations db → cr_id r ≠ cr_id row → cr_owner_account_id r = cr_owner_account_id row →
    pg_lower (cr_name r) ≠ pg_lower (cr_name row)) as Hfree.
  { intros r Hr Hne Ho. pose proof (wr_free _ _ _ _ W) as Hf. apply bool_decide_eq_true in Hf. rewrite map_Forall_lookup in Hf.
    destruct (Hf _ _ (book_row _ _ G Hr)) as [?|[?|?]]; cbn in *; congruence. }
  constructor.
  - apply W.
  - intros r r' [->|[Hr Hne]]%(wr_rows _ _ _ _ W) [->|[Hr' Hne']]%(wr_rows _ _ _ _ W) Ho Hn; [done| | |by eapply cg_names].
    + exfalso. by eapply Hfree.
    + exfalso. by eapply Hfree.
  - intros r [->|[Hr _]]%(wr_rows _ _ _ _ W); [apply W|by apply (cg_keys db G)].
  - intros r [->|[Hr _]]%(wr_rows _ _ _ _ W); [apply W|by apply (cg_rows db G)].
  - intros i Hi. rewrite (wr_items _ _ _ _ W) in Hi. apply elem_of_app in Hi as [[Hne Hi]%elem_of_sql_delete|Hi].
    + apply (cg_orphans _ G) in Hi as (r & E & Hr)%list_elem_of_fmap. apply list_elem_of_fmap. exists r. split; [done|].
      apply (wr_rows _ _ _ _ W). right. split; [done|]. apply N.eqb_neq. by rewrite <- E.
    + apply list_elem_of_lookup in Hi as [j Hj]. apply item_rows_lookup in Hj as (-> & _). apply list_elem_of_fmap. exists row. split; [done|].
      apply (wr_rows _ _ _ _ W). by left.
  - intros r Hr. rewrite (written_items _ _ _ _ _ W Hr). case_decide as E.
    + rewrite E. exists l. split_and!; [done|apply W|apply W|]. eapply Forall_impl; [apply W|]. by intros i [_ ?].
    + apply (wr_rows _ _ _ _ W) in Hr as [->|[Hr _]]; [done|]. by apply (cg_items db G).
Qed.
Definition entry_at (row : combination_row) (l : list MarketCombinationItemInput) : entry := {|
  be_owner := cr_owner_account_id row; be_name := cr_name row; be_revision := cr_revision row; be_items := l;
  be_created := cr_created_at row; be_updated := cr_updated_at row |}.
Lemma written_entry db db' row l : written db db' row l → entry_of db' row = entry_at row l.
Proof.
  intros W. unfold entry_of, entry_at. f_equal. rewrite (written_items _ _ _ _ row W), decide_True, item_rows_input; [done|done|].
  apply (wr_rows _ _ _ _ W). by left.
Qed.
Lemma written_book db db' row l : combination_good db → written db db' row l → book_of db' = <[cr_id row := entry_at row l]> (book_of db).
Proof.
  intros G W. pose proof (written_good _ _ _ _ G W) as G'. apply map_eq. intros k. apply option_eq. intros e.
  rewrite (book_lookup _ _ _ G'), lookup_insert_Some, (book_lookup _ _ _ G). split.
  - intros (r & Hr & <- & <-). apply (wr_rows _ _ _ _ W) in Hr as Hcase. destruct Hcase as [->|[Hold Hne]].
    + left. split; [done|]. symmetry. by eapply written_entry.
    + right. split; [done|]. exists r. split_and!; [done|done|]. unfold entry_of. by rewrite (written_items _ _ _ _ _ W Hr), decide_False.
  - intros [[<- <-]|[Hne (r & Hr & <- & <-)]].
    + exists row. split_and!; [apply (wr_rows _ _ _ _ W); by left|done|by eapply written_entry].
    + assert (r ∈ cb_combinations db') as Hr' by (apply (wr_rows _ _ _ _ W); right; split; [done|congruence]).
      exists r. split_and!; [done|done|]. unfold entry_of. rewrite (written_items _ _ _ _ _ W Hr'), decide_False; [done|congruence].
Qed.
(** ** Deleting one combination *)
Lemma deleted_good db db' row : combination_good db → row ∈ cb_combinations db →
  cb_combinations db' = sql_delete (λ r, (cr_id r =? cr_id row)%N) (cb_combinations db) →
  cb_items db' = sql_delete (λ r, (cir_combination_id r =? cr_id row)%N) (cb_items db) →
  combination_good db' ∧ book_of db' = delete (cr_id row) (book_of db).
Proof.
  intros G Hrow Hc Hi.
  assert (∀ r, r ∈ cb_combinations db' ↔ r ∈ cb_combinations db ∧ cr_id r ≠ cr_id row) as Hrows.
  { intros r. rewrite Hc, elem_of_sql_delete, N.eqb_neq. tauto. }
  assert (∀ r, r ∈ cb_combinations db' → items_of (cr_id r) db' = items_of (cr_id r) db) as Hitems.
  { intros r [_ Hne]%Hrows. unfold items_of. rewrite Hi, sql_many_delete; [done|]. intros x Hx%N.eqb_eq. apply N.eqb_neq. congruence. }
  assert (combination_good db') as G'.
  { constructor.
    - rewrite Hc. apply NoDup_sql_many, G.
    - intros r r' [Hr _]%Hrows [Hr' _]%Hrows. by apply (cg_names db G).
    - intros r [Hr _]%Hrows. by apply (cg_keys db G).
    - intros r [Hr _]%Hrows. by apply (cg_rows db G).
    - intros i Hin. rewrite Hi in Hin. apply elem_of_sql_delete in Hin as [Hne%N.eqb_neq Hin]. apply (cg_orphans _ G) in Hin as (r & E & Hr)%list_elem_of_fmap.
      apply list_elem_of_fmap. exists r. split; [done|]. apply Hrows. split; [done|congruence].
    - intros r Hr. rewrite (Hitems r Hr). apply Hrows in Hr as [Hr _]. by apply (cg_items db G). }
  split; [done|]. apply map_eq. intros k. apply option_eq. intros e. rewrite (book_lookup _ _ _ G'), lookup_delete_Some, (book_lookup _ _ _ G). split.
  - intros (r & Hr & <- & <-). apply Hrows in Hr as Hcase. destruct Hcase as [Hold Hne]. split; [done|]. exists r. split_and!; [done|done|]. unfold entry_of. by rewrite Hitems.
  - intros [Hne (r & Hr & <- & <-)]. assert (r ∈ cb_combinations db') as Hr' by (apply Hrows; split; [done|congruence]).
    exists r. split_and!; [done|done|]. unfold entry_of. by rewrite Hitems.
Qed.
End Refine.

(** * Market combinations: every operation against the specification *)
#[local] Open Scope Z_scope.

(** Runs a transaction of pure steps on both sides. *)
Ltac run_step := unfold mbind, mret, tx_bind, tx_ret, tx_lift, ensure, tx_get, tx_put, tx_fail, result_bind, result_ret in *; cbn [require of_option fst snd].
Lemma sql_delete_rows {R} (p q : R → bool) t : (∀ r, r ∈ t → p r = q r) → sql_delete p t = sql_delete q t.
Proof.
  intros H. unfold sql_delete, sql_many. induction t as [|r t IH]; [done|]. rewrite !filter_cons, IH by (intros x ?; apply H; by right).
  by rewrite (H r) by (by left).
Qed.
Section Steps.
Context {UL : UuidLib} {SL : SolanaLib} {PL : PgLower} {BL : Base58Laws}.

(** [m] on [db] does what the specification says. *)
Definition implements {A} (m : cb_tx A) (spec : result CBError (book * A)) (db : MDB) : Prop :=
  match spec with
  | Ok (b', a) => ∃ db', m db = Ok (db', a) ∧ book_of db' = b' ∧ combination_good db' ∧ cb_locks db' = cb_locks db
  | Err e => m db = Err e
  end.
Lemma loaded db db' row l owner : combination_good db → written db db' row l → owner = uuid_string (cr_owner_account_id row) →
  set_owner owner (loadMarketCombination row db') = present (cr_id row) (entry_at row l).
Proof.
  intros G W ->. pose proof (written_good _ _ _ _ G W) as G'. rewrite (load_row _ _ G') by (apply (wr_rows _ _ _ _ W); by left).
  rewrite (written_entry _ _ _ _ W). done.
Qed.
Lemma uuid_text p v r : combination_uuid p v = Ok r → r.2 = uuid_string r.1.
Proof.
  unfold combination_uuid, marketCombinationUUID. destruct (uuid_parse (trim_space v)) as [u|]; [|done]. destruct (u =? 0)%N; [done|]. by intros [= <-].
Qed.
Lemma create_step newID clock owner name items db : combination_good db →
  implements (CreateMarketCombination newID clock owner name items) (spec_create newID clock owner name items (book_of db)) db.
Proof using BL.
  intros G. unfold implements, CreateMarketCombination, spec_create, stored_time. run_step.
  destruct (combination_uuid BadOwner owner) as [o|] eqn:Ho; [|done]. destruct (normalizeMarketCombination name items) as [n|] eqn:Hn; [|done].
  apply normalize_combination in Hn. destruct Hn as [[Nb Nt] Ns Nl Ni Nm]. unfold translate, CreateMarketCombination_query. run_step.
  destruct (pg_accepts n.1) eqn:Htext; run_step; [|done]. destruct (timestampParam (canonicalNow clock clock)) as [now|]; run_step; [|done].
  set (row := {| cr_id := newID; cr_owner_account_id := o.1; cr_name := n.1; cr_name_key := pg_lower n.1; cr_revision := 1; cr_created_at := now; cr_updated_at := now |}).
  assert (combination_check row = true) as Hc.
  { unfold combination_check. cbn. rewrite (valid_title_between 80) by done. cbn. apply Z.leb_refl. }
  rewrite Hc. run_step. rewrite (fresh_id _ _ G), negb_involutive. case_bool_decide as Hfresh; run_step; [|done].
  cbn [cr_name_key row]. rewrite (taken_name_new _ newID _ _ G Hfresh), negb_involutive. destruct (name_free (book_of db) newID o.1 n.1) eqn:Hname; run_step; [|done].
  unfold put_combinations. run_step. set (db1 := {| cb_combinations := cb_combinations db ++ [row]; cb_items := cb_items db; cb_locks := cb_locks db |}).
  assert (∀ i, i ∈ cb_items db → cir_combination_id i ≠ newID) as Hno.
  { intros i Hi <-. apply (cg_orphans _ G) in Hi as (r & E & Hr)%list_elem_of_fmap. rewrite E, (book_row _ _ G Hr) in Hfresh. done. }
  rewrite (insert_items newID n.2 0 db1); [|split|done|done|done|lia].
  2:{ exists row. split; [apply elem_of_app; right; by left|done]. }
  2:{ intros x [Hx%N.eqb_eq Hin]%elem_of_sql_many. by apply Hno in Hin. }
  destruct (storable n.2); [|done]. rewrite rows_from_zero. set (db' := {| cb_combinations := _ |}).
  assert (written db db' row n.2) as W.
  { constructor; cbn; try done.
    - rewrite sql_delete_none; [done|]. intros x Hx. apply N.eqb_neq. by apply Hno.
    - rewrite fmap_app. apply NoDup_app. split_and!; [apply G| |apply NoDup_singleton]. intros k (r & -> & Hr)%list_elem_of_fmap Hk%list_elem_of_singleton.
      cbn in Hk. rewrite <- Hk, (book_row _ _ G Hr) in Hfresh. done.
    - intros r. rewrite elem_of_app, list_elem_of_singleton. split; [|tauto]. intros [Hr| ->]; [|by left]. right. split; [done|]. intros E.
      rewrite <- E, (book_row _ _ G Hr) in Hfresh. done. }
  exists db'. split_and!; [|exact (written_book _ _ _ _ G W)|exact (written_good _ _ _ _ G W)|done]. do 2 f_equal. by eapply loaded; [exact G|exact W|apply uuid_text in Ho].
Qed.
Lemma get_step owner id db : combination_good db → GetMarketCombination owner id db = spec_get owner id (book_of db).
Proof.
  intros G. unfold GetMarketCombination, spec_get. run_step. destruct (combination_uuid BadOwner owner) as [o|] eqn:Ho; [|done].
  destruct (combination_uuid BadCombinationID id) as [k|]; [|done]. rewrite (owned_row _ _ _ G). destruct (GetMarketCombination_query k.1 o.1 db) as [r|] eqn:E; [|done].
  apply (get_row _ _ _ _ G) in E as (Hr & E1 & E2). cbn. by rewrite (load_row _ _ G Hr), (uuid_text _ _ _ Ho), <- E1, <- E2.
Qed.
Lemma newest_row_total a b : newest_first a b = true ∨ newest_first b a = true.
Proof. unfold newest_first. rewrite !orb_true_iff, !andb_true_iff, !Z.ltb_lt, !Z.eqb_eq, !N.leb_le. lia. Qed.
Lemma newest_row_trans a b c : newest_first a b = true → newest_first b c = true → newest_first a c = true.
Proof. unfold newest_first. rewrite !orb_true_iff, !andb_true_iff, !Z.ltb_lt, !Z.eqb_eq, !N.leb_le. lia. Qed.
Lemma newest_entry_total a b : newest_entry a b = true ∨ newest_entry b a = true.
Proof. unfold newest_entry. rewrite !orb_true_iff, !andb_true_iff, !Z.ltb_lt, !Z.eqb_eq, !N.leb_le. lia. Qed.
Lemma newest_entry_trans a b c : newest_entry a b = true → newest_entry b c = true → newest_entry a c = true.
Proof. unfold newest_entry. rewrite !orb_true_iff, !andb_true_iff, !Z.ltb_lt, !Z.eqb_eq, !N.leb_le. lia. Qed.
Lemma newest_entry_id a b : newest_entry a b = true → newest_entry b a = true → a.1 = b.1.
Proof. unfold newest_entry. rewrite !orb_true_iff, !andb_true_iff, !Z.ltb_lt, !Z.eqb_eq, !N.leb_le. lia. Qed.
Abbreviation owned_by owner := (λ r, (cr_owner_account_id r =? owner)%N).
Lemma listing_rows db owner : combination_good db →
  listing (book_of db) owner = (λ r, (cr_id r, entry_of db r)) <$> sort_by newest_first (sql_many (owned_by owner) (cb_combinations db)).
Proof.
  intros G. unfold listing. apply sort_by_fmap; [apply newest_row_total|apply newest_row_trans|apply newest_entry_total|apply newest_entry_trans|done| |].
  - intros [k e] [k' e'] [_ Ha%elem_of_map_to_list]%list_elem_of_filter [_ Hb%elem_of_map_to_list]%list_elem_of_filter H1 H2.
    pose proof (newest_entry_id _ _ H1 H2) as E. cbn in E. subst k'. congruence.
  - apply NoDup_Permutation.
    + apply (NoDup_fmap_1 fst). rewrite <- list_fmap_compose. apply NoDup_sql_many, G.
    + apply NoDup_filter, NoDup_map_to_list.
    + intros [k e]. rewrite list_elem_of_fmap, list_elem_of_filter, elem_of_map_to_list, (book_lookup _ _ _ G). cbn. split.
      * intros (r & Heq & [Ho%N.eqb_eq Hr]%elem_of_sql_many). simplify_eq. eauto.
      * intros [Ho (r & Hr & <- & <-)]. exists r. split; [done|]. apply elem_of_sql_many. split; [by apply N.eqb_eq|done].
Qed.
Lemma list_step owner page size db : combination_good db → ListMarketCombinations owner page size db = spec_list owner page size (book_of db).
Proof.
  intros G. unfold ListMarketCombinations, spec_list. run_step. destruct (combination_uuid BadOwner owner) as [o|] eqn:Ho; [|done].
  assert (negb ((page <=? 0) || (size <=? 0) || (maxMarketCombinationPageSize <? size)) = (0 <? page) && (0 <? size) && (size <=? maxMarketCombinationPageSize)) as ->.
  { rewrite !negb_orb, !Z.leb_antisym, !negb_involutive. done. }
  destruct ((0 <? page) && (0 <? size) && (size <=? maxMarketCombinationPageSize)) eqn:Hp; [|done]. bool_prop. run_step.
  assert (((page - 1) * size <? 0) = false) as -> by (apply Z.ltb_ge; nia). cbn [negb require].
  rewrite (listing_rows _ _ G), <- fmap_drop, <- fmap_take, <- list_fmap_compose, length_fmap, sort_by_length. do 2 f_equal.
  apply list_fmap_ext. intros i r Hr. unfold ListMarketCombinations_query in Hr.
  assert (r ∈ cb_combinations db ∧ cr_owner_account_id r = o.1) as [Hin Hown].
  { apply lookup_take_Some in Hr as [Hj _]. rewrite lookup_drop in Hj. apply list_elem_of_lookup_2 in Hj.
    rewrite sort_by_elem in Hj. apply elem_of_sql_many in Hj as [Hj%N.eqb_eq ?]. done. }
  cbn. by rewrite (load_row _ _ G Hin), (uuid_text _ _ _ Ho), <- Hown.
Qed.

Lemma at_revision_row db r : combination_good db → r ∈ cb_combinations db →
  sql_one (at_revision (cr_id r) (cr_owner_account_id r) (cr_revision r) db) (cb_combinations db) = if locked (cr_id r) db then None else Some r.
Proof.
  intros G Hr. destruct (sql_one _ (cb_combinations db)) as [r'|] eqn:E.
  - apply sql_one_Some in E as [Hr' Hp]. unfold at_revision in Hp. rewrite !andb_true_iff, N.eqb_eq, negb_true_iff in Hp. destruct Hp as [[[Hid _] _] ->].
    f_equal. by eapply row_unique.
  - destruct (locked (cr_id r) db) eqn:Hl; [done|]. pose proof (sql_one_None _ _ E r Hr) as Hn. unfold at_revision in Hn. by rewrite !N.eqb_refl, Z.eqb_refl, Hl in Hn.
Qed.
Lemma at_revision_id db r r' : combination_good db → r ∈ cb_combinations db → r' ∈ cb_combinations db → locked (cr_id r) db = false →
  at_revision (cr_id r) (cr_owner_account_id r) (cr_revision r) db r' = (cr_id r' =? cr_id r)%N.
Proof.
  intros G Hr Hr' Hl. unfold at_revision. rewrite Hl. destruct (N.eqb_spec (cr_id r') (cr_id r)) as [E|]; [|done].
  rewrite (row_unique _ _ _ G Hr' Hr E), N.eqb_refl, Z.eqb_refl. done.
Qed.
Lemma updated_written db r n now l : combination_good db → r ∈ cb_combinations db → locked (cr_id r) db = false →
  combination_check (updated_row n now r) = true → cr_revision r + 1 ≤ max_int64 →
  name_free (book_of db) (cr_id r) (cr_owner_account_id r) n = true → l ≠ [] → NoDup (mi_market_condition_id <$> l) → Forall item_ok l →
  written db {| cb_combinations := sql_update (at_revision (cr_id r) (cr_owner_account_id r) (cr_revision r) db) (updated_row n now) (cb_combinations db);
                cb_items := sql_delete (λ x, (cir_combination_id x =? cr_id r)%N) (cb_items db) ++ item_rows (cr_id r) l; cb_locks := cb_locks db |}
    (updated_row n now r) l.
Proof.
  intros G Hr Hl Hc Hmax Hfree Hs Hm Hi. constructor; cbn; try done.
  - rewrite (sql_update_key cr_id) by done. apply G.
  - intros x. rewrite elem_of_sql_update. split.
    + intros (y & Hy & ->). rewrite (at_revision_id _ _ _ G Hr Hy Hl). destruct (N.eqb_spec (cr_id y) (cr_id r)) as [E|Hne].
      * left. by rewrite (row_unique _ _ _ G Hy Hr E).
      * by right.
    + intros [->|[Hx Hne]].
      * exists r. split; [done|]. by rewrite (at_revision_id _ _ _ G Hr Hr Hl), N.eqb_refl.
      * exists x. split; [done|]. rewrite (at_revision_id _ _ _ G Hr Hx Hl). by apply N.eqb_neq in Hne as ->.
Qed.
Lemma update_step clock owner id name expected items db : combination_good db →
  implements (UpdateMarketCombination clock owner id name expected items)
    (spec_update (λ k, locked k db) clock owner id name expected items (book_of db)) db.
Proof using BL.
  intros G. unfold implements, UpdateMarketCombination, spec_update, stored_time. run_step.
  destruct (combination_uuid BadOwner owner) as [o|] eqn:Ho; [|done]. destruct (combination_uuid BadCombinationID id) as [k|]; [|done].
  destruct (0 <? expected); run_step; [|done]. destruct (normalizeMarketCombination name items) as [n|] eqn:Hn; [|done].
  apply normalize_combination in Hn. destruct Hn as [[Nb Nt] Ns Nl Ni Nm]. rewrite (owned_row _ _ _ G).
  change (GetMarketCombinationForUpdate k.1 o.1 db) with (GetMarketCombination_query k.1 o.1 db).
  destruct (GetMarketCombination_query k.1 o.1 db) as [r|] eqn:E; [|done]. apply (get_row _ _ _ _ G) in E as (Hr & E1 & E2). cbn [fmap option_fmap option_map of_option be_revision entry_of].
  destruct (Z.eqb_spec (cr_revision r) expected) as [<-|]; run_step; [|done]. rewrite <- E1, <- E2.
  unfold translate, UpdateMarketCombination_query. run_step. destruct (pg_accepts n.1) eqn:Htext; run_step; [|done].
  rewrite (at_revision_row _ _ G Hr). destruct (locked (cr_id r) db) eqn:Hl; run_step; [done|].
  destruct (timestampParam (canonicalNow clock clock)) as [now|]; run_step; [|done]. set (row := updated_row n.1 now r).
  change (cr_revision row) with (cr_revision r + 1). destruct (bigint_in_range (cr_revision r + 1)) eqn:Hmax; run_step; [|done].
  assert (combination_check row = (cr_created_at r <=? now)) as Hc.
  { unfold combination_check. cbn. rewrite (valid_title_between 80) by done. destruct (cg_rows _ G r Hr) as [Hck _]. unfold combination_check in Hck. bool_prop.
    by rewrite (proj2 (Z.ltb_lt 0 (cr_revision r + 1))) by lia. }
  rewrite Hc. cbn [be_created entry_of]. destruct (cr_created_at r <=? now) eqn:Htime; run_step; [|done].
  change (cr_name_key row) with (pg_lower n.1). rewrite (taken_name _ (cr_id r) _ _ G), negb_involutive.
  destruct (name_free (book_of db) (cr_id r) (cr_owner_account_id r) n.1) eqn:Hname; run_step; [|done].
  unfold put_combinations, DeleteMarketCombinationItems, put_combination_items. run_step. cbn [cb_combinations cb_items cb_locks].
  rewrite (insert_items (cr_id r) n.2 0); [|split|done|done|done|lia].
  2:{ exists row. split; [|done]. apply elem_of_sql_update. exists r. split; [done|]. by rewrite (at_revision_id _ _ _ G Hr Hr Hl), N.eqb_refl. }
  2:{ intros x [Hx Hin]%elem_of_sql_many. cbn in Hin. apply elem_of_sql_delete in Hin as [Hin _]. by rewrite Hin in Hx. }
  destruct (storable n.2); [|done]. rewrite rows_from_zero. cbn [cb_combinations cb_items cb_locks].
  assert (cr_revision r + 1 ≤ max_int64) as Hle by (by apply Z.leb_le). pose proof (updated_written db r n.1 now n.2 G Hr Hl Hc Hle Hname Ns Nm Ni) as W.
  match type of W with written _ ?d _ _ => exists d end. split_and!; [|exact (written_book _ _ _ _ G W)|exact (written_good _ _ _ _ G W)|done].
  do 2 f_equal. apply (loaded _ _ _ _ _ G W). cbn. by rewrite (uuid_text _ _ _ Ho), E2.
Qed.
Lemma delete_step owner id expected db : combination_good db →
  implements (DeleteMarketCombination owner id expected) (b' ← spec_delete (λ k, locked k db) owner id expected (book_of db); Ok (b', tt)) db.
Proof.
  intros G. unfold implements, DeleteMarketCombination, spec_delete. run_step.
  destruct (combination_uuid BadOwner owner) as [o|]; [|done]. destruct (combination_uuid BadCombinationID id) as [k|]; [|done].
  destruct (0 <? expected); run_step; [|done]. rewrite (owned_row _ _ _ G).
  change (GetMarketCombinationForUpdate k.1 o.1 db) with (GetMarketCombination_query k.1 o.1 db).
  destruct (GetMarketCombination_query k.1 o.1 db) as [r|] eqn:E; [|done]. apply (get_row _ _ _ _ G) in E as (Hr & E1 & E2). cbn [fmap option_fmap option_map of_option be_revision entry_of].
  destruct (Z.eqb_spec (cr_revision r) expected) as [<-|]; run_step; [|done]. rewrite <- E1, <- E2.
  unfold translate, DeleteMarketCombination_query. run_step. rewrite (at_revision_row _ _ G Hr). destruct (locked (cr_id r) db) eqn:Hl; run_step; [done|].
  unfold put_combinations, DeleteMarketCombinationItems, put_combination_items. run_step. cbn [cb_combinations cb_items cb_locks].
  eexists. split; [reflexivity|]. assert (sql_delete (at_revision (cr_id r) (cr_owner_account_id r) (cr_revision r) db) (cb_combinations db)
    = sql_delete (λ x, (cr_id x =? cr_id r)%N) (cb_combinations db)) as ->.
  { apply sql_delete_rows. intros x Hx. by apply at_revision_id. }
  destruct (deleted_good db {| cb_combinations := sql_delete (λ x, (cr_id x =? cr_id r)%N) (cb_combinations db);
    cb_items := sql_delete (λ x, (cir_combination_id x =? cr_id r)%N) (cb_items db); cb_locks := cb_locks db |} r G Hr) as [G' Hb]; [done|done|]. done.
Qed.

(** Every operation does to the tables what the specification does to the map. *)
Lemma step_implements o db : combination_good db → implements (store_step o) (spec_step (λ k, locked k db) o (book_of db)) db.
Proof using BL.
  intros G. destruct o as [newID clock owner name items|owner id|owner page size|clock owner id name expected items|owner id expected]; cbn [store_step spec_step].
  - pose proof (create_step newID clock owner name items db G) as H. unfold implements in *. run_step. destruct (spec_create _ _ _ _ _ _) as [[b c]|e]; cbn in H |- *.
    + destruct H as (db' & -> & H). by exists db'.
    + by rewrite H.
  - unfold implements. run_step. rewrite (get_step _ _ _ G). destruct (spec_get owner id (book_of db)) as [c|e]; cbn; [by exists db|done].
  - unfold implements. run_step. rewrite (list_step _ _ _ _ G). destruct (spec_list owner page size (book_of db)) as [c|e]; cbn; [by exists db|done].
  - pose proof (update_step clock owner id name expected items db G) as H. unfold implements in *. run_step. destruct (spec_update _ _ _ _ _ _ _ _) as [[b c]|e]; cbn in H |- *.
    + destruct H as (db' & -> & H). by exists db'.
    + by rewrite H.
  - pose proof (delete_step owner id expected db G) as H. unfold implements in *. run_step. destruct (spec_delete _ _ _ _ _) as [b|e]; cbn in H |- *.
    + destruct H as (db' & -> & H). by exists db'.
    + by rewrite H.
Qed.
End Steps.
