(* ===== verification/CombinationTheorems.v ===== *)
(** * Market combinations: theorems

    The tables and the handlers behave as a map of combinations, whatever operations and
    changes of the execution locks come one after the other. *)

From S2P Require Import Prelude Sql CashOutTypes CashOutStore ConnectionStore ConnectionService Combination CombinationSpec CombinationRefine.
From stdpp Require Import base tactics option list list_numbers sorting strings gmap relations.
From Stdlib Require Import ZArith Lia Ascii.
#[local] Open Scope Z_scope.

Section Theorems.
Context {UL : UuidLib} {SL : SolanaLib} {PL : PgLower} {BL : Base58Laws}.

(** ** Histories *)
(** An operation commits or changes nothing; execution runs take and release their locks. *)
Inductive combination_next (db : MDB) : MDB → Prop :=
| next_operation o : combination_next db (run_tx (store_step o) db).1
| next_locks locks : combination_next db {| cb_combinations := cb_combinations db; cb_items := cb_items db; cb_locks := locks |}.
Definition no_rows : MDB := {| cb_combinations := []; cb_items := []; cb_locks := [] |}.
Definition reachable (db : MDB) : Prop := rtc combination_next no_rows db.
Lemma no_rows_good : combination_good no_rows.
Proof. constructor; cbn; try (by intros ? ?%not_elem_of_nil); [constructor|by intros ? ? ?%not_elem_of_nil]. Qed.
Lemma locks_good db locks : combination_good db → combination_good {| cb_combinations := cb_combinations db; cb_items := cb_items db; cb_locks := locks |}.
Proof. intros [? ? ? ? ? ?]. by constructor. Qed.
Lemma operation_good o db : combination_good db → combination_good (run_tx (store_step o) db).1.
Proof using BL.
  intros G. pose proof (step_implements o db G) as H. unfold implements, run_tx in *. destruct (spec_step _ o (book_of db)) as [[b a]|e].
  - destruct H as (db' & -> & _ & G' & _). done.
  - by rewrite H.
Qed.
Lemma next_good db db' : combination_next db db' → combination_good db → combination_good db'.
Proof using BL. intros [o|locks]; [apply operation_good|apply locks_good]. Qed.
Lemma reachable_good db : reachable db → combination_good db.
Proof using BL.
  intros H. refine (rtc_ind_r combination_good no_rows no_rows_good _ db H). intros x y _ Hxy G. by eapply next_good.
Qed.

(** C16: From empty tables, after any sequence of operations and changes of the execution locks,
    the store is a map from identifiers to combinations: every operation answers exactly as the
    specification says, error or result, and leaves the tables of the map it says; identifiers
    and, ignoring case, the names of an owner stay unique, and each combination has its items
    under the ordinals from one, at least one, all of different markets. *)
Theorem combination_store_refines db o :
  reachable db → combination_good db ∧ implements (store_step o) (spec_step (λ k, locked k db) o (book_of db)) db.
Proof using BL. intros H%reachable_good. split; [done|]. by apply step_implements. Qed.

(** ** Locks *)
Lemma owned_some b id owner e : owned b id owner = Some e ↔ b !! id = Some e ∧ be_owner e = owner.
Proof.
  unfold owned. destruct (b !! id) as [e'|]; cbn; [|naive_solver]. destruct (N.eqb_spec (be_owner e') owner); naive_solver.
Qed.
Lemma spec_frozen locks o b b' a id e : spec_step locks o b = Ok (b', a) → locks id = true → b !! id = Some e → b' !! id = Some e.
Proof.
  intros H Hl Hb. destruct o as [newID clock owner name items|owner k|owner page size|clock owner k name expected items|owner k expected]; cbn [spec_step] in H.
  - unfold spec_create in H. cbv zeta in H. tx_inv. bool_prop. cbn [fst]. rewrite lookup_insert_ne; [done|]. congruence.
  - tx_inv. done.
  - tx_inv. done.
  - unfold spec_update in H. cbv zeta in H. tx_inv. cbn [fst]. rewrite lookup_insert_ne; [done|]. intros E. bool_prop. congruence.
  - unfold spec_delete in H. tx_inv. rewrite lookup_delete_ne; [done|]. intros E. bool_prop. congruence.
Qed.
Definition locked_next (id : N) (db db' : MDB) : Prop := locked id db = true ∧ combination_next db db'.
Lemma frozen_step id db db' e : combination_good db → locked_next id db db' → book_of db !! id = Some e → book_of db' !! id = Some e.
Proof using BL.
  intros G [Hl Hn] Hb. destruct Hn as [o|locks]; [|done]. pose proof (step_implements o db G) as H. unfold implements, run_tx in *.
  destruct (spec_step _ o (book_of db)) as [[b a]|x] eqn:E.
  - destruct H as (d & -> & <- & _). by eapply spec_frozen in E.
  - by rewrite H.
Qed.

(** While an execution run holds the lock of a combination, no sequence of operations changes
    it: it keeps its name, revision, order and items, and an update or a deletion of it is
    answered with a revision conflict and changes nothing. *)
Theorem locked_combination_frozen db db' id e :
  reachable db → book_of db !! id = Some e → rtc (locked_next id) db db' →
  book_of db' !! id = Some e
  ∧ ∀ clock owner name expected items r, locked id db' = true → combination_uuid BadOwner owner = Ok (be_owner e, r) →
      combination_uuid BadCombinationID (uuid_string id) = Ok (id, uuid_string id) → 0 < expected →
      DeleteMarketCombination owner (uuid_string id) expected db' = Err ErrMarketCombinationRevision
      ∧ (∀ n, normalizeMarketCombination name items = Ok n → pg_accepts n.1 = true →
         UpdateMarketCombination clock owner (uuid_string id) name expected items db' = Err ErrMarketCombinationRevision).
Proof using BL.
  intros Hr Hb Hn. apply reachable_good in Hr. assert (combination_good db' ∧ book_of db' !! id = Some e) as [G Hb'].
  { refine (rtc_ind_r (λ d, combination_good d ∧ book_of d !! id = Some e) db _ _ db' Hn); [done|]. intros x y _ Hxy [Gx Hx].
    split; [by eapply next_good; [apply Hxy|]|by eapply frozen_step]. }
  split; [done|]. intros clock owner name expected items r Hl Ho Hid Hpos.
  assert (owned (book_of db') id (be_owner e) = Some e) as Hown by (by apply owned_some). split.
  - pose proof (delete_step owner (uuid_string id) expected db' G) as H. unfold implements, spec_delete in H. rewrite Ho, Hid in H. cbn in H.
    rewrite (proj2 (Z.ltb_lt 0 expected) Hpos) in H. cbn in H. rewrite Hown in H. cbn in H. rewrite Hl in H. destruct (be_revision e =? expected); cbn in H; done.
  - intros n Hnorm Htext. pose proof (update_step clock owner (uuid_string id) name expected items db' G) as H. unfold implements, spec_update in H. rewrite Ho, Hid in H. cbn in H.
    rewrite (proj2 (Z.ltb_lt 0 expected) Hpos), Hnorm in H. cbn in H. rewrite Hown in H. cbn in H. rewrite Htext, Hl in H. destruct (be_revision e =? expected); cbn in H; done.
Qed.

(** ** Pages *)
Definition page_of (owner : string) (size page : Z) (db : MDB) : list MarketCombination :=
  match ListMarketCombinations owner page size db with Ok r => r.1 | Err _ => [] end.
Lemma pages_concat {A} (l : list A) s n : concat ((λ k, take s (drop (k * s) l)) <$> seq 0 n) = take (n * s) l.
Proof.
  induction n as [|n IH]; [done|]. rewrite seq_S, fmap_app, concat_app, IH. cbn. rewrite app_nil_r.
  replace (s + n * s)%nat with (n * s + s)%nat by lia. by rewrite take_take_drop.
Qed.

(** A client that reads the pages of an owner one after the other receives every combination of
    that owner exactly once, the last updated first, and no other, for every page size, and each
    page reports their number. *)
Theorem combination_pages db owner o size n :
  reachable db → combination_uuid BadOwner owner = Ok o → 1 ≤ size ≤ maxMarketCombinationPageSize →
  Z.of_nat (length (listing (book_of db) o.1)) ≤ Z.of_nat n * size →
  concat ((λ k, page_of owner size (Z.of_nat k + 1) db) <$> seq 0 n) = (λ p, present p.1 p.2) <$> listing (book_of db) o.1
  ∧ (∀ k : nat, ∃ l, ListMarketCombinations owner (Z.of_nat k + 1) size db = Ok (l, Z.of_nat (length (listing (book_of db) o.1))))
  ∧ StronglySorted (λ a b, newest_entry a b = true) (listing (book_of db) o.1) ∧ NoDup ((listing (book_of db) o.1).*1)
  ∧ ∀ id e, (id, e) ∈ listing (book_of db) o.1 ↔ book_of db !! id = Some e ∧ be_owner e = o.1.
Proof using BL.
  intros Hr Ho Hsize Hn. apply reachable_good in Hr as G.
  assert (∀ k, ListMarketCombinations owner (Z.of_nat k + 1) size db =
    Ok ((λ p, present p.1 p.2) <$> take (Z.to_nat size) (drop (k * Z.to_nat size) (listing (book_of db) o.1)), Z.of_nat (length (listing (book_of db) o.1)))) as Hpage.
  { intros k. rewrite (list_step _ _ _ _ G). unfold spec_list. rewrite Ho. cbn.
    rewrite (proj2 (Z.ltb_lt 0 (Z.of_nat k + 1))), (proj2 (Z.ltb_lt 0 size)), (proj2 (Z.leb_le size _)) by lia. cbn.
    by replace (Z.to_nat ((Z.of_nat k + 1 - 1) * size)) with (k * Z.to_nat size)%nat by lia. }
  split_and!.
  - rewrite <- (take_ge (listing (book_of db) o.1) (n * Z.to_nat size)) by lia.
    rewrite <- (pages_concat (listing (book_of db) o.1)). generalize (seq 0 n). intros ks. induction ks as [|k ks IH]; [done|]. cbn. rewrite fmap_app, <- IH.
    f_equal. unfold page_of. by rewrite Hpage.
  - intros k. eexists. apply Hpage.
  - apply sort_by_sorted; [apply newest_entry_total|apply newest_entry_trans].
  - rewrite (listing_rows _ _ G), <- list_fmap_compose. cbn. rewrite sort_by_Permutation. apply NoDup_sql_many, G.
  - intros id e. unfold listing. rewrite sort_by_elem, list_elem_of_filter, elem_of_map_to_list. cbn. tauto.
Qed.

(** ** Handlers *)
Context {ULaws : UuidLaws}.
Lemma uuid_again u p : (u < 2 ^ 128)%N → u ≠ 0%N → combination_uuid p (uuid_string u) = Ok (u, uuid_string u).
Proof using ULaws.
  intros Hb Hz. unfold combination_uuid, marketCombinationUUID. rewrite (trim_space_printable _ (uuid_string_printable u)), uuid_parse_string by done.
  by apply N.eqb_neq in Hz as ->.
Qed.
Lemma account_uuid v s : normalizeMarketCombinationAccountID v = Ok s → ∃ u, (u < 2 ^ 128)%N ∧ u ≠ 0%N ∧ s = uuid_string u.
Proof using ULaws.
  unfold normalizeMarketCombinationAccountID. destruct (uuid_parse (trim_space v)) as [u|] eqn:E; [|done]. destruct (N.eqb_spec u 0); [done|]. intros [= <-].
  exists u. split_and!; [by eapply uuid_parse_bound|done|done].
Qed.
Lemma normalize_trims l index seen l' : normalize_market_items l index seen = Ok l' → l' = trim_item <$> l.
Proof.
  revert index seen l'. induction l as [|i l IH]; intros index seen l' H; cbn [normalize_market_items] in H; [by injection H as <-|].
  cbv zeta in H. tx_inv. match goal with Hn : normalize_market_items _ _ _ = Ok _ |- _ => apply IH in Hn as -> end. done.
Qed.
Lemma created_entry newID clock owner u r name items db db' c :
  combination_good db → combination_uuid BadOwner owner = Ok (u, r) → CreateMarketCombination newID clock owner name items db = Ok (db', c) →
  combination_good db' ∧ ∃ e, book_of db' !! newID = Some e ∧ c = present newID e ∧ be_owner e = u ∧ be_revision e = 1
    ∧ be_name e = trim_space name ∧ be_items e = trim_item <$> items.
Proof using BL.
  intros G Ho H. pose proof (create_step newID clock owner name items db G) as Hs. unfold implements in Hs.
  destruct (spec_create newID clock owner name items (book_of db)) as [[b a]|e] eqn:E; [|congruence]. destruct Hs as (d & Hd & Hbook & G' & _).
  rewrite Hd in H. injection H as -> ->. split; [done|]. unfold spec_create in E. cbv zeta in E. rewrite Ho in E. tx_inv.
  match goal with Hn : normalizeMarketCombination _ _ = Ok _ |- _ => unfold normalizeMarketCombination in Hn; cbv zeta in Hn end. tx_inv.
  match goal with Hn : normalize_market_items _ _ _ = Ok _ |- _ => apply normalize_trims in Hn as -> end.
  match goal with Hb : <[_ := _]> _ = book_of _ |- _ => rewrite <- Hb, lookup_insert_eq end. eexists. split_and!; done.
Qed.
Lemma get_handler s owner account u id e db :
  combination_good db → normalizeMarketCombinationAccountID owner = Ok account → account = uuid_string u → (u < 2 ^ 128)%N → u ≠ 0%N →
  (id < 2 ^ 128)%N → id ≠ 0%N → sv_started s = true → sv_store s = true → book_of db !! id = Some e →
  svc_GetMarketCombination s {| gmr_owner_account_id := owner; gmr_id := uuid_string id |} db =
    if (be_owner e =? u)%N then Ok (db, marketCombinationToProto (present id e)) else Err (status NotFound "market combination not found").
Proof using ULaws.
  intros G Ha -> Hu Hu0 Hid Hid0 H1 H2 He. unfold svc_GetMarketCombination, normalizeMarketCombinationID. cbn [gmr_owner_account_id gmr_id].
  rewrite Ha, (trim_space_printable _ (uuid_string_printable id)), uuid_parse_string by done. apply N.eqb_neq in Hid0 as Hz. rewrite Hz. run_step.
  unfold requireMarketCombinationStore. rewrite H1, H2. run_step. unfold rpc_read. rewrite (get_step _ _ _ G). unfold spec_get.
  rewrite (uuid_again u _ Hu Hu0), (uuid_again id _ Hid Hid0). run_step. unfold owned. rewrite He. cbn. by destruct (be_owner e =? u)%N.
Qed.

(** What the create handler answers, the trimmed name and items under the ordinals from one at
    revision one, is what the get handler answers to the same account for the identifier it was
    given, and every other account is told that there is no such combination. *)
Theorem combination_create_get s newID clock req db db' m :
  reachable db → (newID < 2 ^ 128)%N → newID ≠ 0%N → svc_CreateMarketCombination s newID clock req db = Ok (db', m) →
  cm_id m = uuid_string newID ∧ cm_revision m = 1 ∧ cm_name m = trim_space (cmr_name req)
  ∧ cm_items m = numbered (trim_item <$> marketCombinationInputsFromProto (cmr_items req))
  ∧ svc_GetMarketCombination s {| gmr_owner_account_id := cmr_owner_account_id req; gmr_id := cm_id m |} db' = Ok (db', m)
  ∧ ∀ other account, normalizeMarketCombinationAccountID other = Ok account → account ≠ cm_owner_account_id m →
      svc_GetMarketCombination s {| gmr_owner_account_id := other; gmr_id := cm_id m |} db' = Err (status NotFound "market combination not found").
Proof using BL ULaws.
  intros Hr Hb Hz H. apply reachable_good in Hr as G. unfold svc_CreateMarketCombination in H. tx_inv.
  match goal with Ho : normalizeMarketCombinationAccountID _ = Ok ?o |- _ => rename o into owner, Ho into Howner end. unfold rpc in *.
  destruct (account_uuid _ _ Howner) as (u & Hu & Hu0 & ->).
  match goal with Hm : match CreateMarketCombination ?a ?b ?c ?d ?e ?f with _ => _ end = _ |- _ => destruct (CreateMarketCombination a b c d e f) as [[d' c']|] eqn:E; [|done]; injection Hm as -> <- end.
  destruct (created_entry _ _ _ _ _ _ _ _ _ _ G (uuid_again u _ Hu Hu0) E) as [G' (e & He & -> & Eo & Er & En & Ei)]. cbn. rewrite Er, En, Ei.
  match goal with Hq : requireMarketCombinationStore s = Ok _ |- _ => unfold requireMarketCombinationStore in Hq; tx_inv end.
  split_and!; [done|done|done|done| |].
  - rewrite (get_handler s _ _ (be_owner e) newID e db' G' Howner eq_refl) by done. by rewrite N.eqb_refl.
  - intros other account Ha Hne. destruct (account_uuid _ _ Ha) as (v & Hv & Hv0 & ->). rewrite (get_handler s _ _ v newID e db' G' Ha eq_refl) by done.
    assert (be_owner e ≠ v) as Hd%N.eqb_neq by congruence. by rewrite Hd.
Qed.
End Theorems.

(** ** A concrete store *)
Import Prelude.Concrete.
#[export] Instance pg_lower_ascii : PgLower := {| pg_lower := to_lower |}.
Lemma alphabet_printable k : printable (default "1"%char (base58_alphabet !! k)).
Proof.
  assert (Forall printable base58_alphabet) as Hall by (vm_compute; repeat constructor).
  destruct (base58_alphabet !! k) as [a|] eqn:E; [by eapply Forall_lookup in Hall|]. by split.
Qed.
Lemma base58_printable fuel v acc : printable_text acc → printable_text (base58_digits fuel v acc).
Proof.
  revert v acc. induction fuel as [|fuel IH]; intros v acc H; cbn [base58_digits]; [done|]. destruct (v =? 0)%N; [done|]. apply IH.
  unfold printable_text. cbn [String.list_ascii_of_string]. constructor; [apply alphabet_printable|done].
Qed.
#[export] Instance solana_base58 : Base58Laws.
Proof.
  constructor. intros k. unfold public_key_string, solana_lib, printable_text.
  assert (∀ s t, String.list_ascii_of_string (s +:+ t) = String.list_ascii_of_string s ++ String.list_ascii_of_string t) as Happ.
  { induction s as [|a s IH]; intros t; [done|]. change (String a s +:+ t) with (String a (s +:+ t)). cbn. f_equal. apply IH. }
  rewrite Happ, String.list_ascii_of_string_of_list_ascii. apply Forall_app. split; [|apply base58_printable; constructor].
  apply Forall_replicate. split; vm_compute; reflexivity.
Qed.
Definition account (n : N) : string := uuid_string n.
Definition sample_market (n : N) : MarketCombinationItemInput := {|
  mi_event_condition_id := public_key_string 30; mi_event_title := "  Cup final "; mi_event_logo := ""; mi_market_condition_id := public_key_string n;
  mi_market_title := "Winner"; mi_market_logo := ""; mi_is_yes := true; mi_outcome_label := "Home" |}.
Definition create_request (name : string) : CreateMarketCombinationRequest := {|
  cmr_owner_account_id := account 7; cmr_name := name; cmr_items := [Some (sample_market 31); Some (sample_market 32)] |}.
Definition running : service_state := {| sv_started := true; sv_store := true |}.
Definition sample_store : MDB := (run_tx (store_step (OpCreate 9 1000 (account 7) " Finals" [sample_market 31; sample_market 32])) no_rows).1.
Definition sample_locked : MDB := {| cb_combinations := cb_combinations sample_store; cb_items := cb_items sample_store; cb_locks := [9%N] |}.
Definition sample_entry : entry := {|
  be_owner := 7; be_name := "Finals"; be_revision := 1; be_items := trim_item <$> [sample_market 31; sample_market 32]; be_created := 1000; be_updated := 1000 |}.
Lemma sample_reachable : reachable sample_store.
Proof. apply rtc_once. constructor. Qed.
Lemma locked_reachable : reachable sample_locked.
Proof. eapply rtc_r; [apply sample_reachable|constructor]. Qed.
Example name_taken : (run_tx (store_step (OpCreate 10 2000 (account 7) "FINALS" [sample_market 33])) sample_store).2 = Err ErrMarketCombinationExists.
Proof. vm_compute. reflexivity. Qed.

(** ** Witnesses *)
Lemma combination_store_refines_witness :
  implements (store_step (OpUpdate 2000 (account 7) (account 9) "Semis" 1 [sample_market 33]))
    (spec_step (λ k, locked k sample_store) (OpUpdate 2000 (account 7) (account 9) "Semis" 1 [sample_market 33]) (book_of sample_store)) sample_store.
Proof. apply (combination_store_refines sample_store). exact sample_reachable. Defined.
Lemma locked_combination_frozen_witness :
  DeleteMarketCombination (account 7) (account 9) 1 sample_locked = Err ErrMarketCombinationRevision.
Proof.
  apply (locked_combination_frozen sample_locked sample_locked 9 sample_entry locked_reachable ltac:(vm_compute; reflexivity) (rtc_refl _ _))
    with (clock := 2000) (name := "Semis") (items := [sample_market 33]) (r := account 7); vm_compute; reflexivity.
Defined.
Lemma combination_pages_witness :
  concat ((λ k, page_of (account 7) 1 (Z.of_nat k + 1) sample_store) <$> seq 0 1) = [present 9 sample_entry].
Proof.
  apply (combination_pages sample_store (account 7) (7%N, account 7) 1 1 sample_reachable); [vm_compute; reflexivity|vm_compute; split; discriminate|vm_compute; discriminate].
Defined.
Lemma combination_create_get_witness :
  ∃ db' m, svc_CreateMarketCombination running 9 1000 (create_request " Finals") no_rows = Ok (db', m)
    ∧ svc_GetMarketCombination running {| gmr_owner_account_id := account 7; gmr_id := cm_id m |} db' = Ok (db', m).
Proof.
  destruct (svc_CreateMarketCombination running 9 1000 (create_request " Finals") no_rows) as [[db' m]|e] eqn:E; [|exfalso; revert E; vm_compute; discriminate].
  exists db', m. split; [reflexivity|]. apply (combination_create_get running 9 1000 (create_request " Finals") no_rows db' m); [constructor|vm_compute; reflexivity|discriminate|exact E].
Defined.
