(* ===== verification/Plan.v ===== *)
(** * Execution plans: data and database

    The rows, constraints and queries of execution plans in [internal/wormtrading/store]
    ([types.go], [sqlc/models.go], [migrations/000003_execution_plans.sql] with
    [000011_wallet_selections.sql], [sqlc/execution_plans.sql.go]).  A plan freezes a
    market combination and some wallets of the owner's selection; a worker that holds
    its lease completes it with what it observed.  The tables of market combinations,
    wallets and selections are those of their own components; of execution runs a plan
    only needs to know whether one exists.  Columns no statement updates are grouped in
    a record of their own. *)

From S2P Require Import Prelude Sql CashOutTypes CashOutStore ConnectionTypes ConnectionStore Selection Combination Decimal.
From stdpp Require Import base tactics option list list_numbers sorting strings gmap.
From Stdlib Require Import ZArith Lia Ascii.
#[local] Open Scope Z_scope.

(** ** Data *)
Inductive ExecutionPlanState := ExecutionPlanStateBuilding | ExecutionPlanStateReady | ExecutionPlanStateFailed.
#[export] Instance ExecutionPlanState_eq_dec : EqDecision ExecutionPlanState.
Proof. solve_decision. Defined.
Definition ExecutionPlanUsabilityCombinationDeleted : string := "COMBINATION_DELETED".
Definition ExecutionPlanUsabilityCombinationChanged : string := "COMBINATION_CHANGED".
Definition ExecutionPlanUsabilityExpired : string := "EXPIRED".
Definition ExecutionPlanUsabilityNoActionableSteps : string := "NO_ACTIONABLE_STEPS".
Definition ExecutionPlanUsabilityWalletSelectionChanged : string := "WALLET_SELECTION_CHANGED".
Definition ExecutionPlanStepDispositionReady : string := "READY".
Definition ExecutionPlanStepDispositionSkipped : string := "SKIPPED".

Record ExecutionPlanWalletInput := {
  pwi_wallet_id : Z; pwi_address : string; pwi_remark : string; pwi_avatar_kind : string; pwi_avatar_preset_id : string;
  pwi_avatar_url : string }.
(** What a worker observed of one balance, and of a wallet apart from [ConnectedAt]. *)
Record balance_snapshot := {
  bal_atomic_amount : string; bal_amount : string; bal_decimals : Z; bal_observed_slot : Z; bal_availability : string;
  bal_error_code : string }.
Record wallet_snapshot := {
  sn_connection_state : string; sn_connection_warning_code : string; sn_credential_version : Z; sn_sol : balance_snapshot;
  sn_usdc_mint : string; sn_usdc : balance_snapshot; sn_usdc_token_account_count : Z; sn_status : string; sn_reason_code : string }.
Record ExecutionPlanWallet := {
  pw_ordinal : Z; pw_input : ExecutionPlanWalletInput; pw_connected_at : Z; pw_snapshot : wallet_snapshot }.
Record ExecutionPlanWalletObservation := { wo_ordinal : Z; wo_connected_at : Z; wo_snapshot : wallet_snapshot }.
Record ExecutionPlanEstimate := {
  pe_average_price : string; pe_total_shares : string; pe_total_cost : string; pe_best_ask : string; pe_worst_fill_price : string;
  pe_is_fully_filled : bool; pe_fee_amount : string; pe_user_funds_needed : string; pe_liquidation_price : string }.
Record item_snapshot := {
  is_backend : string; is_funds : string; is_leverage : string; is_state : string; is_reason_code : string;
  is_estimate : ExecutionPlanEstimate }.
Record ExecutionPlanItem := { pi_ordinal : Z; pi_input : MarketCombinationItemInput; pi_snapshot : item_snapshot }.
Record ExecutionPlanItemObservation := { io_ordinal : Z; io_snapshot : item_snapshot }.
Record ExecutionPlanStep := {
  sp_ordinal : Z; sp_wallet_ordinal : Z; sp_item_ordinal : Z; sp_disposition : string; sp_reason_code : string;
  sp_projected_usdc_before : string; sp_projected_usdc_after : string }.
Record ExecutionPlanReasonCount := { prc_reason_code : string; prc_count : Z }.
(** The totals of a plan: collateral, opening fee and user funds needed. *)
Record plan_totals := { tot_collateral : string; tot_opening_fee : string; tot_user_funds_needed : string }.
Record ExecutionPlan := {
  ep_id : string; ep_owner_account_id : string; ep_combination_id : string; ep_combination_name : string; ep_combination_revision : Z;
  ep_wallet_selection_revision : Z; ep_state : ExecutionPlanState; ep_build_stage : string; ep_failure_code : string;
  ep_usability_code : string; ep_worker_id : string; ep_locked_at : Z; ep_lease_expires_at : Z; ep_wallet_count : Z; ep_item_count : Z;
  ep_total_step_count : Z; ep_completed_step_count : Z; ep_ready_step_count : Z; ep_skipped_step_count : Z; ep_totals : plan_totals;
  ep_requested_at : Z; ep_completed_at : Z; ep_expires_at : Z; ep_retention_until : Z; ep_created_at : Z; ep_updated_at : Z;
  ep_wallets : list ExecutionPlanWallet; ep_items : list ExecutionPlanItem; ep_reason_counts : list ExecutionPlanReasonCount }.

(** ** Requests *)
Record CreateExecutionPlanRequest := {
  cpr_owner_account_id : string; cpr_combination_id : string; cpr_expected_combination_revision : Z;
  cpr_wallet_selection_revision : Z; cpr_wallets : list ExecutionPlanWalletInput; cpr_now : Z }.
Record ExecutionPlanBuildProgress := {
  bp_plan_id : string; bp_worker_id : string; bp_build_stage : string; bp_completed_step_count : Z; bp_lease_expires_at : Z; bp_now : Z }.
Record MarkExecutionPlanReadyRequest := {
  mr_plan_id : string; mr_worker_id : string; mr_wallets : list ExecutionPlanWalletObservation;
  mr_items : list ExecutionPlanItemObservation; mr_steps : list ExecutionPlanStep; mr_totals : plan_totals; mr_now : Z }.

(** ** Rows *)
Record plan_intent := {
  in_id : N; in_owner_account_id : N; in_combination_id : N; in_combination_name : string; in_combination_revision : Z;
  in_wallet_selection_revision : Z; in_wallet_count : Z; in_item_count : Z; in_total_step_count : Z; in_requested_at : Z;
  in_created_at : Z }.
Record plan_row := {
  pl_intent : plan_intent; pl_state : ExecutionPlanState; pl_build_stage : string; pl_failure_code : string; pl_worker_id : string;
  pl_locked_at : option Z; pl_lease_expires_at : option Z; pl_completed_step_count : Z; pl_ready_step_count : Z;
  pl_skipped_step_count : Z; pl_totals : plan_totals; pl_completed_at : option Z; pl_expires_at : option Z; pl_retention_until : Z;
  pl_updated_at : Z }.
Definition pl_id (r : plan_row) : N := in_id (pl_intent r).
Definition pl_owner (r : plan_row) : N := in_owner_account_id (pl_intent r).
Record plan_wallet_row := {
  pwr_plan_id : N; pwr_ordinal : Z; pwr_input : ExecutionPlanWalletInput; pwr_connected_at : option Z; pwr_snapshot : wallet_snapshot }.
Record plan_item_row := { pir_plan_id : N; pir_ordinal : Z; pir_input : MarketCombinationItemInput; pir_snapshot : item_snapshot }.
Record plan_step_row := { psr_plan_id : N; psr_step : ExecutionPlanStep }.
(** [ed_runs]: the plans of the execution runs. *)
Record EDB := {
  ed_market : MDB; ed_wallets : WDB; ed_plans : list plan_row; ed_plan_wallets : list plan_wallet_row;
  ed_plan_items : list plan_item_row; ed_plan_steps : list plan_step_row; ed_runs : list N }.

Inductive EPError :=
| ErrExecutionPlanNotFound | ErrExecutionPlanRevision | ErrExecutionPlanBuildLease | ErrExecutionPlanCombinationChanged
| ErrExecutionPlanWalletConnectionChanged | ErrExecutionPlanCredentialChanged | ErrExecutionPlanWalletSelectionChanged
| ErrExecutionPlanCombinationNotFound | ErrInvalidExecutionPlan (what : string) | EPReasonCount | EPPanic (what : string)
| EPNoRows | EPConstraint (name : string) | EPText | EPCanceled | EPDeadlineExceeded.
Abbreviation ep_tx := (tx EDB EPError).
Definition put_plans (t : list plan_row) : ep_tx unit :=
  db ← tx_get; tx_put (Build_EDB (ed_market db) (ed_wallets db) t (ed_plan_wallets db) (ed_plan_items db) (ed_plan_steps db) (ed_runs db)).
Definition put_plan_wallets (t : list plan_wallet_row) : ep_tx unit :=
  db ← tx_get; tx_put (Build_EDB (ed_market db) (ed_wallets db) (ed_plans db) t (ed_plan_items db) (ed_plan_steps db) (ed_runs db)).
Definition put_plan_items (t : list plan_item_row) : ep_tx unit :=
  db ← tx_get; tx_put (Build_EDB (ed_market db) (ed_wallets db) (ed_plans db) (ed_plan_wallets db) t (ed_plan_steps db) (ed_runs db)).
Definition put_plan_steps (t : list plan_step_row) : ep_tx unit :=
  db ← tx_get; tx_put (Build_EDB (ed_market db) (ed_wallets db) (ed_plans db) (ed_plan_wallets db) (ed_plan_items db) t (ed_runs db)).

(** ** Constraints *)
Definition plan_check (r : plan_row) : bool :=
  let i := pl_intent r in
  let worker := negb (bool_decide (pl_worker_id r = EmptyString)) in
  text_between 1 80 (in_combination_name i) && (0 <? in_combination_revision i) && (0 <? in_wallet_selection_revision i)
  && text_between 0 100 (pl_build_stage r) && text_between 0 100 (pl_failure_code r) && text_between 0 200 (pl_worker_id r)
  && (0 <? in_wallet_count i) && (0 <? in_item_count i) && (0 <? in_total_step_count i)
  && (0 <=? pl_completed_step_count r) && (0 <=? pl_ready_step_count r) && (0 <=? pl_skipped_step_count r)
  && (pl_completed_step_count r <=? in_total_step_count i)
  && (pl_ready_step_count r + pl_skipped_step_count r <=? pl_completed_step_count r)
  && (in_created_at i <=? pl_retention_until r)
  && bool_decide (is_none (pl_locked_at r) = negb worker) && bool_decide (is_none (pl_lease_expires_at r) = negb worker)
  && (bool_decide (pl_state r = ExecutionPlanStateBuilding) || negb worker)
  && bool_decide (negb (bool_decide (pl_failure_code r = EmptyString)) = bool_decide (pl_state r = ExecutionPlanStateFailed))
  && match pl_state r with
     | ExecutionPlanStateBuilding => is_none (pl_completed_at r) && is_none (pl_expires_at r)
     | ExecutionPlanStateReady =>
         negb (is_none (pl_completed_at r)) && negb (is_none (pl_expires_at r))
         && (pl_completed_step_count r =? in_total_step_count i)
         && (pl_ready_step_count r + pl_skipped_step_count r =? in_total_step_count i)
     | ExecutionPlanStateFailed => negb (is_none (pl_completed_at r))
     end.
Definition plan_wallet_check (r : plan_wallet_row) : bool :=
  let i := pwr_input r in let s := pwr_snapshot r in
  (0 <? pwr_ordinal r) && (0 <? pwi_wallet_id i) && text_between 1 64 (pwi_address i) && text_between 0 50 (pwi_remark i)
  && text_between 0 40 (pwi_avatar_kind i) && text_between 0 100 (pwi_avatar_preset_id i) && text_between 0 4096 (pwi_avatar_url i)
  && text_between 0 100 (sn_connection_state s) && text_between 0 100 (sn_connection_warning_code s) && (0 <=? sn_credential_version s)
  && (0 <=? bal_decimals (sn_sol s)) && (0 <=? bal_observed_slot (sn_sol s)) && text_between 0 100 (bal_availability (sn_sol s))
  && text_between 0 100 (bal_error_code (sn_sol s)) && text_between 0 64 (sn_usdc_mint s) && (0 <=? bal_decimals (sn_usdc s))
  && (0 <=? bal_observed_slot (sn_usdc s)) && text_between 0 100 (bal_availability (sn_usdc s))
  && text_between 0 100 (bal_error_code (sn_usdc s)) && (0 <=? sn_usdc_token_account_count s) && text_between 0 100 (sn_status s)
  && text_between 0 100 (sn_reason_code s).
(** Primary key; one row per wallet and per address of a plan. *)
Definition plan_wallet_conflict (a b : plan_wallet_row) : bool :=
  (pwr_plan_id a =? pwr_plan_id b)%N
  && ((pwr_ordinal a =? pwr_ordinal b) || (pwi_wallet_id (pwr_input a) =? pwi_wallet_id (pwr_input b))
      || bool_decide (pwi_address (pwr_input a) = pwi_address (pwr_input b))).
Definition plan_item_check (r : plan_item_row) : bool :=
  let i := pir_input r in let s := pir_snapshot r in
  (0 <? pir_ordinal r) && text_between 32 64 (mi_event_condition_id i) && text_between 1 500 (mi_event_title i)
  && text_between 0 2048 (mi_event_logo i) && text_between 32 64 (mi_market_condition_id i) && text_between 1 500 (mi_market_title i)
  && text_between 0 2048 (mi_market_logo i) && text_between 1 100 (mi_outcome_label i) && text_between 0 100 (is_backend s)
  && text_between 0 100 (is_state s) && text_between 0 100 (is_reason_code s).
(** Primary key; one row per market of a plan. *)
Definition plan_item_conflict (a b : plan_item_row) : bool :=
  (pir_plan_id a =? pir_plan_id b)%N
  && ((pir_ordinal a =? pir_ordinal b) || bool_decide (mi_market_condition_id (pir_input a) = mi_market_condition_id (pir_input b))).
Definition plan_step_check (r : plan_step_row) : bool :=
  let s := psr_step r in
  (0 <? sp_ordinal s) && (0 <? sp_wallet_ordinal s) && (0 <? sp_item_ordinal s)
  && (bool_decide (sp_disposition s = ExecutionPlanStepDispositionReady) || bool_decide (sp_disposition s = ExecutionPlanStepDispositionSkipped))
  && text_between 0 100 (sp_reason_code s).
(** Primary key; one step per wallet and item of a plan. *)
Definition plan_step_conflict (a b : plan_step_row) : bool :=
  (psr_plan_id a =? psr_plan_id b)%N
  && ((sp_ordinal (psr_step a) =? sp_ordinal (psr_step b))
      || (sp_wallet_ordinal (psr_step a) =? sp_wallet_ordinal (psr_step b)) && (sp_item_ordinal (psr_step a) =? sp_item_ordinal (psr_step b))).
Definition no_balance : balance_snapshot := {|
  bal_atomic_amount := ""; bal_amount := ""; bal_decimals := 0; bal_observed_slot := 0; bal_availability := ""; bal_error_code := "" |}.
(** The defaults of the columns a worker fills in. *)
Definition no_wallet_snapshot : wallet_snapshot := {|
  sn_connection_state := ""; sn_connection_warning_code := ""; sn_credential_version := 0; sn_sol := no_balance; sn_usdc_mint := "";
  sn_usdc := no_balance; sn_usdc_token_account_count := 0; sn_status := ""; sn_reason_code := "" |}.
Definition no_estimate : ExecutionPlanEstimate := {|
  pe_average_price := ""; pe_total_shares := ""; pe_total_cost := ""; pe_best_ask := ""; pe_worst_fill_price := "";
  pe_is_fully_filled := false; pe_fee_amount := ""; pe_user_funds_needed := ""; pe_liquidation_price := "" |}.
Definition no_item_snapshot : item_snapshot := {|
  is_backend := ""; is_funds := ""; is_leverage := ""; is_state := ""; is_reason_code := ""; is_estimate := no_estimate |}.
Definition no_totals : plan_totals := {| tot_collateral := "0"; tot_opening_fee := "0"; tot_user_funds_needed := "0" |}.

(** The text parameters of the statements. *)
Definition wallet_input_texts (i : ExecutionPlanWalletInput) : list string :=
  [pwi_address i; pwi_remark i; pwi_avatar_kind i; pwi_avatar_preset_id i; pwi_avatar_url i].
Definition balance_texts (b : balance_snapshot) : list string :=
  [bal_atomic_amount b; bal_amount b; bal_availability b; bal_error_code b].
Definition wallet_snapshot_texts (s : wallet_snapshot) : list string :=
  [sn_connection_state s; sn_connection_warning_code s; sn_usdc_mint s; sn_status s; sn_reason_code s]
  ++ balance_texts (sn_sol s) ++ balance_texts (sn_usdc s).
Definition item_snapshot_texts (s : item_snapshot) : list string :=
  let e := is_estimate s in
  [is_backend s; is_funds s; is_leverage s; is_state s; is_reason_code s; pe_average_price e; pe_total_shares e; pe_total_cost e;
   pe_best_ask e; pe_worst_fill_price e; pe_fee_amount e; pe_user_funds_needed e; pe_liquidation_price e].
Definition step_texts (s : ExecutionPlanStep) : list string :=
  [sp_disposition s; sp_reason_code s; sp_projected_usdc_before s; sp_projected_usdc_after s].
Definition totals_texts (t : plan_totals) : list string := [tot_collateral t; tot_opening_fee t; tot_user_funds_needed t].

(** ** Queries *)
Definition not_null {A} (value : option A) : ep_tx A := tx_lift (of_option value (EPConstraint "not_null")).
Definition texts (values : list string) : ep_tx unit := ensure (forallb pg_accepts values) EPText.
Definition GetExecutionPlan_query (id owner : N) (db : EDB) : option plan_row :=
  sql_one (λ r, (pl_id r =? id)%N && (pl_owner r =? owner)%N) (ed_plans db).
Definition GetExecutionPlanForUpdate (id : N) (db : EDB) : option plan_row := sql_one (λ r, (pl_id r =? id)%N) (ed_plans db).
Definition ListExecutionPlanWallets (id : N) (db : EDB) : list plan_wallet_row :=
  sort_by (λ a b, pwr_ordinal a <=? pwr_ordinal b) (sql_many (λ r, (pwr_plan_id r =? id)%N) (ed_plan_wallets db)).
Definition ListExecutionPlanItems (id : N) (db : EDB) : list plan_item_row :=
  sort_by (λ a b, pir_ordinal a <=? pir_ordinal b) (sql_many (λ r, (pir_plan_id r =? id)%N) (ed_plan_items db)).
Definition plan_exists (id : N) (db : EDB) : bool := existsb (λ r, (pl_id r =? id)%N) (ed_plans db).
Definition plan_ready (id : N) (db : EDB) : bool :=
  existsb (λ r, (pl_id r =? id)%N && bool_decide (pl_state r = ExecutionPlanStateReady)) (ed_plans db).
Definition CreateExecutionPlan_query (id owner combination : N) (name : string) (revision selection wallets items steps : Z)
    (now retention : option Z) : ep_tx plan_row :=
  db ← tx_get;
  _ ← texts [name];
  now ← not_null now;
  retention ← not_null retention;
  let row := {|
    pl_intent := {| in_id := id; in_owner_account_id := owner; in_combination_id := combination; in_combination_name := name;
      in_combination_revision := revision; in_wallet_selection_revision := selection; in_wallet_count := wallets; in_item_count := items;
      in_total_step_count := steps; in_requested_at := now; in_created_at := now |};
    pl_state := ExecutionPlanStateBuilding; pl_build_stage := "QUEUED"; pl_failure_code := ""; pl_worker_id := ""; pl_locked_at := None;
    pl_lease_expires_at := None; pl_completed_step_count := 0; pl_ready_step_count := 0; pl_skipped_step_count := 0;
    pl_totals := no_totals; pl_completed_at := None; pl_expires_at := None; pl_retention_until := retention; pl_updated_at := now |} in
  _ ← ensure (plan_check row) (EPConstraint "worm_execution_plans_check");
  _ ← ensure (negb (plan_exists id db)) (EPConstraint "worm_execution_plans_pkey");
  _ ← put_plans (ed_plans db ++ [row]);
  mret row.
Definition CreateExecutionPlanWallet (plan : N) (ordinal : Z) (input : ExecutionPlanWalletInput) : ep_tx unit :=
  db ← tx_get;
  _ ← texts (wallet_input_texts input);
  t ← tx_lift (sql_insert plan_wallet_check plan_wallet_conflict (EPConstraint "worm_execution_plan_wallets")
        [{| pwr_plan_id := plan; pwr_ordinal := ordinal; pwr_input := input; pwr_connected_at := None; pwr_snapshot := no_wallet_snapshot |}]
        (ed_plan_wallets db));
  _ ← ensure (plan_exists plan db) (EPConstraint "worm_execution_plan_wallets_plan_id_fkey");
  put_plan_wallets t.
Definition CreateExecutionPlanItem (plan : N) (ordinal : Z) (input : MarketCombinationItemInput) : ep_tx unit :=
  db ← tx_get;
  _ ← texts (item_texts input);
  t ← tx_lift (sql_insert plan_item_check plan_item_conflict (EPConstraint "worm_execution_plan_items")
        [{| pir_plan_id := plan; pir_ordinal := ordinal; pir_input := input; pir_snapshot := no_item_snapshot |}] (ed_plan_items db));
  _ ← ensure (plan_exists plan db) (EPConstraint "worm_execution_plan_items_plan_id_fkey");
  put_plan_items t.
(** [UPDATE worm_execution_plans ... RETURNING] of the row that matches. *)
Definition update_plan (p : plan_row → bool) (f : Z → plan_row → plan_row) (now : option Z) : ep_tx plan_row :=
  db ← tx_get;
  match sql_one p (ed_plans db) with
  | None => tx_fail EPNoRows
  | Some old =>
      now ← not_null now;
      _ ← ensure (plan_check (f now old)) (EPConstraint "worm_execution_plans_check");
      _ ← put_plans (sql_update p (f now) (ed_plans db));
      mret (f now old)
  end.
Definition leased (r : plan_row) (stage worker : string) (locked lease : option Z) (completed updated : Z) : plan_row := {|
  pl_intent := pl_intent r; pl_state := pl_state r; pl_build_stage := stage; pl_failure_code := pl_failure_code r; pl_worker_id := worker;
  pl_locked_at := locked; pl_lease_expires_at := lease; pl_completed_step_count := completed;
  pl_ready_step_count := pl_ready_step_count r; pl_skipped_step_count := pl_skipped_step_count r; pl_totals := pl_totals r;
  pl_completed_at := pl_completed_at r; pl_expires_at := pl_expires_at r; pl_retention_until := pl_retention_until r; pl_updated_at := updated |}.
(** [BUILDING] with no lease, or one that ended at [now]; [ORDER BY requested_at, id]. *)
Definition claimable (now : option Z) (r : plan_row) : bool :=
  bool_decide (pl_state r = ExecutionPlanStateBuilding)
  && match pl_lease_expires_at r, now with None, _ => true | Some e, Some n => e <=? n | Some _, None => false end.
Definition requested_first (a b : plan_row) : bool :=
  lexicographic [(in_requested_at (pl_intent a), in_requested_at (pl_intent b)); (Z.of_N (pl_id a), Z.of_N (pl_id b))].
(** [busy]: the rows other transactions have locked ([SKIP LOCKED]). *)
Definition ClaimNextExecutionPlan (busy : N → bool) (now : option Z) (worker : string) (lease : option Z) : ep_tx plan_row :=
  db ← tx_get;
  _ ← texts [worker];
  match head (sort_by requested_first (sql_many (λ r, claimable now r && negb (busy (pl_id r))) (ed_plans db))) with
  | None => tx_fail EPNoRows
  | Some candidate =>
      update_plan (λ r, (pl_id r =? pl_id candidate)%N)
        (λ n r, leased r "CLAIMED" worker (Some n) lease (pl_completed_step_count r) n) now
  end.
Definition holds_lease (id : N) (worker : string) (now : option Z) (r : plan_row) : bool :=
  (pl_id r =? id)%N && bool_decide (pl_state r = ExecutionPlanStateBuilding) && bool_decide (pl_worker_id r = worker)
  && match now with Some n => later (pl_lease_expires_at r) n | None => false end.
Definition UpdateExecutionPlanBuildProgress_query (id : N) (worker stage : string) (completed : Z) (lease now : option Z) : ep_tx plan_row :=
  _ ← texts [stage; worker];
  update_plan (holds_lease id worker now) (λ n r, leased r stage worker (pl_locked_at r) lease completed n) now.
Definition finished (r : plan_row) (state : ExecutionPlanState) (failure : string) (completed ready skipped : Z) (totals : plan_totals)
    (at_ expires : option Z) (retention updated : Z) : plan_row := {|
  pl_intent := pl_intent r; pl_state := state; pl_build_stage := ""; pl_failure_code := failure; pl_worker_id := ""; pl_locked_at := None;
  pl_lease_expires_at := None; pl_completed_step_count := completed; pl_ready_step_count := ready; pl_skipped_step_count := skipped;
  pl_totals := totals; pl_completed_at := at_; pl_expires_at := expires; pl_retention_until := retention; pl_updated_at := updated |}.
Definition MarkExecutionPlanReady_query (id : N) (worker : string) (completed ready skipped : Z) (totals : plan_totals)
    (at_ expires retention now : option Z) : ep_tx plan_row :=
  _ ← texts (worker :: totals_texts totals);
  retention ← not_null retention;
  update_plan (holds_lease id worker now)
    (λ n r, finished r ExecutionPlanStateReady "" completed ready skipped totals at_ expires retention n) now.
Definition MarkExecutionPlanFailed_query (id : N) (worker failure : string) (at_ retention now : option Z) : ep_tx plan_row :=
  _ ← texts [failure; worker];
  retention ← not_null retention;
  update_plan (holds_lease id worker now)
    (λ n r, finished r ExecutionPlanStateFailed failure (pl_completed_step_count r) (pl_ready_step_count r) (pl_skipped_step_count r)
              (pl_totals r) at_ (pl_expires_at r) retention n) now.
Definition observed_wallet (connected : option Z) (s : wallet_snapshot) (r : plan_wallet_row) : plan_wallet_row := {|
  pwr_plan_id := pwr_plan_id r; pwr_ordinal := pwr_ordinal r; pwr_input := pwr_input r; pwr_connected_at := connected; pwr_snapshot := s |}.
(** [:exec]: no error when no row matches. *)
Definition UpdateExecutionPlanWalletObservation (plan : N) (ordinal : Z) (connected : option Z) (s : wallet_snapshot) : ep_tx unit :=
  db ← tx_get;
  _ ← texts (wallet_snapshot_texts s);
  let p r := (pwr_plan_id r =? plan)%N && (pwr_ordinal r =? ordinal) in
  _ ← ensure (forallb plan_wallet_check (observed_wallet connected s <$> sql_many p (ed_plan_wallets db)))
        (EPConstraint "worm_execution_plan_wallets_check");
  put_plan_wallets (sql_update p (observed_wallet connected s) (ed_plan_wallets db)).
Definition observed_item (s : item_snapshot) (r : plan_item_row) : plan_item_row := {|
  pir_plan_id := pir_plan_id r; pir_ordinal := pir_ordinal r; pir_input := pir_input r; pir_snapshot := s |}.
Definition UpdateExecutionPlanItemObservation (plan : N) (ordinal : Z) (s : item_snapshot) : ep_tx unit :=
  db ← tx_get;
  _ ← texts (item_snapshot_texts s);
  let p r := (pir_plan_id r =? plan)%N && (pir_ordinal r =? ordinal) in
  _ ← ensure (forallb plan_item_check (observed_item s <$> sql_many p (ed_plan_items db))) (EPConstraint "worm_execution_plan_items_check");
  put_plan_items (sql_update p (observed_item s) (ed_plan_items db)).
Definition DeleteExecutionPlanSteps (plan : N) : ep_tx unit :=
  db ← tx_get; put_plan_steps (sql_delete (λ r, (psr_plan_id r =? plan)%N) (ed_plan_steps db)).
(** [COPY worm_execution_plan_steps]: the rows are checked, then the foreign keys. *)
Definition copy_plan_steps (rows : list plan_step_row) : ep_tx Z :=
  db ← tx_get;
  _ ← texts (rows ≫= λ r, step_texts (psr_step r));
  t ← tx_lift (sql_insert plan_step_check plan_step_conflict (EPConstraint "worm_execution_plan_steps") rows (ed_plan_steps db));
  _ ← ensure (forallb (λ r, plan_exists (psr_plan_id r) db
        && existsb (λ w, (pwr_plan_id w =? psr_plan_id r)%N && (pwr_ordinal w =? sp_wallet_ordinal (psr_step r))) (ed_plan_wallets db)
        && existsb (λ i, (pir_plan_id i =? psr_plan_id r)%N && (pir_ordinal i =? sp_item_ordinal (psr_step r))) (ed_plan_items db)) rows)
        (EPConstraint "worm_execution_plan_steps_fk");
  _ ← put_plan_steps t;
  mret (Z.of_nat (length rows)).
Definition plan_steps (id : N) (db : EDB) : list plan_step_row := sql_many (λ r, (psr_plan_id r =? id)%N) (ed_plan_steps db).
Definition CountExecutionPlanSteps (id : N) (db : EDB) : Z :=
  Z.of_nat (length (if plan_ready id db then plan_steps id db else [])).
Definition step_before (a b : plan_step_row) : bool := sp_ordinal (psr_step a) <=? sp_ordinal (psr_step b).
Definition ListExecutionPlanSteps_query (id : N) (size offset : Z) (db : EDB) : list plan_step_row :=
  take (Z.to_nat size)
    (sort_by step_before (if plan_ready id db then sql_many (λ r, offset <? sp_ordinal (psr_step r)) (plan_steps id db) else [])).
(** [COALESCE(NULLIF(reason_code, ''), disposition)] *)
Definition reason_key (s : ExecutionPlanStep) : string :=
  if bool_decide (sp_reason_code s = EmptyString) then sp_disposition s else sp_reason_code s.
Definition ListExecutionPlanReasonCounts `{!PgText} (id : N) (db : EDB) : list ExecutionPlanReasonCount :=
  let keys := (λ r, reason_key (psr_step r)) <$> plan_steps id db in
  (λ k, {| prc_reason_code := k; prc_count := Z.of_nat (length (filter (λ k', k' = k) keys)) |}) <$> sort_by text_le (remove_dups keys).
(** [ORDER BY retention_until, id LIMIT ... FOR UPDATE SKIP LOCKED]; the wallets, items
    and steps go with their plan ([ON DELETE CASCADE]). *)
Definition retained_first (a b : plan_row) : bool :=
  lexicographic [(pl_retention_until a, pl_retention_until b); (Z.of_N (pl_id a), Z.of_N (pl_id b))].
Definition expired_plan (now : option Z) (db : EDB) (r : plan_row) : bool :=
  negb (bool_decide (pl_state r = ExecutionPlanStateBuilding))
  && match now with Some n => pl_retention_until r <=? n | None => false end && negb (existsb (N.eqb (pl_id r)) (ed_runs db)).
Definition DeleteExpiredExecutionPlans_query (busy : N → bool) (now : option Z) (limit : Z) : ep_tx (list N) :=
  db ← tx_get;
  let gone := pl_id <$> take (Z.to_nat limit)
    (sort_by retained_first (sql_many (λ r, expired_plan now db r && negb (busy (pl_id r))) (ed_plans db))) in
  let among id := existsb (N.eqb id) gone in
  _ ← put_plans (sql_delete (λ r, among (pl_id r)) (ed_plans db));
  _ ← put_plan_wallets (sql_delete (λ r, among (pwr_plan_id r)) (ed_plan_wallets db));
  _ ← put_plan_items (sql_delete (λ r, among (pir_plan_id r)) (ed_plan_items db));
  _ ← put_plan_steps (sql_delete (λ r, among (psr_plan_id r)) (ed_plan_steps db));
  mret gone.
(** The references that are not items of the owner's selection at [revision]. *)
Definition CountInvalidSelectedWalletReferencesAtRevision (owner : N) (revision : Z) (walletIDs : list Z) (addresses : list string)
    (db : WDB) : Z :=
  let requested := if Nat.eqb (length walletIDs) (length addresses) then zip walletIDs addresses else [] in
  let selected := existsb (λ r, (se_owner_account_id r =? owner)%N && (se_revision r =? revision)) (sl_selections (w_selections db)) in
  Z.of_nat (length (filter (λ q, Is_true (negb (selected && existsb (is_item owner q.1 q.2) (sl_items (w_selections db))))) requested)).
