(* ===== verification/PlanStore.v ===== *)
(** * Execution plans: the store

    The operations of [internal/wormtrading/store/execution_plans.go].  Messages of
    [ErrInvalidExecutionPlan] are kept without the position they are formatted with. *)

From S2P Require Import Prelude Sql CashOutTypes CashOutStore ConnectionTypes ConnectionStore Selection Combination Decimal Plan.
From stdpp Require Import base tactics option list list_numbers sorting strings gmap.
From Stdlib Require Import ZArith Lia Ascii.
#[local] Open Scope Z_scope.

Definition executionPlanReadyTTL : Z := 15 * 60 * 1000000000.
Definition executionPlanRetention : Z := 7 * 24 * 3600 * 1000000000.
Definition executionPlanMinAddressLength : nat := 32.
Definition executionPlanSOLDecimals : Z := 9.
Definition executionPlanUSDCDecimals : Z := 6.
Definition maxExecutionPlanStepPageSize : Z := 100.
Definition maxExecutionPlanCleanupLimit : Z := 100.
Definition maxExecutionPlanWorkerIDLength : nat := 200.
Definition maxExecutionPlanCodeLength : nat := 100.
Definition availabilityAvailable : string := "AVAILABLE".
Definition availabilityUnavailable : string := "UNAVAILABLE".
Definition connected_text : string := "CONNECTED".
(** [int64(v)] of a [uint64], and back. *)
Definition int64_of_uint64 (v : Z) : Z := (v + 2 ^ 63) mod 2 ^ 64 - 2 ^ 63.
Definition uint64_of_int64 (v : Z) : Z := v mod 2 ^ 64.

(** ** Validation *)
Definition invalidExecutionPlan (what : string) : EPError := ErrInvalidExecutionPlan what.
Definition normalizeExecutionPlanWorkerID (value : string) : result EPError string :=
  let value := trim_space value in
  _ ← require (negb (bool_decide (value = EmptyString)) && (String.length value <=? maxExecutionPlanWorkerIDLength)%nat)
        (invalidExecutionPlan "worker ID is invalid");
  Ok value.
Definition normalizeExecutionPlanCode (value : string) : result EPError string :=
  let value := trim_space value in
  _ ← require (String.length value <=? maxExecutionPlanCodeLength)%nat (invalidExecutionPlan "code is invalid");
  Ok value.
Definition validExecutionPlanDecimal (value : string) : bool :=
  if bool_decide (value = EmptyString) || negb (bool_decide (value = trim_space value)) then false
  else
    let '(whole, fraction) := split_dot value in
    if bool_decide (whole = EmptyString) || bool_decide (fraction = Some EmptyString) then false
    else if (1 <? String.length whole)%nat && match whole with String a _ => (N_of_ascii a =? 48)%N | EmptyString => false end then false
    else all_digits whole && all_digits (default EmptyString fraction).
Definition validateExecutionPlanTotals (values : list string) : result EPError unit :=
  require (forallb validExecutionPlanDecimal values) (invalidExecutionPlan "execution plan total is not a non-negative decimal").
Definition executionPlanUnsignedInteger (value : string) : bool := negb (bool_decide (value = EmptyString)) && all_digits value.
Definition validateExecutionPlanBalanceSnapshot (b : balance_snapshot) (expectedDecimals tokenAccountCount : Z) : result EPError unit :=
  _ ← require ((bal_decimals b =? expectedDecimals) && (0 <=? tokenAccountCount)) (invalidExecutionPlan "decimal metadata is inconsistent");
  if bool_decide (bal_availability b = availabilityAvailable) then
    require (bool_decide (bal_error_code b = EmptyString) && negb (bal_observed_slot b =? 0)
             && executionPlanUnsignedInteger (bal_atomic_amount b) && validExecutionPlanDecimal (bal_amount b))
      (invalidExecutionPlan "available balance fields are inconsistent")
  else if bool_decide (bal_availability b = availabilityUnavailable) then
    require (negb (bool_decide (bal_error_code b = EmptyString)) && (bal_observed_slot b =? 0) && bool_decide (bal_atomic_amount b = EmptyString)
             && bool_decide (bal_amount b = EmptyString) && (tokenAccountCount =? 0))
      (invalidExecutionPlan "unavailable balance fields are inconsistent")
  else Err (invalidExecutionPlan "availability is invalid").
Definition validConnectionState (value : string) : bool :=
  bool_decide (value ∈ ["NOT_CONNECTED"; "CONNECTING"; connected_text; "RECONNECT_REQUIRED"; "DISCONNECTING"; "REVOCATION_REQUIRED"]).
Fixpoint valid_codes (codes : list string) : result EPError unit :=
  match codes with [] => Ok tt | code :: codes' => _ ← normalizeExecutionPlanCode code; valid_codes codes' end.
Definition validateExecutionPlanWalletObservation (o : ExecutionPlanWalletObservation) : result EPError unit :=
  let s := wo_snapshot o in
  _ ← require (validConnectionState (sn_connection_state s) && (0 <=? sn_credential_version s) && (0 <=? bal_decimals (sn_sol s))
               && (0 <=? bal_decimals (sn_usdc s)) && (0 <=? sn_usdc_token_account_count s)
               && (bal_observed_slot (sn_sol s) <=? max_int64) && (bal_observed_slot (sn_usdc s) <=? max_int64))
        (invalidExecutionPlan "wallet observation is invalid");
  _ ← valid_codes [sn_connection_warning_code s; bal_availability (sn_sol s); bal_error_code (sn_sol s); bal_availability (sn_usdc s);
                   bal_error_code (sn_usdc s); sn_status s; sn_reason_code s];
  _ ← require ((String.length (sn_usdc_mint s) <=? maxWalletAddressLength)%nat && bool_decide (sn_usdc_mint s = trim_space (sn_usdc_mint s)))
        (invalidExecutionPlan "USDC mint is invalid");
  _ ← require (bool_decide (sn_connection_state s = connected_text) && (0 <? sn_credential_version s) && negb (wo_connected_at o =? 0))
        (invalidExecutionPlan "wallet connection observation is invalid");
  _ ← validateExecutionPlanBalanceSnapshot (sn_sol s) executionPlanSOLDecimals 0;
  _ ← validateExecutionPlanBalanceSnapshot (sn_usdc s) executionPlanUSDCDecimals (sn_usdc_token_account_count s);
  _ ← require (bool_decide (bal_availability (sn_usdc s) = availabilityAvailable)
               && (executionPlanMinAddressLength <=? String.length (sn_usdc_mint s))%nat) (invalidExecutionPlan "USDC observation is unavailable");
  let expectedStatus := if bool_decide (bal_availability (sn_sol s) = availabilityAvailable) then "COMPLETE" else "PARTIAL" in
  require (bool_decide (sn_status s = expectedStatus)) (invalidExecutionPlan "wallet balance status is inconsistent").
Definition optional_decimal (value : string) : bool := bool_decide (value = EmptyString) || validExecutionPlanDecimal value.
Definition validateExecutionPlanItemObservation (o : ExecutionPlanItemObservation) : result EPError unit :=
  let s := io_snapshot o in let e := is_estimate s in
  _ ← valid_codes [is_backend s; is_state s; is_reason_code s];
  _ ← require (negb (bool_decide (is_backend s = EmptyString)) && negb (bool_decide (is_state s = EmptyString))
               && validExecutionPlanDecimal (is_funds s) && validExecutionPlanDecimal (is_leverage s))
        (invalidExecutionPlan "market observation is invalid");
  _ ← require (forallb optional_decimal [pe_average_price e; pe_total_shares e; pe_total_cost e; pe_best_ask e; pe_worst_fill_price e;
                                         pe_fee_amount e; pe_user_funds_needed e]) (invalidExecutionPlan "estimate decimal is invalid");
  require (optional_decimal (pe_liquidation_price e)) (invalidExecutionPlan "estimate liquidation price is invalid").
Definition validateExecutionPlanReadyRequest (plan : plan_row) (req : MarkExecutionPlanReadyRequest) : result EPError unit :=
  let i := pl_intent plan in let t := mr_totals req in
  _ ← require ((Z.of_nat (length (mr_wallets req)) =? in_wallet_count i) && (Z.of_nat (length (mr_items req)) =? in_item_count i)
               && (Z.of_nat (length (mr_steps req)) =? in_total_step_count i))
        (invalidExecutionPlan "execution plan ready snapshot count does not match frozen plan");
  require (forallb (λ v, negb (bool_decide (v = EmptyString))) (totals_texts t)) (invalidExecutionPlan "execution plan totals are required").

(** ** Wallets of a request *)
Definition trim_wallet (w : ExecutionPlanWalletInput) : ExecutionPlanWalletInput := {|
  pwi_wallet_id := pwi_wallet_id w; pwi_address := trim_space (pwi_address w); pwi_remark := trim_space (pwi_remark w);
  pwi_avatar_kind := trim_space (pwi_avatar_kind w); pwi_avatar_preset_id := trim_space (pwi_avatar_preset_id w);
  pwi_avatar_url := trim_space (pwi_avatar_url w) |}.
Fixpoint normalize_plan_wallets (values : list ExecutionPlanWalletInput) (ids : gset Z) (addresses : gset string) :
    result EPError (list ExecutionPlanWalletInput) :=
  match values with
  | [] => Ok []
  | value :: values' =>
      let value := trim_wallet value in
      _ ← (match validateWalletReference (pwi_wallet_id value) (pwi_address value) with
           | Ok _ => Ok tt | Err _ => Err (invalidExecutionPlan "wallet reference") end);
      _ ← require ((rune_count (pwi_remark value) <=? 50) && (rune_count (pwi_avatar_kind value) <=? 40)
                   && (rune_count (pwi_avatar_preset_id value) <=? 100) && (rune_count (pwi_avatar_url value) <=? 4096))
            (invalidExecutionPlan "wallet presentation snapshot is invalid");
      _ ← require (negb (bool_decide (pwi_wallet_id value ∈ ids))) (invalidExecutionPlan "wallet ID is duplicated");
      _ ← require (negb (bool_decide (pwi_address value ∈ addresses))) (invalidExecutionPlan "wallet address is duplicated");
      rest ← normalize_plan_wallets values' ({[pwi_wallet_id value]} ∪ ids) ({[pwi_address value]} ∪ addresses);
      Ok (value :: rest)
  end.
Definition normalizeExecutionPlanWallets (values : list ExecutionPlanWalletInput) : result EPError (list ExecutionPlanWalletInput) :=
  _ ← require (negb (Nat.eqb (length values) 0) && (Z.of_nat (length values) <=? MaximumWalletSelectionItems))
        (invalidExecutionPlan "execution plan must contain between 1 and 20 Wallets");
  normalize_plan_wallets values ∅ ∅.
Definition executionPlanWalletReferences (values : list ExecutionPlanWalletInput) : list Z * list string :=
  (pwi_wallet_id <$> values, pwi_address <$> values).
Definition executionPlanStoredWalletReferences (values : list plan_wallet_row) : list Z * list string :=
  ((λ r, pwi_wallet_id (pwr_input r)) <$> values, (λ r, pwi_address (pwr_input r)) <$> values).

Section Store.
Context {UL : UuidLib} {PT : PgText}.

Definition plan_uuid (what value : string) : result EPError (N * string) :=
  match marketCombinationUUID value with Ok r => Ok r | Err _ => Err (invalidExecutionPlan what) end.

(** ** Mapping *)
Definition mapExecutionPlan (row : plan_row) : ExecutionPlan :=
  let i := pl_intent row in {|
  ep_id := uuidValue (Some (in_id i)); ep_owner_account_id := uuidValue (Some (in_owner_account_id i));
  ep_combination_id := uuidValue (Some (in_combination_id i)); ep_combination_name := in_combination_name i;
  ep_combination_revision := in_combination_revision i; ep_wallet_selection_revision := in_wallet_selection_revision i;
  ep_state := pl_state row; ep_build_stage := pl_build_stage row; ep_failure_code := pl_failure_code row; ep_usability_code := "";
  ep_worker_id := pl_worker_id row; ep_locked_at := timestampValue (pl_locked_at row);
  ep_lease_expires_at := timestampValue (pl_lease_expires_at row); ep_wallet_count := in_wallet_count i; ep_item_count := in_item_count i;
  ep_total_step_count := in_total_step_count i; ep_completed_step_count := pl_completed_step_count row;
  ep_ready_step_count := pl_ready_step_count row; ep_skipped_step_count := pl_skipped_step_count row; ep_totals := pl_totals row;
  ep_requested_at := timestampValue (Some (in_requested_at i)); ep_completed_at := timestampValue (pl_completed_at row);
  ep_expires_at := timestampValue (pl_expires_at row); ep_retention_until := timestampValue (Some (pl_retention_until row));
  ep_created_at := timestampValue (Some (in_created_at i)); ep_updated_at := timestampValue (Some (pl_updated_at row));
  ep_wallets := []; ep_items := []; ep_reason_counts := [] |}.
Definition map_balance (b : balance_snapshot) : balance_snapshot := {|
  bal_atomic_amount := bal_atomic_amount b; bal_amount := bal_amount b; bal_decimals := bal_decimals b;
  bal_observed_slot := uint64_of_int64 (bal_observed_slot b); bal_availability := bal_availability b; bal_error_code := bal_error_code b |}.
Definition map_snapshot (f : balance_snapshot → balance_snapshot) (s : wallet_snapshot) : wallet_snapshot := {|
  sn_connection_state := sn_connection_state s; sn_connection_warning_code := sn_connection_warning_code s;
  sn_credential_version := sn_credential_version s; sn_sol := f (sn_sol s); sn_usdc_mint := sn_usdc_mint s; sn_usdc := f (sn_usdc s);
  sn_usdc_token_account_count := sn_usdc_token_account_count s; sn_status := sn_status s; sn_reason_code := sn_reason_code s |}.
Definition mapExecutionPlanWallet (row : plan_wallet_row) : ExecutionPlanWallet := {|
  pw_ordinal := pwr_ordinal row; pw_input := pwr_input row; pw_connected_at := timestampValue (pwr_connected_at row);
  pw_snapshot := map_snapshot map_balance (pwr_snapshot row) |}.
Definition mapExecutionPlanItem (row : plan_item_row) : ExecutionPlanItem := {|
  pi_ordinal := pir_ordinal row; pi_input := pir_input row; pi_snapshot := pir_snapshot row |}.
Definition mapExecutionPlanStep (row : plan_step_row) : ExecutionPlanStep := psr_step row.

(** ** Loading *)
(** The reads of [executionPlanUsability] that may fail. *)
Inductive usability_read := ReadCombination | ReadWallets | ReadSelection.
Definition executionPlanUsability (failed : option usability_read) (row : plan_row) (now : Z) (db : EDB) : string :=
  let i := pl_intent row in
  let expiresAt := timestampValue (pl_expires_at row) in
  if negb (expiresAt =? 0) && negb (now <? expiresAt) then ExecutionPlanUsabilityExpired
  else if pl_ready_step_count row =? 0 then ExecutionPlanUsabilityNoActionableSteps
  else match failed with
  | Some ReadCombination => "COMBINATION_UNAVAILABLE"
  | _ =>
  match GetMarketCombination_query (in_combination_id i) (in_owner_account_id i) (ed_market db) with
  | None => ExecutionPlanUsabilityCombinationDeleted
  | Some combination =>
  if negb (cr_revision combination =? in_combination_revision i) then ExecutionPlanUsabilityCombinationChanged
  else match failed with
  | Some _ => "WALLET_SELECTION_UNAVAILABLE"
  | None =>
      let '(walletIDs, addresses) := executionPlanStoredWalletReferences (ListExecutionPlanWallets (in_id i) db) in
      if CountInvalidSelectedWalletReferencesAtRevision (in_owner_account_id i) (in_wallet_selection_revision i) walletIDs addresses
           (ed_wallets db) =? 0 then ""
      else ExecutionPlanUsabilityWalletSelectionChanged
  end end end.
Definition with_details (p : ExecutionPlan) (wallets : list ExecutionPlanWallet) (items : list ExecutionPlanItem)
    (reasons : list ExecutionPlanReasonCount) (usability : string) : ExecutionPlan := {|
  ep_id := ep_id p; ep_owner_account_id := ep_owner_account_id p; ep_combination_id := ep_combination_id p;
  ep_combination_name := ep_combination_name p; ep_combination_revision := ep_combination_revision p;
  ep_wallet_selection_revision := ep_wallet_selection_revision p; ep_state := ep_state p; ep_build_stage := ep_build_stage p;
  ep_failure_code := ep_failure_code p; ep_usability_code := usability; ep_worker_id := ep_worker_id p; ep_locked_at := ep_locked_at p;
  ep_lease_expires_at := ep_lease_expires_at p; ep_wallet_count := ep_wallet_count p; ep_item_count := ep_item_count p;
  ep_total_step_count := ep_total_step_count p; ep_completed_step_count := ep_completed_step_count p;
  ep_ready_step_count := ep_ready_step_count p; ep_skipped_step_count := ep_skipped_step_count p; ep_totals := ep_totals p;
  ep_requested_at := ep_requested_at p; ep_completed_at := ep_completed_at p; ep_expires_at := ep_expires_at p;
  ep_retention_until := ep_retention_until p; ep_created_at := ep_created_at p; ep_updated_at := ep_updated_at p;
  ep_wallets := wallets; ep_items := items; ep_reason_counts := reasons |}.
(** A read that fails inside a transaction makes its commit fail, so nothing is loaded then. *)
Definition loadExecutionPlan (clock : Z) (row : plan_row) (now : Z) (db : EDB) : result EPError ExecutionPlan :=
  let wallets := mapExecutionPlanWallet <$> ListExecutionPlanWallets (pl_id row) db in
  let items := mapExecutionPlanItem <$> ListExecutionPlanItems (pl_id row) db in
  let plan := mapExecutionPlan row in
  if bool_decide (pl_state row = ExecutionPlanStateReady) then
    let reasons := ListExecutionPlanReasonCounts (pl_id row) db in
    _ ← require (forallb (λ c, negb (bool_decide (prc_reason_code c = EmptyString)) && (0 <? prc_count c)) reasons) EPReasonCount;
    Ok (with_details plan wallets items reasons (executionPlanUsability None row (canonicalNow clock now) db))
  else Ok (with_details plan wallets items [] "").
Definition load_plan (clock : Z) (row : plan_row) (now : Z) : ep_tx ExecutionPlan := db ← tx_get; tx_lift (loadExecutionPlan clock row now db).
Definition set_plan_owner (owner : string) (p : ExecutionPlan) : ExecutionPlan := {|
  ep_id := ep_id p; ep_owner_account_id := owner; ep_combination_id := ep_combination_id p;
  ep_combination_name := ep_combination_name p; ep_combination_revision := ep_combination_revision p;
  ep_wallet_selection_revision := ep_wallet_selection_revision p; ep_state := ep_state p; ep_build_stage := ep_build_stage p;
  ep_failure_code := ep_failure_code p; ep_usability_code := ep_usability_code p; ep_worker_id := ep_worker_id p;
  ep_locked_at := ep_locked_at p; ep_lease_expires_at := ep_lease_expires_at p; ep_wallet_count := ep_wallet_count p;
  ep_item_count := ep_item_count p; ep_total_step_count := ep_total_step_count p; ep_completed_step_count := ep_completed_step_count p;
  ep_ready_step_count := ep_ready_step_count p; ep_skipped_step_count := ep_skipped_step_count p; ep_totals := ep_totals p;
  ep_requested_at := ep_requested_at p; ep_completed_at := ep_completed_at p; ep_expires_at := ep_expires_at p;
  ep_retention_until := ep_retention_until p; ep_created_at := ep_created_at p; ep_updated_at := ep_updated_at p;
  ep_wallets := ep_wallets p; ep_items := ep_items p; ep_reason_counts := ep_reason_counts p |}.
Definition on_no_rows {A} (m : ep_tx A) (e : EPError) : ep_tx A := λ s, match m s with Err EPNoRows => Err e | r => r end.

(** ** Creating *)
Fixpoint create_plan_wallets (plan : N) (index : Z) (wallets : list ExecutionPlanWalletInput) : ep_tx unit :=
  match wallets with
  | [] => mret tt
  | wallet :: wallets' =>
      _ ← CreateExecutionPlanWallet plan (wrap32 (index + 1)) wallet;
      create_plan_wallets plan (index + 1) wallets'
  end.
Fixpoint create_plan_items (plan : N) (items : list MarketCombinationItem) : ep_tx unit :=
  match items with
  | [] => mret tt
  | item :: items' =>
      _ ← CreateExecutionPlanItem plan (ci_ordinal item) (ci_input item);
      create_plan_items plan items'
  end.
(** The wallets of the plan are items of the owner's selection at the frozen revision. *)
Definition require_selected (owner : N) (revision : Z) (refs : list Z * list string) : ep_tx unit :=
  db ← tx_get;
  _ ← texts refs.2;
  ensure (CountInvalidSelectedWalletReferencesAtRevision owner revision refs.1 refs.2 (ed_wallets db) =? 0)
    ErrExecutionPlanWalletSelectionChanged.
(** [newID] is the result of [uuid.New], [clock] of [time.Now]. *)
Definition CreateExecutionPlan (newID : N) (clock : Z) (req : CreateExecutionPlanRequest) : ep_tx ExecutionPlan :=
  owner ← tx_lift (plan_uuid "owner account ID" (cpr_owner_account_id req));
  combination ← tx_lift (plan_uuid "market combination ID" (cpr_combination_id req));
  _ ← ensure (0 <? cpr_expected_combination_revision req) (invalidExecutionPlan "expected combination revision must be positive");
  _ ← ensure (0 <? cpr_wallet_selection_revision req) (invalidExecutionPlan "Wallet selection revision must be positive");
  wallets ← tx_lift (normalizeExecutionPlanWallets (cpr_wallets req));
  let now := canonicalNow clock (cpr_now req) in
  db ← tx_get;
  combinationRow ← tx_lift (of_option (GetMarketCombinationForUpdate combination.1 owner.1 (ed_market db)) ErrExecutionPlanCombinationNotFound);
  _ ← ensure (cr_revision combinationRow =? cpr_expected_combination_revision req) ErrExecutionPlanRevision;
  let source := loadMarketCombination combinationRow (ed_market db) in
  _ ← ensure (negb (Nat.eqb (length (mc_items source)) 0)) (invalidExecutionPlan "market combination has no items");
  _ ← require_selected owner.1 (cpr_wallet_selection_revision req) (executionPlanWalletReferences wallets);
  let walletCount := Z.of_nat (length wallets) in
  let itemCount := Z.of_nat (length (mc_items source)) in
  _ ← ensure (walletCount <=? max_int64 / itemCount) (invalidExecutionPlan "execution plan step count overflows");
  row ← CreateExecutionPlan_query newID owner.1 combination.1 (mc_name source) (mc_revision source) (cpr_wallet_selection_revision req)
          walletCount itemCount (walletCount * itemCount) (timestampParam now) (timestampParam (now + executionPlanRetention));
  _ ← create_plan_wallets newID 0 wallets;
  _ ← create_plan_items newID (mc_items source);
  plan ← load_plan clock row now;
  mret (set_plan_owner owner.2 plan).

(** ** Reading *)
Definition GetExecutionPlan (clock : Z) (ownerAccountID planID : string) (now : Z) (db : EDB) : result EPError ExecutionPlan :=
  owner ← plan_uuid "owner account ID" ownerAccountID;
  id ← plan_uuid "execution plan ID" planID;
  row ← of_option (GetExecutionPlan_query id.1 owner.1 db) ErrExecutionPlanNotFound;
  plan ← loadExecutionPlan clock row (canonicalNow clock now) db;
  Ok (set_plan_owner owner.2 plan).
Definition ListExecutionPlanSteps (ownerAccountID planID : string) (page pageSize : Z) (db : EDB) :
    result EPError (list ExecutionPlanStep * Z) :=
  owner ← plan_uuid "owner account ID" ownerAccountID;
  id ← plan_uuid "execution plan ID" planID;
  _ ← require (negb ((page <=? 0) || (pageSize <=? 0) || (maxExecutionPlanStepPageSize <? pageSize)))
        (invalidExecutionPlan "page must be positive and page size must be between 1 and 100");
  let offset := (page - 1) * pageSize in
  _ ← require (negb (offset <? 0)) (invalidExecutionPlan "page offset is invalid");
  _ ← of_option (GetExecutionPlan_query id.1 owner.1 db) ErrExecutionPlanNotFound;
  let total := CountExecutionPlanSteps id.1 db in
  Ok (mapExecutionPlanStep <$> ListExecutionPlanSteps_query id.1 pageSize offset db, total).

(** ** Building *)
(** [None]: no plan is claimable. *)
Definition ClaimExecutionPlan (busy : N → bool) (clock : Z) (workerID : string) (leaseTimeout now : Z) : ep_tx (option ExecutionPlan) :=
  workerID ← tx_lift (normalizeExecutionPlanWorkerID workerID);
  _ ← ensure (0 <? leaseTimeout) (invalidExecutionPlan "execution plan lease timeout must be positive");
  let now := canonicalNow clock now in
  row ← (λ db, match ClaimNextExecutionPlan busy (timestampParam now) workerID (timestampParam (now + leaseTimeout)) db with
               | Ok (db', row) => Ok (db', Some row)
               | Err EPNoRows => Ok (db, None)
               | Err e => Err e
               end);
  match row with
  | None => mret None
  | Some row => plan ← load_plan clock row now; mret (Some plan)
  end.
Definition UpdateExecutionPlanBuildProgress (clock : Z) (progress : ExecutionPlanBuildProgress) : ep_tx ExecutionPlan :=
  id ← tx_lift (plan_uuid "execution plan ID" (bp_plan_id progress));
  workerID ← tx_lift (normalizeExecutionPlanWorkerID (bp_worker_id progress));
  stage ← tx_lift (normalizeExecutionPlanCode (bp_build_stage progress));
  _ ← ensure ((0 <=? bp_completed_step_count progress) && negb (bp_lease_expires_at progress =? 0))
        (invalidExecutionPlan "execution plan progress is invalid");
  let now := canonicalNow clock (bp_now progress) in
  _ ← ensure (now <? bp_lease_expires_at progress) (invalidExecutionPlan "execution plan lease must end in the future");
  row ← on_no_rows (UpdateExecutionPlanBuildProgress_query id.1 workerID stage (bp_completed_step_count progress)
          (timestampParam (bp_lease_expires_at progress)) (timestampParam now)) ErrExecutionPlanBuildLease;
  mret (mapExecutionPlan row).

(** ** Completing *)
(** [byOrdinal], built while each observation is validated. *)
Fixpoint index_observations {O} (ordinal : O → Z) (validate : O → result EPError unit) (observations : list O) (byOrdinal : gmap Z O) :
    result EPError (gmap Z O) :=
  match observations with
  | [] => Ok byOrdinal
  | o :: observations' =>
      _ ← require (0 <? ordinal o) (invalidExecutionPlan "observation ordinal is invalid");
      _ ← require (bool_decide (byOrdinal !! ordinal o = None)) (invalidExecutionPlan "observation ordinal is duplicated");
      _ ← validate o;
      index_observations ordinal validate observations' (<[ordinal o := o]> byOrdinal)
  end.
Definition lock_order (a b : plan_wallet_row) : bool :=
  lexicographic [(pwi_wallet_id (pwr_input a), pwi_wallet_id (pwr_input b)); (pwr_ordinal a, pwr_ordinal b)].
(** Each wallet is connected at its address with the credential that was observed. *)
Fixpoint check_wallets (byOrdinal : gmap Z ExecutionPlanWalletObservation) (wallets : list plan_wallet_row) (db : WDB) : result EPError unit :=
  match wallets with
  | [] => Ok tt
  | wallet :: wallets' =>
      observation ← of_option (byOrdinal !! pwr_ordinal wallet) (invalidExecutionPlan "wallet observation is missing");
      let id := pwi_wallet_id (pwr_input wallet) in
      connection ← of_option (GetWalletConnectionForUpdate id db) ErrExecutionPlanWalletConnectionChanged;
      _ ← require (bool_decide (cn_address connection = pwi_address (pwr_input wallet))
                   && bool_decide (cn_state connection = ConnectionStateConnected)
                   && bool_decide (sn_connection_state (wo_snapshot observation) = connected_text)) ErrExecutionPlanWalletConnectionChanged;
      credential ← of_option (GetActiveCredentialForUpdate id db) ErrExecutionPlanCredentialChanged;
      _ ← require ((0 <? sn_credential_version (wo_snapshot observation)) && (kr_version credential =? sn_credential_version (wo_snapshot observation)))
            ErrExecutionPlanCredentialChanged;
      check_wallets byOrdinal wallets' db
  end.
Definition stored_balance (b : balance_snapshot) : balance_snapshot := {|
  bal_atomic_amount := bal_atomic_amount b; bal_amount := bal_amount b; bal_decimals := bal_decimals b;
  bal_observed_slot := int64_of_uint64 (bal_observed_slot b); bal_availability := bal_availability b; bal_error_code := bal_error_code b |}.
Definition executionPlanWalletObservationParams (o : ExecutionPlanWalletObservation) : Z * option Z * wallet_snapshot :=
  (wo_ordinal o, timestampParam (wo_connected_at o), map_snapshot stored_balance (wo_snapshot o)).
Definition no_observation : ExecutionPlanWalletObservation := {| wo_ordinal := 0; wo_connected_at := 0; wo_snapshot := no_wallet_snapshot |}.
Fixpoint persist_wallets (planID : N) (byOrdinal : gmap Z ExecutionPlanWalletObservation) (stored : list plan_wallet_row) : ep_tx unit :=
  match stored with
  | [] => mret tt
  | wallet :: stored' =>
      let '(ordinal, connected, snapshot) :=
        executionPlanWalletObservationParams (default no_observation (byOrdinal !! pwr_ordinal wallet)) in
      _ ← UpdateExecutionPlanWalletObservation planID ordinal connected snapshot;
      persist_wallets planID byOrdinal stored'
  end.
Definition validateAndPersistExecutionPlanWalletObservations (planID : N) (stored : list plan_wallet_row)
    (observations : list ExecutionPlanWalletObservation) : ep_tx unit :=
  _ ← ensure (Nat.eqb (length stored) (length observations)) (invalidExecutionPlan "wallet observation count does not match frozen plan");
  byOrdinal ← tx_lift (index_observations wo_ordinal validateExecutionPlanWalletObservation observations ∅);
  db ← tx_get;
  _ ← tx_lift (check_wallets byOrdinal (sort_by lock_order stored) (ed_wallets db));
  persist_wallets planID byOrdinal stored.
Definition executionPlanItemObservationParams (o : ExecutionPlanItemObservation) : Z * item_snapshot := (io_ordinal o, io_snapshot o).
Fixpoint persist_items (planID : N) (byOrdinal : gmap Z ExecutionPlanItemObservation) (stored : list plan_item_row) : ep_tx unit :=
  match stored with
  | [] => mret tt
  | item :: stored' =>
      observation ← tx_lift (of_option (byOrdinal !! pir_ordinal item) (invalidExecutionPlan "market observation is missing"));
      let '(ordinal, snapshot) := executionPlanItemObservationParams observation in
      _ ← UpdateExecutionPlanItemObservation planID ordinal snapshot;
      persist_items planID byOrdinal stored'
  end.
Definition validateAndPersistExecutionPlanItemObservations (planID : N) (stored : list plan_item_row)
    (observations : list ExecutionPlanItemObservation) : ep_tx unit :=
  _ ← ensure (Nat.eqb (length stored) (length observations)) (invalidExecutionPlan "market observation count does not match frozen plan");
  byOrdinal ← tx_lift (index_observations io_ordinal validateExecutionPlanItemObservation observations ∅);
  persist_items planID byOrdinal stored.
Definition check_step (wallets : list plan_wallet_row) (items : list plan_item_row) (index : nat) (s : ExecutionPlanStep) : result EPError unit :=
  match wallets !! (index / length items)%nat, items !! (index mod length items)%nat with
  | Some wallet, Some item =>
      _ ← require ((sp_ordinal s =? Z.of_nat (index + 1)) && (sp_wallet_ordinal s =? pwr_ordinal wallet) && (sp_item_ordinal s =? pir_ordinal item))
            (invalidExecutionPlan "step is not wallet-major");
      let ready := bool_decide (sp_disposition s = ExecutionPlanStepDispositionReady) in
      let skipped := bool_decide (sp_disposition s = ExecutionPlanStepDispositionSkipped) in
      _ ← require (ready || skipped) (invalidExecutionPlan "step disposition is invalid");
      reasonCode ← normalizeExecutionPlanCode (sp_reason_code s);
      _ ← require (negb (ready && negb (bool_decide (reasonCode = EmptyString)) || skipped && bool_decide (reasonCode = EmptyString)))
            (invalidExecutionPlan "step disposition and reason are inconsistent");
      require (validExecutionPlanDecimal (sp_projected_usdc_before s) && validExecutionPlanDecimal (sp_projected_usdc_after s))
        (invalidExecutionPlan "step projected USDC is invalid")
  | _, _ => Err (EPPanic "index out of range")
  end.
Fixpoint check_steps (wallets : list plan_wallet_row) (items : list plan_item_row) (index : nat) (steps : list ExecutionPlanStep) :
    result EPError unit :=
  match steps with [] => Ok tt | s :: steps' => _ ← check_step wallets items index s; check_steps wallets items (S index) steps' end.
(** One row of the copy. *)
Definition copy_row (planID : N) (s : ExecutionPlanStep) : result EPError plan_step_row :=
  reasonCode ← normalizeExecutionPlanCode (sp_reason_code s);
  Ok {| psr_plan_id := planID; psr_step := {|
    sp_ordinal := sp_ordinal s; sp_wallet_ordinal := sp_wallet_ordinal s; sp_item_ordinal := sp_item_ordinal s;
    sp_disposition := sp_disposition s; sp_reason_code := reasonCode; sp_projected_usdc_before := sp_projected_usdc_before s;
    sp_projected_usdc_after := sp_projected_usdc_after s |} |}.
Definition persistExecutionPlanSteps (planID : N) (wallets : list plan_wallet_row) (items : list plan_item_row)
    (steps : list ExecutionPlanStep) : ep_tx unit :=
  _ ← ensure (Nat.eqb (length steps) (length wallets * length items)) (invalidExecutionPlan "step count does not match wallet-major plan");
  _ ← tx_lift (check_steps wallets items 0 steps);
  _ ← DeleteExecutionPlanSteps planID;
  rows ← tx_lift (mapM (copy_row planID) steps);
  written ← copy_plan_steps rows;
  ensure (written =? Z.of_nat (length steps)) (EPPanic "copy execution plan steps").
Definition executionPlanStepCounts (steps : list ExecutionPlanStep) : Z * Z :=
  foldl (λ counts s,
    if bool_decide (sp_disposition s = ExecutionPlanStepDispositionReady) then (counts.1 + 1, counts.2)
    else if bool_decide (sp_disposition s = ExecutionPlanStepDispositionSkipped) then (counts.1, counts.2 + 1) else counts) (0, 0) steps.
Definition MarkExecutionPlanReady (clock : Z) (req : MarkExecutionPlanReadyRequest) : ep_tx ExecutionPlan :=
  id ← tx_lift (plan_uuid "execution plan ID" (mr_plan_id req));
  workerID ← tx_lift (normalizeExecutionPlanWorkerID (mr_worker_id req));
  _ ← tx_lift (validateExecutionPlanTotals (totals_texts (mr_totals req)));
  let now := canonicalNow clock (mr_now req) in
  db ← tx_get;
  row ← tx_lift (of_option (GetExecutionPlanForUpdate id.1 db) ErrExecutionPlanNotFound);
  _ ← ensure (bool_decide (pl_state row = ExecutionPlanStateBuilding) && bool_decide (pl_worker_id row = workerID)
              && (now <? timestampValue (pl_lease_expires_at row))) ErrExecutionPlanBuildLease;
  _ ← tx_lift (validateExecutionPlanReadyRequest row req);
  let i := pl_intent row in
  combinationRow ← tx_lift (of_option (GetMarketCombinationForUpdate (in_combination_id i) (in_owner_account_id i) (ed_market db))
                              ErrExecutionPlanCombinationChanged);
  _ ← ensure (cr_revision combinationRow =? in_combination_revision i) ErrExecutionPlanCombinationChanged;
  let walletRows := ListExecutionPlanWallets id.1 db in
  _ ← require_selected (in_owner_account_id i) (in_wallet_selection_revision i) (executionPlanStoredWalletReferences walletRows);
  _ ← validateAndPersistExecutionPlanWalletObservations id.1 walletRows (mr_wallets req);
  db ← tx_get;
  let itemRows := ListExecutionPlanItems id.1 db in
  _ ← validateAndPersistExecutionPlanItemObservations id.1 itemRows (mr_items req);
  _ ← persistExecutionPlanSteps id.1 walletRows itemRows (mr_steps req);
  let '(readyCount, skippedCount) := executionPlanStepCounts (mr_steps req) in
  readyRow ← on_no_rows (MarkExecutionPlanReady_query id.1 workerID (Z.of_nat (length (mr_steps req))) readyCount skippedCount (mr_totals req)
      (timestampParam now) (timestampParam (now + executionPlanReadyTTL)) (timestampParam (now + executionPlanRetention)) (timestampParam now))
    ErrExecutionPlanBuildLease;
  load_plan clock readyRow now.
Definition MarkExecutionPlanFailed (clock : Z) (planID workerID failureCode : string) (now : Z) : ep_tx ExecutionPlan :=
  id ← tx_lift (plan_uuid "execution plan ID" planID);
  workerID ← tx_lift (normalizeExecutionPlanWorkerID workerID);
  failureCode ← tx_lift (match normalizeExecutionPlanCode failureCode with
    | Ok code => if bool_decide (code = EmptyString) then Err (invalidExecutionPlan "failure code is invalid") else Ok code
    | Err _ => Err (invalidExecutionPlan "failure code is invalid") end);
  let now := canonicalNow clock now in
  row ← on_no_rows (MarkExecutionPlanFailed_query id.1 workerID failureCode (timestampParam now)
          (timestampParam (now + executionPlanRetention)) (timestampParam now)) ErrExecutionPlanBuildLease;
  load_plan clock row now.
Definition DeleteExpiredExecutionPlans (busy : N → bool) (clock now limit : Z) : ep_tx Z :=
  _ ← ensure (negb ((limit <=? 0) || (maxExecutionPlanCleanupLimit <? limit))) (invalidExecutionPlan "cleanup limit must be between 1 and 100");
  rows ← DeleteExpiredExecutionPlans_query busy (timestampParam (canonicalNow clock now)) limit;
  mret (Z.of_nat (length rows)).
End Store.
