(* ===== verification/PlanView.v ===== *)
(** * Execution plans: one plan at a time

    A plan with its wallets, items and steps is a view of the database; every statement
    changes the view of one plan.  [sound] is the shape of a view in each state of its
    plan. *)

From S2P Require Import Prelude Sql CashOutTypes CashOutStore ConnectionTypes ConnectionStore Selection Combination CombinationSpec.
From S2P Require Import CombinationRefine Decimal Plan PlanStore.
From stdpp Require Import base tactics option list list_numbers sorting strings gmap.
From Stdlib Require Import ZArith Lia Ascii.
#[local] Open Scope Z_scope.

Record plan_view := {
  v_row : option plan_row; v_wallets : list plan_wallet_row; v_items : list plan_item_row; v_steps : list plan_step_row }.
Definition has_id (id : N) (r : plan_row) : bool := (pl_id r =? id)%N.
Definition view (db : EDB) (id : N) : plan_view := {|
  v_row := sql_one (has_id id) (ed_plans db);
  v_wallets := sql_many (λ r, (pwr_plan_id r =? id)%N) (ed_plan_wallets db);
  v_items := sql_many (λ r, (pir_plan_id r =? id)%N) (ed_plan_items db);
  v_steps := plan_steps id db |}.
Definition no_plan : plan_view := {| v_row := None; v_wallets := []; v_items := []; v_steps := [] |}.

(** ** Shape *)
(** The step of index [k] in a plan of [items] items per wallet. *)
Record step_shape (items : Z) (k : nat) (s : ExecutionPlanStep) : Prop := {
  ss_ordinal : sp_ordinal s = Z.of_nat k + 1;
  ss_wallet : sp_wallet_ordinal s = Z.of_nat k / items + 1;
  ss_item : sp_item_ordinal s = Z.of_nat k mod items + 1;
  ss_disposition : (sp_disposition s = ExecutionPlanStepDispositionReady ∧ sp_reason_code s = EmptyString)
    ∨ (sp_disposition s = ExecutionPlanStepDispositionSkipped ∧ sp_reason_code s ≠ EmptyString);
  ss_before : validExecutionPlanDecimal (sp_projected_usdc_before s) = true;
  ss_after : validExecutionPlanDecimal (sp_projected_usdc_after s) = true }.
Definition counted (disposition : string) (steps : list ExecutionPlanStep) : Z :=
  Z.of_nat (length (filter (λ s, sp_disposition s = disposition) steps)).
Definition observed_connected (w : plan_wallet_row) : Prop :=
  sn_connection_state (pwr_snapshot w) = connected_text ∧ 0 < sn_credential_version (pwr_snapshot w)
  ∧ bal_availability (sn_usdc (pwr_snapshot w)) = availabilityAvailable.
(** What a [READY] plan has: a step for every wallet and item, in that order. *)
Record complete (r : plan_row) (v : plan_view) : Prop := {
  cp_steps : Z.of_nat (length (v_steps v)) = in_total_step_count (pl_intent r);
  cp_shape : ∀ k s, v_steps v !! k = Some s → step_shape (in_item_count (pl_intent r)) k (psr_step s);
  cp_ready : pl_ready_step_count r = counted ExecutionPlanStepDispositionReady (psr_step <$> v_steps v);
  cp_skipped : pl_skipped_step_count r = counted ExecutionPlanStepDispositionSkipped (psr_step <$> v_steps v);
  cp_observed : ∀ w, w ∈ v_wallets v → observed_connected w }.
Record shape (r : plan_row) (v : plan_view) : Prop := {
  sh_check : plan_check r = true;
  sh_total : in_total_step_count (pl_intent r) = in_wallet_count (pl_intent r) * in_item_count (pl_intent r);
  sh_wallets : pwr_ordinal <$> v_wallets v = seqZ 1 (in_wallet_count (pl_intent r));
  sh_items : pir_ordinal <$> v_items v = seqZ 1 (in_item_count (pl_intent r));
  sh_wallet_ids : NoDup ((λ w, pwi_wallet_id (pwr_input w)) <$> v_wallets v);
  sh_addresses : NoDup ((λ w, pwi_address (pwr_input w)) <$> v_wallets v);
  sh_markets : NoDup ((λ i, mi_market_condition_id (pir_input i)) <$> v_items v);
  sh_steps : if bool_decide (pl_state r = ExecutionPlanStateReady) then complete r v else v_steps v = [] }.
Definition sound (v : plan_view) : Prop := match v_row v with Some r => shape r v | None => v = no_plan end.

(** ** Rows *)
Lemma row_lookup t id r : NoDup (pl_id <$> t) → sql_one (has_id id) t = Some r ↔ r ∈ t ∧ pl_id r = id.
Proof.
  intros Hk. split; [intros [? ?%N.eqb_eq]%sql_one_Some; done|]. intros [Hr Hid].
  destruct (sql_one_is_Some (has_id id) t r Hr) as [r' Hr']; [by apply N.eqb_eq|]. rewrite Hr'. f_equal.
  apply sql_one_Some in Hr' as [? ?%N.eqb_eq]. eapply NoDup_key_inj; [exact Hk|done|done|congruence].
Qed.
Lemma row_update t p f old :
  NoDup (pl_id <$> t) → old ∈ t → p old = true → (∀ r, p r = true → pl_id r = pl_id old) → (∀ r, pl_id (f r) = pl_id r) →
  NoDup (pl_id <$> sql_update p f t)
  ∧ ∀ id, sql_one (has_id id) (sql_update p f t) = if decide (id = pl_id old) then Some (f old) else sql_one (has_id id) t.
Proof.
  intros Hk Ho Hp Hpk Hf. assert (NoDup (pl_id <$> sql_update p f t)) as Hk' by (by rewrite (sql_update_key pl_id)). split; [done|].
  intros id. apply option_eq. intros r. rewrite row_lookup, (sql_update_one pl_id) by done. case_decide as Hid.
  - split; [intros [[->|[? ?]] ?]; [done|congruence]|intros [= <-]]. split; [by left|]. by rewrite Hf.
  - rewrite row_lookup by done. split; [intros [[->|[? ?]] Hr]; [rewrite Hf in Hr; congruence|done]|].
    intros [? Hr]. split; [right; split; [done|congruence]|done].
Qed.
Lemma row_append t row :
  NoDup (pl_id <$> t) → existsb (has_id (pl_id row)) t = false →
  NoDup (pl_id <$> t ++ [row])
  ∧ ∀ id, sql_one (has_id id) (t ++ [row]) = if decide (id = pl_id row) then Some row else sql_one (has_id id) t.
Proof.
  intros Hk Hf. assert (NoDup (pl_id <$> t ++ [row])) as Hk'.
  { rewrite fmap_app, NoDup_app. split_and!; [done| |apply NoDup_singleton]. intros x (r & -> & Hr)%list_elem_of_fmap Hx%list_elem_of_singleton.
    rewrite existsb_elem_false in Hf. specialize (Hf r Hr). apply N.eqb_neq in Hf. done. }
  split; [done|]. intros id. apply option_eq. intros r. rewrite row_lookup, elem_of_app, list_elem_of_singleton by done.
  rewrite existsb_elem_false in Hf. case_decide as Hid.
  - split; [intros [[Hr| ->] He]; [specialize (Hf r Hr); apply N.eqb_neq in Hf; congruence|done]|]. intros [= <-]. auto.
  - rewrite row_lookup by done. split; [intros [[Hr| ->] He]; [done|congruence]|tauto].
Qed.
Lemma plan_exists_row db id : plan_exists id db = false ↔ v_row (view db id) = None.
Proof.
  unfold plan_exists. cbn. rewrite existsb_elem_false. split.
  - intros H. destruct (sql_one _ _) as [r|] eqn:E; [|done]. apply sql_one_Some in E as [Hr Hi]. unfold has_id in Hi. by rewrite (H r Hr) in Hi.
  - intros H r Hr. by apply (sql_one_None _ _ H).
Qed.

(** ** Invariant *)
Section Inv.
Context {SL : SolanaLib} {PL : PgLower}.
Record plan_inv (db : EDB) : Prop := {
  pv_keys : NoDup (pl_id <$> ed_plans db);
  pv_sound : ∀ id, sound (view db id);
  pv_market : combination_good (ed_market db) }.
(** Only the view of [id] changes, to [v]. *)
Record changes (db db' : EDB) (id : N) (v : plan_view) : Prop := {
  ch_here : view db' id = v;
  ch_other : ∀ id', id' ≠ id → view db' id' = view db id';
  ch_keys : NoDup (pl_id <$> ed_plans db) → NoDup (pl_id <$> ed_plans db');
  ch_market : ed_market db' = ed_market db;
  ch_wallets : ed_wallets db' = ed_wallets db;
  ch_runs : ed_runs db' = ed_runs db }.
Lemma changes_trans db1 db2 db3 id v v' : changes db1 db2 id v → changes db2 db3 id v' → changes db1 db3 id v'.
Proof.
  intros A B. constructor; [apply B| |intros; by apply (ch_keys _ _ _ _ B), (ch_keys _ _ _ _ A)|..].
  - intros id' Hn. by rewrite (ch_other _ _ _ _ B), (ch_other _ _ _ _ A).
  - by rewrite (ch_market _ _ _ _ B), (ch_market _ _ _ _ A).
  - by rewrite (ch_wallets _ _ _ _ B), (ch_wallets _ _ _ _ A).
  - by rewrite (ch_runs _ _ _ _ B), (ch_runs _ _ _ _ A).
Qed.
Lemma changes_refl db id : changes db db id (view db id).
Proof. by constructor. Qed.
Lemma changes_inv db db' id v : plan_inv db → changes db db' id v → sound v → plan_inv db'.
Proof.
  intros [K S M] C Hv. constructor; [by apply C| |by rewrite (ch_market _ _ _ _ C)]. intros id'.
  destruct (decide (id' = id)) as [->|Hn]; [by rewrite (ch_here _ _ _ _ C)|by rewrite (ch_other _ _ _ _ C)].
Qed.
End Inv.
Definition set_row (row : plan_row) (v : plan_view) : plan_view := {|
  v_row := Some row; v_wallets := v_wallets v; v_items := v_items v; v_steps := v_steps v |}.
Definition set_wallets (t : list plan_wallet_row) (v : plan_view) : plan_view := {|
  v_row := v_row v; v_wallets := t; v_items := v_items v; v_steps := v_steps v |}.
Definition set_items (t : list plan_item_row) (v : plan_view) : plan_view := {|
  v_row := v_row v; v_wallets := v_wallets v; v_items := t; v_steps := v_steps v |}.
Definition set_steps (t : list plan_step_row) (v : plan_view) : plan_view := {|
  v_row := v_row v; v_wallets := v_wallets v; v_items := v_items v; v_steps := t |}.

(** ** Statements *)
Lemma put_plans_changes db t id row :
  (∀ id', sql_one (has_id id') t = if decide (id' = id) then Some row else sql_one (has_id id') (ed_plans db)) →
  (NoDup (pl_id <$> ed_plans db) → NoDup (pl_id <$> t)) →
  changes db (Build_EDB (ed_market db) (ed_wallets db) t (ed_plan_wallets db) (ed_plan_items db) (ed_plan_steps db) (ed_runs db)) id
    (set_row row (view db id)).
Proof.
  intros Hr Hk. constructor; try done; unfold view, set_row, plan_steps; cbn; [by rewrite Hr, decide_True|].
  intros id' Hn. by rewrite Hr, decide_False.
Qed.
Lemma update_plan_ok id p f now db db' row :
  NoDup (pl_id <$> ed_plans db) → (∀ r, p r = true → pl_id r = id) → (∀ n r, pl_intent (f n r) = pl_intent r) →
  update_plan p f now db = Ok (db', row) →
  ∃ n old, now = Some n ∧ v_row (view db id) = Some old ∧ p old = true ∧ row = f n old ∧ plan_check row = true
    ∧ changes db db' id (set_row row (view db id)).
Proof.
  intros Hk Hp Hf H. unfold update_plan, not_null, put_plans in H. tx_inv.
  match goal with H : context [sql_one p ?t] |- _ => destruct (sql_one p t) as [old|] eqn:E end; tx_inv.
  apply sql_one_Some in E as [Ho Hpo]. pose proof (Hp _ Hpo) as <-. match goal with n : Z |- _ => exists n, old end.
  split_and!; [done| |done|done|done|].
  - by apply (row_lookup _ _ _ Hk).
  - apply put_plans_changes; [|intros; rewrite sql_update_key; [done|]; intros r; unfold pl_id; by rewrite Hf].
    apply row_update; try done. intros r. unfold pl_id. by rewrite Hf.
Qed.
Lemma create_plan_query_ok id owner combination name revision selection wallets items steps now retention db db' row :
  NoDup (pl_id <$> ed_plans db) →
  CreateExecutionPlan_query id owner combination name revision selection wallets items steps now retention db = Ok (db', row) →
  ∃ n, now = Some n ∧ v_row (view db id) = None ∧ changes db db' id (set_row row (view db id)) ∧ plan_check row = true
    ∧ pl_intent row = {| in_id := id; in_owner_account_id := owner; in_combination_id := combination; in_combination_name := name;
        in_combination_revision := revision; in_wallet_selection_revision := selection; in_wallet_count := wallets;
        in_item_count := items; in_total_step_count := steps; in_requested_at := n; in_created_at := n |}
    ∧ (pl_state row, pl_worker_id row, pl_lease_expires_at row) = (ExecutionPlanStateBuilding, EmptyString, None).
Proof.
  intros Hk H. unfold CreateExecutionPlan_query, texts, not_null, put_plans in H. cbv zeta in H. tx_inv. eexists. split; [done|].
  match goal with H : negb _ = true |- _ => apply negb_true_iff in H; rename H into Hf end. split; [by apply plan_exists_row|].
  split; [|done]. apply put_plans_changes.
  - match goal with |- context [?t ++ [?row]] => exact (proj2 (row_append t row Hk Hf)) end.
  - intros _. match goal with |- context [?t ++ [?row]] => exact (proj1 (row_append t row Hk Hf)) end.
Qed.

(** ** Wallets and items of a new plan *)
Definition new_wallet (plan : N) (ordinal : Z) (input : ExecutionPlanWalletInput) : plan_wallet_row := {|
  pwr_plan_id := plan; pwr_ordinal := ordinal; pwr_input := input; pwr_connected_at := None; pwr_snapshot := no_wallet_snapshot |}.
Definition new_item (plan : N) (ordinal : Z) (input : MarketCombinationItemInput) : plan_item_row := {|
  pir_plan_id := plan; pir_ordinal := ordinal; pir_input := input; pir_snapshot := no_item_snapshot |}.
Fixpoint new_wallets (plan : N) (index : Z) (wallets : list ExecutionPlanWalletInput) : list plan_wallet_row :=
  match wallets with [] => [] | w :: wallets' => new_wallet plan (wrap32 (index + 1)) w :: new_wallets plan (index + 1) wallets' end.
Lemma view_eq v v' : v_row v = v_row v' → v_wallets v = v_wallets v' → v_items v = v_items v' → v_steps v = v_steps v' → v = v'.
Proof. destruct v, v'. cbn. by intros -> -> -> ->. Qed.
Lemma wallets_changes db t id rows :
  sql_many (λ r, (pwr_plan_id r =? id)%N) t = rows →
  (∀ id', id' ≠ id → sql_many (λ r, (pwr_plan_id r =? id')%N) t = v_wallets (view db id')) →
  changes db (Build_EDB (ed_market db) (ed_wallets db) (ed_plans db) t (ed_plan_items db) (ed_plan_steps db) (ed_runs db)) id
    (set_wallets rows (view db id)).
Proof. intros <- Ho. constructor; try done. intros id' Hn. apply view_eq; try done. by apply Ho. Qed.
Lemma items_changes db t id rows :
  sql_many (λ r, (pir_plan_id r =? id)%N) t = rows →
  (∀ id', id' ≠ id → sql_many (λ r, (pir_plan_id r =? id')%N) t = v_items (view db id')) →
  changes db (Build_EDB (ed_market db) (ed_wallets db) (ed_plans db) (ed_plan_wallets db) t (ed_plan_steps db) (ed_runs db)) id
    (set_items rows (view db id)).
Proof. intros <- Ho. constructor; try done. intros id' Hn. apply view_eq; try done. by apply Ho. Qed.
Lemma steps_changes db t id rows :
  sql_many (λ r, (psr_plan_id r =? id)%N) t = rows →
  (∀ id', id' ≠ id → sql_many (λ r, (psr_plan_id r =? id')%N) t = v_steps (view db id')) →
  changes db (Build_EDB (ed_market db) (ed_wallets db) (ed_plans db) (ed_plan_wallets db) (ed_plan_items db) t (ed_runs db)) id
    (set_steps rows (view db id)).
Proof. intros <- Ho. constructor; try done. intros id' Hn. apply view_eq; try done. by apply Ho. Qed.
Lemma sql_many_one {R} (k : R → N) (id : N) (t : list R) row : k row = id →
  sql_many (λ r, (k r =? id)%N) (t ++ [row]) = sql_many (λ r, (k r =? id)%N) t ++ [row]
  ∧ ∀ id', id' ≠ id → sql_many (λ r, (k r =? id')%N) (t ++ [row]) = sql_many (λ r, (k r =? id')%N) t.
Proof.
  intros Hk. split; [|intros id' Hn]; rewrite sql_many_app.
  - f_equal. apply sql_many_all. intros r ->%list_elem_of_singleton. by apply N.eqb_eq.
  - rewrite (sql_many_none _ [row]); [apply app_nil_r|]. intros r ->%list_elem_of_singleton. apply N.eqb_neq. congruence.
Qed.
Lemma create_wallet_ok plan ordinal input db db' u :
  CreateExecutionPlanWallet plan ordinal input db = Ok (db', u) →
  changes db db' plan (set_wallets (v_wallets (view db plan) ++ [new_wallet plan ordinal input]) (view db plan)).
Proof.
  unfold CreateExecutionPlanWallet, texts, put_plan_wallets. intros H. tx_inv.
  match goal with H : sql_insert _ _ _ _ _ = Ok _ |- _ => apply sql_insert_ok in H as [-> _] end.
  apply wallets_changes; apply (sql_many_one pwr_plan_id plan); done.
Qed.
Lemma create_plan_item_ok plan ordinal input db db' u :
  CreateExecutionPlanItem plan ordinal input db = Ok (db', u) →
  changes db db' plan (set_items (v_items (view db plan) ++ [new_item plan ordinal input]) (view db plan)).
Proof.
  unfold CreateExecutionPlanItem, texts, put_plan_items. intros H. tx_inv.
  match goal with H : sql_insert _ _ _ _ _ = Ok _ |- _ => apply sql_insert_ok in H as [-> _] end.
  apply items_changes; apply (sql_many_one pir_plan_id plan); done.
Qed.
Lemma create_wallets_ok plan index wallets db db' u :
  create_plan_wallets plan index wallets db = Ok (db', u) →
  changes db db' plan (set_wallets (v_wallets (view db plan) ++ new_wallets plan index wallets) (view db plan)).
Proof.
  revert index db. induction wallets as [|w wallets IH]; intros index db H; cbn [create_plan_wallets new_wallets] in *.
  { apply tx_ret_ok in H as [-> _]. rewrite app_nil_r. apply changes_refl. }
  apply tx_bind_ok in H as (db1 & [] & H1 & H2). apply create_wallet_ok in H1. apply IH in H2.
  pose proof (changes_trans _ _ _ _ _ _ H1 H2) as C. rewrite (ch_here _ _ _ _ H1) in C. cbn in C. by rewrite <- app_assoc in C.
Qed.
Lemma create_plan_items_ok plan items db db' u :
  create_plan_items plan items db = Ok (db', u) →
  changes db db' plan (set_items (v_items (view db plan) ++ ((λ i, new_item plan (ci_ordinal i) (ci_input i)) <$> items)) (view db plan)).
Proof.
  revert db. induction items as [|i items IH]; intros db H; cbn [create_plan_items fmap list_fmap] in *.
  { apply tx_ret_ok in H as [-> _]. rewrite app_nil_r. apply changes_refl. }
  apply tx_bind_ok in H as (db1 & [] & H1 & H2). apply create_plan_item_ok in H1. apply IH in H2.
  pose proof (changes_trans _ _ _ _ _ _ H1 H2) as C. rewrite (ch_here _ _ _ _ H1) in C. cbn in C. by rewrite <- app_assoc in C.
Qed.
Lemma new_wallets_ordinals plan index wallets :
  0 ≤ index → index + Z.of_nat (length wallets) ≤ max_int32 →
  pwr_ordinal <$> new_wallets plan index wallets = seqZ (index + 1) (Z.of_nat (length wallets)).
Proof.
  revert index. induction wallets as [|w wallets IH]; intros index H1 H2; [done|]. cbn [new_wallets length] in *.
  rewrite fmap_cons, IH by lia. rewrite Nat2Z.inj_succ, (seqZ_cons (index + 1)) by lia. f_equal; [apply wrap32_id; unfold max_int32 in H2; lia|].
  f_equal; lia.
Qed.
Lemma new_wallets_inputs plan index wallets : pwr_input <$> new_wallets plan index wallets = wallets.
Proof. revert index. induction wallets as [|w wallets IH]; intros index; cbn [new_wallets]; [done|]. by rewrite fmap_cons, IH. Qed.

(** ** Observations *)
Definition observe_wallet (m : gmap Z ExecutionPlanWalletObservation) (r : plan_wallet_row) : plan_wallet_row :=
  let o := default no_observation (m !! pwr_ordinal r) in
  observed_wallet (timestampParam (wo_connected_at o)) (map_snapshot stored_balance (wo_snapshot o)) r.
Definition observe_item (m : gmap Z ExecutionPlanItemObservation) (r : plan_item_row) : plan_item_row :=
  match m !! pir_ordinal r with Some o => observed_item (io_snapshot o) r | None => r end.
Lemma sql_many_update_other {R} (k : R → N) (id id' : N) (q : R → bool) f (t : list R) :
  (∀ r, k (f r) = k r) → (∀ r, q r = true → k r = id) → id' ≠ id →
  sql_many (λ r, (k r =? id')%N) (sql_update q f t) = sql_many (λ r, (k r =? id')%N) t.
Proof.
  intros Hf Hq Hn. induction t as [|r t IH]; [done|]. unfold sql_many, sql_update in *. rewrite fmap_cons, !filter_cons.
  destruct (q r) eqn:E; [|by rewrite IH]. rewrite Hf, (Hq r E), !decide_False; [done|..]; rewrite Is_true_true, N.eqb_eq; congruence.
Qed.
Lemma sql_many_update_here {R} (k : R → N) (id : N) (q g : R → bool) f (t : list R) :
  (∀ r, k (f r) = k r) → (∀ r, q r = (k r =? id)%N && g r) →
  sql_many (λ r, (k r =? id)%N) (sql_update q f t) = sql_update g f (sql_many (λ r, (k r =? id)%N) t).
Proof.
  intros Hf Hq. induction t as [|r t IH]; [done|]. unfold sql_many, sql_update in *. rewrite fmap_cons, !filter_cons, Hq.
  destruct (k r =? id)%N eqn:E; cbn [andb].
  - rewrite (decide_True (P := Is_true true)) by done. rewrite fmap_cons, <- IH. destruct (g r); rewrite ?Hf, E, decide_True by done; done.
  - rewrite E, !decide_False by (by intros []). done.
Qed.
Lemma update_wallet_ok plan ordinal connected s db db' u :
  UpdateExecutionPlanWalletObservation plan ordinal connected s db = Ok (db', u) →
  changes db db' plan (set_wallets (sql_update (λ r, pwr_ordinal r =? ordinal) (observed_wallet connected s) (v_wallets (view db plan))) (view db plan)).
Proof.
  unfold UpdateExecutionPlanWalletObservation, texts, put_plan_wallets. cbv zeta. intros H. tx_inv. apply wallets_changes.
  - by apply (sql_many_update_here pwr_plan_id).
  - intros id' Hn. apply (sql_many_update_other pwr_plan_id plan); [done| |done]. by intros r [?%N.eqb_eq _]%andb_true_iff.
Qed.
Lemma update_item_ok plan ordinal s db db' u :
  UpdateExecutionPlanItemObservation plan ordinal s db = Ok (db', u) →
  changes db db' plan (set_items (sql_update (λ r, pir_ordinal r =? ordinal) (observed_item s) (v_items (view db plan))) (view db plan)).
Proof.
  unfold UpdateExecutionPlanItemObservation, texts, put_plan_items. cbv zeta. intros H. tx_inv. apply items_changes.
  - by apply (sql_many_update_here pir_plan_id).
  - intros id' Hn. apply (sql_many_update_other pir_plan_id plan); [done| |done]. by intros r [?%N.eqb_eq _]%andb_true_iff.
Qed.
