(* ===== verification/PlanReady.v ===== *)
(** * Execution plans: completing a plan

    What [MarkExecutionPlanReady] has checked and written when it commits. *)

From S2P Require Import Prelude Sql CashOutTypes CashOutStore ConnectionTypes ConnectionStore Selection Combination CombinationSpec.
From S2P Require Import CombinationRefine Decimal Plan PlanStore PlanView.
From stdpp Require Import base tactics option list list_numbers sorting strings gmap.
From Stdlib Require Import ZArith Lia Ascii.
#[local] Open Scope Z_scope.

(** ** Observations *)
Record indexed {O} (ordinal : O → Z) (validate : O → result EPError unit) (l : list O) (m : gmap Z O) : Prop := {
  ix_lookup : ∀ k o, m !! k = Some o ↔ o ∈ l ∧ ordinal o = k;
  ix_valid : ∀ o, o ∈ l → validate o = Ok tt ∧ 0 < ordinal o;
  ix_distinct : NoDup (ordinal <$> l) }.
Lemma index_observations_go {O} (ordinal : O → Z) validate l m m' :
  index_observations ordinal validate l m = Ok m' →
  (∀ k o, m' !! k = Some o ↔ m !! k = Some o ∨ (o ∈ l ∧ ordinal o = k))
  ∧ (∀ o, o ∈ l → validate o = Ok tt ∧ 0 < ordinal o ∧ m !! ordinal o = None) ∧ NoDup (ordinal <$> l).
Proof.
  revert m. induction l as [|o l IH]; intros m H; cbn [index_observations] in H.
  { injection H as <-. split_and!; [|by intros ? ?%not_elem_of_nil|constructor]. intros k o. split; [by left|]. by intros [?|[?%not_elem_of_nil _]]. }
  tx_inv. bool_prop. match goal with H : index_observations _ _ _ _ = Ok _ |- _ => apply IH in H as (HL & HV & HD) end. split_and!.
  - intros k o'. rewrite HL. rewrite elem_of_cons. destruct (decide (ordinal o = k)) as [<-|Hk].
    + rewrite lookup_insert_eq. split; [intros [[= <-]|[? ?]]; auto|]. intros [?|[[->|?] ?]]; [congruence|auto|auto].
    + rewrite lookup_insert_ne by done. split; [intros [?|[? ?]]; auto|]. intros [?|[[->|?] ?]]; [auto|congruence|auto].
  - intros o' [->|Ho']%elem_of_cons; [match goal with x : unit |- _ => destruct x end; by split_and!|].
    destruct (HV o' Ho') as (? & ? & Hn). split_and!; try done. by apply lookup_insert_None in Hn as [? _].
  - rewrite fmap_cons. apply NoDup_cons. split; [|done]. intros (o' & Ho & Ho')%list_elem_of_fmap. destruct (HV o' Ho') as (_ & _ & Hn).
    rewrite Ho, lookup_insert_eq in Hn. done.
Qed.
Lemma index_observations_ok {O} (ordinal : O → Z) validate l m :
  index_observations ordinal validate l ∅ = Ok m → indexed ordinal validate l m.
Proof.
  intros (HL & HV & HD)%index_observations_go. constructor; [|intros o Ho; destruct (HV o Ho) as (? & ? & _); done|done].
  intros k o. rewrite HL, lookup_empty. naive_solver.
Qed.
Lemma update_all {R} (p : R → bool) f (t : list R) : (∀ r, r ∈ t → p r = true) → sql_update p f t = f <$> t.
Proof. intros H. apply list_fmap_ext. intros i r Hr. by rewrite H by (by eapply list_elem_of_lookup_2). Qed.
Lemma update_none {R} (p : R → bool) f (t : list R) : (∀ r, p r = false) → sql_update p f t = t.
Proof. intros H. rewrite <- (list_fmap_id t) at 2. apply list_fmap_ext. intros i r _. by rewrite H. Qed.
Definition in_rows {R} (ordinal : R → Z) (rows : list R) (r : R) : bool := existsb (Z.eqb (ordinal r)) (ordinal <$> rows).
Lemma in_rows_true {R} (ordinal : R → Z) (rows t : list R) :
  ordinal <$> rows ≡ₚ ordinal <$> t → ∀ r, r ∈ t → in_rows ordinal rows r = true.
Proof.
  intros Hp r Hr. apply existsb_elem. exists (ordinal r). split; [|by apply Z.eqb_eq]. rewrite Hp. apply list_elem_of_fmap. eauto.
Qed.
Lemma observe_again m r : observe_wallet m (observe_wallet m r) = observe_wallet m r.
Proof. done. Qed.
Lemma persist_wallets_ok plan validate l m stored db db' u :
  indexed wo_ordinal validate l m → (∀ r, r ∈ stored → is_Some (m !! pwr_ordinal r)) →
  persist_wallets plan m stored db = Ok (db', u) →
  changes db db' plan (set_wallets (sql_update (in_rows pwr_ordinal stored) (observe_wallet m) (v_wallets (view db plan))) (view db plan)).
Proof.
  intros Hm. revert db. induction stored as [|w stored IH]; intros db Hs H; cbn [persist_wallets] in H.
  { apply tx_ret_ok in H as [-> _]. rewrite update_none by done. apply changes_refl. }
  destruct (Hs w) as [o Ho]; [constructor|]. unfold executionPlanWalletObservationParams in H. rewrite Ho in H. cbn [default id] in H.
  apply tx_bind_ok in H as (db1 & [] & H1 & H2). apply update_wallet_ok in H1. apply IH in H2; [|intros r Hr; apply Hs; by constructor].
  pose proof (changes_trans _ _ _ _ _ _ H1 H2) as C. rewrite (ch_here _ _ _ _ H1) in C. cbn [set_wallets v_wallets] in C.
  match type of C with changes _ _ _ (set_wallets ?a _) => match goal with |- changes _ _ _ (set_wallets ?b _) => assert (a = b) as E end end.
  2: by rewrite E in C. unfold sql_update. rewrite <- list_fmap_compose. apply list_fmap_ext. intros i r _. unfold in_rows. cbn [compose fmap list_fmap existsb].
  pose proof (proj1 (ix_lookup _ _ _ _ Hm _ _) Ho) as [_ Hord]. unfold compose. rewrite Hord.
  destruct (Z.eqb_spec (pwr_ordinal r) (pwr_ordinal w)) as [Er|Er]; cbn [orb pwr_ordinal observed_wallet]; [|done].
  assert (observed_wallet (timestampParam (wo_connected_at o)) (map_snapshot stored_balance (wo_snapshot o)) r = observe_wallet m r) as ->
    by (unfold observe_wallet; by rewrite Er, Ho). by destruct (existsb _ _).
Qed.
Lemma persist_items_ok plan validate l m stored db db' u :
  indexed io_ordinal validate l m → persist_items plan m stored db = Ok (db', u) →
  (∀ r, r ∈ stored → is_Some (m !! pir_ordinal r))
  ∧ changes db db' plan (set_items (sql_update (in_rows pir_ordinal stored) (observe_item m) (v_items (view db plan))) (view db plan)).
Proof.
  intros Hm. revert db. induction stored as [|w stored IH]; intros db H; cbn [persist_items] in H.
  { apply tx_ret_ok in H as [-> _]. split; [by intros ? ?%not_elem_of_nil|]. rewrite update_none by done. apply changes_refl. }
  apply tx_bind_ok in H as (db0 & o & [-> Ho%of_option_ok]%tx_lift_ok & H). unfold executionPlanItemObservationParams in H.
  apply tx_bind_ok in H as (db1 & [] & H1 & H2). apply update_item_ok in H1. apply IH in H2 as [Hs H2]. split; [intros r [->|?]%elem_of_cons; eauto|].
  pose proof (changes_trans _ _ _ _ _ _ H1 H2) as C. rewrite (ch_here _ _ _ _ H1) in C. cbn [set_items v_items] in C.
  match type of C with changes _ _ _ (set_items ?a _) => match goal with |- changes _ _ _ (set_items ?b _) => assert (a = b) as E end end.
  2: by rewrite E in C. unfold sql_update. rewrite <- list_fmap_compose. apply list_fmap_ext. intros i r _. unfold in_rows. cbn [compose fmap list_fmap existsb].
  pose proof (proj1 (ix_lookup _ _ _ _ Hm _ _) Ho) as [_ Hord]. unfold compose. rewrite Hord.
  destruct (Z.eqb_spec (pir_ordinal r) (pir_ordinal w)) as [Er|Er]; cbn [orb pir_ordinal observed_item]; [|done].
  assert (observed_item (io_snapshot o) r = observe_item m r) as -> by (unfold observe_item; by rewrite Er, Ho).
  destruct (existsb _ _); [|done]. unfold observe_item. rewrite Er, Ho. cbn. by rewrite Er, Ho.
Qed.

(** ** Lists by ordinal *)
Lemma ordinal_at {R} (ordinal : R → Z) l n k r : ordinal <$> l = seqZ 1 n → l !! k = Some r → ordinal r = Z.of_nat k + 1.
Proof.
  intros Hl Hk. assert ((ordinal <$> l) !! k = Some (ordinal r)) as H by (by rewrite list_lookup_fmap, Hk). rewrite Hl in H.
  apply lookup_seqZ in H as [-> _]. lia.
Qed.
Lemma sort_ordinals {R} (ordinal : R → Z) l n : ordinal <$> l = seqZ 1 n → sort_by (λ a b, ordinal a <=? ordinal b) l = l.
Proof.
  intros Hl. apply sort_by_unique; [intros; lia|intros; lia| | |done].
  - intros a b [i Hi]%list_elem_of_lookup [j Hj]%list_elem_of_lookup H1 H2. pose proof (ordinal_at _ _ _ _ _ Hl Hi).
    pose proof (ordinal_at _ _ _ _ _ Hl Hj). assert (i = j) as -> by lia. congruence.
  - assert (∀ k, StronglySorted (λ a b, (ordinal a <=? ordinal b) = true) l ∨ ordinal <$> l ≠ seqZ k n) as Hs; [|by destruct (Hs 1)].
    clear Hl. revert n. induction l as [|a l IH]; intros n k; [left; constructor|].
    destruct (decide (ordinal <$> a :: l = seqZ k n)) as [He|]; [left|by right]. rewrite fmap_cons in He.
    assert (0 < n) as Hn. { destruct (decide (0 < n)); [done|]. rewrite seqZ_nil in He by lia. done. }
    rewrite seqZ_cons in He by done. injection He as Ha Hl. constructor.
    + destruct (IH (Z.pred n) (Z.succ k)) as [?|?]; done.
    + apply Forall_forall. intros b Hb. assert (ordinal b ∈ ordinal <$> l) as Hin by (apply list_elem_of_fmap; eauto).
      rewrite Hl in Hin. apply elem_of_seqZ in Hin. lia.
Qed.
Lemma list_wallets_view db id r : v_row (view db id) = Some r → sound (view db id) → ListExecutionPlanWallets id db = v_wallets (view db id).
Proof. unfold sound. intros ->. intros S. exact (sort_ordinals _ _ _ (sh_wallets _ _ S)). Qed.
Lemma list_items_view db id r : v_row (view db id) = Some r → sound (view db id) → ListExecutionPlanItems id db = v_items (view db id).
Proof. unfold sound. intros ->. intros S. exact (sort_ordinals _ _ _ (sh_items _ _ S)). Qed.

(** ** Wallets *)
(** The wallet is connected at its address with the observed credential. *)
Definition wallet_current (m : gmap Z ExecutionPlanWalletObservation) (db : WDB) (w : plan_wallet_row) : Prop :=
  ∃ o c k, m !! pwr_ordinal w = Some o ∧ GetWalletConnectionForUpdate (pwi_wallet_id (pwr_input w)) db = Some c
    ∧ cn_address c = pwi_address (pwr_input w) ∧ cn_state c = ConnectionStateConnected
    ∧ GetActiveCredentialForUpdate (pwi_wallet_id (pwr_input w)) db = Some k ∧ kr_version k = sn_credential_version (wo_snapshot o).
Lemma check_wallets_ok m wallets db u : check_wallets m wallets db = Ok u → ∀ w, w ∈ wallets → wallet_current m db w.
Proof.
  induction wallets as [|w wallets IH]; intros H x Hx; [by apply not_elem_of_nil in Hx|]. cbn [check_wallets] in H. cbv zeta in H. tx_inv. bool_prop.
  apply elem_of_cons in Hx as [->|Hx]; [|by apply IH]. do 3 eexists. split_and!; try done.
Qed.
(** The wallet is an item of the owner's selection at the revision. *)
Definition selected_at (db : WDB) (owner : N) (revision : Z) (w : Z) (a : string) : Prop :=
  (∃ s, s ∈ sl_selections (w_selections db) ∧ se_owner_account_id s = owner ∧ se_revision s = revision)
  ∧ ∃ i, i ∈ sl_items (w_selections db) ∧ sit_owner_account_id i = owner ∧ sit_wallet_id i = w ∧ sit_address i = a.
Lemma count_invalid_zero owner revision (refs : list (Z * string)) db :
  CountInvalidSelectedWalletReferencesAtRevision owner revision refs.*1 refs.*2 db = 0 ↔
  ∀ w a, (w, a) ∈ refs → selected_at db owner revision w a.
Proof.
  unfold CountInvalidSelectedWalletReferencesAtRevision. cbv zeta. rewrite !length_fmap, Nat.eqb_refl, zip_fst_snd.
  set (sel := existsb _ (sl_selections _)). assert (sel = true ↔ ∃ s, s ∈ sl_selections (w_selections db) ∧ se_owner_account_id s = owner ∧ se_revision s = revision) as Hsel.
  { unfold sel. rewrite existsb_elem. split; intros (s & Hs & H); exists s; (split; [done|]).
    - by apply andb_true_iff in H as [?%N.eqb_eq ?%Z.eqb_eq].
    - destruct H as [-> ->]. by rewrite N.eqb_refl, Z.eqb_refl. }
  rewrite <- Nat2Z.inj_0, Nat2Z.inj_iff, length_zero_iff_nil. split.
  - intros H w a Hin. assert (sel && existsb (is_item owner w a) (sl_items (w_selections db)) = true) as E.
    { destruct (_ && _) eqn:E; [done|]. exfalso. eapply (not_elem_of_nil (w, a)). rewrite <- H. apply list_elem_of_filter. split; [|done].
      cbn [fst snd]. by rewrite E. }
    apply andb_true_iff in E as [E1 E2]. apply existsb_elem in E2 as (i & Hi & E2). unfold is_item in E2. bool_prop.
    match goal with H : (_ =? _)%N = true |- _ => apply N.eqb_eq in H end. split; [by apply Hsel|]. by exists i.
  - intros H. apply elem_of_nil_inv. intros [w a] [Hn Hin]%list_elem_of_filter. destruct (H w a Hin) as [Hs (i & Hi & Ho & Hw & Ha)].
    apply Hsel in Hs. cbn [fst snd] in Hn. rewrite Hs, andb_true_l in Hn. assert (existsb (is_item owner w a) (sl_items (w_selections db)) = true) as E.
    { apply existsb_elem. exists i. split; [done|]. unfold is_item. rewrite Ho, Hw, Ha, N.eqb_refl, Z.eqb_refl, bool_decide_true; done. }
    by rewrite E in Hn.
Qed.
Lemma require_selected_ok owner revision (refs : list (Z * string)) db db' u :
  require_selected owner revision (refs.*1, refs.*2) db = Ok (db', u) →
  db' = db ∧ ∀ w a, (w, a) ∈ refs → selected_at (ed_wallets db) owner revision w a.
Proof. unfold require_selected, texts. intros H. tx_inv. bool_prop. split; [done|]. by apply count_invalid_zero. Qed.

(** ** Steps *)
Lemma check_steps_ok wallets items index steps u : check_steps wallets items index steps = Ok u →
  ∀ k s, steps !! k = Some s → check_step wallets items (index + k) s = Ok tt.
Proof.
  revert index. induction steps as [|s steps IH]; intros index H k x Hk; [done|]. cbn [check_steps] in H. tx_inv.
  destruct k as [|k]; cbn in Hk.
  - injection Hk as <-. rewrite Nat.add_0_r. match goal with u : unit |- _ => by destruct u end.
  - rewrite <- Nat.add_succ_comm. by eapply IH.
Qed.
Definition copied (planID : N) (s : ExecutionPlanStep) : plan_step_row := {| psr_plan_id := planID; psr_step := {|
  sp_ordinal := sp_ordinal s; sp_wallet_ordinal := sp_wallet_ordinal s; sp_item_ordinal := sp_item_ordinal s;
  sp_disposition := sp_disposition s; sp_reason_code := trim_space (sp_reason_code s);
  sp_projected_usdc_before := sp_projected_usdc_before s; sp_projected_usdc_after := sp_projected_usdc_after s |} |}.
Lemma copy_row_ok plan s row : copy_row plan s = Ok row → row = copied plan s.
Proof. unfold copy_row, normalizeExecutionPlanCode. cbv zeta. intros H. by tx_inv. Qed.
Lemma copy_rows plan steps rows : mapM (copy_row plan) steps = Ok rows → rows = copied plan <$> steps.
Proof.
  revert rows. induction steps as [|s steps IH]; intros rows H; [by injection H as <-|]. cbn [mapM] in H.
  apply result_bind_ok in H as (row & Hrow%copy_row_ok & H). apply result_bind_ok in H as (rows' & H & [= <-]). rewrite fmap_cons. f_equal; [done|]. by apply IH.
Qed.
Lemma persist_steps_ok plan wallets items steps db db' u :
  persistExecutionPlanSteps plan wallets items steps db = Ok (db', u) →
  length steps = (length wallets * length items)%nat
  ∧ (∀ k s, steps !! k = Some s → check_step wallets items k s = Ok tt)
  ∧ changes db db' plan (set_steps (copied plan <$> steps) (view db plan)).
Proof.
  unfold persistExecutionPlanSteps, DeleteExecutionPlanSteps, copy_plan_steps, texts, put_plan_steps. intros H. tx_inv.
  match goal with H : Nat.eqb _ _ = true |- _ => apply Nat.eqb_eq in H as -> end. split; [done|].
  match goal with H : check_steps _ _ _ _ = Ok _ |- _ => pose proof (check_steps_ok _ _ _ _ _ H) as Hc end. split; [exact Hc|].
  match goal with H : mapM _ _ = Ok _ |- _ => apply copy_rows in H as -> end.
  match goal with H : sql_insert _ _ _ _ _ = Ok _ |- _ => apply sql_insert_ok in H as [-> _] end.
  assert (∀ r, r ∈ copied plan <$> steps → psr_plan_id r = plan) as Hp by (by intros r (s & -> & _)%list_elem_of_fmap).
  cbn [ed_market ed_wallets ed_plans ed_plan_wallets ed_plan_items ed_plan_steps ed_runs].
  apply steps_changes; [|intros id' Hn]; rewrite sql_many_app.
  - rewrite (sql_many_none _ (sql_delete _ _)) by (by intros r [? _]%elem_of_sql_delete). cbn [app]. apply sql_many_all. intros r Hr. apply N.eqb_eq. auto.
  - rewrite (sql_many_none _ (copied plan <$> steps)) by (intros r Hr; apply N.eqb_neq; rewrite (Hp r Hr); congruence).
    rewrite app_nil_r. apply sql_many_delete. intros r Hr%N.eqb_eq. apply N.eqb_neq. congruence.
Qed.
Lemma step_counts steps :
  executionPlanStepCounts steps = (counted ExecutionPlanStepDispositionReady steps, counted ExecutionPlanStepDispositionSkipped steps).
Proof.
  unfold executionPlanStepCounts, counted. set (f := λ counts s, _). set (R := filter (λ s, sp_disposition s = ExecutionPlanStepDispositionReady)).
  set (K := filter (λ s, sp_disposition s = ExecutionPlanStepDispositionSkipped)).
  cut (∀ c, foldl f c steps = (c.1 + Z.of_nat (length (R steps)), c.2 + Z.of_nat (length (K steps)))); [by intros ->|].
  induction steps as [|s steps IH]; intros c; cbn [foldl]; [subst R K; destruct c; cbn; f_equal; lia|]. rewrite IH. subst R K f. cbn [foldl]. rewrite !filter_cons.
  destruct (decide (sp_disposition s = ExecutionPlanStepDispositionReady)) as [E|E].
  - rewrite bool_decide_true by done. destruct (decide (sp_disposition s = ExecutionPlanStepDispositionSkipped)) as [E'|_];
      [rewrite E in E'; done|]. cbn [fst snd length]. f_equal; lia.
  - rewrite bool_decide_false by done. destruct (decide (sp_disposition s = ExecutionPlanStepDispositionSkipped)) as [E'|E'].
    + rewrite bool_decide_true by done. cbn [fst snd length]. f_equal; lia.
    + by rewrite bool_decide_false.
Qed.
Lemma plan_no_rows_ok {A} (m : ep_tx A) e db r : on_no_rows m e db = Ok r → m db = Ok r.
Proof. unfold on_no_rows. by destruct (m db) as [|[]]. Qed.
Lemma timestampParam_Some t n : timestampParam t = Some n → n = pg_time t.
Proof. unfold timestampParam. destruct (t =? 0); by intros [= <-]. Qed.
Lemma leased_when_owned r : plan_check r = true → pl_worker_id r ≠ EmptyString → ∃ e, pl_lease_expires_at r = Some e.
Proof.
  unfold plan_check. intros H Hw. bool_prop. rewrite (bool_decide_false (pl_worker_id r = EmptyString)) in * by done.
  match goal with H : is_none (pl_lease_expires_at r) = _ |- _ => destruct (pl_lease_expires_at r) as [e|]; [by exists e|done] end.
Qed.
Lemma worker_ok v w : normalizeExecutionPlanWorkerID v = Ok w → w = trim_space v ∧ w ≠ EmptyString.
Proof. unfold normalizeExecutionPlanWorkerID. cbv zeta. intros H. tx_inv. bool_prop. done. Qed.

(** ** The transaction *)
Section Ready.
Context {UL : UuidLib} {PT : PgText} {SL : SolanaLib} {PL : PgLower}.
Definition ready_row (now : Z) (req : MarkExecutionPlanReadyRequest) (old : plan_row) : plan_row :=
  finished old ExecutionPlanStateReady "" (Z.of_nat (length (mr_steps req)))
    (counted ExecutionPlanStepDispositionReady (mr_steps req)) (counted ExecutionPlanStepDispositionSkipped (mr_steps req)) (mr_totals req)
    (timestampParam now) (timestampParam (now + executionPlanReadyTTL)) (pg_time (now + executionPlanRetention)) (pg_time now).
Record marked_ready (db db' : EDB) (now : Z) (req : MarkExecutionPlanReadyRequest) (id : N) (old : plan_row)
    (mw : gmap Z ExecutionPlanWalletObservation) (mi : gmap Z ExecutionPlanItemObservation) : Prop := {
  mk_id : ∃ text, plan_uuid "execution plan ID" (mr_plan_id req) = Ok (id, text);
  mk_row : v_row (view db id) = Some old;
  mk_state : pl_state old = ExecutionPlanStateBuilding;
  mk_worker : pl_worker_id old = trim_space (mr_worker_id req) ∧ pl_worker_id old ≠ EmptyString;
  mk_lease : later (pl_lease_expires_at old) now = true;
  mk_combination : ∃ c, GetMarketCombination_query (in_combination_id (pl_intent old)) (pl_owner old) (ed_market db) = Some c
    ∧ cr_revision c = in_combination_revision (pl_intent old);
  mk_selected : ∀ w, w ∈ v_wallets (view db id) → selected_at (ed_wallets db) (pl_owner old) (in_wallet_selection_revision (pl_intent old))
    (pwi_wallet_id (pwr_input w)) (pwi_address (pwr_input w));
  mk_current : ∀ w, w ∈ v_wallets (view db id) → wallet_current mw (ed_wallets db) w;
  mk_observations : indexed wo_ordinal validateExecutionPlanWalletObservation (mr_wallets req) mw;
  mk_markets : indexed io_ordinal validateExecutionPlanItemObservation (mr_items req) mi;
  mk_counts : length (mr_wallets req) = length (v_wallets (view db id)) ∧ length (mr_items req) = length (v_items (view db id))
    ∧ length (mr_steps req) = (length (v_wallets (view db id)) * length (v_items (view db id)))%nat;
  mk_items : ∀ r, r ∈ v_items (view db id) → is_Some (mi !! pir_ordinal r);
  mk_steps : ∀ k s, mr_steps req !! k = Some s → check_step (v_wallets (view db id)) (v_items (view db id)) k s = Ok tt;
  mk_check : plan_check (ready_row now req old) = true;
  mk_change : changes db db' id {|
    v_row := Some (ready_row now req old); v_wallets := observe_wallet mw <$> v_wallets (view db id);
    v_items := observe_item mi <$> v_items (view db id); v_steps := copied id <$> mr_steps req |} }.
Lemma check_row_lookup m (wallets : list plan_wallet_row) db w : (∀ w, w ∈ wallets → wallet_current m db w) → w ∈ wallets → is_Some (m !! pwr_ordinal w).
Proof. intros H Hw. destruct (H w Hw) as (o & _ & _ & Ho & _). by exists o. Qed.
Lemma refs_pairs (rows : list plan_wallet_row) :
  executionPlanStoredWalletReferences rows =
    (((λ w, (pwi_wallet_id (pwr_input w), pwi_address (pwr_input w))) <$> rows).*1, ((λ w, (pwi_wallet_id (pwr_input w), pwi_address (pwr_input w))) <$> rows).*2).
Proof. unfold executionPlanStoredWalletReferences. by rewrite <- !list_fmap_compose. Qed.
Lemma validate_wallets_ok plan rows observations db db' u :
  validateAndPersistExecutionPlanWalletObservations plan rows observations db = Ok (db', u) →
  rows = v_wallets (view db plan) → ∃ m, indexed wo_ordinal validateExecutionPlanWalletObservation observations m
    ∧ length observations = length rows ∧ (∀ w, w ∈ rows → wallet_current m (ed_wallets db) w)
    ∧ changes db db' plan (set_wallets (observe_wallet m <$> rows) (view db plan)).
Proof.
  unfold validateAndPersistExecutionPlanWalletObservations. intros H ->. tx_inv.
  match goal with H : Nat.eqb _ _ = true |- _ => apply Nat.eqb_eq in H as Hlen end.
  match goal with H : index_observations _ _ _ _ = Ok ?m |- _ => apply index_observations_ok in H as Hm; exists m end.
  match goal with H : check_wallets _ _ _ = Ok _ |- _ => pose proof (check_wallets_ok _ _ _ _ H) as Hc end. setoid_rewrite sort_by_elem in Hc.
  match goal with H : persist_wallets _ _ _ _ = Ok _ |- _ => eapply persist_wallets_ok in H; [|exact Hm|intros r Hr; by eapply check_row_lookup]; rename H into C end.
  rewrite update_all in C by (by apply in_rows_true). split_and!; [done|by symmetry|done|exact C].
Qed.
Lemma validate_items_ok plan rows observations db db' u :
  validateAndPersistExecutionPlanItemObservations plan rows observations db = Ok (db', u) →
  rows = v_items (view db plan) → ∃ m, indexed io_ordinal validateExecutionPlanItemObservation observations m
    ∧ length observations = length rows ∧ (∀ r, r ∈ rows → is_Some (m !! pir_ordinal r))
    ∧ changes db db' plan (set_items (observe_item m <$> rows) (view db plan)).
Proof.
  unfold validateAndPersistExecutionPlanItemObservations. intros H ->. tx_inv.
  match goal with H : Nat.eqb _ _ = true |- _ => apply Nat.eqb_eq in H as Hlen end.
  match goal with H : index_observations _ _ _ _ = Ok ?m |- _ => apply index_observations_ok in H as Hm; exists m end.
  match goal with H : persist_items _ _ _ _ = Ok _ |- _ => eapply persist_items_ok in H as [Hs C]; [|exact Hm] end.
  rewrite update_all in C by (by apply in_rows_true). split_and!; [done|by symmetry|done|exact C].
Qed.
Lemma mark_ready_ok clock req db db' p : plan_inv db → MarkExecutionPlanReady clock req db = Ok (db', p) →
  ∃ id old mw mi, marked_ready db db' (canonicalNow clock (mr_now req)) req id old mw mi
    ∧ loadExecutionPlan clock (ready_row (canonicalNow clock (mr_now req)) req old) (canonicalNow clock (mr_now req)) db' = Ok p.
Proof.
  intros I H. unfold MarkExecutionPlanReady in H. cbv zeta in H. set (now := canonicalNow clock (mr_now req)) in *.
  apply tx_bind_ok in H as (? & [id text] & [-> Hid]%tx_lift_ok & H). apply tx_bind_ok in H as (? & worker & [-> Hw]%tx_lift_ok & H).
  apply tx_bind_ok in H as (? & [] & [-> _]%tx_lift_ok & H). apply tx_bind_ok in H as (? & ? & [-> ->]%tx_get_ok & H).
  apply tx_bind_ok in H as (? & old & [-> Hold%of_option_ok]%tx_lift_ok & H). apply tx_bind_ok in H as (? & ? & [-> Hl]%ensure_ok & H).
  apply tx_bind_ok in H as (? & ? & [-> _]%tx_lift_ok & H). apply tx_bind_ok in H as (? & c & [-> Hc%of_option_ok]%tx_lift_ok & H).
  apply tx_bind_ok in H as (? & ? & [-> Hrev%Z.eqb_eq]%ensure_ok & H). apply tx_bind_ok in H as (db0 & ? & Hsel & H). cbn [fst] in *.
  assert (v_row (view db id) = Some old) as Hrow by exact Hold. pose proof (pv_sound _ I id) as S. rewrite (list_wallets_view _ _ _ Hrow S) in *.
  rewrite refs_pairs in Hsel. apply require_selected_ok in Hsel as [-> Hsel]. apply tx_bind_ok in H as (db1 & ? & H1 & H).
  apply validate_wallets_ok in H1 as (mw & Hmw & Lw & Hcur & C1); [|done]. apply tx_bind_ok in H as (? & ? & [-> ->]%tx_get_ok & H).
  assert (ListExecutionPlanItems id db1 = v_items (view db1 id)) as Hit.
  { unfold sound in S. rewrite Hrow in S. rewrite (ch_here _ _ _ _ C1). cbn [set_wallets v_items]. unfold ListExecutionPlanItems.
    change (sql_many _ (ed_plan_items db1)) with (v_items (view db1 id)). rewrite (ch_here _ _ _ _ C1). exact (sort_ordinals _ _ _ (sh_items _ _ S)). }
  rewrite Hit in H. apply tx_bind_ok in H as (db2 & ? & H2 & H). apply validate_items_ok in H2 as (mi & Hmi & Li & Hmis & C2); [|done].
  apply tx_bind_ok in H as (db3 & ? & H3 & H). apply persist_steps_ok in H3 as (Ls & Hst & C3).
  pose proof (changes_trans _ _ _ _ _ _ C1 (changes_trans _ _ _ _ _ _ C2 C3)) as C.
  rewrite (ch_here _ _ _ _ C2), (ch_here _ _ _ _ C1) in C. rewrite (ch_here _ _ _ _ C1) in *. cbn [set_wallets set_items set_steps v_row v_wallets v_items v_steps] in *.
  rewrite step_counts in H. apply tx_bind_ok in H as (db4 & row & H4%plan_no_rows_ok & H).
  unfold MarkExecutionPlanReady_query, texts, not_null in H4. apply tx_bind_ok in H4 as (? & ? & [-> _]%ensure_ok & H4).
  apply tx_bind_ok in H4 as (? & ret & [-> Hret%of_option_ok]%tx_lift_ok & H4). apply timestampParam_Some in Hret as ->.
  eapply (update_plan_ok id) in H4 as (n & old' & Hn & Hold' & _ & -> & Hcheck & C4); [|by apply C, I| |done].
  2: { intros r Hr. unfold holds_lease in Hr. bool_prop. by apply N.eqb_eq. }
  apply timestampParam_Some in Hn as ->. rewrite (ch_here _ _ _ _ C) in Hold', C4. change (v_row (view db id) = Some old') in Hold'.
  rewrite Hrow in Hold'. injection Hold' as <-. pose proof (changes_trans _ _ _ _ _ _ C C4) as CC. cbn [set_row set_steps set_items set_wallets v_row v_wallets v_items v_steps] in CC.
  apply worker_ok in Hw as [-> Hw]. exists id, old, mw, mi. unfold load_plan in H.
  apply tx_bind_ok in H as (? & ? & [-> ->]%tx_get_ok & H). apply tx_lift_ok in H as [-> H]. split; [|done]. bool_prop.
  unfold sound in S. rewrite Hrow in S. destruct (leased_when_owned old (sh_check _ _ S)) as [e He]; [congruence|].
  rewrite He in *. constructor; try done; [by exists text|by split; congruence|..].
  - rewrite He. cbn in *. by apply Z.ltb_lt.
  - exists c. by rewrite <- Hrev.
  - intros w Hin. apply Hsel. apply list_elem_of_fmap. by exists w.
Qed.
End Ready.
