(* ===== verification/PlanInv.v ===== *)
(** * Execution plans: the invariant

    What each operation does to the plans, and that every plan keeps its shape; then the
    histories of operations interleaved with what other components do. *)

From S2P Require Import Prelude Sql CashOutTypes CashOutStore ConnectionTypes ConnectionStore Selection Combination CombinationSpec.
From S2P Require Import CombinationRefine Decimal Plan PlanStore PlanView PlanReady CombinationTheorems.
From stdpp Require Import base tactics option list list_numbers sorting strings gmap relations.
From Stdlib Require Import ZArith Lia Ascii.
#[local] Open Scope Z_scope.

(** ** Shapes *)
Lemma shape_row r row v : shape r v → pl_intent row = pl_intent r → plan_check row = true →
  pl_state r ≠ ExecutionPlanStateReady → pl_state row ≠ ExecutionPlanStateReady → shape row (set_row row v).
Proof.
  intros [? ? ? ? ? ? ? Hs] Hi Hc Hr Hrow. constructor; rewrite ?Hi; try done. rewrite bool_decide_false in Hs by done.
  by rewrite bool_decide_false.
Qed.
Lemma step_shape_of wallets items wn n k s : pwr_ordinal <$> wallets = seqZ 1 wn → pir_ordinal <$> items = seqZ 1 n → 0 ≤ n →
  check_step wallets items k s = Ok tt → ∀ plan, step_shape n k (psr_step (copied plan s)).
Proof.
  intros Hw Hi Hn H plan. assert (Z.of_nat (length items) = n) as Ln.
  { rewrite <- (length_fmap pir_ordinal items), Hi, length_seqZ. lia. }
  unfold check_step, normalizeExecutionPlanCode in H. destruct (wallets !! _) as [w|] eqn:Ew; [|done]. destruct (items !! _) as [i|] eqn:Ei; [|done].
  pose proof (ordinal_at _ _ _ _ _ Hw Ew) as Ow. pose proof (ordinal_at _ _ _ _ _ Hi Ei) as Oi.
  rewrite Nat2Z.inj_div, Ln in Ow. rewrite Nat2Z.inj_mod, Ln in Oi. cbv zeta in H. tx_inv. bool_prop. constructor; cbn [copied psr_step sp_ordinal
    sp_wallet_ordinal sp_item_ordinal sp_disposition sp_reason_code sp_projected_usdc_before sp_projected_usdc_after]; try done; try lia.
  repeat match goal with H : _ ∨ _ |- _ => destruct H end; bool_prop; naive_solver.
Qed.
Lemma counted_copied plan d steps : counted d (psr_step <$> (copied plan <$> steps)) = counted d steps.
Proof.
  unfold counted. f_equal. induction steps as [|s steps IH]; [done|]. rewrite !fmap_cons, !filter_cons. cbn [copied psr_step sp_disposition].
  case_decide; cbn [length]; by rewrite IH.
Qed.
Lemma validate_wallet_connected o : validateExecutionPlanWalletObservation o = Ok tt →
  sn_connection_state (wo_snapshot o) = connected_text ∧ 0 < sn_credential_version (wo_snapshot o)
  ∧ bal_availability (sn_usdc (wo_snapshot o)) = availabilityAvailable.
Proof. unfold validateExecutionPlanWalletObservation. cbv zeta. intros H. tx_inv. bool_prop. done. Qed.
Section Ops.
Context {UL : UuidLib} {PT : PgText} {SL : SolanaLib} {PL : PgLower}.
Lemma shape_ready db db' now req id old mw mi : plan_inv db → marked_ready db db' now req id old mw mi → sound (view db' id).
Proof.
  intros I M. pose proof (pv_sound _ I id) as S. unfold sound in *. rewrite (ch_here _ _ _ _ (mk_change _ _ _ _ _ _ _ _ M)). cbn [v_row].
  rewrite (mk_row _ _ _ _ _ _ _ _ M) in S. destruct (mk_counts _ _ _ _ _ _ _ _ M) as (_ & _ & Ls).
  assert (Z.of_nat (length (v_wallets (view db id))) = in_wallet_count (pl_intent old)) as Lw.
  { rewrite <- (length_fmap pwr_ordinal), (sh_wallets _ _ S), length_seqZ. pose proof (sh_check _ _ S) as Hc. unfold plan_check in Hc. bool_prop. lia. }
  assert (Z.of_nat (length (v_items (view db id))) = in_item_count (pl_intent old)) as Li.
  { rewrite <- (length_fmap pir_ordinal), (sh_items _ _ S), length_seqZ. pose proof (sh_check _ _ S) as Hc. unfold plan_check in Hc. bool_prop. lia. }
  constructor; cbn [v_wallets v_items v_steps ready_row finished pl_intent pl_state]; rewrite <- ?list_fmap_compose;
    [apply M|apply S|apply S| |apply S|apply S| |].
  - rewrite <- (sh_items _ _ S). apply list_fmap_ext. intros i r _. unfold compose, observe_item. by destruct (mi !! _).
  - pose proof (sh_markets _ _ S) as Hm. erewrite list_fmap_ext; [exact Hm|]. intros i r _. unfold compose, observe_item. by destruct (mi !! _).
  - rewrite bool_decide_true by done. constructor; cbn [v_steps v_wallets pl_ready_step_count pl_skipped_step_count ready_row finished pl_intent].
    + rewrite length_fmap, Ls, (sh_total _ _ S), Nat2Z.inj_mul. congruence.
    + intros k row Hk. rewrite list_lookup_fmap in Hk. destruct (mr_steps req !! k) as [s|] eqn:E; [|done]. cbn in Hk. injection Hk as <-.
      eapply step_shape_of; [apply S|apply S|lia|]. by eapply M.
    + by rewrite counted_copied.
    + by rewrite counted_copied.
    + intros w (r & -> & Hr)%list_elem_of_fmap. destruct (mk_current _ _ _ _ _ _ _ _ M r Hr) as (o & _ & _ & Ho & _).
      unfold observed_connected, observe_wallet. rewrite Ho. cbn. pose proof (mk_observations _ _ _ _ _ _ _ _ M) as X.
      apply validate_wallet_connected, (ix_valid _ _ _ _ X). by apply (ix_lookup _ _ _ _ X) in Ho as [? _].
Qed.

(** ** Leases *)
Lemma requested_total a b : requested_first a b = true ∨ requested_first b a = true.
Proof. unfold requested_first, lexicographic. lia. Qed.
Lemma requested_trans a b c : requested_first a b = true → requested_first b c = true → requested_first a c = true.
Proof. unfold requested_first, lexicographic. lia. Qed.
(** The plan the worker gets: the first requested of those without a lease. *)
Record claimed (db : EDB) (busy : N → bool) (n : Z) (old : plan_row) : Prop := {
  cl_row : v_row (view db (pl_id old)) = Some old;
  cl_claimable : claimable (Some n) old = true;
  cl_idle : busy (pl_id old) = false;
  cl_first : ∀ r, r ∈ ed_plans db → claimable (Some n) r = true → busy (pl_id r) = false → requested_first old r = true }.
Definition claimed_row (worker : string) (n : Z) (lease : option Z) (old : plan_row) : plan_row :=
  leased old "CLAIMED" worker (Some n) lease (pl_completed_step_count old) n.
Lemma claim_query_ok busy now worker lease db db' row : NoDup (pl_id <$> ed_plans db) →
  ClaimNextExecutionPlan busy now worker lease db = Ok (db', row) →
  ∃ n old, now = Some n ∧ claimed db busy n old ∧ row = claimed_row worker n lease old ∧ plan_check row = true
    ∧ changes db db' (pl_id old) (set_row row (view db (pl_id old))).
Proof.
  intros Hk H. unfold ClaimNextExecutionPlan, texts in H. tx_inv.
  match goal with H : context [head ?l] |- _ => destruct (head l) as [c|] eqn:E end; [|by tx_inv].
  match goal with H : update_plan _ _ _ _ = Ok _ |- _ => eapply (update_plan_ok (pl_id c)) in H as (n & old & -> & Ho & _ & -> & Hc & C);
    [|exact Hk|by intros r Hr%N.eqb_eq|done] end.
  set (cand := sql_many _ (ed_plans db)) in E. pose proof (sort_by_sorted _ requested_total requested_trans cand) as Hs.
  assert (c ∈ cand) as Hcand by (apply sort_by_elem with (le := requested_first); by apply head_Some_elem_of).
  apply elem_of_sql_many in Hcand as [Hp Hin]. assert (old = c) as -> by (apply (row_lookup _ _ _ Hk) in Ho as [? ?]; by eapply NoDup_key_inj).
  apply andb_true_iff in Hp as [Hp1 Hp2%negb_true_iff]. exists n, c. split_and!; try done. constructor; try done.
  intros r Hr H1 H2. destruct (sort_by requested_first cand) as [|x l] eqn:Es; [done|]. injection E as ->.
  assert (r ∈ c :: l) as [->|Hl]%elem_of_cons.
  { rewrite <- Es. apply sort_by_elem, elem_of_sql_many. by rewrite H1, H2. }
  - destruct (requested_total c c); done.
  - inversion Hs as [|? ? _ HF]; subst. by eapply Forall_forall in HF.
Qed.
Lemma holds_lease_id id worker now r : holds_lease id worker now r = true → pl_id r = id.
Proof. unfold holds_lease. intros H. bool_prop. by apply N.eqb_eq. Qed.
Lemma progress_ok clock p db db' e : NoDup (pl_id <$> ed_plans db) → UpdateExecutionPlanBuildProgress clock p db = Ok (db', e) →
  ∃ id text old n row, plan_uuid "execution plan ID" (bp_plan_id p) = Ok (id, text)
    ∧ timestampParam (canonicalNow clock (bp_now p)) = Some n ∧ v_row (view db id) = Some old
    ∧ holds_lease id (trim_space (bp_worker_id p)) (Some n) old = true ∧ plan_check row = true
    ∧ row = leased old (trim_space (bp_build_stage p)) (trim_space (bp_worker_id p)) (pl_locked_at old)
              (timestampParam (bp_lease_expires_at p)) (bp_completed_step_count p) n
    ∧ e = mapExecutionPlan row ∧ changes db db' id (set_row row (view db id)).
Proof.
  intros Hk H. unfold UpdateExecutionPlanBuildProgress, normalizeExecutionPlanWorkerID, normalizeExecutionPlanCode in H. cbv zeta in H. tx_inv.
  match goal with H : on_no_rows _ _ _ = Ok _ |- _ => apply plan_no_rows_ok in H; rename H into Hq end. unfold UpdateExecutionPlanBuildProgress_query, texts in Hq.
  apply tx_bind_ok in Hq as (? & ? & [-> _]%ensure_ok & Hq). match goal with H : plan_uuid _ _ = Ok ?x |- _ => destruct x as [id text]; rename H into Hid end.
  eapply (update_plan_ok id) in Hq as (n & old & Hn & Ho & Hp & Hrow & Hc & C); [|done|intros r; apply holds_lease_id|done]. cbn [fst] in *.
  exists id, text, old, n. eexists. rewrite Hn in Hp. rewrite Hrow in *. split_and!; try done.
Qed.
Definition failed_row (now : Z) (code : string) (old : plan_row) : plan_row :=
  finished old ExecutionPlanStateFailed code (pl_completed_step_count old) (pl_ready_step_count old) (pl_skipped_step_count old)
    (pl_totals old) (timestampParam now) (pl_expires_at old) (pg_time (now + executionPlanRetention)) (pg_time now).
Lemma failed_ok clock plan worker code now db db' e : NoDup (pl_id <$> ed_plans db) →
  MarkExecutionPlanFailed clock plan worker code now db = Ok (db', e) →
  ∃ id text old, plan_uuid "execution plan ID" plan = Ok (id, text) ∧ v_row (view db id) = Some old
    ∧ holds_lease id (trim_space worker) (timestampParam (canonicalNow clock now)) old = true
    ∧ plan_check (failed_row (canonicalNow clock now) (trim_space code) old) = true
    ∧ changes db db' id (set_row (failed_row (canonicalNow clock now) (trim_space code) old) (view db id)).
Proof.
  intros Hk H. unfold MarkExecutionPlanFailed in H. cbv zeta in H.
  apply tx_bind_ok in H as (? & [id text] & [-> Hid]%tx_lift_ok & H). apply tx_bind_ok in H as (? & w & [-> Hw]%tx_lift_ok & H).
  apply worker_ok in Hw as [-> _]. apply tx_bind_ok in H as (? & c & [-> Hc]%tx_lift_ok & H).
  assert (c = trim_space code) as ->.
  { unfold normalizeExecutionPlanCode in Hc. cbv zeta in Hc. destruct (_ ≫= _) as [c'|] eqn:E; [|done]. tx_inv. by case_bool_decide; simplify_eq. }
  apply tx_bind_ok in H as (db1 & row & Hq%plan_no_rows_ok & H). unfold load_plan in H. apply tx_bind_ok in H as (? & ? & [-> ->]%tx_get_ok & H).
  apply tx_lift_ok in H as [-> _]. unfold MarkExecutionPlanFailed_query, texts, not_null in Hq.
  apply tx_bind_ok in Hq as (? & ? & [-> _]%ensure_ok & Hq). apply tx_bind_ok in Hq as (? & ret & [-> Hr%of_option_ok]%tx_lift_ok & Hq).
  apply timestampParam_Some in Hr as ->.
  eapply (update_plan_ok id) in Hq as (n & old & Hn & Ho & Hp & -> & Hc' & C); [|done|intros r; apply holds_lease_id|done]. cbn [fst] in *.
  pose proof Hn as Hn'. apply timestampParam_Some in Hn' as ->. exists id, text, old. by split_and!.
Qed.

(** ** Creating *)
Lemma normalize_plan_wallets_ok l ids addresses l' : normalize_plan_wallets l ids addresses = Ok l' →
  l' = trim_wallet <$> l ∧ NoDup (pwi_wallet_id <$> l') ∧ NoDup (pwi_address <$> l')
  ∧ (∀ w, w ∈ l' → (pwi_wallet_id w ∉ ids) ∧ (pwi_address w ∉ addresses)).
Proof.
  revert ids addresses l'. induction l as [|w l IH]; intros ids addresses l' H; cbn [normalize_plan_wallets] in H.
  { injection H as <-. split_and!; [done|constructor|constructor|]. by intros ? ?%not_elem_of_nil. }
  cbv zeta in H. tx_inv. bool_prop. match goal with H : normalize_plan_wallets _ _ _ = Ok _ |- _ => apply IH in H as (-> & D1 & D2 & D3) end.
  split_and!; [done|..].
  - rewrite fmap_cons, NoDup_cons. split; [|done]. intros (y & Hy & Hin)%list_elem_of_fmap. destruct (D3 y Hin) as [Hn _]. set_solver.
  - rewrite fmap_cons, NoDup_cons. split; [|done]. intros (y & Hy & Hin)%list_elem_of_fmap. destruct (D3 y Hin) as [_ Hn]. set_solver.
  - intros y [->|Hin]%elem_of_cons; [done|]. destruct (D3 y Hin). set_solver.
Qed.
Lemma numbered_ordinals plan l :
  pir_ordinal <$> ((λ i, new_item plan (ci_ordinal i) (ci_input i)) <$> numbered l) = seqZ 1 (Z.of_nat (length l)).
Proof.
  unfold numbered. apply list_eq. intros k. rewrite <- list_fmap_compose, list_lookup_fmap, list_lookup_imap. destruct (l !! k) eqn:E; cbn.
  - symmetry. apply lookup_seqZ. pose proof (lookup_lt_Some _ _ _ E). lia.
  - symmetry. apply lookup_seqZ_ge. apply lookup_ge_None in E. lia.
Qed.
Lemma numbered_inputs plan l : pir_input <$> ((λ i, new_item plan (ci_ordinal i) (ci_input i)) <$> numbered l) = l.
Proof.
  unfold numbered. apply list_eq. intros k. rewrite <- list_fmap_compose, list_lookup_fmap, list_lookup_imap. by destruct (l !! k).
Qed.
(** What a committed request froze. *)
Record created (db db' : EDB) (now : Z) (req : CreateExecutionPlanRequest) (id owner : N) (c : combination_row) (row : plan_row) : Prop := {
  cd_new : view db id = no_plan;
  cd_combination : GetMarketCombination_query (cr_id c) owner (ed_market db) = Some c;
  cd_revision : cr_revision c = cpr_expected_combination_revision req;
  cd_selected : ∀ w, w ∈ cpr_wallets req →
    selected_at (ed_wallets db) owner (cpr_wallet_selection_revision req) (pwi_wallet_id w) (trim_space (pwi_address w));
  cd_state : (pl_state row, pl_worker_id row, pl_lease_expires_at row) = (ExecutionPlanStateBuilding, EmptyString, None);
  cd_intent : pl_intent row = {| in_id := id; in_owner_account_id := owner; in_combination_id := cr_id c; in_combination_name := cr_name c;
    in_combination_revision := cr_revision c; in_wallet_selection_revision := cpr_wallet_selection_revision req;
    in_wallet_count := Z.of_nat (length (cpr_wallets req)); in_item_count := Z.of_nat (length (be_items (entry_of (ed_market db) c)));
    in_total_step_count := Z.of_nat (length (cpr_wallets req)) * Z.of_nat (length (be_items (entry_of (ed_market db) c)));
    in_requested_at := pg_time now; in_created_at := pg_time now |};
  cd_change : changes db db' id {| v_row := Some row; v_wallets := new_wallets id 0 (trim_wallet <$> cpr_wallets req);
    v_items := (λ i, new_item id (ci_ordinal i) (ci_input i)) <$> numbered (be_items (entry_of (ed_market db) c)); v_steps := [] |} }.
Lemma new_view db id : plan_inv db → v_row (view db id) = None → view db id = no_plan.
Proof. intros I H. pose proof (pv_sound _ I id) as S. unfold sound in S. by rewrite H in S. Qed.
Lemma wallet_refs_pairs (l : list ExecutionPlanWalletInput) :
  executionPlanWalletReferences l = (((λ w, (pwi_wallet_id w, pwi_address w)) <$> l).*1, ((λ w, (pwi_wallet_id w, pwi_address w)) <$> l).*2).
Proof. unfold executionPlanWalletReferences. by rewrite <- !list_fmap_compose. Qed.
Lemma create_ok newID clock req db db' p : plan_inv db → CreateExecutionPlan newID clock req db = Ok (db', p) →
  ∃ owner c row text, created db db' (canonicalNow clock (cpr_now req)) req newID owner c row
    ∧ plan_uuid "owner account ID" (cpr_owner_account_id req) = Ok (owner, text) ∧ sound (view db' newID)
    ∧ ∃ q, loadExecutionPlan clock row (canonicalNow clock (cpr_now req)) db' = Ok q ∧ p = set_plan_owner text q.
Proof.
  intros I H. unfold CreateExecutionPlan in H. cbv zeta in H. set (now := canonicalNow clock (cpr_now req)) in *.
  apply tx_bind_ok in H as (? & [owner text] & [-> Ho]%tx_lift_ok & H). apply tx_bind_ok in H as (? & [comb ct] & [-> Hcomb]%tx_lift_ok & H).
  apply tx_bind_ok in H as (? & ? & [-> _]%ensure_ok & H). apply tx_bind_ok in H as (? & ? & [-> _]%ensure_ok & H).
  apply tx_bind_ok in H as (? & ws & [-> Hws]%tx_lift_ok & H). apply tx_bind_ok in H as (? & ? & [-> ->]%tx_get_ok & H).
  apply tx_bind_ok in H as (? & c & [-> Hc%of_option_ok]%tx_lift_ok & H). apply tx_bind_ok in H as (? & ? & [-> Hrev%Z.eqb_eq]%ensure_ok & H).
  cbn [fst snd] in *. destruct (sql_one_Some _ _ _ Hc) as [Hin [Hid%N.eqb_eq Hown%N.eqb_eq]%andb_true_iff]. subst comb.
  rewrite (load_row _ _ (pv_market _ I) Hin) in H. unfold present in H. cbn [mc_items mc_name mc_revision] in H.
  set (l := be_items (entry_of (ed_market db) c)) in *. apply tx_bind_ok in H as (? & ? & [-> _]%ensure_ok & H).
  apply tx_bind_ok in H as (? & ? & Hsel & H). rewrite wallet_refs_pairs in Hsel. apply require_selected_ok in Hsel as [-> Hsel].
  apply tx_bind_ok in H as (? & ? & [-> _]%ensure_ok & H). apply tx_bind_ok in H as (db1 & row & Hq & H).
  eapply create_plan_query_ok in Hq as (n & Hn & Hnew & C1 & Hcheck & Hint & Hst); [|apply I]. apply timestampParam_Some in Hn as ->.
  apply tx_bind_ok in H as (db2 & ? & C2%create_wallets_ok & H). apply tx_bind_ok in H as (db3 & ? & C3%create_plan_items_ok & H).
  apply tx_bind_ok in H as (db4 & q & Hload & H). apply tx_ret_ok in H as [-> ->]. unfold load_plan in Hload.
  apply tx_bind_ok in Hload as (? & ? & [-> ->]%tx_get_ok & Hload). apply tx_lift_ok in Hload as [-> Hload].
  pose proof (new_view _ _ I Hnew) as Hv. pose proof (changes_trans _ _ _ _ _ _ C1 (changes_trans _ _ _ _ _ _ C2 C3)) as C.
  rewrite (ch_here _ _ _ _ C2), (ch_here _ _ _ _ C1), Hv in C. unfold set_row, set_wallets, set_items, no_plan in C.
  cbn [v_row v_wallets v_items v_steps app] in C.
  unfold normalizeExecutionPlanWallets in Hws. apply result_bind_ok in Hws as (? & Hlen%require_ok & Hws).
  apply normalize_plan_wallets_ok in Hws as (-> & Hn1 & Hn2 & _). bool_prop. unfold MaximumWalletSelectionItems in *.
  assert (length (trim_wallet <$> cpr_wallets req) = length (cpr_wallets req)) as Lw by apply length_fmap.
  assert (length (numbered l) = length l) as Ll by (unfold numbered; apply length_imap). rewrite Lw, Ll in Hint.
  exists owner, c, row, text. split_and!; [|done| |by exists q].
  - constructor; try done. intros w Hw. apply (Hsel (pwi_wallet_id w) (trim_space (pwi_address w))). apply list_elem_of_fmap. exists (trim_wallet w).
    split; [done|]. apply list_elem_of_fmap. eauto.
  - rewrite (ch_here _ _ _ _ C). unfold sound. cbn [v_row]. constructor; cbn [v_wallets v_items v_steps]; rewrite ?Hint;
      cbn [in_total_step_count in_wallet_count in_item_count]; try done.
    + rewrite new_wallets_ordinals; [by rewrite Lw|lia|]. rewrite Lw. unfold max_int32. lia.
    + by rewrite numbered_ordinals.
    + replace (_ <$> _) with (pwi_wallet_id <$> (pwr_input <$> new_wallets newID 0 (trim_wallet <$> cpr_wallets req)));
        [by rewrite new_wallets_inputs|by rewrite <- list_fmap_compose].
    + replace (_ <$> _) with (pwi_address <$> (pwr_input <$> new_wallets newID 0 (trim_wallet <$> cpr_wallets req)));
        [by rewrite new_wallets_inputs|by rewrite <- list_fmap_compose].
    + destruct (cg_items _ (pv_market _ I) c Hin) as (l' & Hl' & _ & Hnd & _).
      replace (_ <$> _) with (mi_market_condition_id <$> (pir_input <$> ((λ i, new_item newID (ci_ordinal i) (ci_input i)) <$> numbered l)));
        [|by rewrite <- list_fmap_compose]. rewrite numbered_inputs. unfold l. cbn [entry_of be_items]. by rewrite Hl', item_rows_input.
    + injection Hst as -> _ _. by rewrite bool_decide_false.
Qed.

(** ** Cleaning up *)
Lemma cleanup_query_ok busy now limit db db' gone : NoDup (pl_id <$> ed_plans db) →
  DeleteExpiredExecutionPlans_query busy now limit db = Ok (db', gone) →
  NoDup (pl_id <$> ed_plans db') ∧ ed_market db' = ed_market db ∧ ed_wallets db' = ed_wallets db ∧ ed_runs db' = ed_runs db
  ∧ (∀ id, id ∈ gone → view db' id = no_plan ∧ ∃ r, v_row (view db id) = Some r ∧ expired_plan now db r = true ∧ busy id = false)
  ∧ (∀ id, id ∉ gone → view db' id = view db id).
Proof.
  intros Hk H. unfold DeleteExpiredExecutionPlans_query, put_plans, put_plan_wallets, put_plan_items, put_plan_steps in H. cbv zeta in H. tx_inv.
  set (gone := pl_id <$> take _ _). assert (∀ id, existsb (N.eqb id) gone = true ↔ id ∈ gone) as Ha.
  { intros id. rewrite existsb_elem. split; [by intros (x & ? & ->%N.eqb_eq)|]. intros; exists id. by rewrite N.eqb_refl. }
  assert (∀ id, id ∉ gone → existsb (N.eqb id) gone = false) as Hn by (intros id; rewrite <- Ha; apply not_true_is_false).
  cbn [ed_market ed_wallets ed_plans ed_plan_wallets ed_plan_items ed_plan_steps ed_runs].
  split; [by apply NoDup_sql_many|]. split_and!; try done.
  - intros id Hid. split.
    + unfold view, plan_steps, no_plan. cbn [ed_plans ed_plan_wallets ed_plan_items ed_plan_steps]. apply Ha in Hid. f_equal.
      1: { destruct (sql_one _ _) as [r|] eqn:E; [|done]. apply sql_one_Some in E as [[Hd Hr]%elem_of_sql_delete Hi%N.eqb_eq]. rewrite Hi in Hd. congruence. }
      all: apply sql_many_none; intros r [Hd _]%elem_of_sql_delete; apply N.eqb_neq; congruence.
    + unfold gone in Hid. apply list_elem_of_fmap in Hid as (r & -> & Hr). eapply list_elem_of_lookup in Hr as [k Hk'].
      apply lookup_take_Some in Hk' as [Hk' _]. apply list_elem_of_lookup_2, sort_by_elem, elem_of_sql_many in Hk' as [[Hp Hb%negb_true_iff]%andb_true_iff Hr].
      exists r. split_and!; [by apply (row_lookup _ _ _ Hk)|done|done].
  - intros id Hid. apply Hn in Hid. unfold view, plan_steps. cbn [ed_plans ed_plan_wallets ed_plan_items ed_plan_steps]. f_equal.
    1: { apply option_eq. intros r. rewrite !row_lookup; [|done|by apply NoDup_sql_many]. rewrite elem_of_sql_delete. split; [tauto|].
         intros [? ?]. split_and!; [congruence|done|done]. }
    all: apply sql_many_delete; intros r Hr%N.eqb_eq; congruence.
Qed.
End Ops.

(** * Execution plans: histories

    The operations of the plan store interleaved with everything other components do to
    the tables plans read: every plan keeps its shape, a finished plan never changes, and
    a plan under lease belongs to one worker. *)
#[local] Open Scope Z_scope.

Inductive plan_op :=
| PlanCreate (newID : N) (clock : Z) (req : CreateExecutionPlanRequest)
| PlanClaim (busy : N → bool) (clock : Z) (worker : string) (timeout now : Z)
| PlanProgress (clock : Z) (progress : ExecutionPlanBuildProgress)
| PlanReady (clock : Z) (req : MarkExecutionPlanReadyRequest)
| PlanFail (clock : Z) (plan worker code : string) (now : Z)
| PlanCleanup (busy : N → bool) (clock now limit : Z).
(** Who asks, and when. *)
Definition op_worker (o : plan_op) : option string :=
  match o with
  | PlanClaim _ _ worker _ _ => Some (trim_space worker)
  | PlanProgress _ p => Some (trim_space (bp_worker_id p))
  | PlanReady _ req => Some (trim_space (mr_worker_id req))
  | PlanFail _ _ worker _ _ => Some (trim_space worker)
  | PlanCreate _ _ _ | PlanCleanup _ _ _ _ => None
  end.
Definition op_now (o : plan_op) : Z :=
  match o with
  | PlanCreate _ clock req => canonicalNow clock (cpr_now req)
  | PlanClaim _ clock _ _ now => canonicalNow clock now
  | PlanProgress clock p => canonicalNow clock (bp_now p)
  | PlanReady clock req => canonicalNow clock (mr_now req)
  | PlanFail clock _ _ _ now => canonicalNow clock now
  | PlanCleanup _ clock now _ => canonicalNow clock now
  end.
Definition with_market (m : MDB) (db : EDB) : EDB :=
  Build_EDB m (ed_wallets db) (ed_plans db) (ed_plan_wallets db) (ed_plan_items db) (ed_plan_steps db) (ed_runs db).
Definition with_wallets (w : WDB) (db : EDB) : EDB :=
  Build_EDB (ed_market db) w (ed_plans db) (ed_plan_wallets db) (ed_plan_items db) (ed_plan_steps db) (ed_runs db).
Definition with_runs (runs : list N) (db : EDB) : EDB :=
  Build_EDB (ed_market db) (ed_wallets db) (ed_plans db) (ed_plan_wallets db) (ed_plan_items db) (ed_plan_steps db) runs.
Definition no_plans (w : WDB) (runs : list N) : EDB := Build_EDB no_rows w [] [] [] [] runs.

Section System.
Context {UL : UuidLib} {PT : PgText} {SL : SolanaLib} {PL : PgLower} {BL : Base58Laws}.
Definition plan_step (o : plan_op) : ep_tx unit :=
  match o with
  | PlanCreate newID clock req => _ ← CreateExecutionPlan newID clock req; mret tt
  | PlanClaim busy clock worker timeout now => _ ← ClaimExecutionPlan busy clock worker timeout now; mret tt
  | PlanProgress clock p => _ ← UpdateExecutionPlanBuildProgress clock p; mret tt
  | PlanReady clock req => _ ← MarkExecutionPlanReady clock req; mret tt
  | PlanFail clock plan worker code now => _ ← MarkExecutionPlanFailed clock plan worker code now; mret tt
  | PlanCleanup busy clock now limit => _ ← DeleteExpiredExecutionPlans busy clock now limit; mret tt
  end.
(** An operation commits or changes nothing; combinations, wallets and runs change as
    their own components change them. *)
Inductive plan_next (db : EDB) : EDB → Prop :=
| next_plan o : plan_next db (run_tx (plan_step o) db).1
| next_market m : combination_next (ed_market db) m → plan_next db (with_market m db)
| next_wallets w : plan_next db (with_wallets w db)
| next_runs runs : plan_next db (with_runs runs db).
Definition plan_reachable (db : EDB) : Prop := ∃ w runs, rtc plan_next (no_plans w runs) db.

(** ** What an operation does to each plan *)
(** Between two views of one plan, under operation [o] on [db]. *)
Inductive plan_move (db : EDB) (o : plan_op) (id : N) : plan_view → plan_view → Prop :=
| move_none v : plan_move db o id v v
| move_created db' owner c row clock req : o = PlanCreate id clock req →
    created db db' (op_now o) req id owner c row → plan_move db o id no_plan (view db' id)
| move_claimed v busy clock worker timeout now n lease old : o = PlanClaim busy clock worker timeout now →
    v_row v = Some old → pl_id old = id → timestampParam (op_now o) = Some n → claimed db busy n old →
    plan_move db o id v (set_row (claimed_row (trim_space worker) n lease old) v)
| move_progress v clock p old n : o = PlanProgress clock p → v_row v = Some old → timestampParam (op_now o) = Some n →
    holds_lease id (trim_space (bp_worker_id p)) (Some n) old = true →
    plan_move db o id v (set_row (leased old (trim_space (bp_build_stage p)) (trim_space (bp_worker_id p)) (pl_locked_at old)
      (timestampParam (bp_lease_expires_at p)) (bp_completed_step_count p) n) v)
| move_ready db' clock req old mw mi : o = PlanReady clock req → marked_ready db db' (op_now o) req id old mw mi →
    plan_move db o id (view db id) (view db' id)
| move_failed v clock plan worker code now old : o = PlanFail clock plan worker code now → v_row v = Some old →
    holds_lease id (trim_space worker) (timestampParam (op_now o)) old = true →
    plan_move db o id v (set_row (failed_row (op_now o) (trim_space code) old) v)
| move_deleted v busy clock now limit old : o = PlanCleanup busy clock now limit → v_row v = Some old →
    expired_plan (timestampParam (op_now o)) db old = true → busy id = false → plan_move db o id v no_plan.
Lemma lease_state id worker now r : holds_lease id worker now r = true → pl_state r = ExecutionPlanStateBuilding ∧ pl_worker_id r = worker.
Proof. unfold holds_lease. intros H. bool_prop. done. Qed.
Lemma sound_row v r : sound v → v_row v = Some r → shape r v.
Proof. unfold sound. by intros H E; rewrite E in H. Qed.
Lemma row_sound r row v : sound v → v_row v = Some r → pl_state r = ExecutionPlanStateBuilding → pl_intent row = pl_intent r →
  plan_check row = true → pl_state row ≠ ExecutionPlanStateReady → sound (set_row row v).
Proof. intros S E Hs Hi Hc Hr. unfold sound. cbn [set_row v_row]. eapply shape_row; [by eapply sound_row|done|done| |done]. by rewrite Hs. Qed.
Lemma unmoved db o id : plan_move db o id (view db id) (view db id).
Proof. constructor. Qed.
Lemma moved db db' o id v : changes db db' id v → plan_move db o id (view db id) v → ∀ id', plan_move db o id' (view db id') (view db' id').
Proof.
  intros C M id'. destruct (decide (id' = id)) as [->|Hn]; [by rewrite (ch_here _ _ _ _ C)|]. rewrite (ch_other _ _ _ _ C) by done. constructor.
Qed.
Lemma claim_ok busy clock worker timeout now db db' p : NoDup (pl_id <$> ed_plans db) →
  ClaimExecutionPlan busy clock worker timeout now db = Ok (db', p) →
  (db' = db ∧ p = None) ∨ ∃ n lease old q, timestampParam (canonicalNow clock now) = Some n ∧ claimed db busy n old
    ∧ lease = timestampParam (canonicalNow clock now + timeout)
    ∧ plan_check (claimed_row (trim_space worker) n lease old) = true
    ∧ changes db db' (pl_id old) (set_row (claimed_row (trim_space worker) n lease old) (view db (pl_id old)))
    ∧ loadExecutionPlan clock (claimed_row (trim_space worker) n lease old) (canonicalNow clock now) db' = Ok q ∧ p = Some q.
Proof.
  intros Hk H. unfold ClaimExecutionPlan in H. cbv zeta in H. apply tx_bind_ok in H as (? & w & [-> Hw]%tx_lift_ok & H).
  apply worker_ok in Hw as [-> _]. apply tx_bind_ok in H as (? & ? & [-> _]%ensure_ok & H). apply tx_bind_ok in H as (db1 & row & Hq & H).
  destruct (ClaimNextExecutionPlan _ _ _ _ db) as [[db2 row2]|[]] eqn:E; try done.
  - injection Hq as <- <-. apply claim_query_ok in E as (n & old & Hn & Hc & -> & Hch & C); [|done].
    apply tx_bind_ok in H as (db3 & q & Hl & H). apply tx_ret_ok in H as [-> ->]. unfold load_plan in Hl.
    apply tx_bind_ok in Hl as (? & ? & [-> ->]%tx_get_ok & Hl). apply tx_lift_ok in Hl as [-> Hl]. right.
    exists n, (timestampParam (canonicalNow clock now + timeout)), old, q. by split_and!.
  - injection Hq as <- <-. apply tx_ret_ok in H as [-> ->]. by left.
Qed.
Lemma claimable_building n r : claimable n r = true → pl_state r = ExecutionPlanStateBuilding.
Proof. unfold claimable. intros H. by bool_prop. Qed.
Lemma step_moves o db db' u : plan_inv db → plan_step o db = Ok (db', u) →
  plan_inv db' ∧ ∀ id, plan_move db o id (view db id) (view db' id).
Proof.
  intros I H. destruct o as [newID clock req|busy clock worker timeout now|clock p|clock req|clock plan worker code now|busy clock now limit];
    cbn [plan_step] in H; apply tx_bind_ok in H as (db1 & e & H & Hr); apply tx_ret_ok in Hr as [-> _].
  - apply create_ok in H as (owner & c & row & text & Hc & _ & S & _); [|done]. pose proof (cd_change _ _ _ _ _ _ _ _ Hc) as C.
    split; [eapply changes_inv; [done|exact C|by rewrite <- (ch_here _ _ _ _ C)]|]. eapply moved; [exact C|].
    rewrite (cd_new _ _ _ _ _ _ _ _ Hc), <- (ch_here _ _ _ _ C). by eapply move_created.
  - apply claim_ok in H as [[-> _]|(n & lease & old & q & Hn & Hc & _ & Hch & C & _)]; [split; [done|intros; constructor]| |apply I].
    pose proof (claimable_building _ _ (cl_claimable _ _ _ _ Hc)) as Hs. split.
    + eapply changes_inv; [done|exact C|]. eapply row_sound; [apply I|apply Hc|done|done|done|cbn; by rewrite Hs].
    + eapply moved; [exact C|]. eapply move_claimed; [done|apply Hc|done|exact Hn|exact Hc].
  - apply progress_ok in H as (id & text & old & n & row & _ & Hn & Ho & Hl & Hch & -> & _ & C); [|apply I].
    destruct (lease_state _ _ _ _ Hl) as [Hs _]. split.
    + eapply changes_inv; [done|exact C|]. eapply row_sound; [apply I|exact Ho|done|done|done|cbn; by rewrite Hs].
    + eapply moved; [exact C|]. by eapply move_progress.
  - apply mark_ready_ok in H as (id & old & mw & mi & M & _); [|done]. pose proof (mk_change _ _ _ _ _ _ _ _ M) as C. split.
    + eapply changes_inv; [done|exact C|]. rewrite <- (ch_here _ _ _ _ C). by eapply shape_ready.
    + eapply moved; [exact C|]. rewrite <- (ch_here _ _ _ _ C). by eapply move_ready.
  - apply failed_ok in H as (id & text & old & _ & Ho & Hl & Hch & C); [|apply I]. destruct (lease_state _ _ _ _ Hl) as [Hs _]. split.
    + eapply changes_inv; [done|exact C|]. eapply row_sound; [apply I|exact Ho|done|done|done|done].
    + eapply moved; [exact C|]. by eapply move_failed.
  - unfold DeleteExpiredExecutionPlans in H. apply tx_bind_ok in H as (? & ? & [-> _]%ensure_ok & H). apply tx_bind_ok in H as (db2 & gone & H & Hr).
    apply tx_ret_ok in Hr as [-> _]. apply cleanup_query_ok in H as (Hk & Hm & _ & _ & Hg & Hn); [|apply I]. split.
    + constructor; [done| |rewrite Hm; apply I]. intros id. destruct (decide (id ∈ gone)) as [Hi|Hi]; [by rewrite (proj1 (Hg id Hi))|].
      rewrite Hn by done. apply I.
    + intros id. destruct (decide (id ∈ gone)) as [Hi|Hi]; [|rewrite Hn by done; constructor].
      destruct (Hg id Hi) as (-> & r & Hr & He & Hb). by eapply move_deleted.
Qed.
Lemma run_step o db : plan_inv db →
  plan_inv (run_tx (plan_step o) db).1 ∧ ∀ id, plan_move db o id (view db id) (view (run_tx (plan_step o) db).1 id).
Proof.
  intros I. unfold run_tx. destruct (plan_step o db) as [[db' u]|e] eqn:E; cbn [fst]; [by eapply step_moves|]. split; [done|]. intros id. constructor.
Qed.
Lemma next_inv db db' : plan_next db db' → plan_inv db → plan_inv db'.
Proof using BL.
  intros [o|m Hm|w|runs] I; [by apply run_step|..]; destruct I as [K S M]; constructor; try done. cbn. by eapply next_good.
Qed.
Lemma no_plans_inv w runs : plan_inv (no_plans w runs).
Proof. constructor; [constructor|done|apply no_rows_good]. Qed.
Lemma plan_reachable_inv db : plan_reachable db → plan_inv db.
Proof using BL.
  intros (w & runs & H). refine (rtc_ind_r plan_inv _ (no_plans_inv w runs) _ db H). intros x y _ Hxy. by apply next_inv.
Qed.
End System.
