(* ===== verification/PlanScenario.v ===== *)
(** * Execution plans: a scenario

    One account with two selected wallets and a combination of two markets requests a plan,
    a worker claims it and completes it: the first wallet pays for both markets, the second
    for the first one only.  The theorems on plans are applied to it. *)

From S2P Require Import Prelude Sql CashOutTypes CashOutStore ConnectionTypes ConnectionStore Selection Combination CombinationSpec.
From S2P Require Import CombinationRefine CombinationTheorems Decimal Plan PlanStore PlanView PlanReady PlanInv.
From stdpp Require Import base tactics option list list_numbers sorting strings gmap relations.
From Stdlib Require Import ZArith Lia Ascii.
#[local] Open Scope Z_scope.
Import Prelude.Concrete.

Definition second : Z := 1000000000.
Definition plan_wallet (n : Z) : ExecutionPlanWalletInput := {|
  pwi_wallet_id := n; pwi_address := public_key_string (Z.to_N n); pwi_remark := "savings"; pwi_avatar_kind := "PRESET"; pwi_avatar_preset_id := "cat";
  pwi_avatar_url := "" |}.
Definition connected_wallet (n : Z) : connection_row := {|
  cn_wallet_id := n; cn_address := public_key_string (Z.to_N n); cn_state := ConnectionStateConnected; cn_warning_code := "";
  cn_connected_at := Some second; cn_created_at := second; cn_updated_at := second |}.
Definition wallet_credential (n : Z) : credential_row := {|
  kr_id := n; kr_wallet_id := n; kr_version := 1; kr_state := CredentialStateActive; kr_api_key_ciphertext := "k"; kr_api_secret_ciphertext := "s";
  kr_created_at := second; kr_updated_at := second |}.
Definition sample_wallets : WDB := {|
  w_connections := [connected_wallet 41; connected_wallet 42]; w_credentials := [wallet_credential 41; wallet_credential 42]; w_attempts := [];
  w_selections := {|
    sl_selections := [{| se_owner_account_id := 7; se_revision := 3; se_selected_wallet_count := 2; se_created_at := second; se_updated_at := second |}];
    sl_items := (λ n, {| sit_owner_account_id := 7; sit_ordinal := n - 40; sit_wallet_id := n; sit_address := public_key_string (Z.to_N n);
                         sit_selected_at := second |}) <$> [41; 42];
    sl_retirements := []; sl_holds := [] |} |}.
Definition sample_create : CreateExecutionPlanRequest := {|
  cpr_owner_account_id := account 7; cpr_combination_id := account 9; cpr_expected_combination_revision := 1; cpr_wallet_selection_revision := 3;
  cpr_wallets := [plan_wallet 41; plan_wallet 42]; cpr_now := 10 * second |}.
Definition usdc (atomic amount : string) : balance_snapshot := {|
  bal_atomic_amount := atomic; bal_amount := amount; bal_decimals := 6; bal_observed_slot := 900; bal_availability := "AVAILABLE"; bal_error_code := "" |}.
Definition sample_observation (k : Z) (atomic amount : string) : ExecutionPlanWalletObservation := {|
  wo_ordinal := k; wo_connected_at := second; wo_snapshot := {|
    sn_connection_state := "CONNECTED"; sn_connection_warning_code := ""; sn_credential_version := 1;
    sn_sol := {| bal_atomic_amount := "5"; bal_amount := "0.000000005"; bal_decimals := 9; bal_observed_slot := 901; bal_availability := "AVAILABLE";
                 bal_error_code := "" |};
    sn_usdc_mint := public_key_string 60; sn_usdc := usdc atomic amount; sn_usdc_token_account_count := 1; sn_status := "COMPLETE"; sn_reason_code := "" |} |}.
Definition sample_item (k : Z) : ExecutionPlanItemObservation := {|
  io_ordinal := k; io_snapshot := {|
    is_backend := "WORM"; is_funds := "10"; is_leverage := "2"; is_state := "READY"; is_reason_code := "";
    is_estimate := {| pe_average_price := "0.5"; pe_total_shares := "40"; pe_total_cost := "20"; pe_best_ask := "0.5"; pe_worst_fill_price := "0.5";
                      pe_is_fully_filled := true; pe_fee_amount := "0.1"; pe_user_funds_needed := "10.1"; pe_liquidation_price := "0.25" |} |} |}.
Definition sample_step (k w i : Z) (reason before after : string) : ExecutionPlanStep := {|
  sp_ordinal := k; sp_wallet_ordinal := w; sp_item_ordinal := i;
  sp_disposition := if bool_decide (reason = EmptyString) then ExecutionPlanStepDispositionReady else ExecutionPlanStepDispositionSkipped;
  sp_reason_code := reason; sp_projected_usdc_before := before; sp_projected_usdc_after := after |}.
Definition sample_ready : MarkExecutionPlanReadyRequest := {|
  mr_plan_id := account 11; mr_worker_id := " w1 "; mr_wallets := [sample_observation 1 "21000000" "21"; sample_observation 2 "12500000" "12.5"];
  mr_items := [sample_item 1; sample_item 2];
  mr_steps := [sample_step 1 1 1 "" "21" "10.9"; sample_step 2 1 2 "" "10.9" "0.8"; sample_step 3 2 1 "" "12.5" "2.4";
               sample_step 4 2 2 "INSUFFICIENT_USDC" "2.4" "2.4"];
  mr_totals := {| tot_collateral := "30"; tot_opening_fee := "0.3"; tot_user_funds_needed := "30.3" |}; mr_now := 30 * second |}.

Definition plan_wait : N → bool := λ _, false.
Definition do_plan (o : plan_op) (db : EDB) : EDB := (run_tx (plan_step o) db).1.
Definition plan_start : EDB := with_market sample_store (no_plans sample_wallets []).
Definition plan_requested : EDB := do_plan (PlanCreate 11 0 sample_create) plan_start.
Definition plan_claimed : EDB := do_plan (PlanClaim plan_wait 0 "w1" (60 * second) (20 * second)) plan_requested.
Definition plan_done : EDB := do_plan (PlanReady 0 sample_ready) plan_claimed.

Lemma do_ready clock req db db' p : MarkExecutionPlanReady clock req db = Ok (db', p) → do_plan (PlanReady clock req) db = db'.
Proof. intros H. unfold do_plan, run_tx. cbn [plan_step]. unfold mbind, tx_bind. by rewrite H. Qed.
Lemma plan_start_reachable : plan_reachable plan_start.
Proof. exists sample_wallets, []. apply rtc_once. apply next_market. constructor. Qed.
Lemma reach_step o db : plan_reachable db → plan_reachable (do_plan o db).
Proof. intros (w & runs & H). exists w, runs. eapply rtc_r; [exact H|apply next_plan]. Qed.
Lemma plan_requested_reachable : plan_reachable plan_requested.
Proof. apply reach_step, plan_start_reachable. Qed.
Lemma plan_claimed_reachable : plan_reachable plan_claimed.
Proof. apply reach_step, plan_requested_reachable. Qed.
Lemma plan_done_reachable : plan_reachable plan_done.
Proof. apply reach_step, plan_claimed_reachable. Qed.
Example plan_states : pl_state <$> (ed_plans plan_requested ++ ed_plans plan_claimed ++ ed_plans plan_done)
  = [ExecutionPlanStateBuilding; ExecutionPlanStateBuilding; ExecutionPlanStateReady].
Proof. vm_compute. reflexivity. Qed.

(** The rows of the plan at the three moments. *)
Definition blank_row : plan_row := {|
  pl_intent := {| in_id := 0; in_owner_account_id := 0; in_combination_id := 0; in_combination_name := ""; in_combination_revision := 0;
    in_wallet_selection_revision := 0; in_wallet_count := 0; in_item_count := 0; in_total_step_count := 0; in_requested_at := 0; in_created_at := 0 |};
  pl_state := ExecutionPlanStateFailed; pl_build_stage := ""; pl_failure_code := ""; pl_worker_id := ""; pl_locked_at := None; pl_lease_expires_at := None;
  pl_completed_step_count := 0; pl_ready_step_count := 0; pl_skipped_step_count := 0; pl_totals := mr_totals sample_ready; pl_completed_at := None;
  pl_expires_at := None; pl_retention_until := 0; pl_updated_at := 0 |}.
Definition sample_row (db : EDB) : plan_row := default blank_row (v_row (view db 11)).
(** Another worker asks for work while the first one has the plan, and again afterwards. *)
Definition plan_contended : EDB := do_plan (PlanClaim plan_wait 0 "w2" (60 * second) (30 * second)) plan_claimed.
Definition plan_later : EDB := do_plan (PlanFail 0 (account 11) "w1" "TIMEOUT" (31 * second)) plan_done.
