(* ===== verification/PlanTheorems.v ===== *)
(** * Execution plans: theorems *)

From S2P Require Import Prelude Sql CashOutTypes CashOutStore ConnectionTypes ConnectionStore Selection Combination CombinationSpec.
From S2P Require Import CombinationRefine CombinationTheorems Decimal Plan PlanStore PlanView PlanReady PlanInv PlanScenario.
From stdpp Require Import base tactics option list list_numbers sorting strings gmap relations.
From Stdlib Require Import ZArith Lia Ascii.
#[local] Open Scope Z_scope.

Section Theorems.
Context {UL : UuidLib} {PT : PgText} {SL : SolanaLib} {PL : PgLower} {BL : Base58Laws}.

(** C15: In every database reached from one without plans, whatever the store's operations and the
    other components do, each plan has its wallets and its items under the ordinals from one,
    all different, as many as it says; a plan that is not READY has no steps; a READY one has
    exactly one step for every wallet and item, wallet by wallet, numbered from one, READY
    without a reason or SKIPPED with one, its counts are the counts of its steps, and all its
    wallets were observed connected with their USDC balance; identifiers are unique. *)
Theorem plan_invariant db : plan_reachable db → NoDup (pl_id <$> ed_plans db) ∧ ∀ id, sound (view db id).
Proof using BL. intros I%plan_reachable_inv. split; apply I. Qed.

(** ** Finished plans *)
Lemma finished_moves db o id v v' r : plan_move db o id v v' → v = view db id → v_row v = Some r → pl_state r ≠ ExecutionPlanStateBuilding →
  v' = v ∨ (v' = no_plan ∧ ∃ busy clock now limit, o = PlanCleanup busy clock now limit
              ∧ expired_plan (timestampParam (op_now o)) db r = true).
Proof.
  intros M E Hr Hs.
  destruct M as [v|db' owner c row clock req _ Hc|v busy clock worker timeout now n lease old -> Ho Hid Hn Hc|v clock p old n -> Ho Hn Hl
    |db' clock req old mw mi -> M|v clock plan worker code now old -> Ho Hl|v busy clock now limit old -> Ho He Hb]; try (rewrite Ho in Hr; injection Hr as ->).
  - by left.
  - done.
  - by destruct (Hs (claimable_building _ _ (cl_claimable _ _ _ _ Hc))).
  - by destruct (Hs (proj1 (lease_state _ _ _ _ Hl))).
  - rewrite (mk_row _ _ _ _ _ _ _ _ M) in Hr. injection Hr as ->. by destruct (Hs (mk_state _ _ _ _ _ _ _ _ M)).
  - by destruct (Hs (proj1 (lease_state _ _ _ _ Hl))).
  - right. eauto 10.
Qed.
(** The cleanup that removes the finished plan [r] of [db]. *)
Record plan_removed (db db' : EDB) (id : N) (r : plan_row) : Prop := {
  pr_cleanup : ∃ busy clock now limit n, db' = (run_tx (plan_step (PlanCleanup busy clock now limit)) db).1
    ∧ timestampParam (canonicalNow clock now) = Some n ∧ pl_retention_until r ≤ n;
  pr_unused : id ∉ ed_runs db;
  pr_gone : view db' id = no_plan }.

(** C28: A READY or FAILED plan never changes again, nor do its wallets, items and steps, whatever
    operations, retries and other components follow: the only thing that can happen to it is
    that a cleanup after the end of its retention removes it as a whole, and only while no
    execution run was made of it. *)
Theorem finished_plan_frozen db db' id r :
  plan_reachable db → v_row (view db id) = Some r → pl_state r ≠ ExecutionPlanStateBuilding → rtc plan_next db db' →
  view db' id = view db id
  ∨ ∃ db1 db2, rtc plan_next db db1 ∧ view db1 id = view db id ∧ plan_removed db1 db2 id r ∧ rtc plan_next db2 db'.
Proof using BL.
  intros I%plan_reachable_inv Hr Hs H. induction H as [db|db db1 db' Hn H IH]; [by left|].
  assert (view db1 id = view db id ∨ plan_removed db db1 id r) as [E|R].
  { pose proof Hn as Hn'. destruct Hn as [o|m Hm|w|runs]; [|by left..]. destruct (run_step o db I) as [_ M]. specialize (M id).
    eapply finished_moves in M as [M|(M & busy & clock & now & limit & -> & He)]; [by left| |done|exact Hr|exact Hs]. right.
    unfold expired_plan in He. destruct (timestampParam _) as [n|] eqn:En; bool_prop; [|done]. constructor; [by exists busy, clock, now, limit, n| |done].
    intros Hin. match goal with H : existsb _ _ = false |- _ => rewrite existsb_elem_false in H; specialize (H id Hin) end.
    apply (row_lookup _ _ _ (pv_keys _ I)) in Hr as [_ <-]. by rewrite N.eqb_refl in *. }
  - rewrite <- E in Hr. apply IH in Hr as [Hv|(db2 & db3 & H1 & Hv & R & H3)]; [left; congruence| |by eapply next_inv]. right.
    exists db2, db3. split_and!; [by eapply rtc_l|congruence|done|done].
  - right. exists db, db1. split_and!; [done|done|done|done].
Qed.

(** ** Leases *)
(** Steps of others before [e]: not those of worker [w]. *)
Inductive others_next (w : string) (e : Z) (db : EDB) : EDB → Prop :=
| others_plan o : op_worker o ≠ Some w → op_now o < e → others_next w e db (run_tx (plan_step o) db).1
| others_market m : combination_next (ed_market db) m → others_next w e db (with_market m db)
| others_wallets x : others_next w e db (with_wallets x db)
| others_runs runs : others_next w e db (with_runs runs db).
Lemma pg_time_le t : pg_time t ≤ t.
Proof. unfold pg_time. pose proof (Z.mod_pos_bound t 1000). lia. Qed.
Lemma leased_moves db o id v v' r e : plan_move db o id v v' → v = view db id → v_row v = Some r → pl_state r = ExecutionPlanStateBuilding →
  pl_lease_expires_at r = Some e → op_worker o ≠ Some (pl_worker_id r) → op_now o < e → v' = v.
Proof.
  intros M E Hr Hs He Hw Ht.
  destruct M as [v|db' owner c row clock req _ Hc|v busy clock worker timeout now n lease old -> Ho Hid Hn Hc|v clock p old n -> Ho Hn Hl
    |db' clock req old mw mi -> M|v clock plan worker code now old -> Ho Hl|v busy clock now limit old -> Ho He' Hb]; try (rewrite Ho in Hr; injection Hr as ->).
  - done.
  - done.
  - exfalso. apply timestampParam_Some in Hn as ->. pose proof (cl_claimable _ _ _ _ Hc) as Hc'. unfold claimable in Hc'. rewrite He in Hc'.
    bool_prop. pose proof (pg_time_le (op_now (PlanClaim busy clock worker timeout now))). lia.
  - exfalso. apply lease_state in Hl as [_ Hl]. apply Hw. cbn. by rewrite Hl.
  - exfalso. rewrite (mk_row _ _ _ _ _ _ _ _ M) in Hr. injection Hr as ->. apply Hw. cbn. by rewrite <- (proj1 (mk_worker _ _ _ _ _ _ _ _ M)).
  - exfalso. apply lease_state in Hl as [_ Hl]. apply Hw. cbn. by rewrite Hl.
  - exfalso. unfold expired_plan in He'. bool_prop. done.
Qed.

(** C17: While a worker holds the lease of a plan, the plan is its own: until the lease ends no
    operation of another worker, of an owner or of the cleanup changes the plan, its wallets,
    its items or its steps, in whatever order they and the other components act. *)
Theorem plan_lease_exclusive db db' id r e :
  plan_reachable db → v_row (view db id) = Some r → pl_state r = ExecutionPlanStateBuilding → pl_lease_expires_at r = Some e →
  rtc (others_next (pl_worker_id r) e) db db' → view db' id = view db id.
Proof using BL.
  intros I%plan_reachable_inv Hr Hs He H. induction H as [db|db db1 db' Hn H IH]; [done|].
  assert (plan_inv db1 ∧ view db1 id = view db id) as [I1 E].
  { destruct Hn as [o Hw Ht|m Hm|x|runs].
    - destruct (run_step o db I) as [I1 M]. split; [done|]. by eapply leased_moves.
    - split; [|done]. eapply next_inv; [by apply next_market|done].
    - split; [|done]. eapply next_inv; [by apply next_wallets|done].
    - split; [|done]. eapply next_inv; [by apply next_runs|done]. }
  rewrite <- E. apply IH; [done|congruence].
Qed.

(** ** Becoming READY *)
(** A wallet of a READY plan as the database had it when the plan became READY. *)
Record wallet_confirmed (db : EDB) (r : plan_row) (w : plan_wallet_row) : Prop := {
  wf_selected : selected_at (ed_wallets db) (pl_owner r) (in_wallet_selection_revision (pl_intent r))
    (pwi_wallet_id (pwr_input w)) (pwi_address (pwr_input w));
  wf_connected : ∃ c, GetWalletConnectionForUpdate (pwi_wallet_id (pwr_input w)) (ed_wallets db) = Some c
    ∧ cn_address c = pwi_address (pwr_input w) ∧ cn_state c = ConnectionStateConnected;
  wf_credential : ∃ k, GetActiveCredentialForUpdate (pwi_wallet_id (pwr_input w)) (ed_wallets db) = Some k
    ∧ kr_version k = sn_credential_version (pwr_snapshot w) }.
Lemma move_ready_inv db o id v v' r : plan_move db o id v v' → v = view db id → sound v → v_row v' = Some r →
  pl_state r = ExecutionPlanStateReady → v' ≠ v →
  ∃ db' clock req old mw mi, o = PlanReady clock req ∧ marked_ready db db' (op_now o) req id old mw mi ∧ v' = view db' id.
Proof.
  intros M E S Hr Hs Hne.
  destruct M as [v|db' owner c row clock req _ Hc|v busy clock worker timeout now n lease old -> Ho Hid Hn Hc|v clock p old n -> Ho Hn Hl
    |db' clock req old mw mi -> M|v clock plan worker code now old -> Ho Hl|v busy clock now limit old -> Ho He Hb].
  - done.
  - pose proof (cd_change _ _ _ _ _ _ _ _ Hc) as C. rewrite (ch_here _ _ _ _ C) in Hr. cbn in Hr. injection Hr as ->.
    pose proof (cd_state _ _ _ _ _ _ _ _ Hc) as Hst. injection Hst as Hst _ _. congruence.
  - cbn in Hr. injection Hr as <-. cbn in Hs. pose proof (claimable_building _ _ (cl_claimable _ _ _ _ Hc)). congruence.
  - cbn in Hr. injection Hr as <-. cbn in Hs. pose proof (proj1 (lease_state _ _ _ _ Hl)). congruence.
  - by exists db', clock, req, old, mw, mi.
  - cbn in Hr. by injection Hr as <-.
  - done.
Qed.

(** C9: A plan becomes READY only by a request of the worker that holds its lease, before the lease
    ends, at a moment when the owner's combination still has the revision the plan froze, every
    wallet of the plan is still selected at the frozen revision of the owner's selection, is
    connected at the address of the plan, and its active credential is of the version the plan
    records; what was frozen when the plan was requested stays as it was. *)
Theorem plan_ready_authorized db db' id r :
  plan_reachable db → plan_next db db' → v_row (view db' id) = Some r → pl_state r = ExecutionPlanStateReady → view db' id ≠ view db id →
  ∃ clock req old, let now := canonicalNow clock (mr_now req) in
    db' = (run_tx (plan_step (PlanReady clock req)) db).1
    ∧ v_row (view db id) = Some old ∧ pl_state old = ExecutionPlanStateBuilding ∧ pl_intent r = pl_intent old
    ∧ pl_worker_id old = trim_space (mr_worker_id req) ∧ later (pl_lease_expires_at old) now = true
    ∧ (∃ c, GetMarketCombination_query (in_combination_id (pl_intent r)) (pl_owner r) (ed_market db) = Some c
        ∧ cr_revision c = in_combination_revision (pl_intent r))
    ∧ (∀ w, w ∈ v_wallets (view db' id) → wallet_confirmed db r w)
    ∧ pwr_input <$> v_wallets (view db' id) = pwr_input <$> v_wallets (view db id)
    ∧ pir_input <$> v_items (view db' id) = pir_input <$> v_items (view db id).
Proof using BL.
  intros I%plan_reachable_inv Hn Hr Hs Hne. destruct Hn as [o|m Hm|w|runs]; [|done..]. destruct (run_step o db I) as [_ M]. specialize (M id).
  eapply move_ready_inv in M as (db1 & clock & req & old & mw & mi & -> & M & E); [|done|apply I|exact Hr|done|done].
  pose proof (mk_change _ _ _ _ _ _ _ _ M) as C. exists clock, req, old. cbv zeta. rewrite E, (ch_here _ _ _ _ C) in *. cbn in Hr. injection Hr as <-.
  split_and!; [done|apply M|apply M|done|apply M|apply M|apply M| | |]; cbn [v_wallets v_items].
  - intros w (x & -> & Hx)%list_elem_of_fmap. destruct (mk_current _ _ _ _ _ _ _ _ M x Hx) as (o & c & k & Ho & Hc & Ha & Hst & Hk & Hv). constructor.
    + exact (mk_selected _ _ _ _ _ _ _ _ M x Hx).
    + by exists c.
    + exists k. split; [done|]. unfold observe_wallet. by rewrite Ho.
  - by rewrite <- list_fmap_compose.
  - rewrite <- list_fmap_compose. apply list_fmap_ext. intros i x _. unfold compose, observe_item. by destruct (mi !! _).
Qed.

(** ** Pages *)
Definition plan_page (owner plan : string) (size page : Z) (db : EDB) : list ExecutionPlanStep :=
  match ListExecutionPlanSteps owner plan page size db with Ok r => r.1 | Err _ => [] end.
Lemma ordered_after (l : list plan_step_row) (base offset : nat) :
  (∀ k s, l !! k = Some s → sp_ordinal (psr_step s) = Z.of_nat (base + k) + 1) →
  sql_many (λ r, Z.of_nat offset <? sp_ordinal (psr_step r)) l = drop (offset - base) l.
Proof.
  revert base. induction l as [|x l IH]; intros base H; [by rewrite drop_nil|].
  assert (∀ k s, l !! k = Some s → sp_ordinal (psr_step s) = Z.of_nat (S base + k) + 1) as H' by (intros k s Hk; rewrite (H (S k) s Hk); lia).
  pose proof (H 0%nat x eq_refl) as Hx. unfold sql_many in *. rewrite filter_cons, (IH (S base) H'). case_decide as Hd.
  - apply Is_true_true, Z.ltb_lt in Hd. replace (offset - base)%nat with 0%nat by lia. replace (offset - S base)%nat with 0%nat by lia. done.
  - rewrite Is_true_true, Z.ltb_lt in Hd. by replace (offset - base)%nat with (S (offset - S base)) by lia.
Qed.
Lemma sorted_steps (l : list plan_step_row) (base : nat) :
  (∀ k s, l !! k = Some s → sp_ordinal (psr_step s) = Z.of_nat (base + k) + 1) → sort_by step_before l = l.
Proof.
  intros H. apply sort_by_unique; [unfold step_before; intros; lia|unfold step_before; intros; lia| | |done].
  - intros a b [i Hi]%list_elem_of_lookup [j Hj]%list_elem_of_lookup H1 H2. unfold step_before in *. pose proof (H i a Hi). pose proof (H j b Hj).
    assert (i = j) as -> by lia. congruence.
  - revert base H. induction l as [|x l IH]; intros base H; constructor.
    + apply (IH (S base)). intros k s Hk. rewrite (H (S k) s Hk). lia.
    + apply Forall_lookup. intros k y Hk. unfold step_before. pose proof (H 0%nat x eq_refl). pose proof (H (S k) y Hk). lia.
Qed.
Lemma ready_row_db db id r : plan_inv db → v_row (view db id) = Some r → pl_state r = ExecutionPlanStateReady → plan_ready id db = true.
Proof.
  intros I Hr Hs. apply (row_lookup _ _ _ (pv_keys _ I)) in Hr as [Hr Hi]. apply existsb_elem. exists r. split; [done|].
  rewrite Hi, N.eqb_refl. by apply bool_decide_true.
Qed.
Lemma page_query db id r size (offset : nat) : plan_inv db → v_row (view db id) = Some r → pl_state r = ExecutionPlanStateReady →
  ListExecutionPlanSteps_query id size (Z.of_nat offset) db = take (Z.to_nat size) (drop offset (v_steps (view db id)))
  ∧ CountExecutionPlanSteps id db = in_total_step_count (pl_intent r).
Proof.
  intros I Hr Hs. pose proof (sound_row _ _ (pv_sound _ I id) Hr) as S. pose proof (sh_steps _ _ S) as C. rewrite bool_decide_true in C by done.
  unfold ListExecutionPlanSteps_query, CountExecutionPlanSteps. rewrite (ready_row_db _ _ _ I Hr Hs). change (plan_steps id db) with (v_steps (view db id)).
  split; [|apply C]. f_equal.
  assert (∀ k s, v_steps (view db id) !! k = Some s → sp_ordinal (psr_step s) = Z.of_nat (0 + k) + 1) as Ho by (intros k s Hk; apply (cp_shape _ _ C k s Hk)).
  rewrite (ordered_after _ 0%nat offset Ho), Nat.sub_0_r. apply (sorted_steps _ offset). intros k s Hk. rewrite lookup_drop in Hk. rewrite (Ho _ s Hk). lia.
Qed.

(** A client that reads the pages of a READY plan one after the other receives every step of
    it exactly once, in their order, for every page size, and each page reports the number of
    wallets times the number of items. *)
Theorem plan_pages db owner plan o ot id it r size n :
  plan_reachable db → plan_uuid "owner account ID" owner = Ok (o, ot) → plan_uuid "execution plan ID" plan = Ok (id, it) →
  v_row (view db id) = Some r → pl_owner r = o → pl_state r = ExecutionPlanStateReady → 1 ≤ size ≤ maxExecutionPlanStepPageSize →
  in_total_step_count (pl_intent r) ≤ Z.of_nat n * size →
  concat ((λ k, plan_page owner plan size (Z.of_nat k + 1) db) <$> seq 0 n) = psr_step <$> v_steps (view db id)
  ∧ ∀ k : nat, ∃ l, ListExecutionPlanSteps owner plan (Z.of_nat k + 1) size db = Ok (l, in_wallet_count (pl_intent r) * in_item_count (pl_intent r)).
Proof using BL.
  intros I%plan_reachable_inv Ho Hid Hr Hown Hs Hsize Hn. pose proof (sound_row _ _ (pv_sound _ I id) Hr) as S.
  assert (∀ k : nat, ListExecutionPlanSteps owner plan (Z.of_nat k + 1) size db =
    Ok (psr_step <$> take (Z.to_nat size) (drop (k * Z.to_nat size) (v_steps (view db id))), in_total_step_count (pl_intent r))) as Hpage.
  { intros k. unfold ListExecutionPlanSteps. rewrite Ho, Hid. cbn [mbind result_bind fst snd]. cbv zeta.
    rewrite (proj2 (Z.leb_gt (Z.of_nat k + 1) 0)), (proj2 (Z.leb_gt size 0)), (proj2 (Z.ltb_ge _ size)) by lia. cbn [orb negb require mbind result_bind].
    replace ((Z.of_nat k + 1 - 1) * size) with (Z.of_nat (k * Z.to_nat size)) by lia. rewrite (proj2 (Z.ltb_ge _ 0)) by lia. cbn [negb require mbind result_bind].
    assert (GetExecutionPlan_query id o db = Some r) as ->.
    { unfold GetExecutionPlan_query. apply (row_lookup _ _ _ (pv_keys _ I)) in Hr as [Hin He].
      destruct (sql_one_is_Some (λ r, (pl_id r =? id)%N && (pl_owner r =? o)%N) (ed_plans db) r) as [r' Hr']; [done|by rewrite He, Hown, !N.eqb_refl|].
      rewrite Hr'. apply sql_one_Some in Hr' as [Hin' [Hi%N.eqb_eq _]%andb_true_iff]. f_equal. eapply NoDup_key_inj; [apply I|done|done|congruence]. }
    cbn [of_option mbind result_bind]. destruct (page_query db id r size (k * Z.to_nat size) I Hr Hs) as [-> ->]. done. }
  pose proof (sh_steps _ _ S) as C. rewrite bool_decide_true in C by done. split.
  - rewrite <- (take_ge (v_steps (view db id)) (n * Z.to_nat size)) by (pose proof (cp_steps _ _ C); lia).
    rewrite <- (pages_concat (v_steps (view db id))). generalize (seq 0 n). intros ks. induction ks as [|k ks IH]; [done|].
    rewrite !fmap_cons. cbn [concat]. rewrite fmap_app, <- IH. f_equal. unfold plan_page. by rewrite Hpage.
  - intros k. eexists. rewrite Hpage, (sh_total _ _ S). done.
Qed.
End Theorems.

(** ** Witnesses *)
Import Prelude.Concrete.
Lemma plan_invariant_witness : NoDup (pl_id <$> ed_plans plan_done) ∧ ∀ id, sound (view plan_done id).
Proof. apply (plan_invariant plan_done). exact plan_done_reachable. Defined.
Lemma finished_plan_frozen_witness :
  view plan_later 11 = view plan_done 11
  ∨ ∃ db1 db2, rtc plan_next plan_done db1 ∧ view db1 11 = view plan_done 11 ∧ plan_removed db1 db2 11 (sample_row plan_done) ∧ rtc plan_next db2 plan_later.
Proof.
  apply (finished_plan_frozen plan_done plan_later 11 (sample_row plan_done)); [exact plan_done_reachable|vm_compute; reflexivity|vm_compute; discriminate|].
  apply rtc_once. exact (next_plan plan_done (PlanFail 0 (account 11) "w1" "TIMEOUT" (31 * second))).
Defined.
Lemma plan_lease_exclusive_witness : view plan_contended 11 = view plan_claimed 11.
Proof.
  apply (plan_lease_exclusive plan_claimed plan_contended 11 (sample_row plan_claimed) (80 * second)); [exact plan_claimed_reachable|vm_compute; reflexivity..|].
  apply rtc_once, others_plan; vm_compute; [discriminate|reflexivity].
Defined.
Lemma plan_ready_authorized_witness : ∃ clock req old,
  plan_done = (run_tx (plan_step (PlanReady clock req)) plan_claimed).1 ∧ v_row (view plan_claimed 11) = Some old
  ∧ pl_worker_id old = trim_space (mr_worker_id req) ∧ later (pl_lease_expires_at old) (canonicalNow clock (mr_now req)) = true
  ∧ ∀ w, w ∈ v_wallets (view plan_done 11) → wallet_confirmed plan_claimed (sample_row plan_done) w.
Proof.
  destruct (plan_ready_authorized plan_claimed plan_done 11 (sample_row plan_done)) as (clock & req & old & H1 & H2 & _ & _ & H3 & H4 & _ & H5 & _);
    [exact plan_claimed_reachable|exact (next_plan plan_claimed (PlanReady 0 sample_ready))|vm_compute; reflexivity|vm_compute; reflexivity| |exact (ex_intro _ clock (ex_intro _ req (ex_intro _ old (conj H1 (conj H2 (conj H3 (conj H4 H5)))))))].
  intros H. apply (f_equal (λ v, length (v_steps v))) in H. revert H. vm_compute. discriminate.
Defined.
Lemma plan_pages_witness :
  concat ((λ k, plan_page (account 7) (account 11) 3 (Z.of_nat k + 1) plan_done) <$> seq 0 2) = mr_steps sample_ready.
Proof.
  transitivity (psr_step <$> v_steps (view plan_done 11)); [|vm_compute; reflexivity].
  apply (plan_pages plan_done (account 7) (account 11) 7 (account 7) 11 (account 11) (sample_row plan_done) 3 2);
    [exact plan_done_reachable|vm_compute; reflexivity..|vm_compute; split; discriminate|vm_compute; discriminate].
Defined.
