(* ===== verification/PlanReads.v ===== *)
(** * Execution plans: reading, claiming and writing back

    What an owner reads of a plan, that a plan without a lease is claimed, and that what a
    worker reports is what is read. *)

From S2P Require Import Prelude Sql CashOutTypes CashOutStore ConnectionTypes ConnectionStore Selection Combination CombinationSpec.
From S2P Require Import CombinationRefine CombinationTheorems Decimal Plan PlanStore PlanView PlanReady PlanInv PlanScenario PlanTheorems.
From stdpp Require Import base tactics option list list_numbers sorting strings gmap relations.
From Stdlib Require Import ZArith Lia Ascii.
#[local] Open Scope Z_scope.

(** ** Counting by key *)
Lemma count_one `{EqDecision K} (x : K) (ks : list K) : NoDup ks → x ∈ ks → zsum ((λ k, if decide (x = k) then 1 else 0) <$> ks) = 1.
Proof.
  intros Hnd Hx. induction Hnd as [|k ks Hk Hnd IH]; [by apply not_elem_of_nil in Hx|]. rewrite fmap_cons, zsum_cons. case_decide as E.
  - subst k. assert (∀ l : list K, x ∉ l → zsum ((λ k, if decide (x = k) then 1 else 0) <$> l) = 0) as Hz; [|rewrite Hz by done; lia].
    induction l as [|y l IHl]; intros Hl; [done|]. rewrite fmap_cons, zsum_cons, decide_False, IHl by set_solver. lia.
  - apply elem_of_cons in Hx as [->|Hx]; [done|]. rewrite IH by done. lia.
Qed.
Lemma zsum_add {K} (f g : K → Z) (ks : list K) : zsum ((λ k, f k + g k) <$> ks) = zsum (f <$> ks) + zsum (g <$> ks).
Proof. induction ks as [|k ks IH]; [done|]. rewrite !fmap_cons, !zsum_cons, IH. lia. Qed.
(** The counts of the different keys of a list add up to its length. *)
Lemma counts_total `{EqDecision K} (keys ks : list K) : NoDup ks → (∀ k, k ∈ keys → k ∈ ks) →
  zsum ((λ k, Z.of_nat (length (filter (λ k', k' = k) keys))) <$> ks) = Z.of_nat (length keys).
Proof.
  intros Hnd. induction keys as [|x keys IH]; intros Hin.
  - clear. induction ks as [|k ks IH]; [done|]. rewrite fmap_cons, zsum_cons, IH. done.
  - transitivity (zsum ((λ k, (if decide (x = k) then 1 else 0) + Z.of_nat (length (filter (λ k', k' = k) keys))) <$> ks)).
    { f_equal. apply list_fmap_ext. intros i k _. rewrite filter_cons. case_decide; cbn [length]; lia. }
    rewrite zsum_add, count_one, IH; [cbn [length]; lia| |done|apply Hin; constructor]. intros k Hk. apply Hin. by constructor.
Qed.

Section Reads.
Context {UL : UuidLib} {PT : PgText} {SL : SolanaLib} {PL : PgLower} {BL : Base58Laws}.

(** ** Reasons *)
Definition with_reason (k : string) (v : plan_view) : Z := Z.of_nat (length (filter (λ s, reason_key (psr_step s) = k) (v_steps v))).
Record reasons_exact (v : plan_view) (l : list ExecutionPlanReasonCount) : Prop := {
  re_total : zsum (prc_count <$> l) = Z.of_nat (length (v_steps v));
  re_counts : ∀ c, c ∈ l → prc_count c = with_reason (prc_reason_code c) v ∧ 0 < prc_count c;
  re_all : ∀ s, s ∈ v_steps v → reason_key (psr_step s) ∈ prc_reason_code <$> l;
  re_distinct : NoDup (prc_reason_code <$> l) }.
Lemma filter_key_length (k : string) (l : list plan_step_row) :
  length (filter (λ k', k' = k) ((λ r, reason_key (psr_step r)) <$> l)) = length (filter (λ s, reason_key (psr_step s) = k) l).
Proof. induction l as [|x l IH]; [done|]. rewrite fmap_cons, !filter_cons. case_decide; cbn [length]; by rewrite IH. Qed.
Lemma reason_counts_exact db id : reasons_exact (view db id) (ListExecutionPlanReasonCounts id db).
Proof.
  unfold ListExecutionPlanReasonCounts. cbv zeta. change (plan_steps id db) with (v_steps (view db id)). set (v := view db id).
  set (keys := (λ r, reason_key (psr_step r)) <$> v_steps v). set (ks := sort_by text_le (remove_dups keys)).
  assert (NoDup ks) as Hnd by (unfold ks; rewrite sort_by_Permutation; apply NoDup_remove_dups).
  assert (∀ k, k ∈ ks ↔ k ∈ keys) as Hin by (intros k; unfold ks; by rewrite sort_by_elem, elem_of_remove_dups).
  constructor; rewrite <- ?list_fmap_compose; unfold compose; cbn [prc_count prc_reason_code].
  - rewrite counts_total; [unfold keys; by rewrite length_fmap|done|intros k; apply Hin].
  - intros c (k & -> & Hk)%list_elem_of_fmap. cbn [prc_count prc_reason_code]. unfold with_reason. rewrite <- filter_key_length. split; [done|].
    fold keys. apply Hin in Hk. assert (k ∈ filter (λ k', k' = k) keys) as Hf by (by apply list_elem_of_filter).
    destruct (filter _ keys); [by apply not_elem_of_nil in Hf|cbn; lia].
  - intros s Hs. rewrite list_fmap_id. apply Hin. apply list_elem_of_fmap. eauto.
  - by rewrite list_fmap_id.
Qed.
Lemma reason_keys_named db id r : plan_inv db → v_row (view db id) = Some r → pl_state r = ExecutionPlanStateReady →
  forallb (λ c, negb (bool_decide (prc_reason_code c = EmptyString)) && (0 <? prc_count c)) (ListExecutionPlanReasonCounts id db) = true.
Proof.
  intros I Hr Hs. pose proof (sh_steps _ _ (sound_row _ _ (pv_sound _ I id) Hr)) as C. rewrite bool_decide_true in C by done.
  pose proof (reason_counts_exact db id) as R. apply forallb_forall. intros c Hc%list_elem_of_In. destruct (re_counts _ _ R c Hc) as [E Hp].
  rewrite (proj2 (Z.ltb_lt 0 _) Hp), andb_true_r, negb_true_iff. apply bool_decide_false. intros He. rewrite E in Hp. unfold with_reason in Hp.
  destruct (filter _ _) as [|s l] eqn:F in Hp; [cbn in Hp; lia|]. assert (s ∈ filter (λ s, reason_key (psr_step s) = prc_reason_code c) (v_steps (view db id))) as Hf
    by (rewrite F; constructor). apply list_elem_of_filter in Hf as [Hk [k Hk']%list_elem_of_lookup]. rewrite He in Hk. unfold reason_key in Hk.
  destruct (ss_disposition _ _ _ (cp_shape _ _ C k s Hk')) as [[Hd Hn]|[Hd Hne]]; [by rewrite Hn, Hd in Hk|by rewrite bool_decide_false in Hk].
Qed.

(** ** Usability *)
(** What an execution may rely on. *)
Record plan_usable (db : EDB) (r : plan_row) (now : Z) : Prop := {
  us_fresh : later (pl_expires_at r) now = true;
  us_actionable : ∃ s, s ∈ v_steps (view db (pl_id r)) ∧ sp_disposition (psr_step s) = ExecutionPlanStepDispositionReady;
  us_combination : ∃ c, GetMarketCombination_query (in_combination_id (pl_intent r)) (pl_owner r) (ed_market db) = Some c
    ∧ cr_revision c = in_combination_revision (pl_intent r);
  us_selected : ∀ w, w ∈ v_wallets (view db (pl_id r)) → selected_at (ed_wallets db) (pl_owner r)
    (in_wallet_selection_revision (pl_intent r)) (pwi_wallet_id (pwr_input w)) (pwi_address (pwr_input w)) }.
Lemma counted_zero d l : counted d l = 0 ↔ ¬ ∃ s, s ∈ l ∧ sp_disposition s = d.
Proof.
  unfold counted. rewrite <- Nat2Z.inj_0, Nat2Z.inj_iff, length_zero_iff_nil. split.
  - intros H (s & Hs & Hd). assert (s ∈ filter (λ s, sp_disposition s = d) l) as Hf by (by apply list_elem_of_filter). rewrite H in Hf. by apply not_elem_of_nil in Hf.
  - intros H. apply elem_of_nil_inv. intros s [Hd Hs]%list_elem_of_filter. apply H. eauto.
Qed.
Lemma usability_iff db r now e : plan_inv db → v_row (view db (pl_id r)) = Some r → pl_state r = ExecutionPlanStateReady →
  pl_expires_at r = Some e → e ≠ 0 → executionPlanUsability None r now db = EmptyString ↔ plan_usable db r now.
Proof.
  intros I Hr Hs He Hz. pose proof (pv_sound _ I (pl_id r)) as Snd. pose proof (sh_steps _ _ (sound_row _ _ Snd Hr)) as C. rewrite bool_decide_true in C by done.
  unfold executionPlanUsability. change (in_id (pl_intent r)) with (pl_id r). rewrite (list_wallets_view _ _ _ Hr Snd), refs_pairs, He. cbn [timestampValue default].
  cbv zeta. cbn beta iota. unfold id at 1 2. rewrite (proj2 (Z.eqb_neq e 0) Hz). cbn [negb andb].
  destruct (now <? e) eqn:Et; cbn [negb]; [|split; [done|intros [Hf _ _ _]; rewrite He in Hf; cbn in Hf; congruence]].
  rewrite (cp_ready _ _ C). destruct (counted _ _ =? 0) eqn:Ec.
  { split; [done|]. intros [_ (s & Hin & Hd) _ _]. apply Z.eqb_eq, counted_zero in Ec. destruct Ec. exists (psr_step s). split; [|done]. apply list_elem_of_fmap. eauto. }
  destruct (GetMarketCombination_query _ _ _) as [c|] eqn:Eg; [|split; [done|]; intros [_ _ (c & Hc & _) _]; unfold pl_owner in Hc; congruence].
  destruct (cr_revision c =? in_combination_revision (pl_intent r)) eqn:Er; cbn [negb].
  2: { split; [done|]. intros [_ _ (c' & Hc & Hrev) _]. unfold pl_owner in Hc. rewrite Eg in Hc. injection Hc as <-. apply Z.eqb_neq in Er. done. }
  destruct (CountInvalidSelectedWalletReferencesAtRevision _ _ _ _ _ =? 0) eqn:En.
  - split; [intros _|done]. apply Z.eqb_eq in En. pose proof (proj1 (count_invalid_zero _ _ _ _) En) as Hsel. constructor.
    + by rewrite He.
    + apply Z.eqb_neq in Ec. destruct (decide (Exists (λ s, sp_disposition (psr_step s) = ExecutionPlanStepDispositionReady) (v_steps (view db (pl_id r))))) as [Hx|Hno].
      { apply Exists_exists in Hx as (s & ? & ?). by exists s. }
      destruct Ec. apply counted_zero. intros (s & (x & -> & Hx)%list_elem_of_fmap & Hd). apply Hno, Exists_exists. eauto.
    + exists c. split; [done|]. by apply Z.eqb_eq.
    + intros w Hw. apply Hsel, list_elem_of_fmap. eauto.
  - split; [done|]. intros [_ _ _ Hsel]. apply Z.eqb_neq in En. destruct En. apply count_invalid_zero. intros w a (x & [= -> ->] & Hx)%list_elem_of_fmap. by apply Hsel.
Qed.

(** ** Reading a plan *)
Definition details_of (v : plan_view) (r : plan_row) (reasons : list ExecutionPlanReasonCount) (usability : string) : ExecutionPlan :=
  with_details (mapExecutionPlan r) (mapExecutionPlanWallet <$> v_wallets v) (mapExecutionPlanItem <$> v_items v) reasons usability.
Lemma load_details db clock r now : plan_inv db → v_row (view db (pl_id r)) = Some r →
  loadExecutionPlan clock r now db = Ok (if bool_decide (pl_state r = ExecutionPlanStateReady)
    then details_of (view db (pl_id r)) r (ListExecutionPlanReasonCounts (pl_id r) db) (executionPlanUsability None r (canonicalNow clock now) db)
    else details_of (view db (pl_id r)) r [] "").
Proof.
  intros I Hr. unfold loadExecutionPlan, details_of. cbv zeta. rewrite (list_wallets_view _ _ _ Hr (pv_sound _ I _)), (list_items_view _ _ _ Hr (pv_sound _ I _)).
  case_bool_decide as Hs; [|done]. by rewrite (reason_keys_named _ _ _ I Hr Hs).
Qed.
Lemma get_query db id r : plan_inv db → v_row (view db id) = Some r → GetExecutionPlan_query id (pl_owner r) db = Some r.
Proof.
  intros I Hr. apply (row_lookup _ _ _ (pv_keys _ I)) in Hr as [Hin He]. unfold GetExecutionPlan_query.
  destruct (sql_one_is_Some (λ r', (pl_id r' =? id)%N && (pl_owner r' =? pl_owner r)%N) (ed_plans db) r) as [r' Hr']; [done|by rewrite He, !N.eqb_refl|].
  rewrite Hr'. apply sql_one_Some in Hr' as [Hin' [Hi%N.eqb_eq _]%andb_true_iff]. f_equal. eapply NoDup_key_inj; [apply I|done|done|congruence].
Qed.

(** Reading a plan of the owner always succeeds and shows its row with its wallets and items
    in order.  Of a READY plan it counts the steps by reason: the reasons are different, each
    count is the number of steps with that reason, none is zero, every step is counted, and the
    counts add up to the number of steps; and its usability code is empty exactly when the plan
    has not expired, has a READY step, its combination still has the frozen revision, and all
    its wallets are still selected at the frozen revision of the selection. *)
Theorem plan_get db clock owner plan ot id it now r :
  plan_reachable db → plan_uuid "owner account ID" owner = Ok (pl_owner r, ot) → plan_uuid "execution plan ID" plan = Ok (id, it) →
  v_row (view db id) = Some r →
  ∃ reasons usability, GetExecutionPlan clock owner plan now db = Ok (set_plan_owner ot (details_of (view db id) r reasons usability))
    ∧ (pl_state r = ExecutionPlanStateReady → reasons_exact (view db id) reasons
         ∧ ∀ e, pl_expires_at r = Some e → e ≠ 0 → usability = EmptyString ↔ plan_usable db r (canonicalNow clock now))
    ∧ (pl_state r ≠ ExecutionPlanStateReady → reasons = [] ∧ usability = EmptyString).
Proof using BL.
  intros I%plan_reachable_inv Ho Hp Hr. assert (pl_id r = id) as Hid by (apply (row_lookup _ _ _ (pv_keys _ I)) in Hr as [_ ?]; done). subst id.
  unfold GetExecutionPlan. rewrite Ho, Hp. cbn [mbind result_bind fst snd]. rewrite (get_query _ _ _ I Hr). cbn [of_option mbind result_bind].
  rewrite (load_details _ _ _ _ I Hr). cbn [mbind result_bind]. assert (∀ c n, canonicalNow c (canonicalNow c n) = canonicalNow c n) as Hc.
  { intros c n. unfold canonicalNow. destruct (n =? 0) eqn:E; [by destruct (c =? 0)|by rewrite E]. }
  rewrite Hc. case_bool_decide as Hs.
  - eexists _, _. split; [done|]. split; [|done]. intros _. split; [apply reason_counts_exact|]. intros e He Hz. by apply (usability_iff _ _ _ e).
  - by exists [], "".
Qed.

(** ** Claiming *)
Lemma claimed_plan_check worker n e old : plan_check old = true → pl_state old = ExecutionPlanStateBuilding → trim_space worker ≠ EmptyString →
  (String.length (trim_space worker) ≤ maxExecutionPlanWorkerIDLength)%nat → plan_check (claimed_row (trim_space worker) n (Some e) old) = true.
Proof.
  intros H Hs Hw Hl. unfold plan_check, claimed_row, leased in *. cbn [pl_intent pl_state pl_build_stage pl_failure_code pl_worker_id pl_locked_at
    pl_lease_expires_at pl_completed_step_count pl_ready_step_count pl_skipped_step_count pl_completed_at pl_expires_at pl_retention_until] in *.
  rewrite (bool_decide_false (trim_space worker = EmptyString)) by done. rewrite Hs in *. cbn [negb is_none]. bool_prop.
  assert (text_between 0 200 (trim_space worker) = true) as Ht.
  { unfold text_between, maxExecutionPlanWorkerIDLength in *. rewrite trim_btrimmed. pose proof (char_length_bytes (trim_space worker)). lia. }
  rewrite Ht, !andb_true_iff. split_and!; try done; try (by apply Z.leb_le); try (by apply Z.ltb_lt); by apply bool_decide_true.
Qed.
(** The plan a claim leases out: its row, with its wallets and items. *)
Definition claim_view (worker : string) (n e : Z) (old : plan_row) (v : plan_view) : ExecutionPlan :=
  details_of v (claimed_row worker n (Some e) old) [] "".

(** C31: A worker that asks for work gets some whenever there is any: if a plan that is being built
    has no lease, or one that has ended, and no other transaction holds it, the claim succeeds;
    it takes the plan requested first and leases it to the worker for the time asked.  So the
    plan of a worker that died is taken over. *)
Theorem plan_claim_progress db busy clock worker timeout now r :
  let at_ := canonicalNow clock now in
  plan_reachable db → trim_space worker ≠ EmptyString → (String.length (trim_space worker) ≤ maxExecutionPlanWorkerIDLength)%nat →
  pg_accepts (trim_space worker) = true → 0 < timeout → 0 < at_ →
  r ∈ ed_plans db → claimable (Some (pg_time at_)) r = true → busy (pl_id r) = false →
  ∃ db' old, ClaimExecutionPlan busy clock worker timeout now db =
      Ok (db', Some (claim_view (trim_space worker) (pg_time at_) (pg_time (at_ + timeout)) old (view db (pl_id old))))
    ∧ claimed db busy (pg_time at_) old ∧ plan_reachable db'
    ∧ v_row (view db' (pl_id old)) = Some (claimed_row (trim_space worker) (pg_time at_) (Some (pg_time (at_ + timeout))) old).
Proof using BL.
  intros at_ R Hw Hl Ha Ht Hpos Hr Hc Hb. pose proof (plan_reachable_inv _ R) as I.
  assert (timestampParam at_ = Some (pg_time at_)) as Hn by (unfold timestampParam; by rewrite (proj2 (Z.eqb_neq at_ 0)) by lia).
  assert (timestampParam (at_ + timeout) = Some (pg_time (at_ + timeout))) as He by (unfold timestampParam; by rewrite (proj2 (Z.eqb_neq _ 0)) by lia).
  assert (∃ db' row, ClaimNextExecutionPlan busy (timestampParam at_) (trim_space worker) (timestampParam (at_ + timeout)) db = Ok (db', row)) as (db' & row & Hq).
  { unfold ClaimNextExecutionPlan, texts. rewrite Hn. unfold mbind, tx_bind. cbn [tx_get]. unfold ensure. cbn [forallb]. rewrite Ha. cbn [andb require tx_lift].
    destruct (sort_by requested_first _) as [|c l] eqn:Es.
    { exfalso. assert (r ∈ sort_by requested_first (sql_many (λ r, claimable (Some (pg_time at_)) r && negb (busy (pl_id r))) (ed_plans db))) as Hin
        by (apply sort_by_elem, elem_of_sql_many; by rewrite Hc, Hb). rewrite Es in Hin. by apply not_elem_of_nil in Hin. }
    cbn [head]. assert (c ∈ sort_by requested_first (sql_many (λ r, claimable (Some (pg_time at_)) r && negb (busy (pl_id r))) (ed_plans db))) as Hin
      by (rewrite Es; constructor). apply sort_by_elem, elem_of_sql_many in Hin as [[Hcc _]%andb_true_iff Hin].
    unfold update_plan, put_plans, not_null, mbind, tx_bind. cbn [tx_get of_option tx_lift].
    assert (sql_one (λ r, (pl_id r =? pl_id c)%N) (ed_plans db) = Some c) as Hone by (by apply (row_lookup _ (pl_id c) c (pv_keys _ I))). rewrite Hone. unfold ensure.
    assert (plan_check (claimed_row (trim_space worker) (pg_time at_) (Some (pg_time (at_ + timeout))) c) = true) as Hok.
    { apply claimed_plan_check; [|by eapply claimable_building|done|done]. eapply sh_check, sound_row; [apply (pv_sound _ I (pl_id c))|].
      by apply (row_lookup _ _ _ (pv_keys _ I)). }
    unfold claimed_row in Hok. rewrite He, Hok. cbn. eauto. }
  pose proof Hq as Hq'. apply claim_query_ok in Hq' as (n & old & Hn' & Hcl & -> & Hck & C); [|apply I]. rewrite Hn in Hn'. injection Hn' as <-. rewrite He in *.
  assert (plan_inv db') as I'. { eapply changes_inv; [done|exact C|]. eapply row_sound; [apply I|apply Hcl| |done|done|].
    - by eapply claimable_building, Hcl.
    - cbn. rewrite (claimable_building _ _ (cl_claimable _ _ _ _ Hcl)). done. }
  assert (ClaimExecutionPlan busy clock worker timeout now db =
    Ok (db', Some (claim_view (trim_space worker) (pg_time at_) (pg_time (at_ + timeout)) old (view db (pl_id old))))) as Hclaim.
  { unfold ClaimExecutionPlan, normalizeExecutionPlanWorkerID. cbv zeta. fold at_. unfold mbind, tx_bind. rewrite (bool_decide_false (trim_space worker = EmptyString)) by done.
    cbn [negb andb]. rewrite (proj2 (Nat.leb_le _ _) Hl). cbn [require mbind result_bind tx_lift ensure]. unfold ensure. rewrite (proj2 (Z.ltb_lt 0 timeout) Ht). cbn [require tx_lift].
    rewrite He, Hq. unfold load_plan, mbind, tx_bind. cbn [tx_get]. rewrite load_details; [|done|].
    2: { change (pl_id (claimed_row _ _ _ old)) with (pl_id old). by rewrite (ch_here _ _ _ _ C). }
    change (pl_id (claimed_row _ _ _ old)) with (pl_id old). rewrite (ch_here _ _ _ _ C). cbn [claimed_row leased pl_state].
    rewrite (claimable_building _ _ (cl_claimable _ _ _ _ Hcl)). rewrite bool_decide_false by done. done. }
  exists db', old. split_and!; [done|done| |by rewrite (ch_here _ _ _ _ C)]. destruct R as (w & runs & R). exists w, runs. eapply rtc_r; [exact R|].
  replace db' with (run_tx (plan_step (PlanClaim busy clock worker timeout now)) db).1; [apply next_plan|].
  unfold run_tx. cbn [plan_step]. unfold mbind, tx_bind. by rewrite Hclaim.
Qed.

(** ** Writing back *)
Lemma uint64_roundtrip v : 0 ≤ v ≤ max_int64 → uint64_of_int64 (int64_of_uint64 v) = v.
Proof. unfold uint64_of_int64, int64_of_uint64, max_int64. intros H. rewrite (Z.mod_small (v + 2 ^ 63)) by lia. rewrite Z.mod_small by lia. lia. Qed.
Lemma stored_balance_back b : 0 ≤ bal_observed_slot b ≤ max_int64 → map_balance (stored_balance b) = b.
Proof. intros H. destruct b. unfold map_balance, stored_balance. cbn in *. by rewrite uint64_roundtrip. Qed.
Lemma observed_slots o : validateExecutionPlanWalletObservation o = Ok tt →
  bal_observed_slot (sn_sol (wo_snapshot o)) ≤ max_int64 ∧ bal_observed_slot (sn_usdc (wo_snapshot o)) ≤ max_int64 ∧ wo_connected_at o ≠ 0.
Proof. unfold validateExecutionPlanWalletObservation. cbv zeta. intros H. tx_inv. bool_prop. done. Qed.
(** The slots of the observations are [uint64]. *)
Definition slots_typed (req : MarkExecutionPlanReadyRequest) : Prop :=
  ∀ o, o ∈ mr_wallets req → 0 ≤ bal_observed_slot (sn_sol (wo_snapshot o)) ∧ 0 ≤ bal_observed_slot (sn_usdc (wo_snapshot o)).

(** C34: What the worker reports is what the plan says: when the request that completes a plan
    commits, each wallet of the plan shows the observation of the request with its ordinal,
    times cut to microseconds, each item the observation with its ordinal, the steps are the
    steps of the request with their reasons trimmed, the totals are those of the request, and
    the plan expires after fifteen minutes. *)
Theorem plan_ready_roundtrip clock req db db' p : plan_reachable db → slots_typed req → MarkExecutionPlanReady clock req db = Ok (db', p) →
  let now := canonicalNow clock (mr_now req) in
  ∃ id it r, plan_uuid "execution plan ID" (mr_plan_id req) = Ok (id, it) ∧ v_row (view db' id) = Some r
    ∧ ep_id p = uuid_string id ∧ ep_state p = ExecutionPlanStateReady ∧ ep_totals p = mr_totals req
    ∧ pl_expires_at r = timestampParam (now + executionPlanReadyTTL)
    ∧ length (ep_wallets p) = length (mr_wallets req) ∧ length (ep_items p) = length (mr_items req)
    ∧ (∀ w, w ∈ ep_wallets p → ∃ o, o ∈ mr_wallets req ∧ pw_ordinal w = wo_ordinal o ∧ pw_snapshot w = wo_snapshot o
        ∧ pw_connected_at w = pg_time (wo_connected_at o))
    ∧ (∀ i, i ∈ ep_items p → ∃ o, o ∈ mr_items req ∧ pi_ordinal i = io_ordinal o ∧ pi_snapshot i = io_snapshot o)
    ∧ v_steps (view db' id) = copied id <$> mr_steps req.
Proof using BL.
  intros I%plan_reachable_inv Ht H now. apply mark_ready_ok in H as (id & old & mw & mi & M & Hload); [|done]. fold now in M, Hload.
  destruct (mk_id _ _ _ _ _ _ _ _ M) as [it Hid]. pose proof (mk_change _ _ _ _ _ _ _ _ M) as C. pose proof (shape_ready _ _ _ _ _ _ _ _ I M) as S.
  assert (plan_inv db') as I' by (eapply changes_inv; [done|exact C|by rewrite <- (ch_here _ _ _ _ C)]).
  assert (pl_id (ready_row now req old) = id) as Hi.
  { pose proof (mk_row _ _ _ _ _ _ _ _ M) as Hr. apply (row_lookup _ _ _ (pv_keys _ I)) in Hr as [_ ?]. done. }
  rewrite load_details in Hload; [|done|rewrite Hi, (ch_here _ _ _ _ C); done]. rewrite bool_decide_true in Hload by done. injection Hload as <-.
  rewrite Hi. destruct (mk_counts _ _ _ _ _ _ _ _ M) as (Lw & Li & _). exists id, it, (ready_row now req old). split; [done|].
  rewrite (ch_here _ _ _ _ C). unfold details_of, with_details.
  cbn [v_row v_wallets v_items v_steps ep_id ep_state ep_totals ep_wallets ep_items mapExecutionPlan].
  split_and!; [done|by rewrite <- Hi|done|done|done|by rewrite !length_fmap|by rewrite !length_fmap|..|done].
  - intros w (x & -> & (y & -> & Hy)%list_elem_of_fmap)%list_elem_of_fmap. destruct (mk_current _ _ _ _ _ _ _ _ M y Hy) as (o & _ & _ & Ho & _).
    pose proof (mk_observations _ _ _ _ _ _ _ _ M) as X. pose proof (proj1 (ix_lookup _ _ _ _ X _ _) Ho) as [Hin Hord].
    destruct (ix_valid _ _ _ _ X o Hin) as [Hv _]. apply observed_slots in Hv as (H1 & H2 & H3). destruct (Ht o Hin) as [T1 T2].
    exists o. split; [done|]. unfold mapExecutionPlanWallet, observe_wallet. rewrite Ho. cbn [default observed_wallet pwr_ordinal pwr_connected_at pwr_snapshot
      pw_ordinal pw_snapshot pw_connected_at]. unfold Datatypes.id. split_and!; [done| |unfold timestampParam; by rewrite (proj2 (Z.eqb_neq _ 0) H3)].
    destruct (wo_snapshot o). unfold map_snapshot. cbn in *. by rewrite !stored_balance_back.
  - intros i (x & -> & (y & -> & Hy)%list_elem_of_fmap)%list_elem_of_fmap. destruct (mk_items _ _ _ _ _ _ _ _ M y Hy) as [o Ho].
    pose proof (proj1 (ix_lookup _ _ _ _ (mk_markets _ _ _ _ _ _ _ _ M) _ _) Ho) as [Hin Hord]. exists o. split; [done|].
    unfold mapExecutionPlanItem, observe_item. by rewrite Ho.
Qed.
End Reads.

(** ** Witnesses *)
Import Prelude.Concrete.
Lemma plan_get_witness : ∃ reasons usability,
  GetExecutionPlan 0 (account 7) (account 11) (40 * second) plan_done
    = Ok (set_plan_owner (account 7) (details_of (view plan_done 11) (sample_row plan_done) reasons usability))
  ∧ reasons_exact (view plan_done 11) reasons ∧ (usability = EmptyString ↔ plan_usable plan_done (sample_row plan_done) (40 * second)).
Proof.
  destruct (plan_get plan_done 0 (account 7) (account 11) (account 7) 11 (account 11) (40 * second) (sample_row plan_done))
    as (reasons & usability & H & Hr & _); [exact plan_done_reachable|vm_compute; reflexivity|vm_compute; reflexivity|vm_compute; reflexivity|].
  destruct Hr as [Hx Hu]; [vm_compute; reflexivity|]. exists reasons, usability. split; [exact H|split; [exact Hx|]].
  apply (Hu (930 * second)); [vm_compute; reflexivity|vm_compute; discriminate].
Defined.
Lemma plan_claim_progress_witness : ∃ db' old, ClaimExecutionPlan plan_wait 0 "w1" (60 * second) (20 * second) plan_requested =
    Ok (db', Some (claim_view "w1" (20 * second) (80 * second) old (view plan_requested (pl_id old))))
  ∧ v_row (view db' (pl_id old)) = Some (claimed_row "w1" (20 * second) (Some (80 * second)) old).
Proof.
  destruct (plan_claim_progress plan_requested plan_wait 0 "w1" (60 * second) (20 * second) (sample_row plan_requested)) as (db' & old & H1 & _ & _ & H2);
    [exact plan_requested_reachable|vm_compute; discriminate|vm_compute; lia|vm_compute; reflexivity|vm_compute; reflexivity|vm_compute; reflexivity| |
     vm_compute; reflexivity|vm_compute; reflexivity|exact (ex_intro _ db' (ex_intro _ old (conj H1 H2)))].
  assert (ed_plans plan_requested = [sample_row plan_requested]) as -> by (vm_compute; reflexivity). constructor.
Defined.
Lemma plan_ready_roundtrip_witness : ∃ p, MarkExecutionPlanReady 0 sample_ready plan_claimed = Ok (plan_done, p)
  ∧ ep_totals p = mr_totals sample_ready ∧ length (ep_wallets p) = 2%nat
  ∧ ∀ w, w ∈ ep_wallets p → ∃ o, o ∈ mr_wallets sample_ready ∧ pw_ordinal w = wo_ordinal o ∧ pw_snapshot w = wo_snapshot o.
Proof.
  destruct (MarkExecutionPlanReady 0 sample_ready plan_claimed) as [[db' p]|e] eqn:E; [|exfalso; revert E; vm_compute; discriminate].
  pose proof (do_ready _ _ _ _ _ E) as Hd. change (plan_done = db') in Hd. subst db'.
  exists p. split; [reflexivity|]. destruct (plan_ready_roundtrip 0 sample_ready plan_claimed plan_done p) as (id & it & r & H).
  - exact plan_claimed_reachable.
  - intros o Ho. unfold sample_ready in Ho. cbn [mr_wallets] in Ho. repeat (apply elem_of_cons in Ho as [->|Ho]; [cbn; lia|]). destruct (not_elem_of_nil _ Ho).
  - exact E.
  - destruct H as (_ & _ & _ & _ & Ht & _ & Hl & _ & Hw & _). split; [exact Ht|split; [exact Hl|]].
    intros w Hin. destruct (Hw w Hin) as (o & H1 & H2 & H3 & _). exists o. split; [exact H1|split; [exact H2|exact H3]].
Defined.
