(* ===== verification/Solana.v ===== *)
(** * Solana balances

    [internal/wormtrading/solana_adapter.go]: the adapter that verifies the JSON-RPC node it
    talks to ([Probe]) and reads the SOL and USDC balances of wallets ([BatchGetBalances]).
    Requests go out in batches; a batch is repeated once when its failure, or that of some of
    its requests, may pass.  The clock, the rate limiter, the node and the pause before a
    repetition are operations of a program; [gagliardetto/solana-go] decodes the replies and is
    a parameter.

    [readUniqueBalances] runs its reads in concurrent goroutines.  Each of them makes its own
    calls and then sets its own entries of the result under a lock, so that the reads one after
    the other, with arbitrary replies, give every outcome of the concurrent ones.  Callers that
    ask for the same addresses at the same time share one read ([singleflight]); for a caller the
    shared read is one operation, whose reply is the result of some [readUniqueBalances]. *)

From S2P Require Import Prelude Prog Sql CashOutStages ConnectionService Decimal.
From stdpp Require Import base tactics option list list_numbers sorting strings gmap.
From Stdlib Require Import ZArith QArith Lia Ascii.
#[local] Open Scope Z_scope.

(** ** Constants *)
Definition SolanaNetwork : string := "solana-mainnet-beta".
Definition SolanaCommitment : string := "confirmed".
Definition SolanaMainnetGenesisHash : string := "5eykt4UsFv8P8NJdTREpY1vzqKqZKvdpKuc147dw2N9d".
Definition SolanaNativeUSDCMint : string := "EPjFWdd5AufqSSqeM2qN1xzybapC8G4wEGGkZwyTDt1v".
Definition SolanaDecimals : Z := 9.
Definition USDCDecimals : Z := 6.
Definition solanaBatchSize : nat := 25.
Definition legacyTokenAccountSize : Z := 165.
Definition availabilityAvailable : string := "AVAILABLE".
Definition availabilityUnavailable : string := "UNAVAILABLE".
Definition walletBalanceComplete : string := "COMPLETE".
Definition walletBalancePartial : string := "PARTIAL".
Definition walletBalanceUnavailable : string := "UNAVAILABLE".
Definition errorCancelled : string := "CANCELLED".
Definition errorDecode : string := "DECODE_ERROR".
Definition errorInvalidResponse : string := "INVALID_RESPONSE".
Definition errorInvalidWalletAddress : string := "INVALID_WALLET_ADDRESS".
Definition errorRateLimited : string := "RATE_LIMITED".
Definition errorRPCRejected : string := "RPC_REJECTED".
Definition errorRPCUnavailable : string := "RPC_UNAVAILABLE".
Definition errorTimeout : string := "TIMEOUT".

(** ** Data *)
Record WalletBalanceReference := { wbr_wallet_id : Z; wbr_address : string }.
Record BalanceObservation := {
  bo_atomic_amount : string; bo_amount : string; bo_decimals : Z; bo_observed_slot : Z; bo_availability : string; bo_error_code : string;
  bo_token_account_count : Z }.
Record WalletBalanceResult := {
  wb_wallet_id : Z; wb_address : string; wb_sol : BalanceObservation; wb_usdc : BalanceObservation; wb_status : string }.
Record addressBalanceResult := { ab_sol : BalanceObservation; ab_usdc : BalanceObservation }.
Record SolanaAdapterStatus := {
  ss_status : string; ss_rpc_configured : bool; ss_rpc_reachable : bool; ss_batch_supported : bool; ss_genesis_verified : bool;
  ss_genesis_hash : string; ss_usdc_program_verified : bool; ss_usdc_decimals : Z; ss_latest_confirmed_slot : Z; ss_last_probe_at : Z;
  ss_last_success_at : Z; ss_latency_ms : Z; ss_consecutive_failures : Z; ss_last_error_code : string; ss_configuration_error : bool }.
Definition readyForReads (s : SolanaAdapterStatus) : bool :=
  negb (ss_configuration_error s) && ss_genesis_verified s && ss_usdc_program_verified s && (ss_usdc_decimals s =? USDCDecimals).
(** A token account as [token.Account] decodes it. *)
Inductive token_state := Uninitialized | Initialized | Frozen.
Record token_account := { ta_mint : N; ta_owner : N; ta_amount : Z; ta_state : token_state }.

(** [gagliardetto/solana-go]: a reply is a JSON value, which the caller reads as the type it
    expects ([GetObject], [Unmarshal]); [None] is a decoding error.  An account of a reply is its
    lamports; a listed token account has the program that owns it and its data, if any, which is
    as long as [data_length] says and is decoded by [NewBinDecoder]. *)
Class SolanaRpc : Type := {
  rpc_json : Type;
  account_data : Type;
  token_program_id : N;
  get_text : rpc_json → option string;
  get_account_owner : rpc_json → option (option N);
  get_token_decimals : rpc_json → option (option Z);
  get_slot : rpc_json → option Z;
  get_accounts : rpc_json → option (Z * list (option Z));
  get_token_accounts : rpc_json → option (Z * option (list rpc_json));
  get_token_account : rpc_json → option (N * option account_data);
  data_length : account_data → Z;
  decode_account : account_data → option token_account }.

(** ** Requests and replies *)
Inductive rpc_request :=
| getGenesisHash | getAccountInfo (key : N) | getTokenSupply (mint : N) | getSlot_request
| getMultipleAccounts (keys : list N) | getTokenAccountsByOwner (owner mint : N).
(** The identifier of a response: a JSON number, one of Go's numbers, or something else. *)
Inductive response_id := IdNumber (text : string) | IdInt (value : Z) | IdInt64 (value : Z) | IdFloat64 (value : Q) | IdOther.
Record RPCResponse {J : Type} := { rr_id : response_id; rr_error : option Z; rr_result : option J }.
Arguments RPCResponse : clear implicits.
(** An error of a batch call, as [errors.Is] and [errors.As] see it, with the error of the
    context of the attempt. *)
Record call_error := {
  ce_context : option go_error; ce_deadline : bool; ce_http : option Z; ce_net : bool; ce_json : bool; ce_eof : bool }.
Record batchFailure := { bf_code : string; bf_retryable : bool; bf_permanent : bool; bf_batch_unsupported : bool }.
Record batchExecution {J : Type} := { be_outcomes : list (result batchFailure J); be_rpc_reachable : bool; be_batch_supported : bool }.
Arguments batchExecution : clear implicits.

Definition failure (code : string) (retryable : bool) : batchFailure := {|
  bf_code := code; bf_retryable := retryable; bf_permanent := false; bf_batch_unsupported := false |}.
Definition permanentFailure (code : string) : batchFailure := {|
  bf_code := code; bf_retryable := false; bf_permanent := true; bf_batch_unsupported := false |}.
Definition configurationFailure : batchFailure := permanentFailure errorInvalidResponse.
Definition unsupportedBatchFailure (code : string) : batchFailure := {|
  bf_code := code; bf_retryable := false; bf_permanent := true; bf_batch_unsupported := true |}.
Definition classifyContextFailure (ctx : option go_error) : batchFailure :=
  if from_option is_canceled false ctx then failure errorCancelled false else failure errorTimeout true.
Definition classifyBatchCallError (err : call_error) : batchFailure * bool :=
  if from_option is_canceled false (ce_context err) then (failure errorCancelled false, false)
  else if from_option is_deadline_exceeded false (ce_context err) || ce_deadline err then (failure errorTimeout true, false)
  else match ce_http err with
  | Some code =>
      if bool_decide (code ∈ [408; 425; 429; 500; 502; 503; 504]) then
        (failure (if code =? 429 then errorRateLimited else errorRPCUnavailable) true, true)
      else if bool_decide (code ∈ [400; 404; 405; 415]) then (unsupportedBatchFailure errorRPCRejected, true)
      else (permanentFailure errorRPCRejected, true)
  | None =>
      if ce_net err then (failure errorRPCUnavailable true, false)
      else if ce_json err then (failure errorInvalidResponse false, true)
      else if ce_eof err then (failure errorRPCUnavailable true, true)
      else (failure errorInvalidResponse false, true)
  end.
Definition classifyRPCError (code : Z) : batchFailure :=
  if bool_decide (code ∈ [-32005; -32603]) then failure errorRPCUnavailable true
  else if bool_decide (code ∈ [-32600; -32601; -32602]) then permanentFailure errorRPCRejected
  else failure errorRPCRejected false.
(** [strconv.Atoi]: an optional sign and digits, in the range of [int]. *)
Definition Atoi (text : string) : option Z :=
  let '(negative, digits) :=
    match text with String "-"%char rest => (true, rest) | String "+"%char rest => (false, rest) | _ => (false, text) end in
  v ← big_SetString digits;
  let v := if negative : bool then - v else v in
  if (- 2 ^ 63 <=? v) && (v <=? max_int64) then Some v else None.
(** A [float64] is the integer it is converted to only when it is whole and in range. *)
Definition normalizeBatchResponseID (id : response_id) : option Z :=
  match id with
  | IdNumber text => Atoi text
  | IdInt value => Some value
  | IdInt64 value => Some value
  | IdFloat64 value =>
      let converted := Z.quot (Qnum value) (Zpos (Qden value)) in
      if (- 2 ^ 63 <=? converted) && (converted <=? max_int64) && Qeq_bool (inject_Z converted) value then Some converted else None
  | IdOther => None
  end.

(** ** Observations *)
(** [strings.Repeat("0", n)] is [zeros n]. *)
Definition formatAtomicAmount (value decimals : Z) : string :=
  let digits := decimal_text value in
  if decimals <=? 0 then digits
  else
    let scale := Z.to_nat decimals in
    let n := String.length digits in
    if (n <=? scale)%nat then ("0." +:+ zeros (scale - n) +:+ digits)%string
    else (String.substring 0 (n - scale) digits +:+ "." +:+ String.substring (n - scale) scale digits)%string.
Definition availableObservation (value decimals slot : Z) : BalanceObservation := {|
  bo_atomic_amount := decimal_text value; bo_amount := formatAtomicAmount value decimals; bo_decimals := decimals; bo_observed_slot := slot;
  bo_availability := availabilityAvailable; bo_error_code := ""; bo_token_account_count := 0 |}.
Definition unavailableObservation (decimals : Z) (errorCode : string) : BalanceObservation := {|
  bo_atomic_amount := ""; bo_amount := ""; bo_decimals := decimals; bo_observed_slot := 0; bo_availability := availabilityUnavailable;
  bo_error_code := errorCode; bo_token_account_count := 0 |}.
Definition set_token_accounts (o : BalanceObservation) (n : Z) : BalanceObservation := {|
  bo_atomic_amount := bo_atomic_amount o; bo_amount := bo_amount o; bo_decimals := bo_decimals o; bo_observed_slot := bo_observed_slot o;
  bo_availability := bo_availability o; bo_error_code := bo_error_code o; bo_token_account_count := n |}.
Definition unavailableWalletResult (walletID : Z) (address errorCode : string) : WalletBalanceResult := {|
  wb_wallet_id := walletID; wb_address := address; wb_sol := unavailableObservation SolanaDecimals errorCode;
  wb_usdc := unavailableObservation USDCDecimals errorCode; wb_status := walletBalanceUnavailable |}.
Definition available (o : BalanceObservation) : bool := bool_decide (bo_availability o = availabilityAvailable).
Definition walletBalanceStatus (sol usdc : BalanceObservation) : string :=
  if available sol && available usdc then walletBalanceComplete
  else if available sol || available usdc then walletBalancePartial else walletBalanceUnavailable.

Section Adapter.
Context {SL : SolanaLib} {SR : SolanaRpc}.

Inductive sol_op :=
| SolNow
| SolLimiter (n : nat)
| SolCall (requests : list rpc_request)
| SolRetryWait.
(** A refusal of the limiter comes with the error of the context; a pause ends, or the context
    does. *)
Definition sol_resp (o : sol_op) : Type :=
  match o with
  | SolNow => Z
  | SolLimiter _ => option (option go_error)
  | SolCall _ => result call_error (list (option (RPCResponse rpc_json)))
  | SolRetryWait => bool
  end.
Local Abbreviation prog := (program sol_resp).
Local Abbreviation call := (Prog.call (resp := sol_resp)).
Local Abbreviation outcome := (result batchFailure rpc_json).

(** ** Batches *)
Definition failedBatchExecution (count : nat) (f : batchFailure) (reachable : bool) : batchExecution rpc_json := {|
  be_outcomes := replicate count (Err f); be_rpc_reachable := reachable; be_batch_supported := false |}.
Definition response_outcome (response : RPCResponse rpc_json) : outcome :=
  match rr_error response with
  | Some code => Err (classifyRPCError code)
  | None => match rr_result response with Some r => Ok r | None => Err (failure errorInvalidResponse false) end
  end.
Fixpoint match_responses (responses : list (option (RPCResponse rpc_json))) (seen : gset Z) (outcomes : list outcome) : list outcome :=
  match responses with
  | [] => outcomes
  | None :: rest => match_responses rest seen outcomes
  | Some response :: rest =>
      match normalizeBatchResponseID (rr_id response) with
      | Some id =>
          if (id <? 0) || (Z.of_nat (length outcomes) <=? id) then match_responses rest seen outcomes
          else if bool_decide (id ∈ seen) then match_responses rest seen (<[Z.to_nat id := Err (failure errorInvalidResponse false)]> outcomes)
          else match_responses rest ({[id]} ∪ seen) (<[Z.to_nat id := response_outcome response]> outcomes)
      | None => match_responses rest seen outcomes
      end
  end.
Definition callBatchOnce (descriptors : list rpc_request) : prog (batchExecution rpc_json * option batchFailure) :=
  if Nat.eqb (length descriptors) 0 then
    let f := failure errorInvalidResponse false in mret (failedBatchExecution 0 f false, Some f)
  else
    refused ← call (SolLimiter (length descriptors));
    match refused with
    | Some ctx => let f := classifyContextFailure ctx in mret (failedBatchExecution (length descriptors) f false, Some f)
    | None =>
        reply ← call (SolCall descriptors);
        match reply with
        | Err err =>
            let '(f, reachable) := classifyBatchCallError err in mret (failedBatchExecution (length descriptors) f reachable, Some f)
        | Ok responses =>
            mret ({| be_outcomes := match_responses responses ∅ (replicate (length descriptors) (Err (failure errorInvalidResponse false)));
                     be_rpc_reachable := true; be_batch_supported := true |}, None)
        end
    end.
Definition also (a b : batchExecution rpc_json) (outcomes : list outcome) : batchExecution rpc_json := {|
  be_outcomes := outcomes; be_rpc_reachable := be_rpc_reachable a || be_rpc_reachable b;
  be_batch_supported := be_batch_supported a || be_batch_supported b |}.
Definition retryable (o : outcome) : bool := match o with Err f => bf_retryable f | Ok _ => false end.
(** The positions of the outcomes to repeat. *)
Definition retry_indexes (outcomes : list outcome) : list nat := filter (λ i, from_option retryable false (outcomes !! i) = true) (seq 0 (length outcomes)).
Fixpoint merge_retries (indexes : list nat) (retried outcomes : list outcome) : list outcome :=
  match indexes, retried with
  | i :: indexes', o :: retried' => merge_retries indexes' retried' (<[i := o]> outcomes)
  | _, _ => outcomes
  end.
Definition executeBatch (descriptors : list rpc_request) : prog (batchExecution rpc_json) :=
  '(first, callFailure) ← callBatchOnce descriptors;
  match callFailure with
  | Some f =>
      if bf_retryable f then
        waited ← call SolRetryWait;
        if waited : bool then
          '(second, _) ← callBatchOnce descriptors;
          mret (also first second (be_outcomes second))
        else mret first
      else mret first
  | None =>
      let indexes := retry_indexes (be_outcomes first) in
      if Nat.eqb (length indexes) 0 then mret first
      else
        waited ← call SolRetryWait;
        if waited : bool then
          '(again, _) ← callBatchOnce (omap (λ i, descriptors !! i) indexes);
          mret (also first again (merge_retries indexes (be_outcomes again) (be_outcomes first)))
        else mret first
  end.

(** ** Balances *)
Definition usdcMintPublicKey : N := default 0%N (public_key_from_base58 SolanaNativeUSDCMint).
Definition sol_observations (chunk : list N) (o : outcome) : list BalanceObservation :=
  match o with
  | Err f => replicate (length chunk) (unavailableObservation SolanaDecimals (bf_code f))
  | Ok response =>
      match get_accounts response with
      | Some (slot, value) =>
          if Nat.eqb (length value) (length chunk) && negb (slot =? 0) then
            (λ lamports, availableObservation (default 0 lamports) SolanaDecimals slot) <$> value
          else replicate (length chunk) (unavailableObservation SolanaDecimals errorInvalidResponse)
      | None => replicate (length chunk) (unavailableObservation SolanaDecimals errorInvalidResponse)
      end
  end.
Definition readSOLBalanceChunk (chunk : list N) : prog (list BalanceObservation) :=
  execution ← executeBatch [getMultipleAccounts chunk];
  mret match be_outcomes execution with
       | [o] => sol_observations chunk o
       | _ => replicate (length chunk) (unavailableObservation SolanaDecimals errorInvalidResponse)
       end.
Definition max_uint64 : Z := 2 ^ 64 - 1.
Fixpoint token_total (owner : N) (accounts : list rpc_json) (total : Z) : option Z :=
  match accounts with
  | [] => Some total
  | raw :: rest =>
      '(program, data) ← get_token_account raw;
      if negb (program =? token_program_id)%N then None
      else
        data ← data;
        if negb (data_length data =? legacyTokenAccountSize) then None
        else
          account ← decode_account data;
          if negb (ta_mint account =? usdcMintPublicKey)%N || negb (ta_owner account =? owner)%N
             || match ta_state account with Initialized | Frozen => false | Uninitialized => true end then None
          else if max_uint64 - total <? ta_amount account then None
          else token_total owner rest (total + ta_amount account)
  end.
Definition decodeUSDCBalance (response : rpc_json) (owner : N) : result string BalanceObservation :=
  match get_token_accounts response with
  | Some (slot, Some accounts) =>
      if slot =? 0 then Err errorInvalidResponse
      else match token_total owner accounts 0 with
      | Some total => Ok (set_token_accounts (availableObservation total USDCDecimals slot) (wrap32 (Z.of_nat (length accounts))))
      | None => Err errorDecode
      end
  | _ => Err errorInvalidResponse
  end.
Definition usdc_observation (owner : N) (o : outcome) : BalanceObservation :=
  match o with
  | Err f => unavailableObservation USDCDecimals (bf_code f)
  | Ok response => match decodeUSDCBalance response owner with
                   | Ok observation => observation
                   | Err errCode => unavailableObservation USDCDecimals errCode
                   end
  end.
Definition readUSDCBalance (owner : N) : prog BalanceObservation :=
  execution ← executeBatch [getTokenAccountsByOwner owner usdcMintPublicKey];
  mret match be_outcomes execution with
       | [o] => usdc_observation owner o
       | _ => unavailableObservation USDCDecimals errorInvalidResponse
       end.

Local Abbreviation output := (gmap string addressBalanceResult).
Definition set_sol (address : string) (o : BalanceObservation) (out : output) : output :=
  alter (λ b, {| ab_sol := o; ab_usdc := ab_usdc b |}) address out.
Definition set_usdc (address : string) (o : BalanceObservation) (out : output) : output :=
  alter (λ b, {| ab_sol := ab_sol b; ab_usdc := o |}) address out.
Fixpoint set_sols (addresses : list string) (observations : list BalanceObservation) (out : output) : output :=
  match addresses, observations with
  | a :: addresses', o :: observations' => set_sols addresses' observations' (set_sol a o out)
  | _, _ => out
  end.
(** The loop over [start]: consecutive pieces of [solanaBatchSize]; one step per piece. *)
Fixpoint chunks (fuel : nat) (addresses : list string) : list (list string) :=
  match fuel, addresses with
  | S fuel', _ :: _ => take solanaBatchSize addresses :: chunks fuel' (drop solanaBatchSize addresses)
  | _, _ => []
  end.
Fixpoint read_sol (keys : string → N) (pieces : list (list string)) (out : output) : prog output :=
  match pieces with
  | [] => mret out
  | piece :: pieces' =>
      observations ← readSOLBalanceChunk (keys <$> piece);
      read_sol keys pieces' (set_sols piece observations out)
  end.
Fixpoint read_usdc (keys : string → N) (addresses : list string) (out : output) : prog output :=
  match addresses with
  | [] => mret out
  | a :: addresses' => observation ← readUSDCBalance (keys a); read_usdc keys addresses' (set_usdc a observation out)
  end.
Definition unread : addressBalanceResult := {|
  ab_sol := unavailableObservation SolanaDecimals errorInvalidResponse; ab_usdc := unavailableObservation USDCDecimals errorInvalidResponse |}.
Definition readUniqueBalances (addresses : list string) (publicKeys : gmap string N) : prog output :=
  let keys a := default 0%N (publicKeys !! a) in
  let output := foldr (λ a out, <[a := unread]> out) ∅ addresses in
  output ← read_sol keys (chunks (length addresses) addresses) output;
  read_usdc keys addresses output.

(** ** Probing *)
Definition probe_requests : list rpc_request :=
  [getGenesisHash; getAccountInfo usdcMintPublicKey; getTokenSupply usdcMintPublicKey; getSlot_request].
(** [storeStatus] stores the status it returns. *)
Definition recordProbeFailure (s : SolanaAdapterStatus) (f : batchFailure) : SolanaAdapterStatus := {|
  ss_status := if bf_permanent f then "configuration_error" else "degraded"; ss_rpc_configured := ss_rpc_configured s;
  ss_rpc_reachable := ss_rpc_reachable s; ss_batch_supported := if bf_batch_unsupported f then false else ss_batch_supported s;
  ss_genesis_verified := ss_genesis_verified s; ss_genesis_hash := ss_genesis_hash s; ss_usdc_program_verified := ss_usdc_program_verified s;
  ss_usdc_decimals := ss_usdc_decimals s; ss_latest_confirmed_slot := ss_latest_confirmed_slot s; ss_last_probe_at := ss_last_probe_at s;
  ss_last_success_at := ss_last_success_at s; ss_latency_ms := ss_latency_ms s; ss_consecutive_failures := wrap32 (ss_consecutive_failures s + 1);
  ss_last_error_code := bf_code f; ss_configuration_error := bf_permanent f |}.
Definition probed (s : SolanaAdapterStatus) (reachable supported : bool) (at_ latency : Z) : SolanaAdapterStatus := {|
  ss_status := ss_status s; ss_rpc_configured := ss_rpc_configured s; ss_rpc_reachable := reachable; ss_batch_supported := ss_batch_supported s || supported;
  ss_genesis_verified := ss_genesis_verified s; ss_genesis_hash := ss_genesis_hash s; ss_usdc_program_verified := ss_usdc_program_verified s;
  ss_usdc_decimals := ss_usdc_decimals s; ss_latest_confirmed_slot := ss_latest_confirmed_slot s; ss_last_probe_at := at_;
  ss_last_success_at := ss_last_success_at s; ss_latency_ms := latency; ss_consecutive_failures := ss_consecutive_failures s;
  ss_last_error_code := ss_last_error_code s; ss_configuration_error := ss_configuration_error s |}.
Definition set_genesis (hash : string) (s : SolanaAdapterStatus) : SolanaAdapterStatus := {|
  ss_status := ss_status s; ss_rpc_configured := ss_rpc_configured s; ss_rpc_reachable := ss_rpc_reachable s; ss_batch_supported := ss_batch_supported s;
  ss_genesis_verified := bool_decide (hash = SolanaMainnetGenesisHash); ss_genesis_hash := hash; ss_usdc_program_verified := ss_usdc_program_verified s;
  ss_usdc_decimals := ss_usdc_decimals s; ss_latest_confirmed_slot := ss_latest_confirmed_slot s; ss_last_probe_at := ss_last_probe_at s;
  ss_last_success_at := ss_last_success_at s; ss_latency_ms := ss_latency_ms s; ss_consecutive_failures := ss_consecutive_failures s;
  ss_last_error_code := ss_last_error_code s; ss_configuration_error := ss_configuration_error s |}.
Definition set_usdc_program (verified : bool) (s : SolanaAdapterStatus) : SolanaAdapterStatus := {|
  ss_status := ss_status s; ss_rpc_configured := ss_rpc_configured s; ss_rpc_reachable := ss_rpc_reachable s; ss_batch_supported := ss_batch_supported s;
  ss_genesis_verified := ss_genesis_verified s; ss_genesis_hash := ss_genesis_hash s; ss_usdc_program_verified := verified;
  ss_usdc_decimals := ss_usdc_decimals s; ss_latest_confirmed_slot := ss_latest_confirmed_slot s; ss_last_probe_at := ss_last_probe_at s;
  ss_last_success_at := ss_last_success_at s; ss_latency_ms := ss_latency_ms s; ss_consecutive_failures := ss_consecutive_failures s;
  ss_last_error_code := ss_last_error_code s; ss_configuration_error := ss_configuration_error s |}.
Definition set_decimals (decimals : Z) (s : SolanaAdapterStatus) : SolanaAdapterStatus := {|
  ss_status := ss_status s; ss_rpc_configured := ss_rpc_configured s; ss_rpc_reachable := ss_rpc_reachable s; ss_batch_supported := ss_batch_supported s;
  ss_genesis_verified := ss_genesis_verified s; ss_genesis_hash := ss_genesis_hash s; ss_usdc_program_verified := ss_usdc_program_verified s;
  ss_usdc_decimals := decimals; ss_latest_confirmed_slot := ss_latest_confirmed_slot s; ss_last_probe_at := ss_last_probe_at s;
  ss_last_success_at := ss_last_success_at s; ss_latency_ms := ss_latency_ms s; ss_consecutive_failures := ss_consecutive_failures s;
  ss_last_error_code := ss_last_error_code s; ss_configuration_error := ss_configuration_error s |}.
Definition probe_succeeded (slot at_ : Z) (s : SolanaAdapterStatus) : SolanaAdapterStatus := {|
  ss_status := "running"; ss_rpc_configured := ss_rpc_configured s; ss_rpc_reachable := ss_rpc_reachable s; ss_batch_supported := ss_batch_supported s;
  ss_genesis_verified := ss_genesis_verified s; ss_genesis_hash := ss_genesis_hash s; ss_usdc_program_verified := ss_usdc_program_verified s;
  ss_usdc_decimals := ss_usdc_decimals s; ss_latest_confirmed_slot := slot; ss_last_probe_at := ss_last_probe_at s;
  ss_last_success_at := at_; ss_latency_ms := ss_latency_ms s; ss_consecutive_failures := 0; ss_last_error_code := "";
  ss_configuration_error := ss_configuration_error s |}.
Definition first_failure (outcomes : list outcome) : option batchFailure :=
  head (omap (λ o, match o with Err f => Some f | Ok _ => None end) outcomes).
Definition mint_status (json : rpc_json) (s : SolanaAdapterStatus) : result SolanaAdapterStatus SolanaAdapterStatus :=
  match get_account_owner json with
  | Some (Some owner) =>
      if (owner =? token_program_id)%N then Ok (set_usdc_program true s)
      else Err (recordProbeFailure (set_usdc_program false s) configurationFailure)
  | _ => Err (recordProbeFailure s (failure errorInvalidResponse false))
  end.
Definition supply_status (json : rpc_json) (s : SolanaAdapterStatus) : result SolanaAdapterStatus SolanaAdapterStatus :=
  match get_token_decimals json with
  | Some (Some decimals) =>
      let s := set_decimals decimals s in if decimals =? USDCDecimals then Ok s else Err (recordProbeFailure s configurationFailure)
  | _ => Err (recordProbeFailure s (failure errorInvalidResponse false))
  end.
Definition genesis_status (json : rpc_json) (s : SolanaAdapterStatus) : result SolanaAdapterStatus SolanaAdapterStatus :=
  match get_text json with
  | Some hash =>
      if bool_decide (hash = EmptyString) then Err (recordProbeFailure s (failure errorInvalidResponse false))
      else let s := set_genesis hash s in
           if ss_genesis_verified s then Ok s else Err (recordProbeFailure s configurationFailure)
  | None => Err (recordProbeFailure s (failure errorInvalidResponse false))
  end.
Definition slot_status (json : rpc_json) (at_ : Z) (s : SolanaAdapterStatus) : result SolanaAdapterStatus SolanaAdapterStatus :=
  match get_slot json with
  | Some slot => if slot =? 0 then Err (recordProbeFailure s (failure errorInvalidResponse false)) else Ok (probe_succeeded slot at_ s)
  | None => Err (recordProbeFailure s (failure errorInvalidResponse false))
  end.
Definition probe_replies (outcomes : list outcome) (at_ : Z) (s : SolanaAdapterStatus) : result SolanaAdapterStatus SolanaAdapterStatus :=
  match outcomes with
  | [Ok genesis; Ok mint; Ok supply; Ok slot] =>
      s ← genesis_status genesis s; s ← mint_status mint s; s ← supply_status supply s; slot_status slot at_ s
  | _ => Err (recordProbeFailure s (failure errorInvalidResponse false))
  end.
(** [Probe] on the status [current], in nanoseconds; it returns the status it stores. *)
Definition Probe (current : SolanaAdapterStatus) : prog SolanaAdapterStatus :=
  if ss_configuration_error current then mret current
  else
    startedAt ← call SolNow;
    execution ← executeBatch probe_requests;
    observedAt ← call SolNow;
    let s := probed current (be_rpc_reachable execution) (be_batch_supported execution) (observedAt / 1000000000)
               (Z.quot (observedAt - startedAt) 1000000) in
    match first_failure (be_outcomes execution) with
    | Some f => mret (recordProbeFailure s f)
    | None => mret match probe_replies (be_outcomes execution) (observedAt / 1000000000) s with Ok s' | Err s' => s' end
    end.
End Adapter.

(** ** Requests for balances *)
Definition balanceSingleflightKey {CL : ChallengeLib} (addresses : list string) : string :=
  hex_EncodeToString (sha256 (String.concat (String "001" "") [SolanaNetwork; SolanaCommitment; SolanaNativeUSDCMint;
    String.concat (String "000" "") addresses])).
Section Reads.
Context {SL : SolanaLib} {CL : ChallengeLib}.
(** The shared read of a key: the end of the caller's context, or the balances. *)
Inductive read_op := ReadShared (key : string) (addresses : list string) (publicKeys : gmap string N).
Definition read_resp (o : read_op) : Type := result go_error (gmap string addressBalanceResult).
Definition canonical_key (address : string) : option N :=
  match public_key_from_base58 address with
  | Some k => if bool_decide (public_key_string k = address) then Some k else None
  | None => None
  end.
Definition valid_addresses (refs : list WalletBalanceReference) : gmap string N :=
  foldl (λ m r, let address := trim_space (wbr_address r) in
                match canonical_key address with Some k => <[address := k]> m | None => m end) ∅ refs.
Definition refused_ref (r : WalletBalanceReference) : WalletBalanceResult :=
  unavailableWalletResult (wbr_wallet_id r) (trim_space (wbr_address r)) errorInvalidWalletAddress.
Definition read_ref (results : gmap string addressBalanceResult) (r : WalletBalanceReference) : WalletBalanceResult :=
  let address := trim_space (wbr_address r) in
  match results !! address with
  | Some b => {| wb_wallet_id := wbr_wallet_id r; wb_address := address; wb_sol := ab_sol b; wb_usdc := ab_usdc b;
                 wb_status := walletBalanceStatus (ab_sol b) (ab_usdc b) |}
  | None => refused_ref r
  end.
(** [started]: whether [Start] has set the context of the service. *)
Definition BatchGetBalances (started : bool) (refs : list WalletBalanceReference) : program read_resp (result go_error (list WalletBalanceResult)) :=
  if negb started then mret (Err (ErrorText "Solana balance adapter is not started"))
  else
    let valid := valid_addresses refs in
    if bool_decide (valid = ∅) then mret (Ok (refused_ref <$> refs))
    else
      let addresses := sort_by String.leb (map_to_list valid).*1 in
      shared ← Prog.call (resp := read_resp) (ReadShared (balanceSingleflightKey addresses) addresses valid);
      mret match shared with
           | Err err => Err err
           | Ok results => Ok (read_ref results <$> refs)
           end.
End Reads.

(** ** Configuration *)
(** [url.Parse] of the endpoint gives a host and a scheme; a rate that is not finite is [None]. *)
Record SolanaBalanceAdapterConfig := {
  cf_rpc_url : string; cf_rpc_attempt_timeout : Z; cf_balance_budget : Z; cf_rpc_rate_limit : option Q; cf_rpc_rate_burst : Z }.
Definition initial_status : SolanaAdapterStatus := {|
  ss_status := "degraded"; ss_rpc_configured := true; ss_rpc_reachable := false; ss_batch_supported := false; ss_genesis_verified := false;
  ss_genesis_hash := ""; ss_usdc_program_verified := false; ss_usdc_decimals := USDCDecimals; ss_latest_confirmed_slot := 0; ss_last_probe_at := 0;
  ss_last_success_at := 0; ss_latency_ms := 0; ss_consecutive_failures := 0; ss_last_error_code := ""; ss_configuration_error := false |}.
Definition NewSolanaBalanceAdapter (url_parse : string → option (string * string)) (config : SolanaBalanceAdapterConfig) :
    result string SolanaAdapterStatus :=
  let endpoint := trim_space (cf_rpc_url config) in
  _ ← require (negb (bool_decide (endpoint = EmptyString))) "Solana RPC URL is required";
  _ ← require (match url_parse endpoint with
               | Some (host, scheme) => negb (bool_decide (host = EmptyString)) && (bool_decide (scheme = "http") || bool_decide (scheme = "https"))
               | None => false
               end) "Solana RPC URL must be an absolute HTTP or HTTPS URL";
  _ ← require (0 <? cf_rpc_attempt_timeout config) "Solana RPC attempt timeout must be positive";
  _ ← require (0 <? cf_balance_budget config) "Solana balance budget must be positive";
  _ ← require (cf_rpc_attempt_timeout config <=? cf_balance_budget config) "Solana RPC attempt timeout must not exceed the balance budget";
  _ ← require (match cf_rpc_rate_limit config with Some q => 0 <? Qnum q | None => false end)
        "Solana RPC rate limit must be a finite positive number";
  _ ← require (Z.of_nat solanaBatchSize + 1 <=? cf_rpc_rate_burst config) "Solana RPC rate burst must be at least 26";
  Ok initial_status.
