(* ===== verification/SolanaTheorems.v ===== *)
(** * Solana balances: theorems

    Every balance the adapter reports is what the node said of that wallet, and the adapter
    calls itself ready only for a node that proved to be the main network.  First, how
    replies are matched to requests and what a batch returns. *)

From S2P Require Import Prelude Prog Sql CashOutStages ConnectionService Decimal Solana ConnectionScenario.
From stdpp Require Import base tactics option list list_numbers sorting strings gmap relations.
From Stdlib Require Import ZArith QArith Lia Ascii.
#[local] Open Scope Z_scope.

#[local] Abbreviation num := Decimal.num.

(** ** Amounts *)
(** The text of [value] units of [10 ^ -decimals]. *)
Lemma format_spells value decimals : 0 ≤ value → 0 < decimals →
  ∃ i f, spells (formatAtomicAmount value decimals) i f ∧ num (i +:+ f) = value ∧ String.length f = Z.to_nat decimals.
Proof.
  intros Hv Hd. destruct (decimal_text_whole value Hv) as [[Hdig Hw] Hn]. unfold formatAtomicAmount.
  rewrite (proj2 (Z.leb_gt _ _) Hd). cbv zeta. set (s := decimal_text value) in *. set (k := Z.to_nat decimals).
  destruct (Nat.leb_spec (String.length s) k) as [Hle|Hgt].
  - exists "0", (zeros (k - String.length s) +:+ s). destruct (zeros_spec (k - String.length s)) as (Z1 & Z2 & Z3).
    assert (zeros (k - String.length s) +:+ s ≠ "") as Hne by (destruct s; [done|]; by destruct (zeros _)).
    split_and!.
    + split_and!; [by split|by rewrite all_digits_app, Z1|]. by rewrite bool_decide_false.
    + rewrite append_cons, append_empty. cbn [num]. rewrite num_app, Z2, Hn. unfold digit_value. cbn. lia.
    + rewrite length_append, Z3. lia.
  - destruct (cut s (String.length s - k)) as (p & q & -> & Hp & Hq); [lia|]. rewrite <- Hp, substring_prefix.
    replace k with (String.length q) by lia. rewrite substring_append. rewrite all_digits_app in Hdig. apply andb_true_iff in Hdig as [Dp Dq].
    exists p, q. split_and!; [|done|done]. split_and!; [|done|].
    + split; [done|]. destruct p as [|a p]; [cbn in Hp; lia|]. intros E. specialize (Hw E). by destruct p.
    + rewrite bool_decide_false; [done|]. intros ->. cbn in Hq. lia.
Qed.
Lemma text_bound value n : 0 ≤ value < 10 ^ n → 1 ≤ n → Z.of_nat (String.length (decimal_text value)) ≤ n.
Proof. intros Hv Hn. pose proof (text_length value n ltac:(lia) ltac:(lia) ltac:(lia)). lia. Qed.
Lemma format_length value decimals : 0 ≤ value ≤ max_uint64 → 0 < decimals ≤ 9 → (String.length (formatAtomicAmount value decimals) ≤ 21)%nat.
Proof.
  intros Hv Hd. assert (Z.of_nat (String.length (decimal_text value)) ≤ 20) as Hl by (apply text_bound; [unfold max_uint64 in Hv; lia|lia]).
  unfold formatAtomicAmount. rewrite (proj2 (Z.leb_gt _ _) (proj1 Hd)). cbv zeta. set (s := decimal_text value) in *. set (k := Z.to_nat decimals).
  destruct (Nat.leb_spec (String.length s) k) as [Hle|Hgt].
  - destruct (zeros_spec (k - String.length s)) as (_ & _ & Z3). rewrite !length_append, Z3. cbn [String.length]. lia.
  - destruct (cut s (String.length s - k)) as (p & q & E & Hp & Hq); [lia|]. rewrite E in *. rewrite <- Hp, substring_prefix.
    replace k with (String.length q) by lia. rewrite substring_append. rewrite !length_append in *. cbn [String.length]. lia.
Qed.
(** The amount of an observation is exact. *)
Lemma format_exact value decimals : 0 ≤ value ≤ max_uint64 → 0 < decimals ≤ 9 →
  ∃ d, parseExecutionPreviewDecimal (formatAtomicAmount value decimals) = Ok d ∧ (amount d == value # Z.to_pos (10 ^ decimals))%Q.
Proof.
  intros Hv Hd. destruct (format_spells value decimals) as (i & f & Hs & Hn & Hf); [lia|lia|]. pose proof (format_length value decimals Hv Hd) as Hl.
  eexists. split; [apply (parse_spells _ i f); [done|unfold executionPreviewDecimalMaxLength; lia]|].
  rewrite drop_zeros_amount by lia. rewrite Hn, Hf. unfold amount. cbn [coefficient scale]. by rewrite Z2Nat.id by lia.
Qed.

(** ** Errors *)
(** The error codes of the adapter. *)
Definition known_code (code : string) : Prop :=
  code ∈ [errorCancelled; errorDecode; errorInvalidResponse; errorInvalidWalletAddress; errorRateLimited; errorRPCRejected; errorRPCUnavailable; errorTimeout].
Lemma known_codes code : bool_decide (known_code code) = true → known_code code.
Proof. apply bool_decide_eq_true. Qed.
Ltac known := apply known_codes; vm_compute; reflexivity.
Lemma context_code ctx : known_code (bf_code (classifyContextFailure ctx)).
Proof. unfold classifyContextFailure. destruct (from_option _ _ _); known. Qed.
Lemma call_error_code err : known_code (bf_code (classifyBatchCallError err).1).
Proof. unfold classifyBatchCallError. repeat (case_match || case_bool_decide); known. Qed.
Lemma rpc_error_code code : known_code (bf_code (classifyRPCError code)).
Proof. unfold classifyRPCError. repeat case_bool_decide; known. Qed.

Section Laws.
Context {SL : SolanaLib} {SR : SolanaRpc}.
Local Abbreviation outcome := (result batchFailure rpc_json).
Local Abbreviation sol_log := (list {o : sol_op & sol_resp o}).
Local Abbreviation responses_list := (list (option (RPCResponse rpc_json))).

(** ** Matching *)
Definition invalid_reply : outcome := Err (failure errorInvalidResponse false).
(** The responses to the request at position [i], and what the request gets. *)
Definition addressed (i : nat) (r : option (RPCResponse rpc_json)) : bool :=
  match r with Some x => bool_decide (normalizeBatchResponseID (rr_id x) = Some (Z.of_nat i)) | None => false end.
Definition responses_to (i : nat) (responses : responses_list) : list (RPCResponse rpc_json) :=
  omap id (filter (λ r, addressed i r = true) responses).
Definition outcome_of (i : nat) (responses : responses_list) : outcome :=
  match responses_to i responses with [r] => response_outcome r | _ => invalid_reply end.

Lemma match_responses_length responses seen outcomes : length (match_responses responses seen outcomes) = length outcomes.
Proof.
  revert seen outcomes. induction responses as [|[r|] rs IH]; intros seen outs; cbn [match_responses]; [done| |apply IH].
  destruct (normalizeBatchResponseID _) as [id|]; [|apply IH]. destruct (_ || _); [apply IH|]. case_bool_decide; rewrite IH; apply length_insert.
Qed.
Lemma responses_to_cons i r rs : responses_to i (Some r :: rs) =
  (if decide (normalizeBatchResponseID (rr_id r) = Some (Z.of_nat i)) then [r] else []) ++ responses_to i rs.
Proof.
  unfold responses_to. rewrite filter_cons. unfold addressed at 1. case_decide as H1; destruct (decide (normalizeBatchResponseID _ = _)) as [H2|H2]; try done.
  - by rewrite bool_decide_false in H1.
  - by rewrite bool_decide_true in H1.
Qed.
Lemma match_responses_spec responses seen outcomes i : (i < length outcomes)%nat →
  match_responses responses seen outcomes !! i =
    match responses_to i responses with
    | [] => outcomes !! i
    | [r] => Some (if bool_decide (Z.of_nat i ∈ seen) then invalid_reply else response_outcome r)
    | _ => Some invalid_reply
    end.
Proof.
  revert seen outcomes. induction responses as [|[r|] rs IH]; intros seen outs Hi; cbn [match_responses]; [done| |by rewrite IH].
  rewrite responses_to_cons. destruct (normalizeBatchResponseID (rr_id r)) as [id|]; [|rewrite IH by done; by case_decide].
  destruct ((id <? 0) || (Z.of_nat (length outs) <=? id)) eqn:Eb.
  { rewrite IH by done. case_decide as E; [|done]. injection E as ->. apply orb_true_iff in Eb as [?%Z.ltb_lt|?%Z.leb_le]; lia. }
  apply orb_false_iff in Eb as [H1%Z.ltb_ge H2%Z.leb_gt]. case_decide as E.
  - injection E as ->. rewrite Nat2Z.id. cbn [app]. case_bool_decide as Hs; rewrite IH by (by rewrite length_insert); rewrite list_lookup_insert_eq by done.
    + destruct (responses_to i rs) as [|? [|]]; [done| |done]. by rewrite bool_decide_true.
    + destruct (responses_to i rs) as [|? [|]]; [done| |done]. by rewrite bool_decide_true by set_solver.
  - assert (Z.to_nat id ≠ i) as Hne by (intros <-; apply E; by rewrite Z2Nat.id by lia). cbn [app].
    case_bool_decide as Hs; rewrite IH by (by rewrite length_insert); rewrite list_lookup_insert_ne by done; [done|].
    destruct (responses_to i rs) as [|? [|]]; [done| |done]. assert (Z.of_nat i ≠ id) by (intros <-; apply Hne, Nat2Z.id).
    f_equal. assert (bool_decide (Z.of_nat i ∈ ({[id]} ∪ seen : gset Z)) = bool_decide (Z.of_nat i ∈ seen)) as ->; [|done]. apply bool_decide_ext. set_solver.
Qed.
Lemma matched_outcome responses n i : (i < n)%nat → match_responses responses ∅ (replicate n invalid_reply) !! i = Some (outcome_of i responses).
Proof.
  intros Hi. rewrite match_responses_spec by (by rewrite length_replicate). unfold outcome_of. destruct (responses_to i responses) as [|r [|]]; [|done|done].
  by apply lookup_replicate.
Qed.

(** ** Batches *)
(** The node answered [request] with [json]: in a batch with the request, the one response that
    names its position has no error and that result. *)
Definition answered (log : sol_log) (request : rpc_request) (json : rpc_json) : Prop :=
  ∃ requests responses i r, existT (SolCall requests) (Ok responses) ∈ log ∧ requests !! i = Some request
    ∧ responses_to i responses = [r] ∧ rr_error r = None ∧ rr_result r = Some json.
Lemma answered_mono log log' request json : log ⊆ log' → answered log request json → answered log' request json.
Proof. intros Hs (rs & resp & i & r & H & ?). exists rs, resp, i, r. split; [by apply Hs|done]. Qed.
Definition is_call (e : {o : sol_op & sol_resp o}) : bool := match projT1 e with SolCall _ => true | _ => false end.
Definition calls (log : sol_log) : nat := length (filter (λ e, is_call e = true) log).
Lemma calls_app l l' : calls (l ++ l') = (calls l + calls l')%nat.
Proof. unfold calls. by rewrite filter_app, length_app. Qed.
Lemma calls_cons e l : calls (e :: l) = ((if is_call e then 1 else 0) + calls l)%nat.
Proof. unfold calls. rewrite filter_cons. by destruct (is_call e). Qed.
Lemma calls_nil : calls [] = 0%nat.
Proof. done. Qed.
Ltac count := rewrite ?calls_app, ?calls_cons, ?calls_nil; cbn [is_call projT1]; lia.
Record batch_ok (descriptors : list rpc_request) (log : sol_log) (outcomes : list outcome) : Prop := {
  bk_length : length outcomes = length descriptors;
  bk_answered : ∀ i json request, outcomes !! i = Some (Ok json) → descriptors !! i = Some request → answered log request json;
  bk_codes : ∀ i f, outcomes !! i = Some (Err f) → known_code (bf_code f) }.
Lemma batch_failed n (ds : list rpc_request) log f : length ds = n → known_code (bf_code f) → batch_ok ds log (replicate n (Err f)).
Proof.
  intros <- Hf. constructor; [by rewrite length_replicate| |].
  - intros i json request H. apply lookup_replicate in H as [H _]. done.
  - intros i g H. apply lookup_replicate in H as [[= ->] _]. done.
Qed.
Lemma outcome_code i responses f : outcome_of i responses = Err f → known_code (bf_code f).
Proof.
  unfold outcome_of, response_outcome, invalid_reply. destruct (responses_to i responses) as [|r [|]]; [intros [= <-]; known| |intros [= <-]; known].
  destruct (rr_error r); [intros [= <-]; apply rpc_error_code|]. destruct (rr_result r); [done|intros [= <-]; known].
Qed.
Lemma call_once descriptors log e f : runs (callBatchOnce descriptors) log (e, f) → batch_ok descriptors log (be_outcomes e) ∧ (calls log ≤ 1)%nat.
Proof.
  unfold callBatchOnce. destruct (Nat.eqb_spec (length descriptors) 0) as [Hz|Hz].
  { intros [-> [= -> ->]]%runs_ret. split; [apply batch_failed; [done|known]|count]. }
  intros H. apply runs_bind in H as (l1 & refused & l2 & -> & Hc & H). pose proof (runs_call (SolLimiter _) _ refused Hc) as ->. clear Hc. destruct refused as [ctx|].
  { apply runs_ret in H as [-> [= -> ->]]. split; [apply batch_failed; [done|apply context_code]|count]. }
  apply runs_bind in H as (l3 & reply & l4 & -> & Hc & H). pose proof (runs_call (SolCall _) _ reply Hc) as ->. clear Hc. destruct reply as [responses|err].
  - apply runs_ret in H as [-> [= -> ->]]. split; [|count]. constructor; cbn [be_outcomes].
    + by rewrite match_responses_length, length_replicate.
    + intros i json request Hi Hr. pose proof (lookup_lt_Some _ _ _ Hr) as Hlt. rewrite (matched_outcome _ _ _ Hlt) in Hi. injection Hi as Hi.
      unfold outcome_of in Hi. destruct (responses_to i responses) as [|r [|]] eqn:Er; [done| |done]. unfold response_outcome in Hi.
      destruct (rr_error r) eqn:Ee; [done|]. destruct (rr_result r) eqn:Es; [|done]. injection Hi as ->.
      exists descriptors, responses, i, r. split_and!; [set_solver|done|done|done|done].
    + intros i f Hi. pose proof (lookup_lt_Some _ _ _ Hi) as Hlt. rewrite match_responses_length, length_replicate in Hlt.
      rewrite (matched_outcome _ _ _ Hlt) in Hi. injection Hi as Hi. by eapply outcome_code.
  - pose proof (call_error_code err) as Hk. destruct (classifyBatchCallError err) as [f' reachable]. apply runs_ret in H as [-> [= -> ->]]. split; [by apply batch_failed|count].
Qed.
Lemma merge_length indexes retried outcomes : length (merge_retries indexes retried outcomes) = length outcomes.
Proof. revert retried outcomes. induction indexes as [|i l IH]; intros [|o r] outs; cbn; [done..|]. by rewrite IH, length_insert. Qed.
Lemma merge_lookup indexes retried outcomes i o : merge_retries indexes retried outcomes !! i = Some o →
  outcomes !! i = Some o ∨ ∃ j, indexes !! j = Some i ∧ retried !! j = Some o.
Proof.
  revert retried outcomes. induction indexes as [|k l IH]; intros [|x r] outs; cbn [merge_retries]; [by left..|].
  intros [H|(j & H1 & H2)]%IH; [|right; by exists (S j)]. destruct (decide (k = i)) as [->|Hne].
  - destruct (decide (i < length outs)%nat) as [Hlt|Hge]; [rewrite list_lookup_insert_eq in H by done; injection H as ->; right; by exists 0%nat|].
    left. rewrite list_insert_ge in H by lia. done.
  - left. by rewrite list_lookup_insert_ne in H.
Qed.
Lemma omap_lookup_all {A B} (f : A → option B) (l : list A) : (∀ x, x ∈ l → is_Some (f x)) →
  length (omap f l) = length l ∧ ∀ j, omap f l !! j = (l !! j) ≫= f.
Proof.
  induction l as [|x l IH]; intros H; [done|]. destruct (H x) as [y Hy]; [constructor|]. cbn. rewrite Hy.
  destruct IH as [IH1 IH2]; [intros z Hz; apply H; by constructor|]. split; [cbn; by rewrite IH1|]. intros [|j]; cbn; [by rewrite Hy|apply IH2].
Qed.
Lemma execute_batch descriptors log e : runs (executeBatch descriptors) log e → batch_ok descriptors log (be_outcomes e) ∧ (calls log ≤ 2)%nat.
Proof.
  unfold executeBatch. intros H. apply runs_bind in H as (l1 & [first cf] & l2 & -> & H1 & H). apply call_once in H1 as [B1 C1].
  assert (∀ ds outs log', batch_ok ds l1 outs → batch_ok ds (l1 ++ log') outs) as Mono.
  { intros ds outs log' [Hl Ha Hk]. split; [done| |done]. intros i json rq H1 H2. eapply answered_mono; [|by eapply Ha]. set_solver. }
  destruct cf as [f|].
  - destruct (bf_retryable f); [|apply runs_ret in H as [-> ->]; split; [by apply Mono|count]].
    apply runs_bind in H as (l3 & waited & l4 & -> & Hc & H). pose proof (runs_call SolRetryWait _ waited Hc) as ->. clear Hc.
    destruct waited; [|apply runs_ret in H as [-> ->]; split; [by apply Mono|count]].
    apply runs_bind in H as (l5 & [second c2] & l6 & -> & H2 & H). apply runs_ret in H as [-> ->]. apply call_once in H2 as [[Hl Ha Hk] C2].
    rewrite app_nil_r. split; [|count]. split; [done| |done]. cbn [also be_outcomes]. intros i json rq Hi Hr. eapply answered_mono; [|by eapply Ha]. set_solver.
  - cbv zeta in H. destruct (Nat.eqb_spec (length (retry_indexes (be_outcomes first))) 0); [apply runs_ret in H as [-> ->]; split; [by apply Mono|count]|].
    apply runs_bind in H as (l3 & waited & l4 & -> & Hc & H). pose proof (runs_call SolRetryWait _ waited Hc) as ->. clear Hc.
    destruct waited; [|apply runs_ret in H as [-> ->]; split; [by apply Mono|count]].
    apply runs_bind in H as (l5 & [again c2] & l6 & -> & H2 & H). apply runs_ret in H as [-> ->]. apply call_once in H2 as [[Hl Ha Hk] C2].
    rewrite app_nil_r. split; [|count]. cbn [also be_outcomes]. split; [rewrite merge_length; apply B1| |].
    2: { intros i g [Hi|(j & _ & Ho)]%merge_lookup; [by eapply B1|by eapply Hk]. }
    intros i json rq Hi Hr.
    apply merge_lookup in Hi as [Hi|(j & Hj & Ho)]; [eapply answered_mono; [|by eapply B1]; set_solver|].
    assert (∀ x, x ∈ retry_indexes (be_outcomes first) → is_Some (descriptors !! x)) as Hall.
    { intros x [_ [_ Hx]%elem_of_seq]%list_elem_of_filter. apply lookup_lt_is_Some. rewrite <- (bk_length _ _ _ B1). lia. }
    destruct (omap_lookup_all _ _ Hall) as [_ Hlk]. eapply answered_mono; [|eapply Ha; [exact Ho|]]; [set_solver|]. rewrite Hlk, Hj. done.
Qed.

(** ** Observations *)
Definition unread_observation (decimals : Z) (o : BalanceObservation) : Prop := ∃ code, known_code code ∧ o = unavailableObservation decimals code.
(** An account that counts: a token account of the token program for USDC that belongs to
    [owner] and is in use. *)
Definition usdc_account (owner : N) (json : rpc_json) (units : Z) : Prop :=
  ∃ data account, get_token_account json = Some (token_program_id, Some data) ∧ data_length data = legacyTokenAccountSize
    ∧ decode_account data = Some account ∧ ta_mint account = usdcMintPublicKey ∧ ta_owner account = owner
    ∧ ta_state account ≠ Uninitialized ∧ ta_amount account = units.
Inductive sol_truth (log : sol_log) (key : N) (o : BalanceObservation) : Prop :=
| sol_unread : unread_observation SolanaDecimals o → sol_truth log key o
| sol_read chunk i json slot value lamports : answered log (getMultipleAccounts chunk) json → chunk !! i = Some key →
    get_accounts json = Some (slot, value) → length value = length chunk → value !! i = Some lamports → slot ≠ 0 →
    o = availableObservation (default 0 lamports) SolanaDecimals slot → sol_truth log key o.
Inductive usdc_truth (log : sol_log) (key : N) (o : BalanceObservation) : Prop :=
| usdc_unread : unread_observation USDCDecimals o → usdc_truth log key o
| usdc_read json slot accounts units : answered log (getTokenAccountsByOwner key usdcMintPublicKey) json →
    get_token_accounts json = Some (slot, Some accounts) → slot ≠ 0 → Forall2 (usdc_account key) accounts units → zsum units ≤ max_uint64 →
    o = set_token_accounts (availableObservation (zsum units) USDCDecimals slot) (wrap32 (Z.of_nat (length accounts))) → usdc_truth log key o.
Lemma sol_truth_mono log log' key o : log ⊆ log' → sol_truth log key o → sol_truth log' key o.
Proof. intros Hs [H|chunk i json slot value l H ?]; [by apply sol_unread|]. eapply sol_read; [by eapply answered_mono|done..]. Qed.
Lemma usdc_truth_mono log log' key o : log ⊆ log' → usdc_truth log key o → usdc_truth log' key o.
Proof. intros Hs [H|json slot accounts units H ?]; [by apply usdc_unread|]. eapply usdc_read; [by eapply answered_mono|done..]. Qed.
Lemma unread_known decimals code : known_code code → unread_observation decimals (unavailableObservation decimals code).
Proof. intros H. by exists code. Qed.

Lemma sol_chunk chunk log obs : runs (readSOLBalanceChunk chunk) log obs →
  (calls log ≤ 2)%nat ∧ ∀ i key o, chunk !! i = Some key → obs !! i = Some o → sol_truth log key o.
Proof.
  unfold readSOLBalanceChunk. intros H. apply runs_bind in H as (l1 & e & l2 & -> & H1 & H). apply execute_batch in H1 as [[Hl Ha Hk] C].
  apply runs_ret in H as [-> ->]. rewrite app_nil_r. split; [done|]. intros i key o Hi Ho.
  assert (∀ n code, known_code code → replicate n (unavailableObservation SolanaDecimals code) !! i = Some o → sol_truth l1 key o) as Hun.
  { intros n code Hc [-> _]%lookup_replicate. by apply sol_unread, unread_known. }
  destruct (be_outcomes e) as [|[json|f] [|]] eqn:E; try done. cbn [sol_observations] in Ho.
  - destruct (get_accounts json) as [[slot value]|] eqn:Eg; [|eapply Hun; [|exact Ho]; known].
    destruct (Nat.eqb_spec (length value) (length chunk)) as [Hlen|]; [|eapply Hun; [|exact Ho]; known].
    destruct (Z.eqb_spec slot 0) as [|Hs]; [eapply Hun; [|exact Ho]; known|]. cbn [andb negb] in Ho.
    apply list_lookup_fmap_Some in Ho as (lamports & -> & Hv). eapply (sol_read _ _ _ chunk i json slot value lamports); [|done..].
    by eapply (Ha 0%nat).
  - eapply Hun; [|exact Ho]. by apply (Hk 0%nat).
Qed.
Lemma token_total_sum owner accounts start total : token_total owner accounts start = Some total →
  start ≤ max_uint64 → ∃ units, Forall2 (usdc_account owner) accounts units ∧ total = start + zsum units ∧ total ≤ max_uint64.
Proof.
  revert start. induction accounts as [|raw rest IH]; intros start H Hs; cbn [token_total] in H.
  { injection H as ->. exists []. split; [constructor|]. cbn. lia. }
  destruct (get_token_account raw) as [[program data]|] eqn:Eg; [cbn in H|done]. destruct (N.eqb_spec program token_program_id) as [->|]; [cbn [negb] in H|done].
  destruct data as [data|]; [cbn in H|done]. destruct (Z.eqb_spec (data_length data) legacyTokenAccountSize) as [Hlen|]; [cbn [negb] in H|done].
  destruct (decode_account data) as [account|] eqn:Ed; [cbn in H|done].
  destruct (N.eqb_spec (ta_mint account) usdcMintPublicKey) as [Hm|]; [cbn [negb orb] in H|done].
  destruct (N.eqb_spec (ta_owner account) owner) as [Ho|]; [cbn [negb orb] in H|done].
  destruct (ta_state account) eqn:Est; [done|..]; destruct (Z.ltb_spec (max_uint64 - start) (ta_amount account)) as [|Hfit]; try done;
    (apply IH in H as (units & Hu & -> & Hle); [|lia]); (exists (ta_amount account :: units)); (split; [|rewrite zsum_cons; lia]); (constructor; [|done]);
    (exists data, account); split_and!; try done; by rewrite Est.
Qed.
Lemma usdc_one key log o : runs (readUSDCBalance key) log o → (calls log ≤ 2)%nat ∧ usdc_truth log key o.
Proof.
  unfold readUSDCBalance. intros H. apply runs_bind in H as (l1 & e & l2 & -> & H1 & H). apply execute_batch in H1 as [[Hl Ha Hk] C].
  apply runs_ret in H as [-> ->]. rewrite app_nil_r. split; [done|].
  destruct (be_outcomes e) as [|[json|f] [|]] eqn:E; try done; cbn [usdc_observation]; [|apply usdc_unread, unread_known; by apply (Hk 0%nat)].
  unfold decodeUSDCBalance. destruct (get_token_accounts json) as [[slot [accounts|]]|] eqn:Eg; [|apply usdc_unread, unread_known; known..].
  destruct (Z.eqb_spec slot 0) as [|Hs]; [apply usdc_unread, unread_known; known|].
  destruct (token_total key accounts 0) as [total|] eqn:Et; [|apply usdc_unread, unread_known; known].
  apply token_total_sum in Et as (units & Hu & -> & Hle); [|unfold max_uint64; lia]. rewrite Z.add_0_l in *.
  eapply (usdc_read _ _ _ json slot accounts units); [by eapply (Ha 0%nat)|done..].
Qed.
End Laws.

#[local] Open Scope Z_scope.

(** The numbers of a reply are [uint64]. *)
Class SolanaRpcLaws `{!SolanaRpc} : Prop := {
  lamports_range : ∀ json slot value i lamports, get_accounts json = Some (slot, value) → value !! i = Some (Some lamports) → 0 ≤ lamports ≤ max_uint64;
  accounts_slot_range : ∀ json slot value, get_accounts json = Some (slot, value) → 0 ≤ slot ≤ max_uint64;
  token_slot_range : ∀ json slot accounts, get_token_accounts json = Some (slot, accounts) → 0 ≤ slot ≤ max_uint64;
  token_amount_range : ∀ data account, decode_account data = Some account → 0 ≤ ta_amount account ≤ max_uint64 }.

Section Theorems.
Context {SL : SolanaLib} {SR : SolanaRpc} {CL : ChallengeLib}.
Local Abbreviation sol_log := (list {o : sol_op & sol_resp o}).
Local Abbreviation read_log := (list {o : read_op & read_resp o}).
Local Abbreviation output := (gmap string addressBalanceResult).

(** ** One read *)
Lemma chunks_concat fuel l : (length l ≤ fuel)%nat → concat (chunks fuel l) = l.
Proof.
  revert l. induction fuel as [|fuel IH]; intros [|a l] Hl; [done|cbn in Hl; lia|done|]. cbn [chunks concat]. rewrite IH; [apply take_drop|].
  rewrite length_drop. unfold solanaBatchSize. cbn in *. lia.
Qed.
Lemma rpc_chunks_length fuel l : (length (chunks fuel l) ≤ (length l + 24) / 25)%nat.
Proof.
  revert l. induction fuel as [|fuel IH]; intros [|a l]; try (cbn [chunks length]; lia). cbn [chunks length]. specialize (IH (drop solanaBatchSize (a :: l))).
  rewrite length_drop in IH. unfold solanaBatchSize in *. cbn [length] in *. destruct (Nat.le_gt_cases (length l) 24) as [Hle|Hgt].
  - replace (S (length l) - 25)%nat with 0%nat in IH by lia. change ((0 + 24) / 25)%nat with 0%nat in IH.
    assert (1 ≤ (S (length l) + 24) / 25)%nat by (apply Nat.div_le_lower_bound; lia). lia.
  - replace (S (length l) + 24)%nat with ((S (length l) - 25 + 24) + 1 * 25)%nat by lia. rewrite Nat.div_add by lia. lia.
Qed.
Record reported (asked : list string) (log : sol_log) (keys : string → N) (out : output) : Prop := {
  rp_asked : ∀ a b, out !! a = Some b → a ∈ asked;
  rp_sol : ∀ a b, out !! a = Some b → sol_truth log (keys a) (ab_sol b);
  rp_usdc : ∀ a b, out !! a = Some b → usdc_truth log (keys a) (ab_usdc b) }.
Lemma reported_mono asked log log' keys out : log ⊆ log' → reported asked log keys out → reported asked log' keys out.
Proof. intros Hs [H0 H1 H2]. split; intros a b H; [by eapply H0|eapply sol_truth_mono|eapply usdc_truth_mono]; eauto. Qed.
Lemma set_sol_reported asked log keys a o out : sol_truth log (keys a) o → reported asked log keys out → reported asked log keys (set_sol a o out).
Proof.
  intros Ho [H0 H1 H2]. unfold set_sol. split; intros a' b; destruct (decide (a = a')) as [<-|Hne];
    rewrite ?lookup_alter_eq, ?lookup_alter_ne by done; eauto; intros (c & Hc & ->)%fmap_Some; cbn; eauto.
Qed.
Lemma set_usdc_reported asked log keys a o out : usdc_truth log (keys a) o → reported asked log keys out → reported asked log keys (set_usdc a o out).
Proof.
  intros Ho [H0 H1 H2]. unfold set_usdc. split; intros a' b; destruct (decide (a = a')) as [<-|Hne];
    rewrite ?lookup_alter_eq, ?lookup_alter_ne by done; eauto; intros (c & Hc & ->)%fmap_Some; cbn; eauto.
Qed.
Lemma set_sols_reported asked log keys piece obs out : (∀ i a o, piece !! i = Some a → obs !! i = Some o → sol_truth log (keys a) o) →
  reported asked log keys out → reported asked log keys (set_sols piece obs out).
Proof.
  revert obs out. induction piece as [|a piece IH]; intros [|o obs] out Ho H; cbn [set_sols]; try done.
  apply IH; [intros i; apply (Ho (S i))|]. apply set_sol_reported; [by apply (Ho 0%nat)|done].
Qed.
Lemma read_sol_reported asked keys pieces out log out' log0 : runs (read_sol keys pieces out) log out' → reported asked log0 keys out →
  reported asked (log0 ++ log) keys out' ∧ (calls log ≤ 2 * length pieces)%nat.
Proof.
  revert out log log0. induction pieces as [|piece pieces IH]; intros out log log0 H Hr; cbn [read_sol] in H.
  { apply runs_ret in H as [-> ->]. rewrite app_nil_r. by split; [|cbn; lia]. }
  apply runs_bind in H as (l1 & obs & l2 & -> & H1 & H). apply sol_chunk in H1 as [C Ho]. eapply (IH _ _ (log0 ++ l1)) in H as [H1 C2].
  - rewrite app_assoc. split; [done|]. rewrite calls_app. cbn [length]. lia.
  - apply set_sols_reported.
    + intros i a o Ha Hob. eapply sol_truth_mono; [|eapply (Ho i); [by rewrite list_lookup_fmap, Ha|exact Hob]]. set_solver.
    + eapply reported_mono; [|exact Hr]. set_solver.
Qed.
Lemma read_usdc_reported asked keys addresses out log out' log0 : runs (read_usdc keys addresses out) log out' → reported asked log0 keys out →
  reported asked (log0 ++ log) keys out' ∧ (calls log ≤ 2 * length addresses)%nat.
Proof.
  revert out log log0. induction addresses as [|a addresses IH]; intros out log log0 H Hr; cbn [read_usdc] in H.
  { apply runs_ret in H as [-> ->]. rewrite app_nil_r. by split; [|cbn; lia]. }
  apply runs_bind in H as (l1 & o & l2 & -> & H1 & H). apply usdc_one in H1 as [C Ho]. eapply (IH _ _ (log0 ++ l1)) in H as [H1 C2].
  - rewrite app_assoc. split; [done|]. rewrite calls_app. cbn [length]. lia.
  - apply set_usdc_reported; [eapply usdc_truth_mono; [|exact Ho]; set_solver|]. eapply reported_mono; [|exact Hr]. set_solver.
Qed.
Lemma unread_reported keys (addresses : list string) : reported addresses [] keys (foldr (λ a out, <[a := unread]> out) ∅ addresses).
Proof.
  assert (∀ a b, (foldr (λ a out, <[a := unread]> out) ∅ addresses : output) !! a = Some b → b = unread ∧ a ∈ addresses) as H.
  { induction addresses as [|x l IH]; intros a b; cbn [foldr]; [done|]. intros [[-> <-]|[_ [-> ?]%IH]]%lookup_insert_Some; by split; [|constructor]. }
  split; intros a b [-> ?]%H; [done|apply sol_unread|apply usdc_unread]; apply unread_known; known.
Qed.
Lemma read_unique addresses publicKeys log out : runs (readUniqueBalances addresses publicKeys) log out →
  reported addresses log (λ a, default 0%N (publicKeys !! a)) out ∧ (calls log ≤ 2 * ((length addresses + 24) / 25 + length addresses))%nat.
Proof.
  unfold readUniqueBalances. cbv zeta. intros H. apply runs_bind in H as (l1 & out1 & l2 & -> & H1 & H).
  apply (read_sol_reported addresses _ _ _ _ _ []) in H1 as [R1 C1]; [|apply unread_reported]. apply (read_usdc_reported addresses _ _ _ _ _ ([] ++ l1)) in H as [R2 C2]; [|done].
  split; [done|]. rewrite calls_app. pose proof (rpc_chunks_length (length addresses) addresses). lia.
Qed.

(** ** Requests *)
Definition addresses_of (refs : list WalletBalanceReference) : list string := sort_by String.leb (map_to_list (valid_addresses refs)).*1.
Lemma valid_canonical refs a k : valid_addresses refs !! a = Some k → canonical_key a = Some k.
Proof.
  unfold valid_addresses. assert (∀ m : gmap string N, (∀ a k, m !! a = Some k → canonical_key a = Some k) →
    foldl (λ m r, let address := trim_space (wbr_address r) in match canonical_key address with Some k => <[address := k]> m | None => m end) m refs !! a = Some k →
    canonical_key a = Some k) as H; [|by apply H].
  induction refs as [|r refs IH]; intros m Hm; cbn [foldl]; [apply Hm|]. apply IH. cbv zeta. destruct (canonical_key (trim_space _)) as [k'|] eqn:E; [|done].
  intros x y [[<- <-]|[_ ?]]%lookup_insert_Some; eauto.
Qed.
Lemma asked_valid refs a : a ∈ addresses_of refs → ∃ k, valid_addresses refs !! a = Some k.
Proof.
  unfold addresses_of. rewrite sort_by_elem. intros ([a' k] & -> & H)%list_elem_of_fmap. exists k. by apply elem_of_map_to_list.
Qed.
(** [results] is what one read of the node gave, for the callers of that read. *)
Definition shared_read (node : sol_log) (results : output) : Prop :=
  ∃ refs log, log ⊆ node ∧ runs (readUniqueBalances (addresses_of refs) (valid_addresses refs)) log results.
Definition reads_from (node : sol_log) (log : read_log) : Prop :=
  ∀ o (results : output), existT o (Ok results : read_resp o) ∈ log → shared_read node results.
Lemma shared_truth node results a b : shared_read node results → results !! a = Some b →
  ∃ k, canonical_key a = Some k ∧ sol_truth node k (ab_sol b) ∧ usdc_truth node k (ab_usdc b).
Proof.
  intros (refs & log & Hs & H) Ha. apply read_unique in H as [[H0 H1 H2] _]. destruct (asked_valid refs a) as [k Hk]; [by eapply H0|].
  exists k. split; [by eapply valid_canonical|]. specialize (H1 _ _ Ha). specialize (H2 _ _ Ha). rewrite Hk in H1, H2. cbn in H1, H2.
  split; [by eapply sol_truth_mono|by eapply usdc_truth_mono].
Qed.
(** What is reported of a wallet: the observations of its key, or that its address is none. *)
Definition wallet_truth (node : sol_log) (w : WalletBalanceResult) : Prop :=
  (∃ k, canonical_key (wb_address w) = Some k ∧ sol_truth node k (wb_sol w) ∧ usdc_truth node k (wb_usdc w))
  ∨ wb_sol w = unavailableObservation SolanaDecimals errorInvalidWalletAddress ∧ wb_usdc w = unavailableObservation USDCDecimals errorInvalidWalletAddress.
(** An available balance has a slot, and the amount in text is exactly the atomic one. *)
Definition exact_amount (o : BalanceObservation) : Prop := available o = true →
  bo_observed_slot o ≠ 0 ∧ ∃ v d, 0 ≤ v ≤ max_uint64 ∧ bo_atomic_amount o = decimal_text v ∧ parseExecutionPreviewDecimal (bo_amount o) = Ok d
    ∧ (amount d == v # Z.to_pos (10 ^ bo_decimals o))%Q.
Lemma unread_exact decimals o : unread_observation decimals o → exact_amount o.
Proof. intros (code & _ & ->). by unfold exact_amount, available. Qed.
Lemma observation_exact v decimals slot : 0 ≤ v ≤ max_uint64 → 0 < decimals ≤ 9 → slot ≠ 0 → exact_amount (availableObservation v decimals slot).
Proof. intros Hv Hd Hs _. split; [done|]. destruct (format_exact v decimals Hv Hd) as (d & Hp & Ha). by exists v, d. Qed.
Section Exact.
Context {RL : SolanaRpcLaws}.
Lemma sol_exact log key o : sol_truth log key o → exact_amount o.
Proof using RL.
  intros [H|chunk i json slot value lamports _ _ Hg _ Hl Hs ->]; [by eapply unread_exact|]. apply observation_exact; [|by unfold SolanaDecimals|done].
  destruct lamports as [l|]; cbn; [by eapply lamports_range|unfold max_uint64; lia].
Qed.
Lemma usdc_exact log key o : usdc_truth log key o → exact_amount o.
Proof using RL.
  intros [H|json slot accounts units _ Hg Hs Hu Hle ->]; [by eapply unread_exact|].
  assert (exact_amount (availableObservation (zsum units) USDCDecimals slot)) as H; [|exact H]. apply observation_exact; [|by unfold USDCDecimals|done].
  split; [|done]. clear Hg Hle. induction Hu as [|raw v accounts units (data & account & _ & _ & Hd & _ & _ & _ & <-) _ IH]; [done|].
  rewrite zsum_cons. apply token_amount_range in Hd. lia.
Qed.
End Exact.

Lemma refused_truth node r : wallet_truth node (refused_ref r).
Proof. by right. Qed.
Lemma batch_read started refs log node results : runs (BatchGetBalances started refs) log (Ok results) → reads_from node log →
  length results = length refs
  ∧ ∀ i r w, refs !! i = Some r → results !! i = Some w →
      wb_wallet_id w = wbr_wallet_id r ∧ wb_address w = trim_space (wbr_address r) ∧ wb_status w = walletBalanceStatus (wb_sol w) (wb_usdc w) ∧ wallet_truth node w.
Proof.
  unfold BatchGetBalances. intros H Hn. destruct started; cbn [negb] in H; [|apply runs_ret in H as [_ H]; done]. cbv zeta in H. case_bool_decide.
  { apply runs_ret in H as [-> [= ->]]. split; [by rewrite length_fmap|]. intros i r w Hr Hw. rewrite list_lookup_fmap, Hr in Hw. injection Hw as <-.
    split_and!; try done; apply refused_truth. }
  apply runs_bind in H as (l1 & shared & l2 & -> & Hc & H). pose proof (runs_call (ReadShared _ _ _) _ shared Hc) as ->. clear Hc.
  apply runs_ret in H as [-> H]. destruct shared as [out|]; [|done]. injection H as ->.
  split; [by rewrite length_fmap|]. intros i r w Hr Hw. rewrite list_lookup_fmap, Hr in Hw. injection Hw as <-. unfold read_ref. cbv zeta.
  destruct (out !! trim_space (wbr_address r)) as [b|] eqn:Eb; [|split_and!; try done; apply refused_truth]. cbn [wb_wallet_id wb_address wb_status wb_sol wb_usdc].
  destruct (shared_truth node out (trim_space (wbr_address r)) b) as (k & Hk & Hsol & Husdc); [eapply Hn; constructor|done|].
  split_and!; [done..|]. left. exists k. done.
Qed.

(** C11: Whatever the node replies and whoever shares the reads, the balances come in the order of
    the wallets asked for, and each balance reported as available is what the node said of that
    wallet: the lamports at its position in the one response to a request that lists its key, and
    the sum, which fits 64 bits, of its token accounts, all of them accounts of the token program
    for the USDC mint that belong to it and are in use; the amount in text is that number exactly.
    Everything else is reported as unavailable with an error code and no amount, and the status
    says which of the two are available. *)
Theorem balances_truthful {RL : SolanaRpcLaws} started refs log node results :
  runs (BatchGetBalances started refs) log (Ok results) → reads_from node log →
  length results = length refs
  ∧ ∀ i r w, refs !! i = Some r → results !! i = Some w →
      wb_wallet_id w = wbr_wallet_id r ∧ wb_address w = trim_space (wbr_address r) ∧ wb_status w = walletBalanceStatus (wb_sol w) (wb_usdc w)
      ∧ wallet_truth node w ∧ exact_amount (wb_sol w) ∧ exact_amount (wb_usdc w).
Proof.
  intros H Hn. destruct (batch_read _ _ _ _ _ H Hn) as [Hl Hw]. split; [done|]. intros i r w Hr Hi. destruct (Hw i r w Hr Hi) as (H1 & H2 & H3 & Ht). split_and!; try done.
  - destruct Ht as [(k & _ & Hs & _)|[-> _]]; [by eapply sol_exact|eapply unread_exact, unread_known; known].
  - destruct Ht as [(k & _ & _ & Hu)|[_ ->]]; [by eapply usdc_exact|eapply unread_exact, unread_known; known].
Qed.

(** ** Probes *)
(** A new adapter and its probes, with everything the node was asked. *)
Inductive probes : sol_log → SolanaAdapterStatus → Prop :=
| probes_start : probes [] initial_status
| probes_next log s log' s' : probes log s → runs (Probe s) log' s' → probes (log ++ log') s'.
(** What the node has shown. *)
Definition main_network (log : sol_log) : Prop := ∃ json, answered log getGenesisHash json ∧ get_text json = Some SolanaMainnetGenesisHash.
Definition native_usdc (log : sol_log) : Prop :=
  ∃ json, answered log (getAccountInfo usdcMintPublicKey) json ∧ get_account_owner json = Some (Some token_program_id).
Record proven (log : sol_log) (s : SolanaAdapterStatus) : Prop := {
  pv_genesis : ss_genesis_verified s = true → main_network log;
  pv_program : ss_usdc_program_verified s = true → native_usdc log;
  pv_running : ss_status s = "running" → readyForReads s = true }.
Lemma proven_failure log s f : (ss_genesis_verified s = true → main_network log) → (ss_usdc_program_verified s = true → native_usdc log) →
  proven log (recordProbeFailure s f).
Proof. intros H1 H2. split; [done|done|]. cbn. by destruct (bf_permanent f). Qed.
Lemma probe_replies_proven log outcomes at_ s :
  (∀ i request json, probe_requests !! i = Some request → outcomes !! i = Some (Ok json) → answered log request json) →
  ss_configuration_error s = false → (ss_genesis_verified s = true → main_network log) → (ss_usdc_program_verified s = true → native_usdc log) →
  proven log match probe_replies outcomes at_ s with Ok s' | Err s' => s' end.
Proof.
  intros Ha Hc Hg Hp. unfold probe_replies.
  destruct outcomes as [|[genesis|] [|[mint|] [|[supply|] [|[slot|] [|]]]]]; try by apply proven_failure.
  pose proof (Ha 0%nat _ _ eq_refl eq_refl) as A0. pose proof (Ha 1%nat _ _ eq_refl eq_refl) as A1. clear Ha.
  unfold genesis_status. destruct (get_text genesis) as [hash|] eqn:Eg; [|by apply proven_failure]. cbn [mbind result_bind].
  case_bool_decide as Hz; [by apply proven_failure|]. cbv zeta. destruct (ss_genesis_verified (set_genesis hash s)) eqn:Ev; cbn [mbind result_bind].
  2: { apply proven_failure; [by rewrite Ev|done]. }
  assert (main_network log) as Hnet by (exists genesis; split; [done|]; cbn in Ev; apply bool_decide_eq_true in Ev as <-; done).
  unfold mint_status. destruct (get_account_owner mint) as [[owner|]|] eqn:Eo; cbn [mbind result_bind]; [|by apply proven_failure..].
  destruct (N.eqb_spec owner token_program_id) as [->|]; cbn [mbind result_bind]; [|by apply proven_failure].
  assert (native_usdc log) as Husdc by (by exists mint). unfold supply_status. destruct (get_token_decimals supply) as [[decimals|]|]; cbn [mbind result_bind]; [|by apply proven_failure..].
  cbv zeta. destruct (decimals =? USDCDecimals) eqn:Ed; cbn [mbind result_bind]; [|by apply proven_failure].
  unfold slot_status. destruct (get_slot slot) as [n|]; [|by apply proven_failure]. destruct (n =? 0); [by apply proven_failure|].
  split; [done|done|]. intros _. unfold readyForReads. cbn in *. by rewrite Hc, Ev, Ed.
Qed.
Lemma probes_proven log s : probes log s → proven log s.
Proof.
  induction 1 as [|log s log' s' _ IH H]; [by split|]. unfold Probe in H. destruct (ss_configuration_error s) eqn:Ec.
  { apply runs_ret in H as [-> ->]. by rewrite app_nil_r. }
  apply runs_bind in H as (l1 & started & l2 & -> & _ & H). apply runs_bind in H as (l3 & e & l4 & -> & He & H).
  apply runs_bind in H as (l5 & observed & l6 & -> & _ & H). apply execute_batch in He as [[Hl Ha _] _].
  set (s1 := probed s _ _ _ _) in H. set (all := log ++ l1 ++ l3 ++ l5 ++ l6).
  assert (ss_genesis_verified s = true → main_network all) as Hg by (intros (json & A & E)%(pv_genesis _ _ IH); exists json; split; [|done]; eapply answered_mono; [|exact A]; set_solver).
  assert (ss_usdc_program_verified s = true → native_usdc all) as Hp by (intros (json & A & E)%(pv_program _ _ IH); exists json; split; [|done]; eapply answered_mono; [|exact A]; set_solver).
  cbv zeta in H. destruct (first_failure (be_outcomes e)) as [f|]; apply runs_ret in H as [-> ->].
  - by apply proven_failure.
  - apply probe_replies_proven; [|done|done|done]. intros i request json H1 H2. eapply answered_mono; [|by eapply Ha]. set_solver.
Qed.

(** Whatever a node replies to the probes of an adapter, from its creation on, the adapter is
    ready for reads only when in some probe the node answered the hash of the main network's
    first block and showed the USDC mint as an account of the token program; it says it is
    running only while it is ready; and once it has found a configuration error it asks the node
    nothing more and stays as it is. *)
Theorem probe_ready_verified log s : probes log s →
  (readyForReads s = true → main_network log ∧ native_usdc log)
  ∧ (ss_status s = "running" → readyForReads s = true)
  ∧ (ss_configuration_error s = true → ∀ log' s', runs (Probe s) log' s' → log' = [] ∧ s' = s).
Proof.
  intros H%probes_proven. split_and!.
  - unfold readyForReads. intros Hr. bool_prop. split; by apply H.
  - apply H.
  - intros Hc log' s' Hr. unfold Probe in Hr. rewrite Hc in Hr. by apply runs_ret in Hr.
Qed.
End Theorems.

(** ** Witnesses *)
Import Prelude.Concrete.
(** A node whose replies are the values themselves. *)
Inductive sample_json :=
| JText (text : string) | JOwner (owner : N) | JDecimals (decimals : Z) | JSlot (slot : Z) | JAccounts (slot : Z) (value : list (option Z))
| JTokens (slot : Z) (accounts : list (N * token_account)) | JToken (program : N) (account : token_account).
Definition in_uint64 (v : Z) : bool := (0 <=? v) && (v <=? max_uint64).
Definition guard_uint64 {A} (v : Z) (a : A) : option A := if in_uint64 v then Some a else None.
#[export] Instance sample_rpc : SolanaRpc := {|
  rpc_json := sample_json; account_data := token_account; token_program_id := 5;
  get_text j := match j with JText t => Some t | _ => None end;
  get_account_owner j := match j with JOwner o => Some (Some o) | _ => None end;
  get_token_decimals j := match j with JDecimals d => Some (Some d) | _ => None end;
  get_slot j := match j with JSlot s => Some s | _ => None end;
  get_accounts j := match j with
                    | JAccounts s v => if in_uint64 s && forallb (λ l, in_uint64 (default 0 l)) v then Some (s, v) else None
                    | _ => None end;
  get_token_accounts j := match j with JTokens s l => guard_uint64 s (s, Some ((λ a, JToken a.1 a.2) <$> l)) | _ => None end;
  get_token_account j := match j with JToken p a => Some (p, Some a) | _ => None end;
  data_length a := 165;
  decode_account a := guard_uint64 (ta_amount a) a |}.
Lemma in_uint64_range v : in_uint64 v = true → 0 ≤ v ≤ max_uint64.
Proof. unfold in_uint64. intros H. bool_prop. done. Qed.
#[export] Instance sample_rpc_laws : SolanaRpcLaws.
Proof.
  constructor; cbn.
  - intros [] s v i l; try done. destruct (in_uint64 slot && _) eqn:E; [|done]. intros [= -> ->] Hi. apply andb_true_iff in E as [_ E]. rewrite forallb_forall in E.
    apply in_uint64_range, (E (Some l)). apply list_elem_of_In. by eapply list_elem_of_lookup_2.
  - intros [] s v; try done. destruct (in_uint64 slot && _) eqn:E; [|done]. intros [= -> ->]. apply andb_true_iff in E as [E _]. by apply in_uint64_range.
  - intros [] s v; try done. unfold guard_uint64. destruct (in_uint64 slot) eqn:E; [|done]. intros [= -> <-]. by apply in_uint64_range.
  - intros data account. unfold guard_uint64. destruct (in_uint64 _) eqn:E; [|done]. intros [= <-]. by apply in_uint64_range.
Qed.
Definition sample_reply (r : rpc_request) : sample_json :=
  match r with
  | getGenesisHash => JText SolanaMainnetGenesisHash
  | getAccountInfo _ => JOwner 5
  | getTokenSupply _ => JDecimals 6
  | getSlot_request => JSlot 1000
  | getMultipleAccounts keys => JAccounts 1001 ((λ k, if (k =? 41)%N then Some 2500000000 else None) <$> keys)
  | getTokenAccountsByOwner owner mint =>
      JTokens 1002 ((λ n, (5%N, {| ta_mint := mint; ta_owner := owner; ta_amount := n; ta_state := Initialized |})) <$> [12000000; 500000])
  end.
(** It answers in the reverse order, and is busy the first time. *)
Definition sample_node (o : sol_op) (busy : bool) : bool * sol_resp o :=
  match o return bool * sol_resp o with
  | SolNow => (busy, 5000000000)
  | SolLimiter _ => (busy, None)
  | SolCall requests =>
      if busy then (false, Err {| ce_context := None; ce_deadline := false; ce_http := Some 429; ce_net := false; ce_json := false; ce_eof := false |})
      else (false, Ok (reverse (imap (λ i r, Some {| rr_id := IdNumber (decimal_text (Z.of_nat i)); rr_error := None; rr_result := Some (sample_reply r) |}) requests)))
  | SolRetryWait => (busy, true)
  end.
Definition sample_refs : list WalletBalanceReference :=
  [{| wbr_wallet_id := 1; wbr_address := public_key_string 41 |}; {| wbr_wallet_id := 2; wbr_address := "nobody" |};
   {| wbr_wallet_id := 3; wbr_address := public_key_string 42 +:+ " " |}].
Definition sample_read := readUniqueBalances (addresses_of sample_refs) (valid_addresses sample_refs).
Definition sample_shared := (drive sample_node sample_read true).2.
Definition sample_calls := logged sample_node sample_read true.
Definition sample_flight (o : read_op) (s : unit) : unit * read_resp o := (s, Ok sample_shared).
Definition sample_balances := (drive sample_flight (BatchGetBalances true sample_refs) tt).2.
Example sample_amounts :
  match sample_balances with Ok l => (λ w, (bo_amount (wb_sol w), bo_amount (wb_usdc w), wb_status w)) <$> l | Err _ => [] end
  = [("2.500000000", "12.500000", "COMPLETE"); ("", "", "UNAVAILABLE"); ("0.000000000", "12.500000", "COMPLETE")].
Proof. vm_compute. reflexivity. Qed.
Lemma balances_truthful_witness : ∃ results, sample_balances = Ok results ∧ length results = 3%nat
  ∧ ∀ w, results !! 0%nat = Some w → wallet_truth sample_calls w ∧ exact_amount (wb_usdc w).
Proof.
  destruct sample_balances as [results|e] eqn:E; [|exfalso; revert E; vm_compute; discriminate]. exists results. split; [reflexivity|].
  destruct (balances_truthful true sample_refs (logged sample_flight (BatchGetBalances true sample_refs) tt) sample_calls results) as [Hl Hw].
  - rewrite <- E. apply drive_runs.
  - intros o out Ho. unfold BatchGetBalances in Ho. cbn [negb] in Ho. cbv zeta in Ho. rewrite bool_decide_false in Ho by (vm_compute; discriminate).
    apply list_elem_of_singleton in Ho. apply eq_sigT_fst in Ho as He. destruct o as [key addresses keys].
    exists sample_refs, sample_calls. split; [reflexivity|]. assert (out = sample_shared) as ->; [|apply drive_runs].
    apply (f_equal (λ e : {o : read_op & read_resp o}, match projT2 e with Ok x => x | Err _ => ∅ end)) in Ho. exact Ho.
  - split; [exact Hl|]. intros w H. destruct (Hw 0%nat _ w eq_refl H) as (_ & _ & _ & Ht & _ & Hx). split; [exact Ht|exact Hx].
Defined.
Definition sample_probe := drive sample_node (Probe initial_status) true.
Lemma probe_ready_verified_witness : readyForReads sample_probe.2 = true ∧ main_network (logged sample_node (Probe initial_status) true).
Proof.
  assert (readyForReads sample_probe.2 = true) as Hr by (vm_compute; reflexivity). split; [exact Hr|].
  destruct (probe_ready_verified ([] ++ logged sample_node (Probe initial_status) true) sample_probe.2) as [H _].
  - eapply probes_next; [apply probes_start|apply drive_runs].
  - exact (proj1 (H Hr)).
Defined.
