(* ===== verification/PlanAccept.v ===== *)
(** * Execution plans: what the store accepts

    The request that completes a plan is [acceptable] when every part of it is well formed and
    it is laid out like the plan; the store never refuses such a request as invalid.  The worker
    proves of its requests that they are acceptable. *)

From S2P Require Import Prelude Sql CashOutTypes CashOutStore ConnectionTypes ConnectionStore Selection Combination CombinationSpec.
From S2P Require Import CombinationRefine CombinationTheorems Decimal Plan PlanStore PlanView PlanReady.
From stdpp Require Import base tactics option list list_numbers sorting strings gmap.
From Stdlib Require Import ZArith Lia Ascii.
#[local] Open Scope Z_scope.

(** ** Decimals *)
(** The store accepts the canonical texts of the decimals of the preview. *)
Lemma valid_decimal_spells v i f : spells v i f → validExecutionPlanDecimal v = true.
Proof.
  intros Hs. pose proof (spells_printable _ _ _ Hs) as Hp. pose proof (split_spells _ _ _ Hs) as Hd. pose proof (spells_first _ _ _ Hs) as (a & w & Hv & _).
  destruct Hs as ([Hi Hw] & Hf & _). unfold validExecutionPlanDecimal. rewrite (trim_space_printable _ Hp). rewrite (bool_decide_true (v = v)) by done.
  rewrite bool_decide_false by (by rewrite Hv). cbn [orb negb]. rewrite Hd. destruct i as [|b i]; [done|]. rewrite bool_decide_false by done. cbn [orb].
  assert ((1 <? String.length (String b i))%nat && (N_of_ascii b =? 48)%N = false) as Hz.
  { destruct (N_of_ascii b =? 48)%N eqn:E; [|apply andb_false_r]. apply zero_char in E. rewrite (Hw E). done. }
  case_bool_decide as Hf0; [subst f|]; cbn [default].
  - rewrite Hz. by rewrite bool_decide_false, Hi.
  - rewrite bool_decide_false by congruence. rewrite Hz. by unfold id; rewrite Hi, Hf.
Qed.
Lemma valid_decimal_parse v d : parseExecutionPreviewDecimal v = Ok d → validExecutionPlanDecimal v = true.
Proof. intros (i & f & Hs & _)%parse_inv. by eapply valid_decimal_spells. Qed.
Lemma valid_decimal_print d : 0 ≤ coefficient d → validExecutionPlanDecimal (decimal_String d) = true.
Proof. intros (i & f & Hs & _)%print_spells. by eapply valid_decimal_spells. Qed.

(** ** Requests *)
Definition step_text (s : ExecutionPlanStep) : Prop :=
  ((sp_disposition s = ExecutionPlanStepDispositionReady ∧ sp_reason_code s = EmptyString)
   ∨ (sp_disposition s = ExecutionPlanStepDispositionSkipped ∧ trim_space (sp_reason_code s) ≠ EmptyString
      ∧ (String.length (trim_space (sp_reason_code s)) ≤ maxExecutionPlanCodeLength)%nat))
  ∧ validExecutionPlanDecimal (sp_projected_usdc_before s) = true ∧ validExecutionPlanDecimal (sp_projected_usdc_after s) = true.
Record acceptable `{UuidLib} (req : MarkExecutionPlanReadyRequest) (wallets items : nat) : Prop := {
  ac_id : ∃ id, plan_uuid "execution plan ID" (mr_plan_id req) = Ok id;
  ac_worker : ∃ w, normalizeExecutionPlanWorkerID (mr_worker_id req) = Ok w;
  ac_totals : ∀ v, v ∈ totals_texts (mr_totals req) → validExecutionPlanDecimal v = true;
  ac_wallets : wo_ordinal <$> mr_wallets req = seqZ 1 (Z.of_nat wallets);
  ac_wallet : ∀ o, o ∈ mr_wallets req → validateExecutionPlanWalletObservation o = Ok tt;
  ac_items : io_ordinal <$> mr_items req = seqZ 1 (Z.of_nat items);
  ac_item : ∀ o, o ∈ mr_items req → validateExecutionPlanItemObservation o = Ok tt;
  ac_steps : length (mr_steps req) = (wallets * items)%nat;
  ac_step : ∀ k s, mr_steps req !! k = Some s → step_text s
    ∧ (sp_ordinal s, sp_wallet_ordinal s, sp_item_ordinal s) = (Z.of_nat k + 1, Z.of_nat (k / items) + 1, Z.of_nat (k mod items) + 1) }.

(** ** Errors *)
(** [m] does not refuse as invalid, and what it returns satisfies [Q]. *)
Definition accepts {A} (m : ep_tx A) (db : EDB) (Q : EDB → A → Prop) : Prop :=
  match m db with Ok (db', a) => Q db' a | Err (ErrInvalidExecutionPlan _) => False | Err _ => True end.
Lemma accepts_bind {A B} (m : ep_tx A) (f : A → ep_tx B) db Q :
  accepts m db (λ db' a, accepts (f a) db' Q) → accepts (m ≫= f) db Q.
Proof. unfold accepts, mbind, tx_bind. by destruct (m db) as [[db' a]|e]. Qed.
Lemma accepts_mono {A} (m : ep_tx A) db (Q Q' : EDB → A → Prop) : accepts m db Q → (∀ db' a, Q db' a → Q' db' a) → accepts m db Q'.
Proof. unfold accepts. destruct (m db) as [[db' a]|[]]; eauto. Qed.
Lemma accepts_ret {A} (a : A) db (Q : EDB → A → Prop) : Q db a → accepts (mret a) db Q.
Proof. done. Qed.
Lemma accepts_get db (Q : EDB → EDB → Prop) : Q db db → accepts tx_get db Q.
Proof. done. Qed.
Lemma accepts_lift {A} (r : result EPError A) (a : A) db (Q : EDB → A → Prop) : r = Ok a → Q db a → accepts (tx_lift r) db Q.
Proof. by intros ->. Qed.
Definition not_invalid (e : EPError) : bool := match e with ErrInvalidExecutionPlan _ => false | _ => true end.
Lemma accepts_option {A} (o : option A) (e : EPError) db (Q : EDB → A → Prop) : not_invalid e = true → (∀ a, o = Some a → Q db a) →
  accepts (tx_lift (of_option o e)) db Q.
Proof. intros He HQ. destruct o as [a|]; cbn; [by apply HQ|]. unfold accepts. cbn. by destruct e. Qed.
Lemma accepts_ensure b (e : EPError) db (Q : EDB → unit → Prop) : (not_invalid e = true ∨ b = true) → (b = true → Q db tt) → accepts (ensure b e) db Q.
Proof. intros He HQ. unfold accepts, ensure. destruct b; cbn; [by apply HQ|]. destruct He as [He|]; [by destruct e|done]. Qed.
Lemma accepts_texts l db (Q : EDB → unit → Prop) : Q db tt → accepts (texts l) db Q.
Proof. intros HQ. unfold texts. apply accepts_ensure; [by left|done]. Qed.
Lemma accepts_no_rows {A} (m : ep_tx A) e db Q : accepts m db Q → not_invalid e = true → accepts (on_no_rows m e) db Q.
Proof. unfold accepts, on_no_rows. destruct (m db) as [[db' a]|[]]; try done. by destruct e. Qed.
Ltac accept :=
  repeat (cbv zeta; match goal with
  | |- accepts (_ ≫= _) _ _ => apply accepts_bind
  | |- accepts (mret _) _ _ => apply accepts_ret
  | |- accepts tx_get _ _ => apply accepts_get
  | |- accepts (texts _) _ _ => apply accepts_texts
  | |- accepts (ensure _ _) _ _ => apply accepts_ensure; [first [left; reflexivity|right]|intros ?]
  | |- accepts (tx_lift (of_option _ _)) _ _ => apply accepts_option; [reflexivity|intros ? ?]
  end).

(** ** Completing *)
Lemma sql_insert_error {R E} check conflict (c : E) (new t : list R) e : sql_insert check conflict c new t = Err e → e = c.
Proof. revert t. induction new as [|r new IH]; intros t; cbn [sql_insert]; [done|]. destruct (_ && _); [apply IH|by intros [= ->]]. Qed.
Lemma index_accepts {O} (ordinal : O → Z) (validate : O → result EPError unit) (l : list O) (m : gmap Z O) :
  NoDup (ordinal <$> l) → (∀ o, o ∈ l → validate o = Ok tt ∧ 0 < ordinal o ∧ m !! ordinal o = None) → ∃ m', index_observations ordinal validate l m = Ok m'.
Proof.
  revert m. induction l as [|o l IH]; intros m Hd Hok; cbn [index_observations]; [eauto|]. destruct (Hok o) as (Hv & Hp & Hm); [constructor|].
  rewrite (proj2 (Z.ltb_lt 0 _) Hp). cbn [require mbind result_bind]. rewrite bool_decide_true by done. cbn [require mbind result_bind]. rewrite Hv. cbn [mbind result_bind].
  rewrite fmap_cons in Hd. apply NoDup_cons in Hd as [Hn Hd]. apply IH; [done|]. intros o' Ho'. destruct (Hok o') as (? & ? & ?); [by constructor|].
  split_and!; [done|done|]. rewrite lookup_insert_ne; [done|]. intros E. apply Hn. rewrite E. by apply list_elem_of_fmap_2.
Qed.
Lemma indexed_all {O} (ordinal : O → Z) validate (l : list O) n : ordinal <$> l = seqZ 1 n → (∀ o, o ∈ l → validate o = Ok tt) →
  ∃ m, index_observations ordinal validate l ∅ = Ok m ∧ ∀ k, k ∈ seqZ 1 n → is_Some (m !! k).
Proof.
  intros Hl Hv. destruct (index_accepts ordinal validate l ∅) as [m Hm].
  - rewrite Hl. apply NoDup_seqZ.
  - intros o Ho. split; [by apply Hv|]. split; [|apply lookup_empty]. assert (ordinal o ∈ seqZ 1 n) as Hin by (rewrite <- Hl; by apply list_elem_of_fmap_2).
    apply elem_of_seqZ in Hin. lia.
  - exists m. split; [done|]. intros k Hk. rewrite <- Hl in Hk. apply list_elem_of_fmap in Hk as (o & -> & Ho).
    exists o. apply (ix_lookup _ _ _ _ (index_observations_ok _ _ _ _ Hm)). done.
Qed.
Lemma check_wallets_accepts m ws w db (Q : EDB → unit → Prop) : (∀ x, x ∈ ws → is_Some (m !! pwr_ordinal x)) → Q db tt → accepts (tx_lift (check_wallets m ws w)) db Q.
Proof.
  intros Hm HQ. unfold accepts. assert (match check_wallets m ws w with Ok _ => True | Err e => not_invalid e = true end) as H.
  { induction ws as [|x ws IH]; cbn [check_wallets]; [done|]. destruct (Hm x) as [o Ho]; [constructor|]. rewrite Ho. cbn [of_option mbind result_bind]. cbv zeta.
    destruct (GetWalletConnectionForUpdate _ _) as [c|]; [cbn [of_option mbind result_bind]|done]. destruct (_ && _) eqn:E; [cbn [require mbind result_bind]|done].
    destruct (GetActiveCredentialForUpdate _ _) as [k|]; [cbn [of_option mbind result_bind]|done]. destruct ((_ <? _) && _); [cbn [require mbind result_bind]|done].
    apply IH. intros y Hy. apply Hm. by constructor. }
  unfold tx_lift. destruct (check_wallets m ws w) as [[]|e]; [done|]. by destruct e.
Qed.
(** The tables the wallets' observations leave alone. *)
Definition same_items (db db' : EDB) : Prop := ed_plans db' = ed_plans db ∧ ed_plan_items db' = ed_plan_items db.
Lemma persist_wallets_accepts id m stored db : accepts (persist_wallets id m stored) db (λ db' _, same_items db db').
Proof.
  revert db. induction stored as [|w stored IH]; intros db; cbn [persist_wallets]; [by apply accepts_ret|].
  destruct (executionPlanWalletObservationParams _) as [[ordinal connected] snapshot]. apply accepts_bind. unfold UpdateExecutionPlanWalletObservation. accept.
  unfold put_plan_wallets. accept. unfold tx_put, accepts at 1. eapply accepts_mono; [apply IH|]. intros db' _ [E1 E2]. split; [by rewrite E1|by rewrite E2].
Qed.
Lemma persist_items_accepts id m stored db : (∀ x, x ∈ stored → is_Some (m !! pir_ordinal x)) → accepts (persist_items id m stored) db (λ _ _, True).
Proof.
  revert db. induction stored as [|i stored IH]; intros db Hm; cbn [persist_items]; [by apply accepts_ret|]. destruct (Hm i) as [o Ho]; [constructor|].
  apply accepts_bind. rewrite Ho. eapply accepts_lift; [reflexivity|]. cbv zeta. cbn [executionPlanItemObservationParams].
  apply accepts_bind. unfold UpdateExecutionPlanItemObservation. accept. unfold put_plan_items. accept. unfold tx_put, accepts at 1.
  apply IH. intros x Hx. apply Hm. by constructor.
Qed.
Lemma code_ok v : (String.length (trim_space v) ≤ maxExecutionPlanCodeLength)%nat → normalizeExecutionPlanCode v = Ok (trim_space v).
Proof. intros H. unfold normalizeExecutionPlanCode. cbv zeta. by rewrite (proj2 (Nat.leb_le _ _) H). Qed.
Lemma step_code s : step_text s → normalizeExecutionPlanCode (sp_reason_code s) = Ok (trim_space (sp_reason_code s)).
Proof. intros ([[_ ->]|(_ & _ & H)] & _); [done|]. by apply code_ok. Qed.
Lemma update_plan_accepts p f now db (Q : EDB → plan_row → Prop) : (∀ db' a, Q db' a) → accepts (update_plan p f now) db Q.
Proof.
  intros HQ. unfold update_plan. accept. destruct (sql_one _ _) as [old|]; [|done]. unfold not_null. accept. unfold put_plans. accept. apply HQ.
Qed.
Section Accepts.
Context {UL : UuidLib} {PT : PgText} {SL : SolanaLib} {PL : PgLower}.
Lemma accept_steps_ok wallets items (W I : nat) index steps : pwr_ordinal <$> wallets = seqZ 1 (Z.of_nat W) → pir_ordinal <$> items = seqZ 1 (Z.of_nat I) →
  (index + length steps ≤ W * I)%nat →
  (∀ k s, steps !! k = Some s → step_text s ∧ (sp_ordinal s, sp_wallet_ordinal s, sp_item_ordinal s)
     = (Z.of_nat (index + k) + 1, Z.of_nat ((index + k) / I) + 1, Z.of_nat ((index + k) mod I) + 1)) →
  check_steps wallets items index steps = Ok tt.
Proof.
  intros Hw Hi. revert index. induction steps as [|s steps IH]; intros index Hl Hs; cbn [check_steps length] in *; [done|].
  assert (length items = I) as Li by (apply (f_equal length) in Hi; rewrite length_fmap, length_seqZ in Hi; lia).
  destruct (Hs 0%nat s eq_refl) as [Ht Ho]. rewrite Nat.add_0_r in Ho. injection Ho as H1 H2 H3.
  assert (I ≠ 0)%nat as HI by lia. assert (index / I < W)%nat as Hq by (apply Nat.Div0.div_lt_upper_bound; lia). pose proof (Nat.mod_upper_bound index I HI) as Hr.
  assert (∃ w, wallets !! (index / I)%nat = Some w ∧ pwr_ordinal w = Z.of_nat (index / I) + 1) as (w & Hw1 & Hw2).
  { assert (seqZ 1 (Z.of_nat W) !! (index / I)%nat = Some (1 + Z.of_nat (index / I))) as E by (apply lookup_seqZ_lt; lia). rewrite <- Hw in E.
    apply list_lookup_fmap_Some in E as (w & E1 & E2). exists w. split; [done|lia]. }
  assert (∃ i, items !! (index mod I)%nat = Some i ∧ pir_ordinal i = Z.of_nat (index mod I) + 1) as (i & Hi1 & Hi2).
  { assert (seqZ 1 (Z.of_nat I) !! (index mod I)%nat = Some (1 + Z.of_nat (index mod I))) as E by (apply lookup_seqZ_lt; lia). rewrite <- Hi in E.
    apply list_lookup_fmap_Some in E as (w' & E1 & E2). exists w'. split; [done|lia]. }
  unfold check_step at 1. rewrite Li, Hw1, Hi1, H1, H2, H3, Hw2, Hi2, !Z.eqb_refl. replace (Z.of_nat index + 1 =? Z.of_nat (index + 1)) with true by (symmetry; apply Z.eqb_eq; lia).
  cbn [andb require mbind result_bind]. cbv zeta. rewrite (step_code s Ht). destruct Ht as (Hd & Hb & Ha). rewrite Hb, Ha.
  assert (check_steps wallets items (S index) steps = Ok tt) as Hrest.
  { apply IH; [lia|]. intros k x Hk. specialize (Hs (S k) x Hk). by rewrite Nat.add_succ_r in Hs. }
  destruct Hd as [[-> ->]|(-> & Hne & _)]; [exact Hrest|]. cbn. rewrite (bool_decide_false (trim_space (sp_reason_code s) = EmptyString)) by done. exact Hrest.
Qed.
Lemma copy_rows_ok id steps : (∀ s, s ∈ steps → step_text s) → ∃ rows, mapM (copy_row id) steps = Ok rows.
Proof.
  induction steps as [|s steps IH]; intros H; [by exists []|]. destruct IH as [rows Hr]; [intros x Hx; apply H; by constructor|].
  assert (∃ row, copy_row id s = Ok row) as [row Hrow] by (unfold copy_row; rewrite (step_code s) by (apply H; constructor); cbn; eauto).
  exists (row :: rows). cbn. rewrite Hrow. cbn. rewrite Hr. done.
Qed.
Lemma ready_request_ok r req W I : acceptable req W I → in_wallet_count (pl_intent r) = Z.of_nat W → in_item_count (pl_intent r) = Z.of_nat I →
  in_total_step_count (pl_intent r) = in_wallet_count (pl_intent r) * in_item_count (pl_intent r) → validateExecutionPlanReadyRequest r req = Ok tt.
Proof.
  intros A Hw Hi Ht. pose proof (f_equal length (ac_wallets _ _ _ A)) as Lw. pose proof (f_equal length (ac_items _ _ _ A)) as Li. rewrite length_fmap, length_seqZ in Lw. rewrite length_fmap, length_seqZ in Li.
  unfold validateExecutionPlanReadyRequest. cbv zeta. rewrite Lw, Li, (ac_steps _ _ _ A), Ht, Hw, Hi.
  rewrite !(proj2 (Z.eqb_eq _ _)) by lia. cbn [andb require mbind result_bind].
  replace (forallb _ _) with true; [done|]. symmetry. apply forallb_forall. intros v Hv%list_elem_of_In. apply (ac_totals _ _ _ A) in Hv.
  apply negb_true_iff, bool_decide_false. by intros ->.
Qed.
Lemma load_accepts clock row now db : accepts (load_plan clock row now) db (λ _ _, True).
Proof.
  unfold load_plan. accept. unfold accepts, tx_lift, loadExecutionPlan. cbv zeta. case_bool_decide; [|done]. by destruct (forallb _ _).
Qed.
(** The store does not refuse an acceptable request for a plan of its size as invalid. *)
Lemma acceptable_accepted clock req W I db : plan_inv db → acceptable req W I →
  (∀ id t r, plan_uuid "execution plan ID" (mr_plan_id req) = Ok (id, t) → v_row (view db id) = Some r →
     in_wallet_count (pl_intent r) = Z.of_nat W ∧ in_item_count (pl_intent r) = Z.of_nat I) →
  accepts (MarkExecutionPlanReady clock req) db (λ _ _, True).
Proof.
  intros Inv A Hsize. destruct (ac_id _ _ _ A) as [[id t] Hid]. destruct (ac_worker _ _ _ A) as [w Hw]. unfold MarkExecutionPlanReady.
  apply accepts_bind, (accepts_lift _ _ _ _ Hid), accepts_bind, (accepts_lift _ _ _ _ Hw), accepts_bind. eapply accepts_lift.
  { unfold validateExecutionPlanTotals. replace (forallb _ _) with true; [done|]. symmetry. apply forallb_forall. intros v Hv%list_elem_of_In. by apply (ac_totals _ _ _ A). }
  accept. match goal with H : GetExecutionPlanForUpdate _ _ = Some ?x |- _ => rename x into r, H into Hrow end.
  change (GetExecutionPlanForUpdate (id, t).1 db) with (v_row (view db id)) in Hrow. destruct (Hsize id t r Hid Hrow) as [Nw Ni].
  pose proof (pv_sound _ Inv id) as Snd. pose proof Snd as S. unfold sound in S. rewrite Hrow in S. eapply accepts_lift.
  { apply (ready_request_ok r req W I A Nw Ni). apply S. }
  accept. unfold require_selected. accept. cbn [fst]. rewrite (list_wallets_view _ _ _ Hrow Snd). pose proof (sh_wallets _ _ S) as Ow. pose proof (sh_items _ _ S) as Oi.
  rewrite Nw in Ow. rewrite Ni in Oi. unfold validateAndPersistExecutionPlanWalletObservations. accept.
  { apply (f_equal length) in Ow. pose proof (f_equal length (ac_wallets _ _ _ A)) as L. rewrite length_fmap in Ow. rewrite length_fmap in L. apply Nat.eqb_eq. congruence. }
  destruct (indexed_all wo_ordinal validateExecutionPlanWalletObservation (mr_wallets req) (Z.of_nat W)) as (m & Hm & Hall); [apply A|apply A|].
  eapply accepts_lift; [exact Hm|]. accept. apply check_wallets_accepts.
  { intros x Hx. apply Hall. rewrite <- Ow. apply list_elem_of_fmap_2. by apply sort_by_elem in Hx. }
  eapply accepts_mono; [apply persist_wallets_accepts|]. intros db' _ [E1 E2]. accept.
  assert (ListExecutionPlanItems id db' = v_items (view db id)) as ->.
  { rewrite <- (list_items_view _ _ _ Hrow Snd). unfold ListExecutionPlanItems. by rewrite E2. }
  unfold validateAndPersistExecutionPlanItemObservations. accept.
  { apply (f_equal length) in Oi. pose proof (f_equal length (ac_items _ _ _ A)) as L. rewrite length_fmap in Oi. rewrite length_fmap in L. apply Nat.eqb_eq. congruence. }
  destruct (indexed_all io_ordinal validateExecutionPlanItemObservation (mr_items req) (Z.of_nat I)) as (m' & Hm' & Hall'); [apply A|apply A|].
  eapply accepts_lift; [exact Hm'|]. eapply accepts_mono; [apply persist_items_accepts; intros x Hx; apply Hall'; rewrite <- Oi; by apply list_elem_of_fmap_2|].
  intros db2 _ _. unfold persistExecutionPlanSteps. accept.
  { pose proof (f_equal length Ow) as L1. pose proof (f_equal length Oi) as L2. rewrite length_fmap, length_seqZ in L1. rewrite length_fmap, length_seqZ in L2. apply Nat.eqb_eq. rewrite (ac_steps _ _ _ A). nia. }
  eapply accepts_lift; [apply (accept_steps_ok _ _ W I); [done|done|rewrite (ac_steps _ _ _ A); lia|apply A]|].
  unfold DeleteExecutionPlanSteps, put_plan_steps. accept. unfold tx_put, accepts at 1.
  destruct (copy_rows_ok id (mr_steps req)) as [rows Hrows].
  { intros s [k Hk]%list_elem_of_lookup. by apply (ac_step _ _ _ A k). }
  accept. eapply accepts_lift; [exact Hrows|]. unfold copy_plan_steps. accept. unfold accepts at 1, tx_lift.
  destruct (sql_insert _ _ _ _ _) as [tbl|e] eqn:Eins.
  2: { assert (e = EPConstraint "worm_execution_plan_steps") as -> by (by eapply sql_insert_error). done. }
  accept. unfold put_plan_steps. accept. unfold tx_put, accepts at 1. accept. destruct (executionPlanStepCounts _) as [readyCount skippedCount]. accept.
  apply accepts_no_rows; [|done]. unfold MarkExecutionPlanReady_query, not_null. accept. apply update_plan_accepts.
  intros db3 row. apply load_accepts.
Qed.
End Accepts.
