(* ===== verification/PlanPreview.v ===== *)
(** * Execution plans: the texts of a preview

    The decimals, outcomes and estimates of a preview are texts the plan store accepts, and the
    cost of a READY step is its funds and its fee. *)

From S2P Require Import Prelude Prog Sql CashOutTypes CashOutStages CashOutWorker ConnectionTypes ConnectionStore ConnectionService Decimal.
From S2P Require Import Preview PreviewExposure PreviewSimulation.
From stdpp Require Import base tactics option list list_numbers sorting strings gmap.
From Stdlib Require Import ZArith QArith Lia Ascii.
#[local] Open Scope Z_scope.

Section Texts.
Context {SL : SolanaLib} {CL : ChallengeLib} {C : Type}.

(** ** Estimates *)
Definition decimal_text_ok (v : string) : Prop := ∃ d, parseExecutionPreviewDecimal v = Ok d.
Definition estimate_texts (e : ExecutionPreviewMarketEstimate) : list string :=
  [ee_average_price e; ee_total_shares e; ee_total_cost e; ee_best_ask e; ee_worst_fill_price e; ee_fee_amount e; ee_user_funds_needed e].
Record estimate_ok (e : ExecutionPreviewMarketEstimate) : Prop := {
  eo_texts : ∀ v, v ∈ estimate_texts e → v = EmptyString ∨ decimal_text_ok v;
  eo_liquidation : ee_liquidation_price e = None }.
(** The cost of the trade is the funds and the fee. *)
Record cost_ok (e : ExecutionPreviewMarketEstimate) : Prop := {
  co_texts : decimal_text_ok (ee_funds e) ∧ decimal_text_ok (ee_fee_amount e) ∧ decimal_text_ok (ee_user_funds_needed e);
  co_sum : (text_amount (ee_user_funds_needed e) == text_amount (ee_funds e) + text_amount (ee_fee_amount e))%Q }.
Definition priced_ok (e : ExecutionPreviewMarketEstimate) : Prop := estimate_ok e ∧ (ee_rejection_code e = EmptyString → cost_ok e).
Lemma printed_ok v d : parseExecutionPreviewDecimal v = Ok d → decimal_text_ok (decimal_String d).
Proof. intros [H _]%parse_canonical. by exists d. Qed.
Lemma parse_price_ok name v d : parse_price name v = Ok d → parseExecutionPreviewDecimal v = Ok d.
Proof. unfold parse_price. intros H. tx_inv. by eapply parse_field_ok. Qed.
Lemma base_ok index item : estimate_ok (base_estimate index item).
Proof.
  split; [|done]. intros v Hv. left. unfold estimate_texts, base_estimate in Hv. cbn in Hv.
  repeat (apply elem_of_cons in Hv as [->|Hv]; [done|]). by apply not_elem_of_nil in Hv.
Qed.
Lemma normalize_priced base provider e : normalizeExecutionPreviewEstimate base provider = Ok e → ee_liquidation_price base = None → priced_ok e.
Proof.
  unfold normalizeExecutionPreviewEstimate. intros H Hl. tx_inv. simplify_eq.
  repeat match goal with
  | H : parse_price _ _ = Ok _ |- _ => apply parse_price_ok in H
  | H : parse_field _ _ = Ok _ |- _ => apply parse_field_ok in H
  end.
  split; [split; [|done]|intros _; split].
  - intros v Hv. right. unfold estimate_texts in Hv. cbn in Hv. repeat (apply elem_of_cons in Hv as [->|Hv]; [by eapply printed_ok|]). by apply not_elem_of_nil in Hv.
  - cbn. split_and!; [eexists; eassumption|by eapply printed_ok..].
  - match goal with H : executionPreviewDecimalSumEquals _ _ _ = true |- _ => apply SumEquals_amount in H; rename H into Hs end. cbn.
    unfold text_amount. repeat match goal with H : parseExecutionPreviewDecimal ?v = Ok _ |- context [parseExecutionPreviewDecimal ?v] => rewrite H end. by symmetry.
Qed.
Lemma fetch_estimate_priced index item log e : runs (fetch_estimate (C := C) index item) log (Ok e) → priced_ok e.
Proof.
  intros H. unfold fetch_estimate in H. cbv zeta in H. run_inv.
  match goal with H : runs (mret _) _ _ |- _ => apply runs_ret in H as [-> Heq] end. match type of Heq with _ = match ?r with _ => _ end => destruct r as [[provider|]|err] end.
  - symmetry in Heq. by eapply normalize_priced.
  - done.
  - destruct (isExecutionPreviewEstimateRejection err); [|done]. injection Heq as ->. split; [|done]. destruct (base_ok index item). by split.
Qed.
Definition item_priced (item : normalizedExecutionPreviewItem) (e : ExecutionPreviewMarketEstimate) : Prop :=
  estimate_ok e ∧ (ei_selectable (ni_input item) = true → ee_rejection_code e = EmptyString → cost_ok e).
Lemma fetchEstimates_priced items index cache log es : runs (fetchEstimates (C := C) items index cache) log (Ok es) →
  (∀ key e, cache !! key = Some e → priced_ok e) → Forall2 item_priced items es.
Proof.
  revert index cache log es. induction items as [|item items IH]; intros index cache log es H Hc; cbn [fetchEstimates] in H.
  { destruct H as [-> H]. injection H as ->. constructor. }
  destruct (ei_selectable (ni_input item)) eqn:Hs; cbn [negb] in H.
  2: { apply runs_try in H as (l1 & rest & l2 & -> & H & Heq). destruct Heq as [-> Heq]. injection Heq as ->. constructor; [|by eapply IH].
       split; [apply base_ok|congruence]. }
  cbv zeta in H. destruct (cache !! executionPreviewEstimateKey item) as [e|] eqn:Hk.
  - apply runs_try in H as (l1 & rest & l2 & -> & H & Heq). destruct Heq as [-> Heq]. injection Heq as ->. constructor; [|by eapply IH].
    destruct (Hc _ _ Hk) as [[E1 E2] Ep]. split; [by split|]. intros _ Hr. destruct (Ep Hr). by split.
  - apply runs_try in H as (l1 & e & l2 & -> & He & H). apply runs_try in H as (l3 & rest & l4 & -> & H & Heq). destruct Heq as [-> Heq]. injection Heq as ->.
    apply fetch_estimate_priced in He as [E1 E2]. constructor; [by split|]. eapply IH; [exact H|].
    intros key e' [[_ <-]|[_ ?]]%lookup_insert_Some; [by split|eauto].
Qed.

(** ** Steps *)
Definition outcome_codes : list string :=
  [ExecutionPreviewOutcomeMarketPositionExists; ExecutionPreviewOutcomeWalletRequestInFlight; ExecutionPreviewOutcomeMarketUnavailable;
   ExecutionPreviewOutcomeEstimateRejected; ExecutionPreviewOutcomeInsufficientUSDC; ExecutionPreviewOutcomeSkippedAfterInsufficientUSDC;
   ExecutionPreviewOutcomeReady].
Record step_ok (items : list (normalizedExecutionPreviewItem * ExecutionPreviewMarketEstimate)) (s : ExecutionPreviewStep) : Prop := {
  so_outcome : es_outcome s ∈ outcome_codes;
  so_before : decimal_text_ok (es_usdc_balance_before s);
  so_after : decimal_text_ok (es_usdc_balance_after s);
  so_item : ∃ item e, (item, e) ∈ items ∧ es_funds s = ni_funds item ∧ es_fee_amount s = ee_fee_amount e ∧ es_user_funds_needed s = ee_user_funds_needed e
    ∧ (es_outcome s = ExecutionPreviewOutcomeReady → ei_selectable (ni_input item) = true ∧ ee_rejection_code e = EmptyString) }.
Definition blocked_codes : list string := [""; ExecutionPreviewOutcomeMarketPositionExists; ExecutionPreviewOutcomeWalletRequestInFlight].
Definition simulation_ok (st : simulation) : Prop := good (sm_remaining st) ∧ sm_blocked_reason st ∈ blocked_codes.
Lemma good_text_ok d : good d → decimal_text_ok (decimal_String d).
Proof. intros [H _]. by exists d. Qed.
Lemma known_outcome c : bool_decide (c ∈ outcome_codes) = true → c ∈ outcome_codes.
Proof. apply bool_decide_eq_true. Qed.
Lemma preview_step_texts x (wallet : normalizedExecutionPreviewWallet C) item e items st ordinal wi ii s st' : (item, e) ∈ items → simulation_ok st →
  preview_step x item e (new_step wallet item e ordinal wi ii (sm_remaining st)) st = Ok (s, st') → step_ok items s ∧ simulation_ok st'.
Proof.
  intros Hin [Hg Hb] H. pose proof (good_text_ok _ Hg) as Ht.
  assert (∀ outcome reason kind key, outcome ∈ outcome_codes → outcome ≠ ExecutionPreviewOutcomeReady →
    step_ok items (classified (new_step wallet item e ordinal wi ii (sm_remaining st)) outcome reason kind key)) as Hcl.
  { intros outcome reason kind key Ho Hne. split; [done|done|done|]. exists item, e. split_and!; done. }
  unfold preview_step in H. cbv zeta in H. case_bool_decide as Hr; cbn [negb] in H.
  2: { injection H as <- <-. split; [|done]. unfold blocked_codes in Hb. apply elem_of_cons in Hb as [|Hb]; [done|].
       apply Hcl; [set_solver|]. intros E. rewrite E in Hb. revert Hb. vm_compute. set_solver. }
  destruct (firstExecutionPreviewMarketPosition _); [injection H as <- <-; split; [apply Hcl; [apply known_outcome; vm_compute; reflexivity|done]|split; [done|by right; left]]|].
  destruct (firstRequest x); [injection H as <- <-; split; [apply Hcl; [apply known_outcome; vm_compute; reflexivity|done]|split; [done|by right; right; left]]|].
  destruct (sm_blocked_usdc st); [injection H as <- <-; split; [apply Hcl; [apply known_outcome; vm_compute; reflexivity|done]|by split]|].
  destruct (ei_selectable (ni_input item)) eqn:Hs; cbn [negb] in H;
    [|injection H as <- <-; split; [apply Hcl; [apply known_outcome; vm_compute; reflexivity|done]|by split]].
  case_bool_decide as Hj; cbn [negb] in H; [|injection H as <- <-; split; [apply Hcl; [apply known_outcome; vm_compute; reflexivity|done]|by split]].
  destruct (parseExecutionPreviewDecimal (ee_user_funds_needed e)) as [needed|]; [cbn [mbind result_bind] in H|done].
  assert (∀ remaining, Subtract (sm_remaining st) needed = Ok remaining →
    step_ok items (ready (new_step wallet item e ordinal wi ii (sm_remaining st)) (decimal_String remaining)) ∧ good remaining) as Hready.
  { intros remaining Hsub%Subtract_good. split; [|done]. split; [apply known_outcome; vm_compute; reflexivity|done|by apply good_text_ok|]. exists item, e. split_and!; done. }
  destruct (Compare _ _); [|injection H as <- <-; split; [apply Hcl; [apply known_outcome; vm_compute; reflexivity|done]|by split]|];
    (destruct (Subtract _ needed) as [remaining|]; [cbn [mbind result_bind] in H|done]); injection H as <- <-; destruct (Hready remaining eq_refl); by split.
Qed.
Lemma wallet_steps_texts (wallet : normalizedExecutionPreviewWallet C) x all items wi ii ordinal st steps : items ⊆ all → simulation_ok st →
  wallet_steps wallet x items wi ii ordinal st = Ok steps → Forall (step_ok all) steps.
Proof.
  revert ii ordinal st steps. induction items as [|[item e] items IH]; intros ii ordinal st steps Hsub Hst H; cbn [wallet_steps] in H; [injection H as <-; constructor|].
  cbv zeta in H. destruct (preview_step _ _ _ _ _) as [[s st']|] eqn:E; [cbn [mbind result_bind snd fst] in H|done].
  destruct (wallet_steps _ _ items _ _ _ _) as [rest|] eqn:Er; [cbn [mbind result_bind] in H|done]. injection H as <-.
  eapply (preview_step_texts x wallet item e all) in E as [E1 E2]; [|apply Hsub; constructor|done].
  constructor; [done|]. eapply IH; [|exact E2|exact Er]. intros p Hp. apply Hsub. by constructor.
Qed.
Lemma all_steps_texts (wallets : list (normalizedExecutionPreviewWallet C * executionPreviewWalletExposure)) items wi ordinal steps :
  (∀ w, w ∈ wallets → good (nw_usdc w.1)) → all_steps wallets items wi ordinal = Ok steps → Forall (step_ok items) steps.
Proof.
  revert wi ordinal steps. induction wallets as [|[wallet x] wallets IH]; intros wi ordinal steps Hw H; cbn [all_steps] in H; [injection H as <-; constructor|].
  destruct (wallet_steps _ _ _ _ _ _ _) as [l|] eqn:El; [cbn [mbind result_bind] in H|done].
  destruct (all_steps wallets _ _ _) as [rest|] eqn:Er; [cbn [mbind result_bind] in H|done]. injection H as <-. apply Forall_app. split.
  - eapply wallet_steps_texts; [reflexivity| |exact El]. split; [apply (Hw (wallet, x)); constructor|by left].
  - eapply IH; [|exact Er]. intros w Hin. apply Hw. by constructor.
Qed.

(** ** Amounts *)
(** What a step says of the amounts of its market. *)
Definition step_amounts (p : normalizedExecutionPreviewItem * ExecutionPreviewMarketEstimate) (s : ExecutionPreviewStep) : Prop :=
  es_funds s = ni_funds p.1 ∧ es_fee_amount s = ee_fee_amount p.2 ∧ es_user_funds_needed s = ee_user_funds_needed p.2
  ∧ (es_outcome s = ExecutionPreviewOutcomeReady → ei_selectable (ni_input p.1) = true ∧ ee_rejection_code p.2 = EmptyString).
Lemma preview_step_amounts x (wallet : normalizedExecutionPreviewWallet C) item e st ordinal wi ii s st' : simulation_ok st →
  preview_step x item e (new_step wallet item e ordinal wi ii (sm_remaining st)) st = Ok (s, st') → step_amounts (item, e) s.
Proof.
  intros Hst H. destruct (preview_step_texts x wallet item e [(item, e)] st ordinal wi ii s st') as [[_ _ _ (item' & e' & Hin & ?)] _]; [by constructor|done|done|].
  apply list_elem_of_singleton in Hin as [= -> ->]. done.
Qed.
Lemma wallet_steps_amounts (wallet : normalizedExecutionPreviewWallet C) x items wi ii ordinal st steps : simulation_ok st →
  wallet_steps wallet x items wi ii ordinal st = Ok steps → Forall2 step_amounts items steps.
Proof.
  revert ii ordinal st steps. induction items as [|[item e] items IH]; intros ii ordinal st steps Hst H; cbn [wallet_steps] in H; [injection H as <-; constructor|].
  cbv zeta in H. destruct (preview_step _ _ _ _ _) as [[s st']|] eqn:E; [cbn [mbind result_bind snd fst] in H|done].
  destruct (wallet_steps _ _ items _ _ _ _) as [rest|] eqn:Er; [cbn [mbind result_bind] in H|done]. injection H as <-.
  constructor; [by eapply preview_step_amounts|]. eapply IH; [|exact Er]. eapply (preview_step_texts x wallet item e [(item, e)]); [|exact Hst|exact E]. by constructor.
Qed.
Lemma all_steps_amounts (wallets : list (normalizedExecutionPreviewWallet C * executionPreviewWalletExposure)) items wi ordinal steps k s :
  (∀ w, w ∈ wallets → good (nw_usdc w.1)) → all_steps wallets items wi ordinal = Ok steps → steps !! k = Some s →
  ∃ p, items !! (k mod length items)%nat = Some p ∧ step_amounts p s.
Proof.
  revert wi ordinal steps k. induction wallets as [|[wallet x] wallets IH]; intros wi ordinal steps k Hw H Hs; cbn [all_steps] in H; [by injection H as <-|].
  destruct (wallet_steps _ _ _ _ _ _ _) as [l|] eqn:El; [cbn [mbind result_bind] in H|done].
  destruct (all_steps wallets _ _ _) as [rest|] eqn:Er; [cbn [mbind result_bind] in H|done]. injection H as <-.
  apply wallet_steps_amounts in El; [|split; [apply (Hw (wallet, x)); constructor|by left]]. pose proof (Forall2_length _ _ _ El) as Hl.
  apply lookup_app_Some in Hs as [Hs|[Hk Hs]].
  - destruct (Forall2_lookup_r _ _ _ _ _ El Hs) as (p & Hp & Ha). exists p. rewrite Nat.mod_small; [done|]. by eapply lookup_lt_Some.
  - eapply IH in Hs as (p & Hp & Ha); [|intros w Hin; apply Hw; by constructor|exact Er]. exists p. split; [|done]. rewrite <- Hp. f_equal.
    replace k with (k - length l + 1 * length items)%nat at 1 by lia. apply Nat.Div0.mod_add.
Qed.

(** ** The result *)
Record preview_texts (items : list normalizedExecutionPreviewItem) (result : ExecutionPreviewResult) : Prop := {
  px_estimates : Forall2 item_priced items (er_estimates result);
  px_steps : Forall (step_ok (zip items (er_estimates result))) (er_steps result);
  px_amounts : ∀ k s, er_steps result !! k = Some s → ∃ p, zip items (er_estimates result) !! (k mod length items)%nat = Some p ∧ step_amounts p s }.
Lemma funded_wallets (input : list (ExecutionPreviewWalletInput C)) wallets (xs : list executionPreviewWalletExposure) w :
  Forall2 normalized_wallet input wallets → w ∈ zip wallets xs → good (nw_usdc w.1).
Proof.
  destruct w as [n y]. intros Hw Hin%elem_of_zip_l. apply list_elem_of_lookup in Hin as [k Hk]. destruct (Forall2_lookup_r _ _ _ _ _ Hw Hk) as (w & _ & Hnw).
  eapply parse_good, (nmw_usdc _ _ Hnw).
Qed.
Lemma build_texts fuel (input : ExecutionPreviewInput C) log result : runs (Build fuel input) log (Some (Ok result)) →
  ∃ items, Forall2 normalized_item (in_items input) items ∧ preview_texts items result.
Proof.
  intros H. unfold Build in H. destruct (normalizeExecutionPreviewInput input) as [[wallets items]|e] eqn:En; [|by destruct H]. run_inv.
  match goal with H : runs (match ?r with _ => _ end) _ _ |- _ => rename H into Hrun; destruct r as [estimates|e]; [|by destruct Hrun] end. run_inv.
  match goal with H : runs (match ?r with _ => _ end) _ _ |- _ => rename H into Hrun; destruct r as [[exposures|e]|]; [|by destruct Hrun..] end.
  apply runs_ret in Hrun as [-> Heq]. destruct (buildExecutionPreviewSteps wallets items estimates exposures) as [steps|[e|m]] eqn:Hb; [|done..]. injection Heq as ->.
  apply normalize_ok in En as [Hw Hi]. exists items. split; [done|]. split; cbn [er_estimates er_steps].
  - match goal with H : runs (fetchEstimates _ _ _) _ _ |- _ => by eapply fetchEstimates_priced in H end.
  - unfold buildExecutionPreviewSteps in Hb. tx_inv. eapply all_steps_texts; [|eassumption]. intros w. by apply (funded_wallets (in_wallets input)).
  - intros k s Hs. unfold buildExecutionPreviewSteps in Hb. tx_inv.
    match goal with H : runs (fetchEstimates _ _ _) _ _ |- _ => eapply fetchEstimates_priced in H as Hf; [|done] end. apply Forall2_length in Hf.
    match goal with H : all_steps _ _ _ _ = Ok _ |- _ => eapply all_steps_amounts in H as (p & Hp & Ha); [|intros w; by apply (funded_wallets (in_wallets input))|exact Hs] end.
    exists p. split; [|done]. rewrite length_zip, Hf, Nat.min_id, <- Hf in Hp. done.
Qed.
End Texts.
