(* ===== verification/PlanWorker.v ===== *)
(** * Execution plans: the worker

    [internal/wormtrading/execution_plan_worker.go]: a worker claims a plan, renews its lease
    while it reads the catalogs of the markets, the connections and the balances of the wallets
    and builds the preview, and completes the plan with what it observed, or marks it failed.
    Everything it calls is an operation of a program: the clock, the store, the market service,
    the wallet connections, the balances and the provider.

    The heartbeat of the lease guard renews the lease in its own goroutine; its renewals are
    operations of the same worker on the store, and what the build learns of them is the error
    [stop] returns.  An error of the build is its failure code. *)

From S2P Require Import Prelude Prog Sql CashOutTypes CashOutStages CashOutWorker ConnectionTypes ConnectionStore ConnectionService Decimal.
From S2P Require Import Preview Combination Plan PlanStore Solana.
From stdpp Require Import base tactics option list list_numbers sorting strings gmap.
From Stdlib Require Import ZArith Lia Ascii.
#[local] Open Scope Z_scope.

(** ** Constants *)
Definition executionPlanWorkerPollInterval : Z := 1000000000.
Definition executionPlanWorkerLease : Z := 2 * 60 * 1000000000.
Definition executionPlanCleanupInterval : Z := 3600 * 1000000000.
Definition executionPlanCleanupLimit : Z := 100.
Definition executionPlanStageCatalogs : string := "READING_MARKETS".
Definition executionPlanStageConnections : string := "READING_CONNECTIONS".
Definition executionPlanStageBalances : string := "READING_BALANCES".
Definition executionPlanStagePreview : string := "BUILDING_PREVIEW".
Definition executionPlanStageFinalizing : string := "FINALIZING".
Definition executionPlanFailureStoreUnavailable : string := "STORE_UNAVAILABLE".
Definition executionPlanFailureMarketsUnavailable : string := "WORM_MARKETS_UNAVAILABLE".
Definition executionPlanFailureMarketsInvalid : string := "WORM_MARKETS_INVALID_RESPONSE".
Definition executionPlanFailureWalletNotConnected : string := "WALLET_NOT_CONNECTED".
Definition executionPlanFailureCredentialUnavailable : string := "WALLET_CREDENTIAL_UNAVAILABLE".
Definition executionPlanFailureBalanceUnavailable : string := "SOLANA_BALANCE_UNAVAILABLE".
Definition executionPlanFailureUSDCUnavailable : string := "USDC_BALANCE_UNAVAILABLE".
Definition executionPlanFailureWormReadUnavailable : string := "WORM_READ_UNAVAILABLE".
Definition executionPlanFailureWormResponseInvalid : string := "WORM_INVALID_RESPONSE".
Definition executionPlanFailureSourceChanged : string := "PLAN_SOURCE_CHANGED".
Definition executionPlanFailureWalletSelectionChanged : string := "WALLET_SELECTION_CHANGED".
Definition executionPlanFailurePreviewInvalid : string := "PREVIEW_INVALID".
Definition executionPlanUnknownBackend : string := "unknown".
Definition executionPlanMarketMissing : string := "MARKET_NOT_FOUND".
Definition executionPlanMarketUnavailable : string := "MARKET_UNAVAILABLE".
Definition maxWalletConnectionWarningLength : nat := 100.

(** ** Data *)
(** The catalog of an event, as the market service sends it; pointers may be nil. *)
Record OrderEventCatalogOutcome := {
  oo_is_yes : bool; oo_label : string; oo_selectable : bool; oo_unavailable_code : string; oo_max_leverage : string }.
Record OrderEventCatalogMarket := {
  om_market_condition_id : string; om_event_condition_id : string; om_backend : string; om_unavailable_code : string;
  om_outcomes : list (option OrderEventCatalogOutcome) }.
Record OrderEventCatalog := { oc_event_condition_id : string; oc_markets : list (option OrderEventCatalogMarket) }.
Record GetOrderEventCatalogResponse := { ocr_fetched_at : Z; ocr_event : option OrderEventCatalog }.
Record executionPlanCatalogItem := { ct_input : ExecutionPreviewItemInput; ct_observation : ExecutionPlanItemObservation }.
Record executionPlanWalletContext (C : Type) := {
  wc_input : ExecutionPreviewWalletInput C; wc_observation : ExecutionPlanWalletObservation; wc_active_credential_id : Z }.
Arguments wc_input {C} _.
Arguments wc_observation {C} _.
Arguments wc_active_credential_id {C} _.
Definition connection_state_text (s : ConnectionState) : string :=
  match s with
  | ConnectionStateNotConnected => "NOT_CONNECTED" | ConnectionStateConnecting => "CONNECTING" | ConnectionStateConnected => "CONNECTED"
  | ConnectionStateReconnectRequired => "RECONNECT_REQUIRED" | ConnectionStateDisconnecting => "DISCONNECTING"
  | ConnectionStateRevocationRequired => "REVOCATION_REQUIRED"
  end.
(** [executionPlanBuildFailure], or another error. *)
Inductive plan_build_error := executionPlanBuildFailure (code : string) | PlainError (err : go_error).
Definition failExecutionPlanBuild {A} (code : string) : result plan_build_error A := Err (executionPlanBuildFailure code).
Definition executionPlanFailureCode (err : plan_build_error) : string :=
  match err with
  | executionPlanBuildFailure code => if bool_decide (code = EmptyString) then executionPlanFailurePreviewInvalid else code
  | PlainError e => if is_canceled e || is_deadline_exceeded e then executionPlanFailureWormReadUnavailable else executionPlanFailurePreviewInvalid
  end.
Definition preview_go_error (e : preview_error) : go_error :=
  match e with PreviewError m => ErrorText m | PreviewProvider m err => ErrorWrap m err end.

(** ** Catalogs *)
Definition no_estimate : ExecutionPlanEstimate := {|
  pe_average_price := ""; pe_total_shares := ""; pe_total_cost := ""; pe_best_ask := ""; pe_worst_fill_price := ""; pe_is_fully_filled := false;
  pe_fee_amount := ""; pe_user_funds_needed := ""; pe_liquidation_price := "" |}.
Definition catalog_item (item : ExecutionPlanItem) (backend funds : string) (selectable : bool) (unavailableCode : string) : executionPlanCatalogItem :=
  let i := pi_input item in {|
  ct_input := {| ei_event_condition_id := mi_event_condition_id i; ei_market_condition_id := mi_market_condition_id i; ei_is_yes := mi_is_yes i;
                 ei_backend := backend; ei_funds := funds; ei_selectable := selectable; ei_unavailable_code := unavailableCode |};
  ct_observation := {| io_ordinal := pi_ordinal item; io_snapshot := {|
    is_backend := backend; is_funds := funds; is_leverage := "1"; is_state := executionPlanMarketUnavailable; is_reason_code := unavailableCode;
    is_estimate := no_estimate |} |} |}.
Definition unavailableExecutionPlanCatalogItem (item : ExecutionPlanItem) (reasonCode : string) : executionPlanCatalogItem :=
  catalog_item item executionPlanUnknownBackend "0" false reasonCode.
(** Two outcomes, one of each side; [seen] holds the sides met. *)
Fixpoint scan_outcomes (outcomes : list (option OrderEventCatalogOutcome)) (isYes seenYes seenNo : bool) (selected : option OrderEventCatalogOutcome) :
    option (bool * bool * option OrderEventCatalogOutcome) :=
  match outcomes with
  | [] => Some (seenYes, seenNo, selected)
  | None :: _ => None
  | Some o :: rest =>
      if (if oo_is_yes o then seenYes else seenNo) || negb (isCanonicalNonEmptyString (oo_label o)) then None
      else if Bool.eqb (oo_selectable o) (negb (bool_decide (oo_unavailable_code o = EmptyString)))
              || negb (bool_decide (oo_unavailable_code o = trim_space (oo_unavailable_code o))) then None
      else scan_outcomes rest isYes (oo_is_yes o || seenYes) (negb (oo_is_yes o) || seenNo)
             (if Bool.eqb (oo_is_yes o) isYes then Some o else selected)
  end.
Definition executionPlanSelectedOutcome (market : OrderEventCatalogMarket) (isYes : bool) : option OrderEventCatalogOutcome :=
  if negb (Nat.eqb (length (om_outcomes market)) 2) then None
  else match scan_outcomes (om_outcomes market) isYes false false None with
       | Some (true, true, selected) => selected
       | _ => None
       end.

Section Catalogs.
Context {SL : SolanaLib}.
Fixpoint index_markets (event : string) (markets : list (option OrderEventCatalogMarket)) (index : gmap string OrderEventCatalogMarket) :
    option (gmap string OrderEventCatalogMarket) :=
  match markets with
  | [] => Some index
  | None :: _ => None
  | Some market :: rest =>
      let id := om_market_condition_id market in
      if negb (validExecutionPreviewConditionID id) || negb (bool_decide (om_event_condition_id market = event)) then None
      else if bool_decide (is_Some (index !! id)) then None
      else
        let backend := trim_space (om_backend market) in
        if negb (bool_decide (backend = om_backend market)) || negb (bool_decide (backend = to_lower backend)) then None
        else index_markets event rest (<[id := market]> index)
  end.
Definition indexExecutionPlanCatalogMarkets (catalog : OrderEventCatalog) : option (gmap string OrderEventCatalogMarket) :=
  if negb (validExecutionPreviewConditionID (oc_event_condition_id catalog)) then None
  else index_markets (oc_event_condition_id catalog) (oc_markets catalog) ∅.
Definition unavailable_code (market : OrderEventCatalogMarket) (outcome : OrderEventCatalogOutcome) (supported : bool) : string :=
  let code := trim_space (oo_unavailable_code outcome) in
  let code := if bool_decide (code = EmptyString) then trim_space (om_unavailable_code market) else code in
  let code := if bool_decide (code = EmptyString) && negb supported then "BACKEND_UNSUPPORTED" else code in
  if bool_decide (code = EmptyString) then executionPlanMarketUnavailable else code.
(** The item of a market of the catalog. *)
Definition market_item (item : ExecutionPlanItem) (market : OrderEventCatalogMarket) : result plan_build_error executionPlanCatalogItem :=
  let invalid := executionPlanBuildFailure executionPlanFailureMarketsInvalid in
  outcome ← of_option (executionPlanSelectedOutcome market (mi_is_yes (pi_input item))) invalid;
  let backend := to_lower (trim_space (om_backend market)) in
  let backend := if bool_decide (backend = EmptyString) then executionPlanUnknownBackend else backend in
  let '(funds, supportedBackend) := executionPreviewFundsForBackend backend in
  let funds := if supportedBackend : bool then funds else "0" in
  let selectable := bool_decide (om_unavailable_code market = EmptyString) && oo_selectable outcome && supportedBackend in
  if selectable then
    _ ← require (match parseExecutionPreviewDecimal (oo_max_leverage outcome) with
                 | Ok maxLeverage => match Compare maxLeverage executionPreviewOne with Lt => false | _ => true end
                 | Err _ => false end) invalid;
    Ok (catalog_item item backend funds true "")
  else
    let code := unavailable_code market outcome supportedBackend in
    _ ← require (isCanonicalNonEmptyString code && (String.length code <=? 100)%nat) invalid;
    Ok (catalog_item item backend funds false code).
Fixpoint catalog_items (indexes : gmap string (gmap string OrderEventCatalogMarket)) (items : list ExecutionPlanItem) :
    result plan_build_error (list executionPlanCatalogItem) :=
  match items with
  | [] => Ok []
  | item :: items' =>
      let i := pi_input item in
      r ← (match indexes !! mi_event_condition_id i ≫= λ markets, markets !! mi_market_condition_id i with
           | None => Ok (unavailableExecutionPlanCatalogItem item executionPlanMarketMissing)
           | Some market => market_item item market
           end);
      rest ← catalog_items indexes items';
      Ok (r :: rest)
  end.
(** The map of the events; a failure does not depend on the order. *)
Definition index_events (events : gmap string OrderEventCatalog) : option (gmap string (gmap string OrderEventCatalogMarket)) :=
  if bool_decide (map_Forall (λ _ c, is_Some (indexExecutionPlanCatalogMarkets c)) events)
  then Some (omap indexExecutionPlanCatalogMarkets events) else None.
End Catalogs.

(** ** Connections and balances *)
Definition stored_snapshot_ok (ref : Z * string) (s : WalletConnectionSnapshot) : bool :=
  (ws_wallet_id s =? ref.1) && bool_decide (ws_requested_address s = ref.2)
  && (bool_decide (ws_stored_address s = EmptyString) || bool_decide (ws_stored_address s = ref.2))
  && bool_decide (ws_warning_code s = trim_space (ws_warning_code s)) && (String.length (ws_warning_code s) <=? maxWalletConnectionWarningLength)%nat
  && match ws_active_credential s with Some c => sc_wallet_id c =? ws_wallet_id s | None => true end.
(** Every [ConnectionState] is one [validConnectionProjectionState] accepts. *)
Definition validateStoredConnectionSnapshots (refs : list (Z * string)) (snapshots : list WalletConnectionSnapshot) : bool :=
  Nat.eqb (length refs) (length snapshots) && forallb (λ p, stored_snapshot_ok p.1 p.2) (zip refs snapshots).
(** The worker's own copy of the check of the store. *)
Definition executionPlanUnsignedInteger (value : string) : bool := negb (bool_decide (value = EmptyString)) && all_digits value.
Definition validExecutionPlanBalanceObservation (o : BalanceObservation) (expectedDecimals : Z) (token : bool) : bool :=
  if negb (bo_decimals o =? expectedDecimals) || (bo_token_account_count o <? 0) || (negb token && negb (bo_token_account_count o =? 0)) then false
  else if bool_decide (bo_availability o = Solana.availabilityAvailable) then
    bool_decide (bo_error_code o = EmptyString) && negb (bo_observed_slot o =? 0) && executionPlanUnsignedInteger (bo_atomic_amount o)
    && match parseExecutionPreviewDecimal (bo_amount o) with Ok _ => true | Err _ => false end
  else if bool_decide (bo_availability o = Solana.availabilityUnavailable) then
    isCanonicalNonEmptyString (bo_error_code o) && bool_decide (bo_atomic_amount o = EmptyString) && bool_decide (bo_amount o = EmptyString)
  else false.
Definition observed_balance (o : BalanceObservation) : balance_snapshot := {|
  bal_atomic_amount := bo_atomic_amount o; bal_amount := bo_amount o; bal_decimals := bo_decimals o; bal_observed_slot := bo_observed_slot o;
  bal_availability := bo_availability o; bal_error_code := bo_error_code o |}.
Definition with_balance {C} (wallet : executionPlanWalletContext C) (balance : WalletBalanceResult) (usdc sol : string) : executionPlanWalletContext C :=
  let i := wc_input wallet in let o := wc_observation wallet in let s := wo_snapshot o in {|
  wc_input := {| ew_wallet_id := ew_wallet_id i; ew_address := ew_address i; ew_usdc_balance := usdc; ew_sol_balance := sol; ew_client := ew_client i |};
  wc_observation := {| wo_ordinal := wo_ordinal o; wo_connected_at := wo_connected_at o; wo_snapshot := {|
    sn_connection_state := sn_connection_state s; sn_connection_warning_code := sn_connection_warning_code s;
    sn_credential_version := sn_credential_version s; sn_sol := observed_balance (wb_sol balance); sn_usdc_mint := Solana.SolanaNativeUSDCMint;
    sn_usdc := observed_balance (wb_usdc balance); sn_usdc_token_account_count := bo_token_account_count (wb_usdc balance);
    sn_status := wb_status balance; sn_reason_code := sn_reason_code s |} |};
  wc_active_credential_id := wc_active_credential_id wallet |}.
Fixpoint add_balances {C} (wallets : list (executionPlanWalletContext C)) (results : list WalletBalanceResult) :
    result plan_build_error (list (executionPlanWalletContext C)) :=
  match wallets, results with
  | wallet :: wallets', balance :: results' =>
      let unavailable := executionPlanBuildFailure executionPlanFailureBalanceUnavailable in
      let i := wc_input wallet in
      _ ← require ((wb_wallet_id balance =? ew_wallet_id i) && bool_decide (wb_address balance = ew_address i)) unavailable;
      _ ← require (validExecutionPlanBalanceObservation (wb_sol balance) Solana.SolanaDecimals false
                   && validExecutionPlanBalanceObservation (wb_usdc balance) Solana.USDCDecimals true
                   && isCanonicalNonEmptyString (wb_status balance)) unavailable;
      _ ← require (bool_decide (bo_availability (wb_usdc balance) = Solana.availabilityAvailable)) (executionPlanBuildFailure executionPlanFailureUSDCUnavailable);
      usdc ← (match parseExecutionPreviewDecimal (bo_amount (wb_usdc balance)) with Ok d => Ok (decimal_String d) | Err _ => Err unavailable end);
      sol ← (if bool_decide (bo_availability (wb_sol balance) = Solana.availabilityAvailable)
             then match parseExecutionPreviewDecimal (bo_amount (wb_sol balance)) with Ok d => Ok (decimal_String d) | Err _ => Err unavailable end
             else Ok "0");
      rest ← add_balances wallets' results';
      Ok (with_balance wallet balance usdc sol :: rest)
  | _, _ => Ok []
  end.

(** ** Observations and steps *)
Definition item_observation (item : executionPlanCatalogItem) (estimate : ExecutionPreviewMarketEstimate) : ExecutionPlanItemObservation :=
  let s := io_snapshot (ct_observation item) in
  let '(state, reason) :=
    if negb (ei_selectable (ct_input item)) then (executionPlanMarketUnavailable, is_reason_code s)
    else if negb (bool_decide (ee_rejection_code estimate = EmptyString)) then (ExecutionPreviewOutcomeEstimateRejected, ExecutionPreviewOutcomeEstimateRejected)
    else (ExecutionPreviewOutcomeReady, "") in {|
  io_ordinal := io_ordinal (ct_observation item); io_snapshot := {|
    is_backend := is_backend s; is_funds := is_funds s; is_leverage := is_leverage s; is_state := state; is_reason_code := reason;
    is_estimate := {| pe_average_price := ee_average_price estimate; pe_total_shares := ee_total_shares estimate; pe_total_cost := ee_total_cost estimate;
      pe_best_ask := ee_best_ask estimate; pe_worst_fill_price := ee_worst_fill_price estimate; pe_is_fully_filled := ee_is_fully_filled estimate;
      pe_fee_amount := ee_fee_amount estimate; pe_user_funds_needed := ee_user_funds_needed estimate;
      pe_liquidation_price := default EmptyString (ee_liquidation_price estimate) |} |} |}.
Fixpoint item_observations (items : list executionPlanCatalogItem) (estimates : list ExecutionPreviewMarketEstimate) (index : Z) :
    option (list ExecutionPlanItemObservation) :=
  match items, estimates with
  | item :: items', estimate :: estimates' =>
      let i := ct_input item in
      if negb (ee_market_ordinal estimate =? wrap32 (index + 1)) || negb (bool_decide (ee_market_condition_id estimate = ei_market_condition_id i))
         || negb (Bool.eqb (ee_is_yes estimate) (ei_is_yes i)) || negb (bool_decide (ee_funds estimate = ei_funds i)) then None
      else rest ← item_observations items' estimates' (index + 1); Some (item_observation item estimate :: rest)
  | _, _ => Some []
  end.
Definition executionPlanItemObservations (items : list executionPlanCatalogItem) (estimates : list ExecutionPreviewMarketEstimate) :
    option (list ExecutionPlanItemObservation) :=
  if negb (Nat.eqb (length items) (length estimates)) then None else item_observations items estimates 0.
Definition addExecutionPlanDecimal (total : decimalAmount) (raw : string) : result preview_error decimalAmount :=
  value ← parseExecutionPreviewDecimal raw;
  let '(a, b) := executionPreviewAlignedCoefficients total value in
  parseExecutionPreviewDecimal (decimal_String {| coefficient := a + b; scale := Nat.max (scale total) (scale value) |}).
Record running_totals := { rt_collateral : decimalAmount; rt_opening_fee : decimalAmount; rt_user_funds_needed : decimalAmount }.
Definition add_step (s : ExecutionPreviewStep) (t : running_totals) : result preview_error running_totals :=
  collateral ← addExecutionPlanDecimal (rt_collateral t) (es_funds s);
  fee ← addExecutionPlanDecimal (rt_opening_fee t) (es_fee_amount s);
  needed ← addExecutionPlanDecimal (rt_user_funds_needed t) (es_user_funds_needed s);
  Ok {| rt_collateral := collateral; rt_opening_fee := fee; rt_user_funds_needed := needed |}.
Fixpoint steps_and_totals (steps : list ExecutionPreviewStep) (index : Z) (t : running_totals) :
    result preview_error (list ExecutionPlanStep * running_totals) :=
  match steps with
  | [] => Ok ([], t)
  | s :: steps' =>
      _ ← require (negb (negb (es_ordinal s =? index + 1) || (es_wallet_ordinal s <=? 0) || (es_market_ordinal s <=? 0)))
            (PreviewError "execution preview step order is invalid");
      let ready := bool_decide (es_outcome s = ExecutionPreviewOutcomeReady) in
      t ← (if ready then add_step s t else Ok t);
      let reasonCode := if ready then "" else es_outcome s in
      _ ← require (ready || isCanonicalNonEmptyString reasonCode) (PreviewError "execution preview skipped step has no reason");
      rest ← steps_and_totals steps' (index + 1) t;
      Ok ({| sp_ordinal := es_ordinal s; sp_wallet_ordinal := es_wallet_ordinal s; sp_item_ordinal := es_market_ordinal s;
             sp_disposition := if ready then ExecutionPlanStepDispositionReady else ExecutionPlanStepDispositionSkipped;
             sp_reason_code := reasonCode; sp_projected_usdc_before := es_usdc_balance_before s; sp_projected_usdc_after := es_usdc_balance_after s |}
          :: rest.1, rest.2)
  end.
Definition zero_amount : decimalAmount := {| coefficient := 0; scale := 0 |}.
Definition executionPlanStepsAndTotals (previewSteps : list ExecutionPreviewStep) : result preview_error (list ExecutionPlanStep * plan_totals) :=
  r ← steps_and_totals previewSteps 0 {| rt_collateral := zero_amount; rt_opening_fee := zero_amount; rt_user_funds_needed := zero_amount |};
  Ok (r.1, {| tot_collateral := decimal_String (rt_collateral r.2); tot_opening_fee := decimal_String (rt_opening_fee r.2);
              tot_user_funds_needed := decimal_String (rt_user_funds_needed r.2) |}).

Section Worker.
Context {SL : SolanaLib} {CL : ChallengeLib} {C : Type}.
Inductive plan_worker_op :=
| PwNow
| PwStopped
| PwClaim (worker : string) (lease now : Z)
| PwCleanup (now limit : Z)
| PwWait (duration : Z)
| PwProgress (progress : ExecutionPlanBuildProgress)
| PwCatalog (event : string)
| PwSnapshots (refs : list (Z * string))
| PwDecrypt (wallet : Z) (apiKey apiSecret : string)
| PwNewClient (credential : option (string * string))
| PwBalances (refs : list WalletBalanceReference)
| PwPreview (o : preview_op (C := C))
| PwReconnectRequired (wallet : Z) (address : string) (credential : Z)
| PwHeartbeat
| PwMarkReady (req : MarkExecutionPlanReadyRequest)
| PwMarkFailed (plan worker code : string) (now : Z).
(** [PwStopped]: whether the context has ended.  [PwHeartbeat]: the error the heartbeat set
    before any stage did.  A market service that is not configured replies [None]. *)
Definition plan_worker_resp (o : plan_worker_op) : Type :=
  match o with
  | PwNow => Z
  | PwStopped => bool
  | PwClaim _ _ _ => result EPError (option ExecutionPlan)
  | PwCleanup _ _ => result EPError Z
  | PwWait _ => bool
  | PwProgress _ => result EPError unit
  | PwCatalog _ => result Code (option GetOrderEventCatalogResponse)
  | PwSnapshots _ => result CWError (list WalletConnectionSnapshot)
  | PwDecrypt _ _ _ => result go_error (string * string)
  | PwNewClient _ => result go_error C
  | PwBalances _ => result go_error (list WalletBalanceResult)
  | PwPreview o => preview_resp o
  | PwReconnectRequired _ _ _ => unit
  | PwHeartbeat => option EPError
  | PwMarkReady _ => result EPError unit
  | PwMarkFailed _ _ _ _ => result EPError unit
  end.
Local Abbreviation prog := (program plan_worker_resp).
Local Abbreviation call := (Prog.call (resp := plan_worker_resp)).
(** A build ends with a failure, because the lease could not be renewed, or in a panic. *)
Inductive build_end := BuildFailed (err : plan_build_error) | StageLost (err : EPError) | BuildPanicked (message : string).
Local Abbreviation build A := (prog (result build_end A)).
Definition fail {A} (code : string) : build A := mret (Err (BuildFailed (executionPlanBuildFailure code))).
Definition lift_build {A} (r : result plan_build_error A) : build A := mret match r with Ok a => Ok a | Err e => Err (BuildFailed e) end.
Fixpoint embed {A} (p : program (preview_resp (C := C)) A) : prog A :=
  match p with Ret a => Ret a | Vis o k => Vis (PwPreview o) (λ r, embed (k r)) end.

(** ** The lease guard *)
Definition renew (planID workerID stage : string) (completed : Z) : prog (result EPError unit) :=
  now ← call PwNow;
  call (PwProgress {| bp_plan_id := planID; bp_worker_id := workerID; bp_build_stage := stage; bp_completed_step_count := completed;
                      bp_lease_expires_at := now + executionPlanWorkerLease; bp_now := now |}).
Definition setStage (planID workerID stage : string) (completed : Z) : build unit :=
  r ← renew planID workerID stage completed;
  mret match r with Ok _ => Ok tt | Err e => Err (StageLost e) end.

(** ** Reading *)
Fixpoint read_events (items : list ExecutionPlanItem) (events : gmap string OrderEventCatalog) : build (gmap string OrderEventCatalog) :=
  match items with
  | [] => mret (Ok events)
  | item :: items' =>
      let id := mi_event_condition_id (pi_input item) in
      if bool_decide (is_Some (events !! id)) then read_events items' events
      else
        response ← call (PwCatalog id);
        match response with
        | Err code => fail (match code with InvalidArgument => executionPlanFailureMarketsInvalid | _ => executionPlanFailureMarketsUnavailable end)
        | Ok (Some {| ocr_fetched_at := fetchedAt; ocr_event := Some event |}) =>
            if (fetchedAt <=? 0) || negb (bool_decide (oc_event_condition_id event = id)) then fail executionPlanFailureMarketsInvalid
            else read_events items' (<[id := event]> events)
        | Ok _ => fail executionPlanFailureMarketsInvalid
        end
  end.
Definition readExecutionPlanCatalogs (configured : bool) (items : list ExecutionPlanItem) : build (list executionPlanCatalogItem) :=
  if negb configured then fail executionPlanFailureMarketsUnavailable
  else
    events ←! read_events items ∅;
    match index_events events with
    | None => fail executionPlanFailureMarketsInvalid
    | Some indexes => lift_build (catalog_items indexes items)
    end.
Fixpoint read_connections (wallets : list ExecutionPlanWallet) (snapshots : list WalletConnectionSnapshot) : build (list (executionPlanWalletContext C)) :=
  match wallets, snapshots with
  | wallet :: wallets', snapshot :: snapshots' =>
      if negb (bool_decide (ws_state snapshot = ConnectionStateConnected)) then fail executionPlanFailureWalletNotConnected
      else match ws_active_credential snapshot with
      | None => fail executionPlanFailureCredentialUnavailable
      | Some credential =>
          if negb (bool_decide (sc_state credential = CredentialStateActive)) || (sc_version credential <=? 0) then fail executionPlanFailureCredentialUnavailable
          else
            keys ← call (PwDecrypt (sc_wallet_id credential) (sc_api_key_ciphertext credential) (sc_api_secret_ciphertext credential));
            match keys with
            | Err _ => fail executionPlanFailureCredentialUnavailable
            | Ok keys =>
                client ← call (PwNewClient (Some keys));
                match client with
                | Err _ => fail executionPlanFailureCredentialUnavailable
                | Ok client =>
                    rest ←! read_connections wallets' snapshots';
                    mret (Ok ({| wc_input := {| ew_wallet_id := pwi_wallet_id (pw_input wallet); ew_address := pwi_address (pw_input wallet);
                                   ew_usdc_balance := ""; ew_sol_balance := ""; ew_client := Some client |};
                                 wc_observation := {| wo_ordinal := pw_ordinal wallet; wo_connected_at := ws_connected_at snapshot; wo_snapshot := {|
                                   sn_connection_state := connection_state_text (ws_state snapshot); sn_connection_warning_code := ws_warning_code snapshot;
                                   sn_credential_version := sc_version credential; sn_sol := no_balance; sn_usdc_mint := ""; sn_usdc := no_balance;
                                   sn_usdc_token_account_count := 0; sn_status := ""; sn_reason_code := "" |} |};
                                 wc_active_credential_id := sc_id credential |} :: rest))
                end
            end
      end
  | _, _ => mret (Ok [])
  end.
Definition readExecutionPlanWalletConnections (wallets : list ExecutionPlanWallet) : build (list (executionPlanWalletContext C)) :=
  let refs := (λ w, (pwi_wallet_id (pw_input w), pwi_address (pw_input w))) <$> wallets in
  reply ← call (PwSnapshots refs);
  match reply with
  | Err _ => fail executionPlanFailureStoreUnavailable
  | Ok snapshots =>
      if negb (validateStoredConnectionSnapshots refs snapshots) then fail executionPlanFailurePreviewInvalid
      else read_connections wallets snapshots
  end.
Definition readExecutionPlanWalletBalances (wallets : list (executionPlanWalletContext C)) : build (list (executionPlanWalletContext C)) :=
  reply ← call (PwBalances ((λ w, {| wbr_wallet_id := ew_wallet_id (wc_input w); wbr_address := ew_address (wc_input w) |}) <$> wallets));
  match reply with
  | Err _ => fail executionPlanFailureBalanceUnavailable
  | Ok results =>
      if negb (Nat.eqb (length results) (length wallets)) then fail executionPlanFailureBalanceUnavailable
      else lift_build (add_balances wallets results)
  end.
(** The failure code of a build of the preview; a credential the provider refuses is to be
    connected again. *)
Definition classifyExecutionPreviewBuildFailure (err : build_error) (wallets : list (executionPlanWalletContext C)) : prog string :=
  let invalid e := bool_decide (classifyWormError (Some (preview_go_error e)) = wormErrorInvalidResponse) in
  match err with
  | ExecutionPreviewWalletExposurePhaseError ordinal walletID e =>
      if isWormAuthenticationError (Some (preview_go_error e)) then
        let index := ordinal - 1 in
        match if index <? 0 then None else wallets !! Z.to_nat index with
        | Some wallet =>
            if negb (ew_wallet_id (wc_input wallet) =? walletID) || (wc_active_credential_id wallet <=? 0) then mret executionPlanFailurePreviewInvalid
            else
              _ ← call (PwReconnectRequired (ew_wallet_id (wc_input wallet)) (ew_address (wc_input wallet)) (wc_active_credential_id wallet));
              mret executionPlanFailureCredentialUnavailable
        | None => mret executionPlanFailurePreviewInvalid
        end
      else mret (if invalid e then executionPlanFailureWormResponseInvalid else executionPlanFailureWormReadUnavailable)
  | ExecutionPreviewEstimatePhaseError e => mret (if invalid e then executionPlanFailureWormResponseInvalid else executionPlanFailureWormReadUnavailable)
  | BuildError _ | BuildContextError _ => mret executionPlanFailurePreviewInvalid
  end.

(** ** Building *)
Definition plan_complete (plan : ExecutionPlan) : bool :=
  negb (bool_decide (ep_id plan = EmptyString)) && (0 <? ep_wallet_count plan) && (0 <? ep_item_count plan)
  && (Z.of_nat (length (ep_wallets plan)) =? ep_wallet_count plan) && (Z.of_nat (length (ep_items plan)) =? ep_item_count plan)
  && (ep_wallet_count plan <=? max_int64 / ep_item_count plan) && (ep_wallet_count plan * ep_item_count plan =? ep_total_step_count plan).
Definition build_preview (fuel : nat) (plan : ExecutionPlan) (wallets : list (executionPlanWalletContext C)) (items : list executionPlanCatalogItem) :
    prog (option (result build_end ExecutionPreviewResult)) :=
  r ← embed (Build fuel {| in_wallets := wc_input <$> wallets; in_items := ct_input <$> items |});
  match r with
  | None => mret None
  | Some (Err (Panicked message)) => mret (Some (Err (BuildPanicked message)))
  | Some (Err (Returned err)) =>
      code ← classifyExecutionPreviewBuildFailure err wallets;
      mret (Some (Err (BuildFailed (executionPlanBuildFailure code))))
  | Some (Ok preview) =>
      mret (Some (if negb (Nat.eqb (length (er_estimates preview)) (length items)) || negb (Z.of_nat (length (er_steps preview)) =? ep_total_step_count plan)
                  then Err (BuildFailed (executionPlanBuildFailure executionPlanFailurePreviewInvalid)) else Ok preview))
  end.
Definition finish_build (plan : ExecutionPlan) (workerID : string) (wallets : list (executionPlanWalletContext C)) (items : list executionPlanCatalogItem)
    (preview : ExecutionPreviewResult) : build MarkExecutionPlanReadyRequest :=
  match executionPlanItemObservations items (er_estimates preview), executionPlanStepsAndTotals (er_steps preview) with
  | Some itemObservations, Ok (steps, totals) =>
      _ ←! setStage (ep_id plan) workerID executionPlanStageFinalizing (Z.of_nat (length steps));
      now ← call PwNow;
      mret (Ok {| mr_plan_id := ep_id plan; mr_worker_id := workerID; mr_wallets := wc_observation <$> wallets; mr_items := itemObservations;
                  mr_steps := steps; mr_totals := totals; mr_now := now |})
  | _, _ => fail executionPlanFailurePreviewInvalid
  end.
(** [None]: the fuel of the page loops of the preview is exhausted. *)
Definition constructExecutionPlanSnapshot (fuel : nat) (configured : bool) (workerID : string) (plan : ExecutionPlan) :
    prog (option (result build_end MarkExecutionPlanReadyRequest)) :=
  if negb (plan_complete plan) then mret (Some (Err (BuildFailed (executionPlanBuildFailure executionPlanFailurePreviewInvalid))))
  else
    inputs ← (_ ←! setStage (ep_id plan) workerID executionPlanStageCatalogs 0;
              items ←! readExecutionPlanCatalogs configured (ep_items plan);
              _ ←! setStage (ep_id plan) workerID executionPlanStageConnections 0;
              wallets ←! readExecutionPlanWalletConnections (ep_wallets plan);
              _ ←! setStage (ep_id plan) workerID executionPlanStageBalances 0;
              wallets ←! readExecutionPlanWalletBalances wallets;
              client ← call (PwNewClient None);
              match client with
              | Err _ => fail executionPlanFailurePreviewInvalid
              | Ok _ =>
                  _ ←! setStage (ep_id plan) workerID executionPlanStagePreview 0;
                  mret (Ok (items, wallets))
              end);
    match inputs with
    | Err e => mret (Some (Err e))
    | Ok (items, wallets) =>
        preview ← build_preview fuel plan wallets items;
        match preview with
        | None => mret None
        | Some (Err e) => mret (Some (Err e))
        | Some (Ok preview) => r ← finish_build plan workerID wallets items preview; mret (Some r)
        end
    end.
(** What becomes of a build whose plan could not be completed. *)
Definition ready_failure (err : EPError) : option string :=
  match err with
  | ErrExecutionPlanBuildLease => None
  | ErrExecutionPlanRevision | ErrExecutionPlanCombinationChanged => Some executionPlanFailureSourceChanged
  | ErrExecutionPlanWalletSelectionChanged => Some executionPlanFailureWalletSelectionChanged
  | ErrExecutionPlanWalletConnectionChanged => Some executionPlanFailureWalletNotConnected
  | ErrExecutionPlanCredentialChanged => Some executionPlanFailureCredentialUnavailable
  | _ => Some executionPlanFailureStoreUnavailable
  end.
(** The error of the guard: the heartbeat's, or that of the stage that was lost. *)
Definition guard_error (heartbeat : option EPError) {A} (r : result build_end A) : option EPError :=
  match heartbeat, r with Some e, _ => Some e | None, Err (StageLost e) => Some e | None, _ => None end.
Definition mark_failed (plan : ExecutionPlan) (workerID : string) (err : plan_build_error) : prog unit :=
  stopped ← call PwStopped;
  if stopped : bool then mret tt
  else
    now ← call PwNow;
    _ ← call (PwMarkFailed (ep_id plan) workerID (executionPlanFailureCode err) now);
    mret tt.
Definition complete_plan (plan : ExecutionPlan) (workerID : string) (req : MarkExecutionPlanReadyRequest) : prog unit :=
  stopped ← call PwStopped;
  if stopped : bool then mret tt
  else
    r ← call (PwMarkReady req);
    match r with
    | Ok _ => mret tt
    | Err e => match ready_failure e with
               | None => mret tt
               | Some code => mark_failed plan workerID (executionPlanBuildFailure code)
               end
    end.
(** How the goroutine of a worker is left: by a return, or by a panic that nothing recovers and
    that ends the process. *)
Inductive goroutine_end := Completes | Crashes (message : string).
Definition buildClaimedExecutionPlan (fuel : nat) (configured : bool) (workerID : string) (plan : ExecutionPlan) : prog (option goroutine_end) :=
  built ← constructExecutionPlanSnapshot fuel configured workerID plan;
  match built with
  | None => mret None
  | Some (Err (BuildPanicked message)) => mret (Some (Crashes message))
  | Some r =>
      heartbeat ← call PwHeartbeat;
      _ ← (match guard_error heartbeat r with
           | Some ErrExecutionPlanBuildLease => mret tt
           | Some _ => mark_failed plan workerID (executionPlanBuildFailure executionPlanFailureStoreUnavailable)
           | None => match r with
                     | Ok req => complete_plan plan workerID req
                     | Err (BuildFailed err) => mark_failed plan workerID err
                     | Err (StageLost _) | Err (BuildPanicked _) => mret tt
                     end
           end);
      mret (Some Completes)
  end.
(** The loop, for a number of rounds; a time of zero is the zero time.  A build that panics ends
    the process; [None]: the fuel of the page loops is exhausted. *)
Fixpoint runExecutionPlanWorker (rounds fuel : nat) (configured : bool) (workerID : string) (nextCleanup : Z) : prog (option goroutine_end) :=
  match rounds with
  | O => mret (Some Completes)
  | S rounds' =>
      stopped ← call PwStopped;
      if stopped : bool then mret (Some Completes)
      else
        now ← call PwNow;
        next ← (if (nextCleanup =? 0) || (nextCleanup <=? now) then _ ← call (PwCleanup now executionPlanCleanupLimit); mret (now + executionPlanCleanupInterval)
                else mret nextCleanup);
        claimed ← call (PwClaim workerID executionPlanWorkerLease now);
        match claimed with
        | Err _ =>
            stopped ← call PwStopped;
            if stopped : bool then mret (Some Completes)
            else waited ← call (PwWait executionPlanWorkerPollInterval); if waited : bool then runExecutionPlanWorker rounds' fuel configured workerID next else mret (Some Completes)
        | Ok None =>
            waited ← call (PwWait executionPlanWorkerPollInterval);
            if waited : bool then runExecutionPlanWorker rounds' fuel configured workerID next else mret (Some Completes)
        | Ok (Some plan) =>
            ended ← buildClaimedExecutionPlan fuel configured workerID plan;
            match ended with
            | Some Completes => runExecutionPlanWorker rounds' fuel configured workerID next
            | other => mret other
            end
        end
  end.
End Worker.
