(* ===== verification/PlanWorkerLaws.v ===== *)
(** * Execution plans: what the worker reports

    The request a worker builds is acceptable to the store, and its totals are exact. *)

From S2P Require Import Prelude Prog Sql CashOutTypes CashOutStages CashOutWorker ConnectionTypes ConnectionStore ConnectionService Decimal.
From S2P Require Import Preview PreviewExposure PreviewSimulation Combination Plan PlanStore PlanAccept PlanPreview Solana PlanWorker.
From stdpp Require Import base tactics option list list_numbers sorting strings gmap.
From Stdlib Require Import ZArith QArith Lia Ascii.
#[local] Open Scope Z_scope.

(** ** Totals *)
Lemma add_decimal_ok total raw d : 0 ≤ coefficient total → addExecutionPlanDecimal total raw = Ok d →
  good d ∧ (amount d == amount total + text_amount raw)%Q.
Proof.
  intros Hc H. unfold addExecutionPlanDecimal in H. destruct (parseExecutionPreviewDecimal raw) as [v|] eqn:Ev; [cbn [mbind result_bind] in H|done].
  unfold executionPreviewAlignedCoefficients in H. set (s := Nat.max (scale total) (scale v)) in *.
  pose proof (parse_good _ _ Ev) as [_ [Hv _]].
  assert (0 ≤ executionPreviewScaleCoefficient total s + executionPreviewScaleCoefficient v s) as Hsum.
  { unfold executionPreviewScaleCoefficient. pose proof (Z.pow_nonneg 10 (Z.of_nat (s - scale total))). pose proof (Z.pow_nonneg 10 (Z.of_nat (s - scale v))).
    repeat case_match; nia. }
  split; [by eapply parse_good|]. destruct (print_spells {| coefficient := executionPreviewScaleCoefficient total s + executionPreviewScaleCoefficient v s; scale := s |} Hsum)
    as (i & f & Hsp & Hn & Hf). rewrite (parse_spells _ i f) in H; [|done|].
  2: { apply parse_inv in H as (i' & f' & _ & Hl & _). done. }
  injection H as <-. rewrite Hn, Hf. cbn [coefficient scale]. rewrite drop_zeros_amount by done. unfold text_amount. rewrite Ev.
  rewrite (scaled_amount total s), (scaled_amount v s) by lia. unfold amount. cbn [coefficient scale]. by rewrite sum_den.
Qed.
(** The sum of a text over the READY steps. *)
Definition ready_sum (text : ExecutionPreviewStep → string) (steps : list ExecutionPreviewStep) : Q :=
  foldr (λ s q, ((if bool_decide (es_outcome s = ExecutionPreviewOutcomeReady) then text_amount (text s) else 0) + q)%Q) 0%Q steps.
Definition totals_good (t : running_totals) : Prop := good (rt_collateral t) ∧ good (rt_opening_fee t) ∧ good (rt_user_funds_needed t).
Record totals_added (steps : list ExecutionPreviewStep) (t t' : running_totals) : Prop := {
  td_good : totals_good t';
  td_collateral : (amount (rt_collateral t') == amount (rt_collateral t) + ready_sum es_funds steps)%Q;
  td_fee : (amount (rt_opening_fee t') == amount (rt_opening_fee t) + ready_sum es_fee_amount steps)%Q;
  td_needed : (amount (rt_user_funds_needed t') == amount (rt_user_funds_needed t) + ready_sum es_user_funds_needed steps)%Q }.
Definition plan_step_of (s : ExecutionPreviewStep) : ExecutionPlanStep :=
  let ready := bool_decide (es_outcome s = ExecutionPreviewOutcomeReady) in {|
  sp_ordinal := es_ordinal s; sp_wallet_ordinal := es_wallet_ordinal s; sp_item_ordinal := es_market_ordinal s;
  sp_disposition := if ready then ExecutionPlanStepDispositionReady else ExecutionPlanStepDispositionSkipped;
  sp_reason_code := if ready then "" else es_outcome s; sp_projected_usdc_before := es_usdc_balance_before s;
  sp_projected_usdc_after := es_usdc_balance_after s |}.
Lemma good_coefficient d : good d → 0 ≤ coefficient d.
Proof. by intros [_ [? _]]. Qed.
Lemma steps_and_totals_ok steps index t steps' t' : totals_good t → steps_and_totals steps index t = Ok (steps', t') →
  steps' = plan_step_of <$> steps ∧ totals_added steps t t'.
Proof.
  revert index t steps' t'. induction steps as [|s steps IH]; intros index t steps' t' Hg H; cbn [steps_and_totals] in H.
  { injection H as <- <-. split; [done|]. split; [done|unfold ready_sum; cbn [foldr]; by rewrite Qplus_0_r..]. }
  match type of H with (require ?b _ ≫= _) = _ => destruct b end; [cbn [require mbind result_bind] in H|done]. cbv zeta in H. rewrite fmap_cons. unfold plan_step_of at 1. cbv zeta.
  case_bool_decide as Hr.
  - destruct (add_step s t) as [t1|] eqn:Ea; [cbn [mbind result_bind orb require] in H|done].
    destruct (steps_and_totals steps _ t1) as [[rest t2]|] eqn:Er; [cbn [mbind result_bind fst snd] in H|done]. injection H as <- <-.
    unfold add_step in Ea. destruct Hg as (G1 & G2 & G3).
    destruct (addExecutionPlanDecimal (rt_collateral t) _) as [c|] eqn:E1; [cbn [mbind result_bind] in Ea|done].
    destruct (addExecutionPlanDecimal (rt_opening_fee t) _) as [f|] eqn:E2; [cbn [mbind result_bind] in Ea|done].
    destruct (addExecutionPlanDecimal (rt_user_funds_needed t) _) as [n|] eqn:E3; [cbn [mbind result_bind] in Ea|done]. injection Ea as <-.
    apply add_decimal_ok in E1 as [H1 A1]; [|by apply good_coefficient]. apply add_decimal_ok in E2 as [H2 A2]; [|by apply good_coefficient].
    apply add_decimal_ok in E3 as [H3 A3]; [|by apply good_coefficient]. apply IH in Er as [-> [T1 T2 T3 T4]]; [|by split_and!]. split; [done|].
    cbn [rt_collateral rt_opening_fee rt_user_funds_needed] in *. split; [done|..]; unfold ready_sum in *; cbn [foldr]; rewrite bool_decide_true by done.
    + by rewrite T2, A1, Qplus_assoc.
    + by rewrite T3, A2, Qplus_assoc.
    + by rewrite T4, A3, Qplus_assoc.
  - cbn [mbind result_bind orb] in H. destruct (isCanonicalNonEmptyString (es_outcome s)) eqn:Ec; [cbn [require mbind result_bind] in H|done].
    destruct (steps_and_totals steps _ t) as [[rest t2]|] eqn:Er; [cbn [mbind result_bind fst snd] in H|done]. injection H as <- <-.
    apply IH in Er as [-> [T1 T2 T3 T4]]; [|done]. split; [done|]. split; [done|..]; unfold ready_sum in *; cbn [foldr]; rewrite bool_decide_false by done; by rewrite Qplus_0_l.
Qed.
Record totals_exact (steps : list ExecutionPreviewStep) (t : plan_totals) : Prop := {
  tx_texts : ∀ v, v ∈ totals_texts t → decimal_text_ok v;
  tx_collateral : (text_amount (tot_collateral t) == ready_sum es_funds steps)%Q;
  tx_fee : (text_amount (tot_opening_fee t) == ready_sum es_fee_amount steps)%Q;
  tx_needed : (text_amount (tot_user_funds_needed t) == ready_sum es_user_funds_needed steps)%Q }.
Lemma steps_totals_exact steps steps' t : executionPlanStepsAndTotals steps = Ok (steps', t) → steps' = plan_step_of <$> steps ∧ totals_exact steps t.
Proof.
  unfold executionPlanStepsAndTotals. intros H. destruct (steps_and_totals _ _ _) as [[l r]|] eqn:E; [cbn [mbind result_bind fst snd] in H|done]. injection H as <- <-.
  assert (good zero_amount) as Hz by (split; [vm_compute; reflexivity|split; [cbn; lia|by left]]).
  apply steps_and_totals_ok in E as [-> [(G1 & G2 & G3) T2 T3 T4]]; [|by split_and!]. split; [done|]. split.
  - intros v Hv. unfold totals_texts in Hv. cbn in Hv. repeat (apply elem_of_cons in Hv as [->|Hv]; [by apply good_text_ok|]). by apply not_elem_of_nil in Hv.
  - cbn [tot_collateral]. by rewrite good_text, T2, Qplus_0_l.
  - cbn [tot_opening_fee]. by rewrite good_text, T3, Qplus_0_l.
  - cbn [tot_user_funds_needed]. by rewrite good_text, T4, Qplus_0_l.
Qed.

Section Worker.
Context {SL : SolanaLib} {CL : ChallengeLib} {C : Type}.
Abbreviation worker_log := (list {o : plan_worker_op (C := C) & plan_worker_resp o}).

(** ** Programs *)
Lemma try_runs {E A B} (k : A → program plan_worker_resp (result E B)) p (log : worker_log) b :
  runs (prog_try k p) log (Ok b) → ∃ l1 a l2, log = l1 ++ l2 ∧ runs p l1 (Ok a) ∧ runs (k a) l2 (Ok b).
Proof. unfold prog_try. rewrite runs_bind. intros (l1 & [a|e] & l2 & -> & H1 & H2); [by exists l1, a, l2|by destruct H2]. Qed.
Lemma embed_runs {A} (p : program (preview_resp (C := C)) A) (log : worker_log) a : runs (embed p) log a → ∃ l, runs p l a.
Proof.
  revert log. induction p as [b|o k IH]; intros log H; cbn in H.
  - destruct H as [_ ->]. by exists [].
  - destruct H as (r & rest & -> & H). destruct (IH r rest H) as [l Hl]. exists (existT o r :: l). by exists r, l.
Qed.
Lemma fail_runs {A} code (log : worker_log) (a : A) : ¬ runs (fail code) log (Ok a).
Proof. by intros [_ ?]. Qed.

(** ** Catalogs *)
(** The market service named a backend of at most 100 bytes. *)
Definition short_backends (log : worker_log) : Prop := ∀ id response event market, existT (PwCatalog id) (Ok (Some response)) ∈ log →
  ocr_event response = Some event → Some market ∈ oc_markets event → (String.length (om_backend market) ≤ 100)%nat.
Lemma read_events_ok items events (log : worker_log) events' id event : runs (read_events items events) log (Ok events') → events' !! id = Some event →
  events !! id = Some event ∨ ∃ response, existT (PwCatalog id) (Ok (Some response)) ∈ log ∧ ocr_event response = Some event.
Proof.
  revert events log. induction items as [|item items IH]; intros events log H He; cbn [read_events] in H.
  { destruct H as [_ [= ->]]. by left. }
  cbv zeta in H. case_bool_decide; [by eapply IH|]. apply runs_bind in H as (l1 & reply & l2 & -> & Hc & H). pose proof (runs_call (PwCatalog _) _ reply Hc) as ->. clear Hc.
  destruct reply as [[[fetched [ev|]]|]|code]; try by apply fail_runs in H. destruct (_ || _) in H; [by apply fail_runs in H|].
  apply (IH _ _ H) in He as [[[<- <-]|[_ He]]%lookup_insert_Some|(r & Hin & Hr)]; [|by left|].
  - right. eexists. split; [apply elem_of_app; left; constructor|done].
  - right. exists r. split; [apply elem_of_app; by right|done].
Qed.
Lemma index_markets_ok event markets index index' id market : index_markets event markets index = Some index' → index' !! id = Some market →
  index !! id = Some market ∨ (Some market ∈ markets ∧ om_backend market = trim_space (om_backend market) ∧ to_lower (om_backend market) = om_backend market).
Proof.
  revert index. induction markets as [|[m|] markets IH]; intros index H Hm; cbn [index_markets] in H; [injection H as ->; by left| |done].
  cbv zeta in H. destruct (negb _ || negb _) in H; [done|]. case_bool_decide; [done|]. case_bool_decide as E1; [cbn [negb orb] in H|done].
  case_bool_decide as E2; [cbn [negb] in H|done]. apply (IH _ H) in Hm as [[[<- <-]|[_ Hm]]%lookup_insert_Some|(Hin & Hb)]; [|by left|].
  - right. split; [by constructor|]. rewrite E1 in E2. by split.
  - right. split; [by constructor|done].
Qed.
(** [short]: the backends of the catalogs are short enough for the store. *)
Record item_shape (short : Prop) (item : ExecutionPlanItem) (ct : executionPlanCatalogItem) : Prop := {
  ih_ordinal : io_ordinal (ct_observation ct) = pi_ordinal item;
  ih_backend : is_backend (io_snapshot (ct_observation ct)) ≠ EmptyString
    ∧ (short → (String.length (trim_space (is_backend (io_snapshot (ct_observation ct)))) ≤ 100)%nat);
  ih_funds : is_funds (io_snapshot (ct_observation ct)) ∈ ["5"; "1"; "0"] ∧ ei_funds (ct_input ct) = is_funds (io_snapshot (ct_observation ct));
  ih_priced : ei_selectable (ct_input ct) = true → executionPreviewFundsForBackend (ei_backend (ct_input ct)) = (ei_funds (ct_input ct), true);
  ih_leverage : is_leverage (io_snapshot (ct_observation ct)) = "1";
  ih_reason : (String.length (trim_space (is_reason_code (io_snapshot (ct_observation ct)))) ≤ 100)%nat }.
Lemma catalog_shape (short : Prop) item backend funds selectable code : backend ≠ EmptyString → (short → (String.length (trim_space backend) ≤ 100)%nat) → funds ∈ ["5"; "1"; "0"] →
  (selectable = true → executionPreviewFundsForBackend backend = (funds, true)) → (String.length (trim_space code) ≤ 100)%nat →
  item_shape short item (catalog_item item backend funds selectable code).
Proof. intros. by split. Qed.
Lemma unknown_backend_ok : executionPlanUnknownBackend ≠ EmptyString ∧ (String.length (trim_space executionPlanUnknownBackend) ≤ 100)%nat.
Proof. split; [by unfold executionPlanUnknownBackend|]. apply Nat.leb_le. vm_compute. reflexivity. Qed.
Lemma funds_known backend funds supported : executionPreviewFundsForBackend backend = (funds, supported) →
  (if supported : bool then funds else "0") ∈ ["5"; "1"; "0"].
Proof.
  unfold executionPreviewFundsForBackend. destruct (bool_decide _); [intros [= <- <-]; by left|]. destruct (bool_decide _); intros [= <- <-]; [by right; left|by right; right; left].
Qed.
Lemma canonical_trim v : isCanonicalNonEmptyString v = true → v ≠ EmptyString ∧ trim_space v = v.
Proof. unfold isCanonicalNonEmptyString. intros H. bool_prop. split; [done|by symmetry]. Qed.
Lemma market_item_shape (short : Prop) item market ct : market_item item market = Ok ct → om_backend market = trim_space (om_backend market) →
  to_lower (om_backend market) = om_backend market → (short → (String.length (om_backend market) ≤ 100)%nat) → item_shape short item ct.
Proof.
  intros H Ht Hlow Hlen. unfold market_item in H. cbv zeta in H. destruct (executionPlanSelectedOutcome market _) as [outcome|]; [cbn [of_option mbind result_bind] in H|done].
  rewrite <- Ht, Hlow in H. set (backend := if bool_decide (om_backend market = EmptyString) then executionPlanUnknownBackend else om_backend market) in *.
  assert (backend ≠ EmptyString ∧ (short → (String.length (trim_space backend) ≤ 100)%nat)) as [Hb Hbl].
  { unfold backend. destruct (bool_decide_reflect (om_backend market = EmptyString)) as [_|Hne]; [split; [|intros _]; apply unknown_backend_ok|]. split; [done|]. by rewrite <- Ht. }
  destruct (executionPreviewFundsForBackend backend) as [funds supported] eqn:Ef.
  assert ((if supported : bool then funds else "0") ∈ ["5"; "1"; "0"]) as Hf.
  { by eapply funds_known. }
  match type of H with (if ?b then _ else _) = _ => destruct b eqn:Es end.
  - apply andb_true_iff in Es as [_ ->]. match type of H with (require ?b _ ≫= _) = _ => destruct b end; [cbn [require mbind result_bind] in H|done]. injection H as <-. apply catalog_shape; try done. cbn. lia.
  - match type of H with (require ?b _ ≫= _) = _ => destruct b eqn:E end; [cbn [require mbind result_bind] in H|done]. injection H as <-.
    apply andb_true_iff in E as [[_ E1]%canonical_trim E2%Nat.leb_le]. apply catalog_shape; try done. by rewrite E1.
Qed.
Lemma catalogs_shape configured items (log : worker_log) cts : runs (readExecutionPlanCatalogs configured items) log (Ok cts) →
  Forall2 (item_shape (short_backends log)) items cts.
Proof.
  set (short := short_backends log). intros H. assert (short → short_backends log) as Hs by done. clearbody short. unfold readExecutionPlanCatalogs in H. destruct configured; cbn [negb] in H; [|by apply fail_runs in H].
  apply try_runs in H as (l1 & events & l2 & -> & He & H). destruct (index_events events) as [indexes|] eqn:Ei; [|by apply fail_runs in H].
  unfold lift_build in H. apply runs_ret in H as [-> H]. destruct (catalog_items indexes items) as [l|] eqn:Ec; [|done]. injection H as ->.
  assert (∀ e m id market, indexes !! e = Some m → m !! id = Some market →
    om_backend market = trim_space (om_backend market) ∧ to_lower (om_backend market) = om_backend market ∧ (short → (String.length (om_backend market) ≤ 100)%nat)) as Hm.
  { intros e m id market H1 H2. unfold index_events in Ei. case_bool_decide; [|done]. injection Ei as <-. rewrite lookup_omap in H1.
    destruct (events !! e) as [event|] eqn:Ee; [cbn in H1|done]. unfold indexExecutionPlanCatalogMarkets in H1. destruct (negb _) in H1; [done|].
    eapply index_markets_ok in H1 as [?|(Hin & Hb & Hl)]; [by rewrite lookup_empty in *| |exact H2]. split_and!; [done|done|intros Hshort].
    eapply read_events_ok in He as [?|(response & Hlog & Hr)]; [by rewrite lookup_empty in *| |exact Ee]. eapply (Hs Hshort); [apply elem_of_app; left; exact Hlog|done|done]. }
  clear He Hs Ei. revert l Ec. induction items as [|item items IH]; intros l Ec; cbn [catalog_items] in Ec; [injection Ec as <-; constructor|]. cbv zeta in Ec.
  match type of Ec with (?x ≫= _) = _ => destruct x as [ct|] eqn:Ex end; [cbn [mbind result_bind] in Ec|done].
  destruct (catalog_items indexes items) as [rest|]; [cbn [mbind result_bind] in Ec|done]. injection Ec as <-. constructor; [|by apply IH].
  destruct (indexes !! mi_event_condition_id (pi_input item)) as [m|] eqn:E1; cbn in Ex.
  2: { injection Ex as <-. apply catalog_shape; [apply unknown_backend_ok|intros _; apply unknown_backend_ok|by right; right; left|done|apply Nat.leb_le; vm_compute; reflexivity]. }
  destruct (m !! mi_market_condition_id (pi_input item)) as [market|] eqn:E2.
  2: { injection Ex as <-. apply catalog_shape; [apply unknown_backend_ok|intros _; apply unknown_backend_ok|by right; right; left|done|apply Nat.leb_le; vm_compute; reflexivity]. }
  destruct (Hm _ _ _ _ E1 E2) as (H1 & H2 & H3). by eapply market_item_shape.
Qed.

(** ** Wallets *)
(** A stored connection that is CONNECTED has the time it was made. *)
Definition connected_times (log : worker_log) : Prop := ∀ refs snapshots s, existT (PwSnapshots refs) (Ok snapshots) ∈ log → s ∈ snapshots →
  ws_state s = ConnectionStateConnected → ws_connected_at s ≠ 0.
(** What the balance adapter promises of a result. *)
Record promised (w : WalletBalanceResult) : Prop := {
  pm_status : wb_status w = walletBalanceStatus (wb_sol w) (wb_usdc w);
  pm_unavailable : Solana.available (wb_sol w) = false → bo_observed_slot (wb_sol w) = 0 ∧ (String.length (trim_space (bo_error_code (wb_sol w))) ≤ 100)%nat;
  pm_slots : bo_observed_slot (wb_sol w) ≤ max_int64 ∧ bo_observed_slot (wb_usdc w) ≤ max_int64 }.
Definition balances_promised (log : worker_log) : Prop := ∀ refs results w, existT (PwBalances refs) (Ok results) ∈ log → w ∈ results → promised w.
Record connection_shape (wallet : ExecutionPlanWallet) (o : ExecutionPlanWalletObservation) : Prop := {
  cs_ordinal : wo_ordinal o = pw_ordinal wallet;
  cs_connected : sn_connection_state (wo_snapshot o) = "CONNECTED" ∧ wo_connected_at o ≠ 0;
  cs_version : 0 < sn_credential_version (wo_snapshot o);
  cs_warning : (String.length (trim_space (sn_connection_warning_code (wo_snapshot o))) ≤ 100)%nat;
  cs_reason : sn_reason_code (wo_snapshot o) = EmptyString }.
Lemma connections_shape wallets snapshots (log : worker_log) wcs : runs (read_connections wallets snapshots) log (Ok wcs) → length wallets = length snapshots →
  (∀ s, s ∈ snapshots → ws_warning_code s = trim_space (ws_warning_code s) ∧ (String.length (ws_warning_code s) ≤ 100)%nat
     ∧ (ws_state s = ConnectionStateConnected → ws_connected_at s ≠ 0)) →
  Forall2 (λ w wc, connection_shape w (wc_observation wc)) wallets wcs.
Proof.
  revert snapshots log wcs. induction wallets as [|wallet wallets IH]; intros [|s snapshots] log wcs H Hl Hs; try done; cbn [read_connections] in H.
  { destruct H as [_ [= ->]]. constructor. }
  case_bool_decide as Hst; [cbn [negb] in H|by apply fail_runs in H]. destruct (ws_active_credential s) as [credential|]; [|by apply fail_runs in H].
  destruct (negb (bool_decide (sc_state credential = _)) || (sc_version credential <=? 0)) eqn:Ev; [by apply fail_runs in H|].
  apply runs_bind in H as (l1 & keys & l2 & -> & Hc & H). clear Hc. destruct keys as [keys|]; [|by apply fail_runs in H].
  apply runs_bind in H as (l3 & client & l4 & -> & Hc & H). clear Hc. destruct client as [client|]; [|by apply fail_runs in H].
  apply try_runs in H as (l5 & rest & l6 & -> & Hrest & H). apply runs_ret in H as [-> [= ->]]. destruct (Hs s) as (W1 & W2 & W3); [constructor|].
  apply orb_false_iff in Ev as [_ Ev%Z.leb_gt]. constructor.
  - split; cbn [wc_observation wo_ordinal wo_snapshot wo_connected_at sn_connection_state sn_credential_version sn_connection_warning_code sn_reason_code];
      [done|split; [by rewrite Hst|by apply W3]|done|by rewrite <- W1|done].
  - eapply IH; [exact Hrest|by injection Hl|]. intros x Hx. apply Hs. by constructor.
Qed.
Lemma wallets_connected wallets (log : worker_log) wcs : runs (readExecutionPlanWalletConnections wallets) log (Ok wcs) → connected_times log →
  Forall2 (λ w wc, connection_shape w (wc_observation wc)) wallets wcs.
Proof.
  unfold readExecutionPlanWalletConnections. cbv zeta. intros H Ht. apply runs_bind in H as (l1 & reply & l2 & -> & Hc & H).
  pose proof (runs_call (PwSnapshots _) _ reply Hc) as ->. clear Hc. destruct reply as [snapshots|]; [|by apply fail_runs in H].
  destruct (validateStoredConnectionSnapshots _ snapshots) eqn:Ev; [cbn [negb] in H|by apply fail_runs in H].
  unfold validateStoredConnectionSnapshots in Ev. apply andb_true_iff in Ev as [El%Nat.eqb_eq Ev]. rewrite length_fmap in El. rewrite forallb_forall in Ev.
  eapply connections_shape; [exact H|done|]. intros s [k Hk]%list_elem_of_lookup. pose proof (lookup_lt_Some _ _ _ Hk) as Hlt. rewrite <- El in Hlt.
  apply lookup_lt_is_Some in Hlt as [w Hw]. assert (stored_snapshot_ok (pwi_wallet_id (pw_input w), pwi_address (pw_input w)) s = true) as Hok.
  { apply (Ev (_, s)), list_elem_of_In, (list_elem_of_lookup_2 _ k). rewrite lookup_zip_with, list_lookup_fmap, Hw, Hk. done. }
  unfold stored_snapshot_ok in Hok. apply andb_true_iff in Hok as [[[_ W1]%andb_true_iff W2%Nat.leb_le]%andb_true_iff _].
  apply bool_decide_eq_true in W1. split_and!; [done|exact W2|].
  intros Hst. eapply Ht; [apply elem_of_app; left; constructor|by eapply list_elem_of_lookup_2|done].
Qed.
(** What a wallet with its balances reports. *)
Record wallet_shape (wallet : ExecutionPlanWallet) (o : ExecutionPlanWalletObservation) : Prop := {
  wl_connection : connection_shape wallet o;
  wl_balance : ∃ balance, promised balance ∧ validExecutionPlanBalanceObservation (wb_sol balance) Solana.SolanaDecimals false = true
    ∧ validExecutionPlanBalanceObservation (wb_usdc balance) Solana.USDCDecimals true = true ∧ Solana.available (wb_usdc balance) = true
    ∧ sn_sol (wo_snapshot o) = observed_balance (wb_sol balance) ∧ sn_usdc (wo_snapshot o) = observed_balance (wb_usdc balance)
    ∧ sn_usdc_mint (wo_snapshot o) = Solana.SolanaNativeUSDCMint ∧ sn_usdc_token_account_count (wo_snapshot o) = bo_token_account_count (wb_usdc balance)
    ∧ sn_status (wo_snapshot o) = wb_status balance }.
Lemma balances_shape (wallets : list ExecutionPlanWallet) (wcs wcs' : list (executionPlanWalletContext C)) results : length results = length wcs →
  Forall2 (λ w wc, connection_shape w (wc_observation wc)) wallets wcs → (∀ w, w ∈ results → promised w) → add_balances wcs results = Ok wcs' →
  Forall2 (λ w wc, wallet_shape w (wc_observation wc)) wallets wcs'.
Proof.
  intros Hl Hw. revert results wcs' Hl. induction Hw as [|wallet wc wallets wcs Hc Hw IH]; intros [|balance results] wcs' Hl Hp H; try done; cbn [add_balances] in H.
  { injection H as <-. constructor. }
  cbv zeta in H. match type of H with (require ?b _ ≫= _) = _ => destruct b end; [cbn [require mbind result_bind] in H|done].
  match type of H with (require ?b _ ≫= _) = _ => destruct b eqn:Ev end; [cbn [require mbind result_bind] in H|done].
  match type of H with (require ?b _ ≫= _) = _ => destruct b eqn:Eu end; [cbn [require mbind result_bind] in H|done].
  match type of H with (?x ≫= _) = _ => destruct x as [usdc|] end; [cbn [mbind result_bind] in H|done].
  match type of H with (?x ≫= _) = _ => destruct x as [sol|] end; [cbn [mbind result_bind] in H|done].
  destruct (add_balances wcs results) as [rest|] eqn:Er; [cbn [mbind result_bind] in H|done]. injection H as <-. injection Hl as Hl.
  apply andb_true_iff in Ev as [[E1 E2]%andb_true_iff _]. constructor; [|eapply IH; [done| |exact Er]; intros w Hin; apply Hp; by constructor].
  split; [destruct Hc as [C1 C2 C3 C4 C5]; by split|]. exists balance. split; [apply Hp; constructor|]. split_and!; done.
Qed.
Lemma wallets_shape (wallets : list ExecutionPlanWallet) wcs (log : worker_log) wcs' : runs (readExecutionPlanWalletBalances wcs) log (Ok wcs') → balances_promised log →
  Forall2 (λ w wc, connection_shape w (wc_observation wc)) wallets wcs → Forall2 (λ w wc, wallet_shape w (wc_observation wc)) wallets wcs'.
Proof.
  unfold readExecutionPlanWalletBalances. intros H Hp Hw. apply runs_bind in H as (l1 & reply & l2 & -> & Hc & H). pose proof (runs_call (PwBalances _) _ reply Hc) as ->. clear Hc.
  destruct reply as [results|]; [|by apply fail_runs in H]. destruct (Nat.eqb_spec (length results) (length wcs)); [cbn [negb] in H|by apply fail_runs in H].
  apply runs_ret in H as [-> H]. destruct (add_balances wcs results) as [l|] eqn:Ea; [|done]. injection H as ->.
  eapply balances_shape; [done|exact Hw| |exact Ea]. intros w Hin. eapply Hp; [apply elem_of_app; left; constructor|done].
Qed.
End Worker.
