(* ===== verification/PlanRequest.v ===== *)
(** * Execution plans: the request a worker builds

    What the worker reports of the wallets and of the markets passes the validations of the
    store, and the steps are laid out like the plan: the request is acceptable. *)

From S2P Require Import Prelude Prog Sql CashOutTypes CashOutStages CashOutWorker ConnectionTypes ConnectionStore ConnectionService Decimal.
From S2P Require Import Preview PreviewExposure PreviewSimulation Combination Plan PlanStore PlanAccept PlanPreview Solana PlanWorker.
From S2P Require Import PlanWorkerLaws.
From stdpp Require Import base tactics option list list_numbers sorting strings gmap.
From Stdlib Require Import ZArith QArith Lia Ascii.
#[local] Open Scope Z_scope.

(** ** Wallets *)
Lemma codes_ok codes : (∀ c, c ∈ codes → (String.length (trim_space c) ≤ 100)%nat) → valid_codes codes = Ok tt.
Proof.
  induction codes as [|c codes IH]; intros H; cbn [valid_codes]; [done|]. rewrite code_ok by (apply H; constructor). cbn [mbind result_bind].
  apply IH. intros x Hx. apply H. by constructor.
Qed.
Lemma balance_accepted o decimals token : validExecutionPlanBalanceObservation o decimals token = true →
  (Solana.available o = false → bo_observed_slot o = 0 ∧ bo_token_account_count o = 0) →
  validateExecutionPlanBalanceSnapshot (observed_balance o) decimals (bo_token_account_count o) = Ok tt.
Proof.
  unfold validExecutionPlanBalanceObservation, validateExecutionPlanBalanceSnapshot. intros H Hu.
  destruct (bo_decimals o =? decimals) eqn:Ed; [cbn [negb orb] in H|done]. destruct (bo_token_account_count o <? 0) eqn:Ec; [done|].
  cbn [observed_balance bal_decimals bal_availability bal_error_code bal_observed_slot bal_atomic_amount bal_amount]. rewrite Ed.
  apply Z.ltb_ge in Ec. rewrite (proj2 (Z.leb_le 0 _) Ec). cbn [andb require mbind result_bind]. destruct (negb token && _); [done|]. cbn [orb] in H.
  change PlanStore.availabilityAvailable with Solana.availabilityAvailable. change PlanStore.availabilityUnavailable with Solana.availabilityUnavailable.
  unfold Solana.available in Hu. destruct (bool_decide (bo_availability o = Solana.availabilityAvailable)) eqn:Ea.
  - destruct (parseExecutionPreviewDecimal (bo_amount o)) eqn:Ep; [|by rewrite andb_false_r in H]. rewrite andb_true_r in H.
    rewrite (valid_decimal_parse _ _ Ep), andb_true_r. change (PlanStore.executionPlanUnsignedInteger (bo_atomic_amount o)) with (executionPlanUnsignedInteger (bo_atomic_amount o)).
    by rewrite H.
  - destruct (bool_decide (bo_availability o = Solana.availabilityUnavailable)); [|done]. destruct (Hu eq_refl) as [-> ->].
    apply andb_true_iff in H as [[Hc H1]%andb_true_iff H2]. apply canonical_trim in Hc as [Hc _]. rewrite H1, H2, bool_decide_false by done. done.
Qed.
Lemma short_text t : (String.length (trim_space t) <=? 100)%nat = true → (String.length (trim_space t) ≤ 100)%nat.
Proof. apply Nat.leb_le. Qed.
Lemma require_bind {A} b (e : EPError) (k : unit → result EPError A) r : b = true → k tt = r → (require b e ≫= k) = r.
Proof. by intros ->. Qed.
Lemma bind_ok {A} (m : result EPError unit) (k : unit → result EPError A) r : m = Ok tt → k tt = r → (m ≫= k) = r.
Proof. by intros ->. Qed.
Lemma wallet_accepted wallet o : wallet_shape wallet o → validateExecutionPlanWalletObservation o = Ok tt.
Proof.
  intros [[_ [Cs Ca] Cv Cw Cr] (b & [Ps Pu [L1 L2]] & Vs & Vu & Au & Es & Eu & Em & Et & Est)]. unfold validateExecutionPlanWalletObservation. cbv zeta.
  pose proof Vs as Vs'. pose proof Vu as Vu'. unfold validExecutionPlanBalanceObservation in Vs', Vu'.
  destruct (bo_decimals (wb_sol b) =? _) eqn:Ds; [cbn [negb orb] in Vs'|done]. destruct (bo_decimals (wb_usdc b) =? _) eqn:Du; [cbn [negb orb] in Vu'|done].
  apply Z.eqb_eq in Ds, Du. destruct (bo_token_account_count (wb_usdc b) <? 0) eqn:Tc; [done|]. apply Z.ltb_ge in Tc.
  destruct (bo_token_account_count (wb_sol b) <? 0) eqn:Tn; [done|]. cbn [orb] in Vs'. destruct (bo_token_account_count (wb_sol b) =? 0) eqn:Ts; [cbn [negb andb] in Vs'|done].
  apply Z.eqb_eq in Ts. rewrite Es, Eu, Em, Et, Est, Ps, Cs, Cr. assert (Au2 := Au). unfold Solana.available in Au2. apply bool_decide_eq_true in Au2.
  rewrite Au2 in Vu'. cbn [orb andb negb] in Vu'. rewrite bool_decide_true in Vu' by done. apply andb_true_iff in Vu' as [[[Vu'%bool_decide_eq_true _]%andb_true_iff _]%andb_true_iff _].
  cbn [observed_balance bal_decimals bal_observed_slot bal_availability bal_error_code]. apply require_bind; [|apply bind_ok; [apply codes_ok|]].
  - rewrite Ds, Du, (proj2 (Z.leb_le _ _) L1), (proj2 (Z.leb_le _ _) L2), (proj2 (Z.leb_le _ _) Tc), (proj2 (Z.leb_le 0 (sn_credential_version _))) by lia. reflexivity.
  - intros c Hc. repeat (apply elem_of_cons in Hc as [->|Hc]); [| | | | | | |by apply not_elem_of_nil in Hc].
    + done.
    + destruct (Solana.available (wb_sol b)) eqn:E; unfold Solana.available in E; [apply bool_decide_eq_true in E as ->; by apply short_text|].
      rewrite E in Vs'. destruct (bool_decide_reflect (bo_availability (wb_sol b) = Solana.availabilityUnavailable)) as [->|]; [by apply short_text|done].
    + destruct (Solana.available (wb_sol b)) eqn:E; [|by apply Pu]. unfold Solana.available in E. rewrite E in Vs'.
      apply andb_true_iff in Vs' as [[[->%bool_decide_eq_true _]%andb_true_iff _]%andb_true_iff _]. by apply short_text.
    + rewrite Au2. by apply short_text.
    + rewrite Vu'. by apply short_text.
    + unfold walletBalanceStatus. repeat case_match; by apply short_text.
    + by apply short_text.
  - apply require_bind; [by vm_compute|]. apply require_bind; [by rewrite (proj2 (Z.ltb_lt _ _) Cv), (proj2 (Z.eqb_neq _ _) Ca)|].
    apply bind_ok; [rewrite <- Ts; apply (balance_accepted _ _ false); [exact Vs|]; intros E; split; [by apply Pu|done]|].
    apply bind_ok; [apply (balance_accepted _ _ true); [exact Vu|]; by rewrite Au|].
    apply require_bind; [rewrite Au2; by vm_compute|]. unfold walletBalanceStatus, Solana.available. change PlanStore.availabilityAvailable with Solana.availabilityAvailable.
    rewrite Au2, (bool_decide_true (Solana.availabilityAvailable = _)) by done. by destruct (bool_decide (bo_availability (wb_sol b) = _)).
Qed.

(** ** Items *)
Lemma optional_ok v : v = EmptyString ∨ decimal_text_ok v → optional_decimal v = true.
Proof. unfold optional_decimal. intros [->|[d Hd]]; [done|]. rewrite (valid_decimal_parse _ _ Hd). apply orb_true_r. Qed.
Lemma item_accepted (short : Prop) item ct e : short → item_shape short item ct → estimate_ok e → validateExecutionPlanItemObservation (item_observation ct e) = Ok tt.
Proof.
  intros Hshort [_ [Hb Hl] [Hf _] _ Hv Hr] [Ht Hq]. specialize (Hl Hshort). unfold validateExecutionPlanItemObservation, item_observation. cbv zeta.
  set (p := if negb (ei_selectable (ct_input ct)) then _ else _). assert (p.1 ≠ EmptyString ∧ (String.length (trim_space p.1) ≤ 100)%nat ∧ (String.length (trim_space p.2) ≤ 100)%nat) as (P1 & P2 & P3).
  { unfold p. destruct (ei_selectable (ct_input ct)); cbn [negb]; [destruct (bool_decide (ee_rejection_code e = EmptyString)); cbn [negb]|]; cbn [fst snd];
      (split_and!; [done|by apply short_text|]); [by apply short_text|by apply short_text|exact Hr]. }
  destruct p as [state reason]. cbn [fst snd] in *.
  cbn [io_snapshot is_estimate is_backend is_state is_reason_code is_funds is_leverage pe_average_price pe_total_shares pe_total_cost pe_best_ask pe_worst_fill_price pe_fee_amount pe_user_funds_needed pe_liquidation_price].
  apply bind_ok; [apply codes_ok|apply require_bind; [|apply require_bind; [|]]].
  - intros c Hc. repeat (apply elem_of_cons in Hc as [->|Hc]); [done..|by apply not_elem_of_nil in Hc].
  - rewrite !bool_decide_false by done. rewrite Hv. repeat (apply elem_of_cons in Hf as [->|Hf]; [reflexivity|]). by apply not_elem_of_nil in Hf.
  - apply forallb_forall. intros v Hin%list_elem_of_In. apply optional_ok, Ht. exact Hin.
  - by rewrite Hq.
Qed.
(** The amounts of an item are those of its estimate. *)
Definition amounts_of (e : ExecutionPreviewMarketEstimate) (o : ExecutionPlanItemObservation) : Prop :=
  is_funds (io_snapshot o) = ee_funds e ∧ pe_fee_amount (is_estimate (io_snapshot o)) = ee_fee_amount e
  ∧ pe_user_funds_needed (is_estimate (io_snapshot o)) = ee_user_funds_needed e.
Lemma observation_amounts short item ct e : item_shape short item ct → ee_funds e = ei_funds (ct_input ct) → amounts_of e (item_observation ct e).
Proof. intros Hs He. unfold amounts_of, item_observation. cbv zeta. rewrite He, (proj2 (ih_funds _ _ _ Hs)). by repeat case_match. Qed.
Lemma observations_ok (short : Prop) items cts es index os : item_observations cts es index = Some os → length cts = length es → Forall2 (item_shape short) items cts → Forall estimate_ok es →
  io_ordinal <$> os = pi_ordinal <$> items ∧ (short → ∀ o, o ∈ os → validateExecutionPlanItemObservation o = Ok tt)
  ∧ Forall2 (λ ct e, ee_funds e = ei_funds (ct_input ct)) cts es ∧ Forall2 amounts_of es os.
Proof.
  intros H Hl Hi. revert es index os H Hl. induction Hi as [|item ct items cts Hc Hi IH]; intros [|e es] index os H Hl He; try done; cbn [item_observations] in H.
  { injection H as <-. split_and!; [done|intros _ o Ho; by apply not_elem_of_nil in Ho|constructor..]. }
  cbv zeta in H. match type of H with (if ?b then _ else _) = _ => destruct b eqn:Eb end; [done|]. apply orb_false_iff in Eb as [_ Eb]. apply negb_false_iff, bool_decide_eq_true in Eb.
  destruct (item_observations cts es (index + 1)) as [rest|] eqn:Er; [cbn in H|done]. injection H as <-. apply Forall_cons in He as [He1 He2].
  destruct (IH _ _ _ Er (eq_add_S _ _ Hl) He2) as (I1 & I2 & I3 & I4).
  split_and!; [|intros Hs o [->|Ho]%elem_of_cons; [by eapply item_accepted|by apply I2]|by constructor|constructor; [by eapply observation_amounts|done]].
  rewrite !fmap_cons. f_equal; [|done]. unfold item_observation. cbv zeta. rewrite <- (ih_ordinal _ _ _ Hc). by repeat case_match.
Qed.

(** ** Steps *)
Lemma outcome_known_text c : c ∈ outcome_codes → c ≠ EmptyString ∧ trim_space c = c ∧ (String.length c ≤ 100)%nat.
Proof.
  intros H. assert (bool_decide (c = EmptyString) = false ∧ bool_decide (trim_space c = c) = true ∧ (String.length c <=? 100)%nat = true) as (H1 & H2 & H3).
  { unfold outcome_codes in H. repeat (apply elem_of_cons in H as [->|H]; [by vm_compute|]). by apply not_elem_of_nil in H. }
  split_and!; [by apply bool_decide_eq_false in H1|by apply bool_decide_eq_true in H2|by apply Nat.leb_le].
Qed.
Lemma step_texts_ok items s : step_ok items s → step_text (plan_step_of s).
Proof.
  intros [Ho [b Hb] [a Ha] _]. apply outcome_known_text in Ho as (Hn & Ht & Hl). split; [|split; by eapply valid_decimal_parse].
  unfold plan_step_of. cbv zeta. cbn [sp_disposition sp_reason_code]. destruct (bool_decide_reflect (es_outcome s = ExecutionPreviewOutcomeReady)); [by left|right]. rewrite Ht. done.
Qed.
Lemma layout_ok (input : nat * nat) (k : nat) : (k < input.1 * input.2)%nat →
  (k / input.2 < input.1)%nat ∧ (k mod input.2 < input.2)%nat ∧ k = (k / input.2 * input.2 + k mod input.2)%nat.
Proof.
  destruct input as [W I]. cbn [fst snd]. intros Hk. assert (I ≠ 0)%nat by lia. split_and!; [apply Nat.Div0.div_lt_upper_bound; lia|by apply Nat.mod_upper_bound|].
  rewrite Nat.mul_comm. apply Nat.div_mod_eq.
Qed.

(** ** Totals *)
Definition item_of (req : MarkExecutionPlanReadyRequest) (s : ExecutionPlanStep) : option ExecutionPlanItemObservation :=
  mr_items req !! Z.to_nat (sp_item_ordinal s - 1).
(** The sum of a field of the items over the READY steps of a request. *)
Definition ready_total (field : item_snapshot → string) (req : MarkExecutionPlanReadyRequest) : Q :=
  foldr (λ s q, ((if bool_decide (sp_disposition s = ExecutionPlanStepDispositionReady)
                  then from_option (λ o, text_amount (field (io_snapshot o))) 0 (item_of req s) else 0) + q)%Q) 0%Q (mr_steps req).
Lemma plan_step_ready s : bool_decide (sp_disposition (plan_step_of s) = ExecutionPlanStepDispositionReady) = bool_decide (es_outcome s = ExecutionPreviewOutcomeReady).
Proof. unfold plan_step_of. cbn [sp_disposition]. by destruct (bool_decide (es_outcome s = _)). Qed.
Lemma ready_sum_total text field steps req : mr_steps req = plan_step_of <$> steps →
  (∀ s, s ∈ steps → es_outcome s = ExecutionPreviewOutcomeReady → ∃ o, item_of req (plan_step_of s) = Some o ∧ text s = field (io_snapshot o)) →
  (ready_sum text steps == ready_total field req)%Q.
Proof.
  unfold ready_total. intros -> H. induction steps as [|s steps IH]; [done|]. rewrite fmap_cons. unfold ready_sum. cbn [foldr].
  change (foldr _ 0%Q steps) with (ready_sum text steps) at 1. rewrite IH by (intros x Hx; apply H; by constructor). rewrite plan_step_ready.
  case_bool_decide as Hr; [|done]. destruct (H s) as (o & -> & ->); [constructor|done|done].
Qed.
Lemma ready_sum_cost steps : (∀ s, s ∈ steps → es_outcome s = ExecutionPreviewOutcomeReady →
    (text_amount (es_user_funds_needed s) == text_amount (es_funds s) + text_amount (es_fee_amount s))%Q) →
  (ready_sum es_user_funds_needed steps == ready_sum es_funds steps + ready_sum es_fee_amount steps)%Q.
Proof.
  induction steps as [|s steps IH]; intros H; [done|]. unfold ready_sum in *. cbn [foldr]. rewrite IH by (intros x Hx; apply H; by constructor).
  case_bool_decide as Hr; [rewrite (H s) by (done || constructor)|]; ring.
Qed.

Section Request.
Context {SL : SolanaLib} {CL : ChallengeLib} {C : Type}.
Abbreviation worker_log := (list {o : plan_worker_op (C := C) & plan_worker_resp o}).
Lemma steps_layout fuel (input : ExecutionPreviewInput C) log result k s : runs (Build fuel input) log (Some (Ok result)) →
  Z.of_nat (length (in_wallets input)) ≤ max_int32 → Z.of_nat (length (in_items input)) ≤ max_int32 → er_steps result !! k = Some s →
  (es_ordinal s, es_wallet_ordinal s, es_market_ordinal s)
  = (Z.of_nat k + 1, Z.of_nat (k / length (in_items input)) + 1, Z.of_nat (k mod length (in_items input)) + 1).
Proof.
  intros H Lw Li Hs. apply build_explained in H as [Hlen Hex]. pose proof (lookup_lt_Some _ _ _ Hs) as Hk. rewrite Hlen in Hk.
  destruct (layout_ok (length (in_wallets input), length (in_items input)) k Hk) as (K1 & K2 & K3). cbn [fst snd] in *.
  destruct (lookup_lt_is_Some_2 _ _ K1) as [w Hw]. destruct (Hex _ _ _ Hw K2) as (s' & n & items & e & x & Hs' & He & E).
  rewrite <- K3, Hs in Hs'. injection Hs' as <-. pose proof (Forall2_length _ _ _ (se_items _ _ _ _ _ _ _ _ _ _ _ E)) as L.
  destruct (lookup_lt_is_Some_2 items (k mod length (in_items input))) as [item Hitem]; [lia|].
  rewrite (sh_ordinals _ _ _ _ _ _ _ _ _ _ (se_shows _ _ _ _ _ _ _ _ _ _ _ E item Hitem)), <- K3. rewrite !wrap32_id by (unfold max_int32 in *; lia). done.
Qed.

(** ** The build *)
Definition within (l log : worker_log) : Prop := ∀ e, e ∈ l → e ∈ log.
(** What the worker read and built on the way to its request. *)
Record built (fuel : nat) (configured : bool) (worker : string) (plan : ExecutionPlan) (log : worker_log) (req : MarkExecutionPlanReadyRequest)
    (cts : list executionPlanCatalogItem) (wcs : list (executionPlanWalletContext C)) (preview : ExecutionPreviewResult) : Prop := {
  bt_complete : plan_complete plan = true;
  bt_catalogs : ∃ l, within l log ∧ runs (readExecutionPlanCatalogs configured (ep_items plan)) l (Ok cts);
  bt_wallets : ∃ l1 l2 wcs0, within l1 log ∧ within l2 log ∧ runs (readExecutionPlanWalletConnections (ep_wallets plan)) l1 (Ok wcs0)
    ∧ runs (readExecutionPlanWalletBalances wcs0) l2 (Ok wcs);
  bt_preview : ∃ l, runs (Build fuel {| in_wallets := wc_input <$> wcs; in_items := ct_input <$> cts |}) l (Some (Ok preview));
  bt_steps : length (er_estimates preview) = length cts ∧ Z.of_nat (length (er_steps preview)) = ep_total_step_count plan;
  bt_items : executionPlanItemObservations cts (er_estimates preview) = Some (mr_items req);
  bt_totals : executionPlanStepsAndTotals (er_steps preview) = Ok (mr_steps req, mr_totals req);
  bt_request : mr_plan_id req = ep_id plan ∧ mr_worker_id req = worker ∧ mr_wallets req = wc_observation <$> wcs }.
Lemma construct_built fuel configured worker plan (log : worker_log) req :
  runs (constructExecutionPlanSnapshot fuel configured worker plan) log (Some (Ok req)) → ∃ cts wcs preview, built fuel configured worker plan log req cts wcs preview.
Proof.
  unfold constructExecutionPlanSnapshot. intros H. destruct (plan_complete plan) eqn:Hp; cbn [negb] in H; [|by destruct H].
  apply runs_bind in H as (l & [[cts wcs]|e] & l' & -> & H & H'); [|by destruct H'].
  apply try_runs in H as (l1 & [] & l2 & -> & _ & H). apply try_runs in H as (l3 & items & l4 & -> & Hc & H). apply try_runs in H as (l5 & [] & l6 & -> & _ & H).
  apply try_runs in H as (l7 & wcs0 & l8 & -> & Hw & H). apply try_runs in H as (l9 & [] & l10 & -> & _ & H). apply try_runs in H as (l11 & wcs1 & l12 & -> & Hb & H).
  apply runs_bind in H as (l13 & client & l14 & -> & _ & H). destruct client; [|by apply fail_runs in H]. apply try_runs in H as (l15 & [] & l16 & -> & _ & H).
  apply runs_ret in H as [-> [= -> ->]]. apply runs_bind in H' as (m1 & preview & m2 & -> & H & H'). destruct preview as [[preview|e]|]; [|by destruct H'..].
  unfold build_preview in H. apply runs_bind in H as (m3 & r & m4 & -> & He & H). destruct r as [[pv|[e|m]]|]; [| |by destruct H..].
  2: { apply runs_bind in H as (? & ? & ? & -> & _ & H). by destruct H. }
  apply runs_ret in H as [-> H]. destruct (Nat.eqb_spec (length (er_estimates pv)) (length items)) as [L1|]; [cbn [negb orb] in H|done].
  destruct (Z.eqb_spec (Z.of_nat (length (er_steps pv))) (ep_total_step_count plan)) as [L2|]; [cbn [negb orb] in H|done]. injection H as ->. apply embed_runs in He as [le He].
  apply runs_bind in H' as (m5 & r & m6 & -> & H & H'). apply runs_ret in H' as [-> [= <-]]. unfold finish_build in H.
  destruct (executionPlanItemObservations items (er_estimates pv)) as [os|] eqn:Eo; [|by apply fail_runs in H].
  destruct (executionPlanStepsAndTotals (er_steps pv)) as [[steps totals]|] eqn:Et; [|by apply fail_runs in H].
  apply try_runs in H as (m7 & [] & m8 & -> & _ & H). apply runs_bind in H as (m9 & now & m10 & -> & _ & H). apply runs_ret in H as [-> [= ->]].
  exists items, wcs1, pv. split; cbn [mr_items mr_steps mr_totals mr_plan_id mr_worker_id mr_wallets]; try done.
  - exists l3. split; [intros e ?; rewrite !elem_of_app; tauto|done].
  - exists l7, l11, wcs0. split_and!; [intros e ?; rewrite !elem_of_app; tauto|intros e ?; rewrite !elem_of_app; tauto|done..].
  - by exists le.
Qed.
Lemma within_backends l log : within l log → short_backends log → short_backends l.
Proof. intros H S id response event market Hl. exact (S id response event market (H _ Hl)). Qed.
Lemma within_times l log : within l log → connected_times log → connected_times l.
Proof. intros H S refs snapshots s Hl. exact (S refs snapshots s (H _ Hl)). Qed.
Lemma within_promised l log : within l log → balances_promised log → balances_promised l.
Proof. intros H S refs results w Hl. exact (S refs results w (H _ Hl)). Qed.
(** The replies of the services the worker reads. *)
Record replies_ok (log : worker_log) : Prop := { ro_backends : short_backends log; ro_times : connected_times log; ro_balances : balances_promised log }.
(** A plan as the store hands it out: its wallets and its items are numbered from one. *)
Record ordered_plan (plan : ExecutionPlan) : Prop := {
  nb_wallets : pw_ordinal <$> ep_wallets plan = seqZ 1 (Z.of_nat (length (ep_wallets plan)));
  nb_items : pi_ordinal <$> ep_items plan = seqZ 1 (Z.of_nat (length (ep_items plan)));
  nb_sizes : Z.of_nat (length (ep_wallets plan)) ≤ max_int32 ∧ Z.of_nat (length (ep_items plan)) ≤ max_int32 }.
Lemma catalogs_within configured items l (log : worker_log) cts : within l log → runs (readExecutionPlanCatalogs configured items) l (Ok cts) →
  Forall2 (item_shape (short_backends log)) items cts.
Proof.
  intros Hl H%catalogs_shape. eapply Forall2_impl; [exact H|]. intros item ct [H1 [H2 H3] H4 H5 H6 H7]. split; try done. split; [done|].
  intros Hs. apply H3. by eapply within_backends.
Qed.
Lemma built_shapes fuel configured worker plan (log : worker_log) req cts wcs preview : built fuel configured worker plan log req cts wcs preview → replies_ok log →
  Forall2 (item_shape (short_backends log)) (ep_items plan) cts ∧ Forall2 (λ w wc, wallet_shape w (wc_observation wc)) (ep_wallets plan) wcs.
Proof.
  intros [_ (l & Hl & Hc) (l1 & l2 & wcs0 & H1 & H2 & Hw & Hb) _ _ _ _ _] [R1 R2 R3]. split.
  - exact (catalogs_within _ _ _ _ _ Hl Hc).
  - eapply wallets_shape; [exact Hb|by eapply within_promised|]. eapply wallets_connected; [exact Hw|by eapply within_times].
Qed.
Lemma request_acceptable `{UuidLib} fuel configured worker plan (log : worker_log) req cts wcs preview :
  built fuel configured worker plan log req cts wcs preview → replies_ok log → ordered_plan plan →
  (∃ id, plan_uuid "execution plan ID" (ep_id plan) = Ok id) → (∃ w, normalizeExecutionPlanWorkerID worker = Ok w) →
  acceptable req (length (ep_wallets plan)) (length (ep_items plan)).
Proof.
  intros B R N Hid Hw. destruct (built_shapes _ _ _ _ _ _ _ _ _ B R) as [Si Sw]. pose proof (Forall2_length _ _ _ Si) as Li. pose proof (Forall2_length _ _ _ Sw) as Lw.
  destruct B as [_ _ _ [pl Hp] [Le _] Ho Ht (E1 & E2 & E3)]. destruct (build_texts _ _ _ _ Hp) as (norm & Hn & [Hpe Hps]).
  destruct N as [N1 N2 [N3 N4]]. apply steps_totals_exact in Ht as [Es Ht]. unfold executionPlanItemObservations in Ho. destruct (Nat.eqb_spec (length cts) (length (er_estimates preview))) as [Lo|]; [cbn [negb] in Ho|done].
  destruct (observations_ok _ (ep_items plan) _ _ _ _ Ho Lo Si) as (O1 & O2 & _ & _).
  { apply Forall_lookup. intros k e Hk. destruct (Forall2_lookup_r _ _ _ _ _ Hpe Hk) as (it & _ & [? _]). done. }
  pose proof (build_explained _ _ _ _ Hp) as [Lst _]. cbn [in_wallets in_items] in Lst. rewrite !length_fmap in Lst.
  split; [by rewrite E1|by rewrite E2|..].
  - intros v Hv. destruct (tx_texts _ _ Ht v Hv) as [d Hd]. by eapply valid_decimal_parse.
  - rewrite E3, <- N1. clear -Sw. induction Sw as [|w wc l l' Hs Sw IH]; [done|]. rewrite !fmap_cons. f_equal; [apply Hs|exact IH].
  - intros o. rewrite E3. intros (wc & -> & Hin)%list_elem_of_fmap. apply list_elem_of_lookup in Hin as [k Hk].
    destruct (Forall2_lookup_r _ _ _ _ _ Sw Hk) as (w & _ & Hs). by eapply wallet_accepted.
  - by rewrite O1.
  - apply O2, R.
  - rewrite Es, length_fmap, Lst. lia.
  - intros k s. rewrite Es. intros (s0 & -> & Hs0)%list_lookup_fmap_Some. split.
    + eapply step_texts_ok. rewrite Forall_lookup in Hps. by apply (Hps k).
    + change (sp_ordinal (plan_step_of s0), sp_wallet_ordinal (plan_step_of s0), sp_item_ordinal (plan_step_of s0)) with (es_ordinal s0, es_wallet_ordinal s0, es_market_ordinal s0).
      rewrite (steps_layout _ _ _ _ _ _ Hp) by (cbn [in_wallets in_items]; rewrite ?length_fmap; (done || lia)). cbn [in_items]. by rewrite length_fmap, Li.
Qed.
Lemma connections_length wallets (log : worker_log) wcs : runs (readExecutionPlanWalletConnections wallets) log (Ok wcs) → length wcs = length wallets.
Proof.
  unfold readExecutionPlanWalletConnections. cbv zeta. intros H. apply runs_bind in H as (l1 & reply & l2 & -> & _ & H).
  destruct reply as [snapshots|]; [|by apply fail_runs in H]. destruct (validateStoredConnectionSnapshots _ snapshots) eqn:Ev; [cbn [negb] in H|by apply fail_runs in H].
  unfold validateStoredConnectionSnapshots in Ev. apply andb_true_iff in Ev as [El%Nat.eqb_eq _]. rewrite length_fmap in El. clear l1.
  revert snapshots l2 wcs El H. induction wallets as [|wallet wallets IH]; intros [|s snapshots] log wcs El H; try done; cbn [read_connections] in H.
  { by destruct H as [_ [= ->]]. }
  destruct (negb (bool_decide _)); [by apply fail_runs in H|]. destruct (ws_active_credential s); [|by apply fail_runs in H]. destruct (_ || _); [by apply fail_runs in H|].
  apply runs_bind in H as (l1 & [keys|] & l3 & -> & _ & H); [|by apply fail_runs in H]. apply runs_bind in H as (l4 & [client|] & l5 & -> & _ & H); [|by apply fail_runs in H].
  apply try_runs in H as (l6 & rest & l7 & -> & Hr & H). apply runs_ret in H as [-> [= ->]]. cbn [length]. f_equal. eapply IH; [by injection El|exact Hr].
Qed.
Lemma balances_length wcs (log : worker_log) wcs' : runs (readExecutionPlanWalletBalances wcs) log (Ok wcs') → length wcs = length wcs'.
Proof.
  unfold readExecutionPlanWalletBalances. intros H. apply runs_bind in H as (l1 & [results|] & l2 & -> & _ & H); [|by apply fail_runs in H].
  destruct (Nat.eqb_spec (length results) (length wcs)) as [El|]; [cbn [negb] in H|by apply fail_runs in H]. apply runs_ret in H as [_ H].
  destruct (add_balances wcs results) as [l|] eqn:Ea; [|done]. injection H as ->. clear l1 l2. revert results l El Ea.
  induction wcs as [|wc wcs IH]; intros [|b results] l El Ea; try done; cbn [add_balances] in Ea; [by injection Ea as <-|]. cbv zeta in Ea.
  repeat (match type of Ea with (require ?b _ ≫= _) = _ => destruct b end; [cbn [require mbind result_bind] in Ea|done]).
  repeat (match type of Ea with (?x ≫= _) = _ => destruct x eqn:? end; [cbn [mbind result_bind] in Ea|done]). injection Ea as <-. cbn [length]. f_equal.
  injection El as El. by eapply IH.
Qed.
(** The market of the step [k], and what it costs. *)
Lemma step_costs (short : Prop) items es plan_items cts os k s : Forall2 normalized_item (ct_input <$> cts) items → Forall2 item_priced items es →
  Forall2 (item_shape short) plan_items cts → Forall2 (λ ct e, ee_funds e = ei_funds (ct_input ct)) cts es → Forall2 amounts_of es os →
  (∃ p, zip items es !! k = Some p ∧ step_amounts p s) → es_outcome s = ExecutionPreviewOutcomeReady →
  (∃ o, os !! k = Some o ∧ es_funds s = is_funds (io_snapshot o) ∧ es_fee_amount s = pe_fee_amount (is_estimate (io_snapshot o))
     ∧ es_user_funds_needed s = pe_user_funds_needed (is_estimate (io_snapshot o)))
  ∧ (text_amount (es_user_funds_needed s) == text_amount (es_funds s) + text_amount (es_fee_amount s))%Q.
Proof.
  intros Hn Hp Hi Hf Ha ([item e] & Hz & S1 & S2 & S3 & S4) Hr. cbn [fst snd] in *. destruct (S4 Hr) as [Hsel Hrej].
  rewrite lookup_zip_with in Hz. destruct (items !! k) as [item'|] eqn:Ei; [cbn in Hz|done]. destruct (es !! k) as [e'|] eqn:Ee; [cbn in Hz|done]. injection Hz as -> ->.
  destruct (Forall2_lookup_r _ _ _ _ _ Hn Ei) as (input & Hin & N). rewrite list_lookup_fmap in Hin. destruct (cts !! k) as [ct|] eqn:Ec; [cbn in Hin|done]. injection Hin as <-.
  destruct (Forall2_lookup_r _ _ _ _ _ Hi Ec) as (pi & _ & Sh). pose proof (Forall2_lookup_lr _ _ _ _ _ _ Hf Ec Ee) as Hfe.
  destruct (Forall2_lookup_l _ _ _ _ _ Ha Ee) as (o & Ho & A1 & A2 & A3). pose proof (Forall2_lookup_lr _ _ _ _ _ _ Hp Ei Ee) as [_ Hcost].
  assert (ei_selectable (ct_input ct) = true) as Hs by (by rewrite <- (nmi_selectable _ _ N)).
  assert (ni_funds item = ee_funds e) as Hfunds by (rewrite Hfe; pose proof (nmi_funds _ _ N Hs) as F; rewrite (ih_priced _ _ _ Sh Hs) in F; by injection F).
  rewrite S1, S2, S3, Hfunds. split; [exists o; by rewrite A1, A2, A3|]. apply (co_sum _ (Hcost Hsel Hrej)).
Qed.
Lemma built_costs fuel configured worker plan (log : worker_log) req cts wcs preview : built fuel configured worker plan log req cts wcs preview →
  Z.of_nat (length (ep_wallets plan)) ≤ max_int32 → Z.of_nat (length (ep_items plan)) ≤ max_int32 →
  mr_steps req = plan_step_of <$> er_steps preview ∧ totals_exact (er_steps preview) (mr_totals req)
  ∧ (∀ s, s ∈ er_steps preview → es_outcome s = ExecutionPreviewOutcomeReady → ∃ o, item_of req (plan_step_of s) = Some o ∧ es_funds s = is_funds (io_snapshot o)
       ∧ es_fee_amount s = pe_fee_amount (is_estimate (io_snapshot o)) ∧ es_user_funds_needed s = pe_user_funds_needed (is_estimate (io_snapshot o)))
  ∧ (∀ s, s ∈ er_steps preview → es_outcome s = ExecutionPreviewOutcomeReady →
       (text_amount (es_user_funds_needed s) == text_amount (es_funds s) + text_amount (es_fee_amount s))%Q).
Proof.
  intros [_ (l & Hl & Hc) (l1 & l2 & wcs0 & _ & _ & Hw & Hb) [pl Hp] _ Ho Ht _] Bw Bi. pose proof (catalogs_within _ _ _ _ _ Hl Hc) as Si. pose proof (Forall2_length _ _ _ Si) as Li.
  destruct (build_texts _ _ _ _ Hp) as (norm & Hn & [Hpe _ Hpa]). apply steps_totals_exact in Ht as [Es Ht].
  unfold executionPlanItemObservations in Ho. destruct (Nat.eqb_spec (length cts) (length (er_estimates preview))) as [Lo|]; [cbn [negb] in Ho|done].
  destruct (observations_ok _ (ep_items plan) _ _ _ _ Ho Lo Si) as (_ & _ & O3 & O4).
  { apply Forall_lookup. intros k e Hk. destruct (Forall2_lookup_r _ _ _ _ _ Hpe Hk) as (it & _ & [? _]). done. }
  pose proof (Forall2_length _ _ _ Hn) as Ln. cbn [in_items] in Ln. rewrite length_fmap in Ln.
  assert (length wcs = length (ep_wallets plan)) as Lw by (rewrite <- (balances_length _ _ _ Hb); by eapply connections_length).
  assert (∀ s, s ∈ er_steps preview → es_outcome s = ExecutionPreviewOutcomeReady →
    (∃ o, item_of req (plan_step_of s) = Some o ∧ es_funds s = is_funds (io_snapshot o)
       ∧ es_fee_amount s = pe_fee_amount (is_estimate (io_snapshot o)) ∧ es_user_funds_needed s = pe_user_funds_needed (is_estimate (io_snapshot o)))
    ∧ (text_amount (es_user_funds_needed s) == text_amount (es_funds s) + text_amount (es_fee_amount s))%Q) as H.
  { intros s [k Hk]%list_elem_of_lookup Hr. destruct (step_costs _ _ _ _ _ _ _ _ Hn Hpe Si O3 O4 (Hpa k s Hk) Hr) as [(o & Hio & Hf) Hcost]. split; [|done].
    exists o. split; [|done]. pose proof (steps_layout _ _ _ _ k s Hp) as Hlay. cbn [in_wallets in_items] in Hlay. rewrite !length_fmap in Hlay.
    specialize (Hlay ltac:(lia) ltac:(lia) Hk). injection Hlay as _ _ Hm. unfold item_of, plan_step_of. cbn [sp_item_ordinal]. rewrite Hm, <- Hio, <- Ln. f_equal. lia. }
  split_and!; [done|done|intros; by apply H|intros; by apply H].
Qed.
End Request.
