(* ===== verification/PlanVerdict.v ===== *)
(** * Execution plans: the verdict of a build

    However a build of a plan goes, the worker reports at most one verdict that counts, with a
    failure code of its own, and none when it has lost the lease or the build panics; with the
    services a worker meets in the scenario and its runs. *)

From S2P Require Import Prelude Prog Sql CashOutTypes CashOutStages CashOutWorker ConnectionTypes ConnectionStore ConnectionService Decimal.
From S2P Require Import Preview Combination Plan PlanStore PlanAccept Solana PlanWorker PlanWorkerLaws PlanRequest PlanScenario ConnectionScenario.
From S2P Require Import SolanaTheorems Selection PreviewSimulation PreviewTheorems CombinationSpec CombinationRefine CombinationTheorems PlanView PlanReady PlanInv.
From stdpp Require Import base tactics option list list_numbers sorting strings gmap.
From Stdlib Require Import ZArith Lia Ascii.
#[local] Open Scope Z_scope.

(** The failure codes of the worker. *)
Definition failure_codes : list string :=
  [executionPlanFailureStoreUnavailable; executionPlanFailureMarketsUnavailable; executionPlanFailureMarketsInvalid; executionPlanFailureWalletNotConnected;
   executionPlanFailureCredentialUnavailable; executionPlanFailureBalanceUnavailable; executionPlanFailureUSDCUnavailable;
   executionPlanFailureWormReadUnavailable; executionPlanFailureWormResponseInvalid; executionPlanFailureSourceChanged;
   executionPlanFailureWalletSelectionChanged; executionPlanFailurePreviewInvalid].
Lemma failure_code_of c : bool_decide (c ∈ failure_codes) = true → c ∈ failure_codes.
Proof. apply bool_decide_eq_true. Qed.
Ltac own_code := apply failure_code_of; vm_compute; reflexivity.
(** The store takes every one of them. *)
Lemma failure_code_accepted c : c ∈ failure_codes → c ≠ EmptyString ∧ normalizeExecutionPlanCode c = Ok c.
Proof.
  intros H. assert (bool_decide (c = EmptyString) = false ∧ normalizeExecutionPlanCode c = Ok c) as [H1 H2].
  { unfold failure_codes in H. repeat (apply elem_of_cons in H as [->|H]; [split; vm_compute; reflexivity|]). by apply not_elem_of_nil in H. }
  by apply bool_decide_eq_false in H1.
Qed.
Definition own_failure (e : plan_build_error) : Prop := executionPlanFailureCode e ∈ failure_codes.
Lemma own_build_failure c : c ∈ failure_codes → own_failure (executionPlanBuildFailure c).
Proof. intros H. unfold own_failure, executionPlanFailureCode. rewrite bool_decide_false; [done|]. by apply failure_code_accepted. Qed.

Section Verdict.
Context {SL : SolanaLib} {CL : ChallengeLib} {C : Type}.
Local Abbreviation log_of := (list {o : plan_worker_op (C := C) & plan_worker_resp o}).
Local Abbreviation prog := (program (plan_worker_resp (C := C))).
Inductive verdict :=
| Completed (req : MarkExecutionPlanReadyRequest) (reply : result EPError unit)
| GaveUp (plan worker code : string).
Definition verdict_of (e : {o : plan_worker_op (C := C) & plan_worker_resp o}) : option verdict :=
  match e with
  | existT (PwMarkReady req) reply => Some (Completed req reply)
  | existT (PwMarkFailed plan worker code _) _ => Some (GaveUp plan worker code)
  | _ => None
  end.
Definition verdicts (log : log_of) : list verdict := omap verdict_of log.
(** [p] reports no verdict, and what it returns satisfies [Q]. *)
Definition quiet {A} (p : prog A) (Q : log_of → A → Prop) : Prop := ∀ log a, runs p log a → verdicts log = [] ∧ Q log a.
Lemma verdicts_app (l l' : log_of) : verdicts (l ++ l') = verdicts l ++ verdicts l'.
Proof. apply omap_app. Qed.
Lemma quiet_ret {A} (a : A) (Q : log_of → A → Prop) : Q [] a → quiet (mret a) Q.
Proof. by intros H log a' [-> ->]%runs_ret. Qed.
Lemma quiet_bind {A B} (p : prog A) (k : A → prog B) (P : log_of → A → Prop) (Q : log_of → B → Prop) :
  quiet p P → (∀ l a, P l a → quiet (k a) (λ l' b, Q (l ++ l') b)) → quiet (p ≫= k) Q.
Proof.
  intros Hp Hk log b (l1 & a & l2 & -> & H1 & H2)%runs_bind. destruct (Hp _ _ H1) as [V1 Ha]. destruct (Hk l1 a Ha _ _ H2) as [V2 Hb].
  split; [by rewrite verdicts_app, V1, V2|done].
Qed.
Lemma quiet_mono {A} (p : prog A) (P Q : log_of → A → Prop) : quiet p P → (∀ l a, P l a → Q l a) → quiet p Q.
Proof. intros Hp HPQ log a H. destruct (Hp _ _ H). eauto. Qed.
(** Reading and finishing do not panic. *)
Definition calm {A} (p : prog (result build_end A)) : Prop := ∀ log message, ¬ runs p log (Err (BuildPanicked message)).
Lemma calm_ret {A} (r : result build_end A) : (∀ m, r ≠ Err (BuildPanicked m)) → calm (mret r).
Proof. intros H log m [_ E]. by apply (H m). Qed.
Lemma calm_bind {A B} (p : prog A) (k : A → prog (result build_end B)) : (∀ a, calm (k a)) → calm (p ≫= k).
Proof. intros Hk log m (l1 & a & l2 & -> & _ & H)%runs_bind. by eapply Hk. Qed.
Lemma calm_try {A B} (p : prog (result build_end A)) (k : A → prog (result build_end B)) : calm p → (∀ a, calm (k a)) → calm (prog_try k p).
Proof. intros Hp Hk log m (l1 & [a|e] & l2 & -> & H1 & H)%runs_bind; [by eapply Hk|]. apply runs_ret in H as [_ [= <-]]. by eapply Hp. Qed.
Lemma calm_fail {A} code : calm (fail (A := A) code).
Proof. by apply calm_ret. Qed.
Lemma calm_stage plan worker stage completed : calm (setStage plan worker stage completed).
Proof. apply calm_bind. intros [[]|e]; by apply calm_ret. Qed.
Lemma calm_lift {A} (r : result plan_build_error A) : calm (lift_build r).
Proof. apply calm_ret. by destruct r. Qed.
Ltac calms := repeat first [apply calm_fail|apply calm_lift|apply calm_stage|apply calm_try; [|intros ?]|apply calm_bind; intros ?
  |match goal with |- calm (match ?x with _ => _ end) => destruct x end|by apply calm_ret].
Lemma calm_read_events items events : calm (read_events items events).
Proof. revert events. induction items as [|item items IH]; intros events; cbn [read_events]; [by apply calm_ret|]. calms; apply IH. Qed.
Lemma calm_read_connections wallets snapshots : calm (read_connections (C := C) wallets snapshots).
Proof. revert snapshots. induction wallets as [|w wallets IH]; intros [|s snapshots]; cbn [read_connections]; try by apply calm_ret. calms. apply IH. Qed.
(** A build fails with a code of its own, or because a renewal of the lease was refused. *)
Definition own_end {A} (log : log_of) (r : result build_end A) : Prop :=
  match r with Ok _ => True | Err (BuildFailed e) => own_failure e | Err (StageLost e) => ∃ p, existT (PwProgress p) (Err e) ∈ log
  | Err (BuildPanicked _) => True end.
Lemma own_end_app {A} l l' (r : result build_end A) : own_end l' r → own_end (l ++ l') r.
Proof. destruct r as [|[e|e|m]]; try done. intros [p Hp]. exists p. apply elem_of_app. by right. Qed.
Lemma own_end_left {A B} l l' e : own_end l (@Err build_end A e) → own_end (l ++ l') (@Err build_end B e).
Proof. destruct e as [e|e|m]; [done| |done]. intros [p Hp]. exists p. apply elem_of_app. by left. Qed.
Lemma quiet_call {A} (o : plan_worker_op (C := C)) (k : plan_worker_resp o → prog (result build_end A)) : (∀ r, verdict_of (existT o r) = None) →
  (∀ r, quiet (k r) own_end) → quiet (Prog.call o ≫= k) own_end.
Proof.
  intros Hv Hk. eapply (quiet_bind _ _ (λ _ _, True)).
  - intros log r H. pose proof (runs_call o _ r H) as ->. split; [|done]. unfold verdicts, omap, list_omap. by rewrite Hv.
  - intros l r _. eapply quiet_mono; [apply Hk|]. intros l' a. apply own_end_app.
Qed.
Ltac asks := match goal with |- quiet (mbind (M := _) _ (Prog.call ?o)) _ => apply (quiet_call o); [done|] end.
Lemma quiet_try {A B} (p : prog (result build_end A)) (k : A → prog (result build_end B)) : quiet p own_end → (∀ a, quiet (k a) own_end) → quiet (prog_try k p) own_end.
Proof.
  intros Hp Hk. unfold prog_try. eapply quiet_bind; [exact Hp|]. intros l [a|e] He.
  - eapply quiet_mono; [apply Hk|]. intros l' b. apply own_end_app.
  - apply quiet_ret. by eapply own_end_left.
Qed.
Lemma quiet_fail {A} code : code ∈ failure_codes → quiet (fail (A := A) code) own_end.
Proof. intros H. by apply quiet_ret, own_build_failure. Qed.
Lemma quiet_lift {A} (r : result plan_build_error A) : (∀ e, r = Err e → own_failure e) → quiet (lift_build r) own_end.
Proof. intros H. apply quiet_ret. destruct r; [done|]. by apply H. Qed.
Lemma quiet_embed {A} (p : program (preview_resp (C := C)) A) : quiet (embed p) (λ _ _, True).
Proof.
  induction p as [a|o k IH]; intros log b H; cbn in H; [by destruct H as [-> _]|]. destruct H as (r & rest & -> & H). destruct (IH r rest b H) as [V _].
  split; [|done]. exact V.
Qed.
Lemma quiet_stage plan worker stage completed : quiet (setStage plan worker stage completed) own_end.
Proof.
  intros log a H. unfold setStage, renew in H. apply runs_bind in H as (l1 & r & l2 & -> & H1 & H). apply runs_ret in H as [-> ->].
  apply runs_bind in H1 as (l3 & now & l4 & -> & Hc & H). pose proof (runs_call PwNow _ now Hc) as ->. pose proof (runs_call (PwProgress _) _ r H) as ->.
  split; [done|]. destruct r as [|e]; [done|]. eexists. apply elem_of_app. left. apply elem_of_app. right. constructor.
Qed.
Lemma own_require {A} b code (k : unit → result plan_build_error A) : code ∈ failure_codes → (∀ e, k tt = Err e → own_failure e) →
  ∀ e, (require b (executionPlanBuildFailure code) ≫= k) = Err e → own_failure e.
Proof. intros Hc Hk e. destruct b; cbn [require mbind result_bind]; [apply Hk|]. intros [= <-]. by apply own_build_failure. Qed.
Lemma own_market item market e : market_item item market = Err e → own_failure e.
Proof.
  unfold market_item. cbv zeta. destruct (executionPlanSelectedOutcome _ _) as [o|]; cbn [of_option mbind result_bind]; [|intros [= <-]; apply own_build_failure; own_code].
  destruct (executionPreviewFundsForBackend _) as [funds supported]. destruct (_ && _ && _); (apply own_require; [own_code|done]).
Qed.
Lemma own_items indexes items e : catalog_items indexes items = Err e → own_failure e.
Proof.
  induction items as [|item items IH]; cbn [catalog_items]; [done|]. cbv zeta. destruct (indexes !! _ ≫= _) as [market|].
  - destruct (market_item item market) eqn:Em; cbn [mbind result_bind]; [|intros [= <-]; by eapply own_market]. by destruct (catalog_items indexes items).
  - cbn [mbind result_bind]. by destruct (catalog_items indexes items).
Qed.
Lemma own_balances (wallets : list (executionPlanWalletContext C)) results e : add_balances wallets results = Err e → own_failure e.
Proof.
  revert results e. induction wallets as [|w wallets IH]; intros [|b results]; cbn [add_balances]; try done. cbv zeta.
  repeat (apply own_require; [own_code|]). intros e.
  destruct (parseExecutionPreviewDecimal (bo_amount (wb_usdc b))); cbn [mbind result_bind]; [|intros [= <-]; apply own_build_failure; own_code].
  destruct (bool_decide (bo_availability (wb_sol b) = _)); [destruct (parseExecutionPreviewDecimal (bo_amount (wb_sol b))); cbn [mbind result_bind];
    [|intros [= <-]; apply own_build_failure; own_code]|cbn [mbind result_bind]]; destruct (add_balances wallets results) eqn:Ea; cbn [mbind result_bind]; try done;
    intros [= <-]; by eapply IH.
Qed.
Lemma quiet_catalogs configured items : quiet (readExecutionPlanCatalogs configured items) own_end.
Proof.
  unfold readExecutionPlanCatalogs. destruct configured; cbn [negb]; [|apply quiet_fail; own_code]. apply quiet_try.
  - generalize (∅ : gmap string OrderEventCatalog). induction items as [|item items IH]; intros events; cbn [read_events]; [by apply quiet_ret|]. cbv zeta.
    case_bool_decide; [apply IH|]. asks. intros [[[fetched [event|]]|]|[]]; try (apply quiet_fail; own_code).
    destruct (_ || _); [apply quiet_fail; own_code|apply IH].
  - intros events. destruct (index_events events) as [indexes|]; [|apply quiet_fail; own_code]. apply quiet_lift. intros e. apply own_items.
Qed.
Lemma quiet_connections wallets : quiet (readExecutionPlanWalletConnections wallets) own_end.
Proof.
  unfold readExecutionPlanWalletConnections. cbv zeta. asks. intros [snapshots|]; [|apply quiet_fail; own_code].
  destruct (negb _); [apply quiet_fail; own_code|]. revert snapshots. induction wallets as [|wallet wallets IH]; intros [|s snapshots]; cbn [read_connections]; try by apply quiet_ret.
  destruct (negb _); [apply quiet_fail; own_code|]. destruct (ws_active_credential s); [|apply quiet_fail; own_code]. destruct (_ || _); [apply quiet_fail; own_code|].
  asks. intros [keys|]; [|apply quiet_fail; own_code].
  asks. intros [client|]; [|apply quiet_fail; own_code]. apply quiet_try; [apply IH|]. intros rest. by apply quiet_ret.
Qed.
Lemma quiet_balances (wallets : list (executionPlanWalletContext C)) : quiet (readExecutionPlanWalletBalances wallets) own_end.
Proof.
  unfold readExecutionPlanWalletBalances. asks. intros [results|]; [|apply quiet_fail; own_code].
  destruct (negb _); [apply quiet_fail; own_code|]. apply quiet_lift. intros e. apply own_balances.
Qed.
Lemma quiet_classify err (wallets : list (executionPlanWalletContext C)) : quiet (classifyExecutionPreviewBuildFailure err wallets) (λ _ c, c ∈ failure_codes).
Proof.
  unfold classifyExecutionPreviewBuildFailure. cbv zeta. destruct err as [| |e|ordinal wallet e]; [apply quiet_ret; own_code..|apply quiet_ret; case_bool_decide; own_code|].
  destruct (isWormAuthenticationError _); [|apply quiet_ret; case_bool_decide; own_code]. match goal with |- quiet (match ?o with _ => _ end) _ => destruct o as [w|] end; [|apply quiet_ret; own_code].
  destruct (_ || _); [apply quiet_ret; own_code|]. intros log c H. apply runs_bind in H as (l1 & r & l2 & -> & Hc & H). pose proof (runs_call (PwReconnectRequired _ _ _) _ r Hc) as ->.
  apply runs_ret in H as [-> ->]. split; [done|]. own_code.
Qed.
Definition own_build {A} (log : log_of) (r : option (result build_end A)) : Prop := match r with Some r => own_end log r | None => True end.
Lemma quiet_inputs worker plan configured : quiet
  (_ ←! setStage (ep_id plan) worker executionPlanStageCatalogs 0;
   items ←! readExecutionPlanCatalogs configured (ep_items plan);
   _ ←! setStage (ep_id plan) worker executionPlanStageConnections 0;
   wallets ←! readExecutionPlanWalletConnections (ep_wallets plan);
   _ ←! setStage (ep_id plan) worker executionPlanStageBalances 0;
   wallets ←! readExecutionPlanWalletBalances wallets;
   client ← Prog.call (PwNewClient None);
   match client with
   | Err _ => fail executionPlanFailurePreviewInvalid
   | Ok _ => _ ←! setStage (ep_id plan) worker executionPlanStagePreview 0; mret (Ok (items, wallets))
   end) own_end.
Proof.
  apply quiet_try; [apply quiet_stage|intros _]. apply quiet_try; [apply quiet_catalogs|intros items]. apply quiet_try; [apply quiet_stage|intros _].
  apply quiet_try; [apply quiet_connections|intros wallets]. apply quiet_try; [apply quiet_stage|intros _]. apply quiet_try; [apply quiet_balances|intros wallets'].
  asks. intros [client|]; [|apply quiet_fail; own_code]. apply quiet_try; [apply quiet_stage|intros _]. by apply quiet_ret.
Qed.
Lemma calm_inputs worker plan configured : calm
  (_ ←! setStage (ep_id plan) worker executionPlanStageCatalogs 0;
   items ←! readExecutionPlanCatalogs configured (ep_items plan);
   _ ←! setStage (ep_id plan) worker executionPlanStageConnections 0;
   wallets ←! readExecutionPlanWalletConnections (ep_wallets plan);
   _ ←! setStage (ep_id plan) worker executionPlanStageBalances 0;
   wallets ←! readExecutionPlanWalletBalances wallets;
   client ← Prog.call (PwNewClient None);
   match client with
   | Err _ => fail executionPlanFailurePreviewInvalid
   | Ok _ => _ ←! setStage (ep_id plan) worker executionPlanStagePreview 0; mret (Ok (items, wallets))
   end).
Proof. unfold readExecutionPlanCatalogs, readExecutionPlanWalletConnections, readExecutionPlanWalletBalances. calms; first [apply calm_read_events|apply calm_read_connections]. Qed.
Lemma calm_finish plan worker (wallets : list (executionPlanWalletContext C)) items preview : calm (finish_build plan worker wallets items preview).
Proof. unfold finish_build. calms. Qed.
Lemma quiet_finish plan worker (wallets : list (executionPlanWalletContext C)) items preview : quiet (finish_build plan worker wallets items preview) own_end.
Proof.
  unfold finish_build. destruct (executionPlanItemObservations _ _); [|apply quiet_fail; own_code].
  destruct (executionPlanStepsAndTotals _) as [[steps totals]|]; [|apply quiet_fail; own_code]. apply quiet_try; [apply quiet_stage|intros _]. asks. intros now. by apply quiet_ret.
Qed.
Lemma quiet_preview fuel plan (wallets : list (executionPlanWalletContext C)) items : quiet (build_preview fuel plan wallets items) own_build.
Proof.
  unfold build_preview. eapply quiet_bind; [apply quiet_embed|]. intros l [[preview|[err|message]]|] _; [| |by apply quiet_ret..].
  - apply quiet_ret. destruct (_ || _); [|done]. cbn. apply own_build_failure. own_code.
  - eapply quiet_bind; [apply quiet_classify|]. intros l' code Hc. by apply quiet_ret, own_build_failure.
Qed.
Lemma quiet_construct fuel configured worker plan : quiet (constructExecutionPlanSnapshot fuel configured worker plan) own_build.
Proof.
  unfold constructExecutionPlanSnapshot. destruct (negb (plan_complete plan)); [apply quiet_ret, own_build_failure; own_code|].
  eapply quiet_bind; [apply quiet_inputs|]. intros l [[items wallets]|e] He; [|apply quiet_ret; by eapply (own_end_left (B := MarkExecutionPlanReadyRequest))].
  eapply quiet_bind; [apply quiet_preview|]. intros l' [[preview|e]|] Hb; [| |by apply quiet_ret].
  - eapply quiet_bind; [apply quiet_finish|]. intros l2 r Hr. apply quiet_ret. unfold own_build. rewrite app_nil_r. by apply own_end_app, own_end_app.
  - apply quiet_ret. unfold own_build. rewrite app_nil_r. by apply own_end_app.
Qed.

(** ** Verdicts *)
(** The verdicts of one build of [plan]. *)
Inductive one_verdict (plan : ExecutionPlan) (worker : string) : list verdict → Prop :=
| verdict_none : one_verdict plan worker []
| verdict_failed code : code ∈ failure_codes → one_verdict plan worker [GaveUp (ep_id plan) worker code]
| verdict_completed req reply : mr_plan_id req = ep_id plan → mr_worker_id req = worker → one_verdict plan worker [Completed req reply]
| verdict_refused req e code : mr_plan_id req = ep_id plan → mr_worker_id req = worker → code ∈ failure_codes → ready_failure e = Some code →
    one_verdict plan worker [Completed req (Err e); GaveUp (ep_id plan) worker code].
Lemma ready_failure_own e code : ready_failure e = Some code → code ∈ failure_codes.
Proof. destruct e; cbn; intros [= <-]; own_code. Qed.
(** The worker was told to stop. *)
Definition told_to_stop (log : log_of) : Prop := existT PwStopped true ∈ log.
Lemma mark_failed_verdict plan worker e log : runs (mark_failed (C := C) plan worker e) log tt →
  (verdicts log = [] ∧ told_to_stop log) ∨ verdicts log = [GaveUp (ep_id plan) worker (executionPlanFailureCode e)].
Proof.
  intros H. unfold mark_failed in H. apply runs_bind in H as (l1 & stopped & l2 & -> & Hc & H). pose proof (runs_call PwStopped _ stopped Hc) as ->. clear Hc.
  destruct stopped; [apply runs_ret in H as [-> _]; left; split; [done|by constructor]|]. apply runs_bind in H as (l3 & now & l4 & -> & Hc & H). pose proof (runs_call PwNow _ now Hc) as ->. clear Hc.
  apply runs_bind in H as (l5 & r & l6 & -> & Hc & H). pose proof (runs_call (PwMarkFailed _ _ _ _) _ r Hc) as ->. clear Hc. apply runs_ret in H as [-> _]. by right.
Qed.
(** The end of a build, after what [log] already says. *)
Definition settled (plan : ExecutionPlan) (worker : string) (log : log_of) : Prop :=
  one_verdict plan worker (verdicts log) ∧ (verdicts log = [] → told_to_stop log).
Lemma failed_settled plan worker e log : own_failure e → runs (mark_failed (C := C) plan worker e) log tt → settled plan worker log.
Proof. intros He [[V Hs]|V]%mark_failed_verdict; split; rewrite V; [constructor|done|by constructor|done]. Qed.
Lemma complete_settled plan worker req log : mr_plan_id req = ep_id plan → mr_worker_id req = worker → runs (complete_plan (C := C) plan worker req) log tt → settled plan worker log.
Proof.
  intros H1 H2 H. unfold complete_plan in H. apply runs_bind in H as (l1 & stopped & l2 & -> & Hc & H). pose proof (runs_call PwStopped _ stopped Hc) as ->. clear Hc.
  destruct stopped; [apply runs_ret in H as [-> _]; split; [constructor|intros _; by constructor]|]. apply runs_bind in H as (l3 & reply & l4 & -> & Hc & H).
  pose proof (runs_call (PwMarkReady _) _ reply Hc) as ->. clear Hc. destruct reply as [[]|e]; [apply runs_ret in H as [-> _]; split; [by constructor|done]|].
  destruct (ready_failure e) as [code|] eqn:Ef; [|apply runs_ret in H as [-> _]; split; [by constructor|done]].
  pose proof (ready_failure_own _ _ Ef) as Hown. apply mark_failed_verdict in H. unfold settled. rewrite !verdicts_app. change (verdicts [existT PwStopped false]) with (@nil verdict).
  change (verdicts [existT (PwMarkReady req) (Err e)]) with [Completed req (Err e)]. cbn [app]. destruct H as [[V Hs]|V]; (split; [|done]); rewrite V.
  - by constructor.
  - unfold executionPlanFailureCode. rewrite bool_decide_false by (by apply failure_code_accepted). by eapply verdict_refused.
Qed.
Lemma construct_identity fuel configured worker plan (log : log_of) req : runs (constructExecutionPlanSnapshot fuel configured worker plan) log (Some (Ok req)) →
  mr_plan_id req = ep_id plan ∧ mr_worker_id req = worker.
Proof. intros (cts & wcs & preview & B)%construct_built. by destruct (bt_request _ _ _ _ _ _ _ _ _ B) as (? & ? & _). Qed.

Lemma build_settled worker plan r heartbeat (log : log_of) : own_end log r → (∀ message, r ≠ Err (BuildPanicked message)) → (∀ req, r = Ok req → mr_plan_id req = ep_id plan ∧ mr_worker_id req = worker) →
  guard_error heartbeat r ≠ Some ErrExecutionPlanBuildLease → ∀ l, runs (match guard_error heartbeat r with
           | Some ErrExecutionPlanBuildLease => mret tt
           | Some _ => mark_failed plan worker (executionPlanBuildFailure executionPlanFailureStoreUnavailable)
           | None => match r with
                     | Ok req => complete_plan plan worker req
                     | Err (BuildFailed err) => mark_failed plan worker err
                     | Err (StageLost _) | Err (BuildPanicked _) => mret tt
                     end
           end) l tt → settled plan worker l.
Proof.
  intros Ho Hp Hi Hn l H. destruct (guard_error heartbeat r) as [e|] eqn:Eg.
  - assert (runs (mark_failed plan worker (executionPlanBuildFailure executionPlanFailureStoreUnavailable)) l tt) as Hm by (by destruct e).
    eapply failed_settled; [|exact Hm]. apply own_build_failure. own_code.
  - destruct r as [req|[err|e|m]]; [by eapply complete_settled; [..|exact H]; apply Hi|by eapply failed_settled|by destruct heartbeat|by destruct (Hp m)].
Qed.
Lemma lease_error_dec (o : option EPError) : {o = Some ErrExecutionPlanBuildLease} + {o ≠ Some ErrExecutionPlanBuildLease}.
Proof. destruct o as [[]|]; first [left; reflexivity|right; discriminate]. Qed.
Lemma settled_codes plan worker vs p w code : one_verdict plan worker vs → GaveUp p w code ∈ vs → code ∈ failure_codes.
Proof.
  intros [|c Hc|req r _ _|req e c _ _ Hc _] Hin; repeat (apply elem_of_cons in Hin as [Hin|Hin]; [first [discriminate Hin|by injection Hin as -> -> ->]|]); by apply not_elem_of_nil in Hin.
Qed.

(** The only panic of a build is that of the simulation of its preview. *)
Lemma construct_panic fuel configured worker plan (log : log_of) message :
  runs (constructExecutionPlanSnapshot fuel configured worker plan) log (Some (Err (BuildPanicked message))) → message = simulation_panic.
Proof.
  unfold constructExecutionPlanSnapshot. destruct (negb (plan_complete plan)); [by intros [_ ?]%runs_ret|]. intros H.
  apply runs_bind in H as (l1 & inputs & l2 & -> & Hi & H). destruct inputs as [[items wallets]|e].
  2:{ apply runs_ret in H as [-> [= <-]]. by apply calm_inputs in Hi. }
  apply runs_bind in H as (l3 & r & l4 & -> & Hp & H). destruct r as [[preview|e]|]; [| |by destruct H].
  { apply runs_bind in H as (l5 & r & l6 & -> & Hf & H). apply runs_ret in H as [-> [= <-]]. by apply calm_finish in Hf. }
  apply runs_ret in H as [-> [= <-]]. unfold build_preview in Hp. apply runs_bind in Hp as (l5 & r & l6 & -> & Hb & Hp).
  destruct r as [[preview|[err|m]]|]; [by destruct (_ || _) in Hp; destruct Hp| | |by destruct Hp].
  { apply runs_bind in Hp as (? & ? & ? & -> & _ & Hp). by destruct Hp. }
  apply runs_ret in Hp as [-> [= ->]]. apply embed_runs in Hb as [l Hb]. apply build_panic in Hb as (? & ? & ? & ? & _ & _ & _ & -> & _). done.
Qed.
Lemma panicked_dec {A} (r : result build_end A) : (∃ message, r = Err (BuildPanicked message)) ∨ ∀ message, r ≠ Err (BuildPanicked message).
Proof. destruct r as [|[| |m]]; [by right..|left; by exists m]. Qed.

(** C25: However the build of a claimed plan goes, with whatever the services and the store reply,
    the worker reports at most one verdict on that plan that counts: READY, with a request for
    this plan and this worker, or FAILED, with a code of its own that the store accepts; FAILED
    after READY only when the store refused READY with an error that calls for it.  When the
    guard of the lease has found it lost, the worker does nothing more; otherwise a worker that
    reports nothing was told to stop, or crashed: a panic of the simulation of the preview, the
    one of its decimals, ends the process there, with no verdict and no further operation. *)
Theorem plan_build_verdict fuel configured worker plan (log : log_of) ended : runs (buildClaimedExecutionPlan fuel configured worker plan) log (Some ended) →
  one_verdict plan worker (verdicts log)
  ∧ (∀ p w code, GaveUp p w code ∈ verdicts log → code ≠ EmptyString ∧ normalizeExecutionPlanCode code = Ok code)
  ∧ match ended with
    | Crashes message => message = simulation_panic ∧ verdicts log = []
        ∧ runs (constructExecutionPlanSnapshot fuel configured worker plan) log (Some (Err (BuildPanicked message)))
    | Completes => ∃ l1 r heartbeat l2, log = l1 ++ existT PwHeartbeat heartbeat :: l2 ∧ runs (constructExecutionPlanSnapshot fuel configured worker plan) l1 (Some r)
        ∧ (∀ message, r ≠ Err (BuildPanicked message))
        ∧ verdicts l1 = [] ∧ match guard_error heartbeat r with Some ErrExecutionPlanBuildLease => l2 = [] | _ => verdicts log = [] → told_to_stop l2 end
    end.
Proof.
  unfold buildClaimedExecutionPlan. intros H. apply runs_bind in H as (l1 & [r|] & l2 & -> & Hb & H); [|by destruct H]. destruct (quiet_construct _ _ _ _ _ _ Hb) as [V Ho].
  destruct (panicked_dec r) as [[message ->]|Hp].
  { apply runs_ret in H as [-> [= ->]]. rewrite app_nil_r, V. split; [constructor|]. split; [by intros ? ? ? ?%not_elem_of_nil|]. split; [by eapply construct_panic|by split]. }
  assert (∀ k, runs (match r with Err (BuildPanicked message) => mret (Some (Crashes message)) | _ => k end) l2 (Some ended) → runs k l2 (Some ended)) as Hk.
  { intros k. clear -Hp. destruct r as [|[| |m]]; try done. by destruct (Hp m). }
  apply Hk in H. clear Hk.
  apply runs_bind in H as (l3 & heartbeat & l4 & -> & Hc & H). pose proof (runs_call PwHeartbeat _ heartbeat Hc) as ->. clear Hc. apply runs_bind in H as (l5 & [] & l6 & -> & H & Hr).
  apply runs_ret in Hr as [-> [= ->]]. rewrite app_nil_r. assert (verdicts (l1 ++ [existT PwHeartbeat heartbeat] ++ l5) = verdicts l5) as E by (by rewrite !verdicts_app, V).
  rewrite E. assert (one_verdict plan worker (verdicts l5) ∧ match guard_error heartbeat r with Some ErrExecutionPlanBuildLease => l5 = [] | _ => verdicts l5 = [] → told_to_stop l5 end) as [H1 H2].
  { destruct (lease_error_dec (guard_error heartbeat r)) as [Hg|Hg].
    - rewrite Hg in H |- *. apply runs_ret in H as [-> _]. split; [constructor|exact eq_refl].
    - eapply (build_settled worker plan r heartbeat l1) in H as [S1 S2]; [|exact Ho|done|intros req ->; by eapply construct_identity|done].
      split; [exact S1|]. clear -S2 Hg. destruct (guard_error heartbeat r) as [[]|]; try exact S2. destruct (Hg eq_refl). }
  split_and!; [done| |by exists l1, r, heartbeat, l5]. intros p w code Hin. by eapply failure_code_accepted, settled_codes.
Qed.
End Verdict.

(** ** Witness *)
(** * Execution plans: a worker at work

    The services a worker of the plan of the scenario meets, and its runs: one in which every
    service answers, and one in which the lease is lost. *)
#[local] Open Scope Z_scope.
Import Prelude.Concrete.

Definition sample_outcome (yes : bool) : OrderEventCatalogOutcome := {|
  oo_is_yes := yes; oo_label := if yes then "Yes" else "No"; oo_selectable := true; oo_unavailable_code := ""; oo_max_leverage := "2.0" |}.
Definition catalog_market (event : string) (n : N) : OrderEventCatalogMarket := {|
  om_market_condition_id := mi_market_condition_id (sample_market n); om_event_condition_id := event; om_backend := "polymarket"; om_unavailable_code := "";
  om_outcomes := [Some (sample_outcome true); Some (sample_outcome false)] |}.
Definition sample_catalog (event : string) : GetOrderEventCatalogResponse := {|
  ocr_fetched_at := 1700000000; ocr_event := Some {| oc_event_condition_id := event; oc_markets := Some <$> [catalog_market event 31; catalog_market event 32] |} |}.
Definition sample_snapshot (r : Z * string) : WalletConnectionSnapshot := {|
  ws_wallet_id := r.1; ws_requested_address := r.2; ws_stored_address := r.2; ws_state := ConnectionStateConnected; ws_warning_code := "";
  ws_connected_at := second; ws_connection_created := second; ws_connection_updated := second; ws_active_credential := Some (mapCredential (wallet_credential r.1)) |}.
(** The adapter reads the balances from the node, which answers at once. *)
Definition read_node (o : read_op) (s : unit) : unit * read_resp o :=
  match o return unit * read_resp o with ReadShared _ addresses keys => (s, Ok (drive sample_node (readUniqueBalances addresses keys) false).2) end.
Definition sample_adapter (refs : list WalletBalanceReference) : result go_error (list WalletBalanceResult) := (drive read_node (BatchGetBalances true refs) tt).2.
Definition sample_preview (o : preview_op (C := nat)) : preview_resp o :=
  match o return preview_resp o with
  | POpCtxErr => None
  | POpEstimate _ => Ok (Some (estimate_reply "5.1" "0.1"))
  | POpListMarginPositions _ _ => Ok (Some {| lmp_positions := []; lmp_meta := meta None |})
  | POpListPositionRequests _ _ => Ok (Some {| lpr_requests := []; lpr_meta := meta None |})
  end.
(** [heartbeat]: what the heartbeat of the lease has found. *)
Definition service_reply (heartbeat : option EPError) (o : plan_worker_op (C := nat)) : plan_worker_resp o :=
  match o return plan_worker_resp o with
      | PwNow => 25 * second
      | PwStopped => false
      | PwClaim _ _ _ => Ok None
      | PwCleanup _ _ => Ok 0
      | PwWait _ => false
      | PwProgress _ => Ok tt
      | PwCatalog event => Ok (Some (sample_catalog event))
      | PwSnapshots refs => Ok (sample_snapshot <$> refs)
      | PwDecrypt _ _ _ => Ok ("key", "secret")
      | PwNewClient _ => Ok 0%nat
      | PwBalances refs => sample_adapter refs
      | PwPreview o => sample_preview o
      | PwReconnectRequired _ _ _ => tt
      | PwHeartbeat => heartbeat
      | PwMarkReady _ => Ok tt
      | PwMarkFailed _ _ _ _ => Ok tt
      end.
Definition services (heartbeat : option EPError) (o : plan_worker_op (C := nat)) (s : unit) : unit * plan_worker_resp o := (s, service_reply heartbeat o).
Definition claimed_plan : ExecutionPlan :=
  match ClaimExecutionPlan plan_wait 0 "w1" (60 * second) (20 * second) plan_requested with
  | Ok (_, Some plan) => plan
  | _ => mapExecutionPlan blank_row
  end.
Definition sample_build := constructExecutionPlanSnapshot (C := nat) 4 true "w1" claimed_plan.
Definition build_log := logged (services None) sample_build tt.
Definition built_request : MarkExecutionPlanReadyRequest :=
  match (drive (services None) sample_build tt).2 with Some (Ok req) => req | _ => sample_ready end.
Example built_steps : (λ s, (sp_ordinal s, sp_disposition s, sp_projected_usdc_after s)) <$> mr_steps built_request
  = [(1, "READY", "7.4"); (2, "READY", "2.3"); (3, "READY", "7.4"); (4, "READY", "2.3")].
Proof. vm_compute. reflexivity. Qed.
Lemma sample_claim : ClaimExecutionPlan plan_wait 0 "w1" (60 * second) (20 * second) plan_requested = Ok (plan_claimed, Some claimed_plan).
Proof. vm_compute. reflexivity. Qed.
Lemma build_runs : runs (constructExecutionPlanSnapshot (C := nat) 4 true "w1" claimed_plan) build_log (Some (Ok built_request)).
Proof.
  fold sample_build.   replace (Some (Ok built_request)) with (drive (services None) sample_build tt).2 by (vm_compute; reflexivity). apply drive_runs.
Qed.
Lemma service_replies {A} heartbeat (p : program (plan_worker_resp (C := nat)) A) e :
  e ∈ logged (services heartbeat) p tt → e = existT (projT1 e) (service_reply heartbeat (projT1 e)).
Proof.
  induction p as [a|o k IH]; cbn [logged]; intros H; [by apply not_elem_of_nil in H|]. apply elem_of_cons in H as [->|H]; [done|]. by eapply IH.
Qed.

Import Prelude.Concrete.
Definition run_log (heartbeat : option EPError) := logged (services heartbeat) (buildClaimedExecutionPlan (C := nat) 4 true "w1" claimed_plan) tt.
Definition count_verdicts (heartbeat : option EPError) : list bool := (λ v, match v with Completed _ _ => true | GaveUp _ _ _ => false end) <$> verdicts (run_log heartbeat).
Example verdict_counts : (count_verdicts <$> [None; Some ErrExecutionPlanBuildLease; Some ErrExecutionPlanNotFound]) = [[true]; []; [false]].
Proof. vm_compute. reflexivity. Qed.
Lemma run_log_runs heartbeat : (drive (services heartbeat) (buildClaimedExecutionPlan (C := nat) 4 true "w1" claimed_plan) tt).2 = Some Completes →
  runs (buildClaimedExecutionPlan (C := nat) 4 true "w1" claimed_plan) (run_log heartbeat) (Some Completes).
Proof. intros H. rewrite <- H. unfold run_log. apply drive_runs. Qed.
Lemma plan_build_verdict_witness : count_verdicts None = [true] ∧ one_verdict claimed_plan "w1" (verdicts (run_log None)).
Proof.
  split; [vm_compute; reflexivity|]. refine (proj1 (plan_build_verdict 4 true "w1" claimed_plan (run_log None) Completes (run_log_runs None _))). vm_compute. reflexivity.
Defined.
