(* ===== verification/PlanWorkerTheorems.v ===== *)
(** * Execution plans: theorems on the worker

    The store accepts what the worker built, the totals of a plan are exact, and a build ends
    in one verdict. *)

From S2P Require Import Prelude Prog Sql CashOutTypes CashOutStages CashOutWorker ConnectionTypes ConnectionStore ConnectionService Selection.
From S2P Require Import CashOutStore Decimal Preview PreviewExposure PreviewSimulation Combination CombinationSpec CombinationRefine.
From S2P Require Import CombinationTheorems Plan PlanStore PlanView PlanReady PlanInv PlanScenario PlanReads PlanAccept PlanPreview Solana.
From S2P Require Import SolanaTheorems PlanWorker PlanWorkerLaws PlanRequest PlanVerdict ConnectionScenario.
From stdpp Require Import base tactics option list list_numbers sorting strings gmap relations.
From Stdlib Require Import ZArith QArith Lia Ascii.
#[local] Open Scope Z_scope.

(** ** The balances of the adapter *)
Section Adapter.
Context {SL : SolanaLib} {SR : SolanaRpc} {CL : ChallengeLib} {C : Type}.
Definition worker_log := list {o : plan_worker_op (C := C) & plan_worker_resp o}.
End Adapter.

(** ** The plan of the store *)
Section Store.
Context {UL : UuidLib} {UW : UuidLaws} {PT : PgText} {SL : SolanaLib} {PL : PgLower} {BL : Base58Laws}.
End Store.

Section Theorems.
Context {UL : UuidLib} {UW : UuidLaws} {PT : PgText} {SL : SolanaLib} {SR : SolanaRpc} {CL : ChallengeLib} {PL : PgLower} {BL : Base58Laws} {C : Type}.


(** C19: The totals of a built plan are exact: its collateral, its fees and the funds it needs are
    the sums, over the READY steps, of the funds, the fee and the funds needed of the item of the
    step, as decimals without rounding, and the funds needed are the collateral and the fees. *)
Theorem plan_totals_exact fuel configured worker plan (log : worker_log (C := C)) req :
  Z.of_nat (length (ep_wallets plan)) ≤ max_int32 → Z.of_nat (length (ep_items plan)) ≤ max_int32 →
  runs (constructExecutionPlanSnapshot fuel configured worker plan) log (Some (Ok req)) →
  (text_amount (tot_collateral (mr_totals req)) == ready_total is_funds req)%Q
  ∧ (text_amount (tot_opening_fee (mr_totals req)) == ready_total (λ i, pe_fee_amount (is_estimate i)) req)%Q
  ∧ (text_amount (tot_user_funds_needed (mr_totals req)) == ready_total (λ i, pe_user_funds_needed (is_estimate i)) req)%Q
  ∧ (text_amount (tot_user_funds_needed (mr_totals req)) == text_amount (tot_collateral (mr_totals req)) + text_amount (tot_opening_fee (mr_totals req)))%Q.
Proof.
  intros Lw Li Hr. destruct (construct_built _ _ _ _ _ _ Hr) as (cts & wcs & preview & B). pose proof (built_costs _ _ _ _ _ _ _ _ _ B Lw Li) as (E & T & Hitem & Hcost).
  rewrite (tx_collateral _ _ T), (tx_fee _ _ T), (tx_needed _ _ T). split_and!; [..|by apply ready_sum_cost].
  - apply (ready_sum_total _ _ _ _ E). intros s Hs Ho. destruct (Hitem s Hs Ho) as (o & ? & ? & ? & ?). by exists o.
  - apply (ready_sum_total _ (λ i, pe_fee_amount (is_estimate i)) _ _ E). intros s Hs Ho. destruct (Hitem s Hs Ho) as (o & ? & ? & ? & ?). by exists o.
  - apply (ready_sum_total _ (λ i, pe_user_funds_needed (is_estimate i)) _ _ E). intros s Hs Ho. destruct (Hitem s Hs Ho) as (o & ? & ? & ? & ?). by exists o.
Qed.
End Theorems.

(** ** Witnesses *)
Import Prelude.Concrete.
Example built_plan_ready : match MarkExecutionPlanReady 0 built_request plan_claimed with Ok (_, p) => ep_totals p | Err _ => mr_totals sample_ready end
  = {| tot_collateral := "20"; tot_opening_fee := "0.4"; tot_user_funds_needed := "20.4" |}.
Proof. vm_compute. reflexivity. Qed.
Lemma plan_totals_exact_witness : (text_amount "20" == ready_total is_funds built_request)%Q ∧ (text_amount "20.4" == text_amount "20" + text_amount "0.4")%Q.
Proof.
  assert (mr_totals built_request = {| tot_collateral := "20"; tot_opening_fee := "0.4"; tot_user_funds_needed := "20.4" |}) as E by (vm_compute; reflexivity).
  destruct (plan_totals_exact 4 true "w1" claimed_plan build_log built_request) as (H1 & _ & _ & H4); [vm_compute; discriminate|vm_compute; discriminate|exact build_runs|].
  rewrite E in H1, H4. split; [exact H1|exact H4].
Defined.
