(* ===== verification/PlanService.v ===== *)
(** * Execution plans: the handlers

    [internal/wormtrading/execution_plans.go]: the requests for a plan, its details and its
    steps, with what they validate, the errors they answer and the messages they build.  The
    selection of the wallets is read before the transaction that creates the plan, on the
    database as it is then. *)

From S2P Require Import Prelude Sql CashOutTypes CashOutStore ConnectionTypes ConnectionStore ConnectionService Selection Combination Decimal Plan.
From S2P Require Import PlanStore.
From stdpp Require Import base tactics option list list_numbers sorting strings gmap.
From Stdlib Require Import ZArith Lia Ascii.
#[local] Open Scope Z_scope.

(** ** Messages *)
Record plan_request := {
  prq_owner_account_id : string; prq_combination_id : string; prq_expected_combination_revision : Z; prq_wallet_selection_revision : Z;
  prq_wallets : list (option ExecutionPlanWalletInput) }.
Record GetExecutionPlanRequest := { gpr_owner_account_id : string; gpr_id : string }.
Record ListExecutionPlanStepsRequest := { lpr_owner_account_id : string; lpr_id : string; lpr_page : Z; lpr_page_size : Z }.
Record connection_message := { cnm_wallet_id : Z; cnm_address : string; cnm_state : string; cnm_warning_code : string; cnm_connected_at : Z }.
Record token_message := { tkm_mint : string; tkm_balance : balance_snapshot; tkm_token_account_count : Z }.
Record wallet_message := {
  wam_ordinal : Z; wam_input : ExecutionPlanWalletInput; wam_status : string; wam_reason_code : string; wam_connection : option connection_message;
  wam_sol : option balance_snapshot; wam_usdc : option token_message }.
(** The liquidation price of an estimate is optional. *)
Record estimate_message := { esm_estimate : ExecutionPlanEstimate; esm_liquidation_price : option string }.
Record item_message := {
  itm_ordinal : Z; itm_input : MarketCombinationItemInput; itm_backend : string; itm_funds : string; itm_leverage : string; itm_state : string;
  itm_reason_code : string; itm_estimate : option estimate_message }.
Record plan_message := {
  plm_id : string; plm_owner_account_id : string; plm_combination_id : string; plm_combination_name : string; plm_combination_revision : Z;
  plm_wallet_selection_revision : Z; plm_state : string; plm_build_stage : string; plm_failure_code : string; plm_wallet_count : Z;
  plm_item_count : Z; plm_total_step_count : Z; plm_completed_step_count : Z; plm_ready_step_count : Z; plm_skipped_step_count : Z;
  plm_totals : plan_totals; plm_requested_at : Z; plm_completed_at : Z; plm_expires_at : Z; plm_retention_until : Z; plm_created_at : Z;
  plm_updated_at : Z; plm_wallets : list wallet_message; plm_items : list item_message; plm_usability_code : string;
  plm_reason_counts : list ExecutionPlanReasonCount }.
Record ListExecutionPlanStepsResponse := { lsr_items : list ExecutionPlanStep; lsr_total : Z; lsr_page : Z; lsr_page_size : Z }.

Definition plan_state_text (s : ExecutionPlanState) : string :=
  match s with ExecutionPlanStateBuilding => "BUILDING" | ExecutionPlanStateReady => "READY" | ExecutionPlanStateFailed => "FAILED" end.
Definition executionPlanUnix (value : Z) : Z := if value =? 0 then 0 else unix_seconds value.
Definition executionPlanEstimateObserved (e : ExecutionPlanEstimate) : bool :=
  existsb (λ v, negb (bool_decide (v = EmptyString)))
    [pe_average_price e; pe_total_shares e; pe_total_cost e; pe_best_ask e; pe_worst_fill_price e; pe_fee_amount e; pe_user_funds_needed e;
     pe_liquidation_price e].
Definition executionPlanEstimateToProto (e : ExecutionPlanEstimate) : estimate_message := {|
  esm_estimate := e; esm_liquidation_price := if bool_decide (pe_liquidation_price e = EmptyString) then None else Some (pe_liquidation_price e) |}.
Definition executionPlanWalletToProto (w : ExecutionPlanWallet) : wallet_message :=
  let i := pw_input w in let s := pw_snapshot w in {|
  wam_ordinal := pw_ordinal w; wam_input := i; wam_status := sn_status s; wam_reason_code := sn_reason_code s;
  wam_connection := if bool_decide (sn_connection_state s = EmptyString) then None
                    else Some {| cnm_wallet_id := pwi_wallet_id i; cnm_address := pwi_address i; cnm_state := sn_connection_state s;
                                 cnm_warning_code := sn_connection_warning_code s; cnm_connected_at := executionPlanUnix (pw_connected_at w) |};
  wam_sol := if bool_decide (bal_availability (sn_sol s) = EmptyString) then None else Some (sn_sol s);
  wam_usdc := if bool_decide (bal_availability (sn_usdc s) = EmptyString) then None
              else Some {| tkm_mint := sn_usdc_mint s; tkm_balance := sn_usdc s; tkm_token_account_count := sn_usdc_token_account_count s |} |}.
Definition executionPlanItemToProto (i : ExecutionPlanItem) : item_message :=
  let s := pi_snapshot i in {|
  itm_ordinal := pi_ordinal i; itm_input := pi_input i; itm_backend := is_backend s; itm_funds := is_funds s; itm_leverage := is_leverage s;
  itm_state := is_state s; itm_reason_code := is_reason_code s;
  itm_estimate := if executionPlanEstimateObserved (is_estimate s) then Some (executionPlanEstimateToProto (is_estimate s)) else None |}.
(** The message of a step has the fields of the step that is read. *)
Definition executionPlanStepToProto (s : ExecutionPlanStep) : ExecutionPlanStep := s.
Definition executionPlanToProto (p : ExecutionPlan) : plan_message := {|
  plm_id := ep_id p; plm_owner_account_id := ep_owner_account_id p; plm_combination_id := ep_combination_id p;
  plm_combination_name := ep_combination_name p; plm_combination_revision := ep_combination_revision p;
  plm_wallet_selection_revision := ep_wallet_selection_revision p; plm_state := plan_state_text (ep_state p); plm_build_stage := ep_build_stage p;
  plm_failure_code := ep_failure_code p; plm_wallet_count := ep_wallet_count p; plm_item_count := ep_item_count p;
  plm_total_step_count := ep_total_step_count p; plm_completed_step_count := ep_completed_step_count p; plm_ready_step_count := ep_ready_step_count p;
  plm_skipped_step_count := ep_skipped_step_count p; plm_totals := ep_totals p; plm_requested_at := executionPlanUnix (ep_requested_at p);
  plm_completed_at := executionPlanUnix (ep_completed_at p); plm_expires_at := executionPlanUnix (ep_expires_at p);
  plm_retention_until := executionPlanUnix (ep_retention_until p); plm_created_at := executionPlanUnix (ep_created_at p);
  plm_updated_at := executionPlanUnix (ep_updated_at p); plm_wallets := executionPlanWalletToProto <$> ep_wallets p;
  plm_items := executionPlanItemToProto <$> ep_items p; plm_usability_code := ep_usability_code p; plm_reason_counts := ep_reason_counts p |}.
Definition executionPlanRPCError (err : EPError) : rpc_error :=
  match err with
  | ErrExecutionPlanNotFound | ErrExecutionPlanCombinationNotFound => status NotFound "execution plan not found"
  | ErrExecutionPlanRevision | ErrExecutionPlanCombinationChanged => status Aborted "market combination revision conflict"
  | ErrExecutionPlanWalletConnectionChanged => status FailedPrecondition "execution plan wallet connection changed"
  | ErrExecutionPlanCredentialChanged => status FailedPrecondition "execution plan wallet credential changed"
  | ErrExecutionPlanWalletSelectionChanged => status FailedPrecondition "WALLET_SELECTION_CHANGED"
  | ErrExecutionPlanBuildLease => status Aborted "execution plan build lease was lost"
  | ErrInvalidExecutionPlan _ => {| st_code := InvalidArgument; st_message := None |}
  | EPCanceled => {| st_code := Canceled; st_message := None |}
  | EPDeadlineExceeded => {| st_code := DeadlineExceeded; st_message := None |}
  | _ => status Internal "execution plan store operation failed"
  end.

Section Handlers.
Context {UL : UuidLib} {PT : PgText} {SL : SolanaLib} {CL : ChallengeLib} {PL : PgLower}.
Fixpoint wallet_inputs (values : list (option ExecutionPlanWalletInput)) (ids : gset Z) (addresses : gset string) :
    result rpc_error (list ExecutionPlanWalletInput) :=
  match values with
  | [] => Ok []
  | None :: _ => Err {| st_code := InvalidArgument; st_message := None |}
  | Some value :: values' =>
      _ ← normalizeWormWalletReference (pwi_wallet_id value) (pwi_address value);
      _ ← require (negb (bool_decide (pwi_wallet_id value ∈ ids))) (status InvalidArgument "wallet_id values must be unique");
      _ ← require (negb (bool_decide (pwi_address value ∈ addresses))) (status InvalidArgument "wallet address values must be unique");
      let trimmed := trim_wallet value in
      _ ← require (bool_decide (pwi_remark trimmed = pwi_remark value) && bool_decide (pwi_avatar_kind trimmed = pwi_avatar_kind value)
                   && bool_decide (pwi_avatar_preset_id trimmed = pwi_avatar_preset_id value) && bool_decide (pwi_avatar_url trimmed = pwi_avatar_url value))
            {| st_code := InvalidArgument; st_message := None |};
      rest ← wallet_inputs values' ({[pwi_wallet_id value]} ∪ ids) ({[pwi_address value]} ∪ addresses);
      Ok (value :: rest)
  end.
Definition executionPlanWalletInputsFromProto (values : list (option ExecutionPlanWalletInput)) : result rpc_error (list ExecutionPlanWalletInput) :=
  _ ← require (negb (Nat.eqb (length values) 0)) (status InvalidArgument "wallets must contain at least one wallet");
  wallet_inputs values ∅ ∅.
(** An operation of the store as a handler calls it: it commits, or its error is translated. *)
Definition plan_rpc (m : ep_tx ExecutionPlan) : tx EDB rpc_error plan_message :=
  λ db, match m db with Ok (db', p) => Ok (db', executionPlanToProto p) | Err e => Err (executionPlanRPCError e) end.
(** [before]: the wallets when the selection is read; [clock]: [time.Now]. *)
Definition svc_CreateExecutionPlan (s : service_state) (before : WDB) (newID : N) (clock : Z) (req : plan_request) : tx EDB rpc_error plan_message :=
  owner ← tx_lift (normalizeMarketCombinationAccountID (prq_owner_account_id req));
  combination ← tx_lift (normalizeMarketCombinationID (prq_combination_id req));
  _ ← ensure (0 <? prq_expected_combination_revision req) (status InvalidArgument "expected_combination_revision must be positive");
  _ ← ensure (0 <? prq_wallet_selection_revision req) (status InvalidArgument "wallet_selection_revision must be positive");
  wallets ← tx_lift (executionPlanWalletInputsFromProto (prq_wallets req));
  _ ← tx_lift (requireMarketCombinationStore s);
  selection ← tx_lift (match GetWalletSelection owner before with Ok a => Ok a | Err e => Err (walletSelectionRPCError e) end);
  _ ← ensure (wsel_configured selection && (wsel_revision selection =? prq_wallet_selection_revision req)) (status FailedPrecondition "WALLET_SELECTION_CHANGED");
  _ ← ensure (forallb (λ w, walletSelectionContains selection (pwi_wallet_id w) (pwi_address w)) wallets) (status FailedPrecondition "WALLET_NOT_SELECTED");
  plan_rpc (CreateExecutionPlan newID clock {| cpr_owner_account_id := owner; cpr_combination_id := combination;
              cpr_expected_combination_revision := prq_expected_combination_revision req;
              cpr_wallet_selection_revision := prq_wallet_selection_revision req; cpr_wallets := wallets; cpr_now := clock |}).
Definition svc_GetExecutionPlan (s : service_state) (clock : Z) (req : GetExecutionPlanRequest) (db : EDB) : result rpc_error plan_message :=
  owner ← normalizeMarketCombinationAccountID (gpr_owner_account_id req);
  plan ← normalizeMarketCombinationID (gpr_id req);
  _ ← requireMarketCombinationStore s;
  match GetExecutionPlan clock owner plan clock db with Ok p => Ok (executionPlanToProto p) | Err e => Err (executionPlanRPCError e) end.
Definition svc_ListExecutionPlanSteps (s : service_state) (req : ListExecutionPlanStepsRequest) (db : EDB) : result rpc_error ListExecutionPlanStepsResponse :=
  owner ← normalizeMarketCombinationAccountID (lpr_owner_account_id req);
  plan ← normalizeMarketCombinationID (lpr_id req);
  _ ← require (0 <? lpr_page req) (status InvalidArgument "page must be positive");
  _ ← require ((0 <? lpr_page_size req) && (lpr_page_size req <=? maxExecutionPlanStepPageSize)) (status InvalidArgument "page_size must be between 1 and 100");
  _ ← requireMarketCombinationStore s;
  match ListExecutionPlanSteps owner plan (lpr_page req) (lpr_page_size req) db with
  | Ok (steps, total) =>
      Ok {| lsr_items := executionPlanStepToProto <$> steps; lsr_total := total; lsr_page := lpr_page req; lsr_page_size := lpr_page_size req |}
  | Err e => Err (executionPlanRPCError e)
  end.
End Handlers.
