(* ===== verification/PlanServiceTheorems.v ===== *)
(** * Execution plans: theorems on the handlers

    What a request for a plan froze is what its owner, and nobody else, is shown. *)

From S2P Require Import Prelude Sql CashOutTypes CashOutStore ConnectionTypes ConnectionStore ConnectionService Selection Combination.
From S2P Require Import CombinationSpec CombinationRefine CombinationTheorems Decimal Plan PlanStore PlanView PlanReady PlanInv PlanScenario.
From S2P Require Import PlanReads PlanService ConnectionScenario.
From stdpp Require Import base tactics option list list_numbers sorting strings gmap relations.
From Stdlib Require Import ZArith Lia Ascii.
#[local] Open Scope Z_scope.

Section Handlers.
Context {UL : UuidLib} {ULaws : UuidLaws} {PT : PgText} {SL : SolanaLib} {CL : ChallengeLib} {PL : PgLower} {BL : Base58Laws}.
Lemma wallet_inputs_ok values ids addresses ws : wallet_inputs values ids addresses = Ok ws → values = Some <$> ws ∧ trim_wallet <$> ws = ws.
Proof.
  revert ids addresses ws. induction values as [|[value|] values IH]; intros ids addresses ws H; cbn [wallet_inputs] in H; [by injection H as <-| |done].
  apply result_bind_ok in H as ([] & Hn & H). repeat (apply result_bind_ok in H as ([] & ?%require_ok & H)). cbv zeta in *.
  apply result_bind_ok in H as (rest & [-> IH2]%IH & H). injection H as <-. split; [done|]. rewrite fmap_cons, IH2. f_equal.
  unfold normalizeWormWalletReference in Hn. apply result_bind_ok in Hn as ([] & _ & Ha%require_ok). bool_prop.
  destruct value as [wid address remark kind preset url]. unfold trim_wallet in *. cbn in *. congruence.
Qed.
Lemma plan_id_again u : (0 < u < 2 ^ 128)%N → normalizeMarketCombinationID (uuid_string u) = Ok (uuid_string u).
Proof using ULaws.
  intros H. unfold normalizeMarketCombinationID. rewrite (trim_space_printable _ (uuid_string_printable u)), uuid_parse_string by lia. by rewrite (proj2 (N.eqb_neq u 0)) by lia.
Qed.
Lemma plan_uuid_again what u : (0 < u < 2 ^ 128)%N → plan_uuid what (uuid_string u) = Ok (u, uuid_string u).
Proof using ULaws.
  intros H. unfold plan_uuid, marketCombinationUUID. rewrite (trim_space_printable _ (uuid_string_printable u)), uuid_parse_string by lia. by rewrite (proj2 (N.eqb_neq u 0)) by lia.
Qed.
(** What a request for a plan is answered. *)
Record frozen_as (db : EDB) (newID owner : N) (req : plan_request) (m : plan_message) : Prop := {
  fa_plan : (plm_id m, plm_owner_account_id m, plm_state m) = (uuid_string newID, uuid_string owner, "BUILDING");
  fa_revisions : (plm_combination_revision m, plm_wallet_selection_revision m)
    = (prq_expected_combination_revision req, prq_wallet_selection_revision req);
  fa_wallets : Some <$> (wam_input <$> plm_wallets m) = prq_wallets req
    ∧ wam_ordinal <$> plm_wallets m = seqZ 1 (Z.of_nat (length (prq_wallets req)));
  fa_selected : ∀ w, Some w ∈ prq_wallets req → selected_at (ed_wallets db) owner (prq_wallet_selection_revision req) (pwi_wallet_id w) (pwi_address w);
  fa_items : ∃ c, GetMarketCombination_query (cr_id c) owner (ed_market db) = Some c ∧ plm_combination_id m = uuid_string (cr_id c)
    ∧ cr_revision c = prq_expected_combination_revision req ∧ itm_input <$> plm_items m = be_items (entry_of (ed_market db) c)
    ∧ plm_total_step_count m = Z.of_nat (length (plm_wallets m)) * Z.of_nat (length (plm_items m)) }.

Lemma get_query_owned db id owner r : plan_inv db → v_row (view db id) = Some r → owner ≠ pl_owner r → GetExecutionPlan_query id owner db = None.
Proof.
  intros I Hr Ho. apply (row_lookup _ _ _ (pv_keys _ I)) in Hr as [Hin He]. unfold GetExecutionPlan_query. destruct (sql_one _ _) as [r'|] eqn:E; [|done].
  apply sql_one_Some in E as [Hin' [Hi%N.eqb_eq Hq%N.eqb_eq]%andb_true_iff]. destruct Ho. rewrite <- Hq. f_equal. eapply NoDup_key_inj; [apply I|done|done|congruence].
Qed.
(** The plan that a committed request shows. *)
Lemma create_shown newID clock req db db' p u : plan_reachable db → (0 < u < 2 ^ 128)%N → cpr_owner_account_id req = uuid_string u →
  CreateExecutionPlan newID clock req db = Ok (db', p) →
  ∃ c row, created db db' (canonicalNow clock (cpr_now req)) req newID u c row ∧ plan_reachable db' ∧ sound (view db' newID)
    ∧ p = set_plan_owner (uuid_string u) (details_of (view db' newID) row [] "").
Proof using BL ULaws.
  intros Hd Hu Ho H. pose proof (create_ok _ _ _ _ _ _ (plan_reachable_inv _ Hd) H) as (owner & c & row & text & C & Hp & S & q & Hl & ->).
  assert (plan_reachable db') as Hd'.
  { destruct Hd as (w & runs & Hd). exists w, runs. eapply rtc_r; [exact Hd|].
    replace db' with (run_tx (plan_step (PlanCreate newID clock req)) db).1 by (unfold run_tx; cbn [plan_step]; unfold mbind, tx_bind; by rewrite H). apply next_plan. }
  rewrite Ho, plan_uuid_again in Hp by done. injection Hp as <- <-. exists c, row. split_and!; [done|done|done|]. f_equal.
  assert (pl_id row = newID) as Hid by (unfold pl_id; by rewrite (cd_intent _ _ _ _ _ _ _ _ C)).
  rewrite load_details in Hl; [|by apply plan_reachable_inv|by rewrite Hid, (ch_here _ _ _ _ (cd_change _ _ _ _ _ _ _ _ C))].
  injection (cd_state _ _ _ _ _ _ _ _ C) as Hs _ _. rewrite bool_decide_false in Hl by congruence. rewrite Hid in Hl. by injection Hl.
Qed.

Lemma created_frozen db db' clock create newID u c row req :
  created db db' (canonicalNow clock (cpr_now create)) create newID u c row → sound (view db' newID) →
  cpr_expected_combination_revision create = prq_expected_combination_revision req → cpr_wallet_selection_revision create = prq_wallet_selection_revision req →
  prq_wallets req = Some <$> cpr_wallets create → trim_wallet <$> cpr_wallets create = cpr_wallets create →
  frozen_as db newID u req (executionPlanToProto (set_plan_owner (uuid_string u) (details_of (view db' newID) row [] ""))).
Proof.
  intros C S He Hr Hw Ht. pose proof (cd_intent _ _ _ _ _ _ _ _ C) as Hi. pose proof (ch_here _ _ _ _ (cd_change _ _ _ _ _ _ _ _ C)) as Hv.
  injection (cd_state _ _ _ _ _ _ _ _ C) as Hs _ _. rewrite Hv in *. apply (sound_row _ row) in S; [|done]. pose proof (sh_wallets _ _ S) as Ow. cbn [v_wallets] in Ow.
  rewrite Hi, Ht in *. constructor.
  - cbn. by rewrite Hi, Hs.
  - cbn. rewrite Hi. cbn. by rewrite (cd_revision _ _ _ _ _ _ _ _ C), He, Hr.
  - cbn. rewrite <- !list_fmap_compose. split.
    + rewrite Hw. rewrite <- (new_wallets_inputs newID 0 (cpr_wallets create)) at 2. by rewrite <- list_fmap_compose.
    + rewrite Hw, length_fmap. exact Ow.
  - intros w Hin. rewrite Hw in Hin. apply list_elem_of_fmap in Hin as (w' & [= <-] & Hin). rewrite <- Hr.
    replace (pwi_address w) with (trim_space (pwi_address w)); [by apply (cd_selected _ _ _ _ _ _ _ _ C)|].
    apply list_elem_of_lookup in Hin as [k Hk]. pose proof Hk as Hk'. rewrite <- Ht, list_lookup_fmap, Hk in Hk'. injection Hk' as Hk'. by rewrite <- Hk' at 2.
  - exists c. cbn. rewrite Hi. cbn. split_and!; [exact (cd_combination _ _ _ _ _ _ _ _ C)|done|by rewrite (cd_revision _ _ _ _ _ _ _ _ C)| |].
    + rewrite <- !list_fmap_compose. etrans; [|apply (numbered_inputs newID)]. by rewrite <- !list_fmap_compose.
    + rewrite !length_fmap. unfold numbered. rewrite length_imap. f_equal; [by rewrite <- (length_fmap pwr_input), new_wallets_inputs|by rewrite length_fmap].
Qed.

(** C32: A request for a plan that is answered froze what it asked for: the plan is BUILDING, with
    exactly the wallets of the request in their order, all selected at the revision it names,
    and the items of the combination at the revision it names.  In every later state of the
    store in which the rows of the plan are as they were, whatever happened to the combination,
    the selection of wallets, the runs and other plans, its owner reads the same answer at any
    time, and every other account is told that there is no such plan. *)
Theorem plan_request_frozen s before newID clock req db db' m :
  plan_reachable db → (0 < newID < 2 ^ 128)%N → svc_CreateExecutionPlan s before newID clock req db = Ok (db', m) →
  ∃ owner, normalizeMarketCombinationAccountID (prq_owner_account_id req) = Ok (uuid_string owner) ∧ frozen_as db newID owner req m
    ∧ ∀ later, rtc plan_next db' later → view later newID = view db' newID →
      (∀ clock', svc_GetExecutionPlan s clock' {| gpr_owner_account_id := prq_owner_account_id req; gpr_id := plm_id m |} later = Ok m)
      ∧ ∀ clock' other account, normalizeMarketCombinationAccountID other = Ok account → account ≠ uuid_string owner →
          svc_GetExecutionPlan s clock' {| gpr_owner_account_id := other; gpr_id := plm_id m |} later = Err (status NotFound "execution plan not found").
Proof using BL ULaws.
  intros Hd Hid H. apply plan_reachable_inv in Hd as I. unfold svc_CreateExecutionPlan in H.
  apply tx_bind_ok in H as (? & owner & [-> Ho]%tx_lift_ok & H). apply tx_bind_ok in H as (? & combination & [-> _]%tx_lift_ok & H).
  apply tx_bind_ok in H as (? & ? & [-> _]%ensure_ok & H). apply tx_bind_ok in H as (? & ? & [-> _]%ensure_ok & H). apply tx_bind_ok in H as (? & ws & [-> Hws]%tx_lift_ok & H).
  apply tx_bind_ok in H as (? & [] & [-> Hst]%tx_lift_ok & H). apply tx_bind_ok in H as (? & selection & [-> _]%tx_lift_ok & H).
  apply tx_bind_ok in H as (? & ? & [-> _]%ensure_ok & H). apply tx_bind_ok in H as (? & ? & [-> _]%ensure_ok & H).
  unfold plan_rpc in H. set (create := {| cpr_owner_account_id := _ |}) in H. destruct (CreateExecutionPlan newID clock create db) as [[d p]|e] eqn:E; [|done]. injection H as -> <-.
  destruct (account_uuid _ _ Ho) as (u & Hu & Hu0 & ->). destruct (create_shown newID clock create db db' p u Hd (conj (proj1 (N.neq_0_lt_0 u) Hu0) Hu) eq_refl E) as (c & row & C & Hd' & S & ->).
  apply result_bind_ok in Hws as (? & _ & [Hw Ht]%wallet_inputs_ok). apply N.neq_0_lt_0 in Hu0.
  assert (v_row (view db' newID) = Some row) as Hrow by (by rewrite (ch_here _ _ _ _ (cd_change _ _ _ _ _ _ _ _ C))). pose proof (cd_intent _ _ _ _ _ _ _ _ C) as Hi.
  assert (pl_owner row = u) as Hown by (unfold pl_owner; by rewrite Hi). injection (cd_state _ _ _ _ _ _ _ _ C) as Hs _ _.
  assert (plm_id (executionPlanToProto (set_plan_owner (uuid_string u) (details_of (view db' newID) row [] ""))) = uuid_string newID) as Hm by (cbn; by rewrite Hi).
  exists u. split_and!; [done|eapply (created_frozen _ _ clock create _ _ _ _ _ C S); [done|done|exact Hw|exact Ht]|].
  intros later Hl Hsame. assert (plan_reachable later) as Hd2 by (destruct Hd' as (w & runs & Hd'); exists w, runs; by etrans). rewrite <- Hsame in Hrow, Hm |- *. split.
  - intros clock'. unfold svc_GetExecutionPlan. cbn [gpr_owner_account_id gpr_id]. rewrite Ho, Hm, plan_id_again, Hst by done. cbn [mbind result_bind].
    destruct (plan_get later clock' (uuid_string u) (uuid_string newID) (uuid_string u) newID (uuid_string newID) clock' row Hd2) as (reasons & usability & -> & _ & Hn);
      [rewrite Hown; by apply plan_uuid_again|by apply plan_uuid_again|done|]. destruct Hn as [-> ->]; [congruence|done].
  - intros clock' other account Ha Hne. destruct (account_uuid _ _ Ha) as (v & Hv & Hv0 & ->). apply N.neq_0_lt_0 in Hv0.
    unfold svc_GetExecutionPlan. cbn [gpr_owner_account_id gpr_id]. rewrite Ha, Hm, plan_id_again, Hst by done. cbn [mbind result_bind].
    unfold GetExecutionPlan. rewrite !plan_uuid_again by done. cbn [mbind result_bind fst snd].
    rewrite (get_query_owned _ _ _ row); [done|by apply plan_reachable_inv|done|congruence].
Qed.
End Handlers.

(** ** A concrete request *)
Import Prelude.Concrete.
Definition sample_plan_request : plan_request := {|
  prq_owner_account_id := account 7; prq_combination_id := account 9; prq_expected_combination_revision := 1; prq_wallet_selection_revision := 3;
  prq_wallets := Some <$> [plan_wallet 41; plan_wallet 42] |}.
Example untrimmed_wallet : svc_CreateExecutionPlan running sample_wallets 11 (10 * second) {|
    prq_owner_account_id := account 7; prq_combination_id := account 9; prq_expected_combination_revision := 1; prq_wallet_selection_revision := 3;
    prq_wallets := [Some {| pwi_wallet_id := 41; pwi_address := public_key_string 41; pwi_remark := " savings"; pwi_avatar_kind := "PRESET";
                            pwi_avatar_preset_id := "cat"; pwi_avatar_url := "" |}] |} plan_start
  = Err {| st_code := InvalidArgument; st_message := None |}.
Proof. vm_compute. reflexivity. Qed.
(** The combination of the plan is deleted. *)
Definition combination_gone (db : EDB) : EDB := with_market (run_tx (store_step (OpDelete (account 7) (account 9) 1)) (ed_market db)).1 db.
Example gone_combination : cb_combinations (ed_market (combination_gone plan_requested)) = [].
Proof. vm_compute. reflexivity. Qed.
Lemma plan_request_frozen_witness : ∃ db' m owner,
  svc_CreateExecutionPlan running sample_wallets 11 (10 * second) sample_plan_request plan_start = Ok (db', m)
  ∧ uuid_string owner = account 7 ∧ frozen_as plan_start 11 owner sample_plan_request m
  ∧ svc_GetExecutionPlan running (99 * second) {| gpr_owner_account_id := account 7; gpr_id := plm_id m |} (combination_gone db') = Ok m
  ∧ svc_GetExecutionPlan running (99 * second) {| gpr_owner_account_id := account 8; gpr_id := plm_id m |} (combination_gone db')
    = Err (status NotFound "execution plan not found").
Proof.
  destruct (svc_CreateExecutionPlan running sample_wallets 11 (10 * second) sample_plan_request plan_start) as [[db' m]|e] eqn:E;
    [|exfalso; revert E; vm_compute; discriminate].
  destruct (plan_request_frozen running sample_wallets 11 (10 * second) sample_plan_request plan_start db' m) as (owner & Ho & Hf & Hlater);
    [exact plan_start_reachable|split; vm_compute; reflexivity|exact E|].
  assert (normalizeMarketCombinationAccountID (account 7) = Ok (uuid_string 7)) as H7 by (vm_compute; reflexivity).
  assert (normalizeMarketCombinationAccountID (account 8) = Ok (uuid_string 8)) as H8 by (vm_compute; reflexivity).
  assert (uuid_string owner = account 7) as Hs
    by exact (eq_sym (f_equal (λ r, match r with Ok a => a | Err _ => EmptyString end) (eq_trans (eq_sym H7) Ho))).
  destruct (Hlater (combination_gone db')) as [Hg Hn]; [apply rtc_once; constructor; apply next_operation|reflexivity|].
  exists db', m, owner. split; [reflexivity|]. split; [exact Hs|]. split; [exact Hf|].
  split; [exact (Hg _)|apply (Hn _ _ _ H8); rewrite Hs; vm_compute; discriminate].
Defined.
